(* ===== verification/_CoqProject ===== *)
-Q . S2P
Prelude.v
GoString.v
GoFloat.v
GoUnicode.v
Dates.v
Emails.v
History.v
UsageFile.v
AgentBuffer.v
AgentFile.v
UsageCollector.v
UsageReads.v
UsageExact.v
HubState.v
HubStore.v
HubLimits.v
RouterMarks.v
RouterRules.v
RouterWalk.v
RouterHealth.v
RouterPool.v
RouterDeadman.v
JobText.v
Jobs.v
JobsRun.v
LoginLimiter.v
PanelSubs.v
PanelAdmin.v
PanelTraffic.v
PanelBooking.v
AlertEngine.v
AlertRuns.v
AlertTruth.v
PortMap.v
PortMapWire.v
PortMapKeep.v
PortMapTruth.v
NodeConn.v
NodeAlerts.v
PanelRuns.v
GoSeconds.v
NodeUptime.v
UptimeTruth.v
EventBus.v
GoNetip.v
GoUrl.v
WireGuard.v
NetValidate.v
NetAssign.v
BridgeSpec.v
BridgeBuild.v
BridgeCtl.v
BridgeRing.v
BridgeNames.v
HubClients.v
HubSubs.v
HubLocks.v
HubBackup.v
ShareLinks.v
HubLink.v
NodeCfg.v
HubSettings.v
RuneText.v
HubInstall.v
