(* ===== verification/Prelude.v ===== *)
(** * nasnet-panel: a verification development

    nasnet-panel-linux is a panel for a Linux router and for a fleet of small
    proxy servers ("nodes"). Four parts of it carry logic of their own and are
    modelled here.

    - The remote-nodes hub ([src/internal/remotenodes]) keeps a state file of
      nodes, subscriptions and enablements, polls each node's agent for traffic,
      keeps a history of who used what, and stops the subscriptions that are
      over their limit or past their date. Long operations on a node run as jobs,
      which pages follow. It keeps a bridge program running that carries the
      subscriptions' traffic through the nodes.
    - The agent ([src/internal/agent]) runs on a node, reads Xray's counters,
      turns them into deltas in time buckets, keeps the buckets in memory and in
      a file, hands them to the hub and drops what the hub acknowledged.
    - The router ([src/internal/network], [src/pkg/netmark]) marks packets,
      installs policy rules that keep foreign traffic inside the VPN pool, picks
      who carries it, damps the health checks of its lines, and changes the
      network behind a dead-man that reverts what nobody confirmed, after rules
      on roles, addresses and forwards have let the change through; it asks the
      routers upstream to forward ports to it, and gives them back.
    - The panel ([src/internal/subscription], [admin], [node], [account], [core],
      [wireguard], [alerting], [src/pkg/ratelimit], [src/pkg/events]) sells
      subscriptions from a database: it books the traffic its nodes report, stops
      what has run out, pauses and bans, gives out WireGuard devices, limits
      password guesses, decides when a node is down and keeps the history of it,
      and tells its operator when a node is down, crashes or is overloaded.

    ** How they interact

    Xray's counters reach [AgentBuffer.collect], whose buckets
    [AgentBuffer.GetBufferedTraffic] shows to [UsageCollector.Poll]; the hub folds
    the complete ones into its history, writes the history with
    [UsageCollector.Flush], and only then acknowledges, which is
    [AgentBuffer.AckBufferedTraffic]. [HubLimits.enforceLimits] reads
    [UsageCollector.SubscriptionLifetime] through the class
    [HubLimits.UsageReader] and edits the state with [HubState.Update]. On the
    router the dampers of [RouterHealth] say who is healthy, [RouterPool] picks
    carriers from that, [RouterRules] builds the rules around the pool's tables,
    [RouterWalk] puts them into the kernel and replays a packet's walk, and
    [RouterDeadman] wraps a change of any of it. In the panel
    [PanelBooking.persistBufferedTraffic] turns an agent's records into deltas
    and writes them in one transaction with the writers of [PanelTraffic], which
    satisfy the class [PanelTraffic.BatchWriter]; the sweeps of [PanelSubs] and
    the operations of [PanelAdmin] work on the rows those counters are in.
    [AlertEngine] hears the bus ([EventBus]) the nodes' events come on:
    [NodeConn.ObserveNodeHealth] turns observations into transitions, which it
    stores, writes to the timeline and publishes, and [NodeAlerts] runs it and the
    alerts as one system. [NodeUptime] rolls the timeline up by days, leaving out
    the gaps [PanelRuns] found between the panel's own runs. A role change passes
    [NetValidate.Validate] and reaches the rows by [NetAssign.assign]; the intent
    [RouterDeadman] puts back is the one [NetAssign] captures. The bridge's spec
    is built by [BridgeBuild.buildSpec] from the hub's nodes, at the addresses
    [BridgeNames] has for them, and [BridgeCtl] hands it to the process. A change to
    a subscription is an edit of [HubState] by [HubSubs], which then tells the nodes'
    agents with the calls of [HubClients]; the mark [HubLimits] sets takes the
    subscription out of [HubSubs.clientsOf]. Such a change holds the locks of its
    nodes, which [HubLocks] is about, and is one step for that. [HubLink] makes the
    link of a pair in the state, which clients and the panel read as [ShareLinks.Parse]
    does. [HubBackup] seals [HubState.Encode] of a state whose subscriptions carry
    [HubLimits.trafficUsed], and opens it into [HubState.Restore]. [NodeCfg.inputFor]
    takes a node's config from the state, with the clients of [HubSubs.clientsOf], and
    [HubSettings] pushes it when the settings or keys of a node change, before the edit
    of [HubState] that the links of [HubLink] are made from. [HubInstall] adds a node
    with [HubState.AddNode], sets it up when its install is over, and takes it out.

    ** Files

    - [Prelude]: machine integers, the error monad [result], sums over maps and
      lists, sorting by a key, and the tactics the files share.
    - [GoString], [GoFloat], [GoUnicode], [GoSeconds], [GoNetip], [GoUrl], [Dates]:
      what the code uses of Go's [strings], [strconv], [math], [unicode/utf8],
      [time], [net/netip] and [net/url].
    - [Emails]: [remotenodes/nodecfg/emails.go], the names clients go by.
    - [History]: [remotenodes/usage/history.go] and [ring.go], the days kept per
      node and subscription and the traffic chart.
    - [UsageFile]: [remotenodes/usage/file.go], the history's file.
    - [AgentBuffer]: [agent/traffic/store.go], [memory_store.go], [collector.go]
      and the buffered-traffic handlers of [agent/server/server.go].
    - [AgentFile]: [agent/traffic/file_store.go].
    - [UsageCollector]: [remotenodes/usage/usage.go], [collect.go], [read.go];
      [UsageReads] has the theorems on what the page reads.
    - [UsageExact]: the agent and the hub as one system, a step relation in which
      readings, polls, writes, acknowledgements, crashes and restarts of the hub
      interleave, and its invariant.
    - [HubState]: [remotenodes/model] and [remotenodes/store]; [HubStore] has the
      theorems on what an accepted state and a store are.
    - [HubLimits]: [remotenodes/manager/limits.go].
    - [RouterMarks]: [pkg/netmark/marks.go].
    - [RouterRules]: [network/usecase/rules.go] and the types around it.
    - [RouterWalk]: [walkPolicy] and [lookupTable] of [network/usecase/trace.go],
      [ReconcileRules], and where packets may leave by.
    - [RouterHealth]: [network/usecase/health.go] and [health_internet.go].
    - [RouterPool]: [network/usecase/pool_strategy.go], [domestic_failover.go].
    - [RouterDeadman]: [network/system/deadman.go].
    - [PortMap]: [network/usecase/portmap.go] with the types of
      [network/system/portmap.go] and the rules of [network/domain/portmap.go];
      [PortMapWire]: [network/system/portmap_wire.go]; [PortMapKeep] and
      [PortMapTruth] have the theorems.
    - [JobText], [Jobs]: [remotenodes/jobs], the text of a job and the engine
      with its jobs, runs and followers; [JobsRun] has their steps, the invariant
      of every reachable engine and the theorems.
    - [LoginLimiter]: [pkg/ratelimit/login_limiter.go].
    - [PanelSubs]: [subscription/domain/subscription.go] and the usage and life
      cycle of [subscription/usecase]; [PanelAdmin]: the subscriptions and users
      of [admin/usecase].
    - [PanelTraffic]: the [traffic_batch.go] of the subscription, account, core
      and wireguard repositories; [PanelBooking]: [node/usecase/traffic_batch.go],
      [wg_attribution.go] and the booking of [node_stats.go].
    - [AlertEngine]: [alerting/engine], [alerting/domain] and the statements of
      [alerting/repository] they use; [AlertRuns] has what happens to the engine
      and the moves on the tables it makes, [AlertTruth] the runs and theorems.
    - [NodeConn]: [node/usecase/node_connectivity.go] as far as nodes, with its
      statements; [NodeAlerts]: it and the alerts together; [PanelRuns]: the runs
      of the panel in the same file; [NodeUptime]:
      [node/usecase/node_uptime_history.go], with its theorems in [UptimeTruth].
    - [EventBus]: [pkg/events/bus.go].
    - [WireGuard]: [wireguard/usecase], [repository/peer_repository.go] and
      [nodebridge/peer_source.go].
    - [NetValidate]: [network/domain/validate.go] and [wan.go]; [NetAssign]: the
      role changes of [network/usecase/network_usecase.go], the edits of [lan.go]
      and [portforward.go], and the rows of [network/repository] under them.
    - [BridgeSpec]: [remotenodes/bridgespec]; [BridgeBuild]:
      [remotenodes/manager/spec.go]; [BridgeCtl]: [bridgectl/supervisor.go] and
      [manager/bridge.go]; [BridgeRing]: [bridgectl/ring.go]; [BridgeNames]:
      [manager/resolve.go].
    - [HubClients]: [remotenodes/subscriptions/clients.go]; [HubSubs]:
      [manager/subs.go], [config.go] and the reconcile of [poll.go]; [HubLocks]: the
      locks of [manager/subs.go]; [HubLink]: [remotenodes/subscriptions/link.go] and
      the links of [manager/subs.go].
    - [HubBackup]: [remotenodes/backup/backup.go] and [manager/backup.go].
    - [NodeCfg]: [remotenodes/nodecfg] and [manager/config.go]; [HubSettings]:
      [manager/settings.go], its input in [manager/input.go], and the push and keys of
      [agentops/config.go] and [keys.go].
    - [HubInstall]: [manager/install.go] and [remove.go], the login and the versions
      they read, and the steps of [agentops/steps.go]; [RuneText]: lemmas on the text of
      its messages.
    - [ShareLinks]: [pkg/xray/link] and [pkg/product/xray/link_builder.go].

    ** What the theorems show

    - Counting. [UsageExact.exactly_once]: whatever is lost, repeated or
      restarted, what the hub has counted for a user on a node and what the agent
      still holds add up to what Xray counted; [ack_drops_only_counted]: the
      agent never drops a byte the hub's file lacks; [poll_shows_everything]: a
      poll shows all of it. [AgentBuffer.collect_delivers] and
      [AgentFile.agent_crash_exact] are the agent's side, with counters that
      restart and an agent that dies; [History.hist_days_conserved],
      [prune_keeps_the_month], [ring_points_chart],
      [UsageFile.usage_file_roundtrip] and the theorems of [UsageReads] are the
      history's.
    - State. [HubState.validate_reflects] says what [Validate] accepts as a
      specification; [store_always_good] that a store only ever holds that,
      in memory and on disk; [ids_never_reused], [edits_accepted] that ids are
      fresh for ever and the model's edits pass the store's checks.
    - Limits. [HubLimits.enforce_marks], [reset_starts_again], [cuts_spaced].
    - Confinement. [RouterWalk.policy_confined] and [pinned_stays] say which
      tables a packet may use by its mark, in every kernel the panel's rules are
      in; [reconcile_safe] that a reconciliation keeps it so wherever it stops.
    - Choice and damping. [RouterPool.carriers_sound], [elected_carries],
      [switch_earned], [domestic_plan_sound]; [RouterHealth.line_changes_earned],
      [line_follows], [internet_damped], [ring_keeps_last_hour]. The two dampers
      are instances of the class [RouterHealth.Damper], against which the
      arguments are made.
    - Reverting. [RouterDeadman.dead_man_reverts], [confirm_settles],
      [rollback_gives_up].
    - Forwards. [PortMapKeep.no_forward_left]: against routers that keep the class
      [PortMapKeep.Routers], every forward is held by the uplink it is behind and
      shutdown leaves none; [PortMapWire.wire_roundtrip], [parsers_never_panic];
      [PortMapTruth.desired_exact], [accepted_rule_safe], [verdict_ok_honest];
      [gateway_loss_misroutes], [suspended_never_pruned] and
      [permanent_lease_dropped] are forwards that stay behind all the same.
    - Jobs. [JobsRun.one_job_per_node], [followers_up_to_date] (nobody blocks,
      and a follower ends with the job's last state) and [secrets_never_shown].
    - Guessing. [LoginLimiter.guesses_bounded].
    - Booking. [PanelTraffic.batched_is_one_by_one]: each batched writer is its
      deltas one by one; [PanelBooking.booking_exact], [days_match_totals] and
      [booking_all_or_nothing]: a booking counts each record once, the days add
      up to the totals, and one that fails leaves everything to the next sweep;
      [sweep_drops_growth]: what grows meanwhile at the agent is lost.
    - Subscriptions. [PanelSubs.sweeps_settle], [PanelAdmin.unban_undoes_ban],
      [rows_stay_typed]; [add_data_revives_expired] is a row that comes back
      though its date has passed.
    - Alerts. [AlertTruth.alerts_disciplined]: fires and resolves alternate in
      the log, spaced by the cooldown, and are what was notified;
      [offline_alert_true], [offline_alert_comes], [offline_alert_goes]: an
      offline alert is on when it should be and only then;
      [missing_stats_resolve] and [restart_strands_alert] are two cases in which
      an alert on a node's load is not.
    - Nodes up and down. [NodeConn.outage_real], [timeline_exact],
      [debounce_exact]: an outage is published and written exactly when the node
      failed for the whole window; [NodeAlerts.alert_means_down] carries that to
      the alert; [PanelRuns.gaps_true]: the panel's gaps are when it was not
      running; [UptimeTruth.rollup_exact], [backfill_complete]: a day's figures
      count its seconds, and no finished day is left out;
      [stale_candidate_outage], [pruned_outage_vanishes] and
      [failed_day_skipped] are figures that are wrong all the same.
      [EventBus.bus_delivers], [bus_never_panics] are the bus's.
    - Devices. [WireGuard.peers_placed], [free_ip_lowest], [pause_cuts_off];
      [cap_exceeded] is a cap that a pause gets around.
    - Network changes. [NetAssign.roles_sound]: no accepted change breaks the
      unique indices or lays the LAN over a range it may not touch;
      [rollback_restores]: a captured intent comes back whole;
      [forwards_disjoint]; [mgmt_unreachable], [evict_takes_last_uplink],
      [role_only_overlap], [master_not_stored] and [create_named_collides] are
      what the rules refuse or let through against their own words.
    - The bridge. [BridgeCtl.one_bridge], [backoff_doubles], [bridge_in_step]: one
      process at most, restarted at widening waits, and in step with the plan;
      [BridgeBuild.build_blames_nobody]: a bad node is left out and spoils nothing;
      [BridgeSpec.frame_roundtrip]; [BridgeRing.ring_keeps_last];
      [BridgeNames.names_true], [lookups_paced].
    - Links. [HubSubs.links_work], [push_settles]: whatever is lost on the way, a node
      that was put right serves exactly the links the state stands for;
      [replace_honest]: replacing a link does what it reports;
      [HubClients.reconcile_confined]: putting a node right touches nothing else;
      [replaced_link_revives] and [replace_answer_lost] are replaced links that do
      not work. [HubLink.handed_link_served]: a link that is handed out names the
      client its node serves; [link_given] says when there is one, [hub_link_read] and
      [same_layout] that it is read as it was meant and is laid out as the panel's.
    - Locks. [HubLocks.locks_exclusive], [locks_no_deadlock]: no node has two holders,
      and however callers are scheduled they all get done.
    - Backups. [HubBackup.backup_comes_back]: a backup brings everything back on a
      fresh install, limits with what was used of them; [import_all_or_nothing];
      [opens_what_was_sealed], [import_asks_little]: only what was sealed under the
      passphrase opens, and no file makes the key derivation expensive.
    - Node configs. [NodeCfg.node_confined]: traffic of the entry is blocked, leaves
      from the node or goes into the tunnel by its address alone; [input_reflects],
      [config_fits]: what is accepted, and that a config's parts fit;
      [state_config_builds]: the clients of a reachable state are never refused.
    - Settings and keys. [HubSettings.links_open]: a link names the port, name, short
      id and key of the entry its node runs; [settings_settle], [rotate_settles]: a job
      leaves the state and the node agreeing or says that it could not;
      [cut_off_disagrees]: unless it was cut off.
    - Installs. [HubInstall.servers_known]: no server is left with an agent the state
      does not have, but by force; [install_ends]: an install ends as it says, panics
      included; [failure_recorded], [failure_told]: a failure can always be saved, and
      the job's error always says what was done about it.
    - Share links. [ShareLinks.link_comes_back], [customer_link_keeps_template]: a
      VLESS or Trojan link is read back as it was, and a customer's link is the
      template's but for its credential and name; [spider_lost], [splithttp_lost],
      [six_unreadable], [six_template_broken], [colon_password_cut] and
      [shadowsocks_unreadable] are what does not come back.

    ** Modelling choices

    Go's [uint64] and [int64] are [Z] with the wrap-around written out where it
    can happen; [int]s that stay small are plain [Z]. Times are nanoseconds (or
    seconds, where the code keeps Unix seconds) since the epoch. Go maps are
    [gmap]s, slices are lists, strings are byte strings. A call that can fail
    from outside (the disk, the network, an agent) takes its outcome as an
    argument; a database statement that may fail is asked of a function from
    statements to outcomes, so that a theorem on every such function covers every
    pattern of failures. In the panel an event or a sweep is handled at one
    moment, byte counts are unbounded, and a PostgreSQL date is a UTC day. The
    job engine's lock makes its operations atomic; its goroutines are steps that
    interleave. The loops are structural or folds; the only fuel is in
    [GoString.utoa_go] (20 digits, enough for 64 bits),
    [GoUnicode.segments_go] (the number of bytes, each step takes one at least),
    the loops that cut a list into batches (its length, each batch takes one at
    least), the binary search [AlertEngine.search_after] (the length, each
    round halves the interval), the groups of an IPv6 address
    ([GoNetip.groups], eight as in the address), the search for a free address
    ([WireGuard.next_free], the used ones and four: every address skipped is one
    of them, the network's, the broadcast's or the server's) and the tries at a
    device (eight, as in the code).
    Code outside the repository is a parameter: case folding, [netip.ParseAddr]
    and the parsing of certificates in [HubState], [net.ParseIP] and
    [net.ParseCIDR] in [RouterWalk], the kernel behind [RouterWalk.RuleBackend],
    snapshots of the network behind [RouterDeadman.Snapshotter]; the mapper and
    the routers are the class [PortMap.PortMapper], with [netip.ParseAddr] a
    parameter of the passes, and [PortMapKeep.sim] an instance; encoding/json, the
    hash of a spec and the text of IPv6 addresses are parameters of the bridge. A
    call to a node's agent gets through, is lost, or is done with its answer lost;
    what stands in front of Xray's words in an error is a parameter. An operation on
    subscriptions holds its nodes' locks, so it is one step. scrypt and AES-GCM are
    parameters of the backup, the cipher with the laws that it opens exactly what it
    sealed and adds sixteen bytes; JSON is a parameter of backups and of VMess links.
    Xray's router is a parameter of [NodeCfg] with its documented rule, that the first
    rule whose conditions all hold decides and the first outbound takes the rest; the
    built-in list of domestic ranges is a parameter that is not empty; the pairing of
    X25519 keys is a parameter of [HubSettings].
    A URL's host follows the rules of Go 1.26 and later, the repository being written
    for Go 1.27: an address with colons has to be in brackets.

    ** Not modelled

    The web panels, HTTP handlers, the rest of the repositories on the database,
    the Telegram bot, generated protobuf code, the panel's own Xray configuration, the
    commands an install runs over SSH and the update machinery are not part of the
    development: they are input and output around the logic above. Left out of the
    parts that are modelled are the router's health loop, which is calls into the
    kernel and system services between the dampers and the pool, the mapper's exchanges with UPnP routers, the status of
    reverse tunnels, the gate that keeps one sweep per node, and of links the
    customer's VMess and Hysteria2 ones. *)

From stdpp Require Export prelude base numbers list fin_maps gmap strings sorting.
From Stdlib Require Export ZArith Lia Ascii.

#[global] Open Scope Z_scope.

(** ** Machine integers

    Go's [uint64] and [int64] are modelled by [Z] with the wrap-around written
    out. [wrapU] reduces modulo 2^64; [wrapS] reduces to the signed range. *)

Definition two64 : Z := 2 ^ 64.
Definition maxU64 : Z := 2 ^ 64 - 1.
Definition maxI64 : Z := 2 ^ 63 - 1.
Definition minI64 : Z := - 2 ^ 63.

Definition wrapU (z : Z) : Z := z mod two64.
Definition wrapS (z : Z) : Z := (z + 2 ^ 63) mod two64 - 2 ^ 63.

Definition isU64 (z : Z) : Prop := 0 <= z <= maxU64.
Definition isI64 (z : Z) : Prop := minI64 <= z <= maxI64.

(** Unfolds the integer constants, so that [lia] sees numerals. *)
Ltac unfold_ints :=
  unfold wrapU, wrapS, isU64, isI64, two64, maxU64, maxI64, minI64 in *.

(** Closes linear goals on the machine integers. *)
Ltac word_lia := unfold_ints; Z.div_mod_to_equations; lia.

Lemma wrapU_id z : isU64 z -> wrapU z = z.
Proof. unfold_ints; intros; apply Z.mod_small; lia. Qed.

Lemma wrapS_id z : isI64 z -> wrapS z = z.
Proof. unfold_ints; intros; rewrite Z.mod_small; lia. Qed.

Lemma wrapU_range z : isU64 (wrapU z).
Proof. unfold_ints. pose proof (Z.mod_pos_bound z (2 ^ 64)). lia. Qed.

Lemma wrapS_range z : isI64 (wrapS z).
Proof. unfold_ints. pose proof (Z.mod_pos_bound (z + 2 ^ 63) (2 ^ 64)). lia. Qed.

(** ** Results

    A Go function that returns [(T, error)] returns a [result]. *)

Inductive result (E A : Type) : Type :=
| Ok (a : A)
| Err (e : E).
Arguments Ok {E A} a.
Arguments Err {E A} e.

Definition rbind {E A B} (f : A -> result E B) (r : result E A) : result E B :=
  match r with Ok a => f a | Err e => Err e end.

Declare Scope go_scope.
Delimit Scope go_scope with go.
Notation "x <~ c ;; k" := (rbind (fun x => k) c)
  (at level 100, c at next level, right associativity) : go_scope.
Notation "c ;;~ k" := (rbind (fun _ => k) c)
  (at level 100, right associativity) : go_scope.

(** A loop that returns at the first error. *)
Fixpoint foldM {E A B} (f : A -> B -> result E A) (a : A) (l : list B) : result E A :=
  match l with [] => Ok a | b :: l => rbind (fun a => foldM f a l) (f a b) end.

(** [if bad { return err }] *)
Definition refuse {E} (bad : bool) (e : E) : result E unit := if bad then Err e else Ok tt.

Lemma rbind_Ok {E A B} (f : A -> result E B) (r : result E A) b :
  rbind f r = Ok b <-> exists a, r = Ok a /\ f a = Ok b.
Proof. destruct r; simpl; naive_solver. Qed.

Lemma refuse_Ok {E} bad (e : E) u : refuse bad e = Ok u <-> bad = false.
Proof. destruct bad, u; simpl; naive_solver. Qed.

Definition is_ok {E A} (r : result E A) : bool :=
  match r with Ok _ => true | Err _ => false end.

(** ** Sums over finite maps

    Go code adds up a map by ranging over it in an unspecified order; the sum
    does not depend on it. *)

Definition msum {K V} `{Countable K} (f : K -> V -> Z) (m : gmap K V) : Z :=
  map_fold (fun k v acc => f k v + acc) 0 m.

Section msum.
Context {K V : Type} `{Countable K}.
Implicit Types (m : gmap K V) (f g : K -> V -> Z).

Lemma msum_empty f : msum f ∅ = 0.
Proof. apply map_fold_empty. Qed.

Lemma msum_insert f m k v :
  m !! k = None -> msum f (<[k:=v]> m) = f k v + msum f m.
Proof.
  intros Hk. unfold msum. rewrite map_fold_insert_L; [done| |done].
  intros; lia.
Qed.

Lemma msum_delete f m k v :
  m !! k = Some v -> msum f m = f k v + msum f (delete k m).
Proof.
  intros Hk. rewrite <-(insert_delete_id m k v) at 1 by done.
  apply msum_insert, lookup_delete_eq.
Qed.

Lemma msum_insert_any f m k v :
  msum f (<[k:=v]> m) = f k v + msum f (delete k m).
Proof.
  rewrite <-insert_delete_eq. apply msum_insert, lookup_delete_eq.
Qed.

Lemma msum_ext f g m :
  (forall k v, m !! k = Some v -> f k v = g k v) -> msum f m = msum g m.
Proof.
  induction m as [|k v m Hk _ IH] using map_first_key_ind; intros Hfg.
  - by rewrite !msum_empty.
  - rewrite !msum_insert by done. rewrite (Hfg k v) by apply lookup_insert_eq.
    rewrite IH; [done|]. intros k' v' Hk'. apply Hfg.
    rewrite lookup_insert_ne; [done|]. congruence.
Qed.

Lemma msum_zero f m : (forall k v, m !! k = Some v -> f k v = 0) -> msum f m = 0.
Proof.
  induction m as [|k v m Hk _ IH] using map_first_key_ind; intros Hf; [apply msum_empty|].
  rewrite msum_insert by done. rewrite (Hf k v) by apply lookup_insert_eq.
  rewrite IH; [done|]. intros k' v' Hk'. apply (Hf k'). rewrite lookup_insert_ne; [done|]. congruence.
Qed.

Lemma msum_nonneg f m :
  (forall k v, m !! k = Some v -> 0 <= f k v) -> 0 <= msum f m.
Proof.
  induction m as [|k v m Hk _ IH] using map_first_key_ind; intros Hf.
  - by rewrite msum_empty.
  - rewrite msum_insert by done. pose proof (Hf k v (lookup_insert_eq _ _ _)).
    enough (0 <= msum f m) by lia. apply IH. intros k' v' Hk'. apply Hf.
    rewrite lookup_insert_ne; [done|]. congruence.
Qed.

Lemma msum_plus f g m : msum (fun k v => f k v + g k v) m = msum f m + msum g m.
Proof.
  induction m as [|k v m Hk _ IH] using map_first_key_ind.
  - by rewrite !msum_empty.
  - rewrite !msum_insert by done. lia.
Qed.

(** A sum splits along any decidable predicate on the keys. *)
Lemma msum_filter f m (P : K -> Prop) `{!forall k, Decision (P k)} :
  msum f m = msum f (filter (fun kv => P kv.1) m)
           + msum f (filter (fun kv => ~ P kv.1) m).
Proof.
  induction m as [|k v m Hk _ IH] using map_first_key_ind.
  - by rewrite !map_filter_empty, !msum_empty.
  - rewrite msum_insert by done. destruct (decide (P k)) as [Hp|Hp].
    + rewrite map_filter_insert_True by done.
      rewrite (map_filter_insert_False (fun kv => ~ P kv.1)) by (simpl; tauto).
      rewrite msum_insert by (by apply map_lookup_filter_None_2; left).
      rewrite (delete_id m k) by done. lia.
    + rewrite (map_filter_insert_False (fun kv => P kv.1)) by done.
      rewrite (map_filter_insert_True (fun kv => ~ P kv.1)) by done.
      rewrite (msum_insert _ (filter (fun kv => ~ P kv.1) m))
        by (by apply map_lookup_filter_None_2; left).
      rewrite (delete_id m k) by done. lia.
Qed.

(** One entry is at most the sum of non-negative entries. *)
Lemma msum_lookup_le f m k v :
  (forall k v, m !! k = Some v -> 0 <= f k v) ->
  m !! k = Some v -> f k v <= msum f m.
Proof.
  intros Hf Hk. rewrite (msum_delete f m k v) by done.
  enough (0 <= msum f (delete k m)) by lia. apply msum_nonneg.
  intros k' v' [_ Hk']%lookup_delete_Some. eauto.
Qed.
End msum.

(** ** Lists *)

(** A key that tells the kept elements of a list apart by position has no
    duplicates among them. *)
Lemma NoDup_fmap_filter {A B} (f : A -> B) (P : A -> Prop) `{!forall x, Decision (P x)} (l : list A) :
  (forall i j x y, l !! i = Some x -> l !! j = Some y -> P x -> P y -> f x = f y -> i = j) ->
  NoDup (f <$> filter P l).
Proof.
  induction l as [|x l IH]; intros Hinj; [constructor|].
  assert (NoDup (f <$> filter P l)) as Hl.
  { apply IH. intros i j y z Hi Hj Hy Hz He. assert (S i = S j) by (by eapply Hinj). congruence. }
  rewrite filter_cons. case_decide as Hx; [|done]. simpl. constructor; [|done].
  intros (y & He & [Hy Hin]%list_elem_of_filter)%list_elem_of_fmap.
  apply list_elem_of_lookup in Hin as [j Hj].
  by specialize (Hinj 0%nat (S j) x y eq_refl Hj Hx Hy He).
Qed.

Lemma NoDup_fmap_inj_on {A B} (f : A -> B) (l : list A) x y : NoDup (f <$> l) -> x ∈ l -> y ∈ l -> f x = f y -> x = y.
Proof.
  intros Hnd [i Hi]%list_elem_of_lookup [j Hj]%list_elem_of_lookup Heq.
  assert (i = j) as ->; [|congruence].
  apply (NoDup_lookup (f <$> l) i j (f x) Hnd); rewrite list_lookup_fmap; [by rewrite Hi|by rewrite Hj, Heq].
Qed.

(** Sorting keys that are all different sorts them strictly. *)
Lemma StronglySorted_strict {A} (f : A -> Z) (l : list A) :
  NoDup (f <$> l) -> StronglySorted (fun a b => f a <= f b) l ->
  StronglySorted (fun a b => f a < f b) l.
Proof.
  induction l as [|x l IH]; intros Hnd Hs; [constructor|].
  inversion Hs as [|? ? Hs' Hall]; subst. inversion Hnd as [|? ? Hni Hnd']; subst.
  constructor; [by apply IH|]. rewrite Forall_forall in Hall |- *. intros y Hy.
  specialize (Hall y Hy). assert (f x <> f y); [|lia].
  intros He. apply Hni. apply list_elem_of_fmap. by exists y.
Qed.

(** ** Sorting by a key: [slices.SortFunc] with [cmp.Compare] of a number *)

Definition key_le {A} (f : A -> Z) (a b : A) : Prop := f a <= f b.

Lemma StronglySorted_lookup_lt {A} (R : A -> A -> Prop) (l : list A) : StronglySorted R l ->
  forall i j x y, (i < j)%nat -> l !! i = Some x -> l !! j = Some y -> R x y.
Proof.
  induction 1 as [|a l _ IH Ha]; intros i j x y Hij Hi Hj; [done|]. destruct j as [|j]; [lia|]. destruct i as [|i]; simpl in *.
  - simplify_eq. by eapply Forall_lookup_1.
  - apply (IH i j); [lia|done..].
Qed.

Lemma list_filter_all {A} (P : A -> Prop) `{!forall x, Decision (P x)} (l : list A) : Forall P l -> filter P l = l.
Proof. induction 1 as [|x l Hx _ IH]; [done|]. by rewrite filter_cons_True, IH. Qed.

Lemma list_filter_none {A} (P : A -> Prop) `{!forall x, Decision (P x)} (l : list A) : Forall (fun x => ~ P x) l -> filter P l = [].
Proof. induction 1 as [|x l Hx _ IH]; [done|]. by rewrite filter_cons_False. Qed.

Lemma StronglySorted_filter {A} (R : A -> A -> Prop) (P : A -> Prop) `{!forall x, Decision (P x)} (l : list A) :
  StronglySorted R l -> StronglySorted R (filter P l).
Proof.
  induction 1 as [|x l Hs IH Hall]; [constructor|]. rewrite filter_cons. case_decide; [|done]. constructor; [done|].
  rewrite Forall_forall in Hall |- *. intros y [_ Hy]%list_elem_of_filter. by apply Hall.
Qed.

Section sort_on.
Context {A : Type} (f : A -> Z).

#[global] Instance key_le_dec a b : Decision (key_le f a b).
Proof. unfold key_le. apply _. Defined.
#[global] Instance key_le_trans : Transitive (key_le f).
Proof. intros a b c. unfold key_le. lia. Qed.
#[global] Instance key_le_total : Total (key_le f).
Proof. intros a b. unfold key_le. lia. Qed.

Definition sort_on (l : list A) : list A := merge_sort (key_le f) l.

Lemma sort_on_perm l : sort_on l ≡ₚ l.
Proof. apply merge_sort_Permutation. Qed.

Lemma sort_on_le l : StronglySorted (key_le f) (sort_on l).
Proof. apply StronglySorted_merge_sort; apply _. Qed.

Lemma sort_on_sorted l : NoDup (f <$> l) -> StronglySorted (fun a b => f a < f b) (sort_on l).
Proof.
  intros Hnd. apply StronglySorted_strict; [by rewrite sort_on_perm|].
  apply (StronglySorted_merge_sort (key_le f)).
Qed.

(** A sorted list of images is the image of a list with the same elements. *)
Lemma sort_on_fmap {B} (g : B -> A) l : exists l', sort_on (g <$> l) = g <$> l' /\ l' ≡ₚ l.
Proof.
  destruct (Permutation_map_inv g l (sort_on_perm (g <$> l))) as (l' & ? & ?).
  exists l'. by split.
Qed.
End sort_on.

(** Two strictly sorted lists with the same elements are equal. *)
Lemma StronglySorted_unique_strict {A} (f : A -> Z) (l k : list A) :
  StronglySorted (fun a b => f a < f b) l -> StronglySorted (fun a b => f a < f b) k ->
  l ≡ₚ k -> l = k.
Proof.
  intros Hl. revert k. induction Hl as [|a l Hl IH Ha]; intros k Hk Hp.
  - symmetry. by apply Permutation_nil.
  - destruct Hk as [|b k Hk Hb]; [by apply Permutation_nil_r in Hp|].
    assert (a = b) as ->.
    { rewrite Forall_forall in Ha, Hb.
      assert (a ∈ b :: k) as Hin by (rewrite <-Hp; left).
      assert (b ∈ a :: l) as Hin' by (rewrite Hp; left).
      apply elem_of_cons in Hin as [|Hin]; [done|]. apply elem_of_cons in Hin' as [|Hin']; [done|].
      specialize (Ha _ Hin'). specialize (Hb _ Hin). lia. }
    f_equal. apply IH; [done|]. by apply Permutation_cons_inv in Hp.
Qed.

(** ** Sums over lists *)

Definition lsum {A} (f : A -> Z) (l : list A) : Z := foldr (fun a acc => f a + acc) 0 l.

Lemma lsum_cons {A} (f : A -> Z) a l : lsum f (a :: l) = f a + lsum f l.
Proof. done. Qed.

Lemma lsum_app {A} (f : A -> Z) l k : lsum f (l ++ k) = lsum f l + lsum f k.
Proof. induction l as [|a l IH]; [done|]. rewrite <-app_comm_cons, !lsum_cons, IH. lia. Qed.

Lemma lsum_perm {A} (f : A -> Z) l k : l ≡ₚ k -> lsum f l = lsum f k.
Proof. induction 1; simpl; lia. Qed.

Lemma lsum_fmap {A B} (f : B -> Z) (g : A -> B) l : lsum f (g <$> l) = lsum (fun a => f (g a)) l.
Proof. induction l as [|a l IH]; [done|]. rewrite fmap_cons, !lsum_cons. by rewrite IH. Qed.

Lemma lsum_ext {A} (f g : A -> Z) l : (forall a, a ∈ l -> f a = g a) -> lsum f l = lsum g l.
Proof.
  induction l as [|a l IH]; intros H; [done|]. simpl.
  rewrite (H a) by left. rewrite IH; [done|]. intros b Hb. apply H. by right.
Qed.

Lemma lsum_nonneg {A} (f : A -> Z) l : (forall a, a ∈ l -> 0 <= f a) -> 0 <= lsum f l.
Proof.
  induction l as [|a l IH]; intros H; simpl; [lia|].
  pose proof (H a ltac:(left)). enough (0 <= lsum f l) by (unfold lsum in *; lia).
  apply IH. intros b Hb. apply H. by right.
Qed.

Lemma msum_lsum {K V} `{Countable K} (f : K -> V -> Z) (m : gmap K V) :
  msum f m = lsum (fun kv => f kv.1 kv.2) (map_to_list m).
Proof.
  induction m as [|k v m Hk _ IH] using map_first_key_ind.
  - by rewrite msum_empty, map_to_list_empty.
  - rewrite msum_insert by done. rewrite (lsum_perm _ _ _ (map_to_list_insert m k v Hk)). simpl. lia.
Qed.

(** A sum over the part of a map a predicate keeps. *)
Lemma msum_filter_if {K V} `{Countable K} (f : K -> V -> Z) (m : gmap K V)
    (P : K * V -> Prop) `{!forall kv, Decision (P kv)} :
  msum f (filter P m) = msum (fun k v => if decide (P (k, v)) then f k v else 0) m.
Proof.
  induction m as [|k v m Hk _ IH] using map_first_key_ind.
  - by rewrite map_filter_empty, !msum_empty.
  - rewrite (msum_insert _ m) by done. destruct (decide (P (k, v))).
    + rewrite map_filter_insert_True by done.
      rewrite msum_insert by (by apply map_lookup_filter_None_2; left). lia.
    + rewrite map_filter_insert_False by done. rewrite delete_id by done. lia.
Qed.

Lemma foldl_keeps_in {A B} (P : A -> Prop) (f : A -> B -> A) l a :
  (forall a b, b ∈ l -> P a -> P (f a b)) -> P a -> P (foldl f a l).
Proof.
  revert a. induction l as [|b l IH]; intros a Hf Ha; simpl; [done|].
  apply IH; [intros; apply Hf; [by right|done]|apply Hf; [left|done]].
Qed.

Lemma foldl_keeps {A B} (P : A -> Prop) (f : A -> B -> A) l a : (forall a b, P a -> P (f a b)) -> P a -> P (foldl f a l).
Proof. intros Hf. apply foldl_keeps_in. auto. Qed.

(** A fold that keeps [I] and, once it holds, [P], reaches [P] if one of its
    steps does. *)
Lemma foldl_reaches {A B} (I P : A -> Prop) (f : A -> B -> A) l a0 b :
  (forall a c, c ∈ l -> I a -> I (f a c) /\ (P a -> P (f a c))) -> b ∈ l -> (forall a, I a -> P (f a b)) -> I a0 -> P (foldl f a0 l).
Proof.
  intros Hstep Hb Hp. enough (forall a, I a -> P a \/ b ∈ l -> P (foldl f a l)) as H by (intros HI; apply H; auto).
  clear Hb. revert Hstep. induction l as [|x l IH]; intros Hstep a HI HPb; simpl; [by destruct HPb as [|?%elem_of_nil]|].
  destruct (Hstep a x ltac:(left) HI) as [HI' HP']. apply IH; [intros; apply Hstep; [by right|done]|done|].
  destruct HPb as [|[->|]%elem_of_cons]; auto.
Qed.

(** ** Loops that treat each key once

    A loop whose step for [b] changes what [p] sees at [key b] only, and whose
    keys are all different, changes each key by its own step. *)
Lemma foldl_at {A B K X} `{EqDecision K} (p : A -> K -> X) (key : B -> K) (f : A -> B -> A) (g : B -> X -> X) l a0 :
  (forall a b, b ∈ l -> p a (key b) = p a0 (key b) ->
     forall k, p (f a b) k = if decide (k = key b) then g b (p a k) else p a k) ->
  NoDup (key <$> l) ->
  (forall b, b ∈ l -> p (foldl f a0 l) (key b) = g b (p a0 (key b))) /\
  (forall k, k ∉ key <$> l -> p (foldl f a0 l) k = p a0 k).
Proof.
  intros Hf Hnd. enough (H' : forall a, (forall k, k ∈ key <$> l -> p a k = p a0 k) ->
    (forall b, b ∈ l -> p (foldl f a l) (key b) = g b (p a (key b))) /\
    (forall k, k ∉ key <$> l -> p (foldl f a l) k = p a k)) by (apply H'; done).
  induction l as [|b l IH]; intros a Ha; [split; [set_solver|done]|].
  rewrite fmap_cons in Hnd, Ha |- *. simpl foldl. apply NoDup_cons in Hnd as [Hb Hnd].
  pose proof (Hf a b ltac:(left) (Ha _ ltac:(left))) as Hstep.
  destruct (IH (fun a c Hc => Hf a c ltac:(by right)) Hnd (f a b)) as [IH1 IH2].
  { intros k Hk. rewrite Hstep, decide_False by congruence. apply Ha. by right. }
  split.
  - intros c [->|Hc]%elem_of_cons.
    + rewrite IH2, Hstep, decide_True by done. done.
    + rewrite IH1 by done. rewrite Hstep, decide_False; [done|].
      intros Heq. apply Hb. rewrite <-Heq. by apply list_elem_of_fmap_2.
  - intros k Hk. rewrite IH2 by set_solver. rewrite Hstep, decide_False; [done|set_solver].
Qed.
