(* ===== verification/GoString.v ===== *)
(** * Go's string helpers: decimal printing and parsing, prefixes and suffixes

    What the sources use of [strconv] and [strings]. Strings are Go's byte
    strings. *)

From S2P Require Import Prelude.

Fixpoint CutPrefix (s p : string) {struct p} : option string :=
  match p, s with
  | EmptyString, _ => Some s
  | String a p', String b s' => if decide (a = b) then CutPrefix s' p' else None
  | String _ _, EmptyString => None
  end.

Fixpoint CutSuffix (s p : string) : option string :=
  if decide (s = p) then Some EmptyString else
  match s with
  | EmptyString => None
  | String c s' => String c <$> CutSuffix s' p
  end.

Definition HasPrefix (s p : string) : bool :=
  match CutPrefix s p with Some _ => true | None => false end.

(** ** Decimal integers: [strconv.Itoa] and [strconv.Atoi] on 64-bit [int] *)

Definition digit (d : Z) : ascii := ascii_of_N (Z.to_N (48 + d)).

Definition digit_val (c : ascii) : option Z :=
  let n := Z.of_N (N_of_ascii c) in
  if (48 <=? n) && (n <=? 57) then Some (n - 48) else None.

(** Prints [n] in front of [acc]. Twenty digits hold every 64-bit value. *)
Fixpoint utoa_go (fuel : nat) (n : Z) (acc : string) : string :=
  match fuel with
  | O => acc
  | S fuel =>
      let acc := String (digit (n mod 10)) acc in
      if n <? 10 then acc else utoa_go fuel (n / 10) acc
  end.

Definition utoa (n : Z) : string := utoa_go 20 n EmptyString.

Definition Itoa (n : Z) : string :=
  if n <? 0 then String "-" (utoa (- n)) else utoa n.

Fixpoint parse_digits (acc : Z) (s : string) : option Z :=
  match s with
  | EmptyString => Some acc
  | String c s => d ← digit_val c; parse_digits (10 * acc + d) s
  end.

Definition parse_unsigned (s : string) : option Z :=
  match s with EmptyString => None | _ => parse_digits 0 s end.

Definition Atoi (s : string) : option Z :=
  n ← match s with
      | String "-" s => Z.opp <$> parse_unsigned s
      | String "+" s => parse_unsigned s
      | _ => parse_unsigned s
      end;
  if (minI64 <=? n) && (n <=? maxI64) then Some n else None.

Lemma digit_val_digit d : 0 <= d <= 9 -> digit_val (digit d) = Some d.
Proof.
  intros H. assert (d ∈ seqZ 0 10) as Hin by (apply elem_of_seqZ; lia).
  vm_compute in Hin.
  repeat (apply elem_of_cons in Hin as [->|Hin]; [reflexivity|]).
  by apply not_elem_of_nil in Hin.
Qed.

(** The digit of a value is never a sign. *)
Lemma digit_not_sign d : 0 <= d <= 9 -> digit d <> "-"%char /\ digit d <> "+"%char.
Proof.
  intros H. assert (d ∈ seqZ 0 10) as Hin by (apply elem_of_seqZ; lia).
  vm_compute in Hin.
  repeat (apply elem_of_cons in Hin as [->|Hin]; [split; discriminate|]).
  by apply not_elem_of_nil in Hin.
Qed.

Lemma parse_utoa_go fuel n acc a :
  0 <= n < 10 ^ Z.of_nat fuel ->
  exists k, 0 <= k /\ n < 10 ^ k /\
  parse_digits a (utoa_go fuel n acc) = parse_digits (a * 10 ^ k + n) acc.
Proof.
  revert n acc. induction fuel as [|fuel IH]; intros n acc Hn.
  - exists 0. simpl. split; [lia|]. split; [lia|]. f_equal. lia.
  - cbn [utoa_go]. destruct (Z.ltb_spec n 10).
    + exists 1. split; [lia|]. split; [lia|]. cbn [parse_digits].
      rewrite Z.mod_small by lia. rewrite digit_val_digit by lia. simpl.
      f_equal. lia.
    + destruct (IH (n / 10) (String (digit (n mod 10)) acc)) as (k & Hk & Hb & ->).
      { rewrite Nat2Z.inj_succ, Z.pow_succ_r in Hn by lia.
        split; [apply Z.div_pos; lia|]. apply Z.div_lt_upper_bound; lia. }
      exists (k + 1). split; [lia|]. cbn [parse_digits].
      pose proof (Z.mod_pos_bound n 10).
      rewrite digit_val_digit by lia. simpl. rewrite Z.pow_add_r by lia.
      split; [Z.div_mod_to_equations; nia|]. f_equal.
      rewrite (Z.div_mod n 10) at 3 by lia. lia.
Qed.

Lemma utoa_go_head fuel n acc :
  (0 < fuel)%nat -> 0 <= n -> exists d s, 0 <= d <= 9 /\ utoa_go fuel n acc = String (digit d) s.
Proof.
  revert n acc. induction fuel as [|fuel IH]; intros n acc Hf Hn; [lia|].
  cbn [utoa_go]. pose proof (Z.mod_pos_bound n 10).
  destruct (Z.ltb_spec n 10); [exists (n mod 10); eexists; split; [lia|done]|].
  destruct fuel as [|fuel]; [exists (n mod 10); eexists; split; [lia|done]|].
  apply IH; [lia|]. apply Z.div_pos; lia.
Qed.

Lemma parse_utoa n : 0 <= n < 10 ^ 20 -> parse_unsigned (utoa n) = Some n.
Proof.
  intros Hn. unfold utoa. destruct (utoa_go_head 20 n EmptyString) as (d & s & Hd & He); [lia..|].
  unfold parse_unsigned. rewrite He, <-He.
  destruct (parse_utoa_go 20 n EmptyString 0) as (k & _ & _ & ->); [lia|]. done.
Qed.

(** Printing and parsing back gives the same [int]. *)
Lemma Atoi_Itoa n : isI64 n -> Atoi (Itoa n) = Some n.
Proof.
  intros Hn. unfold Itoa, Atoi. destruct (Z.ltb_spec n 0).
  - rewrite parse_utoa by word_lia. simpl. unfold_ints.
    rewrite !(proj2 (Z.leb_le _ _)) by lia. simpl. f_equal. lia.
  - pose proof (parse_utoa n ltac:(word_lia)) as Hp.
    destruct (utoa_go_head 20 n EmptyString) as (d & s & Hd & He); [lia..|].
    unfold utoa in *. rewrite He in *.
    destruct (digit_not_sign d Hd) as [Hm Hpl].
    assert (match String (digit d) s with
            | String "-" s => Z.opp <$> parse_unsigned s
            | String "+" s => parse_unsigned s
            | _ => parse_unsigned (String (digit d) s) end = Some n) as ->.
    { generalize dependent (digit d). intros c Hp _ ? ?.
      destruct c as [[] [] [] [] [] [] [] []]; try done. }
    simpl. unfold_ints. by rewrite !(proj2 (Z.leb_le _ _)) by lia.
Qed.

(** ** Prefixes and suffixes *)

Lemma string_app_cons c s t : String c s +:+ t = String c (s +:+ t).
Proof. reflexivity. Qed.

Lemma CutPrefix_app p s : CutPrefix (p +:+ s) p = Some s.
Proof. induction p as [|a p IH]; [done|]. rewrite string_app_cons. simpl. by rewrite decide_True. Qed.

Lemma CutPrefix_Some s p r : CutPrefix s p = Some r -> s = p +:+ r.
Proof.
  revert s. induction p as [|a p IH]; intros s; simpl; [by intros [= ->]|].
  destruct s as [|b s]; [done|]. case_decide; [|done]. intros ->%IH. by subst.
Qed.

Lemma CutSuffix_Some s p r : CutSuffix s p = Some r -> s = r +:+ p.
Proof.
  revert r. induction s as [|c s IH]; intros r; simpl; (case_decide; [by intros [= <-]|]).
  - done.
  - destruct (CutSuffix s p) as [r'|] eqn:E; [|done]. intros [= <-].
    rewrite string_app_cons. f_equal. by apply IH.
Qed.

Lemma length_string_app (s t : string) :
  String.length (s +:+ t) = (String.length s + String.length t)%nat.
Proof. induction s as [|c s IH]; [done|]. rewrite string_app_cons. simpl. by rewrite IH. Qed.

Lemma CutSuffix_app s p : CutSuffix (s +:+ p) p = Some s.
Proof.
  induction s as [|c s IH].
  - change (EmptyString +:+ p) with p. destruct p; cbn [CutSuffix]; by case_decide.
  - rewrite string_app_cons. cbn [CutSuffix]. rewrite decide_False; [by rewrite IH|].
    intros He%(f_equal String.length). simpl in He. rewrite length_string_app in He. lia.
Qed.
