(* ===== verification/GoFloat.v ===== *)
(** * Go's float64, as the sources use it

    Rates are computed in IEEE 754 binary64. The operations are those of the
    Standard Library's [SpecFloat], which is the format itself and no axiom:
    conversion from an integer, addition and division to nearest even,
    [math.Round], and conversion back to [uint64]. *)

From S2P Require Import Prelude.
From Stdlib Require Export Floats.SpecFloat.

Definition float64 := spec_float.

Definition f64_of_int (z : Z) : float64 := binary_normalize 53 1024 z 0 false.
Definition f64_add : float64 -> float64 -> float64 := SFadd 53 1024.
Definition f64_div : float64 -> float64 -> float64 := SFdiv 53 1024.
Definition f64_mul : float64 -> float64 -> float64 := SFmul 53 1024.
Definition f64_leb : float64 -> float64 -> bool := SFleb.

(** [math.Round]: to the nearest integer, halves away from zero, as an integer;
    [None] for an infinity or a NaN. *)
Definition f64_round (f : float64) : option Z :=
  match f with
  | S754_zero _ => Some 0
  | S754_finite s m e =>
      let a := if 0 <=? e then Zpos m * 2 ^ e
               else (2 * Zpos m + 2 ^ (- e)) / 2 ^ (- e + 1) in
      Some (if s then - a else a)
  | _ => None
  end.

(** [uint64(f)] of an integral float. Go leaves a value that does not fit to the
    implementation; here it is the machine's indefinite value 2^63. *)
Definition uint64_of (v : option Z) : Z :=
  match v with
  | Some z => if (0 <=? z) && (z <=? maxU64) then z else 2 ^ 63
  | None => 2 ^ 63
  end.

(** [int64(f)]: towards zero. A value that does not fit is the machine's
    indefinite value, the least [int64]. *)
Definition int64_of (f : float64) : Z :=
  match f with
  | S754_zero _ => 0
  | S754_finite s m e =>
      let a := if 0 <=? e then Zpos m * 2 ^ e else Zpos m / 2 ^ (- e) in
      let z := if s then - a else a in
      if (minI64 <=? z) && (z <=? maxI64) then z else minI64
  | _ => minI64
  end.

(** [time.Duration.Seconds]. *)
Definition Seconds (d : Z) : float64 :=
  f64_add (f64_of_int (Z.quot d (10 ^ 9)))
          (f64_div (f64_of_int (Z.rem d (10 ^ 9))) (f64_of_int (10 ^ 9))).

Example rate_third : uint64_of (f64_round (f64_div (f64_of_int 1000) (Seconds (3 * 10 ^ 9)))) = 333.
Proof. reflexivity. Qed.

Example rate_half_up : uint64_of (f64_round (f64_div (f64_of_int 5) (Seconds (2 * 10 ^ 9)))) = 3.
Proof. reflexivity. Qed.
