(* ===== verification/GoUnicode.v ===== *)
(** * UTF-8 text, as Go's [unicode/utf8], [unicode] and [strings] read it

    Strings are byte strings. [segments] cuts one into runes the way a [range]
    loop does, an invalid byte being a rune of its own (U+FFFD, width 1). *)

From S2P Require Import Prelude.

Abbreviation bytes := (list ascii).

Definition to_bytes (s : string) : bytes := String.list_ascii_of_string s.
Definition of_bytes (b : bytes) : string := String.string_of_list_ascii b.
Definition code (a : ascii) : Z := Z.of_N (N_of_ascii a).

Definition between (lo hi z : Z) : bool := (lo <=? z) && (z <=? hi).
Definition is_cont (a : ascii) : bool := between 0x80 0xBF (code a).

Definition RuneError : Z := 0xFFFD.

(** One rune of the front of a string: its value, its width, and whether the
    bytes were a valid encoding. [utf8.DecodeRune]. *)
Definition decodeRune (b : bytes) : Z * nat * bool :=
  let bad := (RuneError, 1%nat, false) in
  match b with
  | [] => (RuneError, 0%nat, false)
  | b0 :: b =>
      let c0 := code b0 in
      if c0 <? 0x80 then (c0, 1%nat, true) else
      match b with
      | [] => bad
      | b1 :: b =>
          let c1 := code b1 in
          if between 0xC2 0xDF c0 then
            if is_cont b1 then ((c0 - 0xC0) * 64 + (c1 - 0x80), 2%nat, true) else bad
          else
          match b with
          | [] => bad
          | b2 :: b =>
              let c2 := code b2 in
              if between 0xE0 0xEF c0 then
                let lo := if c0 =? 0xE0 then 0xA0 else 0x80 in
                let hi := if c0 =? 0xED then 0x9F else 0xBF in
                if between lo hi c1 && is_cont b2
                then ((c0 - 0xE0) * 4096 + (c1 - 0x80) * 64 + (c2 - 0x80), 3%nat, true) else bad
              else
              match b with
              | [] => bad
              | b3 :: _ =>
                  if between 0xF0 0xF4 c0 then
                    let lo := if c0 =? 0xF0 then 0x90 else 0x80 in
                    let hi := if c0 =? 0xF4 then 0x8F else 0xBF in
                    if between lo hi c1 && is_cont b2 && is_cont b3
                    then ((c0 - 0xF0) * 262144 + (c1 - 0x80) * 4096 + (c2 - 0x80) * 64 + (code b3 - 0x80), 4%nat, true)
                    else bad
                  else bad
              end
          end
      end
  end.

(** A rune, the bytes it was read from, and whether they were valid. *)
Record segment := MkSeg { rune : Z; seg_bytes : bytes; seg_ok : bool }.

(** Every turn takes at least one byte, so the length is enough fuel. *)
Fixpoint segments_go (fuel : nat) (b : bytes) : list segment :=
  match fuel with
  | O => []
  | S fuel =>
      match b with
      | [] => []
      | _ => let '(r, w, ok) := decodeRune b in
             MkSeg r (take w b) ok :: segments_go fuel (drop w b)
      end
  end.

Definition segments (b : bytes) : list segment := segments_go (length b) b.

Definition ValidString (s : string) : bool := forallb seg_ok (segments (to_bytes s)).
Definition RuneCountInString (s : string) : Z := Z.of_nat (length (segments (to_bytes s))).
Definition runes (s : string) : list Z := rune <$> segments (to_bytes s).

(** [unicode.IsControl]: the Cc category. *)
Definition IsControl (r : Z) : bool := between 0 0x1F r || between 0x7F 0x9F r.

(** [unicode.IsSpace]. *)
Definition IsSpace (r : Z) : bool :=
  between 0x09 0x0D r || (r =? 0x20) || (r =? 0x85) || (r =? 0xA0) || (r =? 0x1680)
  || between 0x2000 0x200A r || (r =? 0x2028) || (r =? 0x2029) || (r =? 0x202F) || (r =? 0x205F)
  || (r =? 0x3000).

Fixpoint drop_space (l : list segment) : list segment :=
  match l with
  | [] => []
  | s :: l' => if seg_ok s && IsSpace (rune s) then drop_space l' else l
  end.

Definition join_segments (l : list segment) : bytes := mjoin (seg_bytes <$> l).

(** [strings.TrimSpace]. *)
Definition TrimSpace (s : string) : string :=
  of_bytes (join_segments (reverse (drop_space (reverse (drop_space (segments (to_bytes s))))))).

(** * Lemmas *)

Lemma of_to_bytes s : of_bytes (to_bytes s) = s.
Proof. apply String.string_of_list_ascii_of_string. Qed.

Lemma to_of_bytes b : to_bytes (of_bytes b) = b.
Proof. apply String.list_ascii_of_string_of_list_ascii. Qed.

Lemma decodeRune_width b : b <> [] -> (1 <= (decodeRune b).1.2 <= length b)%nat.
Proof.
  intros Hb. destruct b as [|b0 b]; [done|]. cbn [decodeRune].
  destruct (code b0 <? 0x80); [cbn; lia|].
  destruct b as [|b1 b]; [cbn; lia|].
  destruct (between 0xC2 0xDF (code b0)); [destruct (is_cont b1); cbn; lia|].
  destruct b as [|b2 b]; [cbn; lia|].
  destruct (between 0xE0 0xEF (code b0)); [destruct (_ && _); cbn; lia|].
  destruct b as [|b3 b]; [cbn; lia|].
  destruct (between 0xF0 0xF4 (code b0)); [destruct (_ && _); cbn; lia|]. cbn; lia.
Qed.

(** Cutting a string into runes loses no byte. *)
Lemma segments_join b : join_segments (segments b) = b.
Proof.
  unfold segments.
  assert (forall f b, (length b <= f)%nat -> join_segments (segments_go f b) = b) as Hgen; [|by apply Hgen].
  clear b. intros f. induction f as [|f IH]; intros b Hf; destruct b as [|b0 b]; try done; [simpl in Hf; lia|].
  cbn [segments_go]. pose proof (decodeRune_width (b0 :: b) ltac:(done)) as Hw.
  destruct (decodeRune (b0 :: b)) as [[r w] ok]. cbn [fst snd] in Hw.
  unfold join_segments in *. cbn [fmap list_fmap mjoin list_join seg_bytes].
  rewrite IH; [apply take_drop|]. rewrite length_drop. simpl in *. lia.
Qed.

(** A string with no space at either end is its own trim. *)
Lemma TrimSpace_id s :
  (forall x, head (segments (to_bytes s)) = Some x -> seg_ok x && IsSpace (rune x) = false) ->
  (forall x, last (segments (to_bytes s)) = Some x -> seg_ok x && IsSpace (rune x) = false) ->
  TrimSpace s = s.
Proof.
  intros Hh Hl. unfold TrimSpace.
  assert (forall l, (forall x, head l = Some x -> seg_ok x && IsSpace (rune x) = false) -> drop_space l = l) as Hd.
  { intros [|x l] H; [done|]. cbn. by rewrite (H x eq_refl). }
  rewrite (Hd (segments (to_bytes s))) by done. rewrite Hd, reverse_involutive, segments_join.
  - apply of_to_bytes.
  - intros x Hx. apply Hl. by rewrite <-head_reverse.
Qed.

Example trim_zwnj_kept : TrimSpace " a b  " = "a b".
Proof. reflexivity. Qed.
