(* ===== verification/Dates.v ===== *)
(** * UTC dates: Go's [time] package as the layout "2006-01-02" uses it

    [FormatDate] prints the day that starts [d * 86400] seconds after the epoch,
    as [time.Unix(...).UTC().Format("2006-01-02")] does; [ParseDate] is
    [time.ParseInLocation("2006-01-02", s, time.UTC)] with the instant it gives
    counted in days. Years are those of the proleptic Gregorian calendar. *)

From S2P Require Import Prelude GoString.

(** ** The calendar *)

Definition isLeap (y : Z) : bool :=
  (y mod 4 =? 0) && (negb (y mod 100 =? 0) || (y mod 400 =? 0)).

(** Days from 0000-01-01 to the first of January of year [y]. *)
Definition daysBeforeYear (y : Z) : Z :=
  365 * y + (y + 3) / 4 - (y + 99) / 100 + (y + 399) / 400.

Definition monthLengths (leap : bool) : list Z :=
  [31; (if leap then 29 else 28); 31; 30; 31; 30; 31; 31; 30; 31; 30; 31].

(** The epoch, 1970-01-01. *)
Definition epochDays : Z := daysBeforeYear 1970.

(** The year that holds the day [n] after 0000-01-01: an estimate from the
    average length of a year, off by at most one. *)
Definition yearOf (n : Z) : Z :=
  let y := (400 * n) / 146097 in
  if daysBeforeYear (y + 1) <=? n then y + 1
  else if n <? daysBeforeYear y then y - 1 else y.

(** The month and the day of the month of a day of the year, both from one. *)
Fixpoint monthDay (ls : list Z) (m yday : Z) : Z * Z :=
  match ls with
  | [] => (m, yday + 1)
  | l :: ls => if yday <? l then (m, yday + 1) else monthDay ls (m + 1) (yday - l)
  end.

Fixpoint daysBeforeMonth (ls : list Z) (m : nat) : Z :=
  match m, ls with
  | S m, l :: ls => l + daysBeforeMonth ls m
  | _, _ => 0
  end.

Record date := MkDate { Year : Z; Month : Z; Day : Z }.

Definition dateOf (d : Z) : date :=
  let n := d + epochDays in
  let y := yearOf n in
  let md := monthDay (monthLengths (isLeap y)) 1 (n - daysBeforeYear y) in
  MkDate y md.1 md.2.

Definition daysOf (c : date) : Z :=
  daysBeforeYear (Year c) + daysBeforeMonth (monthLengths (isLeap (Year c))) (Z.to_nat (Month c - 1))
  + (Day c - 1) - epochDays.

Definition daysIn (c : date) : Z :=
  default 0 (monthLengths (isLeap (Year c)) !! Z.to_nat (Month c - 1)).

(** ** Printing *)

(** [n] with at least [w] digits, as Go's [appendInt]. *)
Fixpoint digits (w : nat) (n : Z) (acc : string) : string :=
  match w with
  | O => acc
  | S w => digits w (n / 10) (String (digit (n mod 10)) acc)
  end.

Definition appendInt (n : Z) (w : nat) (acc : string) : string :=
  let pad x := if x <? 10 ^ Z.of_nat w then digits w x acc else utoa_go 20 x acc in
  if n <? 0 then String "-" (pad (- n)) else pad n.

Definition FormatDate (d : Z) : string :=
  let c := dateOf d in
  appendInt (Year c) 4 (String "-" (appendInt (Month c) 2 (String "-" (appendInt (Day c) 2 EmptyString)))).

(** ** Parsing *)

(** Exactly [w] digits, and the rest. *)
Fixpoint takeDigits (w : nat) (acc : Z) (s : string) : option (Z * string) :=
  match w with
  | O => Some (acc, s)
  | S w => match s with
           | EmptyString => None
           | String c s => d ← digit_val c; takeDigits w (10 * acc + d) s
           end
  end.

Definition takeDash (s : string) : option string := CutPrefix s "-".

(** Two digits for the month and the day are required by "01" and "02"; text
    after the day, a month out of range and a day the month does not have are
    errors. *)
Definition ParseDate (s : string) : option Z :=
  y ← takeDigits 4 0 s;
  s ← takeDash y.2;
  m ← takeDigits 2 0 s;
  s ← takeDash m.2;
  d ← takeDigits 2 0 s;
  let c := MkDate y.1 m.1 d.1 in
  if (1 <=? Month c) && (Month c <=? 12) && (1 <=? Day c) && (Day c <=? daysIn c)
     && bool_decide (d.2 = EmptyString)
  then Some (daysOf c) else None.

(** The days of the years the layout has four digits for. *)
Definition minDay : Z := - epochDays.
Definition maxDay : Z := daysBeforeYear 10000 - 1 - epochDays.

(** * Lemmas *)

Lemma daysBeforeYear_succ y :
  daysBeforeYear (y + 1) = daysBeforeYear y + (if isLeap y then 366 else 365).
Proof.
  unfold daysBeforeYear, isLeap.
  destruct (Z.eqb_spec (y mod 4) 0), (Z.eqb_spec (y mod 100) 0), (Z.eqb_spec (y mod 400) 0);
    simpl; Z.div_mod_to_equations; lia.
Qed.

Lemma yearOf_spec n : daysBeforeYear (yearOf n) <= n < daysBeforeYear (yearOf n + 1).
Proof.
  unfold yearOf. set (y := 400 * n / 146097).
  assert (400 * n - 146097 < 146097 * y <= 400 * n) as Hy.
  { unfold y. Z.div_mod_to_equations. lia. }
  clearbody y. unfold daysBeforeYear.
  destruct (Z.leb_spec (365 * (y + 1) + (y + 1 + 3) / 4 - (y + 1 + 99) / 100 + (y + 1 + 399) / 400) n);
    [|destruct (Z.ltb_spec n (365 * y + (y + 3) / 4 - (y + 99) / 100 + (y + 399) / 400))];
    Z.div_mod_to_equations; lia.
Qed.

Lemma daysBeforeYear_mono y z : y <= z -> daysBeforeYear y <= daysBeforeYear z.
Proof. intros. unfold daysBeforeYear. Z.div_mod_to_equations. lia. Qed.

Lemma monthDay_spec ls m yday :
  0 <= yday < foldr Z.add 0 ls ->
  exists k, (k < length ls)%nat /\ (monthDay ls m yday).1 = m + Z.of_nat k /\
    1 <= (monthDay ls m yday).2 <= default 0 (ls !! k) /\
    daysBeforeMonth ls k + ((monthDay ls m yday).2 - 1) = yday.
Proof.
  revert m yday. induction ls as [|l ls IH]; intros m yday Hy; simpl in *; [lia|].
  destruct (Z.ltb_spec yday l); simpl.
  - exists 0%nat. simpl. lia.
  - destruct (IH (m + 1) (yday - l)) as (k & Hk & Hm & Hd & He); [lia|].
    exists (S k). simpl. rewrite Hm. lia.
Qed.

Lemma monthLengths_sum leap : foldr Z.add 0 (monthLengths leap) = if leap then 366 else 365.
Proof. by destruct leap. Qed.

Lemma monthLengths_le leap k : default 0 (monthLengths leap !! k) <= 31.
Proof. do 12 (destruct k as [|k]; [destruct leap; simpl; lia|]). simpl. lia. Qed.

(** A day is the day its date counts, and the date is a real one. *)
Lemma dateOf_spec d :
  let c := dateOf d in
  daysOf c = d /\ 1 <= Month c <= 12 /\ 1 <= Day c <= daysIn c /\ Year c = yearOf (d + epochDays).
Proof.
  cbn zeta. unfold dateOf, daysOf, daysIn. cbn [Year Month Day].
  set (n := d + epochDays). pose proof (yearOf_spec n) as Hy.
  rewrite daysBeforeYear_succ in Hy. set (y := yearOf n) in *.
  destruct (monthDay_spec (monthLengths (isLeap y)) 1 (n - daysBeforeYear y))
    as (k & Hk & Hm & Hd & He).
  { rewrite monthLengths_sum. destruct (isLeap y); lia. }
  assert (length (monthLengths (isLeap y)) = 12%nat) as Hl by done.
  rewrite Hm. replace (Z.to_nat (1 + Z.of_nat k - 1)) with k by lia. lia.
Qed.

Lemma yearOf_bounds d : minDay <= d <= maxDay -> 0 <= yearOf (d + epochDays) <= 9999.
Proof.
  unfold minDay, maxDay. intros Hd. set (n := d + epochDays) in *.
  assert (0 <= n < daysBeforeYear 10000) as Hn by lia. clearbody n.
  pose proof (yearOf_spec n) as Hy. split.
  - destruct (Z.le_gt_cases 0 (yearOf n)) as [|Hlt]; [done|].
    pose proof (daysBeforeYear_mono (yearOf n + 1) 0). 
    assert (daysBeforeYear 0 = 0) by reflexivity. lia.
  - destruct (Z.le_gt_cases (yearOf n) 9999) as [|Hgt]; [done|].
    pose proof (daysBeforeYear_mono 10000 (yearOf n)). lia.
Qed.

Lemma takeDigits_digits w n acc a :
  0 <= n < 10 ^ Z.of_nat w ->
  takeDigits w a (digits w n acc) = Some (a * 10 ^ Z.of_nat w + n, acc).
Proof.
  enough (forall w' n acc a, 0 <= n < 10 ^ Z.of_nat w ->
    takeDigits (w + w') a (digits w n acc) =
    takeDigits w' (a * 10 ^ Z.of_nat w + n) acc) as Hgen.
  { intros Hn. specialize (Hgen 0%nat n acc a Hn). by rewrite Nat.add_0_r in Hgen. }
  induction w as [|w IH]; intros w' m s b Hm; cbn [digits].
  - simpl. f_equal. simpl in Hm. lia.
  - rewrite Nat2Z.inj_succ, Z.pow_succ_r in Hm |- * by lia.
    replace (S w + w')%nat with (w + S w')%nat by lia.
    rewrite IH by (split; [apply Z.div_pos; lia|apply Z.div_lt_upper_bound; lia]).
    cbn [takeDigits]. pose proof (Z.mod_pos_bound m 10).
    rewrite digit_val_digit by lia. cbn [mbind option_bind]. f_equal.
    rewrite (Z.div_mod m 10) at 3 by lia. lia.
Qed.

Lemma takeDigits_appendInt w n acc :
  0 <= n < 10 ^ Z.of_nat w -> takeDigits w 0 (appendInt n w acc) = Some (n, acc).
Proof.
  intros Hn. unfold appendInt. destruct (Z.ltb_spec n 0); [lia|].
  destruct (Z.ltb_spec n (10 ^ Z.of_nat w)); [|lia].
  rewrite takeDigits_digits by done. do 2 f_equal.
Qed.

(** A day of a four-digit year prints as a date that parses back to it. *)
Lemma ParseDate_FormatDate d : minDay <= d <= maxDay -> ParseDate (FormatDate d) = Some d.
Proof.
  intros Hd. destruct (dateOf_spec d) as (He & Hm & Hday & Hy).
  pose proof (yearOf_bounds d Hd) as Hb. rewrite <-Hy in Hb.
  assert (daysIn (dateOf d) <= 31) by apply monthLengths_le.
  unfold ParseDate, FormatDate. set (c := dateOf d) in *. clearbody c. destruct c as [y m dd].
  cbn [Year Month Day] in *.
  rewrite takeDigits_appendInt by (simpl; lia). cbn [mbind option_bind fst snd].
  change (takeDash (String "-" ?s)) with (Some s). cbn [mbind option_bind fst snd].
  rewrite takeDigits_appendInt by (simpl; lia). cbn [mbind option_bind fst snd].
  change (takeDash (String "-" ?s)) with (Some s). cbn [mbind option_bind fst snd].
  rewrite takeDigits_appendInt by (simpl; lia). cbn [mbind option_bind fst snd Year Month Day].
  destruct (Z.leb_spec 1 m), (Z.leb_spec m 12), (Z.leb_spec 1 dd),
    (Z.leb_spec dd (daysIn (MkDate y m dd))); try lia. simpl. by rewrite He.
Qed.

Lemma FormatDate_inj a b :
  minDay <= a <= maxDay -> minDay <= b <= maxDay -> FormatDate a = FormatDate b -> a = b.
Proof.
  intros Ha Hb He. apply (f_equal ParseDate) in He.
  rewrite !ParseDate_FormatDate in He by done. congruence.
Qed.

Example FormatDate_leap : FormatDate 19782 = "2024-02-29".
Proof. reflexivity. Qed.

Example ParseDate_no_such_day : ParseDate "2023-02-29" = None.
Proof. reflexivity. Qed.
