(* ===== verification/Emails.v ===== *)
(** * Identities in Xray's stats: subscription and bridge emails

    Models [internal/remotenodes/nodecfg/emails.go]. Xray counts traffic by
    email only, so whose bytes are whose is decided by parsing these names. *)

From S2P Require Import Prelude GoString.

Definition SubscriptionEmail (id : Z) : string := "sub-" +:+ Itoa id +:+ "@remote-nodes".
Definition BridgeEmail (nodeID : Z) : string := "rvs-t" +:+ Itoa nodeID +:+ "@reverse".
Definition BridgeReverseTag (nodeID : Z) : string := "rvs-to-node-" +:+ Itoa nodeID.

Definition positiveInt (s : string) : option Z :=
  match Atoi s with
  | None => None
  | Some n => if (n <? 1) || negb (bool_decide (Itoa n = s)) then None else Some n
  end.

Definition ParseSubscriptionEmail (email : string) : option Z :=
  match CutPrefix email "sub-" with
  | None => None
  | Some s =>
      match CutSuffix s "@remote-nodes" with
      | None => None
      | Some s => positiveInt s
      end
  end.

Definition ParseBridgeEmail (email : string) : option Z :=
  match CutPrefix email "rvs-t" with
  | None => None
  | Some s =>
      match CutSuffix s "@reverse" with
      | None => None
      | Some s => positiveInt s
      end
  end.

Lemma positiveInt_Some s n :
  positiveInt s = Some n <-> s = Itoa n /\ 1 <= n /\ isI64 n.
Proof.
  unfold positiveInt. split.
  - destruct (Atoi s) as [m|] eqn:E; [|done].
    destruct (Z.ltb_spec m 1); [done|]. case_bool_decide as He; [|done]. intros [= ->].
    split; [done|]. split; [lia|]. unfold Atoi in E.
    apply bind_Some in E as (k & _ & Hk).
    destruct ((minI64 <=? k) && (k <=? maxI64)) eqn:Hr; [|done]. injection Hk as ->.
    apply andb_prop in Hr as [?%Z.leb_le ?%Z.leb_le]. done.
  - intros (-> & Hn & Hr). rewrite Atoi_Itoa by done.
    rewrite bool_decide_true by done. destruct (Z.ltb_spec n 1); [lia|done].
Qed.

Lemma ParseSubscriptionEmail_Some e id :
  ParseSubscriptionEmail e = Some id <-> e = SubscriptionEmail id /\ 1 <= id /\ isI64 id.
Proof.
  unfold ParseSubscriptionEmail, SubscriptionEmail. split.
  - destruct (CutPrefix e "sub-") as [s|] eqn:E1; [|done]. apply CutPrefix_Some in E1.
    destruct (CutSuffix s "@remote-nodes") as [t|] eqn:E2; [|done]. apply CutSuffix_Some in E2.
    intros (-> & ? & ?)%positiveInt_Some. by subst.
  - intros (-> & H). rewrite CutPrefix_app, CutSuffix_app. by apply positiveInt_Some.
Qed.

Lemma ParseBridgeEmail_Some e id :
  ParseBridgeEmail e = Some id <-> e = BridgeEmail id /\ 1 <= id /\ isI64 id.
Proof.
  unfold ParseBridgeEmail, BridgeEmail. split.
  - destruct (CutPrefix e "rvs-t") as [s|] eqn:E1; [|done]. apply CutPrefix_Some in E1.
    destruct (CutSuffix s "@reverse") as [t|] eqn:E2; [|done]. apply CutSuffix_Some in E2.
    intros (-> & ? & ?)%positiveInt_Some. by subst.
  - intros (-> & H). rewrite CutPrefix_app, CutSuffix_app. by apply positiveInt_Some.
Qed.

Lemma Itoa_inj n m : isI64 n -> isI64 m -> Itoa n = Itoa m -> n = m.
Proof. intros Hn Hm He. pose proof (Atoi_Itoa n Hn). rewrite He, Atoi_Itoa in H by done. congruence. Qed.

Lemma SubscriptionEmail_inj n m :
  1 <= n -> isI64 n -> SubscriptionEmail n = SubscriptionEmail m -> isI64 m -> n = m.
Proof.
  intros H1 Hn He Hm.
  assert (ParseSubscriptionEmail (SubscriptionEmail n) = Some n) as Hp
    by (apply ParseSubscriptionEmail_Some; auto).
  rewrite He in Hp. apply ParseSubscriptionEmail_Some in Hp as (He' & _).
  unfold SubscriptionEmail in He'.
  apply (f_equal (fun s => CutPrefix s "sub-")) in He'. rewrite !CutPrefix_app in He'.
  injection He' as He'. apply (f_equal (fun s => CutSuffix s "@remote-nodes")) in He'.
  rewrite !CutSuffix_app in He'. injection He' as He'. symmetry. by apply Itoa_inj.
Qed.

(** The two parsers accept exactly the names the two printers write, for
    ids from 1 up, and give the id back; a bridge's name is never a
    subscription's, so the tunnel's own traffic can't be booked on a
    subscription. *)
Theorem emails_roundtrip e id :
  (ParseSubscriptionEmail e = Some id <-> e = SubscriptionEmail id /\ 1 <= id /\ isI64 id) /\
  (ParseBridgeEmail e = Some id <-> e = BridgeEmail id /\ 1 <= id /\ isI64 id) /\
  ~ (is_Some (ParseSubscriptionEmail e) /\ is_Some (ParseBridgeEmail e)).
Proof.
  split; [apply ParseSubscriptionEmail_Some|]. split; [apply ParseBridgeEmail_Some|].
  intros [[n (-> & _)%ParseSubscriptionEmail_Some] [m Hm]].
  unfold ParseBridgeEmail, SubscriptionEmail in Hm. rewrite string_app_cons in Hm. done.
Qed.
