(* ===== verification/History.v ===== *)
(** * The usage history: byte totals, UTC days, a node's history, the chart ring

    Models [internal/remotenodes/usage/history.go] and [ring.go]: [Totals] with
    its saturating sum, [day], [bucket], [nodeHist] with [add], [prune] and
    [span], and the fixed-size [ring] behind the traffic chart. *)

From S2P Require Import Prelude.

(** ** Totals *)

Record Totals := MkTotals { Up : Z; Down : Z }.

#[global] Instance Totals_eq_dec : EqDecision Totals.
Proof. solve_decision. Defined.

Definition zeroTotals : Totals := MkTotals 0 0.

(** Go's zero value, which a map lookup of an absent key returns. *)
#[global] Instance Totals_inhabited : Inhabited Totals := populate zeroTotals.

(** [sat] adds two [uint64]s; the machine sum wraps, and a sum below [a] is a wrap. *)
Definition sat (a b : Z) : Z :=
  let s := wrapU (a + b) in
  if a <=? s then s else maxU64.

Definition plus (t o : Totals) : Totals :=
  MkTotals (sat (Up t) (Up o)) (sat (Down t) (Down o)).

Definition isZero (t : Totals) : bool := bool_decide (t = zeroTotals).

Definition totals_ok (t : Totals) : Prop := isU64 (Up t) /\ isU64 (Down t).

(** ** Days and instants

    An instant ([time.Time]) is a number of nanoseconds since the Unix epoch. *)

Definition second : Z := 10 ^ 9.
Definition Unix (t : Z) : Z := t / second.

Definition secondsPerDay : Z := 24 * 60 * 60.
Definition monthDays : Z := 30.
Definition keepDays : Z := 31.

(** Go's [/] and [%] truncate toward zero. *)
Definition dayOf (unix : Z) : Z :=
  let d := Z.quot unix secondsPerDay in
  if Z.rem unix secondsPerDay <? 0 then d - 1 else d.

Definition dayOfTime (t : Z) : Z := dayOf (Unix t).

(** ** Buckets and the history of a node *)

Record bucket := MkBucket { b_subs : gmap Z Totals; b_bridge : Totals }.

(** [bucket.node]: all the subscriptions' bytes in the bucket. *)
Definition bucket_node (b : bucket) : Totals :=
  map_fold (fun _ s t => plus t s) zeroTotals (b_subs b).

Record nodeHist := MkHist {
  days : gmap Z Totals;
  subs : gmap Z (gmap Z Totals);
  bridge : Totals;
  life : gmap Z Totals;
  through : Z
}.

Definition newNodeHist : nodeHist := MkHist ∅ ∅ zeroTotals ∅ 0.

(** One turn of the loop of [add] over the bucket's subscriptions. *)
Definition add_sub (d id : Z) (t : Totals) (h : nodeHist) : nodeHist :=
  if isZero t then h else
  let m := subs h !!! id in
  MkHist (days h) (<[id := <[d := plus (m !!! d) t]> m]> (subs h)) (bridge h)
    (<[id := plus (life h !!! id) t]> (life h)) (through h).

(** The node's own count of the day, left alone by an empty bucket. *)
Definition add_day (d : Z) (n : Totals) (h : nodeHist) : nodeHist :=
  if isZero n then h else
  MkHist (<[d := plus (days h !!! d) n]> (days h)) (subs h) (bridge h) (life h) (through h).

Definition hist_add (ts : Z) (b : bucket) (h : nodeHist) : nodeHist :=
  let d := dayOf ts in
  let h := add_day d (bucket_node b) h in
  let h := map_fold (add_sub d) h (b_subs b) in
  MkHist (days h) (subs h) (plus (bridge h) (b_bridge b)) (life h) (through h).

Definition keep_days (keepFrom : Z) (m : gmap Z Totals) : gmap Z Totals :=
  filter (fun kv => keepFrom <= kv.1) m.

(** [prune] drops the days before [keepFrom], and a subscription with none left. *)
Definition hist_prune (keepFrom : Z) (h : nodeHist) : nodeHist :=
  MkHist (keep_days keepFrom (days h))
    (omap (fun m => let m := keep_days keepFrom m in
                    if bool_decide (m = ∅) then None else Some m) (subs h))
    (bridge h) (life h) (through h).

Definition hist_empty (h : nodeHist) : bool :=
  bool_decide (days h = ∅) && bool_decide (subs h = ∅) && bool_decide (life h = ∅)
  && isZero (bridge h) && (through h =? 0).

Definition span (series : gmap Z Totals) (from to : Z) : Totals :=
  map_fold (fun d v t => if (from <=? d) && (d <=? to) then plus t v else t) zeroTotals series.

(** ** The chart ring *)

Definition Step : Z := 5 * second.
Definition Window : Z := 15 * 60 * second.
Definition ringSlots : Z := Z.quot Window Step.

Record slot := MkSlot { s_step : Z; s_up : Z; s_down : Z }.
Record Point := MkPoint { P_At : Z; P_Up : Z; P_Down : Z }.

Definition emptySlot : slot := MkSlot 0 0 0.

Abbreviation ring := (list slot).
Definition newRing : ring := replicate (Z.to_nat ringSlots) emptySlot.

Definition stepOf (t : Z) : Z := Z.quot (Unix t) (Z.quot Step second).

Definition ring_put (at_ up down : Z) (r : ring) : ring :=
  let s := stepOf at_ in
  if s <=? 0 then r else <[Z.to_nat (Z.rem s ringSlots) := MkSlot s up down]> r.

Definition slot_point (p : slot) : Point :=
  MkPoint (s_step p * Z.quot Step second * second) (s_up p) (s_down p).

Definition At_le (a b : Point) : Prop := P_At a <= P_At b.
#[global] Instance At_le_dec a b : Decision (At_le a b).
Proof. unfold At_le. apply _. Defined.
#[global] Instance At_le_trans : Transitive At_le.
Proof. intros a b c. unfold At_le. lia. Qed.
#[global] Instance At_le_total : Total At_le.
Proof. intros a b. unfold At_le. lia. Qed.

Definition in_window (last : Z) (p : slot) : bool :=
  (last - ringSlots <? s_step p) && (s_step p <=? last).

Definition ring_points (now : Z) (r : ring) : list Point :=
  let last := stepOf now in
  merge_sort At_le (slot_point <$> filter (fun p => in_window last p = true) r).

(** * Lemmas *)

Inductive dir := UpDir | DownDir.

(** One direction of a pair of counts. *)
Definition get (x : dir) (t : Totals) : Z :=
  match x with UpDir => Up t | DownDir => Down t end.

Lemma get_zero x : get x zeroTotals = 0.
Proof. by destruct x. Qed.

Lemma get_ok x t : totals_ok t -> isU64 (get x t).
Proof. destruct x; intros [? ?]; done. Qed.

Lemma totals_ok_get t : (forall x, isU64 (get x t)) -> totals_ok t.
Proof. intros H. split; [apply (H UpDir)|apply (H DownDir)]. Qed.

Lemma totals_eq t o : (forall x, get x t = get x o) -> t = o.
Proof.
  intros H. destruct t, o. pose proof (H UpDir). pose proof (H DownDir). simpl in *. congruence.
Qed.

Lemma zero_ok : totals_ok zeroTotals.
Proof. split; simpl; word_lia. Qed.

(** [sat] is addition that stops at the largest [uint64]. *)
Lemma sat_spec a b : isU64 a -> isU64 b -> sat a b = Z.min (a + b) maxU64.
Proof.
  unfold sat. intros Ha Hb. unfold_ints.
  destruct (decide (a + b < 2 ^ 64)).
  - rewrite Z.mod_small by lia. destruct (Z.leb_spec a (a + b)); lia.
  - assert ((a + b) mod 2 ^ 64 = a + b - 2 ^ 64) as ->.
    { symmetry. apply (Z.mod_unique _ _ 1); lia. }
    destruct (Z.leb_spec a (a + b - 2 ^ 64)); lia.
Qed.

Lemma sat_range a b : isU64 a -> isU64 b -> isU64 (sat a b).
Proof. intros. rewrite sat_spec by done. word_lia. Qed.

Lemma get_plus x t o :
  totals_ok t -> totals_ok o -> get x (plus t o) = Z.min (get x t + get x o) maxU64.
Proof. intros [] []. destruct x; simpl; by apply sat_spec. Qed.

Lemma plus_ok t o : totals_ok t -> totals_ok o -> totals_ok (plus t o).
Proof. intros [] []. split; simpl; by apply sat_range. Qed.

Lemma plus_zero_r t : totals_ok t -> plus t zeroTotals = t.
Proof.
  intros Ht. apply totals_eq. intros x. rewrite get_plus, get_zero; [|done|apply zero_ok].
  pose proof (get_ok x t Ht). word_lia.
Qed.

Lemma isZero_true t : isZero t = true <-> t = zeroTotals.
Proof. unfold isZero. apply bool_decide_eq_true. Qed.

Create HintDb usage.
#[export] Hint Resolve zero_ok plus_ok sat_range get_ok : usage.

(** Go's total map lookup, one direction at a time. *)
Lemma lookup_total_ok (m : gmap Z Totals) k :
  map_Forall (fun _ t => totals_ok t) m -> totals_ok (m !!! k).
Proof.
  intros Hm. rewrite lookup_total_alt. destruct (m !! k) eqn:E; simpl; [by eapply Hm|apply zero_ok].
Qed.
#[export] Hint Resolve lookup_total_ok : usage.

(** Adding up part of a map with [plus], whatever the order, gives the sum
    capped at the largest [uint64]. *)
Lemma fold_plus_sum {V} (c : Z -> V -> bool) (g : Z -> V -> Totals) (m : gmap Z V) x t0 :
  totals_ok t0 -> map_Forall (fun k v => totals_ok (g k v)) m ->
  let r := map_fold (fun k v t => if c k v then plus t (g k v) else t) t0 m in
  totals_ok r /\
  get x r = Z.min (get x t0 + msum (fun k v => if c k v then get x (g k v) else 0) m) maxU64.
Proof.
  intros H0. cbn zeta.
  apply (map_fold_weak_ind (fun r m => map_Forall (fun k v => totals_ok (g k v)) m ->
    totals_ok r /\ get x r = Z.min (get x t0 + msum (fun k v => if c k v then get x (g k v) else 0) m) maxU64)).
  - intros _. split; [done|]. rewrite msum_empty. pose proof (get_ok x _ H0). word_lia.
  - intros k v m' r Hk IH Hall. apply map_Forall_insert in Hall as [Hv Hall]; [|done].
    destruct (IH Hall) as [Hr Hget]. rewrite msum_insert by done.
    assert (0 <= msum (fun k v => if c k v then get x (g k v) else 0) m').
    { apply msum_nonneg. intros k' v' Hk'. destruct (c k' v'); [|lia].
      pose proof (get_ok x _ (Hall _ _ Hk')). word_lia. }
    destruct (c k v); [|rewrite Z.add_0_l; split; done].
    split; [auto with usage|]. rewrite get_plus, Hget by done.
    pose proof (get_ok x _ Hv). pose proof (get_ok x _ H0). word_lia.
Qed.

(** A bucket's node total is the capped sum of its subscriptions' bytes. *)
Lemma bucket_node_sum b x :
  map_Forall (fun _ t => totals_ok t) (b_subs b) ->
  totals_ok (bucket_node b) /\
  get x (bucket_node b) = Z.min (msum (fun _ t => get x t) (b_subs b)) maxU64.
Proof.
  intros Hok. destruct (fold_plus_sum (fun _ _ => true) (fun _ t => t) (b_subs b) x zeroTotals)
    as [H1 H2]; [apply zero_ok|done|]. split; [done|].
  unfold bucket_node. rewrite H2, get_zero. f_equal.
Qed.

Lemma span_sum series from to x :
  map_Forall (fun _ t => totals_ok t) series ->
  totals_ok (span series from to) /\
  get x (span series from to) =
    Z.min (msum (fun d t => if (from <=? d) && (d <=? to) then get x t else 0) series) maxU64.
Proof.
  intros Hok. destruct (fold_plus_sum (fun d _ => (from <=? d) && (d <=? to)) (fun _ t => t) series x zeroTotals)
    as [H1 H2]; [apply zero_ok|done|]. split; [done|].
  unfold span. rewrite H2, get_zero. f_equal.
Qed.

(** ** Well-formed buckets and histories *)

Definition series_ok (m : gmap Z Totals) : Prop := map_Forall (fun _ t => totals_ok t) m.

Definition bucket_ok (b : bucket) : Prop := series_ok (b_subs b) /\ totals_ok (b_bridge b).

Record hist_ok (h : nodeHist) : Prop := {
  hok_days : series_ok (days h);
  hok_subs : map_Forall (fun _ m => series_ok m) (subs h);
  hok_bridge : totals_ok (bridge h);
  hok_life : series_ok (life h)
}.

(** What the loop of [add] leaves: every subscription of the bucket has its
    bytes added to its life and to the day, and nothing else moves. *)
Definition add_subs_spec (d : Z) (h : nodeHist) (m : gmap Z Totals) (r : nodeHist) : Prop :=
  days r = days h /\ bridge r = bridge h /\ through r = through h /\
  (forall id, life r !! id =
     match m !! id with
     | Some t => if isZero t then life h !! id else Some (plus (life h !!! id) t)
     | None => life h !! id
     end) /\
  (forall id, subs r !! id =
     match m !! id with
     | Some t => if isZero t then subs h !! id
                 else Some (<[d := plus ((subs h !!! id) !!! d) t]> (subs h !!! id))
     | None => subs h !! id
     end).

Lemma add_subs_lookup d h m : add_subs_spec d h m (map_fold (add_sub d) h m).
Proof.
  apply (map_fold_weak_ind (fun r m => add_subs_spec d h m r)); unfold add_subs_spec.
  - repeat split; intros id; by rewrite lookup_empty.
  - intros k t m' r Hk (Hd & Hb & Ht & Hl & Hs). unfold add_sub.
    assert (life r !!! k = life h !!! k) as El by (rewrite !lookup_total_alt, Hl, Hk; done).
    assert (subs r !!! k = subs h !!! k) as Es by (rewrite !lookup_total_alt, Hs, Hk; done).
    destruct (isZero t) eqn:Hz; simpl; repeat split; try done; intros id.
    + destruct (decide (id = k)) as [->|]; simplify_map_eq; rewrite ?Hl, ?Hk, ?Hz; done.
    + destruct (decide (id = k)) as [->|]; simplify_map_eq; rewrite ?Hs, ?Hk, ?Hz; done.
    + destruct (decide (id = k)) as [->|]; simplify_map_eq; rewrite ?El, ?Hz; done.
    + destruct (decide (id = k)) as [->|]; simplify_map_eq; rewrite ?Es, ?Hz; done.
Qed.

(** The parts of a history after [add], as the code's loop leaves them. *)
Lemma hist_add_lookup ts b h :
  let r := hist_add ts b h in
  through r = through h /\ bridge r = plus (bridge h) (b_bridge b) /\ 
  days r = days (add_day (dayOf ts) (bucket_node b) h) /\ 
  (forall id, life r !! id =
     match b_subs b !! id with
     | Some t => if isZero t then life h !! id else Some (plus (life h !!! id) t)
     | None => life h !! id
     end) /\
  (forall id, subs r !! id =
     match b_subs b !! id with
     | Some t => if isZero t then subs h !! id
                 else Some (<[dayOf ts := plus ((subs h !!! id) !!! dayOf ts) t]> (subs h !!! id))
     | None => subs h !! id
     end).
Proof.
  cbn zeta. unfold hist_add. cbn [through bridge days life subs].
  destruct (add_subs_lookup (dayOf ts) (add_day (dayOf ts) (bucket_node b) h) (b_subs b))
    as (-> & -> & -> & Hl & Hs).
  unfold add_day in *. destruct (isZero (bucket_node b)); repeat split; done.
Qed.

Lemma hist_add_through ts b h : through (hist_add ts b h) = through h.
Proof. apply hist_add_lookup. Qed.

Lemma hist_add_days ts b h d :
  hist_ok h ->
  days (hist_add ts b h) !!! d =
    if decide (d = dayOf ts) then plus (days h !!! d) (bucket_node b) else days h !!! d.
Proof.
  intros Hok. destruct (hist_add_lookup ts b h) as (_ & _ & -> & _). unfold add_day.
  destruct (isZero (bucket_node b)) eqn:Hz.
  - apply isZero_true in Hz. rewrite Hz. case_decide; [|done].
    rewrite plus_zero_r; [done|]. apply lookup_total_ok, Hok.
  - simpl. case_decide as Hd; subst; [by rewrite lookup_total_insert_eq|].
    by rewrite lookup_total_insert_ne by done.
Qed.

(** A subscription's life grows by what the bucket holds for it, exactly. *)
Lemma hist_add_life ts b h id :
  hist_ok h -> life (hist_add ts b h) !!! id = plus (life h !!! id) (b_subs b !!! id).
Proof.
  intros Hok. destruct (hist_add_lookup ts b h) as (_ & _ & _ & Hl & _).
  rewrite (lookup_total_alt (life (hist_add _ _ _))), Hl, (lookup_total_alt (b_subs b)).
  assert (totals_ok (life h !!! id)) by apply lookup_total_ok, Hok.
  destruct (b_subs b !! id) as [t|]; simpl.
  - destruct (isZero t) eqn:Hz; simpl; [|done].
    apply isZero_true in Hz. subst. by rewrite plus_zero_r by done.
  - by rewrite plus_zero_r by done.
Qed.

(** And so does its count of the bucket's day; its other days stay. *)
Lemma hist_add_sub_day ts b h id d :
  hist_ok h ->
  (subs (hist_add ts b h) !!! id) !!! d =
    if decide (d = dayOf ts) then plus ((subs h !!! id) !!! d) (b_subs b !!! id)
    else (subs h !!! id) !!! d.
Proof.
  intros Hok. destruct (hist_add_lookup ts b h) as (_ & _ & _ & _ & Hs).
  rewrite (lookup_total_alt (subs (hist_add _ _ _))), Hs, (lookup_total_alt (b_subs b)).
  assert (totals_ok ((subs h !!! id) !!! d)) as Hd.
  { rewrite (lookup_total_alt (subs h)). destruct (subs h !! id) eqn:E; simpl.
    - apply lookup_total_ok. by apply (hok_subs h Hok id).
    - rewrite lookup_total_empty. apply zero_ok. }
  destruct (b_subs b !! id) as [t|]; simpl; [|rewrite plus_zero_r by done; by case_decide].
  destruct (isZero t) eqn:Hz.
  - apply isZero_true in Hz. subst. rewrite plus_zero_r by done. by case_decide.
  - simpl. case_decide; subst; [by rewrite lookup_total_insert_eq|by rewrite lookup_total_insert_ne].
Qed.

Lemma subs_series_ok h id : hist_ok h -> series_ok (subs h !!! id).
Proof.
  intros Hok. rewrite lookup_total_alt. destruct (subs h !! id) eqn:E; simpl.
  - by apply (hok_subs h Hok id).
  - apply map_Forall_empty.
Qed.
#[export] Hint Resolve subs_series_ok : usage.

Lemma hist_add_ok ts b h : bucket_ok b -> hist_ok h -> hist_ok (hist_add ts b h).
Proof.
  intros [Hb Hbr] Hok. destruct (bucket_node_sum b UpDir Hb) as [Hn _].
  destruct (hist_add_lookup ts b h) as (_ & Hbridge & Hdays & Hl & Hs). split.
  - rewrite Hdays. unfold add_day. destruct (isZero _); [apply Hok|]. simpl.
    apply map_Forall_insert_2; [|apply Hok]. apply plus_ok; [|done]. apply lookup_total_ok, Hok.
  - intros id m. rewrite Hs. destruct (b_subs b !! id) as [t|] eqn:E; [|by apply Hok].
    destruct (isZero t); [by apply Hok|]. intros [= <-].
    apply map_Forall_insert_2; [|by apply subs_series_ok].
    apply plus_ok; [|by eapply Hb]. by apply lookup_total_ok, subs_series_ok.
  - rewrite Hbridge. apply plus_ok; [apply Hok|done].
  - intros id t. rewrite Hl. destruct (b_subs b !! id) as [t'|] eqn:E; [|by apply Hok].
    destruct (isZero t'); [by apply Hok|]. intros [= <-].
    apply plus_ok; [apply lookup_total_ok, Hok|by eapply Hb].
Qed.

Lemma newNodeHist_ok : hist_ok newNodeHist.
Proof. split; simpl; try apply map_Forall_empty. apply zero_ok. Qed.

(** ** Pruning *)

Lemma keep_days_lookup k m d :
  keep_days k m !!! d = if decide (k <= d) then m !!! d else zeroTotals.
Proof.
  unfold keep_days. rewrite !lookup_total_alt, map_lookup_filter.
  destruct (m !! d); simpl; [|by case_decide]. by repeat case_guard || case_decide.
Qed.

Lemma keep_days_ok k m : series_ok m -> series_ok (keep_days k m).
Proof. intros Hm d t [Ht _]%map_lookup_filter_Some. by eapply Hm. Qed.

(** Pruning keeps every day from [keepFrom] on, for the node and for every
    subscription, and forgets the ones before it. *)
Lemma hist_prune_days k h d :
  days (hist_prune k h) !!! d = if decide (k <= d) then days h !!! d else zeroTotals.
Proof. apply keep_days_lookup. Qed.

Lemma hist_prune_sub_day k h id d :
  (subs (hist_prune k h) !!! id) !!! d =
    if decide (k <= d) then (subs h !!! id) !!! d else zeroTotals.
Proof.
  simpl. rewrite (lookup_total_alt (omap _ _)), lookup_omap, (lookup_total_alt (subs h)).
  destruct (subs h !! id) as [m|]; simpl.
  - rewrite <-keep_days_lookup. case_bool_decide as He; [|done]. by rewrite He.
  - rewrite lookup_total_empty. by case_decide.
Qed.

Lemma hist_prune_ok k h : hist_ok h -> hist_ok (hist_prune k h).
Proof.
  intros Hok. split; simpl; try apply Hok.
  - apply keep_days_ok, Hok.
  - intros id m. rewrite lookup_omap. destruct (subs h !! id) as [m0|] eqn:E; [|done].
    simpl. case_bool_decide; [done|]. intros [= <-]. apply keep_days_ok.
    by apply (hok_subs h Hok id).
Qed.

#[export] Hint Resolve hist_add_ok hist_prune_ok newNodeHist_ok : usage.

(** ** A life of a history: buckets counted, days pruned, subscriptions forgotten *)

Inductive hist_op :=
| OpAdd (ts : Z) (b : bucket)
| OpPrune (keepFrom : Z)
| OpForgetSub (id : Z).

(** [ForgetSubscription] on one node's history. *)
Definition hist_forget_sub (id : Z) (h : nodeHist) : nodeHist :=
  MkHist (days h) (delete id (subs h)) (bridge h) (delete id (life h)) (through h).

Definition hist_step (h : nodeHist) (o : hist_op) : nodeHist :=
  match o with
  | OpAdd ts b => hist_add ts b h
  | OpPrune k => hist_prune k h
  | OpForgetSub id => hist_forget_sub id h
  end.

Definition hist_run (os : list hist_op) : nodeHist := foldl hist_step newNodeHist os.

Definition op_ok (o : hist_op) : Prop :=
  match o with OpAdd _ b => bucket_ok b | _ => True end.

Definition is_forget (o : hist_op) : bool :=
  match o with OpForgetSub _ => true | _ => false end.

(** What the subscriptions of a history count for one day. *)
Definition day_sum (x : dir) (d : Z) (s : gmap Z (gmap Z Totals)) : Z :=
  msum (fun _ m => get x (m !!! d)) s.

Lemma series_get_range m x d : series_ok m -> isU64 (get x (m !!! d)).
Proof. intros. by apply get_ok, lookup_total_ok. Qed.

Lemma day_sum_nonneg h x d : hist_ok h -> 0 <= day_sum x d (subs h).
Proof.
  intros Hok. apply msum_nonneg. intros id m Hm.
  pose proof (series_get_range m x d (hok_subs h Hok id m Hm)). word_lia.
Qed.

(** Counting one subscription's bytes moves its count of the day by as much,
    up to the cap. *)
Lemma day_sum_insert (s : gmap Z (gmap Z Totals)) x id d d' t :
  map_Forall (fun _ m => series_ok m) s -> totals_ok t ->
  day_sum x d' (<[id := <[d := plus ((s !!! id) !!! d) t]> (s !!! id)]> s) =
  day_sum x d' s + (if decide (d' = d) then Z.min (get x t) (maxU64 - get x ((s !!! id) !!! d)) else 0).
Proof.
  intros Hs Ht. unfold day_sum. rewrite msum_insert_any.
  assert (series_ok (s !!! id)) as Hid.
  { rewrite lookup_total_alt. destruct (s !! id) eqn:E; simpl; [by eapply Hs|apply map_Forall_empty]. }
  assert (msum (fun _ m => get x (m !!! d')) s =
    get x ((s !!! id) !!! d') + msum (fun _ m => get x (m !!! d')) (delete id s)) as ->.
  { destruct (s !! id) as [m|] eqn:E.
    - rewrite (lookup_total_correct s id m) by done.
      by apply (msum_delete (fun _ m => get x (m !!! d'))).
    - rewrite delete_id by done. rewrite (lookup_total_alt s), E. simpl.
      by rewrite lookup_total_empty, get_zero. }
  case_decide; subst.
  - rewrite lookup_total_insert_eq, get_plus; [|by apply lookup_total_ok|done].
    pose proof (series_get_range _ x d Hid). pose proof (get_ok x t Ht). lia.
  - rewrite lookup_total_insert_ne by done. lia.
Qed.

Lemma add_subs_day_sum x d' d h (m : gmap Z Totals) :
  hist_ok h -> series_ok m ->
  let r := map_fold (add_sub d) h m in
  map_Forall (fun _ m => series_ok m) (subs r) /\
  Z.min (day_sum x d' (subs r)) maxU64 =
  Z.min (day_sum x d' (subs h) + (if decide (d' = d) then msum (fun _ t => get x t) m else 0)) maxU64.
Proof.
  intros Hok. cbn zeta.
  apply (map_fold_weak_ind (fun r m => series_ok m -> map_Forall (fun _ m => series_ok m) (subs r) /\
    Z.min (day_sum x d' (subs r)) maxU64 =
    Z.min (day_sum x d' (subs h) + (if decide (d' = d) then msum (fun _ t => get x t) m else 0)) maxU64)).
  - intros _. split; [apply Hok|]. rewrite msum_empty. f_equal. case_decide; lia.
  - intros id t m' r Hid IH Hm. apply map_Forall_insert in Hm as [Ht Hm]; [|done].
    destruct (IH Hm) as [Hr Hsum]. clear IH. rewrite msum_insert by done. unfold add_sub.
    assert (series_ok (subs r !!! id)) as Hrid.
    { rewrite lookup_total_alt. destruct (subs r !! id) eqn:E; simpl; [by eapply Hr|apply map_Forall_empty]. }
    pose proof (get_ok x t Ht).
    destruct (isZero t) eqn:Hz.
    { apply isZero_true in Hz. subst. rewrite get_zero. split; [done|]. rewrite Hsum.
      case_decide; lia. }
    simpl. split.
    { apply map_Forall_insert_2; [|done]. apply map_Forall_insert_2; [|done].
      apply plus_ok; [by apply lookup_total_ok|done]. }
    rewrite day_sum_insert by done. pose proof (series_get_range _ x d Hrid).
    assert (get x ((subs r !!! id) !!! d) <= day_sum x d (subs r)).
    { rewrite (lookup_total_alt (subs r)). destruct (subs r !! id) as [s|] eqn:E; simpl.
      - unfold day_sum. apply (msum_lookup_le (fun _ m => get x (m !!! d)) _ id s); [|done].
        intros k v Hk. pose proof (series_get_range v x d (Hr _ _ Hk)). word_lia.
      - rewrite lookup_total_empty, get_zero. apply msum_nonneg. intros k v Hk.
        pose proof (series_get_range v x d (Hr _ _ Hk)). word_lia. }
    case_decide; subst; word_lia.
Qed.

Definition conserved (h : nodeHist) : Prop :=
  forall x d, get x (days h !!! d) = Z.min (day_sum x d (subs h)) maxU64.

Definition covers (h : nodeHist) : Prop :=
  forall x d, Z.min (day_sum x d (subs h)) maxU64 <= get x (days h !!! d).

Lemma hist_add_day_sum ts b h x d :
  bucket_ok b -> hist_ok h ->
  Z.min (day_sum x d (subs (hist_add ts b h))) maxU64 =
  Z.min (day_sum x d (subs h) + (if decide (d = dayOf ts) then msum (fun _ t => get x t) (b_subs b) else 0)) maxU64.
Proof.
  intros [Hb _] Hok. unfold hist_add. cbn [subs].
  assert (hist_ok (add_day (dayOf ts) (bucket_node b) h)) as Hok'.
  { unfold add_day. destruct (isZero _); [done|]. split; simpl; try apply Hok.
    apply map_Forall_insert_2; [|apply Hok]. apply plus_ok; [apply lookup_total_ok, Hok|].
    by destruct (bucket_node_sum b UpDir Hb). }
  destruct (add_subs_day_sum x d (dayOf ts) _ (b_subs b) Hok' Hb) as [_ ->].
  f_equal. unfold add_day. by destruct (isZero _).
Qed.

Lemma hist_add_covers ts b h : bucket_ok b -> hist_ok h -> covers h -> covers (hist_add ts b h).
Proof.
  intros Hb Hok Hc x d. rewrite hist_add_day_sum, hist_add_days by done.
  destruct (bucket_node_sum b x (proj1 Hb)) as [Hn Hget]. specialize (Hc x d).
  pose proof (day_sum_nonneg h x d Hok).
  pose proof (series_get_range (days h) x d (hok_days h Hok)).
  assert (0 <= msum (fun _ t => get x t) (b_subs b)).
  { apply msum_nonneg. intros k v Hk. pose proof (get_ok x v (proj1 Hb _ _ Hk)). word_lia. }
  case_decide; [|by rewrite Z.add_0_r].
  rewrite get_plus; [|apply lookup_total_ok, Hok|done]. rewrite Hget. word_lia.
Qed.

Lemma hist_add_conserved ts b h :
  bucket_ok b -> hist_ok h -> conserved h -> conserved (hist_add ts b h).
Proof.
  intros Hb Hok Hc x d. rewrite hist_add_day_sum, hist_add_days by done.
  destruct (bucket_node_sum b x (proj1 Hb)) as [Hn Hget]. specialize (Hc x d).
  pose proof (day_sum_nonneg h x d Hok).
  pose proof (series_get_range (days h) x d (hok_days h Hok)).
  assert (0 <= msum (fun _ t => get x t) (b_subs b)).
  { apply msum_nonneg. intros k v Hk. pose proof (get_ok x v (proj1 Hb _ _ Hk)). word_lia. }
  case_decide; [|by rewrite Z.add_0_r].
  rewrite get_plus; [|apply lookup_total_ok, Hok|done]. rewrite Hget. word_lia.
Qed.

Lemma hist_prune_day_sum k h x d :
  day_sum x d (subs (hist_prune k h)) = if decide (k <= d) then day_sum x d (subs h) else 0.
Proof.
  unfold hist_prune. cbn [subs]. generalize (subs h). intros s. unfold day_sum.
  induction s as [|id m s Hid _ IH] using map_first_key_ind.
  - rewrite omap_empty, !msum_empty. by case_decide.
  - rewrite (msum_insert _ s) by done. rewrite omap_insert. simpl.
    assert (omap (fun m => if bool_decide (keep_days k m = ∅) then None else Some (keep_days k m)) s !! id = None)
      as Hn by (rewrite lookup_omap, Hid; done).
    pose proof (keep_days_lookup k m d) as Hk. case_bool_decide as He.
    + rewrite delete_id by done. rewrite IH. rewrite He, lookup_total_empty in Hk.
      case_decide; [|done]. rewrite <-Hk. simpl. by rewrite get_zero.
    + rewrite msum_insert by done. rewrite IH, Hk. case_decide; [done|]. by rewrite get_zero.
Qed.

Lemma hist_prune_conserved k h : conserved h -> conserved (hist_prune k h).
Proof.
  intros Hc x d. rewrite hist_prune_day_sum, hist_prune_days.
  case_decide; [apply Hc|]. rewrite get_zero. word_lia.
Qed.

Lemma hist_prune_covers k h : covers h -> covers (hist_prune k h).
Proof.
  intros Hc x d. rewrite hist_prune_day_sum, hist_prune_days.
  case_decide; [apply Hc|]. rewrite get_zero. word_lia.
Qed.

Lemma hist_forget_ok id h : hist_ok h -> hist_ok (hist_forget_sub id h).
Proof.
  intros Hok. split; simpl; try apply Hok; apply map_Forall_delete; apply Hok.
Qed.

Lemma hist_forget_covers id h : hist_ok h -> covers h -> covers (hist_forget_sub id h).
Proof.
  intros Hok Hc x d. specialize (Hc x d). simpl.
  enough (day_sum x d (delete id (subs h)) <= day_sum x d (subs h)) by lia.
  unfold day_sum. destruct (subs h !! id) as [m|] eqn:E.
  - rewrite (msum_delete _ (subs h) id m) by done.
    pose proof (series_get_range m x d (hok_subs h Hok id m E)). word_lia.
  - by rewrite delete_id.
Qed.

Lemma new_conserved : conserved newNodeHist.
Proof. intros x d. simpl. rewrite lookup_total_empty, get_zero. unfold day_sum. rewrite msum_empty. word_lia. Qed.

#[export] Hint Resolve hist_add_covers hist_prune_covers hist_forget_ok hist_forget_covers
  hist_add_conserved hist_prune_conserved : usage.

Lemma hist_steps_inv os h :
  Forall op_ok os -> hist_ok h -> covers h ->
  hist_ok (foldl hist_step h os) /\ covers (foldl hist_step h os).
Proof.
  revert h. induction os as [|o os IH]; intros h Hos Hok Hc; [done|].
  apply Forall_cons in Hos as [Ho Hos]. simpl.
  apply IH; [done|destruct o; simpl; auto with usage..].
Qed.

Lemma hist_steps_conserved os h :
  Forall op_ok os -> forallb (fun o => negb (is_forget o)) os = true ->
  hist_ok h -> conserved h -> conserved (foldl hist_step h os).
Proof.
  revert h. induction os as [|o os IH]; intros h Hos Hf Hok Hc; [done|].
  apply Forall_cons in Hos as [Ho Hos]. simpl in Hf. apply andb_prop in Hf as [Hfo Hf].
  simpl. apply IH; try done; destruct o; simpl in *; auto with usage; done.
Qed.

(** However a node's history came to be (buckets counted in any order,
    old days pruned, subscriptions forgotten), the node's count of a day is
    never below what its subscriptions count for that day, capped at the
    largest uint64; and as long as no subscription was forgotten the two are
    equal. *)
Theorem hist_days_conserved os :
  Forall op_ok os ->
  covers (hist_run os) /\
  (forallb (fun o => negb (is_forget o)) os = true -> conserved (hist_run os)).
Proof.
  intros Hos. split.
  - apply hist_steps_inv; auto with usage. intros x d. rewrite new_conserved. lia.
  - intros Hf. apply hist_steps_conserved; auto using new_conserved with usage.
Qed.

(** A month of traffic in two buckets, one of them pruned again. *)
Definition demo_bucket : bucket :=
  MkBucket {[ 7 := MkTotals 10 20; 9 := MkTotals 5 maxU64 ]} (MkTotals 3 3).

Lemma demo_bucket_ok : bucket_ok demo_bucket.
Proof.
  split; [|split; simpl; word_lia].
  intros k t. unfold demo_bucket. simpl. intros [[_ <-]|[_ [_ <-]%lookup_singleton_Some]]%lookup_insert_Some;
    split; simpl; word_lia.
Qed.

Lemma hist_days_conserved_witness :
  let os := [OpAdd 3600 demo_bucket; OpAdd 90000 demo_bucket; OpPrune 1] in
  Forall op_ok os /\ forallb (fun o => negb (is_forget o)) os = true /\ conserved (hist_run os).
Proof.
  cbn zeta. assert (Forall op_ok [OpAdd 3600 demo_bucket; OpAdd 90000 demo_bucket; OpPrune 1]) as Hos.
  { rewrite !Forall_cons, Forall_nil. pose proof demo_bucket_ok. simpl. tauto. }
  split; [done|]. split; [reflexivity|].
  apply (hist_days_conserved [OpAdd 3600 demo_bucket; OpAdd 90000 demo_bucket; OpPrune 1] Hos).
  reflexivity.
Defined.

(** Go's truncating arithmetic in [dayOf] still rounds down. *)
Lemma dayOf_floor u : dayOf u = u / secondsPerDay.
Proof.
  unfold dayOf, secondsPerDay. rewrite Z.quot_div, Z.rem_mod by lia.
  destruct (Z.ltb_spec (Z.sgn u * (Z.abs u mod Z.abs (24 * 60 * 60))) 0);
    Z.div_mod_to_equations; lia.
Qed.

(** ** Pruning leaves what the page shows alone *)

Lemma keep_days_msum k m (f : Z -> Totals -> Z) :
  (forall d t, ~ k <= d -> f d t = 0) -> msum f (keep_days k m) = msum f m.
Proof.
  intros Hf. unfold keep_days. rewrite (msum_filter f m (fun d => k <= d)).
  enough (msum f (filter (fun kv => ~ k <= kv.1) m) = 0) by lia.
  rewrite (msum_ext f (fun _ _ => 0)).
  - induction (filter (fun kv => ~ k <= kv.1) m) as [|d t s Hd _ IH] using map_first_key_ind.
    + apply msum_empty.
    + rewrite msum_insert by done. lia.
  - intros d t [_ Hd]%map_lookup_filter_Some. by apply Hf.
Qed.

Lemma span_keep_days k m from to :
  k <= from -> series_ok m -> span (keep_days k m) from to = span m from to.
Proof.
  intros Hk Hm. apply totals_eq. intros x.
  rewrite (proj2 (span_sum (keep_days k m) from to x (keep_days_ok k m Hm))).
  rewrite (proj2 (span_sum m from to x Hm)). f_equal. apply keep_days_msum.
  intros d t Hd. destruct (Z.leb_spec from d); [lia|done].
Qed.

(** Pruning at [today] changes nothing the page shows at [today]: a node's
    and a subscription's bytes of the day and of the thirty-day month are the
    same before and after, and so are the lifetime totals a limit is measured
    by. *)
Theorem prune_keeps_the_month h today id :
  hist_ok h ->
  let k := today - (keepDays - 1) in
  let from := today - (monthDays - 1) in
  let h' := hist_prune k h in
  days h' !!! today = days h !!! today /\
  span (days h') from today = span (days h) from today /\
  (subs h' !!! id) !!! today = (subs h !!! id) !!! today /\
  span (subs h' !!! id) from today = span (subs h !!! id) from today /\
  life h' = life h.
Proof.
  intros Hok k from h'. subst k from h'. unfold keepDays, monthDays.
  rewrite hist_prune_days, hist_prune_sub_day, !decide_True by lia.
  repeat split.
  - apply span_keep_days; [lia|apply Hok].
  - simpl. rewrite (lookup_total_alt (omap _ _)), lookup_omap.
    rewrite (lookup_total_alt (subs h)). destruct (subs h !! id) as [m|] eqn:E; [|done].
    simpl. rewrite <-(span_keep_days (today - (31 - 1)) m); [|lia|by apply (hok_subs h Hok id)].
    case_bool_decide as He; [|done]. by rewrite He.
Qed.

Lemma prune_keeps_the_month_witness :
  let h := hist_run [OpAdd 90000 demo_bucket] in
  hist_ok h /\ span (days (hist_prune (1 - (keepDays - 1)) h)) (1 - (monthDays - 1)) 1
             = span (days h) (1 - (monthDays - 1)) 1.
Proof.
  assert (hist_ok (hist_run [OpAdd 90000 demo_bucket])) as Hok.
  { apply hist_add_ok; [apply demo_bucket_ok|apply newNodeHist_ok]. }
  split; [done|]. apply (prune_keeps_the_month _ 1 7 Hok).
Defined.

(** ** The chart ring against an abstract chart

    A put is a time and the two rates. The abstract chart keeps, for each step,
    the last rates put in it. *)

Definition put := (Z * (Z * Z))%type.

Definition ring_of (ps : list put) : ring :=
  foldl (fun r (p : put) => ring_put p.1 p.2.1 p.2.2 r) newRing ps.

Definition chart (ps : list put) : gmap Z (Z * Z) :=
  foldl (fun c (p : put) => <[stepOf p.1 := p.2]> c) ∅ ps.

(** The slot of a step holds the newest put of the steps that share it. *)
Definition ring_inv (c : gmap Z (Z * Z)) (hi : Z) (r : ring) : Prop :=
  length r = Z.to_nat ringSlots /\
  (forall s v, c !! s = Some v -> 0 < s <= hi) /\
  (forall i p, r !! i = Some p ->
     p = emptySlot \/
     (0 < s_step p /\ Z.of_nat i = s_step p mod ringSlots /\ c !! s_step p = Some (s_up p, s_down p))) /\
  (forall s u d, c !! s = Some (u, d) -> hi - ringSlots < s ->
     r !! Z.to_nat (s mod ringSlots) = Some (MkSlot s u d)).

Lemma ringSlots_val : ringSlots = 180.
Proof. reflexivity. Qed.

Lemma ring_put_inv c hi r at_ up down :
  ring_inv c hi r -> 0 < stepOf at_ -> hi <= stepOf at_ ->
  ring_inv (<[stepOf at_ := (up, down)]> c) (stepOf at_) (ring_put at_ up down r).
Proof.
  intros (Hlen & Hpos & Hsl & Hc) Hs Hhi. unfold ring_inv, ring_put.
  set (s := stepOf at_) in *. rewrite Z.rem_mod_nonneg by (rewrite ?ringSlots_val; lia).
  destruct (Z.leb_spec s 0); [lia|]. rewrite ringSlots_val in *.
  assert (0 <= s mod 180 < 180) by (apply Z.mod_pos_bound; lia).
  split; [by rewrite length_insert|]. split; [|split].
  - intros s' v [[<- _]|[_ Hv]]%lookup_insert_Some; [lia|]. specialize (Hpos _ _ Hv). lia.
  - intros i p [(<- & <- & _)|[Hi Hp]]%list_lookup_insert_Some.
    + right. simpl. split; [lia|]. split; [apply Z2Nat.id; lia|]. by rewrite lookup_insert_eq.
    + destruct (Hsl i p Hp) as [?|(H1 & H2 & H3)]; [by left|]. right. split; [done|]. split; [done|].
      rewrite lookup_insert_ne; [done|]. intros Heq. apply Hi. rewrite Heq. lia.
  - intros s' u d [[<- [= <- <-]]|[Hne Hv]]%lookup_insert_Some Hw.
    + apply list_lookup_insert_eq. rewrite Hlen. lia.
    + pose proof (Hpos _ _ Hv). rewrite list_lookup_insert_ne; [apply Hc; [done|lia]|].
      intros Heq%Z2Nat.inj; [|apply Z.mod_pos_bound; lia..]. Z.div_mod_to_equations. lia.
Qed.

Lemma stepOf_mono a b : 0 < stepOf a -> a <= b -> stepOf a <= stepOf b.
Proof.
  unfold stepOf, Unix. change (Z.quot Step second) with 5. intros Ha Hab.
  assert (a / second <= b / second) by (apply Z.div_le_mono; [unfold second; lia|done]).
  assert (0 <= a / second). { destruct (Z.le_gt_cases 0 (a / second)) as [?|Hn]; [done|].
    assert (Z.quot (a / second) 5 <= 0) by (Z.quot_rem_to_equations; lia). lia. }
  rewrite !Z.quot_div_nonneg by lia. apply Z.div_le_mono; lia.
Qed.

Definition puts_before (now : Z) (ps : list put) : Prop :=
  StronglySorted (fun p q => p.1 <= q.1) ps /\ Forall (fun p => 0 < stepOf p.1 /\ p.1 <= now) ps.

Lemma ring_inv_hi c hi hi' r : hi <= hi' -> ring_inv c hi r -> ring_inv c hi' r.
Proof.
  intros Hle (H1 & H2 & H3 & H4). split; [done|]. split; [|split; [done|]].
  - intros s v Hs. specialize (H2 s v Hs). lia.
  - intros s u d Hs ?. apply H4; [done|lia].
Qed.

Lemma foldl_ring_inv ps c hi r now :
  ring_inv c hi r -> hi <= stepOf now -> (forall p, p ∈ ps -> hi <= stepOf p.1) -> puts_before now ps ->
  ring_inv (foldl (fun c (p : put) => <[stepOf p.1 := p.2]> c) c ps) (stepOf now)
    (foldl (fun r (p : put) => ring_put p.1 p.2.1 p.2.2 r) r ps).
Proof.
  revert c hi r. induction ps as [|p ps IH]; intros c hi r Hinv Hhi Hall [Hs Hb].
  - by apply ring_inv_hi with hi.
  - inversion Hs as [|? ? Hs' Hle]; subst. apply Forall_cons in Hb as [[Hp Hnow] Hb]. simpl.
    destruct p as [at_ [u d]]; simpl in *. apply (IH _ (stepOf at_)).
    + apply ring_put_inv with hi; [done..|]. by apply (Hall (at_, (u, d))), list_elem_of_here.
    + by apply stepOf_mono.
    + intros q Hq. rewrite Forall_forall in Hle. apply stepOf_mono; [done|]. by apply Hle.
    + by split.
Qed.

Lemma ring_of_inv ps now :
  0 <= stepOf now -> puts_before now ps -> ring_inv (chart ps) (stepOf now) (ring_of ps).
Proof.
  intros Hnow Hps. apply foldl_ring_inv with 0; [|done| |done].
  - split; [apply length_replicate|]. split; [by intros s v; rewrite lookup_empty|].
    split; [|intros s u d Hx; rewrite lookup_empty in Hx; discriminate Hx].
    intros i p [-> _]%lookup_replicate. by left.
  - intros p Hp. destruct Hps as [_ Hb]. rewrite Forall_forall in Hb.
    destruct (Hb p Hp). lia.
Qed.

Lemma in_window_true last p :
  in_window last p = true <-> last - ringSlots < s_step p <= last.
Proof. unfold in_window. rewrite andb_true_iff, Z.ltb_lt, Z.leb_le. done. Qed.

(** The chart the ring serves is the abstract chart: when polls come in
    order and the clock reads at least one window past the epoch, [points] is
    strictly sorted by time (one point for a step at most), and its points are
    exactly the last rates put in each step of the window that was polled. *)
Theorem ring_points_chart ps now :
  puts_before now ps -> ringSlots <= stepOf now ->
  StronglySorted (fun a b => P_At a < P_At b) (ring_points now (ring_of ps)) /\
  forall pt, pt ∈ ring_points now (ring_of ps) <->
    exists s u d, chart ps !! s = Some (u, d) /\
      stepOf now - ringSlots < s <= stepOf now /\ pt = slot_point (MkSlot s u d).
Proof.
  intros Hps Hnow.
  assert (ring_inv (chart ps) (stepOf now) (ring_of ps)) as (Hlen & Hpos & Hsl & Hc).
  { apply ring_of_inv; [|done]. rewrite ringSlots_val in Hnow. lia. }
  assert (forall i p, ring_of ps !! i = Some p -> in_window (stepOf now) p = true ->
    Z.of_nat i = s_step p mod ringSlots /\ chart ps !! s_step p = Some (s_up p, s_down p)) as Hw.
  { intros i p Hi Hp. destruct (Hsl i p Hi) as [->|(_ & Ha & Hb)]; [|exact (conj Ha Hb)].
    apply in_window_true in Hp. simpl in Hp. lia. }
  unfold ring_points. split.
  - apply (StronglySorted_strict P_At).
    + rewrite (merge_sort_Permutation At_le), <-list_fmap_compose. apply NoDup_fmap_filter.
      intros i j p q Hi Hj Hp Hq He.
      destruct (Hw i p Hi Hp) as [Hi' _], (Hw j q Hj Hq) as [Hj' _].
      simpl in He. change (Z.quot Step second) with 5 in He. unfold second in He.
      assert (s_step p = s_step q) as Heq by lia. rewrite Heq in Hi'. lia.
    + apply (StronglySorted_merge_sort At_le).
  - intros pt. rewrite (merge_sort_Permutation At_le), list_elem_of_fmap. split.
    + intros (p & -> & [Hp [i Hi]%list_elem_of_lookup]%list_elem_of_filter).
      destruct (Hw i p Hi Hp) as [_ Hch]. apply in_window_true in Hp.
      exists (s_step p), (s_up p), (s_down p). destruct p. exact (conj Hch (conj Hp eq_refl)).
    + intros (s & u & d & Hch & Hs & ->). exists (MkSlot s u d). split; [done|].
      apply list_elem_of_filter. split; [by apply in_window_true|].
      eapply list_elem_of_lookup_2, Hc; [done|lia].
Qed.

Lemma ring_points_chart_witness :
  let ps := [(1000 * second, (1, 2)); (1001 * second, (3, 4)); (1008 * second, (5, 6))] in
  let now := 1010 * second in
  puts_before now ps /\ ringSlots <= stepOf now /\
  StronglySorted (fun a b => P_At a < P_At b) (ring_points now (ring_of ps)).
Proof.
  cbn zeta.
  assert (puts_before (1010 * second) [(1000 * second, (1, 2)); (1001 * second, (3, 4)); (1008 * second, (5, 6))]) as H.
  { split.
    - repeat constructor; simpl; unfold second; lia.
    - repeat (apply Forall_cons; split; [split; [reflexivity|simpl; unfold second; lia]|]). apply Forall_nil_2. }
  split; [done|]. split; [vm_compute; discriminate|].
  apply (ring_points_chart _ _ H). vm_compute; discriminate.
Defined.

(** While the clock is within the first window after the epoch, the empty slots
    pass the window test and show as points at the epoch. *)
Lemma ring_points_early_clock : length (ring_points (10 * second) newRing) = 180%nat.
Proof. vm_compute. reflexivity. Qed.
