(* ===== verification/UsageFile.v ===== *)
(** * The usage file

    Models [internal/remotenodes/usage/file.go] and the day strings of
    [history.go]: what [encodeDoc] puts in [usage.json] and what [decodeDoc]
    makes of a file. The file's bytes are taken at the level of the values
    [encoding/json] reads and writes: [fb_head] is what the bytes unmarshal to
    as the version header alone, [fb_doc] as the whole document, [None] where
    [json.Unmarshal] fails. *)

From S2P Require Import Prelude GoString Dates History.

Definition SchemaVersion : Z := 1.

Record fileTotal := MkFileTotal { ft_ID : Z; ft_Total : Totals }.

Record fileSub := MkFileSub {
  fs_ID : Z;
  fs_Days : gmap string Totals;
  fs_Total : option Totals
}.

Record fileNode := MkFileNode {
  fn_ID : Z;
  AckedThrough : Z;
  fn_Bridge : Totals;
  fn_Days : gmap string Totals;
  Subscriptions : list fileSub
}.

Record fileDoc := MkFileDoc {
  fd_Version : Z;
  Nodes : list fileNode;
  Retired : list fileTotal
}.

#[global] Instance fileTotal_eq_dec : EqDecision fileTotal.
Proof. solve_decision. Defined.
#[global] Instance fileSub_eq_dec : EqDecision fileSub.
Proof. solve_decision. Defined.
#[global] Instance fileNode_eq_dec : EqDecision fileNode.
Proof. solve_decision. Defined.
#[global] Instance fileDoc_eq_dec : EqDecision fileDoc.
Proof. solve_decision. Defined.

Record fileBytes := MkBytes { fb_head : option Z; fb_doc : option fileDoc }.

#[global] Instance fileBytes_eq_dec : EqDecision fileBytes.
Proof. solve_decision. Defined.

(** ** Encoding *)

Definition day_String (d : Z) : string := FormatDate d.
Definition parseDay (s : string) : option Z := ParseDate s.

Definition dayStrings (series : gmap Z Totals) : gmap string Totals :=
  map_fold (fun d t (out : gmap string Totals) => <[day_String d := t]> out) ∅ series.

Definition encode_sub (h : nodeHist) (sid : Z) : fileSub :=
  MkFileSub sid (dayStrings (subs h !!! sid)) (Some (life h !!! sid)).

Definition sub_ids (h : nodeHist) : gset Z := dom (subs h) ∪ dom (life h).

Definition encode_node (id : Z) (h : nodeHist) : fileNode :=
  MkFileNode id (through h) (bridge h) (dayStrings (days h))
    (sort_on fs_ID (encode_sub h <$> elements (sub_ids h))).

Definition encodeDoc (nodes : gmap Z nodeHist) (retired : gmap Z Totals) : fileBytes :=
  let doc := MkFileDoc SchemaVersion
    (sort_on fn_ID ((fun kv => encode_node kv.1 kv.2) <$>
       map_to_list (filter (fun kv => hist_empty kv.2 = false) nodes)))
    (sort_on ft_ID ((fun kv => MkFileTotal kv.1 kv.2) <$>
       map_to_list (filter (fun kv => isZero kv.2 = false) retired))) in
  MkBytes (Some SchemaVersion) (Some doc).

(** ** Decoding *)

Inductive decodeError :=
| ErrUnreadable
| ErrNewer (version : Z)
| ErrNoVersion
| ErrNodeID (id : Z)
| ErrNegativeMark (id : Z)
| ErrNotADay (node sub : Z)
| ErrSubID (node sub : Z)
| ErrRetiredID.

Definition parseDays (e : decodeError) (m : gmap string Totals) : result decodeError (gmap Z Totals) :=
  map_fold (fun s t acc => rbind (fun out : gmap Z Totals =>
    match parseDay s with Some d => Ok (<[d := t]> out) | None => Err e end) acc) (Ok ∅) m.

(** The loop over a node's subscriptions: the history so far and the ids seen. *)
Definition decode_sub (node : Z) (st : nodeHist * gset Z) (sub : fileSub) :
    result decodeError (nodeHist * gset Z) :=
  let '(h, seen) := st in
  if (fs_ID sub =? 0) || bool_decide (fs_ID sub ∈ seen) then Err (ErrSubID node (fs_ID sub)) else
  rbind (fun series =>
    let subs' := if bool_decide (series = ∅) then subs h else <[fs_ID sub := series]> (subs h) in
    let life' := match fs_Total sub with
                 | Some t => <[fs_ID sub := t]> (life h)
                 | None => if bool_decide (series = ∅) then life h
                           else <[fs_ID sub := span series minI64 maxI64]> (life h)
                 end in
    Ok (MkHist (days h) subs' (bridge h) life' (through h), {[fs_ID sub]} ∪ seen))
    (parseDays (ErrNotADay node (fs_ID sub)) (fs_Days sub)).

Definition decode_node (out : gmap Z nodeHist) (fn : fileNode) : result decodeError (gmap Z nodeHist) :=
  if (fn_ID fn =? 0) || bool_decide (is_Some (out !! fn_ID fn)) then Err (ErrNodeID (fn_ID fn)) else
  if AckedThrough fn <? 0 then Err (ErrNegativeMark (fn_ID fn)) else
  rbind (fun ds =>
    rbind (fun st : nodeHist * gset Z => Ok (<[fn_ID fn := st.1]> out))
      (foldM (decode_sub (fn_ID fn)) (MkHist ds ∅ (fn_Bridge fn) ∅ (AckedThrough fn), ∅) (Subscriptions fn)))
    (parseDays (ErrNotADay (fn_ID fn) 0) (fn_Days fn)).

Definition decode_retired (m : gmap Z Totals) (r : fileTotal) : result decodeError (gmap Z Totals) :=
  if ft_ID r =? 0 then Err ErrRetiredID else Ok (<[ft_ID r := plus (m !!! ft_ID r) (ft_Total r)]> m).

Definition decodeDoc (b : fileBytes) : result decodeError (gmap Z nodeHist * gmap Z Totals) :=
  match fb_head b with
  | None => Err ErrUnreadable
  | Some v =>
      if SchemaVersion <? v then Err (ErrNewer v) else
      if v <? 1 then Err ErrNoVersion else
      match fb_doc b with
      | None => Err ErrUnreadable
      | Some doc =>
          rbind (fun out => rbind (fun retired => Ok (out, retired))
                              (foldM decode_retired ∅ (Retired doc)))
            (foldM decode_node ∅ (Nodes doc))
      end
  end.

(** ** Histories the collector keeps, and what the file keeps of them *)

Definition days_in_range (m : gmap Z Totals) : Prop := map_Forall (fun d _ => minDay <= d <= maxDay) m.

Record file_hist (h : nodeHist) : Prop := {
  fh_days : days_in_range (days h);
  fh_subs : map_Forall (fun id m => id <> 0 /\ m <> ∅ /\ days_in_range m) (subs h);
  fh_life : map_Forall (fun id _ => id <> 0) (life h);
  fh_dom : dom (subs h) ⊆ dom (life h);
  fh_through : 0 <= through h
}.

(** * Lemmas *)

Definition day_ok (d : Z) : Prop := minDay <= d <= maxDay.
#[global] Instance day_ok_dec d : Decision (day_ok d).
Proof. unfold day_ok. apply _. Defined.

Lemma day_String_inj a b : day_ok a -> day_ok b -> day_String a = day_String b -> a = b.
Proof. apply FormatDate_inj. Qed.

Lemma parseDay_String d : day_ok d -> parseDay (day_String d) = Some d.
Proof. apply ParseDate_FormatDate. Qed.

(** The file's form of a series: a day's count under the day's string, and no
    other string. *)
Definition prints (q : gmap string Totals) (m : gmap Z Totals) : Prop :=
  (forall s t, q !! s = Some t -> exists d, day_ok d /\ s = day_String d) /\
  (forall d, day_ok d -> q !! day_String d = m !! d).

Lemma dayStrings_prints m : days_in_range m -> prints (dayStrings m) m.
Proof.
  unfold dayStrings.
  apply (map_fold_weak_ind (fun (r : gmap string Totals) m => days_in_range m -> prints r m)).
  - intros _. split; [intros s t; by rewrite lookup_empty|]. intros d _. by rewrite !lookup_empty.
  - intros d t m' r Hd IH Hm. apply map_Forall_insert in Hm as [Hr Hm]; [|done].
    destruct (IH Hm) as [IH1 IH2]. split.
    + intros s t' [[<- _]|[_ Hs]]%lookup_insert_Some; eauto.
    + intros d' Hd'. destruct (decide (d' = d)) as [->|Hne]; [by rewrite !lookup_insert_eq|].
      rewrite !lookup_insert_ne; [by apply IH2|done|].
      intros He. by apply Hne, day_String_inj.
Qed.

Lemma parseDays_prints e q :
  (forall s t, q !! s = Some t -> exists d, day_ok d /\ s = day_String d) ->
  exists r, parseDays e q = Ok r /\ days_in_range r /\ prints q r.
Proof.
  unfold parseDays.
  apply (map_fold_weak_ind (fun (r : result decodeError (gmap Z Totals)) (q : gmap string Totals) =>
    (forall s t, q !! s = Some t -> exists d, day_ok d /\ s = day_String d) ->
    exists r', r = Ok r' /\ days_in_range r' /\ prints q r')).
  - intros Hq. exists ∅. split; [done|]. split; [apply map_Forall_empty|]. split; [done|].
    intros d _. by rewrite !lookup_empty.
  - intros s t q' r Hs IH Hq. destruct IH as (r' & -> & Hrange & _ & Hr').
    { intros s' t' Hs'. apply (Hq s' t'). rewrite lookup_insert_ne; [done|]. congruence. }
    destruct (Hq s t) as (d & Hd & ->); [by rewrite lookup_insert_eq|]. simpl.
    rewrite parseDay_String by done. eexists. split; [done|].
    split; [by apply map_Forall_insert_2|]. split; [done|].
    intros d' Hd'. destruct (decide (d' = d)) as [->|Hne]; [by rewrite !lookup_insert_eq|].
    rewrite !lookup_insert_ne; [by apply Hr'|done|]. intros He. by apply Hne, day_String_inj.
Qed.

Lemma prints_inj q m m' :
  days_in_range m -> days_in_range m' -> prints q m -> prints q m' -> m = m'.
Proof.
  intros Hm Hm' [_ Hq] [_ Hq']. apply map_eq. intros d.
  destruct (decide (day_ok d)) as [Hd|Hd]; [by rewrite <-Hq, <-Hq'|].
  destruct (m !! d) eqn:E; [by specialize (Hm _ _ E)|].
  destruct (m' !! d) eqn:E'; [by specialize (Hm' _ _ E')|done].
Qed.

Lemma parseDays_dayStrings e m : days_in_range m -> parseDays e (dayStrings m) = Ok m.
Proof.
  intros Hm. pose proof (dayStrings_prints m Hm) as Hp.
  destruct (parseDays_prints e (dayStrings m)) as (r & -> & Hr & Hpr); [apply Hp|].
  f_equal. by eapply prints_inj.
Qed.

Lemma decode_sub_encode node h i acc seen :
  file_hist h -> i <> 0 -> i ∉ seen ->
  decode_sub node (acc, seen) (encode_sub h i) =
  Ok (MkHist (days acc)
        (match subs h !! i with Some m => <[i := m]> (subs acc) | None => subs acc end)
        (bridge acc) (<[i := life h !!! i]> (life acc)) (through acc), {[i]} ∪ seen).
Proof.
  intros Hh Hi0 Hseen. unfold decode_sub, encode_sub. cbn [fs_ID fs_Days fs_Total].
  destruct (Z.eqb_spec i 0); [done|]. rewrite bool_decide_eq_false_2 by done. cbn [orb].
  rewrite (lookup_total_alt (subs h)). destruct (subs h !! i) as [m|] eqn:E; simpl.
  - destruct (fh_subs h Hh i m E) as (_ & Hne & Hr).
    rewrite parseDays_dayStrings by done. simpl. by rewrite bool_decide_eq_false_2.
  - rewrite parseDays_dayStrings by apply map_Forall_empty. simpl. by rewrite bool_decide_eq_true_2.
Qed.

(** The subscriptions of a node, decoded one after the other. *)
Lemma decode_subs_encode node h ids acc seen :
  file_hist h -> NoDup ids -> (forall i, i ∈ ids -> i <> 0 /\ i ∉ seen) ->
  exists r, foldM (decode_sub node) (acc, seen) (encode_sub h <$> ids) = Ok r /\
    days r.1 = days acc /\ bridge r.1 = bridge acc /\ through r.1 = through acc /\
    (forall i, subs r.1 !! i = if decide (i ∈ ids) then match subs h !! i with
                                                        | Some m => Some m | None => subs acc !! i end
                               else subs acc !! i) /\
    (forall i, life r.1 !! i = if decide (i ∈ ids) then Some (life h !!! i) else life acc !! i).
Proof.
  intros Hh Hnd. revert acc seen. induction Hnd as [|i ids Hi Hnd IH]; intros acc seen Hids.
  - eexists. split; [done|]. simpl. repeat split.
  - cbn [fmap list_fmap foldM]. destruct (Hids i) as [Hi0 Hseen]; [left|].
    rewrite decode_sub_encode by done. cbn [rbind].
    match goal with |- context [foldM _ (?a, _) _] =>
      destruct (IH a ({[i]} ∪ seen)) as (r & -> & Hd & Hb & Ht & Hs & Hl) end.
    { intros j Hj. destruct (Hids j) as [? ?]; [by right|]. split; [done|].
      rewrite elem_of_union, elem_of_singleton. intros [->|]; done. }
    exists r. split; [done|]. rewrite Hd, Hb, Ht. split; [done|]. split; [done|]. split; [done|]. split.
    + intros j. rewrite Hs. cbn [subs]. destruct (decide (j = i)) as [->|Hne].
      * rewrite (decide_False (P := i ∈ ids)) by done. rewrite decide_True by left.
        destruct (subs h !! i); [by rewrite lookup_insert_eq|done].
      * assert ((j ∈ i :: ids) <-> j ∈ ids) as Hiff by (rewrite elem_of_cons; clear -Hne; tauto).
        rewrite (decide_ext (j ∈ i :: ids) (j ∈ ids)) by done.
        destruct (subs h !! i); [by rewrite lookup_insert_ne|done].
    + intros j. rewrite Hl. cbn [life]. destruct (decide (j = i)) as [->|Hne].
      * rewrite (decide_False (P := i ∈ ids)) by done. rewrite decide_True by left.
        by rewrite lookup_insert_eq.
      * assert ((j ∈ i :: ids) <-> j ∈ ids) as Hiff by (rewrite elem_of_cons; clear -Hne; tauto).
        rewrite (decide_ext (j ∈ i :: ids) (j ∈ ids)) by done. by rewrite lookup_insert_ne.
Qed.

Lemma decode_node_encode out id h :
  file_hist h -> id <> 0 -> out !! id = None -> decode_node out (encode_node id h) = Ok (<[id := h]> out).
Proof.
  intros Hh Hid Hout. unfold decode_node, encode_node. cbn [fn_ID AckedThrough fn_Bridge fn_Days Subscriptions].
  destruct (Z.eqb_spec id 0); [done|]. rewrite bool_decide_eq_false_2 by (rewrite Hout; intros [? [=]]).
  cbn [orb]. pose proof (fh_through h Hh). destruct (Z.ltb_spec (through h) 0); [lia|].
  rewrite parseDays_dayStrings by apply Hh. cbn [rbind].
  destruct (sort_on_fmap fs_ID (encode_sub h) (elements (sub_ids h))) as (ids & -> & Hp).
  edestruct (decode_subs_encode id h ids) as (r & -> & Hd & Hb & Ht & Hs & Hl); [done| | |].
  - rewrite Hp. apply NoDup_elements.
  - intros i Hi. rewrite Hp, elem_of_elements in Hi. split; [|set_solver].
    unfold sub_ids in Hi. rewrite elem_of_union, !elem_of_dom in Hi. destruct Hi as [[m Hm]|[t Ht]].
    + by apply (fh_subs h Hh i m).
    + by apply (fh_life h Hh i t).
  - cbn [rbind]. do 2 f_equal. cbn [days bridge through subs life] in *.
    assert (forall i, i ∈ ids <-> is_Some (life h !! i)) as Hin.
    { intros i. rewrite Hp, elem_of_elements. unfold sub_ids. rewrite <-elem_of_dom.
      pose proof (fh_dom h Hh). set_solver. }
    destruct r as [[rd rs rb rl rt] ?]. destruct h as [hd hs hb hl ht]. simpl in *. subst.
    assert (rs = hs) as ->.
    { apply map_eq. intros i. rewrite Hs. rewrite lookup_empty.
      destruct (hs !! i) eqn:E; [|by case_decide]. rewrite decide_True; [done|].
      apply Hin, elem_of_dom, (fh_dom _ Hh), elem_of_dom. by eexists. }
    assert (rl = hl) as ->; [|done].
    apply map_eq. intros i. rewrite Hl, lookup_empty, lookup_total_alt. case_decide as Hi.
    + apply Hin in Hi as [t ->]. done.
    + destruct (hl !! i) eqn:E; [|done]. destruct Hi. apply Hin. by rewrite E.
Qed.

Lemma decode_nodes_encode (l : list (Z * nodeHist)) out :
  NoDup l.*1 -> (forall i h, (i, h) ∈ l -> file_hist h /\ i <> 0 /\ out !! i = None) ->
  foldM decode_node out ((fun kv => encode_node kv.1 kv.2) <$> l) = Ok (list_to_map l ∪ out).
Proof.
  revert out. induction l as [|[i h] l IH]; intros out Hnd Hl; cbn.
  - by rewrite (left_id_L ∅ (∪)).
  - inversion Hnd as [|? ? Hi Hnd']; subst. destruct (Hl i h) as (Hh & Hi0 & Ho); [left|].
    rewrite decode_node_encode by done. cbn [rbind]. rewrite IH; [|done|].
    + f_equal. rewrite <-insert_union_r, insert_union_l; [done|].
      by apply not_elem_of_list_to_map.
    + intros j h' Hj. destruct (Hl j h') as (? & ? & ?); [by right|]. split; [done|]. split; [done|].
      rewrite lookup_insert_ne; [done|]. intros ->. apply Hi. apply list_elem_of_fmap. by exists (j, h').
Qed.

Lemma decode_retired_encode (l : list (Z * Totals)) out :
  NoDup l.*1 -> (forall i t, (i, t) ∈ l -> totals_ok t /\ i <> 0 /\ out !! i = None) ->
  foldM decode_retired out ((fun kv => MkFileTotal kv.1 kv.2) <$> l) = Ok (list_to_map l ∪ out).
Proof.
  revert out. induction l as [|[i t] l IH]; intros out Hnd Hl; cbn.
  - by rewrite (left_id_L ∅ (∪)).
  - inversion Hnd as [|? ? Hi Hnd']; subst. destruct (Hl i t) as (Ht & Hi0 & Ho); [left|].
    unfold decode_retired at 2. cbn [ft_ID ft_Total]. destruct (Z.eqb_spec i 0); [done|]. cbn [rbind].
    assert (plus (out !!! i) t = t) as ->.
    { rewrite lookup_total_alt, Ho. simpl. apply totals_eq. intros x.
      rewrite get_plus, get_zero by auto with usage. pose proof (get_ok x t Ht). word_lia. }
    rewrite IH; [|done|].
    + f_equal. rewrite <-insert_union_r, insert_union_l; [done|].
      by apply not_elem_of_list_to_map.
    + intros j t' Hj. destruct (Hl j t') as (? & ? & ?); [by right|]. split; [done|]. split; [done|].
      rewrite lookup_insert_ne; [done|]. intros ->. apply Hi. apply list_elem_of_fmap. by exists (j, t').
Qed.

Definition file_nodes (nodes : gmap Z nodeHist) : Prop :=
  map_Forall (fun id h => id <> 0 /\ file_hist h) nodes.

Definition file_retired (retired : gmap Z Totals) : Prop :=
  map_Forall (fun id t => id <> 0 /\ totals_ok t) retired.

(** What a restart keeps: the nodes with something to say, the totals that are
    not zero. *)
Definition kept_nodes (nodes : gmap Z nodeHist) : gmap Z nodeHist :=
  filter (fun kv => hist_empty kv.2 = false) nodes.

Definition kept_retired (retired : gmap Z Totals) : gmap Z Totals :=
  filter (fun kv => isZero kv.2 = false) retired.

Lemma decodeDoc_encodeDoc nodes retired :
  file_nodes nodes -> file_retired retired ->
  decodeDoc (encodeDoc nodes retired) = Ok (kept_nodes nodes, kept_retired retired).
Proof.
  intros Hn Hr. unfold decodeDoc, encodeDoc. cbn [fb_head fb_doc].
  change (SchemaVersion <? SchemaVersion) with false. change (SchemaVersion <? 1) with false.
  cbn [Nodes Retired].
  destruct (sort_on_fmap fn_ID (fun kv : Z * nodeHist => encode_node kv.1 kv.2)
    (map_to_list (kept_nodes nodes))) as (l & Hl & Hp).
  destruct (sort_on_fmap ft_ID (fun kv : Z * Totals => MkFileTotal kv.1 kv.2)
    (map_to_list (kept_retired retired))) as (k & Hk & Hq).
  unfold kept_nodes in Hl. unfold kept_retired in Hk. rewrite Hl, Hk.
  assert (NoDup l.*1) as Hnl by (rewrite Hp; apply NoDup_fst_map_to_list).
  assert (NoDup k.*1) as Hnk by (rewrite Hq; apply NoDup_fst_map_to_list).
  rewrite decode_nodes_encode, decode_retired_encode; [|done| |done|].
  - cbn [rbind]. rewrite !(right_id_L ∅ (∪)). do 2 f_equal.
    + rewrite (list_to_map_proper l (map_to_list (kept_nodes nodes))) by done. apply list_to_map_to_list.
    + rewrite (list_to_map_proper k (map_to_list (kept_retired retired))) by done. apply list_to_map_to_list.
  - intros i t Hi. rewrite Hq, elem_of_map_to_list in Hi.
    apply map_lookup_filter_Some in Hi as [Hi _]. destruct (Hr _ _ Hi). by rewrite lookup_empty.
  - intros i h Hi. rewrite Hp, elem_of_map_to_list in Hi.
    apply map_lookup_filter_Some in Hi as [Hi _]. destruct (Hn _ _ Hi). by rewrite lookup_empty.
Qed.

(** What is kept is kept again: a file that is read and written once more has
    the same bytes. *)
Lemma encodeDoc_kept nodes retired :
  encodeDoc (kept_nodes nodes) (kept_retired retired) = encodeDoc nodes retired.
Proof.
  unfold encodeDoc, kept_nodes, kept_retired. rewrite !map_filter_filter. do 4 f_equal.
  - f_equal. f_equal. apply map_filter_ext. intros. tauto.
  - f_equal. f_equal. apply map_filter_ext. intros. tauto.
Qed.

(** C14. A restart loses nothing the history holds: reading back the file that was
    written gives every node that has something to say and every total that is
    not zero, exactly as they were (each day under its own date), and writing
    what was read gives the same bytes, so an idle hub never rewrites its
    flash. *)
Theorem usage_file_roundtrip nodes retired :
  file_nodes nodes -> file_retired retired ->
  decodeDoc (encodeDoc nodes retired) = Ok (kept_nodes nodes, kept_retired retired) /\
  encodeDoc (kept_nodes nodes) (kept_retired retired) = encodeDoc nodes retired.
Proof. intros Hn Hr. split; [by apply decodeDoc_encodeDoc|apply encodeDoc_kept]. Qed.

Definition file_demo_hist : nodeHist :=
  MkHist {[ 0 := MkTotals 5 7; 19782 := MkTotals 1 2 ]} {[ 4 := {[ 19782 := MkTotals 1 2 ]} ]} (MkTotals 3 3)
    {[ 4 := MkTotals 6 9 ]} 1700000000.

(** Two nodes, one of them with nothing to say, and a subscription of a node
    that is gone. *)
Lemma usage_file_roundtrip_witness :
  let nodes := {[ 1 := file_demo_hist; 2 := newNodeHist ]} : gmap Z nodeHist in
  let retired := {[ 4 := MkTotals 10 20; 5 := zeroTotals ]} : gmap Z Totals in
  decodeDoc (encodeDoc nodes retired) = Ok ({[ 1 := file_demo_hist ]}, {[ 4 := MkTotals 10 20 ]}).
Proof.
  cbn zeta.
  destruct (usage_file_roundtrip {[ 1 := file_demo_hist; 2 := newNodeHist ]} {[ 4 := MkTotals 10 20; 5 := zeroTotals ]})
    as [-> _].
  - intros id h Hh. rewrite lookup_insert_Some in Hh.
    destruct Hh as [[<- <-]|[_ Hh]]; [|apply lookup_singleton_Some in Hh as [<- <-]]; (split; [lia|]).
    + split; [| | | |vm_compute; discriminate];
        apply (bool_decide_unpack _); vm_compute; exact I.
    + split; [| | | |vm_compute; discriminate];
        apply (bool_decide_unpack _); vm_compute; exact I.
  - intros id t Ht. rewrite lookup_insert_Some in Ht.
    destruct Ht as [[<- <-]|[_ Ht]]; [|apply lookup_singleton_Some in Ht as [<- <-]];
      (split; [lia|split; split; vm_compute; discriminate]).
  - vm_compute. reflexivity.
Defined.
