(* ===== verification/AgentBuffer.v ===== *)
(** * The agent's traffic buffer

    Models [internal/agent/traffic]: the counters ([store.go]), the in-memory
    bucket store ([memory_store.go]), the collector that turns Xray's cumulative
    counters into deltas ([collector.go]), and the agent's two RPCs on the
    buffer ([internal/agent/server/server.go]). *)

From S2P Require Import Prelude History.

(** ** Counters

    Go's zero value for an absent key, and [+=] on a 64-bit counter. *)

Abbreviation counts := (gmap string Z).

Definition getZ (m : counts) (k : string) : Z := default 0 (m !! k).

Record CoreUsageCounts := MkCore { Uplink : Z; Downlink : Z }.
#[global] Instance CoreUsageCounts_inhabited : Inhabited CoreUsageCounts := populate (MkCore 0 0).

Record XrayStatsSnapshot := MkSnap {
  UserUplink : counts;
  UserDownlink : counts;
  InboundUplink : counts;
  InboundDownlink : counts;
  OutboundUplink : counts;
  OutboundDownlink : counts;
  TotalUplink : Z;
  TotalDownlink : Z;
  CoreUsage : gmap string (gmap string CoreUsageCounts)
}.

Definition emptySnapshot : XrayStatsSnapshot := MkSnap ∅ ∅ ∅ ∅ ∅ ∅ 0 0 ∅.

(** A bucket is its timestamp and the same nine counters. *)
Record TrafficBucket := MkTB { Timestamp : Z; data : XrayStatsSnapshot }.

(** [for k, v := range src { dst[k] += v }] *)
Definition merge_counts (dst src : counts) : counts :=
  map_fold (fun k v (m : counts) => <[k := wrapS (getZ m k + v)]> m) dst src.

Definition merge_core_email (dst src : gmap string CoreUsageCounts) : gmap string CoreUsageCounts :=
  map_fold (fun email c (m : gmap string CoreUsageCounts) =>
    let cur := m !!! email in
    <[email := MkCore (wrapS (Uplink cur + Uplink c)) (wrapS (Downlink cur + Downlink c))]> m) dst src.

Definition merge_core (dst src : gmap string (gmap string CoreUsageCounts)) :
    gmap string (gmap string CoreUsageCounts) :=
  map_fold (fun proto byEmail (m : gmap string (gmap string CoreUsageCounts)) =>
    <[proto := merge_core_email (m !!! proto) byEmail]> m) dst src.

Definition merge_snapshot (dst src : XrayStatsSnapshot) : XrayStatsSnapshot :=
  MkSnap (merge_counts (UserUplink dst) (UserUplink src))
         (merge_counts (UserDownlink dst) (UserDownlink src))
         (merge_counts (InboundUplink dst) (InboundUplink src))
         (merge_counts (InboundDownlink dst) (InboundDownlink src))
         (merge_counts (OutboundUplink dst) (OutboundUplink src))
         (merge_counts (OutboundDownlink dst) (OutboundDownlink src))
         (wrapS (TotalUplink dst + TotalUplink src))
         (wrapS (TotalDownlink dst + TotalDownlink src))
         (merge_core (CoreUsage dst) (CoreUsage src)).

(** ** The store

    [bucketSecs] is [int64(bucketDuration.Seconds())]. *)

Record MemoryStore := MkStore {
  buckets : gmap Z TrafficBucket;
  st_baseline : option XrayStatsSnapshot;
  bucketSecs : Z;
  retention : Z
}.

Definition NewMemoryStore (bucketSecs retention : Z) : MemoryStore :=
  MkStore ∅ None bucketSecs retention.

Definition truncateTime (s : MemoryStore) (t : Z) : Z :=
  Z.quot (Unix t) (bucketSecs s) * bucketSecs s.

Definition set_buckets (s : MemoryStore) (bs : gmap Z TrafficBucket) : MemoryStore :=
  MkStore bs (st_baseline s) (bucketSecs s) (retention s).

(** The merge of [Accumulate], before it evicts. *)
Definition accumulated (s : MemoryStore) (snap : XrayStatsSnapshot) (now : Z) : gmap Z TrafficBucket :=
  let ts := truncateTime s now in
  let b := default (MkTB ts emptySnapshot) (buckets s !! ts) in
  <[ts := MkTB (Timestamp b) (merge_snapshot (data b) snap)]> (buckets s).

Definition cutoff (s : MemoryStore) (now : Z) : Z := Unix (now - retention s).

Definition Accumulate (s : MemoryStore) (snapshot : option XrayStatsSnapshot) (now : Z) : MemoryStore :=
  match snapshot with
  | None => s
  | Some snap =>
      set_buckets s (filter (fun kv => ~ kv.1 < cutoff s now) (accumulated s snap now))
  end.

Definition ts_le (a b : TrafficBucket) : Prop := Timestamp a <= Timestamp b.
#[global] Instance ts_le_dec a b : Decision (ts_le a b).
Proof. unfold ts_le. apply _. Defined.
#[global] Instance ts_le_trans : Transitive ts_le.
Proof. intros a b c. unfold ts_le. lia. Qed.
#[global] Instance ts_le_total : Total ts_le.
Proof. intros a b. unfold ts_le. lia. Qed.

Definition GetAll (s : MemoryStore) : list TrafficBucket :=
  merge_sort ts_le (map_to_list (buckets s)).*2.

Definition Drain (s : MemoryStore) (throughTime : Z) : MemoryStore :=
  set_buckets s (filter (fun kv => ~ kv.1 <= throughTime) (buckets s)).

(** [cloneSnapshot] copies the counters and leaves the core usage behind. *)
Definition cloneSnapshot (src : option XrayStatsSnapshot) : option XrayStatsSnapshot :=
  match src with
  | None => None
  | Some s => Some (MkSnap (UserUplink s) (UserDownlink s) (InboundUplink s) (InboundDownlink s)
                      (OutboundUplink s) (OutboundDownlink s) (TotalUplink s) (TotalDownlink s) ∅)
  end.

Definition GetBaseline (s : MemoryStore) : option XrayStatsSnapshot := cloneSnapshot (st_baseline s).

Definition SetBaseline (s : MemoryStore) (snapshot : option XrayStatsSnapshot) : MemoryStore :=
  MkStore (buckets s) (cloneSnapshot snapshot) (bucketSecs s) (retention s).

(** One bucket added into the aggregate; the core usage is not part of it. *)
Definition aggregate_bucket (b : TrafficBucket) (agg : XrayStatsSnapshot) : XrayStatsSnapshot :=
  let s := data b in
  MkSnap (merge_counts (UserUplink agg) (UserUplink s))
         (merge_counts (UserDownlink agg) (UserDownlink s))
         (merge_counts (InboundUplink agg) (InboundUplink s))
         (merge_counts (InboundDownlink agg) (InboundDownlink s))
         (merge_counts (OutboundUplink agg) (OutboundUplink s))
         (merge_counts (OutboundDownlink agg) (OutboundDownlink s))
         (wrapS (TotalUplink agg + TotalUplink s))
         (wrapS (TotalDownlink agg + TotalDownlink s))
         (CoreUsage agg).

Definition Aggregate (s : MemoryStore) : XrayStatsSnapshot :=
  map_fold (fun _ b agg => aggregate_bucket b agg) emptySnapshot (buckets s).

Definition DrainAll (s : MemoryStore) : XrayStatsSnapshot * MemoryStore :=
  (map_fold (fun _ b agg => aggregate_bucket b agg) emptySnapshot (buckets s), set_buckets s ∅).

(** ** The collector *)

Definition diffMap (prev curr : counts) : counts :=
  map_imap (fun k c =>
    if c <=? 0 then None else
    let p := getZ prev k in
    if c <? p then Some c
    else if p <? c then Some (wrapS (c - p)) else None) curr.

Definition diffInt64 (prev curr : Z) : Z :=
  if curr <? prev then curr else wrapS (curr - prev).

Definition diffSnapshot (prev curr : option XrayStatsSnapshot) : XrayStatsSnapshot :=
  match curr with
  | None => emptySnapshot
  | Some c =>
      match prev with
      | None => MkSnap (UserUplink c) (UserDownlink c) (InboundUplink c) (InboundDownlink c)
                  (OutboundUplink c) (OutboundDownlink c) (TotalUplink c) (TotalDownlink c) ∅
      | Some p =>
          MkSnap (diffMap (UserUplink p) (UserUplink c))
                 (diffMap (UserDownlink p) (UserDownlink c))
                 (diffMap (InboundUplink p) (InboundUplink c))
                 (diffMap (InboundDownlink p) (InboundDownlink c))
                 (diffMap (OutboundUplink p) (OutboundUplink c))
                 (diffMap (OutboundDownlink p) (OutboundDownlink c))
                 (diffInt64 (TotalUplink p) (TotalUplink c))
                 (diffInt64 (TotalDownlink p) (TotalDownlink c)) ∅
      end
  end.

Definition is_empty (m : counts) : bool := bool_decide (m = ∅).

Definition snapshotIsEmpty (s : option XrayStatsSnapshot) : bool :=
  match s with
  | None => true
  | Some s =>
      if negb (TotalUplink s =? 0) || negb (TotalDownlink s =? 0) then false
      else is_empty (UserUplink s) && is_empty (UserDownlink s) &&
           is_empty (InboundUplink s) && is_empty (InboundDownlink s) &&
           is_empty (OutboundUplink s) && is_empty (OutboundDownlink s)
  end.

(** The collector: its own baseline and the store it feeds. *)
Record Collector := MkCollector { store : MemoryStore; baseline : option XrayStatsSnapshot }.

(** [Start] restores the baseline the store kept. *)
Definition Start (s : MemoryStore) : Collector := MkCollector s (GetBaseline s).

(** [stats] is what Xray's [QueryStats] answered, [None] for an error. *)
Definition collect (c : Collector) (stats : option XrayStatsSnapshot) (now : Z) : Collector :=
  match stats with
  | None => c
  | Some st =>
      let current := MkSnap (UserUplink st) (UserDownlink st) (InboundUplink st) (InboundDownlink st)
        (OutboundUplink st) (OutboundDownlink st) (TotalUplink st) (TotalDownlink st) ∅ in
      let delta := diffSnapshot (baseline c) (Some current) in
      let s := if snapshotIsEmpty (Some delta) then store c
               else Accumulate (store c) (Some delta) now in
      MkCollector (SetBaseline s (Some current)) (Some current)
  end.

(** ** The RPCs the hub calls *)

Record CoreUsageRecord := MkCoreRecord {
  cu_Protocol : string; cu_Email : string; cu_Uplink : Z; cu_Downlink : Z
}.

Record TrafficRecord := MkRecord {
  r_Timestamp : Z;
  r_UserUplink : counts;
  r_UserDownlink : counts;
  r_InboundUplink : counts;
  r_InboundDownlink : counts;
  r_OutboundUplink : counts;
  r_OutboundDownlink : counts;
  r_TotalUplink : Z;
  r_TotalDownlink : Z;
  r_CoreUsage : list CoreUsageRecord
}.

Record BufferedTrafficStats := MkBuffered {
  Records : list TrafficRecord;
  BufferStartTime : Z;
  BufferEndTime : Z
}.

(** [coreUsageRecords] flattens the core usage; Go ranges over the two maps. *)
Definition coreUsageRecords (cu : gmap string (gmap string CoreUsageCounts)) : list CoreUsageRecord :=
  pe ← map_to_list cu;
  (fun ec => MkCoreRecord pe.1 ec.1 (Uplink ec.2) (Downlink ec.2)) <$> map_to_list pe.2.

Definition record_of (b : TrafficBucket) : TrafficRecord :=
  let s := data b in
  MkRecord (Timestamp b) (UserUplink s) (UserDownlink s) (InboundUplink s) (InboundDownlink s)
    (OutboundUplink s) (OutboundDownlink s) (TotalUplink s) (TotalDownlink s)
    (coreUsageRecords (CoreUsage s)).

(** [None] is an agent whose buffer was never configured. *)
Definition GetBufferedTraffic (s : option MemoryStore) : BufferedTrafficStats :=
  match s with
  | None => MkBuffered [] 0 0
  | Some s =>
      let bs := GetAll s in
      MkBuffered (record_of <$> bs)
        (foldl (fun st b => if (st =? 0) || (Timestamp b <? st) then Timestamp b else st) 0 bs)
        (foldl (fun en b => if en <? Timestamp b then Timestamp b else en) 0 bs)
  end.

Definition AckBufferedTraffic (s : option MemoryStore) (through : Z) : option MemoryStore :=
  match s with None => None | Some s => Some (Drain s through) end.

(** * Lemmas *)

Lemma merge_counts_lookup dst src k :
  merge_counts dst src !! k =
    match src !! k with Some v => Some (wrapS (getZ dst k + v)) | None => dst !! k end.
Proof.
  unfold merge_counts.
  apply (map_fold_weak_ind (fun (r src : counts) => r !! k =
    match src !! k with Some v => Some (wrapS (getZ dst k + v)) | None => dst !! k end)).
  - by rewrite lookup_empty.
  - intros j v m r Hj IH. destruct (decide (j = k)) as [->|Hne].
    + rewrite !lookup_insert_eq. unfold getZ. rewrite IH, Hj. done.
    + by rewrite !lookup_insert_ne by done.
Qed.

Lemma getZ_merge dst src k :
  isI64 (getZ dst k) -> isI64 (getZ dst k + getZ src k) ->
  getZ (merge_counts dst src) k = getZ dst k + getZ src k.
Proof.
  unfold getZ. rewrite merge_counts_lookup. destruct (src !! k); simpl; intros; [|lia].
  by apply wrapS_id.
Qed.

(** The bytes of one email in one direction. *)
Definition user_counts (x : dir) (s : XrayStatsSnapshot) : counts :=
  match x with UpDir => UserUplink s | DownDir => UserDownlink s end.

Definition user_bytes (x : dir) (e : string) (s : XrayStatsSnapshot) : Z := getZ (user_counts x s) e.

Definition stored (x : dir) (e : string) (bs : gmap Z TrafficBucket) : Z :=
  msum (fun _ b => user_bytes x e (data b)) bs.

(** A store as the collector keeps it: a bucket sits under its own timestamp
    and no counter is negative. *)
Definition counts_nonneg (m : counts) : Prop := map_Forall (fun _ v => 0 <= v) m.

Definition snap_nonneg (s : XrayStatsSnapshot) : Prop :=
  counts_nonneg (UserUplink s) /\ counts_nonneg (UserDownlink s).

Definition buckets_ok (bs : gmap Z TrafficBucket) : Prop :=
  map_Forall (fun ts b => Timestamp b = ts /\ snap_nonneg (data b)) bs.

Lemma getZ_nonneg m k : counts_nonneg m -> 0 <= getZ m k.
Proof. intros Hm. unfold getZ. destruct (m !! k) eqn:E; simpl; [by apply (Hm k)|lia]. Qed.

Lemma user_bytes_nonneg x e s : snap_nonneg s -> 0 <= user_bytes x e s.
Proof. intros [? ?]. destruct x; by apply getZ_nonneg. Qed.

Lemma stored_nonneg x e bs : buckets_ok bs -> 0 <= stored x e bs.
Proof. intros Hb. apply msum_nonneg. intros ts b Hts. by apply user_bytes_nonneg, (Hb ts). Qed.

Lemma stored_bucket_le x e bs ts b :
  buckets_ok bs -> bs !! ts = Some b -> user_bytes x e (data b) <= stored x e bs.
Proof.
  intros Hb Hts. apply (msum_lookup_le (fun _ b => user_bytes x e (data b)) bs ts b); [|done].
  intros ts' b' ?. by apply user_bytes_nonneg, (Hb ts').
Qed.

Lemma user_bytes_merge x e d s :
  0 <= user_bytes x e d -> 0 <= user_bytes x e s -> user_bytes x e d + user_bytes x e s <= maxI64 ->
  user_bytes x e (merge_snapshot d s) = user_bytes x e d + user_bytes x e s.
Proof. unfold user_bytes. intros. destruct x; apply getZ_merge; simpl in *; word_lia. Qed.

(** Every byte of a delta lands in the store: nothing is lost to the split
    into buckets. *)
Lemma accumulated_stored s snap now x e :
  buckets_ok (buckets s) -> snap_nonneg snap ->
  stored x e (buckets s) + user_bytes x e snap <= maxI64 ->
  stored x e (accumulated s snap now) = stored x e (buckets s) + user_bytes x e snap.
Proof.
  intros Hb Hs Hmax. unfold accumulated, stored. rewrite msum_insert_any. cbn [data].
  set (ts := truncateTime s now). pose proof (user_bytes_nonneg x e snap Hs).
  destruct (buckets s !! ts) as [b|] eqn:E; cbn [default from_option id data].
  - pose proof (stored_bucket_le x e _ ts b Hb E). pose proof (stored_nonneg x e _ Hb).
    rewrite (msum_delete _ (buckets s) ts b) by done.
    rewrite user_bytes_merge; [lia| |done|lia].
    by apply user_bytes_nonneg, (Hb ts).
  - rewrite delete_id by done. pose proof (stored_nonneg x e _ Hb).
    assert (user_bytes x e emptySnapshot = 0) as Hz by (by destruct x).
    rewrite user_bytes_merge, Hz; [unfold stored in *; lia|lia|done|lia].
Qed.

Lemma counts_nonneg_merge d s :
  counts_nonneg d -> counts_nonneg s -> (forall k, getZ d k + getZ s k <= maxI64) ->
  counts_nonneg (merge_counts d s).
Proof.
  intros Hd Hs Hm k v. rewrite merge_counts_lookup. destruct (s !! k) as [w|] eqn:E; [|by apply Hd].
  intros [= <-]. specialize (Hm k). unfold getZ at 2 in Hm. rewrite E in Hm. simpl in Hm.
  pose proof (getZ_nonneg d k Hd). pose proof (Hs k w E). simpl in *.
  rewrite wrapS_id; word_lia.
Qed.

Lemma accumulated_ok s snap now :
  buckets_ok (buckets s) -> snap_nonneg snap ->
  (forall x e, stored x e (buckets s) + user_bytes x e snap <= maxI64) ->
  buckets_ok (accumulated s snap now).
Proof.
  intros Hb [Hu Hd] Hmax. unfold accumulated. apply map_Forall_insert_2; [|done].
  destruct (buckets s !! truncateTime s now) as [b|] eqn:E; cbn [default from_option id Timestamp data].
  - destruct (Hb _ _ E) as [Ht [Hbu Hbd]]. split; [done|].
    assert (forall x e, user_bytes x e (data b) + user_bytes x e snap <= maxI64).
    { intros x e. pose proof (stored_bucket_le x e _ _ b Hb E). specialize (Hmax x e). lia. }
    split; apply counts_nonneg_merge; try done; [apply (H UpDir)|apply (H DownDir)].
  - split; [done|].
    assert (forall x e, user_bytes x e snap <= maxI64) as Hle.
    { intros x e. pose proof (stored_nonneg x e _ Hb). specialize (Hmax x e). lia. }
    split; (apply counts_nonneg_merge; [apply map_Forall_empty|done|]); intros k.
    + apply (Hle UpDir).
    + apply (Hle DownDir).
Qed.

Lemma filter_buckets_ok (P : Z -> Prop) `{!forall k, Decision (P k)} bs :
  buckets_ok bs -> buckets_ok (filter (fun kv => P kv.1) bs).
Proof. intros Hb ts b [Hts _]%map_lookup_filter_Some. by apply Hb. Qed.

(** Draining removes exactly the buckets up to the mark. *)
Lemma Drain_lookup s through ts :
  buckets (Drain s through) !! ts = if decide (ts <= through) then None else buckets s !! ts.
Proof.
  simpl. rewrite map_lookup_filter. destruct (buckets s !! ts); simpl; [|by case_decide].
  by repeat case_guard || case_decide.
Qed.

(** [GetAll] lists every bucket once, oldest first. *)
Lemma GetAll_elem s b : buckets_ok (buckets s) -> b ∈ GetAll s <-> buckets s !! Timestamp b = Some b.
Proof.
  intros Hb. unfold GetAll. rewrite (merge_sort_Permutation ts_le), list_elem_of_fmap. split.
  - intros ([ts b'] & -> & Hin%elem_of_map_to_list). simpl in *.
    by rewrite (proj1 (Hb _ _ Hin)).
  - intros Hts. exists (Timestamp b, b). split; [done|]. by apply elem_of_map_to_list.
Qed.

Lemma GetAll_sorted s :
  buckets_ok (buckets s) -> StronglySorted (fun a b => Timestamp a < Timestamp b) (GetAll s).
Proof.
  intros Hb. unfold GetAll. apply (StronglySorted_strict Timestamp);
    [|apply (StronglySorted_merge_sort ts_le)].
  rewrite (merge_sort_Permutation ts_le). rewrite <-list_fmap_compose.
  assert ((fun p : Z * TrafficBucket => Timestamp p.2) <$> map_to_list (buckets s)
          = (map_to_list (buckets s)).*1) as Heq.
  { apply list_fmap_ext. intros i [ts b] Hi. simpl.
    apply list_elem_of_lookup_2, elem_of_map_to_list in Hi. by apply (Hb ts). }
  unfold compose. rewrite Heq. apply NoDup_fst_map_to_list.
Qed.

(** ** What the collector delivers

    A run of the collector: readings of Xray's cumulative counters ([None] when
    Xray did not answer) at their times. *)

Definition reading := (option XrayStatsSnapshot * Z)%type.

Definition collect_all (c : Collector) (rs : list reading) : Collector :=
  foldl (fun c (r : reading) => collect c r.1 r.2) c rs.

(** The bytes a counter went through, given its successive values: what it grew
    by, and all of it where it came back below the last value, which is a
    counter that started again from zero. *)
Fixpoint delivered (p : Z) (cs : list Z) : Z :=
  match cs with
  | [] => 0
  | c :: cs => (if c <? p then c else c - p) + delivered c cs
  end.

(** The values of one user's counter in a run. *)
Definition values (x : dir) (e : string) (rs : list reading) : list Z :=
  omap (fun r : reading => user_bytes x e <$> r.1) rs.

Lemma getZ_diffMap p c k :
  counts_nonneg c -> counts_nonneg p -> getZ c k <= maxI64 ->
  getZ (diffMap p c) k = if getZ c k <? getZ p k then getZ c k else getZ c k - getZ p k.
Proof.
  intros Hc Hp Hmax. unfold getZ at 1, diffMap. rewrite map_lookup_imap.
  pose proof (getZ_nonneg p k Hp). unfold getZ in *.
  destruct (c !! k) as [v|] eqn:E; simpl in *.
  - pose proof (Hc k v E). simpl in *.
    destruct (Z.leb_spec v 0); simpl.
    + destruct (Z.ltb_spec v (default 0 (p !! k))); lia.
    + destruct (Z.ltb_spec v (default 0 (p !! k))); [done|].
      destruct (Z.ltb_spec (default 0 (p !! k)) v); simpl; [|lia].
      apply wrapS_id. word_lia.
  - destruct (Z.ltb_spec 0 (default 0 (p !! k))); lia.
Qed.

Lemma diffMap_nonneg p c :
  counts_nonneg c -> counts_nonneg p -> (forall k, getZ c k <= maxI64) -> counts_nonneg (diffMap p c).
Proof.
  intros Hc Hp Hmax k v Hv. pose proof (getZ_diffMap p c k Hc Hp (Hmax k)) as Hk.
  unfold getZ at 1 in Hk. rewrite Hv in Hk. simpl in Hk. subst.
  pose proof (getZ_nonneg c k Hc). destruct (Z.ltb_spec (getZ c k) (getZ p k)); lia.
Qed.

(** The user bytes of the snapshot the collector keeps as its baseline. *)
Definition base_bytes (x : dir) (e : string) (b : option XrayStatsSnapshot) : Z :=
  default 0 (user_bytes x e <$> b).

Definition base_ok (b : option XrayStatsSnapshot) : Prop :=
  match b with None => True | Some s => snap_nonneg s end.

Lemma diffSnapshot_bytes p c x e :
  snap_nonneg c -> base_ok p -> user_bytes x e c <= maxI64 ->
  user_bytes x e (diffSnapshot p (Some c)) =
  if user_bytes x e c <? base_bytes x e p then user_bytes x e c
  else user_bytes x e c - base_bytes x e p.
Proof.
  intros [Hu Hd] Hp Hmax. destruct p as [p|]; simpl.
  - destruct Hp as [Hpu Hpd]. destruct x; by apply getZ_diffMap.
  - pose proof (user_bytes_nonneg x e c (conj Hu Hd)).
    unfold base_bytes. simpl. destruct (Z.ltb_spec (user_bytes x e c) 0); [lia|].
    rewrite Z.sub_0_r. by destruct x.
Qed.

Lemma diffSnapshot_nonneg p c :
  snap_nonneg c -> base_ok p -> (forall x e, user_bytes x e c <= maxI64) ->
  snap_nonneg (diffSnapshot p (Some c)).
Proof.
  intros [Hu Hd] Hp Hmax. destruct p as [p|]; simpl; [|by split].
  destruct Hp. split; apply diffMap_nonneg; try done; [apply (Hmax UpDir)|apply (Hmax DownDir)].
Qed.

Lemma snapshotIsEmpty_bytes s x e : snapshotIsEmpty (Some s) = true -> user_bytes x e s = 0.
Proof.
  simpl. destruct (negb _ || negb _); [done|]. unfold is_empty.
  rewrite !andb_true_iff, !bool_decide_eq_true. intros (((((Hu & Hd) & _) & _) & _) & _).
  unfold user_bytes, getZ. destruct x; simpl; rewrite ?Hu, ?Hd; by rewrite lookup_empty.
Qed.

Lemma delivered_nonneg p cs : Forall (fun c => 0 <= c) cs -> 0 <= delivered p cs.
Proof.
  intros H. revert p. induction H as [|c cs Hc _ IH]; intros p; simpl; [lia|].
  specialize (IH c). destruct (Z.ltb_spec c p); lia.
Qed.

Section deliver.
(** Readings taken from [t0] on, all within the retention of it. *)
Context (secs ret t0 : Z) (Hsecs : 0 < secs) (Ht0 : 0 <= t0).

Definition good_reading (r : reading) : Prop :=
  (t0 <= r.2 /\ Unix (r.2 - ret) <= Z.quot (Unix t0) secs * secs) /\
  match r.1 with
  | None => True
  | Some s => snap_nonneg s /\ forall x e, user_bytes x e s <= maxI64
  end.

Definition store_ok (s : MemoryStore) : Prop :=
  bucketSecs s = secs /\ retention s = ret /\ buckets_ok (buckets s) /\
  map_Forall (fun ts _ => Z.quot (Unix t0) secs * secs <= ts) (buckets s).

Lemma truncateTime_ge s now :
  bucketSecs s = secs -> t0 <= now -> Z.quot (Unix t0) secs * secs <= truncateTime s now.
Proof.
  intros Hs Hle. unfold truncateTime. rewrite Hs. unfold Unix.
  assert (0 <= t0 / second <= now / second).
  { unfold second. split; [apply Z.div_pos; lia|apply Z.div_le_mono; lia]. }
  rewrite !Z.quot_div_nonneg by lia. apply Z.mul_le_mono_nonneg_r; [lia|].
  apply Z.div_le_mono; lia.
Qed.

Lemma Accumulate_stored s snap now :
  store_ok s -> good_reading (None, now) -> snap_nonneg snap ->
  (forall x e, stored x e (buckets s) + user_bytes x e snap <= maxI64) ->
  store_ok (Accumulate s (Some snap) now) /\
  forall x e, stored x e (buckets (Accumulate s (Some snap) now)) =
              stored x e (buckets s) + user_bytes x e snap.
Proof.
  intros (Hs & Hr & Hb & Hlo) [[Hle Hcut] _] Hsnap Hmax. simpl in *.
  pose proof (accumulated_ok s snap now Hb Hsnap Hmax) as Hok.
  assert (map_Forall (fun ts _ => Z.quot (Unix t0) secs * secs <= ts) (accumulated s snap now)) as Hlo'.
  { apply map_Forall_insert_2; [by apply truncateTime_ge|done]. }
  assert (filter (fun kv => ~ kv.1 < cutoff s now) (accumulated s snap now) = accumulated s snap now) as ->.
  { apply map_filter_id. intros ts b Hts. simpl. unfold cutoff. rewrite Hr.
    specialize (Hlo' ts b Hts). simpl in Hlo'. lia. }
  split; [done|]. intros x e. by apply accumulated_stored.
Qed.

Lemma collect_step c s now :
  store_ok (store c) -> base_ok (baseline c) -> good_reading (Some s, now) ->
  (forall x e, stored x e (buckets (store c)) +
     delivered (base_bytes x e (baseline c)) [user_bytes x e s] <= maxI64) ->
  let c' := collect c (Some s) now in
  store_ok (store c') /\ base_ok (baseline c') /\
  forall x e, stored x e (buckets (store c')) =
      stored x e (buckets (store c)) + delivered (base_bytes x e (baseline c)) [user_bytes x e s] /\
    base_bytes x e (baseline c') = user_bytes x e s.
Proof.
  intros Hst Hb [Ht [Hnn Hmx]] Hmax. unfold collect.
  set (cur := MkSnap (UserUplink s) (UserDownlink s) (InboundUplink s) (InboundDownlink s)
      (OutboundUplink s) (OutboundDownlink s) (TotalUplink s) (TotalDownlink s) ∅).
  assert (forall x e, user_bytes x e cur = user_bytes x e s) as Hcur by (by intros []).
  assert (snap_nonneg cur) as Hcn by apply Hnn.
  cbn zeta. set (delta := diffSnapshot (baseline c) (Some cur)).
  assert (forall x e, user_bytes x e delta =
    delivered (base_bytes x e (baseline c)) [user_bytes x e s]) as Hd.
  { intros x e. unfold delta. rewrite diffSnapshot_bytes; [|done|done|rewrite Hcur; apply Hmx].
    rewrite Hcur. cbn [delivered]. lia. }
  assert (snap_nonneg delta) as Hdn.
  { apply diffSnapshot_nonneg; [done|done|]. intros x e. rewrite Hcur. apply Hmx. }
  assert (forall x e, stored x e (buckets (store c)) + user_bytes x e delta <= maxI64) as Hmx'.
  { intros x e. rewrite Hd. apply Hmax. }
  destruct (Accumulate_stored (store c) delta now Hst (conj Ht I) Hdn Hmx') as [Hacc Heq].
  clearbody delta. cbn [store baseline].
  destruct (snapshotIsEmpty (Some delta)) eqn:E.
  - split; [exact Hst|]. split; [exact Hcn|]. intros x e. split; [|exact (Hcur x e)].
    apply (snapshotIsEmpty_bytes _ x e) in E. rewrite <-Hd, E. cbn [SetBaseline buckets]. lia.
  - split; [exact Hacc|]. split; [exact Hcn|]. intros x e. split; [|exact (Hcur x e)].
    rewrite <-Hd. exact (Heq x e).
Qed.

Lemma values_nonneg x e rs : Forall good_reading rs -> Forall (fun c => 0 <= c) (values x e rs).
Proof.
  intros H. induction H as [|[[s|] now] rs [_ Hr] _ IH]; cbn; [constructor| |exact IH].
  constructor; [|exact IH]. apply user_bytes_nonneg, Hr.
Qed.

Lemma collect_all_inv rs c :
  Forall good_reading rs -> store_ok (store c) -> base_ok (baseline c) ->
  (forall x e, stored x e (buckets (store c)) +
     delivered (base_bytes x e (baseline c)) (values x e rs) <= maxI64) ->
  store_ok (store (collect_all c rs)) /\ base_ok (baseline (collect_all c rs)) /\
  (forall x e, base_bytes x e (baseline (collect_all c rs)) =
               default (base_bytes x e (baseline c)) (last (values x e rs))) /\
  forall x e, stored x e (buckets (store (collect_all c rs))) =
    stored x e (buckets (store c)) + delivered (base_bytes x e (baseline c)) (values x e rs).
Proof.
  intros Hrs. revert c. induction Hrs as [|[[s|] now] rs Hr Hrs IH]; intros c Hst Hb Hmax.
  - split; [done|]. split; [done|]. split; [done|]. intros x e. simpl. lia.
  - destruct (collect_step c s now) as (Hst' & Hb' & Heq); try done.
    { intros x' e'. specialize (Hmax x' e'). simpl in Hmax |- *.
      pose proof (delivered_nonneg (user_bytes x' e' s) _ (values_nonneg x' e' rs Hrs)). lia. }
    cbn [collect_all foldl fst snd]. fold (collect_all (collect c (Some s) now) rs).
    destruct (IH (collect c (Some s) now)) as (I1 & I2 & I3 & I4); [done|done| |].
    + intros x' e'. destruct (Heq x' e') as [-> ->]. specialize (Hmax x' e'). simpl in Hmax |- *. lia.
    + split; [done|]. split; [done|]. split; intros x e.
      * rewrite I3. destruct (Heq x e) as [_ ->]. change (values x e ((Some s, now) :: rs))
          with (user_bytes x e s :: values x e rs). rewrite last_cons. by destruct (last (values x e rs)).
      * rewrite I4. destruct (Heq x e) as [-> ->]. simpl. lia.
  - cbn [collect_all foldl fst snd collect]. by apply IH.
Qed.

Lemma collect_all_stored rs c :
  Forall good_reading rs -> store_ok (store c) -> base_ok (baseline c) ->
  (forall x e, stored x e (buckets (store c)) +
     delivered (base_bytes x e (baseline c)) (values x e rs) <= maxI64) ->
  forall x e, stored x e (buckets (store (collect_all c rs))) =
    stored x e (buckets (store c)) + delivered (base_bytes x e (baseline c)) (values x e rs).
Proof. intros H1 H2 H3 H4. apply (collect_all_inv rs c H1 H2 H3 H4). Qed.
End deliver.

(** The agent delivers every byte Xray counted, once. Over any run of the
    collector (readings missed while Xray is down, counters restarting from
    zero, deltas split over any number of buckets), each user's buckets add up
    to exactly what the user's counter went through, as long as the readings
    stay within the retention and the sum within an int64. *)
Theorem collect_delivers secs ret t0 rs :
  0 < secs -> 0 <= t0 -> Forall (good_reading secs ret t0) rs ->
  (forall x e, delivered 0 (values x e rs) <= maxI64) ->
  forall x e, stored x e (buckets (store (collect_all (Start (NewMemoryStore secs ret)) rs)))
              = delivered 0 (values x e rs).
Proof.
  intros Hs Ht Hrs Hmax x e. rewrite (collect_all_stored secs ret t0 Hs Ht); [done|done| |done|].
  - split; [done|]. split; [done|]. split; apply map_Forall_empty.
  - intros x' e'. apply (Hmax x' e').
Qed.

Definition demo_snap (up : Z) : XrayStatsSnapshot :=
  MkSnap {[ "sub-7@remote-nodes" := up ]} ∅ ∅ ∅ ∅ ∅ up 0 ∅.

Lemma demo_snap_bytes up x e :
  0 <= up -> snap_nonneg (demo_snap up) /\ 0 <= user_bytes x e (demo_snap up) <= up.
Proof.
  intros Hup. split.
  - split; simpl; [|apply map_Forall_empty]. by apply map_Forall_singleton.
  - destruct x; unfold user_bytes, getZ; simpl; [|rewrite lookup_empty; simpl; lia].
    destruct (decide (e = "sub-7@remote-nodes")) as [->|].
    + rewrite lookup_singleton_eq. simpl. lia.
    + rewrite lookup_singleton_ne by done. simpl. lia.
Qed.

(** Three readings over two hours, Xray restarting before the third. *)
Lemma collect_delivers_witness :
  let rs := [(Some (demo_snap 100), 1000 * second); (None, 2000 * second);
             (Some (demo_snap 250), 3000 * second); (Some (demo_snap 40), 8000 * second)] in
  stored UpDir "sub-7@remote-nodes"
    (buckets (store (collect_all (Start (NewMemoryStore 3600 (10000 * second))) rs))) = 290.
Proof.
  cbn zeta. rewrite (collect_delivers 3600 (10000 * second) (1000 * second)); [reflexivity|lia|unfold second; lia| |].
  - repeat (apply Forall_cons; split); [| | | |apply Forall_nil_2];
      (split; [split; vm_compute; discriminate|]); simpl; try done;
      (split; [apply (demo_snap_bytes _ UpDir ""); lia|intros x e;
       eapply Z.le_trans; [apply (demo_snap_bytes _ x e); lia|word_lia]]).
  - intros x e. simpl.
    pose proof (proj2 (demo_snap_bytes 100 x e ltac:(lia))).
    pose proof (proj2 (demo_snap_bytes 250 x e ltac:(lia))).
    pose proof (proj2 (demo_snap_bytes 40 x e ltac:(lia))).
    repeat match goal with |- context [if ?b then _ else _] => destruct b end; word_lia.
Defined.
