(* ===== verification/AgentFile.v ===== *)
(** * The agent's buffer on disk

    Models [internal/agent/traffic/file_store.go]: a memory store written to a
    JSON file now and then and after each removal, and read back when the agent
    starts. The file is taken at the level of what [encoding/json] reads: [None]
    where there is no file or its bytes do not parse. *)

From S2P Require Import Prelude History AgentBuffer.

Definition fileStoreVersion : Z := 2.

Record fileStoreData := MkFileData {
  fsd_Version : Z; fsd_Buckets : list TrafficBucket; fsd_Baseline : option XrayStatsSnapshot
}.

(** The store in memory and the file. *)
Record FileStore := MkFileStore { fst_mem : MemoryStore; fst_disk : option fileStoreData }.

Definition loadFromDisk (mem : MemoryStore) (disk : option fileStoreData) : MemoryStore :=
  match disk with
  | None => mem
  | Some d =>
      if negb (fsd_Version d =? 1) && negb (fsd_Version d =? fileStoreVersion) then mem else
      MkStore (foldl (fun bs b => <[Timestamp b := b]> bs) (buckets mem) (fsd_Buckets d))
        (match fsd_Baseline d with Some b => Some b | None => st_baseline mem end)
        (bucketSecs mem) (retention mem)
  end.

Definition NewFileStore (secs ret : Z) (disk : option fileStoreData) : FileStore :=
  MkFileStore (loadFromDisk (NewMemoryStore secs ret) disk) disk.

(** [flush] reads the buckets and then the baseline, each under the store's
    lock, and the collector may run between the two. *)
Definition flush_data (bs : list TrafficBucket) (base : option XrayStatsSnapshot) : fileStoreData :=
  MkFileData fileStoreVersion bs base.

(** [flush] with nothing in between; [ok] is whether the write and the rename
    worked, and the old file stays when they didn't. *)
Definition flush (fs : FileStore) (ok : bool) : FileStore :=
  MkFileStore (fst_mem fs)
    (if ok then Some (flush_data (GetAll (fst_mem fs)) (GetBaseline (fst_mem fs))) else fst_disk fs).

Definition with_mem (fs : FileStore) (m : MemoryStore) : FileStore := MkFileStore m (fst_disk fs).

Definition FS_Accumulate (fs : FileStore) (s : option XrayStatsSnapshot) (now : Z) : FileStore :=
  with_mem fs (Accumulate (fst_mem fs) s now).
Definition FS_SetBaseline (fs : FileStore) (s : option XrayStatsSnapshot) : FileStore :=
  with_mem fs (SetBaseline (fst_mem fs) s).
Definition FS_Drain (fs : FileStore) (t : Z) (ok : bool) : FileStore :=
  flush (with_mem fs (Drain (fst_mem fs) t)) ok.
Definition FS_DrainAll (fs : FileStore) (ok : bool) : XrayStatsSnapshot * FileStore :=
  let '(agg, m) := DrainAll (fst_mem fs) in (agg, flush (with_mem fs m) ok).
Definition FS_Close (fs : FileStore) (ok : bool) : FileStore := flush fs ok.

(** The collector on a file store: one reading. *)
Definition FS_collect (c : FileStore * option XrayStatsSnapshot) (stats : option XrayStatsSnapshot) (now : Z) :
    FileStore * option XrayStatsSnapshot :=
  let r := collect (MkCollector (fst_mem c.1) c.2) stats now in (with_mem c.1 (store r), baseline r).

(** An agent that dies and starts again: what is left is the file. *)
Definition restart (secs ret : Z) (fs : FileStore) : FileStore * option XrayStatsSnapshot :=
  let fs := NewFileStore secs ret (fst_disk fs) in (fs, GetBaseline (fst_mem fs)).

(** * Lemmas *)

Lemma foldl_insert_ts (l : list TrafficBucket) (m : gmap Z TrafficBucket) ts :
  NoDup (Timestamp <$> l) ->
  foldl (fun bs b => <[Timestamp b := b]> bs) m l !! ts =
    match list_find (fun b => Timestamp b = ts) l with Some (_, b) => Some b | None => m !! ts end.
Proof.
  revert m. induction l as [|b l IH]; intros m Hnd; [done|]. inversion Hnd as [|? ? Hni Hnd']; subst.
  cbn [foldl]. rewrite IH by done. cbn. destruct (decide (Timestamp b = ts)) as [<-|Hne].
  - destruct (list_find (fun b0 => Timestamp b0 = Timestamp b) l) as [[j a]|] eqn:E; cbn.
    + exfalso. apply list_find_Some in E as (Hj & Ha & _). apply Hni. rewrite <-Ha.
      by eapply list_elem_of_fmap_2, list_elem_of_lookup_2.
    + by rewrite lookup_insert_eq.
  - destruct (list_find (fun b0 => Timestamp b0 = ts) l) as [[j a]|]; cbn; [done|]. by rewrite lookup_insert_ne.
Qed.

Lemma GetAll_nodup s : buckets_ok (buckets s) -> NoDup (Timestamp <$> GetAll s).
Proof.
  intros Hb. pose proof (GetAll_sorted s Hb) as Hs.
  induction Hs as [|b l Hs IH Hall]; [constructor|]. cbn. constructor; [|done].
  intros (a & He & Ha)%list_elem_of_fmap. rewrite Forall_forall in Hall. specialize (Hall a Ha). simpl in Hall. lia.
Qed.

(** The list of all buckets, read back, is the buckets. *)
Lemma foldl_GetAll s :
  buckets_ok (buckets s) -> foldl (fun bs b => <[Timestamp b := b]> bs) ∅ (GetAll s) = buckets s.
Proof.
  intros Hb. apply map_eq. intros ts. rewrite foldl_insert_ts by by apply GetAll_nodup.
  destruct (list_find _ _) as [[i b]|] eqn:E.
  - apply list_find_Some in E as (Hi & <- & _). apply list_elem_of_lookup_2 in Hi.
    symmetry. by apply GetAll_elem.
  - rewrite lookup_empty. destruct (buckets s !! ts) as [b|] eqn:Eb; [|done]. exfalso.
    apply list_find_None in E. rewrite Forall_forall in E.
    assert (Timestamp b = ts) as Ht by apply (Hb ts b Eb).
    apply (E b); [|done]. apply GetAll_elem; [done|]. by rewrite Ht.
Qed.

(** What the collector keeps as its baseline has no core usage. *)
Definition plain_base (b : option XrayStatsSnapshot) : Prop :=
  match b with None => True | Some s => CoreUsage s = ∅ end.

Lemma cloneSnapshot_plain b : plain_base b -> cloneSnapshot b = b.
Proof. destruct b as [[]|]; [|done]. simpl. by intros ->. Qed.

(** A flush and a restart give the store back. *)
Lemma load_flush fs :
  buckets_ok (buckets (fst_mem fs)) -> plain_base (st_baseline (fst_mem fs)) ->
  restart (bucketSecs (fst_mem fs)) (retention (fst_mem fs)) (flush fs true) =
  (flush fs true, st_baseline (fst_mem fs)).
Proof.
  intros Hb Hp. unfold restart, NewFileStore, flush. cbn. unfold GetBaseline.
  rewrite foldl_GetAll by done. rewrite (cloneSnapshot_plain (st_baseline _)) by done.
  destruct fs as [[bs bl secs ret] d]. cbn [fst_mem st_baseline buckets bucketSecs retention] in *.
  assert (match bl with Some b => Some b | None => None end = bl) as -> by by destruct bl.
  by rewrite cloneSnapshot_plain.
Qed.

(** ** A run of the collector on a file store is one on its memory *)

Definition fs_collect_all (c : FileStore * option XrayStatsSnapshot) (rs : list reading) :
    FileStore * option XrayStatsSnapshot :=
  foldl (fun c (r : reading) => FS_collect c r.1 r.2) c rs.

Lemma fs_collect_all_mem c rs :
  let r := collect_all (MkCollector (fst_mem c.1) c.2) rs in
  fst_mem (fs_collect_all c rs).1 = store r /\ (fs_collect_all c rs).2 = baseline r /\
  fst_disk (fs_collect_all c rs).1 = fst_disk c.1.
Proof.
  cbn zeta. revert c. induction rs as [|r rs IH]; intros c; [done|].
  cbn [fs_collect_all collect_all foldl]. destruct (IH (FS_collect c r.1 r.2)) as (H1 & H2 & H3).
  unfold fs_collect_all, collect_all in *. rewrite H1, H2, H3. unfold FS_collect.
  cbn [fst snd with_mem fst_mem fst_disk].
  assert (MkCollector (store (collect (MkCollector (fst_mem c.1) c.2) r.1 r.2))
            (baseline (collect (MkCollector (fst_mem c.1) c.2) r.1 r.2)) =
          collect (MkCollector (fst_mem c.1) c.2) r.1 r.2) as -> by (by destruct (collect _ _ _)).
  done.
Qed.

Lemma collect_settings c st now :
  bucketSecs (store (collect c st now)) = bucketSecs (store c) /\
  retention (store (collect c st now)) = retention (store c).
Proof. unfold collect. destruct st as [s|]; [|done]. cbn zeta. by destruct (snapshotIsEmpty _). Qed.

Lemma collect_base c st now :
  st_baseline (store c) = baseline c -> plain_base (baseline c) ->
  st_baseline (store (collect c st now)) = baseline (collect c st now) /\ plain_base (baseline (collect c st now)).
Proof. intros H1 H2. unfold collect. destruct st as [s|]; [|done]. done. Qed.

Lemma collect_all_base c rs :
  st_baseline (store c) = baseline c -> plain_base (baseline c) ->
  let r := collect_all c rs in
  st_baseline (store r) = baseline r /\ plain_base (baseline r) /\
  bucketSecs (store r) = bucketSecs (store c) /\ retention (store r) = retention (store c).
Proof.
  cbn zeta. revert c. induction rs as [|r rs IH]; intros c H1 H2; [done|]. cbn [collect_all foldl].
  destruct (collect_base c r.1 r.2 H1 H2) as [H3 H4]. destruct (collect_settings c r.1 r.2) as [H5 H6].
  destruct (IH (collect c r.1 r.2) H3 H4) as (? & ? & ? & ?). unfold collect_all in *. split; [done|].
  split; [done|]. split; congruence.
Qed.

(** A counter that only grows has moved what separates its ends. *)
Lemma delivered_grows p cs c :
  Sorted Z.le (p :: cs ++ [c]) -> delivered p (cs ++ [c]) = c - p.
Proof.
  revert p. induction cs as [|a cs IH]; intros p Hs; cbn.
  - inversion Hs as [|? ? _ Hr]; subst. inversion Hr; subst. destruct (Z.ltb_spec c p); lia.
  - inversion Hs as [|? ? Hs' Hr]; subst. inversion Hr; subst. rewrite IH by done.
    destruct (Z.ltb_spec a p); lia.
Qed.

Lemma delivered_app p cs ds :
  delivered p (cs ++ ds) = delivered p cs + delivered (default p (last cs)) ds.
Proof.
  revert p. induction cs as [|a cs IH]; intros p; cbn [app delivered].
  - done.
  - rewrite IH, last_cons. destruct (last cs) as [z|]; cbn; lia.
Qed.

Lemma values_app x e rs rs' : values x e (rs ++ rs') = values x e rs ++ values x e rs'.
Proof. unfold values. apply omap_app. Qed.

(** An empty store is well formed, and everything readings say goes into it. *)
Lemma collect_all_new secs ret t0 rs :
  0 < secs -> 0 <= t0 -> Forall (good_reading secs ret t0) rs ->
  (forall x e, delivered 0 (values x e rs) <= maxI64) ->
  let c := collect_all (MkCollector (NewMemoryStore secs ret) None) rs in
  buckets_ok (buckets (store c)) /\
  forall x e, stored x e (buckets (store c)) = delivered 0 (values x e rs).
Proof.
  intros Hs Ht Hrs Hmax. cbn zeta.
  destruct (collect_all_inv secs ret t0 Hs Ht rs (MkCollector (NewMemoryStore secs ret) None)) as (H1 & _ & _ & H4);
    try done.
  split; [apply H1|]. intros x e. exact (H4 x e).
Qed.

(** A counter that only grew since [p] counts the same with or without the
    readings in between. *)
Lemma delivered_skip p cs c : Sorted Z.le (p :: cs ++ [c]) -> delivered p (cs ++ [c]) = delivered p [c].
Proof.
  intros Hs. rewrite delivered_grows by done. cbn.
  assert (p <= c); [|destruct (Z.ltb_spec c p); lia].
  apply Sorted_StronglySorted in Hs; [|intros a b d; lia]. inversion Hs as [|? ? _ Hall]; subst.
  rewrite Forall_app in Hall. destruct Hall as [_ Hc]. by inversion Hc.
Qed.

(** C8. An agent that dies loses nothing while Xray keeps running: readings, a
    flush, more readings that never reach the disk, a crash, a restart from the
    file and one reading more leave in the buckets exactly what Xray counted,
    as if the agent had never stopped, provided each user's counter only grew
    since the flush. *)
Theorem agent_crash_exact secs ret t0 before lost s now x e :
  0 < secs -> 0 <= t0 -> Forall (good_reading secs ret t0) (before ++ lost ++ [(Some s, now)]) ->
  (forall x e, delivered 0 (values x e (before ++ lost ++ [(Some s, now)])) <= maxI64) ->
  (forall x e, Sorted Z.le (default 0 (last (values x e before)) :: values x e lost ++ [user_bytes x e s])) ->
  let c0 := (NewFileStore secs ret None, None) in
  let c1 := fs_collect_all c0 before in
  let died := fs_collect_all (flush c1.1 true, c1.2) lost in
  let c2 := FS_collect (restart secs ret died.1) (Some s) now in
  stored x e (buckets (fst_mem c2.1)) = delivered 0 (values x e (before ++ lost ++ [(Some s, now)])).
Proof.
  intros Hs Ht Hall Hmax Hgrow. cbn zeta.
  set (m0 := MkCollector (NewMemoryStore secs ret) None).
  set (c1 := fs_collect_all (NewFileStore secs ret None, None) before).
  destruct (fs_collect_all_mem (NewFileStore secs ret None, None) before) as (Hm1 & Hb1 & _).
  fold c1 in Hm1, Hb1. change (MkCollector _ _) with m0 in Hm1, Hb1.
  destruct (collect_all_base m0 before eq_refl I) as (Hbase & Hplain & Hsecs & Hret).
  assert (Forall (good_reading secs ret t0) before /\ Forall (good_reading secs ret t0) (before ++ [(Some s, now)]))
    as [Hbef Hall'].
  { rewrite !Forall_app in Hall. rewrite Forall_app. tauto. }
  assert (forall x e, delivered 0 (values x e (before ++ lost ++ [(Some s, now)])) =
          delivered 0 (values x e (before ++ [(Some s, now)]))) as Heq.
  { intros x' e'. rewrite !values_app, !(delivered_app 0). f_equal. by apply delivered_skip. }
  assert (forall x e, delivered 0 (values x e before) <= maxI64) as Hmax0.
  { intros x' e'. specialize (Hmax x' e'). rewrite values_app, delivered_app in Hmax.
    enough (0 <= delivered (default 0 (last (values x' e' before))) (values x' e' (lost ++ [(Some s, now)]))) by lia.
    apply delivered_nonneg, (values_nonneg secs ret t0). by apply Forall_app in Hall as [_ ?]. }
  destruct (collect_all_new secs ret t0 before Hs Ht Hbef Hmax0) as [Hok _]. fold m0 in Hok.
  (* what the restart goes on from is the collector as it was at the flush *)
  assert (restart secs ret (fs_collect_all (flush c1.1 true, c1.2) lost).1 = (flush c1.1 true, c1.2)) as ->.
  { unfold restart at 1. destruct (fs_collect_all_mem (flush c1.1 true, c1.2) lost) as (_ & _ & ->). cbn [fst].
    pose proof (load_flush c1.1) as Hlf. rewrite Hm1, Hsecs, Hret, Hbase, <-Hb1 in Hlf.
    apply Hlf; [done|by rewrite Hb1]. }
  rewrite Heq. unfold FS_collect. cbn [fst snd flush fst_mem with_mem]. rewrite Hm1, Hb1.
  assert (MkCollector (store (collect_all m0 before)) (baseline (collect_all m0 before)) = collect_all m0 before) as ->
    by (by destruct (collect_all m0 before)).
  destruct (collect_all_new secs ret t0 (before ++ [(Some s, now)]) Hs Ht Hall') as [_ Hst].
  { intros x' e'. rewrite <-Heq. apply Hmax. }
  fold m0 in Hst. rewrite <-Hst. unfold collect_all. by rewrite foldl_app.
Qed.

(** 100 bytes are flushed, 150 more are counted and lost with the agent, and a
    reading after the restart finds the counter at 300. *)
Lemma agent_crash_exact_witness :
  let c1 := fs_collect_all (NewFileStore 3600 (10000 * second) None, None) [(Some (demo_snap 100), 1000 * second)] in
  let died := fs_collect_all (flush c1.1 true, c1.2) [(Some (demo_snap 250), 2000 * second)] in
  let c2 := FS_collect (restart 3600 (10000 * second) died.1) (Some (demo_snap 300)) (8000 * second) in
  stored UpDir "sub-7@remote-nodes" (buckets (fst_mem c2.1)) = 300.
Proof.
  cbn zeta.
  rewrite (agent_crash_exact 3600 (10000 * second) (1000 * second) [(Some (demo_snap 100), 1000 * second)]
    [(Some (demo_snap 250), 2000 * second)] (demo_snap 300) (8000 * second) UpDir "sub-7@remote-nodes").
  - reflexivity.
  - lia.
  - unfold second; lia.
  - apply Forall_forall. intros r Hr.
    assert (exists up t, r = (Some (demo_snap up), t * second) /\ 0 <= up <= 300 /\ 1000 <= t <= 8000) as (up & t & -> & Hu & Ht).
    { cbn in Hr. repeat (apply elem_of_cons in Hr as [->|Hr]); [eexists _, _; (split; [reflexivity|lia])..|].
      by apply elem_of_nil in Hr. }
    split; [split|split].
    + cbn [snd]. unfold second. lia.
    + cbn [snd]. unfold Unix. replace (t * second - 10000 * second) with ((t - 10000) * second) by lia.
      rewrite Z.div_mul by discriminate. change (Z.quot _ 3600) with 0. lia.
    + apply (demo_snap_bytes up UpDir ""). lia.
    + intros x e. pose proof (proj2 (demo_snap_bytes up x e ltac:(lia))). word_lia.
  - intros x e. change (values x e _) with
      [user_bytes x e (demo_snap 100); user_bytes x e (demo_snap 250); user_bytes x e (demo_snap 300)].
    pose proof (proj2 (demo_snap_bytes 100 x e ltac:(lia))). pose proof (proj2 (demo_snap_bytes 250 x e ltac:(lia))).
    pose proof (proj2 (demo_snap_bytes 300 x e ltac:(lia))). cbn [delivered].
    repeat match goal with |- context [if ?b then _ else _] => destruct b end; word_lia.
  - intros x e. cbn.
    assert (forall a b, 0 <= a <= b -> user_bytes x e (demo_snap a) <= user_bytes x e (demo_snap b)) as Hm.
    { intros a b Hab. unfold user_bytes, user_counts, getZ. destruct x; cbn; [|rewrite !lookup_empty; cbn; lia].
      destruct (decide (e = "sub-7@remote-nodes")) as [->|].
      - rewrite !lookup_singleton_eq. cbn. lia.
      - rewrite !lookup_singleton_ne by done. cbn. lia. }
    repeat constructor; apply Hm; lia.
Defined.

(** ** A flush between the two halves of a reading

    The collector adds the delta to the store and then sets the store's
    baseline, and a flush takes the buckets and the baseline each on its own. *)

(** The collector's two steps on the store, and a flush that falls between them. *)
Definition flush_inside (fs : FileStore) (base : option XrayStatsSnapshot) (s : XrayStatsSnapshot) (now : Z) : FileStore :=
  let fs := FS_Accumulate fs (Some (diffSnapshot base (Some s))) now in
  let fs := flush fs true in
  FS_SetBaseline fs (Some s).

(** A flush that falls between the two halves of a reading is not safe: an
    agent that dies after it counts the reading again when it is back. Here Xray
    counted 100 bytes and the buckets hold 200. *)
Theorem flush_inside_double_counts :
  let fs := flush_inside (NewFileStore 3600 (10000 * second) None) None (demo_snap 100) (1000 * second) in
  let c := FS_collect (restart 3600 (10000 * second) fs) (Some (demo_snap 100)) (2000 * second) in
  stored UpDir "sub-7@remote-nodes" (buckets (fst_mem c.1)) = 200.
Proof. vm_compute. reflexivity. Qed.
