(* ===== verification/UsageCollector.v ===== *)
(** * The hub's usage collector

    Models [internal/remotenodes/usage]: [collect.go] (a poll of a node's agent
    taken in, acknowledgements), [usage.go] (opening, forgetting, flushing) and
    [read.go] (what the page and the limits read).

    The collector's methods run under its mutex except where they wait for an
    agent or for the disk; a method is split there, so that other methods can
    run in between ([PollStart], [PollError], [PollFold], [AckDone],
    [WriteBegin], [WriteEnd]), and also given whole. A [*node] held across such
    a wait is its id and the number it was allocated under. *)

From S2P Require Import Prelude Dates Emails GoFloat History UsageFile AgentBuffer.

(** ** State *)

(** Go's zero [time.Time], the first of January of year 1. *)
Definition zeroTime : Z := -62135596800 * second.

Definition rateWindow : Z := 15 * second.
Definition onlineMaxAge : Z := 60 * second.
Definition maxAhead : Z := 24 * 3600 * second.
Definition DefaultMissedPolls : Z := 3.
Definition maxInt32 : Z := 2 ^ 31 - 1.

(** A handle on an agent: the connection an acknowledgement goes through. *)
Abbreviation Source := positive.

Record partial := MkPartial { p_ts : Z; p_b : bucket; p_node : Totals }.
Record observation := MkObs { o_from : Z; o_to : Z; o_inc : Totals }.
Record record := MkRec { rec_ts : Z; rec_b : bucket; rec_node : Totals }.

Record node := MkNode {
  ptr : nat;
  hist : nodeHist;
  diskThrough : Z;
  src : option Source;
  acked : Z;
  staleSeen : bool;
  ackFailing : bool;
  live : bool;
  misses : Z;
  updatedAt : Z;
  n_partial : option partial;
  online : option (gmap Z Z);
  onlineAt : Z;
  lastSeen : gmap Z Z;
  havePrev : bool;
  lastData : Z;
  obs : list observation;
  rateUp : Z;
  rateDown : Z;
  n_ring : ring;
  warnedAhead : bool
}.

Definition newNode (p : nat) (h : nodeHist) (disk : Z) : node :=
  MkNode p h disk None 0 false false false 0 zeroTime None None zeroTime ∅ false zeroTime [] 0 0
    newRing false.

Definition set_hist (n : node) (h : nodeHist) : node :=
  MkNode (ptr n) h (diskThrough n) (src n) (acked n) (staleSeen n) (ackFailing n) (live n)
    (misses n) (updatedAt n) (n_partial n) (online n) (onlineAt n) (lastSeen n) (havePrev n)
    (lastData n) (obs n) (rateUp n) (rateDown n) (n_ring n) (warnedAhead n).

Definition set_disk (n : node) (m : Z) : node :=
  MkNode (ptr n) (hist n) m (src n) (acked n) (staleSeen n) (ackFailing n) (live n)
    (misses n) (updatedAt n) (n_partial n) (online n) (onlineAt n) (lastSeen n) (havePrev n)
    (lastData n) (obs n) (rateUp n) (rateDown n) (n_ring n) (warnedAhead n).

Definition set_src (n : node) (s : Source) : node :=
  MkNode (ptr n) (hist n) (diskThrough n) (Some s) (acked n) (staleSeen n) (ackFailing n) (live n)
    (misses n) (updatedAt n) (n_partial n) (online n) (onlineAt n) (lastSeen n) (havePrev n)
    (lastData n) (obs n) (rateUp n) (rateDown n) (n_ring n) (warnedAhead n).

Definition set_ack (n : node) (a : Z) (stale failing : bool) : node :=
  MkNode (ptr n) (hist n) (diskThrough n) (src n) a stale failing (live n)
    (misses n) (updatedAt n) (n_partial n) (online n) (onlineAt n) (lastSeen n) (havePrev n)
    (lastData n) (obs n) (rateUp n) (rateDown n) (n_ring n) (warnedAhead n).

Record Collector := MkCollector {
  MissedPolls : Z;
  hasPath : bool;
  nodes : gmap Z node;
  retired : gmap Z Totals;
  enc : fileBytes;
  noWrite : bool;
  writes : Z;
  nextPtr : nat
}.

Definition set_nodes (c : Collector) (ns : gmap Z node) : Collector :=
  MkCollector (MissedPolls c) (hasPath c) ns (retired c) (enc c) (noWrite c) (writes c) (nextPtr c).

(** Updates the node [n] points to, if it is still the one under [id]: a node
    that was forgotten is nobody's to see. *)
Definition update_ptr (c : Collector) (id : Z) (p : nat) (f : node -> node) : Collector :=
  match nodes c !! id with
  | Some n => if decide (ptr n = p) then set_nodes c (<[id := f n]> (nodes c)) else c
  | None => c
  end.

(** ** Opening *)

Definition hists (c : Collector) : gmap Z nodeHist := hist <$> nodes c.

Definition pruneLocked (c : Collector) (now : Z) : Collector :=
  let keepFrom := dayOfTime now - (keepDays - 1) in
  set_nodes c ((fun n => set_hist n (hist_prune keepFrom (hist n))) <$> nodes c).

(** What [os.ReadFile] answered. *)
Inductive readFile :=
| NotExist
| ReadError
| Contents (b : fileBytes).

(** [load]: the nodes, the retired totals and [noWrite], and whether the file
    is to be moved aside. *)
Definition load (r : readFile) : (gmap Z nodeHist * gmap Z Totals) * bool * bool :=
  match r with
  | NotExist => ((∅, ∅), false, false)
  | ReadError => ((∅, ∅), false, true)
  | Contents b =>
      match decodeDoc b with
      | Err (ErrNewer _) => ((∅, ∅), true, false)
      | Err _ => ((∅, ∅), false, true)
      | Ok hr => (hr, false, false)
      end
  end.

(** The nodes [load] makes, numbered as they are allocated. *)
Definition load_nodes (hs : gmap Z nodeHist) : gmap Z node :=
  map_imap (fun id h => Some (newNode (Z.to_nat id) h (through h))) hs.

Definition max_ptr (hs : gmap Z nodeHist) : nat :=
  map_fold (fun id _ p => Nat.max (S (Z.to_nat id)) p) 0%nat hs.

(** [Open] with a data folder; [moved] is whether moving a bad file aside
    worked. Gives the collector and what is at the file's path after. *)
Definition Open (cfgMissed : Z) (r : readFile) (moved : bool) (now : Z) : Collector * readFile :=
  let '((hs, ret), nw, aside) := load r in
  let c := MkCollector (if cfgMissed <=? 0 then DefaultMissedPolls else cfgMissed) true
             (load_nodes hs) ret (encodeDoc hs ret) nw 0 (max_ptr hs) in
  (pruneLocked c now, if aside && moved then NotExist else r).

(** ** Polling *)

(** [nodeLocked], and [Poll]'s first step: the node, made if it is new, with
    the source noted. *)
Definition nodeLocked (c : Collector) (id : Z) : Collector * node :=
  match nodes c !! id with
  | Some n => (c, n)
  | None =>
      let n := newNode (nextPtr c) newNodeHist 0 in
      (MkCollector (MissedPolls c) (hasPath c) (<[id := n]> (nodes c)) (retired c) (enc c)
         (noWrite c) (writes c) (S (nextPtr c)), n)
  end.

Definition PollStart (c : Collector) (id : Z) (s : Source) : Collector * nat :=
  let '(c, n) := nodeLocked c id in
  (set_nodes c (<[id := set_src n s]> (nodes c)), ptr n).

Definition missLocked (c : Collector) (n : node) : node :=
  let m := if misses n <? maxInt32 then misses n + 1 else misses n in
  if MissedPolls c <=? m then
    MkNode (ptr n) (hist n) (diskThrough n) (src n) (acked n) (staleSeen n) (ackFailing n) false
      m (updatedAt n) (n_partial n) None (onlineAt n) (lastSeen n) false
      (lastData n) [] 0 0 (n_ring n) (warnedAhead n)
  else
    MkNode (ptr n) (hist n) (diskThrough n) (src n) (acked n) (staleSeen n) (ackFailing n) (live n)
      m (updatedAt n) (n_partial n) (online n) (onlineAt n) (lastSeen n) (havePrev n)
      (lastData n) (obs n) (rateUp n) (rateDown n) (n_ring n) (warnedAhead n).

Definition PollError (c : Collector) (id : Z) (p : nat) : Collector :=
  update_ptr c id p (missLocked c).

Definition nonNegative (v : Z) : Z := if v <? 0 then 0 else v.

Definition take (nodeID : Z) (b : bucket) (email : string) (t : Totals) : bucket :=
  if isZero t then b else
  match ParseSubscriptionEmail email with
  | Some id => MkBucket (<[id := plus (b_subs b !!! id) t]> (b_subs b)) (b_bridge b)
  | None =>
      match ParseBridgeEmail email with
      | Some id => if id =? nodeID then MkBucket (b_subs b) (plus (b_bridge b) t) else b
      | None => b
      end
  end.

Definition emptyBucket : bucket := MkBucket ∅ zeroTotals.

(** One record read into the bucket of its timestamp. *)
Definition take_record (nodeID : Z) (b : bucket) (r : TrafficRecord) : bucket :=
  let b := map_fold (fun email v b => take nodeID b email (MkTotals (nonNegative v) 0)) b (r_UserUplink r) in
  map_fold (fun email v b => take nodeID b email (MkTotals 0 (nonNegative v))) b (r_UserDownlink r).

Definition records_step (nodeID limit : Z) (st : gmap Z bucket * Z) (r : option TrafficRecord) :
    gmap Z bucket * Z :=
  let '(byTime, ahead) := st in
  match r with
  | None => st
  | Some r =>
      if r_Timestamp r <=? 0 then st
      else if limit <? r_Timestamp r then (byTime, ahead + 1)
      else
        let b := default emptyBucket (byTime !! r_Timestamp r) in
        (<[r_Timestamp r := take_record nodeID b r]> byTime, ahead)
  end.

Definition records (rs : list (option TrafficRecord)) (nodeID limit : Z) : list record * Z :=
  let '(byTime, ahead) := foldl (records_step nodeID limit) (∅, 0) rs in
  (sort_on rec_ts ((fun kv => MkRec kv.1 kv.2 (bucket_node kv.2)) <$> map_to_list byTime), ahead).

Definition monus (a b : Z) : Z := if b <? a then wrapU (a - b) else 0.
Definition minus (t o : Totals) : Totals := MkTotals (monus (Up t) (Up o)) (monus (Down t) (Down o)).

(** The loop of [foldLocked] over the records: the history, what was counted,
    what the page can see now, the newest bucket, and whether a bucket the file
    counts was still at the agent. *)
Record folding := MkFolding {
  f_hist : nodeHist;
  f_counted : Totals;
  f_fresh : Totals;
  f_live : option partial;
  f_stale : bool
}.

Definition set_through (h : nodeHist) (ts : Z) : nodeHist :=
  MkHist (days h) (subs h) (bridge h) (life h) ts.

Definition fold_record (disk newest : Z) (f : folding) (r : record) : folding :=
  if rec_ts r <=? through (f_hist f) then
    MkFolding (f_hist f) (f_counted f) (f_fresh f) (f_live f) (f_stale f || (rec_ts r <=? disk))
  else if rec_ts r <? newest then
    MkFolding (set_through (hist_add (rec_ts r) (rec_b r) (f_hist f)) (rec_ts r))
      (plus (f_counted f) (rec_node r)) (plus (f_fresh f) (rec_node r)) (f_live f) (f_stale f)
  else
    MkFolding (f_hist f) (f_counted f) (plus (f_fresh f) (rec_node r))
      (Some (MkPartial (rec_ts r) (rec_b r) (rec_node r))) (f_stale f).

Definition newest_of (rs : list record) : Z := default 0 (rec_ts <$> last rs).

Definition fold_records (h : nodeHist) (disk : Z) (rs : list record) : folding :=
  foldl (fold_record disk (newest_of rs)) (MkFolding h zeroTotals zeroTotals None false) rs.

(** [rateLocked]: the observations still in the window, and the two rates. *)
Fixpoint drop_old (cut : Z) (os : list observation) : list observation :=
  match os with
  | o :: os' => if cut <? o_to o then os else drop_old cut os'
  | [] => []
  end.

Definition rate_of (bytes : Z) (secs : float64) : Z :=
  uint64_of (f64_round (f64_div (f64_of_int bytes) secs)).

Definition rateLocked (os : list observation) (now : Z) : list observation * (Z * Z) :=
  let os := drop_old (now - rateWindow) os in
  match head os, last os with
  | Some o0, Some o1 =>
      let sum := foldl (fun t o => plus t (o_inc o)) zeroTotals os in
      let secs := Seconds (o_to o1 - o_from o0) in
      if f64_leb secs (S754_zero false) then (os, (0, 0))
      else (os, (rate_of (Up sum) secs, rate_of (Down sum) secs))
  | _, _ => (os, (0, 0))
  end.

Definition onlineLocked (ips : gmap string (gmap string Z)) : gmap Z Z :=
  map_fold (fun email addrs (m : gmap Z Z) =>
    if bool_decide (addrs = ∅) then m else
    match ParseSubscriptionEmail email with
    | Some id => <[id := default 0 (m !! id) + Z.of_nat (size addrs)]> m
    | None => m
    end) ∅ ips.

(** [counts]: the subscriptions online and their client addresses. *)
Definition n_counts (on : option (gmap Z Z)) : Z * Z :=
  match on with
  | None => (0, 0)
  | Some m => map_fold (fun _ k acc => (acc.1 + 1, acc.2 + k)) (0, 0) m
  end.

Record StatsBundle := MkBundle {
  Buffered : option (list (option TrafficRecord));
  OnlineIPs : option (gmap string (gmap string Z))
}.

Record Sample := MkSample {
  S_At : Z; S_RateUp : Z; S_RateDown : Z; S_Online : Z; S_Connections : Z; S_Counted : Totals
}.

(** What [foldLocked] makes of the buffered records. *)
Record buffered := MkBuf {
  bf_hist : nodeHist;
  bf_counted : Totals;
  bf_ack : Z;
  bf_stale : bool;
  bf_partial : option partial;
  bf_havePrev : bool;
  bf_lastData : Z;
  bf_obs : list observation;
  bf_added : bool;
  bf_warned : bool
}.

Definition fold_buffered (c : Collector) (n : node) (nodeID : Z) (rs : list (option TrafficRecord))
    (now : Z) : buffered :=
  let '(recs, ahead) := records rs nodeID (Unix (now + maxAhead)) in
  let f := fold_records (hist n) (diskThrough n) recs in
  let ack := if f_stale f && negb (noWrite c) then diskThrough n else 0 in
  let shown := default zeroTotals (p_node <$> n_partial n) in
  let inc := minus (f_fresh f) shown in
  let warned := if (0 <? ahead) && negb (warnedAhead n) then true
                else if ahead =? 0 then false else warnedAhead n in
  let base := MkBuf (f_hist f) (f_counted f) ack (staleSeen n || f_stale f) (f_live f) in
  if negb (havePrev n) then base true now (obs n) false warned
  else if lastData n <? now then base true now (obs n ++ [MkObs (lastData n) now inc]) true warned
  else base true (lastData n) (obs n) false warned.

(** A bundle with no buffered traffic leaves those fields alone. *)
Definition keep_buffered (n : node) : buffered :=
  MkBuf (hist n) zeroTotals 0 (staleSeen n) (n_partial n) (havePrev n) (lastData n) (obs n) false
    (warnedAhead n).

Definition foldLocked (c : Collector) (n : node) (nodeID : Z) (b : StatsBundle) (now : Z) :
    node * Sample * Z :=
  let bf := match Buffered b with
            | Some rs => fold_buffered c n nodeID rs now
            | None => keep_buffered n
            end in
  let '(os, (up, down)) := rateLocked (bf_obs bf) now in
  let rg := if bf_added bf then ring_put now up down (n_ring n) else n_ring n in
  let '(on, onAt, seen) :=
    match OnlineIPs b with
    | Some ips =>
        let o := onlineLocked ips in
        (Some o, now, map_fold (fun id _ (m : gmap Z Z) => <[id := now]> m) (lastSeen n) o)
    | None =>
        if bool_decide (is_Some (online n)) && (onlineMaxAge <? now - onlineAt n)
        then (None, onlineAt n, lastSeen n) else (online n, onlineAt n, lastSeen n)
    end in
  let cs := n_counts on in
  (MkNode (ptr n) (bf_hist bf) (diskThrough n) (src n) (acked n) (bf_stale bf) (ackFailing n) true
     0 now (bf_partial bf) on onAt seen (bf_havePrev bf) (bf_lastData bf) os up down rg (bf_warned bf),
   MkSample now up down cs.1 cs.2 (bf_counted bf),
   bf_ack bf).

(** A poll's answer taken in, unless the node was forgotten meanwhile; gives
    the sample and the mark to acknowledge, zero for none. *)
Definition zeroSample : Sample := MkSample zeroTime 0 0 0 0 zeroTotals.

Definition PollFold (c : Collector) (id : Z) (p : nat) (b : StatsBundle) (now : Z) :
    Collector * Sample * Z :=
  match nodes c !! id with
  | Some n =>
      if decide (ptr n = p) then
        let '(n', s, ack) := foldLocked c n id b now in
        (set_nodes c (<[id := n']> (nodes c)), s, ack)
      else (c, zeroSample, 0)
  | None => (c, zeroSample, 0)
  end.

(** [ackNode] once the agent has answered. *)
Definition AckDone (c : Collector) (id : Z) (p : nat) (thr : Z) (ok : bool) : Collector :=
  if ok then update_ptr c id p (fun n => set_ack n (Z.max (acked n) thr) false (ackFailing n)) else c.

Definition PollAcked (c : Collector) (id : Z) (p : nat) (thr : Z) (ok : bool) : Collector :=
  update_ptr (AckDone c id p thr ok) id p (fun n => set_ack n (acked n) (staleSeen n) (negb ok)).

(** The whole [Poll], alone: [answer] is what [GetStatsBundle] gave ([None] for
    an error, and a nil bundle is an empty one), [ackOk] whether an
    acknowledgement would get through. Gives what the caller gets and the mark
    the agent was told, zero for none. *)
Definition Poll (c : Collector) (id : Z) (s : Source) (answer : option (option StatsBundle))
    (now : Z) (ackOk : bool) : Collector * option Sample * Z :=
  let '(c, p) := PollStart c id s in
  match answer with
  | None => (PollError c id p, None, 0)
  | Some b =>
      let '(c, smp, ack) := PollFold c id p (default (MkBundle None None) b) now in
      if 0 <? ack then (PollAcked c id p ack ackOk, Some smp, ack) else (c, Some smp, 0)
  end.

(** ** Flushing *)

(** [write] up to the disk: the pruned history, its bytes and the marks. *)
Definition WriteBegin (c : Collector) (now : Z) : Collector * fileBytes * gmap Z Z :=
  let c := pruneLocked c now in
  (c, encodeDoc (hists c) (retired c), (fun n => through (hist n)) <$> nodes c).

Definition writeNeeded (c : Collector) (e : fileBytes) : bool :=
  hasPath c && negb (bool_decide (e = enc c)).

(** The bytes are on disk. *)
Definition WriteDone (c : Collector) (e : fileBytes) : Collector :=
  MkCollector (MissedPolls c) (hasPath c) (nodes c) (retired c) e (noWrite c)
    (wrapU (writes c + 1)) (nextPtr c).

(** The marks are those of the file now. *)
Definition WriteEnd (c : Collector) (marks : gmap Z Z) : Collector :=
  set_nodes c (map_imap (fun id n =>
    Some (match marks !! id with
          | Some m => set_disk n (Z.max (diskThrough n) m)
          | None => n end)) (nodes c)).

Record job := MkJob { j_id : Z; j_ptr : nat; j_src : Source; j_through : Z }.

(** The jobs of [acknowledge], in the order they run. *)
Definition ack_job (id : Z) (n : node) : option job :=
  match src n with
  | Some s =>
      if (0 <? diskThrough n) && ((acked n <? diskThrough n) || staleSeen n)
      then Some (MkJob id (ptr n) s (diskThrough n)) else None
  | None => None
  end.

Definition ack_jobs (c : Collector) : list job :=
  sort_on j_id (omap (fun kv => ack_job kv.1 kv.2) (map_to_list (nodes c))).

(** [acknowledge], alone: [tell j] is whether the agent took the job's mark,
    [done k] whether the context is done before the [k]th job. *)
Fixpoint run_acks (tell : job -> bool) (done : nat -> bool) (k : nat) (js : list job) (c : Collector) :
    Collector * bool :=
  match js with
  | [] => (c, true)
  | j :: js =>
      if done k then (c, false) else
      let c := AckDone c (j_id j) (j_ptr j) (j_through j) (tell j) in
      let '(c, ok) := run_acks tell done (S k) js c in
      (c, tell j && ok)
  end.

(** [Flush], alone: [diskOk] is whether the atomic write worked; gives the
    collector, the file's new bytes if it was written, and whether there was no
    error. *)
Definition Flush (c : Collector) (now : Z) (diskOk : bool) (tell : job -> bool) (done : nat -> bool) :
    Collector * option fileBytes * bool :=
  if noWrite c then (c, None, true) else
  let '(c, e, marks) := WriteBegin c now in
  if writeNeeded c e then
    if diskOk then
      let c := WriteEnd (WriteDone c e) marks in
      let '(c, ok) := run_acks tell done 0 (ack_jobs c) c in (c, Some e, ok)
    else (c, None, false)
  else
    let c := WriteEnd c marks in
    let '(c, ok) := run_acks tell done 0 (ack_jobs c) c in (c, None, ok).

(** ** Forgetting *)

Definition Forget (c : Collector) (id : Z) : Collector :=
  let ret := match nodes c !! id with
             | Some n => map_fold (fun sid t (r : gmap Z Totals) => <[sid := plus (r !!! sid) t]> r)
                           (retired c) (life (hist n))
             | None => retired c
             end in
  MkCollector (MissedPolls c) (hasPath c) (delete id (nodes c)) ret (enc c) (noWrite c) (writes c)
    (nextPtr c).

Definition forget_sub_node (sid : Z) (n : node) : node :=
  MkNode (ptr n) (hist_forget_sub sid (hist n)) (diskThrough n) (src n) (acked n) (staleSeen n)
    (ackFailing n) (live n) (misses n) (updatedAt n)
    ((fun p => MkPartial (p_ts p) (MkBucket (delete sid (b_subs (p_b p))) (b_bridge (p_b p))) (p_node p))
       <$> n_partial n)
    (delete sid <$> online n) (onlineAt n) (delete sid (lastSeen n)) (havePrev n)
    (lastData n) (obs n) (rateUp n) (rateDown n) (n_ring n) (warnedAhead n).

Definition ForgetSubscription (c : Collector) (sid : Z) : Collector :=
  MkCollector (MissedPolls c) (hasPath c) (forget_sub_node sid <$> nodes c) (delete sid (retired c))
    (enc c) (noWrite c) (writes c) (nextPtr c).

(** ** What the page reads *)

Record NodeUsage := MkNodeUsage {
  NU_Live : bool; NU_Online : Z; NU_Connections : Z; NU_RateUp : Z; NU_RateDown : Z;
  NU_Today : Totals; NU_Month : Totals; NU_UpdatedAt : Z
}.

Record SubUsage := MkSubUsage {
  SU_Live : bool; SU_Online : bool; SU_Connections : Z; SU_LastSeen : Z;
  SU_Today : Totals; SU_Month : Totals
}.

Definition window (now : Z) : Z * Z :=
  let today := dayOfTime now in (today, today - (monthDays - 1)).

Definition sums (series : gmap Z Totals) (p : option partial) (share : Totals) (today from : Z) :
    Totals * Totals :=
  let t := series !!! today in
  let m := span series from today in
  match p with
  | None => (t, m)
  | Some p =>
      let d := dayOf (p_ts p) in
      (if d =? today then plus t share else t,
       if (from <=? d) && (d <=? today) then plus m share else m)
  end.

Definition Node (c : Collector) (id now : Z) : NodeUsage :=
  match nodes c !! id with
  | None => MkNodeUsage false 0 0 0 0 zeroTotals zeroTotals zeroTime
  | Some n =>
      let '(today, from) := window now in
      let share := default zeroTotals (p_node <$> n_partial n) in
      let '(t, m) := sums (days (hist n)) (n_partial n) share today from in
      if live n then
        MkNodeUsage true (n_counts (online n)).1 (n_counts (online n)).2 (rateUp n) (rateDown n) t m (updatedAt n)
      else MkNodeUsage false 0 0 0 0 t m (updatedAt n)
  end.

Definition subUsage (n : node) (sid today from : Z) : SubUsage :=
  let share := match n_partial n with Some p => b_subs (p_b p) !!! sid | None => zeroTotals end in
  let '(t, m) := sums (subs (hist n) !!! sid) (n_partial n) share today from in
  let k := if live n then default 0 (m ← online n; m !! sid) else 0 in
  MkSubUsage (live n) (0 <? k) k (default zeroTime (lastSeen n !! sid)) t m.

Definition zeroSubUsage : SubUsage := MkSubUsage false false 0 zeroTime zeroTotals zeroTotals.

Definition Subscription (c : Collector) (sid id now : Z) : SubUsage :=
  match nodes c !! id with
  | None => zeroSubUsage
  | Some n => let '(today, from) := window now in subUsage n sid today from
  end.

Definition merge_usage (u s : SubUsage) : SubUsage :=
  MkSubUsage (SU_Live u || SU_Live s) (SU_Online u || SU_Online s) (SU_Connections u + SU_Connections s)
    (if SU_LastSeen u <? SU_LastSeen s then SU_LastSeen s else SU_LastSeen u)
    (plus (SU_Today u) (SU_Today s)) (plus (SU_Month u) (SU_Month s)).

Definition SubscriptionTotal (c : Collector) (sid now : Z) : SubUsage :=
  let '(today, from) := window now in
  map_fold (fun _ n u => merge_usage u (subUsage n sid today from)) zeroSubUsage (nodes c).

Definition life_share (n : node) (sid : Z) : Totals :=
  match n_partial n with Some p => b_subs (p_b p) !!! sid | None => zeroTotals end.

Definition SubscriptionLifetime (c : Collector) (sid : Z) : Totals :=
  map_fold (fun _ n t =>
    let t := plus t (life (hist n) !!! sid) in
    match n_partial n with Some p => plus t (b_subs (p_b p) !!! sid) | None => t end)
    (retired c !!! sid) (nodes c).

Definition Bridge (c : Collector) (id : Z) : Totals :=
  match nodes c !! id with Some n => bridge (hist n) | None => zeroTotals end.

Definition Traffic (c : Collector) (id now : Z) : list Point :=
  match nodes c !! id with Some n => ring_points now (n_ring n) | None => [] end.

(** * Lemmas *)

(** Bytes in one direction. *)
Definition one (x : dir) (v : Z) : Totals :=
  match x with UpDir => MkTotals v 0 | DownDir => MkTotals 0 v end.

Lemma get_one x y v : get x (one y v) = match x, y with
  | UpDir, UpDir | DownDir, DownDir => v | _, _ => 0 end.
Proof. by destruct x, y. Qed.

Lemma one_ok x v : isU64 v -> totals_ok (one x v).
Proof. intros. destruct x; split; simpl; try done; word_lia. Qed.

Lemma nonNegative_ok v : isI64 v -> isU64 (nonNegative v).
Proof. unfold nonNegative. intros. destruct (Z.ltb_spec v 0); word_lia. Qed.

Definition counts_ok (m : counts) : Prop := map_Forall (fun _ v => isI64 v) m.

Definition sub_id (id : Z) : Prop := 1 <= id /\ isI64 id.

Lemma sub_email id : sub_id id -> ParseSubscriptionEmail (SubscriptionEmail id) = Some id.
Proof. intros []. by apply ParseSubscriptionEmail_Some. Qed.

Definition take_all (nodeID : Z) (x : dir) (b : bucket) (m : counts) : bucket :=
  map_fold (fun email v b => take nodeID b email (one x (nonNegative v))) b m.

Lemma take_record_alt nodeID b r :
  take_record nodeID b r = take_all nodeID DownDir (take_all nodeID UpDir b (r_UserUplink r)) (r_UserDownlink r).
Proof. done. Qed.

(** Buckets hold 64-bit counts, for ids that name subscriptions. *)
Definition good_bucket (b : bucket) : Prop :=
  bucket_ok b /\ map_Forall (fun id _ => sub_id id) (b_subs b).

Lemma take_good nodeID b e t : good_bucket b -> totals_ok t -> good_bucket (take nodeID b e t).
Proof.
  intros [[Hs Hb] Hi] Ht. unfold take. destruct (isZero t); [done|].
  destruct (ParseSubscriptionEmail e) as [id|] eqn:E.
  - split; [split; [|done]|]; simpl; apply map_Forall_insert_2; try done.
    + apply plus_ok; [by apply lookup_total_ok|done].
    + apply ParseSubscriptionEmail_Some in E as [_ E]. exact E.
  - destruct (ParseBridgeEmail e) as [id|]; [|done]. destruct (id =? nodeID); [|done].
    split; [split; simpl; auto with usage|done].
Qed.

Lemma take_sub nodeID b e t id :
  good_bucket b -> totals_ok t ->
  b_subs (take nodeID b e t) !!! id =
    if decide (ParseSubscriptionEmail e = Some id) then plus (b_subs b !!! id) t else b_subs b !!! id.
Proof.
  intros [[Hs Hb] Hi] Ht. unfold take. destruct (isZero t) eqn:Hz.
  { apply isZero_true in Hz. subst. case_decide; [|done]. rewrite plus_zero_r; [done|by apply lookup_total_ok]. }
  destruct (ParseSubscriptionEmail e) as [id'|] eqn:E.
  - simpl. destruct (decide (id' = id)) as [->|Hne].
    + rewrite decide_True by done. by rewrite lookup_total_insert_eq.
    + rewrite decide_False by congruence. by rewrite lookup_total_insert_ne.
  - rewrite decide_False by done. destruct (ParseBridgeEmail e) as [id'|]; [|done].
    by destruct (id' =? nodeID).
Qed.

Lemma take_all_spec nodeID x b m :
  good_bucket b -> counts_ok m ->
  good_bucket (take_all nodeID x b m) /\
  forall id, sub_id id ->
    b_subs (take_all nodeID x b m) !!! id =
    plus (b_subs b !!! id) (one x (nonNegative (getZ m (SubscriptionEmail id)))).
Proof.
  intros Hb. unfold take_all.
  apply (map_fold_weak_ind (fun r (m : counts) => counts_ok m -> good_bucket r /\
    forall id, sub_id id -> b_subs r !!! id =
      plus (b_subs b !!! id) (one x (nonNegative (getZ m (SubscriptionEmail id)))))).
  - intros _. split; [done|]. intros id Hid. unfold getZ. rewrite lookup_empty.
    replace (one x (nonNegative (default 0 None))) with zeroTotals by (by destruct x).
    rewrite plus_zero_r; [done|]. apply lookup_total_ok, Hb.
  - intros e v m' r He IH Hm. apply map_Forall_insert in Hm as [Hv Hm]; [|done].
    destruct (IH Hm) as [Hr Hsub]. pose proof (one_ok x _ (nonNegative_ok v Hv)) as Ho.
    split; [by apply take_good|]. intros id Hid. rewrite take_sub by done. case_decide as Hp.
    + apply ParseSubscriptionEmail_Some in Hp as [-> _]. rewrite Hsub by done. unfold getZ.
      rewrite He, lookup_insert_eq. simpl. f_equal.
      replace (one x (nonNegative 0)) with zeroTotals by (by destruct x).
      apply plus_zero_r, lookup_total_ok, Hb.
    + rewrite Hsub by done. unfold getZ. rewrite lookup_insert_ne; [done|].
      intros ->. by rewrite sub_email in Hp.
Qed.

Lemma emptyBucket_good : good_bucket emptyBucket.
Proof. split; [split|]; simpl; try apply map_Forall_empty. apply zero_ok. Qed.

Definition record_ok (r : TrafficRecord) : Prop :=
  counts_ok (r_UserUplink r) /\ counts_ok (r_UserDownlink r).

Lemma take_record_good nodeID b r : good_bucket b -> record_ok r -> good_bucket (take_record nodeID b r).
Proof.
  intros Hb [Hu Hd]. rewrite take_record_alt.
  apply take_all_spec; [|done]. by apply take_all_spec.
Qed.

(** A record's bytes of a subscription are those under its email. *)
Definition record_bytes (x : dir) (e : string) (r : TrafficRecord) : Z :=
  getZ (match x with UpDir => r_UserUplink r | DownDir => r_UserDownlink r end) e.

Lemma take_record_sub nodeID r id x :
  record_ok r -> sub_id id ->
  get x (b_subs (take_record nodeID emptyBucket r) !!! id) =
  nonNegative (record_bytes x (SubscriptionEmail id) r).
Proof.
  intros [Hu Hd] Hid. rewrite take_record_alt.
  destruct (take_all_spec nodeID UpDir emptyBucket (r_UserUplink r) emptyBucket_good Hu) as [Hg Hs].
  destruct (take_all_spec nodeID DownDir _ (r_UserDownlink r) Hg Hd) as [Hg' Hs'].
  rewrite Hs', Hs by done. simpl. rewrite lookup_total_empty.
  assert (forall m e, counts_ok m -> isI64 (getZ m e)) as Hz.
  { intros m e Hm. unfold getZ. destruct (m !! e) eqn:E; simpl; [by apply (Hm e)|word_lia]. }
  pose proof (nonNegative_ok _ (Hz _ (SubscriptionEmail id) Hu)) as H1.
  pose proof (nonNegative_ok _ (Hz _ (SubscriptionEmail id) Hd)) as H2.
  assert (forall y v, isU64 v -> totals_ok (one y v)) as Hok by (intros; by apply one_ok).
  rewrite get_plus; [|apply plus_ok; [apply zero_ok|by apply (Hok UpDir)]|by apply (Hok DownDir)].
  rewrite get_plus, get_zero; [|apply zero_ok|by apply (Hok UpDir)].
  unfold record_bytes. destruct x; simpl; word_lia.
Qed.

(** ** The records of a bundle *)

Definition in_range (limit ts : Z) : Prop := 0 < ts <= limit.
#[global] Instance in_range_dec limit ts : Decision (in_range limit ts).
Proof. unfold in_range. apply _. Defined.

Lemma records_step_good nodeID limit (st : gmap Z bucket * Z) r :
  map_Forall (fun ts b => in_range limit ts /\ good_bucket b) st.1 ->
  (forall r', r = Some r' -> record_ok r') ->
  map_Forall (fun ts b => in_range limit ts /\ good_bucket b) (records_step nodeID limit st r).1.
Proof.
  intros Hst Hr. destruct st as [bt ah], r as [r|]; simpl in *; [|done].
  destruct (Z.leb_spec (r_Timestamp r) 0); [done|].
  destruct (Z.ltb_spec limit (r_Timestamp r)); [done|]. simpl.
  apply map_Forall_insert_2; [|done]. split; [split; lia|].
  apply take_record_good; [|by apply Hr].
  destruct (bt !! r_Timestamp r) eqn:E; simpl; [by apply (Hst _ _ E)|apply emptyBucket_good].
Qed.

Definition bundle_ok (rs : list (option TrafficRecord)) : Prop :=
  Forall (fun r => forall r', r = Some r' -> record_ok r') rs.

Lemma records_good_fold nodeID limit rs st :
  map_Forall (fun ts b => in_range limit ts /\ good_bucket b) st.1 -> bundle_ok rs ->
  map_Forall (fun ts b => in_range limit ts /\ good_bucket b)
    (foldl (records_step nodeID limit) st rs).1.
Proof.
  intros Hst Hrs. revert st Hst. induction Hrs as [|r rs Hr _ IH]; intros st Hst; [done|].
  simpl. apply IH. by apply records_step_good.
Qed.

Definition rec_wf (limit : Z) (r : record) : Prop := in_range limit (rec_ts r) /\ good_bucket (rec_b r).

(** Whatever the agent sends, the records come out oldest first, a timestamp
    once, none at or before the epoch and none past the limit. *)
Lemma records_sorted rs nodeID limit :
  bundle_ok rs ->
  let recs := (records rs nodeID limit).1 in
  StronglySorted (fun a b => rec_ts a < rec_ts b) recs /\ Forall (rec_wf limit) recs /\
  Forall (fun r => rec_node r = bucket_node (rec_b r)) recs.
Proof.
  intros Hrs. cbn zeta. unfold records.
  pose proof (records_good_fold nodeID limit rs (∅, 0) (map_Forall_empty _) Hrs) as Hg.
  destruct (foldl _ _ _) as [bt ah]. simpl in *.
  split; [|split].
  - apply sort_on_sorted. rewrite <-list_fmap_compose. apply NoDup_fst_map_to_list.
  - rewrite sort_on_perm, Forall_fmap, Forall_forall. intros [ts b] Hin%elem_of_map_to_list.
    by apply (Hg ts b).
  - rewrite sort_on_perm, Forall_fmap, Forall_forall. intros [ts b] _. done.
Qed.

(** ** Taking the records in *)

Definition counted_in (lo newest ts : Z) : bool := (lo <? ts) && (ts <? newest).

(** What the loop of [foldLocked] leaves, for records in order none of which is
    past [newest]: the buckets strictly between the mark and the newest are
    counted, each once, and the mark is the newest of them. *)
Record folded (newest : Z) (h : nodeHist) (rs : list record) (h' : nodeHist) : Prop := {
  fo_ok : hist_ok h';
  fo_life : forall id x, get x (life h' !!! id) =
    Z.min (get x (life h !!! id) +
           lsum (fun r => if counted_in (through h) newest (rec_ts r)
                          then get x (b_subs (rec_b r) !!! id) else 0) rs) maxU64;
  fo_mono : through h <= through h';
  fo_all : forall r, r ∈ rs -> rec_ts r < newest -> rec_ts r <= through h';
  fo_mark : through h' = through h \/ exists r, r ∈ rs /\ through h' = rec_ts r /\ rec_ts r < newest
}.

Lemma set_through_ok h ts : hist_ok h -> hist_ok (set_through h ts).
Proof. intros []. by split. Qed.

Lemma get_bucket_range x b id : bucket_ok b -> isU64 (get x (b_subs b !!! id)).
Proof. intros [Hb _]. by apply get_ok, lookup_total_ok. Qed.

Lemma fold_record_folded disk newest rs f :
  StronglySorted (fun a b => rec_ts a < rec_ts b) rs -> Forall (fun r => bucket_ok (rec_b r)) rs ->
  hist_ok (f_hist f) ->
  folded newest (f_hist f) rs (f_hist (foldl (fold_record disk newest) f rs)).
Proof.
  intros Hs. revert f. induction Hs as [|r rs Hs IH Hr]; intros f Hb Hok.
  - split; simpl; [done| |lia|intros r Hr; by apply elem_of_nil in Hr|by left].
    intros id x. pose proof (get_ok x _ (lookup_total_ok (life (f_hist f)) id (hok_life _ Hok))). word_lia.
  - inversion Hb as [|? ? Hbr Hb']; subst. cbn [foldl].
    assert (hist_ok (f_hist (fold_record disk newest f r))) as Hok1.
    { unfold fold_record. destruct (_ <=? _); [done|]. destruct (_ <? _); [|done]. simpl.
      apply set_through_ok. by apply hist_add_ok. }
    destruct (IH _ Hb' Hok1) as [H1 H2 H3 H4 H5]. clear IH.
    rewrite Forall_forall in Hr.
    assert (forall y id, 0 <= lsum (fun r0 => if counted_in (through (f_hist f)) newest (rec_ts r0)
      then get y (b_subs (rec_b r0) !!! id) else 0) rs) as Hnn.
    { intros y id. apply lsum_nonneg. intros a Ha. rewrite Forall_forall in Hb'.
      pose proof (get_bucket_range y _ id (Hb' a Ha)). destruct (counted_in _ _ _); word_lia. }
    set (h' := f_hist (foldl _ (fold_record disk newest f r) rs)) in *. clearbody h'.
    unfold fold_record in H2, H3, H5.
    destruct (Z.leb_spec (rec_ts r) (through (f_hist f))) as [Hle|Hgt];
      [|destruct (Z.ltb_spec (rec_ts r) newest) as [Hlt|Hge]]; cbn [f_hist] in *.
    + split; [done| |done| |].
      * intros id x. rewrite H2, lsum_cons. unfold counted_in at 2.
        destruct (Z.ltb_spec (through (f_hist f)) (rec_ts r)); [lia|]. done.
      * intros a [->|Ha]%elem_of_cons Hlt; [lia|by apply H4].
      * destruct H5 as [H5|(a & ? & ? & ?)]; [by left|right]. exists a. split; [by right|done].
    + cbn [set_through through] in *. split; [done| |lia| |].
      * intros id x. rewrite H2, lsum_cons. unfold set_through. cbn [life].
        rewrite hist_add_life by done. unfold counted_in at 2.
        destruct (Z.ltb_spec (through (f_hist f)) (rec_ts r)); [|lia].
        destruct (Z.ltb_spec (rec_ts r) newest); [|lia]. cbn [andb].
        rewrite get_plus; [|apply lookup_total_ok, Hok|apply lookup_total_ok, Hbr].
        rewrite (lsum_ext (fun r0 => if counted_in (rec_ts r) newest (rec_ts r0) then _ else _)
          (fun r0 => if counted_in (through (f_hist f)) newest (rec_ts r0)
                     then get x (b_subs (rec_b r0) !!! id) else 0)).
        2: { intros a Ha. specialize (Hr a Ha). unfold counted_in.
             destruct (Z.ltb_spec (rec_ts r) (rec_ts a)), (Z.ltb_spec (through (f_hist f)) (rec_ts a)); done || lia. }
        specialize (Hnn x id). pose proof (get_bucket_range x _ id Hbr). word_lia.
      * intros a [->|Ha]%elem_of_cons Hlt'; [lia|by apply H4].
      * right. destruct H5 as [H5|(a & ? & ? & ?)].
        -- exists r. split; [left|]. done.
        -- exists a. split; [by right|done].
    + split; [done| |done| |].
      * intros id x. rewrite H2, lsum_cons. unfold counted_in at 2.
        destruct (Z.ltb_spec (rec_ts r) newest); [lia|]. rewrite andb_false_r. done.
      * intros a [->|Ha]%elem_of_cons Hlt; [lia|by apply H4].
      * destruct H5 as [H5|(a & ? & ? & ?)]; [by left|right]. exists a. split; [by right|done].
Qed.

(** The newest bucket is what is shown: the last record, if it is past the
    mark, is the partial; anything else leaves none. *)
Lemma fold_record_live disk newest rs f :
  StronglySorted (fun a b => rec_ts a < rec_ts b) rs -> Forall (fun r => rec_ts r < newest) rs ->
  f_live (foldl (fold_record disk newest) f rs) = f_live f.
Proof.
  intros Hs Hlt. revert f. induction Hlt as [|r rs Hr _ IH]; intros f; [done|].
  inversion Hs; subst. cbn [foldl]. rewrite IH by done. unfold fold_record.
  destruct (_ <=? _); [done|]. destruct (Z.ltb_spec (rec_ts r) newest); [done|lia].
Qed.

Lemma StronglySorted_snoc {A} (f : A -> Z) l a :
  StronglySorted (fun a b => f a < f b) (l ++ [a]) ->
  StronglySorted (fun a b => f a < f b) l /\ Forall (fun b => f b < f a) l.
Proof.
  induction l as [|b l IH]; intros H; [split; constructor|]. simpl in H.
  inversion H as [|? ? Hs Hall]; subst. destruct (IH Hs) as [H1 H2].
  apply Forall_app in Hall as [Hl Ha]. inversion Ha; subst.
  split; constructor; done.
Qed.

Lemma fold_records_live h disk rs :
  StronglySorted (fun a b => rec_ts a < rec_ts b) rs -> Forall (fun r => bucket_ok (rec_b r)) rs ->
  hist_ok h ->
  f_live (fold_records h disk rs) =
  r ← last rs; if through h <? rec_ts r then Some (MkPartial (rec_ts r) (rec_b r) (rec_node r)) else None.
Proof.
  intros Hs Hb Hok. unfold fold_records, newest_of.
  destruct rs as [|r rs _] using rev_ind; [done|].
  destruct (StronglySorted_snoc _ _ _ Hs) as [Hs' Hlt]. apply Forall_app in Hb as [Hb _].
  rewrite last_snoc. cbn [fmap option_fmap option_map default from_option mbind option_bind id].
  rewrite foldl_app. cbn [foldl].
  set (f := foldl _ _ rs).
  assert (f_live f = None) as Hl by (unfold f; by rewrite fold_record_live).
  destruct (fold_record_folded disk (rec_ts r) rs (MkFolding h zeroTotals zeroTotals None false) Hs' Hb Hok)
    as [_ _ Hm _ Hmark]. fold f in Hm, Hmark. cbn [f_hist] in *.
  unfold fold_record. destruct (Z.leb_spec (rec_ts r) (through (f_hist f))) as [Hle|Hgt]; cbn [f_live].
  - rewrite Hl. destruct (Z.ltb_spec (through h) (rec_ts r)); [|done].
    destruct Hmark as [He|(a & _ & He & Ha)]; lia.
  - rewrite Z.ltb_irrefl. cbn [f_live]. destruct (Z.ltb_spec (through h) (rec_ts r)); [done|lia].
Qed.

(** A bucket the file counts makes a poll ask for its removal again, and
    nothing else does. *)
Lemma fold_records_stale h disk rs :
  StronglySorted (fun a b => rec_ts a < rec_ts b) rs -> disk <= through h ->
  f_stale (fold_records h disk rs) = true <-> exists r, r ∈ rs /\ rec_ts r <= disk.
Proof.
  intros Hs Hd. unfold fold_records. set (nw := newest_of rs). clearbody nw.
  assert (forall f, disk <= through (f_hist f) ->
    f_stale (foldl (fold_record disk nw) f rs) = true <->
    f_stale f = true \/ exists r, r ∈ rs /\ rec_ts r <= disk) as Hgen.
  { induction rs as [|r rs IH]; intros f Hf.
    - simpl. split; [by left|]. intros [?|(r & Hr & _)]; [done|]. by apply elem_of_nil in Hr.
    - inversion Hs as [|? ? Hs' Hr]; subst. cbn [foldl]. rewrite IH; [|done|].
      + unfold fold_record. setoid_rewrite elem_of_cons.
        destruct (Z.leb_spec (rec_ts r) (through (f_hist f))); [|destruct (Z.ltb_spec (rec_ts r) nw)]; cbn [f_stale].
        * rewrite orb_true_iff, Z.leb_le. naive_solver.
        * split; [naive_solver|]. intros [?|(a & [->|Ha] & ?)]; [by left|lia|right; by exists a].
        * split; [naive_solver|]. intros [?|(a & [->|Ha] & ?)]; [by left|lia|right; by exists a].
      + unfold fold_record. destruct (Z.leb_spec (rec_ts r) (through (f_hist f))); [done|].
        destruct (_ <? _); cbn; lia. }
  rewrite Hgen by done. simpl. naive_solver.
Qed.

(** ** Histories under the collector's operations *)

(** What every history of the collector satisfies: counts of 64 bits, and what
    the file can hold. *)
Definition hist_wf (h : nodeHist) : Prop := hist_ok h /\ file_hist h.

Definition hists_wf (hs : gmap Z nodeHist) : Prop := map_Forall (fun id h => id <> 0 /\ hist_wf h) hs.

(** A clock whose "a day ahead" still has a four-digit year. *)
Definition clock_ok (now : Z) : Prop := dayOf (Unix (now + maxAhead)) <= maxDay.

Lemma dayOf_range limit ts : in_range limit ts -> dayOf limit <= maxDay -> day_ok (dayOf ts).
Proof.
  intros [H0 H1]. rewrite !dayOf_floor. intros Hl. split.
  - assert (minDay <= 0) by (vm_compute; discriminate).
    assert (0 <= ts / secondsPerDay) by (apply Z.div_pos; [lia|reflexivity]). lia.
  - assert (ts / secondsPerDay <= limit / secondsPerDay) by (apply Z.div_le_mono; [reflexivity|lia]). lia.
Qed.

Lemma newNodeHist_wf : hist_wf newNodeHist.
Proof.
  split; [apply newNodeHist_ok|]. split; [apply map_Forall_empty..|reflexivity|reflexivity].
Qed.

Lemma hist_add_file ts b h :
  good_bucket b -> day_ok (dayOf ts) -> file_hist h -> file_hist (hist_add ts b h).
Proof.
  intros [_ Hid] Hd Hf. destruct (hist_add_lookup ts b h) as (Ht & _ & Hdays & Hl & Hs). split.
  - rewrite Hdays. unfold add_day. destruct (isZero _); [apply Hf|].
    apply map_Forall_insert_2; [done|apply Hf].
  - intros id m. rewrite Hs. destruct (b_subs b !! id) as [t|] eqn:E; [|by apply Hf].
    destruct (isZero t); [by apply Hf|]. intros [= <-].
    split; [|split].
    + destruct (Hid id t E). lia.
    + apply insert_non_empty.
    + apply map_Forall_insert_2; [done|]. rewrite lookup_total_alt.
      destruct (subs h !! id) eqn:E'; simpl; [by apply (fh_subs h Hf id)|apply map_Forall_empty].
  - intros id t. rewrite Hl. destruct (b_subs b !! id) as [t'|] eqn:E; [|by apply Hf].
    intros _. destruct (Hid id t' E). lia.
  - intros id. rewrite !elem_of_dom, Hs, Hl. pose proof (fh_dom h Hf id) as Hdom.
    rewrite !elem_of_dom in Hdom. destruct (b_subs b !! id) as [t|]; [|done].
    destruct (isZero t); [done|]. by eexists.
  - rewrite Ht. apply Hf.
Qed.

Lemma hist_prune_file k h : file_hist h -> file_hist (hist_prune k h).
Proof.
  intros Hf. split; simpl; try apply Hf.
  - intros d t [Hd _]%map_lookup_filter_Some. by apply (fh_days h Hf d t).
  - intros id m. rewrite lookup_omap. destruct (subs h !! id) as [m0|] eqn:E; [|done]. simpl.
    case_bool_decide; [done|]. intros [= <-]. destruct (fh_subs h Hf id m0 E) as (? & _ & Hr).
    split; [done|]. split; [done|]. intros d t [Hd _]%map_lookup_filter_Some. by apply (Hr d t).
  - intros id. rewrite !elem_of_dom, lookup_omap. intros [m Hm]. apply bind_Some in Hm as (m0 & E & _).
    apply elem_of_dom, (fh_dom h Hf), elem_of_dom. by eexists.
Qed.

Lemma hist_prune_wf k h : hist_wf h -> hist_wf (hist_prune k h).
Proof. intros []. split; [by apply hist_prune_ok|by apply hist_prune_file]. Qed.

Lemma fold_records_wf h disk limit rs :
  Forall (rec_wf limit) rs -> dayOf limit <= maxDay -> hist_wf h -> hist_wf (f_hist (fold_records h disk rs)).
Proof.
  intros Hrs Hl. unfold fold_records. set (nw := newest_of rs). clearbody nw.
  enough (forall f, hist_wf (f_hist f) -> hist_wf (f_hist (foldl (fold_record disk nw) f rs))) as Hgen
    by (intros; by apply Hgen).
  induction Hrs as [|r rs [Hr Hb] _ IH]; intros f [Hok Hf]; [done|]. cbn [foldl]. apply IH.
  unfold fold_record. destruct (Z.leb_spec (rec_ts r) (through (f_hist f))); [done|].
  destruct (_ <? _); [|done]. cbn [f_hist]. split.
  - apply set_through_ok, hist_add_ok; [apply Hb|done].
  - pose proof (hist_add_file (rec_ts r) (rec_b r) (f_hist f) Hb (dayOf_range _ _ Hr Hl) Hf) as [].
    split; try done. destruct Hr. simpl. lia.
Qed.

(** What a node's numbers say a subscription has moved through it: the counted
    buckets and the one still growing. *)
Definition shown (x : dir) (sid : Z) (n : node) : Z :=
  get x (life (hist n) !!! sid) + get x (life_share n sid).

(** The parts of [foldLocked] the history depends on. *)
Lemma foldLocked_node c n id b now :
  let r := foldLocked c n id b now in
  hist r.1.1 = match Buffered b with
               | Some rs => f_hist (fold_records (hist n) (diskThrough n)
                              (records rs id (Unix (now + maxAhead))).1)
               | None => hist n
               end /\
  diskThrough r.1.1 = diskThrough n /\ ptr r.1.1 = ptr n /\ src r.1.1 = src n /\
  (r.2 = 0 \/ r.2 = diskThrough n).
Proof.
  cbn zeta. unfold foldLocked, fold_buffered, keep_buffered.
  destruct (Buffered b) as [rs|]; [destruct (records rs id _) as [recs ah]|].
  all: repeat (match goal with
    | |- context [if ?q then _ else _] => destruct q
    | |- context [match ?q with Some _ => _ | None => _ end] => destruct q
    | |- context [let '(_, _) := ?q in _] => destruct q
    end); cbn; repeat split; auto.
Qed.

Lemma hists_update_ptr c id p f :
  (forall n, hist (f n) = hist n) -> hists (update_ptr c id p f) = hists c.
Proof.
  intros Hf. unfold update_ptr, hists. destruct (nodes c !! id) as [n|] eqn:E; [|done].
  case_decide; [|done]. simpl. rewrite fmap_insert, Hf. apply insert_id. by rewrite lookup_fmap, E.
Qed.

Lemma missLocked_hist c n : hist (missLocked c n) = hist n.
Proof. unfold missLocked. by destruct (_ <=? _). Qed.

Lemma hists_PollError c id p : hists (PollError c id p) = hists c.
Proof. apply hists_update_ptr, missLocked_hist. Qed.

Lemma hists_AckDone c id p t ok : hists (AckDone c id p t ok) = hists c.
Proof. unfold AckDone. destruct ok; [|done]. by apply hists_update_ptr. Qed.

Lemma hists_PollAcked c id p t ok : hists (PollAcked c id p t ok) = hists c.
Proof. unfold PollAcked. rewrite hists_update_ptr by done. apply hists_AckDone. Qed.

Lemma hists_prune c now :
  hists (pruneLocked c now) = hist_prune (dayOfTime now - (keepDays - 1)) <$> hists c.
Proof. unfold hists, pruneLocked. simpl. by rewrite <-!map_fmap_compose. Qed.

Lemma hists_WriteEnd c marks : hists (WriteEnd c marks) = hists c.
Proof.
  apply map_eq. intros id. unfold hists, WriteEnd. simpl. rewrite !lookup_fmap, map_lookup_imap.
  destruct (nodes c !! id) as [n|]; [|done]. simpl. by destruct (marks !! id).
Qed.

Lemma hists_PollStart c id s :
  hists (PollStart c id s).1 = <[id := default newNodeHist (hists c !! id)]> (hists c).
Proof.
  unfold PollStart, nodeLocked, hists. rewrite lookup_fmap. destruct (nodes c !! id) as [n|] eqn:E; simpl.
  - by rewrite fmap_insert.
  - by rewrite insert_insert_eq, fmap_insert.
Qed.

Lemma hists_PollFold c id p b now :
  let c' := (PollFold c id p b now).1.1 in
  hists c' = hists c \/
  exists n rs, nodes c !! id = Some n /\ ptr n = p /\ Buffered b = Some rs /\
    hists c' = <[id := f_hist (fold_records (hist n) (diskThrough n)
                   (records rs id (Unix (now + maxAhead))).1)]> (hists c).
Proof.
  cbn zeta. unfold PollFold. destruct (nodes c !! id) as [n|] eqn:E; [|by left].
  case_decide as Hp; [|by left]. pose proof (foldLocked_node c n id b now) as (Hh & _).
  destruct (foldLocked c n id b now) as [[n' s] ack]. cbn [fst snd] in *. unfold hists. simpl.
  rewrite fmap_insert, Hh. destruct (Buffered b) as [rs|].
  - right. by exists n, rs.
  - left. apply insert_id. by rewrite lookup_fmap, E.
Qed.
