(* ===== verification/UsageReads.v ===== *)
(** * What the page and the limits read of the usage

    Theorems on [internal/remotenodes/usage/read.go] and on what forgetting and
    missed polls leave of the numbers ([UsageCollector]). *)

From S2P Require Import Prelude History UsageFile UsageCollector.

(** A collector whose counts are all 64-bit. *)
Definition node_ok (n : node) : Prop :=
  hist_ok (hist n) /\ forall p, n_partial n = Some p -> bucket_ok (p_b p) /\ totals_ok (p_node p).

Definition collector_ok (c : Collector) : Prop :=
  map_Forall (fun _ n => node_ok n) (nodes c) /\ series_ok (retired c).

Lemma life_share_ok n sid : node_ok n -> totals_ok (life_share n sid).
Proof.
  intros [_ Hp]. unfold life_share. destruct (n_partial n) as [p|]; [|apply zero_ok].
  apply lookup_total_ok, (Hp p eq_refl).
Qed.

Lemma life_ok n sid : node_ok n -> totals_ok (life (hist n) !!! sid).
Proof. intros [Hh _]. apply lookup_total_ok, Hh. Qed.

Lemma shown_nonneg x sid n : node_ok n -> 0 <= shown x sid n.
Proof.
  intros Hn. pose proof (get_ok x _ (life_ok n sid Hn)). pose proof (get_ok x _ (life_share_ok n sid Hn)).
  unfold shown. word_lia.
Qed.

(** Adding two counts one after the other is adding their sum, capped. *)
Lemma get_plus_plus x t a b :
  totals_ok t -> totals_ok a -> totals_ok b ->
  get x (plus (plus t a) b) = Z.min (get x t + get x a + get x b) maxU64.
Proof.
  intros Ht Ha Hb. rewrite !get_plus by auto with usage.
  pose proof (get_ok x _ Ha). pose proof (get_ok x _ Hb). word_lia.
Qed.

(** A subscription's lifetime is what its nodes show, and what the removed ones
    counted. *)
Lemma lifetime_sum c sid x :
  collector_ok c ->
  get x (SubscriptionLifetime c sid) =
  Z.min (get x (retired c !!! sid) + msum (fun _ n => shown x sid n) (nodes c)) maxU64.
Proof.
  intros [Hn Hr]. unfold SubscriptionLifetime.
  assert (totals_ok (retired c !!! sid)) as Hret by (by apply lookup_total_ok).
  enough (forall m, map_Forall (fun _ n => node_ok n) m ->
    let r := map_fold (fun _ n t =>
      let t := plus t (life (hist n) !!! sid) in
      match n_partial n with Some p => plus t (b_subs (p_b p) !!! sid) | None => t end)
      (retired c !!! sid) m in
    totals_ok r /\ get x r = Z.min (get x (retired c !!! sid) + msum (fun _ n => shown x sid n) m) maxU64)
    as Hgen by apply (Hgen (nodes c) Hn).
  intros m. cbn zeta.
  apply (map_fold_weak_ind (fun r m => map_Forall (fun _ n => node_ok n) m -> totals_ok r /\
    get x r = Z.min (get x (retired c !!! sid) + msum (fun _ n => shown x sid n) m) maxU64)).
  - intros _. split; [done|]. rewrite msum_empty. pose proof (get_ok x _ Hret). word_lia.
  - intros id n m' r Hid IH Hm. apply map_Forall_insert in Hm as [Hok Hm]; [|done].
    destruct (IH Hm) as [Hro Hrg]. rewrite msum_insert by done.
    assert (match n_partial n with
            | Some p => plus (plus r (life (hist n) !!! sid)) (b_subs (p_b p) !!! sid)
            | None => plus r (life (hist n) !!! sid) end =
            plus (plus r (life (hist n) !!! sid)) (life_share n sid)) as ->.
    { unfold life_share. destruct (n_partial n); [done|].
      rewrite plus_zero_r; [done|]. apply plus_ok; [done|by apply life_ok]. }
    pose proof (life_ok n sid Hok) as H1. pose proof (life_share_ok n sid Hok) as H2.
    split; [auto with usage|]. rewrite get_plus_plus by done. rewrite Hrg. unfold shown at 2.
    assert (0 <= msum (fun _ n => shown x sid n) m').
    { apply msum_nonneg. intros k v Hk. by apply shown_nonneg, (Hm k). }
    pose proof (get_ok x _ H1). pose proof (get_ok x _ H2). pose proof (get_ok x _ Hret). word_lia.
Qed.

(** ** Removing a node *)

Lemma Forget_retired c id n sid :
  nodes c !! id = Some n -> hist_ok (hist n) -> series_ok (retired c) ->
  retired (Forget c id) !!! sid = plus (retired c !!! sid) (life (hist n) !!! sid) /\
  series_ok (retired (Forget c id)).
Proof.
  intros Hn Hh Hr. unfold Forget. cbn [retired]. rewrite Hn.
  assert (series_ok (life (hist n))) as Hl by apply Hh.
  revert Hl. apply (map_fold_weak_ind (fun (r' : gmap Z Totals) (m : gmap Z Totals) => series_ok m ->
    r' !!! sid = plus (retired c !!! sid) (m !!! sid) /\ series_ok r')).
  - intros _. split; [|done]. rewrite lookup_total_empty. rewrite plus_zero_r; [done|by apply lookup_total_ok].
  - intros k t m' r' Hk IH Hm. apply map_Forall_insert in Hm as [Ht Hm]; [|done].
    destruct (IH Hm) as [Hs Hok]. split.
    + destruct (decide (k = sid)) as [->|Hne].
      * rewrite !lookup_total_insert_eq, Hs, (lookup_total_alt m'), Hk. simpl.
        rewrite plus_zero_r; [done|by apply lookup_total_ok].
      * by rewrite !lookup_total_insert_ne by done.
    + apply map_Forall_insert_2; [|done]. apply plus_ok; [by apply lookup_total_ok|done].
Qed.

Lemma Forget_ok c id : collector_ok c -> collector_ok (Forget c id).
Proof.
  intros [Hn Hr]. split; [by apply map_Forall_delete|].
  destruct (nodes c !! id) as [n|] eqn:E.
  - apply (Forget_retired c id n 0 E); [apply (Hn id n E)|done].
  - simpl. by rewrite E.
Qed.

(** Removing a node keeps what was counted on it and gives back what was not:
    a subscription's lifetime after [Forget] is its lifetime before, less exactly
    its share of the bucket that was still growing on that node. *)
Theorem forget_keeps_counted c id n sid x :
  collector_ok c -> nodes c !! id = Some n ->
  get x (retired c !!! sid) + msum (fun _ n => shown x sid n) (nodes c) <= maxU64 ->
  get x (SubscriptionLifetime (Forget c id) sid) =
  get x (SubscriptionLifetime c sid) - get x (life_share n sid).
Proof.
  intros Hc Hn Hmax. pose proof Hc as [Hnodes Hret].
  pose proof (Hnodes id n Hn) as Hok.
  rewrite (lifetime_sum c) by done. rewrite lifetime_sum by by apply Forget_ok.
  destruct (Forget_retired c id n sid Hn (proj1 Hok) Hret) as [-> _].
  rewrite (msum_delete _ (nodes c) id n) in * by done. cbn [Forget nodes].
  rewrite get_plus; [|by apply lookup_total_ok|by apply life_ok].
  assert (0 <= msum (fun _ n => shown x sid n) (delete id (nodes c))).
  { apply msum_nonneg. intros k v [_ Hk]%lookup_delete_Some. by apply shown_nonneg, (Hnodes k). }
  pose proof (get_ok x _ (life_share_ok n sid Hok)). pose proof (get_ok x _ (life_ok n sid Hok)).
  pose proof (get_ok x _ (lookup_total_ok _ sid Hret)). 
  set (rest := msum _ (delete id (nodes c))) in *. clearbody rest. unfold shown in Hmax |- *. word_lia.
Qed.

(** A collector with one node that has counted 100 bytes of subscription 7 and
    shows 40 more in the bucket that is growing. *)
Definition forget_demo : Collector :=
  let h := MkHist ∅ ∅ zeroTotals {[ 7 := MkTotals 100 0 ]} 3600 in
  let n := MkNode 0 h 3600 None 0 false false true 0 zeroTime
    (Some (MkPartial 7200 (MkBucket {[ 7 := MkTotals 40 0 ]} zeroTotals) (MkTotals 40 0)))
    None zeroTime ∅ false zeroTime [] 0 0 newRing false in
  MkCollector 3 true {[ 1 := n ]} ∅ (encodeDoc ∅ ∅) false 0 1.

Lemma forget_demo_ok : collector_ok forget_demo.
Proof.
  split; [|apply map_Forall_empty]. apply map_Forall_singleton.
  assert (forall u, 0 <= u <= 1000 -> totals_ok (MkTotals u 0)) as Hu
    by (intros u Hu; split; simpl; word_lia).
  split.
  - split; simpl; [apply map_Forall_empty..|apply zero_ok|]. apply map_Forall_singleton, Hu. lia.
  - intros p [= <-]. split; [split|apply Hu; lia]; simpl; [|apply zero_ok].
    apply map_Forall_singleton, Hu. lia.
Qed.

(** 140 bytes before the node is removed, 100 after. *)
Lemma forget_keeps_counted_witness :
  Up (SubscriptionLifetime forget_demo 7) = 140 /\ Up (SubscriptionLifetime (Forget forget_demo 1) 7) = 100.
Proof.
  split; [vm_compute; reflexivity|].
  assert (exists n, nodes forget_demo !! 1 = Some n /\ life_share n 7 = MkTotals 40 0) as (n & Hn & Hs)
    by (eexists; split; reflexivity).
  change (get UpDir (SubscriptionLifetime (Forget forget_demo 1) 7) = 100).
  rewrite (forget_keeps_counted forget_demo 1 n 7 UpDir forget_demo_ok Hn);
    [rewrite Hs; vm_compute; reflexivity|vm_compute; discriminate].
Defined.

(** ** A node that stops answering *)

Fixpoint miss_polls (k : nat) (c : Collector) (id : Z) (p : nat) : Collector :=
  match k with O => c | S k => miss_polls k (PollError c id p) id p end.

Lemma PollError_node c id n :
  nodes c !! id = Some n -> nodes (PollError c id (ptr n)) !! id = Some (missLocked c n).
Proof.
  intros Hn. unfold PollError, update_ptr. rewrite Hn, decide_True by done. simpl. by rewrite lookup_insert_eq.
Qed.

Lemma missLocked_keeps c n :
  hist (missLocked c n) = hist n /\ n_partial (missLocked c n) = n_partial n /\
  ptr (missLocked c n) = ptr n /\ updatedAt (missLocked c n) = updatedAt n /\
  lastSeen (missLocked c n) = lastSeen n /\ n_ring (missLocked c n) = n_ring n.
Proof. unfold missLocked. by destruct (_ <=? _). Qed.

Lemma PollError_missed c id p : MissedPolls (PollError c id p) = MissedPolls c.
Proof. unfold PollError, update_ptr. destruct (nodes c !! id); [|done]. by case_decide. Qed.

Lemma miss_polls_node k c id n :
  nodes c !! id = Some n -> 0 <= misses n -> misses n + Z.of_nat k <= maxInt32 ->
  exists n', nodes (miss_polls k c id (ptr n)) !! id = Some n' /\
    misses n' = misses n + Z.of_nat k /\ hist n' = hist n /\ n_partial n' = n_partial n /\
    updatedAt n' = updatedAt n /\
    ((0 < k)%nat -> MissedPolls c <= misses n' ->
       live n' = false /\ online n' = None /\ rateUp n' = 0 /\ rateDown n' = 0).
Proof.
  revert c n. induction k as [|k IH]; intros c n Hn Hm Hmax.
  { exists n. split; [done|]. split; [lia|]. repeat (split; [done|]). lia. }
  destruct (missLocked_keeps c n) as (Kh & Kp & Kptr & Ku & _).
  assert (misses (missLocked c n) = misses n + 1) as Hm1.
  { unfold missLocked. destruct (Z.ltb_spec (misses n) maxInt32); [|lia]. by destruct (_ <=? _). }
  cbn [miss_polls].
  destruct (IH (PollError c id (ptr n)) (missLocked c n)) as (n' & Hn' & Hmis & Hh & Hp & Hu & Hdead).
  { by apply PollError_node. }
  { lia. }
  { lia. }
  rewrite Kptr in Hn'. exists n'. split; [done|]. split; [lia|].
  rewrite Hh, Hp, Hu, Kh, Kp, Ku. repeat (split; [done|]). intros _ Hle.
  rewrite PollError_missed in Hdead. destruct k as [|k]; [|apply Hdead; [lia|done]].
  simpl in Hn'. rewrite PollError_node in Hn' by done. injection Hn' as <-.
  unfold missLocked in *. destruct (Z.ltb_spec (misses n) maxInt32); [|lia].
  destruct (Z.leb_spec (MissedPolls c) (misses n + 1)); [done|]. simpl in Hle. lia.
Qed.

(** After [MissedPolls] polls in a row without an answer a node is not live:
    its rates, its online count and its connections read zero, and today's and
    the month's bytes read as before. *)
Theorem missed_polls_not_live c id n k now :
  nodes c !! id = Some n -> 0 <= misses n -> misses n + Z.of_nat k <= maxInt32 ->
  (0 < k)%nat -> MissedPolls c <= misses n + Z.of_nat k ->
  let u := Node (miss_polls k c id (ptr n)) id now in
  NU_Live u = false /\ NU_RateUp u = 0 /\ NU_RateDown u = 0 /\ NU_Online u = 0 /\ NU_Connections u = 0 /\
  NU_Today u = NU_Today (Node c id now) /\ NU_Month u = NU_Month (Node c id now) /\
  NU_UpdatedAt u = NU_UpdatedAt (Node c id now).
Proof.
  intros Hn Hm Hmax Hk Hle. cbn zeta.
  destruct (miss_polls_node k c id n Hn Hm Hmax) as (n' & Hn' & Hmis & Hh & Hp & Hu & Hdead).
  destruct Hdead as (Hl & _ & _ & _); [done|lia|]. unfold Node. rewrite Hn', Hn, Hl, Hh, Hp, Hu.
  destruct (window now) as [today from].
  destruct (sums (days (hist n)) (n_partial n) _ today from) as [t m]. by destruct (live n).
Qed.

Lemma missed_polls_not_live_witness :
  NU_Live (Node forget_demo 1 (8000 * second)) = true /\
  NU_Live (Node (miss_polls 3 forget_demo 1 0) 1 (8000 * second)) = false /\
  Up (NU_Today (Node (miss_polls 3 forget_demo 1 0) 1 (8000 * second))) = 40.
Proof.
  split; [vm_compute; reflexivity|].
  assert (exists n, nodes forget_demo !! 1 = Some n /\ misses n = 0 /\ ptr n = 0%nat) as (n & Hn & Hm & Hp)
    by (eexists; split; [reflexivity|split; reflexivity]).
  destruct (missed_polls_not_live forget_demo 1 n 3 (8000 * second) Hn) as (Hl & _ & _ & _ & _ & Ht & _).
  - rewrite Hm. lia.
  - rewrite Hm. unfold maxInt32. lia.
  - lia.
  - rewrite Hm. vm_compute. discriminate.
  - rewrite Hp in *. split; [exact Hl|]. rewrite Ht. vm_compute. reflexivity.
Defined.

(** ** Today and the month *)

(** The bytes of a series on the days [from] to [to]. *)
Definition days_sum (x : dir) (series : gmap Z Totals) (from to : Z) : Z :=
  msum (fun d t => if (from <=? d) && (d <=? to) then get x t else 0) series.

(** The page's month is the last thirty days with today among them: the
    series' bytes of those days, plus the growing bucket when its own day is one
    of them; and today is today's count, plus the growing bucket when it falls
    today. *)
Theorem sums_window series p share now x :
  series_ok series -> totals_ok share ->
  let '(today, from) := window now in
  let '(t, m) := sums series (Some p) share today from in
  today = Unix now / secondsPerDay /\ from = today - 29 /\
  get x t = Z.min (get x (series !!! today) +
                   (if decide (p_ts p / secondsPerDay = today) then get x share else 0)) maxU64 /\
  get x m = Z.min (days_sum x series from today +
                   (if decide (from <= p_ts p / secondsPerDay <= today) then get x share else 0)) maxU64.
Proof.
  intros Hs Ht. unfold window, sums, dayOfTime. rewrite !dayOf_floor.
  set (today := Unix now / secondsPerDay). set (d := p_ts p / secondsPerDay).
  destruct (span_sum series (today - (monthDays - 1)) today x Hs) as [Hmo Hm].
  pose proof (lookup_total_ok series today Hs) as Hto.
  pose proof (get_ok x _ Ht). pose proof (get_ok x _ Hto).
  split; [done|]. split; [unfold monthDays; lia|]. split.
  - destruct (Z.eqb_spec d today); [rewrite decide_True by done|rewrite decide_False by done].
    + by rewrite get_plus.
    + word_lia.
  - assert (0 <= days_sum x series (today - (monthDays - 1)) today) as Hn.
    { apply msum_nonneg. intros k t Hk. pose proof (get_ok x _ (Hs k t Hk)).
      destruct (_ && _); word_lia. }
    unfold days_sum in *.
    destruct (Z.leb_spec (today - (monthDays - 1)) d), (Z.leb_spec d today); cbn [andb].
    2-4: rewrite decide_False by lia; rewrite Hm; f_equal; lia.
    rewrite decide_True by lia. rewrite get_plus, Hm by done. word_lia.
Qed.

Lemma sums_window_witness :
  let series := {[ 19000 := MkTotals 5 0; 18970 := MkTotals 7 0; 18971 := MkTotals 11 0 ]} : gmap Z Totals in
  Up (sums series (Some (MkPartial (19000 * 86400) emptyBucket zeroTotals)) (MkTotals 3 0) 19000 18971).2 = 19.
Proof.
  cbn zeta. set (series := {[ 19000 := MkTotals 5 0; 18970 := MkTotals 7 0; 18971 := MkTotals 11 0 ]} : gmap Z Totals).
  assert (forall u, 0 <= u <= 1000 -> totals_ok (MkTotals u 0)) as Hu
    by (intros u Hu; split; simpl; word_lia).
  assert (series_ok series) as Hs.
  { unfold series. repeat apply map_Forall_insert_2; try (apply Hu; lia). apply map_Forall_empty. }
  pose proof (sums_window series (MkPartial (19000 * 86400) emptyBucket zeroTotals) (MkTotals 3 0)
    (19000 * 86400 * second) UpDir Hs (Hu 3 ltac:(lia))) as H.
  assert (window (19000 * 86400 * second) = (19000, 18971)) as Hw by (vm_compute; reflexivity).
  rewrite Hw in H. destruct (sums _ _ _ _ _) as [t m]. destruct H as (_ & _ & _ & Hm).
  cbn [snd]. change (Up m) with (get UpDir m). rewrite Hm. vm_compute. reflexivity.
Defined.
