(* ===== verification/UsageExact.v ===== *)
(** * Exactly-once counting between a node's agent and the hub

    The agent of one node ([AgentBuffer]), the hub's collector
    ([UsageCollector]) and the hub's disk as one transition system. Xray's
    counters are read by the agent at any time; a poll's answer is on its way
    while the agent goes on counting; a flush is split at the disk; an
    acknowledgement may arrive late, more than once, or never; the hub may crash
    between any two steps and start again from its file; other nodes are polled
    and forgotten meanwhile. *)

From S2P Require Import Prelude Emails History UsageFile AgentBuffer UsageCollector.

(** ** What is still to be counted *)

(** The bytes of an email in the agent's buckets past a mark. *)
Definition pending (x : dir) (e : string) (mark : Z) (bs : gmap Z TrafficBucket) : Z :=
  msum (fun ts b => if decide (mark < ts) then user_bytes x e (data b) else 0) bs.

(** Every byte a user moved is in the history's lifetime totals or in a bucket
    the history's mark has not passed, and never in both. *)
Definition exact (given : dir -> string -> Z) (h : nodeHist) (bs : gmap Z TrafficBucket) : Prop :=
  forall id x, sub_id id ->
    given x (SubscriptionEmail id) =
    get x (life h !!! id) + pending x (SubscriptionEmail id) (through h) bs.

Definition snap_ok (s : XrayStatsSnapshot) : Prop := counts_ok (UserUplink s) /\ counts_ok (UserDownlink s).

(** The records of a bundle the agent answers with. *)
Definition bundle_of (bs : gmap Z TrafficBucket) : list (option TrafficRecord) :=
  Some <$> (record_of <$> merge_sort ts_le (map_to_list bs).*2).

Lemma bundle_of_GetBufferedTraffic s :
  bundle_of (buckets s) = Some <$> Records (GetBufferedTraffic (Some s)).
Proof. done. Qed.

(** ** The records of an agent's store *)

Definition tb_ok (ts : Z) (b : TrafficBucket) : Prop :=
  Timestamp b = ts /\ snap_nonneg (data b) /\ snap_ok (data b).

Lemma bundle_of_ok (bs : gmap Z TrafficBucket) : map_Forall tb_ok bs -> bundle_ok (bundle_of bs).
Proof.
  intros Hb. unfold bundle_ok, bundle_of. rewrite !Forall_fmap, (merge_sort_Permutation ts_le), Forall_fmap.
  apply Forall_forall. intros [ts b] Hin%elem_of_map_to_list r [= <-]. apply (Hb ts b Hin).
Qed.

Lemma records_fold_store nodeID limit l bt ah :
  NoDup (Timestamp <$> l) -> (forall b, b ∈ l -> bt !! Timestamp b = None) ->
  let r := (foldl (records_step nodeID limit) (bt, ah) (Some <$> (record_of <$> l))).1 in
  (forall b, b ∈ l -> in_range limit (Timestamp b) ->
     r !! Timestamp b = Some (take_record nodeID emptyBucket (record_of b))) /\
  (forall ts, (forall b, b ∈ l -> Timestamp b = ts -> ~ in_range limit ts) -> r !! ts = bt !! ts).
Proof.
  cbn zeta. revert bt ah. induction l as [|b l IH]; intros bt ah Hnd Hbt.
  { split; [intros b Hb; by apply elem_of_nil in Hb|done]. }
  inversion Hnd as [|? ? Hni Hnd']; subst. rewrite !fmap_cons. cbn [foldl records_step].
  change (r_Timestamp (record_of b)) with (Timestamp b).
  assert (forall a, a ∈ l -> Timestamp a <> Timestamp b) as Hdiff.
  { intros a Ha He. apply Hni. rewrite <-He. by apply list_elem_of_fmap_2. }
  assert (forall a, a ∈ l -> bt !! Timestamp a = None) as Hbt' by (intros; apply Hbt; by right).
  destruct (Z.leb_spec (Timestamp b) 0) as [H0|H0]; [|destruct (Z.ltb_spec limit (Timestamp b)) as [H1|H1]].
  3: rewrite (Hbt b) by left; cbn [default from_option].
  all: match goal with |- context [foldl _ (?q, ?k) _] =>
         destruct (IH q k Hnd') as [I1 I2] end.
  1,3,5: intros a Ha; rewrite ?lookup_insert_ne by (symmetry; by apply Hdiff); by apply Hbt'.
  - split.
    + intros a [->|Ha]%elem_of_cons Hr; [unfold in_range in Hr; lia|by apply I1].
    + intros ts Hts. apply I2. intros a Ha. apply Hts. by right.
  - split.
    + intros a [->|Ha]%elem_of_cons Hr; [unfold in_range in Hr; lia|by apply I1].
    + intros ts Hts. apply I2. intros a Ha. apply Hts. by right.
  - split.
    + intros a [->|Ha]%elem_of_cons Hr; [|by apply I1].
      rewrite I2; [by rewrite lookup_insert_eq|]. intros c Hc He. by destruct (Hdiff c Hc).
    + intros ts Hts. rewrite I2.
      * rewrite lookup_insert_ne; [done|]. intros He. apply (Hts b); [left|done|]. unfold in_range. lia.
      * intros a Ha. apply Hts. by right.
Qed.

Lemma store_list (bs : gmap Z TrafficBucket) :
  map_Forall tb_ok bs ->
  NoDup (Timestamp <$> merge_sort ts_le (map_to_list bs).*2) /\
  forall b, b ∈ merge_sort ts_le (map_to_list bs).*2 <-> bs !! Timestamp b = Some b.
Proof.
  intros Hb. set (s := MkStore bs None 0 0).
  assert (buckets_ok (buckets s)) as Hbo by (intros ts b Hts; destruct (Hb ts b Hts) as (? & ? & _); done).
  split; [|intros b; apply (GetAll_elem s b Hbo)].
  pose proof (GetAll_sorted s Hbo) as Hs. unfold GetAll in Hs. cbn [buckets s] in Hs.
  induction Hs as [|b l Hs IH Hall]; [constructor|]. cbn. constructor; [|done].
  intros (a & He & Ha)%list_elem_of_fmap. rewrite Forall_forall in Hall.
  specialize (Hall a Ha). simpl in Hall. lia.
Qed.

(** What the hub reads of a store: for each bucket in range, its subscriptions'
    bytes. *)
Lemma records_store bs nodeID limit r :
  map_Forall tb_ok bs ->
  r ∈ (records (bundle_of bs) nodeID limit).1 <->
  exists b, bs !! rec_ts r = Some b /\ in_range limit (rec_ts r) /\
    rec_b r = take_record nodeID emptyBucket (record_of b) /\ rec_node r = bucket_node (rec_b r).
Proof.
  intros Hb. destruct (store_list bs Hb) as [Hnd Hel]. unfold records, bundle_of.
  destruct (records_fold_store nodeID limit _ ∅ 0 Hnd ltac:(intros; by rewrite lookup_empty)) as [R1 R2].
  destruct (foldl _ _ _) as [bt ah]. cbn [fst] in *.
  rewrite sort_on_perm, list_elem_of_fmap. split.
  - intros ([ts bk] & -> & Hin%elem_of_map_to_list). cbn [rec_ts rec_b rec_node fst snd].
    destruct (bs !! ts) as [b|] eqn:E.
    + assert (Timestamp b = ts) as Ht by apply (Hb ts b E).
      assert (b ∈ merge_sort ts_le (map_to_list bs).*2) as Hbin by (apply Hel; by rewrite Ht).
      destruct (decide (0 < ts <= limit)) as [Hr|Hr].
      * exists b. specialize (R1 b Hbin). rewrite Ht in R1. rewrite R1 in Hin by done.
        injection Hin as <-. done.
      * rewrite R2, lookup_empty in Hin; [done|]. intros a _ _. done.
    + rewrite R2, lookup_empty in Hin; [done|]. intros a Ha%Hel He. rewrite He in Ha. congruence.
  - intros (b & Hts & Hr & Hrb & Hrn). destruct r as [ts bk nd]. cbn [rec_ts rec_b rec_node] in *. subst.
    exists (ts, take_record nodeID emptyBucket (record_of b)). split; [done|].
    assert (Timestamp b = ts) as Ht by apply (Hb ts b Hts).
    apply elem_of_map_to_list. rewrite <-Ht. apply R1; [apply Hel; by rewrite Ht|by rewrite Ht].
Qed.

Lemma StronglySorted_lt_NoDup {A} (f : A -> Z) l : StronglySorted (fun a b => f a < f b) l -> NoDup l.
Proof.
  induction 1 as [|a l Hs IH Hall]; constructor; [|done].
  intros Ha. rewrite Forall_forall in Hall. specialize (Hall a Ha). simpl in Hall. lia.
Qed.

Definition rec_of (nodeID ts : Z) (b : TrafficBucket) : record :=
  let bk := take_record nodeID emptyBucket (record_of b) in MkRec ts bk (bucket_node bk).

Lemma records_store_perm bs nodeID limit :
  map_Forall tb_ok bs ->
  (records (bundle_of bs) nodeID limit).1 ≡ₚ
  (fun kv => rec_of nodeID kv.1 kv.2) <$> map_to_list (filter (fun kv => in_range limit kv.1) bs).
Proof.
  intros Hb. apply NoDup_Permutation.
  - destruct (records_sorted (bundle_of bs) nodeID limit (bundle_of_ok bs Hb)) as [Hs _].
    by apply (StronglySorted_lt_NoDup rec_ts).
  - apply (NoDup_fmap_1 rec_ts). rewrite <-list_fmap_compose. apply NoDup_fst_map_to_list.
  - intros r. rewrite records_store by done. rewrite list_elem_of_fmap. split.
    + intros (b & Hts & Hr & Hrb & Hrn). exists (rec_ts r, b). split.
      * destruct r. unfold rec_of. cbn in *. by subst.
      * apply elem_of_map_to_list, map_lookup_filter_Some. done.
    + intros ([ts b] & -> & Hin%elem_of_map_to_list). apply map_lookup_filter_Some in Hin as [Hts Hr].
      exists b. done.
Qed.

(** What a poll of the agent's store counts of a subscription. *)
Lemma records_store_sum bs nodeID limit lo newest id x :
  map_Forall tb_ok bs -> sub_id id ->
  lsum (fun r => if counted_in lo newest (rec_ts r) then get x (b_subs (rec_b r) !!! id) else 0)
    (records (bundle_of bs) nodeID limit).1 =
  msum (fun ts b => if decide ((lo < ts < newest) /\ in_range limit ts)
                    then user_bytes x (SubscriptionEmail id) (data b) else 0) bs.
Proof.
  intros Hb Hid. rewrite (lsum_perm _ _ _ (records_store_perm bs nodeID limit Hb)), lsum_fmap.
  rewrite <-(msum_lsum (fun ts b => if counted_in lo newest ts
    then get x (b_subs (take_record nodeID emptyBucket (record_of b)) !!! id) else 0)).
  rewrite msum_filter_if. cbn [fst].
  apply msum_ext. intros ts b Hts. destruct (Hb ts b Hts) as (_ & [Hu Hd] & Hok). unfold counted_in.
  rewrite take_record_sub by done.
  assert (nonNegative (record_bytes x (SubscriptionEmail id) (record_of b)) =
          user_bytes x (SubscriptionEmail id) (data b)) as ->.
  { pose proof (user_bytes_nonneg x (SubscriptionEmail id) (data b) (conj Hu Hd)) as Hn.
    unfold nonNegative. change (record_bytes x _ _) with (user_bytes x (SubscriptionEmail id) (data b)) || idtac.
    unfold record_bytes. destruct x; simpl in *; unfold user_bytes, user_counts in *;
      destruct (Z.ltb_spec (getZ (UserUplink (data b)) (SubscriptionEmail id)) 0);
      destruct (Z.ltb_spec (getZ (UserDownlink (data b)) (SubscriptionEmail id)) 0); simpl in *; lia. }
  destruct (Z.ltb_spec lo ts), (Z.ltb_spec ts newest); cbn [andb];
    repeat case_decide; lia || tauto.
Qed.

(** ** The agent's steps keep a history exact *)

Section agent_steps.
Context (given : dir -> string -> Z) (h : nodeHist).

Lemma pending_nonneg x e mark bs : map_Forall tb_ok bs -> 0 <= pending x e mark bs.
Proof.
  intros Hb. apply msum_nonneg. intros ts b Hts. case_decide; [|lia].
  apply user_bytes_nonneg, (Hb ts b Hts).
Qed.

Lemma pending_lookup_le x e mark bs ts b :
  map_Forall tb_ok bs -> bs !! ts = Some b -> mark < ts ->
  user_bytes x e (data b) <= pending x e mark bs.
Proof.
  intros Hb Hts Hlt.
  pose proof (msum_lookup_le (fun ts b => if decide (mark < ts) then user_bytes x e (data b) else 0) bs ts b) as Hle.
  simpl in Hle. rewrite decide_True in Hle by done. apply Hle; [|done].
  intros ts' b' Hts'. case_decide; [|lia]. apply user_bytes_nonneg, (Hb ts' b' Hts').
Qed.

(** Dropping buckets the mark has passed takes nothing that is still to be
    counted. *)
Lemma pending_filter (P : Z * TrafficBucket -> Prop) `{!forall k, Decision (P k)} x e mark bs :
  (forall ts b, bs !! ts = Some b -> mark < ts -> P (ts, b)) ->
  pending x e mark (filter P bs) = pending x e mark bs.
Proof.
  intros HP. unfold pending. rewrite msum_filter_if. apply msum_ext. intros ts b Hts.
  case_decide as H1; case_decide as H2; try done. destruct H1. by eapply HP.
Qed.

Lemma exact_filter (P : Z * TrafficBucket -> Prop) `{!forall k, Decision (P k)} bs :
  (forall ts b, bs !! ts = Some b -> through h < ts -> P (ts, b)) ->
  exact given h bs -> exact given h (filter P bs).
Proof. intros HP Hex id x Hid. rewrite pending_filter by done. by apply Hex. Qed.

Lemma exact_drain s t :
  t <= through h -> exact given h (buckets s) -> exact given h (buckets (Drain s t)).
Proof.
  intros Ht Hex. apply exact_filter; [|done]. intros ts b _ Hlt. cbn [fst]. lia.
Qed.

(** A delta goes in past the mark. *)
Lemma pending_accumulated s snap now mark x e :
  map_Forall tb_ok (buckets s) -> snap_nonneg snap -> mark < truncateTime s now ->
  pending x e mark (buckets s) + user_bytes x e snap <= maxI64 ->
  pending x e mark (accumulated s snap now) = pending x e mark (buckets s) + user_bytes x e snap.
Proof.
  intros Hb Hs Hm Hmax. unfold accumulated, pending. rewrite msum_insert_any. cbn [data].
  set (ts := truncateTime s now) in *. rewrite decide_True by done.
  pose proof (user_bytes_nonneg x e snap Hs). pose proof (pending_nonneg x e mark _ Hb).
  destruct (buckets s !! ts) as [b|] eqn:E; cbn [default from_option id data].
  - pose proof (pending_lookup_le x e mark _ ts b Hb E Hm).
    rewrite (msum_delete _ (buckets s) ts b) by done. rewrite decide_True by done.
    rewrite user_bytes_merge; [lia| |done|lia]. apply user_bytes_nonneg, (Hb ts b E).
  - rewrite delete_id by done.
    assert (user_bytes x e emptySnapshot = 0) as Hz by (by destruct x).
    rewrite user_bytes_merge, Hz; unfold pending in *; lia.
Qed.
End agent_steps.

(** ** A poll's answer keeps a history exact

    [s0] is the store as it was when the agent answered; since then the agent
    has only added past its newest bucket and dropped what the mark has passed. *)

Definition answer_of (h : nodeHist) (s0 bs : gmap Z TrafficBucket) : Prop :=
  forall ts ts', through h < ts -> ts < ts' -> is_Some (s0 !! ts') -> bs !! ts = s0 !! ts.

Section poll_step.
Context (given : dir -> string -> Z) (h : nodeHist) (disk nodeID limit : Z).
Context (s0 bs : gmap Z TrafficBucket).
Context (Hok : hist_ok h) (Hthr : 0 <= through h).
Context (Hs0 : map_Forall tb_ok s0) (Hbs : map_Forall tb_ok bs) (Hans : answer_of h s0 bs).

Definition recs0 : list record := (records (bundle_of s0) nodeID limit).1.
Definition h1 : nodeHist := f_hist (fold_records h disk recs0).

Lemma recs0_wf :
  StronglySorted (fun a b => rec_ts a < rec_ts b) recs0 /\ Forall (fun r => bucket_ok (rec_b r)) recs0.
Proof.
  destruct (records_sorted (bundle_of s0) nodeID limit (bundle_of_ok s0 Hs0)) as (Hs & Hw & _).
  split; [done|]. eapply Forall_impl; [exact Hw|]. intros r Hr. apply Hr.
Qed.

Lemma h1_folded : folded (newest_of recs0) h recs0 h1.
Proof.
  destruct recs0_wf as [Hs Hb].
  apply (fold_record_folded disk (newest_of recs0) recs0 (MkFolding h zeroTotals zeroTotals None false));
    done.
Qed.

Lemma newest_in r : r ∈ recs0 -> is_Some (s0 !! newest_of recs0).
Proof.
  intros Hr. unfold newest_of. destruct (last recs0) as [r'|] eqn:E.
  - apply last_Some_elem_of in E. unfold recs0 in E. rewrite records_store in E by done.
    destruct E as (b & E & _). simpl. by rewrite E.
  - apply last_None in E. rewrite E in Hr. by apply elem_of_nil in Hr.
Qed.

(** The mark moves to a bucket that is not the newest. *)
Lemma h1_mark :
  through h1 = through h \/ exists ts', is_Some (s0 !! ts') /\ through h1 < ts'.
Proof.
  destruct (fo_mark _ _ _ _ h1_folded) as [He|(r & Hr & -> & Hlt)]; [by left|right].
  exists (newest_of recs0). split; [by apply (newest_in r)|done].
Qed.

(** What is counted is what the agent holds between the two marks. *)
Lemma counted_filter :
  filter (fun kv => through h < kv.1 <= through h1) bs =
  filter (fun kv => (through h < kv.1 < newest_of recs0) /\ in_range limit kv.1) s0.
Proof.
  apply map_eq. intros ts. apply option_eq. intros b. rewrite !map_lookup_filter_Some. cbn [fst].
  destruct h1_folded as [_ _ _ Hall Hmark]. split.
  - intros [Hb [Hlo Hhi]]. destruct Hmark as [He|(r & Hr & He & Hlt)]; [lia|].
    assert (bs !! ts = s0 !! ts) as Heq.
    { apply (Hans ts (newest_of recs0)); [done|lia|by apply (newest_in r)]. }
    unfold recs0 in Hr. rewrite records_store in Hr by done. destruct Hr as (? & _ & [? ?] & _).
    rewrite <-Heq. split; [done|]. split; [lia|]. split; lia.
  - intros [Hb [[Hlo Hhi] Hr]].
    assert (rec_of nodeID ts b ∈ recs0) as Hin.
    { unfold recs0. rewrite records_store by done. exists b. done. }
    assert (bs !! ts = s0 !! ts) as Heq.
    { apply (Hans ts (newest_of recs0)); [done|done|by eapply newest_in]. }
    rewrite Heq. split; [done|]. split; [done|]. by apply (Hall _ Hin).
Qed.

Lemma exact_fold :
  (forall x e, given x e <= maxI64) -> exact given h bs -> exact given h1 bs.
Proof.
  intros Hmax Hex id x Hid. specialize (Hex id x Hid). specialize (Hmax x (SubscriptionEmail id)).
  destruct h1_folded as [_ Hlife Hmono _ _]. rewrite Hlife. unfold recs0 at 2.
  rewrite records_store_sum by done. fold recs0.
  set (ub := fun (_ : Z) (b : TrafficBucket) => user_bytes x (SubscriptionEmail id) (data b)).
  pose proof (msum_filter_if ub bs (fun kv => through h < kv.1 <= through h1)) as E1.
  pose proof (msum_filter_if ub s0 (fun kv => (through h < kv.1 < newest_of recs0) /\ in_range limit kv.1)) as E2.
  rewrite counted_filter, E2 in E1. cbn [fst] in E1. unfold ub in E1. rewrite E1.
  pose proof (pending_nonneg x (SubscriptionEmail id) (through h1) bs Hbs) as Hn.
  assert (pending x (SubscriptionEmail id) (through h) bs =
    msum (fun ts b => if decide (through h < ts <= through h1)
                      then user_bytes x (SubscriptionEmail id) (data b) else 0) bs +
    pending x (SubscriptionEmail id) (through h1) bs) as Hsplit.
  { unfold pending. rewrite <-msum_plus. apply msum_ext. intros ts b _.
    repeat case_decide; lia. }
  word_lia.
Qed.
End poll_step.

(** ** The system *)

(** A poll of the node: none, waiting for the agent, or the agent's answer on
    its way, with the store as it was when the agent answered. *)
Inductive poll_phase :=
| PollIdle
| PollWaiting (p : nat)
| PollAnswered (p : nat) (s0 : gmap Z TrafficBucket).

(** A flush: none, the bytes about to be written, or written. *)
Inductive write_phase :=
| WriteIdle
| WritePending (e : fileBytes) (marks : gmap Z Z)
| WriteWritten (marks : gmap Z Z).

Record sys := MkSys {
  s_agent : AgentBuffer.Collector;
  s_clock : Z;                      (* the agent's clock at its last reading *)
  s_given : dir -> string -> Z;     (* the bytes Xray has counted, by user *)
  s_hub : Collector;
  s_disk : readFile;
  s_poll : poll_phase;
  s_write : write_phase;
  s_acks : list Z                   (* acknowledgements sent, at any time from now *)
}.

Definition agent_buckets (s : sys) : gmap Z TrafficBucket := buckets (store (s_agent s)).

(** The history of node [N] in memory, and as a hub started now would load it. *)
Definition mem_hist (N : Z) (c : Collector) : nodeHist := default newNodeHist (hists c !! N).

Definition file_view (N : Z) (r : readFile) : nodeHist :=
  let '((hs, _), _, _) := load r in default newNodeHist (hs !! N).

(** The bytes a reading adds to what a user has moved. *)
Definition reading_bytes (a : AgentBuffer.Collector) (st : XrayStatsSnapshot) (x : dir) (e : string) : Z :=
  delivered (base_bytes x e (baseline a)) [user_bytes x e st].

Definition ack_list (N : Z) (c : Collector) : list Z :=
  j_through <$> filter (fun j => j_id j = N) (ack_jobs c).

(** One step of the system, for node [N] whose agent is reached through [sr]. *)
Inductive step (N : Z) (sr : Source) : sys -> sys -> Prop :=
(** The agent reads Xray's counters. Its clock does not go back, its counters
    stay within an int64, and it does not throw away for age a bucket the hub's
    file does not count yet. *)
| step_collect s st now :
    s_clock s <= now ->
    snap_nonneg st -> (forall x e, user_bytes x e st <= maxI64) ->
    (forall x e, s_given s x e + reading_bytes (s_agent s) st x e <= maxI64) ->
    (forall ts, through (file_view N (s_disk s)) < ts ->
       is_Some (accumulated (store (s_agent s)) (diffSnapshot (baseline (s_agent s)) (Some st)) now !! ts) ->
       cutoff (store (s_agent s)) now <= ts) ->
    step N sr s (MkSys (collect (s_agent s) (Some st) now) now
      (fun x e => s_given s x e + reading_bytes (s_agent s) st x e)
      (s_hub s) (s_disk s) (s_poll s) (s_write s) (s_acks s))
(** Xray does not answer the agent. *)
| step_collect_miss s now :
    step N sr s (MkSys (collect (s_agent s) None now) (s_clock s) (s_given s)
      (s_hub s) (s_disk s) (s_poll s) (s_write s) (s_acks s))
| step_poll_start s c p :
    s_poll s = PollIdle -> PollStart (s_hub s) N sr = (c, p) ->
    step N sr s (MkSys (s_agent s) (s_clock s) (s_given s) c (s_disk s) (PollWaiting p)
      (s_write s) (s_acks s))
(** The agent answers a poll. *)
| step_poll_answer s p :
    s_poll s = PollWaiting p ->
    step N sr s (MkSys (s_agent s) (s_clock s) (s_given s) (s_hub s) (s_disk s)
      (PollAnswered p (agent_buckets s)) (s_write s) (s_acks s))
(** The poll fails, before or after the agent answered. *)
| step_poll_error s p :
    s_poll s = PollWaiting p \/ (exists s0, s_poll s = PollAnswered p s0) ->
    step N sr s (MkSys (s_agent s) (s_clock s) (s_given s) (PollError (s_hub s) N p) (s_disk s)
      PollIdle (s_write s) (s_acks s))
(** The answer is taken in; a mark to acknowledge goes out. *)
| step_poll_fold s p s0 ips now c smp ack :
    s_poll s = PollAnswered p s0 -> clock_ok now ->
    PollFold (s_hub s) N p (MkBundle (Some (bundle_of s0)) ips) now = (c, smp, ack) ->
    step N sr s (MkSys (s_agent s) (s_clock s) (s_given s) c (s_disk s)
      PollIdle (s_write s) (if 0 <? ack then ack :: s_acks s else s_acks s))
(** The answer comes without the buffered traffic. *)
| step_poll_bare s p s0 ips now c smp ack :
    s_poll s = PollAnswered p s0 ->
    PollFold (s_hub s) N p (MkBundle None ips) now = (c, smp, ack) ->
    step N sr s (MkSys (s_agent s) (s_clock s) (s_given s) c (s_disk s)
      PollIdle (s_write s) (s_acks s))
(** An acknowledgement reaches the agent; it may do so again. *)
| step_ack_agent s t st :
    t ∈ s_acks s -> AckBufferedTraffic (Some (store (s_agent s))) t = Some st ->
    step N sr s (MkSys (AgentBuffer.MkCollector st (baseline (s_agent s))) (s_clock s) (s_given s)
      (s_hub s) (s_disk s) (s_poll s) (s_write s) (s_acks s))
(** The hub hears, or doesn't, that an acknowledgement arrived. *)
| step_ack_reply s p t ok :
    step N sr s (MkSys (s_agent s) (s_clock s) (s_given s) (AckDone (s_hub s) N p t ok) (s_disk s)
      (s_poll s) (s_write s) (s_acks s))
| step_poll_acked s p t ok :
    step N sr s (MkSys (s_agent s) (s_clock s) (s_given s) (PollAcked (s_hub s) N p t ok) (s_disk s)
      (s_poll s) (s_write s) (s_acks s))
| step_flush_begin s now c e marks :
    s_write s = WriteIdle -> noWrite (s_hub s) = false -> WriteBegin (s_hub s) now = (c, e, marks) ->
    step N sr s (MkSys (s_agent s) (s_clock s) (s_given s) c (s_disk s)
      (s_poll s) (WritePending e marks) (s_acks s))
| step_flush_write s e marks :
    s_write s = WritePending e marks -> writeNeeded (s_hub s) e = true ->
    step N sr s (MkSys (s_agent s) (s_clock s) (s_given s) (WriteDone (s_hub s) e) (Contents e)
      (s_poll s) (WriteWritten marks) (s_acks s))
| step_flush_same s e marks :
    s_write s = WritePending e marks -> writeNeeded (s_hub s) e = false ->
    step N sr s (MkSys (s_agent s) (s_clock s) (s_given s) (s_hub s) (s_disk s)
      (s_poll s) (WriteWritten marks) (s_acks s))
(** The atomic write fails and leaves the old file. *)
| step_flush_fail s e marks :
    s_write s = WritePending e marks -> writeNeeded (s_hub s) e = true ->
    step N sr s (MkSys (s_agent s) (s_clock s) (s_given s) (s_hub s) (s_disk s)
      (s_poll s) WriteIdle (s_acks s))
| step_flush_end s marks c :
    s_write s = WriteWritten marks -> c = WriteEnd (s_hub s) marks ->
    step N sr s (MkSys (s_agent s) (s_clock s) (s_given s) c (s_disk s)
      (s_poll s) WriteIdle (ack_list N c ++ s_acks s))
(** The hub stops without a word and starts again from its file. *)
| step_crash s cfg moved now c d :
    Open cfg (s_disk s) moved now = (c, d) ->
    step N sr s (MkSys (s_agent s) (s_clock s) (s_given s) c d PollIdle WriteIdle (s_acks s))
(** Another node is polled, or removed. *)
| step_other_start s id so c p :
    id <> N -> id <> 0 -> PollStart (s_hub s) id so = (c, p) ->
    step N sr s (MkSys (s_agent s) (s_clock s) (s_given s) c (s_disk s) (s_poll s) (s_write s) (s_acks s))
| step_other_error s id p :
    id <> N -> step N sr s (MkSys (s_agent s) (s_clock s) (s_given s) (PollError (s_hub s) id p) (s_disk s)
      (s_poll s) (s_write s) (s_acks s))
| step_other_fold s id p rs ips now c smp ack :
    id <> N -> clock_ok now -> bundle_ok rs ->
    PollFold (s_hub s) id p (MkBundle (Some rs) ips) now = (c, smp, ack) ->
    step N sr s (MkSys (s_agent s) (s_clock s) (s_given s) c (s_disk s) (s_poll s) (s_write s) (s_acks s))
| step_other_acked s id p t ok :
    id <> N -> step N sr s (MkSys (s_agent s) (s_clock s) (s_given s) (PollAcked (s_hub s) id p t ok) (s_disk s)
      (s_poll s) (s_write s) (s_acks s))
| step_other_forget s id :
    id <> N -> step N sr s (MkSys (s_agent s) (s_clock s) (s_given s) (Forget (s_hub s) id) (s_disk s)
      (s_poll s) (s_write s) (s_acks s)).

(** A node that has just been added: nothing counted, no file, no acknowledgement. *)
Definition init (secs ret clock cfg now : Z) : sys :=
  MkSys (Start (NewMemoryStore secs ret)) clock (fun _ _ => 0)
    (Open cfg NotExist false now).1 NotExist PollIdle WriteIdle [].

Definition good_clock (secs clock : Z) : Prop := 0 < secs /\ secs <= Unix clock.

Inductive reachable (N : Z) (sr : Source) : sys -> Prop :=
| reach_init secs ret clock cfg now :
    good_clock secs clock -> reachable N sr (init secs ret clock cfg now)
| reach_step s s' : reachable N sr s -> step N sr s s' -> reachable N sr s'.

(** ** The invariant *)

Definition marks_le (N : Z) (marks : gmap Z Z) (m : Z) : Prop :=
  forall k, marks !! N = Some k -> k <= m.

(** A history of node [N] that accounts for every byte: what a hub that held it
    could go on from. *)
Record sound_at (a : AgentBuffer.Collector) (clock : Z) (given : dir -> string -> Z) (h : nodeHist) : Prop := {
  so_ok : hist_ok h;
  so_exact : exact given h (buckets (store a));
  so_low : 0 <= through h;
  so_high : through h < truncateTime (store a) clock
}.

Definition sound (s : sys) (h : nodeHist) : Prop := sound_at (s_agent s) (s_clock s) (s_given s) h.

(** Buckets as the agent keeps them, none past its clock. *)
Definition store_wf (st : MemoryStore) (clock : Z) (bs : gmap Z TrafficBucket) : Prop :=
  map_Forall (fun ts b => tb_ok ts b /\ ts <= truncateTime st clock) bs.

Record agent_inv_at (a : AgentBuffer.Collector) (clock : Z) (given : dir -> string -> Z) : Prop := {
  ai_secs : good_clock (bucketSecs (store a)) clock;
  ai_base : base_ok (baseline a);
  ai_buckets : store_wf (store a) clock (buckets (store a));
  ai_stored : forall x e, stored x e (buckets (store a)) <= given x e;
  ai_max : forall x e, given x e <= maxI64
}.

Definition agent_inv (s : sys) : Prop := agent_inv_at (s_agent s) (s_clock s) (s_given s).

(** Bytes of the collector's making. *)
Definition good_bytes (e : fileBytes) : Prop :=
  exists hs ret, e = encodeDoc hs ret /\ hists_wf hs /\ file_retired ret.

Record hub_inv (N : Z) (s : sys) : Prop := {
  hi_node : N <> 0;
  hi_path : hasPath (s_hub s) = true;
  hi_nw : noWrite (s_hub s) = false;
  hi_hists : hists_wf (hists (s_hub s));
  hi_retired : file_retired (retired (s_hub s));
  hi_mem : sound s (mem_hist N (s_hub s));
  hi_file : sound s (file_view N (s_disk s));
  hi_order : through (file_view N (s_disk s)) <= through (mem_hist N (s_hub s));
  hi_disk : s_disk s = NotExist \/ exists e, s_disk s = Contents e /\ good_bytes e;
  hi_enc : good_bytes (enc (s_hub s)) /\ file_view N (Contents (enc (s_hub s))) = file_view N (s_disk s);
  hi_mark : forall n, nodes (s_hub s) !! N = Some n -> diskThrough n <= through (file_view N (s_disk s));
  hi_acks : Forall (fun t => t <= through (file_view N (s_disk s))) (s_acks s);
  hi_write : match s_write s with
             | WriteIdle => True
             | WritePending e marks =>
                 good_bytes e /\ sound s (file_view N (Contents e)) /\
                 through (file_view N (s_disk s)) <= through (file_view N (Contents e)) <=
                 through (mem_hist N (s_hub s)) /\
                 marks_le N marks (through (file_view N (Contents e)))
             | WriteWritten marks => marks_le N marks (through (file_view N (s_disk s)))
             end;
  hi_poll : match s_poll s with
            | PollAnswered p s0 =>
                store_wf (store (s_agent s)) (s_clock s) s0 /\
                answer_of (mem_hist N (s_hub s)) s0 (agent_buckets s)
            | _ => True
            end
}.

Definition inv (N : Z) (s : sys) : Prop := agent_inv s /\ hub_inv N s.

(** * Preservation *)

(** ** The agent *)

Lemma counts_ok_merge d s : counts_ok d -> counts_ok (merge_counts d s).
Proof.
  intros Hd k v. rewrite merge_counts_lookup. destruct (s !! k) as [w|]; [|by apply (Hd k)].
  intros [= <-]. apply wrapS_range.
Qed.

Lemma snap_ok_merge d s : snap_ok d -> snap_ok (merge_snapshot d s).
Proof. intros []. split; by apply counts_ok_merge. Qed.

Lemma store_wf_tb st clock bs : store_wf st clock bs -> map_Forall tb_ok bs.
Proof. intros H ts b Hts. apply (H ts b Hts). Qed.

Lemma tb_buckets_ok bs : map_Forall tb_ok bs -> buckets_ok bs.
Proof. intros H ts b Hts. destruct (H ts b Hts) as (? & ? & _). done. Qed.

Lemma truncateTime_mono st a b :
  good_clock (bucketSecs st) a -> a <= b -> truncateTime st a <= truncateTime st b.
Proof.
  intros [Hs Hc] Hle.
  assert (0 <= a) as Ha.
  { destruct (Z.le_gt_cases 0 a) as [|Hn]; [done|]. unfold Unix in Hc.
    assert (a / second < 0) by (apply Z.div_lt_upper_bound; [reflexivity|lia]). lia. }
  by apply (truncateTime_ge (bucketSecs st) a Hs Ha st b eq_refl).
Qed.

Lemma truncateTime_set st bs bl a :
  truncateTime (MkStore bs bl (bucketSecs st) (retention st)) a = truncateTime st a.
Proof. done. Qed.

Lemma stored_filter_le (P : Z * TrafficBucket -> Prop) `{!forall k, Decision (P k)} x e bs :
  map_Forall tb_ok bs -> stored x e (filter P bs) <= stored x e bs.
Proof.
  intros Hb. unfold stored. rewrite msum_filter_if.
  enough (0 <= msum (fun k v => if decide (P (k, v)) then 0 else user_bytes x e (data v)) bs) as Hn.
  { rewrite (msum_ext (fun _ b => user_bytes x e (data b)) (fun k v =>
      (if decide (P (k, v)) then user_bytes x e (data v) else 0) +
      (if decide (P (k, v)) then 0 else user_bytes x e (data v)))); [rewrite msum_plus; lia|].
    intros k v _. case_decide; lia. }
  apply msum_nonneg. intros ts b Hts. case_decide; [lia|]. apply user_bytes_nonneg, (Hb ts b Hts).
Qed.

(** What a reading does to the buckets. *)
Definition reading_delta (a : AgentBuffer.Collector) (st : XrayStatsSnapshot) : XrayStatsSnapshot :=
  diffSnapshot (baseline a) (Some st).

Section reading.
Context (a : AgentBuffer.Collector) (clock now : Z) (given : dir -> string -> Z) (st : XrayStatsSnapshot).
Context (Ha : agent_inv_at a clock given) (Hclock : clock <= now).
Context (Hnn : snap_nonneg st) (Hmx : forall x e, user_bytes x e st <= maxI64).
Context (Hmax : forall x e, given x e + reading_bytes a st x e <= maxI64).

Let delta := reading_delta a st.
Let given' := fun x e => given x e + reading_bytes a st x e.

Lemma delta_bytes x e : user_bytes x e delta = reading_bytes a st x e.
Proof.
  unfold delta, reading_delta, reading_bytes. rewrite diffSnapshot_bytes; [|done|apply Ha|apply Hmx].
  cbn [delivered]. lia.
Qed.

Lemma delta_nonneg : snap_nonneg delta.
Proof. apply diffSnapshot_nonneg; [done|apply Ha|apply Hmx]. Qed.

Lemma collect_buckets :
  let bs := buckets (store (collect a (Some st) now)) in
  (bs = buckets (store a) /\ forall x e, reading_bytes a st x e = 0) \/
  bs = filter (fun kv => ~ kv.1 < cutoff (store a) now) (accumulated (store a) delta now).
Proof.
  cbn zeta. unfold collect. cbn zeta.
  change (diffSnapshot (baseline a) (Some (MkSnap (UserUplink st) (UserDownlink st) (InboundUplink st)
    (InboundDownlink st) (OutboundUplink st) (OutboundDownlink st) (TotalUplink st) (TotalDownlink st) ∅)))
    with delta.
  destruct (snapshotIsEmpty (Some delta)) eqn:E; [left|right; done].
  split; [done|]. intros x e. rewrite <-delta_bytes. by apply snapshotIsEmpty_bytes.
Qed.

Lemma accumulated_tb : map_Forall tb_ok (accumulated (store a) delta now).
Proof.
  pose proof (store_wf_tb _ _ _ (ai_buckets _ _ _ Ha)) as Hb.
  assert (buckets_ok (accumulated (store a) delta now)) as Hbo.
  { apply accumulated_ok; [by apply tb_buckets_ok|apply delta_nonneg|]. intros x e. rewrite delta_bytes.
    pose proof (ai_stored _ _ _ Ha x e). specialize (Hmax x e). lia. }
  intros ts b Hts. destruct (Hbo ts b Hts) as [? ?]. split; [done|]. split; [done|].
  unfold accumulated in Hts. apply lookup_insert_Some in Hts as [[_ <-]|[_ Hts]]; [|apply (Hb ts b Hts)].
  apply snap_ok_merge. destruct (buckets (store a) !! truncateTime (store a) now) as [b'|] eqn:E;
    cbn; [apply (Hb _ _ E)|split; apply map_Forall_empty].
Qed.

Lemma reading_agent : agent_inv_at (collect a (Some st) now) now given'.
Proof.
  pose proof (store_wf_tb _ _ _ (ai_buckets _ _ _ Ha)) as Hb.
  pose proof (truncateTime_mono _ _ _ (ai_secs _ _ _ Ha) Hclock) as Hmono.
  assert (bucketSecs (store (collect a (Some st) now)) = bucketSecs (store a)) as Hsecs.
  { unfold collect. cbn zeta. by destruct (snapshotIsEmpty _). }
  assert (truncateTime (store (collect a (Some st) now)) now = truncateTime (store a) now) as Htr.
  { unfold truncateTime. by rewrite Hsecs. }
  split.
  - rewrite Hsecs. destruct (ai_secs _ _ _ Ha) as [? Hc]. split; [done|].
    etransitivity; [exact Hc|]. apply Z.div_le_mono; [reflexivity|done].
  - unfold collect. exact Hnn.
  - intros ts b. rewrite Htr. destruct collect_buckets as [[-> _]| ->].
    + intros Hts. destruct (ai_buckets _ _ _ Ha ts b Hts). split; [done|lia].
    + intros [Hts _]%map_lookup_filter_Some. split; [by apply accumulated_tb|].
      unfold accumulated in Hts. apply lookup_insert_Some in Hts as [[<- _]|[_ Hts]]; [done|].
      destruct (ai_buckets _ _ _ Ha ts b Hts). lia.
  - intros x e. unfold given'. pose proof (ai_stored _ _ _ Ha x e).
    destruct collect_buckets as [[-> Hz]| ->]; [rewrite Hz; lia|].
    etransitivity; [apply stored_filter_le, accumulated_tb|].
    rewrite accumulated_stored; [|by apply tb_buckets_ok|apply delta_nonneg|]; rewrite delta_bytes; [lia|].
    specialize (Hmax x e). lia.
  - exact Hmax.
Qed.

(** A reading goes in past every mark, and nothing still to be counted goes. *)
Lemma reading_sound h :
  sound_at a clock given h ->
  (forall ts, through h < ts -> is_Some (accumulated (store a) delta now !! ts) -> cutoff (store a) now <= ts) ->
  sound_at (collect a (Some st) now) now given' h.
Proof.
  intros [Hok Hex Hlo Hhi] Hcut.
  pose proof (store_wf_tb _ _ _ (ai_buckets _ _ _ Ha)) as Hb.
  pose proof (truncateTime_mono _ _ _ (ai_secs _ _ _ Ha) Hclock) as Hmono.
  split; [done| |done|].
  - intros id x Hid. unfold given'. rewrite (Hex id x Hid).
    destruct collect_buckets as [[-> Hz]| ->]; [rewrite Hz; lia|].
    rewrite pending_filter.
    + rewrite pending_accumulated; [|done|apply delta_nonneg|lia|]; rewrite delta_bytes; [lia|].
      specialize (Hmax x (SubscriptionEmail id)). rewrite (Hex id x Hid) in Hmax.
      pose proof (get_ok x _ (lookup_total_ok (life h) id (hok_life h Hok))) as [? _]. lia.
    + intros ts b Hts Hlt. cbn [fst]. specialize (Hcut ts Hlt). rewrite Hts in Hcut.
      specialize (Hcut ltac:(by eexists)). lia.
  - unfold collect. cbn zeta. destruct (snapshotIsEmpty _); cbn; unfold truncateTime in *; cbn in *; lia.
Qed.

Lemma reading_answer h s0 :
  store_wf (store a) clock s0 -> answer_of h s0 (buckets (store a)) ->
  (forall ts, through h < ts -> is_Some (accumulated (store a) delta now !! ts) -> cutoff (store a) now <= ts) ->
  store_wf (store (collect a (Some st) now)) now s0 /\
  answer_of h s0 (buckets (store (collect a (Some st) now))).
Proof.
  intros Hs0 Hans Hcut.
  pose proof (truncateTime_mono _ _ _ (ai_secs _ _ _ Ha) Hclock) as Hmono. split.
  - intros ts b Hts. destruct (Hs0 ts b Hts) as [? ?]. split; [done|].
    etransitivity; [exact H0|]. unfold collect. cbn zeta. by destruct (snapshotIsEmpty _).
  - intros ts ts' Hlo Hlt [b' Hb']. destruct (Hs0 ts' b' Hb') as [_ Hle].
    destruct collect_buckets as [[-> _]| ->]; [by apply (Hans ts ts'); eauto|].
    rewrite <-(Hans ts ts' Hlo Hlt) by (by eexists).
    rewrite map_lookup_filter. unfold accumulated at 1. rewrite lookup_insert_ne by lia.
    destruct (buckets (store a) !! ts) as [b|] eqn:E; [|done]. cbn [mbind option_bind fst].
    rewrite option_guard_True; [done|]. apply Z.le_ngt, Hcut; [done|].
    unfold accumulated. rewrite lookup_insert_ne by lia. by eexists.
Qed.
End reading.

(** Dropping what a mark has passed. *)
Lemma drain_agent a clock given t :
  agent_inv_at a clock given ->
  agent_inv_at (AgentBuffer.MkCollector (Drain (store a) t) (baseline a)) clock given.
Proof.
  intros [Hs Hb Hw Hst Hm]. split; try done.
  - intros ts b [Hts _]%map_lookup_filter_Some. apply (Hw ts b Hts).
  - intros x e. etransitivity; [|apply Hst]. apply stored_filter_le. by eapply store_wf_tb.
Qed.

Lemma drain_sound a clock given t h :
  t <= through h -> sound_at a clock given h ->
  sound_at (AgentBuffer.MkCollector (Drain (store a) t) (baseline a)) clock given h.
Proof. intros Ht [Hok Hex Hlo Hhi]. split; try done. by apply exact_drain. Qed.

Lemma drain_answer a t h s0 :
  t <= through h -> answer_of h s0 (buckets (store a)) ->
  answer_of h s0 (buckets (Drain (store a) t)).
Proof.
  intros Ht Hans ts ts' Hlo Hlt Hs. rewrite Drain_lookup, decide_False by lia. by apply (Hans ts ts').
Qed.

(** ** The file *)

Lemma hist_empty_new h : hist_empty h = true -> h = newNodeHist.
Proof.
  unfold hist_empty. rewrite !andb_true_iff, !bool_decide_eq_true, isZero_true, Z.eqb_eq.
  intros ((((Hd & Hs) & Hl) & Hb) & Ht). destruct h. simpl in *. by subst.
Qed.

Lemma default_kept (hs : gmap Z nodeHist) N :
  default newNodeHist (kept_nodes hs !! N) = default newNodeHist (hs !! N).
Proof.
  unfold kept_nodes. rewrite map_lookup_filter. destruct (hs !! N) as [h|]; [|done].
  cbn [mbind option_bind]. case_guard as Hg; [done|]. cbn in *.
  apply not_false_is_true in Hg. by rewrite (hist_empty_new h Hg).
Qed.

Lemma hists_wf_file hs : hists_wf hs -> file_nodes hs.
Proof. intros H id h Hid. destruct (H id h Hid) as (? & _ & ?). done. Qed.

Lemma load_encode hs ret :
  hists_wf hs -> file_retired ret ->
  load (Contents (encodeDoc hs ret)) = ((kept_nodes hs, kept_retired ret), false, false).
Proof.
  intros Hh Hr. unfold load. by rewrite decodeDoc_encodeDoc by (done || by apply hists_wf_file).
Qed.

Lemma file_view_encode N hs ret :
  hists_wf hs -> file_retired ret ->
  file_view N (Contents (encodeDoc hs ret)) = default newNodeHist (hs !! N).
Proof. intros Hh Hr. unfold file_view. rewrite load_encode by done. apply default_kept. Qed.

Lemma kept_wf hs : hists_wf hs -> hists_wf (kept_nodes hs).
Proof. intros H id h [Hid _]%map_lookup_filter_Some. by apply H. Qed.

Lemma kept_retired_ok ret : file_retired ret -> file_retired (kept_retired ret).
Proof. intros H id t [Hid _]%map_lookup_filter_Some. by apply H. Qed.

Lemma hists_load_nodes hs : hist <$> load_nodes hs = hs.
Proof.
  apply map_eq. intros id. unfold load_nodes. rewrite lookup_fmap, map_lookup_imap.
  by destruct (hs !! id).
Qed.

Lemma sound_prune a clock given k h :
  sound_at a clock given h -> sound_at a clock given (hist_prune k h).
Proof. intros [Hok Hex Hlo Hhi]. split; try done. by apply hist_prune_ok. Qed.

Lemma mem_hist_prune N c now :
  exists k, mem_hist N (pruneLocked c now) = hist_prune k (mem_hist N c) \/
            mem_hist N (pruneLocked c now) = mem_hist N c.
Proof.
  unfold mem_hist. rewrite hists_prune, lookup_fmap. destruct (hists c !! N) as [h|]; simpl.
  - eexists. by left.
  - exists 0. by right.
Qed.

(** ** The hub *)

(** A change of the collector that leaves the node's history and mark alone. *)
Record quiet (N : Z) (c c' : Collector) : Prop := {
  q_path : hasPath c' = hasPath c;
  q_nw : noWrite c' = noWrite c;
  q_enc : enc c' = enc c;
  q_hists : hists_wf (hists c');
  q_retired : file_retired (retired c');
  q_mem : mem_hist N c' = mem_hist N c;
  q_disk : forall n' b, nodes c' !! N = Some n' -> 0 <= b ->
    (forall n, nodes c !! N = Some n -> diskThrough n <= b) -> diskThrough n' <= b
}.

Definition not_answered (p : poll_phase) : Prop :=
  match p with PollAnswered _ _ => False | _ => True end.

Lemma hub_quiet N s c p :
  hub_inv N s -> quiet N (s_hub s) c -> (p = s_poll s \/ not_answered p) ->
  hub_inv N (MkSys (s_agent s) (s_clock s) (s_given s) c (s_disk s) p (s_write s) (s_acks s)).
Proof.
  intros H Q Hp. destruct H, Q. split; cbn [s_hub s_disk s_poll s_write s_acks s_agent s_clock s_given];
    rewrite ?q_path0, ?q_nw0, ?q_enc0, ?q_mem0; try done.
  - intros n' Hn'. apply (q_disk0 n'); [done|apply hi_file0|done].
  - destruct Hp as [->|Hp]; [done|]. by destruct p.
Qed.

Lemma update_ptr_quiet N c id p f :
  hists_wf (hists c) -> file_retired (retired c) ->
  (forall n, hist (f n) = hist n) -> (forall n, diskThrough (f n) = diskThrough n) ->
  quiet N c (update_ptr c id p f).
Proof.
  intros Hw Hr Hf Hd. pose proof (hists_update_ptr c id p f Hf) as Hh.
  assert (forall n' b, nodes (update_ptr c id p f) !! N = Some n' ->
    (forall n, nodes c !! N = Some n -> diskThrough n <= b) -> diskThrough n' <= b) as Hdisk.
  { intros n' b. unfold update_ptr. destruct (nodes c !! id) as [n|] eqn:E; [|intros; eauto].
    case_decide; [|intros; eauto]. simpl. intros [[-> <-]|[_ Hn]]%lookup_insert_Some Hb; [|eauto].
    rewrite Hd. eauto. }
  split; try (unfold mem_hist; by rewrite ?Hh); try (intros; by eapply Hdisk);
    unfold update_ptr; destruct (nodes c !! id); try done; by case_decide.
Qed.

Lemma missLocked_disk c n : diskThrough (missLocked c n) = diskThrough n.
Proof. unfold missLocked. by destruct (_ <=? _). Qed.

Lemma quiet_refl N c : hists_wf (hists c) -> file_retired (retired c) -> quiet N c c.
Proof. intros. split; eauto. Qed.

Lemma quiet_trans N c1 c2 c3 : quiet N c1 c2 -> quiet N c2 c3 -> quiet N c1 c3.
Proof. intros [] []. split; try congruence; try done. eauto. Qed.

Lemma PollError_quiet N c id p :
  hists_wf (hists c) -> file_retired (retired c) -> quiet N c (PollError c id p).
Proof. intros. apply update_ptr_quiet; auto using missLocked_hist, missLocked_disk. Qed.

Lemma AckDone_quiet N c id p t ok :
  hists_wf (hists c) -> file_retired (retired c) -> quiet N c (AckDone c id p t ok).
Proof. intros. unfold AckDone. destruct ok; [by apply update_ptr_quiet|by apply quiet_refl]. Qed.

Lemma PollAcked_quiet N c id p t ok :
  hists_wf (hists c) -> file_retired (retired c) -> quiet N c (PollAcked c id p t ok).
Proof.
  intros Hw Hr. pose proof (AckDone_quiet N c id p t ok Hw Hr) as Q.
  eapply quiet_trans; [exact Q|]. apply update_ptr_quiet; try done; apply Q.
Qed.

Lemma PollStart_quiet N c id so c' p :
  hists_wf (hists c) -> file_retired (retired c) -> id <> 0 -> PollStart c id so = (c', p) ->
  quiet N c c'.
Proof.
  intros Hw Hr Hid Hs. pose proof (hists_PollStart c id so) as Hh. rewrite Hs in Hh. cbn [fst] in Hh.
  split; try (unfold PollStart, nodeLocked in Hs; destruct (nodes c !! id); injection Hs as <- _; done).
  - rewrite Hh. apply map_Forall_insert_2; [|done]. split; [done|].
    destruct (hists c !! id) as [h|] eqn:E; simpl; [by apply (Hw id h E)|apply newNodeHist_wf].
  - unfold mem_hist. rewrite Hh. destruct (decide (id = N)) as [->|];
      [by rewrite lookup_insert_eq|by rewrite lookup_insert_ne].
  - intros n' b Hn' Hb Hold. unfold PollStart, nodeLocked in Hs.
    destruct (nodes c !! id) as [n|] eqn:E; injection Hs as <- _; simpl in Hn'.
    + apply lookup_insert_Some in Hn' as [[-> <-]|[_ Hn']]; [exact (Hold n E)|by apply Hold].
    + rewrite insert_insert_eq in Hn'. apply lookup_insert_Some in Hn' as [[-> <-]|[_ Hn']]; [exact Hb|by apply Hold].
Qed.

Lemma PollFold_disk N c id p b now n' :
  nodes (PollFold c id p b now).1.1 !! N = Some n' ->
  exists n, nodes c !! N = Some n /\ diskThrough n' = diskThrough n.
Proof.
  unfold PollFold. destruct (nodes c !! id) as [n|] eqn:E; [|eauto].
  case_decide; [|eauto]. pose proof (foldLocked_node c n id b now) as (_ & Hd & _).
  destruct (foldLocked c n id b now) as [[n1 s] ack]. cbn [fst snd] in *. simpl.
  intros [[-> <-]|[_ Hn]]%lookup_insert_Some; eauto.
Qed.

Lemma PollFold_fields c id p b now :
  let c' := (PollFold c id p b now).1.1 in
  hasPath c' = hasPath c /\ noWrite c' = noWrite c /\ enc c' = enc c /\ retired c' = retired c.
Proof.
  cbn zeta. unfold PollFold. destruct (nodes c !! id) as [n|]; [|done]. case_decide; [|done].
  by destruct (foldLocked c n id b now) as [[n1 s] ack].
Qed.

Definition bundle_wf (b : StatsBundle) : Prop := forall rs, Buffered b = Some rs -> bundle_ok rs.

Lemma PollFold_wf c id p b now :
  hists_wf (hists c) -> clock_ok now -> bundle_wf b -> hists_wf (hists (PollFold c id p b now).1.1).
Proof.
  intros Hw Hc Hb. destruct (hists_PollFold c id p b now) as [->|(n & rs & Hn & _ & Hrs & ->)]; [done|].
  assert (hists c !! id = Some (hist n)) as Hh by (unfold hists; by rewrite lookup_fmap, Hn).
  destruct (Hw _ _ Hh) as [Hid Hwf]. apply map_Forall_insert_2; [|done]. split; [done|].
  apply (fold_records_wf _ _ (Unix (now + maxAhead))); [|done|done].
  destruct (records_sorted rs id (Unix (now + maxAhead)) (Hb rs Hrs)) as (_ & Hf & _). exact Hf.
Qed.

(** A poll of another node, or one that brings no buffered traffic. *)
Lemma PollFold_quiet N c id p b now :
  hists_wf (hists c) -> file_retired (retired c) ->
  (Buffered b = None \/ id <> N /\ clock_ok now /\ bundle_wf b) ->
  quiet N c (PollFold c id p b now).1.1.
Proof.
  intros Hw Hr Hor. destruct (PollFold_fields c id p b now) as (? & ? & ? & Hret).
  assert (mem_hist N (PollFold c id p b now).1.1 = mem_hist N c) as Hm.
  { unfold mem_hist. destruct (hists_PollFold c id p b now) as [->|(n & rs & Hn & _ & Hrs & ->)]; [done|].
    destruct Hor as [Hnone|(Hne & _)]; [congruence|]. by rewrite lookup_insert_ne. }
  split; try done; [|by rewrite Hret|].
  - destruct Hor as [Hnone|(_ & Hc & Hb)]; [|by apply PollFold_wf].
    destruct (hists_PollFold c id p b now) as [->|(n & rs & _ & _ & Hrs & _)]; [done|congruence].
  - intros n' b' Hn' _ Hold. destruct (PollFold_disk N c id p b now n' Hn') as (n & Hn & ->). by apply Hold.
Qed.

Lemma Forget_retired_ok (r m : gmap Z Totals) :
  file_retired r -> map_Forall (fun id t => id <> 0 /\ totals_ok t) m ->
  file_retired (map_fold (fun sid t (r : gmap Z Totals) => <[sid := plus (r !!! sid) t]> r) r m).
Proof.
  intros Hr.
  apply (map_fold_weak_ind (fun r' (m : gmap Z Totals) =>
    map_Forall (fun id t => id <> 0 /\ totals_ok t) m -> file_retired r')); [done|].
  intros id t m' r' Hid IH Hm. apply map_Forall_insert in Hm as [[? Ht] Hm]; [|done].
  specialize (IH Hm). apply map_Forall_insert_2; [|done]. split; [done|]. apply plus_ok; [|done].
  apply lookup_total_ok. intros i u Hu. apply (IH i u Hu).
Qed.

Lemma Forget_quiet N c id :
  hists_wf (hists c) -> file_retired (retired c) -> id <> N -> quiet N c (Forget c id).
Proof.
  intros Hw Hr Hne. split; try done.
  - unfold hists. simpl. rewrite fmap_delete. by apply map_Forall_delete.
  - simpl. destruct (nodes c !! id) as [n|] eqn:E; [|done]. apply Forget_retired_ok; [done|].
    assert (hists c !! id = Some (hist n)) as Hh by (unfold hists; by rewrite lookup_fmap, E).
    destruct (Hw _ _ Hh) as (_ & Hok & Hf). intros i t Hi. split; [by apply (fh_life _ Hf i t)|by apply (hok_life _ Hok i t)].
  - unfold mem_hist, hists. simpl. by rewrite fmap_delete, lookup_delete_ne.
  - intros n' b Hn' _ Hold. simpl in Hn'. rewrite lookup_delete_ne in Hn' by done. by apply Hold.
Qed.

Lemma PollFold_ack c id p b now :
  let ack := (PollFold c id p b now).2 in
  ack = 0 \/ exists n, nodes c !! id = Some n /\ ack = diskThrough n.
Proof.
  cbn zeta. unfold PollFold. destruct (nodes c !! id) as [n|] eqn:E; [|by left].
  case_decide; [|by left]. pose proof (foldLocked_node c n id b now) as (_ & _ & _ & _ & Ha).
  destruct (foldLocked c n id b now) as [[n1 s] ack]. cbn [fst snd] in *.
  destruct Ha as [->| ->]; [by left|right; eauto].
Qed.

(** The history a poll leaves is sound, and no older. *)
Lemma poll_fold_mem N s p s0 ips now :
  agent_inv s -> hub_inv N s -> s_poll s = PollAnswered p s0 ->
  let c := (PollFold (s_hub s) N p (MkBundle (Some (bundle_of s0)) ips) now).1.1 in
  sound s (mem_hist N c) /\ through (mem_hist N (s_hub s)) <= through (mem_hist N c).
Proof.
  intros Ha H Hp. cbn zeta. unfold mem_hist at 1 3.
  destruct (hists_PollFold (s_hub s) N p (MkBundle (Some (bundle_of s0)) ips) now)
    as [->|(n & rs & Hn & _ & [= <-] & ->)].
  { split; [apply H|reflexivity]. }
  rewrite lookup_insert_eq. cbn [default from_option id].
  assert (mem_hist N (s_hub s) = hist n) as Hm by (unfold mem_hist, hists; by rewrite lookup_fmap, Hn).
  pose proof (hi_poll N s H) as Hpoll. rewrite Hp, Hm in Hpoll. destruct Hpoll as [Hs0 Hans].
  pose proof (hi_mem N s H) as [Hok Hex Hlo Hhi]. rewrite Hm in *.
  pose proof (store_wf_tb _ _ _ Hs0) as Ht0. pose proof (store_wf_tb _ _ _ (ai_buckets _ _ _ Ha)) as Htb.
  fold (recs0 N (Unix (now + maxAhead)) s0).
  fold (h1 (hist n) (diskThrough n) N (Unix (now + maxAhead)) s0).
  pose proof (h1_folded (hist n) (diskThrough n) N (Unix (now + maxAhead)) s0 Hok Ht0) as Hf.
  split; [|apply (fo_mono _ _ _ _ Hf)]. split.
  - apply (fo_ok _ _ _ _ Hf).
  - apply (exact_fold (s_given s) (hist n) (diskThrough n) N _ s0 _ Hok Hlo Ht0 Htb Hans); [apply Ha|done].
  - pose proof (fo_mono _ _ _ _ Hf). unfold h1 in *. lia.
  - destruct (h1_mark (hist n) (diskThrough n) N (Unix (now + maxAhead)) s0 Hok Ht0)
      as [->|(ts & [b Hb] & Hlt)]; [done|]. destruct (Hs0 ts b Hb). lia.
Qed.

Lemma hub_poll_fold N s p s0 ips now c smp ack :
  agent_inv s -> hub_inv N s -> s_poll s = PollAnswered p s0 -> clock_ok now ->
  PollFold (s_hub s) N p (MkBundle (Some (bundle_of s0)) ips) now = (c, smp, ack) ->
  hub_inv N (MkSys (s_agent s) (s_clock s) (s_given s) c (s_disk s) PollIdle (s_write s)
    (if 0 <? ack then ack :: s_acks s else s_acks s)).
Proof.
  intros Ha H Hp Hc He.
  destruct (poll_fold_mem N s p s0 ips now Ha H Hp) as [Hs Hm].
  pose proof (hi_poll N s H) as Hpoll. rewrite Hp in Hpoll. destruct Hpoll as [Hs0 _].
  destruct (PollFold_fields (s_hub s) N p (MkBundle (Some (bundle_of s0)) ips) now) as (F1 & F2 & F3 & F4).
  pose proof (PollFold_wf (s_hub s) N p (MkBundle (Some (bundle_of s0)) ips) now (hi_hists N s H) Hc) as Hw.
  pose proof (PollFold_disk N (s_hub s) N p (MkBundle (Some (bundle_of s0)) ips) now) as Hd.
  pose proof (PollFold_ack (s_hub s) N p (MkBundle (Some (bundle_of s0)) ips) now) as Hack.
  rewrite He in *. cbn [fst snd] in *.
  assert (hists_wf (hists c)) as Hw'.
  { apply Hw. intros rs [= <-]. apply bundle_of_ok. by eapply store_wf_tb. }
  destruct H. split; cbn [s_hub s_disk s_poll s_write s_acks s_agent s_clock s_given];
    rewrite ?F1, ?F2, ?F3, ?F4; try done.
  - lia.
  - intros n' Hn'. destruct (Hd n' Hn') as (n & Hn & ->). by apply hi_mark0.
  - destruct Hack as [->|(n & Hn & ->)]; [done|]. destruct (0 <? diskThrough n); [|done].
    constructor; [by apply hi_mark0|done].
  - destruct (s_write s); try done. destruct hi_write0 as (? & ? & ? & ?).
    split; [done|]. split; [done|]. split; [lia|done].
Qed.

(** ** The flush *)

Lemma hub_flush_begin N s now c e marks :
  hub_inv N s -> s_write s = WriteIdle -> WriteBegin (s_hub s) now = (c, e, marks) ->
  hub_inv N (MkSys (s_agent s) (s_clock s) (s_given s) c (s_disk s) (s_poll s) (WritePending e marks) (s_acks s)).
Proof.
  intros H Hwi Hb. unfold WriteBegin in Hb. injection Hb as <- <- <-.
  set (c := pruneLocked (s_hub s) now).
  assert (hists_wf (hists c)) as Hw.
  { unfold c. rewrite hists_prune. intros id h. rewrite lookup_fmap.
    destruct (hists (s_hub s) !! id) as [h0|] eqn:E; [|done]. simpl. intros [= <-].
    destruct (hi_hists N s H id h0 E) as [? ?]. split; [done|by apply hist_prune_wf]. }
  assert (sound s (mem_hist N c) /\ through (mem_hist N c) = through (mem_hist N (s_hub s))) as [Hs Ht].
  { pose proof (hi_mem N s H). destruct (mem_hist_prune N (s_hub s) now) as (k & [He|He]); fold c in He; rewrite He.
    - split; [by apply sound_prune|done].
    - done. }
  assert (file_view N (Contents (encodeDoc (hists c) (retired c))) = mem_hist N c) as Hv.
  { apply file_view_encode; [done|apply H]. }
  assert (forall n, nodes c !! N = Some n -> exists n0, nodes (s_hub s) !! N = Some n0 /\
    diskThrough n = diskThrough n0 /\ through (hist n) = through (hist n0)) as Hn.
  { intros n. unfold c. simpl. rewrite lookup_fmap. destruct (nodes (s_hub s) !! N) as [n0|]; [|done].
    simpl. intros [= <-]. eauto. }
  pose proof (hi_order N s H) as Ho.
  destruct H. split; cbn [s_hub s_disk s_poll s_write s_acks s_agent s_clock s_given]; try done.
  - by rewrite Ht.
  - intros n Hn'. destruct (Hn n Hn') as (n0 & Hn0 & -> & _). by apply hi_mark0.
  - change (retired (s_hub s)) with (retired c). rewrite Hv. split; [|split; [done|split; [lia|]]].
    + by exists (hists c), (retired c).
    + change (marks_le N ((fun n => through (hist n)) <$> nodes c) (through (mem_hist N c))).
      intros k. rewrite lookup_fmap. destruct (nodes c !! N) as [n|] eqn:E; [|done]. simpl.
      intros [= <-]. unfold mem_hist, hists. rewrite lookup_fmap, E. reflexivity.
  - destruct (s_poll s); try done. destruct hi_poll0 as [? Hans]. split; [done|].
    intros ts ts'. rewrite Ht. apply Hans.
Qed.

Lemma hub_flush_write N s e marks :
  hub_inv N s -> s_write s = WritePending e marks ->
  hub_inv N (MkSys (s_agent s) (s_clock s) (s_given s) (WriteDone (s_hub s) e) (Contents e) (s_poll s)
    (WriteWritten marks) (s_acks s)).
Proof.
  intros H Hw. destruct H. rewrite Hw in hi_write0. destruct hi_write0 as (Hg & Hs & [Ho1 Ho2] & Hm).
  split; cbn [s_hub s_disk s_poll s_write s_acks s_agent s_clock s_given]; try done.
  - right. by exists e.
  - intros n Hn. etransitivity; [by apply hi_mark0|done].
  - eapply Forall_impl; [done|]. intros t Ht. simpl in Ht. lia.
Qed.

Lemma hub_flush_same N s e marks :
  hub_inv N s -> s_write s = WritePending e marks -> writeNeeded (s_hub s) e = false ->
  hub_inv N (MkSys (s_agent s) (s_clock s) (s_given s) (s_hub s) (s_disk s) (s_poll s)
    (WriteWritten marks) (s_acks s)).
Proof.
  intros H Hw Hn. destruct H. rewrite Hw in hi_write0. destruct hi_write0 as (Hg & Hs & [Ho1 Ho2] & Hm).
  unfold writeNeeded in Hn. rewrite hi_path0 in Hn. simpl in Hn. apply negb_false_iff, bool_decide_eq_true in Hn.
  split; cbn [s_hub s_disk s_poll s_write s_acks s_agent s_clock s_given]; try done.
  destruct hi_enc0 as [_ <-]. by rewrite <-Hn.
Qed.

Lemma WriteEnd_disk N c marks b n' :
  marks_le N marks b -> (forall n, nodes c !! N = Some n -> diskThrough n <= b) ->
  nodes (WriteEnd c marks) !! N = Some n' -> diskThrough n' <= b.
Proof.
  intros Hm Hold. unfold WriteEnd. simpl. rewrite map_lookup_imap.
  destruct (nodes c !! N) as [n|]; [|done]. simpl. specialize (Hold n eq_refl).
  destruct (marks !! N) as [m|] eqn:E; intros [= <-]; [|done]. simpl. specialize (Hm m E). lia.
Qed.

(** A job's mark is the node's mark as the file holds it. *)
Lemma ack_list_le N c b :
  (forall n, nodes c !! N = Some n -> diskThrough n <= b) -> Forall (fun t => t <= b) (ack_list N c).
Proof.
  intros Hold. unfold ack_list. rewrite Forall_fmap, Forall_forall. intros j [Hj Hin]%list_elem_of_filter.
  unfold ack_jobs in Hin. rewrite sort_on_perm in Hin.
  apply list_elem_of_omap in Hin as ([id n] & Hin%elem_of_map_to_list & Hjob). simpl in *.
  unfold ack_job in Hjob. destruct (src n); [|done]. destruct (_ && _); [|done].
  injection Hjob as <-. simpl in *. subst. by apply Hold.
Qed.

Lemma hub_flush_end N s marks :
  hub_inv N s -> s_write s = WriteWritten marks ->
  hub_inv N (MkSys (s_agent s) (s_clock s) (s_given s) (WriteEnd (s_hub s) marks) (s_disk s) (s_poll s)
    WriteIdle (ack_list N (WriteEnd (s_hub s) marks) ++ s_acks s)).
Proof.
  intros H Hw. pose proof (hists_WriteEnd (s_hub s) marks) as Hh.
  assert (mem_hist N (WriteEnd (s_hub s) marks) = mem_hist N (s_hub s)) as Hm by (unfold mem_hist; by rewrite Hh).
  destruct H. rewrite Hw in hi_write0.
  assert (forall n, nodes (WriteEnd (s_hub s) marks) !! N = Some n ->
    diskThrough n <= through (file_view N (s_disk s))) as Hd by (intros n; by apply WriteEnd_disk).
  split; cbn [s_hub s_disk s_poll s_write s_acks s_agent s_clock s_given]; rewrite ?Hm, ?Hh; try done.
  apply Forall_app. split; [by apply ack_list_le|done].
Qed.

(** ** Starting and crashing *)

Lemma sound_new a clock given :
  good_clock (bucketSecs (store a)) clock -> buckets (store a) = ∅ -> (forall x e, given x e = 0) ->
  sound_at a clock given newNodeHist.
Proof.
  intros [Hs Hc] Hb Hg. split; [apply newNodeHist_ok| |simpl; lia|].
  - intros id x Hid. rewrite Hg, Hb. simpl. rewrite lookup_total_empty, get_zero. unfold pending.
    by rewrite msum_empty.
  - unfold truncateTime. simpl. assert (1 <= Z.quot (Unix clock) (bucketSecs (store a))); [|nia].
    rewrite Z.quot_div_nonneg by lia. apply Z.div_le_lower_bound; lia.
Qed.

(** What the file holds, as [load] reads it. *)
Lemma good_load N d :
  d = NotExist \/ (exists e, d = Contents e /\ good_bytes e) ->
  exists hs ret, load d = ((hs, ret), false, false) /\ hists_wf hs /\ file_retired ret /\
    file_view N d = default newNodeHist (hs !! N).
Proof.
  intros [->|(e & -> & hs & ret & -> & Hw & Hr)].
  - exists ∅, ∅. split; [done|]. split; [apply map_Forall_empty|]. split; [apply map_Forall_empty|].
    by rewrite lookup_empty.
  - exists (kept_nodes hs), (kept_retired ret). rewrite load_encode by done.
    split; [done|]. split; [by apply kept_wf|]. split; [by apply kept_retired_ok|].
    rewrite file_view_encode by done. by rewrite default_kept.
Qed.

(** A hub that starts from a file holds what the file holds, and acknowledges
    no further. *)
Lemma Open_inv N cfg d moved now c d' :
  N <> 0 -> d = NotExist \/ (exists e, d = Contents e /\ good_bytes e) -> Open cfg d moved now = (c, d') ->
  d' = d /\ hasPath c = true /\ noWrite c = false /\ hists_wf (hists c) /\ file_retired (retired c) /\
  (exists k, mem_hist N c = hist_prune k (file_view N d) \/ mem_hist N c = file_view N d) /\
  good_bytes (enc c) /\ file_view N (Contents (enc c)) = file_view N d /\
  (forall n, nodes c !! N = Some n -> diskThrough n = through (file_view N d)).
Proof.
  intros HN Hd Ho. destruct (good_load N d Hd) as (hs & ret & Hl & Hw & Hr & Hv).
  unfold Open in Ho. rewrite Hl in Ho.
  set (c0 := MkCollector _ _ (load_nodes hs) _ _ _ _ _) in Ho.
  assert (hists c0 = hs) as Hh by apply hists_load_nodes. injection Ho as <- <-.
  split; [done|]. split; [done|]. split; [done|]. split; [|split; [done|split; [|split; [|split]]]].
  - rewrite hists_prune, Hh. intros id h. rewrite lookup_fmap.
    destruct (hs !! id) as [h0|] eqn:E; [|done]. simpl. intros [= <-].
    destruct (Hw id h0 E). split; [done|by apply hist_prune_wf].
  - destruct (mem_hist_prune N c0 now) as (k & Hk). exists k.
    assert (mem_hist N c0 = file_view N d) as Hm by (unfold mem_hist; by rewrite Hh).
    by rewrite Hm in Hk.
  - by exists hs, ret.
  - simpl. by rewrite file_view_encode.
  - intros n. simpl. unfold load_nodes. rewrite lookup_fmap, map_lookup_imap.
    destruct (hs !! N) as [h|] eqn:E; [|done]. simpl. intros [= <-]. by rewrite Hv.
Qed.

Lemma hub_open N s cfg moved now c d :
  N <> 0 -> sound s (file_view N (s_disk s)) ->
  s_disk s = NotExist \/ (exists e, s_disk s = Contents e /\ good_bytes e) ->
  Forall (fun t => t <= through (file_view N (s_disk s))) (s_acks s) ->
  Open cfg (s_disk s) moved now = (c, d) ->
  hub_inv N (MkSys (s_agent s) (s_clock s) (s_given s) c d PollIdle WriteIdle (s_acks s)).
Proof.
  intros HN Hs Hd Hacks Ho.
  destruct (Open_inv N cfg (s_disk s) moved now c d HN Hd Ho) as (-> & Hp & Hnw & Hw & Hr & (k & Hm) & Hg & He & Hn).
  split; cbn [s_hub s_disk s_poll s_write s_acks s_agent s_clock s_given]; try done.
  - destruct Hm as [->| ->]; [by apply sound_prune|done].
  - destruct Hm as [->| ->]; reflexivity.
  - intros n Hn'. by rewrite (Hn n Hn').
Qed.

Lemma init_inv N secs ret clock cfg now :
  N <> 0 -> good_clock secs clock -> inv N (init secs ret clock cfg now).
Proof.
  intros HN Hg. split.
  - split; [exact Hg|exact I|apply map_Forall_empty| |]; intros x e; cbn.
    + unfold stored. by rewrite msum_empty.
    + unfold maxI64. lia.
  - unfold init. destruct (Open cfg NotExist false now) as [c d] eqn:E.
    assert (d = NotExist) as -> by (unfold Open in E; simpl in E; by injection E as _ <-).
    apply (hub_open N (init secs ret clock cfg now) cfg false now c NotExist); try done.
    + by apply sound_new.
    + by left.
Qed.

(** ** The hub while the agent goes on *)

(** The agent's step leaves the hub's half of the invariant when it leaves every
    sound history at least as new as the file sound. *)
Lemma hub_agent N s a clock given :
  hub_inv N s ->
  (forall h, through (file_view N (s_disk s)) <= through h -> sound s h -> sound_at a clock given h) ->
  (forall h s0, through (file_view N (s_disk s)) <= through h ->
     store_wf (store (s_agent s)) (s_clock s) s0 -> answer_of h s0 (agent_buckets s) ->
     store_wf (store a) clock s0 /\ answer_of h s0 (buckets (store a))) ->
  hub_inv N (MkSys a clock given (s_hub s) (s_disk s) (s_poll s) (s_write s) (s_acks s)).
Proof.
  intros H Hs Hans. destruct H. split; cbn [s_hub s_disk s_poll s_write s_acks s_agent s_clock s_given]; try done.
  - by apply Hs.
  - by apply Hs.
  - destruct (s_write s); try done. destruct hi_write0 as (? & ? & [? ?] & ?).
    split; [done|]. split; [by apply Hs|done].
  - destruct (s_poll s); try done. destruct hi_poll0. by apply Hans.
Qed.

Lemma step_inv N sr s s' : inv N s -> step N sr s s' -> inv N s'.
Proof.
  intros [Ha H] Hst.
  assert (hists_wf (hists (s_hub s))) as Hw by apply H.
  assert (file_retired (retired (s_hub s))) as Hr by apply H.
  destruct Hst.
  - (* the agent reads Xray *)
    split; [by apply (reading_agent _ (s_clock s))|]. apply hub_agent; [done|..].
    + intros h Ho Hs. apply (reading_sound _ (s_clock s)); try done.
      intros ts Hlt Hin. apply H4; [lia|done].
    + intros h s0 Ho Hs0 Hans. apply (reading_answer _ (s_clock s) _ (s_given s)); try done.
      intros ts Hlt Hin. apply H4; [lia|done].
  - split; [done|]. by apply hub_agent.
  - split; [done|]. apply (hub_quiet N s c (PollWaiting p)); [done| |by right].
    apply (PollStart_quiet N _ N sr c p); try done. apply H.
  - split; [done|]. destruct H. split; try done. split; [apply Ha|]. intros ts ts' _ _ _. done.
  - split; [done|]. apply (hub_quiet N s (PollError (s_hub s) N p) PollIdle); [done| |by right].
    by apply PollError_quiet.
  - split; [done|]. by apply (hub_poll_fold N s p s0 ips now c smp).
  - split; [done|]. apply (hub_quiet N s c PollIdle); [done| |by right].
    pose proof (PollFold_quiet N (s_hub s) N p (MkBundle None ips) now Hw Hr (or_introl eq_refl)) as Q.
    by rewrite H1 in Q.
  - injection H1 as <-. pose proof (hi_acks N s H) as Hacks. rewrite Forall_forall in Hacks.
    specialize (Hacks t H0). split; [by apply drain_agent|]. apply hub_agent; [done|..].
    + intros h Ho Hs. apply drain_sound; [lia|done].
    + intros h s0 Ho Hs0 Hans. split; [done|]. apply drain_answer; [lia|done].
  - split; [done|]. apply (hub_quiet N s _ (s_poll s)); [done|by apply AckDone_quiet|by left].
  - split; [done|]. apply (hub_quiet N s _ (s_poll s)); [done|by apply PollAcked_quiet|by left].
  - split; [done|]. by apply (hub_flush_begin N s now).
  - split; [done|]. by apply hub_flush_write.
  - split; [done|]. by apply (hub_flush_same N s e).
  - split; [done|]. destruct H. by split.
  - split; [done|]. subst. by apply hub_flush_end.
  - split; [done|]. apply (hub_open N s cfg moved now c d); try done; apply H.
  - split; [done|]. apply (hub_quiet N s c (s_poll s)); [done| |by left].
    by apply (PollStart_quiet N _ id so c p).
  - split; [done|]. apply (hub_quiet N s _ (s_poll s)); [done|by apply PollError_quiet|by left].
  - split; [done|]. apply (hub_quiet N s c (s_poll s)); [done| |by left].
    pose proof (PollFold_quiet N (s_hub s) id p (MkBundle (Some rs) ips) now Hw Hr) as Q. rewrite H3 in Q.
    apply Q. right. split; [done|]. split; [done|]. by intros rs' [= <-].
  - split; [done|]. apply (hub_quiet N s _ (s_poll s)); [done|by apply PollAcked_quiet|by left].
  - split; [done|]. apply (hub_quiet N s _ (s_poll s)); [done|by apply Forget_quiet|by left].
Qed.

Lemma reachable_inv N sr s : N <> 0 -> reachable N sr s -> inv N s.
Proof.
  intros HN Hr. induction Hr as [secs ret clock cfg now Hg|s s' _ IH Hst]; [by apply init_inv|].
  by eapply step_inv.
Qed.

(** * What the system promises *)

(** C1. No byte is lost and none is counted twice. In every state the system can
    reach, whatever polls, flushes, late or repeated acknowledgements and crashes
    came before, the bytes Xray counted for a subscription on a node are its
    lifetime total in the hub's memory plus what the agent still holds past the
    memory's mark; and the same holds of the file, so a hub that crashes now and
    starts from it goes on exactly. *)
Theorem exactly_once N sr s :
  N <> 0 -> reachable N sr s ->
  exact (s_given s) (mem_hist N (s_hub s)) (agent_buckets s) /\
  exact (s_given s) (file_view N (s_disk s)) (agent_buckets s).
Proof.
  intros HN Hr. destruct (reachable_inv N sr s HN Hr) as [_ H]. split; [apply H|apply H].
Qed.

(** C2. An acknowledgement only drops what the file counts. Any acknowledgement
    on its way to the agent, when it arrives now, leaves every byte past the
    file's mark, and past the memory's, with the agent. *)
Theorem ack_drops_only_counted N sr s t :
  N <> 0 -> reachable N sr s -> t ∈ s_acks s ->
  forall x e,
    pending x e (through (file_view N (s_disk s))) (buckets (Drain (store (s_agent s)) t)) =
    pending x e (through (file_view N (s_disk s))) (agent_buckets s) /\
    pending x e (through (mem_hist N (s_hub s))) (buckets (Drain (store (s_agent s)) t)) =
    pending x e (through (mem_hist N (s_hub s))) (agent_buckets s).
Proof.
  intros HN Hr Ht x e. destruct (reachable_inv N sr s HN Hr) as [_ H].
  pose proof (hi_acks N s H) as Ha. rewrite Forall_forall in Ha. specialize (Ha t Ht).
  pose proof (hi_order N s H) as Ho.
  split; apply pending_filter; intros ts b _ Hlt; cbn [fst]; simpl in *; lia.
Qed.

(** ** What a poll shows *)

Lemma foldLocked_partial c n id rs ips now :
  n_partial (foldLocked c n id (MkBundle (Some rs) ips) now).1.1 =
  f_live (fold_records (hist n) (diskThrough n) (records rs id (Unix (now + maxAhead))).1).
Proof.
  unfold foldLocked, fold_buffered. cbn [Buffered OnlineIPs].
  destruct (records rs id _) as [recs ah]. destruct (negb (havePrev n)); [|destruct (lastData n <? now)].
  all: cbn [bf_obs]; destruct (rateLocked _ _) as [? []]; destruct ips; [done|];
    by destruct (bool_decide _ && _).
Qed.

Section poll_shows.
Context (h : nodeHist) (disk nodeID limit : Z) (bs : gmap Z TrafficBucket).
Context (Hok : hist_ok h) (Hlo : 0 <= through h) (Hbs : map_Forall tb_ok bs).
Context (Hlim : map_Forall (fun ts _ => ts <= limit) bs).

Let recs := recs0 nodeID limit bs.
Let h' := h1 h disk nodeID limit bs.

Lemma rec_in ts b : bs !! ts = Some b -> 0 < ts -> rec_of nodeID ts b ∈ recs.
Proof.
  intros Hts H0. unfold recs, recs0. rewrite records_store by done. exists b. split; [done|].
  split; [|done]. split; [done|]. by apply (Hlim ts b).
Qed.

Lemma recs_last r ts b :
  last recs = Some r -> bs !! ts = Some b -> 0 < ts -> ts <= rec_ts r.
Proof.
  intros Hl Hts H0. pose proof (rec_in ts b Hts H0) as Hin.
  destruct (recs0_wf nodeID limit bs Hbs) as [Hs _]. fold recs in Hs.
  apply last_Some in Hl as [l Hl]. rewrite Hl in Hs, Hin.
  destruct (StronglySorted_snoc _ _ _ Hs) as [_ Hall]. rewrite Forall_forall in Hall.
  apply elem_of_app in Hin as [Hin|Hin%list_elem_of_singleton].
  - specialize (Hall _ Hin). simpl in Hall. lia.
  - by rewrite <-Hin.
Qed.

Lemma share_pending sid x :
  sub_id sid ->
  get x (match f_live (fold_records h disk recs) with
         | Some p => b_subs (p_b p) !!! sid | None => zeroTotals end) =
  pending x (SubscriptionEmail sid) (through h') bs.
Proof.
  intros Hid. destruct (recs0_wf nodeID limit bs Hbs) as [Hs Hb]. fold recs in Hs, Hb.
  rewrite fold_records_live by done.
  pose proof (h1_folded h disk nodeID limit bs Hok Hbs) as [_ _ Hmono Hall Hmark].
  fold recs in Hall, Hmark. fold h' in Hmono, Hall, Hmark.
  destruct (last recs) as [r|] eqn:El; simpl.
  - assert (newest_of recs = rec_ts r) as Hnew by (unfold newest_of; by rewrite El).
    assert (r ∈ recs) as Hr by by apply last_Some_elem_of.
    pose proof Hr as Hr'. unfold recs, recs0 in Hr'. rewrite records_store in Hr' by done.
    destruct Hr' as (b & Hts & _ & Hrb & _). rewrite Hnew in *.
    destruct (Z.ltb_spec (through h) (rec_ts r)) as [Hlt|Hge].
    + (* the newest bucket is the only one past the mark *)
      assert (through h' < rec_ts r) as Hlt' by (destruct Hmark as [->|(? & _ & -> & ?)]; lia).
      unfold pending. rewrite (msum_delete _ bs (rec_ts r) b) by done. rewrite decide_True by done.
      rewrite msum_zero.
      * simpl. rewrite Hrb. rewrite take_record_sub; [|apply (Hbs _ _ Hts)|done].
        pose proof (user_bytes_nonneg x (SubscriptionEmail sid) (data b) (proj1 (proj2 (Hbs _ _ Hts)))) as Hn.
        assert (record_bytes x (SubscriptionEmail sid) (record_of b) =
                user_bytes x (SubscriptionEmail sid) (data b)) as -> by (by destruct x).
        unfold nonNegative. destruct (Z.ltb_spec (user_bytes x (SubscriptionEmail sid) (data b)) 0); [lia|].
        lia.
      * intros ts b' [Hne Hts']%lookup_delete_Some. case_decide as Hd; [|done]. exfalso.
        pose proof (recs_last r ts b' El Hts' ltac:(lia)).
        specialize (Hall _ (rec_in ts b' Hts' ltac:(lia))). simpl in Hall. lia.
    + symmetry. rewrite get_zero. apply msum_zero. intros ts b' Hts'.
      pose proof (recs_last r ts b' El Hts'). case_decide; [lia|done].
  - symmetry. rewrite get_zero.
    assert (forall ts b, bs !! ts = Some b -> ts <= 0) as Hneg.
    { intros ts b Hts. destruct (Z.le_gt_cases ts 0) as [|Hgt]; [done|]. exfalso.
      apply last_None in El. pose proof (rec_in ts b Hts ltac:(lia)) as Hin.
      rewrite El in Hin. by apply elem_of_nil in Hin. }
    apply msum_zero. intros ts b' Hts'. specialize (Hneg ts b' Hts'). case_decide; [lia|done].
Qed.
End poll_shows.

Lemma PollStart_node c id so :
  exists n, nodes (PollStart c id so).1 !! id = Some n /\ ptr n = (PollStart c id so).2 /\
    hist n = mem_hist id c.
Proof.
  unfold PollStart, nodeLocked, mem_hist, hists. rewrite lookup_fmap.
  destruct (nodes c !! id) as [n|] eqn:E; simpl; rewrite lookup_insert_eq; eauto.
Qed.

Lemma PollFold_node c id n b now :
  nodes c !! id = Some n ->
  nodes (PollFold c id (ptr n) b now).1.1 !! id = Some (foldLocked c n id b now).1.1.
Proof.
  intros Hn. unfold PollFold. rewrite Hn, decide_True by done.
  destruct (foldLocked c n id b now) as [[n' s] ack]. simpl. by rewrite lookup_insert_eq.
Qed.

Lemma update_ptr_node c id p f n :
  nodes c !! id = Some n ->
  exists n', nodes (update_ptr c id p f) !! id = Some n' /\ (n' = n \/ n' = f n).
Proof.
  intros Hn. unfold update_ptr. rewrite Hn. case_decide; simpl; [|by eauto].
  rewrite lookup_insert_eq. eauto.
Qed.

Lemma PollAcked_node c id p t ok n :
  nodes c !! id = Some n ->
  exists n', nodes (PollAcked c id p t ok) !! id = Some n' /\ hist n' = hist n /\ n_partial n' = n_partial n.
Proof.
  intros Hn. unfold PollAcked.
  assert (exists n1, nodes (AckDone c id p t ok) !! id = Some n1 /\ hist n1 = hist n /\ n_partial n1 = n_partial n)
    as (n1 & Hn1 & Hh & Hp).
  { unfold AckDone. destruct ok; [|by eauto].
    edestruct (update_ptr_node c id p) as (n1 & H1 & [->| ->]); [done|..]; eauto. }
  edestruct (update_ptr_node (AckDone c id p t ok) id p) as (n2 & H2 & [->| ->]); [done|..]; eauto.
Qed.

(** C6. A poll shows everything. From any state the system can reach, a hub that
    has just crashed and started again included, one poll that gets an answer
    (from an agent whose clock is less than a day ahead) makes what the page
    shows of a subscription on the node, counted buckets and the growing one,
    exactly the bytes Xray has counted. *)
Theorem poll_shows_everything N sr s now ackOk ips c smp ack :
  N <> 0 -> reachable N sr s ->
  map_Forall (fun ts _ => ts <= Unix (now + maxAhead)) (agent_buckets s) ->
  Poll (s_hub s) N sr (Some (Some (MkBundle (Some (bundle_of (agent_buckets s))) ips))) now ackOk
    = (c, smp, ack) ->
  exists n, nodes c !! N = Some n /\
    forall sid x, sub_id sid -> shown x sid n = s_given s x (SubscriptionEmail sid).
Proof.
  intros HN Hr Hlim Hpoll. destruct (reachable_inv N sr s HN Hr) as [Ha H].
  unfold Poll in Hpoll. pose proof (PollStart_node (s_hub s) N sr) as (n & Hn & Hp & Hh).
  destruct (PollStart (s_hub s) N sr) as [c1 p]. cbn [fst snd default from_option id] in *. subst p.
  set (b := MkBundle (Some (bundle_of (agent_buckets s))) ips) in *.
  pose proof (PollFold_node c1 N n b now Hn) as Hn2.
  pose proof (foldLocked_node c1 n N b now) as (Hh2 & _).
  pose proof (foldLocked_partial c1 n N (bundle_of (agent_buckets s)) ips now) as Hp2. fold b in Hp2.
  set (n2 := (foldLocked c1 n N b now).1.1) in *. clearbody n2.
  destruct (PollFold c1 N (ptr n) b now) as [[c2 s2] ack2]. cbn [fst snd] in *.
  assert (exists n', nodes c !! N = Some n' /\ hist n' = hist n2 /\ n_partial n' = n_partial n2)
    as (n' & Hn' & Hhn & Hpn).
  { destruct (0 <? ack2); injection Hpoll as <- _ _; [by apply PollAcked_node|by exists n2]. }
  exists n'. split; [done|]. intros sid x Hid. unfold shown, life_share. rewrite Hhn, Hpn, Hp2, Hh2.
  cbn [b Buffered]. pose proof (hi_mem N s H) as [Hok Hex Hlo _]. rewrite <-Hh in *.
  pose proof (store_wf_tb _ _ _ (ai_buckets _ _ _ Ha)) as Htb.
  pose proof (exact_fold (s_given s) (hist n) (diskThrough n) N (Unix (now + maxAhead))
    (agent_buckets s) (agent_buckets s) Hok Hlo Htb Htb (fun _ _ _ _ _ => eq_refl) (ai_max _ _ _ Ha) Hex sid x Hid)
    as Hgiven.
  rewrite Hgiven. f_equal.
  by apply (share_pending (hist n) (diskThrough n) N (Unix (now + maxAhead)) (agent_buckets s)).
Qed.

(** ** A run, as an example *)

Definition demo0 : sys := init 3600 (10 ^ 6 * second) (4000 * second) 0 (4000 * second).

Definition demo_read (s : sys) (up now : Z) : sys :=
  MkSys (collect (s_agent s) (Some (demo_snap up)) now) now
    (fun x e => s_given s x e + reading_bytes (s_agent s) (demo_snap up) x e)
    (s_hub s) (s_disk s) (s_poll s) (s_write s) (s_acks s).

(** Two readings in two hours, a poll, a flush, and the acknowledgement on its way. *)
Definition demo2 : sys := demo_read (demo_read demo0 100 (4000 * second)) 250 (8000 * second).

(** A poll from start to end, and a flush, with nothing in between. *)
Definition after_poll (N : Z) (sr : Source) (s : sys) (now : Z) : sys :=
  let '(c, p) := PollStart (s_hub s) N sr in
  let '(c, _, ack) := PollFold c N p (MkBundle (Some (bundle_of (agent_buckets s))) None) now in
  MkSys (s_agent s) (s_clock s) (s_given s) c (s_disk s) PollIdle (s_write s)
    (if 0 <? ack then ack :: s_acks s else s_acks s).

Definition after_flush (N : Z) (s : sys) (now : Z) : sys :=
  let '(c, e, marks) := WriteBegin (s_hub s) now in
  let '(c, d) := if writeNeeded c e then (WriteDone c e, Contents e) else (c, s_disk s) in
  let c := WriteEnd c marks in
  MkSys (s_agent s) (s_clock s) (s_given s) c d (s_poll s) WriteIdle (ack_list N c ++ s_acks s).

Lemma after_poll_reachable N sr s now :
  reachable N sr s -> s_poll s = PollIdle -> clock_ok now -> reachable N sr (after_poll N sr s now).
Proof.
  intros Hr Hp Hc. unfold after_poll. destruct (PollStart (s_hub s) N sr) as [c p] eqn:E1.
  destruct (PollFold _ _ _ _ _) as [[c2 smp] ack] eqn:E2.
  pose proof (reach_step _ _ _ _ Hr (step_poll_start N sr s c p Hp E1)) as R1.
  match type of R1 with reachable _ _ ?s1 =>
    pose proof (reach_step _ _ _ _ R1 (step_poll_answer N sr s1 p eq_refl)) as R2 end.
  match type of R2 with reachable _ _ ?s2 =>
    exact (reach_step _ _ _ _ R2 (step_poll_fold N sr s2 p _ None now c2 smp ack eq_refl Hc E2)) end.
Qed.

Lemma after_flush_reachable N sr s now :
  reachable N sr s -> s_write s = WriteIdle -> noWrite (s_hub s) = false ->
  reachable N sr (after_flush N s now).
Proof.
  intros Hr Hw Hn. unfold after_flush. destruct (WriteBegin (s_hub s) now) as [[c e] marks] eqn:E.
  pose proof (reach_step _ _ _ _ Hr (step_flush_begin N sr s now c e marks Hw Hn E)) as R1.
  destruct (writeNeeded c e) eqn:En.
  all: match type of R1 with reachable _ _ ?s1 =>
         (pose proof (reach_step _ _ _ _ R1 (step_flush_write N sr s1 e marks eq_refl En)) as R2) ||
         (pose proof (reach_step _ _ _ _ R1 (step_flush_same N sr s1 e marks eq_refl En)) as R2) end.
  all: match type of R2 with reachable _ _ ?s2 =>
         exact (reach_step _ _ _ _ R2 (step_flush_end N sr s2 marks _ eq_refl eq_refl)) end.
Qed.

Definition demo_polled : sys := after_poll 1 1 demo2 (8000 * second).
Definition demo_flushed : sys := after_flush 1 demo_polled (8000 * second).

Lemma demo_reading_le a up x e :
  0 <= up -> 0 <= base_bytes x e (baseline a) -> reading_bytes a (demo_snap up) x e <= up.
Proof.
  intros Hup Hb. pose proof (proj2 (demo_snap_bytes up x e Hup)).
  unfold reading_bytes. cbn [delivered]. destruct (_ <? _); lia.
Qed.

Lemma demo_read_step s up now :
  s_disk s = NotExist -> s_clock s <= now -> Unix (now - retention (store (s_agent s))) <= 0 ->
  0 <= up <= 1000 -> (forall x e, s_given s x e <= 10 ^ 6) -> (forall x e, 0 <= base_bytes x e (baseline (s_agent s))) ->
  step 1 1 s (demo_read s up now).
Proof.
  intros Hd Hc Hr Hup Hg Hb.
  assert (forall x e, 0 <= user_bytes x e (demo_snap up) <= up) as Hu.
  { intros x e. apply (demo_snap_bytes up x e). lia. }
  apply step_collect; try done.
  - apply (demo_snap_bytes up UpDir ""). lia.
  - intros x e. specialize (Hu x e). word_lia.
  - intros x e. specialize (Hg x e).
    pose proof (demo_reading_le (s_agent s) up x e (proj1 Hup) (Hb x e)). word_lia.
  - intros ts Hts _. rewrite Hd in Hts. change (through (file_view 1 NotExist)) with 0 in Hts.
    unfold cutoff. lia.
Qed.

Lemma demo2_reachable : reachable 1 1 demo2.
Proof.
  assert (good_clock 3600 (4000 * second)) as Hg by (split; [lia|vm_compute; discriminate]).
  apply (reach_step 1 1 (demo_read demo0 100 (4000 * second)));
    [apply (reach_step 1 1 demo0); [exact (reach_init 1 1 3600 (10 ^ 6 * second) _ 0 (4000 * second) Hg)|]|].
  - apply demo_read_step; [reflexivity|reflexivity|vm_compute; discriminate|lia| |].
    + intros x e. simpl. lia.
    + intros x e. unfold base_bytes. simpl. lia.
  - apply demo_read_step; [reflexivity|vm_compute; discriminate|vm_compute; discriminate|lia| |].
    + intros x e. cbn [demo_read s_given]. change (s_given demo0 x e) with 0.
      pose proof (demo_reading_le (s_agent demo0) 100 x e ltac:(lia) ltac:(unfold base_bytes; simpl; lia)). lia.
    + intros x e. unfold base_bytes. apply (demo_snap_bytes 100 x e). lia.
Qed.

Lemma demo_polled_reachable : reachable 1 1 demo_polled.
Proof. apply after_poll_reachable; [exact demo2_reachable|reflexivity|vm_compute; discriminate]. Qed.

Lemma demo_flushed_reachable : reachable 1 1 demo_flushed.
Proof. apply after_flush_reachable; [exact demo_polled_reachable|vm_compute; reflexivity..]. Qed.

Lemma sub_id_7 : sub_id 7.
Proof. split; [lia|]. word_lia. Qed.

(** After the poll and the flush: the first hour's 100 bytes are in memory and
    on disk, the second hour's 150 are still the agent's. *)
Lemma exactly_once_witness :
  let h := mem_hist 1 (s_hub demo_flushed) in
  s_given demo_flushed UpDir (SubscriptionEmail 7) = 250 /\
  Up (life h !!! 7) = 100 /\ through h = 3600 /\
  250 = Up (life (file_view 1 (s_disk demo_flushed)) !!! 7) +
        pending UpDir (SubscriptionEmail 7) (through (file_view 1 (s_disk demo_flushed))) (agent_buckets demo_flushed).
Proof.
  assert (s_given demo_flushed UpDir (SubscriptionEmail 7) = 250) as Hg by (vm_compute; reflexivity).
  split; [exact Hg|]. split; [vm_compute; reflexivity|]. split; [vm_compute; reflexivity|].
  rewrite <-Hg. apply (exactly_once 1 1 demo_flushed ltac:(discriminate) demo_flushed_reachable).
  exact sub_id_7.
Defined.

(** The acknowledgement of the first hour is on its way; when it arrives the
    second hour's bytes stay. *)
Lemma ack_drops_only_counted_witness :
  3600 ∈ s_acks demo_flushed /\
  pending UpDir (SubscriptionEmail 7) (through (file_view 1 (s_disk demo_flushed)))
    (buckets (Drain (store (s_agent demo_flushed)) 3600)) = 150.
Proof.
  assert (s_acks demo_flushed = [3600]) as Ha by (vm_compute; reflexivity).
  assert (3600 ∈ s_acks demo_flushed) as Hin by (rewrite Ha; left).
  split; [exact Hin|].
  rewrite (proj1 (ack_drops_only_counted 1 1 demo_flushed 3600 ltac:(discriminate) demo_flushed_reachable Hin _ _)).
  vm_compute. reflexivity.
Defined.

(** One poll of the two hours: 250 shown, 100 of them counted. *)
Lemma poll_shows_everything_witness :
  exists n, nodes (Poll (s_hub demo2) 1 1 (Some (Some (MkBundle (Some (bundle_of (agent_buckets demo2))) None)))
                 (8000 * second) true).1.1 !! 1 = Some n /\ shown UpDir 7 n = 250.
Proof.
  destruct (Poll (s_hub demo2) 1 1 (Some (Some (MkBundle (Some (bundle_of (agent_buckets demo2))) None)))
    (8000 * second) true) as [[c smp] ack] eqn:E.
  destruct (poll_shows_everything 1 1 demo2 (8000 * second) true None c smp ack) as (n & Hn & Hs).
  - discriminate.
  - exact demo2_reachable.
  - apply (bool_decide_unpack _). vm_compute. exact I.
  - exact E.
  - exists n. split; [exact Hn|]. rewrite (Hs 7 UpDir sub_id_7). vm_compute. reflexivity.
Defined.
