(* ===== verification/HubState.v ===== *)
(** * The hub's state: nodes, subscriptions, and who is on which node

    Models [internal/remotenodes/model] ([model.go], [validate.go],
    [persist.go]) and the store that keeps it ([internal/remotenodes/store],
    [store.go], [snapshot.go]). An instant is nanoseconds since the epoch, the
    zero [time.Time] being [zeroTime]. *)

From S2P Require Import Prelude GoString GoUnicode.

Definition second : Z := 10 ^ 9.
Definition zeroTime : Z := -62135596800 * second.
Definition IsZero (t : Z) : bool := t =? zeroTime.

(** [t.Truncate(time.Second)] counts from the zero time, a whole second. *)
Definition TruncateSecond (t : Z) : Z := t - t mod second.

Definition SchemaVersion : Z := 1.
Definition MaxNodes : Z := 3.
Definition MaxSubscriptions : Z := 10.
Definition MaxNameRunes : Z := 64.
Definition MaxTrafficLimit : Z := Z.shiftl 1 50.

(** ** Errors *)

Inductive error :=
| ErrInvalid (msg : string)
| ErrNodeLimit
| ErrSubscriptionLimit
| ErrNameTaken (name : string)
| ErrNotFound (what : string) (id : Z)
| ErrNewer (version : Z)
| ErrUnreadable
| ErrNotEmpty
| ErrBadSnapshot (e : error)
| ErrDisk
| ErrWrap (what : string) (e : error).

Definition wrap {A} (what : string) (r : result error A) : result error A :=
  match r with Ok a => Ok a | Err e => Err (ErrWrap what e) end.

(** ** Data *)

Inductive NodeState := NodeInstalling | NodeRegistered | NodeOther (s : string).
#[global] Instance NodeState_eq_dec : EqDecision NodeState.
Proof. solve_decision. Defined.

Record InstallFailure := MkFailure {
  Step : string; StepKey : string; F_Error : string; Cleanup : string; F_At : Z
}.
#[global] Instance InstallFailure_eq_dec : EqDecision InstallFailure.
Proof. solve_decision. Defined.

Definition noFailure : InstallFailure := MkFailure "" "" "" "" zeroTime.

Record Node := MkNode {
  N_ID : Z; N_Name : string; Host : string; SSHPort : Z; SSHUser : string; AgentPort : Z; EntryPort : Z;
  Arch : string; State_ : NodeState; N_CreatedAt : Z;
  RealityTarget : string; RealitySNI : string; RealityPublicKey : string; RealityShortID : string;
  RealityPrivateKey : string;
  AgentVersion : string; XrayVersion : string;
  CertNotBefore : Z; CertNotAfter : Z; SSHHostKey : string; BridgeUUID : string;
  Failure : InstallFailure
}.
#[global] Instance Node_eq_dec : EqDecision Node.
Proof. solve_decision. Defined.

Record Subscription := MkSub {
  S_ID : Z; S_Name : string; S_CreatedAt : Z;
  TrafficLimit : Z; TrafficBase : Z; TrafficCarried : Z; ExpiresAt : Z; Stopped : string
}.
#[global] Instance Subscription_eq_dec : EqDecision Subscription.
Proof. solve_decision. Defined.

Record Enablement := MkEn { SubscriptionID : Z; NodeID : Z; ClientUUID : string; Enabled : bool }.
#[global] Instance Enablement_eq_dec : EqDecision Enablement.
Proof. solve_decision. Defined.

Record Settings := MkSettings { Set_AgentPort : Z; Set_EntryPort : Z }.
#[global] Instance Settings_eq_dec : EqDecision Settings.
Proof. solve_decision. Defined.

Definition DefaultSettings : Settings := MkSettings 9090 443.

Record State := MkState {
  Version : Z; NextNodeID : Z; NextSubscriptionID : Z; Settings_ : Settings; LastBackupAt : Z;
  CACert : string; CAKey : string;
  Nodes : list Node; Subscriptions : list Subscription; Enablements : list Enablement
}.
#[global] Instance State_eq_dec : EqDecision State.
Proof. solve_decision. Defined.

Definition NewState : State := MkState SchemaVersion 1 1 DefaultSettings zeroTime "" "" [] [] [].

Definition Unfinished (n : Node) : bool :=
  bool_decide (State_ n = NodeInstalling) && negb (bool_decide (F_Error (Failure n) = "")).

Definition NodeCount (s : State) : Z := Z.of_nat (length (filter (fun n => Unfinished n = false) (Nodes s))).
Definition UnfinishedCount (s : State) : Z := Z.of_nat (length (Nodes s)) - NodeCount s.

Definition StopLimit : string := "limit".
Definition StopExpired : string := "expired".

Definition Running (s : Subscription) : bool := bool_decide (Stopped s = "").

Definition StopReason (s : Subscription) (used now : Z) : string :=
  if negb (IsZero (ExpiresAt s)) && negb (now <? ExpiresAt s) then StopExpired
  else if (0 <? TrafficLimit s) && (TrafficLimit s <=? used) then StopLimit
  else "".

Definition unknownFailure : string :=
  "The install did not finish, and the job that ran it is gone, so the hub can't say why.".

Definition with_failure (n : Node) (f : InstallFailure) : Node :=
  MkNode (N_ID n) (N_Name n) (Host n) (SSHPort n) (SSHUser n) (AgentPort n) (EntryPort n) (Arch n) (State_ n)
    (N_CreatedAt n) (RealityTarget n) (RealitySNI n) (RealityPublicKey n) (RealityShortID n)
    (RealityPrivateKey n) (AgentVersion n) (XrayVersion n) (CertNotBefore n) (CertNotAfter n)
    (SSHHostKey n) (BridgeUUID n) f.

Definition with_nodes (s : State) (ns : list Node) : State :=
  MkState (Version s) (NextNodeID s) (NextSubscriptionID s) (Settings_ s) (LastBackupAt s) (CACert s) (CAKey s)
    ns (Subscriptions s) (Enablements s).

Definition settle (n : Node) : Node :=
  if bool_decide (State_ n = NodeInstalling) && bool_decide (F_Error (Failure n) = "")
  then with_failure n (MkFailure "" "" unknownFailure "" zeroTime) else n.

Definition settleInstalls (s : State) : State := with_nodes s (settle <$> Nodes s).

Definition FindNode (s : State) (id : Z) : option Node := list_find (fun n => N_ID n = id) (Nodes s) ≫= fun p => Some p.2.
Definition FindSubscription (s : State) (id : Z) : option Subscription :=
  list_find (fun x => S_ID x = id) (Subscriptions s) ≫= fun p => Some p.2.
Definition FindEnablement (s : State) (sid nid : Z) : option Enablement :=
  list_find (fun e => SubscriptionID e = sid /\ NodeID e = nid) (Enablements s) ≫= fun p => Some p.2.

(** ** Validation of values *)

(** What [netip.ParseAddr] gives of an address. *)
Record Addr := MkAddr { Zone : string; IsUnspecified : bool; Addr_String : string }.

Definition eqb_string (a b : string) : bool := bool_decide (a = b).

Fixpoint split_on (sep : ascii) (b : bytes) : list bytes :=
  match b with
  | [] => [[]]
  | c :: b => if decide (c = sep) then [] :: split_on sep b
              else match split_on sep b with
                   | [] => [[c]]
                   | w :: ws => (c :: w) :: ws
                   end
  end.

Definition is_lower (c : ascii) : bool := between 97 122 (code c).
Definition is_upper (c : ascii) : bool := between 65 90 (code c).
Definition is_digit (c : ascii) : bool := between 48 57 (code c).

Definition lower (c : ascii) : ascii := if is_upper c then ascii_of_N (N_of_ascii c + 32) else c.

(** [strings.ToLower] of a name of ASCII letters, digits, hyphens and dots. *)
Definition ToLower (s : string) : string := of_bytes (lower <$> to_bytes s).

Definition label_char (c : ascii) : bool := is_lower c || is_upper c || is_digit c || bool_decide (c = "-"%char).

Definition validLabel (l : bytes) : bool :=
  negb (bool_decide (l = [])) && (length l <=? 63)%nat
  && negb (bool_decide (head l = Some "-"%char)) && negb (bool_decide (last l = Some "-"%char))
  && forallb label_char l.

Definition allDigits (l : bytes) : bool := forallb is_digit l && negb (bool_decide (l = [])).

Definition ValidPort (p : Z) : result error unit :=
  refuse ((p <? 1) || (65535 <? p)) (ErrInvalid "a port must be between 1 and 65535").

Definition plain (what s : string) (limit : nat) : result error unit :=
  rbind (fun _ => refuse (existsb (fun c => (code c <? 0x20) || (0x7e <? code c)) (to_bytes s))
                    (ErrInvalid (what +:+ " has a character it can't hold")))
    (refuse (limit <? length (to_bytes s))%nat (ErrInvalid (what +:+ " is longer than its limit"))).

Definition uuid_char (i : nat) (c : ascii) : bool :=
  if bool_decide (i = 8 \/ i = 13 \/ i = 18 \/ i = 23)%nat then bool_decide (c = "-"%char)
  else is_digit c || between 97 102 (code c).

Definition validUUID (s : string) : bool :=
  let b := to_bytes s in
  (length b =? 36)%nat && forallb (fun ic => uuid_char ic.1 ic.2) (imap pair b).

(** [net.SplitHostPort]. *)
Definition index_byte (c : ascii) (b : bytes) : option nat := fst <$> list_find (fun x => x = c) b.

Definition last_index (c : ascii) (b : bytes) : option nat :=
  (fun i => length b - 1 - i)%nat <$> index_byte c (reverse b).

Definition SplitHostPort (s : string) : option (string * string) :=
  let b := to_bytes s in
  i ← last_index ":" b;
  '(host, j, k) ←
    (if bool_decide (head b = Some "["%char) then
       e ← index_byte "]" b;
       if (e + 1 =? i)%nat then Some (take (e - 1) (drop 1 b), 1%nat, (e + 1)%nat) else None
     else
       let host := take i b in
       match index_byte ":" host with Some _ => None | None => Some (host, 0%nat, 0%nat) end);
  match index_byte "[" (drop j b), index_byte "]" (drop k b) with
  | None, None => Some (of_bytes host, of_bytes (drop (i + 1) b))
  | _, _ => None
  end.

Section values.
(** [fold] takes a rune to one of its case-folding class (Unicode's simple
    folding), [ParseAddr] is [netip.ParseAddr], and [loadCA] whether
    [pki.Load] takes a certificate and its key. *)
Context (fold : Z -> Z) (ParseAddr : string -> option Addr) (loadCA : string -> string -> bool).

Definition EqualFold (a b : string) : bool := bool_decide (fold <$> runes a = fold <$> runes b).

Definition ValidName (s : string) : result error unit :=
  if eqb_string (TrimSpace s) "" then Err (ErrInvalid "the name is required")
  else if negb (ValidString s) then Err (ErrInvalid "the name is not valid UTF-8")
  else if MaxNameRunes <? RuneCountInString s then Err (ErrInvalid "the name can have at most 64 characters")
  else if negb (eqb_string (TrimSpace s) s) then Err (ErrInvalid "the name must not start or end with a space")
  else refuse (existsb (fun r => IsControl r || (r =? 0x2028) || (r =? 0x2029)) (runes s))
         (ErrInvalid "the name must not contain control characters or line breaks").

Definition CleanName (s : string) : result error string :=
  let s := TrimSpace s in rbind (fun _ => Ok s) (ValidName s).

Definition CleanHost (s : string) : result error string :=
  let s := TrimSpace s in
  if eqb_string s "" then Err (ErrInvalid "the host is required") else
  match ParseAddr s with
  | Some a => if negb (eqb_string (Zone a) "") || IsUnspecified a
              then Err (ErrInvalid "not an address a server can have") else Ok (Addr_String a)
  | None =>
      let labels := split_on "." (to_bytes s) in
      let ok := (length (to_bytes s) <=? 253)%nat && forallb validLabel labels in
      if negb ok || allDigits (default [] (last labels))
      then Err (ErrInvalid "not an IP address or a host name") else Ok (ToLower s)
  end.

Definition validTarget (s : string) : result error unit :=
  match SplitHostPort s with
  | None => Err (ErrInvalid "must look like host:port")
  | Some (host, port) =>
      rbind (fun _ => match Atoi port with
                      | None => Err (ErrInvalid "has no valid port")
                      | Some p => ValidPort p
                      end) (CleanHost host)
  end.

Definition validSNI (s : string) : result error unit :=
  rbind (fun h => match ParseAddr h with
                  | Some _ => Err (ErrInvalid "the SNI must be a host name, not an IP address")
                  | None => Ok tt end) (CleanHost s).

(** ** Validation of records *)

Definition Failure_Validate (f : InstallFailure) : result error unit :=
  rbind (fun _ => refuse (eqb_string (TrimSpace (F_Error f)) "") (ErrInvalid "a failure needs an error"))
    (foldM (fun _ (t : string * string * nat) =>
       rbind (fun _ => refuse (negb (ValidString t.1.2)) (ErrInvalid (t.1.1 +:+ " is not UTF-8")))
         (refuse (t.2 <? length (to_bytes t.1.2))%nat (ErrInvalid (t.1.1 +:+ " is longer than its limit"))))
     tt [("the step", Step f, 64%nat); ("the step key", StepKey f, 64%nat);
         ("the error", F_Error f, 2000%nat); ("the cleanup error", Cleanup f, 2000%nat)]).

Definition check_ports (ps : list (string * Z)) : result error unit :=
  foldM (fun _ p => wrap p.1 (ValidPort p.2)) tt ps.

Definition Node_Validate (n : Node) : result error unit :=
  (refuse (N_ID n =? 0) (ErrInvalid "a node needs an id") ;;~
   ValidName (N_Name n) ;;~
   host <~ CleanHost (Host n) ;;
   refuse (negb (eqb_string host (Host n))) (ErrInvalid "the host must be written another way") ;;~
   check_ports [("ssh port", SSHPort n); ("agent port", AgentPort n); ("entry port", EntryPort n)] ;;~
   refuse ((SSHPort n =? AgentPort n) || (SSHPort n =? EntryPort n) || (AgentPort n =? EntryPort n))
     (ErrInvalid "the ssh, agent and entry ports must all differ") ;;~
   refuse (negb (bool_decide (State_ n = NodeInstalling)) && negb (bool_decide (State_ n = NodeRegistered)))
     (ErrInvalid "unknown node state") ;;~
   refuse (IsZero (N_CreatedAt n)) (ErrInvalid "a node needs a creation time") ;;~
   foldM (fun _ (f : string * string * nat) => plain f.1.1 f.1.2 f.2) tt
     [("the ssh user", SSHUser n, 64%nat); ("the arch", Arch n, 16%nat);
      ("the agent version", AgentVersion n, 64%nat); ("the xray version", XrayVersion n, 64%nat);
      ("the ssh host key", SSHHostKey n, 128%nat); ("the REALITY public key", RealityPublicKey n, 128%nat);
      ("the REALITY private key", RealityPrivateKey n, 128%nat);
      ("the REALITY short id", RealityShortID n, 32%nat)] ;;~
   (if eqb_string (RealityTarget n) "" then Ok tt else wrap "Reality target" (validTarget (RealityTarget n))) ;;~
   (if eqb_string (RealitySNI n) "" then Ok tt else wrap "sni" (validSNI (RealitySNI n))) ;;~
   refuse (negb (IsZero (CertNotBefore n)) && negb (IsZero (CertNotAfter n)) && negb (CertNotBefore n <? CertNotAfter n))
     (ErrInvalid "the certificate ends before it starts") ;;~
   refuse (negb (eqb_string (BridgeUUID n) "") && negb (validUUID (BridgeUUID n)))
     (ErrInvalid "the bridge client id is not a lower-case UUID") ;;~
   (if bool_decide (Failure n = noFailure) then Ok tt else
      refuse (negb (bool_decide (State_ n = NodeInstalling)))
        (ErrInvalid "only an install that didn't finish has a failure on record") ;;~
      wrap "install failure" (Failure_Validate (Failure n))))%go.

Definition Sub_Validate (s : Subscription) : result error unit :=
  (refuse (S_ID s =? 0) (ErrInvalid "a subscription needs an id") ;;~
   ValidName (S_Name s) ;;~
   refuse (IsZero (S_CreatedAt s)) (ErrInvalid "a subscription needs a creation time") ;;~
   refuse (MaxTrafficLimit <? TrafficLimit s) (ErrInvalid "the traffic limit is too large") ;;~
   refuse (negb (bool_decide (Stopped s ∈ [""; StopLimit; StopExpired])))
     (ErrInvalid "a subscription is stopped for a reason this build doesn't know"))%go.

Definition En_Validate (e : Enablement) : result error unit :=
  (refuse ((SubscriptionID e =? 0) || (NodeID e =? 0)) (ErrInvalid "an enablement needs a subscription and a node") ;;~
   refuse (negb (validUUID (ClientUUID e))) (ErrInvalid "the client id is not a lower-case UUID"))%go.

Definition validCA (cert key : string) : result error unit :=
  if eqb_string cert "" && eqb_string key "" then Ok tt
  else if eqb_string cert "" || eqb_string key ""
       then Err (ErrInvalid "the CA needs both its certificate and its key")
  else refuse (negb (loadCA cert key)) (ErrInvalid "the CA can't be loaded").

Definition Settings_Validate (s : Settings) : result error unit :=
  (check_ports [("agent port", Set_AgentPort s); ("entry port", Set_EntryPort s)] ;;~
   refuse (Set_AgentPort s =? Set_EntryPort s) (ErrInvalid "the agent and entry ports must differ"))%go.

(** ** The whole state *)

Definition nameTaken (s : State) (name : string) (except : Z) : bool :=
  existsb (fun x => negb (S_ID x =? except) && EqualFold (S_Name x) name) (Subscriptions s).

Definition check_node (s : State) (seen : gset Z) (n : Node) : result error (gset Z) :=
  (wrap "node" (Node_Validate n) ;;~
   refuse (bool_decide (N_ID n ∈ seen)) (ErrInvalid "a node id is used twice") ;;~
   refuse (NextNodeID s <=? N_ID n) (ErrInvalid "a node id is not below the id counter") ;;~
   Ok ({[N_ID n]} ∪ seen))%go.

Definition check_sub (s : State) (seen : gset Z) (x : Subscription) : result error (gset Z) :=
  (wrap "subscription" (Sub_Validate x) ;;~
   refuse (bool_decide (S_ID x ∈ seen)) (ErrInvalid "a subscription id is used twice") ;;~
   refuse (NextSubscriptionID s <=? S_ID x) (ErrInvalid "a subscription id is not below the id counter") ;;~
   refuse (nameTaken s (S_Name x) (S_ID x)) (ErrNameTaken (S_Name x)) ;;~
   Ok ({[S_ID x]} ∪ seen))%go.

Definition check_bridge (uuids : gset string) (n : Node) : result error (gset string) :=
  if eqb_string (BridgeUUID n) "" then Ok uuids else
  rbind (fun _ => Ok ({[BridgeUUID n]} ∪ uuids))
    (refuse (bool_decide (BridgeUUID n ∈ uuids)) (ErrInvalid "a node shares its bridge client id with another node")).

Definition check_en (nodes subs : gset Z) (st : gset (Z * Z) * gset string) (e : Enablement) :
    result error (gset (Z * Z) * gset string) :=
  let '(pairs, uuids) := st in
  let pair := (SubscriptionID e, NodeID e) in
  (wrap "enablement" (En_Validate e) ;;~
   refuse (negb (bool_decide (SubscriptionID e ∈ subs)) || negb (bool_decide (NodeID e ∈ nodes)))
     (ErrInvalid "an enablement points at one that doesn't exist") ;;~
   refuse (bool_decide (pair ∈ pairs)) (ErrInvalid "a subscription is on a node twice") ;;~
   refuse (bool_decide (ClientUUID e ∈ uuids)) (ErrInvalid "an enablement shares its client id with another login") ;;~
   Ok ({[pair]} ∪ pairs, {[ClientUUID e]} ∪ uuids))%go.

Definition Validate (s : State) : result error unit :=
  (refuse (negb (Version s =? SchemaVersion)) (ErrInvalid "the state version") ;;~
   wrap "settings" (Settings_Validate (Settings_ s)) ;;~
   refuse ((NextNodeID s =? 0) || (NextSubscriptionID s =? 0)) (ErrInvalid "an id counter is zero") ;;~
   validCA (CACert s) (CAKey s) ;;~
   nodes <~ foldM (check_node s) ∅ (Nodes s) ;;
   subs <~ foldM (check_sub s) ∅ (Subscriptions s) ;;
   uuids <~ foldM check_bridge ∅ (Nodes s) ;;
   foldM (check_en nodes subs) (∅, uuids) (Enablements s) ;;~
   Ok tt)%go.

Definition CheckEdit (s before : State) : result error unit :=
  (Validate s ;;~
   refuse ((MaxNodes <? NodeCount s) && (NodeCount before <? NodeCount s)) ErrNodeLimit ;;~
   refuse ((MaxSubscriptions <? Z.of_nat (length (Subscriptions s))) &&
           (length (Subscriptions before) <? length (Subscriptions s))%nat) ErrSubscriptionLimit ;;~
   refuse ((NextNodeID s <? NextNodeID before) || (NextSubscriptionID s <? NextSubscriptionID before))
     (ErrInvalid "an id counter went backwards, which would reuse an id") ;;~
   refuse (negb (eqb_string (CACert before) "") && eqb_string (CACert s) "")
     (ErrInvalid "an edit dropped the CA, which every node trusts"))%go.

(** ** The operations *)

Definition with_id (n : Node) (id created : Z) : Node :=
  MkNode id (N_Name n) (Host n) (SSHPort n) (SSHUser n) (AgentPort n) (EntryPort n) (Arch n) (State_ n)
    created (RealityTarget n) (RealitySNI n) (RealityPublicKey n) (RealityShortID n)
    (RealityPrivateKey n) (AgentVersion n) (XrayVersion n) (CertNotBefore n) (CertNotAfter n)
    (SSHHostKey n) (BridgeUUID n) (Failure n).

Definition AddNode (s : State) (n : Node) : result error (State * Node) :=
  (refuse (MaxNodes <=? NodeCount s) ErrNodeLimit ;;~
   let n := with_id n (NextNodeID s) (TruncateSecond (N_CreatedAt n)) in
   Node_Validate n ;;~
   Ok (MkState (Version s) (wrapU (NextNodeID s + 1)) (NextSubscriptionID s) (Settings_ s) (LastBackupAt s)
         (CACert s) (CAKey s) (Nodes s ++ [n]) (Subscriptions s) (Enablements s), n))%go.

Definition AddSubscription (s : State) (x : Subscription) : result error (State * Subscription) :=
  (refuse (MaxSubscriptions <=? Z.of_nat (length (Subscriptions s))) ErrSubscriptionLimit ;;~
   let x := MkSub (NextSubscriptionID s) (S_Name x) (TruncateSecond (S_CreatedAt x)) (TrafficLimit x)
              (TrafficBase x) (TrafficCarried x) (ExpiresAt x) (Stopped x) in
   Sub_Validate x ;;~
   refuse (nameTaken s (S_Name x) 0) (ErrNameTaken (S_Name x)) ;;~
   Ok (MkState (Version s) (NextNodeID s) (wrapU (NextSubscriptionID s + 1)) (Settings_ s) (LastBackupAt s)
         (CACert s) (CAKey s) (Nodes s) (Subscriptions s ++ [x]) (Enablements s), x))%go.

(** [slices.Delete] of the first record with the id. *)
Definition delete_first {A} (P : A -> Prop) `{!forall a, Decision (P a)} (l : list A) : option (list A) :=
  match list_find P l with Some (i, _) => Some (delete i l) | None => None end.

Definition RemoveNode (s : State) (id : Z) : result error State :=
  match delete_first (fun n => N_ID n = id) (Nodes s) with
  | None => Err (ErrNotFound "node" id)
  | Some ns => Ok (MkState (Version s) (NextNodeID s) (NextSubscriptionID s) (Settings_ s) (LastBackupAt s)
                     (CACert s) (CAKey s) ns (Subscriptions s) (filter (fun e => NodeID e <> id) (Enablements s)))
  end.

Definition RemoveSubscription (s : State) (id : Z) : result error State :=
  match delete_first (fun x => S_ID x = id) (Subscriptions s) with
  | None => Err (ErrNotFound "subscription" id)
  | Some xs => Ok (MkState (Version s) (NextNodeID s) (NextSubscriptionID s) (Settings_ s) (LastBackupAt s)
                     (CACert s) (CAKey s) (Nodes s) xs (filter (fun e => SubscriptionID e <> id) (Enablements s)))
  end.

(** ** The file and the store

    The file's bytes are taken at the level of what [encoding/json] reads:
    the version header, and the whole state. *)

Record stateBytes := MkStateBytes { sb_head : option Z; sb_state : option State }.

Definition Encode (s : State) : stateBytes := MkStateBytes (Some (Version s)) (Some s).

Definition Decode (b : stateBytes) : result error State :=
  match sb_head b with
  | None => Err ErrUnreadable
  | Some v =>
      if SchemaVersion <? v then Err (ErrNewer v) else
      if v <? 1 then Err ErrUnreadable else
      match sb_state b with
      | None => Err ErrUnreadable
      | Some s => rbind (fun _ => Ok (settleInstalls s)) (Validate s)
      end
  end.

Record Store := MkStore { cur : State; enc : State; st_writes : Z; st_file : option stateBytes }.

(** [Open]: [file] is what is at the path, [None] when there is no file. *)
Definition Open (file : option stateBytes) : result error Store :=
  match file with
  | None => Ok (MkStore NewState NewState 0 None)
  | Some b => rbind (fun s => Ok (MkStore s s 0 file)) (Decode b)
  end.

(** [Update]: [diskOk] is whether the atomic write works. *)
Definition Update (st : Store) (fn : State -> result error State) (diskOk : bool) : Store * result error unit :=
  match fn (cur st) with
  | Err e => (st, Err e)
  | Ok next =>
      match CheckEdit next (cur st) with
      | Err e => (st, Err e)
      | Ok _ =>
          if bool_decide (next = enc st) then (st, Ok tt)
          else if diskOk then (MkStore next next (wrapU (st_writes st + 1)) (Some (Encode next)), Ok tt)
          else (st, Err ErrDisk)
      end
  end.

Definition Snapshot (st : Store) : stateBytes := Encode (cur st).

Definition Restore (st : Store) (data : stateBytes) (diskOk : bool) : Store * result error unit :=
  match Decode data with
  | Err e => (st, Err (ErrBadSnapshot e))
  | Ok restored =>
      Update st (fun s =>
        if bool_decide (Nodes s = []) && bool_decide (Subscriptions s = []) then
          Ok (MkState (Version restored) (Z.max (NextNodeID restored) (NextNodeID s))
                (Z.max (NextSubscriptionID restored) (NextSubscriptionID s)) (Settings_ restored)
                (LastBackupAt restored) (CACert restored) (CAKey restored) (Nodes restored)
                (Subscriptions restored) (Enablements restored))
        else Err ErrNotEmpty) diskOk
  end.
End values.

(** * What a valid state is *)

Definition bridge_uuids (ns : list Node) : list string :=
  omap (fun n => if eqb_string (BridgeUUID n) "" then None else Some (BridgeUUID n)) ns.

(** Every login a node's entry could accept: the bridges' and the clients'. *)
Definition logins (s : State) : list string := bridge_uuids (Nodes s) ++ (ClientUUID <$> Enablements s).

Definition en_pair (e : Enablement) : Z * Z := (SubscriptionID e, NodeID e).

Section spec.
Context (fold : Z -> Z) (ParseAddr : string -> option Addr) (loadCA : string -> string -> bool).

Record state_spec (s : State) : Prop := {
  sp_version : Version s = SchemaVersion;
  sp_settings : Settings_Validate (Settings_ s) = Ok tt;
  sp_counters : NextNodeID s <> 0 /\ NextSubscriptionID s <> 0;
  sp_ca : validCA loadCA (CACert s) (CAKey s) = Ok tt;
  sp_nodes : Forall (fun n => Node_Validate ParseAddr n = Ok tt /\ N_ID n < NextNodeID s) (Nodes s);
  sp_node_ids : NoDup (N_ID <$> Nodes s);
  sp_subs : Forall (fun x => Sub_Validate x = Ok tt /\ S_ID x < NextSubscriptionID s) (Subscriptions s);
  sp_sub_ids : NoDup (S_ID <$> Subscriptions s);
  sp_names : forall x y, x ∈ Subscriptions s -> y ∈ Subscriptions s -> S_ID x <> S_ID y ->
    EqualFold fold (S_Name x) (S_Name y) = false;
  sp_ens : Forall (fun e => En_Validate e = Ok tt /\ SubscriptionID e ∈ S_ID <$> Subscriptions s /\
                            NodeID e ∈ N_ID <$> Nodes s) (Enablements s);
  sp_pairs : NoDup (en_pair <$> Enablements s);
  sp_logins : NoDup (logins s)
}.

(** A loop that collects keys in a set and refuses one it has seen. *)
Lemma foldM_seen {E A K} `{Countable K} (f : gset K -> A -> result E (gset K)) (key : A -> option K) (P : A -> Prop) :
  (forall seen a r, f seen a = Ok r <->
     P a /\ match key a with Some k => k ∉ seen /\ r = {[k]} ∪ seen | None => r = seen end) ->
  forall l seen r, foldM f seen l = Ok r <->
    Forall P l /\ NoDup (omap key l) /\ (forall k, k ∈ omap key l -> k ∉ seen) /\
    r = list_to_set (omap key l) ∪ seen.
Proof.
  intros Hf. induction l as [|a l IH]; intros seen r; cbn [foldM omap list_omap].
  - split.
    + intros [= <-]. split; [constructor|]. split; [constructor|]. split; [intros k Hk; by apply elem_of_nil in Hk|].
      set_solver.
    + intros (_ & _ & _ & ->). f_equal. set_solver.
  - rewrite rbind_Ok. setoid_rewrite IH. setoid_rewrite Hf. rewrite Forall_cons.
    destruct (key a) as [k|] eqn:Ek; cbn [list_omap].
    + split.
      * intros (s1 & (Ha & Hk & ->) & Hall & Hnd & Hdis & ->). split; [done|].
        split; [constructor; [|done]; intros Hin; apply (Hdis k Hin); set_solver|].
        split; [|set_solver].
        intros j [->|Hj]%elem_of_cons; [done|]. specialize (Hdis j Hj). set_solver.
      * intros ([Ha Hall] & Hnd & Hdis & ->). inversion Hnd as [|? ? Hni Hnd']; subst.
        exists ({[k]} ∪ seen). split; [split; [done|split; [apply Hdis; left|done]]|].
        split; [done|]. split; [done|]. split; [|set_solver].
        intros j Hj. specialize (Hdis j ltac:(by right)). rewrite elem_of_union, elem_of_singleton.
        intros [->|]; done.
    + naive_solver.
Qed.

Lemma wrap_Ok {A} what (r : result error A) a : wrap what r = Ok a <-> r = Ok a.
Proof. destruct r; simpl; split; congruence. Qed.

Lemma omap_Some_fmap {A B} (g : A -> B) (l : list A) : omap (fun a => Some (g a)) l = g <$> l.
Proof. induction l; cbn; [done|]. by rewrite <-IHl. Qed.

(** Runs a chain of checks, one case for each way it can end. *)
Ltac run_checks :=
  repeat match goal with
  | |- context [rbind _ (wrap _ ?r)] => destruct r as [[]|]; cbn [wrap rbind]
  | |- context [refuse ?b _] => destruct b eqn:?; cbn [refuse rbind]
  end;
  repeat match goal with
  | H : (_ || _) = true |- _ => apply orb_true_iff in H
  | H : (_ || _) = false |- _ => apply orb_false_iff in H as [? ?]
  | H : negb _ = true |- _ => apply negb_true_iff in H
  | H : negb _ = false |- _ => apply negb_false_iff in H
  | H : bool_decide _ = true |- _ => apply bool_decide_eq_true in H
  | H : bool_decide _ = false |- _ => apply bool_decide_eq_false in H
  | H : (_ <=? _) = true |- _ => apply Z.leb_le in H
  | H : (_ <=? _) = false |- _ => apply Z.leb_gt in H
  end.

Lemma check_node_Ok s seen n r :
  check_node ParseAddr s seen n = Ok r <->
  (Node_Validate ParseAddr n = Ok tt /\ N_ID n < NextNodeID s) /\ N_ID n ∉ seen /\ r = {[N_ID n]} ∪ seen.
Proof.
  unfold check_node. run_checks; intuition (congruence || lia).
Qed.

Lemma nameTaken_false s name except :
  nameTaken fold s name except = false <->
  forall x, x ∈ Subscriptions s -> S_ID x <> except -> EqualFold fold (S_Name x) name = false.
Proof.
  unfold nameTaken. induction (Subscriptions s) as [|y l IH]; cbn [existsb].
  - split; [|done]. intros _ x Hx. by apply elem_of_nil in Hx.
  - rewrite orb_false_iff, IH, andb_false_iff, negb_false_iff, Z.eqb_eq. split.
    + intros [H1 H2] x [->|Hx]%elem_of_cons Hne; [by destruct H1|by apply H2].
    + intros H. split.
      * destruct (decide (S_ID y = except)); [by left|right]. apply H; [left|done].
      * intros x Hx. apply H. by right.
Qed.

Lemma check_sub_Ok s seen x r :
  check_sub fold s seen x = Ok r <->
  ((Sub_Validate x = Ok tt /\ S_ID x < NextSubscriptionID s) /\ nameTaken fold s (S_Name x) (S_ID x) = false) /\
  S_ID x ∉ seen /\ r = {[S_ID x]} ∪ seen.
Proof.
  unfold check_sub. run_checks; intuition (congruence || lia).
Qed.

Lemma check_bridge_Ok seen n r :
  check_bridge seen n = Ok r <->
  True /\ match (if eqb_string (BridgeUUID n) "" then None else Some (BridgeUUID n)) with
          | Some k => k ∉ seen /\ r = {[k]} ∪ seen | None => r = seen end.
Proof.
  unfold check_bridge. destruct (eqb_string (BridgeUUID n) "").
  - split; [intros [= ->]; done|intros [_ ->]; done].
  - run_checks; intuition congruence.
Qed.

Lemma check_en_Ok nodes subs ps us e r :
  check_en nodes subs (ps, us) e = Ok r <->
  (En_Validate e = Ok tt /\ SubscriptionID e ∈ subs /\ NodeID e ∈ nodes) /\
  en_pair e ∉ ps /\ ClientUUID e ∉ us /\ r = ({[en_pair e]} ∪ ps, {[ClientUUID e]} ∪ us).
Proof.
  unfold check_en, en_pair. run_checks;
    repeat match goal with H : _ \/ _ |- _ => destruct H as [H|H] end; run_checks; intuition congruence.
Qed.

Lemma check_ens_Ok nodes subs l ps us :
  (exists r, foldM (check_en nodes subs) (ps, us) l = Ok r) <->
  Forall (fun e => En_Validate e = Ok tt /\ SubscriptionID e ∈ subs /\ NodeID e ∈ nodes) l /\
  NoDup (en_pair <$> l) /\ NoDup (ClientUUID <$> l) /\
  (forall e, e ∈ l -> en_pair e ∉ ps /\ ClientUUID e ∉ us).
Proof.
  revert ps us. induction l as [|e l IH]; intros ps us; cbn [foldM].
  - split; [|by eexists]. intros _. split; [constructor|]. split; [constructor|]. split; [constructor|].
    intros e He. by apply elem_of_nil in He.
  - rewrite Forall_cons, !fmap_cons, !NoDup_cons. split.
    + intros [r Hr]. apply rbind_Ok in Hr as ([ps' us'] & He & Hr).
      apply check_en_Ok in He as (HP & Hp & Hu & [= -> ->]).
      destruct (proj1 (IH _ _) (ex_intro _ r Hr)) as (Hall & Hnp & Hnu & Hd).
      split; [done|]. split; [split; [|done]|split; [split; [|done]|]].
      * intros (a & Ha & Hin)%list_elem_of_fmap. destruct (Hd a Hin) as [Hx _]. rewrite <-Ha in Hx. set_solver.
      * intros (a & Ha & Hin)%list_elem_of_fmap. destruct (Hd a Hin) as [_ Hx]. rewrite <-Ha in Hx. set_solver.
      * intros a [->|Ha]%elem_of_cons; [done|]. destruct (Hd a Ha). set_solver.
    + intros ([HP Hall] & [Hp1 Hp2] & [Hu1 Hu2] & Hd). destruct (Hd e ltac:(left)) as [Hpe Hue].
      destruct (proj2 (IH ({[en_pair e]} ∪ ps) ({[ClientUUID e]} ∪ us))) as [r Hr].
      { split; [done|]. split; [done|]. split; [done|]. intros a Ha. destruct (Hd a ltac:(by right)).
        rewrite !elem_of_union, !elem_of_singleton. split; intros [He|]; try done.
        - apply Hp1. rewrite <-He. by apply list_elem_of_fmap_2.
        - apply Hu1. rewrite <-He. by apply list_elem_of_fmap_2. }
      exists r. apply rbind_Ok. exists ({[en_pair e]} ∪ ps, {[ClientUUID e]} ∪ us). split; [|done].
      by apply check_en_Ok.
Qed.

Lemma check_nodes_fold s r :
  foldM (check_node ParseAddr s) ∅ (Nodes s) = Ok r <->
  Forall (fun n => Node_Validate ParseAddr n = Ok tt /\ N_ID n < NextNodeID s) (Nodes s) /\
  NoDup (N_ID <$> Nodes s) /\ r = list_to_set (N_ID <$> Nodes s).
Proof.
  rewrite (foldM_seen _ (fun n => Some (N_ID n)) _ (check_node_Ok s)), omap_Some_fmap, (right_id_L ∅ (∪)).
  set_solver.
Qed.

Lemma check_subs_fold s r :
  foldM (check_sub fold s) ∅ (Subscriptions s) = Ok r <->
  (Forall (fun x => Sub_Validate x = Ok tt /\ S_ID x < NextSubscriptionID s) (Subscriptions s) /\
   (forall x y, x ∈ Subscriptions s -> y ∈ Subscriptions s -> S_ID x <> S_ID y ->
      EqualFold fold (S_Name x) (S_Name y) = false)) /\
  NoDup (S_ID <$> Subscriptions s) /\ r = list_to_set (S_ID <$> Subscriptions s).
Proof.
  rewrite (foldM_seen _ (fun x => Some (S_ID x)) _ (check_sub_Ok s)), omap_Some_fmap, (right_id_L ∅ (∪)).
  rewrite Forall_and.
  assert (Forall (fun x => nameTaken fold s (S_Name x) (S_ID x) = false) (Subscriptions s) <->
    (forall x y, x ∈ Subscriptions s -> y ∈ Subscriptions s -> S_ID x <> S_ID y ->
      EqualFold fold (S_Name x) (S_Name y) = false)) as ->; [|set_solver].
  rewrite Forall_forall. setoid_rewrite nameTaken_false. split; [|by eauto].
  intros H x y Hx Hy Hne. by apply (H y Hy x).
Qed.

Lemma check_bridges_fold s r :
  foldM check_bridge ∅ (Nodes s) = Ok r <->
  NoDup (bridge_uuids (Nodes s)) /\ r = list_to_set (bridge_uuids (Nodes s)).
Proof.
  rewrite (foldM_seen _ _ (fun _ => True) check_bridge_Ok), (right_id_L ∅ (∪)). unfold bridge_uuids.
  assert (Forall (fun _ : Node => True) (Nodes s)) by (by apply Forall_true). set_solver.
Qed.

Lemma Validate_Ok s : Validate fold ParseAddr loadCA s = Ok tt <-> state_spec s.
Proof.
  unfold Validate. rewrite rbind_Ok. setoid_rewrite rbind_Ok. setoid_rewrite rbind_Ok. setoid_rewrite rbind_Ok.
  setoid_rewrite rbind_Ok. setoid_rewrite rbind_Ok. setoid_rewrite rbind_Ok. setoid_rewrite rbind_Ok.
  split.
  - intros ([] & Hv & [] & Hset & [] & Hc & [] & Hca & ns & Hn & ss & Hs & us & Hu & r & He & _).
    apply refuse_Ok, negb_false_iff, Z.eqb_eq in Hv. apply wrap_Ok in Hset.
    apply refuse_Ok, orb_false_iff in Hc as [Hc1%Z.eqb_neq Hc2%Z.eqb_neq].
    apply check_nodes_fold in Hn as (Hn1 & Hn2 & ->). apply check_subs_fold in Hs as ((Hs1 & Hs2) & Hs3 & ->).
    apply check_bridges_fold in Hu as (Hu1 & ->).
    destruct (proj1 (check_ens_Ok _ _ _ _ _) (ex_intro _ r He)) as (He1 & He2 & He3 & He4).
    split; try done.
    + eapply Forall_impl; [exact He1|]. intros e. simpl. rewrite !elem_of_list_to_set. done.
    + unfold logins. apply NoDup_app. split; [done|]. split; [|done].
      intros u Hu (e & -> & Hin)%list_elem_of_fmap. destruct (He4 e Hin) as [_ Hx].
      rewrite elem_of_list_to_set in Hx. done.
  - intros [Hv Hset [Hc1 Hc2] Hca Hn1 Hn2 Hs1 Hs3 Hs2 He1 He2 Hl].
    apply NoDup_app in Hl as (Hu & Hd & Hnu).
    destruct (proj2 (check_ens_Ok (list_to_set (N_ID <$> Nodes s)) (list_to_set (S_ID <$> Subscriptions s))
      (Enablements s) ∅ (list_to_set (bridge_uuids (Nodes s))))) as [r Hr].
    { split; [|split; [done|split; [done|]]].
      - eapply Forall_impl; [exact He1|]. intros e. simpl. rewrite !elem_of_list_to_set. done.
      - intros e He. split; [set_solver|]. rewrite elem_of_list_to_set. intros Hin. apply (Hd _ Hin).
        by apply list_elem_of_fmap_2. }
    exists tt. split; [apply refuse_Ok, negb_false_iff, Z.eqb_eq; done|].
    exists tt. split; [by apply wrap_Ok|].
    exists tt. split; [apply refuse_Ok, orb_false_iff; by rewrite !Z.eqb_neq|].
    exists tt. split; [done|].
    exists (list_to_set (N_ID <$> Nodes s)). split; [by apply check_nodes_fold|].
    exists (list_to_set (S_ID <$> Subscriptions s)). split; [by apply check_subs_fold|].
    exists (list_to_set (bridge_uuids (Nodes s))). split; [by apply check_bridges_fold|].
    by exists r.
Qed.

Lemma CheckEdit_Ok s b :
  CheckEdit fold ParseAddr loadCA s b = Ok tt <->
  state_spec s /\
  (NodeCount s <= MaxNodes \/ NodeCount s <= NodeCount b) /\
  (Z.of_nat (length (Subscriptions s)) <= MaxSubscriptions \/
   (length (Subscriptions s) <= length (Subscriptions b))%nat) /\
  NextNodeID b <= NextNodeID s /\ NextSubscriptionID b <= NextSubscriptionID s /\
  (CACert b <> "" -> CACert s <> "").
Proof.
  assert (((MaxNodes <? NodeCount s) && (NodeCount b <? NodeCount s)) = false <->
    NodeCount s <= MaxNodes \/ NodeCount s <= NodeCount b) as A1 by (rewrite andb_false_iff, !Z.ltb_ge; done).
  assert (((MaxSubscriptions <? Z.of_nat (length (Subscriptions s))) &&
           (length (Subscriptions b) <? length (Subscriptions s))%nat) = false <->
    Z.of_nat (length (Subscriptions s)) <= MaxSubscriptions \/
    (length (Subscriptions s) <= length (Subscriptions b))%nat) as A2
    by (rewrite andb_false_iff, Z.ltb_ge, Nat.ltb_ge; done).
  assert (((NextNodeID s <? NextNodeID b) || (NextSubscriptionID s <? NextSubscriptionID b)) = false <->
    NextNodeID b <= NextNodeID s /\ NextSubscriptionID b <= NextSubscriptionID s) as A3
    by (rewrite orb_false_iff, !Z.ltb_ge; done).
  assert ((negb (eqb_string (CACert b) "") && eqb_string (CACert s) "") = false <->
    (CACert b <> "" -> CACert s <> "")) as A4.
  { unfold eqb_string. rewrite andb_false_iff, negb_false_iff, bool_decide_eq_true, bool_decide_eq_false.
    destruct (decide (CACert b = "")); intuition. }
  unfold CheckEdit. rewrite <-Validate_Ok, <-A1, <-A2, <-A4. split.
  - intros H. apply rbind_Ok in H as ([] & H1 & H). apply rbind_Ok in H as ([] & H2%refuse_Ok & H).
    apply rbind_Ok in H as ([] & H3%refuse_Ok & H). apply rbind_Ok in H as ([] & H4%refuse_Ok & H5%refuse_Ok).
    apply A3 in H4 as [? ?]. done.
  - intros (H1 & H2 & H3 & H4 & H5 & H6). rewrite H1. cbn [rbind].
    by rewrite H2, H3, (proj2 A3 (conj H4 H5)), H6.
Qed.
End spec.

(** What the validation accepts is exactly a well-formed state: ids unique
    and below their counters, names unique up to case, every switch pointing at
    a subscription and a node that exist and given once, and no login (a
    bridge's or a client's) shared by two. *)
Theorem validate_reflects fold ParseAddr loadCA s :
  Validate fold ParseAddr loadCA s = Ok tt <-> state_spec fold ParseAddr loadCA s.
Proof. apply Validate_Ok. Qed.
