(* ===== verification/HubStore.v ===== *)
(** * The hub's state over its life

    Theorems on the state and its store ([HubState]): what an accepted state
    satisfies, that the model's own edits are accepted, and what holds over any
    run of updates, failed writes and restarts. *)

From S2P Require Import Prelude GoString GoUnicode HubState.

Section store.
Context (fold : Z -> Z) (ParseAddr : string -> option Addr) (loadCA : string -> string -> bool).

Abbreviation spec := (state_spec fold ParseAddr loadCA).

(** ** A state read back from its file *)

Lemma settle_id n : N_ID (settle n) = N_ID n.
Proof. unfold settle. by destruct (_ && _). Qed.

Lemma settle_bridge n : BridgeUUID (settle n) = BridgeUUID n.
Proof. unfold settle. by destruct (_ && _). Qed.

Lemma settle_bridges l : bridge_uuids (settle <$> l) = bridge_uuids l.
Proof.
  unfold bridge_uuids. induction l as [|n l IH]; [done|]. cbn. rewrite settle_bridge.
  destruct (eqb_string (BridgeUUID n) ""); cbn in IH |- *; by rewrite IH.
Qed.

Lemma unknownFailure_ok : Failure_Validate (MkFailure "" "" unknownFailure "" zeroTime) = Ok tt.
Proof. vm_compute. reflexivity. Qed.

Lemma settle_Validate n : Node_Validate ParseAddr n = Ok tt -> Node_Validate ParseAddr (settle n) = Ok tt.
Proof.
  unfold settle. destruct (_ && _) eqn:E; [|done].
  apply andb_true_iff in E as [Hs%bool_decide_eq_true _].
  unfold Node_Validate. cbn [with_failure N_ID N_Name Host SSHPort AgentPort EntryPort State_ N_CreatedAt SSHUser
    Arch AgentVersion XrayVersion SSHHostKey RealityPublicKey RealityPrivateKey RealityShortID RealityTarget
    RealitySNI CertNotBefore CertNotAfter BridgeUUID Failure].
  intros H.
  repeat (apply rbind_Ok in H as (? & ?Hc & H)).
  repeat match goal with Hc : ?r = Ok _ |- context [rbind _ ?r] => rewrite Hc; cbn [rbind] end.
  rewrite bool_decide_eq_false_2 by done. rewrite Hs, bool_decide_eq_true_2 by done.
  cbn [refuse negb rbind]. by rewrite unknownFailure_ok.
Qed.

Lemma settle_spec s : spec s -> spec (settleInstalls s).
Proof.
  intros []. split; try done; cbn [settleInstalls with_nodes Nodes Enablements Subscriptions NextNodeID].
  - rewrite Forall_fmap. eapply Forall_impl; [done|]. intros n [Hv Hlt]. cbn.
    rewrite settle_id. split; [by apply settle_Validate|done].
  - rewrite <-list_fmap_compose. rewrite (list_fmap_ext _ N_ID); [done|]. intros i n _. apply settle_id.
  - rewrite <-list_fmap_compose.
    rewrite (list_fmap_ext (N_ID ∘ settle) N_ID); [done|]. intros i n _. apply settle_id.
  - unfold logins in *. cbn [settleInstalls with_nodes Nodes Enablements].
    by rewrite settle_bridges.
Qed.

Lemma settle_count s : NodeCount (settleInstalls s) <= NodeCount s.
Proof.
  unfold NodeCount. apply inj_le. cbn [settleInstalls with_nodes Nodes].
  induction (Nodes s) as [|n l IH]; [done|]. rewrite fmap_cons, !filter_cons.
  assert (Unfinished (settle n) = false -> Unfinished n = false) as Hu.
  { unfold settle. destruct (_ && _) eqn:E; [|done]. unfold Unfinished. cbn [with_failure State_ Failure].
    apply andb_true_iff in E as [Hs%bool_decide_eq_true _]. rewrite Hs.
    rewrite bool_decide_eq_true_2 by done. done. }
  destruct (decide (Unfinished (settle n) = false)) as [H1|H1].
  - rewrite decide_True by auto. cbn. lia.
  - case_decide; cbn; lia.
Qed.

(** ** The store *)

Record store_inv (st : Store) : Prop := {
  si_spec : spec (cur st);
  si_enc : enc st = cur st;
  si_nodes : NodeCount (cur st) <= MaxNodes;
  si_subs : Z.of_nat (length (Subscriptions (cur st))) <= MaxSubscriptions;
  si_file : match st_file st with
            | None => cur st = NewState
            | Some b => exists f, b = Encode f /\ spec f /\ (cur st = f \/ cur st = settleInstalls f)
            end
}.

(** A life of the store: updates with any edit, that work, are refused or fail
    at the disk, and restarts from the file. *)
Inductive store_step : Store -> Store -> Prop :=
| st_update st fn diskOk st' r :
    Update fold ParseAddr loadCA st fn diskOk = (st', r) -> store_step st st'
| st_restart st st' : Open fold ParseAddr loadCA (st_file st) = Ok st' -> store_step st st'.

Definition store_run : Store -> Store -> Prop := rtc store_step.

Definition fresh : Store := MkStore NewState NewState 0 None.

Lemma NewState_spec : spec NewState.
Proof. apply Validate_Ok. vm_compute. reflexivity. Qed.

Lemma fresh_inv : store_inv fresh.
Proof. split; [apply NewState_spec|done|vm_compute; discriminate|vm_compute; discriminate|done]. Qed.

Lemma Decode_Encode f : spec f -> Decode fold ParseAddr loadCA (Encode f) = Ok (settleInstalls f).
Proof.
  intros Hf. unfold Decode, Encode. cbn [sb_head sb_state]. rewrite (sp_version _ _ _ _ Hf).
  change (SchemaVersion <? SchemaVersion) with false. change (SchemaVersion <? 1) with false. cbn.
  by rewrite (proj2 (Validate_Ok fold ParseAddr loadCA f) Hf).
Qed.

Lemma settle_idem s : settleInstalls (settleInstalls s) = settleInstalls s.
Proof.
  unfold settleInstalls at 1 3. cbn [settleInstalls with_nodes Nodes]. unfold with_nodes. cbn. f_equal.
  rewrite <-list_fmap_compose. apply list_fmap_ext. intros i n _. cbn. unfold settle at 2 3.
  destruct (bool_decide (State_ n = NodeInstalling) && bool_decide (F_Error (Failure n) = "")) eqn:E.
  - unfold settle. cbn [with_failure State_ Failure F_Error].
    rewrite (bool_decide_eq_false_2 (unknownFailure = "")) by done. by rewrite andb_false_r.
  - unfold settle. by rewrite E.
Qed.

(** What a step can do: nothing, an accepted edit, or a restart. *)
Lemma store_step_cases st st' :
  store_inv st -> store_step st st' ->
  cur st' = cur st /\ st' = st \/
  (CheckEdit fold ParseAddr loadCA (cur st') (cur st) = Ok tt /\ enc st' = cur st' /\
   st_file st' = Some (Encode (cur st'))) \/
  (cur st' = settleInstalls (cur st) /\ enc st' = cur st' /\ st_file st' = st_file st).
Proof.
  intros Hinv Hst. revert Hinv. destruct Hst as [st0 fn diskOk st1 r Hu|st0 st1 Ho]; intros Hinv.
  - unfold Update in Hu. destruct (fn (cur st0)) as [next|e]; [|injection Hu as <- _; by left].
    destruct (CheckEdit _ _ _ _ _) as [[]|e] eqn:Ec; [|injection Hu as <- _; by left].
    destruct (bool_decide _); [injection Hu as <- _; by left|].
    destruct diskOk; injection Hu as <- _; [right; left; done|by left].
  - pose proof (si_file _ Hinv) as Hf. right; right. unfold Open in Ho.
    destruct (st_file st0) as [b|] eqn:Ef; rewrite ?Ef in Hf.
    + destruct Hf as (f & -> & Hs & Hc). rewrite Decode_Encode in Ho by done. cbn in Ho.
      injection Ho as <-. cbn. split; [|done]. destruct Hc as [->| ->]; [done|by rewrite settle_idem].
    + injection Ho as <-. rewrite Hf. done.
Qed.

Lemma store_step_inv st st' : store_inv st -> store_step st st' -> store_inv st'.
Proof.
  intros Hinv Hst. destruct (store_step_cases st st' Hinv Hst) as [[_ ->]|[(Hc & He & Hf)|(Hc & He & Hf)]]; [done|..].
  - apply CheckEdit_Ok in Hc as (Hs & Hn & Hx & _). destruct Hinv. split; try done; [lia|lia|].
    rewrite Hf. exists (cur st'). auto.
  - pose proof (settle_count (cur st)). destruct Hinv. split; rewrite ?Hc; try done.
    + by apply settle_spec.
    + by rewrite He, Hc.
    + lia.
    + rewrite Hf. destruct (st_file st) as [b|].
      * destruct si_file0 as (f & ? & ? & Hor). exists f. split; [done|]. split; [done|]. right.
        destruct Hor as [->| ->]; [done|apply settle_idem].
      * by rewrite si_file0.
Qed.

(** An accepted edit, when the disk takes it, is the new state. *)
Lemma Update_accepted st fn next :
  store_inv st -> fn (cur st) = Ok next ->
  CheckEdit fold ParseAddr loadCA next (cur st) = Ok tt ->
  exists st', Update fold ParseAddr loadCA st fn true = (st', Ok tt) /\ cur st' = next /\ store_inv st'.
Proof.
  intros Hi Hf Hc.
  assert (exists st', Update fold ParseAddr loadCA st fn true = (st', Ok tt) /\ cur st' = next) as (st' & Hu & Hn).
  { unfold Update. rewrite Hf, Hc. case_bool_decide as He; [|by eexists].
    exists st. split; [done|]. rewrite He. symmetry. apply Hi. }
  exists st'. split; [done|]. split; [done|].
  eapply store_step_inv; [exact Hi|]. by eapply st_update.
Qed.

Lemma store_run_inv st st' : store_inv st -> store_run st st' -> store_inv st'.
Proof. intros Hi Hr. induction Hr as [|a b c Hab _ IH]; [done|]. apply IH. by eapply store_step_inv. Qed.

(** The id counters only go up. *)
Lemma store_run_counters st st' :
  store_inv st -> store_run st st' ->
  NextNodeID (cur st) <= NextNodeID (cur st') /\ NextSubscriptionID (cur st) <= NextSubscriptionID (cur st').
Proof.
  intros Hi Hr. induction Hr as [|a b c Hab _ IH]; [done|].
  destruct (IH (store_step_inv a b Hi Hab)).
  destruct (store_step_cases a b Hi Hab) as [[Hc _]|[(Hc & _)|(Hc & _)]]; [by rewrite Hc in *| |].
  - apply CheckEdit_Ok in Hc as (_ & _ & _ & ? & ? & _). lia.
  - rewrite Hc in *. done.
Qed.

(** ** The model's own edits *)

Lemma delete_first_Some {A} (P : A -> Prop) `{!forall a, Decision (P a)} l l' :
  delete_first P l = Some l' ->
  l' `sublist_of` l /\ exists x, x ∈ l /\ P x /\ forall y, y ∈ l -> y ∈ l' \/ y = x.
Proof.
  unfold delete_first. destruct (list_find P l) as [[i x]|] eqn:E; [|done]. intros [= <-].
  apply list_find_Some in E as (Hi & Hx & _). split; [apply sublist_delete|].
  exists x. split; [by eapply list_elem_of_lookup_2|]. split; [done|]. intros y Hy.
  rewrite delete_take_drop. rewrite <-(take_drop_middle l i x Hi) in Hy.
  rewrite elem_of_app, elem_of_cons in Hy. rewrite elem_of_app. tauto.
Qed.

Lemma omap_sublist {A B} (f : A -> option B) l k : l `sublist_of` k -> omap f l `sublist_of` omap f k.
Proof.
  induction 1 as [|x l k _ IH|x l k _ IH]; cbn; [done|..].
  - destruct (f x); [by constructor|done].
  - destruct (f x); [by constructor|done].
Qed.

(** Taking records out of a valid state leaves a valid state, as long as what
    is left of the switches points at what is left. *)
Lemma spec_shrink s ns xs es :
  spec s -> ns `sublist_of` Nodes s -> xs `sublist_of` Subscriptions s -> es `sublist_of` Enablements s ->
  (forall e, e ∈ es -> SubscriptionID e ∈ S_ID <$> xs /\ NodeID e ∈ N_ID <$> ns) ->
  spec (MkState (Version s) (NextNodeID s) (NextSubscriptionID s) (Settings_ s) (LastBackupAt s) (CACert s)
          (CAKey s) ns xs es).
Proof.
  intros [] Hn Hx He Href. split; cbn; try done.
  - rewrite Forall_forall in *. intros n Hin. apply sp_nodes. by eapply elem_of_sublist.
  - eapply sublist_NoDup; [exact sp_node_ids|by apply fmap_sublist].
  - rewrite Forall_forall in *. intros x Hin. apply sp_subs. by eapply elem_of_sublist.
  - eapply sublist_NoDup; [exact sp_sub_ids|by apply fmap_sublist].
  - intros x y Hx' Hy'. apply sp_names; by eapply elem_of_sublist.
  - rewrite Forall_forall in *. intros e Hin. destruct (Href e Hin).
    destruct (sp_ens e) as (? & _ & _); [by eapply elem_of_sublist|]. done.
  - eapply sublist_NoDup; [exact sp_pairs|by apply fmap_sublist].
  - eapply sublist_NoDup; [exact sp_logins|]. unfold logins. cbn. apply sublist_app; [|by apply fmap_sublist].
    by apply omap_sublist.
Qed.

Lemma RemoveNode_accepted s id s' :
  spec s -> RemoveNode s id = Ok s' -> CheckEdit fold ParseAddr loadCA s' s = Ok tt.
Proof.
  intros Hs Hr. unfold RemoveNode in Hr. destruct (delete_first _ _) as [ns|] eqn:E; [|done].
  injection Hr as <-. apply delete_first_Some in E as (Hsub & n & Hn & Hid & Hkeep).
  apply CheckEdit_Ok. cbn. split; [|split; [|split; [right; done|done]]].
  - apply spec_shrink; try done; [apply sublist_filter|]. intros e [Hne He]%list_elem_of_filter.
    pose proof (sp_ens _ _ _ _ Hs) as Hens. rewrite Forall_forall in Hens. destruct (Hens e He) as (_ & H1 & H2).
    split; [done|]. apply list_elem_of_fmap in H2 as (n' & Hn' & Hin). rewrite Hn'.
    destruct (Hkeep n' Hin) as [| ->]; [by apply list_elem_of_fmap_2|]. congruence.
  - right. unfold NodeCount. cbn. apply inj_le, sublist_length. clear -Hsub.
    induction Hsub as [|x l k _ IH|x l k _ IH]; [done|..]; rewrite !filter_cons; case_decide; try done;
      by constructor.
Qed.

Lemma RemoveSubscription_accepted s id s' :
  spec s -> RemoveSubscription s id = Ok s' -> CheckEdit fold ParseAddr loadCA s' s = Ok tt.
Proof.
  intros Hs Hr. unfold RemoveSubscription in Hr. destruct (delete_first _ _) as [xs|] eqn:E; [|done].
  injection Hr as <-. apply delete_first_Some in E as (Hsub & n & Hn & Hid & Hkeep).
  apply CheckEdit_Ok. cbn. split; [|split; [by right|split; [right; by apply sublist_length|done]]].
  apply spec_shrink; try done; [apply sublist_filter|]. intros e [Hne He]%list_elem_of_filter.
  pose proof (sp_ens _ _ _ _ Hs) as Hens. rewrite Forall_forall in Hens. destruct (Hens e He) as (_ & H1 & H2).
  split; [|done]. apply list_elem_of_fmap in H1 as (n' & Hn' & Hin). rewrite Hn'.
  destruct (Hkeep n' Hin) as [| ->]; [by apply list_elem_of_fmap_2|]. congruence.
Qed.

Lemma AddNode_accepted s n s' n' :
  spec s -> 0 <= NextNodeID s < maxU64 -> (BridgeUUID n = "" \/ BridgeUUID n ∉ logins s) ->
  AddNode ParseAddr s n = Ok (s', n') -> CheckEdit fold ParseAddr loadCA s' s = Ok tt.
Proof.
  intros Hs Hmax Hb Ha. unfold AddNode in Ha. apply rbind_Ok in Ha as ([] & Hc%refuse_Ok%Z.leb_gt & Ha).
  apply rbind_Ok in Ha as ([] & Hv & Ha).
  set (n1 := with_id n (NextNodeID s) (TruncateSecond (N_CreatedAt n))) in *.
  injection Ha as <- <-. rewrite (wrapU_id (NextNodeID s + 1)) by word_lia.
  apply CheckEdit_Ok. cbn. split; [|split; [|split; [by right|split; [lia|done]]]].
  - destruct Hs. split; cbn; try done.
    + lia.
    + apply Forall_app. split.
      * eapply Forall_impl; [done|]. intros m [? ?]. split; [done|]. lia.
      * constructor; [|done]. split; [done|]. cbn. lia.
    + rewrite fmap_app. apply NoDup_app. split; [done|]. split; [|apply NoDup_singleton].
      intros i (m & -> & Hm)%list_elem_of_fmap Hi%list_elem_of_singleton. rewrite Forall_forall in sp_nodes.
      destruct (sp_nodes m Hm). cbn in Hi. lia.
    + eapply Forall_impl; [done|]. intros e (? & ? & ?). split; [done|]. split; [done|].
      rewrite fmap_app. apply elem_of_app. by left.
    + unfold logins in *. cbn. unfold bridge_uuids in *. rewrite omap_app, <-app_assoc.
      cbn. unfold eqb_string. case_bool_decide as He; cbn; [done|].
      destruct Hb as [|Hb]; [done|]. rewrite <-Permutation_middle. constructor; [done|]. done.
  - left. unfold NodeCount in *. cbn. rewrite filter_app, length_app.
    rewrite filter_cons, filter_nil. case_decide; cbn; unfold MaxNodes in *; lia.
Qed.

Lemma EqualFold_sym a b : EqualFold fold a b = EqualFold fold b a.
Proof. unfold EqualFold. apply bool_decide_ext. split; by intros ->. Qed.

Lemma AddSubscription_accepted s x s' x' :
  spec s -> 0 < NextSubscriptionID s < maxU64 ->
  AddSubscription fold s x = Ok (s', x') -> CheckEdit fold ParseAddr loadCA s' s = Ok tt.
Proof.
  intros Hs Hmax Ha. unfold AddSubscription in Ha. apply rbind_Ok in Ha as ([] & Hc%refuse_Ok%Z.leb_gt & Ha).
  apply rbind_Ok in Ha as ([] & Hv & Ha). apply rbind_Ok in Ha as ([] & Hname%refuse_Ok & Ha).
  cbn [S_Name] in Hname. rewrite nameTaken_false in Hname.
  set (x1 := MkSub _ _ _ _ _ _ _ _) in *.
  injection Ha as <- <-. rewrite (wrapU_id (NextSubscriptionID s + 1)) by word_lia.
  assert (forall y, y ∈ Subscriptions s -> S_ID y <> 0 /\ S_ID y < NextSubscriptionID s) as Hids.
  { intros y Hy. pose proof (sp_subs _ _ _ _ Hs) as H. rewrite Forall_forall in H. destruct (H y Hy) as [Hvy Hlt].
    split; [|done]. unfold Sub_Validate in Hvy. apply rbind_Ok in Hvy as ([] & Hz%refuse_Ok%Z.eqb_neq & _). done. }
  assert (forall y, y ∈ Subscriptions s -> EqualFold fold (S_Name y) (S_Name x1) = false) as Hnew.
  { intros y Hy. apply Hname; [done|]. by apply Hids. }
  apply CheckEdit_Ok. cbn. split; [|split; [by right|split; [left|split; [done|split; [lia|done]]]]].
  - destruct Hs. split; cbn; try done.
    + lia.
    + apply Forall_app. split.
      * eapply Forall_impl; [done|]. intros m [? ?]. split; [done|]. lia.
      * constructor; [|done]. split; [done|]. cbn. lia.
    + rewrite fmap_app. apply NoDup_app. split; [done|]. split; [|apply NoDup_singleton].
      intros i (m & -> & Hm)%list_elem_of_fmap Hi%list_elem_of_singleton. destruct (Hids m Hm). cbn in Hi. lia.
    + intros a b [Ha| ->%list_elem_of_singleton]%elem_of_app [Hb| ->%list_elem_of_singleton]%elem_of_app Hne.
      * by apply sp_names.
      * by apply Hnew.
      * rewrite EqualFold_sym. by apply Hnew.
      * done.
    + eapply Forall_impl; [done|]. intros e (? & ? & ?). split; [done|]. split; [|done].
      rewrite fmap_app. apply elem_of_app. by left.
  - rewrite length_app. cbn. unfold MaxSubscriptions in *. lia.
Qed.
End store.

(** C5. Whatever edits are tried on a store that began empty, and however often
    writes fail and the hub restarts, the state in memory is well formed, holds
    at most three nodes (unfinished installs apart) and ten subscriptions, and
    the file can be read back: opening it gives the state with its running
    installs marked unfinished. *)
Theorem store_always_good fold ParseAddr loadCA st :
  store_run fold ParseAddr loadCA fresh st ->
  state_spec fold ParseAddr loadCA (cur st) /\
  NodeCount (cur st) <= 3 /\ Z.of_nat (length (Subscriptions (cur st))) <= 10 /\
  exists st', Open fold ParseAddr loadCA (st_file st) = Ok st' /\ cur st' = settleInstalls (cur st).
Proof.
  intros Hr. pose proof (store_run_inv _ _ _ _ _ (fresh_inv _ _ _) Hr) as [Hs He Hn Hx Hf].
  split; [done|]. split; [done|]. split; [done|]. unfold Open. destruct (st_file st) as [b|].
  - destruct Hf as (f & -> & Hfs & Hc). rewrite Decode_Encode by done. eexists. split; [done|].
    cbn. destruct Hc as [->| ->]; [done|by rewrite settle_idem].
  - eexists. split; [done|]. by rewrite Hf.
Qed.

(** An id is never handed out twice: between any two moments of a store's
    life, restarts included, a node or subscription added at the later one gets
    an id that no record had at the earlier one. *)
Theorem ids_never_reused fold ParseAddr loadCA st st' n x s1 n' s2 x' :
  store_run fold ParseAddr loadCA fresh st -> store_run fold ParseAddr loadCA st st' ->
  AddNode ParseAddr (cur st') n = Ok (s1, n') -> AddSubscription fold (cur st') x = Ok (s2, x') ->
  N_ID n' ∉ N_ID <$> Nodes (cur st) /\ S_ID x' ∉ S_ID <$> Subscriptions (cur st).
Proof.
  intros H1 H2 Hn Hx. pose proof (store_run_inv _ _ _ _ _ (fresh_inv _ _ _) H1) as Hi.
  destruct (store_run_counters _ _ _ _ _ Hi H2) as [Hc1 Hc2].
  assert (N_ID n' = NextNodeID (cur st')) as En.
  { unfold AddNode in Hn. apply rbind_Ok in Hn as (? & _ & Hn). apply rbind_Ok in Hn as (? & _ & Hn).
    by injection Hn as _ <-. }
  assert (S_ID x' = NextSubscriptionID (cur st')) as Ex.
  { unfold AddSubscription in Hx. apply rbind_Ok in Hx as (? & _ & Hx). apply rbind_Ok in Hx as (? & _ & Hx).
    apply rbind_Ok in Hx as (? & _ & Hx). by injection Hx as _ <-. }
  pose proof (sp_nodes _ _ _ _ (si_spec _ _ _ _ Hi)) as Hns. rewrite Forall_forall in Hns.
  pose proof (sp_subs _ _ _ _ (si_spec _ _ _ _ Hi)) as Hxs. rewrite Forall_forall in Hxs.
  split; intros (a & Ha & Hin)%list_elem_of_fmap.
  - destruct (Hns a Hin). lia.
  - destruct (Hxs a Hin). lia.
Qed.

(** The model's own edits are edits the store takes: on any state a store
    can reach, adding a node or a subscription, where the cap and the id
    counters leave room and the node's bridge login is nobody else's, and
    removing either with its switches, pass the store's check, so that an
    [Update] whose write works succeeds and the edited state is the new one. *)
Theorem edits_accepted fold ParseAddr loadCA st fn s' :
  store_run fold ParseAddr loadCA fresh st ->
  0 < NextNodeID (cur st) < maxU64 -> 0 < NextSubscriptionID (cur st) < maxU64 ->
  (exists n n', (BridgeUUID n = "" \/ BridgeUUID n ∉ logins (cur st)) /\ AddNode ParseAddr (cur st) n = Ok (s', n')) \/
  (exists x x', AddSubscription fold (cur st) x = Ok (s', x')) \/
  (exists id, RemoveNode (cur st) id = Ok s') \/ (exists id, RemoveSubscription (cur st) id = Ok s') ->
  fn (cur st) = Ok s' ->
  exists st', Update fold ParseAddr loadCA st fn true = (st', Ok tt) /\ cur st' = s'.
Proof.
  intros Hr H1 H2 He Hf. pose proof (store_run_inv _ _ _ _ _ (fresh_inv _ _ _) Hr) as Hi.
  pose proof (si_spec _ _ _ _ Hi) as Hs.
  assert (CheckEdit fold ParseAddr loadCA s' (cur st) = Ok tt) as Hc.
  { destruct He as [(n & n' & Hb & Ha)|[(x & x' & Ha)|[[id Ha]|[id Ha]]]].
    - apply (AddNode_accepted fold ParseAddr loadCA (cur st) n s' n'); try done. lia.
    - by eapply AddSubscription_accepted.
    - by eapply RemoveNode_accepted.
    - by eapply RemoveSubscription_accepted. }
  destruct (Update_accepted _ _ _ st fn s' Hi Hf Hc) as (st' & ? & ? & _). by exists st'.
Qed.

(** ** A life, as an example *)

Definition demo_fold (r : Z) : Z := if between 65 90 r then r + 32 else r.
Definition demo_parse (_ : string) : option Addr := None.
Definition demo_ca (_ _ : string) : bool := true.

Definition demo_node : Node :=
  MkNode 0 "Frankfurt" "vps.example.org" 22 "root" 9090 443 "amd64" NodeRegistered (10 ^ 18) "" "" "" "" "" "" ""
    zeroTime zeroTime "" "0b5a3c1e-9d1f-4f6a-8a53-0c2f3b1d7e11" noFailure.

Definition demo_sub : Subscription := MkSub 0 "Ali" (10 ^ 18) 0 0 0 zeroTime "".

Definition demo_add (s : State) : result error State :=
  rbind (fun r => rbind (fun r => Ok r.1) (AddSubscription demo_fold r.1 demo_sub)) (AddNode demo_parse s demo_node).

Definition demo_store : Store := (Update demo_fold demo_parse demo_ca fresh demo_add true).1.

Lemma demo_store_run : store_run demo_fold demo_parse demo_ca fresh demo_store.
Proof. apply rtc_once, (st_update _ _ _ fresh demo_add true demo_store (Ok tt)). vm_compute. reflexivity. Qed.

Definition demo_emptied : Store :=
  (Update demo_fold demo_parse demo_ca demo_store
     (fun s => rbind (fun s => RemoveSubscription s 1) (RemoveNode s 1)) true).1.

Lemma demo_emptied_run : store_run demo_fold demo_parse demo_ca demo_store demo_emptied.
Proof.
  apply rtc_once, (st_update _ _ _ demo_store (fun s => rbind (fun s => RemoveSubscription s 1) (RemoveNode s 1))
    true demo_emptied (Ok tt)). vm_compute. reflexivity.
Qed.

Lemma store_always_good_witness :
  N_ID <$> Nodes (cur demo_store) = [1] /\ state_spec demo_fold demo_parse demo_ca (cur demo_store).
Proof.
  split; [vm_compute; reflexivity|].
  exact (proj1 (store_always_good demo_fold demo_parse demo_ca demo_store demo_store_run)).
Defined.

(** The node and the subscription are removed and added again: they get new ids. *)
Lemma ids_never_reused_witness :
  exists s1 n' s2 x',
    AddNode demo_parse (cur demo_emptied) demo_node = Ok (s1, n') /\
    AddSubscription demo_fold (cur demo_emptied) demo_sub = Ok (s2, x') /\
    N_ID n' = 2 /\ S_ID x' = 2 /\ N_ID n' ∉ N_ID <$> Nodes (cur demo_store).
Proof.
  destruct (AddNode demo_parse (cur demo_emptied) demo_node) as [[s1 n']|e] eqn:E1;
    [|vm_compute in E1; discriminate E1].
  destruct (AddSubscription demo_fold (cur demo_emptied) demo_sub) as [[s2 x']|e] eqn:E2;
    [|vm_compute in E2; discriminate E2].
  exists s1, n', s2, x'. split; [reflexivity|]. split; [reflexivity|].
  split; [vm_compute in E1; by injection E1 as _ <-|]. split; [vm_compute in E2; by injection E2 as _ <-|].
  exact (proj1 (ids_never_reused demo_fold demo_parse demo_ca demo_store demo_emptied demo_node demo_sub s1 n' s2 x'
    demo_store_run demo_emptied_run E1 E2)).
Defined.

Lemma edits_accepted_witness :
  exists s' st', RemoveNode (cur demo_store) 1 = Ok s' /\
    Update demo_fold demo_parse demo_ca demo_store (fun s => RemoveNode s 1) true = (st', Ok tt) /\ cur st' = s'.
Proof.
  destruct (RemoveNode (cur demo_store) 1) as [s'|e] eqn:E; [|vm_compute in E; discriminate E].
  destruct (edits_accepted demo_fold demo_parse demo_ca demo_store (fun s => RemoveNode s 1) s') as (st' & Hu & Hc).
  - exact demo_store_run.
  - vm_compute. split; reflexivity.
  - vm_compute. split; reflexivity.
  - right. right. left. exists 1. exact E.
  - exact E.
  - exists s', st'. split; [reflexivity|]. split; [exact Hu|exact Hc].
Defined.
