(* ===== verification/HubLimits.v ===== *)
(** * Traffic limits and end dates

    Models [internal/remotenodes/manager/limits.go] and [TrafficUsed] of
    [internal/remotenodes/api/views.go]. The manager reads the usage through
    the interface [UsageReader], which the collector implements, and changes the
    state through the store ([HubState.Update]). What reaches a node is a list
    of calls. *)

From S2P Require Import Prelude GoString GoUnicode History UsageCollector UsageReads HubState HubStore.

(** ** The interface to the usage *)

(** What the limits need of the usage: a subscription's lifetime bytes, and its
    numbers on one node at a time. *)
Class UsageReader (U : Type) := {
  lifetime : U -> Z -> Totals;
  sub_usage : U -> Z -> Z -> Z -> SubUsage;
  lifetime_u64 : U -> Prop;
  lifetime_ok : forall u sid, lifetime_u64 u -> totals_ok (lifetime u sid)
}.

Definition cutAgain : Z := 60 * HubState.second.

(** ** What a subscription has used *)

Definition TrafficUsed (sub : Subscription) (life : Z) : Z :=
  let total := wrapU (life + TrafficCarried sub) in
  let total := if total <? life then maxU64 else total in
  if total <=? TrafficBase sub then 0 else wrapU (total - TrafficBase sub).

Definition stoppedSet (st : State) : gset Z :=
  list_to_set (S_ID <$> filter (fun x => Running x = false) (Subscriptions st)).

(** The record [FindSubscription] points at, replaced: the first with the id. *)
Fixpoint replace_sub (id : Z) (x : Subscription) (l : list Subscription) : list Subscription :=
  match l with
  | [] => []
  | y :: l => if S_ID y =? id then x :: l else y :: replace_sub id x l
  end.

Definition with_subs (s : State) (xs : list Subscription) : State :=
  MkState (Version s) (NextNodeID s) (NextSubscriptionID s) (Settings_ s) (LastBackupAt s) (CACert s) (CAKey s)
    (Nodes s) xs (Enablements s).

Definition set_stopped (x : Subscription) (why : string) : Subscription :=
  MkSub (S_ID x) (S_Name x) (S_CreatedAt x) (TrafficLimit x) (TrafficBase x) (TrafficCarried x) (ExpiresAt x) why.

(** A call a node's agent gets, or a node that is pushed its config and
    restarted. *)
Inductive call :=
| CallEnable (node sub : Z)
| CallDisable (node sub : Z)
| CallCut (node : Z) (names : list string).

(** A field of a patch. *)
Record Opt (A : Type) := MkOpt { IsSet : bool; IsNull : bool; Value : A }.
Arguments MkOpt {A}. Arguments IsSet {A}. Arguments IsNull {A}. Arguments Value {A}.

Record SubscriptionPatch := MkPatch {
  P_Name : option string; P_TrafficLimit : Opt Z; P_ExpiresAt : Opt Z
}.

Section limits.
Context (fold : Z -> Z) (ParseAddr : string -> option Addr) (loadCA : string -> string -> bool).
Context {U : Type} `{UsageReader U}.

(** What a store update sees when it runs: the usage, the clock, and whether
    the disk takes the write. *)
Record moment := MkMoment { m_usage : U; m_now : Z; m_disk : bool }.

Definition trafficUsed (u : U) (sub : Subscription) : Z :=
  let t := lifetime u (S_ID sub) in TrafficUsed sub (sat (Up t) (Down t)).

(** [syncClients]; [locked] is whether the nodes could be held. The client is
    put on, or taken off, every node it is switched on at. *)
Definition syncClients (st : State) (subID : Z) (locked : bool) : list call :=
  let on := filter (fun e => SubscriptionID e = subID /\ Enabled e = true) (Enablements st) in
  if bool_decide (on = []) then [] else
  if negb locked then [] else
  match FindSubscription st subID with
  | None => []
  | Some sub =>
      (fun e => if Running sub then CallEnable (NodeID e) subID else CallDisable (NodeID e) subID) <$> on
  end.

Definition stop_edit (subID : Z) (reason : string) (m : moment) (s : State) : result error State :=
  match FindSubscription s subID with
  | None => Ok s
  | Some sub =>
      if eqb_string (Stopped sub) reason then Ok s else
      if eqb_string (StopReason sub (trafficUsed (m_usage m) sub) (m_now m)) "" then Ok s else
      Ok (with_subs s (replace_sub subID (set_stopped sub reason) (Subscriptions s)))
  end.

(** The edit's [changed]. *)
Definition stop_changes (subID : Z) (reason : string) (m : moment) (s : State) : bool :=
  match FindSubscription s subID with
  | None => false
  | Some sub =>
      negb (eqb_string (Stopped sub) reason) &&
      negb (eqb_string (StopReason sub (trafficUsed (m_usage m) sub) (m_now m)) "")
  end.

Definition stop (st : Store) (subID : Z) (reason : string) (m : moment) (locked : bool) : Store * list call :=
  let '(st', r) := Update fold ParseAddr loadCA st (stop_edit subID reason m) (m_disk m) in
  match r with
  | Err _ => (st', [])
  | Ok _ => (st', if stop_changes subID reason m (cur st) then syncClients (cur st') subID locked else [])
  end.

(** ** The periodic check *)

(** [enforceLimits] up to [cutOpen]: [m] is what the check reads, [at_] what
    the update of a subscription sees when it runs. *)
Definition enforce_one (m : moment) (at_ : Z -> moment) (locked : bool) (acc : Store * list call)
    (sub : Subscription) : Store * list call :=
  let '(st, calls) := acc in
  if negb (Running sub) then acc else
  let reason := StopReason sub (trafficUsed (m_usage m) sub) (m_now m) in
  if eqb_string reason "" then acc else
  let '(st, cs) := stop st (S_ID sub) reason (at_ (S_ID sub)) locked in (st, calls ++ cs).

Definition enforceLimits (st : Store) (m : moment) (at_ : Z -> moment) (locked : bool) : Store * list call :=
  foldl (enforce_one m at_ locked) (st, []) (Subscriptions (cur st)).

(** ** Ending open connections *)

Record cutState := MkCut { cutSeen : gmap (Z * Z) Z; cutAt : gmap Z Z }.

Definition cut_one (st : State) (u : U) (now : Z) (stopped : gset Z) (acc : cutState * gmap Z (list string))
    (e : Enablement) : cutState * gmap Z (list string) :=
  let '(c, due) := acc in
  if negb (Enabled e) || negb (bool_decide (SubscriptionID e ∈ stopped)) then acc else
  let v := sub_usage u (SubscriptionID e) (NodeID e) now in
  if negb (SU_Live v) then acc else
  let key := (SubscriptionID e, NodeID e) in
  let moved := sat (Up (SU_Month v)) (Down (SU_Month v)) in
  let grew := match cutSeen c !! key with Some before => before <? moved | None => false end in
  let seen := <[key := moved]> (cutSeen c) in
  if negb (SU_Online v) && negb grew then (MkCut seen (cutAt c), due) else
  let recent := match cutAt c !! NodeID e with Some at_ => now - at_ <? cutAgain | None => false end in
  if recent && negb (bool_decide (is_Some (due !! NodeID e))) then (MkCut seen (cutAt c), due) else
  let name := match FindSubscription st (SubscriptionID e) with Some x => S_Name x | None => "" end in
  (MkCut seen (<[NodeID e := now]> (cutAt c)),
   <[NodeID e := default [] (due !! NodeID e) ++ [name]]> due).

Definition cutOpen (st : State) (u : U) (now : Z) (c : cutState) : cutState * gmap Z (list string) :=
  let stopped := stoppedSet st in
  let c := MkCut (filter (fun kv => kv.1.1 ∈ stopped) (cutSeen c)) (cutAt c) in
  foldl (cut_one st u now stopped) (c, ∅) (Enablements st).

(** ** Changes a person makes *)

Definition checkLimits (limit expires current now : Z) : result error Z :=
  if MaxTrafficLimit <? limit then Err (ErrInvalid "The traffic limit is too large.") else
  if IsZero expires then Ok expires else
  let expires := TruncateSecond expires in
  if negb (now <? expires) && negb (expires =? current)
  then Err (ErrInvalid "The expiry date has to be in the future.") else Ok expires.

Definition patched (m : moment) (name : string) (patch : SubscriptionPatch) (sub : Subscription) :
    result error Subscription :=
  rbind (fun expires =>
    let limit := if IsSet (P_TrafficLimit patch)
                 then (if IsNull (P_TrafficLimit patch) then 0 else Value (P_TrafficLimit patch))
                 else TrafficLimit sub in
    let nm := match P_Name patch with Some _ => name | None => S_Name sub end in
    let next := MkSub (S_ID sub) nm (S_CreatedAt sub) limit (TrafficBase sub) (TrafficCarried sub) expires
                  (Stopped sub) in
    let next := if IsSet (P_TrafficLimit patch) || IsSet (P_ExpiresAt patch)
                then set_stopped next (StopReason next (trafficUsed (m_usage m) next) (m_now m)) else next in
    rbind (fun _ => Ok next) (Sub_Validate next))
  (if IsSet (P_ExpiresAt patch)
   then (if IsNull (P_ExpiresAt patch) then Ok zeroTime
         else checkLimits 0 (Value (P_ExpiresAt patch)) (ExpiresAt sub) (m_now m))
   else Ok (ExpiresAt sub)).

(** [afterLimitChange]. *)
Definition afterLimitChange (st : State) (id : Z) (was : string) (locked : bool) : list call :=
  match FindSubscription st id with
  | None => []
  | Some sub => if eqb_string (Stopped sub) was then [] else syncClients st id locked
  end.

Definition was_stopped (s : State) (id : Z) : string :=
  match FindSubscription s id with Some sub => Stopped sub | None => "" end.

Definition UpdateSubscription (st : Store) (id : Z) (patch : SubscriptionPatch) (m : moment) (locked : bool) :
    Store * result error (list call) :=
  match (match P_Name patch with Some n => CleanName n | None => Ok "" end) with
  | Err e => (st, Err e)
  | Ok name =>
      if IsSet (P_TrafficLimit patch) && negb (IsNull (P_TrafficLimit patch)) && (Value (P_TrafficLimit patch) =? 0)
      then (st, Err (ErrInvalid "The traffic limit has to be more than zero. Leave it empty for no limit."))
      else
        let '(st', r) := Update fold ParseAddr loadCA st (fun s =>
          match FindSubscription s id with
          | None => Err (ErrNotFound "subscription" id)
          | Some sub => rbind (fun next => Ok (with_subs s (replace_sub id next (Subscriptions s))))
                          (patched m name patch sub)
          end) (m_disk m) in
        match r with
        | Err e => (st', Err e)
        | Ok _ => (st', Ok (afterLimitChange (cur st') id (was_stopped (cur st) id) locked))
        end
  end.

Definition reset_sub (m : moment) (sub : Subscription) : Subscription :=
  let t := lifetime (m_usage m) (S_ID sub) in
  let x := MkSub (S_ID sub) (S_Name sub) (S_CreatedAt sub) (TrafficLimit sub)
             (sat (sat (Up t) (Down t)) (TrafficCarried sub)) (TrafficCarried sub) (ExpiresAt sub) (Stopped sub) in
  set_stopped x (StopReason x 0 (m_now m)).

Definition ResetUsage (st : Store) (id : Z) (m : moment) (locked : bool) : Store * result error (list call) :=
  let '(st', r) := Update fold ParseAddr loadCA st (fun s =>
    match FindSubscription s id with
    | None => Err (ErrNotFound "subscription" id)
    | Some sub => Ok (with_subs s (replace_sub id (reset_sub m sub) (Subscriptions s)))
    end) (m_disk m) in
  match r with
  | Err e => (st', Err e)
  | Ok _ => (st', Ok (afterLimitChange (cur st') id (was_stopped (cur st) id) locked))
  end.
End limits.

(** * Lemmas *)

Definition counts_u64 (x : Subscription) : Prop := isU64 (TrafficBase x) /\ isU64 (TrafficCarried x).

(** What is used is what was moved since the reset, what came from a backup
    included, and never below zero: nothing wraps. *)
Lemma TrafficUsed_spec x life :
  counts_u64 x -> isU64 life ->
  TrafficUsed x life = Z.max 0 (Z.min (life + TrafficCarried x) maxU64 - TrafficBase x).
Proof.
  intros [Hb Hc] Hl. unfold TrafficUsed. cbn zeta.
  assert ((if wrapU (life + TrafficCarried x) <? life then maxU64 else wrapU (life + TrafficCarried x)) =
    Z.min (life + TrafficCarried x) maxU64) as ->.
  { pose proof (sat_spec life (TrafficCarried x) Hl Hc) as <-. unfold sat. cbn zeta.
    rewrite Z.leb_antisym. by destruct (_ <? life). }
  destruct (Z.leb_spec (Z.min (life + TrafficCarried x) maxU64) (TrafficBase x)); [lia|].
  rewrite wrapU_id; [lia|]. word_lia.
Qed.

Lemma StopReason_cases x used now :
  StopReason x used now ∈ [""; StopLimit; StopExpired].
Proof. unfold StopReason. repeat case_match; set_solver. Qed.

Lemma StopReason_set x why used now : StopReason (set_stopped x why) used now = StopReason x used now.
Proof. done. Qed.

Lemma Sub_Validate_stopped x why :
  Sub_Validate x = Ok tt -> why ∈ [""; StopLimit; StopExpired] -> Sub_Validate (set_stopped x why) = Ok tt.
Proof.
  unfold Sub_Validate. cbn [set_stopped S_ID S_Name S_CreatedAt TrafficLimit Stopped]. intros H Hw.
  do 4 (apply rbind_Ok in H as ([] & ?Hc & H)).
  repeat match goal with Hc : ?r = Ok _ |- context [rbind _ ?r] => rewrite Hc; cbn [rbind] end.
  by rewrite bool_decide_eq_true_2.
Qed.

Lemma FindSubscription_Some s id x :
  FindSubscription s id = Some x -> x ∈ Subscriptions s /\ S_ID x = id.
Proof.
  unfold FindSubscription. intros Hf. apply bind_Some in Hf as ([i y] & Hf & [= ->]).
  apply list_find_Some in Hf as (Hi & ? & _). split; [by eapply list_elem_of_lookup_2|done].
Qed.

Lemma replace_sub_app id x l1 y l2 :
  (forall z, z ∈ l1 -> S_ID z <> id) -> S_ID y = id -> replace_sub id x (l1 ++ y :: l2) = l1 ++ x :: l2.
Proof.
  intros Hl Hy. induction l1 as [|z l1 IH]; cbn.
  - by rewrite (proj2 (Z.eqb_eq _ _) Hy).
  - rewrite (proj2 (Z.eqb_neq _ _)) by (apply Hl; left). rewrite IH; [done|]. intros a Ha. apply Hl. by right.
Qed.

Lemma FindSubscription_app s id l1 y l2 :
  Subscriptions s = l1 ++ y :: l2 -> (forall z, z ∈ l1 -> S_ID z <> id) -> S_ID y = id ->
  FindSubscription s id = Some y.
Proof.
  intros Hs Hl Hy. unfold FindSubscription. rewrite Hs.
  enough (list_find (fun x => S_ID x = id) (l1 ++ y :: l2) = Some (length l1, y)) as -> by done.
  apply list_find_Some. split; [by rewrite list_lookup_middle|]. split; [done|].
  intros j z Hz Hj. apply Hl. rewrite lookup_app_l in Hz by done. by eapply list_elem_of_lookup_2.
Qed.

(** The list around the record [FindSubscription] finds. *)
Lemma FindSubscription_split s id x :
  FindSubscription s id = Some x ->
  exists l1 l2, Subscriptions s = l1 ++ x :: l2 /\ (forall z, z ∈ l1 -> S_ID z <> id) /\ S_ID x = id.
Proof.
  unfold FindSubscription. intros Hf. apply bind_Some in Hf as ([i y] & Hf & [= ->]).
  apply list_find_Some in Hf as (Hi & Hx & Hbefore).
  exists (list.take i (Subscriptions s)), (drop (S i) (Subscriptions s)).
  split; [by rewrite take_drop_middle|]. split; [|done].
  intros z (j & Hj)%list_elem_of_lookup. apply lookup_take_Some in Hj as [Hj Hlt]. by apply (Hbefore j).
Qed.

Section edits.
Context (fold : Z -> Z) (ParseAddr : string -> option Addr) (loadCA : string -> string -> bool).

Abbreviation spec := (state_spec fold ParseAddr loadCA).

(** A subscription can be replaced by a valid one with its id and name. *)
Lemma replace_accepted s id sub x :
  spec s -> FindSubscription s id = Some sub -> S_ID x = id -> S_Name x = S_Name sub -> Sub_Validate x = Ok tt ->
  CheckEdit fold ParseAddr loadCA (with_subs s (replace_sub id x (Subscriptions s))) s = Ok tt.
Proof.
  intros Hs Hf Hid Hname Hv. destruct (FindSubscription_split s id sub Hf) as (l1 & l2 & Hl & Hb & Hsub).
  rewrite Hl, replace_sub_app by done.
  apply CheckEdit_Ok. cbn. split; [|split; [by right|split; [right|done]]].
  - destruct Hs. rewrite Hl in *.
    assert (S_ID <$> l1 ++ x :: l2 = S_ID <$> l1 ++ sub :: l2) as Hids
      by (rewrite !fmap_app, !fmap_cons; congruence).
    split; cbn [with_subs Version Settings_ NextNodeID NextSubscriptionID CACert CAKey Nodes Subscriptions Enablements];
      rewrite ?Hids; try done.
    + rewrite Forall_app, Forall_cons in *. destruct sp_subs as (? & [_ ?] & ?). rewrite Hid, <-Hsub. done.
    + assert (forall a, a ∈ l1 ++ x :: l2 -> exists b, b ∈ l1 ++ sub :: l2 /\ S_ID b = S_ID a /\ S_Name b = S_Name a) as Hmap.
      { intros a. rewrite elem_of_app, elem_of_cons. intros [Ha|[->|Ha]].
        - exists a. split; [set_solver|done].
        - exists sub. split; [set_solver|]. split; congruence.
        - exists a. split; [set_solver|done]. }
      intros a b Ha Hbb Hne. destruct (Hmap a Ha) as (a' & Ha' & Ea & <-).
      destruct (Hmap b Hbb) as (b' & Hb' & Eb & <-). apply sp_names; congruence.
  - rewrite Hl, !length_app. cbn. lia.
Qed.

Context {U : Type} `{UsageReader U}.
Context (m : moment (U := U)) (Hdisk : m_disk m = true).

(** What the check makes of a subscription. *)
Definition mark (x : Subscription) : Subscription :=
  if Running x then set_stopped x (StopReason x (trafficUsed (m_usage m) x) (m_now m)) else x.

Lemma mark_id x : S_ID (mark x) = S_ID x.
Proof. unfold mark. by destruct (Running x). Qed.

Lemma Running_true x : Running x = true <-> Stopped x = "".
Proof. unfold Running. apply bool_decide_eq_true. Qed.

Lemma mark_none x :
  Running x = true -> StopReason x (trafficUsed (m_usage m) x) (m_now m) = "" -> mark x = x.
Proof.
  intros Hr Hn. unfold mark. rewrite Hr, Hn. apply Running_true in Hr. destruct x. simpl in *. by subst.
Qed.

Lemma enforce_step st locked calls l1 x l2 :
  store_inv fold ParseAddr loadCA st ->
  Subscriptions (cur st) = (mark <$> l1) ++ x :: l2 -> (forall z, z ∈ l1 -> S_ID z <> S_ID x) ->
  let r := enforce_one fold ParseAddr loadCA m (fun _ => m) locked (st, calls) x in
  store_inv fold ParseAddr loadCA r.1 /\ Subscriptions (cur r.1) = (mark <$> (l1 ++ [x])) ++ l2.
Proof.
  intros Hi Hsubs Hb. cbn zeta.
  assert ((mark <$> (l1 ++ [x])) ++ l2 = (mark <$> l1) ++ mark x :: l2) as ->
    by (by rewrite fmap_app, <-app_assoc).
  unfold enforce_one. destruct (Running x) eqn:Hr; cbn [negb].
  2: { split; [done|]. cbn. unfold mark at 2. by rewrite Hr. }
  unfold eqb_string. case_bool_decide as He.
  { cbn. rewrite mark_none by done. done. }
  assert (forall z, z ∈ mark <$> l1 -> S_ID z <> S_ID x) as Hb'.
  { intros z (y & -> & Hy)%list_elem_of_fmap. rewrite mark_id. by apply Hb. }
  pose proof (FindSubscription_app (cur st) (S_ID x) _ x l2 Hsubs Hb' eq_refl) as Hfind.
  set (reason := StopReason x (trafficUsed (m_usage m) x) (m_now m)) in *.
  assert (stop_edit (S_ID x) reason m (cur st) =
    Ok (with_subs (cur st) (replace_sub (S_ID x) (set_stopped x reason) (Subscriptions (cur st))))) as Hedit.
  { unfold stop_edit. rewrite Hfind. unfold eqb_string. rewrite !bool_decide_eq_false_2; [done|done|].
    apply Running_true in Hr. rewrite Hr. congruence. }
  destruct (Update_accepted fold ParseAddr loadCA st (stop_edit (S_ID x) reason m) _ Hi Hedit) as (st' & Hu & Hc & Hi').
  { eapply replace_accepted; try done; [apply Hi|]. apply Sub_Validate_stopped; [|apply StopReason_cases].
    pose proof (sp_subs _ _ _ _ (si_spec _ _ _ _ Hi)) as Hall. rewrite Hsubs, Forall_app, Forall_cons in Hall.
    apply Hall. }
  unfold stop. rewrite Hdisk, Hu. cbn. split; [done|]. rewrite Hc. cbn.
  rewrite Hsubs, replace_sub_app by done. unfold mark at 3. by rewrite Hr.
Qed.

Lemma enforce_fold st locked calls l1 l2 :
  store_inv fold ParseAddr loadCA st -> Subscriptions (cur st) = (mark <$> l1) ++ l2 ->
  NoDup (S_ID <$> l1 ++ l2) ->
  let r := foldl (enforce_one fold ParseAddr loadCA m (fun _ => m) locked) (st, calls) l2 in
  store_inv fold ParseAddr loadCA r.1 /\ Subscriptions (cur r.1) = mark <$> (l1 ++ l2).
Proof.
  cbn zeta. revert st calls l1. induction l2 as [|x l2 IH]; intros st calls l1 Hi Hs Hnd.
  { cbn. rewrite Hs, !app_nil_r. done. }
  assert (forall z, z ∈ l1 -> S_ID z <> S_ID x) as Hb.
  { rewrite fmap_app, fmap_cons in Hnd. apply NoDup_app in Hnd as (_ & Hd & _). intros z Hz He.
    apply (Hd (S_ID z)); [by apply list_elem_of_fmap_2|]. rewrite He. left. }
  destruct (enforce_step st locked calls l1 x l2 Hi Hs Hb) as [Hi' Hs'].
  cbn [foldl]. destruct (enforce_one _ _ _ _ _ _ (st, calls) x) as [st1 c1]. cbn [fst] in *.
  destruct (IH st1 c1 (l1 ++ [x]) Hi' Hs') as [H1 H2].
  { by rewrite <-app_assoc. }
  split; [done|]. by rewrite H2, <-app_assoc.
Qed.
End edits.

(** ** Cutting *)

(** What a look at the open connections leaves of a node's restarts: a node is
    restarted only when it never was, or long enough ago, and then its time is
    now; any other node's time stays. *)
Definition cut_ok (now : Z) (before : gmap Z Z) (acc : cutState * gmap Z (list string)) : Prop :=
  forall id, match acc.2 !! id with
             | Some _ => cutAt acc.1 !! id = Some now /\
                         (forall t, before !! id = Some t -> cutAgain <= now - t)
             | None => cutAt acc.1 !! id = before !! id
             end.

Lemma cut_one_ok {U} `{UsageReader U} st (u : U) now stopped before acc e :
  cut_ok now before acc -> cut_ok now before (cut_one st u now stopped acc e).
Proof.
  intros Hok. destruct acc as [c due]. unfold cut_one.
  destruct (_ || _); [done|]. destruct (negb (SU_Live _)); [done|].
  destruct (negb (SU_Online _) && _); [done|].
  destruct (_ && negb (bool_decide (is_Some (due !! NodeID e)))) eqn:E; [done|].
  intros id. cbn. destruct (decide (id = NodeID e)) as [->|Hne].
  - rewrite !lookup_insert_eq. split; [done|]. intros t Ht. specialize (Hok (NodeID e)). cbn in Hok.
    destruct (due !! NodeID e) as [ns|] eqn:Ed; [by apply Hok|].
    rewrite Hok, Ht in E. rewrite bool_decide_eq_false_2 in E by (intros [? [=]]).
    cbn in E. rewrite andb_true_r in E. apply Z.ltb_ge in E. done.
  - rewrite !lookup_insert_ne by done. apply (Hok id).
Qed.

Lemma cutOpen_ok {U} `{UsageReader U} st (u : U) now c : cut_ok now (cutAt c) (cutOpen st u now c).
Proof.
  unfold cutOpen. set (c0 := MkCut _ _).
  assert (cut_ok now (cutAt c) (c0, ∅)) as H0 by (intros id; cbn; by rewrite lookup_empty).
  revert H0. generalize (c0, ∅ : gmap Z (list string)). clear c0.
  induction (Enablements st) as [|e l IH]; intros acc Hacc; [done|]. cbn. apply IH. by apply cut_one_ok.
Qed.

(** A life of the cutting: looks at successive times, each with the state and
    the usage of its moment. *)
Definition cut_run {U} `{UsageReader U} (c : cutState) (looks : list (State * U * Z)) :
    cutState * list (Z * gmap Z (list string)) :=
  foldl (fun acc l => let '(c, log) := acc in
           let '(c, due) := cutOpen l.1.1 l.1.2 l.2 c in (c, log ++ [(l.2, due)])) (c, []) looks.

(** The times node [id] was restarted at. *)
Definition cut_times (id : Z) (log : list (Z * gmap Z (list string))) : list Z :=
  omap (fun l => if bool_decide (is_Some (l.2 !! id)) then Some l.1 else None) log.

Fixpoint spaced (gap : Z) (ts : list Z) : Prop :=
  match ts with
  | a :: (b :: _) as ts' => gap <= b - a /\ spaced gap ts'
  | _ => True
  end.

Lemma spaced_snoc gap ts t :
  spaced gap ts -> (forall l, last ts = Some l -> gap <= t - l) -> spaced gap (ts ++ [t]).
Proof.
  induction ts as [|a ts IH]; intros Hs Hl; [done|]. destruct ts as [|b ts]; cbn in *.
  - split; [by apply Hl|done].
  - destruct Hs as [? Hs]. split; [done|]. apply IH; [done|]. intros l Hlast. apply Hl. done.
Qed.

Lemma cut_run_spaced {U} `{UsageReader U} c (looks : list (State * U * Z)) id :
  cutAt c !! id = None ->
  spaced cutAgain (cut_times id (cut_run c looks).2) /\
  cutAt (cut_run c looks).1 !! id = last (cut_times id (cut_run c looks).2).
Proof.
  intros Hc. induction looks as [|[[st u] now] looks IH] using rev_ind; [done|].
  unfold cut_run in *. rewrite foldl_app. cbn [foldl].
  destruct (foldl _ (c, []) looks) as [c1 log]. cbn [fst snd] in *. destruct IH as [IH1 IH2].
  pose proof (cutOpen_ok st u now c1 id) as Hk. destruct (cutOpen st u now c1) as [c2 due]. cbn [fst snd] in *.
  unfold cut_times in *. rewrite omap_app. cbn. destruct (due !! id) as [ns|] eqn:Ed.
  - rewrite bool_decide_eq_true_2 by (by eexists). cbn. destruct Hk as [Hk1 Hk2].
    rewrite last_snoc. split; [|done]. apply spaced_snoc; [done|]. intros t Ht. apply Hk2. by rewrite IH2.
  - rewrite bool_decide_eq_false_2 by (intros [? [=]]). cbn. rewrite app_nil_r. by rewrite Hk.
Qed.

(** ** Theorems *)

(** C9. The periodic check marks exactly the subscriptions that are over: run on
    any state the store can hold, when the disk takes its writes, it leaves a
    stopped subscription as it was (the mark is sticky) and gives every running
    one the reason it should not run, or none; nothing else of the list
    changes. *)
Theorem enforce_marks fold ParseAddr loadCA {U} `{UsageReader U} (m : moment (U := U)) st locked :
  store_inv fold ParseAddr loadCA st -> m_disk m = true ->
  Subscriptions (cur (enforceLimits fold ParseAddr loadCA st m (fun _ => m) locked).1) =
  (fun x => if Running x then set_stopped x (StopReason x (trafficUsed (m_usage m) x) (m_now m)) else x)
    <$> Subscriptions (cur st).
Proof.
  intros Hi Hd.
  destruct (enforce_fold fold ParseAddr loadCA m Hd st locked [] [] (Subscriptions (cur st)) Hi eq_refl) as [_ Hs];
    [apply Hi|]. exact Hs.
Qed.

(** A reset gives the count back and nothing more: when [ResetUsage]
    succeeds, the subscription has used zero, is not stopped for its limit, and
    is stopped exactly when its date has passed. *)
Theorem reset_starts_again fold ParseAddr loadCA {U} `{UsageReader U} (m : moment (U := U)) st id locked st' calls sub :
  store_inv fold ParseAddr loadCA st -> lifetime_u64 (m_usage m) ->
  FindSubscription (cur st) id = Some sub -> counts_u64 sub ->
  ResetUsage fold ParseAddr loadCA st id m locked = (st', Ok calls) ->
  exists x, FindSubscription (cur st') id = Some x /\ trafficUsed (m_usage m) x = 0 /\
    Stopped x = (if negb (IsZero (ExpiresAt sub)) && negb (m_now m <? ExpiresAt sub) then StopExpired else "").
Proof.
  intros Hi Hu Hf [Hb Hc] Hr. destruct (FindSubscription_split _ _ _ Hf) as (l1 & l2 & Hl & Hbef & Hid).
  assert (Subscriptions (cur st') = l1 ++ reset_sub m sub :: l2) as Hs'.
  { unfold ResetUsage in Hr. destruct (Update _ _ _ _ _ _) as [st1 [[]|e]] eqn:Eu; [|done].
    injection Hr as <- _. unfold Update in Eu. rewrite Hf in Eu.
    destruct (CheckEdit _ _ _ _ _) as [[]|e]; [|done].
    case_bool_decide as He; [|destruct (m_disk m); [|done]]; injection Eu as <-.
    - rewrite <-(si_enc _ _ _ _ Hi), <-He. cbn. rewrite Hl. by apply replace_sub_app.
    - cbn. rewrite Hl. by apply replace_sub_app. }
  exists (reset_sub m sub). split; [by apply (FindSubscription_app _ _ l1 _ l2)|]. split.
  - unfold trafficUsed. change (S_ID (reset_sub m sub)) with (S_ID sub).
    destruct (lifetime_ok (m_usage m) (S_ID sub) Hu) as [H1 H2]. pose proof (sat_range _ _ H1 H2) as H3.
    rewrite TrafficUsed_spec; [|split; [by apply sat_range|done]|done]. cbn.
    rewrite (sat_spec (sat _ _)) by done. lia.
  - unfold reset_sub, StopReason. cbn [set_stopped Stopped ExpiresAt TrafficLimit].
    destruct (_ && _); [done|]. destruct (Z.ltb_spec 0 (TrafficLimit sub)); cbn; [|done].
    destruct (Z.leb_spec (TrafficLimit sub) 0); [lia|done].
Qed.

(** A node is restarted to end open connections at most once every
    [cutAgain]: over any sequence of looks, whatever the state and the usage are
    at each, the times a node is restarted are a minute apart or more. *)
Theorem cuts_spaced {U} `{UsageReader U} (looks : list (State * U * Z)) id :
  spaced cutAgain (cut_times id (cut_run (MkCut ∅ ∅) looks).2).
Proof. apply cut_run_spaced. exact (lookup_empty id). Qed.

(** ** The collector is such a usage *)

#[global] Program Instance collector_reader : UsageReader UsageCollector.Collector := {|
  lifetime := SubscriptionLifetime;
  sub_usage u sid nid now := UsageCollector.Subscription u sid nid now;
  lifetime_u64 u := UsageReads.collector_ok u
|}.
Next Obligation.
  intros u sid Hu. apply totals_ok_get. intros x. rewrite UsageReads.lifetime_sum by done.
  pose proof (get_ok x _ (lookup_total_ok _ sid (proj2 Hu))) as Hr.
  assert (0 <= msum (fun _ n => shown x sid n) (nodes u)).
  { apply msum_nonneg. intros k n Hk. apply UsageReads.shown_nonneg, (proj1 Hu k n Hk). }
  word_lia.
Qed.

(** ** An example: a subscription with a limit of 100 bytes *)

(** A usage that says the same of every subscription. *)
#[global] Program Instance fixed_reader : UsageReader Totals := {|
  lifetime u _ := u;
  sub_usage _ _ _ _ := zeroSubUsage;
  lifetime_u64 := totals_ok
|}.
Next Obligation. done. Qed.

Definition limit_sub : HubState.Subscription := MkSub 0 "Sara" (10 ^ 18) 100 0 0 HubState.zeroTime "".

Definition limit_edit (s : State) : result error State :=
  rbind (fun r => Ok r.1) (AddSubscription demo_fold s limit_sub).

Definition limit_store : HubState.Store := (Update demo_fold demo_parse demo_ca fresh limit_edit true).1.

Lemma limit_store_inv : store_inv demo_fold demo_parse demo_ca limit_store.
Proof.
  apply (store_run_inv demo_fold demo_parse demo_ca fresh); [apply fresh_inv|]. apply rtc_once.
  apply (st_update demo_fold demo_parse demo_ca fresh limit_edit true limit_store (Ok tt)).
  vm_compute. reflexivity.
Qed.

(** 60 bytes each way are over the limit of 100. *)
Definition over : moment (U := Totals) := MkMoment (MkTotals 60 60) (2 * 10 ^ 18) true.

Lemma enforce_marks_witness :
  Stopped <$> Subscriptions (cur (enforceLimits demo_fold demo_parse demo_ca limit_store over (fun _ => over) true).1)
  = [StopLimit].
Proof.
  rewrite (enforce_marks demo_fold demo_parse demo_ca over limit_store true limit_store_inv eq_refl).
  vm_compute. reflexivity.
Defined.

Lemma reset_starts_again_witness :
  exists st' calls x, ResetUsage demo_fold demo_parse demo_ca limit_store 1 over true = (st', Ok calls) /\
    FindSubscription (cur st') 1 = Some x /\ trafficUsed (m_usage over) x = 0 /\ Stopped x = "".
Proof.
  destruct (ResetUsage demo_fold demo_parse demo_ca limit_store 1 over true) as [st' [calls|e]] eqn:E;
    [|vm_compute in E; discriminate E].
  destruct (FindSubscription (cur limit_store) 1) as [sub|] eqn:Ef; [|vm_compute in Ef; discriminate Ef].
  assert (counts_u64 sub /\ ExpiresAt sub = HubState.zeroTime) as [Hc He].
  { vm_compute in Ef. injection Ef as <-. split; [|reflexivity]. split; cbn; word_lia. }
  destruct (reset_starts_again demo_fold demo_parse demo_ca over limit_store 1 true st' calls sub limit_store_inv)
    as (x & Hx & Hu & Hs).
  - split; cbn; word_lia.
  - exact Ef.
  - exact Hc.
  - exact E.
  - exists st', calls, x. split; [reflexivity|]. split; [exact Hx|]. split; [exact Hu|]. rewrite Hs, He. reflexivity.
Defined.
