(* ===== verification/RouterMarks.v ===== *)
(** * The firewall mark word

    Models [pkg/netmark/marks.go]: the 32-bit mark the router, the health probe
    and the bandwidth shaper share. Marks are [Z] kept below 2^32; Go's [&^] is
    [Z.ldiff], and a left shift loses the bits past the word. *)

From S2P Require Import Prelude.

Definition word (z : Z) : Prop := 0 <= z < 2 ^ 32.
Definition wrap32 (z : Z) : Z := z mod 2 ^ 32.

Definition MaskTier : Z := 0x0000FFFF.
Definition MaskGroup : Z := 0x00FF0000.
Definition MaskPin : Z := 0x0F000000.
Definition MaskReserved : Z := 0xF0000000.
Definition MaskAll : Z := Z.lor (Z.lor MaskTier MaskGroup) MaskPin.

Definition shiftGroup : Z := 16.
Definition shiftPin : Z := 24.

Definition GroupDomestic : Z := 1.
Definition GroupForeign : Z := 2.
Definition PinProbe : Z := 15.
Definition PinPortmap : Z := 14.
Definition groupForeignViaBase : Z := 0x10.

Definition GroupForeignVia (i : Z) : Z := Z.lor groupForeignViaBase (Z.land i 0x0F).

Definition IsGroupForeignVia (g : Z) : bool :=
  (Z.ldiff g 0x0F =? groupForeignViaBase) && negb (Z.land g 0x0F =? 0).

Definition GroupViaUplink (g : Z) : Z :=
  if negb (IsGroupForeignVia g) then 0 else Z.land g 0x0F.

Definition GroupMark (g : Z) : Z := Z.land (wrap32 (Z.shiftl g shiftGroup)) MaskGroup.
Definition PinMark (i : Z) : Z := Z.land (wrap32 (Z.shiftl i shiftPin)) MaskPin.
Definition WithGroup (mark g : Z) : Z := Z.lor (Z.ldiff mark MaskGroup) (GroupMark g).
Definition WithPin (mark i : Z) : Z := Z.lor (Z.ldiff mark MaskPin) (PinMark i).
Definition Group (mark : Z) : Z := Z.shiftr (Z.land mark MaskGroup) shiftGroup.
Definition Pin (mark : Z) : Z := Z.shiftr (Z.land mark MaskPin) shiftPin.
Definition Tier (mark : Z) : Z := Z.land mark MaskTier.

(** * Lemmas *)

(** A mask of [w] ones from bit [k] on, one bit at a time. *)
Definition mask (w k : Z) : Z := Z.shiftl (Z.ones w) k.

Lemma mask_bit w k n : 0 <= w -> 0 <= k -> 0 <= n -> Z.testbit (mask w k) n = (k <=? n) && (n <? k + w).
Proof.
  intros Hw Hk Hn. unfold mask. rewrite Z.shiftl_spec by done.
  destruct (Z.leb_spec k n); cbn [andb].
  - rewrite Z.testbit_ones by done. destruct (Z.leb_spec 0 (n - k)); [|lia].
    destruct (Z.ltb_spec (n - k) w), (Z.ltb_spec n (k + w)); lia || done.
  - by rewrite Z.testbit_neg_r by lia.
Qed.

Lemma wrap32_bit z n : 0 <= n -> Z.testbit (wrap32 z) n = (n <? 32) && Z.testbit z n.
Proof.
  intros Hn. unfold wrap32. destruct (Z.ltb_spec n 32); cbn [andb].
  - by rewrite Z.mod_pow2_bits_low by lia.
  - by rewrite Z.mod_pow2_bits_high by lia.
Qed.

(** Decides an equality of marks bit by bit. *)
Ltac bits_step :=
  repeat first
    [ rewrite Z.land_spec | rewrite Z.lor_spec | rewrite Z.ldiff_spec | rewrite wrap32_bit by lia
    | rewrite mask_bit by lia | rewrite Z.shiftr_spec by lia | rewrite Z.shiftl_spec by lia
    | rewrite Z.bits_0 ];
  repeat match goal with
  | |- context [?a <=? ?b] => destruct (Z.leb_spec a b); try lia
  | |- context [?a <? ?b] => destruct (Z.ltb_spec a b); try lia
  end;
  rewrite ?Z.add_simpl_r;
  repeat match goal with |- context [Z.testbit ?z (?m - ?k)] => rewrite (Z.testbit_neg_r z (m - k)) by lia end;
  rewrite ?andb_false_r, ?andb_true_r, ?orb_false_r, ?orb_true_r; cbn [andb orb negb]; try done.

Ltac mark_bits := apply Z.bits_inj'; intros n Hn; bits_step.

(** The same where a field is moved back to its place at bit [k]. *)
Ltac mark_bits_at k :=
  apply Z.bits_inj'; intros n Hn; rewrite (Z.shiftl_spec _ k) by lia;
  destruct (Z.leb_spec k n);
  [rewrite ?Z.shiftr_spec, ?Z.sub_add by lia; bits_step
  |rewrite (Z.testbit_neg_r _ (n - k)) by lia; bits_step].

Section fields.
Local Ltac masks :=
  unfold Group, Pin, Tier, WithGroup, WithPin, GroupMark, PinMark, shiftGroup, shiftPin;
  change MaskGroup with (mask 8 16); change MaskPin with (mask 4 24); change MaskTier with (mask 16 0).

(** Writing a field changes that field and no other. *)
Lemma Group_WithGroup m g : Group (WithGroup m g) = Z.land g 0xFF.
Proof. masks. change 0xFF with (mask 8 0). mark_bits. Qed.
Lemma Pin_WithGroup m g : Pin (WithGroup m g) = Pin m.
Proof. masks. mark_bits. Qed.
Lemma Tier_WithGroup m g : Tier (WithGroup m g) = Tier m.
Proof. masks. mark_bits. Qed.
Lemma Pin_WithPin m i : Pin (WithPin m i) = Z.land i 0x0F.
Proof. masks. change 0x0F with (mask 4 0). mark_bits. Qed.
Lemma Group_WithPin m i : Group (WithPin m i) = Group m.
Proof. masks. mark_bits. Qed.
Lemma Tier_WithPin m i : Tier (WithPin m i) = Tier m.
Proof. masks. mark_bits. Qed.
Lemma WithGroup_reserved m g : Z.land (WithGroup m g) MaskReserved = Z.land m MaskReserved.
Proof. masks. change MaskReserved with (mask 4 28). mark_bits. Qed.
Lemma WithPin_reserved m i : Z.land (WithPin m i) MaskReserved = Z.land m MaskReserved.
Proof. masks. change MaskReserved with (mask 4 28). mark_bits. Qed.

(** What a rule compares: a mark's field against a mark that has only it. *)
Lemma group_match m g : Z.land m MaskGroup = GroupMark g <-> Group m = Z.land g 0xFF.
Proof.
  assert (Z.land m MaskGroup = Z.shiftl (Group m) 16) as ->.
  { masks. mark_bits_at 16. }
  assert (GroupMark g = Z.shiftl (Z.land g 0xFF) 16) as ->.
  { masks. change 0xFF with (mask 8 0). mark_bits; bits_step. }
  split; [|congruence]. rewrite !Z.shiftl_mul_pow2 by lia. lia.
Qed.
Lemma pin_match m i : Z.land m MaskPin = PinMark i <-> Pin m = Z.land i 0x0F.
Proof.
  assert (Z.land m MaskPin = Z.shiftl (Pin m) 24) as ->.
  { masks. mark_bits_at 24. }
  assert (PinMark i = Z.shiftl (Z.land i 0x0F) 24) as ->.
  { masks. change 0x0F with (mask 4 0). mark_bits; bits_step. }
  split; [|congruence]. rewrite !Z.shiftl_mul_pow2 by lia. lia.
Qed.
End fields.

(** A via group names its uplink: the low nibble, whatever is above it. *)
Lemma via_nibble i : Z.land (GroupForeignVia i) 0x0F = Z.land i 0x0F.
Proof.
  unfold GroupForeignVia, groupForeignViaBase. change 0x0F with (mask 4 0). change 0x10 with (mask 1 4). mark_bits.
Qed.

Lemma via_high i : Z.ldiff (GroupForeignVia i) 0x0F = groupForeignViaBase.
Proof.
  unfold GroupForeignVia, groupForeignViaBase. change 0x0F with (mask 4 0). change 0x10 with (mask 1 4). mark_bits.
Qed.

Lemma nibble_id i : 0 <= i <= 15 -> Z.land i 0x0F = i.
Proof. intros Hi. change 0x0F with (Z.ones 4). rewrite Z.land_ones by lia. apply Z.mod_small. lia. Qed.

Lemma byte_id g : 0 <= g <= 255 -> Z.land g 0xFF = g.
Proof. intros Hg. change 0xFF with (Z.ones 8). rewrite Z.land_ones by lia. apply Z.mod_small. lia. Qed.

Lemma GroupForeignVia_add i : 0 <= i <= 15 -> GroupForeignVia i = 16 + i.
Proof.
  intros Hi. unfold GroupForeignVia. rewrite nibble_id, <-Z.lxor_lor, <-Z.add_nocarry_lxor; [done|..|done];
    rewrite <-(nibble_id i Hi); change groupForeignViaBase with (mask 1 4); change 0x0F with (mask 4 0); mark_bits.
Qed.

(** The three users of the mark never disturb each other: writing the group
    or the pin gives that field the value (its low bits) and leaves the other
    fields and the reserved nibble as they were, a via group written into a
    mark names its uplink again, and it is never one of the plain groups or
    "unclassified". *)
Theorem marks_independent m g i :
  (Group (WithGroup m g) = Z.land g 0xFF /\ Pin (WithGroup m g) = Pin m /\ Tier (WithGroup m g) = Tier m /\
   Z.land (WithGroup m g) MaskReserved = Z.land m MaskReserved) /\
  (Pin (WithPin m i) = Z.land i 0x0F /\ Group (WithPin m i) = Group m /\ Tier (WithPin m i) = Tier m /\
   Z.land (WithPin m i) MaskReserved = Z.land m MaskReserved) /\
  (1 <= i <= 15 ->
   IsGroupForeignVia (Group (WithGroup m (GroupForeignVia i))) = true /\
   GroupViaUplink (Group (WithGroup m (GroupForeignVia i))) = i /\
   GroupForeignVia i ∉ [0; GroupDomestic; GroupForeign]).
Proof.
  split; [|split].
  - repeat split; auto using Group_WithGroup, Pin_WithGroup, Tier_WithGroup, WithGroup_reserved.
  - repeat split; auto using Pin_WithPin, Group_WithPin, Tier_WithPin, WithPin_reserved.
  - intros Hi. rewrite Group_WithGroup, byte_id by (rewrite GroupForeignVia_add; lia).
    assert (IsGroupForeignVia (GroupForeignVia i) = true) as Hvia.
    { unfold IsGroupForeignVia. rewrite via_high, via_nibble, nibble_id by lia.
      rewrite Z.eqb_refl. by destruct (Z.eqb_spec i 0); [lia|]. }
    split; [done|]. split.
    + unfold GroupViaUplink. rewrite Hvia. cbn. rewrite via_nibble. by apply nibble_id; lia.
    + rewrite GroupForeignVia_add by lia. unfold GroupDomestic, GroupForeign. rewrite !elem_of_cons, elem_of_nil. lia.
Qed.

(** A packet of tier 100 pinned to uplink 3, sent to the pool by way of uplink 4. *)
Lemma marks_independent_witness :
  GroupViaUplink (Group (WithGroup 0x03000064 (GroupForeignVia 4))) = 4 /\ Pin (WithGroup 0x03000064 (GroupForeignVia 4)) = 3.
Proof.
  destruct (marks_independent 0x03000064 (GroupForeignVia 4) 4) as ((_ & Hp & _ & _) & _ & Hv).
  split; [apply Hv; lia|]. rewrite Hp. reflexivity.
Defined.
