(* ===== verification/RouterRules.v ===== *)
(** * The router's policy rules

    Models [internal/network/usecase/rules.go], the slots of
    [internal/network/domain/interface.go], the rows [uplinks] turns into
    routing identities ([network_usecase.go]), the two seeded groups
    ([group_repository.go]) and [system.Rule]. Preferences, tables and marks are
    [Z]; slots are the strings the code uses. *)

From S2P Require Import Prelude RouterMarks.

(** ** Slots *)

Definition UplinkSlot := string.
Definition SlotNone : UplinkSlot := "".
Definition SlotDomestic : UplinkSlot := "domestic".
Definition SlotDomestic2 : UplinkSlot := "domestic2".
Definition SlotDomestic3 : UplinkSlot := "domestic3".
Definition SlotDomestic4 : UplinkSlot := "domestic4".
Definition SlotSecondary : UplinkSlot := "secondary".
Definition SlotSecondary2 : UplinkSlot := "secondary2".
Definition SlotSecondary3 : UplinkSlot := "secondary3".
Definition SlotSecondary4 : UplinkSlot := "secondary4".

Definition DomesticSlots : list UplinkSlot := [SlotDomestic; SlotDomestic2; SlotDomestic3; SlotDomestic4].
Definition SecondarySlots : list UplinkSlot := [SlotSecondary; SlotSecondary2; SlotSecondary3; SlotSecondary4].
Definition IsDomestic (s : UplinkSlot) : bool := bool_decide (s ∈ DomesticSlots).
Definition IsSecondary (s : UplinkSlot) : bool := bool_decide (s ∈ SecondarySlots).

(** ** Rules *)

Record Rule := MkRule {
  Pref : Z; FwMark : Z; FwMask : Z; OifName : string; Table : Z;
  Blackhole : bool; SuppressPrefixLen : Z; SuppressSet : bool
}.
#[global] Instance Rule_eq_dec : EqDecision Rule.
Proof. solve_decision. Defined.

Definition Rule_Equal (r o : Rule) : bool :=
  (Pref r =? Pref o) && (FwMark r =? FwMark o) && (FwMask r =? FwMask o) &&
  bool_decide (OifName r = OifName o) && (Table r =? Table o) && Bool.eqb (Blackhole r) (Blackhole o) &&
  (SuppressPrefixLen r =? SuppressPrefixLen o) && Bool.eqb (SuppressSet r) (SuppressSet o).

Definition lookupRule (pref table : Z) : Rule := MkRule pref 0 0 "" table false 0 false.
Definition markRule (pref mark msk table : Z) : Rule := MkRule pref mark msk "" table false 0 false.
Definition markBlackhole (pref mark msk : Z) : Rule := MkRule pref mark msk "" 0 true 0 false.

Definition RulePrefOifBase : Z := 20.
Definition RulePrefMainSuppress : Z := 45.
Definition RulePrefFallbackBase : Z := 32000.
Definition RulePrefFallbackBlackhole : Z := 32009.
Definition RulePrefPinBase : Z := 50.
Definition RulePrefViaBase : Z := 200.
Definition rulePrefViaStride : Z := 10.
Definition tableMain : Z := 254.
Definition WGTable : Z := 203.

(** ** Uplinks *)

Record Uplink := MkUplink {
  U_IfName : string; U_Key : string; U_Table : Z; UplinkIndex : Z; U_Slot : UplinkSlot; GroupIndex : Z;
  U_DNSServer2 : string; U_GatewayOnLink : bool; U_DNSServer : string
}.

Record VPNRouteState := MkVPN { IfNames : list string }.
Definition Active (v : VPNRouteState) : bool := negb (bool_decide (IfNames v = [])).

Record WANGroup := MkGroup { G_Index : Z; RuleBase : Z; RuleBlackhole : Z }.

(** The groups every box has: domestic and foreign. *)
Definition seededGroups : list WANGroup := [MkGroup GroupDomestic 110 149; MkGroup GroupForeign 150 199].

Definition tableFor (slot : UplinkSlot) : Z :=
  if decide (slot = SlotDomestic) then 201
  else if decide (slot = SlotDomestic2) then 211
  else if decide (slot = SlotDomestic3) then 212
  else if decide (slot = SlotDomestic4) then 213
  else if decide (slot = SlotSecondary) then 202
  else if decide (slot = SlotSecondary2) then 204
  else if decide (slot = SlotSecondary3) then 205
  else if decide (slot = SlotSecondary4) then 206
  else 0.

Definition uplinkIndexFor (slot : UplinkSlot) : Z :=
  if decide (slot = SlotDomestic) then 1
  else if decide (slot = SlotDomestic2) then 6
  else if decide (slot = SlotDomestic3) then 7
  else if decide (slot = SlotDomestic4) then 8
  else if decide (slot = SlotSecondary) then 2
  else if decide (slot = SlotSecondary2) then 3
  else if decide (slot = SlotSecondary3) then 4
  else if decide (slot = SlotSecondary4) then 5
  else 0.

Definition groupIndexFor (slot : UplinkSlot) : Z :=
  if IsDomestic slot then GroupDomestic else if IsSecondary slot then GroupForeign else 0.

(** A WAN row as the routing reads it. *)
Record WANRow := MkRow {
  r_IfName : string; r_Key : string; r_Slot : UplinkSlot; r_Present : bool; r_Static : bool;
  r_DNSServer : string; r_DNSServer2 : string; r_OnLink : bool
}.

Definition uplinkOf (r : WANRow) : Uplink :=
  MkUplink (r_IfName r) (r_Key r) (tableFor (r_Slot r)) (uplinkIndexFor (r_Slot r)) (r_Slot r)
    (groupIndexFor (r_Slot r)) (r_DNSServer2 r) (r_Static r && r_OnLink r) (r_DNSServer r).

Definition uplinks (rows : list WANRow) : list Uplink :=
  uplinkOf <$> filter (fun r => r_Present r = true /\ r_Slot r <> SlotNone) rows.

(** ** The rule blocks *)

Definition by_index (us : list Uplink) : list Uplink := sort_on UplinkIndex us.

(** The fallback of unmarked traffic: the tunnel, then domestic lines, then the
    rest, and never a secondary's own table. *)
Definition rank (u : Uplink) : Z := if IsDomestic (U_Slot u) then 0 else 1.

Definition rank_le (a b : Uplink) : Prop :=
  rank a < rank b \/ (rank a = rank b /\ UplinkIndex a <= UplinkIndex b).
#[global] Instance rank_le_dec a b : Decision (rank_le a b).
Proof. unfold rank_le. apply _. Defined.

Definition fallbackTables (us : list Uplink) (vpn : VPNRouteState) : list Z :=
  let rest := merge_sort rank_le (filter (fun u => IsSecondary (U_Slot u) = false) us) in
  let out := (if Active vpn then [WGTable] else []) ++ (U_Table <$> rest) in
  list.take (Z.to_nat (RulePrefFallbackBlackhole - RulePrefFallbackBase)) out.

Definition BaseRules (us : list Uplink) (vpn : VPNRouteState) : list Rule :=
  let ordered := by_index us in
  let oif := ((fun u => (U_IfName u, U_Table u)) <$> ordered) ++ ((fun name => (name, WGTable)) <$> IfNames vpn) in
  let oif := list.take (Z.to_nat (RulePrefMainSuppress - RulePrefOifBase)) oif in
  imap (fun i nt => MkRule (RulePrefOifBase + Z.of_nat i) 0 0 nt.1 nt.2 false 0 false) oif ++
  [MkRule RulePrefMainSuppress 0 0 "" tableMain false 0 true] ++
  imap (fun i t => lookupRule (RulePrefFallbackBase + Z.of_nat i) t) (fallbackTables ordered vpn) ++
  [MkRule RulePrefFallbackBlackhole 0 0 "" 0 true 0 false].

Definition PinRules (us : list Uplink) : list Rule :=
  mjoin (imap (fun i u =>
    let mark := PinMark (UplinkIndex u) in
    let base := RulePrefPinBase + Z.of_nat i * 2 in
    [markRule base mark MaskPin (U_Table u); markBlackhole (base + 1) mark MaskPin]) (by_index us)).

Definition members (us : list Uplink) (g : Z) : list Uplink :=
  sort_on UplinkIndex (filter (fun u => GroupIndex u = g) us).

(** The member rules of a group, up to its terminator's preference. *)
Fixpoint memberRules (mark base bh : Z) (i : nat) (ms : list Uplink) : list Rule :=
  match ms with
  | [] => []
  | m :: ms =>
      let pref := base + Z.of_nat i in
      if bh <=? pref then [] else markRule pref mark MaskGroup (U_Table m) :: memberRules mark base bh (S i) ms
  end.

Definition groupRules (us : list Uplink) (vpn : VPNRouteState) (g : WANGroup) : list Rule :=
  let mark := GroupMark (G_Index g) in
  if G_Index g =? GroupForeign then
    (if Active vpn then [markRule (RuleBase g) mark MaskGroup WGTable] else []) ++
    [markBlackhole (RuleBlackhole g) mark MaskGroup]
  else
    memberRules mark (RuleBase g) (RuleBlackhole g) 0 (members us (G_Index g)) ++
    [markBlackhole (RuleBlackhole g) mark MaskGroup].

Definition GroupRules (groups : list WANGroup) (us : list Uplink) (vpn : VPNRouteState) : list Rule :=
  mjoin (groupRules us vpn <$> sort_on RuleBase groups).

Definition vpnViaTableFor (i : Z) : Z := 205 + i.

Definition viaRules (us : list Uplink) (vpn : VPNRouteState) (slot : UplinkSlot) : list Rule :=
  let assigned := existsb (fun u => IsSecondary (U_Slot u) && (UplinkIndex u =? uplinkIndexFor slot)) us in
  let idx := uplinkIndexFor slot in
  let mark := GroupMark (GroupForeignVia idx) in
  let base := RulePrefViaBase + rulePrefViaStride * (idx - 2) in
  (if Active vpn && assigned then [markRule base mark MaskGroup (vpnViaTableFor idx)] else []) ++
  [markBlackhole (base + rulePrefViaStride - 1) mark MaskGroup].

Definition ViaRules (us : list Uplink) (vpn : VPNRouteState) : list Rule :=
  mjoin (viaRules us vpn <$> SecondarySlots).

Definition AllRules (groups : list WANGroup) (us : list Uplink) (vpn : VPNRouteState) : list Rule :=
  let base := BaseRules us vpn in
  filter (fun r => (RulePrefFallbackBase <=? Pref r) = false) base ++
  PinRules us ++ GroupRules groups us vpn ++ ViaRules us vpn ++
  filter (fun r => (RulePrefFallbackBase <=? Pref r) = true) base.

Definition isStockRule (pref : Z) : bool := (pref =? 0) || (32766 <=? pref).
