(* ===== verification/RouterWalk.v ===== *)
(** * The policy walk and the reconciliation of the kernel's rules

    Models [walkPolicy] and [lookupTable] of
    [internal/network/usecase/trace.go], and [ReconcileRules] of [rules.go]
    against the interface the code reaches the kernel through
    ([system.Backend], with [FakeBackend] of [internal/network/system/fake.go]
    as an instance). The theorems say where packets may leave by. *)

From S2P Require Import Prelude RouterMarks RouterRules.

(** ** Routes *)

Record Nexthop := MkNexthop { NH_OifName : string; Weight : Z }.

Record Route := MkRoute {
  Rt_OnLink : bool; Rt_Table : Z; Rt_Dest : string; Rt_Gateway : string; Rt_OifName : string;
  Rt_Scope : string; Rt_Metric : Z; Rt_Nexthops : list Nexthop
}.

Section walk.
(** What Go's [net] reads: an address, and a prefix as the addresses it has
    and its length. *)
Context {IP : Type} (ParseIP : string -> option IP) (ParseCIDR : string -> option ((IP -> bool) * Z)).

(** The route of a table for [ip] with the longest prefix, the first of those
    that share it, and the length. *)
Definition better (ip : IP) (best : option (Route * Z)) (r : Route) : option (Route * Z) :=
  let cidr := if decide (Rt_Dest r = "" \/ Rt_Dest r = "default") then "0.0.0.0/0" else Rt_Dest r in
  match ParseCIDR cidr with
  | None => best
  | Some (contains, l) =>
      if negb (contains ip) then best
      else if default (-1) (snd <$> best) <? l then Some (r, l) else best
  end.

Definition lookupTable (routes : list Route) (dst : string) : option (Route * Z) :=
  match ParseIP dst with
  | None => None
  | Some ip => foldl (better ip) None routes
  end.

(** Whether the walk stops to look at a rule: no interface asked for, not one
    of the kernel's own, and the mark is its. *)
Definition considered (mark : Z) (r : Rule) : bool :=
  bool_decide (OifName r = "") && negb (isStockRule (Pref r)) &&
  negb (negb (FwMask r =? 0) && negb (Z.land mark (FwMask r) =? FwMark r)).

(** The walk: its verdict, the route, and the rule that decided. *)
Fixpoint walk (rules : list Rule) (routes : Z -> list Route) (dst : string) (mark : Z) :
    string * option Route * option Rule :=
  match rules with
  | [] => ("drop", None, None)
  | r :: rest =>
      if negb (considered mark r) then walk rest routes dst mark
      else if Blackhole r then ("drop", None, Some r)
      else match lookupTable (routes (Table r)) dst with
           | None => walk rest routes dst mark
           | Some (best, plen) =>
               if SuppressSet r && (plen <=? SuppressPrefixLen r) then walk rest routes dst mark
               else ("ok", Some best, Some r)
           end
  end.

Definition walkPolicy (rules : list Rule) (routes : Z -> list Route) (dst : string) (mark : Z) :
    string * option Route * option Rule :=
  walk (sort_on Pref rules) routes dst mark.

(** ** What a walk that found a route went through *)

(** A rule ends the walk for every packet it considers. *)
Definition ends (mark : Z) (b : Rule) : Prop := considered mark b = true /\ Blackhole b = true.

Definition chosen (routes : Z -> list Route) (dst : string) (mark : Z) (route : Route) (r : Rule) : Prop :=
  considered mark r = true /\ Blackhole r = false /\
  exists plen, lookupTable (routes (Table r)) dst = Some (route, plen) /\
    (SuppressSet r = true -> SuppressPrefixLen r < plen).

Lemma walk_chosen rules routes dst mark v route m :
  StronglySorted (key_le Pref) rules -> walk rules routes dst mark = (v, Some route, m) ->
  exists r, m = Some r /\ r ∈ rules /\ chosen routes dst mark route r /\
    forall b, b ∈ rules -> ends mark b -> Pref r <= Pref b.
Proof.
  induction 1 as [|x rules Hs IH Hall]; cbn [walk]; [done|].
  assert (walk rules routes dst mark = (v, Some route, m) -> ~ ends mark x ->
    exists r, m = Some r /\ r ∈ x :: rules /\ chosen routes dst mark route r /\
      forall b, b ∈ x :: rules -> ends mark b -> Pref r <= Pref b) as Hskip.
  { intros Hw Hx. destruct (IH Hw) as (r & -> & Hr & Hc & Hle). exists r. split; [done|].
    split; [by right|]. split; [done|]. intros b [->|Hb]%elem_of_cons He; [done|by apply Hle]. }
  destruct (considered mark x) eqn:Ec; cbn [negb].
  2: { intros Hw. apply Hskip; [done|]. intros [? ?]. congruence. }
  destruct (Blackhole x) eqn:Eb; [done|].
  destruct (lookupTable _ _) as [[best plen]|] eqn:El; [destruct (_ && _) eqn:Es|].
  - intros Hw. apply Hskip; [done|]. intros [_ ?]. congruence.
  - intros [= <- <- <-]. exists x. split; [done|]. split; [left|]. split.
    + split; [done|]. split; [done|]. exists plen. split; [done|]. intros Hsup. rewrite Hsup in Es.
      cbn [andb] in Es. apply Z.leb_gt in Es. lia.
    + intros b [->|Hb]%elem_of_cons _; [lia|]. rewrite Forall_forall in Hall. apply (Hall b Hb).
  - intros Hw. apply Hskip; [done|]. intros [_ ?]. congruence.
Qed.

Lemma walkPolicy_chosen rules routes dst mark v route m :
  walkPolicy rules routes dst mark = (v, Some route, m) ->
  exists r, m = Some r /\ r ∈ rules /\ chosen routes dst mark route r /\
    forall b, b ∈ rules -> ends mark b -> Pref r <= Pref b.
Proof.
  intros Hw. destruct (walk_chosen (sort_on Pref rules) routes dst mark v route m) as (r & -> & Hr & Hc & Hle); [|done|].
  - apply sort_on_le.
  - exists r. rewrite sort_on_perm in Hr. split; [done|]. split; [done|]. split; [done|].
    intros b Hb. apply Hle. by rewrite sort_on_perm.
Qed.
End walk.

(** ** The rules of the panel, by block *)

Definition domesticTables : list Z := tableFor <$> DomesticSlots.
Definition secondaryTables : list Z := tableFor <$> SecondarySlots.

(** Rows that validation lets through: a name, and one of the eight slots. *)
Definition good_row (r : WANRow) : Prop := r_IfName r <> "" /\ r_Slot r ∈ DomesticSlots ++ SecondarySlots.
Definition good_vpn (v : VPNRouteState) : Prop := Forall (fun n => n <> "") (IfNames v).

Definition mainRule : Rule := MkRule RulePrefMainSuppress 0 0 "" tableMain false 0 true.

(** What each of the panel's rules may be. *)
Inductive shape : Rule -> Prop :=
| ShapeOif r : OifName r <> "" -> shape r
| ShapeMain : shape mainRule
| ShapePin pref slot : slot ∈ DomesticSlots ++ SecondarySlots ->
    shape (markRule pref (PinMark (uplinkIndexFor slot)) MaskPin (tableFor slot))
| ShapePinEnd pref slot : slot ∈ DomesticSlots ++ SecondarySlots ->
    shape (markBlackhole pref (PinMark (uplinkIndexFor slot)) MaskPin)
| ShapeDomestic pref slot : 110 <= pref -> slot ∈ DomesticSlots ->
    shape (markRule pref (GroupMark GroupDomestic) MaskGroup (tableFor slot))
| ShapeForeign pref : 110 <= pref -> shape (markRule pref (GroupMark GroupForeign) MaskGroup WGTable)
| ShapeVia pref slot : 110 <= pref -> slot ∈ SecondarySlots ->
    shape (markRule pref (GroupMark (GroupForeignVia (uplinkIndexFor slot))) MaskGroup
             (vpnViaTableFor (uplinkIndexFor slot)))
| ShapeGroupEnd pref mark : shape (markBlackhole pref mark MaskGroup)
| ShapeFallback pref t : RulePrefFallbackBase <= pref -> t = WGTable \/ t ∈ domesticTables ->
    shape (lookupRule pref t)
| ShapeEnd : shape (MkRule RulePrefFallbackBlackhole 0 0 "" 0 true 0 false).

(** The terminators every configuration has. *)
Definition terminators : list Rule :=
  [markBlackhole 149 (GroupMark GroupDomestic) MaskGroup; markBlackhole 199 (GroupMark GroupForeign) MaskGroup] ++
  ((fun slot => let idx := uplinkIndexFor slot in
     markBlackhole (RulePrefViaBase + rulePrefViaStride * (idx - 2) + rulePrefViaStride - 1)
       (GroupMark (GroupForeignVia idx)) MaskGroup) <$> SecondarySlots) ++
  [MkRule RulePrefFallbackBlackhole 0 0 "" 0 true 0 false].

Lemma slot_index_secondary slot : slot ∈ SecondarySlots -> 2 <= uplinkIndexFor slot <= 5.
Proof.
  intros Hs. assert (Forall (fun s => 2 <= uplinkIndexFor s <= 5) SecondarySlots) as H
    by (apply (bool_decide_unpack _); vm_compute; exact I).
  rewrite Forall_forall in H. by apply H.
Qed.

Lemma elem_of_imap_inv {A B} (f : nat -> A -> B) (l : list A) y :
  y ∈ imap f l -> exists i x, l !! i = Some x /\ y = f i x.
Proof.
  intros [i Hi]%list_elem_of_lookup. rewrite list_lookup_imap in Hi.
  destruct (l !! i) as [x|] eqn:E; [|done]. injection Hi as <-. by exists i, x.
Qed.

Lemma elem_of_mjoin_imap {A B} (f : nat -> A -> list B) (l : list A) y :
  y ∈ mjoin (imap f l) -> exists i x, l !! i = Some x /\ y ∈ f i x.
Proof.
  intros (z & Hy & Hz)%list_elem_of_join. apply elem_of_imap_inv in Hz as (i & x & Hx & ->). by exists i, x.
Qed.

Section blocks.
Context (rows : list WANRow) (vpn : VPNRouteState) (Hrows : Forall good_row rows) (Hvpn : good_vpn vpn).

Lemma uplink_good u : u ∈ uplinks rows ->
  U_IfName u <> "" /\ U_Slot u ∈ DomesticSlots ++ SecondarySlots /\ U_Table u = tableFor (U_Slot u) /\
  UplinkIndex u = uplinkIndexFor (U_Slot u) /\ GroupIndex u = groupIndexFor (U_Slot u).
Proof.
  intros (r & -> & Hr)%list_elem_of_fmap. apply list_elem_of_filter in Hr as [_ Hr].
  rewrite Forall_forall in Hrows. destruct (Hrows r Hr). done.
Qed.

Lemma by_index_good u : u ∈ by_index (uplinks rows) -> u ∈ uplinks rows.
Proof. unfold by_index. by rewrite sort_on_perm. Qed.

Lemma fallback_tables t :
  t ∈ fallbackTables (by_index (uplinks rows)) vpn -> t = WGTable \/ t ∈ domesticTables.
Proof.
  unfold fallbackTables. intros Ht%elem_of_take. destruct Ht as (i & Ht%list_elem_of_lookup_2 & _).
  apply elem_of_app in Ht as [Ht|Ht].
  - left. destruct (Active vpn); [by apply list_elem_of_singleton in Ht|by apply elem_of_nil in Ht].
  - right. apply list_elem_of_fmap in Ht as (u & -> & Hu). rewrite merge_sort_Permutation in Hu.
    apply list_elem_of_filter in Hu as [Hsec Hu]. destruct (uplink_good u (by_index_good u Hu)) as (_ & Hs & -> & _).
    unfold IsSecondary in Hsec. apply bool_decide_eq_false_1 in Hsec.
    apply list_elem_of_fmap. exists (U_Slot u). apply elem_of_app in Hs as [Hs|Hs]; done.
Qed.

Lemma BaseRules_shape r : r ∈ BaseRules (uplinks rows) vpn -> shape r.
Proof.
  unfold BaseRules. rewrite !elem_of_app, !list_elem_of_singleton. intros [Hr|[->|[Hr| ->]]].
  - apply elem_of_imap_inv in Hr as (i & [name t] & Hx & ->). apply ShapeOif. cbn.
    apply list_elem_of_lookup_2, elem_of_take in Hx as (j & Hx%list_elem_of_lookup_2 & _).
    apply elem_of_app in Hx as [Hx|Hx]; apply list_elem_of_fmap in Hx as (u & [= -> ->] & Hu).
    + by apply uplink_good, by_index_good.
    + unfold good_vpn in Hvpn. rewrite Forall_forall in Hvpn. by apply Hvpn.
  - apply ShapeMain.
  - apply elem_of_imap_inv in Hr as (i & t & Hx%list_elem_of_lookup_2 & ->). apply ShapeFallback; [lia|].
    by apply fallback_tables.
  - apply ShapeEnd.
Qed.

Lemma PinRules_shape r : r ∈ PinRules (uplinks rows) -> shape r.
Proof.
  intros (i & u & Hu%list_elem_of_lookup_2 & Hr)%elem_of_mjoin_imap.
  destruct (uplink_good u (by_index_good u Hu)) as (_ & Hs & Ht & Hi & _).
  rewrite Ht, Hi, !elem_of_cons, elem_of_nil in Hr. destruct Hr as [->|[->|[]]].
  - by apply ShapePin.
  - by apply ShapePinEnd.
Qed.

Lemma memberRules_elem mark base bh i ms r :
  r ∈ memberRules mark base bh i ms ->
  exists pref m, m ∈ ms /\ base <= pref /\ r = markRule pref mark MaskGroup (U_Table m).
Proof.
  revert i. induction ms as [|m ms IH]; intros i; cbn [memberRules]; [by intros ?%elem_of_nil|].
  destruct (Z.leb_spec bh (base + Z.of_nat i)); [by intros ?%elem_of_nil|].
  intros [->|Hr]%elem_of_cons.
  - exists (base + Z.of_nat i), m. split; [left|]. split; [lia|done].
  - destruct (IH _ Hr) as (pref & m' & Hm & ? & ->). exists pref, m'. split; [by right|]. by split.
Qed.

Lemma GroupRules_elem r :
  r ∈ GroupRules seededGroups (uplinks rows) vpn <->
  exists g, g ∈ seededGroups /\ r ∈ groupRules (uplinks rows) vpn g.
Proof.
  unfold GroupRules. rewrite list_elem_of_join. split.
  - intros (l & Hr & Hl). apply list_elem_of_fmap in Hl as (g & -> & Hg). rewrite sort_on_perm in Hg. by exists g.
  - intros (g & Hg & Hr). eexists. split; [exact Hr|]. apply list_elem_of_fmap_2. by rewrite sort_on_perm.
Qed.

Lemma GroupRules_shape r : r ∈ GroupRules seededGroups (uplinks rows) vpn -> shape r.
Proof.
  intros (g & Hg & Hr)%GroupRules_elem. unfold seededGroups in Hg. rewrite !elem_of_cons, elem_of_nil in Hg.
  destruct Hg as [->|[->|[]]]; unfold groupRules in Hr; cbn [G_Index RuleBase RuleBlackhole] in Hr;
    apply elem_of_app in Hr as [Hr| ->%list_elem_of_singleton]; try apply ShapeGroupEnd.
  - apply memberRules_elem in Hr as (pref & m & Hm & Hp & ->). unfold members in Hm. rewrite sort_on_perm in Hm.
    apply list_elem_of_filter in Hm as [Hg Hm]. destruct (uplink_good m Hm) as (_ & Hs & -> & _ & Hgi).
    apply ShapeDomestic; [done|]. rewrite Hg in Hgi. unfold groupIndexFor in Hgi.
    destruct (IsDomestic (U_Slot m)) eqn:E; [by apply bool_decide_eq_true_1 in E|].
    by destruct (IsSecondary (U_Slot m)).
  - destruct (Active vpn); [|by apply elem_of_nil in Hr]. apply list_elem_of_singleton in Hr as ->.
    by apply ShapeForeign.
Qed.

Lemma ViaRules_elem r :
  r ∈ ViaRules (uplinks rows) vpn <-> exists slot, slot ∈ SecondarySlots /\ r ∈ viaRules (uplinks rows) vpn slot.
Proof.
  unfold ViaRules. rewrite list_elem_of_join. split.
  - intros (l & Hr & Hl). apply list_elem_of_fmap in Hl as (g & -> & Hg). by exists g.
  - intros (g & Hg & Hr). eexists. split; [exact Hr|]. by apply list_elem_of_fmap_2.
Qed.

Lemma ViaRules_shape r : r ∈ ViaRules (uplinks rows) vpn -> shape r.
Proof.
  intros (slot & Hs & Hr)%ViaRules_elem. unfold viaRules in Hr.
  apply elem_of_app in Hr as [Hr| ->%list_elem_of_singleton]; [|apply ShapeGroupEnd].
  destruct (_ && _); [|by apply elem_of_nil in Hr]. apply list_elem_of_singleton in Hr as ->.
  apply ShapeVia; [|done]. pose proof (slot_index_secondary slot Hs).
  unfold RulePrefViaBase, rulePrefViaStride. lia.
Qed.

Lemma AllRules_elem r :
  r ∈ AllRules seededGroups (uplinks rows) vpn <->
  r ∈ BaseRules (uplinks rows) vpn \/ r ∈ PinRules (uplinks rows) \/
  r ∈ GroupRules seededGroups (uplinks rows) vpn \/ r ∈ ViaRules (uplinks rows) vpn.
Proof.
  unfold AllRules. rewrite !elem_of_app, !list_elem_of_filter. destruct (_ <=? Pref r); naive_solver.
Qed.

Lemma AllRules_shape r : r ∈ AllRules seededGroups (uplinks rows) vpn -> shape r.
Proof. intros [?|[?|[?|?]]]%AllRules_elem; auto using BaseRules_shape, PinRules_shape, GroupRules_shape, ViaRules_shape. Qed.

Lemma AllRules_terminators r : r ∈ terminators -> r ∈ AllRules seededGroups (uplinks rows) vpn.
Proof.
  unfold terminators. rewrite !elem_of_app, list_elem_of_fmap, list_elem_of_singleton, AllRules_elem.
  intros [Hr|[(slot & -> & Hs)| ->]].
  - right; right; left. apply GroupRules_elem. rewrite !elem_of_cons, elem_of_nil in Hr.
    destruct Hr as [->|[->|[]]].
    + exists (MkGroup GroupDomestic 110 149). split; [left|]. unfold groupRules. cbn. rewrite elem_of_app. by right; left.
    + exists (MkGroup GroupForeign 150 199). split; [right; left|]. unfold groupRules. cbn. rewrite elem_of_app. by right; left.
  - right; right; right. apply ViaRules_elem. exists slot. split; [done|]. unfold viaRules. rewrite elem_of_app. by right; left.
  - left. unfold BaseRules. rewrite !elem_of_app. right; right; right. by left.
Qed.

Lemma AllRules_pin_end r :
  r ∈ rows -> r_Present r = true ->
  exists pref, RulePrefPinBase <= pref < RulePrefPinBase + 2 * Z.of_nat (length rows) /\
    markBlackhole pref (PinMark (uplinkIndexFor (r_Slot r))) MaskPin ∈ AllRules seededGroups (uplinks rows) vpn.
Proof.
  intros Hr Hp. assert (uplinkOf r ∈ by_index (uplinks rows)) as Hu.
  { unfold by_index. rewrite sort_on_perm. apply list_elem_of_fmap_2, list_elem_of_filter. split; [|done].
    split; [done|]. rewrite Forall_forall in Hrows. destruct (Hrows r Hr) as [_ Hs]. intros E. rewrite E in Hs.
    by apply (bool_decide_pack _) in Hs. }
  apply list_elem_of_lookup in Hu as [i Hi]. exists (RulePrefPinBase + Z.of_nat i * 2 + 1).
  split.
  { pose proof (lookup_lt_Some _ _ _ Hi) as Hlt. unfold by_index in Hlt.
    rewrite sort_on_perm in Hlt. unfold uplinks in Hlt. rewrite length_fmap in Hlt.
    pose proof (length_filter (fun r => r_Present r = true /\ r_Slot r <> SlotNone) rows). lia. }
  rewrite AllRules_elem. right; left. unfold PinRules. apply list_elem_of_join.
  eexists. split; [|apply list_elem_of_lookup; exists i; rewrite list_lookup_imap, Hi; reflexivity].
  right; left.
Qed.
End blocks.

(** ** Where packets may leave by *)

(** Rules the panel put there for good rows, whatever the configuration, beside
    the kernel's own; and no terminator missing. This is what holds between a
    reconciliation and the next, and all along each of them. *)
Definition panel_rule (r : Rule) : Prop :=
  exists rows vpn, Forall good_row rows /\ good_vpn vpn /\ r ∈ AllRules seededGroups (uplinks rows) vpn.

Definition managed (kernel : list Rule) : Prop :=
  (forall r, r ∈ kernel -> isStockRule (Pref r) = true \/ panel_rule r) /\
  (forall b, b ∈ terminators -> b ∈ kernel).

(** The tables a packet's group lets it use. *)
Definition allowed (mark : Z) : list Z :=
  let g := Group mark in
  if g =? GroupDomestic then domesticTables
  else if g =? GroupForeign then [WGTable]
  else if bool_decide (GroupViaUplink g ∈ uplinkIndexFor <$> SecondarySlots) then [vpnViaTableFor (GroupViaUplink g)]
  else WGTable :: domesticTables.

Lemma considered_mark mark pref m msk t :
  considered mark (markRule pref m msk t) = true -> msk <> 0 -> Z.land mark msk = m.
Proof.
  unfold considered. cbn [OifName Pref FwMask FwMark markRule]. intros H Hm.
  destruct (Z.eqb_spec msk 0); [done|]. destruct (Z.eqb_spec (Z.land mark msk) m); [done|].
  by rewrite andb_false_r in H.
Qed.

Lemma considered_end mark pref m msk :
  isStockRule pref = false -> Z.land mark msk = m -> ends mark (markBlackhole pref m msk).
Proof.
  intros Hp Hm. split; [|done]. unfold considered. cbn [OifName Pref FwMask FwMark markBlackhole].
  rewrite Hp, Hm, Z.eqb_refl. by rewrite andb_false_r.
Qed.

Lemma slot_index slot :
  slot ∈ DomesticSlots ++ SecondarySlots -> 1 <= uplinkIndexFor slot <= 8.
Proof.
  intros Hs. assert (Forall (fun s => 1 <= uplinkIndexFor s <= 8) (DomesticSlots ++ SecondarySlots)) as H
    by (apply (bool_decide_unpack _); vm_compute; exact I).
  rewrite Forall_forall in H. by apply H.
Qed.

Lemma slot_index_inj a b :
  a ∈ DomesticSlots ++ SecondarySlots -> b ∈ DomesticSlots ++ SecondarySlots ->
  uplinkIndexFor a = uplinkIndexFor b -> a = b.
Proof.
  intros Ha Hb. assert (Forall (fun a => Forall (fun b => uplinkIndexFor a = uplinkIndexFor b -> a = b)
    (DomesticSlots ++ SecondarySlots)) (DomesticSlots ++ SecondarySlots)) as H
    by (apply (bool_decide_unpack _); vm_compute; exact I).
  rewrite Forall_forall in H. specialize (H a Ha). rewrite Forall_forall in H. by apply H.
Qed.

Lemma via_group_index mark i :
  1 <= i <= 15 -> Group mark = GroupForeignVia i ->
  GroupViaUplink (Group mark) = i /\ (Group mark =? GroupDomestic) = false /\ (Group mark =? GroupForeign) = false.
Proof.
  intros Hi Hg. rewrite Hg. split.
  - unfold GroupViaUplink, IsGroupForeignVia. rewrite via_high, via_nibble, nibble_id, Z.eqb_refl by lia.
    by destruct (Z.eqb_spec i 0); [lia|].
  - rewrite GroupForeignVia_add by lia. unfold GroupDomestic, GroupForeign. split; apply Z.eqb_neq; lia.
Qed.

(** A via group is [16 + i]. *)
Lemma GroupViaUplink_inv g i :
  0 <= g <= 255 -> 1 <= i -> GroupViaUplink g = i -> g = GroupForeignVia i /\ i <= 15.
Proof.
  intros Hg Hi. unfold GroupViaUplink, IsGroupForeignVia.
  destruct (Z.eqb_spec (Z.ldiff g 15) groupForeignViaBase) as [Hb|]; cbn; [|lia].
  destruct (Z.eqb_spec (Z.land g 15) 0); cbn; [lia|]. intros <-. split.
  - unfold GroupForeignVia. rewrite <-Z.land_assoc, Z.land_diag, <-Hb. symmetry. apply Z.lor_ldiff_and.
  - change 15 with (Z.ones 4) at 1. rewrite Z.land_ones by lia. pose proof (Z.mod_pos_bound g (2 ^ 4)). lia.
Qed.

Lemma Group_range mark : 0 <= Group mark <= 255.
Proof.
  assert (Group mark = Z.land (Z.shiftr mark 16) (Z.ones 8)) as ->.
  { unfold Group, shiftGroup. change MaskGroup with (mask 8 16). change (Z.ones 8) with (mask 8 0). mark_bits. }
  rewrite Z.land_ones by lia. pose proof (Z.mod_pos_bound (Z.shiftr mark 16) (2 ^ 8)). lia.
Qed.

(** The fallback is reached only by packets no group claims. *)
Lemma fallback_unclaimed kernel mark pref :
  managed kernel -> RulePrefFallbackBase <= pref ->
  (forall b, b ∈ kernel -> ends mark b -> pref <= Pref b) -> allowed mark = WGTable :: domesticTables.
Proof.
  intros [_ Hterm] Hpref Hfirst. unfold allowed.
  assert (forall p g, markBlackhole p (GroupMark g) MaskGroup ∈ terminators -> 0 <= g <= 255 -> 0 < p < 1000 ->
          Group mark = g -> False) as Hno.
  { intros p g Hin Hg Hp Heq. apply Hterm in Hin. apply Hfirst in Hin; [unfold RulePrefFallbackBase in *; cbn in Hin; lia|].
    apply considered_end; [|apply group_match; by rewrite byte_id].
    unfold isStockRule. destruct (Z.eqb_spec p 0); [lia|]. destruct (Z.leb_spec 32766 p); [lia|done]. }
  destruct (Z.eqb_spec (Group mark) GroupDomestic) as [E|_].
  { exfalso. apply (Hno 149 GroupDomestic); [left|by vm_compute|by vm_compute|done]. }
  destruct (Z.eqb_spec (Group mark) GroupForeign) as [E|_].
  { exfalso. apply (Hno 199 GroupForeign); [right; left|by vm_compute|by vm_compute|done]. }
  case_bool_decide as Hvia; [|done]. exfalso. apply list_elem_of_fmap in Hvia as (slot & Hi & Hs).
  pose proof (slot_index slot ltac:(apply elem_of_app; by right)) as Hr.
  destruct (GroupViaUplink_inv (Group mark) (uplinkIndexFor slot)) as [E Hle]; [apply Group_range|lia|done|].
  pose proof (slot_index_secondary slot Hs) as Hr'.
  eapply (Hno _ (GroupForeignVia (uplinkIndexFor slot))); [| | |exact E].
  - unfold terminators. rewrite !elem_of_app. right; left. apply list_elem_of_fmap. exists slot. split; [reflexivity|done].
  - rewrite GroupForeignVia_add by lia. lia.
  - unfold RulePrefViaBase, rulePrefViaStride. lia.
Qed.

Section confinement.
Context {IP : Type} (ParseIP : string -> option IP) (ParseCIDR : string -> option ((IP -> bool) * Z)).

(** A route of the main table that is not a default. *)
Definition specific (routes : Z -> list Route) (dst : string) (route : Route) : Prop :=
  exists plen, 0 < plen /\ lookupTable ParseIP ParseCIDR (routes tableMain) dst = Some (route, plen).

Lemma managed_shape kernel r : managed kernel -> r ∈ kernel -> isStockRule (Pref r) = true \/ shape r.
Proof.
  intros [Hk _] Hr. destruct (Hk r Hr) as [?|(rows & vpn & Hrows & Hvpn & Hin)]; [by left|]. right.
  by apply (AllRules_shape rows vpn).
Qed.

Lemma considered_stock mark r : considered mark r = true -> OifName r = "" /\ isStockRule (Pref r) = false.
Proof.
  unfold considered. intros [[H1 H2]%andb_prop _]%andb_prop. split; [by apply bool_decide_eq_true_1 in H1|].
  by destruct (isStockRule (Pref r)).
Qed.

(** By the shape of the rule the walk chose. *)
Lemma chosen_table kernel routes dst mark route r :
  managed kernel -> r ∈ kernel -> chosen ParseIP ParseCIDR routes dst mark route r ->
  (forall b, b ∈ kernel -> ends mark b -> Pref r <= Pref b) ->
  (r = mainRule /\ specific routes dst route) \/
  (exists slot, slot ∈ DomesticSlots ++ SecondarySlots /\ Pin mark = uplinkIndexFor slot /\ Table r = tableFor slot) \/
  Table r ∈ allowed mark.
Proof.
  intros Hm Hr (Hc & Hb & plen & Hl & Hsup) Hfirst. destruct (considered_stock mark r Hc) as [Hoif Hstock].
  destruct (managed_shape kernel r Hm Hr) as [?|Hshape]; [congruence|].
  destruct Hshape as [r Hne| |pref slot Hs|pref slot Hs|pref slot _ Hs|pref _|pref slot _ Hs|pref mk|pref t Hp Ht|];
    try done.
  - left. split; [done|]. exists plen. split; [by apply Hsup|done].
  - right; left. exists slot. split; [done|]. apply considered_mark in Hc; [|done].
    rewrite pin_match in Hc. rewrite Hc, nibble_id; [done|]. pose proof (slot_index slot Hs). lia.
  - right; right. apply considered_mark in Hc; [|done]. rewrite group_match in Hc. change (Z.land _ _) with GroupDomestic in Hc.
    unfold allowed. rewrite Hc, Z.eqb_refl. cbn [Table markRule]. by apply list_elem_of_fmap_2.
  - right; right. apply considered_mark in Hc; [|done]. rewrite group_match in Hc. change (Z.land _ _) with GroupForeign in Hc.
    unfold allowed. rewrite Hc. by left.
  - right; right. apply considered_mark in Hc; [|done]. rewrite group_match in Hc.
    pose proof (slot_index slot ltac:(apply elem_of_app; by right)) as Hi.
    rewrite byte_id in Hc by (rewrite GroupForeignVia_add; lia).
    destruct (via_group_index mark (uplinkIndexFor slot)) as (Hv & Hd & Hf); [lia|done|].
    unfold allowed. rewrite Hd, Hf, Hv. rewrite bool_decide_eq_true_2 by (by apply list_elem_of_fmap_2). by left.
  - right; right. rewrite (fallback_unclaimed kernel mark pref); [|done|done|exact Hfirst]. cbn [Table lookupRule].
    destruct Ht as [->|Ht]; [left|by right].
Qed.
End confinement.

(** C3. No leak past the kill switch. In any kernel the panel's rules are in (its
    own and the kernel's beside them, of this configuration or of another, with
    every terminator in place), a packet that is not pinned and gets a route
    gets a specific one of the main table or one of the tables its group
    allows: foreign traffic the tunnel pool, traffic by way of a secondary that
    secondary's slice of the pool, domestic traffic a domestic line, and
    unclassified traffic the pool or a domestic line. None of these is a
    secondary's own table. *)
Theorem policy_confined {IP} ParseIP (ParseCIDR : string -> option ((IP -> bool) * Z)) kernel routes dst mark v route m :
  managed kernel -> Pin mark = 0 -> walkPolicy ParseIP ParseCIDR kernel routes dst mark = (v, Some route, m) ->
  (exists r, m = Some r /\
    ((r = mainRule /\ specific ParseIP ParseCIDR routes dst route) \/ Table r ∈ allowed mark)) /\
  Forall (fun t => t ∉ secondaryTables) (allowed mark).
Proof.
  intros Hm Hpin Hw. split.
  - destruct (walkPolicy_chosen ParseIP ParseCIDR _ _ _ _ _ _ _ Hw) as (r & -> & Hr & Hc & Hfirst). exists r. split; [done|].
    destruct (chosen_table ParseIP ParseCIDR kernel routes dst mark route r Hm Hr Hc Hfirst)
      as [?|[(slot & Hs & Hp & _)|?]]; [by left| |by right].
    pose proof (slot_index slot Hs). lia.
  - assert (Forall (fun t => t ∉ secondaryTables) (WGTable :: domesticTables)) as Hout
      by (apply (bool_decide_unpack _); vm_compute; exact I).
    pose proof Hout as [Hwg Hdom]%Forall_cons. unfold allowed.
    destruct (_ =? GroupDomestic); [done|]. destruct (_ =? GroupForeign); [by apply Forall_singleton|].
    case_bool_decide as Hvia; [|done]. apply list_elem_of_fmap in Hvia as (slot & -> & Hs).
    assert (Forall (fun s => Forall (fun t => t ∉ secondaryTables) [vpnViaTableFor (uplinkIndexFor s)]) SecondarySlots) as H
      by (apply (bool_decide_unpack _); vm_compute; exact I).
    rewrite Forall_forall in H. by apply H.
Qed.

(** A pin never falls through to a sibling: while the rules of a
    configuration with a line in some slot are in the kernel, a packet pinned
    to that line gets that line's own table, a specific route of the main
    table, or nothing. *)
Theorem pinned_stays {IP} ParseIP (ParseCIDR : string -> option ((IP -> bool) * Z)) kernel routes dst mark v route m rows vpn row :
  managed kernel -> Forall good_row rows -> good_vpn vpn -> (length rows <= 30)%nat ->
  (forall r, r ∈ AllRules seededGroups (uplinks rows) vpn -> r ∈ kernel) ->
  row ∈ rows -> r_Present row = true -> Pin mark = uplinkIndexFor (r_Slot row) ->
  walkPolicy ParseIP ParseCIDR kernel routes dst mark = (v, Some route, m) ->
  exists r, m = Some r /\ ((r = mainRule /\ specific ParseIP ParseCIDR routes dst route) \/ Table r = tableFor (r_Slot row)).
Proof.
  intros Hm Hrows Hvpn Hlen Hin Hrow Hpres Hpin Hw.
  assert (r_Slot row ∈ DomesticSlots ++ SecondarySlots) as Hslot.
  { rewrite Forall_forall in Hrows. by apply Hrows. }
  pose proof (slot_index (r_Slot row) Hslot) as Hidx.
  destruct (walkPolicy_chosen ParseIP ParseCIDR _ _ _ _ _ _ _ Hw) as (r & -> & Hr & Hc & Hfirst). exists r. split; [done|].
  destruct (AllRules_pin_end rows vpn Hrows row Hrow Hpres) as (pe & Hpe & Hend).
  assert (Pref r <= pe) as Hle.
  { apply (Hfirst (markBlackhole pe _ MaskPin) (Hin _ Hend)). apply considered_end.
    - unfold isStockRule, RulePrefPinBase in *. destruct (Z.eqb_spec pe 0); [lia|]. destruct (Z.leb_spec 32766 pe); [lia|done].
    - apply pin_match. rewrite nibble_id by lia. done. }
  unfold RulePrefPinBase in Hpe. destruct Hc as (Hc & Hb & plen & Hl & Hsup).
  destruct (considered_stock mark r Hc) as [Hoif Hstock].
  destruct (managed_shape kernel r Hm Hr) as [?|Hshape]; [congruence|].
  destruct Hshape as [r Hne| |pref slot Hs|pref slot Hs|pref slot Hp Hs|pref Hp|pref slot Hp Hs|pref mk|pref t Hp Ht|];
    try done; cbn [Pref markRule lookupRule] in Hle; try lia.
  - left. split; [done|]. exists plen. split; [by apply Hsup|done].
  - right. apply considered_mark in Hc; [|done]. rewrite pin_match in Hc. pose proof (slot_index slot Hs).
    rewrite nibble_id in Hc by lia. cbn [Table markRule]. f_equal. apply slot_index_inj; [done|done|congruence].
  - unfold RulePrefFallbackBase in Hp. lia.
Qed.

(** ** Making the kernel match *)

Inductive ruleError := AddRule (pref : Z) | ListRules | DeleteRule (pref : Z).

(** What the code asks of the kernel's rules ([system.Backend]): adding and
    deleting one at a time, each of which may fail and then leaves them as they
    were, and listing them. *)
Class RuleBackend (B : Type) := {
  be_rules : B -> list Rule;
  RuleAdd : B -> Rule -> B * bool;
  RuleDel : B -> Rule -> B * bool;
  RuleList : B -> option (list Rule);
  RuleAdd_spec b r b' ok : RuleAdd b r = (b', ok) ->
    forall x, x ∈ be_rules b' <-> x ∈ be_rules b \/ (ok = true /\ x = r);
  RuleDel_spec b r b' ok : RuleDel b r = (b', ok) ->
    forall x, x ∈ be_rules b' <-> x ∈ be_rules b /\ ~ (ok = true /\ x = r);
  RuleList_spec b l : RuleList b = Some l -> forall x, x ∈ l <-> x ∈ be_rules b
}.

Section reconcile.
Context {B : Type} `{RuleBackend B}.

Fixpoint add_all (b : B) (want : list Rule) : B * option ruleError :=
  match want with
  | [] => (b, None)
  | r :: rest =>
      let '(b, ok) := RuleAdd b r in
      if negb ok then (b, Some (AddRule (Pref r))) else add_all b rest
  end.

Definition keep (want : list Rule) (r : Rule) : bool := existsb (fun w => Rule_Equal w r) want.

Fixpoint delete_stale (b : B) (want have : list Rule) : B * option ruleError :=
  match have with
  | [] => (b, None)
  | r :: rest =>
      if isStockRule (Pref r) then delete_stale b want rest
      else if keep want r then delete_stale b want rest
      else let '(b, ok) := RuleDel b r in
           if negb ok then (b, Some (DeleteRule (Pref r))) else delete_stale b want rest
  end.

Definition ReconcileRules (b : B) (want : list Rule) : B * option ruleError :=
  let '(b, e) := add_all b want in
  match e with
  | Some _ => (b, e)
  | None =>
      match RuleList b with
      | None => (b, Some ListRules)
      | Some have => delete_stale b want have
      end
  end.

Lemma Rule_Equal_eq r o : Rule_Equal r o = true <-> r = o.
Proof.
  split.
  - destruct r, o. unfold Rule_Equal. cbn. intros Heq.
    repeat match goal with Hc : _ && _ = true |- _ => apply andb_prop in Hc as [? ?] end.
    repeat match goal with
    | He : (_ =? _) = true |- _ => apply Z.eqb_eq in He
    | He : bool_decide _ = true |- _ => apply bool_decide_eq_true_1 in He
    | He : Bool.eqb _ _ = true |- _ => apply Bool.eqb_prop in He
    end. by subst.
  - intros <-. unfold Rule_Equal. rewrite !Z.eqb_refl, !Bool.eqb_reflx, bool_decide_eq_true_2 by done. done.
Qed.

Lemma keep_spec want r : keep want r = true <-> r ∈ want.
Proof.
  unfold keep. rewrite existsb_exists. setoid_rewrite list_elem_of_In. split.
  - intros (w & Hw & ->%Rule_Equal_eq). done.
  - intros Hr. exists r. split; [done|]. by apply Rule_Equal_eq.
Qed.

Lemma add_all_spec want b b' e :
  add_all b want = (b', e) ->
  (forall x, x ∈ be_rules b -> x ∈ be_rules b') /\
  (forall x, x ∈ be_rules b' -> x ∈ be_rules b \/ x ∈ want) /\
  (e = None -> forall x, x ∈ want -> x ∈ be_rules b').
Proof.
  revert b. induction want as [|r rest IH]; intros b; cbn [add_all].
  - intros [= <- <-]. split; [done|]. split; [by left|]. intros _ x Hx. by apply elem_of_nil in Hx.
  - destruct (RuleAdd b r) as [b1 ok] eqn:Ea. pose proof (RuleAdd_spec _ _ _ _ Ea) as Hs.
    destruct ok; cbn [negb].
    + intros Hrest. destruct (IH _ Hrest) as (I1 & I2 & I3). split; [intros x Hx; apply I1, Hs; by left|]. split.
      * intros x Hx. destruct (I2 x Hx) as [[Hb|[_ ->]]%Hs|Hw]; [by left|right; left|right; by right].
      * intros He x [->|Hx]%elem_of_cons; [|by apply I3]. apply I1, Hs. by right.
    + intros [= <- <-]. split; [intros x Hx; apply Hs; by left|]. split; [|done].
      intros x [Hx|[? _]]%Hs; [by left|done].
Qed.

Lemma delete_stale_spec want have b b' e :
  delete_stale b want have = (b', e) ->
  (forall x, x ∈ be_rules b' -> x ∈ be_rules b) /\
  (forall x, x ∈ be_rules b -> isStockRule (Pref x) = true \/ x ∈ want -> x ∈ be_rules b') /\
  (e = None -> forall x, x ∈ have -> isStockRule (Pref x) = false -> x ∈ be_rules b' -> x ∈ want).
Proof.
  revert b. induction have as [|r rest IH]; intros b; cbn [delete_stale].
  - intros [= <- <-]. split; [done|]. split; [done|]. intros _ x Hx. by apply elem_of_nil in Hx.
  - destruct (isStockRule (Pref r)) eqn:Es; [|destruct (keep want r) eqn:Ek].
    + intros Hrest. destruct (IH _ Hrest) as (I1 & I2 & I3). split; [done|]. split; [done|].
      intros He x [->|Hx]%elem_of_cons; [congruence|by apply I3].
    + intros Hrest. destruct (IH _ Hrest) as (I1 & I2 & I3). split; [done|]. split; [done|].
      intros He x [->|Hx]%elem_of_cons; [intros _ _; by apply keep_spec|by apply I3].
    + assert (r ∉ want) as Hnw by (intros Hr; apply keep_spec in Hr; congruence).
      destruct (RuleDel b r) as [b1 ok] eqn:Ed. pose proof (RuleDel_spec _ _ _ _ Ed) as Hs.
      assert (forall x, x ∈ be_rules b -> isStockRule (Pref x) = true \/ x ∈ want -> x ∈ be_rules b1) as Hkeep.
      { intros x Hx Hor. apply Hs. split; [done|]. intros [_ ->]. destruct Hor; [congruence|done]. }
      destruct ok; cbn [negb].
      * intros Hrest. destruct (IH _ Hrest) as (I1 & I2 & I3). split; [intros x Hx; by apply Hs, I1|].
        split; [intros x Hx Hor; by apply I2; [apply Hkeep|]|].
        intros He x [->|Hx]%elem_of_cons; [|by apply I3]. intros _ Hin%I1%Hs. exfalso. apply Hin. done.
      * intros [= <- <-]. split; [intros x Hx; by apply Hs|]. by split.
Qed.
End reconcile.

(** [FakeBackend], the in-memory one: every call fails while [Err] is set. *)
Record FakeBackend := MkFake { fb_Rules : list Rule; fb_Err : bool }.

Definition Fake_RuleAdd (f : FakeBackend) (r : Rule) : FakeBackend * bool :=
  if fb_Err f then (f, false)
  else if existsb (fun ex => Rule_Equal ex r) (fb_Rules f) then (f, true)
  else (MkFake (fb_Rules f ++ [r]) (fb_Err f), true).

Definition Fake_RuleDel (f : FakeBackend) (r : Rule) : FakeBackend * bool :=
  if fb_Err f then (f, false)
  else (MkFake (filter (fun ex => Rule_Equal ex r = false) (fb_Rules f)) (fb_Err f), true).

Definition Fake_RuleList (f : FakeBackend) : option (list Rule) := if fb_Err f then None else Some (fb_Rules f).

#[global] Program Instance Fake_backend : RuleBackend FakeBackend := {|
  be_rules := fb_Rules; RuleAdd := Fake_RuleAdd; RuleDel := Fake_RuleDel; RuleList := Fake_RuleList
|}.
Next Obligation.
  intros b r b' ok. unfold Fake_RuleAdd. destruct (fb_Err b); [intros [= <- <-]; naive_solver|].
  destruct (existsb _ _) eqn:E; intros [= <- <-] x; cbn [fb_Rules].
  - apply (keep_spec (fb_Rules b)) in E. naive_solver.
  - rewrite elem_of_app, list_elem_of_singleton. naive_solver.
Qed.
Next Obligation.
  intros b r b' ok. unfold Fake_RuleDel. destruct (fb_Err b); intros [= <- <-] x; cbn [fb_Rules]; [naive_solver|].
  rewrite list_elem_of_filter, <-not_true_iff_false, Rule_Equal_eq. naive_solver.
Qed.
Next Obligation. intros b l. unfold Fake_RuleList. destruct (fb_Err b); naive_solver. Qed.

(** C7. A reconciliation is safe wherever it stops. Started in a kernel the
    panel's rules are in, it ends in one whether it succeeds or fails half way,
    so the confinement holds all along: it never takes out a rule that is
    wanted and there, nor one of the kernel's own. When it succeeds, the rules
    besides the kernel's own are exactly the ones wanted, whatever was there
    before. *)
Theorem reconcile_safe {B} `{RuleBackend B} (b b' : B) e rows vpn :
  Forall good_row rows -> good_vpn vpn ->
  ReconcileRules b (AllRules seededGroups (uplinks rows) vpn) = (b', e) ->
  (managed (be_rules b) -> managed (be_rules b')) /\
  (forall r, r ∈ be_rules b -> isStockRule (Pref r) = true \/ r ∈ AllRules seededGroups (uplinks rows) vpn ->
     r ∈ be_rules b') /\
  (e = None -> managed (be_rules b') /\
     forall r, isStockRule (Pref r) = false ->
       (r ∈ be_rules b' <-> r ∈ AllRules seededGroups (uplinks rows) vpn)).
Proof.
  intros Hrows Hvpn. set (want := AllRules seededGroups (uplinks rows) vpn). unfold ReconcileRules.
  assert (forall r, r ∈ want -> panel_rule r) as Hpanel by (intros r Hr; by exists rows, vpn).
  destruct (add_all b want) as [b1 e1] eqn:Ea. destruct (add_all_spec _ _ _ _ Ea) as (A1 & A2 & A3).
  assert (managed (be_rules b) -> managed (be_rules b1)) as M1.
  { intros [Hk Ht]. split; [|intros t Htt; by apply A1, Ht]. intros r [Hr|Hr]%A2; [by apply Hk|right; by apply Hpanel]. }
  destruct e1 as [er|].
  { intros [= <- <-]. split; [done|]. split; [intros r Hr _; by apply A1|done]. }
  destruct (RuleList b1) as [have|] eqn:El.
  2: { intros [= <- <-]. split; [done|]. split; [intros r Hr _; by apply A1|done]. }
  intros Hd. destruct (delete_stale_spec _ _ _ _ _ Hd) as (D1 & D2 & D3).
  assert (forall t, t ∈ terminators -> t ∈ be_rules b') as Hterm.
  { intros t Ht. assert (t ∈ want) as Hw by by apply AllRules_terminators. apply D2; [by apply A3|by right]. }
  split.
  { intros Hm. split; [|done]. intros r Hr%D1. by apply (M1 Hm). }
  split; [intros r Hr Hor; apply D2; [by apply A1|done]|]. intros ->. split.
  - split; [|done]. intros r Hr. destruct (isStockRule (Pref r)) eqn:Es; [by left|]. right. apply Hpanel.
    apply (D3 eq_refl r); [|done|done]. apply (RuleList_spec b1 have El). by apply D1.
  - intros r Hs. split.
    + intros Hr. apply (D3 eq_refl r); [|done|done]. apply (RuleList_spec b1 have El). by apply D1.
    + intros Hr. apply D2; [by apply A3|by right].
Qed.

(** ** A box with a domestic line, a secondary and a tunnel *)

Lemma AllRules_managed rows vpn :
  Forall good_row rows -> good_vpn vpn -> managed (AllRules seededGroups (uplinks rows) vpn).
Proof.
  intros Hr Hv. split; [|intros t; by apply AllRules_terminators]. intros r Hin. right. by exists rows, vpn.
Qed.

Definition demo_rows : list WANRow :=
  [MkRow "eth0" "k0" SlotDomestic true false "" "" false; MkRow "eth1" "k1" SlotSecondary true false "" "" false].
Definition demo_vpn : VPNRouteState := MkVPN ["wg0"].
Definition demo_rules : list Rule := AllRules seededGroups (uplinks demo_rows) demo_vpn.

Definition demo_default (table : Z) (oif : string) : Route := MkRoute false table "default" "" oif "" 0 [].
Definition demo_routes (table : Z) : list Route :=
  if table =? 201 then [demo_default 201 "eth0"] else if table =? 202 then [demo_default 202 "eth1"]
  else if table =? WGTable then [demo_default WGTable "wg0"] else [].

Definition demo_ip (s : string) : option Z := if decide (s = "9.9.9.9") then Some 9 else None.
Definition demo_cidr (s : string) : option ((Z -> bool) * Z) :=
  if decide (s = "0.0.0.0/0") then Some (fun _ => true, 0) else None.

Lemma demo_good : Forall good_row demo_rows /\ good_vpn demo_vpn.
Proof.
  split; [|by apply Forall_singleton].
  repeat (apply Forall_cons; split); [..|apply Forall_nil_2]; (split; [done|]); apply (bool_decide_unpack _); vm_compute; exact I.
Qed.

Definition demo_walk (mark : Z) : string * option Route * option Rule :=
  walkPolicy demo_ip demo_cidr demo_rules demo_routes "9.9.9.9" mark.

(** Foreign traffic takes the tunnel. *)
Lemma policy_confined_witness :
  demo_walk (GroupMark GroupForeign) =
    ("ok", Some (demo_default WGTable "wg0"), Some (markRule 150 (GroupMark GroupForeign) MaskGroup WGTable)) /\
  WGTable ∈ allowed (GroupMark GroupForeign).
Proof.
  split; [vm_compute; reflexivity|].
  destruct (policy_confined demo_ip demo_cidr demo_rules demo_routes "9.9.9.9" (GroupMark GroupForeign)
    "ok" (demo_default WGTable "wg0") (Some (markRule 150 (GroupMark GroupForeign) MaskGroup WGTable)))
    as [(r & [= <-] & [[Hm _]|Hin]) _].
  - apply AllRules_managed; apply demo_good.
  - reflexivity.
  - vm_compute. reflexivity.
  - discriminate Hm.
  - exact Hin.
Defined.

(** A reply pinned to the secondary goes back out of it. *)
Lemma pinned_stays_witness :
  let m := Some (markRule 52 (PinMark 2) MaskPin 202) in
  demo_walk (PinMark 2) = ("ok", Some (demo_default 202 "eth1"), m) /\
  exists r, m = Some r /\ (r = mainRule \/ Table r = tableFor SlotSecondary).
Proof.
  cbn zeta. split; [vm_compute; reflexivity|].
  destruct (pinned_stays demo_ip demo_cidr demo_rules demo_routes "9.9.9.9" (PinMark 2) "ok" (demo_default 202 "eth1")
    (Some (markRule 52 (PinMark 2) MaskPin 202)) demo_rows demo_vpn
    (MkRow "eth1" "k1" SlotSecondary true false "" "" false)) as (r & Hr & Hor).
  - apply AllRules_managed; apply demo_good.
  - apply demo_good.
  - apply demo_good.
  - vm_compute. lia.
  - done.
  - right; left.
  - reflexivity.
  - reflexivity.
  - vm_compute. reflexivity.
  - exists r. split; [exact Hr|]. destruct Hor as [[? _]|?]; [by left|by right].
Defined.

(** From an empty kernel the panel's rules go in, and they are what it then has. *)
Lemma reconcile_safe_witness :
  let b' := (ReconcileRules (MkFake [lookupRule 32766 254] false) demo_rules).1 in
  managed (fb_Rules b') /\ length (fb_Rules b') = 21%nat.
Proof.
  cbn zeta. split; [|vm_compute; reflexivity].
  destruct (reconcile_safe (MkFake [lookupRule 32766 254] false)
    (ReconcileRules (MkFake [lookupRule 32766 254] false) demo_rules).1
    (ReconcileRules (MkFake [lookupRule 32766 254] false) demo_rules).2 demo_rows demo_vpn) as (_ & _ & Hok).
  - apply demo_good.
  - apply demo_good.
  - unfold demo_rules. by destruct (ReconcileRules _ _).
  - apply Hok. vm_compute. reflexivity.
Defined.
