(* ===== verification/RouterHealth.v ===== *)
(** * Line health: the dampers and the sample ring

    Models [internal/network/usecase/health.go] ([HealthMonitor]) and
    [health_internet.go] ([internetState], [healthRing], [medianRTT]). A probe's
    answer is an input; times are nanoseconds since the epoch. What the two
    dampers have in common is the class [Damper], and the theorems on when a
    line changes state are proved once, against it. *)

From S2P Require Import Prelude History GoFloat.

Definition noTime : Z := -62135596800 * second.

(** ** The uplink monitor *)

Record DampingConfig := MkDamping { FailuresToDown : Z; SuccessesToUp : Z; FailbackDwell : Z }.
Definition DefaultDamping : DampingConfig := MkDamping 3 6 (60 * second).

Record uplinkState := MkUplinkState {
  us_up : bool; us_fails : Z; us_successes : Z; lastDownAt : Z; everObserved : bool; everUp : bool
}.

Definition newUplinkState : uplinkState := MkUplinkState false 0 0 noTime false false.

(** [setLocked]: the state, and what it returns ([up, changed]); [OnChange] is
    called exactly when [changed]. *)
Definition setLocked (st : uplinkState) (up : bool) (now : Z) : uplinkState * (bool * bool) :=
  let changed := negb (Bool.eqb (us_up st) up) || negb (everObserved st) in
  (MkUplinkState up 0 0 (if negb up then now else lastDownAt st) true (if up then true else everUp st), (up, changed)).

Definition set_fails (st : uplinkState) (n : Z) : uplinkState :=
  MkUplinkState (us_up st) n (us_successes st) (lastDownAt st) (everObserved st) (everUp st).
Definition set_counts (st : uplinkState) (fails successes : Z) (seen : bool) : uplinkState :=
  MkUplinkState (us_up st) fails successes (lastDownAt st) seen (everUp st).

(** What a probe cycle is given: the operator's [forceState], whether the link
    has carrier ([None] where the probe failed), whether the gateway answered
    ([None] where the probe failed, which counts as no). *)
Record look := MkLook { forceState : string; l_carrier : option bool; l_reachable : option bool; l_now : Z }.

(** [Observe] on one uplink's state: the state after, [up], [changed], and
    whether it returned an error. *)
Definition observe (d : DampingConfig) (st : uplinkState) (l : look) : uplinkState * (bool * bool) * bool :=
  if decide (forceState l = "up") then (setLocked st true (l_now l), false)
  else if decide (forceState l = "down") then (setLocked st false (l_now l), false)
  else match l_carrier l with
  | None => (st, (us_up st, false), true)
  | Some false => (setLocked (set_fails st (FailuresToDown d)) false (l_now l), false)
  | Some true =>
      if default false (l_reachable l) then
        let st := set_counts st 0 (us_successes st + 1) (everObserved st) in
        if negb (us_up st) && (SuccessesToUp d <=? us_successes st) then
          if negb (lastDownAt st =? noTime) && (l_now l - lastDownAt st <? FailbackDwell d)
          then (st, (us_up st, false), false)
          else (setLocked st true (l_now l), false)
        else
          let st := set_counts st (us_fails st) (us_successes st) (everObserved st || us_up st) in
          (st, (us_up st, false), false)
      else
        let st := set_counts st (us_fails st + 1) 0 (everObserved st) in
        if us_up st && (FailuresToDown d <=? us_fails st) then (setLocked st false (l_now l), false)
        else (set_counts st (us_fails st) (us_successes st) true, (us_up st, false), false)
  end.

(** The monitor: a state per interface, made the first time it is looked at. *)
Definition states := gmap string uplinkState.

Definition Observe (d : DampingConfig) (h : states) (ifName : string) (l : look) : states * (bool * bool) * bool :=
  let '(st, r, e) := observe d (default newUplinkState (h !! ifName)) l in (<[ifName := st]> h, r, e).

Definition EverUp (h : states) (ifName : string) : bool :=
  match h !! ifName with Some st => everUp st | None => false end.

(** ** The internet damper *)

Record internetLimits := MkLimits { FailsToDown : Z; SuccsToUp : Z; Dwell : Z }.
Definition defaultInternetLimits : internetLimits := MkLimits 5 12 (120 * second).

Record internetState := MkInternet {
  is_down : bool; is_everUp : bool; is_fails : Z; is_successes : Z; is_lastDownAt : Z
}.

Definition newInternetState : internetState := MkInternet false false 0 0 noTime.

Definition is_observe (s : internetState) (ok : bool) (lim : internetLimits) (now : Z) : internetState * (bool * bool) :=
  if ok then
    let s := MkInternet (is_down s) true 0 (is_successes s + 1) (is_lastDownAt s) in
    if is_down s && (SuccsToUp lim <=? is_successes s) && (Dwell lim <=? now - is_lastDownAt s)
    then (MkInternet false true 0 (is_successes s) (is_lastDownAt s), (true, true))
    else (s, (negb (is_down s), false))
  else
    let s := MkInternet (is_down s) (is_everUp s) (is_fails s + 1) 0 (is_lastDownAt s) in
    if negb (is_down s) && (FailsToDown lim <=? is_fails s)
    then (MkInternet true (is_everUp s) (is_fails s) 0 now, (false, true))
    else (s, (negb (is_down s), false)).

(** ** Samples *)

Record HealthSample := MkSample { S_Unix : Z; OKRatio : float64; RTTms : Z }.
Definition zeroHealthSample : HealthSample := MkSample 0 (f64_of_int 0) 0.

Definition ringSize : nat := 720.

Record healthRing := MkRing { buf : list HealthSample; head : nat; rn : nat }.
Definition newHealthRing : healthRing := MkRing (replicate ringSize zeroHealthSample) 0 0.

Definition push (r : healthRing) (s : HealthSample) : healthRing :=
  MkRing (<[head r := s]> (buf r)) ((head r + 1) mod ringSize) (if decide (rn r < ringSize)%nat then S (rn r) else rn r).

Definition snapshot (r : healthRing) : list HealthSample :=
  let start := ((head r + ringSize - rn r) mod ringSize)%nat in
  (fun i => default zeroHealthSample (buf r !! ((start + i) mod ringSize)%nat)) <$> seq 0 (rn r).

Definition window (samples : list HealthSample) (n : nat) : list HealthSample :=
  if decide (n < length samples)%nat then drop (length samples - n) samples else samples.

Definition medianRTT (samples : list HealthSample) (n : nat) : Z :=
  let rtts := filter (fun t => 0 < t) (RTTms <$> window samples n) in
  match rtts with
  | [] => 0
  | _ => default 0 (sort_on id rtts !! (length rtts / 2)%nat)
  end.

(** What a tick's probes say: whether each answered, and how fast. *)
Record ProbeResult := MkProbe { P_OK : bool; P_RTT : Z }.

Definition anyUp (results : list ProbeResult) : bool := existsb P_OK results.

Definition tickSample (now : Z) (results : list ProbeResult) : HealthSample :=
  match results with
  | [] => MkSample (Unix now) (f64_of_int 0) 0
  | _ =>
      let rtts := (fun r => Z.quot (P_RTT r) (10 ^ 6)) <$> filter (fun r => P_OK r = true) results in
      MkSample (Unix now) (f64_div (f64_of_int (Z.of_nat (length rtts))) (f64_of_int (Z.of_nat (length results))))
        (match rtts with [] => 0 | _ => default 0 (sort_on id rtts !! (length rtts / 2)%nat) end)
  end.

(** ** What a damper promises *)

(** How many of the newest answers agree. *)
Fixpoint leading (b : bool) (h : list bool) : Z :=
  match h with
  | [] => 0
  | a :: h => if Bool.eqb a b then 1 + leading b h else 0
  end.

(** A damper takes answers one at a time. It goes up only on a good answer when
    its count says [d_toUp], down only on a bad one when its count says
    [d_toDown]; a count goes up by one at most and the other answer zeroes it.
    What else happens to it ([d_other]) at most zeroes a count. While it stays
    down good answers are all counted, and enough of them take it up once the
    dwell is over; and so for bad ones while it stays up. *)
Class Damper (S : Type) := {
  d_init : S;
  d_up : S -> bool;
  d_good : S -> Z;
  d_bad : S -> Z;
  d_rested : S -> Z -> bool;
  d_toUp : Z;
  d_toDown : Z;
  d_step : S -> bool -> Z -> S;
  d_other : S -> S -> Prop;
  d_init_counts : d_good d_init <= 0 /\ d_bad d_init <= 0;
  d_good_step s t : d_good (d_step s true t) <= Z.max 0 (d_good s) + 1 /\ d_bad (d_step s true t) <= 0;
  d_bad_step s t : d_bad (d_step s false t) <= Z.max 0 (d_bad s) + 1 /\ d_good (d_step s false t) <= 0;
  d_other_counts s s' : d_other s s' -> d_good s' <= Z.max 0 (d_good s) /\ d_bad s' <= Z.max 0 (d_bad s);
  d_goes_up s a t : d_up s = false -> d_up (d_step s a t) = true ->
    a = true /\ d_toUp <= d_good s + 1 /\ d_rested s t = true;
  d_goes_down s a t : d_up s = true -> d_up (d_step s a t) = false -> a = false /\ d_toDown <= d_bad s + 1;
  d_counts_good s t : d_up s = false -> d_up (d_step s true t) = false ->
    d_good (d_step s true t) = d_good s + 1 /\ (d_toUp <= d_good s + 1 -> d_rested s t = false) /\
    forall t', d_rested (d_step s true t) t' = d_rested s t';
  d_counts_bad s t : d_up s = true -> d_up (d_step s false t) = true ->
    d_bad (d_step s false t) = d_bad s + 1 /\ d_bad s + 1 < d_toDown;
  d_stays_down s t : d_up s = false -> d_up (d_step s false t) = false;
  d_stays_up s t : d_up s = true -> d_up (d_step s true t) = true
}.

Section damper.
Context {S : Type} `{Damper S}.

(** A run of a damper, with the answers it had, newest first. *)
Inductive damped : list bool -> S -> Prop :=
| DampedNew : damped [] d_init
| DampedAnswer h s a t : damped h s -> damped (a :: h) (d_step s a t)
| DampedOther h s s' : damped h s -> d_other s s' -> damped h s'.

Lemma leading_nonneg b h : 0 <= leading b h.
Proof. induction h as [|a h IH]; cbn; [lia|]. destruct (Bool.eqb a b); lia. Qed.

Lemma damped_counts h s : damped h s -> d_good s <= leading true h /\ d_bad s <= leading false h.
Proof.
  induction 1 as [|h s a t _ [IHg IHb]|h s s' _ [IHg IHb] Ho].
  - apply d_init_counts.
  - destruct a; cbn [leading Bool.eqb].
    + pose proof (d_good_step s t). pose proof (leading_nonneg true h). lia.
    + pose proof (d_bad_step s t). pose proof (leading_nonneg false h). lia.
  - pose proof (d_other_counts s s' Ho). pose proof (leading_nonneg true h). pose proof (leading_nonneg false h). lia.
Qed.

(** A change of state has been earned. *)
Lemma damped_earned h s a t :
  damped h s -> d_up s <> d_up (d_step s a t) ->
  if a then d_toUp <= leading true (a :: h) /\ d_rested s t = true else d_toDown <= leading false (a :: h).
Proof.
  intros Hd Hne. destruct (damped_counts h s Hd) as [Hg Hb].
  destruct (d_up s) eqn:Eu, (d_up (d_step s a t)) eqn:Eu'; try done.
  - destruct (d_goes_down s a t Eu Eu') as [-> ?]. cbn [leading Bool.eqb]. lia.
  - destruct (d_goes_up s a t Eu Eu') as (-> & ? & ?). cbn [leading Bool.eqb]. split; [lia|done].
Qed.

Definition d_steps (s : S) (a : bool) (ts : list Z) : S := foldl (fun s t => d_step s a t) s ts.

(** Bad answers in a row take a line down, after at most [d_toDown] of them. *)
Lemma damped_falls ts s :
  0 <= d_bad s -> d_toDown <= d_bad s + Z.of_nat (length ts) -> ts <> [] -> d_up (d_steps s false ts) = false.
Proof.
  assert (forall ts s, d_up s = false -> d_up (d_steps s false ts) = false) as Hdown.
  { clear ts s. induction ts as [|t ts IH]; intros s Hs; [done|]. by apply IH, d_stays_down. }
  revert s. induction ts as [|t ts IH]; intros s Hb Hlen Hne; [done|]. cbn [d_steps foldl length] in *.
  fold (d_steps (d_step s false t) false ts).
  destruct (d_up s) eqn:Eu; [|apply Hdown; by apply d_stays_down].
  destruct (d_up (d_step s false t)) eqn:Eu'; [|by apply Hdown].
  destruct (d_counts_bad s t Eu Eu') as [Hc Hlt]. destruct ts as [|t' ts]; [cbn in Hlen; lia|].
  apply IH; [lia|lia|done].
Qed.

(** Good answers in a row take a line up, once there are enough and the last
    of them comes after the rest the line owes. *)
Lemma damped_recovers ts t s :
  0 <= d_good s -> d_toUp <= d_good s + Z.of_nat (length ts) + 1 -> d_rested s t = true ->
  d_up (d_step (d_steps s true ts) true t) = true.
Proof.
  assert (forall ts s, d_up s = true -> d_up (d_steps s true ts) = true) as Hup.
  { clear ts t s. induction ts as [|t ts IH]; intros s Hs; [done|]. by apply IH, d_stays_up. }
  revert s. induction ts as [|t' ts IH]; intros s Hg Hlen Hr; cbn [d_steps foldl length] in *.
  - destruct (d_up s) eqn:Eu; [by apply d_stays_up|].
    destruct (d_up (d_step s true t)) eqn:Eu'; [done|].
    destruct (d_counts_good s t Eu Eu') as (_ & Hno & _). rewrite Hno in Hr; [done|lia].
  - fold (d_steps (d_step s true t') true ts).
    destruct (d_up s) eqn:Eu; [apply d_stays_up, Hup; by apply d_stays_up|].
    destruct (d_up (d_step s true t')) eqn:Eu'; [by apply d_stays_up, Hup|].
    destruct (d_counts_good s t' Eu Eu') as (Hc & _ & Hrest). apply IH; [lia|lia|by rewrite Hrest].
Qed.
End damper.

(** ** The two dampers keep the promise *)

(** Opens a look that brings an answer. *)
Ltac open_answer := unfold observe; cbn; rewrite ?decide_False by done; cbn.

Definition answer_look (a : bool) (t : Z) : look := MkLook "" (Some true) (Some a) t.

(** The answer a cycle got, where it got that far. *)
Definition answer_of (l : look) : option bool :=
  if decide (forceState l = "up" \/ forceState l = "down") then None
  else match l_carrier l with Some true => Some (default false (l_reachable l)) | _ => None end.

Definition owes_no_rest (d : DampingConfig) (s : uplinkState) (t : Z) : bool :=
  (lastDownAt s =? noTime) || (FailbackDwell d <=? t - lastDownAt s).

Lemma observe_answer d s l a : answer_of l = Some a -> observe d s l = observe d s (answer_look a (l_now l)).
Proof.
  unfold answer_of, observe. destruct (decide _) as [|Hf]; [done|].
  assert (forceState l <> "up" /\ forceState l <> "down") as [Hu Hd] by tauto.
  rewrite (decide_False (P := forceState l = "up")), (decide_False (P := forceState l = "down")) by done.
  destruct (l_carrier l) as [[|]|]; [|done|done]. by intros [= <-].
Qed.

Lemma observe_other d s l :
  answer_of l = None -> 
  us_successes (observe d s l).1.1 <= Z.max 0 (us_successes s) /\ us_fails (observe d s l).1.1 <= Z.max 0 (us_fails s).
Proof.
  unfold answer_of, observe. destruct (decide (forceState l = "up")); [cbn; lia|].
  destruct (decide (forceState l = "down")); [cbn; lia|].
  rewrite decide_False by tauto. destruct (l_carrier l) as [[|]|]; cbn; [done|lia|lia].
Qed.

(** The counts are never negative. *)
Definition counts_nonneg (s : uplinkState) : Prop := 0 <= us_successes s /\ 0 <= us_fails s.

Lemma observe_nonneg d s l : counts_nonneg s -> counts_nonneg (observe d s l).1.1.
Proof.
  intros [Hs Hf]. unfold counts_nonneg, observe, setLocked, set_counts, set_fails.
  repeat case_match; cbn in *; lia.
Qed.

Program Definition uplink_damper (d : DampingConfig) : Damper uplinkState := {|
  d_init := newUplinkState; d_up := us_up; d_good := us_successes; d_bad := us_fails;
  d_rested := owes_no_rest d;
  d_toUp := SuccessesToUp d; d_toDown := FailuresToDown d;
  d_step s a t := (observe d s (answer_look a t)).1.1;
  d_other s s' := exists l, answer_of l = None /\ s' = (observe d s l).1.1
|}.
Next Obligation. cbn. lia. Qed.
Next Obligation. intros d s t. open_answer. repeat case_match; cbn; lia. Qed.
Next Obligation. intros d s t. open_answer. repeat case_match; cbn; lia. Qed.
Next Obligation. intros d s s' (l & Hl & ->). by apply observe_other. Qed.
Next Obligation.
  intros d s a t Hu. unfold owes_no_rest. destruct a; open_answer; rewrite Hu; cbn; [|by rewrite Hu].
  destruct (Z.leb_spec (SuccessesToUp d) (us_successes s + 1)); [|cbn; congruence].
  destruct (Z.eqb_spec (lastDownAt s) noTime); cbn; [done|].
  destruct (Z.ltb_spec (t - lastDownAt s) (FailbackDwell d)); cbn; [congruence|]. by rewrite Z.leb_le.
Qed.
Next Obligation.
  intros d s a t Hu. destruct a; open_answer; rewrite Hu; cbn; [congruence|].
  destruct (Z.leb_spec (FailuresToDown d) (us_fails s + 1)); cbn; [done|congruence].
Qed.
Next Obligation.
  intros d s t Hu. unfold owes_no_rest. open_answer. rewrite Hu. cbn.
  destruct (Z.leb_spec (SuccessesToUp d) (us_successes s + 1)) as [Hn|Hn]; cbn.
  - destruct (Z.eqb_spec (lastDownAt s) noTime) as [He|He]; cbn; [done|].
    destruct (Z.ltb_spec (t - lastDownAt s) (FailbackDwell d)); cbn; [|done]. intros _. split; [done|].
    split; [intros _; apply Z.leb_gt; lia|]. intros t'. by rewrite (proj2 (Z.eqb_neq _ _) He).
  - intros _. split; [done|]. split; [lia|done].
Qed.
Next Obligation.
  intros d s t Hu. open_answer. rewrite Hu. cbn.
  destruct (Z.leb_spec (FailuresToDown d) (us_fails s + 1)); cbn; [done|]. intros _. split; [done|lia].
Qed.
Next Obligation. intros d s t Hu. open_answer. by rewrite Hu. Qed.
Next Obligation. intros d s t Hu. open_answer. by rewrite Hu. Qed.

Program Definition internet_damper (lim : internetLimits) : Damper internetState := {|
  d_init := newInternetState; d_up s := negb (is_down s); d_good := is_successes; d_bad := is_fails;
  d_rested s t := Dwell lim <=? t - is_lastDownAt s;
  d_toUp := SuccsToUp lim; d_toDown := FailsToDown lim;
  d_step s a t := (is_observe s a lim t).1;
  d_other _ _ := False
|}.
Next Obligation. cbn. lia. Qed.
Next Obligation. intros lim s t. unfold is_observe. cbn. repeat case_match; cbn; lia. Qed.
Next Obligation. intros lim s t. unfold is_observe. cbn. repeat case_match; cbn; lia. Qed.
Next Obligation. done. Qed.
Next Obligation.
  intros lim s a t Hu%negb_false_iff. unfold is_observe. destruct a; cbn; rewrite Hu; cbn; [|done].
  destruct (Z.leb_spec (SuccsToUp lim) (is_successes s + 1)); cbn; [|done]. by destruct (_ <=? _) eqn:E.
Qed.
Next Obligation.
  intros lim s a t Hu%negb_true_iff. unfold is_observe. destruct a; cbn; rewrite Hu; cbn; [done|].
  by destruct (Z.leb_spec (FailsToDown lim) (is_fails s + 1)).
Qed.
Next Obligation.
  intros lim s t Hu%negb_false_iff. unfold is_observe. cbn. rewrite Hu. cbn.
  destruct (Z.leb_spec (SuccsToUp lim) (is_successes s + 1)); cbn; [|split; [done|split; [lia|done]]].
  by destruct (_ <=? _) eqn:E.
Qed.
Next Obligation.
  intros lim s t Hu%negb_true_iff. unfold is_observe. cbn. rewrite Hu. cbn.
  by destruct (Z.leb_spec (FailsToDown lim) (is_fails s + 1)).
Qed.
Next Obligation. intros lim s t Hu%negb_false_iff. unfold is_observe. cbn. by rewrite Hu. Qed.
Next Obligation. intros lim s t Hu%negb_true_iff. unfold is_observe. cbn. by rewrite Hu. Qed.

(** ** Theorems on a line *)

Definition observe_all (d : DampingConfig) (ls : list look) : uplinkState :=
  foldl (fun s l => (observe d s l).1.1) newUplinkState ls.

(** The answers of a run, newest first. *)
Definition answers (ls : list look) : list bool := reverse (omap answer_of ls).

Lemma answers_snoc ls l : answers (ls ++ [l]) = match answer_of l with Some a => a :: answers ls | None => answers ls end.
Proof.
  unfold answers. rewrite omap_app, reverse_app. cbn. by destruct (answer_of l).
Qed.

Lemma observe_all_damped d ls : @damped _ (uplink_damper d) (answers ls) (observe_all d ls).
Proof.
  induction ls as [|l ls IH] using rev_ind; [apply (@DampedNew _ (uplink_damper d))|].
  unfold observe_all. rewrite foldl_app. cbn [foldl]. fold (observe_all d ls). rewrite answers_snoc.
  destruct (answer_of l) as [a|] eqn:Ea.
  - rewrite (observe_answer d _ l a Ea). by apply (@DampedAnswer _ (uplink_damper d)).
  - eapply (@DampedOther _ (uplink_damper d)); [exact IH|]. by exists l.
Qed.

Lemma observe_all_nonneg d ls : counts_nonneg (observe_all d ls).
Proof.
  induction ls as [|l ls IH] using rev_ind; [done|]. unfold observe_all. rewrite foldl_app. by apply observe_nonneg.
Qed.

(** C13. A line changes state only for cause. After any run of probe cycles, a
    cycle that takes a line up or down is one the operator forced, one that
    found no carrier, or the last of enough answers in a row that agree: the
    [SuccessesToUp] newest all good, and the line down for [FailbackDwell] by
    then, or the [FailuresToDown] newest all bad. *)
Theorem line_changes_earned d ls l :
  us_up (observe d (observe_all d ls) l).1.1 <> us_up (observe_all d ls) ->
  forceState l = "up" \/ forceState l = "down" \/ l_carrier l = Some false \/
  exists a, answer_of l = Some a /\
    if a then SuccessesToUp d <= leading true (answers (ls ++ [l])) /\ owes_no_rest d (observe_all d ls) (l_now l) = true
    else FailuresToDown d <= leading false (answers (ls ++ [l])).
Proof.
  intros Hne. destruct (answer_of l) as [a|] eqn:Ea.
  - right; right; right. exists a. split; [done|]. rewrite answers_snoc, Ea. rewrite (observe_answer d _ l a Ea) in Hne.
    apply (@damped_earned _ (uplink_damper d) _ _ a (l_now l) (observe_all_damped d ls)). exact (not_eq_sym Hne).
  - unfold answer_of in Ea. destruct (decide _) as [[?|?]|Hf]; [by left|by right; left|].
    destruct (l_carrier l) as [[|]|] eqn:Ec; [done|by right; right; left|].
    exfalso. apply Hne. unfold observe. rewrite !decide_False by tauto. by rewrite Ec.
Qed.

(** The monitor follows the line: after any run of probe cycles, enough bad
    answers in a row ([FailuresToDown] at most) take it down, and enough good
    ones ([SuccessesToUp] at most) take it up when the last of them comes
    [FailbackDwell] after it went down. It can't get stuck. *)
Theorem line_follows d ls ts t :
  let s := observe_all d ls in
  (FailuresToDown d <= Z.of_nat (length ts) -> ts <> [] ->
     us_up (observe_all d (ls ++ (answer_look false <$> ts))) = false) /\
  (SuccessesToUp d <= Z.of_nat (length ts) + 1 -> owes_no_rest d s t = true ->
     us_up (observe_all d (ls ++ (answer_look true <$> ts) ++ [answer_look true t])) = true).
Proof.
  cbn zeta. destruct (observe_all_nonneg d ls) as [Hs Hf].
  assert (forall a, observe_all d (ls ++ (answer_look a <$> ts)) =
    @d_steps _ (uplink_damper d) (observe_all d ls) a ts) as Hrun.
  { intros a. unfold observe_all. rewrite foldl_app. unfold d_steps. by rewrite foldl_fmap. }
  split.
  - intros Hlen Hne. rewrite Hrun. apply (@damped_falls _ (uplink_damper d)); cbn; [done|lia|done].
  - intros Hlen Hrest. rewrite app_assoc. unfold observe_all. rewrite foldl_app. fold (observe_all d (ls ++ (answer_look true <$> ts))).
    rewrite Hrun. apply (@damped_recovers _ (uplink_damper d)); cbn; [done|lia|done].
Qed.

Definition is_run (lim : internetLimits) (rs : list (bool * Z)) : internetState :=
  foldl (fun s r => (is_observe s r.1 lim r.2).1) newInternetState rs.

Definition is_answers (rs : list (bool * Z)) : list bool := reverse rs.*1.

Lemma is_run_snoc lim rs r : is_run lim (rs ++ [r]) = (is_observe (is_run lim rs) r.1 lim r.2).1.
Proof. unfold is_run. by rewrite foldl_app. Qed.

Lemma is_run_damped lim rs : @damped _ (internet_damper lim) (is_answers rs) (is_run lim rs).
Proof.
  induction rs as [|[a t] rs IH] using rev_ind; [apply (@DampedNew _ (internet_damper lim))|].
  rewrite is_run_snoc. unfold is_answers. rewrite fmap_app, reverse_app.
  by apply (@DampedAnswer _ (internet_damper lim) _ _ a t).
Qed.

Lemma is_run_nonneg lim rs : 0 <= is_successes (is_run lim rs) /\ 0 <= is_fails (is_run lim rs).
Proof.
  induction rs as [|[a t] rs IH] using rev_ind; [done|]. rewrite is_run_snoc. unfold is_observe. repeat case_match; cbn; lia.
Qed.

(** The internet check damps the same way and starts optimistic: a tunnel or
    a line is believed up until [FailsToDown] answers in a row are bad, goes
    down then and not before, and comes back on [SuccsToUp] good ones in a row
    with [Dwell] gone since it went down. What [observe] answers is what it
    then believes, and whether that changed. *)
Theorem internet_damped lim rs a t :
  let s := is_run lim rs in let r := is_observe s a lim t in
  r.2 = (negb (is_down r.1), xorb (is_down s) (is_down r.1)) /\
  (is_down r.1 <> is_down s ->
   if a then SuccsToUp lim <= leading true (a :: is_answers rs) /\ Dwell lim <= t - is_lastDownAt s
   else FailsToDown lim <= leading false (a :: is_answers rs)) /\
  (forall ts, FailsToDown lim <= Z.of_nat (length ts) -> ts <> [] ->
     is_down (is_run lim (rs ++ (pair false <$> ts))) = true) /\
  (forall ts, SuccsToUp lim <= Z.of_nat (length ts) + 1 -> Dwell lim <= t - is_lastDownAt s ->
     is_down (is_run lim (rs ++ (pair true <$> ts) ++ [(true, t)])) = false).
Proof.
  cbn zeta. destruct (is_run_nonneg lim rs) as [Hs Hf].
  assert (forall a ts, is_run lim (rs ++ (pair a <$> ts)) = @d_steps _ (internet_damper lim) (is_run lim rs) a ts) as Hrun.
  { intros a' ts. unfold is_run. rewrite foldl_app. unfold d_steps. by rewrite foldl_fmap. }
  split; [|split; [|split]].
  - unfold is_observe. destruct a; cbn; destruct (is_down _) eqn:E; cbn; repeat case_match; cbn; by rewrite ?E.
  - intros Hne. pose proof (@damped_earned _ (internet_damper lim) _ _ a t (is_run_damped lim rs)) as He. cbn in He.
    destruct a; [rewrite <-(Z.leb_le (Dwell lim))|]; apply He; intros Heq; apply Hne;
      by destruct (is_down (is_run lim rs)), (is_down _).
  - intros ts Hlen Hne. rewrite Hrun. apply negb_false_iff.
    apply (@damped_falls _ (internet_damper lim)); cbn; [done|lia|done].
  - intros ts Hlen Hd. rewrite app_assoc, is_run_snoc, Hrun. apply negb_true_iff.
    apply (@damped_recovers _ (internet_damper lim)); cbn; [done|lia|by apply Z.leb_le].
Qed.

(** ** The sample ring *)

Lemma ringSize_pos : (0 < ringSize)%nat.
Proof. unfold ringSize. lia. Qed.

#[local] Opaque ringSize.

Definition ring_of_samples (ss : list HealthSample) : healthRing := foldl push newHealthRing ss.

Record ring_holds (ss : list HealthSample) (r : healthRing) : Prop := {
  rh_len : length (buf r) = ringSize;
  rh_head : head r = (length ss mod ringSize)%nat;
  rh_n : rn r = Nat.min (length ss) ringSize;
  rh_buf k : (k < length ss)%nat -> (length ss <= k + ringSize)%nat -> buf r !! (k mod ringSize)%nat = ss !! k
}.

Lemma ring_of_samples_holds ss : ring_holds ss (ring_of_samples ss).
Proof.
  pose proof ringSize_pos as Hpos.
  induction ss as [|s ss IH] using rev_ind.
  - split; cbn; [apply length_replicate|by rewrite Nat.Div0.mod_0_l|done|lia].
  - unfold ring_of_samples. rewrite foldl_app. cbn [foldl]. fold (ring_of_samples ss).
    destruct IH as [Hl Hh Hn Hb]. set (r := ring_of_samples ss) in *.
    pose proof (Nat.mod_upper_bound (length ss) ringSize ltac:(lia)) as Hup.
    split; cbn [push buf head rn].
    + by rewrite length_insert.
    + rewrite Hh, length_app. cbn [length]. by rewrite Nat.Div0.add_mod_idemp_l.
    + rewrite Hn, length_app. cbn [length]. case_decide; lia.
    + intros k Hk Hk2. rewrite length_app in Hk, Hk2. cbn [length] in Hk, Hk2.
      destruct (decide (k = length ss)) as [->|Hne].
      * rewrite Hh, list_lookup_insert_eq by lia. by rewrite lookup_app_r, Nat.sub_diag by lia.
      * rewrite list_lookup_insert_ne; [by rewrite lookup_app_l, Hb by lia|]. rewrite Hh. intros Heq.
        pose proof (Nat.div_mod_eq k ringSize) as H1. pose proof (Nat.div_mod_eq (length ss) ringSize) as H2.
        rewrite Heq in H2. clear -Hk Hk2 Hne H1 H2. generalize dependent (k / ringSize)%nat. intros q1 H1.
        generalize dependent (length ss / ringSize)%nat. intros q2 H2.
        destruct (Nat.le_gt_cases q2 q1); nia.
Qed.

(** The ring keeps the last hour: whatever was pushed, a snapshot is the
    newest [ringSize] samples, oldest first, none missing and none from before. *)
Theorem ring_keeps_last_hour ss :
  snapshot (ring_of_samples ss) = drop (length ss - ringSize) ss.
Proof.
  destruct (ring_of_samples_holds ss) as [Hl Hh Hn Hb]. pose proof ringSize_pos as Hpos.
  apply list_eq. intros i. unfold snapshot. rewrite list_lookup_fmap, lookup_drop.
  destruct (decide (i < rn (ring_of_samples ss))%nat) as [Hi|Hi].
  - rewrite lookup_seq_lt by done. cbn [fmap option_fmap option_map]. rewrite Hn in Hi |- *. rewrite Hh.
    set (k := (length ss - ringSize + i)%nat).
    assert (((((length ss mod ringSize + ringSize - Nat.min (length ss) ringSize) mod ringSize + (0 + i)) mod ringSize) =
            k mod ringSize)%nat) as ->.
    { rewrite Nat.Div0.add_mod_idemp_l. subst k. pose proof (Nat.div_mod_eq (length ss) ringSize) as Hdm.
      destruct (Nat.le_ge_cases ringSize (length ss)).
      - rewrite Nat.min_r by lia.
        replace (length ss mod ringSize + ringSize - ringSize + (0 + i))%nat with (length ss mod ringSize + i)%nat by lia.
        rewrite Nat.Div0.add_mod_idemp_l.
        replace (length ss + i)%nat with (length ss - ringSize + i + 1 * ringSize)%nat by lia. by rewrite Nat.Div0.mod_add.
      - rewrite Nat.min_l by lia. destruct (decide (length ss = ringSize)) as [Heq|].
        + by rewrite Heq, Nat.Div0.mod_same, Nat.sub_diag.
        + rewrite (Nat.mod_small (length ss)) by lia.
          replace (length ss + ringSize - length ss + (0 + i))%nat with (length ss - ringSize + i + 1 * ringSize)%nat by lia.
          by rewrite Nat.Div0.mod_add. }
    rewrite Hb by lia. destruct (lookup_lt_is_Some_2 ss k ltac:(lia)) as [s Hs]. by rewrite Hs.
  - rewrite lookup_seq_ge by lia. cbn. symmetry. apply lookup_ge_None. lia.
Qed.

(** ** A line that comes up, and one that goes down *)

Definition demo_looks : list look := (fun i => answer_look true (Z.of_nat i * 5 * second)) <$> seq 1 5.

Lemma line_changes_earned_witness :
  us_up (observe_all DefaultDamping demo_looks) = false /\
  exists a, answer_of (answer_look true (30 * second)) = Some a /\
    if a then 6 <= leading true (answers (demo_looks ++ [answer_look true (30 * second)])) else False.
Proof.
  split; [vm_compute; reflexivity|].
  destruct (line_changes_earned DefaultDamping demo_looks (answer_look true (30 * second)))
    as [H|[H|[H|(a & Ha & H)]]]; [vm_compute; discriminate|discriminate H|discriminate H|discriminate H|].
  exists a. split; [exact Ha|]. injection Ha as <-. exact (proj1 H).
Defined.

Lemma line_follows_witness :
  us_up (observe_all DefaultDamping ([] ++ (answer_look true <$> [1; 2; 3; 4; 5]) ++ [answer_look true 6])) = true /\
  us_up (observe_all DefaultDamping (demo_looks ++ (answer_look false <$> [31 * second; 36 * second; 41 * second]))) = false.
Proof.
  split.
  - apply (line_follows DefaultDamping [] [1; 2; 3; 4; 5] 6); [cbn; lia|reflexivity].
  - apply (line_follows DefaultDamping demo_looks [31 * second; 36 * second; 41 * second] 0); [cbn; lia|discriminate].
Defined.

Lemma internet_damped_witness :
  is_down (is_run defaultInternetLimits ([(true, 1)] ++ (pair false <$> [2; 3; 4; 5; 6]))) = true.
Proof.
  destruct (internet_damped defaultInternetLimits [(true, 1)] true 2) as (_ & _ & Hdown & _).
  apply Hdown; [cbn; lia|discriminate].
Defined.
