(* ===== verification/RouterPool.v ===== *)
(** * Who carries: the tunnel pool's strategies and the domestic failover

    Models [internal/network/usecase/pool_strategy.go], [poolNexthops] of
    [vpn.go], the reset of [SetPoolStrategy] ([pool_control.go]) and
    [domestic_failover.go]. Round-trip times and priorities are Go [int]s far
    from their bounds and are plain [Z] here. *)

From S2P Require Import Prelude RouterRules RouterWalk.

(** ** The pool *)

Definition PoolStrategy := string.
Definition StrategySpread : PoolStrategy := "spread".
Definition StrategyOrder : PoolStrategy := "order".
Definition StrategyFastest : PoolStrategy := "fastest".
Definition DefaultPoolStrategy : PoolStrategy := StrategySpread.

Definition ParsePoolStrategy (s : string) : PoolStrategy * bool :=
  if decide (s ∈ [StrategySpread; StrategyOrder; StrategyFastest]) then (s, true) else (DefaultPoolStrategy, false).

Definition SingleCarrier (s : PoolStrategy) : bool := bool_decide (s = StrategyOrder \/ s = StrategyFastest).

Record poolMember := MkMember { M_IfName : string; M_Slot : Z; Priority : Z; M_RTTms : Z; Healthy : bool }.

#[global] Instance poolMember_inhabited : Inhabited poolMember := populate (MkMember "" 0 0 0 false).

Definition fastestMarginMs : Z := 20.
Definition fastestMarginPct : Z := 25.
Definition fastestHoldTicks : Z := 3.

Definition betterByMargin (challenger carrier : Z) : bool :=
  if (challenger <=? 0) || (carrier <=? 0) then false
  else (fastestMarginMs <=? carrier - challenger) && (carrier * fastestMarginPct <=? (carrier - challenger) * 100).

(** The operator's order, the slot breaking ties. *)
Definition chain_le (a b : poolMember) : Prop :=
  Priority a < Priority b \/ (Priority a = Priority b /\ M_Slot a <= M_Slot b).
#[global] Instance chain_le_dec a b : Decision (chain_le a b).
Proof. unfold chain_le. apply _. Defined.
#[global] Instance chain_le_trans : Transitive chain_le.
Proof. intros a b c. unfold chain_le. lia. Qed.
#[global] Instance chain_le_total : Total chain_le.
Proof. intros a b. unfold chain_le. lia. Qed.

Definition in_chain (ms : list poolMember) : list poolMember := merge_sort chain_le ms.
Definition healthyOf (ms : list poolMember) : list poolMember := filter (fun m => Healthy m = true) ms.

Definition faster (best m : poolMember) : poolMember :=
  if M_RTTms m <=? 0 then best
  else if (M_RTTms best <=? 0) || (M_RTTms m <? M_RTTms best) then m else best.

(** [healthy] is not empty where the code calls it. *)
Definition fastestOf (healthy : list poolMember) : poolMember :=
  match healthy with
  | [] => inhabitant
  | m :: ms => foldl faster m ms
  end.

Definition carriersFor (ms : list poolMember) (strategy : PoolStrategy) (sticky : string) : list poolMember :=
  if bool_decide (ms = []) then []
  else
    let ordered := in_chain ms in
    let healthy := healthyOf ordered in
    if bool_decide (strategy = StrategyOrder) then
      if bool_decide (healthy = []) then list.take 1 ordered else list.take 1 healthy
    else if bool_decide (strategy = StrategyFastest) then
      if bool_decide (healthy = []) then list.take 1 ordered
      else match filter (fun m => M_IfName m = sticky) healthy with
           | m :: _ => [m]
           | [] => [fastestOf healthy]
           end
    else if bool_decide (healthy = []) then ordered else healthy.

Definition poolNexthops (ms : list poolMember) (strategy : PoolStrategy) (carrier : string) : list Nexthop :=
  (fun m => MkNexthop (M_IfName m) 1) <$> carriersFor ms strategy carrier.

Record carrierSwitch := MkSwitch { From : string; To : string; Reason : string; FromRTT : Z; ToRTT : Z }.

(** What the election remembers between ticks. *)
Record election := MkElection { poolCarrier : string; poolChallenger : string; poolChallengeTicks : Z }.
Definition noElection : election := MkElection "" "" 0.

Definition byName (ms : list poolMember) : gmap string poolMember :=
  foldl (fun acc m => <[M_IfName m := m]> acc) ∅ ms.

Definition no_challenge (e : election) : election := MkElection (poolCarrier e) "" 0.

(** The first of [carriersFor], which is not empty when there are members. *)
Definition first_carrier (ms : list poolMember) (strategy : PoolStrategy) : poolMember :=
  default inhabitant (head (carriersFor ms strategy "")).

Definition electFastest (e : election) (ms : list poolMember) (prev : string) : election * poolMember :=
  match byName ms !! prev with
  | Some cur =>
      if negb (Healthy cur) then (no_challenge e, first_carrier ms StrategyFastest)
      else
        let healthy := filter (fun m => Healthy m = true /\ M_IfName m <> prev) ms in
        if bool_decide (healthy = []) || (M_RTTms cur <=? 0) then (no_challenge e, cur)
        else
          let best := fastestOf healthy in
          if negb (betterByMargin (M_RTTms best) (M_RTTms cur)) then (no_challenge e, cur)
          else if negb (bool_decide (poolChallenger e = M_IfName best))
          then (MkElection (poolCarrier e) (M_IfName best) 1, cur)
          else
            let e := MkElection (poolCarrier e) (poolChallenger e) (poolChallengeTicks e + 1) in
            if poolChallengeTicks e <? fastestHoldTicks then (e, cur) else (e, best)
  | None => (no_challenge e, first_carrier ms StrategyFastest)
  end.

Definition electCarrier (e : election) (ms : list poolMember) (strategy : PoolStrategy) : election * option carrierSwitch :=
  if negb (SingleCarrier strategy) || bool_decide (ms = []) then (noElection, None)
  else
    let prev := poolCarrier e in
    let prevRTT := match byName ms !! prev with Some m => M_RTTms m | None => 0 end in
    let '(e, want, reason) :=
      if bool_decide (strategy = StrategyOrder) then
        let want := first_carrier ms strategy in
        (e, want, match byName ms !! prev with
                  | Some cur => if Priority want <? Priority cur then "failback" else "failover"
                  | None => "failover"
                  end)
      else
        let '(e, want) := electFastest e ms prev in
        (e, want, match byName ms !! prev with
                  | Some cur => if Healthy cur then "faster" else "failover"
                  | None => "failover"
                  end) in
    if bool_decide (M_IfName want = prev) then (e, None)
    else (MkElection (M_IfName want) "" 0,
          if bool_decide (prev = "") then None
          else Some (MkSwitch prev (M_IfName want) reason prevRTT (M_RTTms want))).

(** ** The domestic lines *)

Inductive domesticVia := viaOwn | viaSibling | viaPool | viaNone.

Record domesticObs := MkDomestic {
  D_Up : Uplink; D_Gateway : string; GatewayUp : bool; InternetUp : bool; ForcedDown : bool
}.

Record domesticRoute := MkDRoute {
  DR_Up : Uplink; DR_Gateway : string; Via : domesticVia; DR_ForcedDown : bool; Sibling : option domesticObs
}.

Definition healthy (o : domesticObs) : bool := GatewayUp o && InternetUp o.

Definition by_slot (obs : list domesticObs) : list domesticObs := sort_on (fun o => UplinkIndex (D_Up o)) obs.

(** The line that stands in: the first in order that is healthy and whose
    gateway is known. *)
Definition standin (ordered : list domesticObs) : option domesticObs :=
  head (filter (fun o => healthy o = true /\ D_Gateway o <> "") ordered).

Definition routeOf (best : option domesticObs) (failoverOn vpnUp : bool) (o : domesticObs) : domesticRoute :=
  let mk via sib := MkDRoute (D_Up o) (D_Gateway o) via (ForcedDown o) sib in
  if healthy o then mk viaOwn None
  else match best with
  | Some b => if GatewayUp o then mk viaSibling (Some b) else mk viaNone None
  | None =>
      if failoverOn && vpnUp then mk viaPool None
      else if GatewayUp o then mk viaOwn None
      else mk viaNone None
  end.

Definition domesticRoutePlan (obs : list domesticObs) (failoverOn vpnUp : bool) : list domesticRoute :=
  let ordered := by_slot obs in
  routeOf (standin ordered) failoverOn vpnUp <$> ordered.

(** * Lemmas *)

Lemma in_chain_perm ms : in_chain ms ≡ₚ ms.
Proof. apply merge_sort_Permutation. Qed.

Lemma in_chain_sorted ms : StronglySorted chain_le (in_chain ms).
Proof. apply StronglySorted_merge_sort; apply _. Qed.

Lemma healthyOf_elem ms m : m ∈ healthyOf (in_chain ms) <-> m ∈ ms /\ Healthy m = true.
Proof. unfold healthyOf. rewrite list_elem_of_filter, in_chain_perm. tauto. Qed.

Lemma healthyOf_sorted ms : StronglySorted chain_le (healthyOf (in_chain ms)).
Proof. apply StronglySorted_filter, in_chain_sorted. Qed.

(** The fastest of a list is in it, and no measured one is faster. *)
Lemma faster_fold ms m0 :
  let b := foldl faster m0 ms in
  b ∈ m0 :: ms /\ (forall m, m ∈ m0 :: ms -> 0 < M_RTTms m -> 0 < M_RTTms b <= M_RTTms m).
Proof.
  cbn zeta. revert m0. induction ms as [|m ms IH]; intros m0; cbn [foldl].
  - split; [left|]. intros m [->|Hm]%elem_of_cons Hp; [lia|by apply elem_of_nil in Hm].
  - destruct (IH (faster m0 m)) as [Hin Hmin]. assert (faster m0 m = m0 \/ faster m0 m = m) as Hor.
    { unfold faster. destruct (_ <=? 0); [by left|]. destruct (_ || _); [by right|by left]. }
    split.
    + apply elem_of_cons in Hin as [->|Hin]; [|by right; right]. destruct Hor as [->| ->]; [left|right; left].
    + intros x Hx Hp. assert (0 < M_RTTms (faster m0 m) -> M_RTTms (faster m0 m) <= M_RTTms x ->
        0 < M_RTTms (foldl faster (faster m0 m) ms) <= M_RTTms x) as Hle.
      { intros H1 H2. destruct (Hmin (faster m0 m)) as [? ?]; [left|done|]. lia. }
      unfold faster in Hle at 1 2.
      apply elem_of_cons in Hx as [->|[->|Hx]%elem_of_cons]; [| |by apply Hmin; [right|]];
        destruct (Z.leb_spec (M_RTTms m) 0), (Z.leb_spec (M_RTTms m0) 0), (Z.ltb_spec (M_RTTms m) (M_RTTms m0));
        cbn [orb] in Hle; apply Hle; lia.
Qed.

Lemma fastestOf_spec ms :
  ms <> [] -> fastestOf ms ∈ ms /\ (forall m, m ∈ ms -> 0 < M_RTTms m -> 0 < M_RTTms (fastestOf ms) <= M_RTTms m).
Proof. intros Hne. destruct ms as [|m ms]; [done|]. apply (faster_fold ms m). Qed.

Lemma sorted_head_least ms m : StronglySorted chain_le ms -> head ms = Some m -> forall x, x ∈ ms -> chain_le m x.
Proof.
  destruct 1 as [|y ys Hs Hall]; [done|]. intros [= <-] x [->|Hx]%elem_of_cons; [unfold chain_le; lia|].
  rewrite Forall_forall in Hall. by apply Hall.
Qed.

Lemma in_chain_ne ms : ms <> [] -> in_chain ms <> [].
Proof.
  intros Hne Heq. pose proof (in_chain_perm ms) as Hp. rewrite Heq in Hp.
  by apply Permutation_nil_l in Hp.
Qed.

(** The one carrier of a chain or of the fastest. *)
Lemma carriersFor_single ms strategy sticky :
  ms <> [] -> SingleCarrier strategy = true ->
  exists c, carriersFor ms strategy sticky = [c] /\ c ∈ ms /\
    (forall m, m ∈ ms -> Healthy m = true -> Healthy c = true /\
       (strategy = StrategyOrder -> chain_le c m) /\
       (strategy = StrategyFastest ->
          (M_IfName c = sticky \/ ((forall x, x ∈ ms -> Healthy x = true -> M_IfName x <> sticky) /\
                                   (0 < M_RTTms m -> 0 < M_RTTms c <= M_RTTms m))))).
Proof.
  intros Hne Hsingle. pose proof (in_chain_ne ms Hne) as Hne'. unfold carriersFor.
  rewrite bool_decide_eq_false_2 by done. cbn zeta.
  assert (forall m, m ∈ ms -> Healthy m = true -> healthyOf (in_chain ms) <> []) as Hhas.
  { intros m Hm Hh Heq. assert (m ∈ healthyOf (in_chain ms)) as Hin by by apply healthyOf_elem.
    rewrite Heq in Hin. by apply elem_of_nil in Hin. }
  assert (healthyOf (in_chain ms) = [] -> exists c, list.take 1 (in_chain ms) = [c] /\ c ∈ ms /\
    (forall m, m ∈ ms -> Healthy m = true -> False)) as Hnone.
  { intros Hh. destruct (in_chain ms) as [|c cs] eqn:Ec; [done|]. exists c. split; [by destruct cs|]. split.
    - rewrite <-(in_chain_perm ms), Ec. left.
    - intros m Hm Hmh. by apply (Hhas m). }
  unfold SingleCarrier in Hsingle. apply bool_decide_eq_true_1 in Hsingle.
  destruct (bool_decide_reflect (strategy = StrategyOrder)) as [->|Hno].
  - destruct (bool_decide_reflect (healthyOf (in_chain ms) = [])) as [Hh|Hh].
    + destruct (Hnone Hh) as (c & Hc & Hin & Hf). exists c. split; [done|]. split; [done|].
      intros m Hm Hmh. by destruct (Hf m).
    + destruct (healthyOf (in_chain ms)) as [|c cs] eqn:Ec; [done|]. exists c. split; [by destruct cs|].
      assert (c ∈ ms /\ Healthy c = true) as [Hin Hch] by (apply healthyOf_elem; rewrite Ec; left).
      split; [done|]. intros m Hm Hmh. split; [done|]. split; [|done]. intros _.
      apply (sorted_head_least (healthyOf (in_chain ms)) c); [apply healthyOf_sorted|by rewrite Ec|by apply healthyOf_elem].
  - assert (strategy = StrategyFastest) as -> by tauto. rewrite bool_decide_eq_true_2 by done.
    destruct (bool_decide_reflect (healthyOf (in_chain ms) = [])) as [Hh|Hh].
    + destruct (Hnone Hh) as (c & Hc & Hin & Hf). exists c. split; [done|]. split; [done|].
      intros m Hm Hmh. by destruct (Hf m).
    + destruct (filter _ _) as [|c cs] eqn:Ef.
      * destruct (fastestOf_spec _ Hh) as [Hin Hmin]. apply healthyOf_elem in Hin as [Hin Hch].
        exists (fastestOf (healthyOf (in_chain ms))). split; [done|]. split; [done|]. intros m Hm Hmh.
        split; [done|]. split; [done|]. intros _. right. split; [|intros Hp; apply Hmin; [by apply healthyOf_elem|done]].
        intros x Hx Hxh Hsx. assert (x ∈ filter (fun m => M_IfName m = sticky) (healthyOf (in_chain ms))) as Hxx.
        { apply list_elem_of_filter. split; [done|by apply healthyOf_elem]. }
        rewrite Ef in Hxx. by apply elem_of_nil in Hxx.
      * assert (c ∈ filter (fun m => M_IfName m = sticky) (healthyOf (in_chain ms))) as Hc by (rewrite Ef; left).
        apply list_elem_of_filter in Hc as [Hcs Hc]. apply healthyOf_elem in Hc as [Hin Hch].
        exists c. split; [done|]. split; [done|]. intros m Hm Hmh. split; [done|]. split; [done|]. intros _. by left.
Qed.

Lemma first_carrier_spec ms strategy :
  ms <> [] -> SingleCarrier strategy = true -> carriersFor ms strategy "" = [first_carrier ms strategy].
Proof.
  intros Hne Hs. destruct (carriersFor_single ms strategy "" Hne Hs) as (c & Hc & _).
  unfold first_carrier. by rewrite Hc.
Qed.

Lemma byName_lookup ms name m : byName ms !! name = Some m -> m ∈ ms /\ M_IfName m = name.
Proof.
  unfold byName. induction ms as [|x ms IH] using rev_ind; [done|].
  rewrite foldl_app. cbn [foldl]. rewrite lookup_insert_Some. intros [[<- <-]|[_ Hl]].
  - split; [|done]. apply elem_of_app. right. by left.
  - destruct (IH Hl). split; [|done]. apply elem_of_app. by left.
Qed.

(** The pool always has someone carrying, and someone who can. From a pool
    that is not empty [carriersFor] names members only, at least one, and no
    unhealthy one while any is healthy. The chain and the fastest name exactly
    one: the chain the first healthy one in the operator's order, the fastest
    the one elected while it is healthy and otherwise one no measured healthy
    member beats. Spread names every healthy member. *)
Theorem carriers_sound ms strategy sticky :
  ms <> [] ->
  let cs := carriersFor ms strategy sticky in
  cs <> [] /\ (forall c, c ∈ cs -> c ∈ ms) /\
  (forall m, m ∈ ms -> Healthy m = true ->
     (forall c, c ∈ cs -> Healthy c = true) /\
     (strategy = StrategyOrder -> exists c, cs = [c] /\ chain_le c m) /\
     (strategy = StrategyFastest -> exists c, cs = [c] /\
        (M_IfName c = sticky \/ ((forall x, x ∈ ms -> Healthy x = true -> M_IfName x <> sticky) /\
                                 (0 < M_RTTms m -> 0 < M_RTTms c <= M_RTTms m)))) /\
     (SingleCarrier strategy = false -> m ∈ cs)).
Proof.
  intros Hne. cbn zeta. destruct (SingleCarrier strategy) eqn:Es.
  - destruct (carriersFor_single ms strategy sticky Hne Es) as (c & -> & Hin & Hc).
    split; [done|]. split; [by intros x ->%list_elem_of_singleton|]. intros m Hm Hmh.
    destruct (Hc m Hm Hmh) as (H1 & H2 & H3). split; [by intros x ->%list_elem_of_singleton|].
    split; [intros Ho; exists c; auto|]. split; [intros Hf; exists c; auto|done].
  - assert (strategy <> StrategyOrder /\ strategy <> StrategyFastest) as [Ho Hf].
    { unfold SingleCarrier in Es. apply bool_decide_eq_false_1 in Es. tauto. }
    unfold carriersFor. rewrite !bool_decide_eq_false_2 by done. cbn zeta.
    destruct (bool_decide_reflect (healthyOf (in_chain ms) = [])) as [Hh|Hh].
    + split; [by apply in_chain_ne|]. split; [intros c; by rewrite in_chain_perm|]. intros m Hm Hmh. exfalso.
      assert (m ∈ healthyOf (in_chain ms)) as Hin by by apply healthyOf_elem. rewrite Hh in Hin. by apply elem_of_nil in Hin.
    + split; [done|]. split; [by intros c [? _]%healthyOf_elem|]. intros m Hm Hmh.
      split; [by intros c [_ ?]%healthyOf_elem|]. split; [done|]. split; [done|]. intros _. by apply healthyOf_elem.
Qed.

(** ** The election *)

Lemma electFastest_carrier e ms prev : poolCarrier (electFastest e ms prev).1 = poolCarrier e.
Proof. unfold electFastest. by repeat case_match. Qed.

(** Whom the fastest strategy wants carries under its own name. *)
Lemma electFastest_carries e ms prev :
  ms <> [] -> NoDup (M_IfName <$> ms) ->
  carriersFor ms StrategyFastest (M_IfName (electFastest e ms prev).2) = [(electFastest e ms prev).2].
Proof.
  intros Hne Hnd. set (w := (electFastest e ms prev).2).
  assert (forall a b, a ∈ ms -> b ∈ ms -> M_IfName a = M_IfName b -> a = b) as Hinj.
  { intros a b [i Ha]%list_elem_of_lookup [j Hb]%list_elem_of_lookup Heq.
    assert (i = j) as ->; [|congruence]. eapply (NoDup_lookup (M_IfName <$> ms)); [done|..].
    - rewrite list_lookup_fmap, Ha. reflexivity.
    - rewrite list_lookup_fmap, Hb. cbn. by rewrite Heq. }
  assert (w ∈ ms /\ Healthy w = true \/ w = first_carrier ms StrategyFastest) as Hw.
  { subst w. unfold electFastest.
    destruct (byName ms !! prev) as [cur|] eqn:Eb; [|by right]. apply byName_lookup in Eb as [Hin _].
    destruct (Healthy cur) eqn:Eh; cbn [negb]; [|by right]. left.
    destruct (_ || _) eqn:E1; [done|]. apply orb_false_elim in E1 as [Hne' _]. apply bool_decide_eq_false_1 in Hne'.
    destruct (fastestOf_spec _ Hne') as [Hbest _]. apply list_elem_of_filter in Hbest as [[Hbh _] Hbin].
    destruct (negb (betterByMargin _ _)); [done|]. destruct (negb (bool_decide _)); [done|].
    cbn zeta. destruct (_ <? _); done. }
  destruct (carriersFor_single ms StrategyFastest (M_IfName w) Hne eq_refl) as (c & Hc & Hcin & Hcs).
  destruct Hw as [[Hwin Hwh]|Hw].
  - rewrite Hc. f_equal. destruct (Hcs w Hwin Hwh) as (_ & _ & Hf). destruct (Hf eq_refl) as [Heq|[Hno _]].
    + by apply Hinj.
    + by destruct (Hno w Hwin Hwh).
  - clearbody w. subst w. rewrite Hc. f_equal.
    pose proof (first_carrier_spec ms StrategyFastest Hne eq_refl) as Hf.
    set (f := first_carrier ms StrategyFastest) in *.
    destruct (carriersFor_single ms StrategyFastest "" Hne eq_refl) as (f' & Hf' & Hfin & Hfs).
    rewrite Hf in Hf'. injection Hf' as <-.
    destruct (decide (Healthy f = true)) as [Hfh|Hfh].
    + destruct (Hcs f Hfin Hfh) as (_ & _ & Hcf). destruct (Hcf eq_refl) as [Heq|[Hno _]]; [by apply Hinj|].
      by destruct (Hno f Hfin Hfh).
    + assert (healthyOf (in_chain ms) = []) as Hh.
      { destruct (healthyOf (in_chain ms)) as [|h hs] eqn:E; [done|]. exfalso.
        assert (h ∈ ms /\ Healthy h = true) as [? ?] by (apply healthyOf_elem; rewrite E; left).
        by apply Hfh, (Hfs h). }
      unfold carriersFor in Hf, Hc. rewrite bool_decide_eq_false_2 in Hf, Hc by done. cbn zeta in Hf, Hc.
      rewrite Hh in Hf, Hc. cbn in Hf, Hc. congruence.
Qed.

(** C20. What is elected is what is routed: after every tick the pool's nexthops
    are exactly the elected carrier, and the election names a member of the
    pool. *)
Theorem elected_carries e ms strategy :
  ms <> [] -> NoDup (M_IfName <$> ms) -> SingleCarrier strategy = true ->
  let e' := (electCarrier e ms strategy).1 in
  poolNexthops ms strategy (poolCarrier e') = [MkNexthop (poolCarrier e') 1] /\
  poolCarrier e' ∈ M_IfName <$> ms.
Proof.
  intros Hne Hnd Hs. cbn zeta.
  assert (exists c, carriersFor ms strategy (poolCarrier (electCarrier e ms strategy).1) = [c] /\
            M_IfName c = poolCarrier (electCarrier e ms strategy).1) as (c & Hc & Hname).
  { unfold electCarrier. rewrite Hs, bool_decide_eq_false_2 by done. cbn [negb orb].
    destruct (bool_decide_reflect (strategy = StrategyOrder)) as [->|Hno].
    - pose proof (first_carrier_spec ms StrategyOrder Hne eq_refl) as Hf. exists (first_carrier ms StrategyOrder).
      destruct (bool_decide_reflect (M_IfName (first_carrier ms StrategyOrder) = poolCarrier e)) as [Heq|Hneq]; cbn [fst];
        (split; [|done]); rewrite <-Hf; unfold carriersFor; by rewrite !(bool_decide_eq_true_2 (StrategyOrder = StrategyOrder)) by done.
    - assert (strategy = StrategyFastest) as ->.
      { unfold SingleCarrier in Hs. apply bool_decide_eq_true_1 in Hs. tauto. }
      pose proof (electFastest_carries e ms (poolCarrier e) Hne Hnd) as Hc.
      pose proof (electFastest_carrier e ms (poolCarrier e)) as Hpc.
      destruct (electFastest e ms (poolCarrier e)) as [e1 w]. cbn [fst snd] in *. exists w.
      destruct (bool_decide_reflect (M_IfName w = poolCarrier e)) as [Heq|Hneq]; cbn [fst poolCarrier]; [|done].
      rewrite Hpc, <-Heq. done. }
  unfold poolNexthops. rewrite Hc. cbn. rewrite Hname. split; [done|].
  destruct (carriersFor_single ms strategy (poolCarrier (electCarrier e ms strategy).1) Hne Hs) as (c' & Hc' & Hin & _).
  rewrite Hc in Hc'. injection Hc' as <-. rewrite <-Hname. by apply list_elem_of_fmap_2.
Qed.

(** A tick at which [x] is the fastest of the others and beats a healthy [prev]
    by the margin. *)
Definition challenges (prev x : string) (ms : list poolMember) : Prop :=
  exists cur best, byName ms !! prev = Some cur /\ Healthy cur = true /\ best ∈ ms /\ Healthy best = true /\
    M_IfName best = x /\ x <> prev /\ betterByMargin (M_RTTms best) (M_RTTms cur) = true.

Definition elect_all (ticks : list (list poolMember)) : election :=
  foldl (fun e ms => (electCarrier e ms StrategyFastest).1) noElection ticks.

(** The challenge the election counts is one the newest ticks all saw. *)
Definition counted (hist : list (list poolMember)) (e : election) : Prop :=
  0 <= poolChallengeTicks e <= Z.of_nat (length hist) /\
  Forall (challenges (poolCarrier e) (poolChallenger e)) (list.take (Z.to_nat (poolChallengeTicks e)) hist).

Lemma counted_none hist c x : counted hist (MkElection c x 0).
Proof. split; [cbn; lia|constructor]. Qed.

(** One election of the fastest, by what it decided. *)
Lemma electFastest_cases e ms prev :
  let '(e', w) := electFastest e ms prev in
  (poolChallengeTicks e' = 0 \/
   (challenges prev (poolChallenger e') ms /\
    (poolChallengeTicks e' = 1 \/
     (poolChallengeTicks e' = poolChallengeTicks e + 1 /\ poolChallenger e' = poolChallenger e)))) /\
  (forall cur, byName ms !! prev = Some cur -> Healthy cur = true ->
     w = cur \/ (M_IfName w = poolChallenger e' /\ challenges prev (poolChallenger e') ms /\
                 poolChallenger e' = poolChallenger e /\ fastestHoldTicks <= poolChallengeTicks e + 1)).
Proof.
  assert (forall cur (P : Prop), (forall cur', Some cur = Some cur' -> Healthy cur' = true -> cur = cur' \/ P)) as Hsame
    by (intros cur P cur' [= ->] _; by left).
  unfold electFastest. destruct (byName ms !! prev) as [cur|] eqn:Eb; [|split; [by left|done]].
  destruct (Healthy cur) eqn:Eh; cbn [negb]; [|split; [by left|intros cur' [= <-]; congruence]].
  destruct (_ || _) eqn:E1; [split; [by left|apply Hsame]|].
  apply orb_false_elim in E1 as [Hne _]. apply bool_decide_eq_false_1 in Hne.
  destruct (fastestOf_spec _ Hne) as [Hbest _]. apply list_elem_of_filter in Hbest as [[Hbh Hbn] Hbin].
  set (best := fastestOf _) in *.
  destruct (betterByMargin _ _) eqn:Em; cbn [negb]; [|split; [by left|apply Hsame]].
  assert (challenges prev (M_IfName best) ms) as Hch by (exists cur, best; done).
  destruct (bool_decide_reflect (poolChallenger e = M_IfName best)) as [Heq|Hneq]; cbn [negb].
  - cbn zeta. cbn [poolChallengeTicks]. destruct (Z.ltb_spec (poolChallengeTicks e + 1) fastestHoldTicks);
      cbn [poolChallengeTicks poolChallenger]; rewrite Heq; (split; [right; split; [done|by right]|]).
    + apply Hsame.
    + intros cur' _ _. right. split; [done|]. split; [done|]. split; [done|lia].
  - cbn [poolChallengeTicks poolChallenger]. split; [right; split; [done|by left]|apply Hsame].
Qed.

Lemma elect_counted hist e ms : counted hist e -> counted (ms :: hist) (electCarrier e ms StrategyFastest).1.
Proof.
  intros [Hticks Hall]. unfold electCarrier. destruct (_ || _); [apply counted_none|].
  rewrite bool_decide_eq_false_2 by done. pose proof (electFastest_carrier e ms (poolCarrier e)) as Hpc.
  pose proof (electFastest_cases e ms (poolCarrier e)) as Hcases.
  destruct (electFastest e ms (poolCarrier e)) as [e1 w]. cbn [fst] in Hpc. destruct Hcases as [Hc _].
  destruct (bool_decide _); [|apply counted_none]. cbn [fst]. unfold counted. rewrite Hpc.
  destruct Hc as [->|[Hch [->|[-> Hx]]]]; cbn [length].
  - split; [lia|constructor].
  - split; [lia|]. by apply Forall_singleton.
  - split; [lia|]. replace (Z.to_nat (poolChallengeTicks e + 1)) with (S (Z.to_nat (poolChallengeTicks e))) by lia.
    cbn [list.take]. apply Forall_cons. split; [done|]. by rewrite Hx.
Qed.

Lemma elect_all_counted ticks : counted (reverse ticks) (elect_all ticks).
Proof.
  induction ticks as [|ms ticks IH] using rev_ind; [apply counted_none|].
  unfold elect_all. rewrite foldl_app, reverse_app. cbn [foldl reverse rev_append app]. by apply elect_counted.
Qed.

(** C10. Traffic moves for a reason, and the reason it gives is true. When a tick
    under the fastest strategy announces a move, it is away from the carrier so
    far and to another one; if the reason is "faster", the one it moves to was
    healthy and beat the healthy carrier by the margin at this tick and at the
    two before it, and if not, the carrier is gone or down. One or two good
    measurements never move traffic. *)
Theorem switch_earned ticks ms sw :
  (electCarrier (elect_all ticks) ms StrategyFastest).2 = Some sw ->
  From sw = poolCarrier (elect_all ticks) /\ To sw <> From sw /\
  (Reason sw = "faster" ->
     (2 <= length ticks)%nat /\ Forall (challenges (From sw) (To sw)) (list.take 3 (ms :: reverse ticks))) /\
  (Reason sw <> "faster" -> forall cur, byName ms !! From sw = Some cur -> Healthy cur = false).
Proof.
  destruct (elect_all_counted ticks) as [Hticks Hall]. set (e := elect_all ticks) in *. unfold electCarrier.
  destruct (_ || _); [done|]. rewrite bool_decide_eq_false_2 by done.
  pose proof (electFastest_cases e ms (poolCarrier e)) as Hcases. 
  destruct (electFastest e ms (poolCarrier e)) as [e1 w]. destruct Hcases as [_ Hw].
  destruct (bool_decide_reflect (M_IfName w = poolCarrier e)) as [|Hne]; [done|].
  destruct (bool_decide _); [done|]. cbn [snd]. intros [= <-]. cbn [From To Reason].
  split; [done|]. split; [done|].
  destruct (byName ms !! poolCarrier e) as [cur|] eqn:Eb; [|done].
  destruct (Healthy cur) eqn:Eh; [|split; [done|by intros _ cur' [= <-]]]. split; [intros _|done].
  destruct (Hw cur eq_refl Eh) as [->|(Hn & Hch & Hx & Hhold)]; [by apply byName_lookup in Eb as [_ ?]|].
  unfold fastestHoldTicks in Hhold. rewrite length_reverse in Hticks. rewrite Hn.
  split; [lia|]. cbn [list.take]. apply Forall_cons. split; [done|]. rewrite Hx.
  assert (list.take 2 (reverse ticks) = list.take 2 (list.take (Z.to_nat (poolChallengeTicks e)) (reverse ticks))) as ->.
  { rewrite take_take. f_equal. lia. }
  by apply Forall_take.
Qed.

(** ** The domestic plan *)

Definition can_stand_in (o : domesticObs) : Prop := healthy o = true /\ D_Gateway o <> "".

Lemma standin_Some obs b :
  standin (by_slot obs) = Some b ->
  b ∈ obs /\ can_stand_in b /\
  forall o, o ∈ obs -> can_stand_in o -> UplinkIndex (D_Up b) <= UplinkIndex (D_Up o).
Proof.
  unfold standin. intros Hh. set (l := filter _ _) in Hh.
  assert (forall o, o ∈ l <-> can_stand_in o /\ o ∈ obs) as Hl.
  { intros o. subst l. unfold by_slot. by rewrite list_elem_of_filter, sort_on_perm. }
  assert (StronglySorted (key_le (fun o => UplinkIndex (D_Up o))) l) as Hs by apply StronglySorted_filter, sort_on_le.
  clearbody l. destruct Hs as [|x xs Hs Hall]; [done|]. injection Hh as ->.
  destruct (proj1 (Hl b)) as [Hb Hin]; [left|]. split; [done|]. split; [done|]. intros o Ho Hc.
  assert (o ∈ b :: xs) as [->|Hx]%elem_of_cons by by apply Hl.
  - lia.
  - rewrite Forall_forall in Hall. apply (Hall o Hx).
Qed.

Lemma standin_None obs : standin (by_slot obs) = None -> forall o, o ∈ obs -> ~ can_stand_in o.
Proof.
  unfold standin. intros Hh o Ho Hc. set (l := filter _ _) in Hh.
  assert (o ∈ l) as Hl by (subst l; unfold by_slot; by rewrite list_elem_of_filter, sort_on_perm).
  destruct l; [by apply elem_of_nil in Hl|done].
Qed.

(** The domestic failover plan. Every line gets one route, in slot order. A
    healthy line keeps its own. One that is not keeps its own only when nothing
    else could carry it and its gateway is still there to probe; it is sent to
    a sibling only when its gateway is up, and then to a healthy one with a
    known gateway, the first such in slot order; it is sent to the pool exactly
    when no sibling can stand in, the operator allows it and the pool is up. *)
Theorem domestic_plan_sound obs failoverOn vpnUp :
  DR_Up <$> domesticRoutePlan obs failoverOn vpnUp = D_Up <$> by_slot obs /\ by_slot obs ≡ₚ obs /\
  forall o, o ∈ obs -> exists r, r ∈ domesticRoutePlan obs failoverOn vpnUp /\ r = routeOf (standin (by_slot obs)) failoverOn vpnUp o /\
    (healthy o = true -> Via r = viaOwn) /\
    (healthy o = false -> Via r = viaOwn -> GatewayUp o = true /\ (forall b, b ∈ obs -> ~ can_stand_in b) /\
       failoverOn && vpnUp = false) /\
    (Via r = viaSibling -> GatewayUp o = true /\ exists b, Sibling r = Some b /\ b ∈ obs /\ can_stand_in b /\
       forall b', b' ∈ obs -> can_stand_in b' -> UplinkIndex (D_Up b) <= UplinkIndex (D_Up b')) /\
    (Via r = viaPool <-> healthy o = false /\ (forall b, b ∈ obs -> ~ can_stand_in b) /\ failoverOn = true /\ vpnUp = true).
Proof.
  split; [|split; [apply sort_on_perm|]].
  - unfold domesticRoutePlan. rewrite <-list_fmap_compose. apply list_fmap_ext. intros i o _. cbn.
    unfold routeOf. by repeat case_match.
  - intros o Ho. eexists. split; [|split; [reflexivity|]].
    { apply list_elem_of_fmap_2. unfold by_slot. by rewrite sort_on_perm. }
    pose proof (standin_Some obs) as HS. pose proof (standin_None obs) as HN.
    unfold routeOf. destruct (healthy o) eqn:Eh.
    { cbn. split; [done|]. split; [done|]. split; [done|]. by split; [|intros [? _]]. }
    split; [done|]. destruct (standin (by_slot obs)) as [b|].
    + destruct (HS b eq_refl) as (Hb & Hc & Hmin).
      assert (~ (forall b, b ∈ obs -> ~ can_stand_in b)) as Hsome by (intros Hno; by apply (Hno b)).
      destruct (GatewayUp o); cbn; (split; [done|]).
      * split; [intros _; split; [done|]; by exists b|]. by split; [|intros (_ & ? & _)].
      * split; [done|]. by split; [|intros (_ & ? & _)].
    + specialize (HN eq_refl). destruct (failoverOn && vpnUp) eqn:Ef.
      * apply andb_prop in Ef as [-> ->]. cbn. by repeat split.
      * assert (~ (failoverOn = true /\ vpnUp = true)) as Hno by (intros [-> ->]; done).
        destruct (GatewayUp o); cbn; (split; [by repeat split|]); (split; [done|]); by split; [|intros (_ & _ & ?)].
Qed.

(** ** A pool of two tunnels *)

Definition demo_tick (a b : Z) : list poolMember := [MkMember "wg0" 0 0 a true; MkMember "wg1" 1 1 b true].

Lemma carriers_sound_witness :
  carriersFor (demo_tick 200 100) StrategyOrder "" = [MkMember "wg0" 0 0 200 true] /\
  (forall c, c ∈ carriersFor (demo_tick 200 100) StrategyOrder "" -> Healthy c = true).
Proof.
  split; [vm_compute; reflexivity|].
  destruct (carriers_sound (demo_tick 200 100) StrategyOrder "") as (_ & _ & H); [discriminate|].
  apply (H (MkMember "wg0" 0 0 200 true)); [left|reflexivity].
Defined.

Lemma elected_carries_witness :
  poolNexthops (demo_tick 200 100) StrategyFastest "wg1" = [MkNexthop "wg1" 1].
Proof.
  destruct (elected_carries noElection (demo_tick 200 100) StrategyFastest) as [H _].
  - discriminate.
  - apply (bool_decide_unpack _). vm_compute. exact I.
  - reflexivity.
  - exact H.
Defined.

(** The carrier slows down for three ticks, and the other takes over. *)
Lemma switch_earned_witness :
  let ticks := [demo_tick 50 100; demo_tick 200 100; demo_tick 210 100] in
  let sw := MkSwitch "wg0" "wg1" "faster" 205 100 in
  (electCarrier (elect_all ticks) (demo_tick 205 100) StrategyFastest).2 = Some sw /\
  Forall (challenges "wg0" "wg1") (list.take 3 (demo_tick 205 100 :: reverse ticks)).
Proof.
  cbn zeta. split; [vm_compute; reflexivity|].
  destruct (switch_earned [demo_tick 50 100; demo_tick 200 100; demo_tick 210 100] (demo_tick 205 100)
    (MkSwitch "wg0" "wg1" "faster" 205 100)) as (_ & _ & H & _); [vm_compute; reflexivity|].
  apply H. reflexivity.
Defined.
