(* ===== verification/RouterDeadman.v ===== *)
(** * The two-phase network change and its dead-man

    Models [internal/network/system/deadman.go]: [Applier.Apply], [Confirm],
    [RollbackPlan] and [restoreFailed] over the marker file, the snapshot files
    and the records. Each operation is written over the world it changes and
    yields every world it passes through, so that a theorem can speak of a
    process that dies at any of them; every call that can fail is given its
    outcome from outside. Taking and restoring a snapshot of the network
    ([snapshot.go]) is the interface [Snapshotter]. *)

From S2P Require Import Prelude GoString History.

(** ** What the dead-man relies on *)

(** [holds s n]: what [s] captured is so in [n]. Capturing gives a snapshot that
    holds; a restore that succeeds makes it hold again, and a reload leaves it
    so. A restore or a reload that fails may leave anything. *)
Class Snapshotter (N S : Type) := {
  Capture : N -> option S;
  Restore : S -> N -> N * bool;
  Reload : N -> N * bool;
  holds : S -> N -> Prop;
  Capture_holds n s : Capture n = Some s -> holds s n;
  Restore_holds s n n' : Restore s n = (n', true) -> holds s n';
  Reload_holds s n n' : holds s n -> Reload n = (n', true) -> holds s n'
}.

Definition ConfirmWindow : Z := 90 * second.
Definition MaxRollbackAttempts : Z := 3.

Record Marker := MkMarker {
  Mk_RequestID : string; PlanID : Z; Mk_Snapshot : string; DeadlineUnix : Z; Attempts : Z
}.

Definition Expired (m : Marker) (now : Z) : bool := DeadlineUnix m <=? Unix now.

Inductive ApplyPhase := PhasePlanned | PhaseApplied | PhaseConfirmed | PhaseRolledBack | PhaseFailed.

Record ApplyRecord := MkRecord {
  R_ID : Z; R_RequestID : string; R_Phase : ApplyPhase; R_Ops : list string; SnapshotPath : string; Deadline : Z;
  PerformedTakeover : bool
}.

(** The calls that may fail on their own: the lock, the files, the database. *)
Inductive call :=
  | CLock | CReadMarker | CCreate | CSave | CArm | CRearm | CDisarm | CSetPhase.

Inductive deadmanError :=
  | Locked | ReadDeadman | StillArmed (plan : Z) | RecordPlan | TakeSnapshot | SaveSnapshot | Arm
  | OpFailed (desc : string) | ReloadFailed | UpdateDeadman | RecordApplied
  | NothingToConfirm | OtherPlan (plan asked : Z) | WindowExpired | SetPhaseFailed | DisarmFailed
  | NoLongerPending (asked : Z) | LoadSnapshotFailed | RestoreFailed (attempt : Z) | RecordAttempt | GaveUp
  | RecordRollback.

Definition snapFile (id : Z) : string := "snap-" +:+ Itoa id +:+ ".json".

Section deadman.
Context {N S : Type} `{Snapshotter N S}.

Record Op := MkOp { Desc : string; Do : N -> N * bool }.
Record Plan := MkPlan { P_RequestID : string; Ops : list Op }.

Record World := MkWorld {
  net : N;
  marker : option Marker;
  snapFiles : gmap string S;
  phases : gmap Z ApplyPhase;
  nextPlan : Z
}.

Definition set_net (w : World) (n : N) : World := MkWorld n (marker w) (snapFiles w) (phases w) (nextPlan w).
Definition set_marker (w : World) (m : option Marker) : World := MkWorld (net w) m (snapFiles w) (phases w) (nextPlan w).
Definition set_snap (w : World) (path : string) (s : S) : World :=
  MkWorld (net w) (marker w) (<[path := s]> (snapFiles w)) (phases w) (nextPlan w).
Definition set_phase (w : World) (id : Z) (p : ApplyPhase) : World :=
  MkWorld (net w) (marker w) (snapFiles w) (<[id := p]> (phases w)) (nextPlan w).
Definition new_plan (w : World) : World :=
  MkWorld (net w) (marker w) (snapFiles w) (<[nextPlan w := PhasePlanned]> (phases w)) (nextPlan w + 1).

(** *** Running with a trace *)

(** A computation gives the worlds it passed through, the last one, and its
    result. *)
Definition M (A : Type) : Type := World -> list World * World * A.

Definition done {A} (a : A) : M A := fun w => ([], w, a).
Definition andThen {A B} (m : M A) (f : A -> M B) : M B := fun w =>
  let '(t1, w1, a) := m w in let '(t2, w2, b) := f a w1 in (t1 ++ t2, w2, b).
Definition act (f : World -> World) : M unit := fun w => ([f w], f w, tt).
Definition look : M World := fun w => ([], w, w).
Local Notation "'let*' x := m 'in' k" := (andThen m (fun x => k)) (at level 10, x binder, m at level 100, k at level 200).

Context (fails : call -> bool).

(** [SetPhase] where the code ignores its error. *)
Definition setPhaseAnyway (id : Z) (p : ApplyPhase) : M unit :=
  if fails CSetPhase then done tt else act (fun w => set_phase w id p).

(** The operations of a plan in order; the description of the one that failed. *)
Fixpoint runOps (ops : list Op) : M (option string) :=
  match ops with
  | [] => done None
  | op :: rest =>
      let* w := look in
      let '(n, ok) := Do op (net w) in
      let* _ := act (fun w => set_net w n) in
      if negb ok then done (Some (Desc op)) else runOps rest
  end.

(** A failed apply puts the snapshot back at once; where that fails too, the
    dead-man stays armed. *)
Definition restoreFailure {A} (id : Z) (snap : S) (cause : deadmanError) : M (result deadmanError A) :=
  let* w := look in
  let '(n, ok) := Restore snap (net w) in
  let* _ := act (fun w => set_net w n) in
  let* _ := if ok then (if fails CDisarm then done tt else act (fun w => set_marker w None)) else done tt in
  let* _ := setPhaseAnyway id PhaseFailed in
  done (Err cause).

Definition Apply (p : Plan) (takeover : bool) (now1 now2 : Z) : M (result deadmanError ApplyRecord) :=
  if fails CLock then done (Err Locked)
  else if fails CReadMarker then done (Err ReadDeadman)
  else
  let* w := look in
  match marker w with
  | Some m => done (Err (StillArmed (PlanID m)))
  | None =>
    if fails CCreate then done (Err RecordPlan)
    else
    let id := nextPlan w in
    let* _ := act new_plan in
    match Capture (net w) with
    | None => let* _ := setPhaseAnyway id PhaseFailed in done (Err TakeSnapshot)
    | Some snap =>
      let path := snapFile id in
      if fails CSave then let* _ := setPhaseAnyway id PhaseFailed in done (Err SaveSnapshot)
      else
      let* _ := act (fun w => set_snap w path snap) in
      let mk now := MkMarker (P_RequestID p) id path (Unix (now + ConfirmWindow)) 0 in
      if fails CArm then let* _ := setPhaseAnyway id PhaseFailed in done (Err Arm)
      else
      let* _ := act (fun w => set_marker w (Some (mk now1))) in
      let* bad := runOps (Ops p) in
      match bad with
      | Some desc => restoreFailure id snap (OpFailed desc)
      | None =>
        let* w := look in
        let '(n, ok) := Reload (net w) in
        let* _ := act (fun w => set_net w n) in
        if negb ok then restoreFailure id snap ReloadFailed
        else if fails CRearm then restoreFailure id snap UpdateDeadman
        else
        let* _ := act (fun w => set_marker w (Some (mk now2))) in
        if fails CSetPhase then done (Err RecordApplied)
        else
        let* _ := act (fun w => set_phase w id PhaseApplied) in
        done (Ok (MkRecord id (P_RequestID p) PhaseApplied (Desc <$> Ops p) path (now2 + ConfirmWindow) takeover))
      end
    end
  end.

Definition Confirm (planID now : Z) : M (result deadmanError unit) :=
  if fails CLock then done (Err Locked)
  else if fails CReadMarker then done (Err ReadDeadman)
  else
  let* w := look in
  match marker w with
  | None => done (Err NothingToConfirm)
  | Some m =>
    if negb (planID =? 0) && negb (PlanID m =? planID) then done (Err (OtherPlan (PlanID m) planID))
    else if Expired m now then done (Err WindowExpired)
    else if fails CSetPhase then done (Err SetPhaseFailed)
    else
    let* _ := act (fun w => set_phase w (PlanID m) PhaseConfirmed) in
    if fails CDisarm then done (Err DisarmFailed)
    else let* _ := act (fun w => set_marker w None) in done (Ok tt)
  end.

(** A restore that failed: the attempt is counted, and the last one allowed
    disarms. *)
Definition restoreFailed {A} (m : Marker) : M (result deadmanError A) :=
  let m := MkMarker (Mk_RequestID m) (PlanID m) (Mk_Snapshot m) (DeadlineUnix m) (Attempts m + 1) in
  if Attempts m <? MaxRollbackAttempts then
    if fails CArm then done (Err RecordAttempt)
    else let* _ := act (fun w => set_marker w (Some m)) in done (Err (RestoreFailed (Attempts m)))
  else if fails CDisarm then done (Err DisarmFailed)
  else
    let* _ := act (fun w => set_marker w None) in
    let* _ := setPhaseAnyway (PlanID m) PhaseFailed in
    done (Err GaveUp).

Definition RollbackPlan (ifExpired : bool) (planID now : Z) : M (result deadmanError bool) :=
  if fails CLock then done (Err Locked)
  else if fails CReadMarker then done (Err ReadDeadman)
  else
  let* w := look in
  match marker w with
  | None => done (if negb (planID =? 0) then Err (NoLongerPending planID) else Ok false)
  | Some m =>
    if negb (planID =? 0) && negb (PlanID m =? planID) then done (Err (OtherPlan (PlanID m) planID))
    else if ifExpired && negb (Expired m now) then done (Ok false)
    else match snapFiles w !! Mk_Snapshot m with
    | None => done (Err LoadSnapshotFailed)
    | Some snap =>
      let '(n, ok) := Restore snap (net w) in
      let* _ := act (fun w => set_net w n) in
      if negb ok then restoreFailed m
      else
      let '(n, ok) := Reload n in
      let* _ := act (fun w => set_net w n) in
      if negb ok then restoreFailed m
      else if fails CDisarm then done (Err DisarmFailed)
      else
      let* _ := act (fun w => set_marker w None) in
      if fails CSetPhase then done (Err RecordRollback)
      else let* _ := act (fun w => set_phase w (PlanID m) PhaseRolledBack) in done (Ok true)
    end
  end.

Definition Rollback (ifExpired : bool) (now : Z) : M (result deadmanError bool) := RollbackPlan ifExpired 0 now.
End deadman.

(** * Lemmas *)

Section proofs.
Context {N S : Type} `{Snapshotter N S}.
Local Abbreviation World := (World (N := N) (S := S)).

(** The worlds a computation passes through, the last among them. *)
Definition through {A} (r : list World * World * A) : list World := r.1.1 ++ [r.1.2].

(** By [late] every deadline in play has passed. *)
Context (late : Z).

(** Armed with the snapshot [s], to go off by [late]. *)
Definition armed_with (s : S) (x : World) : Prop :=
  exists m, marker x = Some m /\ snapFiles x !! Mk_Snapshot m = Some s /\ Expired m late = true.

(** The network [n0] can still be had: the dead-man is armed with its
    snapshot, or it is not armed and nothing was touched or the snapshot was
    put back. *)
Definition recoverable (n0 : N) (x : World) : Prop :=
  (exists s, Capture n0 = Some s /\ armed_with s x) \/
  (marker x = None /\ (net x = n0 \/ exists s, Capture n0 = Some s /\ holds s (net x))).

Lemma through_done {A} (a : A) (w : World) (P : World -> Prop) : P w -> Forall P (through (done a w)).
Proof. intros Hw. by apply Forall_singleton. Qed.

Lemma through_act {B} f (k : unit -> M B) (w : World) (P : World -> Prop) :
  P (f w) -> Forall P (through (k tt (f w))) -> Forall P (through (andThen (act f) k w)).
Proof.
  intros Hw Hk. unfold through, andThen, act in *. destruct (k tt (f w)) as [[t w'] b]. cbn in *. by apply Forall_cons.
Qed.

Lemma through_look {B} (k : World -> M B) (w : World) (P : World -> Prop) :
  Forall P (through (k w w)) -> Forall P (through (andThen look k w)).
Proof. intros Hk. unfold through, andThen, look in *. by destruct (k w w) as [[t w'] b]. Qed.

Lemma through_then {A B} (m : M A) (k : A -> M B) (w : World) (P : World -> Prop) :
  Forall P (through (m w)) -> Forall P (through (k (m w).2 (m w).1.2)) -> Forall P (through (andThen m k w)).
Proof.
  intros Hm Hk. unfold through, andThen in *. destruct (m w) as [[t1 w1] a]. cbn in *.
  destruct (k a w1) as [[t2 w2] b]. cbn in *. rewrite !Forall_app in *. rewrite !Forall_singleton in *. tauto.
Qed.

(** Recording a phase touches nothing the recovery needs. *)
Lemma through_setPhase {B} fails id p (k : unit -> M B) (w : World) (P : World -> Prop) :
  (forall x, P x -> P (set_phase x id p)) -> P w -> (forall x, P x -> Forall P (through (k tt x))) ->
  Forall P (through (andThen (setPhaseAnyway fails id p) k w)).
Proof.
  intros Hp Hw Hk. unfold setPhaseAnyway. destruct (fails CSetPhase).
  - apply through_then; [by apply through_done|]. by apply Hk.
  - apply through_act; [by apply Hp|]. by apply Hk, Hp.
Qed.

(** The same with the snapshot's file named. *)
Definition armed_at (path : string) (s : S) (x : World) : Prop :=
  snapFiles x !! path = Some s /\ exists m, marker x = Some m /\ Mk_Snapshot m = path /\ Expired m late = true.

Lemma armed_at_with path s x : armed_at path s x -> armed_with s x.
Proof. intros (Hs & m & Hm & <- & He). by exists m. Qed.

Lemma runOps_armed path s ops (w : World) : armed_at path s w -> Forall (armed_at path s) (through (runOps ops w)).
Proof.
  revert w. induction ops as [|op rest IH]; intros w Hw; cbn [runOps]; [by apply through_done|].
  apply through_look. destruct (Do op (net w)) as [n ok]. assert (armed_at path s (set_net w n)) as Hn by exact Hw.
  apply through_act; [done|]. destruct ok; [by apply IH|by apply through_done].
Qed.

Lemma recoverable_armed n0 s (x : World) : Capture n0 = Some s -> armed_with s x -> recoverable n0 x.
Proof. intros Hc Ha. left. by exists s. Qed.

Lemma recoverable_phase n0 (x : World) id p : recoverable n0 x -> recoverable n0 (set_phase x id p).
Proof. done. Qed.

Lemma restoreFailure_recoverable {A} fails id s cause n0 (w : World) :
  Capture n0 = Some s -> armed_with s w ->
  Forall (recoverable n0) (through (restoreFailure (A := A) fails id s cause w)).
Proof.
  intros Hc Hw. unfold restoreFailure. apply through_look.
  destruct (Restore s (net w)) as [n ok] eqn:Er.
  assert (armed_with s (set_net w n)) as Hn by exact Hw.
  apply through_act; [by apply (recoverable_armed n0 s)|].
  assert (forall x, recoverable n0 x -> Forall (recoverable n0)
    (through (andThen (setPhaseAnyway fails id PhaseFailed) (fun _ => done (Err (A := A) cause)) x))) as Hend.
  { intros x Hx. apply through_setPhase; [by intros y|done|]. intros y Hy. by apply through_done. }
  destruct ok; [destruct (fails CDisarm)|].
  - apply through_then; [apply through_done|apply Hend]; by apply (recoverable_armed n0 s).
  - apply Restore_holds in Er.
    assert (recoverable n0 (set_marker (set_net w n) None)) as Hr by (right; split; [done|right; by exists s]).
    apply through_act; [done|by apply Hend].
  - apply through_then; [apply through_done|apply Hend]; by apply (recoverable_armed n0 s).
Qed.

(** Every world an apply passes through can be recovered from. *)
Lemma Apply_recoverable fails p takeover now1 now2 (w : World) :
  marker w = None -> Unix (now1 + ConfirmWindow) <= Unix late -> Unix (now2 + ConfirmWindow) <= Unix late ->
  Forall (recoverable (net w)) (through (Apply fails p takeover now1 now2 w)).
Proof.
  intros Em Hl1 Hl2.
  assert (forall x, net x = net w -> marker x = None -> recoverable (net w) x) as Hsame by (intros x Hx Hm; right; auto).
  assert (recoverable (net w) w) as Hw by by apply Hsame.
  unfold Apply. destruct (fails CLock); [by apply through_done|]. destruct (fails CReadMarker); [by apply through_done|].
  apply through_look. rewrite Em.
  destruct (fails CCreate); [by apply through_done|].
  assert (forall x (e : deadmanError), recoverable (net w) x -> Forall (recoverable (net w))
    (through (andThen (setPhaseAnyway fails (nextPlan w) PhaseFailed)
       (fun _ => done (Err (A := ApplyRecord) e)) x))) as Hstop.
  { intros x e Hx. apply through_setPhase; [by intros y|done|]. intros y Hy. by apply through_done. }
  apply through_act; [by apply Hsame|]. destruct (Capture (net w)) as [snap|] eqn:Ec; [|by apply Hstop, Hsame].
  cbn zeta. destruct (fails CSave); [by apply Hstop, Hsame|]. apply through_act; [by apply Hsame|].
  destruct (fails CArm); [by apply Hstop, Hsame|]. set (x0 := set_snap _ _ _).
  set (m1 := MkMarker _ _ _ _ _). set (path := snapFile (nextPlan w)).
  assert (forall x, armed_at path snap x -> recoverable (net w) x) as Hrec.
  { intros x Hx. apply (recoverable_armed _ snap); [done|]. by apply (armed_at_with path). }
  assert (forall x e, armed_at path snap x -> Forall (recoverable (net w))
    (through (restoreFailure (A := ApplyRecord) fails (nextPlan w) snap e x))) as Hback.
  { intros x e Hx. apply restoreFailure_recoverable; [done|]. by apply (armed_at_with path). }
  assert (armed_at path snap (set_marker x0 (Some m1))) as Harm by (split; [apply lookup_insert_eq|]; exists m1; split; [done|]; split; [done|by apply Z.leb_le]).
  apply through_act; [by apply Hrec|].
  pose proof (runOps_armed path snap (Ops p) _ Harm) as Hops. apply through_then; [by eapply Forall_impl|].
  unfold through in Hops. apply Forall_app in Hops as [_ Harm2]. rewrite Forall_singleton in Harm2.
  destruct (runOps _ _) as [[t x1] bad] eqn:Eops. cbn [fst snd] in *.
  destruct bad as [desc|]; [by apply Hback|]. apply through_look. destruct (Reload (net x1)) as [n ok].
  assert (armed_at path snap (set_net x1 n)) as Harm3 by exact Harm2.
  apply through_act; [by apply Hrec|]. destruct ok; cbn [negb]; [|by apply Hback].
  destruct (fails CRearm); [by apply Hback|]. set (m2 := MkMarker _ _ _ _ _).
  assert (armed_at path snap (set_marker (set_net x1 n) (Some m2))) as Harm4 by (split; [apply Harm3|]; exists m2; split; [done|]; split; [done|by apply Z.leb_le]).
  apply through_act; [by apply Hrec|]. destruct (fails CSetPhase); [apply through_done; by apply Hrec|].
  apply through_act; [by apply Hrec|]. apply through_done. by apply Hrec.
Qed.
End proofs.


(** A confirmation settles a plan and nothing else does. [Confirm] succeeds
    only for the plan that is armed and only inside its window; it leaves the
    network as it is, records the plan as confirmed and disarms, after which
    the timer does nothing whenever it looks. *)
Theorem confirm_settles {N S} `{Snapshotter N S} fails planID now (w w' : World (N := N) (S := S)) t :
  Confirm fails planID now w = (t, w', Ok tt) ->
  exists m, marker w = Some m /\ (planID = 0 \/ PlanID m = planID) /\ Unix now < DeadlineUnix m /\
    net w' = net w /\ marker w' = None /\ phases w' !! PlanID m = Some PhaseConfirmed /\
    forall fails' late, (Rollback fails' true late w').1.2 = w'.
Proof.
  unfold Confirm, andThen, look, act, done. destruct (fails CLock); [done|]. destruct (fails CReadMarker); [done|].
  destruct (marker w) as [m|] eqn:Em; [|done].
  destruct (negb (planID =? 0) && negb (PlanID m =? planID)) eqn:Ep; [done|].
  destruct (Expired m now) eqn:Ee; [done|]. destruct (fails CSetPhase); [done|]. destruct (fails CDisarm); [done|].
  cbn. intros [= <- <-]. exists m. split; [done|]. split.
  { destruct (Z.eqb_spec planID 0), (Z.eqb_spec (PlanID m) planID); cbn in Ep; auto; done. }
  split; [by apply Z.leb_gt|]. split; [done|]. split; [done|]. split; [apply lookup_insert_eq|].
  intros fails' late. unfold Rollback, RollbackPlan, andThen, look, done. destruct (fails' CLock); [done|]. by destruct (fails' CReadMarker).
Qed.

(** The timer, run over and over. *)
Definition timer {N S} `{Snapshotter N S} (late : Z) (w : World (N := N) (S := S)) : World :=
  (Rollback (fun _ => false) true late w).1.2.

(** One run with a restore that fails. *)
Lemma timer_failing {N S} `{Snapshotter N S} (w : World (N := N) (S := S)) m s late :
  marker w = Some m -> snapFiles w !! Mk_Snapshot m = Some s -> Expired m late = true ->
  (forall s n, (Restore s n).2 = false) ->
  (Attempts m + 1 < MaxRollbackAttempts ->
     marker (timer late w) = Some (MkMarker (Mk_RequestID m) (PlanID m) (Mk_Snapshot m) (DeadlineUnix m) (Attempts m + 1)) /\
     snapFiles (timer late w) = snapFiles w) /\
  (MaxRollbackAttempts <= Attempts m + 1 ->
     marker (timer late w) = None /\ phases (timer late w) !! PlanID m = Some PhaseFailed).
Proof.
  intros Hm Hs He Hfail. unfold timer, Rollback, RollbackPlan, andThen, look, act, done. rewrite Hm. cbn [negb Z.eqb andb].
  rewrite He, Hs. cbn [negb andb]. pose proof (Hfail s (net w)) as Hr. destruct (Restore s (net w)) as [n ok].
  cbn in Hr. subst ok. cbn [negb]. unfold restoreFailed, setPhaseAnyway, andThen, act, done. cbn [Attempts PlanID].
  destruct (Z.ltb_spec (Attempts m + 1) MaxRollbackAttempts); cbn; (split; intros ?); try lia; (split; [done|]); [done|apply lookup_insert_eq].
Qed.

(** C22. The timer does not try for ever: with restores that keep failing it gives
    up after [MaxRollbackAttempts] of them in all, each but the last one leaving
    the dead-man armed for another try, and records the plan as failed. *)
Theorem rollback_gives_up {N S} `{Snapshotter N S} (w : World (N := N) (S := S)) m s late k :
  marker w = Some m -> snapFiles w !! Mk_Snapshot m = Some s -> Expired m late = true -> 0 <= Attempts m ->
  (forall s n, (Restore s n).2 = false) -> Attempts m + Z.of_nat k = MaxRollbackAttempts -> (0 < k)%nat ->
  (forall j, (j < k)%nat -> exists m', marker (Nat.iter j (timer late) w) = Some m' /\ PlanID m' = PlanID m /\
     Attempts m' = Attempts m + Z.of_nat j) /\
  marker (Nat.iter k (timer late) w) = None /\ phases (Nat.iter k (timer late) w) !! PlanID m = Some PhaseFailed.
Proof.
  intros Hm Hs He Ha Hfail Hk Hpos.
  assert (forall j, (j < k)%nat -> let x := Nat.iter j (timer late) w in
    snapFiles x = snapFiles w /\
    marker x = Some (MkMarker (Mk_RequestID m) (PlanID m) (Mk_Snapshot m) (DeadlineUnix m) (Attempts m + Z.of_nat j))) as Hj.
  { induction j as [|j IH]; intros Hlt; cbn zeta.
    - change (Nat.iter 0 (timer late) w) with w. split; [done|]. rewrite Hm. f_equal. destruct m; cbn. f_equal. lia.
    - destruct (IH ltac:(lia)) as [Hsn Hmk].
      change (Nat.iter (Datatypes.S j) (timer late) w) with (timer late (Nat.iter j (timer late) w)).
      destruct (timer_failing (Nat.iter j (timer late) w) _ s late Hmk) as [Hnext _]; [by rewrite Hsn|done|done|].
      cbn [Attempts Mk_RequestID PlanID Mk_Snapshot DeadlineUnix] in Hnext.
      destruct Hnext as [-> ->]; [lia|]. split; [done|]. do 2 f_equal. lia. }
  split.
  - intros j Hlt. destruct (Hj j Hlt) as [_ Hmk]. eexists. split; [exact Hmk|]. by split.
  - destruct k as [|k]; [lia|]. destruct (Hj k ltac:(lia)) as [Hsn Hmk].
    change (Nat.iter (Datatypes.S k) (timer late) w) with (timer late (Nat.iter k (timer late) w)).
    destruct (timer_failing (Nat.iter k (timer late) w) _ s late Hmk) as [_ Hlast]; [by rewrite Hsn|done|done|].
    apply Hlast. cbn [Attempts]. lia.
Qed.

(** A snapshot that can't be read is not a failure the timer counts: it
    changes nothing, however often it looks, and once the window is over neither
    a new apply nor a confirmation gets past the marker. *)
Theorem unreadable_snapshot_stays_armed {N S} `{Snapshotter N S} (w : World (N := N) (S := S)) m late k fails p takeover now1 now2 planID :
  marker w = Some m -> snapFiles w !! Mk_Snapshot m = None -> Expired m late = true ->
  Nat.iter k (timer late) w = w /\ (Apply fails p takeover now1 now2 w).1.2 = w /\ (Confirm fails planID late w).1.2 = w.
Proof.
  intros Hm Hs He. split; [|split].
  - induction k as [|k IH]; [done|].
    change (Nat.iter (Datatypes.S k) (timer late) w) with (timer late (Nat.iter k (timer late) w)). rewrite IH.
    unfold timer, Rollback, RollbackPlan, andThen, look, done. rewrite Hm. cbn [negb Z.eqb andb]. by rewrite He, Hs.
  - unfold Apply, andThen, look, done. destruct (fails CLock); [done|]. destruct (fails CReadMarker); [done|]. by rewrite Hm.
  - unfold Confirm, andThen, look, done. destruct (fails CLock); [done|]. destruct (fails CReadMarker); [done|]. rewrite Hm.
    destruct (_ && _); [done|]. by rewrite He.
Qed.

(** ** A network that is a number *)

#[local] Program Instance number_snap : Snapshotter Z Z := {|
  Capture n := Some n; Restore s _ := (s, true); Reload n := (n, true); holds s n := s = n
|}.
Next Obligation. by intros n s [= ->]. Qed.
Next Obligation. by intros s n n' [= ->]. Qed.
Next Obligation. by intros s n n' -> [= ->]. Qed.

(** One whose restores never work. *)
#[local] Program Definition broken_snap : Snapshotter Z Z := {|
  Capture n := Some n; Restore _ n := (n, false); Reload n := (n, true); holds s n := s = n
|}.
Next Obligation. by intros n s [= ->]. Qed.
Next Obligation. done. Qed.
Next Obligation. by intros s n n' -> [= ->]. Qed.

Definition demo_world : World (N := Z) (S := Z) := MkWorld 7 None ∅ ∅ 1.
Definition demo_plan : Plan (N := Z) := MkPlan "r" [MkOp "one" (fun _ => (8, true)); MkOp "two" (fun _ => (9, true))].
Definition demo_applied : list World * World * result deadmanError ApplyRecord :=
  Apply (fun _ => false) demo_plan false 0 (5 * second) demo_world.


Lemma confirm_settles_witness :
  marker (Confirm (fun _ => false) 1 (20 * second) demo_applied.1.2).1.2 = None /\
  net (Confirm (fun _ => false) 1 (20 * second) demo_applied.1.2).1.2 = 9.
Proof.
  destruct (confirm_settles (fun _ => false) 1 (20 * second) demo_applied.1.2
    (Confirm (fun _ => false) 1 (20 * second) demo_applied.1.2).1.2
    (Confirm (fun _ => false) 1 (20 * second) demo_applied.1.2).1.1) as (m & _ & _ & _ & Hn & Hm & _).
  - vm_compute. reflexivity.
  - split; [exact Hm|]. rewrite Hn. vm_compute. reflexivity.
Defined.

Lemma rollback_gives_up_witness :
  marker (Nat.iter 3 (@timer Z Z broken_snap (100 * second)) demo_applied.1.2) = None.
Proof.
  destruct (@rollback_gives_up Z Z broken_snap demo_applied.1.2 (MkMarker "r" 1 "snap-1.json" 95 0) 7 (100 * second) 3)
    as (_ & Hm & _).
  - vm_compute. reflexivity.
  - vm_compute. reflexivity.
  - vm_compute. reflexivity.
  - vm_compute. discriminate.
  - reflexivity.
  - reflexivity.
  - lia.
  - exact Hm.
Defined.

(** The snapshot's file is lost, and ten looks later the plan is still armed. *)
Lemma unreadable_snapshot_stays_armed_witness :
  exists w : World (N := Z) (S := Z),
    marker w = Some (MkMarker "r" 1 "snap-1.json" 95 0) /\ Nat.iter 10 (timer (100 * second)) w = w.
Proof.
  exists (MkWorld 9 (Some (MkMarker "r" 1 "snap-1.json" 95 0)) ∅ ∅ 2). split; [reflexivity|].
  refine (proj1 (unreadable_snapshot_stays_armed (MkWorld (N := Z) (S := Z) 9 (Some (MkMarker "r" 1 "snap-1.json" 95 0)) ∅ ∅ 2)
    (MkMarker "r" 1 "snap-1.json" 95 0) (100 * second) 10 (fun _ => false) demo_plan false 0 0 0 _ _ _)).
  - reflexivity.
  - reflexivity.
  - vm_compute. reflexivity.
Defined.
