(* ===== verification/JobText.v ===== *)
(** * Text a job may show

    Models [internal/remotenodes/jobs/text.go]: the secrets of a login are taken
    out of whatever a job reports, and the text is cut to a length. The lemmas
    say that neither the ellipsis put where a secret was, nor the cut, nor the
    repair of bytes that are not UTF-8 can put a secret back together. *)

From S2P Require Import Prelude GoUnicode.

(** ** What the code uses of [strings] *)

Definition newline : ascii := ascii_of_N 10.

Fixpoint starts (p s : bytes) : bool :=
  match p, s with
  | [], _ => true
  | a :: p, b :: s => bool_decide (a = b) && starts p s
  | _ :: _, [] => false
  end.

(** [strings.ReplaceAll] for an [old] that is not empty, left to right and
    without overlaps; [skip] counts the bytes of a match still to be passed. *)
Fixpoint replace_go (old new : bytes) (skip : nat) (s : bytes) : bytes :=
  match s with
  | [] => []
  | c :: s' =>
      match skip with
      | S k => replace_go old new k s'
      | O => if starts old s then new ++ replace_go old new (pred (length old)) s'
             else c :: replace_go old new 0 s'
      end
  end.

Definition ReplaceAll (s old new : string) : string :=
  of_bytes (replace_go (to_bytes old) (to_bytes new) 0 (to_bytes s)).

(** [strings.Split] at a newline. *)
Fixpoint split_lines (s : bytes) : list bytes :=
  match s with
  | [] => [[]]
  | c :: s =>
      let ls := split_lines s in
      if bool_decide (c = newline) then [] :: ls
      else match ls with l :: ls => (c :: l) :: ls | [] => [[c]] end
  end.

Definition SplitLines (s : string) : list string := of_bytes <$> split_lines (to_bytes s).
Definition has_newline (s : string) : bool := existsb (fun c => bool_decide (c = newline)) (to_bytes s).

(** [strings.ToValidUTF8]: a run of invalid bytes becomes one replacement. *)
Fixpoint to_valid (repl : bytes) (bad : bool) (l : list segment) : bytes :=
  match l with
  | [] => []
  | s :: l =>
      if seg_ok s then seg_bytes s ++ to_valid repl false l
      else if bad then to_valid repl true l else repl ++ to_valid repl true l
  end.

Definition ToValidUTF8 (s repl : string) : string :=
  of_bytes (to_valid (to_bytes repl) false (segments (to_bytes s))).

(** U+2026 and U+FFFD, as UTF-8. *)
Definition ellipsis : bytes := ascii_of_N <$> [0xE2; 0x80; 0xA6]%N.
Definition replacement : bytes := ascii_of_N <$> [0xEF; 0xBF; 0xBD]%N.

(** ** [text.go] *)

Definition hidden : string := of_bytes ellipsis.
Definition minLine : Z := 8.

Definition add_word (words : list string) (w : string) : list string :=
  if bool_decide (w <> "") && negb (bool_decide (w ∈ words)) then words ++ [w] else words.

Definition add_line (words : list string) (line : string) : list string :=
  let line := TrimSpace line in if minLine <=? RuneCountInString line then add_word words line else words.

Definition add_secret (words : list string) (s : string) : list string :=
  if bool_decide (TrimSpace s = "") then words else
  let words := add_word (add_word words s) (TrimSpace s) in
  if has_newline s then foldl add_line words (SplitLines s) else words.

(** [newHider]: the words to hide, longest first ([None] for a nil hider). *)
Definition newHider (secrets : list string) : option (list string) :=
  let words := foldl add_secret [] secrets in
  if bool_decide (words = []) then None
  else Some (sort_on (fun w => - Z.of_nat (String.length w)) words).

Definition hide (words : list string) (s : string) : string :=
  foldl (fun s w => ReplaceAll s w hidden) s words.

Definition Hide (s : string) (secrets : list string) : string :=
  match newHider secrets with Some h => hide h s | None => s end.

(** The loop of [clip]: the bytes that [n] runes take. *)
Fixpoint rune_end (n : nat) (s : bytes) : nat :=
  match n with
  | O => 0%nat
  | S n => let w := (decodeRune s).1.2 in (w + rune_end n (drop w s))%nat
  end.

Definition clip (s : string) (max : Z) : string :=
  let s := ToValidUTF8 (TrimSpace s) (of_bytes replacement) in
  if RuneCountInString s <=? max then s
  else of_bytes (take (rune_end (Z.to_nat (max - 1)) (to_bytes s)) (to_bytes s) ++ ellipsis).

(** [job.text], the hider being the job's. *)
Definition text (h : option (list string)) (s : string) (max : Z) : string :=
  clip (match h with Some h => hide h s | None => s end) max.

Example hide_demo : Hide "login root:hunter22 failed" ["hunter22"; " "] = "login root:" +:+ hidden +:+ " failed".
Proof. vm_compute. reflexivity. Qed.

Example clip_demo : clip "  abcdef " 4 = "abc" +:+ hidden.
Proof. vm_compute. reflexivity. Qed.

(** * Lemmas *)

(** [w] is a part of [s]. *)
Definition occurs (w s : bytes) : Prop := exists a b, s = a ++ w ++ b.

Lemma occurs_app_l w a b : occurs w a -> occurs w (a ++ b).
Proof. intros (x & y & ->). exists x, (y ++ b). by rewrite <-!app_assoc. Qed.

Lemma occurs_app_r w a b : occurs w b -> occurs w (a ++ b).
Proof. intros (x & y & ->). exists (a ++ x), y. by rewrite <-!app_assoc. Qed.

Lemma occurs_trans a b c : occurs a b -> occurs b c -> occurs a c.
Proof. intros (x & y & ->) (x' & y' & ->). exists (x' ++ x), (y ++ y'). by rewrite <-!app_assoc. Qed.

Lemma occurs_nil w : w <> [] -> ~ occurs w [].
Proof. intros Hw (a & b & H). destruct a, w; discriminate H || done. Qed.

#[export] Hint Resolve occurs_app_l occurs_app_r : core.

(** ** The shape of valid UTF-8 *)

(** The bytes that begin a rune of three bytes. *)
Definition lead3 (a : ascii) : bool := between 0xE0 0xEF (code a).

Definition glyph (c : bytes) : Prop :=
  exists x y z, c = [x; y; z] /\ lead3 x = true /\ is_cont y = true /\ is_cont z = true.

Lemma ellipsis_glyph : glyph ellipsis.
Proof. eexists _, _, _. split; [reflexivity|]. vm_compute. done. Qed.

Lemma replacement_glyph : glyph replacement.
Proof. eexists _, _, _. split; [reflexivity|]. vm_compute. done. Qed.

(** The first rune of a string that starts with a valid one. *)
Inductive rune_shape : bytes -> Prop :=
| shape1 a : code a <? 0x80 = true -> rune_shape [a]
| shape2 a b : between 0xC2 0xDF (code a) = true -> is_cont b = true -> rune_shape [a; b]
| shape3 a b c : lead3 a = true -> is_cont b = true -> is_cont c = true -> rune_shape [a; b; c]
| shape4 a b c d : between 0xF0 0xF4 (code a) = true -> is_cont b = true -> is_cont c = true -> is_cont d = true ->
    rune_shape [a; b; c; d].

Ltac ranges := unfold lead3, is_cont, between in *; rewrite ?andb_true_iff, ?andb_false_iff, ?Z.leb_le, ?Z.leb_gt, ?Z.ltb_lt, ?Z.ltb_ge in *.

Lemma decodeRune_shape b r w : decodeRune b = (r, w, true) -> rune_shape (take w b).
Proof.
  intros H. destruct b as [|b0 b]; [discriminate H|]. cbn [decodeRune] in H.
  destruct (code b0 <? 0x80) eqn:E0; [injection H as <- <-; by apply shape1|].
  destruct b as [|b1 b]; [discriminate H|].
  destruct (between 0xC2 0xDF (code b0)) eqn:E1.
  { destruct (is_cont b1) eqn:E; [|discriminate H]. injection H as <- <-. by apply shape2. }
  destruct b as [|b2 b]; [discriminate H|].
  destruct (between 0xE0 0xEF (code b0)) eqn:E2.
  { destruct (_ && _) eqn:E; [|discriminate H]. injection H as <- <-. apply andb_true_iff in E as [E Ec].
    apply shape3; [done| |done]. clear -E. destruct (code b0 =? 0xE0), (code b0 =? 0xED); ranges; lia. }
  destruct b as [|b3 b]; [discriminate H|].
  destruct (between 0xF0 0xF4 (code b0)) eqn:E3; [|discriminate H].
  destruct (_ && _) eqn:E; [|discriminate H]. injection H as <- <-.
  apply andb_true_iff in E as [[E Ec]%andb_true_iff Ed].
  apply shape4; [done| |done|done]. clear -E. destruct (code b0 =? 0xF0), (code b0 =? 0xF4); ranges; lia.
Qed.

Definition valid (b : bytes) : Prop := forallb seg_ok (segments b) = true.

(** A valid string is nothing, or a rune and a valid string. *)
Lemma segments_go_enough f b : (length b <= f)%nat -> segments_go f b = segments b.
Proof.
  unfold segments. revert b. induction f as [f IH] using lt_wf_ind; intros b Hf.
  destruct b as [|b0 b]; [by destruct f|]. destruct f as [|f]; [simpl in Hf; lia|].
  cbn [segments_go length]. pose proof (decodeRune_width (b0 :: b) ltac:(done)) as Hw.
  destruct (decodeRune (b0 :: b)) as [[r w] ok]. cbn [fst snd] in Hw. f_equal.
  assert (length (drop w (b0 :: b)) <= length b)%nat as Hd by (rewrite length_drop; simpl in *; lia).
  simpl in Hf. rewrite (IH f) by lia. destruct (decide (length b < S f)%nat); [|lia].
  symmetry. apply IH; lia.
Qed.

Lemma valid_inv b : valid b -> b <> [] -> exists u r, b = u ++ r /\ rune_shape u /\ valid r.
Proof.
  intros Hv Hne. destruct b as [|b0 b]; [done|]. unfold valid, segments in Hv. cbn [length segments_go] in Hv.
  pose proof (decodeRune_width (b0 :: b) ltac:(done)) as Hw.
  destruct (decodeRune (b0 :: b)) as [[r w] ok] eqn:E. cbn [fst snd] in Hw. cbn [forallb seg_ok] in Hv.
  apply andb_true_iff in Hv as [-> Hv]. exists (take w (b0 :: b)), (drop w (b0 :: b)).
  split; [symmetry; apply take_drop|]. split; [by eapply decodeRune_shape|].
  unfold valid. rewrite <-(segments_go_enough (length b)); [done|]. rewrite length_drop. simpl in *. lia.
Qed.

Lemma valid_ind (P : bytes -> Prop) :
  P [] -> (forall u r, rune_shape u -> valid r -> P r -> P (u ++ r)) -> forall b, valid b -> P b.
Proof.
  intros H0 Hs b. induction b as [b IH] using (induction_ltof1 _ (@length ascii)). unfold ltof in IH. intros Hv.
  destruct (decide (b = [])) as [->|Hne]; [done|]. destruct (valid_inv b Hv Hne) as (u & r & -> & Hu & Hr).
  apply Hs; [done..|]. apply IH; [|done]. rewrite length_app. destruct Hu; simpl; lia.
Qed.

(** A valid string begins with the first byte of a rune. *)
Lemma valid_head b a : valid b -> b !! 0%nat = Some a -> is_cont a = false.
Proof.
  intros Hv Ha. destruct b as [|b0 b]; [done|]. injection Ha as <-.
  destruct (valid_inv _ Hv ltac:(done)) as (u & r & He & Hu & _).
  destruct Hu; injection He as -> _; ranges; lia.
Qed.

(** In a valid string a rune of three bytes is whole. *)
Lemma valid_whole b : valid b -> forall i a, b !! i = Some a -> lead3 a = true -> (i + 2 < length b)%nat.
Proof.
  revert b. apply (valid_ind (fun b => forall i a, b !! i = Some a -> lead3 a = true -> (i + 2 < length b)%nat));
    [done|].
  intros u r Hu _ IH i a Hi Ha. rewrite length_app. destruct (decide (i < length u)%nat) as [Hlt|Hge].
  - rewrite lookup_app_l in Hi by done.
    destruct Hu; repeat (destruct i as [|i]; [injection Hi as <-; first [simpl; lia | exfalso; ranges; lia]|]); done.
  - rewrite lookup_app_r in Hi by lia. specialize (IH _ _ Hi Ha). lia.
Qed.

(** ** Gluing text around a glyph *)

(** Text that a glyph cannot be a part of, nor overlap. *)
Definition free_of (c w : bytes) : Prop := w <> [] /\ valid w /\ ~ occurs c w.

Lemma occurs_lookup w s : occurs w s <-> exists n, (n + length w <= length s)%nat /\ forall i, (i < length w)%nat -> s !! (n + i)%nat = w !! i.
Proof.
  split.
  - intros (a & b & ->). exists (length a). rewrite !length_app. split; [lia|]. intros i Hi.
    rewrite lookup_app_r by lia. rewrite lookup_app_l by lia. f_equal. lia.
  - intros (n & Hn & Hl). exists (take n s), (drop (n + length w) s).
    assert (w = take (length w) (drop n s)) as Hw.
    { apply list_eq. intros i. destruct (decide (i < length w)%nat) as [Hi|Hi].
      - rewrite lookup_take_lt by done. rewrite lookup_drop. by rewrite Hl.
      - rewrite !lookup_ge_None_2; [done| |lia]. rewrite length_take. lia. }
    rewrite Hw at 1. rewrite <-drop_drop. by rewrite !take_drop.
Qed.

(** What occurs in a text around a glyph occurs on one side of it. *)
Lemma occurs_glue c w a b : glyph c -> free_of c w -> occurs w (a ++ c ++ b) -> occurs w a \/ occurs w b.
Proof.
  intros (x & y & z & -> & Hx & Hy & Hz) (Hne & Hv & Hc) (n & Hn & Hl)%occurs_lookup.
  rewrite !length_app in Hn. simpl in Hn.
  assert (forall i, (a ++ [x; y; z] ++ b) !! (length a + i)%nat = ([x; y; z] ++ b) !! i) as Hmid
    by (intros i; rewrite lookup_app_r by lia; f_equal; lia).
  assert (0 < length w)%nat as Hpos by (destruct w; [done|simpl; lia]).
  destruct (decide (n + length w <= length a)%nat) as [Hleft|Hleft].
  { left. apply occurs_lookup. exists n. split; [done|]. intros i Hi. rewrite <-Hl by done.
    by rewrite lookup_app_l by lia. }
  destruct (decide (length a + 3 <= n)%nat) as [Hright|Hright].
  { right. apply occurs_lookup. exists (n - length a - 3)%nat. split; [lia|]. intros i Hi. rewrite <-Hl by done.
    replace (n + i)%nat with (length a + (3 + (n - length a - 3 + i)))%nat by lia. by rewrite Hmid. }
  exfalso. destruct (decide (n <= length a)%nat) as [Hle|Hgt].
  - destruct (decide (length a + 3 <= n + length w)%nat) as [Hall|Hcut].
    + apply Hc, occurs_lookup. exists (length a - n)%nat. simpl. split; [lia|]. intros i Hi.
      rewrite <-Hl by lia. replace (n + (length a - n + i))%nat with (length a + i)%nat by lia. rewrite Hmid.
      by rewrite lookup_app_l by (simpl; lia).
    + pose proof (valid_whole w Hv (length a - n) x) as Hw.
      rewrite <-Hl in Hw by lia. replace (n + (length a - n))%nat with (length a + 0)%nat in Hw by lia.
      rewrite Hmid in Hw. specialize (Hw eq_refl Hx). lia.
  - pose proof (Hl 0%nat Hpos) as H0. replace (n + 0)%nat with (length a + (n - length a))%nat in H0 by lia.
    rewrite Hmid in H0. destruct (n - length a)%nat as [|[|[|k]]] eqn:E; [lia| | |lia]; cbn in H0; symmetry in H0;
      pose proof (valid_head w _ Hv H0); congruence.
Qed.

(** ** [ReplaceAll] *)

(** [occurs], decided. *)
Fixpoint anywhere (w s : bytes) : bool :=
  starts w s || match s with [] => false | _ :: s => anywhere w s end.

Lemma starts_spec p s : starts p s = true <-> exists r, s = p ++ r.
Proof.
  revert s. induction p as [|a p IH]; intros s; [split; [by exists s|done]|].
  destruct s as [|b s]; cbn; [split; [done|intros (? & ?); done]|].
  rewrite andb_true_iff, bool_decide_eq_true, IH. split.
  - intros [-> [r ->]]. by exists r.
  - intros [r [= -> ->]]. split; [done|]. by exists r.
Qed.

Lemma starts_anywhere w s : occurs w s -> anywhere w s = true.
Proof.
  intros (a & b & ->). assert (starts w (w ++ b) = true) as Hs by (apply starts_spec; by exists b).
  induction a as [|c a IH]; cbn [app].
  - unfold anywhere. destruct (w ++ b); by rewrite Hs.
  - cbn [anywhere]. by rewrite IH, orb_true_r.
Qed.

Lemma replace_skip old new p s : replace_go old new (length p) (p ++ s) = replace_go old new 0 s.
Proof. induction p as [|a p IH]; [done|]. exact IH. Qed.

(** Up to the first match a text is left as it is, and after it the rest is
    replaced. *)
Lemma replace_split old new s :
  old <> [] ->
  (~ occurs old s /\ replace_go old new 0 s = s) \/
  exists a r, s = a ++ old ++ r /\ ~ occurs old a /\ replace_go old new 0 s = a ++ new ++ replace_go old new 0 r.
Proof.
  intros Ho. induction s as [|c s IH]; [left; split; [by apply occurs_nil|done]|].
  destruct (starts old (c :: s)) eqn:E.
  - right. cbn [replace_go]. rewrite E. apply starts_spec in E as [r Hr]. exists [], r. split; [done|].
    split; [by apply occurs_nil|]. destruct old as [|o old]; [done|]. injection Hr as -> ->.
    cbn [length pred app]. by rewrite replace_skip.
  - assert (forall k, ~ occurs old k -> (exists t, c :: s = (c :: k) ++ t) -> ~ occurs old (c :: k)) as Hcons.
    { intros k Hk [t Ht] (x & y & Hxy). destruct x as [|d x].
      - enough (starts old (c :: s) = true) by congruence. apply starts_spec. exists (y ++ t).
        rewrite Ht, Hxy. simpl. by rewrite <-app_assoc.
      - injection Hxy as -> ->. apply Hk. by exists x, y. }
    cbn [replace_go]. rewrite E. destruct IH as [[Hn ->]|(a & r & -> & Hn & ->)].
    + left. split; [|done]. apply Hcons; [done|]. exists []. by rewrite app_nil_r.
    + right. exists (c :: a), r. split; [done|]. split; [|done]. apply Hcons; [done|]. by exists (old ++ r).
Qed.

(** Replacing by a glyph brings no text in that was not there. *)
Lemma replace_no_new old c w s :
  old <> [] -> glyph c -> free_of c w -> occurs w (replace_go old c 0 s) -> occurs w s.
Proof.
  intros Ho Hg Hw. induction s as [s IH] using (induction_ltof1 _ (@length ascii)). unfold ltof in IH.
  destruct (replace_split old c s Ho) as [[_ ->]|(a & r & -> & _ & ->)]; [done|].
  intros [H|H]%occurs_glue; [auto| |done..]. apply IH in H; [auto|]. rewrite !length_app. destruct old; [done|]. simpl. lia.
Qed.

(** And what is replaced is gone. *)
Lemma replace_gone old c s : glyph c -> free_of c old -> ~ occurs old (replace_go old c 0 s).
Proof.
  intros Hg Hw. assert (old <> []) as Ho by apply Hw.
  induction s as [s IH] using (induction_ltof1 _ (@length ascii)). unfold ltof in IH.
  destruct (replace_split old c s Ho) as [[? ->]|(a & r & -> & Ha & ->)]; [done|].
  intros [H|H]%occurs_glue; [done| |done..]. apply IH in H; [done|]. rewrite !length_app. destruct old; [done|]. simpl. lia.
Qed.

(** ** [clip] *)

Lemma to_valid_no_new c w l p bad :
  glyph c -> free_of c w -> (bad = true -> p = []) ->
  occurs w (p ++ to_valid c bad l) -> occurs w (p ++ join_segments l).
Proof.
  intros Hg Hw. revert p bad. induction l as [|s l IH]; intros p bad Hp; [done|].
  unfold join_segments in *. cbn [to_valid fmap list_fmap mjoin list_join]. destruct (seg_ok s).
  - rewrite app_assoc. intros H%IH; [|done]. by rewrite <-app_assoc in H.
  - destruct bad.
    + rewrite (Hp eq_refl). intros H%(IH [] true); [|done]. simpl in *. auto.
    + intros [H|H]%occurs_glue; [auto| |done..]. apply (IH [] true) in H; [|done]. simpl in H. auto.
Qed.

Lemma drop_space_part l : exists p, l = p ++ drop_space l.
Proof.
  induction l as [|s l [p IH]]; [by exists []|]. cbn. destruct (_ && _); [|by exists []].
  exists (s :: p). cbn. by rewrite <-IH.
Qed.

Lemma join_app a b : join_segments (a ++ b) = join_segments a ++ join_segments b.
Proof. unfold join_segments. by rewrite fmap_app, join_app. Qed.

Lemma TrimSpace_part s : occurs (to_bytes (TrimSpace s)) (to_bytes s).
Proof.
  unfold TrimSpace. rewrite to_of_bytes. set (l := segments (to_bytes s)).
  destruct (drop_space_part l) as [p Hp]. destruct (drop_space_part (reverse (drop_space l))) as [q Hq].
  exists (join_segments p), (join_segments (reverse q)).
  rewrite <-!join_app, <-reverse_app, <-Hq, reverse_involutive, <-Hp. symmetry. apply segments_join.
Qed.

Lemma clip_no_new w s max :
  free_of ellipsis w -> free_of replacement w ->
  occurs w (to_bytes (clip s max)) -> occurs w (to_bytes s).
Proof.
  intros He Hr H. eapply occurs_trans; [|apply TrimSpace_part].
  set (t := TrimSpace s) in *. unfold clip in H. fold t in H.
  assert (occurs w (to_bytes (ToValidUTF8 t (of_bytes replacement))) -> occurs w (to_bytes t)) as Hv.
  { unfold ToValidUTF8. rewrite !to_of_bytes. intros Ho. rewrite <-(segments_join (to_bytes t)).
    apply (to_valid_no_new replacement w _ [] false replacement_glyph Hr ltac:(done) Ho). }
  destruct (_ <=? _); [by apply Hv|]. apply Hv. rewrite to_of_bytes in H.
  rewrite <-(app_nil_r ellipsis) in H. apply occurs_glue in H as [H|H]; [|by apply occurs_nil in H as []; apply He|apply ellipsis_glyph|done].
  rewrite <-(take_drop (rune_end (Z.to_nat (max - 1)) (to_bytes (ToValidUTF8 t (of_bytes replacement)))) (to_bytes _)).
  auto.
Qed.

(** ** The words a hider hides *)

(** A way a secret may be quoted: as it is, trimmed, or by one of its longer
    lines. *)
Definition quoted (secrets : list string) (w : string) : Prop :=
  exists s, s ∈ secrets /\ TrimSpace s <> "" /\
    (w = s \/ w = TrimSpace s \/
     has_newline s = true /\ exists line, line ∈ SplitLines s /\ w = TrimSpace line /\ minLine <= RuneCountInString w).

Lemma add_word_elem words v w : w ∈ add_word words v <-> w ∈ words \/ (w = v /\ v <> "").
Proof.
  unfold add_word. destruct (decide (v = "")) as [->|Hv].
  - rewrite bool_decide_false by auto. cbn. split; [auto|]. intros [?|[_ ?]]; done.
  - rewrite bool_decide_true by done. cbn. case_bool_decide as Hin; cbn.
    + split; [auto|]. intros [?|[-> _]]; done.
    + rewrite elem_of_app, list_elem_of_singleton. naive_solver.
Qed.

Lemma add_lines_elem ls words w :
  w ∈ foldl add_line words ls <->
  w ∈ words \/ (exists line, line ∈ ls /\ w = TrimSpace line /\ minLine <= RuneCountInString w).
Proof.
  revert words. induction ls as [|l ls IH]; intros words; cbn [foldl].
  { split; [auto|]. intros [?|(? & ?%elem_of_nil & _)]; done. }
  rewrite IH. assert (w ∈ add_line words l <-> w ∈ words \/ (w = TrimSpace l /\ minLine <= RuneCountInString w)) as ->.
  { unfold add_line. destruct (minLine <=? RuneCountInString (TrimSpace l)) eqn:E.
    - apply Z.leb_le in E. rewrite add_word_elem. split; [naive_solver|]. intros [?|[-> ?]]; [auto|]. right.
      split; [done|]. intros He. rewrite He in E. vm_compute in E. done.
    - apply Z.leb_gt in E. split; [auto|]. intros [?|[-> ?]]; [done|lia]. }
  split.
  - intros [[?|[? ?]]|(line & ? & ? & ?)]; [auto|right; exists l; split; [left|done]|right; exists line; split; [by right|done]].
  - intros [?|(line & Hl & ? & ?)]; [auto|]. apply elem_of_cons in Hl as [->|?]; [auto|]. right. by exists line.
Qed.

Lemma add_secret_elem words s w : w ∈ add_secret words s <-> w ∈ words \/ quoted [s] w.
Proof.
  unfold add_secret, quoted. case_bool_decide as Hb.
  { split; [auto|]. intros [?|(s' & ->%list_elem_of_singleton & ? & _)]; done. }
  assert (s <> "") as Hs by (intros ->; by apply Hb).
  transitivity (w ∈ words \/ (w = s \/ w = TrimSpace s \/
     has_newline s = true /\ exists line, line ∈ SplitLines s /\ w = TrimSpace line /\ minLine <= RuneCountInString w)).
  - destruct (has_newline s); rewrite ?add_lines_elem, !add_word_elem; naive_solver.
  - split; [|intros [?|(s' & ->%list_elem_of_singleton & _ & ?)]; auto].
    intros [?|H]; [auto|]. right. exists s. split; [by apply list_elem_of_singleton|done].
Qed.

Lemma newHider_words secrets w :
  quoted secrets w -> exists h, newHider secrets = Some h /\ w ∈ h.
Proof.
  assert (forall words, quoted secrets w \/ w ∈ words -> w ∈ foldl add_secret words secrets) as Hgen.
  { induction secrets as [|s ss IH]; intros words; cbn [foldl].
    - intros [(? & ?%elem_of_nil & _)|?]; done.
    - intros H. apply IH. rewrite add_secret_elem. destruct H as [(s' & Hs' & H)|?]; [|auto].
      apply elem_of_cons in Hs' as [->|Hs']; [|left; by exists s']. right. right. exists s.
      split; [by apply list_elem_of_singleton|done]. }
  intros Hq. specialize (Hgen [] (or_introl Hq)). unfold newHider. case_bool_decide as He.
  { rewrite He in Hgen. by apply elem_of_nil in Hgen. }
  eexists. split; [done|]. by rewrite sort_on_perm.
Qed.

Lemma newHider_nonempty secrets h w : newHider secrets = Some h -> w ∈ h -> w <> "".
Proof.
  unfold newHider. case_bool_decide; [done|]. intros [= <-]. rewrite sort_on_perm.
  assert (forall words, w ∈ foldl add_secret words secrets -> (w ∈ words -> w <> "") -> w <> "") as Hgen.
  { clear. induction secrets as [|s ss IH]; intros words; cbn [foldl]; [auto|]. intros Hin Hw. apply (IH _ Hin).
    unfold add_secret. case_bool_decide; [done|].
    destruct (has_newline s); rewrite ?add_lines_elem, !add_word_elem; [|naive_solver].
    intros [[[?|[-> ?]]|[-> ?]]|(line & _ & -> & Hl)]; [auto..|]. intros He. rewrite He in Hl. vm_compute in Hl. done. }
  intros H'. apply (Hgen [] H'). by intros ?%elem_of_nil.
Qed.

(** Readable text, with no character that stands for hidden or lost text. *)
Definition plain (w : string) : Prop := free_of ellipsis (to_bytes w) /\ free_of replacement (to_bytes w).

Definition shows (s w : string) : Prop := occurs (to_bytes w) (to_bytes s).

Lemma hide_hides h w s :
  (forall v, v ∈ h -> v <> "") -> w ∈ h -> plain w -> ~ shows (hide h s) w.
Proof.
  intros Hne Hw Hp.
  assert (forall v, v ∈ h -> to_bytes v <> []) as Hnb.
  { intros v Hv He. apply (Hne v Hv). by rewrite <-(of_to_bytes v), He. }
  assert (forall l s, (forall v, v ∈ l -> v ∈ h) -> shows (hide l s) w -> shows s w /\ ~ w ∈ l) as Hgen.
  { induction l as [|v l IH]; intros t Hin Hs; [split; [done|by intros ?%elem_of_nil]|].
    cbn [hide foldl] in Hs. apply IH in Hs as [Hs Hl]; [|intros; apply Hin; by right].
    unfold shows, ReplaceAll, hidden in Hs. rewrite !to_of_bytes in Hs. split.
    - eapply replace_no_new; [apply Hnb, Hin; left|apply ellipsis_glyph|apply Hp|exact Hs].
    - intros [->|?]%elem_of_cons; [|done]. eapply replace_gone; [apply ellipsis_glyph|apply Hp|exact Hs]. }
  intros Hs. destruct (Hgen h s ltac:(done) Hs). done.
Qed.

(** Text a job shows quotes none of its secrets. *)
Lemma text_hides secrets s max w :
  quoted secrets w -> plain w -> ~ shows (text (newHider secrets) s max) w.
Proof.
  intros Hq Hp H. destruct (newHider_words secrets w Hq) as (h & Eh & Hw). unfold text in H. rewrite Eh in H.
  apply clip_no_new in H; [|apply Hp..]. revert H. apply (hide_hides h); [|done..].
  intros v. by apply (newHider_nonempty secrets).
Qed.

Lemma shows_empty w : plain w -> ~ shows "" w.
Proof. intros [[? _] _]. by apply occurs_nil. Qed.
