(* ===== verification/Jobs.v ===== *)
(** * The hub's job engine

    Models [internal/remotenodes/jobs]: [jobs.go], [run.go] and [subscribe.go].
    The engine keeps the jobs it remembers, lets one run on a node at a time,
    takes the reports of the functions that run and hands each change to the
    channels that follow the job. Jobs and channels are shared objects: the
    engine's maps, a job's goroutine and the subscribers all hold pointers, so
    the model has a heap of jobs and one of channels. Every operation runs under
    the engine's lock and is one step. *)

From S2P Require Import Prelude GoUnicode JobText.

(** ** Data *)

Definition kinds : list string :=
  ["install"; "update-agent"; "update-xray"; "renew-cert"; "rotate-keys"; "change-settings"; "remove"].

Inductive JState := StateRunning | StateOK | StateFailed.
#[export] Instance JState_eq_dec : EqDecision JState.
Proof. solve_decision. Defined.

Definition StepPending : string := "pending".
Definition StepRunning : string := "running".
Definition StepOK : string := "ok".
Definition StepFailed : string := "failed".

Definition state_valid (s : string) : bool :=
  bool_decide (s = StepPending) || bool_decide (s = StepRunning) || bool_decide (s = StepOK) ||
  bool_decide (s = StepFailed).

Record Step := MkStep { St_Key : string; St_Name : string; St_State : string; Detail : string }.
#[export] Instance Step_eq_dec : EqDecision Step.
Proof. solve_decision. Defined.

Record InstallForm := MkForm {
  F_Name : string; F_Host : string; F_SSHPort : Z; F_SSHUser : string; F_EntryPort : Z; F_HandshakeTarget : string
}.

Record ErrorInfo := MkInfo {
  I_Port : Z; I_Role : string; I_Process : string; I_PinnedKey : string; I_ShownKey : string;
  I_Found : list string; I_XrayVersion : string; I_SameBuild : bool; I_NodeID : Z; I_NodeName : string;
  I_Target : string; I_Reason : string; I_Tried : Z; I_TookOver : bool
}.
#[export] Instance ErrorInfo_eq_dec : EqDecision ErrorInfo.
Proof. solve_decision. Defined.

Definition noInfo : ErrorInfo := MkInfo 0 "" "" "" "" [] "" false 0 "" "" "" 0 false.

Record Job := MkJob {
  J_ID : string; J_Kind : string; J_State : JState; Steps : list Step; J_Error : string; Code : string;
  J_Info : option ErrorInfo; J_NodeID : Z; Target : string; StartedAt : Z; FinishedAt : option Z;
  J_Install : option InstallForm
}.

Definition MaxSteps : Z := 32.
Definition MaxDetail : Z := 200.
Definition MaxError : Z := 500.
Definition maxName : Z := 64.
Definition maxFact : Z := 128.
Definition maxReason : Z := 300.
Definition DefaultKeep : Z := 20.
Definition DefaultMaxAge : Z := 3600 * 10 ^ 9.

Record Spec := MkSpec {
  Sp_Kind : string; Sp_NodeID : Z; Sp_Target : string; Sp_Steps : list string; Secrets : list string;
  Sp_Install : option InstallForm
}.

(** A job: what the page sees, its hider, the channels that follow it, and when
    it ended. A snapshot is its [view], as a value. *)
Record job := MkJobRec {
  view : Job; j_hide : option (list string); subs : gset nat; finished : Z; endSeq : Z
}.

(** A channel with room for one value. *)
Record chan := MkChan { buf : option Job; ch_closed : bool }.

(** What would stop the holder of the lock: a send that waits for room for
    ever, or a panic (a send on a closed channel, or closing it twice). *)
Inductive stuck := Blocked | Panicked.

Definition drain (c : chan) : chan := MkChan None (ch_closed c).

Definition send (c : chan) (v : Job) : result stuck chan :=
  if ch_closed c then Err Panicked
  else match buf c with Some _ => Err Blocked | None => Ok (MkChan (Some v) false) end.

Definition close (c : chan) : result stuck chan :=
  if ch_closed c then Err Panicked else Ok (MkChan (buf c) true).

Inductive startError :=
| NotAKind (k : string) | NothingToRun | ErrClosed | BusyError (node : Z) (id : string) | NoRandom.

(** What a job's function may end with. [E] is the errors it may return,
    [Error] their text ([None] when the method panics). *)
Inductive outcome (E : Type) := Returns (e : option E) | Panics.
Arguments Returns {E} e.
Arguments Panics {E}.

Inductive jobErr (E : Type) := errInternal | FnErr (e : E).
Arguments errInternal {E}.
Arguments FnErr {E} e.

Record Config (E : Type) := MkConfig {
  Keep : Z; MaxAge : Z; StepKey : option (string -> string);
  ErrorCode : option (E -> option string); ErrorInfoOf : option (E -> option (option ErrorInfo))
}.
Arguments MkConfig {E} _ _ _ _ _.
Arguments Keep {E} _.
Arguments MaxAge {E} _.
Arguments StepKey {E} _.
Arguments ErrorCode {E} _.
Arguments ErrorInfoOf {E} _.

Section engine.
Context {E : Type} (Error : E -> option string).

Record Engine := MkEngine {
  cfg : Config E;
  cancelled : bool;           (* the context has ended *)
  wg : gset nat;              (* jobs whose goroutine has not returned *)
  closed : bool;
  ended : Z;
  byID : gmap string nat;
  order : list nat;           (* oldest start first *)
  onNode : gmap Z nat;
  jobs : gmap nat job;        (* the heap *)
  chans : gmap nat chan
}.

Definition set_job (e : Engine) (p : nat) (j : job) : Engine :=
  MkEngine (cfg e) (cancelled e) (wg e) (closed e) (ended e) (byID e) (order e) (onNode e) (<[p := j]> (jobs e)) (chans e).

Definition set_chans (e : Engine) (cs : gmap nat chan) : Engine :=
  MkEngine (cfg e) (cancelled e) (wg e) (closed e) (ended e) (byID e) (order e) (onNode e) (jobs e) cs.

Definition set_known (e : Engine) (ids : gmap string nat) (o : list nat) : Engine :=
  MkEngine (cfg e) (cancelled e) (wg e) (closed e) (ended e) ids o (onNode e) (jobs e) (chans e).

Definition New (c : Config E) : Engine :=
  MkEngine
    (MkConfig (if Keep c <=? 0 then DefaultKeep else Keep c) (if MaxAge c <=? 0 then DefaultMaxAge else MaxAge c)
       (StepKey c) (ErrorCode c) (ErrorInfoOf c))
    false ∅ false 0 ∅ [] ∅ ∅ ∅.

Definition is_running (e : Engine) (p : nat) : bool :=
  match jobs e !! p with Some j => bool_decide (J_State (view j) = StateRunning) | None => false end.

Definition id_of (e : Engine) (p : nat) : string :=
  match jobs e !! p with Some j => J_ID (view j) | None => "" end.

(** [time.Time.Sub] saturates. *)
Definition Sub (a b : Z) : Z := Z.max minI64 (Z.min maxI64 (a - b)).

Definition too_old (e : Engine) (now : Z) (p : nat) : bool :=
  match jobs e !! p with
  | Some j => negb (bool_decide (J_State (view j) = StateRunning)) && (MaxAge (cfg e) <? Sub now (finished j))
  | None => false
  end.

Definition seq_of (e : Engine) (p : nat) : Z := match jobs e !! p with Some j => endSeq j | None => 0 end.

Definition forget (e : Engine) (ps : list nat) : Engine :=
  set_known e (foldl (fun ids p => delete (id_of e p) ids) (byID e) ps) (filter (fun p => p ∉ ps) (order e)).

Definition prune (e : Engine) (now : Z) : Engine :=
  let e := forget e (filter (fun p => too_old e now p = true) (order e)) in
  let fin := filter (fun p => is_running e p = false) (order e) in
  if Z.of_nat (length fin) <=? Keep (cfg e) then e
  else forget e (drop (Z.to_nat (Keep (cfg e))) (sort_on (fun p => - seq_of e p) fin)).

(** ** Starting a job *)

Definition hex_digit (d : Z) : ascii := ascii_of_N (Z.to_N (if d <? 10 then 48 + d else 87 + d)).
Definition hexEncode (b : list Z) : string :=
  of_bytes (b ≫= fun x => [hex_digit (x / 16); hex_digit (x mod 16)]).

(** [newID] with what each [rand.Read] gives ([None]: an error); an empty list
    is a loop that has not come to its end. *)
Fixpoint newID (e : Engine) (draws : list (option (list Z))) : option (result startError string) :=
  match draws with
  | [] => None
  | None :: _ => Some (Err NoRandom)
  | Some b :: draws =>
      let id := hexEncode b in
      match byID e !! id with None => Some (Ok id) | Some _ => newID e draws end
  end.

Definition keyOf (e : Engine) (name : string) : string :=
  match StepKey (cfg e) with None => "" | Some f => f name end.

Definition find_step (name : string) (ss : list Step) : option nat :=
  fst <$> list_find (fun s => St_Name s = name) ss.

(** [Job.step]: the steps and the place of the step called [name], which is
    added when it is new. *)
Definition step (key : string -> string) (ss : list Step) (name : string) : list Step * option nat :=
  let name := clip name maxName in
  if bool_decide (name = "") then (ss, None) else
  match find_step name ss with
  | Some i => (ss, Some i)
  | None =>
      if MaxSteps <=? Z.of_nat (length ss) then (ss, None)
      else (ss ++ [MkStep (key name) name StepPending ""], Some (length ss))
  end.

Definition plan (e : Engine) (names : list string) : list Step :=
  foldl (fun ss n => (step (keyOf e) ss n).1) [] names.

Definition clip_form (f : InstallForm) : InstallForm :=
  MkForm (clip (F_Name f) maxName) (clip (F_Host f) (maxName * 4)) (F_SSHPort f) (clip (F_SSHUser f) maxName)
    (F_EntryPort f) (F_HandshakeTarget f).

(** [Start]; [fn] is whether there is a function to run, and the result is
    [None] where [newID] has not found an id yet. *)
Definition Start (e : Engine) (spec : Spec) (fn : bool) (draws : list (option (list Z))) (now1 now2 : Z) :
    option (Engine * result startError (nat * Job)) :=
  if negb (bool_decide (Sp_Kind spec ∈ kinds)) then Some (e, Err (NotAKind (Sp_Kind spec)))
  else if negb fn then Some (e, Err NothingToRun)
  else if closed e then Some (e, Err ErrClosed)
  else
  match (if Sp_NodeID spec =? 0 then None else onNode e !! Sp_NodeID spec) with
  | Some cur => Some (e, Err (BusyError (Sp_NodeID spec) (id_of e cur)))
  | None =>
      match newID e draws with
      | None => None
      | Some (Err err) => Some (e, Err err)
      | Some (Ok id) =>
          let v := MkJob id (Sp_Kind spec) StateRunning (plan e (Sp_Steps spec)) "" "" None (Sp_NodeID spec)
                     (Sp_Target spec) now1 None (clip_form <$> Sp_Install spec) in
          let j := MkJobRec v (newHider (Secrets spec)) ∅ 0 0 in
          let p := fresh (dom (jobs e)) in
          let e := MkEngine (cfg e) (cancelled e) (wg e) (closed e) (ended e) (<[id := p]> (byID e)) (order e ++ [p])
                     (if Sp_NodeID spec =? 0 then onNode e else <[Sp_NodeID spec := p]> (onNode e))
                     (<[p := j]> (jobs e)) (chans e) in
          let e := prune e now2 in
          let e := MkEngine (cfg e) (cancelled e) ({[p]} ∪ wg e) (closed e) (ended e) (byID e) (order e) (onNode e)
                     (jobs e) (chans e) in
          Some (e, Ok (p, v))
      end
  end.

(** ** Telling the followers *)

Definition refresh (v : Job) (cs : gmap nat chan) (ch : nat) : result stuck (gmap nat chan) :=
  match cs !! ch with
  | None => Err Blocked
  | Some c => rbind (fun c => Ok (<[ch := c]> cs)) (send (drain c) v)
  end.

Definition close_one (cs : gmap nat chan) (ch : nat) : result stuck (gmap nat chan) :=
  match cs !! ch with
  | None => Err Panicked
  | Some c => rbind (fun c => Ok (<[ch := c]> cs)) (close c)
  end.

Definition no_subs (j : job) : job := MkJobRec (view j) (j_hide j) ∅ (finished j) (endSeq j).

Definition publish (e : Engine) (p : nat) : result stuck Engine :=
  match jobs e !! p with
  | None => Ok e
  | Some j =>
      rbind (fun cs =>
        if bool_decide (J_State (view j) = StateRunning) then Ok (set_chans e cs)
        else rbind (fun cs => Ok (set_job (set_chans e cs) p (no_subs j))) (foldM close_one cs (elements (subs j))))
        (foldM (refresh (view j)) (chans e) (elements (subs j)))
  end.

(** ** Reporting: [run.go] *)

Definition set_view (j : job) (v : Job) : job := MkJobRec v (j_hide j) (subs j) (finished j) (endSeq j).

Definition set_steps (v : Job) (ss : list Step) : Job :=
  MkJob (J_ID v) (J_Kind v) (J_State v) ss (J_Error v) (Code v) (J_Info v) (J_NodeID v) (Target v) (StartedAt v)
    (FinishedAt v) (J_Install v).

Definition change (e : Engine) (p : nat) (name : string) (f : option (list string) -> Step -> Step) :
    result stuck Engine :=
  match jobs e !! p with
  | None => Ok e
  | Some j =>
      if negb (bool_decide (J_State (view j) = StateRunning)) then Ok e else
      let '(ss, at_) := step (keyOf e) (Steps (view j)) name in
      match at_ ≫= fun i => (fun s => (i, s)) <$> ss !! i with
      | None => Ok e
      | Some (i, before) =>
          let s := f (j_hide j) before in
          let e := set_job e p (set_view j (set_steps (view j) (<[i := s]> ss))) in
          if negb (bool_decide (length ss = length (Steps (view j)))) || bool_decide (s <> before)
          then publish e p else Ok e
      end
  end.

Definition with_state (s : Step) (st : string) : Step := MkStep (St_Key s) (St_Name s) st (Detail s).
Definition with_detail (s : Step) (d : string) : Step := MkStep (St_Key s) (St_Name s) (St_State s) d.

Definition errText (err : E) : string := default "internal error" (Error err).

Definition Begin (e : Engine) (p : nat) (name : string) : result stuck Engine :=
  change e p name (fun _ s => with_state s StepRunning).
Definition SetDetail (e : Engine) (p : nat) (name t : string) : result stuck Engine :=
  change e p name (fun h s => with_detail s (text h t MaxDetail)).
Definition Done (e : Engine) (p : nat) (name : string) : result stuck Engine :=
  change e p name (fun _ s => with_state s StepOK).
Definition Fail_ (e : Engine) (p : nat) (name : string) (err : option E) : result stuck Engine :=
  change e p name (fun h s =>
    with_detail (with_state s StepFailed)
      (match err with Some err => text h (errText err) MaxDetail | None => "" end)).
Definition Set_ (e : Engine) (p : nat) (name st detail : string) : result stuck Engine :=
  if negb (state_valid st) then Ok e
  else change e p name (fun h s => with_detail (with_state s st) (text h detail MaxDetail)).

Definition FailedStep (e : Engine) (p : nat) : string :=
  match jobs e !! p with
  | None => ""
  | Some j => match list_find (fun s => St_State s = StepFailed) (Steps (view j)) with
              | Some (_, s) => St_Name s | None => "" end
  end.

(** ** The end of a job *)

(** [call] and [run]: a function that panics, or never returns, has failed. *)
Definition call_err (o : outcome E) : option (jobErr E) :=
  match o with Returns None => None | Returns (Some e) => Some (FnErr e) | Panics => Some errInternal end.

Definition raw_text (err : jobErr E) : string :=
  match err with errInternal => "internal error" | FnErr e => errText e end.

Definition codeOf (e : Engine) (err : jobErr E) : string :=
  match ErrorCode (cfg e), err with
  | Some f, FnErr err => default "" (f err)
  | _, _ => ""
  end.

Definition infoOf (e : Engine) (err : jobErr E) : option ErrorInfo :=
  match ErrorInfoOf (cfg e), err with
  | Some f, FnErr err => default None (f err)
  | _, _ => None
  end.

Definition add_found (h : option (list string)) (out : list string) (f : string) : list string :=
  let f := text h f maxName in
  if bool_decide (f <> "") && (Z.of_nat (length out) <? 8) then out ++ [f] else out.

Definition cleanInfo (h : option (list string)) (info : option ErrorInfo) : option ErrorInfo :=
  match info with
  | None => None
  | Some i =>
      let c := MkInfo (I_Port i) (text h (I_Role i) maxName) (text h (I_Process i) maxFact)
                 (text h (I_PinnedKey i) maxFact) (text h (I_ShownKey i) maxFact)
                 (foldl (add_found h) [] (I_Found i)) (text h (I_XrayVersion i) maxName) (I_SameBuild i) (I_NodeID i)
                 (text h (I_NodeName i) maxName) (text h (I_Target i) maxFact) (text h (I_Reason i) maxReason)
                 (I_Tried i) (I_TookOver i) in
      if bool_decide (c = noInfo) then None else Some c
  end.

(** What ending does to a step: one still running ends the way the job does. *)
Definition end_step (h : option (list string)) (err : option (jobErr E)) (s : Step) : Step :=
  if bool_decide (St_State s = StepRunning) then
    match err with
    | None => with_state s StepOK
    | Some err => with_detail (with_state s StepFailed) (text h (raw_text err) MaxDetail)
    end
  else s.

Definition end_view (e : Engine) (h : option (list string)) (v : Job) (err : option (jobErr E)) (now : Z) : Job :=
  let ss := end_step h err <$> Steps v in
  match err with
  | Some er =>
      MkJob (J_ID v) (J_Kind v) StateFailed ss (text h (raw_text er) MaxError) (clip (codeOf e er) maxName)
        (cleanInfo h (infoOf e er)) (J_NodeID v) (Target v) (StartedAt v) (Some now) (J_Install v)
  | None =>
      MkJob (J_ID v) (J_Kind v) StateOK (filter (fun s => St_State s <> StepPending) ss) (J_Error v) (Code v)
        (J_Info v) (J_NodeID v) (Target v) (StartedAt v) (Some now) (J_Install v)
  end.

Definition finish (e : Engine) (p : nat) (o : outcome E) (now1 now2 : Z) : result stuck Engine :=
  match jobs e !! p with
  | None => Ok e
  | Some j =>
      let v := end_view e (j_hide j) (view j) (call_err o) now1 in
      let seq := wrapU (ended e + 1) in
      let on := if negb (J_NodeID v =? 0) && bool_decide (onNode e !! J_NodeID v = Some p)
                then delete (J_NodeID v) (onNode e) else onNode e in
      let e := MkEngine (cfg e) (cancelled e) (wg e) (closed e) seq (byID e) (order e) on
                 (<[p := MkJobRec v None (subs j) now1 seq]> (jobs e)) (chans e) in
      rbind (fun e => Ok (prune e now2)) (publish e p)
  end.

(** [wg.Done], after [finish]. *)
Definition wg_done (e : Engine) (p : nat) : Engine :=
  MkEngine (cfg e) (cancelled e) (wg e ∖ {[p]}) (closed e) (ended e) (byID e) (order e) (onNode e) (jobs e) (chans e).

(** ** Reading *)

Definition snapshot (e : Engine) (p : nat) : option Job := view <$> jobs e !! p.

Definition Get (e : Engine) (id : string) (now : Z) : Engine * option Job :=
  let e := prune e now in (e, byID e !! id ≫= snapshot e).

Definition List_ (e : Engine) (now : Z) : Engine * list Job :=
  let e := prune e now in (e, omap (snapshot e) (reverse (order e))).

Definition Running (e : Engine) (node : Z) : option Job := onNode e !! node ≫= snapshot e.

(** ** Following: [subscribe.go] *)

Definition add_sub (j : job) (ch : nat) : job := MkJobRec (view j) (j_hide j) ({[ch]} ∪ subs j) (finished j) (endSeq j).

(** The channel and the job it follows, [None] for an id nobody has. *)
Definition Subscribe (e : Engine) (id : string) (now : Z) : result stuck (Engine * option (nat * nat)) :=
  let e := prune e now in
  match byID e !! id with
  | None => Ok (e, None)
  | Some p =>
      match jobs e !! p with
      | None => Ok (e, None)
      | Some j =>
          let ch := fresh (dom (chans e)) in
          rbind (fun c =>
            if negb (bool_decide (J_State (view j) = StateRunning)) then
              rbind (fun c => Ok (set_chans e (<[ch := c]> (chans e)), Some (ch, p))) (close c)
            else Ok (set_job (set_chans e (<[ch := c]> (chans e))) p (add_sub j ch), Some (ch, p)))
            (send (MkChan None false) (view j))
      end
  end.

Definition unsubscribe (e : Engine) (p ch : nat) : result stuck Engine :=
  match jobs e !! p with
  | None => Ok e
  | Some j =>
      if bool_decide (ch ∈ subs j) then
        rbind (fun cs =>
          Ok (set_job (set_chans e cs) p (MkJobRec (view j) (j_hide j) (subs j ∖ {[ch]}) (finished j) (endSeq j))))
          (close_one (chans e) ch)
      else Ok e
  end.

(** A subscriber that takes a value: it gets one, finds the channel closed, or
    waits. *)
Inductive received := Got (v : Job) | AtEnd | Waits.

Definition receive (e : Engine) (ch : nat) : Engine * received :=
  match chans e !! ch with
  | None => (e, Waits)
  | Some c =>
      match buf c with
      | Some v => (set_chans e (<[ch := drain c]> (chans e)), Got v)
      | None => (e, if ch_closed c then AtEnd else Waits)
      end
  end.

(** ** Closing *)

Definition Close (e : Engine) : Engine :=
  MkEngine (cfg e) true (wg e) true (ended e) (byID e) (order e) (onNode e) (jobs e) (chans e).

(** What [Close] waits for. *)
Definition idle (e : Engine) : bool := bool_decide (wg e = ∅).
End engine.
