(* ===== verification/JobsRun.v ===== *)
(** * The job engine at work

    The engine of [Jobs] with everyone who uses it: callers that start, read and
    follow jobs, goroutines that report and end, readers that take values from
    their channels. Each takes the lock in turn, so a run is a sequence of whole
    operations in any order. The invariant gives what a caller relies on: one
    job per node, running jobs always known, followers never behind for good and
    never holding the engine up, and no secret in anything a job shows. *)

From S2P Require Import Prelude GoUnicode JobText Jobs.

Section lemmas.
Context {E : Type}.
Implicit Types (e : @Engine E).

(** ** Forgetting and pruning *)

Record known_ok e : Prop := {
  k_nodup : NoDup (order e);
  k_heap : forall p, p ∈ order e -> is_Some (jobs e !! p);
  k_ids : forall id p, byID e !! id = Some p <-> p ∈ order e /\ id_of e p = id
}.

Lemma delete_ids (f : nat -> string) (ps : list nat) (m : gmap string nat) id p :
  foldl (fun ids q => delete (f q) ids) m ps !! id = Some p <-> m !! id = Some p /\ forall q, q ∈ ps -> f q <> id.
Proof.
  revert m. induction ps as [|q ps IH]; intros m; cbn [foldl].
  - split; [intros H; split; [done|by intros ? ?%elem_of_nil]|by intros [? _]].
  - rewrite IH, lookup_delete_Some. setoid_rewrite elem_of_cons. naive_solver.
Qed.

Lemma forget_known e ps :
  known_ok e -> (forall p, p ∈ ps -> p ∈ order e) ->
  known_ok (forget e ps) /\ (forall p, p ∈ order (forget e ps) <-> p ∈ order e /\ p ∉ ps).
Proof.
  intros [Hnd Hh Hi] Hps.
  assert (forall p, p ∈ order (forget e ps) <-> p ∈ order e /\ p ∉ ps) as Ho
    by (intros p; cbn; rewrite list_elem_of_filter; tauto).
  split; [|done]. split.
  - by apply NoDup_filter.
  - intros p [? _]%Ho. by apply Hh.
  - intros id p. cbn. rewrite delete_ids, Hi, list_elem_of_filter.
    change (id_of (forget e ps) p) with (id_of e p). split.
    + intros [[? <-] Hn]. split; [|done]. split; [|done]. intros Hin. by apply (Hn p Hin).
    + intros [[Hn Hin] <-]. split; [done|]. intros q Hq Hid. apply Hn.
      assert (byID e !! id_of e p = Some q) as H1 by (apply Hi; auto).
      assert (byID e !! id_of e p = Some p) as H2 by (apply Hi; auto). by simplify_eq.
Qed.

Definition fin_count e : Z := Z.of_nat (length (filter (fun p => is_running e p = false) (order e))).

Lemma prune_frame e now :
  exists ids o, prune e now = set_known e ids o.
Proof. unfold prune. case_match; eexists _, _; reflexivity. Qed.

(** Of the jobs that are over, the ones a prune drops for their number ended
    before every one it keeps. *)
Definition keeps_newest e now : Prop :=
  forall p q, p ∈ order e -> too_old e now p = false -> p ∉ order (prune e now) ->
    q ∈ order (prune e now) -> is_running e q = false -> seq_of e p <= seq_of e q.

Lemma take_drop_sorted {A} (R : A -> A -> Prop) n l x y :
  StronglySorted R l -> x ∈ take n l -> y ∈ drop n l -> R x y.
Proof.
  revert n. induction l as [|a l IH]; intros n Hs Hx Hy; [rewrite take_nil in Hx; by apply elem_of_nil in Hx|].
  destruct n as [|n]; [by apply elem_of_nil in Hx|]. cbn in Hx, Hy. inversion Hs as [|? ? Hs' Ha]; subst.
  apply elem_of_cons in Hx as [->|Hx]; [|by eapply IH].
  rewrite Forall_forall in Ha. apply Ha. eapply elem_of_sublist; [|apply sublist_drop]. exact Hy.
Qed.

Lemma prune_spec e now :
  known_ok e -> 0 <= Keep (cfg e) ->
  known_ok (prune e now) /\ (forall p, p ∈ order (prune e now) -> p ∈ order e) /\
  (forall p, p ∈ order e -> is_running e p = true -> p ∈ order (prune e now)) /\
  fin_count (prune e now) <= Keep (cfg e) /\ keeps_newest e now.
Proof.
  intros Hk HK.
  set (e1 := forget e (filter (fun p => too_old e now p = true) (order e))).
  assert (prune e now = let fin := filter (fun p => is_running e p = false) (order e1) in
    if Z.of_nat (length fin) <=? Keep (cfg e) then e1
    else forget e1 (drop (Z.to_nat (Keep (cfg e))) (sort_on (fun p => - seq_of e p) fin))) as He by done.
  destruct (forget_known e (filter (fun p => too_old e now p = true) (order e))) as [Hk1 Ho1]; [done| |].
  { by intros p [_ ?]%list_elem_of_filter. }
  fold e1 in Hk1, Ho1. set (fin := filter (fun p => is_running e p = false) (order e1)) in *.
  assert (forall p, p ∈ order e1 <-> p ∈ order e /\ too_old e now p = false) as Ho1'.
  { intros p. rewrite Ho1, list_elem_of_filter. destruct (too_old e now p); naive_solver. }
  assert (forall p, is_running e p = true -> too_old e now p = false) as Hyoung.
  { intros p. unfold is_running, too_old. destruct (jobs e !! p); [|done]. by intros ->. }
  cbn zeta in He. fold fin in He.
  destruct (Z.of_nat (length fin) <=? Keep (cfg e)) eqn:Ec; unfold keeps_newest; rewrite He.
  { apply Z.leb_le in Ec. split; [done|]. split; [naive_solver|]. split; [naive_solver|]. split; [exact Ec|].
    intros p q Hp Hold Hp'. exfalso. apply Hp'. by apply Ho1'. }
  set (k := Z.to_nat (Keep (cfg e))). set (srt := sort_on (fun p => - seq_of e p) fin).
  assert (srt ≡ₚ fin) as Hperm by apply sort_on_perm.
  assert (forall p, p ∈ drop k srt -> p ∈ fin) as Hdrop.
  { intros p Hp. rewrite <-Hperm. eapply elem_of_sublist; [exact Hp|apply sublist_drop]. }
  destruct (forget_known e1 (drop k srt)) as [Hk2 Ho2]; [done| |].
  { intros p [_ ?]%Hdrop%list_elem_of_filter. done. }
  assert (forall q, q ∈ order (forget e1 (drop k srt)) -> is_running e q = false -> q ∈ take k srt) as Htake.
  { intros q [Hq Hnd]%Ho2 Hr. assert (q ∈ srt) as Hin by (rewrite Hperm; by apply list_elem_of_filter).
    rewrite <-(take_drop k srt) in Hin. apply elem_of_app in Hin as [|]; done. }
  split; [done|]. split; [naive_solver|]. split.
  { intros p Hp Hr. apply Ho2. split; [naive_solver|]. intros [? _]%Hdrop%list_elem_of_filter. congruence. }
  split.
  - assert (fin_count (forget e1 (drop k srt)) =
      Z.of_nat (length (filter (fun p => is_running e p = false) (order (forget e1 (drop k srt)))))) as -> by reflexivity.
    assert (filter (fun p => is_running e p = false) (order (forget e1 (drop k srt))) ⊆+ take k srt) as Hsub.
    { apply NoDup_submseteq; [apply NoDup_filter, Hk2|]. intros q [Hr Hq]%list_elem_of_filter. by apply Htake. }
    apply submseteq_length in Hsub. rewrite length_take in Hsub.
    assert (Z.of_nat k = Keep (cfg e)) by (unfold k; lia). lia.
  - intros p q Hp Hold Hnp Hq Hr. assert (q ∈ take k srt) as Hqt by by apply Htake.
    assert (p ∈ drop k srt) as Hpd.
    { destruct (decide (p ∈ drop k srt)) as [|Hn]; [done|]. exfalso. apply Hnp, Ho2. naive_solver. }
    pose proof (take_drop_sorted _ k srt q p (sort_on_le _ _) Hqt Hpd) as H. unfold key_le in H. lia.
Qed.

(** ** Publishing *)

(** A loop that changes each of some entries of a map once. *)
Lemma foldM_entries {X} (f : gmap nat X -> nat -> result stuck (gmap nat X)) (P : X -> Prop) (g : X -> X)
    (l : list nat) (m : gmap nat X) :
  (forall m k x, m !! k = Some x -> P x -> f m k = Ok (<[k := g x]> m)) ->
  NoDup l -> (forall k, k ∈ l -> exists x, m !! k = Some x /\ P x) ->
  exists m', foldM f m l = Ok m' /\ forall k, m' !! k = if decide (k ∈ l) then g <$> m !! k else m !! k.
Proof.
  intros Hf. revert m. induction l as [|k l IH]; intros m Hnd Hl.
  { exists m. split; [done|]. intros k. by rewrite decide_False by apply not_elem_of_nil. }
  inversion Hnd as [|? ? Hk Hnd']; subst. destruct (Hl k ltac:(left)) as (x & Hx & Px).
  cbn [foldM]. rewrite (Hf m k x Hx Px). cbn [rbind].
  destruct (IH (<[k := g x]> m) Hnd') as (m' & Hm' & Hlk).
  { intros k' Hk'. rewrite lookup_insert_ne by (by intros ->). apply Hl. by right. }
  exists m'. split; [done|]. intros k'. rewrite Hlk. destruct (decide (k' = k)) as [->|Hne].
  - rewrite decide_False by done. rewrite decide_True by left. by rewrite lookup_insert_eq, Hx.
  - rewrite lookup_insert_ne by done. destruct (decide (k' ∈ l)) as [Hi|Hi].
    + by rewrite decide_True by by right.
    + rewrite decide_False; [done|]. by rewrite elem_of_cons; intros [|].
Qed.

(** Publishing never waits and never panics where the followers' channels are
    open, and leaves each with the job as it stands. *)
Lemma publish_spec e p j :
  jobs e !! p = Some j -> (forall ch, ch ∈ subs j -> exists c, chans e !! ch = Some c /\ ch_closed c = false) ->
  let over := negb (bool_decide (J_State (view j) = StateRunning)) in
  exists cs, publish e p = Ok (if over then set_job (set_chans e cs) p (no_subs j) else set_chans e cs) /\
    forall ch, cs !! ch = if decide (ch ∈ subs j) then Some (MkChan (Some (view j)) over) else chans e !! ch.
Proof.
  intros Hj Hopen over. unfold publish. rewrite Hj.
  destruct (foldM_entries (refresh (view j)) (fun c => ch_closed c = false) (fun _ => MkChan (Some (view j)) false)
    (elements (subs j)) (chans e)) as (cs & Hcs & Hl).
  { intros m k [b cl] Hk Hc. unfold refresh. rewrite Hk. cbn in *. by rewrite Hc. }
  { apply NoDup_elements. }
  { intros ch Hch%elem_of_elements. by apply Hopen. }
  assert (forall ch, cs !! ch = if decide (ch ∈ subs j) then Some (MkChan (Some (view j)) false) else chans e !! ch) as Hl'.
  { intros ch. rewrite Hl. destruct (decide (ch ∈ elements (subs j))) as [Hi|Hi].
    - pose proof Hi as Hi'. apply elem_of_elements in Hi'. rewrite decide_True by done.
      destruct (Hopen ch Hi') as (c & -> & _). done.
    - rewrite elem_of_elements in Hi. by rewrite decide_False. }
  rewrite Hcs. cbn [rbind]. subst over. case_bool_decide as Hr; cbn [negb].
  { exists cs. split; [done|]. exact Hl'. }
  destruct (foldM_entries close_one (fun c => ch_closed c = false) (fun c => MkChan (buf c) true)
    (elements (subs j)) cs) as (cs2 & Hcs2 & Hl2).
  { intros m k [b cl] Hk Hc. unfold close_one. rewrite Hk. cbn in *. by rewrite Hc. }
  { apply NoDup_elements. }
  { intros ch Hch%elem_of_elements. rewrite Hl', decide_True by done. by eexists. }
  rewrite Hcs2. cbn [rbind]. exists cs2. split; [done|]. intros ch. rewrite Hl2, Hl'.
  destruct (decide (ch ∈ elements (subs j))) as [Hi|Hi]; rewrite elem_of_elements in Hi.
  - by rewrite !decide_True by done.
  - by rewrite !decide_False by done.
Qed.
End lemmas.

(** ** What a job may show *)

(** The texts of a job that come from its reports. *)
Definition info_texts (i : ErrorInfo) : list string :=
  [I_Role i; I_Process i; I_PinnedKey i; I_ShownKey i; I_XrayVersion i; I_NodeName i; I_Target i; I_Reason i] ++ I_Found i.

Definition texts (v : Job) : list string :=
  (Detail <$> Steps v) ++ [J_Error v] ++ match J_Info v with Some i => info_texts i | None => [] end.

(** None of them quotes a secret. *)
Definition safe_text (ss : list string) (t : string) : Prop := forall w, quoted ss w -> plain w -> ~ shows t w.
Definition safe (ss : list string) (v : Job) : Prop := Forall (safe_text ss) (texts v).

Lemma safe_text_text ss t max : safe_text ss (text (newHider ss) t max).
Proof. intros w Hq Hp. by apply text_hides. Qed.

Lemma safe_text_empty ss : safe_text ss "".
Proof. intros w _ Hp. by apply shows_empty. Qed.

#[export] Hint Resolve safe_text_text safe_text_empty : core.

Lemma safe_iff ss v :
  safe ss v <-> (forall s, s ∈ Steps v -> safe_text ss (Detail s)) /\ safe_text ss (J_Error v) /\
    (forall i, J_Info v = Some i -> Forall (safe_text ss) (info_texts i)).
Proof.
  unfold safe, texts. rewrite !Forall_app, Forall_fmap, Forall_forall, Forall_singleton.
  split.
  - intros (H1 & H2 & H3). split; [done|]. split; [done|]. intros i Hi. by rewrite Hi in H3.
  - intros (H1 & H2 & H3). split; [done|]. split; [done|]. destruct (J_Info v); [by apply H3|constructor].
Qed.

Lemma cleanInfo_safe ss info i :
  cleanInfo (newHider ss) info = Some i -> Forall (safe_text ss) (info_texts i).
Proof.
  unfold cleanInfo. destruct info as [i0|]; [|done]. case_bool_decide; [done|]. intros [= <-].
  unfold info_texts. cbn. repeat (constructor; [done|]).
  assert (forall l out, Forall (safe_text ss) out -> Forall (safe_text ss) (foldl (add_found (newHider ss)) out l)) as Hgen.
  { induction l as [|f l IH]; intros out Ho; [done|]. cbn. apply IH. unfold add_found.
    destruct (_ && _); [|done]. apply Forall_app. split; [done|]. by constructor. }
  apply Hgen. constructor.
Qed.

Lemma step_details key ss name l i :
  step key ss name = (l, i) -> forall s, s ∈ l -> s ∈ ss \/ Detail s = "".
Proof.
  unfold step. case_bool_decide; [intros [= <- <-]; auto|]. destruct (find_step _ _); [intros [= <- <-]; auto|].
  destruct (_ <=? _); intros [= <- <-]; [auto|]. intros s [?| ->%list_elem_of_singleton]%elem_of_app; auto.
Qed.

Lemma plan_details {E} (e : @Engine E) names s : s ∈ plan e names -> Detail s = "".
Proof.
  unfold plan. assert (forall l, (forall s, s ∈ l -> Detail s = "") ->
    forall s, s ∈ foldl (fun ss n => (step (keyOf e) ss n).1) l names -> Detail s = "") as Hgen.
  { induction names as [|n ns IH]; intros l Hl; [done|]. cbn. apply IH. intros t Ht.
    destruct (step (keyOf e) l n) as [l' i] eqn:Es. cbn in Ht.
    destruct (step_details _ _ _ _ _ Es t Ht) as [|]; auto. }
  apply (Hgen []). by intros ? ?%elem_of_nil.
Qed.

(** ** The engine and its users *)

Section system.
Context {E : Type} (Error : E -> option string).

(** What a job's function may report. *)
Inductive report :=
| RBegin | RDetail (t : string) | RDone | RFail (err : option E) | RSet (st detail : string).

Definition do_report (e : @Engine E) (p : nat) (name : string) (r : report) : result stuck Engine :=
  match r with
  | RBegin => Begin e p name
  | RDetail t => SetDetail e p name t
  | RDone => Done e p name
  | RFail err => Fail_ Error e p name err
  | RSet st d => Set_ e p name st d
  end.

(** The engine, the goroutines that have not ended their jobs, and, for the
    theorems, the secrets each job was given, the job each channel follows, what
    its reader has taken and whether it was cancelled. *)
Record sys := MkSys {
  eng : @Engine E; going : gset nat; secrets : gmap nat (list string); follows : gmap nat nat;
  seen : gmap nat (list Job); stopped : gset nat
}.

Definition on (s : sys) (e : Engine) : sys := MkSys e (going s) (secrets s) (follows s) (seen s) (stopped s).

Inductive sys_step : sys -> sys -> Prop :=
| s_start s spec fn draws now1 now2 e p v :
    Start (eng s) spec fn draws now1 now2 = Some (e, Ok (p, v)) ->
    sys_step s (MkSys e ({[p]} ∪ going s) (<[p := Secrets spec]> (secrets s)) (follows s) (seen s) (stopped s))
| s_refused s spec fn draws now1 now2 e err :
    Start (eng s) spec fn draws now1 now2 = Some (e, Err err) -> sys_step s (on s e)
| s_report s p name r e : do_report (eng s) p name r = Ok e -> sys_step s (on s e)
| s_finish s p o now1 now2 e :
    p ∈ going s -> finish Error (eng s) p o now1 now2 = Ok e ->
    sys_step s (MkSys e (going s ∖ {[p]}) (secrets s) (follows s) (seen s) (stopped s))
| s_done s p : p ∉ going s -> sys_step s (on s (wg_done (eng s) p))
| s_get s id now : sys_step s (on s (Get (eng s) id now).1)
| s_list s now : sys_step s (on s (List_ (eng s) now).1)
| s_subscribe s id now e ch p :
    Subscribe (eng s) id now = Ok (e, Some (ch, p)) ->
    sys_step s (MkSys e (going s) (secrets s) (<[ch := p]> (follows s)) (<[ch := []]> (seen s)) (stopped s))
| s_unknown s id now e : Subscribe (eng s) id now = Ok (e, None) -> sys_step s (on s e)
| s_cancel s p ch e :
    follows s !! ch = Some p -> unsubscribe (eng s) p ch = Ok e ->
    sys_step s (MkSys e (going s) (secrets s) (follows s) (seen s) ({[ch]} ∪ stopped s))
| s_receive s ch e v :
    receive (eng s) ch = (e, Got v) ->
    sys_step s (MkSys e (going s) (secrets s) (follows s) (alter (fun vs => vs ++ [v]) ch (seen s)) (stopped s))
| s_close s : sys_step s (on s (Close (eng s))).

Definition start_sys (c : Config E) : sys := MkSys (New c) ∅ ∅ ∅ ∅ ∅.
Definition sys_run (c : Config E) : sys -> Prop := rtc sys_step (start_sys c).

(** ** The invariant *)

Definition is_over (j : job) : bool := negb (bool_decide (J_State (view j) = StateRunning)).

Record job_ok (s : sys) (p : nat) (j : job) (ss : list string) : Prop := {
  jo_hide : is_over j = false -> j_hide j = newHider ss;
  jo_safe : safe ss (view j);
  jo_subs : forall ch, ch ∈ subs j <-> follows s !! ch = Some p /\ ch ∉ stopped s /\ is_over j = false;
  jo_going : p ∈ going s <-> is_over j = false
}.

(** What a channel holds, and what its reader has had. *)
Definition chan_ok (s : sys) (ch : nat) (j : job) (c : chan) (vs : list Job) : Prop :=
  if decide (ch ∈ stopped s) then ch_closed c = true
  else ch_closed c = is_over j /\ (buf c = Some (view j) \/ buf c = None /\ last vs = Some (view j)).

Record follow_ok (s : sys) (ch p : nat) (j : job) (ss : list string) (c : chan) (vs : list Job) : Prop := {
  fo_job : jobs (eng s) !! p = Some j;
  fo_secrets : secrets s !! p = Some ss;
  fo_chan : chans (eng s) !! ch = Some c;
  fo_seen : seen s !! ch = Some vs;
  fo_ok : chan_ok s ch j c vs;
  fo_buf : forall v, buf c = Some v -> safe ss v;
  fo_safe : Forall (safe ss) vs
}.

Record core (s : sys) : Prop := {
  c_known : known_ok (eng s);
  c_keep : 0 < Keep (cfg (eng s));
  c_run : forall p, is_running (eng s) p = true -> p ∈ order (eng s);
  c_node : forall n p, onNode (eng s) !! n = Some p <->
    n <> 0 /\ exists j, jobs (eng s) !! p = Some j /\ J_NodeID (view j) = n /\ is_over j = false;
  c_job : forall p j, jobs (eng s) !! p = Some j -> exists ss, secrets s !! p = Some ss /\ job_ok s p j ss;
  c_follow : forall ch p, follows s !! ch = Some p -> exists j ss c vs, follow_ok s ch p j ss c vs;
  c_chans : forall ch, is_Some (chans (eng s) !! ch) -> is_Some (follows s !! ch);
  c_stopped : forall ch, ch ∈ stopped s -> is_Some (follows s !! ch);
  c_going : forall p, p ∈ going s -> is_Some (jobs (eng s) !! p)
}.

Definition sys_inv (s : sys) : Prop := core s /\ fin_count (eng s) <= Keep (cfg (eng s)).

Lemma start_inv c : sys_inv (start_sys c).
Proof.
  split.
  - split; cbn; try done.
    + split; cbn; [constructor|by intros ? ?%elem_of_nil|]. intros id p. split; [done|].
      by intros [?%elem_of_nil _].
    + destruct (Keep c <=? 0) eqn:Ek; [done|]. lia.
    + intros n p. split; [done|]. intros (_ & j & ? & _). done.
    + by intros ch [? ?].
  - unfold fin_count. cbn. destruct (Keep c <=? 0) eqn:Ek; [done|]. lia.
Qed.

Lemma is_running_over (e : @Engine E) p j : jobs e !! p = Some j -> is_running e p = negb (is_over j).
Proof. intros Hj. unfold is_running, is_over. rewrite Hj. by rewrite negb_involutive. Qed.

(** Pruning keeps everything but what it forgets. *)
Lemma prune_inv s now : core s -> sys_inv (on s (prune (eng s) now)).
Proof.
  intros [Hk HK Hr Hn Hj Hf Hc Hst Hgo].
  destruct (prune_spec (eng s) now Hk ltac:(lia)) as (Hk' & _ & Hrun & Hcount & _).
  destruct (prune_frame (eng s) now) as (ids & o & He).
  assert (cfg (prune (eng s) now) = cfg (eng s)) as Hcfg by by rewrite He.
  split; [|cbn; by rewrite Hcfg].
  split; cbn [eng on going secrets follows seen stopped].
  - done.
  - by rewrite Hcfg.
  - intros p Hp. assert (is_running (eng s) p = true) as Hp' by (rewrite He in Hp; exact Hp). auto.
  - by rewrite He.
  - rewrite He. intros p j Hpj. destruct (Hj p j Hpj) as (ss & ? & []). by exists ss.
  - intros ch p Hch. destruct (Hf ch p Hch) as (j & ss & c & vs & []). exists j, ss, c, vs.
    split; cbn; rewrite ?He; done.
  - by rewrite He.
  - done.
  - by rewrite He.
Qed.

(** A running job that gets a new view, published: whether it goes on or ends,
    the invariant holds, but for the number of finished jobs. *)
Definition with_job (e : @Engine E) (p : nat) (j : job) (n : Z) (on_ : gmap Z nat) : Engine :=
  MkEngine (cfg e) (cancelled e) (wg e) (closed e) n (byID e) (order e) on_ (<[p := j]> (jobs e)) (chans e).

(** The system after it: a job that is over has no goroutine to come. *)
Definition moved (s : sys) (p : nat) (over : bool) (e' : @Engine E) : sys :=
  MkSys e' (if over then going s ∖ {[p]} else going s) (secrets s) (follows s) (seen s) (stopped s).

(** What a published change leaves. *)
Definition after (j : job) : job := if is_over j then no_subs j else j.

Record published (s : sys) (p : nat) (j j' : job) (e' : @Engine E) : Prop := {
  pb_jobs : jobs e' = <[p := after j']> (jobs (eng s));
  pb_chans : forall ch, chans e' !! ch =
    if decide (ch ∈ subs j) then Some (MkChan (Some (view j')) (is_over j')) else chans (eng s) !! ch;
  pb_node : onNode e' = if is_over j' then delete (J_NodeID (view j)) (onNode (eng s)) else onNode (eng s);
  pb_cfg : cfg e' = cfg (eng s);
  pb_order : order e' = order (eng s);
  pb_ids : byID e' = byID (eng s)
}.

(** The new job keeps what identifies it, and shows no secret. *)
Record successor (ss : list string) (j j' : job) : Prop := {
  su_subs : subs j' = subs j;
  su_id : J_ID (view j') = J_ID (view j);
  su_node : J_NodeID (view j') = J_NodeID (view j);
  su_hide : is_over j' = false -> j_hide j' = j_hide j;
  su_safe : safe ss (view j')
}.

Lemma after_view j : view (after j) = view j /\ is_over (after j) = is_over j /\ j_hide (after j) = j_hide j.
Proof. unfold after. destruct (is_over j) eqn:Eo; [|done]. by split_and!. Qed.

Lemma publish_published s p j ss j' n :
  core s -> jobs (eng s) !! p = Some j -> is_over j = false -> secrets s !! p = Some ss -> successor ss j j' ->
  exists e', publish (with_job (eng s) p j' n
      (if is_over j' then delete (J_NodeID (view j)) (onNode (eng s)) else onNode (eng s))) p = Ok e' /\
    published s p j j' e'.
Proof.
  intros Hcore Hp Ho Hss [Hsubs _ _ _ _]. destruct (c_job _ Hcore p j Hp) as (ss' & Hss' & Hok).
  set (on_ := if is_over j' then _ else _).
  destruct (publish_spec (with_job (eng s) p j' n on_) p j') as (cs & Hpub & Hcs).
  { cbn. apply lookup_insert_eq. }
  { intros ch Hch. rewrite Hsubs in Hch. apply (jo_subs _ _ _ _ Hok) in Hch as (Hch & Hst & _).
    destruct (c_follow _ Hcore ch p Hch) as (j1 & ss1 & c & vs & [F1 _ F3 _ F5 _ _]). exists c. split; [done|].
    unfold chan_ok in F5. rewrite decide_False in F5 by done. destruct F5. congruence. }
  fold (is_over j') in Hpub, Hcs. eexists. split; [exact Hpub|]. rewrite Hsubs in Hcs.
  split; unfold after; destruct (is_over j'); try done. cbn. by rewrite insert_insert_eq.
Qed.

Section published.
Context (s : sys) (p : nat) (j j' : job) (ss : list string) (e' : @Engine E).
Context (Hcore : core s) (Hp : jobs (eng s) !! p = Some j) (Ho : is_over j = false) (Hss : secrets s !! p = Some ss).
Context (Hsu : successor ss j j') (Hpb : published s p j j' e').

Lemma published_other q j0 : q <> p -> jobs e' !! q = Some j0 <-> jobs (eng s) !! q = Some j0.
Proof. intros Hq. by rewrite (pb_jobs _ _ _ _ _ Hpb), lookup_insert_ne by done. Qed.

Lemma published_this : jobs e' !! p = Some (after j').
Proof. rewrite (pb_jobs _ _ _ _ _ Hpb). apply lookup_insert_eq. Qed.

Lemma published_running q : q <> p -> is_running e' q = is_running (eng s) q.
Proof. intros Hq. unfold is_running. by rewrite (pb_jobs _ _ _ _ _ Hpb), lookup_insert_ne by done. Qed.

Lemma published_known : known_ok e'.
Proof.
  destruct Hpb as [Hjobs _ _ _ Hord Hids]. pose proof (c_known _ Hcore) as Hk.
  split; rewrite ?Hord, ?Hids.
  - apply Hk.
  - intros q Hq. rewrite Hjobs. destruct (decide (q = p)) as [->|]; [by rewrite lookup_insert_eq|].
    rewrite lookup_insert_ne by done. by apply (k_heap _ Hk).
  - intros id q. assert (id_of e' q = id_of (eng s) q) as ->; [|apply (k_ids _ Hk)].
    unfold id_of. rewrite Hjobs. destruct (decide (q = p)) as [->|Hq]; [|by rewrite lookup_insert_ne].
    rewrite lookup_insert_eq, Hp, (proj1 (after_view j')). apply Hsu.
Qed.

Lemma published_node n q :
  onNode e' !! n = Some q <->
  n <> 0 /\ exists j0, jobs e' !! q = Some j0 /\ J_NodeID (view j0) = n /\ is_over j0 = false.
Proof.
  pose proof (c_node _ Hcore) as Hn. destruct (after_view j') as (Hv & Hov & _). destruct Hsu as [_ _ Hnode _ _].
  rewrite (pb_node _ _ _ _ _ Hpb). destruct (is_over j') eqn:Eo.
  - rewrite lookup_delete_Some, Hn. split.
    + intros (Hne & Hz & j0 & Hq & H1 & H2). split; [done|]. exists j0.
      rewrite published_other; [done|]. intros ->. congruence.
    + intros (Hz & j0 & Hq & H1 & H2). assert (q <> p) as Hqp.
      { intros ->. rewrite published_this in Hq. congruence. }
      apply published_other in Hq; [|done]. split; [|by eauto]. intros He'. apply Hqp.
      assert (onNode (eng s) !! n = Some p) as F1 by (apply Hn; eauto).
      assert (onNode (eng s) !! n = Some q) as F2 by (apply Hn; eauto). congruence.
  - rewrite Hn. split; intros (Hz & j0 & Hq & H1 & H2); (split; [done|]); destruct (decide (q = p)) as [->|Hqp].
    + exists (after j'). rewrite published_this. split; [done|]. rewrite Hv. split; congruence.
    + exists j0. by rewrite published_other.
    + rewrite published_this in Hq. exists j. split; [done|]. split; congruence.
    + exists j0. by apply published_other in Hq.
Qed.

Lemma published_job q j0 : jobs e' !! q = Some j0 -> exists ss0, secrets s !! q = Some ss0 /\ job_ok (moved s p (is_over j') e') q j0 ss0.
Proof.
  intros Hq. destruct (decide (q = p)) as [->|Hne].
  - rewrite published_this in Hq. injection Hq as <-. exists ss. split; [done|].
    destruct (c_job _ Hcore p j Hp) as (ss' & Hss' & [H1 H2 H3 H4]). assert (ss' = ss) as -> by congruence.
    destruct (after_view j') as (Hv & Hov & Hh). destruct Hsu as [Hsubs _ _ Hhide Hsafe].
    split; cbn [moved follows stopped going]; rewrite ?Hov, ?Hh, ?Hv; try done.
    + intros Hov'. rewrite Hhide by done. auto.
    + intros ch. unfold after. destruct (is_over j') eqn:Eo; cbn [no_subs subs]; [set_solver|]. by rewrite Hsubs, H3, Ho.
    + destruct (is_over j') eqn:Eo; [set_solver|]. by rewrite H4, Ho.
  - apply published_other in Hq; [|done]. destruct (c_job _ Hcore q j0 Hq) as (ss0 & ? & [H1 H2 H3 H4]).
    exists ss0. split; [done|]. split; try done. cbn [moved going]. rewrite <-H4. destruct (is_over j'); set_solver.
Qed.

Lemma published_follow ch q : follows s !! ch = Some q -> exists j0 ss0 c vs, follow_ok (moved s p (is_over j') e') ch q j0 ss0 c vs.
Proof.
  intros Hch. destruct (c_follow _ Hcore ch q Hch) as (j0 & ss0 & c & vs & [F1 F2 F3 F4 F5 F6 F7]).
  destruct (c_job _ Hcore p j Hp) as (ss' & Hss' & Hok). destruct (after_view j') as (Hv & Hov & _).
  destruct (decide (ch ∈ subs j)) as [Hi|Hi].
  - pose proof Hi as Hi'. apply (jo_subs _ _ _ _ Hok) in Hi' as (Hch' & Hst & _).
    rewrite Hch in Hch'. injection Hch' as ->. exists (after j'), ss, (MkChan (Some (view j')) (is_over j')), vs.
    split; cbn [moved eng secrets seen]; try done; try congruence.
    + apply published_this.
    + by rewrite (pb_chans _ _ _ _ _ Hpb), decide_True by done.
    + unfold chan_ok. cbn [moved stopped]. rewrite decide_False by done. rewrite Hov, Hv. cbn. auto.
    + intros v [= <-]. apply Hsu.
  - exists (if decide (q = p) then after j' else j0), ss0, c, vs.
    split; cbn [moved eng secrets seen]; try done.
    + destruct (decide (q = p)) as [->|]; [apply published_this|by apply published_other].
    + by rewrite (pb_chans _ _ _ _ _ Hpb), decide_False by done.
    + destruct (decide (q = p)) as [->|]; [|done]. unfold chan_ok in *. cbn [moved stopped].
      destruct (decide (ch ∈ stopped s)) as [|Hst]; [done|]. exfalso. by apply Hi, (jo_subs _ _ _ _ Hok).
Qed.

Lemma published_core : core (moved s p (is_over j') e').
Proof.
  split; cbn [moved eng secrets follows going stopped].
  - apply published_known.
  - rewrite (pb_cfg _ _ _ _ _ Hpb). apply Hcore.
  - intros q Hq. rewrite (pb_order _ _ _ _ _ Hpb). apply (c_run _ Hcore).
    destruct (decide (q = p)) as [->|Hne]; [by rewrite (is_running_over _ _ _ Hp), Ho|]. by rewrite <-published_running.
  - apply published_node.
  - apply published_job.
  - apply published_follow.
  - intros ch. rewrite (pb_chans _ _ _ _ _ Hpb). case_decide as Hi; [|apply (c_chans _ Hcore)]. intros _.
    destruct (c_job _ Hcore p j Hp) as (ss' & _ & Hok). apply (jo_subs _ _ _ _ Hok) in Hi as (-> & _). done.
  - apply (c_stopped _ Hcore).
  - intros q Hq. destruct (decide (q = p)) as [->|Hne]; [by rewrite published_this|].
    destruct (c_going _ Hcore q) as [j0 Hj0]; [destruct (is_over j'); set_solver|].
    exists j0. by apply published_other.
Qed.

(** A change that does not end the job leaves the count of the finished. *)
Lemma published_inv : is_over j' = false -> fin_count (eng s) <= Keep (cfg (eng s)) -> sys_inv (on s e').
Proof.
  intros Hov Hcount. pose proof published_core as Hc. rewrite Hov in Hc. split; [exact Hc|].
  cbn. rewrite (pb_cfg _ _ _ _ _ Hpb). unfold fin_count in *. rewrite (pb_order _ _ _ _ _ Hpb).
  rewrite (list_filter_iff _ (fun q => is_running (eng s) q = false)); [done|]. intros q.
  destruct (decide (q = p)) as [->|Hq]; [|by rewrite published_running].
  rewrite (is_running_over _ _ _ Hp), (is_running_over _ _ _ published_this), (proj1 (proj2 (after_view j'))).
  by rewrite Hov, Ho.
Qed.
End published.

(** ** The operations *)

(** Reports: a change of a step's text goes through the job's hider. *)
Definition careful (f : option (list string) -> Step -> Step) : Prop :=
  forall ss st, safe_text ss (Detail st) -> safe_text ss (Detail (f (newHider ss) st)).

Lemma change_inv s p name f :
  sys_inv s -> careful f -> exists e', change (eng s) p name f = Ok e' /\ sys_inv (on s e').
Proof.
  intros [Hcore Hcount] Hf. unfold change.
  assert (sys_inv (on s (eng s))) as Hsame by by destruct s.
  destruct (jobs (eng s) !! p) as [j|] eqn:Hp; [|by eexists].
  destruct (negb _) eqn:Ho; [by eexists|]. change (is_over j = false) in Ho.
  destruct (step _ _ _) as [l i] eqn:Es.
  destruct (i ≫= _) as [[k st]|] eqn:Ei; [|by eexists].
  apply bind_Some in Ei as (k' & -> & (st' & Hst & [= -> ->])%fmap_Some).
  destruct (c_job _ Hcore p j Hp) as (ss & Hss & Hok). pose proof (jo_hide _ _ _ _ Hok Ho) as Hh.
  set (j' := set_view j _).
  assert (successor ss j j') as Hsu.
  { pose proof (jo_safe _ _ _ _ Hok) as (S1 & S2 & S3)%safe_iff. split; try done.
    apply safe_iff. cbn. split; [|done]. intros t Ht.
    assert (forall u, u ∈ l -> safe_text ss (Detail u)) as Hl.
    { intros u Hu. destruct (step_details _ _ _ _ _ Es u Hu) as [| ->]; auto. }
    apply list_elem_of_lookup in Ht as [m Hm]. rewrite list_lookup_insert_Some in Hm.
    destruct Hm as [(-> & <- & _)|[_ Hm]]; [|by eapply Hl, list_elem_of_lookup_2].
    rewrite Hh. by eapply Hf, Hl, list_elem_of_lookup_2. }
  destruct (publish_published s p j ss j' (ended (eng s)) Hcore Hp Ho Hss Hsu) as (e' & Hpub & Hpb).
  assert (is_over j' = false) as Ho' by done. rewrite Ho' in Hpub.
  destruct (_ || _) eqn:Ec.
  { exists e'. split; [exact Hpub|]. by eapply published_inv. }
  apply orb_false_iff in Ec as [Hlen%negb_false_iff%bool_decide_eq_true Heq%bool_decide_eq_false].
  eexists. split; [done|]. apply dec_stable in Heq.
  assert (set_job (eng s) p j' = eng s) as ->; [|done].
  assert (l = Steps (view j)) as ->.
  { unfold step in Es. repeat (case_bool_decide || case_match); simplify_eq; try done.
    rewrite length_app in Hlen. cbn in Hlen. lia. }
  assert (j' = j) as ->.
  { subst j'. rewrite Heq, list_insert_id by done. by destruct j as [[] ? ? ? ?]. }
  destruct s as [[] ? ? ? ? ?]. unfold set_job. cbn in *. by rewrite insert_id.
Qed.

Lemma report_inv s p name r :
  sys_inv s -> exists e', do_report (eng s) p name r = Ok e' /\ sys_inv (on s e').
Proof.
  intros Hs. destruct r as [|t| |err|st d]; try by (apply change_inv; [done|]; intros ss st' H; cbn; auto).
  - apply change_inv; [done|]. intros ss st H. cbn. destruct err; auto.
  - cbn. unfold Set_. destruct (negb _); [exists (eng s); split; [done|by destruct s]|].
    apply change_inv; [done|]. intros ss st' H. cbn. auto.
Qed.

(** The end of a job. *)
Lemma end_view_safe (e : @Engine E) ss v err now : safe ss v -> safe ss (end_view Error e (newHider ss) v err now).
Proof.
  intros (S1 & S2 & S3)%safe_iff.
  assert (forall st, st ∈ end_step Error (newHider ss) err <$> Steps v -> safe_text ss (Detail st)) as Hst.
  { intros st (t & -> & Ht)%list_elem_of_fmap. unfold end_step. case_bool_decide; [|auto]. destruct err; cbn; auto. }
  apply safe_iff. unfold end_view. destruct err as [er|]; cbn.
  - split; [done|]. split; [done|]. intros i. apply cleanInfo_safe.
  - split; [|done]. intros st [_ ?]%list_elem_of_filter. auto.
Qed.

Lemma end_view_keeps (e : @Engine E) h v err now :
  J_ID (end_view Error e h v err now) = J_ID v /\ J_NodeID (end_view Error e h v err now) = J_NodeID v /\
  J_State (end_view Error e h v err now) <> StateRunning.
Proof. by destruct err. Qed.

Lemma finish_inv s p o now1 now2 :
  sys_inv s -> p ∈ going s ->
  exists e', finish Error (eng s) p o now1 now2 = Ok e' /\ sys_inv (moved s p true e').
Proof.
  intros [Hcore Hcount] Hg. unfold finish.
  destruct (jobs (eng s) !! p) as [j|] eqn:Hp.
  2:{ destruct (c_going _ Hcore p Hg) as [? ?]. congruence. }
  destruct (c_job _ Hcore p j Hp) as (ss & Hss & Hok). pose proof (proj1 (jo_going _ _ _ _ Hok) Hg) as Ho.
  pose proof (jo_hide _ _ _ _ Hok Ho) as Hh. rewrite Hh.
  set (v := end_view _ _ _ _ _ _). set (seq := wrapU _).
  destruct (end_view_keeps (eng s) (newHider ss) (view j) (call_err o) now1) as (Hid & Hnode & Hst). fold v in Hid, Hnode, Hst.
  set (j' := MkJobRec v None (subs j) now1 seq).
  assert (is_over j' = true) as Ho' by (unfold is_over; by rewrite bool_decide_false).
  assert (successor ss j j') as Hsu.
  { split; try done; [by rewrite Ho'|]. apply end_view_safe, Hok. }
  destruct (publish_published s p j ss j' seq Hcore Hp Ho Hss Hsu) as (e' & Hpub & Hpb). rewrite Ho' in Hpub.
  assert ((if negb (J_NodeID v =? 0) && bool_decide (onNode (eng s) !! J_NodeID v = Some p)
           then delete (J_NodeID v) (onNode (eng s)) else onNode (eng s)) =
          delete (J_NodeID (view j)) (onNode (eng s))) as ->.
  { rewrite Hnode. destruct (_ && _) eqn:Ec; [done|]. symmetry. apply delete_id.
    destruct (onNode (eng s) !! J_NodeID (view j)) as [q|] eqn:Eq; [|done].
    pose proof (proj1 (c_node _ Hcore _ _) Eq) as (Hz & _).
    assert (onNode (eng s) !! J_NodeID (view j) = Some p) as F by (apply (c_node _ Hcore); eauto).
    rewrite Eq in F. injection F as ->. rewrite bool_decide_true in Ec by done.
    rewrite (proj2 (Z.eqb_neq _ _)) in Ec by done. done. }
  unfold with_job in Hpub. rewrite Hpub. cbn [rbind]. eexists. split; [done|].
  apply (prune_inv (moved s p true e')). rewrite <-Ho'. by eapply published_core.
Qed.

(** What the invariant depends on. *)
Lemma core_ext s e' :
  cfg e' = cfg (eng s) -> byID e' = byID (eng s) -> order e' = order (eng s) -> onNode e' = onNode (eng s) ->
  jobs e' = jobs (eng s) -> chans e' = chans (eng s) -> sys_inv s -> sys_inv (on s e').
Proof.
  destruct s as [e g ss fo se st], e, e'. cbn. intros -> -> -> -> -> ->. intros [[[] ? ? ? Hj Hf ? ? ?] ?].
  split; [|done]. split; try done.
  - intros p j Hp. destruct (Hj p j Hp) as (ss0 & ? & []). by exists ss0.
  - intros ch p Hp. destruct (Hf ch p Hp) as (j & ss0 & c & vs & []). by exists j, ss0, c, vs.
Qed.

Lemma newID_fresh (e : @Engine E) draws id : newID e draws = Some (Ok id) -> byID e !! id = None.
Proof.
  induction draws as [|[b|] draws IH]; cbn; [done| |done]. destruct (byID e !! hexEncode b) eqn:Eb; [done|]. by intros [= <-].
Qed.

(** The engine with a new job in it, before it is pruned. *)
Definition with_new (e : @Engine E) (p : nat) (j : job) : Engine :=
  let v := view j in
  MkEngine (cfg e) (cancelled e) (wg e) (closed e) (ended e) (<[J_ID v := p]> (byID e)) (order e ++ [p])
    (if J_NodeID v =? 0 then onNode e else <[J_NodeID v := p]> (onNode e)) (<[p := j]> (jobs e)) (chans e).

Section new_job.
Context (s : sys) (p : nat) (j : job) (ss : list string).
Context (Hcore : core s) (Hp : jobs (eng s) !! p = None) (Hid : byID (eng s) !! J_ID (view j) = None).
Context (Hov : is_over j = false) (Hsubs : subs j = ∅) (Hhide : j_hide j = newHider ss) (Hsafe : safe ss (view j)).
Context (Hfree : J_NodeID (view j) = 0 \/ onNode (eng s) !! J_NodeID (view j) = None).

Definition with_new_sys : sys :=
  MkSys (with_new (eng s) p j) ({[p]} ∪ going s) (<[p := ss]> (secrets s)) (follows s) (seen s) (stopped s).

Lemma new_other q j0 : jobs (eng s) !! q = Some j0 -> q <> p.
Proof. intros Hq ->. congruence. Qed.

Lemma new_not_listed : p ∉ order (eng s).
Proof. intros Hin. destruct (k_heap _ (c_known _ Hcore) p Hin). congruence. Qed.

Lemma new_known : known_ok (with_new (eng s) p j).
Proof.
  destruct (c_known _ Hcore) as [H1 H2 H3]. pose proof new_not_listed as Hn.
  assert (forall q, q <> p -> id_of (with_new (eng s) p j) q = id_of (eng s) q) as Hidq
    by (intros q Hq; unfold id_of; cbn; by rewrite lookup_insert_ne).
  assert (id_of (with_new (eng s) p j) p = J_ID (view j)) as Hidp by (unfold id_of; cbn; by rewrite lookup_insert_eq).
  split; cbn.
  - apply NoDup_app. split; [done|]. split; [|apply NoDup_singleton].
    intros q Hq ->%list_elem_of_singleton. done.
  - intros q [Hq| ->%list_elem_of_singleton]%elem_of_app; [|by rewrite lookup_insert_eq].
    rewrite lookup_insert_ne by congruence. auto.
  - intros id q. rewrite elem_of_app, list_elem_of_singleton. destruct (decide (id = J_ID (view j))) as [->|Hne].
    + rewrite lookup_insert_eq. split.
      * intros [= <-]. auto.
      * intros [[Hq| ->] Hi]; [|done]. exfalso. rewrite Hidq in Hi by congruence.
        assert (byID (eng s) !! J_ID (view j) = Some q) by (apply H3; auto). congruence.
    + rewrite lookup_insert_ne by done. rewrite H3. split.
      * intros [Hq Hi]. rewrite Hidq by congruence. auto.
      * intros [[Hq| ->] Hi]; [|congruence]. rewrite Hidq in Hi by congruence. auto.
Qed.

Lemma new_node n q :
  onNode (with_new (eng s) p j) !! n = Some q <->
  n <> 0 /\ exists j0, <[p := j]> (jobs (eng s)) !! q = Some j0 /\ J_NodeID (view j0) = n /\ is_over j0 = false.
Proof.
  pose proof (c_node _ Hcore) as Hn.
  assert (onNode (eng s) !! n = Some q <-> n <> 0 /\ exists j0, q <> p /\ <[p := j]> (jobs (eng s)) !! q = Some j0 /\
    J_NodeID (view j0) = n /\ is_over j0 = false) as Hold.
  { rewrite Hn. split; intros (Hz & j0 & H); (split; [done|]); exists j0.
    - destruct H as (Hq & ?). pose proof (new_other q j0 Hq). by rewrite lookup_insert_ne.
    - destruct H as (Hqp & Hq & ?). by rewrite lookup_insert_ne in Hq. }
  cbn. destruct (J_NodeID (view j) =? 0) eqn:Ez.
  - apply Z.eqb_eq in Ez. rewrite Hold. split; intros (Hz & j0 & H); (split; [done|]); exists j0; [naive_solver|].
    split; [|done]. intros ->. destruct H as (Hq & ? & _). rewrite lookup_insert_eq in Hq. congruence.
  - apply Z.eqb_neq in Ez. destruct Hfree as [|Hfr]; [done|]. destruct (decide (n = J_NodeID (view j))) as [->|Hne].
    + rewrite lookup_insert_eq. split.
      * intros [= <-]. split; [done|]. exists j. by rewrite lookup_insert_eq.
      * intros (_ & j0 & Hq & H1 & H2). f_equal. destruct (decide (q = p)) as [->|Hqp]; [done|]. exfalso.
        enough (onNode (eng s) !! J_NodeID (view j) = Some q) by congruence. apply Hold. split; [done|]. by exists j0.
    + rewrite lookup_insert_ne by done. rewrite Hold. split; intros (Hz & j0 & H); (split; [done|]); exists j0; [naive_solver|].
      split; [|done]. intros ->. destruct H as (Hq & ? & _). rewrite lookup_insert_eq in Hq. congruence.
Qed.

Lemma new_core : core with_new_sys.
Proof.
  split; cbn [with_new_sys eng going secrets follows seen stopped].
  - apply new_known.
  - apply Hcore.
  - intros q Hq. cbn. apply elem_of_app. destruct (decide (q = p)) as [->|Hne]; [right; by apply list_elem_of_singleton|].
    left. apply (c_run _ Hcore). unfold is_running in *. cbn in Hq. by rewrite lookup_insert_ne in Hq.
  - intros n q. apply new_node.
  - cbn. intros q j0 Hq. destruct (decide (q = p)) as [->|Hne].
    + rewrite lookup_insert_eq in Hq. injection Hq as <-. exists ss. rewrite lookup_insert_eq. split; [done|].
      split; [auto|done| |set_solver]. intros ch. rewrite Hsubs. cbn. split; [set_solver|]. intros (Hf & _).
      destruct (c_follow _ Hcore ch p Hf) as (? & ? & ? & ? & []). congruence.
    + rewrite lookup_insert_ne in Hq by done. destruct (c_job _ Hcore q j0 Hq) as (ss0 & ? & [H1 H2 H3 H4]).
      exists ss0. rewrite lookup_insert_ne by done. split; [done|]. split; [done|done|done|]. cbn [going with_new_sys]. rewrite <-H4. set_solver.
  - intros ch q Hf. destruct (c_follow _ Hcore ch q Hf) as (j0 & ss0 & c & vs & [F1 F2 F3 F4 F5 F6 F7]).
    pose proof (new_other q j0 F1). exists j0, ss0, c, vs. by split; cbn; rewrite ?lookup_insert_ne by done.
  - apply (c_chans _ Hcore).
  - apply (c_stopped _ Hcore).
  - cbn. intros q Hq. destruct (decide (q = p)) as [->|Hne]; [by rewrite lookup_insert_eq|].
    rewrite lookup_insert_ne by done. apply (c_going _ Hcore). set_solver.
Qed.
End new_job.

Lemma start_step_inv s spec fn draws now1 now2 e p v :
  sys_inv s -> Start (eng s) spec fn draws now1 now2 = Some (e, Ok (p, v)) ->
  sys_inv (MkSys e ({[p]} ∪ going s) (<[p := Secrets spec]> (secrets s)) (follows s) (seen s) (stopped s)).
Proof.
  intros [Hcore _] Hst. unfold Start in Hst.
  destruct (negb (bool_decide _)); [done|]. destruct (negb fn); [done|]. destruct (closed (eng s)) eqn:Ecl; [done|].
  destruct (if Sp_NodeID spec =? 0 then None else onNode (eng s) !! Sp_NodeID spec) eqn:En; [done|].
  destruct (newID (eng s) draws) as [[id|]|] eqn:Eid; [|done|done].
  set (v0 := MkJob id _ _ _ _ _ _ _ _ _ _ _) in Hst. set (j := MkJobRec v0 _ _ _ _) in Hst.
  set (q := fresh (dom (jobs (eng s)))) in Hst. injection Hst as <- <- _.
  assert (core (with_new_sys s q j (Secrets spec))) as Hn.
  { apply new_core; try done.
    - apply not_elem_of_dom. apply is_fresh.
    - by apply newID_fresh in Eid.
    - apply safe_iff. cbn. split; [|by split]. intros st Hst. rewrite (plan_details _ _ _ Hst). done.
    - cbn. destruct (Sp_NodeID spec =? 0) eqn:Ez; [left; by apply Z.eqb_eq|by right]. }
  apply (prune_inv _ now2) in Hn. unfold with_new_sys, with_new in Hn. cbn [eng view j] in Hn. rewrite Ecl in Hn.
  refine (core_ext _ _ _ _ _ _ _ _ Hn); reflexivity.
Qed.

Lemma start_refused s spec fn draws now1 now2 e err :
  Start (eng s) spec fn draws now1 now2 = Some (e, Err err) -> e = eng s.
Proof. unfold Start. intros H. repeat case_match; simplify_eq; done. Qed.

(** A job whose followers change, and nothing the page sees. *)
Record refollowed (s : sys) (p : nat) (j j' : job) (cs : gmap nat chan) (s' : sys) : Prop := {
  rf_eng : eng s' = set_job (set_chans (eng s) cs) p j';
  rf_going : going s' = going s;
  rf_secrets : secrets s' = secrets s;
  rf_view : view j' = view j;
  rf_hide : j_hide j' = j_hide j
}.

Lemma refollowed_inv s p j j' cs s' :
  sys_inv s -> jobs (eng s) !! p = Some j -> refollowed s p j j' cs s' ->
  (forall q jq ch, <[p := j']> (jobs (eng s)) !! q = Some jq ->
     ch ∈ subs jq <-> follows s' !! ch = Some q /\ ch ∉ stopped s' /\ is_over jq = false) ->
  (forall ch q, follows s' !! ch = Some q -> exists jq ss c vs, follow_ok s' ch q jq ss c vs) ->
  (forall ch, is_Some (cs !! ch) -> is_Some (follows s' !! ch)) ->
  (forall ch, ch ∈ stopped s' -> is_Some (follows s' !! ch)) ->
  sys_inv s'.
Proof.
  intros [Hcore Hcount] Hp [He Hg Hs Hv Hh] Hsubs Hfol Hch Hst.
  assert (is_over j' = is_over j) as Ho by (unfold is_over; by rewrite Hv).
  assert (forall q jq, jobs (eng s') !! q = Some jq -> exists j0, jobs (eng s) !! q = Some j0 /\ view jq = view j0 /\
    j_hide jq = j_hide j0 /\ is_over jq = is_over j0) as Hold.
  { intros q jq Hq. rewrite He in Hq. cbn in Hq. destruct (decide (q = p)) as [->|Hne].
    - rewrite lookup_insert_eq in Hq. injection Hq as <-. by exists j.
    - rewrite lookup_insert_ne in Hq by done. by exists jq. }
  assert (forall q, snapshot (eng s') q = snapshot (eng s) q) as Hsnap.
  { intros q. unfold snapshot. rewrite He. cbn. destruct (decide (q = p)) as [->|Hne]; [|by rewrite lookup_insert_ne].
    rewrite lookup_insert_eq, Hp. cbn. congruence. }
  assert (forall q, is_running (eng s') q = is_running (eng s) q /\ id_of (eng s') q = id_of (eng s) q) as Hsame.
  { intros q. specialize (Hsnap q). unfold snapshot, is_running, id_of in *.
    destruct (jobs (eng s') !! q), (jobs (eng s) !! q); try done. injection Hsnap as ->. done. }
  split.
  - split.
    + destruct (c_known _ Hcore) as [K1 K2 K3]. split.
      * by rewrite He.
      * intros q Hq. rewrite He in Hq |- *. cbn in *. destruct (decide (q = p)) as [->|]; [by rewrite lookup_insert_eq|].
        rewrite lookup_insert_ne by done. auto.
      * intros id q. rewrite (proj2 (Hsame q)). rewrite He. apply K3.
    + rewrite He. apply Hcore.
    + intros q. rewrite (proj1 (Hsame q)). rewrite He. apply Hcore.
    + intros n q. assert (onNode (eng s') = onNode (eng s)) as -> by by rewrite He.
      rewrite (c_node _ Hcore). rewrite He. cbn. split; intros (Hz & j0 & Hq & H1 & H2); (split; [done|]).
      * destruct (decide (q = p)) as [->|]; [|exists j0; by rewrite lookup_insert_ne].
        exists j'. rewrite lookup_insert_eq, Hv, Ho. by simplify_eq.
      * destruct (decide (q = p)) as [->|]; [|exists j0; by rewrite lookup_insert_ne in Hq].
        rewrite lookup_insert_eq in Hq. injection Hq as <-. exists j. by rewrite <-Hv, <-Ho.
    + intros q jq Hq. destruct (Hold q jq Hq) as (j0 & Hq0 & V & H & O).
      destruct (c_job _ Hcore q j0 Hq0) as (ss & Hss & [H1 H2 H3 H4]). exists ss. rewrite Hs. split; [done|].
      split; rewrite ?O, ?V, ?H, ?Hg; try done. intros ch. rewrite <-O. apply Hsubs. rewrite He in Hq. done.
    + exact Hfol.
    + rewrite He. exact Hch.
    + exact Hst.
    + rewrite Hg. intros q Hq. destruct (c_going _ Hcore q Hq) as [j0 Hj0]. rewrite He. cbn.
      destruct (decide (q = p)) as [->|]; [by rewrite lookup_insert_eq|]. by rewrite lookup_insert_ne.
  - assert (fin_count (eng s') = fin_count (eng s)) as ->; [|by rewrite He].
    unfold fin_count. assert (order (eng s') = order (eng s)) as -> by by rewrite He.
    f_equal. f_equal. apply list_filter_iff. intros q. by rewrite (proj1 (Hsame q)).
Qed.

(** Following a job. *)
Definition followed (s : sys) (e : @Engine E) (ch p : nat) : sys :=
  MkSys e (going s) (secrets s) (<[ch := p]> (follows s)) (<[ch := []]> (seen s)) (stopped s).

Lemma follow_inv s p j ch :
  sys_inv s -> jobs (eng s) !! p = Some j -> chans (eng s) !! ch = None ->
  sys_inv (followed s (set_job (set_chans (eng s) (<[ch := MkChan (Some (view j)) (is_over j)]> (chans (eng s)))) p
    (if is_over j then j else add_sub j ch)) ch p).
Proof.
  intros Hs Hp Hch. pose proof (proj1 Hs) as Hcore.
  destruct (c_job _ Hcore p j Hp) as (ss & Hss & Hok).
  assert (follows s !! ch = None) as Hfn.
  { destruct (follows s !! ch) as [q|] eqn:Eq; [|done]. destruct (c_follow _ Hcore ch q Eq) as (? & ? & ? & ? & []). congruence. }
  assert (ch ∉ stopped s) as Hsn by (intros [? ?]%(c_stopped _ Hcore); congruence).
  set (j' := if is_over j then j else add_sub j ch).
  assert (view j' = view j /\ is_over j' = is_over j /\ j_hide j' = j_hide j) as (Hv & Ho & Hh)
    by (subst j'; destruct (is_over j) eqn:Eo; done).
  eapply (refollowed_inv s p j j'); [exact Hs|exact Hp|by split|..]; cbn [followed follows stopped eng seen secrets].
  - intros q jq c Hq. destruct (decide (q = p)) as [->|Hne].
    + rewrite lookup_insert_eq in Hq. injection Hq as <-. pose proof (jo_subs _ _ _ _ Hok c) as Hc. rewrite Ho.
      destruct (decide (c = ch)) as [->|Hcn].
      * rewrite lookup_insert_eq. subst j'. destruct (is_over j); cbn; [naive_solver|set_solver].
      * rewrite lookup_insert_ne by done. rewrite <-Hc. subst j'. destruct (is_over j); [done|cbn; set_solver].
    + rewrite lookup_insert_ne in Hq by done. destruct (c_job _ Hcore q jq Hq) as (ss0 & _ & Hok0).
      rewrite (jo_subs _ _ _ _ Hok0 c). destruct (decide (c = ch)) as [->|]; [|by rewrite lookup_insert_ne].
      rewrite lookup_insert_eq, Hfn. naive_solver.
  - intros c q Hf. destruct (decide (c = ch)) as [->|Hcn].
    + rewrite lookup_insert_eq in Hf. injection Hf as <-. exists j', ss, (MkChan (Some (view j)) (is_over j)), [].
      split; cbn; rewrite ?lookup_insert_eq; try done; [|intros v [= <-]; apply Hok].
      unfold chan_ok. cbn. rewrite decide_False by done. rewrite Hv, Ho. auto.
    + rewrite lookup_insert_ne in Hf by done. destruct (c_follow _ Hcore c q Hf) as (j0 & ss0 & c0 & vs & []).
      exists (if decide (q = p) then j' else j0), ss0, c0, vs. split; cbn; rewrite ?(lookup_insert_ne _ ch c) by done; try done.
      * destruct (decide (q = p)) as [->|]; [by rewrite lookup_insert_eq|by rewrite lookup_insert_ne].
      * destruct (decide (q = p)) as [->|]; [|done]. unfold chan_ok in *. simplify_eq. by rewrite Hv, Ho.
  - intros c. destruct (decide (c = ch)) as [->|]; [by rewrite !lookup_insert_eq|]. rewrite !lookup_insert_ne by done.
    apply (c_chans _ Hcore).
  - intros c Hc. rewrite lookup_insert_ne by (by intros ->). by apply (c_stopped _ Hcore).
Qed.

Lemma subscribe_inv s id now :
  sys_inv s ->
  exists e r, Subscribe (eng s) id now = Ok (e, r) /\
    sys_inv (match r with Some (ch, p) => followed s e ch p | None => on s e end).
Proof.
  intros [Hcore _]. pose proof (prune_inv s now Hcore) as Hs. unfold Subscribe. cbn zeta.
  destruct (byID (prune (eng s) now) !! id) as [p|] eqn:Ep; [|by eexists _, None].
  destruct (jobs (prune (eng s) now) !! p) as [j|] eqn:Ej; [|by eexists _, None].
  set (ch := fresh (dom (chans (prune (eng s) now)))).
  assert (chans (prune (eng s) now) !! ch = None) as Hch by (apply not_elem_of_dom, is_fresh).
  pose proof (follow_inv (on s (prune (eng s) now)) p j ch Hs Ej Hch) as Hf. cbn [on eng] in Hf.
  cbn [send ch_closed buf rbind]. fold (is_over j). destruct (is_over j) eqn:Eo; cbn [close rbind].
  - eexists _, (Some (ch, p)). split; [done|]. cbn. unfold set_job in Hf. cbn in Hf. rewrite insert_id in Hf by done. exact Hf.
  - eexists _, (Some (ch, p)). split; [done|]. exact Hf.
Qed.

(** Cancelling. *)
Definition cancelled_ch (s : sys) (e : @Engine E) (ch : nat) : sys :=
  MkSys e (going s) (secrets s) (follows s) (seen s) ({[ch]} ∪ stopped s).

Definition unfollow (j : job) (ch : nat) : job :=
  MkJobRec (view j) (j_hide j) (subs j ∖ {[ch]}) (finished j) (endSeq j).

Lemma unfollow_inv s p j ss ch c vs :
  sys_inv s -> follows s !! ch = Some p -> follow_ok s ch p j ss c vs ->
  sys_inv (cancelled_ch s
    (set_job (set_chans (eng s) (<[ch := MkChan (buf c) true]> (chans (eng s)))) p (unfollow j ch)) ch).
Proof.
  intros Hs Hf [F1 F2 F3 F4 F5 F6 F7]. pose proof (proj1 Hs) as Hcore. set (j' := unfollow j ch).
  destruct (c_job _ Hcore p j F1) as (ss' & Hss & Hok).
  eapply (refollowed_inv s p j j'); [exact Hs|exact F1|by split|..]; cbn [cancelled_ch follows stopped eng seen secrets].
  - intros q jq d Hq. destruct (decide (q = p)) as [->|Hne].
    + rewrite lookup_insert_eq in Hq. injection Hq as <-. pose proof (jo_subs _ _ _ _ Hok d).
      change (is_over j') with (is_over j). change (subs j') with (subs j ∖ {[ch]}). set_solver.
    + rewrite lookup_insert_ne in Hq by done. destruct (c_job _ Hcore q jq Hq) as (ss0 & _ & Hok0).
      rewrite (jo_subs _ _ _ _ Hok0 d). assert (follows s !! d = Some q -> d <> ch) by congruence. set_solver.
  - intros d q Hd. destruct (decide (d = ch)) as [->|Hdn].
    + assert (q = p) as -> by congruence. exists j', ss, (MkChan (buf c) true), vs.
      split; cbn [cancelled_ch eng secrets seen set_job set_chans jobs chans buf]; rewrite ?lookup_insert_eq; try done.
      unfold chan_ok. cbn [cancelled_ch stopped]. by rewrite decide_True by set_solver.
    + destruct (c_follow _ Hcore d q Hd) as (j0 & ss0 & c0 & vs0 & []).
      exists (if decide (q = p) then j' else j0), ss0, c0, vs0.
      split; cbn [cancelled_ch eng secrets seen set_job set_chans jobs chans]; rewrite ?(lookup_insert_ne (chans _)) by done; try done.
      * destruct (decide (q = p)) as [->|]; [by rewrite lookup_insert_eq|by rewrite lookup_insert_ne].
      * assert (is_over (if decide (q = p) then j' else j0) = is_over j0 /\
          view (if decide (q = p) then j' else j0) = view j0) as [E1 E2]
          by (destruct (decide (q = p)) as [->|]; [by simplify_eq|done]).
        unfold chan_ok in *. cbn [cancelled_ch stopped]. rewrite E1, E2.
        destruct (decide (d ∈ stopped s)); [rewrite decide_True by set_solver|rewrite decide_False by set_solver]; done.
  - intros d. destruct (decide (d = ch)) as [->|]; [by rewrite Hf|]. rewrite lookup_insert_ne by done.
    apply (c_chans _ Hcore).
  - intros d [->%elem_of_singleton|Hd]%elem_of_union; [by rewrite Hf|]. by apply (c_stopped _ Hcore).
Qed.

Lemma cancel_inv s p ch :
  sys_inv s -> follows s !! ch = Some p ->
  exists e, unsubscribe (eng s) p ch = Ok e /\ sys_inv (cancelled_ch s e ch).
Proof.
  intros Hs Hf. pose proof (proj1 Hs) as Hcore.
  destruct (c_follow _ Hcore ch p Hf) as (j & ss & c & vs & Hfo).
  pose proof (unfollow_inv s p j ss ch c vs Hs Hf Hfo) as Hinv. destruct Hfo as [F1 F2 F3 F4 F5 F6 F7].
  destruct (c_job _ Hcore p j F1) as (ss' & Hss & Hok). pose proof (jo_subs _ _ _ _ Hok ch) as Hsub.
  unfold unsubscribe. rewrite F1. case_bool_decide as Hin.
  - apply Hsub in Hin as (_ & Hst & Ho). unfold chan_ok in F5. rewrite decide_False in F5 by done. destruct F5 as [Hcl _].
    unfold close_one. rewrite F3. cbn. unfold close. rewrite Hcl, Ho. cbn. eexists. split; [done|]. exact Hinv.
  - exists (eng s). split; [done|].
    assert (ch_closed c = true) as Hcl.
    { unfold chan_ok in F5. destruct (decide (ch ∈ stopped s)); [done|]. destruct F5 as [-> _].
      destruct (is_over j) eqn:Eo; [done|]. exfalso. apply Hin, Hsub. done. }
    assert (unfollow j ch = j) as Ej.
    { unfold unfollow. assert (subs j ∖ {[ch]} = subs j) as -> by set_solver. by destruct j. }
    rewrite Ej, (insert_id (chans (eng s))) in Hinv by (rewrite F3; destruct c; cbn in *; congruence).
    destruct s as [[] ? ? ? ? ?]. unfold set_job, set_chans in Hinv. cbn in *. by rewrite insert_id in Hinv.
Qed.

(** Taking a value. *)
Lemma receive_inv s ch e v :
  sys_inv s -> receive (eng s) ch = (e, Got v) ->
  sys_inv (MkSys e (going s) (secrets s) (follows s) (alter (fun vs => vs ++ [v]) ch (seen s)) (stopped s)).
Proof.
  intros [Hcore Hcount] Hr. unfold receive in Hr. destruct (chans (eng s) !! ch) as [c|] eqn:Ec; [|done].
  destruct (buf c) as [v'|] eqn:Eb; [|by destruct (ch_closed c)]. injection Hr as <- ->. split; [|done].
  destruct Hcore as [Hk HK Hrun Hn Hj Hf Hc Hst Hgo].
  split; cbn [eng going secrets follows seen stopped]; try done.
  - destruct Hk. by split.
  - intros p j Hp. destruct (Hj p j Hp) as (ss & ? & []). by exists ss.
  - intros d q Hd. destruct (Hf d q Hd) as (j & ss & c0 & vs & [F1 F2 F3 F4 F5 F6 F7]).
    destruct (decide (d = ch)) as [->|Hne].
    + assert (c0 = c) as -> by congruence. exists j, ss, (drain c), (vs ++ [v]).
      split; cbn [eng secrets seen set_chans jobs chans]; rewrite ?lookup_insert_eq, ?lookup_alter_eq, ?F4; try done.
      * unfold chan_ok in *. cbn [stopped drain buf ch_closed]. case_decide; [done|]. destruct F5 as [Hcl Hb].
        split; [done|]. right. split; [done|]. rewrite last_snoc. destruct Hb as [Hb|[Hb _]]; congruence.
      * apply Forall_app. split; [done|]. by apply Forall_singleton, F6.
    + exists j, ss, c0, vs. split; cbn [eng secrets seen set_chans jobs chans]; try done.
      * by rewrite lookup_insert_ne.
      * by rewrite lookup_alter_ne.
  - cbn. intros d. destruct (decide (d = ch)) as [->|]; [intros _; apply Hc; by rewrite Ec|].
    rewrite lookup_insert_ne by done. apply Hc.
Qed.

Lemma sys_step_inv s s' : sys_inv s -> sys_step s s' -> sys_inv s'.
Proof.
  intros Hs Hstep. destruct Hstep as
    [s spec fn draws now1 now2 e p v H|s spec fn draws now1 now2 e err H|s p name r e H|s p o now1 now2 e Hg H|s p Hg
    |s id now|s now|s id now e ch p H|s id now e H|s p ch e Hf H|s ch e v H|s].
  - by eapply start_step_inv.
  - rewrite (start_refused _ _ _ _ _ _ _ _ H). by destruct s.
  - destruct (report_inv s p name r Hs) as (e' & He & ?). rewrite H in He. by simplify_eq.
  - destruct (finish_inv s p o now1 now2 Hs Hg) as (e' & He & ?). rewrite H in He. by simplify_eq.
  - by apply core_ext.
  - apply prune_inv, Hs.
  - apply prune_inv, Hs.
  - destruct (subscribe_inv s id now Hs) as (e' & r & He & ?). rewrite H in He. by simplify_eq.
  - destruct (subscribe_inv s id now Hs) as (e' & r & He & ?). rewrite H in He. by simplify_eq.
  - destruct (cancel_inv s p ch Hs Hf) as (e' & He & ?). rewrite H in He. by simplify_eq.
  - by eapply receive_inv.
  - by apply core_ext.
Qed.

Lemma run_inv c s : sys_run c s -> sys_inv s.
Proof.
  unfold sys_run. intros Hr. pose proof (start_inv c) as H0. revert Hr H0.
  generalize (start_sys c) as s0. induction 1 as [|x y z H1 _ IH]; [done|]. intros Hx. by eapply IH, sys_step_inv.
Qed.
End system.

(** The finished jobs of a list are those of the order it is made from. *)
Lemma finished_listed {E} (e : @Engine E) :
  (forall p, p ∈ order e -> is_Some (jobs e !! p)) ->
  (length (filter (fun v => J_State v <> StateRunning) (omap (snapshot e) (reverse (order e)))) <=
   length (filter (fun p => is_running e p = false) (order e)))%nat.
Proof.
  intros Hh. rewrite <-(reverse_Permutation (order e)) at 2.
  assert (forall p, p ∈ reverse (order e) -> is_Some (jobs e !! p)) as Hr by (intros p; rewrite elem_of_reverse; auto).
  induction (reverse (order e)) as [|p l IH]; [done|]. destruct (Hr p ltac:(left)) as [j Hj].
  assert (is_running e p = bool_decide (J_State (view j) = StateRunning)) as Hrun by (unfold is_running; by rewrite Hj).
  specialize (IH ltac:(intros q Hq; apply Hr; by right)).
  cbn. unfold snapshot at 1. rewrite Hj. cbn. rewrite Hrun.
  destruct (decide (J_State (view j) <> StateRunning)) as [Hs|Hs].
  - rewrite decide_True by (by apply bool_decide_eq_false_2). apply le_n_S, IH.
  - destruct (decide (bool_decide _ = false)); [apply le_S|]; exact IH.
Qed.

(** * Theorems *)

(** C24. A node has one job at a time, and a running job is never forgotten: in
    every state the engine can reach two running jobs are on different nodes,
    each is found by its id and by its node, a start on its node is refused with
    its id, and of the finished jobs the list holds at most as many as are kept,
    a prune dropping for their number only jobs that ended no later than every
    one it keeps. *)
Theorem one_job_per_node {E} (Error : E -> option string) c s :
  sys_run Error c s ->
  (forall p q jp jq, jobs (eng s) !! p = Some jp -> jobs (eng s) !! q = Some jq ->
     is_over jp = false -> is_over jq = false -> J_NodeID (view jp) = J_NodeID (view jq) -> J_NodeID (view jp) <> 0 -> p = q) /\
  (forall p j now, jobs (eng s) !! p = Some j -> is_over j = false ->
     (Get (eng s) (J_ID (view j)) now).2 = Some (view j) /\
     (J_NodeID (view j) <> 0 ->
      Running (eng s) (J_NodeID (view j)) = Some (view j) /\
      forall spec draws now1 now2, Sp_Kind spec ∈ kinds -> Sp_NodeID spec = J_NodeID (view j) -> closed (eng s) = false ->
        Start (eng s) spec true draws now1 now2 = Some (eng s, Err (BusyError (J_NodeID (view j)) (J_ID (view j)))))) /\
  (forall now, Z.of_nat (length (filter (fun v => J_State v <> StateRunning) (List_ (eng s) now).2)) <= Keep (cfg (eng s))) /\
  (forall now, keeps_newest (eng s) now).
Proof.
  intros [Hcore _]%run_inv. pose proof (c_node _ Hcore) as Hn. pose proof (c_keep _ Hcore) as HK.
  split; [|split; [|split]].
  - intros p q jp jq Hp Hq Op Oq He Hz.
    assert (onNode (eng s) !! J_NodeID (view jp) = Some p) as F1 by (apply Hn; eauto).
    assert (onNode (eng s) !! J_NodeID (view jp) = Some q) as F2 by (apply Hn; eauto). congruence.
  - intros p j now Hp Ho. split.
    + cbn. destruct (prune_spec (eng s) now (c_known _ Hcore) ltac:(lia)) as (Hk & _ & Hrun & _).
      assert (is_running (eng s) p = true) as Hr by by rewrite (is_running_over _ _ _ Hp), Ho.
      destruct (prune_frame (eng s) now) as (ids & o & He).
      assert (id_of (prune (eng s) now) p = J_ID (view j)) as Hid by (rewrite He; unfold id_of; cbn; by rewrite Hp).
      rewrite (proj2 (k_ids _ Hk (J_ID (view j)) p)); [|split; [by apply Hrun, Hr; apply (c_run _ Hcore)|done]].
      cbn. unfold snapshot. rewrite He. cbn. by rewrite Hp.
    + intros Hz. assert (onNode (eng s) !! J_NodeID (view j) = Some p) as Hon by (apply Hn; eauto).
      split; [unfold Running; rewrite Hon; cbn; unfold snapshot; by rewrite Hp|].
      intros spec draws now1 now2 Hkind Hnode Hcl. unfold Start. rewrite bool_decide_true by done. cbn [negb].
      rewrite Hcl, Hnode, (proj2 (Z.eqb_neq _ _) Hz), Hon. unfold id_of. by rewrite Hp.
  - intros now. destruct (prune_spec (eng s) now (c_known _ Hcore) ltac:(lia)) as (Hk & _ & _ & Hcount & _).
    etrans; [|exact Hcount]. apply inj_le. cbn. apply finished_listed. apply Hk.
  - intros now. apply (prune_spec (eng s) now (c_known _ Hcore)). lia.
Qed.

(** Followers never hold the engine up and never miss how a job stands: in
    every state the engine can reach, no report, end, subscription or cancel
    waits for a reader or panics on a channel; and a reader that has not
    cancelled, when it takes a value, gets the job as it is now, when it has to
    wait has already had that, and when it finds the channel closed the job is
    over and the last value it had is the job's final state. *)
Theorem followers_up_to_date {E} (Error : E -> option string) c s :
  sys_run Error c s ->
  (forall p name r, is_ok (do_report Error (eng s) p name r) = true) /\
  (forall p o now1 now2, p ∈ going s -> is_ok (finish Error (eng s) p o now1 now2) = true) /\
  (forall id now, is_ok (Subscribe (eng s) id now) = true) /\
  (forall ch p, follows s !! ch = Some p -> is_ok (unsubscribe (eng s) p ch) = true) /\
  (forall ch p, follows s !! ch = Some p -> ch ∉ stopped s ->
     exists j vs, jobs (eng s) !! p = Some j /\ seen s !! ch = Some vs /\
       match (receive (eng s) ch).2 with
       | Got v => v = view j
       | Waits => is_over j = false /\ last vs = Some (view j)
       | AtEnd => is_over j = true /\ last vs = Some (view j)
       end).
Proof.
  intros Hs%run_inv. split; [|split; [|split; [|split]]].
  - intros p name r. by destruct (report_inv Error s p name r Hs) as (e & -> & _).
  - intros p o now1 now2 Hg. by destruct (finish_inv Error s p o now1 now2 Hs Hg) as (e & -> & _).
  - intros id now. by destruct (subscribe_inv s id now Hs) as (e & r & -> & _).
  - intros ch p Hf. by destruct (cancel_inv s p ch Hs Hf) as (e & -> & _).
  - intros ch p Hf Hst. destruct (c_follow _ (proj1 Hs) ch p Hf) as (j & ss & ch' & vs & [F1 F2 F3 F4 F5 F6 F7]).
    exists j, vs. split; [done|]. split; [done|]. unfold chan_ok in F5. rewrite decide_False in F5 by done.
    destruct F5 as [Hcl Hb]. unfold receive. rewrite F3. destruct (buf ch') as [v|] eqn:Eb; cbn.
    + destruct Hb as [[= ->]|[? _]]; done.
    + destruct Hb as [?|[_ Hl]]; [done|]. rewrite Hcl. destruct (is_over j); done.
Qed.

(** No secret of a job is ever shown: in every state the engine can reach,
    no detail, error or fact of a job, running or over, nor of any value a
    follower was sent, quotes a secret the job was given, whole, trimmed or by
    one of its longer lines, whatever its function reported. (A secret here is
    text: valid UTF-8 without the ellipsis and the replacement character.) *)
Theorem secrets_never_shown {E} (Error : E -> option string) c s p ss w :
  sys_run Error c s -> secrets s !! p = Some ss -> quoted ss w -> plain w ->
  (forall j t, jobs (eng s) !! p = Some j -> t ∈ texts (view j) -> ~ shows t w) /\
  (forall ch vs v t, follows s !! ch = Some p -> seen s !! ch = Some vs -> v ∈ vs -> t ∈ texts v -> ~ shows t w).
Proof.
  intros [Hcore _]%run_inv Hss Hq Hp. split.
  - intros j t Hj Ht. destruct (c_job _ Hcore p j Hj) as (ss' & Hss' & Hok). assert (ss' = ss) as -> by congruence.
    pose proof (jo_safe _ _ _ _ Hok) as Hsafe. unfold safe in Hsafe. rewrite Forall_forall in Hsafe. by apply (Hsafe t).
  - intros ch vs v t Hf Hvs Hv Ht. destruct (c_follow _ Hcore ch p Hf) as (j & ss' & ch' & vs' & [F1 F2 F3 F4 F5 F6 F7]).
    assert (ss' = ss) as -> by congruence. assert (vs' = vs) as -> by congruence.
    rewrite Forall_forall in F7. pose proof (F7 v Hv) as Hsafe. unfold safe in Hsafe. rewrite Forall_forall in Hsafe.
    by apply (Hsafe t).
Qed.

(** ** An install, as an example *)

Definition demo_cfg : Config string := MkConfig 0 0 None None None.
Definition demo_spec : Spec := MkSpec "install" 7 "vps" ["Connect"; "Install"] ["hunter22"] None.

Definition started (s : sys (E := string)) : sys :=
  match Start (eng s) demo_spec true [Some [1; 2; 3; 4; 5; 255]] 0 0 with
  | Some (e, Ok (p, _)) =>
      MkSys e ({[p]} ∪ going s) (<[p := Secrets demo_spec]> (secrets s)) (follows s) (seen s) (stopped s)
  | _ => s
  end.
Definition watched (s : sys (E := string)) : sys :=
  match Subscribe (eng s) "0102030405ff" 0 with Ok (e, Some (ch, p)) => followed s e ch p | _ => s end.
Definition told (s : sys (E := string)) : sys :=
  match do_report Some (eng s) 0 "Connect" (RDetail "root:hunter22 refused") with Ok e => on s e | _ => s end.
Definition taken (s : sys (E := string)) : sys :=
  match receive (eng s) 0 with
  | (e, Got v) => MkSys e (going s) (secrets s) (follows s) (alter (fun vs => vs ++ [v]) 0%nat (seen s)) (stopped s)
  | _ => s
  end.

Definition demo_sys : sys (E := string) := taken (told (watched (started (start_sys demo_cfg)))).

Lemma demo_sys_run : sys_run Some demo_cfg demo_sys.
Proof.
  set (s1 := started (start_sys demo_cfg)). set (s2 := watched s1). set (s3 := told s2).
  assert (sys_step Some (start_sys demo_cfg) s1) as H1.
  { subst s1. unfold started. destruct (Start _ _ _ _ _ _) as [[e [[p v]|er]]|] eqn:Es;
      [by eapply s_start|vm_compute in Es; discriminate Es..]. }
  assert (sys_step Some s1 s2) as H2.
  { subst s2. unfold watched. destruct (Subscribe (eng s1) _ _) as [[e [[ch p]|]]|er] eqn:Es;
      [by eapply s_subscribe|vm_compute in Es; discriminate Es..]. }
  assert (sys_step Some s2 s3) as H3.
  { subst s3. unfold told. destruct (do_report _ (eng s2) _ _ _) as [e|er] eqn:Es;
      [by eapply s_report|vm_compute in Es; discriminate Es]. }
  assert (sys_step Some s3 demo_sys) as H4.
  { change demo_sys with (taken s3). unfold taken. destruct (receive (eng s3) 0) as [e [v| |]] eqn:Es;
      [by eapply s_receive|vm_compute in Es; discriminate Es..]. }
  eapply rtc_l; [exact H1|]. eapply rtc_l; [exact H2|]. eapply rtc_l; [exact H3|]. by apply rtc_once.
Qed.

Lemma one_job_per_node_witness :
  exists id, Running (eng demo_sys) 7 = (Get (eng demo_sys) id 5).2 /\
    Start (eng demo_sys) demo_spec true [] 1 1 = Some (eng demo_sys, Err (BusyError 7 id)).
Proof.
  destruct (jobs (eng demo_sys) !! 0%nat) as [j|] eqn:Ej; [|vm_compute in Ej; discriminate Ej].
  assert (is_over j = false /\ J_NodeID (view j) = 7) as [Ho Hn].
  { vm_compute in Ej. injection Ej as <-. split; reflexivity. }
  destruct (one_job_per_node Some demo_cfg demo_sys demo_sys_run) as (_ & H & _).
  destruct (H 0%nat j 5 Ej Ho) as [Hg Hr]. rewrite Hn in Hr. destruct (Hr ltac:(discriminate)) as [Hrun Hst].
  exists (J_ID (view j)). split; [rewrite Hg; exact Hrun|].
  apply Hst; [vm_compute; left|reflexivity|vm_compute; reflexivity].
Defined.

Lemma followers_up_to_date_witness :
  exists j vs, jobs (eng demo_sys) !! 0%nat = Some j /\ seen demo_sys !! 0%nat = Some vs /\ last vs = Some (view j).
Proof.
  destruct (followers_up_to_date Some demo_cfg demo_sys demo_sys_run) as (_ & _ & _ & _ & H).
  destruct (H 0%nat 0%nat) as (j & vs & Hj & Hvs & Hr).
  - vm_compute. reflexivity.
  - assert (stopped demo_sys = ∅) as -> by (vm_compute; reflexivity). apply not_elem_of_empty.
  - exists j, vs. split; [exact Hj|]. split; [exact Hvs|].
    assert ((receive (eng demo_sys) 0).2 = Waits) as E by (vm_compute; reflexivity). rewrite E in Hr. apply Hr.
Defined.

(** The detail the job was told quoted the password. *)
Lemma secrets_never_shown_witness :
  exists j t, jobs (eng demo_sys) !! 0%nat = Some j /\ t ∈ texts (view j) /\
    t = "root:" +:+ hidden +:+ " refused" /\ ~ shows t "hunter22".
Proof.
  destruct (jobs (eng demo_sys) !! 0%nat) as [j|] eqn:Ej; [|vm_compute in Ej; discriminate Ej].
  assert ("root:" +:+ hidden +:+ " refused" ∈ texts (view j)) as Ht.
  { vm_compute in Ej. injection Ej as <-. vm_compute. left. }
  exists j, ("root:" +:+ hidden +:+ " refused"). split; [reflexivity|]. split; [exact Ht|]. split; [reflexivity|].
  refine (proj1 (secrets_never_shown Some demo_cfg demo_sys 0 ["hunter22"] "hunter22" demo_sys_run _ _ _) j _ Ej Ht).
  - vm_compute. reflexivity.
  - exists "hunter22". split; [left|]. split; [vm_compute; discriminate|]. left. reflexivity.
  - split; (split; [vm_compute; discriminate|split; [vm_compute; reflexivity|]]);
      intros H; apply starts_anywhere in H; vm_compute in H; discriminate H.
Defined.
