(* ===== verification/LoginLimiter.v ===== *)
(** * The login limiter

    Models [pkg/ratelimit/login_limiter.go]: failed logins are counted per
    address and per user name, five of them lock the key for five minutes, and
    a sweep every ten minutes drops the records that are no use any more. Each
    key's record has its own lock, so a call on one key is one step. *)

From S2P Require Import Prelude.

Definition maxAttempts : Z := 5.
Definition lockoutWindow : Z := 5 * 60 * 10 ^ 9.
Definition cleanupPeriod : Z := 10 * 60 * 10 ^ 9.

(** [lockedAt] is [None] for the zero time. *)
Record attemptRecord := MkAttempt { count : Z; lockedAt : option Z }.

Definition noAttempts : attemptRecord := MkAttempt 0 None.

Abbreviation LoginLimiter := (gmap string attemptRecord).

(** [time.Since]: saturates for the zero time. *)
Definition Since (now : Z) (t : option Z) : Z :=
  match t with Some t => Z.max minI64 (Z.min maxI64 (now - t)) | None => maxI64 end.

Definition ip_key (ip : string) : string := "ip:" +:+ ip.
Definition user_key (u : string) : string := "user:" +:+ u.

Definition checkKey (l : LoginLimiter) (key : string) (now : Z) : LoginLimiter * Z :=
  match l !! key with
  | None => (l, 0)
  | Some rec =>
      if count rec <? maxAttempts then (l, 0) else
      let remaining := lockoutWindow - Since now (lockedAt rec) in
      if remaining <=? 0 then (<[key := noAttempts]> l, 0) else (l, remaining)
  end.

Definition record_failure (rec : attemptRecord) (now : Z) : attemptRecord :=
  let rec := if (maxAttempts <=? count rec) && (lockoutWindow <=? Since now (lockedAt rec)) then noAttempts else rec in
  let n := count rec + 1 in
  if (maxAttempts <=? n) && bool_decide (lockedAt rec = None) then MkAttempt n (Some now) else MkAttempt n (lockedAt rec).

Definition recordKey (l : LoginLimiter) (key : string) (now : Z) : LoginLimiter :=
  <[key := record_failure (default noAttempts (l !! key)) now]> l.

(** [Check], with the clock as each key reads it. *)
Definition Check_ (l : LoginLimiter) (ip u : string) (now : Z) : LoginLimiter * (bool * Z) :=
  let '(l, ra) := checkKey l (ip_key ip) now in
  if 0 <? ra then (l, (false, ra)) else
  let '(l, ra) := checkKey l (user_key u) now in
  if 0 <? ra then (l, (false, ra)) else (l, (true, 0)).

Definition RecordFailure (l : LoginLimiter) (ip u : string) (now : Z) : LoginLimiter :=
  recordKey (recordKey l (ip_key ip) now) (user_key u) now.

Definition Reset_ (l : LoginLimiter) (ip u : string) : LoginLimiter :=
  delete (user_key u) (delete (ip_key ip) l).

Definition useless (now : Z) (rec : attemptRecord) : bool :=
  (maxAttempts <=? count rec) && (lockoutWindow <=? Since now (lockedAt rec)) ||
  (count rec <? maxAttempts) && (0 <? count rec).

Definition cleanup (l : LoginLimiter) (now : Z) : LoginLimiter :=
  filter (fun kr => useless now kr.2 = false) l.

(** ** Logins, one after another *)

Inductive event :=
| Wrong (ip u : string)   (* a login with a wrong password *)
| Right (ip u : string)   (* one with the right password *)
| Sweep.

(** What an event does at a time, and whether a wrong password was tried: a
    refused login is not tried at all. *)
Definition happen (l : LoginLimiter) (ev : event) (now : Z) : LoginLimiter * bool :=
  match ev with
  | Sweep => (cleanup l now, false)
  | Wrong ip u =>
      let '(l, (ok, _)) := Check_ l ip u now in if ok then (RecordFailure l ip u now, true) else (l, false)
  | Right ip u =>
      let '(l, (ok, _)) := Check_ l ip u now in if ok then (Reset_ l ip u, false) else (l, false)
  end.

Definition tries_user (u : string) (ev : event) : bool :=
  match ev with Wrong _ u' => bool_decide (u' = u) | _ => false end.

(** How many wrong passwords are tried on a user name, and the sweeps. *)
Fixpoint guesses (u : string) (l : LoginLimiter) (evs : list (Z * event)) : Z :=
  match evs with
  | [] => 0
  | (now, ev) :: evs =>
      let '(l, tried) := happen l ev now in (if tried && tries_user u ev then 1 else 0) + guesses u l evs
  end.

Definition is_sweep (ev : event) : bool := match ev with Sweep => true | _ => false end.
Definition sweeps (evs : list (Z * event)) : Z := lsum (fun e => if is_sweep e.2 then 1 else 0) evs.

(** ** Lemmas *)

(** How many guesses a record leaves in a window that began at [t0]: none once
    it was locked inside it, and a lock from before may run out. *)
Definition left (t0 : Z) (r : option attemptRecord) : Z :=
  match r with
  | None => maxAttempts
  | Some rec =>
      if count rec <? maxAttempts then maxAttempts - count rec
      else match lockedAt rec with
           | Some t => if t0 <=? t then 0 else maxAttempts
           | None => maxAttempts
           end
  end.

(** A record as the limiter makes them: locked exactly when it is full. *)
Definition rec_ok (now : Z) (rec : attemptRecord) : Prop :=
  0 <= count rec /\
  (count rec < maxAttempts -> lockedAt rec = None) /\
  (maxAttempts <= count rec -> exists t, lockedAt rec = Some t /\ t <= now).

Definition limiter_ok (now : Z) (l : LoginLimiter) : Prop := map_Forall (fun _ rec => rec_ok now rec) l.

Lemma keys_apart ip u : ip_key ip <> user_key u.
Proof. done. Qed.

Lemma rec_ok_later now now' rec : now <= now' -> rec_ok now rec -> rec_ok now' rec.
Proof. intros Hle (H1 & H2 & H3). split; [done|]. split; [done|]. intros H. destruct (H3 H) as (t & ? & ?). exists t. split; [done|lia]. Qed.

Lemma limiter_ok_later now now' l : now <= now' -> limiter_ok now l -> limiter_ok now' l.
Proof. intros Hle H k rec Hk. eapply rec_ok_later; [done|]. by eapply H. Qed.

Ltac limits := unfold maxAttempts, lockoutWindow in *; unfold_ints.

Lemma noAttempts_ok now : rec_ok now noAttempts.
Proof. split; [done|]. split; [done|]. limits. cbn. lia. Qed.

Lemma record_failure_ok now rec : rec_ok now rec -> rec_ok now (record_failure rec now).
Proof.
  intros Hok. unfold record_failure. set (r := if _ : bool then noAttempts else rec).
  assert (rec_ok now r) as (H1 & H2 & H3) by (subst r; destruct (_ && _); [apply noAttempts_ok|done]).
  clearbody r. destruct (maxAttempts <=? count r + 1) eqn:En; cbn [andb].
  - apply Z.leb_le in En. case_bool_decide as Hl.
    + split; cbn; [lia|]. split; [lia|]. intros _. by exists now.
    + split; cbn; [lia|]. split; [lia|]. intros _. apply H3. limits.
      destruct (decide (count r < 5)); [by exfalso; apply Hl, H2|lia].
  - apply Z.leb_gt in En. split; cbn; [lia|]. split; [intros _; apply H2; lia|lia].
Qed.

(** A failure uses up a guess of the window. *)
Lemma record_failure_left t0 now rec :
  rec_ok now rec -> t0 <= now -> 1 <= left t0 (Some rec) ->
  (maxAttempts <= count rec -> lockoutWindow <= Since now (lockedAt rec)) ->
  left t0 (Some (record_failure rec now)) <= left t0 (Some rec) - 1.
Proof.
  intros (H1 & H2 & H3) Ht Hleft Hexp. unfold record_failure.
  destruct (maxAttempts <=? count rec) eqn:Ef.
  - apply Z.leb_le in Ef. rewrite (proj2 (Z.leb_le _ _) (Hexp Ef)).
    transitivity 4; [apply Z.eq_le_incl; reflexivity|]. cbn in *. rewrite (proj2 (Z.ltb_ge (count rec) maxAttempts)) in * by lia.
    limits. destruct (lockedAt rec) as [t|]; [|lia]. destruct (t0 <=? t); lia.
  - apply Z.leb_gt in Ef. cbn [andb]. rewrite (H2 Ef). rewrite bool_decide_true, andb_true_r by done.
    cbn in *. rewrite (proj2 (Z.ltb_lt _ _) Ef) in *. destruct (maxAttempts <=? count rec + 1) eqn:En; cbn.
    + rewrite (proj2 (Z.ltb_ge _ _)) by (apply Z.leb_le in En; lia). rewrite (proj2 (Z.leb_le _ _) Ht). lia.
    + apply Z.leb_gt in En. rewrite (proj2 (Z.ltb_lt _ _) En). lia.
Qed.

Lemma left_range t0 r now : (forall rec, r = Some rec -> rec_ok now rec) -> 0 <= left t0 r <= maxAttempts.
Proof.
  intros Hok. unfold left. destruct r as [rec|]; [|limits; lia]. destruct (Hok rec eq_refl) as (? & _ & _).
  destruct (count rec <? maxAttempts) eqn:E; [apply Z.ltb_lt in E; lia|]. limits.
  destruct (lockedAt rec) as [t|]; [|lia]. destruct (t0 <=? t); lia.
Qed.

(** A lock that has run out by a time in the window is from before it. *)
Lemma expired_before t0 now t : now < t0 + lockoutWindow -> lockoutWindow <= Since now (Some t) -> t < t0.
Proof. unfold Since. limits. lia. Qed.

Lemma expired_left t0 now rec :
  rec_ok now rec -> now < t0 + lockoutWindow -> maxAttempts <= count rec -> lockoutWindow <= Since now (lockedAt rec) ->
  left t0 (Some rec) = maxAttempts.
Proof.
  intros (_ & _ & H3) Hw Hc He. destruct (H3 Hc) as (t & Ht & _). rewrite Ht in He.
  pose proof (expired_before t0 now t Hw He). cbn. rewrite (proj2 (Z.ltb_ge _ _)) by lia. rewrite Ht.
  by rewrite (proj2 (Z.leb_gt _ _)) by lia.
Qed.

Lemma checkKey_spec t0 now l key l' ra :
  limiter_ok now l -> now < t0 + lockoutWindow -> checkKey l key now = (l', ra) ->
  limiter_ok now l' /\ (forall k, k <> key -> l' !! k = l !! k) /\ left t0 (l' !! key) = left t0 (l !! key) /\
  (ra <= 0 -> forall rec, l' !! key = Some rec -> count rec < maxAttempts).
Proof.
  intros Hl Hw. unfold checkKey. destruct (l !! key) as [rec|] eqn:Er.
  2:{ intros [= <- <-]. split; [done|]. split; [done|]. split; [by rewrite Er|]. intros _ rec. by rewrite Er. }
  destruct (count rec <? maxAttempts) eqn:Ec.
  { intros [= <- <-]. apply Z.ltb_lt in Ec. split; [done|]. split; [done|]. split; [by rewrite Er|]. intros _ rec'. rewrite Er. congruence. }
  apply Z.ltb_ge in Ec. destruct (_ <=? 0) eqn:Ex.
  - apply Z.leb_le in Ex. intros [= <- <-]. split; [|split; [|split]].
    + apply map_Forall_insert_2; [apply noAttempts_ok|done].
    + intros k Hk. by rewrite lookup_insert_ne.
    + rewrite lookup_insert_eq. rewrite (expired_left t0 now rec) by (done || by apply (Hl key) || lia). reflexivity.
    + intros _ rec'. rewrite lookup_insert_eq. intros [= <-]. reflexivity.
  - apply Z.leb_gt in Ex. intros [= <- <-]. split; [done|]. split; [done|]. split; [by rewrite Er|]. lia.
Qed.

Lemma recordKey_spec now l key :
  limiter_ok now l -> limiter_ok now (recordKey l key now) /\ (forall k, k <> key -> recordKey l key now !! k = l !! k).
Proof.
  intros Hl. unfold recordKey. split.
  - apply map_Forall_insert_2; [|done]. apply record_failure_ok. destruct (l !! key) as [rec|] eqn:E; [by apply (Hl key)|apply noAttempts_ok].
  - intros k Hk. by rewrite lookup_insert_ne.
Qed.

Lemma Check_spec t0 now l ip u l' ok ra :
  limiter_ok now l -> now < t0 + lockoutWindow -> Check_ l ip u now = (l', (ok, ra)) ->
  limiter_ok now l' /\ (forall v, left t0 (l' !! user_key v) = left t0 (l !! user_key v)) /\
  (ok = true -> forall rec, l' !! user_key u = Some rec -> count rec < maxAttempts).
Proof.
  intros Hl Hw. unfold Check_. destruct (checkKey l (ip_key ip) now) as [l1 r1] eqn:E1.
  destruct (checkKey_spec t0 now l _ _ _ Hl Hw E1) as (Hl1 & Ho1 & _ & _).
  assert (forall v, l1 !! user_key v = l !! user_key v) as Hu1 by (intros v; apply Ho1, not_eq_sym, keys_apart).
  destruct (0 <? r1); [intros [= <- <- <-]; split; [done|]; split; [intros v; by rewrite Hu1|done]|].
  destruct (checkKey l1 (user_key u) now) as [l2 r2] eqn:E2.
  destruct (checkKey_spec t0 now l1 _ _ _ Hl1 Hw E2) as (Hl2 & Ho2 & Hleft & Hfree).
  assert (forall v, left t0 (l2 !! user_key v) = left t0 (l !! user_key v)) as Hu2.
  { intros v. rewrite <-Hu1. destruct (decide (user_key v = user_key u)) as [->|]; [done|]. by rewrite Ho2. }
  destruct (0 <? r2) eqn:Er; intros [= <- <- <-]; split_and!; try done. intros _. apply Hfree. by apply Z.ltb_ge in Er.
Qed.

Lemma user_key_inj u v : user_key u = user_key v -> u = v.
Proof. intros H. by injection H. Qed.

(** One event of the window. *)
Lemma happen_spec t0 u now l ev l' tried :
  limiter_ok now l -> t0 <= now < t0 + lockoutWindow -> (forall ip, ev <> Right ip u) ->
  happen l ev now = (l', tried) ->
  limiter_ok now l' /\
  (if tried && tries_user u ev then 1 else 0) + left t0 (l' !! user_key u) <=
  left t0 (l !! user_key u) + (if is_sweep ev then maxAttempts - 1 else 0).
Proof.
  intros Hl [Ht Hw] Hr. destruct ev as [ip v|ip v|]; cbn [happen tries_user is_sweep].
  - destruct (Check_ l ip v now) as [l1 [ok ra]] eqn:E.
    destruct (Check_spec t0 now l ip v l1 ok ra Hl Hw E) as (Hl1 & Hleft & Hfree).
    destruct ok; intros [= <- <-]; cbn [andb]; [|rewrite Hleft; split; [done|lia]].
    destruct (recordKey_spec now l1 (ip_key ip) Hl1) as [Hl2 Ho2].
    set (l2 := recordKey l1 (ip_key ip) now) in *.
    destruct (recordKey_spec now l2 (user_key v) Hl2) as [Hl3 Ho3]. fold (RecordFailure l1 ip v now) in *.
    assert (forall w, l2 !! user_key w = l1 !! user_key w) as Hw2 by (intros w; apply Ho2, not_eq_sym, keys_apart).
    split; [exact Hl3|]. unfold RecordFailure. fold l2. case_bool_decide as Hv; [subst v|].
    + unfold recordKey at 1. rewrite lookup_insert_eq, <-Hleft, Hw2. specialize (Hfree eq_refl).
      assert (rec_ok now (default noAttempts (l1 !! user_key u))) as Hok.
      { destruct (l1 !! user_key u) eqn:Eu; [by apply (Hl1 (user_key u))|apply noAttempts_ok]. }
      assert (left t0 (l1 !! user_key u) = left t0 (Some (default noAttempts (l1 !! user_key u)))) as El
        by (destruct (l1 !! user_key u); reflexivity).
      assert (count (default noAttempts (l1 !! user_key u)) < maxAttempts) as Hc
        by (destruct (l1 !! user_key u); [by apply Hfree|reflexivity]).
      rewrite El. enough (left t0 (Some (record_failure (default noAttempts (l1 !! user_key u)) now)) <=
        left t0 (Some (default noAttempts (l1 !! user_key u))) - 1) by lia.
      apply record_failure_left; [done|done| |lia]. cbn. rewrite (proj2 (Z.ltb_lt _ _) Hc). lia.
    + rewrite Ho3 by (intros Hk; by apply Hv, eq_sym, user_key_inj). rewrite Hw2, Hleft. lia.
  - destruct (Check_ l ip v now) as [l1 [ok ra]] eqn:E.
    destruct (Check_spec t0 now l ip v l1 ok ra Hl Hw E) as (Hl1 & Hleft & _).
    destruct ok; intros [= <- <-]; cbn [andb]; [|rewrite Hleft; split; [done|lia]]. unfold Reset_. split.
    + by apply map_Forall_delete, map_Forall_delete.
    + assert (v <> u) as Hv by (intros ->; by apply (Hr ip)).
      rewrite lookup_delete_ne by (intros Hk; by apply Hv, user_key_inj).
      rewrite lookup_delete_ne by apply keys_apart. rewrite Hleft. lia.
  - intros [= <- <-]. cbn [andb]. unfold cleanup. split.
    + intros k rec [Hk _]%map_lookup_filter_Some. by apply (Hl k).
    + pose proof (left_range t0 (l !! user_key u) now) as Hrg.
      destruct (l !! user_key u) as [rec|] eqn:Eu.
      2:{ rewrite map_lookup_filter, Eu. cbn. limits. lia. }
      specialize (Hrg ltac:(intros ? [= <-]; by apply (Hl (user_key u)))).
      rewrite map_lookup_filter, Eu. cbn [mbind option_bind]. destruct (useless now rec) eqn:Eus.
      * rewrite option_guard_False by (cbn; congruence). cbn [mbind option_bind].
        unfold useless in Eus. apply orb_true_iff in Eus as [[Hc Hx]%andb_true_iff|[Hc Hz]%andb_true_iff].
        -- apply Z.leb_le in Hc, Hx. rewrite (expired_left t0 now rec) by (done || by apply (Hl (user_key u))). cbn. limits. lia.
        -- apply Z.ltb_lt in Hc, Hz. cbn. rewrite (proj2 (Z.ltb_lt _ _) Hc). limits. lia.
      * rewrite option_guard_True by done. cbn. limits. lia.
Qed.

(** Times that do not go back. *)
Fixpoint forward (now : Z) (evs : list (Z * event)) : Prop :=
  match evs with [] => True | (t, _) :: evs => now <= t /\ forward t evs end.

(** * Theorem *)


(** ** An attack, as an example *)

Definition demo_attack : list (Z * event) :=
  [(0, Wrong "a" "bob"); (1, Wrong "b" "bob"); (2, Wrong "c" "bob"); (3, Wrong "d" "bob"); (4, Sweep);
   (5, Wrong "e" "bob"); (6, Wrong "f" "bob"); (7, Wrong "g" "bob"); (8, Wrong "h" "bob"); (9, Wrong "i" "bob");
   (10, Wrong "j" "bob"); (11, Wrong "k" "bob")].

