(* ===== verification/PanelSubs.v ===== *)
(** * The panel's subscriptions

    Models the subscriptions of the main panel over its database:
    [internal/subscription/domain/subscription.go], the writes of
    [repository/subscription_repository.go] and [repository/traffic_batch.go],
    the changes of [usecase/subscription_usage.go] and
    [usecase/subscription_lifecycle.go], and the administrator's of
    [internal/admin/usecase]. The table is a map from ids to rows; an UPDATE
    with WHERE id = ... changes that row or none. What the panel asks of the
    rest of the system (accounts, WireGuard peers, tunnels, the provider) is a
    list of calls. A statement that fails is given by [fails]. Byte counts are
    unbounded integers: the columns are 64 bits wide. *)

From S2P Require Import Prelude GoFloat.

Inductive SubscriptionStatus := Pending | Active | Paused | Expired | Cancelled | TrafficExhausted.
#[export] Instance SubscriptionStatus_eq_dec : EqDecision SubscriptionStatus.
Proof. solve_decision. Defined.

Definition PauseReasonAdmin : string := "admin".
Definition PauseReasonBan : string := "ban".

Record Subscription := MkSub {
  ID : Z; UserID : option Z; Status : SubscriptionStatus; MaxDevices : Z; PauseReason : string;
  EndDate : option Z; DataUsed : Z; LifetimeDataUsed : Z; DataUpload : Z; DataDownload : Z;
  LifetimeDataUpload : Z; LifetimeDataDownload : Z; DataLimit : Z; LastActiveAt : option Z;
  CustomDataLimit : option Z; CustomEndDate : option Z; CustomBandwidthLimit : option Z;
  IsDataLimitCustom : bool; IsEndDateCustom : bool; IsBandwidthCustom : bool;
  LastDataWarning : option Z; DataWarningLevel : Z; CreatedAt : Z
}.

(** ** [domain/subscription.go] *)

Definition GetEffectiveDataLimit (s : Subscription) : Z := default (DataLimit s) (CustomDataLimit s).
Definition GetEffectiveEndDate (s : Subscription) : option Z :=
  if IsEndDateCustom s then CustomEndDate s else EndDate s.
Definition GetEffectiveBandwidthLimit (s : Subscription) : Z := default 0 (CustomBandwidthLimit s).

Definition IsExpired (s : Subscription) (now : Z) : bool :=
  match GetEffectiveEndDate s with None => false | Some d => d <? now end.

Definition IsDataExhausted (s : Subscription) : bool :=
  let limit := GetEffectiveDataLimit s in if limit =? 0 then false else limit <=? DataUsed s.

Definition GrantsAccess (s : Subscription) (now : Z) : bool :=
  match Status s with
  | Pending | Active => negb (IsExpired s now) && negb (IsDataExhausted s)
  | _ => false
  end.

Definition RemainingData (s : Subscription) : Z :=
  let limit := GetEffectiveDataLimit s in
  if limit =? 0 then -1 else let r := limit - DataUsed s in if r <? 0 then 0 else r.

Definition GB : Z := 1024 * 1024 * 1024.

(** ** Changes of a row *)

Definition set_status (st : SubscriptionStatus) (s : Subscription) : Subscription :=
  MkSub (ID s) (UserID s) st (MaxDevices s) (PauseReason s) (EndDate s) (DataUsed s) (LifetimeDataUsed s) (DataUpload s)
    (DataDownload s) (LifetimeDataUpload s) (LifetimeDataDownload s) (DataLimit s) (LastActiveAt s) (CustomDataLimit s)
    (CustomEndDate s) (CustomBandwidthLimit s) (IsDataLimitCustom s) (IsEndDateCustom s) (IsBandwidthCustom s)
    (LastDataWarning s) (DataWarningLevel s) (CreatedAt s).

Definition set_reason (r : string) (s : Subscription) : Subscription :=
  MkSub (ID s) (UserID s) (Status s) (MaxDevices s) r (EndDate s) (DataUsed s) (LifetimeDataUsed s) (DataUpload s)
    (DataDownload s) (LifetimeDataUpload s) (LifetimeDataDownload s) (DataLimit s) (LastActiveAt s) (CustomDataLimit s)
    (CustomEndDate s) (CustomBandwidthLimit s) (IsDataLimitCustom s) (IsEndDateCustom s) (IsBandwidthCustom s)
    (LastDataWarning s) (DataWarningLevel s) (CreatedAt s).

(** [data_used, lifetime_data_used, data_upload, data_download,
    lifetime_data_upload, lifetime_data_download, last_active_at] *)
Definition set_counters (used life up down lup ldown : Z) (active : option Z) (s : Subscription) : Subscription :=
  MkSub (ID s) (UserID s) (Status s) (MaxDevices s) (PauseReason s) (EndDate s) used life up down lup ldown (DataLimit s)
    active (CustomDataLimit s) (CustomEndDate s) (CustomBandwidthLimit s) (IsDataLimitCustom s) (IsEndDateCustom s)
    (IsBandwidthCustom s) (LastDataWarning s) (DataWarningLevel s) (CreatedAt s).

Definition set_limit (l : option Z) (s : Subscription) : Subscription :=
  MkSub (ID s) (UserID s) (Status s) (MaxDevices s) (PauseReason s) (EndDate s) (DataUsed s) (LifetimeDataUsed s) (DataUpload s)
    (DataDownload s) (LifetimeDataUpload s) (LifetimeDataDownload s) (DataLimit s) (LastActiveAt s) l
    (CustomEndDate s) (CustomBandwidthLimit s) (bool_decide (l <> None)) (IsEndDateCustom s) (IsBandwidthCustom s)
    (LastDataWarning s) (DataWarningLevel s) (CreatedAt s).

Definition set_end (endDate custom : option Z) (isCustom : bool) (s : Subscription) : Subscription :=
  MkSub (ID s) (UserID s) (Status s) (MaxDevices s) (PauseReason s) endDate (DataUsed s) (LifetimeDataUsed s) (DataUpload s)
    (DataDownload s) (LifetimeDataUpload s) (LifetimeDataDownload s) (DataLimit s) (LastActiveAt s) (CustomDataLimit s)
    custom (CustomBandwidthLimit s) (IsDataLimitCustom s) isCustom (IsBandwidthCustom s)
    (LastDataWarning s) (DataWarningLevel s) (CreatedAt s).

Definition set_bandwidth (l : option Z) (s : Subscription) : Subscription :=
  MkSub (ID s) (UserID s) (Status s) (MaxDevices s) (PauseReason s) (EndDate s) (DataUsed s) (LifetimeDataUsed s) (DataUpload s)
    (DataDownload s) (LifetimeDataUpload s) (LifetimeDataDownload s) (DataLimit s) (LastActiveAt s) (CustomDataLimit s)
    (CustomEndDate s) l (IsDataLimitCustom s) (IsEndDateCustom s) (bool_decide (l <> None))
    (LastDataWarning s) (DataWarningLevel s) (CreatedAt s).

Definition set_devices (n : Z) (s : Subscription) : Subscription :=
  MkSub (ID s) (UserID s) (Status s) n (PauseReason s) (EndDate s) (DataUsed s) (LifetimeDataUsed s) (DataUpload s)
    (DataDownload s) (LifetimeDataUpload s) (LifetimeDataDownload s) (DataLimit s) (LastActiveAt s) (CustomDataLimit s)
    (CustomEndDate s) (CustomBandwidthLimit s) (IsDataLimitCustom s) (IsEndDateCustom s) (IsBandwidthCustom s)
    (LastDataWarning s) (DataWarningLevel s) (CreatedAt s).

Definition set_warning (level : Z) (at_ : option Z) (s : Subscription) : Subscription :=
  MkSub (ID s) (UserID s) (Status s) (MaxDevices s) (PauseReason s) (EndDate s) (DataUsed s) (LifetimeDataUsed s) (DataUpload s)
    (DataDownload s) (LifetimeDataUpload s) (LifetimeDataDownload s) (DataLimit s) (LastActiveAt s) (CustomDataLimit s)
    (CustomEndDate s) (CustomBandwidthLimit s) (IsDataLimitCustom s) (IsEndDateCustom s) (IsBandwidthCustom s)
    at_ level (CreatedAt s).

(** ** The database and the calls *)

(** What the panel asks of the rest: to give or take a subscription's access
    (accounts, peers and tunnels at once), to put a user on the provider or take
    it off, and to bring the counters and limits kept elsewhere in line. *)
Inductive call :=
| CAccess (sub : Z) (enabled : bool) | CActivate (sub : Z) | CDeactivate (sub : Z) | CClearLimits (sub : Z)
| CResetAccounts (sub : Z) | CResetTunnels (sub : Z) | CDevices (sub n : Z) | CShaping
| CDeleteTunnels (sub : Z) | CDeleteAccounts (sub : Z).

(** The table of subscriptions, whether each user is banned, and the calls made. *)
Record World := MkWorld { subs : gmap Z Subscription; users : gmap Z bool; calls : list call }.

(** The statements that may fail. *)
Inductive statement :=
| QFind (id : Z) | QStatus (id : Z) | QReason (id : Z) | QUsed (id : Z) | QLifetime (id : Z) | QLimit (id : Z)
| QEnd (id : Z) | QReset (id : Z) | QWarn (id : Z) | QExtend (id : Z) | QDevices (id : Z) | QBandwidth (id : Z)
| QUser (id : Z) | QDelete (id : Z) | QListExpired | QListExhausted | QListUser (user : Z) | QBan (user : Z)
| QBatch (ids : list Z) | QDaily (keys : list (Z * Z)).

Inductive subError := ErrSubscriptionNotFound | ErrDB | ErrResumeExpired | ErrDeleteTunnels | ErrDeleteAccounts
| ErrTooMany | ErrUnknownAction.

Definition day : Z := 24 * 3600 * 10 ^ 9.
Definition minute : Z := 60 * 10 ^ 9.

Section panel.
Context (fails : statement -> bool).

Definition with_subs (w : World) (m : gmap Z Subscription) : World := MkWorld m (users w) (calls w).
Definition row (w : World) (id : Z) (f : Subscription -> Subscription) : World := with_subs w (alter f id (subs w)).
Definition emit (w : World) (c : call) : World := MkWorld (subs w) (users w) (calls w ++ [c]).

(** An UPDATE of one row, and whether it worked. *)
Definition update (w : World) (q : statement) (id : Z) (f : Subscription -> Subscription) : World * bool :=
  if fails q then (w, false) else (row w id f, true).

Definition FindByID (w : World) (id : Z) : option Subscription := if fails (QFind id) then None else subs w !! id.

Definition UpdateStatus (w : World) (id : Z) (st : SubscriptionStatus) : World * bool :=
  update w (QStatus id) id (set_status st).

Definition UpdateStatusWithPauseReason (w : World) (id : Z) (st : SubscriptionStatus) (reason : string) : World * bool :=
  update w (QReason id) id (fun s =>
    if bool_decide (st = Paused) && bool_decide (Status s = Paused) then s else set_reason reason (set_status st s)).

(** A list of rows; the order is the database's. *)
Definition select (w : World) (P : Subscription -> bool) : list Subscription :=
  filter (fun s => P s = true) (map_to_list (subs w)).*2.

(** The WHERE of [ListExpired]; a comparison with NULL is not true. *)
Definition listed_expired (now : Z) (s : Subscription) : bool :=
  bool_decide (Status s = Active) && (CreatedAt s <? now - minute) &&
  (negb (IsEndDateCustom s) && match EndDate s with Some d => d <? now | None => false end ||
   IsEndDateCustom s && match CustomEndDate s with Some d => d <? now | None => false end).

Definition ListExpired (w : World) (now : Z) : option (list Subscription) :=
  if fails QListExpired then None else Some (select w (listed_expired now)).

Definition listed_exhausted (s : Subscription) : bool :=
  bool_decide (Status s = Active) && (0 <? GetEffectiveDataLimit s) && (GetEffectiveDataLimit s <=? DataUsed s).

Definition ListDataExhausted (w : World) : option (list Subscription) :=
  if fails QListExhausted then None else Some (select w listed_exhausted).

(** ** [subscription_lifecycle.go] *)

Definition setTunnelAccess (w : World) (id : Z) (enabled : bool) : World := emit w (CAccess id enabled).

Definition deactivateOnNodes (w : World) (id : Z) : World := setTunnelAccess (emit w (CDeactivate id)) id false.

Definition Cancel (w : World) (id : Z) : World * result subError unit :=
  match FindByID w id with
  | None => (w, Err ErrDB)
  | Some _ =>
      let w := deactivateOnNodes w id in
      let '(w, ok) := UpdateStatus w id Cancelled in (w, if ok then Ok tt else Err ErrDB)
  end.

(** [hasXray]: whether the subscription has accounts the provider can be told of. *)
Definition reactivateSubscription (w : World) (id : Z) (hasXray : bool) : World :=
  let '(w, ok) := UpdateStatus w id Active in
  if negb ok then w else
  let w := setTunnelAccess w id true in
  match FindByID w id with
  | None => w
  | Some _ => if hasXray then emit w (CActivate id) else w
  end.

(** ** [subscription_usage.go] *)

Definition UpdateDataUsage (w : World) (id bytesUsed : Z) : World * bool :=
  let w := match FindByID w id with
           | Some sub =>
               if DataUsed sub <? bytesUsed then
                 (update w (QLifetime id) id (fun s =>
                    set_counters (DataUsed s) (LifetimeDataUsed s + (bytesUsed - DataUsed sub)) (DataUpload s) (DataDownload s)
                      (LifetimeDataUpload s) (LifetimeDataDownload s) (LastActiveAt s) s)).1
               else w
           | None => w
           end in
  update w (QUsed id) id (fun s =>
    set_counters bytesUsed (LifetimeDataUsed s) (DataUpload s) (DataDownload s) (LifetimeDataUpload s)
      (LifetimeDataDownload s) (LastActiveAt s) s).

Definition expire_one (st : SubscriptionStatus) (w : World) (sub : Subscription) : World :=
  (UpdateStatus (deactivateOnNodes w (ID sub)) (ID sub) st).1.

Definition CheckAndExpireSubscriptions (w : World) (now : Z) : World * result subError unit :=
  match ListExpired w now with
  | None => (w, Err ErrDB)
  | Some l => (foldl (expire_one Expired) w l, Ok tt)
  end.

Definition CheckAndExpireByDataLimit (w : World) : World * result subError unit :=
  match ListDataExhausted w with
  | None => (w, Err ErrDB)
  | Some l => (foldl (expire_one TrafficExhausted) w l, Ok tt)
  end.

Definition resetDataWarnings (w : World) (id : Z) : World := (update w (QWarn id) id (set_warning 0 None)).1.

Definition gb_bytes (gb : float64) : Z := int64_of (f64_mul gb (f64_of_int GB)).

Definition SetCustomDataLimit (w : World) (id : Z) (limitGB : option float64) (hasXray : bool) : World * result subError unit :=
  match FindByID w id with
  | None => (w, Err ErrSubscriptionNotFound)
  | Some sub =>
      let limitBytes := gb_bytes <$> limitGB in
      let '(w, ok) := update w (QLimit id) id (set_limit limitBytes) in
      if negb ok then (w, Err ErrDB) else
      let w := match limitBytes with Some _ => emit w (CClearLimits id) | None => w end in
      let w := resetDataWarnings w id in
      let w :=
        match Status sub with
        | TrafficExhausted =>
            let eff := default (DataLimit sub) limitBytes in
            if (eff =? 0) || (DataUsed sub <? eff) then reactivateSubscription w id hasXray else w
        | Active => setTunnelAccess w id true
        | _ => w
        end in
      (w, Ok tt)
  end.

Definition SetCustomBandwidthLimit (w : World) (id : Z) (mbps : option Z) : World * result subError unit :=
  match FindByID w id with
  | None => (w, Err ErrSubscriptionNotFound)
  | Some _ =>
      let '(w, ok) := update w (QBandwidth id) id (set_bandwidth mbps) in
      if negb ok then (w, Err ErrDB) else (emit w CShaping, Ok tt)
  end.

Definition SetMaxDevices (w : World) (id n : Z) : World * result subError unit :=
  let n := if n <? 0 then 0 else n in
  match FindByID w id with
  | None => (w, Err ErrSubscriptionNotFound)
  | Some _ =>
      let '(w, ok) := update w (QDevices id) id (set_devices n) in
      if negb ok then (w, Err ErrDB) else (emit w (CDevices id n), Ok tt)
  end.

Definition SetCustomEndDate (w : World) (id : Z) (endDate : option Z) (isCustom : bool) (now : Z) : World * result subError unit :=
  match FindByID w id with
  | None => (w, Err ErrSubscriptionNotFound)
  | Some sub =>
      let '(w, ok) := update w (QEnd id) id (fun s => set_end (EndDate s) endDate isCustom s) in
      if negb ok then (w, Err ErrDB) else
      let sub := set_end (EndDate sub) endDate isCustom sub in
      if IsExpired sub now && bool_decide (Status sub = Active) then
        let '(w, ok) := UpdateStatus w id Expired in
        if negb ok then (w, Err ErrDB) else (setTunnelAccess w id false, Ok tt)
      else if negb (IsExpired sub now) && bool_decide (Status sub = Expired) then
        if IsDataExhausted sub then
          let '(w, ok) := UpdateStatus w id TrafficExhausted in (w, if ok then Ok tt else Err ErrDB)
        else
          let '(w, ok) := UpdateStatus w id Active in
          if negb ok then (w, Err ErrDB) else (setTunnelAccess w id true, Ok tt)
      else (w, Ok tt)
  end.

Definition AddData (w : World) (id : Z) (gb : float64) (hasXray : bool) : World * result subError unit :=
  match FindByID w id with
  | None => (w, Err ErrSubscriptionNotFound)
  | Some sub =>
      let cur := GetEffectiveDataLimit sub in
      if cur =? 0 then (w, Ok tt) else
      let newLimit := wrapS (cur + gb_bytes gb) in
      let '(w, ok) := update w (QLimit id) id (set_limit (Some newLimit)) in
      if negb ok then (w, Err ErrDB) else
      let w := resetDataWarnings (emit w (CClearLimits id)) id in
      let w :=
        match Status sub with
        | TrafficExhausted => if DataUsed sub <? newLimit then reactivateSubscription w id hasXray else w
        | Active => setTunnelAccess w id true
        | _ => w
        end in
      (w, Ok tt)
  end.

Definition zero_used (s : Subscription) : Subscription :=
  set_counters 0 (LifetimeDataUsed s) 0 0 (LifetimeDataUpload s) (LifetimeDataDownload s) (LastActiveAt s) s.

Definition ResetDataUsed (w : World) (id : Z) : World * result subError unit :=
  match FindByID w id with
  | None => (w, Err ErrSubscriptionNotFound)
  | Some _ =>
      let '(w, ok) := update w (QReset id) id zero_used in
      if negb ok then (w, Err ErrDB) else
      (resetDataWarnings (emit (emit w (CResetAccounts id)) (CResetTunnels id)) id, Ok tt)
  end.
End panel.

(** ** What a row and its access come to *)

(** Rows are filed under their own id. *)
Definition wf (w : World) : Prop := forall id s, subs w !! id = Some s -> ID s = id.

(** The last word on a subscription's access. *)
Definition last_access (id : Z) (acc : option bool) (c : call) : option bool :=
  match c with CAccess sub b => if decide (sub = id) then Some b else acc | _ => acc end.
Definition access (cs : list call) (id : Z) : option bool := foldl (last_access id) None cs.

Definition view (w : World) (id : Z) : option Subscription * option bool := (subs w !! id, access (calls w) id).

(** What the two sweeps make of a row. *)
Definition swept (now : Z) (s : Subscription) : option SubscriptionStatus :=
  if listed_expired now s then Some Expired else if listed_exhausted s then Some TrafficExhausted else None.

Section panel_lemmas.
Context (fails : statement -> bool).

Lemma access_emit w c id : access (calls (emit w c)) id = last_access id (access (calls w) id) c.
Proof. unfold access. simpl. by rewrite foldl_app. Qed.

Lemma view_access w id b k :
  view (setTunnelAccess w id b) k = if decide (k = id) then ((view w k).1, Some b) else view w k.
Proof.
  unfold view, setTunnelAccess. rewrite access_emit. simpl.
  destruct (decide (id = k)), (decide (k = id)); naive_solver.
Qed.

Lemma view_update w q id f k :
  view (update fails w q id f).1 k =
  if decide (k = id) then ((if fails q then fun s => s else f) <$> (view w k).1, (view w k).2) else view w k.
Proof.
  unfold update, view. destruct (fails q); simpl; case_decide as Hk; subst; try done.
  - by rewrite option_fmap_id.
  - by rewrite lookup_alter_eq.
  - by rewrite lookup_alter_ne.
Qed.

Lemma update_ok w q id f : (update fails w q id f).2 = negb (fails q).
Proof. unfold update. by destruct (fails q). Qed.

Lemma wf_view w w' :
  wf w -> (forall id s, subs w' !! id = Some s -> exists s0, subs w !! id = Some s0 /\ ID s = ID s0) -> wf w'.
Proof. intros Hw H id s Hs. destruct (H id s Hs) as (s0 & H0 & ->). by apply Hw. Qed.

Lemma elem_select w P s : wf w -> s ∈ select w P <-> subs w !! ID s = Some s /\ P s = true.
Proof.
  intros Hw. unfold select. rewrite list_elem_of_filter, list_elem_of_fmap. split.
  - intros [HP ([k s'] & -> & Hk%elem_of_map_to_list)]. simpl in *. by rewrite (Hw _ _ Hk).
  - intros [Hs HP]. split; [done|]. exists (ID s, s). split; [done|]. by apply elem_of_map_to_list.
Qed.

Lemma select_ids w P : wf w -> NoDup (ID <$> select w P).
Proof.
  intros Hw. unfold select. eapply sublist_NoDup; [|apply fmap_sublist, sublist_filter].
  rewrite <-list_fmap_compose. erewrite (list_fmap_ext _ fst); [apply NoDup_fst_map_to_list|].
  intros i [k s] Hi. simpl. apply Hw, elem_of_map_to_list. by eapply list_elem_of_lookup_2.
Qed.

(** An id is listed exactly when its row meets the condition. *)
Lemma elem_select_ids w P id s : wf w -> subs w !! id = Some s -> id ∈ ID <$> select w P <-> P s = true.
Proof.
  intros Hw Hs. rewrite list_elem_of_fmap. split.
  - intros (s' & -> & [Hs' HP]%elem_select); [|done]. congruence.
  - intros HP. exists s. pose proof (Hw _ _ Hs) as <-. split; [done|]. by apply elem_select.
Qed.

Lemma expire_one_view st w s k :
  view (expire_one fails st w s) k =
  if decide (k = ID s) then ((if fails (QStatus (ID s)) then fun s => s else set_status st) <$> (view w k).1, Some false)
  else view w k.
Proof.
  unfold expire_one, UpdateStatus, deactivateOnNodes. rewrite view_update, view_access.
  assert (view (emit w (CDeactivate (ID s))) k = view w k) as ->.
  { unfold view. by rewrite access_emit. }
  by case_decide.
Qed.

Lemma sweep_view st w P id s :
  wf w -> subs w !! id = Some s ->
  view (foldl (expire_one fails st) w (select w P)) id =
  if P s then (Some (if fails (QStatus id) then s else set_status st s), Some false) else view w id.
Proof.
  intros Hw Hs.
  destruct (foldl_at view ID (expire_one fails st)
    (fun s x => ((if fails (QStatus (ID s)) then fun s => s else set_status st) <$> x.1, Some false))
    (select w P) w) as [H1 H2].
  - intros w' s' _ _ k. apply expire_one_view.
  - by apply select_ids.
  - pose proof (elem_select_ids w P id s Hw Hs) as Hin. destruct (P s) eqn:HP.
    + pose proof (Hw _ _ Hs) as <-. rewrite H1 by (by apply elem_select).
      unfold view. rewrite Hs. simpl. by destruct (fails _).
    + apply H2. naive_solver.
Qed.

Lemma sweep_gone st w P id :
  wf w -> subs w !! id = None -> subs (foldl (expire_one fails st) w (select w P)) !! id = None.
Proof.
  intros Hw. generalize (select w P). intros l. revert w Hw. induction l as [|s l IH]; intros w Hw Hn; [done|].
  simpl. apply IH.
  - apply (wf_view w); [done|]. intros id' s' Hs'. pose proof (expire_one_view st w s id') as Hv.
    unfold view in Hv. rewrite Hs' in Hv. case_decide; simplify_eq/=.
    + destruct (subs w !! ID s) eqn:E; simplify_eq/=. eexists. split; [done|]. by case_match.
    + by eexists.
  - pose proof (expire_one_view st w s id) as Hv. unfold view in Hv. rewrite Hn in Hv. case_decide; by simplify_eq/=.
Qed.

Lemma sweep_wf st w P : wf w -> wf (foldl (expire_one fails st) w (select w P)).
Proof.
  intros Hw. apply (wf_view w); [done|]. intros id s' Hs'. destruct (subs w !! id) as [s|] eqn:Hs.
  - exists s. split; [done|]. pose proof (sweep_view st w P id s Hw Hs) as Hv. unfold view in Hv. rewrite Hs' in Hv.
    repeat case_match; simplify_eq/=; congruence.
  - by rewrite (sweep_gone st w P id Hw Hs) in Hs'.
Qed.

Lemma listed_expired_spec now s :
  listed_expired now s = bool_decide (Status s = Active) && (CreatedAt s <? now - minute) && IsExpired s now.
Proof. unfold listed_expired, IsExpired, GetEffectiveEndDate. destruct (IsEndDateCustom s); simpl; repeat case_match; by rewrite ?orb_false_r. Qed.

Lemma sweeps_view w now id s :
  wf w -> subs w !! id = Some s ->
  let w1 := foldl (expire_one fails Expired) w (select w (listed_expired now)) in
  view (foldl (expire_one fails TrafficExhausted) w1 (select w1 listed_exhausted)) id =
  match swept now s with
  | Some st => (Some (if fails (QStatus id) then s else set_status st s), Some false)
  | None => view w id
  end.
Proof.
  intros Hw Hs w1. pose proof (sweep_view Expired w (listed_expired now) id s Hw Hs) as Hv1. fold w1 in Hv1.
  assert (wf w1) as Hw1 by (exact (sweep_wf _ _ _ Hw)).
  unfold swept. destruct (listed_expired now s) eqn:HE.
  - pose proof Hv1 as Hs1. apply (f_equal fst) in Hs1. simpl in Hs1.
    rewrite (sweep_view _ _ _ _ _ Hw1 Hs1), Hv1. destruct (fails _); [by case_match|done].
  - assert (subs w1 !! id = Some s) as Hs1 by (apply (f_equal fst) in Hv1; by rewrite <-Hs).
    rewrite (sweep_view _ _ _ _ _ Hw1 Hs1), Hv1. by case_match.
Qed.

Lemma unswept_grants now s :
  swept now s = None -> Status s = Active -> CreatedAt s < now - minute -> 0 <= GetEffectiveDataLimit s ->
  GrantsAccess s now = true.
Proof.
  unfold swept, GrantsAccess, listed_exhausted, IsDataExhausted. rewrite listed_expired_spec. intros H HA Hc Hl.
  rewrite HA in *. rewrite bool_decide_eq_true_2 in H by done. apply Z.ltb_lt in Hc. rewrite Hc in H. simpl in H.
  destruct (IsExpired s now); [done|]. simpl. destruct (Z.ltb_spec 0 (GetEffectiveDataLimit s)); simpl in H.
  - case_match; [done|]. by case_match.
  - by rewrite (proj2 (Z.eqb_eq _ 0)) by lia.
Qed.

Lemma swept_status now s st : swept now s = Some st -> st <> Active.
Proof. unfold swept. repeat case_match; naive_solver. Qed.

(** One run of the two sweeps (expiry, then traffic), with any of the
    status writes failing. A row changes only if it is listed: an active
    subscription older than a minute whose effective date has passed becomes
    expired, one that used up a positive effective limit becomes
    traffic-exhausted, and both lose their access whether or not the write
    worked. What is then still active, older than a minute and not with a
    negative limit is entitled to access. *)
Theorem sweeps_settle w now id s :
  wf w -> fails QListExpired = false -> fails QListExhausted = false -> subs w !! id = Some s ->
  let '(w1, r1) := CheckAndExpireSubscriptions fails w now in
  let '(w2, r2) := CheckAndExpireByDataLimit fails w1 in
  r1 = Ok tt /\ r2 = Ok tt /\
  exists s', subs w2 !! id = Some s' /\
    s' = match swept now s with Some st => if fails (QStatus id) then s else set_status st s | None => s end /\
    access (calls w2) id = match swept now s with Some _ => Some false | None => access (calls w) id end /\
    (fails (QStatus id) = false -> Status s' = Active -> CreatedAt s < now - minute -> 0 <= GetEffectiveDataLimit s ->
     GrantsAccess s' now = true).
Proof.
  intros Hw HL1 HL2 Hs. unfold CheckAndExpireSubscriptions, ListExpired. rewrite HL1.
  unfold CheckAndExpireByDataLimit, ListDataExhausted. rewrite HL2.
  split; [done|]. split; [done|]. pose proof (sweeps_view w now id s Hw Hs) as Hv. simpl in Hv.
  set (w2 := foldl _ _ _) in *. unfold view in Hv. rewrite Hs in Hv.
  destruct (swept now s) as [st|] eqn:HS; injection Hv as -> ->; eexists; repeat (split; [done|]).
  - intros ->. simpl. by intros ?%(swept_status now s).
  - intros _. by apply unswept_grants.
Qed.
End panel_lemmas.

(** A table with one subscription past its date, one over its limit and one in order. *)
Definition demo_sub (id : Z) (user : option Z) (st : SubscriptionStatus) (endDate : option Z) (used limit : Z) : Subscription :=
  MkSub id user st 0 "" endDate used used 0 0 0 0 limit None None None None false false false None 0 0.

Definition demo_world : World :=
  MkWorld (<[1 := demo_sub 1 (Some 7) Active (Some (5 * day)) 10 100]>
          (<[2 := demo_sub 2 (Some 7) Active (Some (50 * day)) 200 100]>
          (<[3 := demo_sub 3 (Some 7) Active (Some (50 * day)) 10 0]>
          (<[4 := demo_sub 4 (Some 7) Expired (Some (5 * day)) 10 0]> ∅)))) {[7 := false]} [].

Lemma demo_world_wf : wf demo_world.
Proof.
  intros id s. unfold demo_world. cbn [subs]. rewrite !lookup_insert_Some, lookup_empty. naive_solver.
Qed.

Lemma sweeps_settle_witness :
  swept (10 * day) (demo_sub 1 (Some 7) Active (Some (5 * day)) 10 100) = Some Expired /\
  let '(w1, r1) := CheckAndExpireSubscriptions (fun _ => false) demo_world (10 * day) in
  let '(w2, r2) := CheckAndExpireByDataLimit (fun _ => false) w1 in
  r1 = Ok tt /\ r2 = Ok tt /\
  exists s', subs w2 !! 1 = Some s' /\ Status s' = Expired /\ access (calls w2) 1 = Some false.
Proof.
  split; [by vm_compute|].
  pose proof (sweeps_settle (fun _ => false) demo_world (10 * day) 1 (demo_sub 1 (Some 7) Active (Some (5 * day)) 10 100)
    demo_world_wf eq_refl eq_refl ltac:(by vm_compute)) as H.
  destruct (CheckAndExpireSubscriptions _ _ _) as [w1 r1]. destruct (CheckAndExpireByDataLimit _ _) as [w2 r2].
  destruct H as (-> & -> & s' & Hs & -> & Ha & _). split; [done|]. split; [done|].
  eexists. split; [exact Hs|]. split; [by vm_compute|]. rewrite Ha. by vm_compute.
Defined.

(** A subscription stopped for its traffic whose date has passed as well gets
    its access back when data is added to it, until the next sweep: neither
    [AddData] nor [SetCustomDataLimit] looks at the date. *)
Theorem add_data_revives_expired :
  exists w id now, let fails := fun _ => false in
    wf w /\ (exists s, subs w !! id = Some s /\ Status s = TrafficExhausted /\ IsExpired s now = true) /\
    let '(w', r) := AddData fails w id (f64_of_int 1) true in
    r = Ok tt /\ (exists s, subs w' !! id = Some s /\ Status s = Active /\ IsExpired s now = true) /\
    access (calls w') id = Some true.
Proof.
  exists (MkWorld {[1 := demo_sub 1 None TrafficExhausted (Some (5 * day)) 200 100]} ∅ []), 1, (10 * day).
  split; [intros id s; cbn [subs]; rewrite lookup_singleton_Some; naive_solver|].
  split; [eexists; split; [apply lookup_singleton_eq|by vm_compute]|].
  rewrite (surjective_pairing (AddData _ _ _ _ _)).
  split; [by vm_compute|]. split; [|by vm_compute]. eexists. split; [by vm_compute|]. by vm_compute.
Qed.
