(* ===== verification/PanelAdmin.v ===== *)
(** * The administrator's changes of subscriptions

    Models [internal/admin/usecase/admin_subscriptions.go] (extend, revoke,
    pause, resume, delete, the bulk actions) and the bans of
    [admin_users.go], over the database of [PanelSubs]. Deleting the
    subscription's tunnels and accounts, which other components do, is a call
    whose answer is given. Intervals are added as PostgreSQL adds days in UTC. *)

From S2P Require Import Prelude GoFloat PanelSubs.

Section admin.
Context (fails : statement -> bool).

(** [ListByUserID]: the newest first, at most [limit] from [offset]. *)
Definition newer (a b : Subscription) : Prop := CreatedAt b <= CreatedAt a.
#[export] Instance newer_dec a b : Decision (newer a b) := decide (CreatedAt b <= CreatedAt a).

Definition ListByUserID (w : World) (user : Z) (offset limit : nat) : option (list Subscription) :=
  if fails (QListUser user) then None
  else Some (take limit (drop offset (merge_sort newer (select w (fun s => bool_decide (UserID s = Some user)))))).

Definition extended (days : Z) (s : Subscription) : Subscription :=
  set_end ((fun d => d + days * day) <$> EndDate s) ((fun d => d + days * day) <$> CustomEndDate s) (IsEndDateCustom s) s.

Definition ExtendDays (w : World) (id days : Z) : World * bool := update fails w (QExtend id) id (extended days).

Definition ExtendSubscription (w : World) (id days : Z) : World * result subError unit :=
  match FindByID fails w id with
  | None => (w, Err ErrSubscriptionNotFound)
  | Some sub =>
      match Status sub with
      | Expired | Active =>
          let '(w, ok) := ExtendDays w id days in
          if negb ok then (w, Err ErrDB) else
          let '(w, ok) := UpdateStatus fails w id Active in
          if negb ok then (w, Err ErrDB) else (setTunnelAccess w id true, Ok tt)
      | _ => let '(w, ok) := ExtendDays w id days in (w, if ok then Ok tt else Err ErrDB)
      end
  end.

Definition RevokeSubscription (w : World) (id : Z) : World * result subError unit :=
  let '(w, ok) := UpdateStatus fails (setTunnelAccess w id false) id Cancelled in
  (w, if ok then Ok tt else Err ErrDB).

Definition PauseSubscriptionFor (w : World) (id : Z) (reason : string) : World * result subError unit :=
  let '(w, ok) := UpdateStatusWithPauseReason fails (setTunnelAccess w id false) id Paused reason in
  (w, if ok then Ok tt else Err ErrDB).

Definition PauseSubscription (w : World) (id : Z) : World * result subError unit :=
  PauseSubscriptionFor w id PauseReasonAdmin.

Definition ResumeSubscription (w : World) (id now : Z) : World * result subError unit :=
  match FindByID fails w id with
  | None => (w, Err ErrSubscriptionNotFound)
  | Some sub =>
      if IsExpired sub now then (w, Err ErrResumeExpired) else
      let '(w, ok) := UpdateStatusWithPauseReason fails w id Active "" in
      if negb ok then (w, Err ErrDB) else (setTunnelAccess w id true, Ok tt)
  end.

(** [tunnels], [accounts]: whether those deletions worked. *)
Definition DeleteSubscription (w : World) (id : Z) (tunnels accounts : Z -> bool) : World * result subError unit :=
  match FindByID fails w id with
  | None => (w, Err ErrSubscriptionNotFound)
  | Some _ =>
      let w := emit w (CDeleteTunnels id) in
      if negb (tunnels id) then (w, Err ErrDeleteTunnels) else
      let w := emit w (CDeleteAccounts id) in
      if negb (accounts id) then (w, Err ErrDeleteAccounts) else
      if fails (QDelete id) then (w, Err ErrDB) else (with_subs w (delete id (subs w)), Ok tt)
  end.

(** ** Bulk actions *)

Record BulkActionResult := MkBulk { Succeeded : Z; Failed : Z; Errors : list (Z * subError) }.

Definition bulk_count (r : BulkActionResult) (id : Z) (e : result subError unit) : BulkActionResult :=
  match e with
  | Ok _ => MkBulk (Succeeded r + 1) (Failed r) (Errors r)
  | Err e => MkBulk (Succeeded r) (Failed r + 1) (Errors r ++ [(id, e)])
  end.

Definition bulk_step (f : World -> Z -> World * result subError unit) (a : World * BulkActionResult) (id : Z)
    : World * BulkActionResult :=
  let '(w, e) := f a.1 id in (w, bulk_count a.2 id e).

(** The action's name as the switch reads it; an unknown one ends the loop at
    its first id. *)
Definition bulk_action (action : string) (now : Z) (tunnels accounts : Z -> bool)
    : option (World -> Z -> World * result subError unit) :=
  if bool_decide (action = "delete") then Some (fun w id => DeleteSubscription w id tunnels accounts)
  else if bool_decide (action = "pause") then Some PauseSubscription
  else if bool_decide (action = "resume") then Some (fun w id => ResumeSubscription w id now)
  else if bool_decide (action = "revoke") then Some RevokeSubscription
  else None.

Definition BulkSubscriptionAction (w : World) (action : string) (ids : list Z) (now : Z) (tunnels accounts : Z -> bool)
    : World * result subError BulkActionResult :=
  if (100 <? length ids)%nat then (w, Err ErrTooMany) else
  match bulk_action action now tunnels accounts, ids with
  | None, _ :: _ => (w, Err ErrUnknownAction)
  | None, [] => (w, Ok (MkBulk 0 0 []))
  | Some f, _ => let '(w, r) := foldl (bulk_step f) (w, MkBulk 0 0 []) ids in (w, Ok r)
  end.

Definition BulkSetBandwidthLimit (w : World) (ids : list Z) (mbps : option Z) : World * result subError BulkActionResult :=
  if (100 <? length ids)%nat then (w, Err ErrTooMany) else
  let '(w, r) := foldl (bulk_step (fun w id => SetCustomBandwidthLimit fails w id mbps)) (w, MkBulk 0 0 []) ids in
  (w, Ok r).

(** ** Bans *)

Record SubscriptionChanges := MkChanges { Changed : list Z; ChangesFailed : list Z }.

Definition UpdateBanStatus (w : World) (user : Z) (b : bool) : World * bool :=
  if fails (QBan user) then (w, false) else (MkWorld (subs w) (alter (fun _ => b) user (users w)) (calls w), true).

Definition ban_one (a : World * SubscriptionChanges) (sub : Subscription) : World * SubscriptionChanges :=
  let '(w, out) := a in
  if negb (bool_decide (Status sub = Active)) then (w, out) else
  let '(w, e) := PauseSubscriptionFor w (ID sub) PauseReasonBan in
  match e with
  | Err _ => (w, MkChanges (Changed out) (ChangesFailed out ++ [ID sub]))
  | Ok _ => (w, MkChanges (Changed out ++ [ID sub]) (ChangesFailed out))
  end.

Definition BanUser (w : World) (user : Z) : World * result subError SubscriptionChanges :=
  let '(w, ok) := UpdateBanStatus w user true in
  if negb ok then (w, Err ErrDB) else
  match ListByUserID w user 0 1000 with
  | None => (w, Ok (MkChanges [] []))
  | Some l => let '(w, out) := foldl ban_one (w, MkChanges [] []) l in (w, Ok out)
  end.

Definition unban_one (now : Z) (a : World * SubscriptionChanges) (sub : Subscription) : World * SubscriptionChanges :=
  let '(w, out) := a in
  if negb (bool_decide (Status sub = Paused)) || negb (bool_decide (PauseReason sub = PauseReasonBan)) then (w, out) else
  if IsExpired sub now then
    let '(w, ok) := UpdateStatusWithPauseReason fails w (ID sub) Active "" in
    (w, if ok then out else MkChanges (Changed out) (ChangesFailed out ++ [ID sub]))
  else
  let '(w, e) := ResumeSubscription w (ID sub) now in
  match e with
  | Err _ => (w, MkChanges (Changed out) (ChangesFailed out ++ [ID sub]))
  | Ok _ => (w, MkChanges (Changed out ++ [ID sub]) (ChangesFailed out))
  end.

Definition UnbanUser (w : World) (user now : Z) : World * result subError SubscriptionChanges :=
  let '(w, ok) := UpdateBanStatus w user false in
  if negb ok then (w, Err ErrDB) else
  match ListByUserID w user 0 1000 with
  | None => (w, Ok (MkChanges [] []))
  | Some l => let '(w, out) := foldl (unban_one now) (w, MkChanges [] []) l in (w, Ok out)
  end.
End admin.

(** ** Ban and unban *)

Definition paused (reason : string) (s : Subscription) : Subscription :=
  if bool_decide (Status s = Paused) then s else set_reason reason (set_status Paused s).

Section admin_lemmas.
Context (fails : statement -> bool) (Hok : forall q, fails q = false).

Lemma pause_view w id reason k :
  view (PauseSubscriptionFor fails w id reason).1 k =
  if decide (k = id) then (paused reason <$> (view w k).1, Some false) else view w k.
Proof.
  unfold PauseSubscriptionFor, UpdateStatusWithPauseReason. rewrite (surjective_pairing (update _ _ _ _ _)). simpl.
  rewrite view_update, view_access, Hok. by case_decide.
Qed.

Lemma pause_ok w id reason : (PauseSubscriptionFor fails w id reason).2 = Ok tt.
Proof. unfold PauseSubscriptionFor, UpdateStatusWithPauseReason, update. by rewrite Hok. Qed.

Lemma active_view w id k :
  view (UpdateStatusWithPauseReason fails w id Active "").1 k =
  if decide (k = id) then ((fun s => set_reason "" (set_status Active s)) <$> (view w k).1, (view w k).2) else view w k.
Proof. unfold UpdateStatusWithPauseReason. by rewrite view_update, Hok. Qed.

Lemma status_ok w id st reason : (UpdateStatusWithPauseReason fails w id st reason).2 = true.
Proof. unfold UpdateStatusWithPauseReason. by rewrite update_ok, Hok. Qed.

Definition ban_row (s : Subscription) (x : option Subscription * option bool) : option Subscription * option bool :=
  if bool_decide (Status s = Active) then (paused PauseReasonBan <$> x.1, Some false) else x.

Definition unban_row (now : Z) (s : Subscription) (x : option Subscription * option bool)
    : option Subscription * option bool :=
  if bool_decide (Status s = Paused) && bool_decide (PauseReason s = PauseReasonBan) then
    ((fun s => set_reason "" (set_status Active s)) <$> x.1, if IsExpired s now then x.2 else Some true)
  else x.

Lemma ban_one_view a s k :
  view (ban_one fails a s).1 k = if decide (k = ID s) then ban_row s (view a.1 k) else view a.1 k.
Proof.
  destruct a as [w out]. unfold ban_one, ban_row. destruct (bool_decide _); simpl; [|by case_decide].
  rewrite (surjective_pairing (PauseSubscriptionFor _ _ _ _)), pause_ok. simpl. apply pause_view.
Qed.

Lemma unban_one_view now a s k :
  subs a.1 !! ID s = Some s ->
  view (unban_one fails now a s).1 k = if decide (k = ID s) then unban_row now s (view a.1 k) else view a.1 k.
Proof.
  destruct a as [w out]. simpl. intros Hs. unfold unban_one, unban_row.
  destruct (bool_decide (Status s = Paused)), (bool_decide (PauseReason s = _)); simpl; try by case_decide.
  destruct (IsExpired s now) eqn:HE.
  - rewrite (surjective_pairing (UpdateStatusWithPauseReason _ _ _ _ _)). simpl. apply active_view.
  - unfold ResumeSubscription, FindByID. rewrite Hok, Hs, HE.
    rewrite (surjective_pairing (UpdateStatusWithPauseReason _ _ _ _ _)).
    rewrite status_ok. simpl. rewrite view_access, active_view.
    by case_decide.
Qed.

(** The user's rows, all of them while there are at most 1000. *)
Definition of_user (user : Z) (s : Subscription) : bool := bool_decide (UserID s = Some user).

Lemma ListByUserID_all w user :
  (length (select w (of_user user)) <= 1000)%nat ->
  exists l, ListByUserID fails w user 0 1000 = Some l /\ l ≡ₚ select w (of_user user).
Proof.
  intros Hlen. unfold ListByUserID. rewrite Hok. eexists. split; [done|]. simpl. unfold of_user.
  rewrite take_ge; [apply merge_sort_Permutation|]. by rewrite merge_sort_Permutation.
Qed.

(** A loop over the user's rows treats exactly those. *)
Definition if_user (user : Z) (g : Subscription -> option Subscription * option bool -> option Subscription * option bool)
    (x : option Subscription * option bool) : option Subscription * option bool :=
  match x.1 with Some s => if of_user user s then g s x else x | None => x end.

Lemma user_loop {A} (p : A -> World) (f : A -> Subscription -> A) g w user a l id :
  wf w -> l ≡ₚ select w (of_user user) -> p a = w ->
  (forall a s, subs (p a) !! ID s = Some s -> forall k,
     view (p (f a s)) k = if decide (k = ID s) then g s (view (p a) k) else view (p a) k) ->
  view (p (foldl f a l)) id = if_user user g (view w id).
Proof.
  intros Hw Hl Ha Hf. destruct (foldl_at (fun a => view (p a)) ID f g l a) as [H1 H2].
  - intros a' s' Hs' Heq. apply Hf. rewrite Hl in Hs'. apply elem_select in Hs' as [Hs' _]; [|done].
    apply (f_equal fst) in Heq. simpl in Heq. by rewrite Heq, Ha.
  - rewrite Hl. by apply select_ids.
  - unfold if_user. simpl. destruct (subs w !! id) as [s|] eqn:Hs.
    + pose proof (elem_select_ids w (of_user user) id s Hw Hs) as Hin. destruct (of_user user s) eqn:HP.
      * pose proof (Hw _ _ Hs) as <-. rewrite H1, Ha; [done|]. rewrite Hl. by apply elem_select.
      * rewrite H2, Ha; [done|]. rewrite Hl. naive_solver.
    + rewrite H2, Ha; [done|]. rewrite Hl. intros (s & -> & [Hs' _]%elem_select)%list_elem_of_fmap; [|done]. congruence.
Qed.

Lemma ban_view w user id :
  wf w -> (length (select w (of_user user)) <= 1000)%nat ->
  view (BanUser fails w user).1 id = if_user user ban_row (view w id).
Proof.
  intros Hw Hlen. unfold BanUser, UpdateBanStatus. rewrite Hok. simpl. set (w0 := MkWorld _ _ _).
  destruct (ListByUserID_all w0 user Hlen) as (l & -> & Hl).
  rewrite (surjective_pairing (foldl _ _ _)). simpl.
  apply (user_loop fst (ban_one fails) ban_row w0 user (w0, MkChanges [] []) l id); [done..|].
  intros a s' _ k. apply ban_one_view.
Qed.

Lemma unban_view w user now id :
  wf w -> (length (select w (of_user user)) <= 1000)%nat ->
  view (UnbanUser fails w user now).1 id = if_user user (unban_row now) (view w id).
Proof.
  intros Hw Hlen. unfold UnbanUser, UpdateBanStatus. rewrite Hok. simpl. set (w0 := MkWorld _ _ _).
  destruct (ListByUserID_all w0 user Hlen) as (l & -> & Hl).
  rewrite (surjective_pairing (foldl _ _ _)). simpl.
  apply (user_loop fst (unban_one fails now) (unban_row now) w0 user (w0, MkChanges [] []) l id); [done..|].
  intros a s' Hs' k. by apply unban_one_view.
Qed.

(** Pauses an administrator asked for one after another. *)
Definition pauses (w : World) (ids : list Z) : World := foldl (fun w id => (PauseSubscription fails w id).1) w ids.

Lemma pauses_view w ids k :
  view (pauses w ids) k =
  if bool_decide (k ∈ ids) then (paused PauseReasonAdmin <$> (view w k).1, Some false) else view w k.
Proof.
  revert w. induction ids as [|id ids IH]; intros w; [done|]. unfold pauses in *. simpl. rewrite IH.
  unfold PauseSubscription. rewrite pause_view. destruct (decide (k = id)) as [->|Hk].
  - rewrite (bool_decide_eq_true_2 (id ∈ id :: ids)) by left. case_bool_decide; [|done]. simpl. f_equal.
    destruct (subs w !! id) as [s|]; [|done]. simpl. f_equal. unfold paused.
    destruct (bool_decide_reflect (Status s = Paused)); rewrite bool_decide_eq_true_2; done.
  - by rewrite (bool_decide_ext (k ∈ id :: ids) (k ∈ ids)) by set_solver.
Qed.

(** Rows the steps keep: their number, ids and owners. *)
Definition same_rows (w w' : World) : Prop :=
  forall id, (fun s => (ID s, UserID s)) <$> subs w' !! id = (fun s => (ID s, UserID s)) <$> subs w !! id.

Lemma same_rows_wf w w' : same_rows w w' -> wf w -> wf w'.
Proof.
  intros H Hw. apply (wf_view w); [done|]. intros id s Hs. specialize (H id). rewrite Hs in H. simpl in H.
  symmetry in H. apply fmap_Some in H as (s0 & H0 & [= ? ?]). by exists s0.
Qed.

Lemma same_rows_select w w' user :
  same_rows w w' -> wf w -> length (select w' (of_user user)) = length (select w (of_user user)).
Proof.
  intros H Hw. pose proof (same_rows_wf _ _ H Hw) as Hw'.
  rewrite <-(length_fmap ID (select w' _)), <-(length_fmap ID (select w _)). apply Permutation_length.
  apply NoDup_Permutation; [by apply select_ids..|]. intros id. specialize (H id). unfold of_user.
  rewrite !list_elem_of_fmap. setoid_rewrite elem_select; [|done..]. setoid_rewrite bool_decide_eq_true.
  split; intros (s & -> & Hs & Hu); rewrite Hs in H; simpl in H.
  - symmetry in H. apply fmap_Some in H as (s0 & H0 & [= H1 H2]). exists s0. rewrite <-H1, H0. split; [done|]. by rewrite <-H2.
  - apply fmap_Some in H as (s0 & H0 & [= H1 H2]). exists s0. rewrite <-H1, H0. split; [done|]. by rewrite <-H2.
Qed.

Lemma paused_keeps reason s : (ID (paused reason s), UserID (paused reason s)) = (ID s, UserID s).
Proof. unfold paused. by case_bool_decide. Qed.

Lemma ban_pauses_rows w user ids :
  wf w -> (length (select w (of_user user)) <= 1000)%nat -> same_rows w (pauses (BanUser fails w user).1 ids).
Proof.
  intros Hw Hlen id. pose proof (pauses_view (BanUser fails w user).1 ids id) as Hp. rewrite ban_view in Hp by done.
  apply (f_equal fst) in Hp. simpl in Hp. rewrite Hp. unfold if_user, ban_row, view.
  cbn [fst snd]. destruct (subs w !! id) as [s|] eqn:Hs; [|by case_bool_decide].
  destruct (of_user user s), (bool_decide (Status s = Active)), (bool_decide (id ∈ ids)); simpl; rewrite ?Hs; simpl;
    by rewrite ?paused_keeps.
Qed.

Lemma paused_user user reason s : of_user user (paused reason s) = of_user user s.
Proof. unfold of_user. pose proof (f_equal snd (paused_keeps reason s)) as H. simpl in H. by rewrite H. Qed.

Lemma paused_twice r r' s : paused r (paused r' s) = paused r' s.
Proof. unfold paused at 1. rewrite bool_decide_eq_true_2; [done|]. unfold paused. by case_bool_decide. Qed.

Lemma unban_row_restores now s :
  Status s = Active ->
  unban_row now (paused PauseReasonBan s) (Some (paused PauseReasonBan s), Some false) =
  (Some (set_reason "" s), Some (negb (IsExpired s now))).
Proof.
  destruct s as [? ? st]. simpl. intros ->. unfold unban_row, paused. simpl. unfold set_reason, set_status. simpl.
  unfold IsExpired, GetEffectiveEndDate. simpl. by repeat case_match.
Qed.

Lemma unban_row_other now s x : (Status s = Paused -> PauseReason s <> PauseReasonBan) -> unban_row now s x = x.
Proof. unfold unban_row. intros H. do 2 case_bool_decide; naive_solver. Qed.

Lemma paused_not_ban s :
  (Status s = Paused -> PauseReason s <> PauseReasonBan) -> PauseReason (paused PauseReasonAdmin s) <> PauseReasonBan.
Proof. unfold paused. case_bool_decide; naive_solver. Qed.

(** A ban and its lifting, with any pauses an administrator asked for in
    between, when no statement fails and the user has at most 1000
    subscriptions, none paused by an earlier ban: each subscription the ban
    found active is active again with no reason left, and has its access back
    exactly when its date has not passed; of every other subscription only the
    administrator's pauses remain, and its access is what they left. *)
Theorem unban_undoes_ban w user ids now id s :
  wf w -> (length (select w (of_user user)) <= 1000)%nat -> subs w !! id = Some s ->
  (of_user user s = true -> Status s = Paused -> PauseReason s <> PauseReasonBan) ->
  let w' := (UnbanUser fails (pauses (BanUser fails w user).1 ids) user now).1 in
  if of_user user s && bool_decide (Status s = Active) then
    subs w' !! id = Some (set_reason "" s) /\ access (calls w') id = Some (negb (IsExpired s now))
  else if bool_decide (id ∈ ids) then
    subs w' !! id = Some (paused PauseReasonAdmin s) /\ access (calls w') id = Some false
  else subs w' !! id = Some s /\ access (calls w') id = access (calls w) id.
Proof.
  intros Hw Hlen Hs Hnb w'. pose proof (ban_pauses_rows w user ids Hw Hlen) as Hsame.
  assert (view w' id = if_user user (unban_row now) (view (pauses (BanUser fails w user).1 ids) id)) as Hv.
  { apply unban_view; [by eapply same_rows_wf|]. by rewrite (same_rows_select w). }
  rewrite pauses_view, ban_view in Hv by done. unfold view in Hv. rewrite Hs in Hv. generalize dependent w'. intros w' Hv.
  unfold if_user at 2 3 in Hv. unfold ban_row in Hv. simpl in Hv.
  destruct (of_user user s) eqn:Hu; simpl in Hv |- *.
  - destruct (bool_decide_reflect (Status s = Active)) as [HA|HA]; simpl in Hv |- *.
    + assert ((subs w' !! id, access (calls w') id) =
        if_user user (unban_row now) (Some (paused PauseReasonBan s), Some false)) as Hv'.
      { rewrite Hv. case_bool_decide; [|done]. by rewrite paused_twice. }
      unfold if_user in Hv'. simpl in Hv'. rewrite paused_user, Hu, unban_row_restores in Hv' by done. by simplify_eq.
    + case_bool_decide; unfold if_user in Hv; simpl in Hv; rewrite ?paused_user, Hu, unban_row_other in Hv; simplify_eq;
        [done|by intros _; apply paused_not_ban; auto|done|auto].
  - case_bool_decide; unfold if_user in Hv; simpl in Hv; rewrite ?paused_user, Hu in Hv; by simplify_eq.
Qed.
End admin_lemmas.

(** The user 7's subscriptions are banned, one is paused by hand as well, and
    the ban is lifted. *)
Lemma unban_undoes_ban_witness :
  (UserID (demo_sub 3 (Some 7) Active (Some (50 * day)) 10 0) = Some 7) /\
  let fails := fun _ => false in
  let w' := (UnbanUser fails (pauses fails (BanUser fails demo_world 7).1 [3]) 7 (10 * day)).1 in
  subs w' !! 3 = Some (set_reason "" (demo_sub 3 (Some 7) Active (Some (50 * day)) 10 0)) /\
  access (calls w') 3 = Some true.
Proof.
  split; [done|].
  pose proof (unban_undoes_ban (fun _ => false) (fun _ => eq_refl) demo_world 7 [3] (10 * day) 3
    (demo_sub 3 (Some 7) Active (Some (50 * day)) 10 0) demo_world_wf ltac:(vm_compute; lia) ltac:(by vm_compute)
    ltac:(done)) as H.
  exact H.
Defined.

(** ** Every change keeps the rows well formed *)

(** A row: no negative device count, a limit marked as custom exactly when it is
    set, and a pause that says who asked for it. *)
Definition row_ok (id : Z) (s : Subscription) : Prop :=
  ID s = id /\ 0 <= MaxDevices s /\ IsDataLimitCustom s = bool_decide (CustomDataLimit s <> None) /\
  IsBandwidthCustom s = bool_decide (CustomBandwidthLimit s <> None) /\
  (Status s = Paused -> PauseReason s = PauseReasonAdmin \/ PauseReason s = PauseReasonBan).

Definition typed (w : World) : Prop := map_Forall row_ok (subs w).

(** The panel's changes, each with the statements that fail in it. *)
Inductive op :=
| OExpire (now : Z) | OExhaust | OCancel (id : Z) | OUsage (id bytes : Z) | OLimit (id : Z) (gb : option float64) (hasXray : bool)
| OBandwidth (id : Z) (mbps : option Z) | ODevices (id n : Z) | OEnd (id : Z) (endDate : option Z) (isCustom : bool) (now : Z)
| OAdd (id : Z) (gb : float64) (hasXray : bool) | OReset (id : Z) | OExtend (id days : Z)
| OBulk (action : string) (ids : list Z) (now : Z) (tunnels accounts : Z -> bool) | OBulkBandwidth (ids : list Z) (mbps : option Z)
| OBan (user : Z) | OUnban (user now : Z).

Definition run_op (w : World) (o : (statement -> bool) * op) : World :=
  let fails := o.1 in
  match o.2 with
  | OExpire now => (CheckAndExpireSubscriptions fails w now).1
  | OExhaust => (CheckAndExpireByDataLimit fails w).1
  | OCancel id => (Cancel fails w id).1
  | OUsage id n => (UpdateDataUsage fails w id n).1
  | OLimit id gb x => (SetCustomDataLimit fails w id gb x).1
  | OBandwidth id m => (SetCustomBandwidthLimit fails w id m).1
  | ODevices id n => (SetMaxDevices fails w id n).1
  | OEnd id d c now => (SetCustomEndDate fails w id d c now).1
  | OAdd id gb x => (AddData fails w id gb x).1
  | OReset id => (ResetDataUsed fails w id).1
  | OExtend id days => (ExtendSubscription fails w id days).1
  | OBulk a ids now t c => (BulkSubscriptionAction fails w a ids now t c).1
  | OBulkBandwidth ids m => (BulkSetBandwidthLimit fails w ids m).1
  | OBan u => (BanUser fails w u).1
  | OUnban u now => (UnbanUser fails w u now).1
  end.

Section typed.
Context (fails : statement -> bool).

Lemma typed_emit w c : typed w -> typed (emit w c).
Proof. done. Qed.

Lemma typed_update w q id f :
  typed w -> (forall s, row_ok id s -> row_ok id (f s)) -> typed (update fails w q id f).1.
Proof.
  intros Hw Hf. unfold update. destruct (fails q); [done|]. simpl. intros k s Hs. simpl in Hs.
  apply lookup_alter_Some in Hs as [(-> & s0 & Hs & ->)|[_ Hs]]; [apply Hf|]; by apply Hw.
Qed.

Lemma row_status st id s : st <> Paused -> row_ok id s -> row_ok id (set_status st s).
Proof. unfold row_ok. destruct s. simpl. naive_solver. Qed.

Lemma row_pause st reason id s :
  (st = Paused -> reason = PauseReasonAdmin \/ reason = PauseReasonBan) -> row_ok id s ->
  row_ok id (if bool_decide (st = Paused) && bool_decide (Status s = Paused) then s else set_reason reason (set_status st s)).
Proof. intros Hr Hs. case_match; [done|]. unfold row_ok in *. destruct s. simpl in *. naive_solver. Qed.

Lemma row_same id s f :
  (ID (f s) = ID s /\ MaxDevices (f s) = MaxDevices s /\ Status (f s) = Status s /\ PauseReason (f s) = PauseReason s /\
   IsDataLimitCustom (f s) = IsDataLimitCustom s /\ CustomDataLimit (f s) = CustomDataLimit s /\
   IsBandwidthCustom (f s) = IsBandwidthCustom s /\ CustomBandwidthLimit (f s) = CustomBandwidthLimit s) ->
  row_ok id s -> row_ok id (f s).
Proof. unfold row_ok. intros (-> & -> & -> & -> & -> & -> & -> & ->). done. Qed.
End typed.

(** Closes the obligation on one row's change. *)
Ltac row_change :=
  intros ? ?;
  first [ apply row_status; [done|assumption]
        | apply row_pause; [by auto|assumption]
        | refine (row_same _ _ _ _ _); [by repeat split|assumption]
        | unfold row_ok in *; simpl in *; repeat case_bool_decide; naive_solver lia ].

(** Walks through an operation: calls and updates keep the rows well formed. *)
Ltac typed_go :=
  repeat first
    [ assumption
    | apply typed_emit
    | apply typed_update; [|row_change]
    | match goal with |- context [let '(_, _) := ?p in _] => rewrite (surjective_pairing p); cbn [fst snd] end
    | case_match ].

Section typed_ops.
Context (fails : statement -> bool).

Lemma typed_expire_one st w s : st <> Paused -> typed w -> typed (expire_one fails st w s).
Proof. intros Hst Hw. unfold expire_one, UpdateStatus, deactivateOnNodes, setTunnelAccess. typed_go. Qed.

Lemma typed_foldl {A} (p : A -> World) {B} (f : A -> B -> A) l a :
  (forall a b, typed (p a) -> typed (p (f a b))) -> typed (p a) -> typed (p (foldl f a l)).
Proof. intros Hf. revert a. induction l as [|b l IH]; intros a Ha; [done|]. simpl. by apply IH, Hf. Qed.

Lemma typed_reactivate w id x : typed w -> typed (reactivateSubscription fails w id x).
Proof. intros Hw. unfold reactivateSubscription, UpdateStatus, setTunnelAccess. typed_go. Qed.

Lemma typed_pause w id reason :
  reason = PauseReasonAdmin \/ reason = PauseReasonBan -> typed w -> typed (PauseSubscriptionFor fails w id reason).1.
Proof.
  intros Hr Hw. unfold PauseSubscriptionFor, UpdateStatusWithPauseReason, setTunnelAccess. typed_go.
Qed.

Lemma typed_resume w id now : typed w -> typed (ResumeSubscription fails w id now).1.
Proof. intros Hw. unfold ResumeSubscription, UpdateStatusWithPauseReason, setTunnelAccess. typed_go. Qed.

Lemma typed_revoke w id : typed w -> typed (RevokeSubscription fails w id).1.
Proof. intros Hw. unfold RevokeSubscription, UpdateStatus, setTunnelAccess. typed_go. Qed.

Lemma typed_delete w id t a : typed w -> typed (DeleteSubscription fails w id t a).1.
Proof.
  intros Hw. unfold DeleteSubscription. typed_go. intros k s' Hs. simpl in Hs.
  apply lookup_delete_Some in Hs as [_ Hs]. by apply Hw.
Qed.

Lemma typed_bandwidth w id m : typed w -> typed (SetCustomBandwidthLimit fails w id m).1.
Proof. intros Hw. unfold SetCustomBandwidthLimit. typed_go. Qed.

Lemma typed_bulk f ids a : (forall w id, typed w -> typed (f w id).1) -> typed a.1 -> typed (foldl (bulk_step f) a ids).1.
Proof.
  intros Hf. apply (typed_foldl fst). intros a' id Ha'. unfold bulk_step. rewrite (surjective_pairing (f a'.1 id)).
  by apply Hf.
Qed.

Lemma typed_bulk_action w a ids now t c : typed w -> typed (BulkSubscriptionAction fails w a ids now t c).1.
Proof.
  intros Hw. unfold BulkSubscriptionAction. case_match; [done|]. destruct (bulk_action _ _ _ _ _) as [f|] eqn:Hf; [|by destruct ids].
  rewrite (surjective_pairing (foldl _ _ _)). apply typed_bulk; [|done]. intros w' id Hw'. unfold bulk_action in Hf.
  repeat (case_match; simplify_eq); [by apply typed_delete|apply typed_pause; auto|by apply typed_resume|by apply typed_revoke].
Qed.

Lemma typed_ban w u : typed w -> typed (BanUser fails w u).1.
Proof.
  intros Hw. unfold BanUser, UpdateBanStatus. destruct (fails (QBan u)); simpl; [done|].
  destruct (ListByUserID _ _ _ _ _); simpl; [|done].
  rewrite (surjective_pairing (foldl _ _ _)). apply (typed_foldl fst); [|done]. intros [w' out] s Hw'. unfold ban_one.
  case_match; [done|]. rewrite (surjective_pairing (PauseSubscriptionFor _ _ _ _)).
  pose proof (typed_pause w' (ID s) PauseReasonBan (or_intror eq_refl) Hw'). by case_match.
Qed.

Lemma typed_unban w u now : typed w -> typed (UnbanUser fails w u now).1.
Proof.
  intros Hw. unfold UnbanUser, UpdateBanStatus. destruct (fails (QBan u)); simpl; [done|].
  destruct (ListByUserID _ _ _ _ _); simpl; [|done].
  rewrite (surjective_pairing (foldl _ _ _)). apply (typed_foldl fst); [|done]. intros [w' out] s Hw'. unfold unban_one.
  case_match; [done|]. case_match.
  - unfold UpdateStatusWithPauseReason. typed_go.
  - rewrite (surjective_pairing (ResumeSubscription _ _ _ _)). pose proof (typed_resume w' (ID s) now Hw'). by case_match.
Qed.
End typed_ops.

Lemma typed_run_op w o : typed w -> typed (run_op w o).
Proof.
  destruct o as [fails o]. intros Hw. unfold run_op. destruct o; cbn [fst snd].
  - unfold CheckAndExpireSubscriptions. case_match; [|done]. apply (typed_foldl (fun w => w)); [|done].
    intros. by apply typed_expire_one.
  - unfold CheckAndExpireByDataLimit. case_match; [|done]. apply (typed_foldl (fun w => w)); [|done].
    intros. by apply typed_expire_one.
  - unfold Cancel, UpdateStatus, deactivateOnNodes, setTunnelAccess. typed_go.
  - unfold UpdateDataUsage. typed_go.
  - unfold SetCustomDataLimit, resetDataWarnings, setTunnelAccess. repeat first [apply typed_reactivate|progress typed_go].
  - by apply typed_bandwidth.
  - unfold SetMaxDevices. typed_go.
  - unfold SetCustomEndDate, UpdateStatus, setTunnelAccess. typed_go.
  - unfold AddData, resetDataWarnings, setTunnelAccess. repeat first [apply typed_reactivate|progress typed_go].
  - unfold ResetDataUsed, resetDataWarnings. typed_go.
  - unfold ExtendSubscription, ExtendDays, UpdateStatus, setTunnelAccess. typed_go.
  - by apply typed_bulk_action.
  - unfold BulkSetBandwidthLimit. case_match; [done|]. rewrite (surjective_pairing (foldl _ _ _)).
    apply typed_bulk; [|done]. intros. by apply typed_bandwidth.
  - by apply typed_ban.
  - by apply typed_unban.
Qed.


