(* ===== verification/PanelTraffic.v ===== *)
(** * The panel's batched traffic writes

    Models the writers of traffic counters: [AddUsageDeltas] and
    [AddDailyUsageSplits] of [internal/subscription/repository/traffic_batch.go],
    [AddUsageDeltas] of [internal/account/repository/traffic_batch.go],
    [AddCoreUserDataBatch] of [internal/core/repository/traffic_batch.go] and
    [AddUsageBatch] of [internal/wireguard/repository/traffic_batch.go]. Each
    merges its deltas by key, sorts the keys and writes them in batches of at
    most 50, each one SQL statement with a CASE arm per key; the five differ in
    the key, the merge and the statement only, and instantiate one loop. A
    statement that fails is given by the keys it writes. Byte counts are
    unbounded integers; [None] is Go's zero time. *)

From S2P Require Import Prelude PanelSubs.

Definition trafficBatchSize : nat := 50.

(** ** The shared loop *)

Section batched.
Context {K D T : Type} `{Countable K} (le : relation K) `{!RelDecision le}.
Context (key : D -> K) (zero : D) (merge : D -> D -> D) (keep : D -> bool) (write : list D -> T -> T).

(** [merged := byID[key]; ...; byID[key] = merged] *)
Definition merge_into (m : gmap K D) (d : D) : gmap K D := <[key d := merge (default zero (m !! key d)) d]> m.
Definition by_key (ds : list D) : gmap K D := foldl merge_into ∅ ds.

Definition sorted_keys (m : gmap K D) : list K :=
  merge_sort le (filter (fun kv => keep kv.2 = true) (map_to_list m)).*1.

(** [for start := 0; start < len(ids); start += trafficBatchSize]; the fuel is
    the number of keys, and each batch takes at least one. *)
Fixpoint chunks (fuel : nat) (l : list K) : list (list K) :=
  match fuel, l with
  | S fuel, _ :: _ => take trafficBatchSize l :: chunks fuel (drop trafficBatchSize l)
  | _, _ => []
  end.

Definition batch_of (m : gmap K D) (ks : list K) : list D := omap (fun k => m !! k) ks.

(** [bad]: whether the statement for a batch fails. *)
Fixpoint write_all (bad : list K -> bool) (m : gmap K D) (t : T) (bs : list (list K)) : T * bool :=
  match bs with
  | [] => (t, true)
  | b :: bs => if bad b then (t, false) else write_all bad m (write (batch_of m b) t) bs
  end.

Definition batched (bad : list K -> bool) (t : T) (ds : list D) : T * bool :=
  let m := by_key ds in
  let ids := sorted_keys m in
  write_all bad m t (chunks (length ids) ids).
End batched.

(** The arm of a [CASE id] for a key, or its ELSE. *)
Definition case_arm {K D A} `{EqDecision K} (key : D -> K) (batch : list D) (value : D -> A) (k : K) (other : A) : A :=
  match list_find (fun d => key d = k) batch with Some (_, d) => value d | None => other end.

(** [if delta.LastActive.After(merged.LastActive)] *)
Definition later (a b : option Z) : option Z :=
  match b, a with
  | Some y, Some x => if x <? y then Some y else Some x
  | Some y, None => Some y
  | None, _ => a
  end.

(** [CASE WHEN last IS NULL OR last < ? THEN ? ELSE last END] *)
Definition advance (t : Z) (last : option Z) : option Z :=
  match last with None => Some t | Some x => if x <? t then Some t else Some x end.

(** The CASE on the time of last activity: its arms are the deltas whose time is
    not zero, and without an arm the column is not in the statement. *)
Definition activity_case {D} (key : D -> Z) (time : D -> option Z) (batch : list D) (id : Z) (last : option Z) : option Z :=
  match filter (fun d => time d <> None) batch with
  | [] => last
  | arms => case_arm key arms (fun d => match time d with Some t => advance t last | None => last end) id last
  end.

(** The rows of a table the statement's WHERE names, changed by it. *)
Definition update_in {R} (ids : list Z) (f : Z -> R -> R) (t : gmap Z R) : gmap Z R :=
  map_imap (fun id r => Some (if bool_decide (id ∈ ids) then f id r else r)) t.

(** ** Subscriptions *)

Record UsageDelta := MkUsage { SubscriptionID : Z; Upload : Z; Download : Z; LastActive : option Z }.

Definition usage_merge (m d : UsageDelta) : UsageDelta :=
  MkUsage (SubscriptionID d) (Upload m + Upload d) (Download m + Download d) (later (LastActive m) (LastActive d)).

Definition subscriptionCounterCase (batch : list UsageDelta) (value : UsageDelta -> Z) (id : Z) : Z :=
  case_arm SubscriptionID batch value id 0.

Definition subscriptionActivityCase (batch : list UsageDelta) (id : Z) (last : option Z) : option Z :=
  activity_case SubscriptionID LastActive batch id last.

Definition usage_update (batch : list UsageDelta) (id : Z) (s : Subscription) : Subscription :=
  let total := subscriptionCounterCase batch (fun d => Upload d + Download d) id in
  let up := subscriptionCounterCase batch Upload id in
  let down := subscriptionCounterCase batch Download id in
  set_counters (DataUsed s + total) (LifetimeDataUsed s + total) (DataUpload s + up) (DataDownload s + down)
    (LifetimeDataUpload s + up) (LifetimeDataDownload s + down) (subscriptionActivityCase batch id (LastActiveAt s)) s.

Definition usage_write (batch : list UsageDelta) (t : gmap Z Subscription) : gmap Z Subscription :=
  update_in (SubscriptionID <$> batch) (usage_update batch) t.

Definition AddUsageDeltas (bad : list Z -> bool) (t : gmap Z Subscription) (ds : list UsageDelta)
    : gmap Z Subscription * bool :=
  batched Z.le SubscriptionID (MkUsage 0 0 0 None) usage_merge (fun _ => true) usage_write bad t ds.

(** ** A subscription's days *)

Record DailyUsageDelta := MkDaily { dd_SubscriptionID : Z; dd_Date : Z; dd_Upload : Z; dd_Download : Z }.

(** A row; the splits of old rows may be NULL. *)
Record DailyUsage := MkDay { du_DataUsed : Z; du_DataUpload : option Z; du_DataDownload : option Z }.

(** [Date.UTC().Truncate(24 * time.Hour)] *)
Definition day_of (t : Z) : Z := t - t mod day.

Definition daily_key (d : DailyUsageDelta) : Z * Z := (dd_SubscriptionID d, day_of (dd_Date d)).

Definition daily_le (a b : Z * Z) : Prop := a.1 < b.1 \/ a.1 = b.1 /\ a.2 <= b.2.
#[export] Instance daily_le_dec : RelDecision daily_le.
Proof. intros a b. unfold daily_le. apply _. Defined.

Definition daily_merge (m d : DailyUsageDelta) : DailyUsageDelta :=
  MkDaily (dd_SubscriptionID d) (day_of (dd_Date d)) (dd_Upload m + dd_Upload d) (dd_Download m + dd_Download d).

(** [INSERT ... ON CONFLICT (subscription_id, date) DO UPDATE] *)
Definition daily_upsert (d : DailyUsageDelta) (r : option DailyUsage) : DailyUsage :=
  let total := dd_Upload d + dd_Download d in
  match r with
  | None => MkDay total (Some (dd_Upload d)) (Some (dd_Download d))
  | Some r => MkDay (du_DataUsed r + total) (Some (default 0 (du_DataUpload r) + dd_Upload d))
                (Some (default 0 (du_DataDownload r) + dd_Download d))
  end.

Definition daily_write (batch : list DailyUsageDelta) (t : gmap (Z * Z) DailyUsage) : gmap (Z * Z) DailyUsage :=
  foldl (fun t d => <[(dd_SubscriptionID d, dd_Date d) := daily_upsert d (t !! (dd_SubscriptionID d, dd_Date d))]> t) t batch.

Definition AddDailyUsageSplits (bad : list (Z * Z) -> bool) (t : gmap (Z * Z) DailyUsage) (ds : list DailyUsageDelta)
    : gmap (Z * Z) DailyUsage * bool :=
  batched daily_le daily_key (MkDaily 0 0 0 0) daily_merge (fun _ => true) daily_write bad t ds.

(** ** Accounts *)

Record AccountDelta := MkAccountDelta { AccountID : Z; Bytes : Z; a_LastActive : option Z }.
Record Account := MkAccount { a_DataUsed : Z; LastActivityAt : option Z }.

Definition account_merge (m d : AccountDelta) : AccountDelta :=
  MkAccountDelta (AccountID d) (Bytes m + Bytes d) (later (a_LastActive m) (a_LastActive d)).

Definition account_update (batch : list AccountDelta) (id : Z) (a : Account) : Account :=
  MkAccount (a_DataUsed a + case_arm AccountID batch Bytes id 0)
    (activity_case AccountID a_LastActive batch id (LastActivityAt a)).

Definition account_write (batch : list AccountDelta) (t : gmap Z Account) : gmap Z Account :=
  update_in (AccountID <$> batch) (account_update batch) t.

Definition account_AddUsageDeltas (bad : list Z -> bool) (t : gmap Z Account) (ds : list AccountDelta)
    : gmap Z Account * bool :=
  batched Z.le AccountID (MkAccountDelta 0 0 None) account_merge (fun _ => true) account_write bad t ds.

(** ** Core users *)

Record CoreUsageDelta := MkCoreDelta { CoreUserID : Z; cd_Bytes : Z }.

Definition core_merge (m d : CoreUsageDelta) : CoreUsageDelta := MkCoreDelta (CoreUserID d) (cd_Bytes m + cd_Bytes d).

Definition core_write (batch : list CoreUsageDelta) (t : gmap Z Z) : gmap Z Z :=
  update_in (CoreUserID <$> batch) (fun id used => used + case_arm CoreUserID batch cd_Bytes id 0) t.

Definition AddCoreUserDataBatch (bad : list Z -> bool) (t : gmap Z Z) (ds : list CoreUsageDelta) : gmap Z Z * bool :=
  batched Z.le CoreUserID (MkCoreDelta 0 0) core_merge (fun d => negb (cd_Bytes d =? 0)) core_write bad t ds.

(** ** WireGuard peers *)

Record WGUsageDelta := MkWG { PeerID : Z; wg_Upload : Z; wg_Download : Z; LastSeen : option Z }.
Record WGPeer := MkPeer { UpBytes : Z; DownBytes : Z; p_LastSeen : option Z }.

Definition wg_merge (m d : WGUsageDelta) : WGUsageDelta :=
  MkWG (PeerID d) (wg_Upload m + wg_Upload d) (wg_Download m + wg_Download d) (later (LastSeen m) (LastSeen d)).

Definition wg_keep (d : WGUsageDelta) : bool :=
  negb (wg_Upload d =? 0) || negb (wg_Download d =? 0) || bool_decide (LastSeen d <> None).

Definition wg_update (batch : list WGUsageDelta) (id : Z) (p : WGPeer) : WGPeer :=
  MkPeer (UpBytes p + case_arm PeerID batch wg_Upload id 0) (DownBytes p + case_arm PeerID batch wg_Download id 0)
    (activity_case PeerID LastSeen batch id (p_LastSeen p)).

Definition wg_write (batch : list WGUsageDelta) (t : gmap Z WGPeer) : gmap Z WGPeer :=
  update_in (PeerID <$> batch) (wg_update batch) t.

Definition AddUsageBatch (bad : list Z -> bool) (t : gmap Z WGPeer) (ds : list WGUsageDelta) : gmap Z WGPeer * bool :=
  batched Z.le PeerID (MkWG 0 0 0 None) wg_merge wg_keep wg_write bad t ds.

(** ** What a batched write promises

    [apply] is the effect of one delta on one row, [filed] what a merged delta
    satisfies. A statement applies to each row the delta of its key; merging
    and then applying is applying one after the other; a delta that is not kept
    changes nothing. *)
Class BatchWriter {K D R : Type} `{Countable K} (key : D -> K) (zero : D) (merge : D -> D -> D) (keep : D -> bool)
    (write : list D -> gmap K R -> gmap K R) (filed : D -> Prop) (apply : D -> option R -> option R) : Prop := {
  bw_write batch t k : Forall filed batch -> NoDup (key <$> batch) ->
    write batch t !! k = case_arm key batch (fun d => apply d (t !! k)) k (t !! k);
  bw_key m d : key (merge m d) = key d;
  bw_filed m d : filed (merge m d);
  bw_first d x : apply (merge zero d) x = apply d x;
  bw_next m d x : apply (merge m d) x = apply d (apply m x);
  bw_keep d x : keep d = false -> apply d x = x
}.

(** The deltas applied one at a time. *)
Definition one_by_one {K D R} `{Countable K} (key : D -> K) (apply : D -> option R -> option R) (t : gmap K R) (ds : list D)
    : gmap K R :=
  foldl (fun t d => partial_alter (apply d) (key d) t) t ds.

Section batch_theory.
Context {K D R : Type} `{Countable K} (le : relation K) `{!RelDecision le}.
Context (key : D -> K) (zero : D) (merge : D -> D -> D) (keep : D -> bool).
Context (write : list D -> gmap K R -> gmap K R) (filed : D -> Prop) (apply : D -> option R -> option R).
Context `{BW : !BatchWriter key zero merge keep write filed apply}.
Implicit Types (t : gmap K R) (m : gmap K D).

Definition applied (k : K) (ds : list D) (x : option R) : option R :=
  foldl (fun x d => apply d x) x (filter (fun d => key d = k) ds).

Lemma one_by_one_lookup t ds k : one_by_one key apply t ds !! k = applied k ds (t !! k).
Proof.
  unfold one_by_one, applied. revert t. induction ds as [|d ds IH]; intros t; [done|].
  cbn [foldl]. rewrite IH, filter_cons. case_decide as Hk.
  - subst. by rewrite lookup_partial_alter_eq.
  - by rewrite lookup_partial_alter_ne.
Qed.

(** The merged delta of a key stands for the key's deltas. *)
Lemma by_key_spec ds k :
  match by_key key zero merge ds !! k with
  | None => filter (fun d => key d = k) ds = []
  | Some m => key m = k /\ filed m /\ forall x, apply m x = applied k ds x
  end.
Proof.
  unfold by_key, applied. induction ds as [|d ds IH] using rev_ind; [by simpl; rewrite lookup_empty|].
  rewrite foldl_app, filter_app. simpl. unfold merge_into at 1. rewrite filter_cons, filter_nil.
  destruct (decide (key d = k)) as [<-|Hk].
  - rewrite lookup_insert_eq. split; [apply bw_key|]. split; [apply bw_filed|]. intros x. rewrite foldl_app. simpl.
    destruct (foldl _ _ _ !! key d) as [m|] eqn:Hm; simpl.
    + destruct IH as (_ & _ & IH). by rewrite bw_next, IH.
    + rewrite IH. simpl. apply bw_first.
  - rewrite lookup_insert_ne, app_nil_r by done. exact IH.
Qed.

Lemma chunks_concat fuel (l : list K) : (length l <= fuel)%nat -> concat (chunks fuel l) = l.
Proof.
  revert l. induction fuel as [|fuel IH]; intros [|k l] Hl; simpl in *; try done; [lia|].
  f_equal. rewrite IH; [apply take_drop|]. rewrite length_drop. lia.
Qed.

Lemma sorted_keys_elem m k : k ∈ sorted_keys le keep m <-> exists d, m !! k = Some d /\ keep d = true.
Proof.
  unfold sorted_keys. rewrite merge_sort_Permutation, list_elem_of_fmap. split.
  - intros ([k' d] & -> & [Hk Hd%elem_of_map_to_list]%list_elem_of_filter). eauto.
  - intros (d & Hd & Hk). exists (k, d). split; [done|]. apply list_elem_of_filter. by rewrite elem_of_map_to_list.
Qed.

Lemma sorted_keys_NoDup m : NoDup (sorted_keys le keep m).
Proof.
  unfold sorted_keys. rewrite merge_sort_Permutation.
  eapply sublist_NoDup; [apply (NoDup_fst_map_to_list m)|]. apply fmap_sublist, sublist_filter.
Qed.

(** A table whose rows are, at the keys written so far, what the key's merged
    delta makes of them. *)
Definition written m t t' (ks : list K) : Prop :=
  forall k, t' !! k = if bool_decide (k ∈ ks) then match m !! k with Some d => apply d (t !! k) | None => t !! k end else t !! k.

Lemma batch_of_find m ks k :
  (forall k d, m !! k = Some d -> key d = k) ->
  case_arm key (batch_of m ks) (fun d => Some d) k None = if bool_decide (k ∈ ks) then m !! k else None.
Proof.
  intros Hkey. unfold case_arm, batch_of. destruct (list_find _ _) as [[i d]|] eqn:Hf.
  - apply list_find_Some in Hf as (Hi & <- & _). apply list_elem_of_lookup_2, list_elem_of_omap in Hi as (k & Hk & Hd).
    rewrite (Hkey _ _ Hd). by rewrite bool_decide_eq_true_2.
  - apply list_find_None in Hf. case_bool_decide as Hk; [|done]. destruct (m !! k) as [d|] eqn:Hd; [|done].
    exfalso. rewrite Forall_forall in Hf. apply (Hf d); [|by apply Hkey]. apply list_elem_of_omap. eauto.
Qed.

Lemma batch_of_keys m ks :
  (forall k d, m !! k = Some d -> key d = k) -> NoDup ks -> NoDup (key <$> batch_of m ks).
Proof.
  intros Hkey. induction ks as [|k ks IH]; intros Hnd; [constructor|]. apply NoDup_cons in Hnd as [Hk Hnd].
  unfold batch_of in *. simpl. destruct (m !! k) as [d|] eqn:Hd; [|by apply IH]. rewrite fmap_cons.
  apply NoDup_cons. split; [|by apply IH]. rewrite (Hkey _ _ Hd).
  intros (d' & -> & (k' & Hk' & Hd')%list_elem_of_omap)%list_elem_of_fmap. apply Hk. by rewrite (Hkey _ _ Hd').
Qed.

Lemma write_step m t ks k :
  (forall k d, m !! k = Some d -> key d = k /\ filed d) -> NoDup ks ->
  write (batch_of m ks) t !! k =
  if bool_decide (k ∈ ks) then match m !! k with Some d => apply d (t !! k) | None => t !! k end else t !! k.
Proof.
  intros Hm Hnd. rewrite bw_write.
  - assert (forall k d, m !! k = Some d -> key d = k) as Hkey by naive_solver.
    pose proof (batch_of_find m ks k Hkey) as Hf. unfold case_arm in *.
    destruct (list_find _ _) as [[i d]|]; case_bool_decide; try done; by rewrite <-Hf.
  - apply Forall_forall. intros d (k' & _ & Hd)%list_elem_of_omap. by eapply Hm.
  - apply batch_of_keys; naive_solver.
Qed.

Lemma write_all_spec bad m t bs :
  (forall k d, m !! k = Some d -> key d = k /\ filed d) -> NoDup (concat bs) ->
  exists ks, (forall k, k ∈ ks -> k ∈ concat bs) /\ written m t (write_all write bad m t bs).1 ks /\
    ((write_all write bad m t bs).2 = true -> ks = concat bs).
Proof.
  intros Hm. revert t. induction bs as [|b bs IH]; intros t Hnd; simpl; [by exists []|].
  simpl in Hnd. apply NoDup_app in Hnd as (Hb & Hdis & Hnd).
  destruct (bad b); simpl; [exists []; split; [set_solver|by split]|].
  destruct (IH (write (batch_of m b) t) Hnd) as (ks & Hks & Hw & Hok). exists (b ++ ks). split; [set_solver|]. split.
  - intros k. rewrite Hw, (write_step m t b k Hm Hb).
    destruct (decide (k ∈ b)) as [Hk|Hk].
    + rewrite (bool_decide_eq_true_2 (k ∈ b)), (bool_decide_eq_true_2 (k ∈ b ++ ks)) by set_solver.
      rewrite bool_decide_eq_false_2; [done|]. intros Hk'. by apply (Hdis k), Hks.
    + rewrite (bool_decide_eq_false_2 (k ∈ b)) by done.
      by rewrite (bool_decide_ext (k ∈ b ++ ks) (k ∈ ks)) by set_solver.
  - intros Hr. by rewrite Hok.
Qed.

Lemma write_all_ok bad m t bs : (forall ks, bad ks = false) -> (write_all write bad m t bs).2 = true.
Proof. intros Hb. revert t. induction bs as [|b bs IH]; intros t; simpl; [done|]. by rewrite Hb. Qed.

Lemma batched_spec bad t ds :
  let '(t', ok) := batched le key zero merge keep write bad t ds in
  (ok = true -> t' = one_by_one key apply t ds) /\
  (forall k, t' !! k = t !! k \/ t' !! k = one_by_one key apply t ds !! k) /\
  ((forall ks, bad ks = false) -> ok = true).
Proof.
  unfold batched. set (m := by_key key zero merge ds). set (ids := sorted_keys le keep m).
  assert (Hm : forall k d, m !! k = Some d -> key d = k /\ filed d).
  { intros k d Hd. pose proof (by_key_spec ds k) as Hs. fold m in Hs. rewrite Hd in Hs. naive_solver. }
  assert (Happ : forall k x, applied k ds x = match m !! k with Some d => apply d x | None => x end).
  { intros k x. pose proof (by_key_spec ds k) as Hs. fold m in Hs. destruct (m !! k); [symmetry; naive_solver|].
    unfold applied. by rewrite Hs. }
  assert (concat (chunks (length ids) ids) = ids) as Hids by (by apply chunks_concat).
  destruct (write_all_spec bad m t (chunks (length ids) ids)) as (ks & _ & Hw & Hok); [done| |].
  { rewrite Hids. apply sorted_keys_NoDup. }
  pose proof (write_all_ok bad m t (chunks (length ids) ids)) as Hfin.
  destruct (write_all write bad m t _) as [t' ok]. simpl in *. split; [|split; [|done]].
  - intros Hr. apply map_eq. intros k. rewrite Hw, one_by_one_lookup, Happ, (Hok Hr), Hids.
    case_bool_decide as Hk; [done|]. destruct (m !! k) as [d|] eqn:Hd; [|done].
    rewrite bw_keep; [done|]. apply not_true_iff_false. intros Hkd. apply Hk, sorted_keys_elem. eauto.
  - intros k. rewrite Hw, one_by_one_lookup, Happ. case_bool_decide; auto.
Qed.
End batch_theory.

(** ** The five writers *)

(** [last], moved forward to [t] unless [t] is the zero time. *)
Definition touch (t last : option Z) : option Z := match t with Some t => advance t last | None => last end.

Lemma touch_later a b last : touch (later a b) last = touch b (touch a last).
Proof. destruct a as [a|], b as [b|], last as [l|]; simpl; try done; repeat case_match; simpl; repeat case_match; f_equal; lia. Qed.

Lemma touch_first b last : touch (later None b) last = touch b last.
Proof. by destruct b. Qed.

Section arms.
Context {K D : Type} `{EqDecision K} (key : D -> K).

Lemma case_arm_found {A} batch i d (value : D -> A) k other :
  list_find (fun d => key d = k) batch = Some (i, d) -> case_arm key batch value k other = value d.
Proof. unfold case_arm. by intros ->. Qed.

Lemma case_arm_filter {A} (P : D -> Prop) `{!forall d, Decision (P d)} batch i d (value : D -> A) k other :
  NoDup (key <$> batch) -> list_find (fun d => key d = k) batch = Some (i, d) ->
  case_arm key (filter P batch) value k other = if decide (P d) then value d else other.
Proof.
  intros Hnd Hf. apply list_find_Some in Hf as (Hd & Hk & _). unfold case_arm.
  assert (forall d', d' ∈ batch -> key d' = k -> d' = d) as Huniq.
  { intros d' [j Hj]%list_elem_of_lookup_1 Hk'.
    assert (i = j) as <- by (eapply (NoDup_lookup (key <$> batch)); [done|rewrite list_lookup_fmap, Hd; done
      |rewrite list_lookup_fmap, Hj; simpl; congruence]). congruence. }
  destruct (list_find _ (filter P batch)) as [[j d']|] eqn:Hf'.
  - apply list_find_Some in Hf' as (Hj & Hk' & _).
    apply list_elem_of_lookup_2, list_elem_of_filter in Hj as [HP Hin].
    pose proof (Huniq d' Hin Hk') as ->. by rewrite decide_True.
  - apply list_find_None in Hf'. rewrite decide_False; [done|]. intros HP. rewrite Forall_forall in Hf'.
    apply (Hf' d); [|done]. apply list_elem_of_filter. split; [done|]. by eapply list_elem_of_lookup_2.
Qed.
End arms.

Lemma activity_case_found {D} (key : D -> Z) time batch i d id last :
  NoDup (key <$> batch) -> list_find (fun d => key d = id) batch = Some (i, d) ->
  activity_case key time batch id last = touch (time d) last.
Proof.
  intros Hnd Hf. unfold activity_case. pose proof (case_arm_filter key (fun d => time d <> None) batch i d
    (fun d => match time d with Some t => advance t last | None => last end) id last Hnd Hf) as Hc.
  transitivity (case_arm key (filter (fun d => time d <> None) batch)
    (fun d => match time d with Some t => advance t last | None => last end) id last).
  - by destruct (filter _ batch).
  - rewrite Hc. unfold touch. clear. case_decide as Ht; [done|]. by rewrite Ht.
Qed.

Lemma update_in_case {D R} (key : D -> Z) (f : Z -> R -> R) (g : D -> R -> R) batch t k :
  (forall i d r, list_find (fun d => key d = k) batch = Some (i, d) -> f k r = g d r) ->
  update_in (key <$> batch) f t !! k = case_arm key batch (fun d => g d <$> t !! k) k (t !! k).
Proof.
  intros Hf. unfold update_in, case_arm. rewrite map_lookup_imap. destruct (list_find _ _) as [[i d]|] eqn:E.
  - apply list_find_Some in E as Hd. rewrite bool_decide_eq_true_2.
    + destruct (t !! k) as [r|]; simpl; [|done]. by rewrite (Hf i d).
    + destruct Hd as (Hd & <- & _). by eapply list_elem_of_fmap_2, list_elem_of_lookup_2.
  - rewrite bool_decide_eq_false_2; [by destruct (t !! k)|]. apply list_find_None in E. rewrite Forall_forall in E.
    intros (d & -> & Hd)%list_elem_of_fmap. by apply (E d).
Qed.

Definition usage_apply (d : UsageDelta) : option Subscription -> option Subscription :=
  fmap (fun s =>
    let total := Upload d + Download d in
    set_counters (DataUsed s + total) (LifetimeDataUsed s + total) (DataUpload s + Upload d) (DataDownload s + Download d)
      (LifetimeDataUpload s + Upload d) (LifetimeDataDownload s + Download d) (touch (LastActive d) (LastActiveAt s)) s).

#[export] Instance usage_writer :
  BatchWriter SubscriptionID (MkUsage 0 0 0 None) usage_merge (fun _ => true) usage_write (fun _ => True) usage_apply.
Proof.
  split; try done.
  - intros batch t k _ Hnd. unfold usage_write, usage_apply. apply update_in_case. intros i d r Hf.
    unfold usage_update, subscriptionCounterCase, subscriptionActivityCase.
    by rewrite !(case_arm_found SubscriptionID batch i d), (activity_case_found _ _ batch i d).
  - intros d [s|]; [|done]. unfold usage_apply. simpl. by rewrite touch_first.
  - intros m d [s|]; [|done]. unfold usage_apply. simpl. rewrite touch_later. unfold set_counters. simpl.
    do 2 f_equal; lia.
Qed.

Definition account_apply (d : AccountDelta) : option Account -> option Account :=
  fmap (fun a => MkAccount (a_DataUsed a + Bytes d) (touch (a_LastActive d) (LastActivityAt a))).

#[export] Instance account_writer :
  BatchWriter AccountID (MkAccountDelta 0 0 None) account_merge (fun _ => true) account_write (fun _ => True) account_apply.
Proof.
  split; try done.
  - intros batch t k _ Hnd. unfold account_write, account_apply. apply update_in_case. intros i d r Hf. unfold account_update.
    by rewrite (case_arm_found AccountID batch i d), (activity_case_found _ _ batch i d).
  - intros d [a|]; [|done]. unfold account_apply. simpl. by rewrite touch_first.
  - intros m d [a|]; [|done]. unfold account_apply. simpl. rewrite touch_later. do 2 f_equal. lia.
Qed.

Definition core_apply (d : CoreUsageDelta) : option Z -> option Z := fmap (fun used => used + cd_Bytes d).

#[export] Instance core_writer :
  BatchWriter CoreUserID (MkCoreDelta 0 0) core_merge (fun d => negb (cd_Bytes d =? 0)) core_write (fun _ => True) core_apply.
Proof.
  split; try done.
  - intros batch t k _ Hnd. unfold core_write, core_apply. apply update_in_case. intros i d r Hf.
    by rewrite (case_arm_found CoreUserID batch i d).
  - intros m d [u|]; [|done]. unfold core_apply. simpl. f_equal. lia.
  - intros d [u|] Hd; [|done]. unfold core_apply. simpl. f_equal. apply negb_false_iff, Z.eqb_eq in Hd. lia.
Qed.

Definition wg_apply (d : WGUsageDelta) : option WGPeer -> option WGPeer :=
  fmap (fun p => MkPeer (UpBytes p + wg_Upload d) (DownBytes p + wg_Download d) (touch (LastSeen d) (p_LastSeen p))).

#[export] Instance wg_writer :
  BatchWriter PeerID (MkWG 0 0 0 None) wg_merge wg_keep wg_write (fun _ => True) wg_apply.
Proof.
  split; try done.
  - intros batch t k _ Hnd. unfold wg_write, wg_apply. apply update_in_case. intros i d r Hf. unfold wg_update.
    by rewrite !(case_arm_found PeerID batch i d), (activity_case_found _ _ batch i d).
  - intros d [p|]; [|done]. unfold wg_apply. simpl. by rewrite touch_first.
  - intros m d [p|]; [|done]. unfold wg_apply. simpl. rewrite touch_later. do 2 f_equal; lia.
  - intros [? u n l] [p|] Hd; [|done]. destruct p as [pu pn pl]. unfold wg_keep, wg_apply in *. simpl in *.
    apply orb_false_iff in Hd as [[Hu Hn]%orb_false_iff Hl%bool_decide_eq_false].
    apply negb_false_iff, Z.eqb_eq in Hu, Hn. apply dec_stable in Hl. subst. simpl. do 2 f_equal; lia.
Qed.

Definition daily_apply (d : DailyUsageDelta) (r : option DailyUsage) : option DailyUsage := Some (daily_upsert d r).

Lemma day_of_idem t : day_of (day_of t) = day_of t.
Proof. unfold day_of. rewrite (Zminus_mod t), Zmod_mod, Z.sub_diag, Zmod_0_l. lia. Qed.

Lemma daily_write_lookup batch t k :
  Forall (fun d => dd_Date d = day_of (dd_Date d)) batch -> NoDup (daily_key <$> batch) ->
  daily_write batch t !! k = case_arm daily_key batch (fun d => daily_apply d (t !! k)) k (t !! k).
Proof.
  unfold daily_write, case_arm. revert t. induction batch as [|d batch IH]; intros t Hf Hnd; [done|].
  rewrite fmap_cons in Hnd. apply NoDup_cons in Hnd as [Hd Hnd]. apply Forall_cons in Hf as [Hdate Hf].
  simpl. rewrite IH by done. assert ((dd_SubscriptionID d, dd_Date d) = daily_key d) as ->.
  { unfold daily_key. by rewrite <-Hdate. }
  destruct (decide (daily_key d = k)) as [<-|Hk].
  - rewrite lookup_insert_eq. destruct (list_find _ _) as [[i d']|] eqn:E; [|done].
    apply list_find_Some in E as (Hi & Hk' & _). exfalso. apply Hd. rewrite <-Hk'.
    by eapply list_elem_of_fmap_2, list_elem_of_lookup_2.
  - rewrite lookup_insert_ne by done. by destruct (list_find _ _) as [[]|].
Qed.

#[export] Instance daily_writer :
  BatchWriter daily_key (MkDaily 0 0 0 0) daily_merge (fun _ => true) daily_write
    (fun d => dd_Date d = day_of (dd_Date d)) daily_apply.
Proof.
  split; try done.
  - intros. by apply daily_write_lookup.
  - intros m d. unfold daily_key. simpl. by rewrite day_of_idem.
  - intros m d. simpl. by rewrite day_of_idem.
  - intros m d [r|]; unfold daily_apply, daily_upsert; simpl; f_equal; f_equal; (lia || (f_equal; lia)).
Qed.

(** A writer that, whatever statements fail, leaves each row with all of its
    deltas or none, with all of them if it reports success, which it does when
    no statement fails. *)
Definition exact_batches {K D R} `{Countable K} (run : (list K -> bool) -> gmap K R -> list D -> gmap K R * bool)
    (key : D -> K) (apply : D -> option R -> option R) : Prop :=
  forall bad t ds, let '(t', ok) := run bad t ds in
  let r := one_by_one key apply t ds in
  (ok = true -> t' = r) /\ (forall k, t' !! k = t !! k \/ t' !! k = r !! k) /\ ((forall b, bad b = false) -> ok = true).

Lemma usage_exact : exact_batches AddUsageDeltas SubscriptionID usage_apply.
Proof. intros bad t ds. exact (batched_spec _ _ _ _ _ _ _ usage_apply bad t ds). Qed.
Lemma daily_exact : exact_batches AddDailyUsageSplits daily_key daily_apply.
Proof. intros bad t ds. exact (batched_spec _ _ _ _ _ _ _ daily_apply bad t ds). Qed.
Lemma account_exact : exact_batches account_AddUsageDeltas AccountID account_apply.
Proof. intros bad t ds. exact (batched_spec _ _ _ _ _ _ _ account_apply bad t ds). Qed.
Lemma core_exact : exact_batches AddCoreUserDataBatch CoreUserID core_apply.
Proof. intros bad t ds. exact (batched_spec _ _ _ _ _ _ _ core_apply bad t ds). Qed.
Lemma wg_exact : exact_batches AddUsageBatch PeerID wg_apply.
Proof. intros bad t ds. exact (batched_spec _ _ _ _ _ _ _ wg_apply bad t ds). Qed.

(** A writer that succeeded wrote every delta. *)
Lemma exact_ok {K D R} `{Countable K} run (key : D -> K) (apply : D -> option R -> option R) bad t ds t' :
  exact_batches run key apply -> run bad t ds = (t', true) -> t' = one_by_one key apply t ds.
Proof. intros He Hr. specialize (He bad t ds). rewrite Hr in He. by apply He. Qed.

(** Each of the five batched writers, with any of its statements failing: if
    it reports success, the table is what applying the deltas one at a time
    gives (the counters add up, the time of last activity never goes back, a
    missing row stays missing except for a day's, which is created); if it
    fails, every row has all of its deltas or none; and it reports success
    when no statement fails. *)
Theorem batched_is_one_by_one :
  exact_batches AddUsageDeltas SubscriptionID usage_apply /\
  exact_batches AddDailyUsageSplits daily_key daily_apply /\
  exact_batches account_AddUsageDeltas AccountID account_apply /\
  exact_batches AddCoreUserDataBatch CoreUserID core_apply /\
  exact_batches AddUsageBatch PeerID wg_apply.
Proof.
  split; [exact usage_exact|]. split; [exact daily_exact|]. split; [exact account_exact|].
  split; [exact core_exact|exact wg_exact].
Qed.
