(* ===== verification/PanelBooking.v ===== *)
(** * Booking a node's traffic

    Models [internal/node/usecase/traffic_batch.go], with
    [wg_attribution.go], the hidden names of
    [internal/node/domain/reverse_tunnel.go] and [FindByConfigEmails] of the
    subscription repository: the records an agent buffered ([AgentBuffer]) are
    added up ([gather]), each email is traced to a subscription, its accounts,
    tunnels and peers ([resolve]), and the counters are written in one
    transaction ([commit]) through the writers of [PanelTraffic]. Reads of the
    database and of other components are the answers in [Env]; [None] is a read
    that failed. Go ranges over maps in any order; the sums do not depend on it.
    Bytes are unbounded integers. *)

From S2P Require Import Prelude GoString AgentBuffer PanelSubs PanelTraffic.

(** ** Hidden users and links *)

Definition ReverseTagPrefix : string := "rvs-".

Definition HasSuffix (s p : string) : bool := match CutSuffix s p with Some _ => true | None => false end.
Definition TrimPrefix (s p : string) : string := default s (CutPrefix s p).
Definition TrimSuffix (s p : string) : string := default s (CutSuffix s p).

Definition IsReverseEmail (email : string) : bool := HasPrefix email ReverseTagPrefix && HasSuffix email "@reverse".

(** [strconv.ParseUint(s, 10, 64)], and not 0 *)
Definition parseReverseID (s : string) : option Z :=
  match parse_unsigned s with
  | Some id => if (maxU64 <? id) || (id =? 0) then None else Some id
  | None => None
  end.

Definition ReverseTunnelIDFromEmail (email : string) : option Z :=
  if negb (IsReverseEmail email) then None
  else parseReverseID (TrimSuffix (TrimPrefix email (ReverseTagPrefix +:+ "t")) "@reverse").

Definition ReverseTunnelIDFromLinkTag (tag : string) : option Z :=
  match CutPrefix tag (ReverseTagPrefix +:+ "link-") with None => None | Some rest => parseReverseID rest end.

Definition ReverseTunnel_Email (id : Z) : string := ReverseTagPrefix +:+ "t" +:+ utoa id +:+ "@reverse".
Definition ReverseTunnel_LinkTag (id : Z) : string := ReverseTagPrefix +:+ "link-" +:+ utoa id.

(** ** Adding up the records *)

(** [trafficBytes] (up, down) and [tunnelBytes] (to, from) *)
Abbreviation bytes2 := (Z * Z)%type (only parsing).
Definition add2 (a b : bytes2) : bytes2 := (a.1 + b.1, a.2 + b.2).

(** [b := m[k]; b.up += ...; m[k] = b] *)
Definition bump {K} `{Countable K} (k : K) (b : bytes2) (m : gmap K bytes2) : gmap K bytes2 :=
  <[k := add2 (default (0, 0) (m !! k)) b]> m.

Record Sums := MkSums {
  g_users : gmap string bytes2;
  g_dailyUsers : gmap (Z * string) bytes2;
  g_dailyNode : gmap Z bytes2;
  g_outbounds : gmap string bytes2;
  g_coreTraffic : gmap string (gmap string Z);
  g_activeInbounds : gset string;
  g_tunnels : gmap Z bytes2;
  g_links : gmap Z bytes2;
  g_nodeBytes : bytes2;
  g_through : Z
}.

Definition noSums : Sums := MkSums ∅ ∅ ∅ ∅ ∅ ∅ ∅ ∅ (0, 0) 0.

(** What is added to for one email: the users, their days, the tunnels, and the
    record's hidden bytes. *)
Record UserSums := MkUserSums {
  u_users : gmap string bytes2; u_days : gmap (Z * string) bytes2; u_tunnels : gmap Z bytes2; u_hidden : bytes2
}.

(** One entry of [record.UserUplink] ([b = (bytes, 0)]) or [UserDownlink]
    ([(0, bytes)]). To a tunnel, the bytes its hidden user sends come from the bridge. *)
Definition add_user (day : Z) (email : string) (b : bytes2) (u : UserSums) : UserSums :=
  if IsReverseEmail email then
    MkUserSums (u_users u) (u_days u)
      match ReverseTunnelIDFromEmail email with
      | Some id => bump id (b.2, b.1) (u_tunnels u)
      | None => u_tunnels u
      end (add2 (u_hidden u) b)
  else MkUserSums (bump email b (u_users u)) (bump (day, email) b (u_days u)) (u_tunnels u) (u_hidden u).

Definition up (v : Z) : bytes2 := (v, 0).
Definition down (v : Z) : bytes2 := (0, v).

Definition add_users (r : TrafficRecord) (day : Z) (u : UserSums) : UserSums :=
  map_fold (fun email v => add_user day email (down v))
    (map_fold (fun email v => add_user day email (up v)) u (r_UserUplink r)) (r_UserDownlink r).

Definition add_inbounds (r : TrafficRecord) (s : gset string) : gset string :=
  let add (m : counts) (s : gset string) := map_fold (fun tag v s => if 0 <? v then {[tag]} ∪ s else s) s m in
  add (r_InboundDownlink r) (add (r_InboundUplink r) s).

Definition add_core (c : gmap string (gmap string Z)) (e : CoreUsageRecord) : gmap string (gmap string Z) :=
  let m := default ∅ (c !! cu_Email e) in
  <[cu_Email e := <[cu_Protocol e := default 0 (m !! cu_Protocol e) + (cu_Uplink e + cu_Downlink e)]> m]> c.

(** A link's bytes sent come from the bridge, as above. *)
Definition add_outbound (b : Z -> bytes2) (tag : string) (v : Z) (s : gmap Z bytes2 * gmap string bytes2)
    : gmap Z bytes2 * gmap string bytes2 :=
  let links := match ReverseTunnelIDFromLinkTag tag with Some id => bump id ((b v).2, (b v).1) s.1 | None => s.1 end in
  (links, if 0 <? v then bump tag (b v) s.2 else s.2).

(** [time.Unix(record.Timestamp, 0).UTC().Truncate(24 * time.Hour)] *)
Definition record_day (r : TrafficRecord) : Z := day_of (r_Timestamp r * 10 ^ 9).

Definition node_total (r : TrafficRecord) (hidden : bytes2) : bytes2 :=
  (Z.max (r_TotalUplink r - 2 * hidden.1) 0, Z.max (r_TotalDownlink r - 2 * hidden.2) 0).

Definition add_record (g : Sums) (r : TrafficRecord) : Sums :=
  let day := record_day r in
  let u := add_users r day (MkUserSums (g_users g) (g_dailyUsers g) (g_tunnels g) (0, 0)) in
  let total := node_total r (u_hidden u) in
  let counted := (0 <? total.1) || (0 <? total.2) in
  let '(links, outbounds) :=
    map_fold (add_outbound down) (map_fold (add_outbound up) (g_links g, g_outbounds g) (r_OutboundUplink r)) (r_OutboundDownlink r) in
  MkSums (u_users u) (u_days u) (if counted then bump day total (g_dailyNode g) else g_dailyNode g) outbounds
    (foldl add_core (g_coreTraffic g) (r_CoreUsage r)) (add_inbounds r (g_activeInbounds g)) (u_tunnels u) links
    (if counted then add2 (g_nodeBytes g) total else g_nodeBytes g)
    (if g_through g <? r_Timestamp r then r_Timestamp r else g_through g).

Inductive bookError :=
| ErrNoTransactions | ErrTimestamp | ErrSubscriptions | ErrAccounts | ErrPeers | ErrCoreUsers | ErrTransaction.

(** A nil record, or one without a time, is refused. *)
Definition gather (records : list (option TrafficRecord)) : result bookError Sums :=
  foldM (fun g r =>
    match r with
    | Some r => if r_Timestamp r <=? 0 then Err ErrTimestamp else Ok (add_record g r)
    | None => Err ErrTimestamp
    end) noSums records.

(** ** Whose traffic it is *)

Record Inbound := MkInbound { in_ID : Z; in_Tag : string; in_Protocol : string }.
Record Node := MkNode { n_ID : Z; n_Inbounds : list Inbound }.

Record AccountTrafficRef := MkRef {
  ref_ID : Z; ref_Email : string; ref_InboundID : Z; ref_SubscriptionID : Z; ref_Source : string; ref_CreatedAt : Z
}.
Record CoreTrafficRef := MkCoreRef { cr_ID : Z; cr_SubscriptionID : Z; cr_Protocol : string }.
Record WGRenderPeer := MkRender { AllowedIP : string; rp_SubscriptionID : Z; rp_PeerID : Z; rp_InboundID : Z }.
Record wgRef := MkWgRef { SubID : Z; wr_PeerID : Z; wr_InboundID : Z }.

(** The answers to the reads: the config emails of the subscriptions in the
    table's order and the chunks of them whose query fails; the node's accounts,
    WireGuard peers by inbound and core users, each [None] without that
    component; and the node's reverse tunnels with their portal's node. *)
Record Env := MkEnv {
  hasTransactions : bool;
  configEmails : list (string * Z);
  badEmails : list string -> bool;
  accountRepo : option (option (list AccountTrafficRef));
  wgPeerSource : option (Z -> option (list WGRenderPeer));
  coreUsage : option (option (list CoreTrafficRef));
  reverseTunnels : option (list (Z * option Z))
}.

Definition findByConfigEmailsChunkSize : nat := 1000.

(** The emails asked for, each once and none empty. *)
Definition unique_emails (emails : list string) : list string :=
  (foldl (fun (a : gset string * list string) e =>
     if bool_decide (e = "") || bool_decide (e ∈ a.1) then a else ({[e]} ∪ a.1, a.2 ++ [e])) (∅, []) emails).2.

Fixpoint email_chunks (fuel : nat) (l : list string) : list (list string) :=
  match fuel, l with
  | S fuel, _ :: _ => take findByConfigEmailsChunkSize l :: email_chunks fuel (drop findByConfigEmailsChunkSize l)
  | _, _ => []
  end.

Definition FindByConfigEmails (env : Env) (emails : list string) : option (gmap string Z) :=
  let unique := unique_emails emails in
  foldl (fun out chunk =>
    match out with
    | None => None
    | Some out =>
        if badEmails env chunk then None
        else Some (foldl (fun out kv => <[kv.1 := kv.2]> out) out (filter (fun kv => kv.1 ∈ chunk) (configEmails env)))
    end) (Some ∅) (email_chunks (length unique) unique).

Definition lower (c : ascii) : ascii :=
  let n := N_of_ascii c in if (65 <=? n)%N && (n <=? 90)%N then ascii_of_N (n + 32) else c.
Fixpoint lower_string (s : string) : string :=
  match s with EmptyString => EmptyString | String c s => String (lower c) (lower_string s) end.

(** [strings.EqualFold(p, "wireguard")]: no letter of it has a fold outside ASCII. *)
Definition is_wireguard (protocol : string) : bool := bool_decide (lower_string protocol = "wireguard").

Definition wgEmailKey (tag ip : string) : string := "wg:" +:+ tag +:+ ":" +:+ ip.

Definition buildWGIndex (peers : gmap string (list WGRenderPeer)) : gmap string wgRef :=
  map_fold (fun tag ps idx =>
    foldl (fun idx p => <[wgEmailKey tag (AllowedIP p) := MkWgRef (rp_SubscriptionID p) (rp_PeerID p) (rp_InboundID p)]> idx)
      idx ps) ∅ peers.

(** The peers of the WireGuard inbounds with traffic in these records. *)
Definition wg_peers (src : Z -> option (list WGRenderPeer)) (users : gmap string bytes2) (node : Node)
    : option (gmap string (list WGRenderPeer)) :=
  foldl (fun out i =>
    match out with
    | None => None
    | Some peers =>
        if negb (is_wireguard (in_Protocol i)) then Some peers
        else if negb (existsb (fun kv => HasPrefix kv.1 ("wg:" +:+ in_Tag i +:+ ":")) (map_to_list users)) then Some peers
        else match src (in_ID i) with None => None | Some ps => Some (<[in_Tag i := ps]> peers) end
    end) (Some ∅) (n_Inbounds node).

Record Owners := MkOwners {
  o_subs : gmap string Z;
  o_matched : gmap string (list Z);
  o_accounts : gmap (Z * Z) AccountTrafficRef;
  o_wg : gmap string wgRef;
  o_coreBySub : gmap Z (list Z);
  o_coreByProtocol : gmap Z (gmap string (list Z))
}.

Definition active_ids (g : Sums) (node : Node) : gset Z :=
  foldl (fun s i => if bool_decide (in_Tag i ∈ g_activeInbounds g) then {[in_ID i]} ∪ s else s) ∅ (n_Inbounds node).

Definition add_ref (active : gset Z) (a : gmap string (list Z) * gmap (Z * Z) AccountTrafficRef) (ref : AccountTrafficRef)
    : gmap string (list Z) * gmap (Z * Z) AccountTrafficRef :=
  let matched := if bool_decide (ref_InboundID ref ∈ active)
                 then <[ref_Email ref := default [] (a.1 !! ref_Email ref) ++ [ref_ID ref]]> a.1 else a.1 in
  let key := (ref_SubscriptionID ref, ref_InboundID ref) in
  let newer := match a.2 !! key with
               | None => true
               | Some p => (ref_ID p =? 0) || (ref_CreatedAt p <? ref_CreatedAt ref) ||
                           ((ref_CreatedAt ref =? ref_CreatedAt p) && (ref_ID p <? ref_ID ref))
               end in
  (matched, if negb (ref_SubscriptionID ref =? 0) && negb (bool_decide (ref_Source ref = "admin_excluded")) && newer
            then <[key := ref]> a.2 else a.2).

Definition add_core_ref (c : gmap Z (list Z) * gmap Z (gmap string (list Z))) (ref : CoreTrafficRef)
    : gmap Z (list Z) * gmap Z (gmap string (list Z)) :=
  let sub := cr_SubscriptionID ref in
  let m := default ∅ (c.2 !! sub) in
  (<[sub := default [] (c.1 !! sub) ++ [cr_ID ref]]> c.1,
   <[sub := <[cr_Protocol ref := default [] (m !! cr_Protocol ref) ++ [cr_ID ref]]> m]> c.2).

(** [sort.Strings] on the users' emails *)
Definition emails_of (g : Sums) : list string := merge_sort String.le (map_to_list (g_users g)).*1.

Definition needs_core (g : Sums) (subs : gmap string Z) (wg : gmap string wgRef) (matched : gmap string (list Z)) : bool :=
  existsb (fun kv : string * bytes2 =>
    let '(email, b) := kv in
    (0 <? b.1 + b.2) && bool_decide (is_Some (subs !! email)) && bool_decide (wg !! email = None) &&
    (negb (bool_decide (default ∅ (g_coreTraffic g !! email) = ∅)) || bool_decide (default [] (matched !! email) = [])))
    (map_to_list (g_users g)).

Definition resolve (env : Env) (node : Node) (g : Sums) : result bookError Owners :=
  match FindByConfigEmails env (emails_of g) with
  | None => Err ErrSubscriptions
  | Some subs =>
  let active := active_ids g node in
  let refs := match accountRepo env with
              | Some refs => if bool_decide (g_users g = ∅) || bool_decide (n_Inbounds node = []) then Some [] else refs
              | None => Some []
              end in
  match refs with
  | None => Err ErrAccounts
  | Some refs =>
  let '(matched, accounts) := foldl (add_ref active) (∅, ∅) refs in
  match (match wgPeerSource env with Some src => wg_peers src (g_users g) node | None => Some ∅ end) with
  | None => Err ErrPeers
  | Some peers =>
  let wg := buildWGIndex peers in
  let core := match coreUsage env with
              | Some refs => if needs_core g subs wg matched then refs else Some []
              | None => Some []
              end in
  match core with
  | None => Err ErrCoreUsers
  | Some refs =>
      let '(bySub, byProtocol) := foldl add_core_ref (∅, ∅) refs in
      Ok (MkOwners subs matched accounts wg bySub byProtocol)
  end end end end.

(** ** The deltas *)

Definition daily_deltas (g : Sums) (o : Owners) : list DailyUsageDelta :=
  kb ← map_to_list (g_dailyUsers g);
  let '((day, email), b) := (kb : (Z * string) * bytes2) in
  if (b.1 =? 0) && (b.2 =? 0) then []
  else match o_wg o !! email with
       | Some ref => [MkDaily (SubID ref) day b.1 b.2]
       | None => match o_subs o !! email with Some sub => [MkDaily sub day b.1 b.2] | None => [] end
       end.

Record Deltas := MkDeltas {
  d_subs : list UsageDelta; d_accounts : list AccountDelta; d_core : list CoreUsageDelta; d_peers : list WGUsageDelta
}.
Definition app_deltas (a b : Deltas) : Deltas :=
  MkDeltas (d_subs a ++ d_subs b) (d_accounts a ++ d_accounts b) (d_core a ++ d_core b) (d_peers a ++ d_peers b).

(** [total / int64(len(ids))] *)
Definition share (total : Z) (ids : list Z) : Z := Z.quot total (Z.of_nat (length ids)).

Definition core_share (total : Z) (ids : list Z) : list CoreUsageDelta :=
  match ids with
  | [] => []
  | _ => if 0 <? share total ids then (fun id => MkCoreDelta id (share total ids)) <$> ids else []
  end.

Definition core_deltas (hasCore : bool) (g : Sums) (o : Owners) (email : string) (sub total : Z) : list CoreUsageDelta :=
  if negb hasCore then [] else
  let tagged := map_to_list (default ∅ (g_coreTraffic g !! email)) in
  let byProtocol := pv ← tagged;
    let '(protocol, bytes) := (pv : string * Z) in
    if bytes <=? 0 then [] else core_share bytes (default [] (default ∅ (o_coreByProtocol o !! sub) !! protocol)) in
  match tagged, default [] (o_matched o !! email) with
  | [], [] => core_share total (default [] (o_coreBySub o !! sub))
  | _, _ => byProtocol
  end.

Definition email_deltas (hasCore : bool) (now : Z) (g : Sums) (o : Owners) (email : string) : Deltas :=
  let b := default (0, 0) (g_users g !! email) in
  let total := b.1 + b.2 in
  if total <=? 0 then MkDeltas [] [] [] [] else
  match o_wg o !! email with
  | Some ref =>
      let account := match o_accounts o !! (SubID ref, wr_InboundID ref) with Some a => ref_ID a | None => 0 end in
      MkDeltas [MkUsage (SubID ref) b.1 b.2 (Some now)]
        (if account =? 0 then [] else [MkAccountDelta account total (Some now)]) []
        [MkWG (wr_PeerID ref) b.1 b.2 (Some now)]
  | None =>
      match o_subs o !! email with
      | None => MkDeltas [] [] [] []
      | Some sub =>
          let matched := default [] (o_matched o !! email) in
          MkDeltas [MkUsage sub b.1 b.2 (Some now)]
            ((fun id => MkAccountDelta id (share total matched) (Some now)) <$> matched)
            (core_deltas hasCore g o email sub total) []
      end
  end.

Definition all_deltas (hasCore : bool) (now : Z) (g : Sums) (o : Owners) : Deltas :=
  foldl (fun d email => app_deltas d (email_deltas hasCore now g o email)) (MkDeltas [] [] [] []) (emails_of g).

(** A bridge's own counters only matter when the panel can't see the portal. *)
Definition tunnel_bytes (env : Env) (g : Sums) : gmap Z bytes2 :=
  if bool_decide (g_links g = ∅) then g_tunnels g else
  match reverseTunnels env with
  | None => g_tunnels g
  | Some l => foldl (fun m t => match g_links g !! t.1, t.2 with Some b, None => bump t.1 b m | _, _ => m end) (g_tunnels g) l
  end.

Definition tunnel_ids (m : gmap Z bytes2) : list Z :=
  merge_sort Z.le (filter (fun kb => (0 < kb.2.1) \/ (0 < kb.2.2)) (map_to_list m)).*1.

(** ** The transaction *)

Record DB := MkDB {
  nodes : gmap Z bytes2;
  nodeDaily : gmap (Z * Z) bytes2;
  outboundRows : gmap (Z * string) bytes2;
  tunnelRows : gmap Z bytes2;
  subDaily : gmap (Z * Z) DailyUsage;
  subRows : gmap Z Subscription;
  accountRows : gmap Z Account;
  coreRows : gmap Z Z;
  peerRows : gmap Z WGPeer
}.

Inductive tx_statement :=
| TNode | TNodeDaily (day : Z) | TOutbound (tag : string) | TTunnel (id : Z) | TDaily (ks : list (Z * Z)) | TSubs (ids : list Z)
| TAccounts (ids : list Z) | TCore (ids : list Z) | TPeers (ids : list Z).

Section booking.
Context (bad : tx_statement -> bool).

Definition tx (T : Type) : Type := T -> option T.

(** One UPDATE or upsert; [None] is a statement that failed. *)
Definition stmt {T} (q : tx_statement) (f : T -> T) : tx T := fun t => if bad q then None else Some (f t).
Definition steps {T A} (f : A -> tx T) (l : list A) : tx T := fun t => foldl (fun t a => t ≫= f a) (Some t) l.
Definition of_batch {T} (r : T * bool) : option T := if r.2 then Some r.1 else None.

Definition AddNodeTraffic (id : Z) (b : bytes2) : tx (gmap Z bytes2) := stmt TNode (alter (fun r => add2 r b) id).
Definition AddNodeDailyTraffic (id day : Z) (b : bytes2) : tx (gmap (Z * Z) bytes2) := stmt (TNodeDaily day) (bump (id, day) b).
Definition AddOutboundTraffic (id : Z) (tag : string) (b : bytes2) : tx (gmap (Z * string) bytes2) :=
  stmt (TOutbound tag) (alter (fun r => add2 r b) (id, tag)).
Definition AddReverseTunnelTraffic (id : Z) (b : bytes2) : tx (gmap Z bytes2) := stmt (TTunnel id) (alter (fun r => add2 r b) id).

(** The writes, in order; the first that fails undoes them all. *)
Definition commit (env : Env) (node : Node) (now : Z) (g : Sums) (o : Owners) (db : DB) : option DB :=
  let id := n_ID node in
  let d := all_deltas (bool_decide (is_Some (coreUsage env))) now g o in
  let tunnels := tunnel_bytes env g in
  n ← (if (0 <? (g_nodeBytes g).1) || (0 <? (g_nodeBytes g).2) then AddNodeTraffic id (g_nodeBytes g) (nodes db) else Some (nodes db));
  nd ← steps (fun day => AddNodeDailyTraffic id day (default (0, 0) (g_dailyNode g !! day)))
         (merge_sort Z.le (map_to_list (g_dailyNode g)).*1) (nodeDaily db);
  ob ← steps (fun tag => AddOutboundTraffic id tag (default (0, 0) (g_outbounds g !! tag)))
         (merge_sort String.le (map_to_list (g_outbounds g)).*1) (outboundRows db);
  tn ← steps (fun t => AddReverseTunnelTraffic t (default (0, 0) (tunnels !! t))) (tunnel_ids tunnels) (tunnelRows db);
  sd ← of_batch (AddDailyUsageSplits (fun ks => bad (TDaily ks)) (subDaily db) (daily_deltas g o));
  ss ← of_batch (AddUsageDeltas (fun ks => bad (TSubs ks)) (subRows db) (d_subs d));
  ac ← of_batch (account_AddUsageDeltas (fun ks => bad (TAccounts ks)) (accountRows db) (d_accounts d));
  co ← of_batch (AddCoreUserDataBatch (fun ks => bad (TCore ks)) (coreRows db) (d_core d));
  pe ← of_batch (AddUsageBatch (fun ks => bad (TPeers ks)) (peerRows db) (d_peers d));
  Some (MkDB n nd ob tn sd ss ac co pe).

(** [persistBufferedTrafficThen]: [inTx] runs last inside the transaction. *)
Definition persistBufferedTrafficThen (env : Env) (node : Node) (records : list (option TrafficRecord)) (inTx : DB -> option DB)
    (now : Z) (db : DB) : DB * result bookError Z :=
  match records with
  | [] => (db, Ok 0)
  | _ =>
      if negb (hasTransactions env) then (db, Err ErrNoTransactions) else
      match gather records with
      | Err e => (db, Err e)
      | Ok g =>
          match resolve env node g with
          | Err e => (db, Err e)
          | Ok o =>
              match commit env node now g o db ≫= inTx with
              | None => (db, Err ErrTransaction)
              | Some db' => (db', Ok (g_through g))
              end
          end
      end
  end.

Definition persistBufferedTraffic (env : Env) (node : Node) (records : list (option TrafficRecord)) (now : Z) (db : DB)
    : DB * result bookError Z :=
  persistBufferedTrafficThen env node records Some now db.
End booking.

(** ** Sums of what was gathered *)

(** A way of reading byte counts that adds up. *)
Definition additive (f : bytes2 -> Z) : Prop := f (0, 0) = 0 /\ forall a b, f (add2 a b) = f a + f b.

Lemma additive_up : additive fst.
Proof. by split. Qed.
Lemma additive_down : additive snd.
Proof. by split. Qed.
Lemma additive_total : additive (fun b => b.1 + b.2).
Proof. split; [done|]. intros [] []; simpl; lia. Qed.

Lemma msum_bump {K} `{Countable K} (f : K -> bytes2 -> Z) (k : K) b m :
  (forall k, additive (f k)) -> msum f (bump k b m) = msum f m + f k b.
Proof.
  intros Hf. unfold bump. rewrite msum_insert_any. destruct (Hf k) as [H0 Ha]. rewrite Ha.
  destruct (m !! k) as [a|] eqn:Hk; simpl.
  - rewrite (msum_delete f m k a Hk). lia.
  - rewrite H0, (delete_id m k Hk). lia.
Qed.

Lemma bump_lookup {K} `{Countable K} (k k' : K) b m :
  default (0, 0) (bump k b m !! k') = if decide (k' = k) then add2 (default (0, 0) (m !! k')) b else default (0, 0) (m !! k').
Proof. unfold bump. case_decide; subst; [by rewrite lookup_insert_eq|by rewrite lookup_insert_ne]. Qed.

Lemma add2_zero b : add2 b (0, 0) = b.
Proof. destruct b as [x y]. unfold add2. simpl. f_equal; lia. Qed.

Lemma add2_assoc a b c : add2 a (add2 b c) = add2 (add2 a b) c.
Proof. unfold add2. simpl. f_equal; lia. Qed.

(** One direction of a record's users. *)
Lemma users_dir_lookup (dir : Z -> bytes2) day (m : counts) u email :
  dir 0 = (0, 0) ->
  default (0, 0) (u_users (map_fold (fun email v => add_user day email (dir v)) u m) !! email) =
  add2 (default (0, 0) (u_users u !! email)) (if IsReverseEmail email then (0, 0) else dir (default 0 (m !! email))).
Proof.
  intros H0. apply (map_fold_weak_ind (fun u' m => default (0, 0) (u_users u' !! email) =
    add2 (default (0, 0) (u_users u !! email)) (if IsReverseEmail email then (0, 0) else dir (default 0 (m !! email))))).
  - rewrite lookup_empty. simpl. rewrite H0. case_match; by rewrite add2_zero.
  - intros e v m' u' He IH. unfold add_user. destruct (IsReverseEmail e) eqn:HR; simpl.
    + rewrite IH. destruct (decide (e = email)) as [->|Hne]; [by rewrite HR|]. by rewrite lookup_insert_ne.
    + rewrite bump_lookup, IH. case_decide as Hc.
      * subst e. rewrite HR, He, lookup_insert_eq. simpl. by rewrite H0, add2_zero.
      * by rewrite lookup_insert_ne by done.
Qed.

Lemma users_lookup r day u email :
  default (0, 0) (u_users (add_users r day u) !! email) =
  add2 (default (0, 0) (u_users u !! email))
    (if IsReverseEmail email then (0, 0) else (default 0 (r_UserUplink r !! email), default 0 (r_UserDownlink r !! email))).
Proof.
  unfold add_users. rewrite (users_dir_lookup down), (users_dir_lookup up), <-add2_assoc by done. f_equal.
  case_match; [done|]. unfold add2, up, down. simpl. f_equal; lia.
Qed.

(** A user's days hold what the user has. *)
Definition days_total (f : string -> bytes2 -> Z) (days : gmap (Z * string) bytes2) : Z := msum (fun k => f k.2) days.

Lemma users_days f r day u :
  (forall e, additive (f e)) ->
  days_total f (u_days (add_users r day u)) - msum f (u_users (add_users r day u)) = days_total f (u_days u) - msum f (u_users u).
Proof.
  intros Hf. assert (forall e b u, days_total f (u_days (add_user day e b u)) - msum f (u_users (add_user day e b u)) =
    days_total f (u_days u) - msum f (u_users u)) as Hstep.
  { intros e b u'. unfold add_user, days_total. destruct (IsReverseEmail e); simpl; [done|].
    rewrite !msum_bump by (intros; apply Hf). simpl. lia. }
  unfold add_users.
  apply (map_fold_weak_ind (fun u' _ => days_total f (u_days u') - msum f (u_users u') = days_total f (u_days u) - msum f (u_users u)));
    [|intros; by rewrite Hstep].
  apply (map_fold_weak_ind (fun u' _ => days_total f (u_days u') - msum f (u_users u') = days_total f (u_days u) - msum f (u_users u)));
    [done|intros; by rewrite Hstep].
Qed.

Definition user_sums (g : Sums) : UserSums := MkUserSums (g_users g) (g_dailyUsers g) (g_tunnels g) (0, 0).

Lemma add_record_users g r : g_users (add_record g r) = u_users (add_users r (record_day r) (user_sums g)).
Proof. unfold add_record. by destruct (map_fold (add_outbound down) _ _). Qed.
Lemma add_record_days g r : g_dailyUsers (add_record g r) = u_days (add_users r (record_day r) (user_sums g)).
Proof. unfold add_record. by destruct (map_fold (add_outbound down) _ _). Qed.
Lemma add_record_through g r : g_through (add_record g r) = Z.max (g_through g) (r_Timestamp r).
Proof. unfold add_record. destruct (map_fold (add_outbound down) _ _). simpl. destruct (Z.ltb_spec (g_through g) (r_Timestamp r)); lia. Qed.

Lemma gather_ok records g :
  gather records = Ok g ->
  exists rs, records = Some <$> rs /\ g = foldl add_record noSums rs /\ Forall (fun r => 0 < r_Timestamp r) rs.
Proof.
  unfold gather. generalize noSums. induction records as [|r records IH]; intros g0 H; simpl in H.
  - injection H as <-. by exists [].
  - destruct r as [r|]; [|done]. destruct (Z.leb_spec (r_Timestamp r) 0); [done|]. simpl in H.
    destruct (IH _ H) as (rs & -> & -> & Hrs). exists (r :: rs). split; [done|]. split; [done|]. by constructor.
Qed.

(** What the records hold for an email. *)
Definition recorded (rs : list TrafficRecord) (email : string) : bytes2 :=
  (lsum (fun r => default 0 (r_UserUplink r !! email)) rs, lsum (fun r => default 0 (r_UserDownlink r !! email)) rs).

Lemma gather_users rs g email :
  IsReverseEmail email = false ->
  default (0, 0) (g_users (foldl add_record g rs) !! email) = add2 (default (0, 0) (g_users g !! email)) (recorded rs email).
Proof.
  intros HR. revert g. induction rs as [|r rs IH]; intros g; [by rewrite add2_zero|].
  cbn [foldl]. rewrite IH, add_record_users, users_lookup, HR, <-add2_assoc. done.
Qed.

Lemma gather_hidden rs g email :
  IsReverseEmail email = true ->
  default (0, 0) (g_users (foldl add_record g rs) !! email) = default (0, 0) (g_users g !! email).
Proof.
  intros HR. revert g. induction rs as [|r rs IH]; intros g; [done|].
  cbn [foldl]. by rewrite IH, add_record_users, users_lookup, HR, add2_zero.
Qed.

Lemma gather_days f rs :
  (forall e, additive (f e)) ->
  days_total f (g_dailyUsers (foldl add_record noSums rs)) = msum f (g_users (foldl add_record noSums rs)).
Proof.
  intros Hf. enough (forall g, days_total f (g_dailyUsers g) = msum f (g_users g) ->
    days_total f (g_dailyUsers (foldl add_record g rs)) = msum f (g_users (foldl add_record g rs))) as H
    by (apply H; done).
  induction rs as [|r rs IH]; intros g Hg; [done|]. cbn [foldl]. apply IH.
  rewrite add_record_users, add_record_days. pose proof (users_days f r (record_day r) (user_sums g) Hf) as Hd.
  simpl in Hd. lia.
Qed.

Lemma gather_through rs g : g_through (foldl add_record g rs) = foldl Z.max (g_through g) (r_Timestamp <$> rs).
Proof. revert g. induction rs as [|r rs IH]; intros g; [done|]. cbn [foldl fmap list_fmap]. by rewrite IH, add_record_through. Qed.

(** ** From the deltas to the rows *)

(** The subscription an email's traffic goes to. *)
Definition owner (o : Owners) (email : string) : option Z :=
  match o_wg o !! email with Some ref => Some (SubID ref) | None => o_subs o !! email end.

(** The part of what was gathered that goes to a subscription. *)
Definition due (o : Owners) (id : Z) (f : bytes2 -> Z) (email : string) (b : bytes2) : Z :=
  if bool_decide (owner o email = Some id) && (0 <? b.1 + b.2) then f b else 0.

Lemma lsum_bind {A B} (f : B -> Z) (g : A -> list B) l : lsum f (l ≫= g) = lsum (fun a => lsum f (g a)) l.
Proof. induction l as [|a l IH]; [done|]. rewrite bind_cons, lsum_app, lsum_cons. lia. Qed.

Lemma lsum_keys {V} `{Countable K} (m : gmap K V) (f : K -> Z) : lsum f (map_to_list m).*1 = msum (fun k _ => f k) m.
Proof. by rewrite lsum_fmap, msum_lsum. Qed.

Lemma all_deltas_subs hasCore now g o :
  d_subs (all_deltas hasCore now g o) = emails_of g ≫= fun e => d_subs (email_deltas hasCore now g o e).
Proof.
  unfold all_deltas. enough (forall l d, d_subs (foldl (fun d email => app_deltas d (email_deltas hasCore now g o email)) d l) =
    d_subs d ++ (l ≫= fun e => d_subs (email_deltas hasCore now g o e))) as H by apply H.
  induction l as [|e l IH]; intros d; simpl; [by rewrite app_nil_r|]. rewrite IH. simpl. by rewrite <-app_assoc.
Qed.

Lemma email_deltas_due hasCore now g o id (f : bytes2 -> Z) e b :
  g_users g !! e = Some b ->
  lsum (fun d => if bool_decide (SubscriptionID d = id) then f (Upload d, Download d) else 0) (d_subs (email_deltas hasCore now g o e)) =
  due o id f e b.
Proof.
  intros Hb. unfold email_deltas, due, owner. rewrite Hb. simpl. rewrite Z.leb_antisym.
  destruct (0 <? b.1 + b.2); simpl; [|by rewrite andb_false_r]. rewrite andb_true_r.
  destruct (o_wg o !! e) as [ref|]; simpl.
  - rewrite (bool_decide_ext (Some (SubID ref) = Some id) (SubID ref = id)) by (split; [by intros [= ->]|by intros ->]).
    destruct b. simpl. case_bool_decide; lia.
  - destruct (o_subs o !! e) as [sub|]; simpl; [|done].
    rewrite (bool_decide_ext (Some sub = Some id) (sub = id)) by (split; [by intros [= ->]|by intros ->]).
    destruct b. simpl. case_bool_decide; lia.
Qed.

Lemma deltas_due hasCore now g o id (f : bytes2 -> Z) :
  lsum (fun d => if bool_decide (SubscriptionID d = id) then f (Upload d, Download d) else 0) (d_subs (all_deltas hasCore now g o)) =
  msum (due o id f) (g_users g).
Proof.
  rewrite all_deltas_subs, lsum_bind. unfold emails_of. rewrite (lsum_perm _ _ _ (merge_sort_Permutation _ _)), lsum_keys.
  apply msum_ext. intros e b Hb. by apply email_deltas_due.
Qed.

(** A subscription credited with traffic. *)
Definition credited (b : bytes2) (last : option Z) (s : Subscription) : Subscription :=
  set_counters (DataUsed s + (b.1 + b.2)) (LifetimeDataUsed s + (b.1 + b.2)) (DataUpload s + b.1) (DataDownload s + b.2)
    (LifetimeDataUpload s + b.1) (LifetimeDataDownload s + b.2) last s.

Definition for_sub {A} (key : A -> Z) (id : Z) (f : A -> Z) (d : A) : Z := if bool_decide (key d = id) then f d else 0.

Lemma advance_idem now last : advance now (advance now last) = advance now last.
Proof. destruct last as [l|]; simpl; [|by rewrite Z.ltb_irrefl]. destruct (l <? now) eqn:E; simpl; by rewrite ?Z.ltb_irrefl, ?E. Qed.

Lemma usage_one_by_one t ds id s now :
  t !! id = Some s -> Forall (fun d => LastActive d = Some now) ds ->
  exists last, (last = LastActiveAt s \/ last = advance now (LastActiveAt s)) /\
    one_by_one SubscriptionID usage_apply t ds !! id =
    Some (credited (lsum (for_sub SubscriptionID id Upload) ds, lsum (for_sub SubscriptionID id Download) ds) last s).
Proof.
  intros Hs Hf. rewrite one_by_one_lookup, Hs. unfold applied.
  induction ds as [|d ds IH] using rev_ind.
  { exists (LastActiveAt s). split; [auto|]. simpl. f_equal. destruct s. unfold credited, set_counters. simpl. f_equal; lia. }
  apply Forall_app in Hf as [Hf [Hd _]%Forall_cons]. destruct (IH Hf) as (last & Hlast & IH').
  rewrite filter_app, foldl_app, IH', !lsum_app, filter_cons, filter_nil. simpl.
  assert (forall f, for_sub SubscriptionID id f d = if decide (SubscriptionID d = id) then f d else 0) as Hfs
    by (intros f; unfold for_sub; by case_bool_decide; case_decide).
  rewrite !Hfs. case_decide as Hid; simpl.
  - exists (advance now last). split; [right; destruct Hlast as [->| ->]; by rewrite ?advance_idem|].
    rewrite Hd. simpl. f_equal. unfold credited, set_counters. simpl. f_equal; lia.
  - exists last. split; [done|]. by rewrite !Z.add_0_r.
Qed.

(** A subscription's days together. *)
Definition days_used (id : Z) (t : gmap (Z * Z) DailyUsage) : Z :=
  msum (fun k r => if bool_decide (k.1 = id) then du_DataUsed r else 0) t.

Lemma daily_one_by_one t ds id :
  days_used id (one_by_one daily_key daily_apply t ds) =
  days_used id t + lsum (for_sub dd_SubscriptionID id (fun d => dd_Upload d + dd_Download d)) ds.
Proof.
  unfold one_by_one. revert t. induction ds as [|d ds IH]; intros t; [simpl; lia|]. cbn [foldl]. rewrite IH, lsum_cons.
  enough (days_used id (partial_alter (daily_apply d) (daily_key d) t) =
    days_used id t + for_sub dd_SubscriptionID id (fun d => dd_Upload d + dd_Download d) d) by lia.
  assert (partial_alter (daily_apply d) (daily_key d) t = <[daily_key d := daily_upsert d (t !! daily_key d)]> t) as ->.
  { apply map_eq. intros k. destruct (decide (k = daily_key d)) as [->|].
    - by rewrite lookup_partial_alter_eq, lookup_insert_eq.
    - by rewrite lookup_partial_alter_ne, lookup_insert_ne. }
  unfold days_used, for_sub. rewrite msum_insert_any. unfold daily_upsert.
  destruct (t !! daily_key d) as [r|] eqn:Hr; [rewrite (msum_delete _ t _ r Hr)|rewrite (delete_id t _ Hr)];
    simpl; case_bool_decide; lia.
Qed.

Lemma of_batch_Some {T} (r : T * bool) t : of_batch r = Some t <-> r = (t, true).
Proof. unfold of_batch. destruct r as [t' []]; simpl; naive_solver. Qed.

(** What a committed transaction wrote. *)
Lemma commit_tables bad env node now g o db db' :
  commit bad env node now g o db = Some db' ->
  let d := all_deltas (bool_decide (is_Some (coreUsage env))) now g o in
  subDaily db' = one_by_one daily_key daily_apply (subDaily db) (daily_deltas g o) /\
  subRows db' = one_by_one SubscriptionID usage_apply (subRows db) (d_subs d) /\
  accountRows db' = one_by_one AccountID account_apply (accountRows db) (d_accounts d) /\
  coreRows db' = one_by_one CoreUserID core_apply (coreRows db) (d_core d) /\
  peerRows db' = one_by_one PeerID wg_apply (peerRows db) (d_peers d).
Proof.
  intros Hc d. unfold commit in Hc. fold d in Hc.
  repeat (apply bind_Some in Hc as (? & ? & Hc)). simplify_eq. simpl.
  repeat match goal with H : of_batch _ = Some _ |- _ => apply of_batch_Some in H end.
  split; [by eapply exact_ok; [apply daily_exact|]|]. split; [by eapply exact_ok; [apply usage_exact|]|].
  split; [by eapply exact_ok; [apply account_exact|]|]. split; [by eapply exact_ok; [apply core_exact|]|].
  by eapply exact_ok; [apply wg_exact|].
Qed.

(** All of an owner's traffic, whatever its sign. *)
Definition owned (o : Owners) (id : Z) (email : string) (b : bytes2) : Z :=
  if bool_decide (owner o email = Some id) then b.1 + b.2 else 0.

Lemma owned_additive o id e : additive (owned o id e).
Proof. unfold owned. case_bool_decide; [apply additive_total|by split]. Qed.

Lemma daily_deltas_owned g o id :
  lsum (for_sub dd_SubscriptionID id (fun d => dd_Upload d + dd_Download d)) (daily_deltas g o) =
  days_total (owned o id) (g_dailyUsers g).
Proof.
  unfold daily_deltas, days_total. rewrite lsum_bind, msum_lsum. apply lsum_ext. intros [[day e] [u d]] _. simpl.
  unfold owned, owner, for_sub. simpl.
  destruct (Z.eqb_spec u 0), (Z.eqb_spec d 0); simpl; subst; [by case_bool_decide|..];
    (destruct (o_wg o !! e) as [ref|]; simpl; [|destruct (o_subs o !! e) as [sub|]; simpl; [|done]];
     do 2 case_bool_decide; simplify_eq; try lia; by exfalso; auto).
Qed.

Lemma due_owned o id e b : 0 <= b.1 + b.2 -> due o id (fun b => b.1 + b.2) e b = owned o id e b.
Proof. unfold due, owned. intros Hb. case_bool_decide; [|done]. simpl. destruct (Z.ltb_spec 0 (b.1 + b.2)); lia. Qed.

Lemma due_split o id e b : due o id (fun b => b.1 + b.2) e b = due o id fst e b + due o id snd e b.
Proof. unfold due. case_match; lia. Qed.

(** Every user delta carries the time of the sweep. *)
Lemma deltas_now hasCore now g o : Forall (fun d => LastActive d = Some now) (d_subs (all_deltas hasCore now g o)).
Proof.
  rewrite all_deltas_subs. apply Forall_forall. intros d (e & Hd & _)%list_elem_of_bind. unfold email_deltas in Hd.
  repeat case_match; simpl in Hd; set_solver.
Qed.

Lemma deltas_for_sub hasCore now g o id :
  lsum (for_sub SubscriptionID id Upload) (d_subs (all_deltas hasCore now g o)) = msum (due o id fst) (g_users g) /\
  lsum (for_sub SubscriptionID id Download) (d_subs (all_deltas hasCore now g o)) = msum (due o id snd) (g_users g).
Proof. split; [exact (deltas_due hasCore now g o id fst)|exact (deltas_due hasCore now g o id snd)]. Qed.

(** A booking that succeeded gathered, resolved and committed. *)
Lemma booking_ok bad env node records now db db' through :
  persistBufferedTraffic bad env node records now db = (db', Ok through) -> records <> [] ->
  exists rs o, records = Some <$> rs /\ Forall (fun r => 0 < r_Timestamp r) rs /\
    let g := foldl add_record noSums rs in
    resolve env node g = Ok o /\ commit bad env node now g o db = Some db' /\ through = g_through g.
Proof.
  unfold persistBufferedTraffic, persistBufferedTrafficThen. destruct records as [|r records]; [done|].
  destruct (negb _); [done|]. intros H _. destruct (gather (r :: records)) as [g|] eqn:Hg; [|done].
  destruct (gather_ok _ _ Hg) as (rs & Hrs & -> & Hpos). destruct (resolve env node _) as [o|] eqn:Ho; [|done].
  destruct (commit _ _ _ _ _ _ _) as [db1|] eqn:Hc; [|done]. simpl in H. simplify_eq.
  exists rs, o. rewrite Hrs. done.
Qed.

(** The rows after a committed booking. *)
Lemma commit_rows bad env node now g o db db' id :
  commit bad env node now g o db = Some db' ->
  match subRows db !! id with
  | None => subRows db' !! id = None
  | Some s => exists last, (last = LastActiveAt s \/ last = advance now (LastActiveAt s)) /\
      subRows db' !! id = Some (credited (msum (due o id fst) (g_users g), msum (due o id snd) (g_users g)) last s)
  end.
Proof.
  intros Hc. destruct (commit_tables _ _ _ _ _ _ _ _ Hc) as (_ & Hrows & _). rewrite Hrows. clear Hrows Hc.
  set (ds := d_subs _). destruct (subRows db !! id) as [s|] eqn:Hs.
  - destruct (usage_one_by_one _ ds id s now Hs (deltas_now _ now g o)) as (last & Hl & Hv).
    exists last. split; [done|]. rewrite Hv. unfold ds. by destruct (deltas_for_sub (bool_decide (is_Some (coreUsage env))) now g o id) as [-> ->].
  - rewrite one_by_one_lookup, Hs. unfold applied. by induction (filter (fun d => SubscriptionID d = id) ds).
Qed.

(** C11. A booking that succeeds. What was gathered for an email is what the
    records hold for it, and nothing for a tunnel's hidden user. Every
    subscription in the table is credited with exactly what was gathered for
    the emails traced to it (those whose bytes add up to more than zero), in
    its current and lifetime counters, up and down, and is otherwise
    unchanged but for the time of last activity, which moves to the sweep's
    or stays; no row appears; and the time to acknowledge is the latest
    record's. *)
Theorem booking_exact bad env node records now db db' through :
  persistBufferedTraffic bad env node records now db = (db', Ok through) -> records <> [] ->
  exists rs o, records = Some <$> rs /\
    let g := foldl add_record noSums rs in
    resolve env node g = Ok o /\ through = foldl Z.max 0 (r_Timestamp <$> rs) /\
    (forall email, default (0, 0) (g_users g !! email) = if IsReverseEmail email then (0, 0) else recorded rs email) /\
    (forall id, match subRows db !! id with
     | None => subRows db' !! id = None
     | Some s => exists last, (last = LastActiveAt s \/ last = advance now (LastActiveAt s)) /\
         subRows db' !! id = Some (credited (msum (due o id fst) (g_users g), msum (due o id snd) (g_users g)) last s)
     end).
Proof.
  intros H Hne. destruct (booking_ok _ _ _ _ _ _ _ _ H Hne) as (rs & o & -> & _ & Ho & Hc & ->).
  exists rs, o. split; [done|]. split; [done|]. split; [apply gather_through|]. split.
  - intros email. destruct (IsReverseEmail email) eqn:HR; [by rewrite gather_hidden|].
    rewrite gather_users by done. unfold noSums. simpl. by destruct (recorded rs email).
  - intros id. by eapply commit_rows.
Qed.

(** Bytes are counted up: no record takes any back. *)
Definition nonneg (r : TrafficRecord) : Prop :=
  (forall e v, r_UserUplink r !! e = Some v -> 0 <= v) /\ (forall e v, r_UserDownlink r !! e = Some v -> 0 <= v).

Lemma recorded_nonneg rs e : Forall nonneg rs -> 0 <= (recorded rs e).1 + (recorded rs e).2.
Proof.
  intros Hn. rewrite Forall_forall in Hn. unfold recorded. simpl.
  assert (0 <= lsum (fun r => default 0 (r_UserUplink r !! e)) rs).
  { apply lsum_nonneg. intros r [Hu _]%Hn. destruct (r_UserUplink r !! e) eqn:E; simpl; [by eapply Hu|lia]. }
  assert (0 <= lsum (fun r => default 0 (r_UserDownlink r !! e)) rs).
  { apply lsum_nonneg. intros r [_ Hd]%Hn. destruct (r_UserDownlink r !! e) eqn:E; simpl; [by eapply Hd|lia]. }
  lia.
Qed.

Lemma gathered_nonneg rs e b :
  Forall nonneg rs -> g_users (foldl add_record noSums rs) !! e = Some b -> 0 <= b.1 + b.2.
Proof.
  intros Hn Hb. destruct (IsReverseEmail e) eqn:HR.
  - pose proof (gather_hidden rs noSums e HR) as H. rewrite Hb in H. cbn in H. rewrite lookup_empty in H.
    subst b. simpl. lia.
  - pose proof (gather_users rs noSums e HR) as H. rewrite Hb in H. cbn [default noSums g_users] in H.
    rewrite lookup_empty in H. simpl in H. pose proof (recorded_nonneg rs e Hn). subst b. unfold add2. simpl in *. lia.
Qed.

Lemma list_fmap_Some_inj {A} (l k : list A) : Some <$> l = Some <$> k -> l = k.
Proof. revert k. induction l as [|a l IH]; intros [|b k] H; try done. rewrite !fmap_cons in H.
  injection H as -> H. f_equal. by apply IH. Qed.

(** When no record takes bytes back, a booking that succeeds adds to a
    subscription's days together exactly what it adds to its lifetime counter,
    however the records are spread over days and emails. *)
Theorem days_match_totals bad env node rs now db db' through id s s' :
  persistBufferedTraffic bad env node (Some <$> rs) now db = (db', Ok through) -> rs <> [] -> Forall nonneg rs ->
  subRows db !! id = Some s -> subRows db' !! id = Some s' ->
  days_used id (subDaily db') - days_used id (subDaily db) = LifetimeDataUsed s' - LifetimeDataUsed s.
Proof.
  intros H Hne Hn Hs Hs'. destruct (booking_ok _ _ _ _ _ _ _ _ H) as (rs' & o & Heq & _ & Ho & Hc & _); [by destruct rs|].
  apply list_fmap_Some_inj in Heq. subst rs'. set (g := foldl add_record noSums rs) in *.
  pose proof (commit_rows _ _ _ _ _ _ _ _ id Hc) as Hr. rewrite Hs, Hs' in Hr. destruct Hr as (last & _ & [= ->]).
  destruct (commit_tables _ _ _ _ _ _ _ _ Hc) as (Hd & _). rewrite Hd, daily_one_by_one, daily_deltas_owned.
  unfold g at 1. rewrite gather_days by (intros; apply owned_additive). fold g. simpl.
  enough (msum (owned o id) (g_users g) = msum (due o id fst) (g_users g) + msum (due o id snd) (g_users g)) by lia.
  rewrite <-msum_plus. apply msum_ext. intros e b Hb. symmetry. rewrite <-due_split. apply due_owned. by eapply gathered_nonneg.
Qed.

Lemma steps_work {T A} bad (q : A -> tx_statement) (f : A -> T -> T) l (t : T) :
  (forall q, bad q = false) -> is_Some (steps (fun a => stmt bad (q a) (f a)) l t).
Proof.
  intros Hb. unfold steps. assert (forall o, is_Some o -> is_Some (foldl (fun t a => t ≫= stmt bad (q a) (f a)) o l)) as H.
  { induction l as [|a l IH]; intros o [x ->]; [done|]. simpl. apply IH. unfold stmt. by rewrite Hb. }
  by apply H.
Qed.

Lemma exact_works {K D R} `{Countable K} run (key : D -> K) (apply : D -> option R -> option R) bad t ds :
  exact_batches run key apply -> (forall b, bad b = false) -> is_Some (of_batch (run bad t ds)).
Proof.
  intros He Hb. specialize (He bad t ds). destruct (run bad t ds) as [t' ok]. destruct He as (_ & _ & Hok).
  by rewrite (Hok Hb).
Qed.

Lemma commit_works bad env node now g o db : (forall q, bad q = false) -> is_Some (commit bad env node now g o db).
Proof.
  intros Hb. unfold commit.
  assert (is_Some (if (0 <? (g_nodeBytes g).1) || (0 <? (g_nodeBytes g).2)
    then AddNodeTraffic bad (n_ID node) (g_nodeBytes g) (nodes db) else Some (nodes db))) as [? ->].
  { case_match; [|done]. unfold AddNodeTraffic, stmt. by rewrite Hb. }
  simpl. match goal with |- context [steps ?f ?l ?t ≫= _] => destruct (steps_work bad _ _ l t Hb : is_Some (steps f l t)) as [? ->] end.
  simpl. match goal with |- context [steps ?f ?l ?t ≫= _] => destruct (steps_work bad _ _ l t Hb : is_Some (steps f l t)) as [? ->] end.
  simpl. match goal with |- context [steps ?f ?l ?t ≫= _] => destruct (steps_work bad _ _ l t Hb : is_Some (steps f l t)) as [? ->] end.
  simpl. edestruct (exact_works AddDailyUsageSplits) as [? ->]; [apply daily_exact|intros; apply Hb|].
  simpl. edestruct (exact_works AddUsageDeltas) as [? ->]; [apply usage_exact|intros; apply Hb|].
  simpl. edestruct (exact_works account_AddUsageDeltas) as [? ->]; [apply account_exact|intros; apply Hb|].
  simpl. edestruct (exact_works AddCoreUserDataBatch) as [? ->]; [apply core_exact|intros; apply Hb|].
  simpl. edestruct (exact_works AddUsageBatch) as [? ->]; [apply wg_exact|intros; apply Hb|]. done.
Qed.

(** A booking is all or nothing: with an error, whatever read, statement or
    step inside the transaction failed, no table changed; without records
    nothing is done; and a booking whose records have times, whose reads
    worked and none of whose statements fails succeeds. *)
Theorem booking_all_or_nothing bad env node records inTx now db :
  let '(db', r) := persistBufferedTrafficThen bad env node records inTx now db in
  match r with Err _ => db' = db | Ok _ => True end /\
  (records = [] -> db' = db /\ r = Ok 0) /\
  (forall g o, records <> [] -> hasTransactions env = true -> gather records = Ok g -> resolve env node g = Ok o ->
   (forall q, bad q = false) -> (forall d, inTx d <> None) -> r = Ok (g_through g)).
Proof.
  unfold persistBufferedTrafficThen. destruct records as [|r records]; [done|].
  destruct (hasTransactions env); [|by split; [|split]]. simpl.
  destruct (gather (r :: records)) as [g|] eqn:Hg; [|by split; [|split]].
  destruct (resolve env node g) as [o|] eqn:Ho;
    [|split; [done|split; [done|]]; intros g' o' _ _ [= <-] Ho'; congruence].
  destruct (commit bad env node now g o db) as [db1|] eqn:Hc; simpl.
  - destruct (inTx db1) eqn:Ht; (split; [done|]; split; [done|]); intros g' o' _ _ [= <-] Ho' Hb Hi; [done|].
    by destruct (Hi db1).
  - split; [done|]. split; [done|]. intros g' o' _ _ [= <-] _ Hb _. exfalso.
    by destruct (commit_works bad env node now g o db Hb) as [? Hw]; rewrite Hc in Hw.
Qed.

(** ** One sweep of an agent

    The part of [syncSingleNode] ([node_stats.go]) that books the agent's buffer
    and acknowledges it: [between] is what the agent's collector does from the
    reading of the buffer to the acknowledgement, [acked] whether that arrives. *)
Definition sweep (bad : tx_statement -> bool) (env : Env) (node : Node) (now : Z) (between : MemoryStore -> MemoryStore)
    (acked : bool) (agent : MemoryStore) (db : DB) : DB * MemoryStore :=
  match Records (GetBufferedTraffic (Some agent)) with
  | [] => (db, between agent)
  | records =>
      let '(db', r) := persistBufferedTraffic bad env node (Some <$> records) now db in
      let agent := between agent in
      (db', match r with
            | Ok through => if (0 <? through) && acked then default agent (AckBufferedTraffic (Some agent) through) else agent
            | Err _ => agent
            end)
  end.

Lemma foldl_max_base l a : a <= foldl Z.max a l.
Proof. revert a. induction l as [|y l IH]; intros a; simpl; [lia|]. pose proof (IH (Z.max a y)). lia. Qed.

Lemma foldl_max_ge l a x : x ∈ l -> x <= foldl Z.max a l.
Proof.
  revert a. induction l as [|y l IH]; intros a; simpl; [by intros ?%elem_of_nil|].
  intros [->|Hx]%elem_of_cons; [|by apply IH]. pose proof (foldl_max_base l (Z.max a y)). lia.
Qed.

Lemma drained_empty s th : (forall ts b, buckets s !! ts = Some b -> ts <= th) -> buckets (Drain s th) = ∅.
Proof.
  intros H. unfold Drain. simpl. apply map_eq. intros ts. rewrite lookup_empty. apply map_lookup_filter_None. right.
  intros b Hb Hn. simpl in Hn. pose proof (H ts b Hb). lia.
Qed.

(** The latest record is the latest bucket. *)
Lemma buffered_through s ts b :
  buckets_ok (buckets s) -> buckets s !! ts = Some b ->
  ts <= foldl Z.max 0 (r_Timestamp <$> Records (GetBufferedTraffic (Some s))).
Proof.
  intros Hok Hb. apply foldl_max_ge. pose proof (Hok ts b Hb) as [Ht _]. simpl.
  rewrite <-list_fmap_compose. apply list_elem_of_fmap. exists b. split; [by rewrite <-Ht|].
  apply GetAll_elem; [done|]. by rewrite Ht.
Qed.

(** What the agent's collector adds to the newest bucket while the panel is
    booking is lost: after a sweep that books and acknowledges, the agent holds
    no bucket at all and the database is what it would be had those bytes
    never been counted. *)
Theorem sweep_drops_growth bad env node now s delta t db db' through :
  buckets_ok (buckets s) -> 0 < through ->
  persistBufferedTraffic bad env node (Some <$> Records (GetBufferedTraffic (Some s))) now db = (db', Ok through) ->
  truncateTime s t <= through ->
  let '(db1, s1) := sweep bad env node now (fun s => Accumulate s delta t) true s db in
  buckets s1 = ∅ /\ db1 = db' /\ db1 = (sweep bad env node now (fun s => s) true s db).1.
Proof.
  intros Hok Hpos Hp Ht. unfold sweep.
  destruct (Records (GetBufferedTraffic (Some s))) as [|r0 rs0] eqn:Hrec.
  { cbn in Hp. simplify_eq. lia. }
  rewrite Hp. rewrite (proj2 (Z.ltb_lt 0 through)) by lia. cbn [andb default AckBufferedTraffic fst].
  split; [|done]. assert (forall ts b, buckets s !! ts = Some b -> ts <= through) as Hall.
  { intros ts b Hb. destruct (booking_ok _ _ _ _ _ _ _ _ Hp) as (rs & o & Heq & _ & _ & _ & ->); [done|].
    apply list_fmap_Some_inj in Heq. subst rs. rewrite gather_through. simpl g_through.
    rewrite <-Hrec. by apply (buffered_through s ts b). }
  apply drained_empty. intros ts b Hb. destruct delta as [snap|]; [|by eapply Hall].
  simpl in Hb. apply map_lookup_filter_Some in Hb as [Hb _]. unfold accumulated in Hb.
  apply lookup_insert_Some in Hb as [[<- _]|[_ Hb]]; [lia|by eapply Hall].
Qed.

(** ** A small booking: two records on two days for two emails, one of them with
    an account on the inbound that carried it. *)
Definition demo_record (ts : Z) (ups downs : counts) : TrafficRecord :=
  MkRecord ts ups downs {[ "in" := 1 ]} ∅ ∅ ∅ 500 700 [].

Definition demo_records : list TrafficRecord :=
  [demo_record 86400 {[ "a@x" := 10; "rvs-t5@reverse" := 3 ]} {[ "a@x" := 20 ]};
   demo_record 172800 {[ "a@x" := 1; "b@x" := 7 ]} ∅].

Definition demo_env : Env :=
  MkEnv true [("a@x", 1); ("b@x", 2)] (fun _ => false) (Some (Some [MkRef 31 "a@x" 4 1 "" 0])) None None None.

Definition demo_node : Node := MkNode 9 [MkInbound 4 "in" "vless"].

Definition demo_db : DB :=
  MkDB {[9 := (0, 0)]} ∅ ∅ {[5 := (0, 0)]} ∅ (subs demo_world) {[31 := MkAccount 0 None]} ∅ ∅.

Definition demo_booking : DB * result bookError Z :=
  persistBufferedTraffic (fun _ => false) demo_env demo_node (Some <$> demo_records) 1000 demo_db.

Lemma booking_exact_witness :
  demo_booking.2 = Ok 172800 /\
  exists o last, owner o "a@x" = Some 1 /\ owner o "b@x" = Some 2 /\
    subRows demo_booking.1 !! 1 =
      Some (credited (11, 20) last (demo_sub 1 (Some 7) Active (Some (5 * day)) 10 100)).
Proof.
  assert (demo_booking.2 = Ok 172800) as Hr by (by vm_compute). split; [done|].
  destruct (booking_exact (fun _ => false) demo_env demo_node (Some <$> demo_records) 1000 demo_db demo_booking.1 172800)
    as (rs & o & Hrs & Ho & _ & _ & Hid).
  - rewrite <-Hr. apply surjective_pairing.
  - done.
  - assert (rs = demo_records) as -> by (symmetry; by apply list_fmap_Some_inj).
    vm_compute in Ho. specialize (Hid 1). change (subRows demo_db) with (subs demo_world) in Hid.
    assert (subs demo_world !! 1 = Some (demo_sub 1 (Some 7) Active (Some (5 * day)) 10 100)) as E by (by vm_compute).
    rewrite E in Hid. destruct Hid as (last & _ & Hv). exists o, last. injection Ho as <-.
    split; [by vm_compute|]. split; [by vm_compute|]. rewrite Hv. do 3 f_equal; by vm_compute.
Defined.

Lemma demo_nonneg : Forall nonneg demo_records.
Proof.
  assert (forall (m : counts) (l : list Z), (forall e v, m !! e = Some v -> v ∈ l) -> Forall (Z.le 0) l ->
    forall e v, m !! e = Some v -> 0 <= v) as H.
  { intros m l Hm Hl e v Hv. rewrite Forall_forall in Hl. by eapply Hl, Hm. }
  repeat apply Forall_cons_2; [split|split|by constructor]; cbn.
  - apply (H _ [10; 3]); [|repeat constructor; lia]. intros e v.
    rewrite lookup_insert_Some, lookup_singleton_Some. set_solver.
  - apply (H _ [20]); [|repeat constructor; lia]. intros e v. rewrite lookup_singleton_Some. set_solver.
  - apply (H _ [1; 7]); [|repeat constructor; lia]. intros e v.
    rewrite lookup_insert_Some, lookup_singleton_Some. set_solver.
  - intros e v. by rewrite lookup_empty.
Qed.

Lemma days_match_totals_witness :
  exists s', subRows demo_booking.1 !! 1 = Some s' /\
    days_used 1 (subDaily demo_booking.1) - days_used 1 (subDaily demo_db) = LifetimeDataUsed s' - 10 /\
    LifetimeDataUsed s' = 41.
Proof.
  destruct (subRows demo_booking.1 !! 1) as [s'|] eqn:E; [|exfalso; revert E; by vm_compute].
  exists s'. split; [done|]. split; [|revert E; vm_compute; by intros [= <-]].
  apply (days_match_totals (fun _ => false) demo_env demo_node demo_records 1000 demo_db demo_booking.1 172800 1
    (demo_sub 1 (Some 7) Active (Some (5 * day)) 10 100) s').
  - by vm_compute.
  - done.
  - exact demo_nonneg.
  - by vm_compute.
  - done.
Defined.

Lemma surjective_pairing' {A B} (p : A * B) b : p.2 = b -> p = (p.1, b).
Proof. intros <-. apply surjective_pairing. Qed.

(** An agent with one bucket, to which ten bytes are added during the sweep. *)
Definition demo_agent : MemoryStore :=
  MkStore {[86400 := MkTB 86400 (MkSnap {[ "a@x" := 10 ]} ∅ ∅ ∅ ∅ ∅ 10 0 ∅)]} None 3600 (10 * day).

Lemma demo_agent_ok : buckets_ok (buckets demo_agent).
Proof.
  apply map_Forall_singleton. split; [done|]. split; cbn; [apply map_Forall_singleton; lia|apply map_Forall_empty].
Qed.

Definition demo_more : option XrayStatsSnapshot := Some (MkSnap {[ "a@x" := 10 ]} ∅ ∅ ∅ ∅ ∅ 10 0 ∅).

Lemma demo_agent_booked :
  (persistBufferedTraffic (fun _ => false) demo_env demo_node (Some <$> Records (GetBufferedTraffic (Some demo_agent))) 1000 demo_db).2
  = Ok 86400.
Proof. by vm_compute. Qed.

Lemma sweep_drops_growth_witness :
  let '(db1, s1) := sweep (fun _ => false) demo_env demo_node 1000 (fun s => Accumulate s demo_more (86405 * 10 ^ 9)) true demo_agent demo_db in
  buckets s1 = ∅ /\ db1 = (sweep (fun _ => false) demo_env demo_node 1000 (fun s => s) true demo_agent demo_db).1.
Proof.
  assert (truncateTime demo_agent (86405 * 10 ^ 9) <= 86400) as Ht by (by apply Z.leb_le; vm_compute).
  pose proof (sweep_drops_growth (fun _ => false) demo_env demo_node 1000 demo_agent demo_more (86405 * 10 ^ 9) demo_db
    _ 86400 demo_agent_ok ltac:(lia) (surjective_pairing' _ _ demo_agent_booked) Ht) as H.
  destruct (sweep _ _ _ _ (fun s => Accumulate s demo_more _) _ _ _) as [db1 s1]. destruct H as (H1 & _ & H2).
  split; [exact H1|exact H2].
Defined.
