(* ===== verification/AlertEngine.v ===== *)
(** * The alert engine

    Models [internal/alerting/engine/engine.go] and [evaluators.go] with the
    rules and states of [domain/] and the database of
    [repository/alert_repository.go]: the engine's state in memory, the tables,
    the audit log and the notices put on the bus, changed by one bus event or
    one tick at a time ([run] handles them one after the other). An event is
    handled at one moment [now], in nanoseconds; a database statement that
    fails is given by [fails]. Entity and tracker keys, which the code builds as
    strings from numbers, are data; the wording of titles and messages is not
    modelled. [None] is Go's zero time. *)

From S2P Require Import Prelude GoFloat.

Definition sec (n : Z) : Z := n * 10 ^ 9.

(** ** Rules, states and the log: [domain/] *)

Inductive RuleType :=
| NodeOffline | NodeCrashLoop | HighCPU | HighDisk | MTProtoAllowlistViolation | MTProtoEgressDown | MTProtoDisguiseDown
| ReverseTunnelDown.
#[export] Instance RuleType_eq_dec : EqDecision RuleType.
Proof. solve_decision. Defined.
#[export] Instance RuleType_countable : Countable RuleType.
Proof.
  refine (inj_countable'
    (fun t => match t with NodeOffline => 0%nat | NodeCrashLoop => 1%nat | HighCPU => 2%nat | HighDisk => 3%nat
      | MTProtoAllowlistViolation => 4%nat | MTProtoEgressDown => 5%nat | MTProtoDisguiseDown => 6%nat | ReverseTunnelDown => 7%nat end)
    (fun n => nth n [NodeOffline; NodeCrashLoop; HighCPU; HighDisk; MTProtoAllowlistViolation; MTProtoEgressDown;
      MTProtoDisguiseDown] ReverseTunnelDown) _).
  by intros [].
Defined.

(** An empty scope is global too. *)
Inductive ScopeKind := ScopeGlobal | ScopeNodeIDs | ScopeTag.

Record Threshold := MkThreshold { Value : float64; Count : Z; WindowSec : Z; DurationSec : Z }.

(** [ScopedNodeIDs]: the ids [ScopeValue] decodes to, none if it does not decode. *)
Record Rule := MkRule {
  rule_ID : Z; rule_Type : RuleType; Scope : ScopeKind; ScopedNodeIDs : list Z; rule_Threshold : Threshold;
  CooldownSec : Z; Enabled : bool
}.

Inductive entity := ENode (id : Z) | ETunnel (id : Z).
#[export] Instance entity_eq_dec : EqDecision entity.
Proof. solve_decision. Defined.
#[export] Instance entity_countable : Countable entity.
Proof.
  refine (inj_countable' (fun e => match e with ENode n => inl n | ETunnel n => inr n end)
    (fun s => match s with inl n => ENode n | inr n => ETunnel n end) _).
  by intros [].
Defined.

Record State := MkState { Firing : bool; FirstTriggeredAt : option Z; LastNotifiedAt : option Z }.

Inductive EventStatus := Fired | Resolved.
#[export] Instance EventStatus_eq_dec : EqDecision EventStatus.
Proof. solve_decision. Defined.

Record LogEvent := MkLog { ev_RuleID : Z; ev_Entity : entity; ev_Status : EventStatus; ev_CreatedAt : Z }.

Inductive Level := LError | LWarning | LInfo.
Record Notice := MkNotice { no_Level : Level; no_RuleID : Z; no_Entity : entity; no_Status : EventStatus; no_At : Z }.

(** ** Bus events *)

Record NodeStatusPayload := MkNodeStatus {
  ns_NodeID : Z; ns_NodeName : string; ns_IP : string; ns_Planned : bool; ns_OutageStartedAt : option Z
}.
Record XrayStatusPayload := MkXrayStatus { xs_NodeID : Z; xs_NodeName : string; xs_IP : string }.
Record NodeStatsPayload := MkNodeStats {
  st_StatsUnavailable : bool; st_NodeID : Z; st_NodeName : string; st_CPUPercent : float64; st_DiskPercent : float64
}.
Record MTProtoPayload := MkMTProto { mt_NodeID : Z; mt_NodeName : string; mt_Count : Z }.
Record ReverseTunnelPayload := MkTunnel { rt_TunnelID : Z; rt_PortalNodeID : Z; rt_Since : Z; rt_Removed : bool }.

Inductive MTProtoEvent := TelemtCrashLoop | TelemtUp | Violation | EgressFailed | DisguiseDown | DisguiseUp.

Inductive BusEvent :=
| EvNodeOffline (p : NodeStatusPayload) | EvNodeOnline (p : NodeStatusPayload)
| EvXrayDown (p : XrayStatusPayload) | EvXrayUp (p : XrayStatusPayload)
| EvMTProto (t : MTProtoEvent) (p : MTProtoPayload)
| EvNodeDeleted (nodeID : Z) | EvNodeUpdated (nodeID : Z) (planned : bool)
| EvTunnelDown (p : ReverseTunnelPayload) | EvTunnelUp (p : ReverseTunnelPayload)
| EvNodeStats (p : NodeStatsPayload).

(** ** The engine *)

Record mtprotoHit := MkHit { hit_at : Z; hit_n : Z }.
Record mtprotoFire := MkFire { mf_ruleID : Z; mf_nodeID : Z; mf_until : Z; mf_restored : bool }.

Record Engine := MkEngine {
  startTime : Z;
  crashWindows : gmap Z (list Z);
  firstOverAt : gmap (Z * entity) Z;
  latestStats : gmap Z NodeStatsPayload;
  nodeOnline : gmap Z bool;
  offlineSinceAt : gmap Z Z;
  latestOffline : gmap Z NodeStatusPayload;
  nodeMeta : gmap Z (string * string);
  tunnelsDown : gmap Z ReverseTunnelPayload;
  mtprotoWindows : gmap (RuleType * Z) (list mtprotoHit);
  mtprotoFiring : gmap (Z * entity) mtprotoFire;
  ruleCache : option (list Rule * Z)
}.

Record World := MkAlerts {
  eng : Engine; rules : list Rule; states : gmap (Z * entity) State; log : list LogEvent; sent : list Notice;
  lastFiredAt : gmap Z Z
}.

Definition gracePeriodAfterStart : Z := 2 * 60 * 10 ^ 9.
Definition mtprotoWindowCap : nat := 4096.

Definition NewEngine (now : Z) : Engine := MkEngine now ∅ ∅ ∅ ∅ ∅ ∅ ∅ ∅ ∅ ∅ None.

(** One setter for each part of the engine. *)
Definition set_crashWindows f e := MkEngine (startTime e) (f (crashWindows e)) (firstOverAt e) (latestStats e) (nodeOnline e)
  (offlineSinceAt e) (latestOffline e) (nodeMeta e) (tunnelsDown e) (mtprotoWindows e) (mtprotoFiring e) (ruleCache e).
Definition set_firstOverAt f e := MkEngine (startTime e) (crashWindows e) (f (firstOverAt e)) (latestStats e) (nodeOnline e)
  (offlineSinceAt e) (latestOffline e) (nodeMeta e) (tunnelsDown e) (mtprotoWindows e) (mtprotoFiring e) (ruleCache e).
Definition set_latestStats f e := MkEngine (startTime e) (crashWindows e) (firstOverAt e) (f (latestStats e)) (nodeOnline e)
  (offlineSinceAt e) (latestOffline e) (nodeMeta e) (tunnelsDown e) (mtprotoWindows e) (mtprotoFiring e) (ruleCache e).
Definition set_nodeOnline f e := MkEngine (startTime e) (crashWindows e) (firstOverAt e) (latestStats e) (f (nodeOnline e))
  (offlineSinceAt e) (latestOffline e) (nodeMeta e) (tunnelsDown e) (mtprotoWindows e) (mtprotoFiring e) (ruleCache e).
Definition set_offline f g e := MkEngine (startTime e) (crashWindows e) (firstOverAt e) (latestStats e) (nodeOnline e)
  (f (offlineSinceAt e)) (g (latestOffline e)) (nodeMeta e) (tunnelsDown e) (mtprotoWindows e) (mtprotoFiring e) (ruleCache e).
Definition set_nodeMeta f e := MkEngine (startTime e) (crashWindows e) (firstOverAt e) (latestStats e) (nodeOnline e)
  (offlineSinceAt e) (latestOffline e) (f (nodeMeta e)) (tunnelsDown e) (mtprotoWindows e) (mtprotoFiring e) (ruleCache e).
Definition set_tunnelsDown f e := MkEngine (startTime e) (crashWindows e) (firstOverAt e) (latestStats e) (nodeOnline e)
  (offlineSinceAt e) (latestOffline e) (nodeMeta e) (f (tunnelsDown e)) (mtprotoWindows e) (mtprotoFiring e) (ruleCache e).
Definition set_mtprotoWindows f e := MkEngine (startTime e) (crashWindows e) (firstOverAt e) (latestStats e) (nodeOnline e)
  (offlineSinceAt e) (latestOffline e) (nodeMeta e) (tunnelsDown e) (f (mtprotoWindows e)) (mtprotoFiring e) (ruleCache e).
Definition set_mtprotoFiring f e := MkEngine (startTime e) (crashWindows e) (firstOverAt e) (latestStats e) (nodeOnline e)
  (offlineSinceAt e) (latestOffline e) (nodeMeta e) (tunnelsDown e) (mtprotoWindows e) (f (mtprotoFiring e)) (ruleCache e).
Definition set_ruleCache c e := MkEngine (startTime e) (crashWindows e) (firstOverAt e) (latestStats e) (nodeOnline e)
  (offlineSinceAt e) (latestOffline e) (nodeMeta e) (tunnelsDown e) (mtprotoWindows e) (mtprotoFiring e) c.

Definition with_eng (f : Engine -> Engine) (w : World) : World :=
  MkAlerts (f (eng w)) (rules w) (states w) (log w) (sent w) (lastFiredAt w).

(** The statements that may fail. *)
Inductive alert_stmt :=
| QRules | QFiring | QGet (rule : Z) (e : entity) | QInsert (rule : Z) (e : entity) | QUpsert (rule : Z) (e : entity) | QMark (rule : Z).

Section alerts.
Context (fails : alert_stmt -> bool) (now : Z).

(** ** The database *)

Definition ListEnabledRules (w : World) : option (list Rule) :=
  if fails QRules then None else Some (filter (fun r => Enabled r = true) (rules w)).

Definition GetState (w : World) (rule : Z) (e : entity) : option State :=
  if fails (QGet rule e) then None else states w !! (rule, e).

Definition UpsertState (w : World) (rule : Z) (e : entity) (s : State) : World :=
  if fails (QUpsert rule e) then w
  else MkAlerts (eng w) (rules w) (<[(rule, e) := s]> (states w)) (log w) (sent w) (lastFiredAt w).

Definition InsertEvent (w : World) (ev : LogEvent) : World :=
  if fails (QInsert (ev_RuleID ev) (ev_Entity ev)) then w
  else MkAlerts (eng w) (rules w) (states w) (log w ++ [ev]) (sent w) (lastFiredAt w).

Definition MarkRuleFired (w : World) (rule at_ : Z) : World :=
  if fails (QMark rule) then w else MkAlerts (eng w) (rules w) (states w) (log w) (sent w) (<[rule := at_]> (lastFiredAt w)).

Definition Publish (w : World) (n : Notice) : World :=
  MkAlerts (eng w) (rules w) (states w) (log w) (sent w ++ [n]) (lastFiredAt w).

(** ** Firing and resolving *)

Definition levelFor (t : RuleType) : Level :=
  match t with
  | NodeOffline | NodeCrashLoop | ReverseTunnelDown | MTProtoEgressDown | MTProtoDisguiseDown => LError
  | HighCPU | HighDisk | MTProtoAllowlistViolation => LWarning
  end.

Definition inGracePeriod (w : World) : bool := now - startTime (eng w) <? gracePeriodAfterStart.

Definition cooling (rule : Rule) (s : option State) : bool :=
  match s with
  | Some s => Firing s && match LastNotifiedAt s with Some t => now - t <? sec (CooldownSec rule) | None => false end
  | None => false
  end.

Definition fireOrSkip (w : World) (rule : Rule) (e : entity) : World * bool :=
  if inGracePeriod w && bool_decide (rule_Type rule = NodeOffline) then (w, false) else
  let state := GetState w (rule_ID rule) e in
  if cooling rule state then (w, false) else
  let w := InsertEvent w (MkLog (rule_ID rule) e Fired now) in
  let firstAt := match state with Some (MkState _ (Some t) _) => t | _ => now end in
  let w := UpsertState w (rule_ID rule) e (MkState true (Some firstAt) (Some now)) in
  let w := MarkRuleFired w (rule_ID rule) now in
  (Publish w (MkNotice (levelFor (rule_Type rule)) (rule_ID rule) e Fired now), true).

(** The stored part of a resolve: the log and the state. *)
Definition settle (w : World) (rule : Rule) (e : entity) (s : State) : World :=
  let w := InsertEvent w (MkLog (rule_ID rule) e Resolved now) in
  UpsertState w (rule_ID rule) e (MkState false (FirstTriggeredAt s) (Some now)).

Definition resolveIfFiring (w : World) (rule : Rule) (e : entity) : World :=
  match GetState w (rule_ID rule) e with
  | Some s => if Firing s then Publish (settle w rule e s) (MkNotice LInfo (rule_ID rule) e Resolved now) else w
  | None => w
  end.

Definition ruleAppliesToNode (rule : Rule) (nodeID : Z) : bool :=
  match Scope rule with
  | ScopeGlobal => true
  | ScopeNodeIDs => bool_decide (nodeID ∈ ScopedNodeIDs rule)
  | ScopeTag => false
  end.

Definition rulesOfType (w : World) (t : RuleType) : list Rule :=
  match ListEnabledRules w with Some all => filter (fun r => rule_Type r = t) all | None => [] end.

(** A loop over rules. *)
Definition for_rules (rs : list Rule) (f : World -> Rule -> World) (w : World) : World := foldl f w rs.

(** ** node_offline *)

Definition rememberMeta (nodeID : Z) (name ip : string) (e : Engine) : Engine :=
  if nodeID =? 0 then e else
  let m := default ("", "") (nodeMeta e !! nodeID) in
  set_nodeMeta (<[nodeID := (if bool_decide (name = "") then m.1 else name, if bool_decide (ip = "") then m.2 else ip)]>) e.

Definition rememberOfflineSince (p : NodeStatusPayload) (e : Engine) : Engine :=
  if ns_NodeID p =? 0 then e else
  let at_ := default now (ns_OutageStartedAt p) in
  set_offline (fun m => match m !! ns_NodeID p with Some _ => m | None => <[ns_NodeID p := at_]> m end)
    (<[ns_NodeID p := p]>) e.

Definition forgetOfflineSince (nodeID : Z) (e : Engine) : Engine := set_offline (delete nodeID) (delete nodeID) e.
Definition setOnline (nodeID : Z) (online : bool) (e : Engine) : Engine := set_nodeOnline (<[nodeID := online]>) e.
Definition cacheStats (p : NodeStatsPayload) (e : Engine) : Engine := set_latestStats (<[st_NodeID p := p]>) e.

(** Whether the node has been down for the rule's grace. *)
Definition down_long_enough (rule : Rule) (since : option Z) : bool :=
  let grace := sec (DurationSec (rule_Threshold rule)) in
  if 0 <? grace then match since with Some t => negb (now - t <? grace) | None => false end else true.

Definition evalNodeOfflineForRule (w : World) (rule : Rule) (p : NodeStatusPayload) : World :=
  if negb (ruleAppliesToNode rule (ns_NodeID p)) then w else
  if negb (down_long_enough rule (offlineSinceAt (eng w) !! ns_NodeID p)) then w else
  (fireOrSkip w rule (ENode (ns_NodeID p))).1.

Definition evalNodeOffline (w : World) (p : NodeStatusPayload) : World :=
  if ns_Planned p then with_eng (forgetOfflineSince (ns_NodeID p)) w else
  let w := with_eng (rememberOfflineSince p) w in
  for_rules (rulesOfType w NodeOffline) (fun w rule => evalNodeOfflineForRule w rule p) w.

(** [resolveIfFiring] for every rule of a type that covers the node. *)
Definition resolve_for (t : RuleType) (nodeID : Z) (e : entity) (w : World) : World :=
  for_rules (rulesOfType w t) (fun w rule => if ruleAppliesToNode rule nodeID then resolveIfFiring w rule e else w) w.

Definition resolveNodeOffline (w : World) (p : NodeStatusPayload) : World :=
  resolve_for NodeOffline (ns_NodeID p) (ENode (ns_NodeID p)) (with_eng (forgetOfflineSince (ns_NodeID p)) w).

(** ** node_crash_loop *)

Definition recordCrash (nodeID : Z) (e : Engine) : Engine :=
  let cutoff := now - 30 * 60 * 10 ^ 9 in
  set_crashWindows (fun m => <[nodeID := filter (fun t => cutoff < t) (default [] (m !! nodeID)) ++ [now]]> m) e.

Definition window_cutoff (windowSec : Z) : Z := now - sec (if windowSec <=? 0 then 300 else windowSec).

Definition crashCountWithin (e : Engine) (nodeID windowSec : Z) : Z :=
  Z.of_nat (length (filter (fun t => window_cutoff windowSec < t) (default [] (crashWindows e !! nodeID)))).

Definition at_least (n dflt : Z) : Z := if n <=? 0 then dflt else n.

Definition evalCrashLoop (w : World) (p : XrayStatusPayload) : World :=
  for_rules (rulesOfType w NodeCrashLoop) (fun w rule =>
    if negb (ruleAppliesToNode rule (xs_NodeID p)) then w else
    if crashCountWithin (eng w) (xs_NodeID p) (WindowSec (rule_Threshold rule)) <? at_least (Count (rule_Threshold rule)) 5 then w
    else (fireOrSkip w rule (ENode (xs_NodeID p))).1) w.

Definition resolveCrashLoop (w : World) (p : XrayStatusPayload) : World :=
  resolve_for NodeCrashLoop (xs_NodeID p) (ENode (xs_NodeID p)) w.

(** ** high_cpu and high_disk *)

Definition actual_of (t : RuleType) (p : NodeStatsPayload) : option float64 :=
  match t with HighCPU => Some (st_CPUPercent p) | HighDisk => Some (st_DiskPercent p) | _ => None end.

Definition threshold_of (rule : Rule) : float64 :=
  let v := Value (rule_Threshold rule) in if f64_leb v (f64_of_int 0) then f64_of_int 90 else v.

Definition evalStatsForRule (w : World) (rule : Rule) (p : NodeStatsPayload) : World :=
  if negb (ruleAppliesToNode rule (st_NodeID p)) then w else
  match actual_of (rule_Type rule) p with
  | None => w
  | Some actual =>
      let duration := sec (DurationSec (rule_Threshold rule)) in
      let e := ENode (st_NodeID p) in
      let key := (rule_ID rule, e) in
      let over := f64_leb (threshold_of rule) actual in
      match firstOverAt (eng w) !! key with
      | None => if over then with_eng (set_firstOverAt (<[key := now]>)) w else w
      | Some firstOver =>
          if negb over then resolveIfFiring (with_eng (set_firstOverAt (delete key)) w) rule e
          else if (0 <? duration) && (now - firstOver <? duration) then w
          else (fireOrSkip w rule e).1
      end
  end.

Definition evalStatsThresholds (w : World) (p : NodeStatsPayload) : World :=
  let w := for_rules (rulesOfType w HighCPU) (fun w r => evalStatsForRule w r p) w in
  for_rules (rulesOfType w HighDisk) (fun w r => evalStatsForRule w r p) w.

(** ** MTProto nodes *)

(** [sort.Search(len(w), func(i) w[i].at.After(cutoff))]; the fuel is the
    length, and every round halves the interval. *)
Fixpoint search_after (fuel : nat) (cutoff : Z) (w : list mtprotoHit) (i j : nat) : nat :=
  match fuel with
  | O => i
  | S fuel =>
      if (i <? j)%nat then
        let h := ((i + j) / 2)%nat in
        if cutoff <? default 0 (hit_at <$> w !! h) then search_after fuel cutoff w i h else search_after fuel cutoff w (S h) j
      else i
  end.
Definition hits_after (cutoff : Z) (w : list mtprotoHit) : list mtprotoHit :=
  drop (search_after (length w) cutoff w 0 (length w)) w.

Definition recordMTProto (t : RuleType) (nodeID n : Z) (e : Engine) : Engine :=
  let cutoff := now - 30 * 60 * 10 ^ 9 in
  set_mtprotoWindows (fun m =>
    let w := hits_after cutoff (default [] (m !! (t, nodeID))) ++ [MkHit now n] in
    <[(t, nodeID) := if (mtprotoWindowCap <? length w)%nat then drop (length w - mtprotoWindowCap) w else w]> m) e.

Definition mtprotoCountWithin (e : Engine) (t : RuleType) (nodeID windowSec : Z) : Z :=
  lsum hit_n (hits_after (window_cutoff windowSec) (default [] (mtprotoWindows e !! (t, nodeID)))).

Definition cachedRulesOfType (w : World) (t : RuleType) : World * list Rule :=
  let fresh := match ruleCache (eng w) with Some (all, at_) => if sec 1 <? now - at_ then None else Some all | None => None end in
  match fresh with
  | Some all => (w, filter (fun r => rule_Type r = t) all)
  | None =>
      match ListEnabledRules w with
      | None => (w, [])
      | Some all => (with_eng (set_ruleCache (Some (all, now))) w, filter (fun r => rule_Type r = t) all)
      end
  end.

Definition count_one (t : RuleType) (p : MTProtoPayload) (w : World) (rule : Rule) : World :=
  let e := ENode (mt_NodeID p) in
  let key := (rule_ID rule, e) in
  if negb (ruleAppliesToNode rule (mt_NodeID p)) then w else
  if match mtprotoFiring (eng w) !! key with Some f => now <? mf_until f | None => false end then w else
  if mtprotoCountWithin (eng w) t (mt_NodeID p) (WindowSec (rule_Threshold rule)) <? at_least (Count (rule_Threshold rule)) 1 then w
  else
    let '(w, fired) := fireOrSkip w rule e in
    let until := if fired then now + sec (CooldownSec rule) else now + sec 30 in
    with_eng (set_mtprotoFiring (<[key := MkFire (rule_ID rule) (mt_NodeID p) until false]>)) w.

Definition evalMTProtoCount (w : World) (t : RuleType) (p : MTProtoPayload) : World :=
  let w := with_eng (recordMTProto t (mt_NodeID p) (Z.max (mt_Count p) 1)) w in
  let '(w, rs) := cachedRulesOfType w t in
  for_rules rs (count_one t p) w.

Definition quiet_one (rule : Rule) (w : World) (kf : (Z * entity) * mtprotoFire) : World :=
  if 0 <? mtprotoCountWithin (eng w) (rule_Type rule) (mf_nodeID kf.2) (WindowSec (rule_Threshold rule)) then w
  else resolveIfFiring (with_eng (set_mtprotoFiring (delete kf.1)) w) rule (ENode (mf_nodeID kf.2)).

Definition resolveQuietMTProto (w : World) (rule : Rule) : World :=
  let window := sec (at_least (WindowSec (rule_Threshold rule)) 300) in
  let watched := window <=? now - startTime (eng w) in
  foldl (quiet_one rule) w
    (filter (fun kf => mf_ruleID kf.2 = rule_ID rule /\ (mf_restored kf.2 = false \/ watched = true)) (map_to_list (mtprotoFiring (eng w)))).

Definition evalMTProtoCrashLoop (w : World) (p : MTProtoPayload) : World :=
  for_rules (rulesOfType w NodeCrashLoop) (fun w rule =>
    if ruleAppliesToNode rule (mt_NodeID p) then (fireOrSkip w rule (ENode (mt_NodeID p))).1 else w) w.

Definition evalMTProtoDisguise (w : World) (p : MTProtoPayload) (down : bool) : World :=
  for_rules (rulesOfType w MTProtoDisguiseDown) (fun w rule =>
    if negb (ruleAppliesToNode rule (mt_NodeID p)) then w
    else if down then (fireOrSkip w rule (ENode (mt_NodeID p))).1 else resolveIfFiring w rule (ENode (mt_NodeID p))) w.

Definition handleMTProto (w : World) (t : MTProtoEvent) (p : MTProtoPayload) : World :=
  match t with
  | TelemtCrashLoop => evalMTProtoCrashLoop w p
  | TelemtUp => resolve_for NodeCrashLoop (mt_NodeID p) (ENode (mt_NodeID p)) w
  | Violation => evalMTProtoCount w MTProtoAllowlistViolation p
  | EgressFailed => evalMTProtoCount w MTProtoEgressDown p
  | DisguiseDown => evalMTProtoDisguise w p true
  | DisguiseUp => evalMTProtoDisguise w p false
  end.

(** ** reverse_tunnel_down *)

Definition evalTunnelDownForRule (w : World) (rule : Rule) (p : ReverseTunnelPayload) : World :=
  if negb (ruleAppliesToNode rule (rt_PortalNodeID p)) then w else
  if now - rt_Since p <? sec (DurationSec (rule_Threshold rule)) then w else
  if bool_decide (nodeOnline (eng w) !! rt_PortalNodeID p = Some false) then w else
  (fireOrSkip w rule (ETunnel (rt_TunnelID p))).1.

Definition evalTunnelDown (w : World) (p : ReverseTunnelPayload) : World :=
  let p := match tunnelsDown (eng w) !! rt_TunnelID p with
           | Some prev => if rt_Since prev <? rt_Since p then MkTunnel (rt_TunnelID p) (rt_PortalNodeID p) (rt_Since prev) (rt_Removed p) else p
           | None => p
           end in
  let w := with_eng (set_tunnelsDown (<[rt_TunnelID p := p]>)) w in
  for_rules (rulesOfType w ReverseTunnelDown) (fun w rule => evalTunnelDownForRule w rule p) w.

Definition clearTunnelDown (w : World) (p : ReverseTunnelPayload) : World :=
  let e := ETunnel (rt_TunnelID p) in
  for_rules (rulesOfType w ReverseTunnelDown) (fun w rule =>
    match GetState w (rule_ID rule) e with Some s => if Firing s then settle w rule e s else w | None => w end) w.

Definition resolveTunnelDown (w : World) (p : ReverseTunnelPayload) : World :=
  let w := with_eng (set_tunnelsDown (delete (rt_TunnelID p))) w in
  if rt_Removed p then clearTunnelDown w p
  else resolve_for ReverseTunnelDown (rt_PortalNodeID p) (ETunnel (rt_TunnelID p)) w.

(** ** Events, ticks and the start *)

Definition handleEvent (w : World) (ev : BusEvent) : World :=
  match ev with
  | EvNodeOffline p =>
      evalNodeOffline (with_eng (fun e => setOnline (ns_NodeID p) false (rememberMeta (ns_NodeID p) (ns_NodeName p) (ns_IP p) e)) w) p
  | EvNodeOnline p =>
      resolveNodeOffline (with_eng (fun e => setOnline (ns_NodeID p) true (rememberMeta (ns_NodeID p) (ns_NodeName p) (ns_IP p) e)) w) p
  | EvXrayDown p =>
      evalCrashLoop (with_eng (fun e => recordCrash (xs_NodeID p) (rememberMeta (xs_NodeID p) (xs_NodeName p) (xs_IP p) e)) w) p
  | EvXrayUp p => resolveCrashLoop (with_eng (rememberMeta (xs_NodeID p) (xs_NodeName p) (xs_IP p)) w) p
  | EvMTProto t p => handleMTProto (with_eng (rememberMeta (mt_NodeID p) (mt_NodeName p) "") w) t p
  | EvNodeDeleted id => with_eng (forgetOfflineSince id) w
  | EvNodeUpdated id planned => if planned then with_eng (forgetOfflineSince id) w else w
  | EvTunnelDown p => evalTunnelDown w p
  | EvTunnelUp p => resolveTunnelDown w p
  | EvNodeStats p =>
      evalStatsThresholds (with_eng (fun e => cacheStats p (rememberMeta (st_NodeID p) (st_NodeName p) "" e)) w) p
  end.

Definition tick_rule (stats : list NodeStatsPayload) (pending : list NodeStatusPayload) (tunnels : list ReverseTunnelPayload)
    (w : World) (rule : Rule) : World :=
  match rule_Type rule with
  | ReverseTunnelDown => foldl (fun w p => evalTunnelDownForRule w rule p) w tunnels
  | HighCPU | HighDisk => foldl (fun w s => evalStatsForRule w rule s) w stats
  | NodeOffline => foldl (fun w p => evalNodeOfflineForRule w rule p) w pending
  | MTProtoAllowlistViolation | MTProtoEgressDown => resolveQuietMTProto w rule
  | NodeCrashLoop | MTProtoDisguiseDown => w
  end.

Definition tick (w : World) : World :=
  match ListEnabledRules w with
  | None => w
  | Some rs =>
      let stats := (map_to_list (latestStats (eng w))).*2 in
      let pending := (map_to_list (latestOffline (eng w))).*2 in
      let tunnels := (map_to_list (tunnelsDown (eng w))).*2 in
      for_rules rs (tick_rule stats pending tunnels) w
  end.

Definition rehydrate_one (byID : Z -> option Rule) (m : gmap (Z * entity) mtprotoFire) (ks : (Z * entity) * State)
    : gmap (Z * entity) mtprotoFire :=
  match byID ks.1.1, ks.1.2 with
  | Some r, ENode n =>
      match rule_Type r with
      | MTProtoAllowlistViolation | MTProtoEgressDown =>
          let until := match LastNotifiedAt ks.2 with Some t => t + sec (CooldownSec r) | None => now end in
          <[ks.1 := MkFire (rule_ID r) n until true]> m
      | _ => m
      end
  | _, _ => m
  end.

(** The enabled rule of an id; ids are the table's keys. *)
Definition rule_by_id (rs : list Rule) (id : Z) : option Rule :=
  foldl (fun acc r => if rule_ID r =? id then Some r else acc) None rs.

Definition rehydrateMTProto (w : World) (firing : list ((Z * entity) * State)) : World :=
  match ListEnabledRules w with
  | None => w
  | Some rs => with_eng (set_mtprotoFiring (fun m => foldl (rehydrate_one (rule_by_id rs)) m firing)) w
  end.

(** [NewEngine] and [Start] on the tables another engine left. *)
Definition Start (w : World) : World :=
  let w := MkAlerts (NewEngine now) (rules w) (states w) (log w) (sent w) (lastFiredAt w) in
  if fails QFiring then w
  else rehydrateMTProto w (filter (fun ks => Firing ks.2 = true) (map_to_list (states w))).
End alerts.
