(* ===== verification/AlertRuns.v ===== *)
(** * What the alert engine writes

    What happens to the engine of [AlertEngine]: bus events, ticks, restarts and
    edits of the rules. Everything it writes is one of two moves on the tables,
    a fire or a settlement, and each fire has its reason; moves keep the tables
    in agreement. *)

From S2P Require Import Prelude GoFloat AlertEngine.

Inductive action := AEvent (ev : BusEvent) | ATick | ARestart | AEdit (rs : list Rule).

(** An action, when it happens and the statements that fail in it. *)
Record happening := MkHap { h_at : Z; h_fails : alert_stmt -> bool; h_act : action }.

Definition act (w : World) (h : happening) : World :=
  match h_act h with
  | AEvent ev => handleEvent (h_fails h) (h_at h) w ev
  | ATick => tick (h_fails h) (h_at h) w
  | ARestart => Start (h_fails h) (h_at h) w
  | AEdit rs => MkAlerts (eng w) rs (states w) (log w) (sent w) (lastFiredAt w)
  end.

(** ** Moves on the tables *)

(** The states, the log and the notices. *)
Record tables := MkTables { t_states : gmap (Z * entity) State; t_log : list LogEvent; t_sent : list Notice }.
Definition tables_of (w : World) : tables := MkTables (states w) (log w) (sent w).

Section moves.
Context (now : Z) (why : Rule -> entity -> Prop).

Inductive move : tables -> tables -> Prop :=
| mv_fire st lg sn rule e first :
    cooling now rule (st !! (rule_ID rule, e)) = false -> why rule e ->
    move (MkTables st lg sn)
      (MkTables (<[(rule_ID rule, e) := MkState true first (Some now)]> st) (lg ++ [MkLog (rule_ID rule) e Fired now])
         (sn ++ [MkNotice (levelFor (rule_Type rule)) (rule_ID rule) e Fired now]))
| mv_settle st lg sn rule e s (notify : bool) :
    st !! (rule, e) = Some s -> Firing s = true ->
    move (MkTables st lg sn)
      (MkTables (<[(rule, e) := MkState false (FirstTriggeredAt s) (Some now)]> st) (lg ++ [MkLog rule e Resolved now])
         (sn ++ if notify then [MkNotice LInfo rule e Resolved now] else [])).

Definition moves : relation tables := rtc move.
End moves.

Lemma move_mono now (why why' : Rule -> entity -> Prop) t t' :
  (forall r e, why r e -> why' r e) -> moves now why t t' -> moves now why' t t'.
Proof.
  intros Hw. induction 1 as [|t t1 t' Hm _ IH]; [constructor|]. eapply rtc_l; [|exact IH].
  destruct Hm; econstructor; eauto.
Qed.

(** ** Every operation is made of moves *)

(** The tables work: reads and writes of states and of the log do not fail. *)
Definition db_ok (fails : alert_stmt -> bool) : Prop :=
  forall r e, fails (QGet r e) = false /\ fails (QInsert r e) = false /\ fails (QUpsert r e) = false.

Lemma rulesOfType_elem fails w t r : r ∈ rulesOfType fails w t -> r ∈ rules w /\ Enabled r = true /\ rule_Type r = t.
Proof.
  unfold rulesOfType, ListEnabledRules. destruct (fails QRules); [by intros ?%elem_of_nil|].
  rewrite !list_elem_of_filter. naive_solver.
Qed.

Section frames.
Context (now : Z) (why : Rule -> entity -> Prop).

(** The cached rules are those of before or the table's. *)
Definition cache_from (w w' : World) : Prop :=
  ruleCache (eng w') = ruleCache (eng w) \/
  match ruleCache (eng w') with Some (all, _) => forall r, r ∈ all -> r ∈ rules w | None => True end.

(** What an operation keeps: the rules, the start and the outages the engine
    knows; and its writes are moves. *)
Record frame (w w' : World) : Prop := MkFrame {
  fr_rules : rules w' = rules w;
  fr_start : startTime (eng w') = startTime (eng w);
  fr_since : offlineSinceAt (eng w') = offlineSinceAt (eng w);
  fr_latest : latestOffline (eng w') = latestOffline (eng w);
  fr_cache : cache_from w w';
  fr_moves : moves now why (tables_of w) (tables_of w')
}.

Lemma frame_refl w : frame w w.
Proof. split; try done. by left. Qed.

Lemma frame_trans w1 w2 w3 : frame w1 w2 -> frame w2 w3 -> frame w1 w3.
Proof.
  intros [R1 S1 O1 L1 C1 M1] [R2 S2 O2 L2 C2 M2]. split; try congruence; [|by etrans].
  unfold cache_from in *. rewrite R1 in C2. destruct C2 as [E|E]; [|by right]. rewrite E. exact C1.
Qed.

(** A change of the tables only. *)
Lemma frame_tables w w' :
  eng w' = eng w -> rules w' = rules w -> moves now why (tables_of w) (tables_of w') -> frame w w'.
Proof. intros He Hr Hm. split; rewrite ?He; try done. left. by rewrite He. Qed.

(** A change of the engine's other parts only. *)
Lemma frame_eng f w :
  (forall e, startTime (f e) = startTime e /\ offlineSinceAt (f e) = offlineSinceAt e /\ latestOffline (f e) = latestOffline e /\
     ruleCache (f e) = ruleCache e) ->
  frame w (with_eng f w).
Proof. intros Hf. destruct (Hf (eng w)) as (? & ? & ? & ?). split; try done. by left. Qed.

Lemma frame_foldl {A} (f : World -> A -> World) l w :
  (forall w' a, a ∈ l -> frame w w' -> frame w' (f w' a)) -> frame w (foldl f w l).
Proof.
  intros Hf. enough (forall l', (forall a, a ∈ l' -> a ∈ l) -> forall w', frame w w' -> frame w (foldl f w' l')) as H
    by (apply H; [done|apply frame_refl]).
  induction l' as [|a l' IH]; intros Hl w' Hw'; [done|]. simpl. apply IH; [set_solver|].
  eapply frame_trans; [done|]. apply Hf; [set_solver|done].
Qed.

Lemma frame_for_rules (f : World -> Rule -> World) rs w :
  (forall w' r, r ∈ rs -> frame w w' -> frame w' (f w' r)) -> frame w (for_rules rs f w).
Proof. apply frame_foldl. Qed.
End frames.

Section ops.
Context (fails : alert_stmt -> bool) (now : Z) (Hdb : db_ok fails) (why : Rule -> entity -> Prop).
Abbreviation frame := (frame now why).

Lemma frame_fire w rule e :
  (~ (inGracePeriod now w = true /\ rule_Type rule = NodeOffline) -> why rule e) -> frame w (fireOrSkip fails now w rule e).1.
Proof.
  intros Hy. destruct (Hdb (rule_ID rule) e) as (HG & HI & HU). unfold fireOrSkip.
  destruct (inGracePeriod now w && bool_decide (rule_Type rule = NodeOffline)) eqn:HC; [apply frame_refl|].
  unfold GetState. rewrite HG. destruct (cooling now rule _) eqn:Hcool; [apply frame_refl|].
  unfold InsertEvent, UpsertState, MarkRuleFired. cbn [ev_RuleID ev_Entity]. rewrite HI, HU. simpl.
  assert (why rule e) as Hwhy.
  { apply Hy. intros [H1 H2]. rewrite H1, bool_decide_eq_true_2 in HC by done. done. }
  destruct (fails (QMark (rule_ID rule))); apply frame_tables; try done;
    (apply rtc_once; unfold tables_of; simpl; by eapply mv_fire).
Qed.

Lemma settle_tables w rule e s :
  tables_of (settle fails now w rule e s) =
    MkTables (<[(rule_ID rule, e) := MkState false (FirstTriggeredAt s) (Some now)]> (states w))
      (log w ++ [MkLog (rule_ID rule) e Resolved now]) (sent w) /\
  eng (settle fails now w rule e s) = eng w /\ rules (settle fails now w rule e s) = rules w.
Proof.
  destruct (Hdb (rule_ID rule) e) as (HG & HI & HU). unfold settle, InsertEvent, UpsertState.
  cbn [ev_RuleID ev_Entity]. by rewrite HI, HU.
Qed.

Lemma frame_settle w rule e s :
  states w !! (rule_ID rule, e) = Some s -> Firing s = true -> frame w (settle fails now w rule e s).
Proof.
  intros Hs HF. destruct (settle_tables w rule e s) as (Ht & He & Hr). apply frame_tables; [done..|]. rewrite Ht.
  apply rtc_once. pose proof (mv_settle now why (states w) (log w) (sent w) (rule_ID rule) e s false Hs HF) as Hm.
  by rewrite app_nil_r in Hm.
Qed.

Lemma frame_resolve w rule e : frame w (resolveIfFiring fails now w rule e).
Proof.
  unfold resolveIfFiring, GetState. destruct (Hdb (rule_ID rule) e) as (HG & _). rewrite HG.
  destruct (states w !! (rule_ID rule, e)) as [s|] eqn:Hs; [|apply frame_refl].
  destruct (Firing s) eqn:HF; [|apply frame_refl]. destruct (settle_tables w rule e s) as (Ht & He & Hr).
  apply frame_tables; [done..|]. unfold tables_of in Ht |- *. simpl. injection Ht as -> -> ->.
  apply rtc_once. by apply (mv_settle _ _ _ _ _ _ _ _ true).
Qed.

Lemma frame_resolve_for t n e w : frame w (resolve_for fails now t n e w).
Proof. apply frame_for_rules. intros w' r _ _. case_match; [apply frame_resolve|apply frame_refl]. Qed.
End ops.

(** ** Why a rule fires *)

(** A rule with the cooldown and type its id stands for. *)
Definition known (c : Z -> Z * RuleType) (r : Rule) : Prop := (CooldownSec r, rule_Type r) = c (rule_ID r).

(** The rules, the cached ones too, are known. *)
Definition conforms (c : Z -> Z * RuleType) (w : World) : Prop :=
  (forall r, r ∈ rules w -> known c r) /\
  match ruleCache (eng w) with Some (all, _) => forall r, r ∈ all -> known c r | None => True end.

(** Outages are filed under their node. *)
Definition filed (w : World) : Prop := forall n p, latestOffline (eng w) !! n = Some p -> ns_NodeID p = n.

(** A node_offline rule of the table, for a node it covers whose outage is known
    and has lasted its grace, after the engine's own grace. *)
Definition offline_reason (now : Z) (w : World) (rule : Rule) (e : entity) : Prop :=
  rule ∈ rules w /\ Enabled rule = true /\ gracePeriodAfterStart <= now - startTime (eng w) /\
  exists n, e = ENode n /\ ruleAppliesToNode rule n = true /\
    down_long_enough now rule (offlineSinceAt (eng w) !! n) = true /\ (n <> 0 -> is_Some (latestOffline (eng w) !! n)).

Definition reason (c : Z -> Z * RuleType) (now : Z) (w : World) (rule : Rule) (e : entity) : Prop :=
  known c rule /\ (rule_Type rule = NodeOffline -> offline_reason now w rule e).

Section reasons.
Context (fails : alert_stmt -> bool) (now : Z) (Hdb : db_ok fails) (c : Z -> Z * RuleType) (w1 : World) (Hc : conforms c w1) (Hfiled : filed w1).
Abbreviation fr := (frame now (reason c now w1)).

Lemma fire_other w rule e :
  known c rule -> rule_Type rule <> NodeOffline -> fr w (fireOrSkip fails now w rule e).1.
Proof. intros HC HT. apply frame_fire; [done|]. by split. Qed.

Lemma frame_offline_rule w rule p :
  fr w1 w -> rule ∈ rules w1 -> Enabled rule = true -> (ns_NodeID p <> 0 -> is_Some (latestOffline (eng w1) !! ns_NodeID p)) ->
  fr w (evalNodeOfflineForRule fails now w rule p).
Proof.
  intros [_ HS HO _ _ _] Hr He Hp. unfold evalNodeOfflineForRule. destruct (ruleAppliesToNode rule _) eqn:HA; [|apply frame_refl].
  rewrite HO. destruct (down_long_enough now rule _) eqn:HD; [|apply frame_refl]. simpl. apply frame_fire; [done|].
  intros Hg. split; [by apply Hc|]. intros HT. split; [done|]. split; [done|]. split; [|by eexists].
  destruct (inGracePeriod now w) eqn:Hin; [naive_solver|]. unfold inGracePeriod in Hin. rewrite HS in Hin. lia.
Qed.

Lemma frame_stats_rule w rule p : rule ∈ rules w1 -> fr w (evalStatsForRule fails now w rule p).
Proof.
  intros Hr. unfold evalStatsForRule. destruct (negb _); [apply frame_refl|].
  destruct (actual_of (rule_Type rule) p) eqn:HA; [|apply frame_refl].
  assert (rule_Type rule <> NodeOffline) as HT by (intros HT; rewrite HT in HA; done).
  destruct (firstOverAt _ !! _) as [t|].
  - destruct (negb _); [|case_match; [apply frame_refl|apply fire_other; [by apply Hc|done]]].
    eapply frame_trans; [|by apply frame_resolve]. by apply frame_eng.
  - case_match; [by apply frame_eng|apply frame_refl].
Qed.

Lemma frame_tunnel_rule w rule p : rule ∈ rules w1 -> rule_Type rule = ReverseTunnelDown -> fr w (evalTunnelDownForRule fails now w rule p).
Proof.
  intros Hr HT. unfold evalTunnelDownForRule. do 3 (case_match; [apply frame_refl|]).
  apply fire_other; [by apply Hc|by rewrite HT].
Qed.

(** The rules of a type are the table's, whatever engine parts changed since. *)
Lemma rules_from w t r : fr w1 w -> r ∈ rulesOfType fails w t -> r ∈ rules w1 /\ Enabled r = true /\ rule_Type r = t.
Proof. intros Hw H. pose proof (rulesOfType_elem fails w t r H) as Hr. by rewrite (fr_rules _ _ _ _ Hw) in Hr. Qed.

Lemma frame_quiet w rule : fr w (resolveQuietMTProto fails now w rule).
Proof.
  unfold resolveQuietMTProto. apply frame_foldl. intros w' kf _ _. unfold quiet_one. case_match; [apply frame_refl|].
  eapply frame_trans; [|by apply frame_resolve]. by apply frame_eng.
Qed.

Lemma frame_count w t p :
  fr w1 w -> t <> NodeOffline -> fr w (evalMTProtoCount fails now w t p).
Proof.
  intros Hw HT. unfold evalMTProtoCount. set (w0 := with_eng _ w).
  assert (fr w w0) as H0 by (by apply frame_eng). assert (fr w1 w0) as H1 by (by eapply frame_trans).
  unfold cachedRulesOfType. set (fresh := match ruleCache _ with Some _ => _ | None => _ end).
  assert (forall w' rs, fr w w' -> (forall r, r ∈ rs -> known c r /\ rule_Type r = t) ->
    fr w (for_rules rs (count_one fails now t p) w')) as Hrun.
  { intros w' rs Hw' Hrs. eapply frame_trans; [done|]. apply frame_for_rules. intros w2 r Hr _. unfold count_one.
    destruct (negb _); [apply frame_refl|]. destruct (match mtprotoFiring _ !! _ with Some _ => _ | None => _ end); [apply frame_refl|].
    destruct (_ <? _); [apply frame_refl|]. destruct (fireOrSkip fails now w2 r _) as [w3 b] eqn:Hf.
    assert (fr w2 w3) as H3.
    { pose proof (fire_other w2 r (ENode (mt_NodeID p))) as Hfr. rewrite Hf in Hfr. destruct (Hrs r Hr). naive_solver. }
    eapply frame_trans; [exact H3|]. by apply frame_eng. }
  destruct fresh as [all|] eqn:Hfresh.
  - apply Hrun; [done|]. intros r [HTr Hr]%list_elem_of_filter. split; [|done].
    destruct (ruleCache (eng w0)) as [[all' at_]|] eqn:HC; [|done]. unfold fresh in Hfresh. case_match; [done|]. simplify_eq.
    destruct H1 as [HR _ _ _ Hfrom _]. unfold cache_from in Hfrom. rewrite HC in Hfrom. destruct Hc as [Hc1 Hc2].
    destruct Hfrom as [E|E]; [rewrite <-E in Hc2; by apply Hc2|by apply Hc1, E].
  - destruct (ListEnabledRules fails w0) as [all|] eqn:HL; [|done].
    unfold ListEnabledRules in HL. destruct (fails QRules); [done|]. simplify_eq.
    assert (forall r, r ∈ filter (fun r => Enabled r = true) (rules w0) -> r ∈ rules w1) as Hin.
    { intros r [_ Hr]%list_elem_of_filter. by rewrite (fr_rules _ _ _ _ H1) in Hr. }
    apply Hrun.
    + eapply frame_trans; [exact H0|]. split; try done. right. simpl. intros r [_ Hr]%list_elem_of_filter. done.
    + intros r [HTr Hr]%list_elem_of_filter. split; [|done]. by apply Hc, Hin.
Qed.

Lemma frame_mtproto w t p : fr w1 w -> fr w (handleMTProto fails now w t p).
Proof.
  intros Hw. destruct t; simpl.
  - apply frame_for_rules. intros w' r Hr Hw'. case_match; [|apply frame_refl].
    apply (rules_from w) in Hr as (Hr & _ & HT); [|done]. apply fire_other; [by apply Hc|by rewrite HT].
  - by apply frame_resolve_for.
  - by apply frame_count.
  - by apply frame_count.
  - apply frame_for_rules. intros w' r Hr Hw'. case_match; [apply frame_refl|].
    apply (rules_from w) in Hr as (Hr & _ & HT); [|done]. apply fire_other; [by apply Hc|by rewrite HT].
  - apply frame_for_rules. intros w' r Hr Hw'. case_match; [apply frame_refl|]. by apply frame_resolve.
Qed.

Lemma frame_crash w p : fr w1 w -> fr w (evalCrashLoop fails now w p).
Proof.
  intros Hw. apply frame_for_rules. intros w' r Hr Hw'. do 2 (case_match; [apply frame_refl|]).
  apply (rules_from w) in Hr as (Hr & _ & HT); [|done]. apply fire_other; [by apply Hc|by rewrite HT].
Qed.

Lemma frame_stats w p : fr w1 w -> fr w (evalStatsThresholds fails now w p).
Proof.
  intros Hw. unfold evalStatsThresholds. set (w2 := for_rules _ _ w).
  assert (fr w w2) as H2.
  { apply frame_for_rules. intros w' r Hr _. apply frame_stats_rule. by apply (rules_from w) in Hr as (? & _). }
  eapply frame_trans; [exact H2|]. apply frame_for_rules. intros w' r Hr _. apply frame_stats_rule.
  apply (rules_from w2) in Hr as (? & _); [done|]. by eapply frame_trans.
Qed.

Lemma frame_tunnel_down w p : fr w1 w -> fr w (evalTunnelDown fails now w p).
Proof.
  intros Hw. unfold evalTunnelDown. set (p' := match tunnelsDown _ !! _ with Some _ => _ | None => _ end).
  set (w2 := with_eng _ w). assert (fr w w2) as H2 by (by apply frame_eng). eapply frame_trans; [exact H2|].
  apply frame_for_rules. intros w' r Hr _. apply (rules_from w2) in Hr as (? & _ & ?); [|by eapply frame_trans].
  by apply frame_tunnel_rule.
Qed.

Lemma frame_tunnel_up w p : fr w1 w -> fr w (resolveTunnelDown fails now w p).
Proof.
  intros Hw. unfold resolveTunnelDown.
  apply (frame_trans _ _ _ (with_eng (set_tunnelsDown (delete (rt_TunnelID p))) w)); [by apply frame_eng|].
  case_match; [|by apply frame_resolve_for]. unfold clearTunnelDown. apply frame_for_rules. intros w' r _ _.
  unfold GetState. destruct (Hdb (rule_ID r) (ETunnel (rt_TunnelID p))) as (HG & _). rewrite HG.
  destruct (states w' !! _) as [s|] eqn:Hs; [|apply frame_refl].
  destruct (Firing s) eqn:HF; [|apply frame_refl]. by apply frame_settle.
Qed.

Abbreviation stats := (map_to_list (latestStats (eng w1))).*2.
Abbreviation pending := (map_to_list (latestOffline (eng w1))).*2.
Abbreviation tunnels := (map_to_list (tunnelsDown (eng w1))).*2.

Lemma frame_tick_rule w r : fr w1 w -> r ∈ rules w1 -> Enabled r = true -> fr w (tick_rule fails now stats pending tunnels w r).
Proof.
  intros Hw Hr He. unfold tick_rule. destruct (rule_Type r) eqn:HT; try apply frame_refl.
  - apply frame_foldl. intros w' p Hp Hw'. apply frame_offline_rule; [by eapply frame_trans|done..|].
    intros _. apply list_elem_of_fmap in Hp as ([k p'] & -> & Hk%elem_of_map_to_list). simpl.
    rewrite (Hfiled _ _ Hk). by eexists.
  - apply frame_foldl. intros w' p Hp Hw'. by apply frame_stats_rule.
  - apply frame_foldl. intros w' p Hp Hw'. by apply frame_stats_rule.
  - apply frame_quiet.
  - apply frame_quiet.
  - apply frame_foldl. intros w' p Hp Hw'. by apply frame_tunnel_rule.
Qed.

Lemma frame_tick : fr w1 (tick fails now w1).
Proof.
  unfold tick, ListEnabledRules. destruct (fails QRules); [apply frame_refl|]. apply frame_for_rules. intros w r Hr Hw.
  apply list_elem_of_filter in Hr as [He Hr]. by apply frame_tick_rule.
Qed.
End reasons.

(** What an event tells of a node's outage. *)
Definition offline_obs (now : Z) (ev : BusEvent) (e : Engine) : Engine :=
  match ev with
  | EvNodeOffline p => if ns_Planned p then forgetOfflineSince (ns_NodeID p) e else rememberOfflineSince now p e
  | EvNodeOnline p => forgetOfflineSince (ns_NodeID p) e
  | EvNodeDeleted id => forgetOfflineSince id e
  | EvNodeUpdated id planned => if planned then forgetOfflineSince id e else e
  | _ => e
  end.

Lemma offline_obs_parts now ev e :
  startTime (offline_obs now ev e) = startTime e /\ ruleCache (offline_obs now ev e) = ruleCache e.
Proof. unfold offline_obs, rememberOfflineSince. by repeat case_match. Qed.

Lemma filed_obs now ev w : filed w -> filed (with_eng (offline_obs now ev) w).
Proof.
  intros Hw n p. destruct ev; simpl; try apply Hw;
    [unfold rememberOfflineSince; case_match; [|case_match; [apply Hw|]]|..|case_match; [|apply Hw]]; simpl;
    rewrite ?lookup_delete_Some, ?lookup_insert_Some; try (by intros [? ?]; apply Hw).
  intros [[<- <-]|[? ?]]; [done|by apply Hw].
Qed.

Lemma handle_frame fails now c w ev :
  db_ok fails -> conforms c w -> filed w ->
  let w1 := with_eng (offline_obs now ev) w in frame now (reason c now w1) w1 (handleEvent fails now w ev).
Proof.
  intros Hdb Hc Hf w1. assert (conforms c w1) as Hc1.
  { destruct Hc as [H1 H2]. split; [done|]. simpl. by destruct (offline_obs_parts now ev (eng w)) as [_ ->]. }
  assert (filed w1) as Hf1 by (by apply filed_obs).
  assert (forall w', rules w' = rules w1 -> startTime (eng w') = startTime (eng w1) -> offlineSinceAt (eng w') = offlineSinceAt (eng w1) ->
    latestOffline (eng w') = latestOffline (eng w1) -> ruleCache (eng w') = ruleCache (eng w1) ->
    states w' = states w1 -> log w' = log w1 -> sent w' = sent w1 -> frame now (reason c now w1) w1 w') as Hsame.
  { intros w' H1 H2 H3 H4 H5 H6 H7 H8. split; [done..|by left|]. unfold tables_of. by rewrite H6, H7, H8. }
  assert (forall n name ip e, startTime (rememberMeta n name ip e) = startTime e /\ offlineSinceAt (rememberMeta n name ip e) = offlineSinceAt e /\
    latestOffline (rememberMeta n name ip e) = latestOffline e /\ ruleCache (rememberMeta n name ip e) = ruleCache e) as Hmeta.
  { intros. unfold rememberMeta. by case_match. }
  destruct ev as [p|p|p|p|t p|id|id planned|p|p|p]; simpl.
  - unfold evalNodeOffline. destruct (Hmeta (ns_NodeID p) (ns_NodeName p) (ns_IP p) (eng w)) as (M1 & M2 & M3 & M4).
    destruct (ns_Planned p) eqn:HP.
    + apply Hsame; unfold w1; simpl; rewrite ?HP; simpl; congruence.
    + set (w2 := with_eng (rememberOfflineSince now p) _).
      assert (frame now (reason c now w1) w1 w2) as H2.
      { apply Hsame; unfold w1, w2; simpl; rewrite ?HP; unfold rememberOfflineSince; repeat case_match; simpl; rewrite ?M2; congruence. }
      eapply frame_trans; [exact H2|]. apply frame_for_rules. intros w' r Hr Hw'.
      apply (rules_from fails now c w1 w2) in Hr as (Hr & He & _); [|done].
      apply (frame_offline_rule fails now Hdb c w1 Hc1); [by eapply frame_trans|done|done|]. intros Hn. unfold w1. simpl. rewrite HP.
      unfold rememberOfflineSince. rewrite (proj2 (Z.eqb_neq _ _) Hn). simpl. rewrite lookup_insert_eq. by eexists.
  - destruct (Hmeta (ns_NodeID p) (ns_NodeName p) (ns_IP p) (eng w)) as (M1 & M2 & M3 & M4).
    unfold resolveNodeOffline. eapply frame_trans; [|by apply frame_resolve_for].
    apply Hsame; unfold w1; simpl; congruence.
  - destruct (Hmeta (xs_NodeID p) (xs_NodeName p) (xs_IP p) (eng w)) as (M1 & M2 & M3 & M4). set (w2 := with_eng _ w).
    assert (frame now (reason c now w1) w1 w2) as H2 by (apply Hsame; unfold w1; simpl; congruence).
    eapply frame_trans; [exact H2|]. by apply frame_crash.
  - destruct (Hmeta (xs_NodeID p) (xs_NodeName p) (xs_IP p) (eng w)) as (M1 & M2 & M3 & M4).
    unfold resolveCrashLoop. eapply frame_trans; [|by apply frame_resolve_for]. apply Hsame; unfold w1; simpl; congruence.
  - destruct (Hmeta (mt_NodeID p) (mt_NodeName p) "" (eng w)) as (M1 & M2 & M3 & M4). set (w2 := with_eng _ w).
    assert (frame now (reason c now w1) w1 w2) as H2 by (apply Hsame; unfold w1; simpl; congruence).
    eapply frame_trans; [exact H2|]. by apply frame_mtproto.
  - apply frame_refl.
  - destruct planned; by apply Hsame.
  - assert (frame now (reason c now w1) w1 w) as H2 by (by apply Hsame).
    eapply frame_trans; [exact H2|]. by apply frame_tunnel_down.
  - assert (frame now (reason c now w1) w1 w) as H2 by (by apply Hsame).
    eapply frame_trans; [exact H2|]. by apply frame_tunnel_up.
  - destruct (Hmeta (st_NodeID p) (st_NodeName p) "" (eng w)) as (M1 & M2 & M3 & M4). set (w2 := with_eng _ w).
    assert (frame now (reason c now w1) w1 w2) as H2 by (apply Hsame; unfold w1; simpl; congruence).
    eapply frame_trans; [exact H2|]. by apply frame_stats.
Qed.

(** ** The log of a rule and an entity *)

Definition about (r : Z) (e : entity) (lg : list LogEvent) : list LogEvent :=
  filter (fun ev => ev_RuleID ev = r /\ ev_Entity ev = e) lg.

(** What may follow [prev] in it: first a fire; after a fire, a resolve or
    another fire once the cooldown is over; after a resolve, a fire. *)
Definition follows (cd : Z) (prev : option LogEvent) (ev : LogEvent) : Prop :=
  match prev, ev_Status ev with
  | None, st => st = Fired
  | Some p, Fired => ev_Status p = Fired -> sec cd <= ev_CreatedAt ev - ev_CreatedAt p
  | Some p, Resolved => ev_Status p = Fired
  end.

Fixpoint paced (cd : Z) (prev : option LogEvent) (l : list LogEvent) : Prop :=
  match l with [] => True | ev :: l => follows cd prev ev /\ paced cd (Some ev) l end.

Lemma paced_snoc cd prev l ev :
  paced cd prev (l ++ [ev]) <-> paced cd prev l /\ follows cd (match last l with Some p => Some p | None => prev end) ev.
Proof.
  revert prev. induction l as [|a l IH]; intros prev; simpl; [tauto|]. rewrite IH.
  destruct l as [|b l]; simpl; [tauto|]. assert (exists x, last (b :: l) = Some x) as [x Hx] by (apply last_is_Some; done).
  simpl in Hx. rewrite Hx. tauto.
Qed.

(** The fires of the log, and those that were notified. *)
Definition log_fires (lg : list LogEvent) : list (Z * entity * Z) :=
  omap (fun ev => match ev_Status ev with Fired => Some (ev_RuleID ev, ev_Entity ev, ev_CreatedAt ev) | Resolved => None end) lg.
Definition sent_fires (sn : list Notice) : list (Z * entity * Z) :=
  omap (fun no => match no_Status no with Fired => Some (no_RuleID no, no_Entity no, no_At no) | Resolved => None end) sn.

(** The tables agree: a state says whether its log's last entry is a fire, and
    when; and the fires are what was notified. *)
Definition agree (c : Z -> Z * RuleType) (t : tables) : Prop :=
  sent_fires (t_sent t) = log_fires (t_log t) /\
  forall r e, paced (c r).1 None (about r e (t_log t)) /\
    match t_states t !! (r, e) with
    | None => about r e (t_log t) = []
    | Some s => exists ev, last (about r e (t_log t)) = Some ev /\ LastNotifiedAt s = Some (ev_CreatedAt ev) /\
                           (Firing s = true <-> ev_Status ev = Fired)
    end.

Lemma about_snoc r e lg ev :
  about r e (lg ++ [ev]) = if decide (ev_RuleID ev = r /\ ev_Entity ev = e) then about r e lg ++ [ev] else about r e lg.
Proof. unfold about. rewrite filter_app, filter_cons, filter_nil. case_decide; [done|]. by rewrite app_nil_r. Qed.

Lemma agree_snoc c st lg sn sn' s ev :
  agree c (MkTables st lg sn) -> follows (c (ev_RuleID ev)).1 (last (about (ev_RuleID ev) (ev_Entity ev) lg)) ev ->
  LastNotifiedAt s = Some (ev_CreatedAt ev) -> (Firing s = true <-> ev_Status ev = Fired) ->
  sent_fires sn' = log_fires (lg ++ [ev]) ->
  agree c (MkTables (<[(ev_RuleID ev, ev_Entity ev) := s]> st) (lg ++ [ev]) sn').
Proof.
  intros [_ Ha] Hf Hl HF Hsn. split; [done|]. intros r e. destruct (Ha r e) as [Hp Hs]. cbn [t_states t_log] in *. rewrite about_snoc.
  destruct (decide (ev_RuleID ev = r /\ ev_Entity ev = e)) as [[<- <-]|Hne].
  - rewrite paced_snoc, lookup_insert_eq, last_snoc. split; [split; [done|]|by exists ev].
    by destruct (last _).
  - rewrite lookup_insert_ne by naive_solver. done.
Qed.

Lemma move_agree c now w t t' :
  move now (reason c now w) t t' -> agree c t -> agree c t'.
Proof.
  intros Hm Ha. destruct Hm as [st lg sn rule e first Hcool [HC _]|st lg sn rule e s notify Hs HF].
  - apply (agree_snoc c st lg sn _ (MkState true first (Some now)) (MkLog (rule_ID rule) e Fired now)); [done| |done|done|].
    + destruct Ha as [_ Ha]. destruct (Ha (rule_ID rule) e) as [_ Hst]. cbn [t_states t_log ev_RuleID ev_Entity] in *.
      unfold cooling in Hcool. destruct (st !! (rule_ID rule, e)) as [s|]; [|by rewrite Hst].
      destruct Hst as (ev & -> & Hn & HF). simpl. intros Hfired. rewrite Hn, (proj2 HF Hfired) in Hcool. simpl in Hcool.
      unfold known in HC. rewrite <-HC. simpl. lia.
    + destruct Ha as [Hsn _]. simpl in Hsn. unfold sent_fires, log_fires in *. by rewrite !omap_app, Hsn.
  - apply (agree_snoc c st lg sn _ (MkState false (FirstTriggeredAt s) (Some now)) (MkLog rule e Resolved now)); [done| |done|done|].
    + destruct Ha as [_ Ha]. destruct (Ha rule e) as [_ Hst]. cbn [t_states t_log ev_RuleID ev_Entity] in *. rewrite Hs in Hst.
      destruct Hst as (ev & -> & _ & HF'). simpl. by apply HF'.
    + destruct Ha as [Hsn _]. simpl in Hsn. unfold sent_fires, log_fires in *. rewrite !omap_app, Hsn. by destruct notify.
Qed.

Lemma moves_agree c now w t t' : moves now (reason c now w) t t' -> agree c t -> agree c t'.
Proof. induction 1 as [|t t1 t' Hm _ IH]; [done|]. intros Ha. apply IH. by eapply move_agree. Qed.
