(* ===== verification/AlertTruth.v ===== *)
(** * Alerts that tell the truth

    Runs of happenings from empty tables, and theorems on them: the log is
    disciplined, an alert that a node is offline is true, it comes when due and
    goes when the node is back; and what readings that are missing, and a
    restart, do to an alert. *)

From S2P Require Import Prelude GoFloat AlertEngine AlertRuns.

(** ** Runs *)

(** A happening whose statements on states and the log work, and whose edited
    rules are known. *)
Definition h_ok (c : Z -> Z * RuleType) (h : happening) : Prop :=
  db_ok (h_fails h) /\ match h_act h with AEdit rs => forall r, r ∈ rs -> known c r | _ => True end.

Definition run (w : World) (hs : list happening) : World := foldl act w hs.

(** An engine started on empty tables. *)
Definition fresh (t0 : Z) (rs : list Rule) : World := MkAlerts (NewEngine t0) rs ∅ [] [] ∅.

(** What the history says of a node's outage: since when it is down without
    being planned, if it is; a new engine knows of none. *)
Definition outage (n : Z) (o : option Z) (h : happening) : option Z :=
  match h_act h with
  | ARestart => None
  | AEvent (EvNodeOffline p) =>
      if ns_NodeID p =? n then
        if ns_Planned p then None else match o with Some t => Some t | None => Some (default (h_at h) (ns_OutageStartedAt p)) end
      else o
  | AEvent (EvNodeOnline p) => if ns_NodeID p =? n then None else o
  | AEvent (EvNodeDeleted id) => if id =? n then None else o
  | AEvent (EvNodeUpdated id planned) => if planned && (id =? n) then None else o
  | _ => o
  end.
Definition started (t : Z) (h : happening) : Z := match h_act h with ARestart => h_at h | _ => t end.

(** The engine's knowledge is the history's. *)
Definition knows (t : Z) (o : Z -> option Z) (e : Engine) : Prop :=
  startTime e = t /\
  forall n, n <> 0 -> offlineSinceAt e !! n = o n /\ (is_Some (latestOffline e !! n) <-> is_Some (o n)).

Definition run_inv (c : Z -> Z * RuleType) (t : Z) (o : Z -> option Z) (w : World) : Prop :=
  conforms c w /\ filed w /\ agree c (tables_of w) /\ knows t o (eng w).

Lemma knows_obs t o e now fails ev :
  knows t o e -> knows t (fun n => outage n (o n) (MkHap now fails (AEvent ev))) (offline_obs now ev e).
Proof.
  intros [Ht Hn]. split; [by destruct (offline_obs_parts now ev e) as [-> _]|]. intros n Hz. destruct (Hn n Hz) as [H1 H2].
  assert (forall id, offlineSinceAt (forgetOfflineSince id e) !! n = (if id =? n then None else o n) /\
    (is_Some (latestOffline (forgetOfflineSince id e) !! n) <-> is_Some (if id =? n then None else o n))) as Hf.
  { intros id. simpl. destruct (Z.eqb_spec id n) as [->|Hne]; [by rewrite !lookup_delete_eq, !is_Some_alt|].
    by rewrite !lookup_delete_ne by done. }
  destruct ev as [p|p|p|p|t' p|id|id planned|p|p|p]; unfold outage; simpl; try done; [| |by apply Hf|].
  - destruct (ns_Planned p); [apply Hf|]. unfold rememberOfflineSince. destruct (Z.eqb_spec (ns_NodeID p) n) as [Hp|Hne].
    + rewrite Hp. rewrite (proj2 (Z.eqb_neq n 0) Hz). simpl. rewrite lookup_insert_eq, H1.
      destruct (o n) as [x|] eqn:Ho; [rewrite H1|rewrite lookup_insert_eq]; by rewrite !is_Some_alt.
    + destruct (ns_NodeID p =? 0); [done|]. simpl. rewrite lookup_insert_ne by done. split; [|done].
      case_match; [done|by rewrite lookup_insert_ne].
  - apply Hf.
  - destruct planned; simpl; [apply Hf|done].
Qed.

Lemma frame_inv c now t o w1 w why :
  frame now why w1 w -> conforms c w1 -> filed w1 -> knows t o (eng w1) -> conforms c w /\ filed w /\ knows t o (eng w).
Proof.
  intros [HR HS HO HL HC _] [C1 C2] HF [K1 K2]. unfold conforms, filed, knows. rewrite HR, HS, HO, HL. split; [|done].
  split; [done|]. destruct HC as [->|HC]; [done|]. destruct (ruleCache (eng w)) as [[all at_]|]; [|done]. auto.
Qed.

Lemma tick_frame fails now c w :
  db_ok fails -> conforms c w -> filed w -> frame now (reason c now w) w (tick fails now w).
Proof. intros. by apply frame_tick. Qed.

Lemma start_parts fails now w :
  ruleCache (eng (Start fails now w)) = None /\ latestOffline (eng (Start fails now w)) = ∅ /\
  offlineSinceAt (eng (Start fails now w)) = ∅ /\ startTime (eng (Start fails now w)) = now /\
  rules (Start fails now w) = rules w /\ tables_of (Start fails now w) = tables_of w.
Proof. unfold Start, rehydrateMTProto. by repeat case_match. Qed.

(** What a happening does: the reasons it fires for hold of the history it
    ends, and the invariant goes on. *)
Lemma act_inv c t o w h :
  h_ok c h -> run_inv c t o w ->
  run_inv c (started t h) (fun n => outage n (o n) h) (act w h) /\
  exists w1, rules w1 = rules w /\ knows (started t h) (fun n => outage n (o n) h) (eng w1) /\
    moves (h_at h) (reason c (h_at h) w1) (tables_of w) (tables_of (act w h)).
Proof.
  destruct h as [now fails a]. intros [Hdb Hok] (Hc & Hf & Ha & Hk). unfold act. cbn [h_act h_at h_fails] in *.
  destruct a as [ev| | |rs].
  - pose proof (handle_frame fails now c w ev Hdb Hc Hf) as Hfr. simpl in Hfr. set (w1 := with_eng (offline_obs now ev) w) in *.
    assert (conforms c w1) as Hc1.
    { destruct Hc as [H1 H2]. split; [done|]. simpl. by destruct (offline_obs_parts now ev (eng w)) as [_ ->]. }
    assert (filed w1) as Hf1 by (by apply filed_obs).
    assert (knows t (fun n => outage n (o n) (MkHap now fails (AEvent ev))) (eng w1)) as Hk1 by (by apply knows_obs).
    pose proof (frame_inv c _ _ _ _ _ _ Hfr Hc1 Hf1 Hk1) as (? & ? & ?). pose proof (fr_moves _ _ _ _ Hfr) as Hm.
    split; [|by exists w1]. split_and!; try done. by apply (moves_agree c now w1 _ _ Hm).
  - pose proof (tick_frame fails now c w Hdb Hc Hf) as Hfr. pose proof (frame_inv c _ _ _ _ _ _ Hfr Hc Hf Hk) as (? & ? & ?).
    pose proof (fr_moves _ _ _ _ Hfr) as Hm. split; [|by exists w]. split_and!; try done. by apply (moves_agree c now w _ _ Hm).
  - destruct (start_parts fails now w) as (S1 & S2 & S3 & S4 & S5 & S6).
    assert (knows now (fun _ => None) (eng (Start fails now w))) as Hk'.
    { split; [done|]. intros n _. by rewrite S2, S3, !lookup_empty. }
    split; [|exists (Start fails now w); by rewrite S6]. split_and!; [split; [rewrite S5; apply Hc|by rewrite S1]| |by rewrite S6|done].
    intros n p. by rewrite S2, lookup_empty.
  - split; [|by exists w]. destruct Hc as [_ Hc2]. done.
Qed.

Lemma fresh_run_inv c t0 rs :
  (forall r, r ∈ rs -> known c r) -> run_inv c t0 (fun _ => None) (fresh t0 rs).
Proof.
  intros Hrs. split; [by split|]. split; [by intros n p; simpl; rewrite lookup_empty|]. split; [split; [done|]|].
  - intros r e. split; [done|]. simpl. by rewrite lookup_empty.
  - split; [done|]. intros n _. simpl. by rewrite !lookup_empty.
Qed.

(** The history's outage and start, over a run. *)
Definition outage_after (hs : list happening) (n : Z) : option Z := foldl (outage n) None hs.
Definition started_after (t0 : Z) (hs : list happening) : Z := foldl started t0 hs.

Lemma run_keeps c t0 rs hs :
  (forall r, r ∈ rs -> known c r) -> Forall (h_ok c) hs ->
  run_inv c (started_after t0 hs) (outage_after hs) (run (fresh t0 rs) hs).
Proof.
  intros Hrs. induction hs as [|h hs IH] using rev_ind; intros Hok; [by apply fresh_run_inv|].
  apply Forall_app in Hok as [Hok Hh]. rewrite Forall_singleton in Hh. unfold run, started_after, outage_after.
  rewrite !foldl_app. simpl. destruct (act_inv c _ _ _ h Hh (IH Hok)) as [(H1 & H2 & H3 & H4 & H5) _].
  split_and!; try done. split; [done|]. intros n Hn. rewrite foldl_app. by apply H5.
Qed.

(** ** The log *)


(** ** The truth of an offline alert *)

(** The entries moves add to the log. *)
Lemma moves_new now why t t' :
  moves now why t t' ->
  exists new, t_log t' = t_log t ++ new /\
    forall ev, ev ∈ new -> ev_Status ev = Fired -> exists rule, why rule (ev_Entity ev) /\ rule_ID rule = ev_RuleID ev.
Proof.
  induction 1 as [t|t t1 t' Hm _ (new & -> & Hn)]; [exists []; rewrite app_nil_r; split; [done|by intros ? ?%elem_of_nil]|].
  destruct Hm as [st lg sn rule e first _ Hy|st lg sn rule e s notify _ _]; simpl;
    eexists; rewrite <-app_assoc; (split; [done|]); intros ev [Hev|Hev]%elem_of_app; try (by apply Hn);
    apply list_elem_of_singleton in Hev as ->; simpl; [|done]. intros _. by exists rule.
Qed.

(** An alert that a node is offline is true: when a happening logs a fire
    of a node_offline rule for a node, the table has that rule, enabled and
    covering the node; the history says the node is down, unplanned, and has
    been for the rule's grace; and the engine has run for its two minutes. *)
Theorem offline_alert_true (c : Z -> Z * RuleType) (t0 : Z) (rs : list Rule) (hs : list happening) (h : happening)
    (Hrs : forall r, r ∈ rs -> known c r) (Hok : Forall (h_ok c) hs) (Hh : h_ok c h) :
  let w := run (fresh t0 rs) hs in
  exists new, log (act w h) = log w ++ new /\
  forall ev n, ev ∈ new -> ev_Status ev = Fired -> ev_Entity ev = ENode n -> n <> 0 -> (c (ev_RuleID ev)).2 = NodeOffline ->
  exists rule since, rule ∈ rules w /\ Enabled rule = true /\ rule_ID rule = ev_RuleID ev /\ rule_Type rule = NodeOffline /\
    ruleAppliesToNode rule n = true /\ outage_after (hs ++ [h]) n = Some since /\
    (0 < DurationSec (rule_Threshold rule) -> sec (DurationSec (rule_Threshold rule)) <= h_at h - since) /\
    gracePeriodAfterStart <= h_at h - started_after t0 (hs ++ [h]).
Proof.
  intros w. destruct (act_inv c _ _ _ h Hh (run_keeps c t0 rs hs Hrs Hok)) as [_ (w1 & HR & [HS HK] & Hm)]. fold w in HR, Hm.
  destruct (moves_new _ _ _ _ Hm) as (new & Hlog & Hnew). exists new. split; [exact Hlog|].
  intros ev n Hev HF He Hn HT. destruct (Hnew ev Hev HF) as (rule & [Hkn Hre] & Hid). rewrite He in Hre.
  assert (rule_Type rule = NodeOffline) as Hty by (unfold known in Hkn; rewrite <-Hid, <-Hkn in HT; done).
  destruct (Hre Hty) as (Hin & Hen & Hg & n' & [= <-] & Ha & Hd & Hl). destruct (HK n Hn) as [HK1 HK2].
  destruct (proj1 HK2 (Hl Hn)) as [since Hs]. rewrite HR in Hin. rewrite HS in Hg. rewrite HK1, Hs in Hd.
  exists rule, since. unfold outage_after, started_after. rewrite !foldl_app. simpl. split_and!; try done.
  intros Hpos. unfold down_long_enough in Hd. rewrite (proj2 (Z.ltb_lt _ _)) in Hd by (unfold sec; lia).
  apply negb_true_iff, Z.ltb_ge in Hd. done.
Qed.

(** ** What fires and resolves write *)

Definition firing (w : World) (r : Z) (e : entity) : Prop := exists s, states w !! (r, e) = Some s /\ Firing s = true.

Section writes.
Context (fails : alert_stmt -> bool) (now : Z) (Hdb : db_ok fails).

(** What firing a rule for an entity does to the states. *)
Lemma fire_states w rule e :
  states (fireOrSkip fails now w rule e).1 = states w \/
  exists first, states (fireOrSkip fails now w rule e).1 = <[(rule_ID rule, e) := MkState true first (Some now)]> (states w).
Proof.
  destruct (Hdb (rule_ID rule) e) as (HG & HI & HU). unfold fireOrSkip. case_match; [by left|]. unfold GetState. rewrite HG.
  destruct (cooling now rule _); [by left|]. right. unfold InsertEvent, UpsertState, MarkRuleFired. cbn [ev_RuleID ev_Entity].
  rewrite HI, HU. simpl. destruct (fails (QMark _)); by eexists.
Qed.

Lemma fire_fires w rule e :
  (inGracePeriod now w = true -> rule_Type rule <> NodeOffline) -> firing (fireOrSkip fails now w rule e).1 (rule_ID rule) e.
Proof.
  intros Hg. destruct (Hdb (rule_ID rule) e) as (HG & HI & HU). unfold fireOrSkip, firing.
  destruct (inGracePeriod now w && bool_decide (rule_Type rule = NodeOffline)) eqn:HC.
  { apply andb_true_iff in HC as [H1 H2%bool_decide_eq_true]. by destruct (Hg H1). }
  unfold GetState. rewrite HG. destruct (cooling now rule _) eqn:Hcool.
  - unfold cooling in Hcool. destruct (states w !! _) as [s|] eqn:Hs; [|done]. apply andb_true_iff in Hcool as [? _].
    simpl. rewrite Hs. by exists s.
  - unfold InsertEvent, UpsertState, MarkRuleFired. cbn [ev_RuleID ev_Entity]. rewrite HI, HU. simpl.
    destruct (fails (QMark _)); simpl; rewrite lookup_insert_eq; by eexists.
Qed.

Lemma fire_keeps w rule e r e' : firing w r e' -> firing (fireOrSkip fails now w rule e).1 r e'.
Proof.
  intros (s & Hs & HF). unfold firing. destruct (fire_states w rule e) as [->|[first ->]]; [by exists s|].
  destruct (decide ((rule_ID rule, e) = (r, e'))) as [->|Hne]; [rewrite lookup_insert_eq|rewrite lookup_insert_ne by done]; eauto.
Qed.

Lemma resolve_states w rule e :
  states (resolveIfFiring fails now w rule e) = states w /\ ~ firing w (rule_ID rule) e \/
  exists first, states (resolveIfFiring fails now w rule e) = <[(rule_ID rule, e) := MkState false first (Some now)]> (states w).
Proof.
  destruct (Hdb (rule_ID rule) e) as (HG & HI & HU). unfold resolveIfFiring, GetState, firing. rewrite HG.
  destruct (states w !! _) as [s|] eqn:Hs; [|left; split; [done|by intros (? & ? & _)]].
  destruct (Firing s) eqn:HF; [|left; split; [done|intros (? & ? & ?); congruence]]. right.
  destruct (settle_tables fails now Hdb w rule e s) as (Ht & _). unfold tables_of in Ht. injection Ht as Ht _ _.
  simpl. rewrite Ht. by eexists.
Qed.

Lemma resolve_resolves w rule e : ~ firing (resolveIfFiring fails now w rule e) (rule_ID rule) e.
Proof.
  unfold firing. destruct (resolve_states w rule e) as [[-> Hn]|[first ->]]; [done|].
  rewrite lookup_insert_eq. by intros (s & [= <-] & ?).
Qed.

Lemma resolve_starts_none w rule e r e' : ~ firing w r e' -> ~ firing (resolveIfFiring fails now w rule e) r e'.
Proof.
  intros Hn. destruct (decide ((rule_ID rule, e) = (r, e'))) as [[= <- <-]|Hne]; [apply resolve_resolves|].
  unfold firing. destruct (resolve_states w rule e) as [[-> _]|[first ->]]; [done|by rewrite lookup_insert_ne].
Qed.

End writes.

(** ** Resolving *)

Section resolving.
Context (fails : alert_stmt -> bool) (now : Z) (Hdb : db_ok fails).

Definition resolve_notice (r : Z) (e : entity) : Notice := MkNotice LInfo r e Resolved now.

(** An alert that was taken back, with its notice. *)
Definition resolved (r : Z) (e : entity) (w : World) : Prop := ~ firing w r e /\ resolve_notice r e ∈ sent w.

Lemma resolve_sent w rule e :
  eng (resolveIfFiring fails now w rule e) = eng w /\
  (firing w (rule_ID rule) e /\ sent (resolveIfFiring fails now w rule e) = sent w ++ [resolve_notice (rule_ID rule) e] \/
   sent (resolveIfFiring fails now w rule e) = sent w /\ ~ firing w (rule_ID rule) e).
Proof.
  destruct (Hdb (rule_ID rule) e) as (HG & _). unfold resolveIfFiring, GetState, firing. rewrite HG.
  destruct (states w !! _) as [s|] eqn:Hs; [|split; [done|]; right; split; [done|by intros (? & ? & _)]].
  destruct (Firing s) eqn:HF; [|split; [done|]; right; split; [done|intros (? & ? & ?); congruence]].
  destruct (settle_tables fails now Hdb w rule e s) as (Ht & He & _). unfold tables_of in Ht. injection Ht as _ _ Hsn.
  simpl. rewrite Hsn, He. split; [done|]. left. split; [by exists s|done].
Qed.

Lemma resolve_done w rule e :
  firing w (rule_ID rule) e \/ resolved (rule_ID rule) e w -> resolved (rule_ID rule) e (resolveIfFiring fails now w rule e).
Proof.
  intros Hw. split; [by apply resolve_resolves|]. destruct (resolve_sent w rule e) as [_ [[_ ->]|[-> Hn]]]; [set_solver|].
  destruct Hw as [?|[_ ?]]; done.
Qed.

(** A step leaves what a rule says of an entity as it is. *)
Definition same_at (k : Z * entity) (w w' : World) : Prop :=
  states w' !! k = states w !! k /\ firstOverAt (eng w') !! k = firstOverAt (eng w) !! k /\
  latestStats (eng w') = latestStats (eng w) /\ rules w' = rules w /\ (forall n, n ∈ sent w -> n ∈ sent w').

Lemma same_firing r e w w' : same_at (r, e) w w' -> firing w' r e <-> firing w r e.
Proof. intros (H & _). unfold firing. by rewrite H. Qed.

Lemma same_resolved r e w w' : same_at (r, e) w w' -> resolved r e w -> resolved r e w'.
Proof. intros Hs [H1 H2]. split; [by rewrite (same_firing _ _ _ _ Hs)|]. by apply Hs. Qed.

Lemma resolve_same w rule e k : (rule_ID rule, e) <> k -> same_at k w (resolveIfFiring fails now w rule e).
Proof.
  intros Hne. destruct (resolve_sent w rule e) as [He Hsn]. unfold same_at. rewrite He. split_and!; [|done..| |].
  - destruct (resolve_states fails now Hdb w rule e) as [[-> _]|[first ->]]; [done|by rewrite lookup_insert_ne].
  - unfold resolveIfFiring, settle, InsertEvent, UpsertState. by repeat case_match.
  - intros x Hx. destruct Hsn as [[_ ->]|[-> _]]; set_solver.
Qed.

Lemma fire_same w rule e k : (rule_ID rule, e) <> k -> same_at k w (fireOrSkip fails now w rule e).1.
Proof.
  intros Hne. assert (forall w', w' = (fireOrSkip fails now w rule e).1 -> eng w' = eng w /\ rules w' = rules w /\
    forall x, x ∈ sent w -> x ∈ sent w') as Hkeep.
  { intros w' ->. unfold fireOrSkip, InsertEvent, UpsertState, MarkRuleFired. repeat case_match; simpl; set_solver. }
  destruct (Hkeep _ eq_refl) as (He & Hr & Hs). unfold same_at. rewrite He. split_and!; try done.
  destruct (fire_states fails now Hdb w rule e) as [->|[first ->]]; [done|by rewrite lookup_insert_ne].
Qed.

Lemma stats_same w rule p k :
  (rule_ID rule, ENode (st_NodeID p)) <> k -> same_at k w (evalStatsForRule fails now w rule p).
Proof.
  intros Hne. unfold evalStatsForRule. repeat case_match; try (by apply fire_same); try done.
  - destruct (resolve_same (with_eng (set_firstOverAt (delete (rule_ID rule, ENode (st_NodeID p)))) w) rule (ENode (st_NodeID p)) k Hne)
      as (S1 & S2 & S3). split_and!; [done| |apply S3..]. rewrite S2. simpl. by rewrite lookup_delete_ne by done.
  - split_and!; [done| |done..]. simpl. by rewrite lookup_insert_ne by done.
Qed.

Lemma same_trans k w1 w2 w3 : same_at k w1 w2 -> same_at k w2 w3 -> same_at k w1 w3.
Proof. intros (? & ? & ? & ? & ?) (? & ? & ? & ? & ?). split_and!; [congruence..|auto]. Qed.

Lemma same_foldl {B} (f : World -> B -> World) k l w :
  (forall w' b, b ∈ l -> same_at k w w' -> same_at k w' (f w' b)) -> same_at k w (foldl f w l).
Proof.
  intros Hf. apply (foldl_keeps_in (same_at k w)); [|done]. intros w' b Hb Hw'. eapply same_trans; [done|by apply Hf].
Qed.

(** A tick of one rule leaves the entities of every other as they are. *)
Lemma tick_same stats pending tunnels w rule r e :
  rule_ID rule <> r -> same_at (r, e) w (tick_rule fails now stats pending tunnels w rule).
Proof.
  intros Hne. assert (forall e', (rule_ID rule, e') <> (r, e)) as Hk by congruence.
  unfold tick_rule, resolveQuietMTProto. destruct (rule_Type rule); try done; apply same_foldl; intros w' b _ _.
  - unfold evalNodeOfflineForRule. repeat case_match; [done..|by apply fire_same].
  - by apply stats_same.
  - by apply stats_same.
  - unfold quiet_one. case_match; [done|]. eapply same_trans; [|by apply resolve_same]. done.
  - unfold quiet_one. case_match; [done|]. eapply same_trans; [|by apply resolve_same]. done.
  - unfold evalTunnelDownForRule. repeat case_match; [done..|by apply fire_same].
Qed.
End resolving.

Lemma enabled_elem fails w rule :
  fails QRules = false -> rule ∈ rules w -> Enabled rule = true -> rule ∈ rulesOfType fails w (rule_Type rule).
Proof. intros Hq Hr He. unfold rulesOfType, ListEnabledRules. rewrite Hq. by rewrite !list_elem_of_filter. Qed.

(** ** An offline alert comes and goes *)


(** An offline alert goes when the node is back: after its online event,
    if the statements work, no enabled node_offline rule that covers the node is
    firing for it, and one that was has sent that it is resolved. *)
Theorem offline_alert_goes (fails : alert_stmt -> bool) (now : Z) (w : World) (p : NodeStatusPayload) (rule : Rule)
    (Hdb : db_ok fails) (Hq : fails QRules = false) (Hr : rule ∈ rules w) (He : Enabled rule = true)
    (HT : rule_Type rule = NodeOffline) (Ha : ruleAppliesToNode rule (ns_NodeID p) = true) :
  let w' := handleEvent fails now w (EvNodeOnline p) in
  ~ firing w' (rule_ID rule) (ENode (ns_NodeID p)) /\
  (firing w (rule_ID rule) (ENode (ns_NodeID p)) -> resolved now (rule_ID rule) (ENode (ns_NodeID p)) w').
Proof.
  set (e := ENode (ns_NodeID p)). intros w'. subst w'. cbn [handleEvent]. unfold resolveNodeOffline, resolve_for, for_rules. fold e.
  set (w1 := with_eng (forgetOfflineSince _) _).
  assert (rule ∈ rulesOfType fails w1 NodeOffline) as Hin by (rewrite <-HT; by apply enabled_elem). split.
  - apply (foldl_reaches (fun _ => True) (fun w' => ~ firing w' (rule_ID rule) e) _ _ _ rule); [|done| |done].
    + intros w2 r _ _. split; [done|]. intros Hn. case_match; [by apply resolve_starts_none|done].
    + intros w2 _. rewrite Ha. by apply resolve_resolves.
  - intros Hf. apply (foldl_reaches (fun w' => firing w' (rule_ID rule) e \/ resolved now (rule_ID rule) e w')
      (resolved now (rule_ID rule) e) _ _ _ rule); [|done| |by left].
    + intros w2 r _ Hw2. destruct (ruleAppliesToNode r _); [|done].
      destruct (decide (rule_ID r = rule_ID rule)) as [Hid|Hne].
      * rewrite <-Hid in *. split; [right|]; [by apply resolve_done|]. intros ?. apply resolve_done; [done|by right].
      * pose proof (resolve_same fails now Hdb w2 r e (rule_ID rule, e) ltac:(congruence)) as Hs. split; [|by apply same_resolved].
        destruct Hw2; [left; by rewrite (same_firing _ _ _ _ Hs)|right; by eapply same_resolved].
    + intros w2 Hw2. rewrite Ha. by apply resolve_done.
Qed.

(** ** Missing readings *)

Lemma zero_not_over rule : f64_leb (threshold_of rule) (f64_of_int 0) = false.
Proof. unfold threshold_of. destruct (f64_leb (Value _) _) eqn:H; [by vm_compute|done]. Qed.

Lemma stats_rules fails now w rule p : rules (evalStatsForRule fails now w rule p) = rules w.
Proof.
  unfold evalStatsForRule, resolveIfFiring, settle, fireOrSkip, InsertEvent, UpsertState, MarkRuleFired, GetState.
  by repeat case_match.
Qed.

(** A rule that saw a node over its threshold and sees it at zero. *)
Lemma stats_zero fails now w rule p :
  db_ok fails -> ruleAppliesToNode rule (st_NodeID p) = true -> actual_of (rule_Type rule) p = Some (f64_of_int 0) ->
  is_Some (firstOverAt (eng w) !! (rule_ID rule, ENode (st_NodeID p))) /\ firing w (rule_ID rule) (ENode (st_NodeID p)) \/
    resolved now (rule_ID rule) (ENode (st_NodeID p)) w ->
  resolved now (rule_ID rule) (ENode (st_NodeID p)) (evalStatsForRule fails now w rule p).
Proof.
  intros Hdb Ha Hz Hw. unfold evalStatsForRule. rewrite Ha, Hz, zero_not_over. simpl.
  destruct (firstOverAt (eng w) !! _) as [t|].
  - apply resolve_done; [done|]. destruct Hw as [[_ ?]|?]; [by left|by right].
  - destruct Hw as [[[? ?] _]|?]; done.
Qed.

(** Readings that are missing take an alert back: an event that says the
    readings of a node are unavailable, and so carries no load, resolves the
    alert of a high_cpu rule on the node, though nothing was read. *)
Theorem missing_stats_resolve (fails : alert_stmt -> bool) (now : Z) (w : World) (p : NodeStatsPayload) (rule : Rule)
    (Hdb : db_ok fails) (Hq : fails QRules = false) (Hids : NoDup (rule_ID <$> rules w)) (Hr : rule ∈ rules w)
    (He : Enabled rule = true) (HT : rule_Type rule = HighCPU) (Ha : ruleAppliesToNode rule (st_NodeID p) = true)
    (Hp : st_StatsUnavailable p = true) (Hcpu : st_CPUPercent p = f64_of_int 0)
    (Hover : is_Some (firstOverAt (eng w) !! (rule_ID rule, ENode (st_NodeID p))))
    (Hf : firing w (rule_ID rule) (ENode (st_NodeID p))) :
  resolved now (rule_ID rule) (ENode (st_NodeID p)) (handleEvent fails now w (EvNodeStats p)).
Proof.
  cbn [handleEvent]. unfold evalStatsThresholds, for_rules. set (e := ENode (st_NodeID p)) in *. set (w1 := with_eng _ w).
  set (w2 := foldl _ w1 _). assert (rules w2 = rules w) as HR.
  { apply (foldl_keeps (fun w' => rules w' = rules w)); [|done]. intros w' r <-. apply stats_rules. }
  assert (forall r, r ∈ rules w -> rule_ID r = rule_ID rule -> r = rule) as Huniq.
  { intros r Hr' Hid. by apply (NoDup_fmap_inj_on rule_ID (rules w)). }
  assert (resolved now (rule_ID rule) e w2) as H2.
  { set (I := fun w' => is_Some (firstOverAt (eng w') !! (rule_ID rule, e)) /\ firing w' (rule_ID rule) e \/
      resolved now (rule_ID rule) e w').
    assert (forall w', I w' -> resolved now (rule_ID rule) e (evalStatsForRule fails now w' rule p)) as Hz.
    { intros w' Hw'. apply stats_zero; [done..|by rewrite HT; simpl; rewrite Hcpu|done]. }
    apply (foldl_reaches I (resolved now (rule_ID rule) e) _ _ _ rule); [|rewrite <-HT; by apply enabled_elem|exact Hz|].
    - intros w' r (Hr' & _)%rulesOfType_elem Hw'. destruct (decide (rule_ID r = rule_ID rule)) as [Hid|Hne].
      + rewrite (Huniq r Hr' Hid) in *. split; [right; by apply Hz|]. intros ?. apply Hz. by right.
      + pose proof (stats_same fails now Hdb w' r p (rule_ID rule, e) ltac:(congruence)) as Hs. split; [|by apply same_resolved].
        destruct Hw' as [[H1 H3]|H1]; [left|right; by eapply same_resolved].
        rewrite (same_firing _ _ _ _ Hs). destruct Hs as (_ & -> & _). done.
    - left. split; [|done]. subst w1. simpl. unfold rememberMeta. by case_match. }
  apply (foldl_keeps_in (resolved now (rule_ID rule) e)); [|done]. intros w' r (Hr' & _ & HT')%rulesOfType_elem Hw'.
  eapply same_resolved; [|done]. apply stats_same; [done|]. intros [= Hid]. rewrite HR in Hr'.
  rewrite (Huniq r Hr' Hid) in HT'. congruence.
Qed.

(** ** A restart *)

(** A tick, or readings that are calm if they are the node's. *)
Definition calm (rule : Rule) (n : Z) (p : NodeStatsPayload) : Prop :=
  st_NodeID p = n -> f64_leb (threshold_of rule) (st_CPUPercent p) = false.
Definition calm_hap (rule : Rule) (n : Z) (h : happening) : Prop :=
  db_ok (h_fails h) /\ match h_act h with ATick => True | AEvent (EvNodeStats p) => calm rule n p | _ => False end.

(** The alert is on, its rule has not seen the node over the threshold, and the
    readings kept are calm. *)
Definition stranded (rule : Rule) (n : Z) (rs : list Rule) (w : World) : Prop :=
  firing w (rule_ID rule) (ENode n) /\ firstOverAt (eng w) !! (rule_ID rule, ENode n) = None /\ rules w = rs /\
  forall m p, latestStats (eng w) !! m = Some p -> calm rule n p.

Lemma same_stranded rule n rs w w' :
  same_at (rule_ID rule, ENode n) w w' -> stranded rule n rs w -> stranded rule n rs w'.
Proof.
  intros Hs (H1 & H2 & H3 & H4). unfold stranded. rewrite (same_firing _ _ _ _ Hs). destruct Hs as (_ & -> & -> & -> & _). done.
Qed.

(** Readings that are calm do nothing to it, whichever rule looks at them. *)
Lemma calm_stats fails now w rule n r p rs :
  db_ok fails -> rule_Type rule = HighCPU -> NoDup (rule_ID <$> rs) -> rule ∈ rs -> r ∈ rs -> calm rule n p ->
  stranded rule n rs w -> stranded rule n rs (evalStatsForRule fails now w r p).
Proof.
  intros Hdb HT Hids Hr Hr' Hc Hw. destruct (decide ((rule_ID r, ENode (st_NodeID p)) = (rule_ID rule, ENode n))) as [[= Hid Hn]|Hne];
    [|eapply same_stranded; [by apply stats_same|done]].
  assert (r = rule) as -> by (by apply (NoDup_fmap_inj_on rule_ID rs)).
  unfold evalStatsForRule. destruct (negb _); [done|]. rewrite HT. simpl. rewrite (Hc Hn), Hn. by rewrite (proj1 (proj2 Hw)).
Qed.

Lemma calm_tick_rule fails now w rule n r stats pending tunnels rs :
  db_ok fails -> rule_Type rule = HighCPU -> NoDup (rule_ID <$> rs) -> rule ∈ rs -> r ∈ rs -> (forall p, p ∈ stats -> calm rule n p) ->
  stranded rule n rs w -> stranded rule n rs (tick_rule fails now stats pending tunnels w r).
Proof.
  intros Hdb HT Hids Hr Hr' Hc Hw. destruct (decide (rule_ID r = rule_ID rule)) as [Hid|Hne];
    [|eapply same_stranded; [by apply tick_same|done]].
  assert (r = rule) as -> by (by apply (NoDup_fmap_inj_on rule_ID rs)).
  unfold tick_rule. rewrite HT. apply (foldl_keeps_in (stranded rule n rs)); [|done].
  intros w' p Hp. apply calm_stats; auto.
Qed.

Lemma calm_act w rule n h rs :
  rule_Type rule = HighCPU -> NoDup (rule_ID <$> rs) -> rule ∈ rs -> calm_hap rule n h ->
  stranded rule n rs w -> stranded rule n rs (act w h).
Proof.
  destruct h as [now fails a]. intros HT Hids Hr [Hdb Hh] Hw. unfold act. cbn [h_act h_at h_fails] in *.
  destruct a as [ev| | |]; try done.
  - destruct ev; try done. cbn [handleEvent]. unfold evalStatsThresholds, for_rules. set (w1 := with_eng _ w).
    assert (stranded rule n rs w1) as H1.
    { destruct Hw as (W1 & W2 & W3 & W4). assert (forall m name ip e, firstOverAt (rememberMeta m name ip e) = firstOverAt e /\
        latestStats (rememberMeta m name ip e) = latestStats e) as Hm by (intros; unfold rememberMeta; by case_match).
      destruct (Hm (st_NodeID p) (st_NodeName p) "" (eng w)) as [M1 M2].
      split_and!; [done|subst w1; simpl; by rewrite M1|done|]. subst w1. simpl. rewrite M2. intros m q.
      rewrite lookup_insert_Some. intros [[_ <-]|[_ Hq]]; [done|by eapply W4]. }
    assert (forall t w', stranded rule n rs w' -> stranded rule n rs
      (foldl (fun w r => evalStatsForRule fails now w r p) w' (rulesOfType fails w' t))) as Hfold; [|auto].
    intros t w' Hw'. apply (foldl_keeps_in (stranded rule n rs)); [|done]. intros w2 r (Hr2 & _)%rulesOfType_elem.
    destruct Hw' as (_ & _ & HR & _). rewrite HR in Hr2. by apply calm_stats.
  - unfold tick, ListEnabledRules, for_rules. destruct (fails QRules); [done|].
    apply (foldl_keeps_in (stranded rule n rs)); [|done]. intros w2 r [_ Hr2]%list_elem_of_filter.
    destruct Hw as (_ & _ & HR & HS). rewrite HR in Hr2. apply calm_tick_rule; try done.
    intros p Hp. apply list_elem_of_fmap in Hp as ([m q] & -> & Hq%elem_of_map_to_list). by eapply HS.
Qed.

(** A restart strands an alert on a node's load: if a high_cpu rule is firing
    for a node when the engine starts, it goes on firing however often the node
    is read afterwards and found calm, and no tick resolves it. *)
Theorem restart_strands_alert (fails : alert_stmt -> bool) (t : Z) (w : World) (rule : Rule) (n : Z) (hs : list happening)
    (Hids : NoDup (rule_ID <$> rules w)) (Hr : rule ∈ rules w) (HT : rule_Type rule = HighCPU)
    (Hf : firing w (rule_ID rule) (ENode n)) (Hcalm : Forall (calm_hap rule n) hs) :
  firing (run (act w (MkHap t fails ARestart)) hs) (rule_ID rule) (ENode n).
Proof.
  assert (stranded rule n (rules w) (act w (MkHap t fails ARestart))) as H0.
  { unfold act. simpl. unfold Start, rehydrateMTProto. repeat case_match; (split_and!; [done..|]); simpl; intros m p;
      by rewrite lookup_empty. }
  unfold run. eapply (foldl_keeps_in (stranded rule n (rules w)) act hs); [|exact H0]. intros w' h Hh.
  apply calm_act; try done. by apply (proj1 (Forall_forall _ hs)).
Qed.

(** ** The windows of the counting rules *)

(** The binary search finds where the hits after the cutoff begin, if the hits
    are in the order of time; the fuel is enough. *)
Lemma search_after_spec cutoff (l : list mtprotoHit) fuel i j :
  StronglySorted (fun a b => hit_at a <= hit_at b) l -> (i <= j <= length l)%nat -> (j - i <= fuel)%nat ->
  (forall k h, (k < i)%nat -> l !! k = Some h -> hit_at h <= cutoff) ->
  (forall k h, (j <= k)%nat -> l !! k = Some h -> cutoff < hit_at h) ->
  let r := search_after fuel cutoff l i j in
  (forall k h, (k < r)%nat -> l !! k = Some h -> hit_at h <= cutoff) /\
  (forall k h, (r <= k)%nat -> l !! k = Some h -> cutoff < hit_at h).
Proof.
  intros Hs. revert i j. induction fuel as [|fuel IH]; intros i j Hij Hf Hlo Hhi; cbn [search_after].
  - split; [done|]. intros k h Hk. apply Hhi. lia.
  - destruct (Nat.ltb_spec i j) as [Hlt|Hge]; [|split; [done|]; intros k h Hk; apply Hhi; lia].
    assert (i <= (i + j) / 2 < j)%nat as Hm by (split; [apply Nat.div_le_lower_bound|apply Nat.Div0.div_lt_upper_bound]; lia).
    set (m := ((i + j) / 2)%nat) in *. destruct (lookup_lt_is_Some_2 l m) as [x Hx]; [lia|]. rewrite Hx. simpl.
    assert (forall k h k' h', (k < k')%nat -> l !! k = Some h -> l !! k' = Some h' -> hit_at h <= hit_at h') as Hle.
    { intros k h k' h' Hk H H'. by apply (StronglySorted_lookup_lt _ _ Hs k k' h h'). }
    destruct (Z.ltb_spec cutoff (hit_at x)) as [Hc|Hc]; apply IH; try lia; try done; intros k h Hk Hh.
    + destruct (decide (k = m)) as [->|]; [congruence|]. pose proof (Hle m x k h ltac:(lia) Hx Hh). lia.
    + destruct (decide (k = m)) as [->|]; [congruence|]. pose proof (Hle k h m x ltac:(lia) Hh Hx). lia.
Qed.

(** What a window counts, by the reference: every hit after the cutoff. *)
Lemma hits_after_filter cutoff (l : list mtprotoHit) :
  StronglySorted (fun a b => hit_at a <= hit_at b) l -> hits_after cutoff l = filter (fun h => cutoff < hit_at h) l.
Proof.
  intros Hs. unfold hits_after.
  destruct (search_after_spec cutoff l (length l) 0 (length l) Hs) as [Hlo Hhi]; [lia|lia|lia| |].
  { intros k h Hk Hh%lookup_lt_Some. lia. }
  set (r := search_after _ _ _ _ _) in *. rewrite <-(take_drop r l) at 2. rewrite filter_app.
  rewrite (list_filter_none _ (take r l)), (list_filter_all _ (drop r l)); [done|..].
  - apply Forall_forall. intros h [k Hk]%list_elem_of_lookup. rewrite lookup_drop in Hk. apply (Hhi (r + k)%nat); [lia|done].
  - apply Forall_forall. intros h [k [Hk Hlt]%lookup_take_Some]%list_elem_of_lookup. pose proof (Hlo k h Hlt Hk). lia.
Qed.

(** ** Examples *)

Definition demo_offline : Rule := MkRule 1 NodeOffline ScopeNodeIDs [7] (MkThreshold (f64_of_int 0) 0 0 60) 300 true.
Definition demo_cpu : Rule := MkRule 2 HighCPU ScopeGlobal [] (MkThreshold (f64_of_int 80) 0 0 30) 300 true.
Definition demo_kinds (r : Z) : Z * RuleType := (300, if r =? 1 then NodeOffline else HighCPU).
Definition demo_ok : alert_stmt -> bool := fun _ => false.
Definition demo_down : happening := MkHap (sec 200) demo_ok (AEvent (EvNodeOffline (MkNodeStatus 7 "fra" "" false None))).
Definition demo_up : happening := MkHap (sec 400) demo_ok (AEvent (EvNodeOnline (MkNodeStatus 7 "fra" "" false None))).
Definition demo_tick (t : Z) : happening := MkHap (sec t) demo_ok ATick.
Definition demo_stats (t : Z) (missing : bool) (cpu : Z) : happening :=
  MkHap (sec t) demo_ok (AEvent (EvNodeStats (MkNodeStats missing 7 "fra" (f64_of_int cpu) (f64_of_int 0)))).
Definition demo_rules : list Rule := [demo_offline; demo_cpu].

Lemma demo_known r : r ∈ demo_rules -> known demo_kinds r.
Proof. unfold demo_rules. rewrite !elem_of_cons, elem_of_nil. intros [->|[->|[]]]; done. Qed.

Lemma demo_runs : Forall (h_ok demo_kinds) [demo_down; demo_tick 270; demo_up].
Proof. repeat constructor. Qed.


Lemma offline_alert_true_witness :
  let w := run (fresh 0 demo_rules) [demo_down] in
  exists rule since, rule ∈ rules w /\ outage_after [demo_down; demo_tick 270] 7 = Some since /\
    sec (DurationSec (rule_Threshold rule)) <= sec 270 - since.
Proof.
  intros w. destruct (offline_alert_true demo_kinds 0 demo_rules [demo_down] (demo_tick 270) demo_known) as (new & Hlog & Hnew);
    [by repeat constructor|by repeat constructor|].
  destruct (Hnew (MkLog 1 (ENode 7) Fired (sec 270)) 7) as (rule & since & Hr & _ & _ & _ & _ & Ho & Hd & _); [|done..|].
  - vm_compute in Hlog. destruct new as [|ev l]; [discriminate|]. injection Hlog as <- _. left.
  - exists rule, since. split; [exact Hr|]. split; [exact Ho|]. destruct (Z.ltb_spec 0 (DurationSec (rule_Threshold rule))).
    + by apply Hd.
    + vm_compute in Ho. injection Ho as <-. unfold sec. lia.
Defined.


Lemma offline_alert_goes_witness :
  let w := run (fresh 0 demo_rules) [demo_down; demo_tick 270] in
  resolved (sec 400) 1 (ENode 7) (handleEvent demo_ok (sec 400) w (EvNodeOnline (MkNodeStatus 7 "fra" "" false None))).
Proof.
  intros w. apply (offline_alert_goes demo_ok (sec 400) w (MkNodeStatus 7 "fra" "" false None) demo_offline); try done; [left|].
  eexists. split; [by vm_compute|done].
Defined.

Lemma missing_stats_resolve_witness :
  let w := run (fresh 0 demo_rules) [demo_stats 200 false 95; demo_stats 240 false 95] in
  resolved (sec 250) 2 (ENode 7)
    (handleEvent demo_ok (sec 250) w (EvNodeStats (MkNodeStats true 7 "fra" (f64_of_int 0) (f64_of_int 0)))).
Proof.
  intros w. apply (missing_stats_resolve demo_ok (sec 250) w (MkNodeStats true 7 "fra" (f64_of_int 0) (f64_of_int 0)) demo_cpu);
    try done.
  - apply (bool_decide_unpack _). by vm_compute.
  - right. left.
  - eexists. split; [by vm_compute|done].
Defined.

Lemma restart_strands_alert_witness :
  firing (run (act (run (fresh 0 demo_rules) [demo_stats 200 false 95; demo_stats 240 false 95]) (MkHap (sec 300) demo_ok ARestart))
    [demo_stats 310 false 5; demo_tick 900; demo_stats 9000 false 3]) 2 (ENode 7).
Proof.
  apply (restart_strands_alert demo_ok (sec 300) (run (fresh 0 demo_rules) [demo_stats 200 false 95; demo_stats 240 false 95]) demo_cpu 7);
    try done.
  - apply (bool_decide_unpack _). by vm_compute.
  - right. left.
  - eexists. split; [by vm_compute|done].
  - repeat constructor; intros _; by vm_compute.
Defined.
