(* ===== verification/PortMap.v ===== *)
(** * Port mappings on the routers upstream

    Models [network/usecase/portmap.go], the types of [network/system/portmap.go]
    and the rules of [network/domain/portmap.go]: for each uplink the panel asks
    the router in front of it to forward ports, renews what it holds, and gives
    it back. The mapper, with the routers and the clock behind it, is the class
    [PortMapper]; what the database and the interfaces say is the record
    [pm_env]. Times are nanoseconds, [None] is Go's zero time. The wording of
    errors is data; an address has no zone, so that two addresses print alike
    only if they are equal. *)

From S2P Require Import Prelude GoFloat.

(** ** Addresses: [net/netip] *)

Inductive Addr := NoAddr | V4 (n : Z) | V6 (n : Z).
#[export] Instance Addr_eq_dec : EqDecision Addr.
Proof. solve_decision. Defined.
#[export] Instance Addr_countable : Countable Addr.
Proof.
  refine (inj_countable' (fun a => match a with NoAddr => inl tt | V4 n => inr (inl n) | V6 n => inr (inr n) end)
    (fun s => match s with inl _ => NoAddr | inr (inl n) => V4 n | inr (inr n) => V6 n end) _).
  by intros [].
Defined.

Definition IsValid (a : Addr) : bool := match a with NoAddr => false | _ => true end.
Definition v4 (a b c d : Z) : Z := a * 2 ^ 24 + b * 2 ^ 16 + c * 2 ^ 8 + d.

(** [n] is in the IPv4 prefix [base]/[bits]. *)
Definition in_v4 (n base bits : Z) : bool := Z.shiftr n (32 - bits) =? Z.shiftr base (32 - bits).

Definition publicV4 (a : Addr) : bool :=
  match a with
  | V4 n =>
      negb (in_v4 n (v4 10 0 0 0) 8 || in_v4 n (v4 172 16 0 0) 12 || in_v4 n (v4 192 168 0 0) 16) &&
      negb (in_v4 n (v4 100 64 0 0) 10) && negb (in_v4 n (v4 127 0 0 0) 8) && negb (in_v4 n (v4 169 254 0 0) 16) && negb (n =? 0)
  | _ => false
  end.

(** [As4] panics, here [None], on the zero address and on an IPv6 one that is
    not an IPv4 address inside. *)
Definition As4 (a : Addr) : option Z :=
  match a with V4 n => Some n | V6 n => if Z.shiftr n 32 =? 2 ^ 16 - 1 then Some (n mod 2 ^ 32) else None | NoAddr => None end.

(** ** The mapper's interface: [system/portmap.go] *)

Record PortMapWAN := MkWAN { IfName : string; Gateway : Addr; SelfIP : Addr }.
Record PortMapEpoch := MkEpoch { Secs : Z; At : option Z }.
Record PortMapRequest := MkRequest {
  rq_Proto : string; rq_InternalPort : Z; rq_ExternalHint : Z; rq_Lifetime : Z; rq_Renewal : bool; rq_Nonce : list Z
}.
Record PortMapLease := MkLease {
  l_Proto : string; l_InternalPort : Z; l_ExternalIP : Addr; l_ExternalPort : Z; l_Method : string;
  l_GoodUntil : Z; l_RenewAfter : Z; l_Permanent : bool; l_Epoch : PortMapEpoch; l_Nonce : list Z
}.
Record PortMapProbe := MkProbe {
  pr_PMP : bool; pr_PCP : bool; pr_UPnP : bool; pr_Denied : bool; pr_ExternalIP : Addr; pr_Epoch : PortMapEpoch;
  pr_SeenAt : option Z
}.

Definition no_epoch : PortMapEpoch := MkEpoch 0 None.
Definition no_probe : PortMapProbe := MkProbe false false false false NoAddr no_epoch None.

Definition Known (e : PortMapEpoch) : bool := match At e with Some _ => true | None => false end.

Definition Rebooted (e next : PortMapEpoch) : bool :=
  match At e, At next with
  | Some t, Some t' =>
      if t' <? t then false else
      let elapsed := Seconds (t' - t) in
      let expected := f64_add (f64_add (f64_of_int (Secs e)) (f64_div (f64_mul elapsed (f64_of_int 7)) (f64_of_int 8))) (f64_of_int (-2)) in
      SFltb (f64_of_int (Secs next)) expected
  | _, _ => false
  end.

Definition Any (p : PortMapProbe) : bool := pr_PMP p || pr_PCP p || pr_UPnP p.

(** What a refused mapping says, with its text. *)
Inductive pm_fault := Denied | NestedNAT | OtherFault.

Class PortMapper (W : Type) := {
  Now : W -> Z;
  Probe : W -> PortMapWAN -> W * (PortMapProbe + string);
  Map : W -> PortMapWAN -> PortMapProbe -> PortMapRequest -> W * (PortMapLease + pm_fault * string);
  Unmap : W -> PortMapWAN -> PortMapLease -> W
}.

(** ** State *)

Definition pmLeaseKey : Type := string * Z.
Record pmDesired := MkDesired { d_key : pmLeaseKey; d_source : string; d_hint : Z }.
Record pmHeld := MkHeld { h_lease : PortMapLease; h_source : string }.
Record pmFailure := MkFailure { f_source : string; f_err : string }.

Inductive pm_verdict :=
| VUnset | VDisabled | VPublicDirect | VOK | VPartial | VNestedNAT | VNoService | VDenied | VError.
#[export] Instance pm_verdict_eq_dec : EqDecision pm_verdict.
Proof. solve_decision. Defined.

(** The error beside a verdict. *)
Inductive pm_note :=
| NoNote | NoGatewayYet | ProbeFailed (err : string) | RefusesMappings | BehindNAT | Unmapped (missing wanted : nat) | FirstFailure (err : string).

Record pmWANState := MkWANState {
  wan : PortMapWAN; gateway : option Addr; probe : PortMapProbe; probed : bool; epoch : PortMapEpoch;
  held : gmap pmLeaseKey pmHeld; failed : gmap pmLeaseKey pmFailure; verdict : pm_verdict; lastErr : pm_note; suspended : bool
}.

Definition new_state : pmWANState :=
  MkWANState (MkWAN "" NoAddr NoAddr) None no_probe false no_epoch ∅ ∅ VUnset NoNote false.

Definition set_wan v s := MkWANState v (gateway s) (probe s) (probed s) (epoch s) (held s) (failed s) (verdict s) (lastErr s) (suspended s).
Definition set_gateway v s := MkWANState (wan s) v (probe s) (probed s) (epoch s) (held s) (failed s) (verdict s) (lastErr s) (suspended s).
Definition set_probe v s := MkWANState (wan s) (gateway s) v (probed s) (epoch s) (held s) (failed s) (verdict s) (lastErr s) (suspended s).
Definition set_probed v s := MkWANState (wan s) (gateway s) (probe s) v (epoch s) (held s) (failed s) (verdict s) (lastErr s) (suspended s).
Definition set_epoch v s := MkWANState (wan s) (gateway s) (probe s) (probed s) v (held s) (failed s) (verdict s) (lastErr s) (suspended s).
Definition set_held f s := MkWANState (wan s) (gateway s) (probe s) (probed s) (epoch s) (f (held s)) (failed s) (verdict s) (lastErr s) (suspended s).
Definition set_failed f s := MkWANState (wan s) (gateway s) (probe s) (probed s) (epoch s) (held s) (f (failed s)) (verdict s) (lastErr s) (suspended s).
Definition set_verdict v n s := MkWANState (wan s) (gateway s) (probe s) (probed s) (epoch s) (held s) (failed s) v n (suspended s).
Definition set_suspended v s := MkWANState (wan s) (gateway s) (probe s) (probed s) (epoch s) (held s) (failed s) (verdict s) (lastErr s) v.

Record pmInputs := MkInputs { in_wan : PortMapWAN; in_key : string; in_enabled : bool; in_desired : list pmDesired }.

Inductive pm_event :=
| PortMapDenied (ifName : string)
| PortMapLost (ifName : string) (count : nat)
| PortMapLostOne (ifName : string) (key : pmLeaseKey)
| PortMapAcquired (ifName : string) (key : pmLeaseKey) (ip : Addr) (port : Z).

(** ** What is wanted *)

Record InboundSpec := MkInbound { ib_Tag : string; ib_Proto : string; ib_Port : Z; ib_Enabled : bool; ib_NoAutoMap : bool }.
Record PortMapRule := MkPMRule {
  pm_ID : Z; pm_UplinkKey : string; pm_Proto : string; pm_Port : Z; pm_ExternalHint : Z; pm_Comment : string; pm_Enabled : bool
}.

(** The order of [sort.Slice]: by protocol, then by port. *)
Definition key_leb (a b : pmLeaseKey) : bool :=
  match String.compare a.1 b.1 with Lt => true | Eq => a.2 <=? b.2 | Gt => false end.
Definition key_le (a b : pmLeaseKey) : Prop := key_leb a b = true.
Definition desired_le (a b : pmDesired) : Prop := key_le (d_key a) (d_key b).
#[export] Instance key_le_dec a b : Decision (key_le a b).
Proof. unfold key_le. apply _. Defined.
#[export] Instance desired_le_dec a b : Decision (desired_le a b).
Proof. unfold desired_le. apply _. Defined.

(** One row of either loop: skipped, or put at the end if its key is new. *)
Definition want_one (out : list pmDesired) (d : option pmDesired) : list pmDesired :=
  match d with
  | Some d => if decide (d_key d ∈ d_key <$> out) then out else out ++ [d]
  | None => out
  end.

Definition port_ok (p : Z) : bool := (0 <? p) && (p <=? 65535).

Definition of_inbound (ib : InboundSpec) : option pmDesired :=
  if ib_Enabled ib && negb (ib_NoAutoMap ib) && port_ok (ib_Port ib) then Some (MkDesired (ib_Proto ib, ib_Port ib) (ib_Tag ib) 0) else None.

Definition of_rule (uplinkKey : string) (r : PortMapRule) : option pmDesired :=
  if pm_Enabled r && port_ok (pm_Port r) && (bool_decide (pm_UplinkKey r = "") || bool_decide (pm_UplinkKey r = uplinkKey))
  then Some (MkDesired (pm_Proto r, pm_Port r) (if bool_decide (pm_Comment r = "") then "manual" else pm_Comment r)
               (if port_ok (pm_ExternalHint r) then pm_ExternalHint r else 0))
  else None.

Definition desiredPortMaps (inbounds : list InboundSpec) (rules : list PortMapRule) (uplinkKey : string) : list pmDesired :=
  merge_sort desired_le
    (foldl want_one (foldl want_one [] (of_inbound <$> inbounds)) (of_rule uplinkKey <$> rules)).

(** ** The operator's rules: [domain/portmap.go] *)

Inductive pm_check := V43 | V44 | V45 | V46.
Inductive pm_level := LevelReject | LevelConfirm.
Record PortForward := MkForward { pf_UplinkKey : string; pf_Proto : string; pf_DPort : Z; pf_Enabled : bool }.
Record PortMapRuleInput := MkRuleInput {
  ri_Existing : list PortMapRule; ri_New : PortMapRule; ri_PanelPort : Z; ri_SSHPort : Z;
  ri_InboundPorts : gmap string (list Z); ri_Forwards : list PortForward; ri_UplinkKeys : list string
}.

Definition sameUplink (a b : string) : bool := bool_decide (a = "") || bool_decide (b = "") || bool_decide (a = b).

Definition ValidatePortMapRule (inp : PortMapRuleInput) : list (pm_check * pm_level) :=
  let r := ri_New inp in
  if negb (bool_decide (pm_Proto r = "tcp") || bool_decide (pm_Proto r = "udp")) then [(V43, LevelReject)] else
  if (pm_Port r <? 1) || (65535 <? pm_Port r) then [(V43, LevelReject)] else
  if (pm_ExternalHint r <? 0) || (65535 <? pm_ExternalHint r) then [(V43, LevelReject)] else
  if negb (bool_decide (pm_UplinkKey r = "")) && negb (bool_decide (pm_UplinkKey r ∈ ri_UplinkKeys inp)) then [(V43, LevelReject)] else
  if negb (pm_Enabled r) then [] else
  if bool_decide (pm_Port r ∈ default [] (ri_InboundPorts inp !! pm_Proto r)) then [(V44, LevelReject)] else
  if existsb (fun ex => negb (pm_ID ex =? pm_ID r) && pm_Enabled ex && bool_decide (pm_Proto ex = pm_Proto r) &&
                        (pm_Port ex =? pm_Port r) && sameUplink (pm_UplinkKey ex) (pm_UplinkKey r)) (ri_Existing inp)
  then [(V44, LevelReject)] else
  let admin p := if bool_decide (pm_Proto r = "tcp") && (0 <? p) && (pm_Port r =? p) then [(V45, LevelConfirm)] else [] in
  admin (ri_PanelPort inp) ++ admin (ri_SSHPort inp) ++
  (if existsb (fun f => pf_Enabled f && bool_decide (pf_Proto f = pm_Proto r) && (pf_DPort f =? pm_Port r) &&
                        sameUplink (pf_UplinkKey f) (pm_UplinkKey r)) (ri_Forwards inp)
   then [(V46, LevelConfirm)] else []).

(** [checkPortMapRule] once everything was read: whether the change goes on. *)
Definition rule_accepted (inp : PortMapRuleInput) (confirmed : bool) : bool :=
  let vs := ValidatePortMapRule inp in
  negb (existsb (fun v => match v.2 with LevelReject => true | LevelConfirm => false end) vs) &&
  (confirmed || negb (existsb (fun v => match v.2 with LevelConfirm => true | LevelReject => false end) vs)).

(** ** One uplink *)

Section uplink.
Context {W : Type} `{!PortMapper W}.

Definition portMapProbeTrust : Z := 10 * 60 * 10 ^ 9.
Definition portMapLease : Z := 2 * 60 * 60 * 10 ^ 9.

(** The world outside, the uplink's state and what was published. *)
Record pm := MkPM { pw : W; st : pmWANState; evs : list pm_event }.

Definition upd (f : pmWANState -> pmWANState) (s : pm) : pm := MkPM (pw s) (f (st s)) (evs s).
Definition emit (e : pm_event) (s : pm) : pm := MkPM (pw s) (st s) (evs s ++ [e]).

Definition noteEpoch (s : pm) (e : PortMapEpoch) : pm * bool :=
  if Known e then (upd (set_epoch e) s, Rebooted (epoch (st s)) e) else (s, false).

Definition forgetPortMapLeases (s : pm) : pm :=
  let n := size (held (st s)) in
  let ifName := IfName (wan (st s)) in
  let s := upd (set_held (fun _ => ∅)) s in
  if (n =? 0)%nat then s else emit (PortMapLost ifName n) s.

Definition unmap_all (w : PortMapWAN) (ls : list PortMapLease) (s : pm) : pm :=
  MkPM (foldl (fun o l => Unmap o w l) (pw s) ls) (st s) (evs s).

Definition releasePortMapLeases (s : pm) (lost : bool) : pm :=
  let w := wan (st s) in
  let leases := h_lease <$> (map_to_list (held (st s))).*2 in
  let n := size (held (st s)) in
  let s := upd (fun t => set_probed false (set_held (fun _ => ∅) t)) s in
  if (n =? 0)%nat then s else
  let s := unmap_all w leases s in
  if lost then emit (PortMapLost (IfName w) n) s else s.

(** Releases what is no longer wanted, and forgets its failures. *)
Definition release_stale (w : PortMapWAN) (desired : list pmDesired) (s : pm) : pm :=
  let unwanted (k : pmLeaseKey) := k ∉ d_key <$> desired in
  let stale := filter (fun kh => unwanted kh.1) (held (st s)) in
  let s := upd (fun t => set_failed (filter (fun kf => ~ unwanted kf.1)) (set_held (filter (fun kh => ~ unwanted kh.1)) t)) s in
  unmap_all w (h_lease <$> (map_to_list stale).*2) s.

(** Acquires one mapping, or renews it when it is due; the flags say that a
    refusal, or a router behind NAT, was seen. *)
Definition acquire_one (w : PortMapWAN) (p : PortMapProbe) (sf : pm * bool * bool) (d : pmDesired) : pm * bool * bool :=
  let '(s, deniedSeen, nestedSeen) := sf in
  let k := d_key d in
  let h := held (st s) !! k in
  if match h with Some h => Now (pw s) <? l_RenewAfter (h_lease h) | None => false end then (s, deniedSeen, nestedSeen) else
  let req := match h with
             | Some h => MkRequest k.1 k.2 (l_ExternalPort (h_lease h)) portMapLease true (l_Nonce (h_lease h))
             | None => MkRequest k.1 k.2 (d_hint d) portMapLease false []
             end in
  let '(o, res) := Map (pw s) w p req in
  let s := MkPM o (st s) (evs s) in
  match res with
  | inr (f, err) =>
      let s := upd (set_failed (<[k := MkFailure (d_source d) err]>)) s in
      let expired := match h with Some h => l_GoodUntil (h_lease h) <? Now o | None => false end in
      let s := if expired then emit (PortMapLostOne (IfName w) k) (upd (set_held (delete k)) s) else s in
      (s, match f with Denied => true | _ => deniedSeen end, match f with NestedNAT => true | _ => nestedSeen end)
  | inl nl =>
      let '(s, rebooted) := noteEpoch s (l_Epoch nl) in
      let s := if rebooted then forgetPortMapLeases s else s in
      let s := upd (fun t => set_failed (delete k) (set_held (<[k := MkHeld nl (d_source d)]>) t)) s in
      (match h with Some _ => s | None => emit (PortMapAcquired (IfName w) k (l_ExternalIP nl) (l_ExternalPort nl)) s end,
       deniedSeen, nestedSeen)
  end.

Definition note_denied (ifName : string) (prev : pm_verdict) (s : pm) : pm :=
  if bool_decide (verdict (st s) = VDenied) && negb (bool_decide (prev = VDenied)) then emit (PortMapDenied ifName) s else s.

(** The first key of [sortedLeaseKeys]. *)
Definition first_failure (m : gmap pmLeaseKey pmFailure) : string :=
  match merge_sort key_le (map_to_list m).*1 with k :: _ => default "" (f_err <$> m !! k) | [] => "" end.

Definition setPortMapVerdict (s : pm) (inp : pmInputs) (deniedSeen nestedSeen : bool) : pm :=
  let t := st s in
  let privateExternal := existsb (fun kh => negb (publicV4 (l_ExternalIP (h_lease kh.2)))) (map_to_list (held t)) in
  let missing := length (filter (fun d => held t !! d_key d = None) (in_desired inp)) in
  let '(v, n) :=
    if privateExternal || nestedSeen then (VNestedNAT, BehindNAT)
    else if (missing =? 0)%nat then (VOK, NoNote)
    else if deniedSeen && (size (held t) =? 0)%nat then (VDenied, RefusesMappings)
    else if (0 <? size (held t))%nat then (VPartial, Unmapped missing (length (in_desired inp)))
    else (VError, FirstFailure (first_failure (failed t))) in
  note_denied (IfName (in_wan inp)) (verdict t) (upd (set_verdict v n) s).

(** The probe, when the last answer is not trusted any more. *)
Definition probe_wan (w : PortMapWAN) (s : pm) : pm * bool :=
  let stale := match pr_SeenAt (probe (st s)) with Some t => portMapProbeTrust <? Now (pw s) - t | None => true end in
  if probed (st s) && negb stale then (s, true) else
  let '(o, res) := Probe (pw s) w in
  let s := MkPM o (st s) (evs s) in
  match res with
  | inr err => (upd (set_verdict VError (ProbeFailed err)) s, false)
  | inl p =>
      let '(s, rebooted) := noteEpoch s (pr_Epoch p) in
      let s := if rebooted then forgetPortMapLeases s else s in
      (upd (fun t => set_probed true (set_probe p t)) s, true)
  end.

(** From the probe on: nothing there, or release, acquire and judge. *)
Definition map_wan (inp : pmInputs) (s : pm) : pm :=
  let w := in_wan inp in
  let p := probe (st s) in
  if negb (Any p) then
    let prev := verdict (st s) in
    note_denied (IfName w) prev
      (upd (if pr_Denied p then set_verdict VDenied RefusesMappings else set_verdict VNoService NoNote) s)
  else
    let s := release_stale w (in_desired inp) s in
    let '(s, deniedSeen, nestedSeen) := foldl (acquire_one w p) (s, false, false) (in_desired inp) in
    setPortMapVerdict s inp deniedSeen nestedSeen.

(** A gateway that changed: give back to the old router, then start over. *)
Definition adopt_wan (w : PortMapWAN) (s : pm) : pm :=
  let moved := match gateway (st s) with Some g => negb (bool_decide (g = Gateway w)) | None => false end in
  let s := if moved then releasePortMapLeases s true else s in
  upd (fun t => let t := set_gateway (Some (Gateway w)) (set_wan w t) in
                if moved then set_epoch no_epoch (set_probe no_probe (set_probed false t)) else t) s.

Definition reconcilePortMapWAN (s : pm) (inp : pmInputs) : pm :=
  let w := in_wan inp in
  if negb (in_enabled inp) then
    upd (fun t => set_failed (fun _ => ∅) (set_verdict VDisabled NoNote (set_wan w t))) (releasePortMapLeases s false)
  else if negb (IsValid (Gateway w)) then upd (fun t => set_verdict VError NoGatewayYet (set_wan w t)) s
  else
    let s := adopt_wan w s in
    if publicV4 (SelfIP w) then
      upd (fun t => set_failed (fun _ => ∅) (set_verdict VPublicDirect NoNote t)) (releasePortMapLeases s false)
    else
      let '(s, ok) := probe_wan w s in
      if ok then map_wan inp s else s.
End uplink.
#[global] Arguments pm W : clear implicits.

(** ** All uplinks *)

Section uplinks.
Context {W : Type} `{!PortMapper W}.

(** The panel's mappings: the world, a state for each uplink's key, and what was
    published. *)
Record PortMaps := MkPortMaps { outside : W; pmState : gmap string pmWANState; published : list pm_event }.

Definition portMapStateFor (u : PortMaps) (key : string) : pmWANState := default new_state (pmState u !! key).

(** An operation on the state of one key, which is made if it is not there. *)
Definition on_key (key : string) (f : pm W -> pm W) (u : PortMaps) : PortMaps :=
  let s := f (MkPM (outside u) (portMapStateFor u key) (published u)) in
  MkPortMaps (pw s) (<[key := st s]> (pmState u)) (evs s).

Definition releaseAllPortMaps (u : PortMaps) : PortMaps :=
  foldl (fun u k => on_key k (fun s => releasePortMapLeases s false) u) u (map_to_list (pmState u)).*1.

Definition prunePortMapStates (live : list string) (u : PortMaps) : PortMaps :=
  let gone := filter (fun k => k ∉ live) (map_to_list (pmState u)).*1 in
  foldl (fun u k => let u := on_key k (fun s => releasePortMapLeases s true) u in
                    MkPortMaps (outside u) (delete k (pmState u)) (published u)) u gone.

Definition suspendedPortMapInputs (u : PortMaps) : list string :=
  (filter (fun ks => suspended ks.2 = true) (map_to_list (pmState u))).*1.

(** What the database and the interfaces say at a pass: the uplinks with their
    keys, the WAN rows by interface, the settings, and the addresses; [None] for
    uplinks or rows that could not be read. [ParseAddr] is netip's. *)
Record wan_row := MkWANRow { wr_Healthy : bool; wr_StaticGateway : string; wr_LearnedGateway : string }.
Record pm_env := MkEnv {
  e_uplinks : option (list (string * string)); e_rows : option (gmap string wan_row); e_enabled : bool;
  e_inbounds : list InboundSpec; e_rules : list PortMapRule; e_addrs : list (string * Addr)
}.
Context (ParseAddr : string -> option Addr).

Definition usable (a : Addr) : bool := match a with V4 n => negb (in_v4 n (v4 169 254 0 0) 16) | _ => false end.

(** The first usable address of an interface. *)
Definition self_of (addrs : list (string * Addr)) (ifName : string) : Addr :=
  match list_find (fun a => a.1 = ifName /\ usable a.2 = true) addrs with
  | Some (_, a) => a.2
  | None => NoAddr
  end.

Definition gateway_of (row : wan_row) : Addr :=
  default NoAddr (ParseAddr (if bool_decide (wr_StaticGateway row = "") then wr_LearnedGateway row else wr_StaticGateway row)).

Definition gather_one (env : pm_env) (rows : gmap string wan_row) (ui : PortMaps * list pmInputs) (up : string * string)
    : PortMaps * list pmInputs :=
  let '(u, out) := ui in
  let '(key, ifName) := up in
  let row := default (MkWANRow false "" "") (rows !! ifName) in
  let mark b u := on_key key (upd (set_suspended b)) u in
  if e_enabled env && negb (wr_Healthy row) then (mark true u, out) else
  (mark false u, out ++ [MkInputs (MkWAN ifName (gateway_of row) (if e_enabled env then self_of (e_addrs env) ifName else NoAddr)) key
    (e_enabled env) (if e_enabled env then desiredPortMaps (e_inbounds env) (e_rules env) key else [])]).

Definition gatherPortMapInputs (env : pm_env) (u : PortMaps) : PortMaps * list pmInputs :=
  match e_uplinks env, e_rows env with
  | Some ups, Some rows => foldl (gather_one env rows) (u, []) ups
  | _, _ => (u, [])
  end.

Definition portMapPass (env : pm_env) (u : PortMaps) : PortMaps :=
  let '(u, ins) := gatherPortMapInputs env u in
  let u := match ins with [] => u | _ => prunePortMapStates ((in_key <$> ins) ++ suspendedPortMapInputs u) u end in
  foldl (fun u inp => on_key (in_key inp) (fun s => reconcilePortMapWAN s inp) u) u ins.

Definition ForcePortMapProbe (u : PortMaps) : PortMaps :=
  MkPortMaps (outside u) (set_probed false <$> pmState u) (published u).
End uplinks.
#[global] Arguments PortMaps W : clear implicits.
