(* ===== verification/PortMapWire.v ===== *)
(** * NAT-PMP and PCP on the wire

    Models [network/system/portmap_wire.go] and what [Unmap] of
    [portmap_client.go] sends: the requests as the bytes put into a buffer, the
    parsers of the answers with every read of the packet, where a read past its
    end is a panic. A byte is a [Z] in [0, 256). The layouts the theorems compare
    with are those of RFC 6886 and RFC 6887. *)

From S2P Require Import Prelude PortMap.

Definition is_byte (x : Z) : Prop := 0 <= x < 256.

(** [binary.BigEndian]. *)
Definition be16 (n : Z) : list Z := [n / 2 ^ 8 mod 256; n mod 256].
Definition be32 (n : Z) : list Z := [n / 2 ^ 24 mod 256; n / 2 ^ 16 mod 256; n / 2 ^ 8 mod 256; n mod 256].
Definition zeros (n : nat) : list Z := replicate n 0.

(** Reads that panic past the end. *)
Definition u8 (b : list Z) (i : nat) : option Z := b !! i.
Definition u16 (b : list Z) (i : nat) : option Z := x ← b !! i; y ← b !! S i; Some (x * 2 ^ 8 + y).
Definition u32 (b : list Z) (i : nat) : option Z := x ← u16 b i; y ← u16 b (i + 2); Some (x * 2 ^ 16 + y).

(** [b[i:i+n]] as a new array. *)
Definition cut (b : list Z) (i n : nat) : option (list Z) := if (i + n <=? length b)%nat then Some (take n (drop i b)) else None.

Definition be_nat (l : list Z) : Z := foldl (fun acc x => acc * 256 + x) 0 l.

Definition pmpProtoOp (proto : string) : Z := if bool_decide (proto = "tcp") then 2 else 1.

Definition pmpExternalAddrRequest : list Z := [0; 0].

Definition pmpMapRequest (proto : string) (internal external lifetime : Z) : list Z :=
  let b := zeros 12 in
  let b := <[1%nat := pmpProtoOp proto]> b in
  let b := list_inserts 4 (be16 internal) b in
  let b := list_inserts 6 (be16 external) b in
  list_inserts 8 (be32 lifetime) b.

Record pmpResponse := MkPMP {
  pmp_Op : Z; pmp_Result : Z; pmp_Epoch : Z; pmp_ExternalIP : Addr; pmp_InternalPort : Z; pmp_ExternalPort : Z; pmp_Lifetime : Z
}.

(** The outer [None] is a panic, the inner one is [false]. *)
Definition parsePMPResponse (b : list Z) : option (option pmpResponse) :=
  if (length b <? 8)%nat then Some None else
  v ← u8 b 0; op ← u8 b 1;
  if negb (v =? 0) || (op <? 128) then Some None else
  result ← u16 b 2; epoch ← u32 b 4;
  if op =? 128 then
    if (length b <? 12)%nat then Some None else
    a ← cut b 8 4; Some (Some (MkPMP op result epoch (V4 (be_nat a)) 0 0 0))
  else if (op =? 129) || (op =? 130) then
    if (length b <? 16)%nat then Some None else
    i ← u16 b 8; e ← u16 b 10; l ← u32 b 12; Some (Some (MkPMP op result epoch NoAddr i e l))
  else Some None.

(** [As16]: an IPv4 address as the IPv6 one it maps to. *)
Definition As16 (a : Addr) : Z := match a with NoAddr => 0 | V4 n => (2 ^ 16 - 1) * 2 ^ 32 + n | V6 n => n end.
Definition be128 (n : Z) : list Z := be32 (n / 2 ^ 96) ++ be32 (n / 2 ^ 64) ++ be32 (n / 2 ^ 32) ++ be32 n.

(** [copy] of the whole address into 16 bytes of the buffer. *)
Definition put16 (i : nat) (a : Addr) (b : list Z) : list Z := list_inserts i (be128 (As16 a)) b.

Definition pcpHeader (op lifetime : Z) (self : Addr) : list Z :=
  let b := zeros 24 in
  let b := <[1%nat := op]> (<[0%nat := 2]> b) in
  let b := list_inserts 4 (be32 lifetime) b in
  put16 8 self b.

Definition pcpAnnounceRequest (self : Addr) : list Z := pcpHeader 0 0 self.

Definition pcpMapRequest (self : Addr) (nonce : list Z) (proto : string) (internal external lifetime : Z) : list Z :=
  let b := pcpHeader 1 lifetime self ++ zeros 36 in
  let b := list_inserts 24 (take 12 nonce) b in
  let b := <[36%nat := if bool_decide (proto = "tcp") then 6 else 17]> b in
  let b := list_inserts 40 (be16 internal) b in
  let b := list_inserts 42 (be16 external) b in
  put16 44 (V4 0) b.

Record pcpResponse := MkPCP {
  pcp_Opcode : Z; pcp_Result : Z; pcp_Lifetime : Z; pcp_Epoch : Z; pcp_Nonce : list Z; pcp_InternalPort : Z;
  pcp_ExternalPort : Z; pcp_ExternalIP : Addr
}.

Definition Unmap_addr (a : Addr) : Addr :=
  match a with V6 n => if Z.shiftr n 32 =? 2 ^ 16 - 1 then V4 (n mod 2 ^ 32) else a | _ => a end.

Definition parsePCPResponse (b : list Z) : option (option pcpResponse) :=
  if (length b <? 24)%nat then Some None else
  v ← u8 b 0; op ← u8 b 1;
  if negb (v =? 2) || (Z.land op 128 =? 0) then Some None else
  result ← u8 b 3; lifetime ← u32 b 4; epoch ← u32 b 8;
  let opcode := Z.ldiff op 128 in
  if opcode =? 1 then
    if (length b <? 60)%nat then Some None else
    nonce ← cut b 24 12; i ← u16 b 40; e ← u16 b 42; a ← cut b 44 16;
    Some (Some (MkPCP opcode result lifetime epoch nonce i e (Unmap_addr (V6 (be_nat a)))))
  else Some (Some (MkPCP opcode result lifetime epoch (zeros 12) 0 0 NoAddr)).

(** ** What a release sends: [portMapClient.Unmap] *)

Inductive unmap_call := Datagram (gateway : Z) (payload : list Z) | NoSocket | SOAP (externalPort : Z) | Nothing | Panics.

(** [sendPXP]: the socket first, then the gateway's four bytes. *)
Definition sendPXP (opens : bool) (w : PortMapWAN) (payload : list Z) : unmap_call :=
  if opens then match As4 (Gateway w) with Some g => Datagram g payload | None => Panics end else NoSocket.

Definition client_Unmap (opens : bool) (w : PortMapWAN) (l : PortMapLease) : unmap_call :=
  if bool_decide (l_Method l = "natpmp") then sendPXP opens w (pmpMapRequest (l_Proto l) (l_InternalPort l) 0 0)
  else if bool_decide (l_Method l = "pcp") then
    sendPXP opens w (pcpMapRequest (SelfIP w) (l_Nonce l) (l_Proto l) (l_InternalPort l) 0 0)
  else if bool_decide (l_Method l = "upnp") then SOAP (l_ExternalPort l)
  else Nothing.

(** ** Lemmas on the bytes *)

Lemma u16_be16 pre n rest : 0 <= n < 2 ^ 16 -> u16 (pre ++ be16 n ++ rest) (length pre) = Some n.
Proof.
  intros Hn. unfold u16. rewrite !(lookup_app_r pre) by lia. replace (length pre - length pre)%nat with 0%nat by lia.
  replace (S (length pre) - length pre)%nat with 1%nat by lia. simpl. f_equal. word_lia.
Qed.

Lemma u32_be32 pre n rest : 0 <= n < 2 ^ 32 -> u32 (pre ++ be32 n ++ rest) (length pre) = Some n.
Proof.
  intros Hn. unfold u32, u16. rewrite !(lookup_app_r pre) by lia. replace (length pre - length pre)%nat with 0%nat by lia.
  replace (S (length pre) - length pre)%nat with 1%nat by lia. replace (length pre + 2 - length pre)%nat with 2%nat by lia.
  replace (S (length pre + 2) - length pre)%nat with 3%nat by lia. simpl. f_equal. word_lia.
Qed.

Lemma u16_some b i : (S i < length b)%nat -> exists n, u16 b i = Some n.
Proof.
  intros H. destruct (lookup_lt_is_Some_2 b i) as [x Hx]; [lia|]. destruct (lookup_lt_is_Some_2 b (S i)) as [y Hy]; [lia|].
  unfold u16. rewrite Hx, Hy. by eexists.
Qed.
Lemma u32_some b i : (S (i + 2) < length b)%nat -> exists n, u32 b i = Some n.
Proof.
  intros H. destruct (u16_some b i) as [x Hx]; [lia|]. destruct (u16_some b (i + 2)) as [y Hy]; [lia|].
  unfold u32. rewrite Hx, Hy. by eexists.
Qed.
Lemma cut_some b i n : (i + n <= length b)%nat -> cut b i n = Some (take n (drop i b)).
Proof. intros H. unfold cut. by rewrite (proj2 (Nat.leb_le _ _) H). Qed.

Lemma be_nat_be32 acc n : foldl (fun acc x => acc * 256 + x) acc (be32 n) = acc * 2 ^ 32 + n mod 2 ^ 32.
Proof. simpl. word_lia. Qed.

Lemma be_nat_be128 n : 0 <= n < 2 ^ 128 -> be_nat (be128 n) = n.
Proof.
  intros Hn. unfold be_nat, be128. rewrite !foldl_app, !be_nat_be32.
  replace (n / 2 ^ 96) with (n / 2 ^ 32 / 2 ^ 32 / 2 ^ 32) by (rewrite !Z.div_div by lia; done).
  replace (n / 2 ^ 64) with (n / 2 ^ 32 / 2 ^ 32) by (rewrite !Z.div_div by lia; done). word_lia.
Qed.

Lemma mapped_roundtrip n : 0 <= n < 2 ^ 32 -> Unmap_addr (V6 (As16 (V4 n))) = V4 n.
Proof.
  intros Hn. unfold Unmap_addr, As16. rewrite Z.shiftr_div_pow2 by lia.
  replace (((2 ^ 16 - 1) * 2 ^ 32 + n) / 2 ^ 32) with (2 ^ 16 - 1) by word_lia. simpl. f_equal. word_lia.
Qed.

(** ** The answers of the RFCs *)

Definition rfc_pmp_external (result epoch addr : Z) : list Z := [0; 128] ++ be16 result ++ be32 epoch ++ be32 addr.
Definition rfc_pmp_map (proto : string) (result epoch internal external lifetime : Z) : list Z :=
  [0; 128 + pmpProtoOp proto] ++ be16 result ++ be32 epoch ++ be16 internal ++ be16 external ++ be32 lifetime.
Definition rfc_pcp_map (result lifetime epoch : Z) (nonce : list Z) (proto internal external : Z) (addr : Z) : list Z :=
  [2; 129; 0; result] ++ be32 lifetime ++ be32 epoch ++ zeros 12 ++ nonce ++ [proto; 0; 0; 0] ++ be16 internal ++ be16 external ++ be128 addr.

Definition port (n : Z) : Prop := 0 <= n < 2 ^ 16.
Definition word (n : Z) : Prop := 0 <= n < 2 ^ 32.

Ltac bytes :=
  cbn -[Z.mul Z.add Z.div Z.modulo Z.pow]; rewrite ?take_0; cbn -[Z.mul Z.add Z.div Z.modulo Z.pow]; repeat f_equal; unfold port, word in *; word_lia.

Lemma pmp_external_parsed result epoch addr rest :
  port result -> word epoch -> word addr ->
  parsePMPResponse (rfc_pmp_external result epoch addr ++ rest) = Some (Some (MkPMP 128 result epoch (V4 addr) 0 0 0)).
Proof. intros. bytes. Qed.

Lemma pmp_map_parsed proto result epoch internal external lifetime rest :
  port result -> word epoch -> port internal -> port external -> word lifetime ->
  parsePMPResponse (rfc_pmp_map proto result epoch internal external lifetime ++ rest) =
    Some (Some (MkPMP (128 + pmpProtoOp proto) result epoch NoAddr internal external lifetime)).
Proof. intros. unfold rfc_pmp_map, pmpProtoOp. case_bool_decide; bytes. Qed.

Lemma pcp_map_parsed result lifetime epoch nonce proto internal external addr rest :
  is_byte result -> word lifetime -> word epoch -> length nonce = 12%nat -> port internal -> port external -> word addr ->
  parsePCPResponse (rfc_pcp_map result lifetime epoch nonce proto internal external (As16 (V4 addr)) ++ rest) =
    Some (Some (MkPCP 1 result lifetime epoch nonce internal external (V4 addr))).
Proof.
  intros. do 12 (destruct nonce as [|? nonce]; [done|]). destruct nonce; [|done].
  cbn -[Z.mul Z.add Z.div Z.modulo Z.pow Unmap_addr be_nat As16]. rewrite !take_0.
  assert (Unmap_addr (V6 (be_nat (be128 (As16 (V4 addr))))) = V4 addr) as E.
  { rewrite be_nat_be128; [by apply mapped_roundtrip|]. simpl. unfold word in *. lia. }
  repeat f_equal; try (unfold port, word in *; word_lia). exact E.
Qed.

(** What the wire says: a request is laid out as its RFC has it, an answer
    laid out that way is read back field by field, whatever follows it, and an
    IPv4 address survives its mapped form. *)
Theorem wire_roundtrip (proto : string) (result epoch internal external lifetime addr : Z) (self : Addr) (nonce rest : list Z)
    (Hr : is_byte result) (He : word epoch) (Hi : port internal) (Hx : port external) (Hl : word lifetime) (Ha : word addr)
    (Hn : length nonce = 12%nat) :
  pmpMapRequest proto internal external lifetime =
    [0; pmpProtoOp proto; 0; 0] ++ be16 internal ++ be16 external ++ be32 lifetime /\
  pcpMapRequest self nonce proto internal external lifetime =
    [2; 1; 0; 0] ++ be32 lifetime ++ be128 (As16 self) ++ nonce ++ [if bool_decide (proto = "tcp") then 6 else 17; 0; 0; 0] ++
    be16 internal ++ be16 external ++ be128 (As16 (V4 0)) /\
  parsePMPResponse (rfc_pmp_external result epoch addr ++ rest) = Some (Some (MkPMP 128 result epoch (V4 addr) 0 0 0)) /\
  parsePMPResponse (rfc_pmp_map proto result epoch internal external lifetime ++ rest) =
    Some (Some (MkPMP (128 + pmpProtoOp proto) result epoch NoAddr internal external lifetime)) /\
  parsePCPResponse (rfc_pcp_map result lifetime epoch nonce 6 internal external (As16 (V4 addr)) ++ rest) =
    Some (Some (MkPCP 1 result lifetime epoch nonce internal external (V4 addr))).
Proof.
  assert (port result) by (unfold is_byte, port in *; lia). split_and!.
  - done.
  - do 12 (destruct nonce as [|? nonce]; [done|]). by destruct nonce.
  - by apply pmp_external_parsed.
  - by apply pmp_map_parsed.
  - by apply pcp_map_parsed.
Qed.

Lemma wire_roundtrip_witness :
  parsePCPResponse (rfc_pcp_map 0 7200 99 (zeros 12) 6 443 8443 (As16 (V4 (v4 203 0 113 7))) ++ [1; 2]) =
    Some (Some (MkPCP 1 0 7200 99 (zeros 12) 443 8443 (V4 (v4 203 0 113 7)))).
Proof.
  apply (wire_roundtrip "tcp" 0 99 443 8443 7200 (v4 203 0 113 7) NoAddr (zeros 12) [1; 2]); by vm_compute.
Defined.

(** Whatever comes from the network, the parsers do not read past its end. *)
Theorem parsers_never_panic (b : list Z) : parsePMPResponse b <> None /\ parsePCPResponse b <> None.
Proof.
  assert (forall i, (i < length b)%nat -> exists x, u8 b i = Some x) as u8_some by (intros i; apply lookup_lt_is_Some_2).
  split.
  - unfold parsePMPResponse. destruct (Nat.ltb_spec (length b) 8) as [|Hl]; [done|].
    destruct (u8_some 0%nat) as [v ->]; [lia|]. destruct (u8_some 1%nat) as [op ->]; [lia|].
    destruct (u16_some b 2) as [x ->]; [lia|]. destruct (u32_some b 4) as [y ->]; [lia|].
    cbn [mbind option_bind]. destruct (negb _ || _); [done|]. destruct (op =? 128).
    + destruct (Nat.ltb_spec (length b) 12); [done|]. by rewrite cut_some by lia.
    + destruct (_ || _); [|done]. destruct (Nat.ltb_spec (length b) 16); [done|].
      destruct (u16_some b 8) as [? ->]; [lia|]. destruct (u16_some b 10) as [? ->]; [lia|]. by destruct (u32_some b 12) as [? ->]; [lia|].
  - unfold parsePCPResponse. destruct (Nat.ltb_spec (length b) 24) as [|Hl]; [done|].
    destruct (u8_some 0%nat) as [v ->]; [lia|]. destruct (u8_some 1%nat) as [op ->]; [lia|]. destruct (u8_some 3%nat) as [z ->]; [lia|].
    destruct (u32_some b 4) as [x ->]; [lia|]. destruct (u32_some b 8) as [y ->]; [lia|].
    cbn [mbind option_bind]. destruct (negb _ || _); [done|]. destruct (_ =? 1); [|done].
    destruct (Nat.ltb_spec (length b) 60); [done|]. rewrite !cut_some by lia.
    destruct (u16_some b 40) as [? ->]; [lia|]. by destruct (u16_some b 42) as [? ->]; [lia|].
Qed.
