(* ===== verification/PortMapKeep.v ===== *)
(** * No forward is left behind

    Theorems on [PortMap]. The routers are the class [Routers], a promise on what
    each call of the mapper does to the forwards they keep for the panel; the
    steps are passes, forced probes, and whatever happens outside meanwhile. *)

From S2P Require Import Prelude GoFloat PortMap.

Definition lease_key (l : PortMapLease) : pmLeaseKey := (l_Proto l, l_InternalPort l).
Definition req_key (r : PortMapRequest) : pmLeaseKey := (rq_Proto r, rq_InternalPort r).

(** A router is known by the interface it is behind and its address. *)
Definition router (w : PortMapWAN) : string * Addr := (IfName w, Gateway w).

(** What the routers promise. [forwards] are the ports they forward to the
    panel. [granted w g l]: [l] is the last lease router [g] gave for its port.
    [said w g e]: router [g] has answered with the uptime [e]. Only a mapping
    that is granted adds a forward; a release that reaches its router removes
    it; a lease that ran out is no forward; and a router whose uptime went back
    has forgotten what it granted before. *)
Class Routers (W : Type) `{!PortMapper W} := {
  forwards : W -> string * Addr -> gset pmLeaseKey;
  granted : W -> string * Addr -> PortMapLease -> Prop;
  said : W -> string * Addr -> PortMapEpoch -> Prop;
  probe_keeps w v w' r g : Probe w v = (w', r) ->
    forwards w' g ⊆ forwards w g /\ (forall l, granted w g l -> granted w' g l) /\ (forall e, said w g e -> said w' g e);
  probe_says w v w' p : Probe w v = (w', inl p) -> Known (pr_Epoch p) = true ->
    said w' (router v) (pr_Epoch p) /\
    forall e, said w (router v) e -> Rebooted e (pr_Epoch p) = true -> forwards w' (router v) ⊆ ∅;
  map_keeps w v p q w' r g : Map w v p q = (w', r) ->
    (forall k, k ∈ forwards w' g -> k ∈ forwards w g \/ (exists l, r = inl l) /\ g = router v /\ k = req_key q) /\
    (forall l, granted w g l -> (exists f, r = inr f) \/ g <> router v \/ lease_key l <> req_key q -> granted w' g l) /\
    (forall e, said w g e -> said w' g e);
  map_grants w v p q w' l : Map w v p q = (w', inl l) ->
    lease_key l = req_key q /\ granted w' (router v) l /\
    (Known (l_Epoch l) = true -> said w' (router v) (l_Epoch l) /\
       forall e, said w (router v) e -> Rebooted e (l_Epoch l) = true -> forwards w' (router v) ⊆ {[req_key q]});
  unmap_keeps w v l g :
    forwards (Unmap w v l) g ⊆ forwards w g /\ (forall l', granted w g l' -> granted (Unmap w v l) g l') /\
    (forall e, said w g e -> said (Unmap w v l) g e);
  unmap_removes w v l : IsValid (Gateway v) = true -> lease_key l ∉ forwards (Unmap w v l) (router v);
  lease_ends w g l : granted w g l -> l_GoodUntil l < Now w -> lease_key l ∉ forwards w g
}.

Section keep.
Context {W : Type} `{HR : Routers W}.

(** The routers behind the interfaces of [P] add nothing and go back on nothing. *)
Definition keeps (P : string -> Prop) (w w' : W) : Prop :=
  forall g, P g.1 -> forwards w' g ⊆ forwards w g /\ (forall l, granted w g l -> granted w' g l) /\ (forall e, said w g e -> said w' g e).
Definition calm (w w' : W) : Prop := keeps (fun _ => True) w w'.
Definition apart (i : string) (w w' : W) : Prop := keeps (fun j => j <> i) w w'.

Lemma keeps_refl P w : keeps P w w.
Proof. by intros g _. Qed.
Lemma keeps_trans P w1 w2 w3 : keeps P w1 w2 -> keeps P w2 w3 -> keeps P w1 w3.
Proof. intros H1 H2 g Hg. destruct (H1 g Hg) as (? & ? & ?), (H2 g Hg) as (? & ? & ?). split_and!; [by etrans|auto..]. Qed.
Lemma calm_apart i w w' : calm w w' -> apart i w w'.
Proof. intros H g _. by apply H. Qed.

Lemma unmap_all_spec v ls w :
  let w' := foldl (fun o l => Unmap o v l) w ls in
  calm w w' /\ (IsValid (Gateway v) = true -> forall l, l ∈ ls -> lease_key l ∉ forwards w' (router v)).
Proof.
  revert w. induction ls as [|l ls IH]; intros w; simpl; [split; [apply keeps_refl|by intros _ l ?%elem_of_nil]|].
  assert (calm w (Unmap w v l)) as Hc by (intros g _; apply unmap_keeps).
  destruct (IH (Unmap w v l)) as [H1 H2]. split; [by eapply keeps_trans|]. intros Hv l' [->|Hl]%elem_of_cons; [|by apply H2].
  intros Hk. apply (unmap_removes w v l Hv). by apply (H1 (router v)).
Qed.

(** What the state of the uplink on interface [i] knows of its routers: every
    lease was granted by the router it now speaks to; the uptime is one that
    router said; and every forward behind the interface is on that router and
    held. *)
Record sound (i : string) (w : W) (t : pmWANState) : Prop := MkSound {
  so_held k h : held t !! k = Some h ->
    IfName (wan t) = i /\ IsValid (Gateway (wan t)) = true /\ gateway t = Some (Gateway (wan t)) /\
    lease_key (h_lease h) = k /\ granted w (i, Gateway (wan t)) (h_lease h);
  so_epoch : Known (epoch t) = true -> exists g, gateway t = Some g /\ said w (i, g) (epoch t);
  so_cover g k : k ∈ forwards w (i, g) -> gateway t = Some g /\ is_Some (held t !! k)
}.

Definition silent (i : string) (w : W) : Prop := forall g, forwards w (i, g) ⊆ ∅.

(** A state without leases, on an interface without forwards. *)
Lemma sound_empty i w t :
  silent i w -> held t = ∅ -> (Known (epoch t) = true -> exists g, gateway t = Some g /\ said w (i, g) (epoch t)) -> sound i w t.
Proof. intros Hs Hh He. split; [by rewrite Hh; intros k h ?%lookup_empty_Some|done|]. intros g k Hk%Hs. set_solver. Qed.

(** The outside changes, but nothing is added. *)
Lemma sound_calm i w w' t : calm w w' -> sound i w t -> sound i w' t.
Proof.
  intros Hc [H1 H2 H3]. split.
  - intros k h Hk. destruct (H1 k h Hk) as (? & ? & ? & ? & ?). split_and!; try done. by apply (Hc (i, _)).
  - intros He. destruct (H2 He) as (g & ? & ?). exists g. split; [done|by apply (Hc (i, g))].
  - intros g k Hk. apply H3. by apply (Hc (i, g)).
Qed.

Lemma sound_apart i j w w' t : i <> j -> apart i w w' -> sound j w t -> sound j w' t.
Proof.
  intros Hne Hc [H1 H2 H3]. split.
  - intros k h Hk. destruct (H1 k h Hk) as (? & ? & ? & ? & ?). split_and!; try done. apply (Hc (j, _)); [by apply not_eq_sym|done].
  - intros He. destruct (H2 He) as (g & ? & ?). exists g. split; [done|]. apply (Hc (j, g)); [by apply not_eq_sym|done].
  - intros g k Hk. apply H3. by apply (Hc (j, g)); [apply not_eq_sym|].
Qed.

(** Parts of a state that do not matter. *)
Lemma sound_ext i w t t' :
  wan t' = wan t -> gateway t' = gateway t -> epoch t' = epoch t -> held t' = held t -> sound i w t -> sound i w t'.
Proof. intros E1 E2 E3 E4 [H1 H2 H3]. split; rewrite ?E1, ?E2, ?E3, ?E4; auto. Qed.

(** ** Releasing *)

Lemma release_sound i (s : pm W) lost :
  sound i (pw s) (st s) ->
  let s' := releasePortMapLeases s lost in
  silent i (pw s') /\ sound i (pw s') (st s') /\ calm (pw s) (pw s') /\ held (st s') = ∅ /\ gateway (st s') = gateway (st s).
Proof.
  intros [H1 H2 H3]. unfold releasePortMapLeases. destruct (Nat.eqb_spec (size (held (st s))) 0) as [Hz|Hz].
  - apply map_size_empty_iff in Hz. simpl. assert (silent i (pw s)) as Hs.
    { intros g k Hk. destruct (H3 g k Hk) as [_ [h Hh]]. by rewrite Hz, lookup_empty in Hh. }
    split_and!; [done|by apply sound_empty|apply keeps_refl|done|done].
  - set (ls := h_lease <$> _). destruct (unmap_all_spec (wan (st s)) ls (pw s)) as [Hc Hr].
    set (w' := foldl _ (pw s) ls) in *. assert (silent i w') as Hs.
    { intros g k Hk. exfalso. assert (k ∈ forwards (pw s) (i, g)) as Hk0 by (by apply (Hc (i, g))).
      destruct (H3 g k Hk0) as [Hg [h Hh]]. destruct (H1 k h Hh) as (E1 & E2 & E3 & E4 & _).
      assert (h_lease h ∈ ls) as Hin.
      { apply list_elem_of_fmap. exists h. split; [done|]. apply list_elem_of_fmap. exists (k, h). split; [done|by apply elem_of_map_to_list]. }
      apply (Hr E2 _ Hin). rewrite E4. unfold router. rewrite E1. rewrite E3 in Hg. by injection Hg as ->. }
    assert (Known (epoch (st s)) = true -> exists g, gateway (st s) = Some g /\ said w' (i, g) (epoch (st s))) as He.
    { intros He. destruct (H2 He) as (g & ? & ?). exists g. split; [done|by apply (Hc (i, g))]. }
    destruct lost; simpl; (split_and!; [done|by apply sound_empty|done|done|done]).
Qed.

(** ** Mapping *)

(** The state of the uplink as the rest of a pass finds it. *)
Definition at_wan (v : PortMapWAN) (t : pmWANState) : Prop := wan t = v /\ gateway t = Some (Gateway v).

(** What one stage of a pass does to the uplink on [v]. *)
Definition stage (v : PortMapWAN) (s s' : pm W) : Prop :=
  sound (IfName v) (pw s) (st s) -> at_wan v (st s) ->
  sound (IfName v) (pw s') (st s') /\ at_wan v (st s') /\ apart (IfName v) (pw s) (pw s').

Lemma stage_trans v s1 s2 s3 : stage v s1 s2 -> stage v s2 s3 -> stage v s1 s3.
Proof.
  intros H1 H2 Hs Ha. destruct (H1 Hs Ha) as (S1 & A1 & P1). destruct (H2 S1 A1) as (S2 & A2 & P2).
  split_and!; [done..|by eapply keeps_trans].
Qed.

Lemma stage_ext v s s' :
  pw s' = pw s -> wan (st s') = wan (st s) -> gateway (st s') = gateway (st s) -> epoch (st s') = epoch (st s) ->
  held (st s') = held (st s) -> stage v s s'.
Proof.
  intros E0 E1 E2 E3 E4 Hs [Ha1 Ha2]. rewrite E0. split_and!; [by eapply sound_ext| |apply keeps_refl].
  split; congruence.
Qed.

(** The forwards a state in its place covers are on its router. *)
Lemma elsewhere_silent v w t g : sound (IfName v) w t -> at_wan v t -> g <> Gateway v -> forwards w (IfName v, g) ⊆ ∅.
Proof. intros Hs [_ Ha] Hg k Hk. destruct (so_cover _ _ _ Hs g k Hk) as [E _]. congruence. Qed.

Lemma stale_stage v desired s : IsValid (Gateway v) = true -> stage v s (release_stale v desired s).
Proof.
  intros Hv [H1 H2 H3] [A1 A2]. unfold release_stale, unmap_all. set (ls := h_lease <$> _).
  destruct (unmap_all_spec v ls (pw s)) as [Hc Hr]. cbn [pw upd] in Hc, Hr |- *. set (w' := foldl _ (pw s) ls) in *. simpl.
  split_and!; [|done|by apply calm_apart]. split.
  - intros k h [Hk _]%map_lookup_filter_Some. destruct (H1 k h Hk) as (? & ? & ? & ? & ?). split_and!; try done.
    by apply (Hc (_, _)).
  - intros He. destruct (H2 He) as (g & ? & ?). exists g. split; [done|by apply (Hc (_, g))].
  - intros g k Hk. assert (k ∈ forwards (pw s) (IfName v, g)) as Hk0 by (by apply (Hc (_, g))).
    destruct (H3 g k Hk0) as [Hg [h Hh]]. split; [done|]. exists h. apply map_lookup_filter_Some. split; [done|].
    simpl. intros Hun. destruct (H1 k h Hh) as (_ & _ & _ & E4 & _). simpl in *.
    assert (h_lease h ∈ ls) as Hin.
    { apply list_elem_of_fmap. exists h. split; [done|]. apply list_elem_of_fmap. exists (k, h). split; [done|].
      apply elem_of_map_to_list, map_lookup_filter_Some. done. }
    apply (Hr Hv _ Hin). rewrite E4. unfold router. rewrite A2 in Hg. by injection Hg as ->.
Qed.

(** A renewal that failed: what ran out is dropped, and was no forward. *)
Lemma refused_stage v p q (s : pm W) o f k h err src :
  IsValid (Gateway v) = true -> Map (pw s) v p q = (o, inr f) -> req_key q = k -> held (st s) !! k = h ->
  let expired := match h with Some h => l_GoodUntil (h_lease h) <? Now o | None => false end in
  let s1 := upd (set_failed (<[k := MkFailure src err]>)) (MkPM o (st s) (evs s)) in
  stage v s (if expired then emit (PortMapLostOne (IfName v) k) (upd (set_held (delete k)) s1) else s1).
Proof.
  intros Hv Hm Hk Hh expired s1 [H1 H2 H3] [A1 A2].
  assert (calm (pw s) o) as Hc.
  { intros g _. destruct (map_keeps _ _ _ _ _ _ g Hm) as (M1 & M2 & M3). split_and!; [|eauto|done].
    intros x Hx. destruct (M1 x Hx) as [?|[[l Hl] _]]; done. }
  assert (sound (IfName v) o (st s)) as Hs by (apply (sound_calm _ (pw s)); [done|by split]).
  destruct expired eqn:He; (split_and!; [|done|by apply calm_apart]); [|by eapply sound_ext; [..|exact Hs]].
  destruct h as [h|]; [|done]. apply Z.ltb_lt in He. destruct Hs as [S1 S2 S3]. split.
  - intros k' h' Hk'. apply (S1 k' h'). simpl in Hk'. by apply lookup_delete_Some in Hk' as [_ Hk'].
  - exact S2.
  - intros g k' Hk'. destruct (S3 g k' Hk') as [Hg Hin]. split; [done|]. simpl.
    destruct (decide (k = k')) as [<-|Hne]; [|by rewrite lookup_delete_ne].
    exfalso. destruct (S1 k h Hh) as (_ & _ & E3 & E4 & E5). rewrite E3 in Hg. injection Hg as <-.
    apply (lease_ends o _ _ E5 He). by rewrite E4.
Qed.

(** What a granted mapping can add, and what it leaves alone. *)
Lemma grant_adds v p q w o (nl : PortMapLease) g k :
  Map w v p q = (o, inl nl) -> k ∈ forwards o g -> k ∈ forwards w g \/ g = router v /\ k = req_key q.
Proof. intros Hm Hk. destruct (map_keeps _ _ _ _ _ _ g Hm) as (M1 & _). destruct (M1 k Hk) as [?|(_ & ? & ?)]; [by left|by right]. Qed.

Lemma grant_apart v p q w o (nl : PortMapLease) : Map w v p q = (o, inl nl) -> apart (IfName v) w o.
Proof.
  intros Hm [i g] Hi. destruct (map_keeps _ _ _ _ _ _ (i, g) Hm) as (M1 & M2 & M3). simpl in Hi. unfold router in *.
  split_and!; [intros x Hx; destruct (M1 x Hx) as [?|(_ & E & _)]; [done|congruence]| |done].
  intros l Hl. apply M2; [done|]. right. left. congruence.
Qed.

(** The state after a grant, for any part [m] of the leases that covers the
    other forwards of the router. *)
Lemma grant_sound v p q w o nl src t t' m :
  IsValid (Gateway v) = true -> Map w v p q = (o, inl nl) -> sound (IfName v) w t -> at_wan v t ->
  wan t' = wan t -> gateway t' = gateway t -> (Known (epoch t') = true -> said o (router v) (epoch t')) ->
  m ⊆ held t -> held t' = <[req_key q := MkHeld nl src]> m ->
  (forall k, k <> req_key q -> k ∈ forwards o (router v) -> is_Some (m !! k)) ->
  sound (IfName v) o t' /\ at_wan v t'.
Proof.
  intros Hv Hm Hs [A1 A2] E1 E2 He Hsub Eh Hcov. destruct (map_grants _ _ _ _ _ _ Hm) as (G1 & G2 & _).
  split; [|split; congruence]. split.
  - intros k h Hh. rewrite Eh in Hh. rewrite E1, E2, A1, A2. destruct (decide (req_key q = k)) as [<-|Hne].
    + rewrite lookup_insert_eq in Hh. injection Hh as <-. done.
    + rewrite lookup_insert_ne in Hh by done. apply (lookup_weaken _ _ _ _ Hh) in Hsub.
      destruct (so_held _ _ _ Hs k h Hsub) as (? & ? & ? & ? & Hg). rewrite A1 in *. split_and!; try done.
      destruct (map_keeps _ _ _ _ _ _ (IfName v, Gateway v) Hm) as (_ & M2 & _). apply M2; [done|]. right. right. congruence.
  - intros HE. exists (Gateway v). rewrite E2. split; [done|]. by apply He.
  - intros g k Hk. rewrite E2, A2. destruct (decide (g = Gateway v)) as [->|Hg].
    + split; [done|]. rewrite Eh. destruct (decide (req_key q = k)) as [<-|Hne]; [by rewrite lookup_insert_eq|].
      rewrite lookup_insert_ne by done. by apply Hcov; [apply not_eq_sym|].
    + destruct (grant_adds _ _ _ _ _ _ _ _ Hm Hk) as [Hk0|[E _]]; [|by injection E].
      by apply (elsewhere_silent v w t g Hs) in Hk0; [set_solver|split|].
Qed.

(** The uptime a state in its place knows is one its router said. *)
Lemma epoch_said v w t : sound (IfName v) w t -> at_wan v t -> Known (epoch t) = true -> said w (router v) (epoch t).
Proof. intros Hs [_ Ha] He. destruct (so_epoch _ _ _ Hs He) as (g & Hg & Hsaid). rewrite Ha in Hg. by injection Hg as <-. Qed.

Lemma Rebooted_Known e e' : Rebooted e e' = true -> Known e = true.
Proof. unfold Rebooted, Known. by destruct (At e). Qed.

(** A mapping that was granted: noted, and if the router had forgotten all the
    rest, so does the panel. *)
Lemma granted_stage v p q (s : pm W) o nl k src :
  IsValid (Gateway v) = true -> Map (pw s) v p q = (o, inl nl) -> req_key q = k ->
  let '(s1, rebooted) := noteEpoch (MkPM o (st s) (evs s)) (l_Epoch nl) in
  stage v s (upd (fun t => set_failed (delete k) (set_held (<[k := MkHeld nl src]>) t)) (if rebooted then forgetPortMapLeases s1 else s1)).
Proof.
  intros Hv Hm <-. destruct (map_grants _ _ _ _ _ _ Hm) as (_ & _ & G3).
  assert (forall t' evs' m, sound (IfName v) (pw s) (st s) -> at_wan v (st s) -> wan t' = wan (st s) -> gateway t' = gateway (st s) ->
    (Known (epoch t') = true -> said o (router v) (epoch t')) -> m ⊆ held (st s) -> held t' = <[req_key q := MkHeld nl src]> m ->
    (forall k, k <> req_key q -> k ∈ forwards o (router v) -> is_Some (m !! k)) ->
    sound (IfName v) o t' /\ at_wan v t' /\ apart (IfName v) (pw s) (pw (MkPM o t' evs'))) as Hgen.
  { intros t' evs' m Hs Ha E1 E2 He Hsub Eh Hcov. pose proof (grant_apart _ _ _ _ _ _ Hm).
    destruct (grant_sound v p q (pw s) o nl src (st s) t' m) as [? ?]; done. }
  assert (sound (IfName v) (pw s) (st s) -> forall k, k <> req_key q -> k ∈ forwards o (router v) -> is_Some (held (st s) !! k)) as Hcov.
  { intros Hs k Hne Hk. destruct (grant_adds _ _ _ _ _ _ _ _ Hm Hk) as [Hk0|[_ ?]]; [|done]. by destruct (so_cover _ _ _ Hs _ _ Hk0). }
  unfold noteEpoch. destruct (Known (l_Epoch nl)) eqn:HK.
  - destruct (G3 eq_refl) as [G4 G5]. simpl. destruct (Rebooted (epoch (st s)) (l_Epoch nl)) eqn:HB; intros Hs Ha.
    + assert (forwards o (router v) ⊆ {[req_key q]}) as Hsub.
      { apply (G5 (epoch (st s))); [|done]. apply (epoch_said _ _ _ Hs Ha). by eapply Rebooted_Known. }
      unfold forgetPortMapLeases. destruct (_ =? 0)%nat; (apply (Hgen _ _ ∅); try done; [apply map_empty_subseteq|]);
        intros k Hne Hk%Hsub; set_solver.
    + apply (Hgen _ _ (held (st s))); try done. exact (Hcov Hs).
  - simpl. intros Hs Ha. apply (Hgen _ _ (held (st s))); try done; [|exact (Hcov Hs)].
    intros HE. destruct (map_keeps _ _ _ _ _ _ (router v) Hm) as (_ & _ & M3). apply M3. exact (epoch_said _ _ _ Hs Ha HE).
Qed.

Lemma acquire_stage v p (sf : pm W * bool * bool) d :
  IsValid (Gateway v) = true -> stage v sf.1.1 (acquire_one v p sf d).1.1.
Proof.
  intros Hv. destruct sf as [[s dn] ns]. unfold acquire_one. cbn [fst].
  destruct (match held (st s) !! d_key d with Some h => _ | None => false end); [by apply stage_ext|].
  set (q := match held (st s) !! d_key d with Some h => _ | None => _ end).
  assert (req_key q = d_key d) as Hq by (subst q; destruct (held (st s) !! d_key d), (d_key d); done).
  destruct (Map (pw s) v p q) as [o [nl|[f err]]] eqn:Hm.
  - pose proof (granted_stage v p q s o nl (d_key d) (d_source d) Hv Hm Hq) as Hst.
    destruct (noteEpoch _ _) as [s1 rebooted]. destruct (held (st s) !! d_key d); [exact Hst|].
    eapply stage_trans; [exact Hst|]. by apply stage_ext.
  - exact (refused_stage v p q s o (f, err) (d_key d) _ err (d_source d) Hv Hm Hq eq_refl).
Qed.

Lemma acquire_all_stage v p ds (sf : pm W * bool * bool) :
  IsValid (Gateway v) = true -> stage v sf.1.1 (foldl (acquire_one v p) sf ds).1.1.
Proof.
  intros Hv. revert sf. induction ds as [|d ds IH]; intros sf; [by apply stage_ext|]. simpl.
  eapply stage_trans; [by apply acquire_stage|apply IH].
Qed.

Lemma denied_stage v n prev (s : pm W) : stage v s (note_denied n prev s).
Proof. unfold note_denied. case_match; by apply stage_ext. Qed.

Lemma verdict_stage v inp dn ns (s : pm W) : stage v s (setPortMapVerdict s inp dn ns).
Proof.
  unfold setPortMapVerdict. destruct (if _ || _ then _ else _) as [vd n]. eapply stage_trans; [|apply denied_stage]. by apply stage_ext.
Qed.

Lemma map_wan_stage inp (s : pm W) : IsValid (Gateway (in_wan inp)) = true -> stage (in_wan inp) s (map_wan inp s).
Proof.
  intros Hv. unfold map_wan. destruct (negb (Any _)).
  - eapply stage_trans; [|apply denied_stage]. destruct (pr_Denied _); by apply stage_ext.
  - eapply stage_trans; [by apply (stale_stage _ (in_desired inp))|]. set (s1 := release_stale _ _ _).
    pose proof (acquire_all_stage (in_wan inp) (probe (st s)) (in_desired inp) (s1, false, false) Hv) as Ha.
    destruct (foldl _ _ _) as [[s2 dn] ns]. eapply stage_trans; [exact Ha|apply verdict_stage].
Qed.

Lemma probe_stage v (s : pm W) : stage v s (probe_wan v s).1.
Proof.
  unfold probe_wan. destruct (probed (st s) && _); [by apply stage_ext|].
  destruct (Probe (pw s) v) as [o res] eqn:Hp. assert (calm (pw s) o) as Hc by (intros g _; by eapply probe_keeps).
  assert (sound (IfName v) (pw s) (st s) -> sound (IfName v) o (st s)) as Hso by (by apply sound_calm).
  destruct res as [p|err]; [|intros Hs Ha; split_and!; [by eapply sound_ext; [..|by apply Hso]|exact Ha|by apply calm_apart]].
  unfold noteEpoch. destruct (Known (pr_Epoch p)) eqn:HK;
    [|intros Hs Ha; split_and!; [by eapply sound_ext; [..|by apply Hso]|exact Ha|by apply calm_apart]].
  destruct (probe_says _ _ _ _ Hp HK) as [P1 P2]. simpl. intros Hs Ha.
  destruct (Rebooted (epoch (st s)) (pr_Epoch p)) eqn:HB; (split_and!; [|unfold forgetPortMapLeases; by repeat case_match|]);
    try (unfold forgetPortMapLeases; repeat case_match; by apply calm_apart).
  - assert (silent (IfName v) o) as Hsil.
    { intros g. destruct (decide (g = Gateway v)) as [->|Hg]; [|by apply (elsewhere_silent v o (st s)); auto].
      apply (P2 (epoch (st s))); [|done]. apply (epoch_said _ _ _ Hs Ha). by eapply Rebooted_Known. }
    destruct Ha as [_ Ha]. unfold forgetPortMapLeases. case_match; (apply sound_empty; [done|done|]); simpl;
      intros _; by exists (Gateway v).
  - destruct (Hso Hs) as [S1 S2 S3]. split; [done| |done]. simpl. intros _. exists (Gateway v). split; [apply Ha|done].
Qed.

(** ** A pass of one uplink *)

Lemma adopt_sound v (s : pm W) :
  IsValid (Gateway v) = true -> sound (IfName v) (pw s) (st s) ->
  let s' := adopt_wan v s in sound (IfName v) (pw s') (st s') /\ at_wan v (st s') /\ calm (pw s) (pw s').
Proof.
  intros Hv Hs. unfold adopt_wan. destruct (gateway (st s)) as [g|] eqn:Hg; [case_bool_decide as Hgw|]; simpl.
  - split_and!; [|done|apply keeps_refl]. destruct Hs as [H1 H2 H3]. rewrite Hg in H2, H3. subst g. split; [|done|done].
    intros k h Hk. destruct (H1 k h Hk) as (? & ? & E3 & ? & ?). rewrite Hg in E3. injection E3 as E3. simpl. by rewrite E3.
  - destruct (release_sound _ s true Hs) as (R1 & R2 & R3 & R4 & R5). split_and!; [|done|done]. by apply sound_empty.
  - split_and!; [|done|apply keeps_refl]. destruct Hs as [H1 H2 H3]. rewrite Hg in *. split.
    + intros k h Hk. by destruct (H1 k h Hk) as (_ & _ & ? & _).
    + intros He. by destruct (H2 He) as (? & ? & _).
    + intros g k Hk. by destruct (H3 g k Hk).
Qed.

Lemma reconcile_sound inp (s : pm W) :
  (in_enabled inp = true -> IsValid (Gateway (in_wan inp)) = true) -> sound (IfName (in_wan inp)) (pw s) (st s) ->
  let s' := reconcilePortMapWAN s inp in
  sound (IfName (in_wan inp)) (pw s') (st s') /\ apart (IfName (in_wan inp)) (pw s) (pw s').
Proof.
  intros Hv Hs. unfold reconcilePortMapWAN. destruct (in_enabled inp) eqn:He; simpl.
  - rewrite (Hv eq_refl). simpl. destruct (adopt_sound _ s (Hv eq_refl) Hs) as (S1 & A1 & C1). set (s1 := adopt_wan _ _) in *.
    destruct (publicV4 _).
    + destruct (release_sound _ s1 false S1) as (R1 & R2 & R3 & R4 & R5). split; [by eapply sound_ext; [..|exact R2]|].
      apply calm_apart. by eapply keeps_trans.
    + pose proof (probe_stage (in_wan inp) s1) as Hp. destruct (probe_wan (in_wan inp) s1) as [s2 ok]. simpl in Hp.
      assert (stage (in_wan inp) s1 (if ok then map_wan inp s2 else s2)) as Hst.
      { destruct ok; [|done]. eapply stage_trans; [done|]. apply map_wan_stage. auto. }
      destruct (Hst S1 A1) as (S3 & _ & P3). split; [done|]. eapply keeps_trans; [by apply calm_apart|done].
  - destruct (release_sound _ s false Hs) as (R1 & R2 & R3 & R4 & R5). split; [|by apply calm_apart].
    apply sound_empty; [done|done|]. simpl. exact (so_epoch _ _ _ R2).
Qed.

(** ** All uplinks *)

Context (ifn : string -> string) `{!Inj (=) (=) ifn} (ParseAddr : string -> option Addr).

(** Each uplink's state is sound for its interface, and only those interfaces
    have forwards. *)
Record inv (u : PortMaps W) : Prop := MkInv {
  iv_sound key t : pmState u !! key = Some t -> sound (ifn key) (outside u) t;
  iv_cover i g k : k ∈ forwards (outside u) (i, g) -> exists key, i = ifn key /\ is_Some (pmState u !! key)
}.

Lemma state_sound u key : inv u -> sound (ifn key) (outside u) (portMapStateFor u key).
Proof.
  intros [H1 H2]. unfold portMapStateFor. destruct (pmState u !! key) as [t|] eqn:Hk; [by apply H1|]. apply sound_empty; [|done|done].
  intros g k Hg. destruct (H2 _ _ _ Hg) as (key' & E & [t Ht]). apply (inj ifn) in E as <-. congruence.
Qed.

Lemma on_key_inv key (f : pm W -> pm W) u :
  (forall s, sound (ifn key) (pw s) (st s) -> sound (ifn key) (pw (f s)) (st (f s)) /\ apart (ifn key) (pw s) (pw (f s))) ->
  inv u -> inv (on_key key f u).
Proof.
  intros Hf Hu. unfold on_key. set (s := MkPM _ _ _). destruct (Hf s) as [S1 P1]; [by apply state_sound|]. destruct Hu as [H1 H2]. split; simpl.
  - intros key' t. rewrite lookup_insert_Some. intros [[<- <-]|[Hne Ht]]; [done|].
    apply (sound_apart (ifn key) _ (pw s)); [intros E; by apply Hne, (inj ifn)|done|by apply H1].
  - intros i g k Hk. destruct (decide (i = ifn key)) as [->|Hne]; [exists key; by rewrite lookup_insert_eq|].
    destruct (H2 i g k) as (key' & -> & Ht); [by apply (P1 (i, g))|]. exists key'. split; [done|].
    rewrite lookup_insert_ne; [done|congruence].
Qed.

(** Releasing a key's leases silences its interface. *)
Lemma release_key_inv key lost u :
  inv u -> inv (on_key key (fun s => releasePortMapLeases s lost) u) /\
  silent (ifn key) (outside (on_key key (fun s => releasePortMapLeases s lost) u)) /\
  calm (outside u) (outside (on_key key (fun s => releasePortMapLeases s lost) u)).
Proof.
  intros Hu. split.
  - apply on_key_inv; [|done]. intros s Hs. destruct (release_sound _ s lost Hs) as (_ & ? & Hc & _). split; [done|by apply calm_apart].
  - destruct (release_sound (ifn key) (MkPM (outside u) (portMapStateFor u key) (published u)) lost) as (? & _ & ? & _); [|done].
    by apply state_sound.
Qed.

Lemma delete_inv key u : silent (ifn key) (outside u) -> inv u -> inv (MkPortMaps (outside u) (delete key (pmState u)) (published u)).
Proof.
  intros Hs [H1 H2]. split; simpl.
  - intros key' t [_ Ht]%lookup_delete_Some. by apply H1.
  - intros i g k Hk. destruct (H2 i g k Hk) as (key' & -> & Ht). exists key'. split; [done|].
    destruct (decide (key = key')) as [->|Hne]; [apply Hs in Hk; set_solver|by rewrite lookup_delete_ne].
Qed.

Lemma prune_states_inv live u : inv u -> inv (prunePortMapStates live u).
Proof.
  intros Hu. unfold prunePortMapStates. apply (foldl_keeps inv); [|done]. intros u' key Hu'.
  destruct (release_key_inv key true u' Hu') as (R1 & R2 & _). by apply delete_inv.
Qed.

(** The environment: an uplink keeps its interface, and while mapping is on a
    healthy uplink has a gateway. *)
Definition env_ok (env : pm_env) : Prop :=
  forall ups rows, e_uplinks env = Some ups -> e_rows env = Some rows -> forall key i, (key, i) ∈ ups ->
  i = ifn key /\ (e_enabled env = true -> forall row, rows !! i = Some row -> wr_Healthy row = true -> IsValid (gateway_of ParseAddr row) = true).

Definition input_ok (inp : pmInputs) : Prop :=
  IfName (in_wan inp) = ifn (in_key inp) /\ (in_enabled inp = true -> IsValid (Gateway (in_wan inp)) = true).

Lemma gather_inv env u :
  env_ok env -> inv u ->
  inv (gatherPortMapInputs ParseAddr env u).1 /\ Forall input_ok (gatherPortMapInputs ParseAddr env u).2.
Proof.
  intros Henv Hu. unfold gatherPortMapInputs. destruct (e_uplinks env) as [ups|] eqn:HU, (e_rows env) as [rows|] eqn:HW; try done.
  specialize (Henv ups rows HU HW).
  apply (foldl_keeps_in (fun ui => inv ui.1 /\ Forall input_ok ui.2)); [|done]. intros [u' out] [key i] Hup [H1 H2].
  destruct (Henv key i Hup) as [-> Hgw]. unfold gather_one.
  assert (forall b, inv (on_key key (upd (set_suspended b)) u')) as Hmark.
  { intros b. apply on_key_inv; [|done]. intros s Hs. split; [by eapply sound_ext; [..|exact Hs]|apply keeps_refl]. }
  destruct (e_enabled env && negb _) eqn:Hh; simpl; [done|]. split; [done|]. apply Forall_app. split; [done|].
  apply Forall_singleton. split; [done|]. simpl. intros He. rewrite He in Hh. simpl in Hh.
  destruct (rows !! ifn key) as [row|] eqn:Hrow; simpl in *; [|done]. apply (Hgw He row); [done|by destruct (wr_Healthy row)].
Qed.

Lemma pass_inv env u : env_ok env -> inv u -> inv (portMapPass ParseAddr env u).
Proof.
  intros Henv Hu. destruct (gather_inv env u Henv Hu) as [H1 H2]. unfold portMapPass.
  destruct (gatherPortMapInputs ParseAddr env u) as [u1 ins]. simpl in *.
  apply (foldl_keeps_in inv); [|by destruct ins; [|apply prune_states_inv]]. intros u' inp Hin Hu'.
  apply (proj1 (Forall_forall _ ins) H2) in Hin as [E1 E2]. apply on_key_inv; [|done]. intros s. rewrite <-E1. by apply reconcile_sound.
Qed.

(** What happens: passes, forced probes, and whatever the routers do meanwhile
    that grants nothing. *)
Inductive pm_step : PortMaps W -> PortMaps W -> Prop :=
| ps_pass env u : env_ok env -> pm_step u (portMapPass ParseAddr env u)
| ps_force u : pm_step u (ForcePortMapProbe u)
| ps_outside u w' : calm (outside u) w' -> pm_step u (MkPortMaps w' (pmState u) (published u)).

Lemma pm_step_inv u u' : pm_step u u' -> inv u -> inv u'.
Proof.
  intros [env v Henv|v|v w' Hc] Hu; [by apply pass_inv|..]; destruct Hu as [H1 H2]; split; simpl.
  - intros key t. rewrite lookup_fmap. intros (t' & Ht & ->)%fmap_Some. eapply sound_ext; [..|by apply H1]; done.
  - intros i g k Hk. destruct (H2 i g k Hk) as (key & ? & ?). exists key. split; [done|]. by rewrite lookup_fmap, fmap_is_Some.
  - intros key t Ht. apply (sound_calm _ (outside v)); [done|by apply H1].
  - intros i g k Hk. apply (H2 i g k). by apply (Hc (i, g)).
Qed.

Lemma pm_steps_inv u u' : rtc pm_step u u' -> inv u -> inv u'.
Proof. induction 1; [done|]. intros Hu. by eauto using pm_step_inv. Qed.

Lemma release_all_silent u :
  inv u -> inv (releaseAllPortMaps u) /\ forall g, forwards (outside (releaseAllPortMaps u)) g ⊆ ∅.
Proof.
  intros Hu. unfold releaseAllPortMaps. set (f := fun u k => on_key k _ u). set (ks := (map_to_list (pmState u)).*1).
  assert (inv (foldl f u ks)) as Hinv by (apply (foldl_keeps inv); [intros ? ? ?; by apply release_key_inv|done]).
  split; [done|]. intros [i g] k Hk. exfalso.
  assert (calm (outside u) (outside (foldl f u ks))) as Hc.
  { apply (foldl_keeps (fun u' => inv u' /\ calm (outside u) (outside u'))); [|split; [done|apply keeps_refl]].
    intros u' key [Hu' Hcu]. destruct (release_key_inv key false u' Hu') as (? & _ & ?). split; [done|by eapply keeps_trans]. }
  destruct (iv_cover u Hu i g k) as (key & -> & Ht); [by apply (Hc (i, g))|].
  assert (silent (ifn key) (outside (foldl f u ks))) as Hs; [|apply Hs in Hk; set_solver].
  apply (foldl_reaches inv (fun u' => silent (ifn key) (outside u')) f ks u key); [| | |done].
  - intros u' key' _ Hu'. destruct (release_key_inv key' false u' Hu') as (? & _ & Hcu). split; [done|].
    intros Hsil g' k' Hk'. apply (Hsil g'). by apply (Hcu (_, g')).
  - subst ks. destruct Ht as [t Ht]. apply list_elem_of_fmap. exists (key, t). split; [done|by apply elem_of_map_to_list].
  - intros u' Hu'. by apply release_key_inv.
Qed.
End keep.


(** ** Routers that keep the promise *)

(** The time, and for each router the forwards with the time they end. *)
Record sim := MkSim { sim_now : Z; sim_rows : gmap (string * Addr) (gmap pmLeaseKey Z) }.
Definition sim_table (w : sim) (g : string * Addr) : gmap pmLeaseKey Z := default ∅ (sim_rows w !! g).
Definition sim_set (g : string * Addr) (m : gmap pmLeaseKey Z) (w : sim) : sim := MkSim (sim_now w) (<[g := m]> (sim_rows w)).

#[export] Instance sim_mapper : PortMapper sim := {
  Now := sim_now;
  Probe w v := (w, inl (MkProbe true false false false NoAddr no_epoch (Some (sim_now w))));
  Map w v p q :=
    let until := sim_now w + rq_Lifetime q in
    (sim_set (router v) (<[req_key q := until]> (sim_table w (router v))) w,
     inl (MkLease (rq_Proto q) (rq_InternalPort q) (V4 (v4 203 0 113 7)) (if rq_ExternalHint q =? 0 then rq_InternalPort q else rq_ExternalHint q)
            "natpmp" until (sim_now w + rq_Lifetime q / 2) false no_epoch []));
  Unmap w v l := if IsValid (Gateway v) then sim_set (router v) (delete (lease_key l) (sim_table w (router v))) w else w
}.

Lemma sim_table_set w g g' m : sim_table (sim_set g m w) g' = if decide (g = g') then m else sim_table w g'.
Proof. unfold sim_table, sim_set. simpl. case_decide as E; [by rewrite E, lookup_insert_eq|by rewrite lookup_insert_ne]. Qed.

Definition sim_forwards (w : sim) (g : string * Addr) : gset pmLeaseKey := dom (filter (fun kt => sim_now w <= kt.2) (sim_table w g)).
Definition sim_granted (w : sim) (g : string * Addr) (l : PortMapLease) : Prop :=
  forall t, sim_table w g !! lease_key l = Some t -> t <= l_GoodUntil l.

Lemma sim_forwards_elem w g k : k ∈ sim_forwards w g <-> exists t, sim_table w g !! k = Some t /\ sim_now w <= t.
Proof.
  unfold sim_forwards. rewrite elem_of_dom. unfold is_Some. setoid_rewrite map_lookup_filter_Some. done.
Qed.

#[export] Instance sim_routers : Routers sim.
Proof.
  refine {| forwards := sim_forwards; granted := sim_granted; said := fun _ _ e => Known e = false |}.
  - intros w v w' r g [= <- _]. done.
  - intros w v w' p [= <- <-]. done.
  - intros w v p q w' r g [= <- <-]. split_and!; [| |done].
    + intros k. rewrite !sim_forwards_elem, sim_table_set. intros (t & Ht & Hn). destruct (decide (router v = g)) as [<-|]; [|by eauto].
      apply lookup_insert_Some in Ht as [[<- _]|[_ Ht]]; [right; by eauto|by eauto].
    + intros l Hl Hor t. rewrite sim_table_set. destruct (decide (router v = g)) as [<-|]; [|by apply Hl].
      destruct Hor as [[f Hf]|[Hne|Hne]]; [done|done|]. rewrite lookup_insert_ne by (by apply not_eq_sym). apply Hl.
  - intros w v p q w' l [= <- <-]. split; [by destruct q|]. split; [|done]. intros t.
    rewrite sim_table_set, decide_True by done. unfold lease_key, req_key. simpl. rewrite lookup_insert_eq. by intros [= <-].
  - intros w v l g. simpl. destruct (IsValid _); [|done]. split_and!; [| |done].
    + intros k. rewrite !sim_forwards_elem, sim_table_set. intros (t & Ht & Hn). case_decide as E; [|by eauto].
      subst g. apply lookup_delete_Some in Ht as [_ Ht]. by eauto.
    + intros l' Hl t. rewrite sim_table_set. case_decide as E; [|by apply Hl]. subst g. intros [_ Ht]%lookup_delete_Some. by apply Hl.
  - intros w v l Hv. simpl. rewrite Hv, sim_forwards_elem, sim_table_set, decide_True by done.
    rewrite lookup_delete_eq. by intros (t & ? & _).
  - intros w g l Hg Hn. rewrite sim_forwards_elem. intros (t & Ht & Hnow). apply Hg in Ht. simpl in Hn. lia.
Defined.

Definition demo_parse (a : string) : option Addr := if bool_decide (a = "192.168.1.1") then Some (V4 (v4 192 168 1 1)) else None.
Definition demo_env : pm_env :=
  MkEnv (Some [("wan0", "wan0")]) (Some {["wan0" := MkWANRow true "" "192.168.1.1"]}) true
    [MkInbound "vless" "tcp" 443 true false; MkInbound "socks" "tcp" 1080 true true] [] [("wan0", V4 (v4 192 168 1 2))].
Definition demo_start : sim := MkSim 1000 ∅.

Lemma demo_env_ok : env_ok id demo_parse demo_env.
Proof.
  intros ups rows [= <-] [= <-] key i Hin. apply list_elem_of_singleton in Hin as [= -> ->]. split; [done|]. intros _ row Hrow _.
  apply lookup_singleton_Some in Hrow as [_ <-]. by vm_compute.
Qed.

