(* ===== verification/PortMapTruth.v ===== *)
(** * What the port mapper's state says

    More theorems on [PortMap]: what is asked for, what the verdict of a pass
    means, and three ways a forward is left behind that the promise of
    [PortMapKeep.no_forward_left] leaves out. [sim] is a world of routers that
    keeps the promise. *)

From S2P Require Import Prelude GoFloat PortMap PortMapWire PortMapKeep.

(** ** What is asked for *)

Definition wants_inbound (ib : InboundSpec) (k : pmLeaseKey) : Prop :=
  ib_Enabled ib = true /\ ib_NoAutoMap ib = false /\ 0 < ib_Port ib <= 65535 /\ k = (ib_Proto ib, ib_Port ib).
Definition wants_rule (uplinkKey : string) (r : PortMapRule) (k : pmLeaseKey) : Prop :=
  pm_Enabled r = true /\ (pm_UplinkKey r = "" \/ pm_UplinkKey r = uplinkKey) /\ 0 < pm_Port r <= 65535 /\ k = (pm_Proto r, pm_Port r).

Lemma port_ok_true p : port_ok p = true <-> 0 < p <= 65535.
Proof. unfold port_ok. lia. Qed.

Lemma of_inbound_wants ib k : (exists d, of_inbound ib = Some d /\ d_key d = k) <-> wants_inbound ib k.
Proof.
  unfold of_inbound, wants_inbound. rewrite <-port_ok_true.
  destruct (ib_Enabled ib), (ib_NoAutoMap ib), (port_ok (ib_Port ib)); simpl; naive_solver.
Qed.

Lemma of_rule_wants key r k : (exists d, of_rule key r = Some d /\ d_key d = k) <-> wants_rule key r k.
Proof.
  unfold of_rule, wants_rule. rewrite <-port_ok_true.
  destruct (pm_Enabled r), (port_ok (pm_Port r)); simpl; repeat case_bool_decide; simpl; naive_solver.
Qed.

(** Rows put in one after the other: no key twice, and every key that is asked
    for. *)
Lemma want_all out ds :
  NoDup (d_key <$> out) ->
  NoDup (d_key <$> foldl want_one out ds) /\
  forall k, k ∈ d_key <$> foldl want_one out ds <-> k ∈ d_key <$> out \/ exists d, Some d ∈ ds /\ d_key d = k.
Proof.
  revert out. induction ds as [|d ds IH]; intros out Hnd; simpl; [split; [done|]; intros k; set_solver|].
  assert (NoDup (d_key <$> want_one out d) /\
    forall k, k ∈ d_key <$> want_one out d <-> k ∈ d_key <$> out \/ exists d', d = Some d' /\ d_key d' = k) as [H1 H2].
  { destruct d as [d|]; simpl; [|split; [done|]; naive_solver]. case_decide as Hin; [split; [done|]; naive_solver|].
    rewrite fmap_app. split; [apply NoDup_app; split_and!; [done|set_solver|apply NoDup_singleton]|]. set_solver. }
  destruct (IH _ H1) as [H3 H4]. split; [done|]. intros k. rewrite H4, H2. set_solver.
Qed.

(** An uplink asks for exactly the ports of the enabled inbounds that may be
    mapped and of the enabled rules for it, each once. *)
Theorem desired_exact (inbounds : list InboundSpec) (rules : list PortMapRule) (key : string) :
  let ds := d_key <$> desiredPortMaps inbounds rules key in
  NoDup ds /\ forall k, k ∈ ds <-> (exists ib, ib ∈ inbounds /\ wants_inbound ib k) \/ (exists r, r ∈ rules /\ wants_rule key r k).
Proof.
  intros ds. subst ds. unfold desiredPortMaps.
  destruct (want_all [] (of_inbound <$> inbounds)) as [H1 H2]; [constructor|].
  destruct (want_all _ (of_rule key <$> rules) H1) as [H3 H4]. split; [by rewrite merge_sort_Permutation|]. intros k. rewrite merge_sort_Permutation, H4, H2.
  setoid_rewrite list_elem_of_fmap. setoid_rewrite <-of_inbound_wants. setoid_rewrite <-of_rule_wants. set_solver.
Qed.

(** ** What the operator may add *)

(** A rule that is accepted is well formed; enabled, it doubles no inbound and no
    other rule on an uplink they share, and without a confirmation it opens
    neither the panel nor SSH. *)
Theorem accepted_rule_safe (inp : PortMapRuleInput) (confirmed : bool) (Hacc : rule_accepted inp confirmed = true) :
  let r := ri_New inp in
  (pm_Proto r = "tcp" \/ pm_Proto r = "udp") /\ 1 <= pm_Port r <= 65535 /\ 0 <= pm_ExternalHint r <= 65535 /\
  (pm_UplinkKey r = "" \/ pm_UplinkKey r ∈ ri_UplinkKeys inp) /\
  (pm_Enabled r = true ->
   pm_Port r ∉ default [] (ri_InboundPorts inp !! pm_Proto r) /\
   (forall ex, ex ∈ ri_Existing inp -> pm_Enabled ex = true -> pm_ID ex <> pm_ID r -> pm_Proto ex = pm_Proto r -> pm_Port ex = pm_Port r ->
      sameUplink (pm_UplinkKey ex) (pm_UplinkKey r) = false) /\
   (confirmed = false -> pm_Proto r = "tcp" -> forall p, p = ri_PanelPort inp \/ p = ri_SSHPort inp -> 0 < p -> pm_Port r <> p)).
Proof.
  intros r. unfold rule_accepted, ValidatePortMapRule in Hacc. fold r in Hacc.
  destruct (bool_decide (pm_Proto r = "tcp") || bool_decide (pm_Proto r = "udp")) eqn:HP; [|done]. cbn [negb] in Hacc.
  destruct ((pm_Port r <? 1) || (65535 <? pm_Port r)) eqn:H1; [done|].
  destruct ((pm_ExternalHint r <? 0) || (65535 <? pm_ExternalHint r)) eqn:H2; [done|].
  destruct (negb (bool_decide (pm_UplinkKey r = "")) && _) eqn:H3; [done|].
  split; [apply orb_true_iff in HP; by rewrite !bool_decide_eq_true in HP|]. split; [lia|]. split; [lia|].
  split; [apply andb_false_iff in H3; rewrite !negb_false_iff, !bool_decide_eq_true in H3; done|].
  intros He. rewrite He in Hacc. cbn [negb] in Hacc. case_bool_decide as H4; [done|]. destruct (existsb _ (ri_Existing inp)) eqn:H5; [done|].
  split; [done|]. split.
  - intros ex Hex E1 E2 E3 E4. destruct (sameUplink _ _) eqn:Hsame; [|done]. exfalso. assert (existsb (fun ex => negb (pm_ID ex =? pm_ID r) &&
      pm_Enabled ex && bool_decide (pm_Proto ex = pm_Proto r) && (pm_Port ex =? pm_Port r) && sameUplink (pm_UplinkKey ex) (pm_UplinkKey r))
      (ri_Existing inp) = true); [|congruence]. apply existsb_exists. exists ex. split; [by apply list_elem_of_In|].
    rewrite E1, Hsame, E4, Z.eqb_refl, bool_decide_eq_true_2, (proj2 (Z.eqb_neq _ _) E2) by done. done.
  - intros -> HT p Hp Hpos Heq. apply andb_true_iff in Hacc as [_ Hacc]. apply negb_true_iff in Hacc. cbn [orb] in Hacc.
    rewrite bool_decide_eq_true_2 in Hacc by done. cbn [andb] in Hacc.
    assert (((0 <? p) && (pm_Port r =? p)) = true) as Hb by lia. rewrite !existsb_app in Hacc.
    destruct Hp as [-> | ->]; rewrite Hb in Hacc; simpl in Hacc; [done|]. by rewrite orb_true_r in Hacc.
Qed.

(** ** What the verdict says *)

Section verdicts.
Context {W : Type} `{!PortMapper W}.

Lemma note_denied_st n prev (s : pm W) : st (note_denied n prev s) = st s.
Proof. unfold note_denied. by case_match. Qed.

Lemma verdict_of_set inp dn ns (s : pm W) :
  verdict (st (setPortMapVerdict s inp dn ns)) = VOK ->
  let t := st (setPortMapVerdict s inp dn ns) in
  (forall d, d ∈ in_desired inp -> is_Some (held t !! d_key d)) /\
  (forall k h, held t !! k = Some h -> publicV4 (l_ExternalIP (h_lease h)) = true).
Proof.
  unfold setPortMapVerdict. set (priv := existsb _ _). set (missing := length _).
  destruct (priv || ns) eqn:HP; [by rewrite note_denied_st|]. apply orb_false_iff in HP as [HP _].
  destruct (Nat.eqb_spec missing 0) as [Hz|]; [|by destruct (dn && _); [|destruct (0 <? _)%nat]; rewrite note_denied_st].
  rewrite note_denied_st. intros _. simpl. split.
  - intros d Hd. apply nil_length_inv in Hz. apply not_eq_None_Some. intros Hn.
    assert (d ∈ filter (fun d => held (st s) !! d_key d = None) (in_desired inp)) as Hin by (by apply list_elem_of_filter).
    rewrite Hz in Hin. by apply elem_of_nil in Hin.
  - intros k h Hk. destruct (publicV4 _) eqn:Hpub; [done|]. exfalso.
    assert (priv = true); [|congruence]. apply existsb_exists. exists (k, h). simpl. rewrite Hpub. split; [|done].
    apply list_elem_of_In. by apply elem_of_map_to_list.
Qed.

(** A pass that ends with the verdict OK holds a lease for every port that is
    wanted, each at an address the internet can reach. *)
Theorem verdict_ok_honest (s : pm W) (inp : pmInputs)
    (Hok : verdict (st (reconcilePortMapWAN s inp)) = VOK) :
  let t := st (reconcilePortMapWAN s inp) in
  (forall d, d ∈ in_desired inp -> exists h, held t !! d_key d = Some h /\ publicV4 (l_ExternalIP (h_lease h)) = true) /\
  in_enabled inp = true /\ IsValid (Gateway (in_wan inp)) = true.
Proof.
  unfold reconcilePortMapWAN in *. destruct (in_enabled inp); [|done]. cbn [negb] in *.
  destruct (IsValid (Gateway (in_wan inp))); [|done]. cbn [negb] in *. destruct (publicV4 (SelfIP _)); [done|].
  destruct (probe_wan _ _) as [s2 ok] eqn:Hp. destruct ok.
  - unfold map_wan in *. destruct (negb (Any _)).
    { rewrite note_denied_st in Hok. by destruct (pr_Denied _). }
    destruct (foldl _ _ _) as [[s3 dn] ns]. destruct (verdict_of_set inp dn ns s3 Hok) as [H1 H2].
    split; [|done]. intros d Hd. destruct (H1 d Hd) as [h Hh]. exists h. split; [done|by eapply H2].
  - unfold probe_wan in Hp. destruct (probed _ && _); [done|]. destruct (Probe _ _) as [o [p|err]].
    + destruct (noteEpoch _ _). done.
    + by injection Hp as <-.
Qed.
End verdicts.

(** ** Forwards that are left behind *)

Section behind.
Context {W : Type} `{!PortMapper W}.

(** The leases a state would give back. *)
Definition leases_of (t : pmWANState) : list PortMapLease := h_lease <$> (map_to_list (held t)).*2.

(** A gateway that goes missing misroutes the releases. When an uplink that
    holds leases is seen once without a gateway and then with another one, the
    leases are given back over the uplink as it was without one: no release
    reaches the router that granted them, the panel forgets them all the same,
    and for a NAT-PMP or PCP lease the mapper panics. *)
Theorem gateway_loss_misroutes (s : pm W) (inp1 inp2 : pmInputs) (g : Addr)
    (Hg : gateway (st s) = Some g) (Hheld : held (st s) <> ∅)
    (He1 : in_enabled inp1 = true) (Hg1 : Gateway (in_wan inp1) = NoAddr) (Hg2 : Gateway (in_wan inp2) <> g) :
  let s2 := adopt_wan (in_wan inp2) (reconcilePortMapWAN s inp1) in
  pw s2 = foldl (fun o l => Unmap o (in_wan inp1) l) (pw s) (leases_of (st s)) /\ held (st s2) = ∅ /\
  forall l, l ∈ leases_of (st s) -> l_Method l = "natpmp" \/ l_Method l = "pcp" -> client_Unmap true (in_wan inp1) l = Panics.
Proof.
  intros s2. subst s2. unfold reconcilePortMapWAN. rewrite He1, Hg1. cbn [negb IsValid]. unfold adopt_wan.
  cbn [upd st gateway set_verdict set_wan]. rewrite Hg, bool_decide_eq_false_2 by (by apply not_eq_sym). cbn [negb].
  unfold releasePortMapLeases. cbn [upd st held set_verdict set_wan pw wan].
  rewrite (proj2 (Nat.eqb_neq _ _)) by (by rewrite map_size_empty_iff). split_and!; [done|done|].
  intros l _ Hm. unfold client_Unmap, sendPXP. rewrite Hg1. by destruct Hm as [->| ->].
Qed.

(** A permanent lease whose renewal fails once its own clock ran out is dropped
    without being given back. *)
Lemma permanent_lease_dropped v p (s : pm W) dn ns d h o f err :
  held (st s) !! d_key d = Some h -> l_Permanent (h_lease h) = true ->
  Map (pw s) v p (MkRequest (d_key d).1 (d_key d).2 (l_ExternalPort (h_lease h)) portMapLease true (l_Nonce (h_lease h))) = (o, inr (f, err)) ->
  l_RenewAfter (h_lease h) <= Now (pw s) -> l_GoodUntil (h_lease h) < Now o ->
  let s' := (acquire_one v p (s, dn, ns) d).1.1 in held (st s') !! d_key d = None /\ pw s' = o.
Proof.
  intros Hh _ Hm Hr Hg. unfold acquire_one. rewrite Hh, (proj2 (Z.ltb_ge _ _) Hr), Hm. simpl. rewrite (proj2 (Z.ltb_lt _ _) Hg). simpl.
  by rewrite lookup_delete_eq.
Qed.

(** ** Uplinks that went *)

Context (ParseAddr : string -> option Addr).

Lemma on_key_other key key' (f : pm W -> pm W) u : key <> key' -> pmState (on_key key f u) !! key' = pmState u !! key'.
Proof. intros Hne. simpl. by rewrite lookup_insert_ne. Qed.

Lemma gather_keys env (u : PortMaps W) :
  let '(u', ins) := gatherPortMapInputs ParseAddr env u in
  forall ups, e_uplinks env = Some ups ->
  (forall key, key ∉ ups.*1 -> pmState u' !! key = pmState u !! key) /\ (forall inp, inp ∈ ins -> in_key inp ∈ ups.*1).
Proof.
  unfold gatherPortMapInputs. destruct (e_uplinks env) as [ups|], (e_rows env) as [rows|]; try (intros ? [= <-]; split; [done|set_solver]); [|done..].
  set (P := fun ui : PortMaps W * list pmInputs => (forall key, key ∉ ups.*1 -> pmState ui.1 !! key = pmState u !! key) /\
    (forall inp, inp ∈ ui.2 -> in_key inp ∈ ups.*1)).
  assert (P (foldl (gather_one ParseAddr env rows) (u, []) ups)) as HP.
  { apply (foldl_keeps_in P); [|split; [done|set_solver]]. intros [u' out] [key i] Hin [H1 H2].
    assert (key ∈ ups.*1) as Hk by (apply list_elem_of_fmap; by exists (key, i)).
    assert (forall b key', key' ∉ ups.*1 -> pmState (on_key key (upd (set_suspended b)) u') !! key' = pmState u !! key') as Ho.
    { intros b key' Hk'. rewrite on_key_other by (intros ->; done). by apply H1. }
    unfold gather_one. case_match; (split; [apply Ho|]); [done|]. simpl. set_solver. }
  destruct (foldl _ _ _) as [u' ins]. by intros ? [= <-].
Qed.

Lemma prune_live live key (u : PortMaps W) : key ∈ live -> pmState (prunePortMapStates live u) !! key = pmState u !! key.
Proof.
  intros Hl. unfold prunePortMapStates.
  apply (foldl_keeps_in (fun u' : PortMaps W => pmState u' !! key = pmState u !! key)); [|done].
  intros u' k [Hk _]%list_elem_of_filter Hu'. simpl. rewrite lookup_delete_ne, lookup_insert_ne by (intros ->; done). done.
Qed.

(** One pass after the other. *)
Definition passes (u : PortMaps W) (envs : list pm_env) : PortMaps W := foldl (fun u env => portMapPass ParseAddr env u) u envs.

(** An uplink that was suspended when it stopped being an uplink is never
    pruned: as long as no pass lists it, its state and the leases in it stay as
    they are, whether mapping is on or off. *)
Theorem suspended_never_pruned (envs : list pm_env) (u : PortMaps W) (key : string) (t : pmWANState)
    (Ht : pmState u !! key = Some t) (Hs : suspended t = true)
    (Hgone : Forall (fun env => forall ups, e_uplinks env = Some ups -> key ∉ ups.*1) envs) :
  pmState (passes u envs) !! key = Some t.
Proof.
  apply (foldl_keeps_in (fun u : PortMaps W => pmState u !! key = Some t)); [|done]. intros u' env Henv Hu'.
  pose proof (proj1 (Forall_forall _ envs) Hgone env Henv) as Hno. clear Henv. unfold portMapPass. pose proof (gather_keys env u') as Hg.
  destruct (gatherPortMapInputs ParseAddr env u') as [u1 ins] eqn:HG. destruct (e_uplinks env) as [ups|] eqn:HU.
  - destruct (Hg ups eq_refl) as [H1 H2]. specialize (Hno ups HU). rewrite <-(H1 key Hno) in Hu'.
    assert (key ∈ suspendedPortMapInputs u1) as Hsus.
    { unfold suspendedPortMapInputs. apply list_elem_of_fmap. exists (key, t). split; [done|]. apply list_elem_of_filter.
      split; [done|by apply elem_of_map_to_list]. }
    apply (foldl_keeps_in (fun u : PortMaps W => pmState u !! key = Some t)).
    + intros u2 inp Hin H3. rewrite on_key_other; [done|]. intros E. apply Hno. rewrite <-E. by apply H2.
    + destruct ins as [|inp ins]; [done|]. rewrite prune_live; [done|]. apply elem_of_app. by right.
  - unfold gatherPortMapInputs in HG. rewrite HU in HG. injection HG as <- <-. done.
Qed.
End behind.

(** ** Examples *)

Definition demo_held : PortMaps sim := portMapPass demo_parse demo_env (MkPortMaps demo_start ∅ []).
Definition demo_state : pm sim := MkPM (outside demo_held) (portMapStateFor demo_held "wan0") [].
Definition demo_inputs (gw : Addr) : pmInputs := MkInputs (MkWAN "wan0" gw (V4 (v4 192 168 1 2))) "wan0" true [].

Lemma gateway_loss_misroutes_witness :
  let s2 := adopt_wan (in_wan (demo_inputs (V4 (v4 192 168 8 1)))) (reconcilePortMapWAN demo_state (demo_inputs NoAddr)) in
  held (st s2) = ∅ /\ forwards (pw s2) ("wan0", V4 (v4 192 168 1 1)) = {[("tcp", 443)]} /\
  exists l, leases_of (st demo_state) = [l] /\ client_Unmap true (in_wan (demo_inputs NoAddr)) l = Panics.
Proof.
  intros s2. destruct (gateway_loss_misroutes demo_state (demo_inputs NoAddr) (demo_inputs (V4 (v4 192 168 8 1))) (V4 (v4 192 168 1 1)))
    as (H1 & H2 & H3); [by vm_compute| |done|done|done|].
  { intros E. assert (size (held (st demo_state)) = 1%nat) as Hsz by (by vm_compute). by rewrite E in Hsz. }
  split; [exact H2|]. split; [apply (bool_decide_unpack _); by vm_compute|].
  eexists. split; [by vm_compute|]. apply H3; [vm_compute; constructor|left; reflexivity].
Defined.

Definition demo_gone : PortMaps sim :=
  MkPortMaps (outside demo_held) {["wan9" := set_suspended true (portMapStateFor demo_held "wan0")]} [].

Lemma suspended_never_pruned_witness :
  exists t, pmState (passes demo_parse demo_gone [demo_env; demo_env]) !! "wan9" = Some t /\ size (held t) = 1%nat.
Proof.
  exists (set_suspended true (portMapStateFor demo_held "wan0")). split; [|by vm_compute].
  apply (suspended_never_pruned demo_parse [demo_env; demo_env] demo_gone "wan9"); [done|done|].
  repeat constructor; intros ups [= <-]; apply (bool_decide_unpack _); by vm_compute.
Defined.
