(* ===== verification/NodeConn.v ===== *)
(** * Node connectivity

    The only writer of connectivity transitions, of
    internal/node/usecase/node_connectivity.go: every detector reports what it saw
    of a node to [ObserveNodeHealth], which debounces failures, commits
    transitions to the node's row and the timeline, and publishes them on the
    bus. A restart forgets the cache; the rows of
    internal/node/repository/node_connectivity_repository.go stay.

    Theorems: an outage that is committed is real ([outage_real]), and the
    timeline of a node alternates, is ordered and agrees with its row and with
    what was published ([timeline_exact]). *)

From S2P Require Import Prelude GoString GoUnicode AlertEngine.

(** ** Reasons *)

Definition NodeStatusOnline : string := "online".
Definition NodeStatusOffline : string := "offline".
Definition NodeOfflineReasonHubShutdown : string := "hub_shutdown".
Definition NodeOfflineReasonPanelDown : string := "panel_down".
Definition NodeOfflineReasonAdminDisabled : string := "admin_disabled".
Definition NodeOfflineReasonMaintenance : string := "maintenance".

Definition IsPlannedOfflineReason (reason : string) : bool :=
  bool_decide (reason = NodeOfflineReasonAdminDisabled) || bool_decide (reason = NodeOfflineReasonMaintenance).

(** ** Rows and the cache *)

(** The connectivity columns of a node. A detector holds a copy. *)
Record Node := MkNode {
  node_ID : Z; node_Name : string; node_IP : string; IsOnline : bool; LastCheck : option Z;
  LastConnectedAt : option Z; LastDisconnectedAt : option Z; LastOfflineReason : string;
  OfflineCandidateSince : option Z
}.

Record NodeUptimeEvent := MkUptime {
  up_NodeID : Z; up_Status : string; up_Reason : string; up_Detail : string; up_Timestamp : Z
}.

(** [candidateSince] is the start of an unconfirmed outage; the zero time is
    [None]. *)
Record nodeConnState := MkConnState { online : bool; candidateSince : option Z }.

(** The tables, the cache, the cached debounce with its time, and what was
    published, with its time. *)
Record Conn := MkConn {
  nodes : gmap Z Node; connStates : gmap Z nodeConnState; debounceCache : option (Z * Z);
  uptime : list NodeUptimeEvent; published : list (Z * BusEvent)
}.

Definition with_nodes (f : gmap Z Node -> gmap Z Node) (w : Conn) : Conn :=
  MkConn (f (nodes w)) (connStates w) (debounceCache w) (uptime w) (published w).
Definition with_state (id : Z) (st : nodeConnState) (w : Conn) : Conn :=
  MkConn (nodes w) (<[id := st]> (connStates w)) (debounceCache w) (uptime w) (published w).

(** The statements, which may fail. *)
Inductive conn_stmt := QUpdate (id : Z) | QCandidate (id : Z) | QUptime (id : Z) | QNode (id : Z).

Definition defaultOfflineDebounce : Z := sec 30.
Definition offlineDebounceCacheTTL : Z := sec 30.
Definition detailMaxLen : nat := 255.

Section observe.
(** The statements that fail, the moment, and the setting
    node_offline_debounce_sec, if it can be read. *)
Context (fails : conn_stmt -> bool) (now : Z) (setting : option string).

(** ** The repository: whether it failed, and the tables *)

Definition UpdateNodeConnectivity (id : Z) (isOnline : bool) (at_ : Z) (reason : string) (w : Conn) : bool * Conn :=
  if fails (QUpdate id) then (true, w) else
  (false, with_nodes (alter (fun r =>
     MkNode (node_ID r) (node_Name r) (node_IP r) isOnline (Some now)
       (if isOnline then Some at_ else LastConnectedAt r)
       (if isOnline then LastDisconnectedAt r else Some at_)
       (if isOnline then LastOfflineReason r else reason) None) id) w).

Definition SetOfflineCandidate (id : Z) (since : option Z) (w : Conn) : bool * Conn :=
  if fails (QCandidate id) then (true, w) else
  (false, with_nodes (alter (fun r =>
     MkNode (node_ID r) (node_Name r) (node_IP r) (IsOnline r) (LastCheck r) (LastConnectedAt r) (LastDisconnectedAt r)
       (LastOfflineReason r) since) id) w).

Definition CreateUptimeEvent (ev : NodeUptimeEvent) (w : Conn) : bool * Conn :=
  if fails (QUptime (up_NodeID ev)) then (true, w) else
  (false, MkConn (nodes w) (connStates w) (debounceCache w) (uptime w ++ [ev]) (published w)).

(** ** The writer *)

Definition connStateFor (node : Node) (w : Conn) : nodeConnState * Conn :=
  match connStates w !! node_ID node with
  | Some st => (st, w)
  | None => let st := MkConnState (IsOnline node) (OfflineCandidateSince node) in (st, with_state (node_ID node) st w)
  end.

(** [time.Duration(secs) * time.Second] wraps around. *)
Definition offlineDebounce (w : Conn) : Z * Conn :=
  let read :=
    match setting with
    | Some v =>
        if bool_decide (v = "") then defaultOfflineDebounce else
        match Atoi (TrimSpace v) with
        | Some secs => if 0 <=? secs then wrapS (sec secs) else defaultOfflineDebounce
        | None => defaultOfflineDebounce
        end
    | None => defaultOfflineDebounce
    end in
  let renew := (read, MkConn (nodes w) (connStates w) (Some (read, now)) (uptime w) (published w)) in
  match debounceCache w with
  | Some (d, at_) => if now - at_ <? offlineDebounceCacheTTL then (d, w) else renew
  | None => renew
  end.

Definition publishConnectivityEvent (node : Node) (on : bool) (reason : string) (at_ : Z) (w : Conn) : Conn :=
  let p := MkNodeStatus (node_ID node) (node_Name node) (node_IP node) (negb on && IsPlannedOfflineReason reason) (Some at_) in
  MkConn (nodes w) (connStates w) (debounceCache w) (uptime w)
    (published w ++ [(now, if on then EvNodeOnline p else EvNodeOffline p)]).

(** The caller's copy follows the transition. *)
Definition set_IsOnline (on : bool) (n : Node) : Node :=
  MkNode (node_ID n) (node_Name n) (node_IP n) on (LastCheck n) (LastConnectedAt n) (LastDisconnectedAt n)
    (LastOfflineReason n) (OfflineCandidateSince n).

Definition commitTransition (node : Node) (on : bool) (reason detail : string) (at_ : Z) (w : Conn) : Node * Conn :=
  let status := if on then NodeStatusOnline else NodeStatusOffline in
  let detail := if (detailMaxLen <? String.length detail)%nat then String.substring 0 detailMaxLen detail else detail in
  let '(failed, w) := UpdateNodeConnectivity (node_ID node) on at_ reason w in
  if failed then (node, w) else
  let w := (CreateUptimeEvent (MkUptime (node_ID node) status reason detail at_) w).2 in
  let w := with_state (node_ID node) (MkConnState on None) w in
  let node := set_IsOnline on node in
  (node, publishConnectivityEvent node on reason at_ w).

Definition observeOnline (node : Node) (st : nodeConnState) (reason : string) (w : Conn) : Node * Conn :=
  let w := with_state (node_ID node) (MkConnState (online st) None) w in
  let w := match candidateSince st with Some _ => (SetOfflineCandidate (node_ID node) None w).2 | None => w end in
  if online st then (node, w) else
  commitTransition node true reason "" now w.

Definition observeOffline (node : Node) (st : nodeConnState) (reason detail : string) (w : Conn) : Node * Conn :=
  let planned := IsPlannedOfflineReason reason || bool_decide (reason = NodeOfflineReasonHubShutdown) in
  if negb (online st) then (node, w) else
  if planned then commitTransition node false reason detail now w else
  let '(debounce, w) := offlineDebounce w in
  if debounce <=? 0 then commitTransition node false reason detail now w else
  match candidateSince st with
  | None =>
      let w := with_state (node_ID node) (MkConnState (online st) (Some now)) w in
      (node, (SetOfflineCandidate (node_ID node) (Some now) w).2)
  | Some candidate =>
      if now - candidate <? debounce then (node, w) else
      commitTransition node false reason detail candidate w
  end.

(** The caller's copy and the tables after an observation; [None] is a nil
    node. *)
Definition ObserveNodeHealth (node : option Node) (on : bool) (reason detail : string) (w : Conn) : option Node * Conn :=
  match node with
  | None => (None, w)
  | Some node =>
      if node_ID node =? 0 then (Some node, w) else
      let '(st, w) := connStateFor node w in
      let after := if on then observeOnline node st reason w else observeOffline node st reason detail w in
      (Some after.1, after.2)
  end.

Definition ObserveNodeMaintenance (nodeID : Z) (active : bool) (w : Conn) : Conn :=
  if negb active then w else
  if fails (QNode nodeID) then w else
  match nodes w !! nodeID with
  | None => w
  | Some node => (ObserveNodeHealth (Some node) false NodeOfflineReasonMaintenance "maintenance mode enabled" w).2
  end.
End observe.

(** ** What happens to the writer *)

(** An observation: when, which statements fail, the setting, the reporter's
    copy of the node, and what it saw. *)
Record observation := MkObs {
  o_at : Z; o_fails : conn_stmt -> bool; o_setting : option string; o_node : Node;
  o_online : bool; o_reason : string; o_detail : string
}.
Definition o_id (o : observation) : Z := node_ID (o_node o).

Inductive conn_happening := CObserve (o : observation) | CRestart.

Definition conn_act (w : Conn) (h : conn_happening) : Conn :=
  match h with
  | CObserve o =>
      (ObserveNodeHealth (o_fails o) (o_at o) (o_setting o) (Some (o_node o)) (o_online o) (o_reason o) (o_detail o) w).2
  | CRestart => MkConn (nodes w) ∅ None (uptime w) (published w)
  end.

Definition conn_run (w : Conn) (hs : list conn_happening) : Conn := foldl conn_act w hs.

(** ** What a node's tables say *)

(** A transition: to which side, whether planned, and since when. *)
Record transition := MkTrans { t_on : bool; t_planned : bool; t_at : Z }.

(** The transitions of a node that were published, and those in its timeline. *)
Definition published_trans (n : Z) (te : Z * BusEvent) : option transition :=
  match te.2 with
  | EvNodeOnline p => if ns_NodeID p =? n then Some (MkTrans true (ns_Planned p) (default te.1 (ns_OutageStartedAt p))) else None
  | EvNodeOffline p => if ns_NodeID p =? n then Some (MkTrans false (ns_Planned p) (default te.1 (ns_OutageStartedAt p))) else None
  | _ => None
  end.
Definition pubs (n : Z) (w : Conn) : list transition := omap (published_trans n) (published w).

Definition row_trans (n : Z) (e : NodeUptimeEvent) : option transition :=
  if up_NodeID e =? n then
    let on := bool_decide (up_Status e = NodeStatusOnline) in
    Some (MkTrans on (negb on && IsPlannedOfflineReason (up_Reason e)) (up_Timestamp e))
  else None.
Definition timeline (n : Z) (w : Conn) : list transition := omap (row_trans n) (uptime w).

(** The state the next observation of a node starts from. *)
Definition seed (r : Node) : nodeConnState := MkConnState (IsOnline r) (OfflineCandidateSince r).
Definition effective (w : Conn) (n : Z) : option nodeConnState :=
  match connStates w !! n with Some st => Some st | None => seed <$> nodes w !! n end.

(** A copy read from the row, at any time since the start of the run: it is
    used only for the first observation. *)
Definition copy_ok (w : Conn) (o : observation) : Prop :=
  connStates w !! o_id o = None ->
  exists r, nodes w !! o_id o = Some r /\ seed (o_node o) = seed r.

Fixpoint reads_ok (w : Conn) (hs : list conn_happening) : Prop :=
  match hs with
  | [] => True
  | h :: hs => match h with CObserve o => o_id o <> 0 /\ copy_ok w o | CRestart => True end /\ reads_ok (conn_act w h) hs
  end.

Definition obs_of (n : Z) (hs : list conn_happening) : list observation :=
  omap (fun h => match h with CObserve o => if o_id o =? n then Some o else None | CRestart => None end) hs.

(** The candidate of a node that is seen online is cleared from its row. *)
Definition clears_work (o : observation) : Prop := o_online o = true -> o_fails o (QCandidate (o_id o)) = false.

(** ** The debouncer as a machine of one node *)

Definition o_planned (o : observation) : bool := IsPlannedOfflineReason (o_reason o).
Definition o_stored (o : observation) : bool := negb (o_fails o (QUpdate (o_id o))).
Definition o_urgent (o : observation) : bool := o_planned o || bool_decide (o_reason o = NodeOfflineReasonHubShutdown).

(** The state after an observation under a debounce, and the transition it
    commits. *)
Definition judge (d : Z) (o : observation) (st : nodeConnState) : nodeConnState * option transition :=
  let commit (st : nodeConnState) (on : bool) (at_ : Z) :=
    if o_stored o then (MkConnState on None, Some (MkTrans on (negb on && o_planned o) at_)) else (st, None) in
  if o_online o then
    if online st then (MkConnState true None, None) else commit (MkConnState false None) true (o_at o)
  else if negb (online st) then (st, None)
  else if o_urgent o || (d <=? 0) then commit st false (o_at o)
  else match candidateSince st with
       | None => (MkConnState true (Some (o_at o)), None)
       | Some t => if o_at o - t <? d then (st, None) else commit st false t
       end.

Definition debounce_at (w : Conn) (o : observation) : Z := (offlineDebounce (o_at o) (o_setting o) w).1.

Lemma debounce_frame now setting w :
  let w' := (offlineDebounce now setting w).2 in
  nodes w' = nodes w /\ connStates w' = connStates w /\ uptime w' = uptime w /\ published w' = published w.
Proof. unfold offlineDebounce. by repeat case_match. Qed.

(** ** What an observation does *)

(** One node's part of the tables: its row's columns, its state in the cache,
    its transitions. *)
Definition part (w : Conn) (n : Z) : option nodeConnState * option nodeConnState * list transition * list transition :=
  (seed <$> nodes w !! n, connStates w !! n, pubs n w, timeline n w).

Lemma omap_snoc {A B} (f : A -> option B) (l : list A) (a : A) :
  omap f (l ++ [a]) = omap f l ++ match f a with Some b => [b] | None => [] end.
Proof. rewrite omap_app. simpl. by destruct (f a). Qed.

(** What committing a transition does to a node's part. *)
Definition committed (stored logged : bool) (on planned : bool) (at_ : Z)
    (p : option nodeConnState * option nodeConnState * list transition * list transition) :=
  let '(row, st, ps, ts) := p in
  let tr := MkTrans on (negb on && planned) at_ in
  if stored then ((fun _ => MkConnState on None) <$> row, Some (MkConnState on None), ps ++ [tr], if logged then ts ++ [tr] else ts)
  else (row, st, ps, ts).

Lemma commit_part fails now node on reason detail at_ w n :
  part (commitTransition fails now node on reason detail at_ w).2 n =
  if node_ID node =? n
  then committed (negb (fails (QUpdate n))) (negb (fails (QUptime n))) on (IsPlannedOfflineReason reason) at_ (part w n)
  else part w n.
Proof.
  unfold commitTransition, UpdateNodeConnectivity, CreateUptimeEvent, part, pubs, timeline, committed.
  destruct (Z.eqb_spec (node_ID node) n) as [<-|Hne].
  - destruct (fails (QUpdate _)); [done|]. simpl.
    assert (bool_decide ((if on then NodeStatusOnline else NodeStatusOffline) = NodeStatusOnline) = on) as Hon by (by destruct on).
    destruct (fails (QUptime _)); simpl; rewrite !omap_snoc, lookup_alter_eq, lookup_insert_eq;
      unfold published_trans, row_trans; simpl; rewrite ?Hon; destruct on; simpl; rewrite !Z.eqb_refl; by destruct (nodes w !! _).
  - destruct (fails (QUpdate _)); [done|]. apply Z.eqb_neq in Hne as He.
    destruct (fails (QUptime _)); simpl; rewrite !omap_snoc, lookup_alter_ne, lookup_insert_ne by done;
      unfold published_trans, row_trans; simpl; destruct on; simpl; by rewrite He, ?app_nil_r.
Qed.

Lemma candidate_part fails id since w n :
  part (SetOfflineCandidate fails id since w).2 n =
  if (id =? n) && negb (fails (QCandidate n))
  then let '(row, st, ps, ts) := part w n in ((fun s => MkConnState (online s) since) <$> row, st, ps, ts)
  else part w n.
Proof.
  unfold SetOfflineCandidate, part. destruct (Z.eqb_spec id n) as [->|Hne]; simpl.
  - destruct (fails _); simpl; [done|]. rewrite lookup_alter_eq. by destruct (nodes w !! n).
  - destruct (fails _); simpl; [done|]. by rewrite lookup_alter_ne.
Qed.

Lemma state_part id st w n :
  part (with_state id st w) n = if id =? n then let '(row, _, ps, ts) := part w n in (row, Some st, ps, ts) else part w n.
Proof.
  unfold part. simpl. destruct (Z.eqb_spec id n) as [->|Hne]; [by rewrite lookup_insert_eq|by rewrite lookup_insert_ne].
Qed.

Lemma debounce_part now setting w n : part (offlineDebounce now setting w).2 n = part w n.
Proof. destruct (debounce_frame now setting w) as (H1 & H2 & H3 & H4). unfold part, pubs, timeline. by rewrite H1, H2, H3, H4. Qed.

Lemma debounce_value now setting w w' :
  debounceCache w' = debounceCache w -> (offlineDebounce now setting w').1 = (offlineDebounce now setting w).1.
Proof. unfold offlineDebounce. intros ->. by repeat case_match. Qed.

(** The node's part after an observation, from the state it starts from. *)
Definition settled (d : Z) (o : observation) (st : nodeConnState) (row : option nodeConnState) (ps ts : list transition) :=
  let n := o_id o in
  let '(st', tr) := judge d o st in
  let cleared := o_online o && bool_decide (is_Some (candidateSince st)) in
  let opened := negb (o_online o) && bool_decide (candidateSince st = None) && bool_decide (is_Some (candidateSince st')) in
  let row1 := if (cleared || opened) && negb (o_fails o (QCandidate n))
              then (fun s => MkConnState (online s) (candidateSince st')) <$> row else row in
  let row2 := match tr with Some t => (fun _ => MkConnState (t_on t) None) <$> row1 | None => row1 end in
  let new := match tr with Some t => [t] | None => [] end in
  (row2, Some st', ps ++ new, ts ++ if o_fails o (QUptime n) then [] else new).

Lemma act_part w o :
  o_id o <> 0 -> copy_ok w o ->
  exists st, effective w (o_id o) = Some st /\
    part (conn_act w (CObserve o)) (o_id o) =
    settled (debounce_at w o) o st (seed <$> nodes w !! o_id o) (pubs (o_id o) w) (timeline (o_id o) w).
Proof.
  intros Hid Hcopy. unfold copy_ok, effective in *. set (n := o_id o) in *.
  assert (exists st, effective w n = Some st /\ part (connStateFor (o_node o) w).2 n =
    (seed <$> nodes w !! n, Some st, pubs n w, timeline n w) /\ (connStateFor (o_node o) w).1 = st /\
    debounceCache (connStateFor (o_node o) w).2 = debounceCache w) as (st & He & Hp & Hst & Hd).
  { unfold connStateFor, effective. fold (o_id o). fold n. destruct (connStates w !! n) as [st|] eqn:Hc.
    - exists st. split_and!; [done| |done..]. unfold part. simpl. by rewrite Hc.
    - destruct (Hcopy eq_refl) as (r & Hr & Hs). exists (seed r). rewrite Hr. split_and!; [done| |by rewrite <-Hs|done].
      simpl. rewrite state_part. fold n. rewrite Z.eqb_refl. unfold part. rewrite Hr. fold (seed (o_node o)). by rewrite Hs. }
  exists st. split; [done|]. unfold conn_act, ObserveNodeHealth. fold (o_id o). fold n. rewrite (proj2 (Z.eqb_neq n 0) Hid).
  pose proof (debounce_value (o_at o) (o_setting o) w _ Hd) as Hdv. fold (debounce_at w o) in Hdv.
  destruct (connStateFor (o_node o) w) as [st0 w1]. simpl in *. subst st0. set (d := debounce_at w o) in *.
  unfold settled, judge, o_stored, o_urgent, o_planned. fold n. destruct (o_online o) eqn:Hon; simpl.
  - unfold observeOnline. fold (o_id o). fold n. set (w2 := with_state n _ w1).
    assert (part w2 n = (seed <$> nodes w !! n, Some (MkConnState (online st) None), pubs n w, timeline n w)) as H2.
    { unfold w2. by rewrite state_part, Z.eqb_refl, Hp. }
    set (w3 := match candidateSince st with Some _ => _ | None => _ end).
    assert (part w3 n = (if bool_decide (is_Some (candidateSince st)) && negb (o_fails o (QCandidate n))
      then (fun s => MkConnState (online s) None) <$> (seed <$> nodes w !! n) else seed <$> nodes w !! n,
      Some (MkConnState (online st) None), pubs n w, timeline n w)) as H3.
    { unfold w3. destruct (candidateSince st) as [t|]; [|by rewrite H2]. rewrite candidate_part, Z.eqb_refl, H2. simpl.
      by destruct (o_fails o (QCandidate n)). }
    clearbody w3. destruct (online st); simpl.
    + rewrite H3, orb_false_r, !app_nil_r. by destruct (o_fails o (QUptime n)); rewrite ?app_nil_r.
    + rewrite commit_part. fold (o_id o). fold n. rewrite Z.eqb_refl, H3. unfold committed.
      rewrite orb_false_r. destruct (o_fails o (QUpdate n)), (o_fails o (QUptime n)); simpl; rewrite ?app_nil_r; done.
  - unfold observeOffline. fold (o_id o). fold n. destruct st as [[] cand]; simpl.
    2:{ by rewrite Hp, !app_nil_r; destruct (o_fails o (QUptime n)), cand; rewrite ?app_nil_r. }
    destruct (IsPlannedOfflineReason (o_reason o) || _) eqn:Hu; simpl.
    { rewrite commit_part. fold (o_id o). fold n. rewrite Z.eqb_refl, Hp. unfold committed.
      by destruct (o_fails o (QUpdate n)), (o_fails o (QUptime n)), cand; simpl; rewrite ?app_nil_r. }
    pose proof (debounce_part (o_at o) (o_setting o) w1 n) as Hpd. rewrite Hp in Hpd.
    destruct (offlineDebounce (o_at o) (o_setting o) w1) as [d' w2]. simpl in Hdv, Hpd. subst d'.
    destruct (d <=? 0).
    { rewrite commit_part. fold (o_id o). fold n. rewrite Z.eqb_refl, Hpd. unfold committed.
      by destruct (o_fails o (QUpdate n)), (o_fails o (QUptime n)), cand; simpl; rewrite ?app_nil_r. }
    destruct cand as [t|]; simpl.
    + destruct (_ <? d); simpl; [by rewrite Hpd; destruct (o_fails o (QUptime n)); rewrite ?app_nil_r|].
      rewrite commit_part. fold (o_id o). fold n. rewrite Z.eqb_refl, Hpd. unfold committed.
      by destruct (o_fails o (QUpdate n)), (o_fails o (QUptime n)); simpl; rewrite ?app_nil_r.
    + rewrite candidate_part, state_part, !Z.eqb_refl, Hpd. simpl.
      by destruct (o_fails o (QCandidate n)), (o_fails o (QUptime n)); simpl; rewrite ?app_nil_r.
Qed.

Lemma act_other w o m : o_id o <> m -> part (conn_act w (CObserve o)) m = part w m.
Proof.
  intros Hne%Z.eqb_neq. unfold conn_act, ObserveNodeHealth. fold (o_id o). destruct (o_id o =? 0); [done|].
  assert (part (connStateFor (o_node o) w).2 m = part w m) as Hp.
  { unfold connStateFor. fold (o_id o). destruct (connStates w !! o_id o); [done|]. simpl. by rewrite state_part, Hne. }
  destruct (connStateFor (o_node o) w) as [st w1]. rewrite <-Hp. clear Hp w. simpl. destruct (o_online o); simpl.
  - unfold observeOnline. fold (o_id o). destruct (candidateSince st), (online st); simpl;
      rewrite ?commit_part, ?candidate_part, ?state_part; fold (o_id o); by rewrite ?Hne.
  - unfold observeOffline. fold (o_id o). destruct (negb (online st)); [done|].
    destruct (_ || _); [by rewrite commit_part; fold (o_id o); rewrite Hne|].
    pose proof (debounce_part (o_at o) (o_setting o) w1 m) as Hpd. destruct (offlineDebounce _ _ w1) as [d w2]. simpl in Hpd.
    destruct (d <=? 0); [by rewrite commit_part; fold (o_id o); rewrite Hne|]. destruct (candidateSince st) as [t|].
    + destruct (_ <? d); [done|]. by rewrite commit_part; fold (o_id o); rewrite Hne.
    + simpl. by rewrite candidate_part, state_part, Hne.
Qed.

(** ** Honest transitions *)

(** A failure at [t], and after it only observations that satisfy [P]. *)
Definition fails_since (P : observation -> Prop) (t : Z) (l : list observation) : Prop :=
  exists l1 o l2, l = l1 ++ o :: l2 /\ o_online o = false /\ o_at o = t /\ Forall P l2.
Definition failing (t : Z) (l : list observation) : Prop := fails_since (fun o => o_online o = false) t l.
(** Since a failure at [t] the node was seen online only when that could not be
    stored. *)
Definition down (t : Z) (l : list observation) : Prop := fails_since (fun o => o_online o = false \/ o_stored o = false) t l.

Lemma fails_since_snoc P t l o : fails_since P t l -> P o -> fails_since P t (l ++ [o]).
Proof.
  intros (l1 & x & l2 & -> & H1 & H2 & H3) Hp. exists l1, x, (l2 ++ [o]). split_and!; [by rewrite <-app_assoc|done..|].
  by apply Forall_app; split; [|rewrite Forall_singleton].
Qed.

Lemma fails_since_last P l o : o_online o = false -> fails_since P (o_at o) (l ++ [o]).
Proof. intros H. by exists l, o, []. Qed.

Lemma failing_down t l : failing t l -> down t l.
Proof. intros (l1 & x & l2 & H1 & H2 & H3 & H4). exists l1, x, l2. split_and!; [done..|]. eapply Forall_impl; [done|]. by left. Qed.

(** Transitions alternate from one state to another. *)
Fixpoint alternates (b : bool) (ps : list transition) (e : bool) : Prop :=
  match ps with [] => b = e | tr :: ps => t_on tr = negb b /\ alternates (t_on tr) ps e end.

Lemma alternates_snoc b ps e tr : alternates b ps e -> t_on tr = negb e -> alternates b (ps ++ [tr]) (t_on tr).
Proof. revert b. induction ps as [|x ps IH]; simpl; intros b; [by intros ->|]. intros [? ?] ?. split; [done|by apply IH]. Qed.

(** What holds of a node: its row [r], its state in the cache [c], its
    transitions [ps], which began from [b0], after the observations [l]. *)
Record good (b0 : bool) (l : list observation) (r : nodeConnState) (c : option nodeConnState) (ps : list transition) : Prop := MkGood {
  g_row : online (default r c) = online r /\
          forall t, candidateSince r = Some t -> candidateSince (default r c) = Some t;
  g_cand : forall t, candidateSince (default r c) = Some t ->
           online r = true /\ failing t l;
  g_alt : alternates b0 ps (online r);
  g_down : online r = false -> forall tr, last ps = Some tr -> t_planned tr = false -> down (t_at tr) l;
  g_seen : Forall (fun tr => exists o, o ∈ l /\ t_at tr = o_at o) ps;
  g_order : StronglySorted Z.lt (o_at <$> l) ->
            StronglySorted Z.lt (t_at <$> ps) /\
            forall t, candidateSince (default r c) = Some t -> Forall (fun tr => t_at tr < t) ps
}.

Lemma sorted_snoc (xs : list Z) (x : Z) :
  StronglySorted Z.lt (xs ++ [x]) <-> StronglySorted Z.lt xs /\ Forall (fun y => y < x) xs.
Proof.
  rewrite StronglySorted_app. split.
  - intros (H1 & H2 & _). split; [done|]. apply Forall_forall. intros y Hy. apply H1; [done|by apply list_elem_of_singleton].
  - intros [H1 H2]. rewrite Forall_forall in H2. split_and!; [|done|by repeat constructor].
    intros y z Hy ->%list_elem_of_singleton. by apply H2.
Qed.

(** Stamps are times of earlier observations. *)
Lemma stamps_earlier l o ps :
  StronglySorted Z.lt (o_at <$> l ++ [o]) -> Forall (fun tr => exists x, x ∈ l /\ t_at tr = o_at x) ps ->
  Forall (fun tr => t_at tr < o_at o) ps.
Proof.
  rewrite fmap_app. simpl. intros [_ Hlt]%sorted_snoc Hseen. eapply Forall_impl; [exact Hseen|]. simpl.
  intros tr (x & Hx & ->). rewrite Forall_forall in Hlt. apply Hlt. by apply list_elem_of_fmap_2.
Qed.

Lemma clock_prefix l o : StronglySorted Z.lt (o_at <$> l ++ [o]) -> StronglySorted Z.lt (o_at <$> l).
Proof. rewrite fmap_app. simpl. by intros [? _]%sorted_snoc. Qed.

Lemma seen_snoc l o ps :
  Forall (fun tr => exists x, x ∈ l /\ t_at tr = o_at x) ps ->
  Forall (fun tr => exists x, x ∈ l ++ [o] /\ t_at tr = o_at x) ps.
Proof. intros H. eapply Forall_impl; [exact H|]. intros tr (x & Hx & He). exists x. set_solver. Qed.

Lemma good_quiet b0 l r c ps o r' st' :
  good b0 l r c ps -> online st' = online r -> online r' = online r ->
  (forall t, candidateSince r' = Some t -> candidateSince st' = Some t) ->
  (forall t, candidateSince st' = Some t ->
     o_online o = false /\ online r = true /\ (candidateSince (default r c) = Some t \/ t = o_at o)) ->
  (online r = false -> o_online o = false \/ o_stored o = false) ->
  good b0 (l ++ [o]) r' (Some st') ps.
Proof.
  intros [G1 G2 G3 G4 G5 G6] Hst Hr Hdb Hc Hq. split; simpl.
  - split; [congruence|done].
  - intros t Ht. destruct (Hc t Ht) as (Hon & Hr1 & Ho). rewrite Hr. split; [done|].
    destruct Ho as [Ho| ->]; [|by apply fails_since_last]. apply fails_since_snoc; [by apply G2|done].
  - by rewrite Hr.
  - rewrite Hr. intros Hoff tr Htr Hpl. apply fails_since_snoc; [by apply G4|by apply Hq].
  - by apply seen_snoc.
  - intros Hs. destruct (G6 (clock_prefix _ _ Hs)) as [G7 G8]. split; [done|]. intros t Ht.
    destruct (Hc t Ht) as (_ & _ & [Ho| ->]); [by apply G8|by eapply stamps_earlier].
Qed.

Lemma good_commit b0 l r c ps o on pl at_ :
  good b0 l r c ps -> on = negb (online r) -> o_online o = on ->
  at_ = o_at o \/ candidateSince (default r c) = Some at_ ->
  good b0 (l ++ [o]) (MkConnState on None) (Some (MkConnState on None)) (ps ++ [MkTrans on pl at_]).
Proof.
  intros [G1 G2 G3 G4 G5 G6] Hon Hoo Hat. split; simpl; [done|done| | | |].
  - change on with (t_on (MkTrans on pl at_)) at 2. by apply (alternates_snoc _ _ (online r)).
  - intros -> tr. rewrite last_snoc. intros [= <-] _. simpl. destruct Hat as [-> |Hc]; [by apply fails_since_last|].
    apply fails_since_snoc; [|by left]. apply failing_down. by apply G2.
  - apply Forall_app. split; [by apply seen_snoc|]. rewrite Forall_singleton. simpl. destruct Hat as [-> |Hc].
    + exists o. set_solver.
    + destruct (G2 _ Hc) as [_ (l1 & x & l2 & -> & _ & <- & _)]. exists x. set_solver.
  - intros Hs. destruct (G6 (clock_prefix _ _ Hs)) as [G7 G8]. split; [|done]. rewrite fmap_app. simpl.
    apply sorted_snoc. split; [done|]. apply Forall_fmap. destruct Hat as [-> |Hc]; [by eapply stamps_earlier|by apply G8].
Qed.

(** Closes the step of a node that commits nothing, or commits a transition. *)
Ltac close_side :=
  simpl; repeat match goal with H : default _ _ = _ |- _ => rewrite H end; simpl; intros; simplify_eq; try done;
  repeat split; auto; try congruence;
  match goal with G : forall t, candidateSince _ = Some t -> _, H : candidateSince _ = Some _ |- _ => specialize (G _ H); simplify_eq; auto
  | G : forall t, _ = Some t -> _, H : _ = Some _ |- _ => specialize (G _ H); simplify_eq; auto end.
Ltac close_quiet HG := eexists _, _; split; [done|]; rewrite app_nil_r; eapply good_quiet; [exact HG|close_side..].
Ltac close_commit HG := eexists _, _; split; [done|]; eapply good_commit; [exact HG|close_side..].

(** What an observation makes of a node keeps it good. *)
Lemma good_settled b0 l r c ps ts d o :
  good b0 l r c ps -> clears_work o ->
  let new := match (judge d o (default r c)).2 with Some t => [t] | None => [] end in
  exists r' st', settled d o (default r c) (Some r) ps ts =
    (Some r', Some st', ps ++ new, ts ++ if o_fails o (QUptime (o_id o)) then [] else new) /\
    good b0 (l ++ [o]) r' (Some st') (ps ++ new).
Proof.
  intros HG Hclr. pose proof (g_row _ _ _ _ _ HG) as [G1 G2]. pose proof (g_cand _ _ _ _ _ HG) as G3.
  unfold settled, judge, clears_work in *. destruct (default r c) as [on cd] eqn:Hst. simpl in G1, G2, G3. subst on.
  destruct (o_online o) eqn:Hon; simpl.
  - rewrite (Hclr eq_refl), orb_false_r, andb_true_r. destruct r as [[] rc]; simpl in *.
    + destruct cd; simpl; close_quiet HG.
    + destruct (o_stored o) eqn:Hs, cd; simpl; first [close_commit HG|close_quiet HG].
  - destruct r as [[] rc]; simpl in *.
    + destruct (o_urgent o || (d <=? 0)); simpl.
      { destruct (o_stored o) eqn:Hs, cd; simpl; first [close_commit HG|close_quiet HG]. }
      destruct cd as [t|]; simpl.
      * destruct (_ <? d); simpl; [close_quiet HG|]. destruct (o_stored o) eqn:Hs; simpl; first [close_commit HG|close_quiet HG].
      * assert (rc = None) as -> by (destruct rc as [x|]; [by specialize (G2 x eq_refl)|done]).
        destruct (o_fails o (QCandidate (o_id o))); simpl; close_quiet HG.
    + destruct cd as [t|]; simpl; [by destruct (G3 t eq_refl)|]. close_quiet HG.
Qed.

(** ** Runs *)

(** The panel's first start, with the nodes' rows as given. *)
Definition new_conn (ns : gmap Z Node) : Conn := MkConn ns ∅ None [] [].
Definition no_candidates (ns : gmap Z Node) : Prop := forall n r, ns !! n = Some r -> OfflineCandidateSince r = None.

Lemma reads_ok_snoc w hs h :
  reads_ok w (hs ++ [h]) <->
  reads_ok w hs /\ match h with CObserve o => o_id o <> 0 /\ copy_ok (conn_run w hs) o | CRestart => True end.
Proof.
  revert w. induction hs as [|x hs IH]; intros w; simpl; [naive_solver|]. rewrite IH. unfold conn_run. simpl. naive_solver.
Qed.

Lemma obs_of_snoc n hs h :
  obs_of n (hs ++ [h]) =
  obs_of n hs ++ match h with CObserve o => if o_id o =? n then [o] else [] | CRestart => [] end.
Proof. unfold obs_of. rewrite omap_snoc. by destruct h as [o|]; [destruct (o_id o =? n)|]. Qed.

(** The part of a node that [good] speaks of. *)
Lemma effective_part w n r c :
  seed <$> nodes w !! n = Some r -> connStates w !! n = c -> effective w n = Some (default r c).
Proof. unfold effective. intros Hr ->. by destruct c. Qed.

Definition logged_ok (n : Z) (o : observation) : Prop := o_fails o (QUptime n) = false.

Lemma run_good ns hs n r0 :
  no_candidates ns -> ns !! n = Some r0 -> reads_ok (new_conn ns) hs -> Forall clears_work (obs_of n hs) ->
  exists r c ps ts, part (conn_run (new_conn ns) hs) n = (Some r, c, ps, ts) /\
    good (IsOnline r0) (obs_of n hs) r c ps /\ (Forall (logged_ok n) (obs_of n hs) -> ts = ps).
Proof.
  intros Hnc Hr0. induction hs as [|h hs IH] using rev_ind.
  - intros _ _. exists (seed r0), None, [], []. unfold part. simpl. rewrite Hr0. split_and!; [done| |done].
    split; simpl; rewrite ?(Hnc _ _ Hr0); try done; by repeat constructor.
  - rewrite reads_ok_snoc, obs_of_snoc, Forall_app. intros [Hreads Hh] [Hcl Hc].
    destruct (IH Hreads Hcl) as (r & c & ps & ts & Hp & HG & Hl). unfold conn_run in *. rewrite foldl_app. simpl.
    set (w := foldl conn_act (new_conn ns) hs) in *. destruct h as [o|].
    + destruct (Z.eqb_spec (o_id o) n) as [<-|Hne].
      * rewrite Forall_singleton in Hc. destruct Hh as [Hid Hcopy]. destruct (act_part w o Hid Hcopy) as (st & He & Hp').
        unfold part in Hp. injection Hp as H1 H2 H3 H4. rewrite (effective_part _ _ _ _ H1 H2) in He. injection He as <-.
        rewrite H1, H3, H4 in Hp'. destruct (good_settled _ _ _ _ _ ts (debounce_at w o) o HG Hc) as (r' & st' & Hs & HG').
        rewrite Hs in Hp'. eexists _, _, _, _. split; [exact Hp'|]. split; [exact HG'|].
        rewrite Forall_app, Forall_singleton. unfold logged_ok at 2. intros [Hl1 ->]. by rewrite (Hl Hl1).
      * rewrite act_other, app_nil_r by done. by exists r, c, ps, ts.
    + rewrite app_nil_r. unfold part in Hp. injection Hp as H1 H2 H3 H4. exists r, None, ps, ts. split_and!; [|destruct HG|done].
      * unfold part, pubs, timeline in *. simpl. by rewrite H1, H3, H4.
      * destruct g_row0 as [G1 G2]. split; simpl; try done; [by intros t Ht; apply g_cand0, G2|]. intros Hs.
        destruct (g_order0 Hs) as [? G3]. split; [done|]. intros t Ht. by apply G3, G2.
Qed.

(** ** An outage is real, and comes *)

(** What the observation at the end of a run publishes for its node. *)
Lemma run_publishes ns hs o r0 :
  no_candidates ns -> ns !! o_id o = Some r0 -> reads_ok (new_conn ns) (hs ++ [CObserve o]) ->
  Forall clears_work (obs_of (o_id o) hs) ->
  exists r c, good (IsOnline r0) (obs_of (o_id o) hs) r c (pubs (o_id o) (conn_run (new_conn ns) hs)) /\
    seed <$> nodes (conn_run (new_conn ns) hs) !! o_id o = Some r /\ connStates (conn_run (new_conn ns) hs) !! o_id o = c /\
    effective (conn_act (conn_run (new_conn ns) hs) (CObserve o)) (o_id o) =
      Some (judge (debounce_at (conn_run (new_conn ns) hs) o) o (default r c)).1 /\
    pubs (o_id o) (conn_act (conn_run (new_conn ns) hs) (CObserve o)) = pubs (o_id o) (conn_run (new_conn ns) hs) ++
      match (judge (debounce_at (conn_run (new_conn ns) hs) o) o (default r c)).2 with Some t => [t] | None => [] end.
Proof.
  intros Hnc Hr0 [Hreads [Hid Hcopy]]%reads_ok_snoc Hcl. set (w := conn_run (new_conn ns) hs) in *.
  destruct (run_good ns hs (o_id o) r0 Hnc Hr0 Hreads Hcl) as (r & c & ps & ts & Hp & HG & _). fold w in Hp.
  unfold part in Hp. injection Hp as H1 H2 H3 H4. exists r, c. rewrite H3. split_and!; try done.
  all: destruct (act_part w o Hid Hcopy) as (st & He & Hp'); rewrite (effective_part _ _ _ _ H1 H2) in He; injection He as <-.
  all: generalize dependent (conn_act w (CObserve o)); intros w' Hp'.
  all: unfold settled in Hp'; destruct (judge _ _ _) as [st' tr]; unfold part in Hp'; injection Hp' as P1 P2 P3 P4.
  - unfold effective. by rewrite P2.
  - by rewrite P3, H3.
Qed.

(** An offline transition is dated now, or at the start of the failures. *)
Lemma judge_outage d o st tr :
  (judge d o st).2 = Some tr -> t_on tr = false ->
  o_online o = false /\ t_planned tr = o_planned o /\
  (t_at tr = o_at o /\ (o_urgent o = true \/ d <= 0) \/ candidateSince st = Some (t_at tr) /\ d <= o_at o - t_at tr).
Proof.
  unfold judge. destruct (o_stored o), (o_online o), (online st); simpl; try (by intros [= <-]); try done.
  - destruct (o_urgent o || (d <=? 0)) eqn:Hu; simpl.
    + intros [= <-] _. simpl. apply orb_true_iff in Hu as [->|Hd]; split_and!; auto. left. split; [done|right; lia].
    + destruct (candidateSince st) as [t|]; [|done]. destruct (_ <? d) eqn:Hlt; [done|]. intros [= <-] _. simpl.
      split_and!; try done. right. split; [done|lia].
  - destruct (_ || _); [done|]. destruct (candidateSince st) as [t|]; [by destruct (_ <? d)|done].
Qed.

(** C17. An outage that is committed is real: in any run of observations and
    restarts in which the candidate of a node seen online is always cleared from
    its row, an unplanned offline transition of a node says that it was seen
    failing at the time the outage is dated, that every observation since then
    failed, over restarts too, and that this went on for the debounce in force
    (or the panel itself was shutting down). *)
Theorem outage_real (ns : gmap Z Node) (hs : list conn_happening) (o : observation) (r0 : Node)
    (Hnc : no_candidates ns) (Hr0 : ns !! o_id o = Some r0) (Hreads : reads_ok (new_conn ns) (hs ++ [CObserve o]))
    (Hcl : Forall clears_work (obs_of (o_id o) hs)) :
  let w := conn_run (new_conn ns) hs in
  exists new, pubs (o_id o) (conn_act w (CObserve o)) = pubs (o_id o) w ++ new /\ (length new <= 1)%nat /\
  forall tr, tr ∈ new -> t_on tr = false -> t_planned tr = false ->
    failing (t_at tr) (obs_of (o_id o) hs ++ [o]) /\
    (o_reason o = NodeOfflineReasonHubShutdown \/ debounce_at w o <= o_at o - t_at tr).
Proof.
  intros w. destruct (run_publishes ns hs o r0 Hnc Hr0 Hreads Hcl) as (r & c & HG & _ & _ & _ & Hp). fold w in HG, Hp.
  eexists. split; [exact Hp|]. split; [by destruct (judge _ _ _).2; simpl; lia|]. intros tr Htr Hon Hpl.
  destruct (judge _ _ _).2 as [tr'|] eqn:Hj in Htr; [|by apply elem_of_nil in Htr]. apply list_elem_of_singleton in Htr as ->.
  destruct (judge_outage _ _ _ _ Hj Hon) as (Hoo & Hp' & [[-> Hu]|[Hc Hd]]).
  - split; [by apply fails_since_last|]. unfold o_urgent in Hu. rewrite <-Hp', Hpl in Hu.
    destruct Hu as [Hu%bool_decide_eq_true|Hu]; [by left|right; lia].
  - split; [|by right]. apply fails_since_snoc; [by eapply g_cand|done].
Qed.

(** The timeline of a node is exact: under the same conditions, the
    transitions published for it alternate, beginning from the state its row had
    and ending in the one it has; if no insert into the timeline failed they are
    the timeline, row by row; and if the clock advances between the node's
    observations they are in the order of their times. *)
Theorem timeline_exact (ns : gmap Z Node) (hs : list conn_happening) (n : Z) (r0 : Node)
    (Hnc : no_candidates ns) (Hr0 : ns !! n = Some r0) (Hreads : reads_ok (new_conn ns) hs)
    (Hcl : Forall clears_work (obs_of n hs)) :
  let w := conn_run (new_conn ns) hs in
  exists r, nodes w !! n = Some r /\ alternates (IsOnline r0) (pubs n w) (IsOnline r) /\
  (Forall (logged_ok n) (obs_of n hs) -> timeline n w = pubs n w) /\
  (StronglySorted Z.lt (o_at <$> obs_of n hs) -> StronglySorted Z.lt (t_at <$> pubs n w)).
Proof.
  intros w. destruct (run_good ns hs n r0 Hnc Hr0 Hreads Hcl) as (r & c & ps & ts & Hp & HG & Hl). fold w in Hp.
  unfold part in Hp. injection Hp as H1 H2 H3 H4. destruct (nodes w !! n) as [row|]; [|done]. injection H1 as <-.
  exists row. rewrite H3, H4. split_and!; [done|by eapply g_alt in HG|done|]. intros Hs. by eapply g_order in HG as [? _].
Qed.

(** Since when a node has been failing. *)
Definition trailing (acc : option Z) (o : observation) : option Z :=
  if o_online o then None else match acc with Some t => Some t | None => Some (o_at o) end.
Definition failing_since (l : list observation) : option Z := foldl trailing None l.

Lemma failing_since_snoc l o : failing_since (l ++ [o]) = trailing (failing_since l) o.
Proof. unfold failing_since. by rewrite foldl_app. Qed.

(** Every statement on the node's row works. *)
Definition row_works (n : Z) (o : observation) : Prop := o_fails o (QUpdate n) = false /\ o_fails o (QCandidate n) = false.

Lemma settled_exact d o r l ps ts :
  row_works (o_id o) o -> candidateSince r = (if online r then failing_since l else None) ->
  exists r', settled d o r (Some r) ps ts =
    (Some r', Some r', ps ++ match (judge d o r).2 with Some t => [t] | None => [] end,
     ts ++ if o_fails o (QUptime (o_id o)) then [] else match (judge d o r).2 with Some t => [t] | None => [] end) /\
    candidateSince r' = (if online r' then failing_since (l ++ [o]) else None) /\
    online r' = if o_online o then true else
      online r && negb (o_urgent o || (d <=? 0) || (d <=? o_at o - default (o_at o) (failing_since (l ++ [o])))).
Proof.
  intros [Hu Hc] Hr. unfold settled, judge, o_stored. rewrite failing_since_snoc, Hu, Hc. unfold trailing. simpl.
  destruct r as [[] cd]; simpl in *; subst cd; destruct (o_online o); simpl.
  - exists (MkConnState true None). split; [by destruct (failing_since l)|done].
  - destruct (o_urgent o); simpl; [exists (MkConnState false None); by destruct (failing_since l)|].
    destruct (d <=? 0) eqn:Hd; simpl; [exists (MkConnState false None); by destruct (failing_since l)|].
    destruct (failing_since l) as [t|] eqn:Hl; simpl.
    + rewrite Z.leb_antisym. destruct (_ <? d); simpl; by eexists.
    + eexists. split; [done|]. simpl. split; [done|]. lia.
  - by eexists.
  - by eexists.
Qed.

Lemma run_exact ns hs n r0 :
  no_candidates ns -> ns !! n = Some r0 -> reads_ok (new_conn ns) hs -> Forall (row_works n) (obs_of n hs) ->
  exists r c ps ts, part (conn_run (new_conn ns) hs) n = (Some r, c, ps, ts) /\ default r c = r /\
    candidateSince r = (if online r then failing_since (obs_of n hs) else None).
Proof.
  intros Hnc Hr0. induction hs as [|h hs IH] using rev_ind.
  - intros _ _. exists (seed r0), None, [], []. unfold part. simpl. rewrite Hr0. split_and!; [done..|].
    unfold seed. simpl. rewrite (Hnc _ _ Hr0). by destruct (IsOnline r0).
  - rewrite reads_ok_snoc, obs_of_snoc, Forall_app. intros [Hreads Hh] [Hw Ho].
    destruct (IH Hreads Hw) as (r & c & ps & ts & Hp & Hc & Hr). unfold conn_run in *. rewrite foldl_app. simpl.
    set (w := foldl conn_act (new_conn ns) hs) in *. destruct h as [o|].
    + destruct (Z.eqb_spec (o_id o) n) as [<-|Hne].
      * rewrite Forall_singleton in Ho. destruct Hh as [Hid Hcopy]. destruct (act_part w o Hid Hcopy) as (st & He & Hp').
        unfold part in Hp. injection Hp as H1 H2 H3 H4. rewrite (effective_part _ _ _ _ H1 H2), Hc in He. injection He as <-.
        rewrite H1, H3, H4 in Hp'. destruct (settled_exact (debounce_at w o) o r (obs_of (o_id o) hs) ps ts Ho Hr) as (r' & Hs & Hr' & _).
        rewrite Hs in Hp'. by eexists _, _, _, _.
      * rewrite act_other, app_nil_r by done. by exists r, c, ps, ts.
    + rewrite app_nil_r. unfold part in Hp. injection Hp as H1 H2 H3 H4. exists r, None, ps, ts. split_and!; [|done..].
      unfold part, pubs, timeline in *. simpl. by rewrite H1, H3, H4.
Qed.

(** The debouncer is exact: in any run of observations and restarts in which
    the statements on a node's row work, after an observation the row says online
    if the node was seen online; else it says offline if it did before, if the
    reason is planned or the panel's shutdown, if there is no debounce, or if the
    node has been failing, counted from its first failure since it was last seen
    online, for the debounce in force; else it still says online. *)
Theorem debounce_exact (ns : gmap Z Node) (hs : list conn_happening) (o : observation) (r0 : Node)
    (Hnc : no_candidates ns) (Hr0 : ns !! o_id o = Some r0) (Hreads : reads_ok (new_conn ns) (hs ++ [CObserve o]))
    (Hw : Forall (row_works (o_id o)) (obs_of (o_id o) hs ++ [o])) :
  let w := conn_run (new_conn ns) hs in
  let d := debounce_at w o in
  exists r r', nodes w !! o_id o = Some r /\ nodes (conn_act w (CObserve o)) !! o_id o = Some r' /\
  IsOnline r' = if o_online o then true else
    IsOnline r && negb (o_urgent o || (d <=? 0) ||
      (d <=? o_at o - default (o_at o) (failing_since (obs_of (o_id o) hs ++ [o])))).
Proof.
  intros w d. apply reads_ok_snoc in Hreads as [Hreads [Hid Hcopy]]. apply Forall_app in Hw as [Hw Ho].
  rewrite Forall_singleton in Ho. destruct (run_exact ns hs (o_id o) r0 Hnc Hr0 Hreads Hw) as (r & c & ps & ts & Hp & Hc & Hr).
  fold w in Hp, Hcopy. unfold part in Hp. injection Hp as H1 H2 H3 H4. destruct (act_part w o Hid Hcopy) as (st & He & Hp').
  rewrite (effective_part _ _ _ _ H1 H2), Hc in He. injection He as <-. rewrite H1, H3, H4 in Hp'.
  destruct (settled_exact (debounce_at w o) o r (obs_of (o_id o) hs) ps ts Ho Hr) as (r' & Hs & _ & Hon).
  rewrite Hs in Hp'. unfold part in Hp'. generalize dependent (conn_act w (CObserve o)). intros w' Hp'. injection Hp' as P1 _ _ _.
  destruct (nodes w !! o_id o) as [row|]; [|done]. injection H1 as <-. destruct (nodes w' !! o_id o) as [row'|]; [|done].
  injection P1 as <-. exists row, row'. by split_and!.
Qed.

(** ** Examples *)

Definition works : conn_stmt -> bool := fun _ => false.
Definition a_node : Node := MkNode 1 "n" "192.0.2.1" true None None None "" None.
Definition some_nodes : gmap Z Node := {[ 1 := a_node ]}.
Definition seen (at_ : Z) (fails : conn_stmt -> bool) (on : bool) (reason : string) : observation :=
  MkObs at_ fails (Some "30") a_node on reason "".
(** A failure, a restart in its debounce, and failures for 40 seconds. *)
Definition an_outage : list conn_happening :=
  [CObserve (seen (sec 100) works false "agent_unreachable"); CRestart].
Definition the_end : observation :=
  MkObs (sec 140) works (Some "30") (MkNode 1 "n" "192.0.2.1" true None None None "" (Some (sec 100))) false "heartbeat_timeout" "".

Lemma no_candidates_yet : no_candidates some_nodes.
Proof. intros n r. unfold some_nodes. rewrite lookup_singleton_Some. by intros [_ <-]. Qed.

Lemma outage_reads : reads_ok (new_conn some_nodes) (an_outage ++ [CObserve the_end]).
Proof. simpl. split_and!; try done; intros _; eexists; (split; [by vm_compute|done]). Qed.

Lemma outage_real_witness :
  exists tr, pubs 1 (conn_act (conn_run (new_conn some_nodes) an_outage) (CObserve the_end)) = [tr] /\
    t_at tr = sec 100 /\ failing (sec 100) (obs_of 1 an_outage ++ [the_end]).
Proof.
  destruct (outage_real some_nodes an_outage the_end a_node no_candidates_yet eq_refl outage_reads ltac:(by repeat constructor))
    as (new & Hp & _ & Hreal).
  assert (new = [MkTrans false false (sec 100)]) as ->.
  { replace (pubs (o_id the_end) (conn_run (new_conn some_nodes) an_outage)) with (@nil transition) in Hp by (by vm_compute).
    simpl in Hp. rewrite <-Hp. by vm_compute. }
  exists (MkTrans false false (sec 100)). split; [by vm_compute|]. split; [done|].
  by apply (Hreal (MkTrans false false (sec 100))); [left|..].
Defined.

Lemma timeline_exact_witness :
  exists r, nodes (conn_run (new_conn some_nodes) (an_outage ++ [CObserve the_end])) !! 1 = Some r /\ IsOnline r = false /\
    timeline 1 (conn_run (new_conn some_nodes) (an_outage ++ [CObserve the_end])) = [MkTrans false false (sec 100)].
Proof.
  destruct (timeline_exact some_nodes (an_outage ++ [CObserve the_end]) 1 a_node no_candidates_yet eq_refl outage_reads
    ltac:(by repeat constructor)) as (r & Hr & Ha & Ht & _).
  exists r. split; [done|]. split; [|by vm_compute]. assert (pubs 1 (conn_run (new_conn some_nodes) (an_outage ++ [CObserve the_end]))
    = [MkTrans false false (sec 100)]) as Hp by (by vm_compute). rewrite Hp in Ha. by destruct Ha.
Defined.

Lemma debounce_exact_witness :
  exists r', nodes (conn_act (conn_run (new_conn some_nodes) an_outage) (CObserve the_end)) !! 1 = Some r' /\ IsOnline r' = false.
Proof.
  destruct (debounce_exact some_nodes an_outage the_end a_node no_candidates_yet eq_refl outage_reads
    ltac:(by repeat constructor)) as (r & r' & _ & Hr' & Hon).
  exists r'. split; [done|]. rewrite Hon. simpl. apply andb_false_r.
Defined.

(** A node fails once, is seen online again when its candidate cannot be cleared
    from its row, and the panel restarts. *)
Definition uncleared : list conn_happening :=
  [CObserve (seen (sec 100) works false "agent_unreachable");
   CObserve (seen (sec 105) (fun q => match q with QCandidate _ => true | _ => false end) true "agent_reachable"); CRestart].
Definition next_failure : observation :=
  MkObs (sec 3700) works (Some "30") (MkNode 1 "n" "192.0.2.1" true None None None "" (Some (sec 100))) false "agent_unreachable" "".

(** The candidate left in the row dates a false outage: after the restart the
    first failure, an hour after the node was seen online, commits at once an
    outage dated before that. *)
Theorem stale_candidate_outage :
  reads_ok (new_conn some_nodes) (uncleared ++ [CObserve next_failure]) /\
  timeline 1 (conn_run (new_conn some_nodes) (uncleared ++ [CObserve next_failure])) = [MkTrans false false (sec 100)] /\
  ~ failing (sec 100) (obs_of 1 (uncleared ++ [CObserve next_failure])).
Proof.
  split_and!; [|by vm_compute|].
  - simpl. split_and!; try done; intros He; try (vm_compute in He; done); eexists; (split; [by vm_compute|done]).
  - intros (l1 & x & l2 & Hl & Hx & Ht & Hf). simpl in Hl.
    destruct l1 as [|? [|? [|? [|]]]]; simplify_list_eq; try done. by inversion Hf.
Qed.
