(* ===== verification/NodeAlerts.v ===== *)
(** * From observations to alerts

    The connectivity writer of [NodeConn] and the alert engine of [AlertEngine],
    joined as the panel joins them: what the writer publishes the engine handles,
    in order, and a restart of the panel restarts both. An alert that a node is
    offline is traced back to what the detectors saw ([alert_means_down]).

    The bus between the two is taken to deliver: [EventBus] has what it does
    when a subscriber falls behind. *)

From S2P Require Import Prelude AlertEngine AlertRuns AlertTruth NodeConn.

(** ** The panel *)

(** An observation, with the engine's statements that fail in handling what it
    publishes; something else that happens to the engine; a restart. *)
Inductive panel_happening :=
| PObserve (o : observation) (fails : alert_stmt -> bool)
| POther (h : happening)
| PRestart (now : Z) (fails : alert_stmt -> bool).

Record Panel := MkPanel { p_conn : Conn; p_alerts : World }.

Definition conn_of (h : panel_happening) : option conn_happening :=
  match h with PObserve o _ => Some (CObserve o) | PRestart _ _ => Some CRestart | POther _ => None end.

(** What happens to the engine: the events published by the writer, and the rest. *)
Definition alerts_from (c : Conn) (h : panel_happening) : list happening :=
  match h with
  | PObserve o fails =>
      (fun te => MkHap te.1 fails (AEvent te.2)) <$> drop (length (published c)) (published (conn_act c (CObserve o)))
  | POther h => [h]
  | PRestart now fails => [MkHap now fails ARestart]
  end.

Definition panel_act (p : Panel) (h : panel_happening) : Panel :=
  MkPanel (match conn_of h with Some ch => conn_act (p_conn p) ch | None => p_conn p end)
    (foldl act (p_alerts p) (alerts_from (p_conn p) h)).
Definition panel_run (p : Panel) (hs : list panel_happening) : Panel := foldl panel_act p hs.

Definition new_panel (ns : gmap Z Node) (t0 : Z) (rs : list Rule) : Panel := MkPanel (new_conn ns) (fresh t0 rs).

Definition conn_hist (hs : list panel_happening) : list conn_happening := omap conn_of hs.

(** Nothing but the writer publishes that a node is online or offline. *)
Definition other_ok (h : happening) : bool :=
  match h_act h with AEvent (EvNodeOnline _) | AEvent (EvNodeOffline _) | ARestart => false | _ => true end.

Definition panel_ok (c : Z -> Z * RuleType) (h : panel_happening) : Prop :=
  match h with
  | PObserve o fails => db_ok fails /\ clears_work o
  | POther h => h_ok c h /\ other_ok h = true
  | PRestart _ fails => db_ok fails
  end.

Lemma act_published w o :
  published (conn_act w (CObserve o)) = published w \/
  exists e, published (conn_act w (CObserve o)) = published w ++ [(o_at o, e)].
Proof.
  assert (forall on reason detail at_ w', published w' = published w ->
    published (commitTransition (o_fails o) (o_at o) (o_node o) on reason detail at_ w').2 = published w \/
    exists e, published (commitTransition (o_fails o) (o_at o) (o_node o) on reason detail at_ w').2 = published w ++ [(o_at o, e)]) as Hc.
  { intros on reason detail at_ w' <-. unfold commitTransition, UpdateNodeConnectivity, CreateUptimeEvent.
    destruct (o_fails o (QUpdate _)); [by left|]. right. destruct (o_fails o (QUptime _)); by eexists. }
  unfold conn_act, ObserveNodeHealth. destruct (_ =? 0); [by left|].
  assert (published (connStateFor (o_node o) w).2 = published w) as Hw by (unfold connStateFor; by case_match).
  destruct (connStateFor (o_node o) w) as [st w1]. simpl in Hw |- *. destruct (o_online o); simpl.
  - unfold observeOnline, SetOfflineCandidate. repeat case_match; try (by left); by apply Hc.
  - unfold observeOffline. case_match; [by left|]. case_match; [by apply Hc|].
    pose proof (debounce_frame (o_at o) (o_setting o) w1) as (_ & _ & _ & Hd). destruct (offlineDebounce _ _ w1) as [d w2].
    simpl in Hd. case_match; [by apply Hc; congruence|]. unfold SetOfflineCandidate.
    repeat case_match; simpl; try (left; congruence). apply Hc. congruence.
Qed.

(** ** The two histories *)

Fixpoint alert_hist (c : Conn) (hs : list panel_happening) : list happening :=
  match hs with
  | [] => []
  | h :: hs => alerts_from c h ++ alert_hist (match conn_of h with Some ch => conn_act c ch | None => c end) hs
  end.

Lemma panel_parts p hs :
  p_conn (panel_run p hs) = conn_run (p_conn p) (conn_hist hs) /\
  p_alerts (panel_run p hs) = run (p_alerts p) (alert_hist (p_conn p) hs).
Proof.
  unfold panel_run, conn_run, run, conn_hist. revert p. induction hs as [|h hs IH]; intros p; [done|]. simpl.
  destruct (IH (panel_act p h)) as [-> ->]. simpl. rewrite foldl_app. split; [|done]. by destruct (conn_of h).
Qed.

Lemma alert_hist_snoc c hs h : alert_hist c (hs ++ [h]) = alert_hist c hs ++ alerts_from (conn_run c (conn_hist hs)) h.
Proof.
  revert c. induction hs as [|x hs IH]; intros c; simpl; [by rewrite app_nil_r|]. rewrite IH, app_assoc. do 2 f_equal.
  unfold conn_run, conn_hist. simpl. by destruct (conn_of x).
Qed.

Lemma conn_hist_snoc hs h : conn_hist (hs ++ [h]) = conn_hist hs ++ match conn_of h with Some ch => [ch] | None => [] end.
Proof. apply omap_snoc. Qed.

(** At most one thing happens to the engine at a time. *)
Definition p_at (h : panel_happening) : Z :=
  match h with PObserve o _ => o_at o | POther h => h_at h | PRestart now _ => now end.

Lemma alerts_one c h : alerts_from c h = [] \/ exists x, alerts_from c h = [x] /\ h_at x = p_at h.
Proof.
  destruct h as [o f|h|now f]; simpl; [|by right; eexists..]. destruct (act_published c o) as [H|[e H]]; simpl in H; rewrite H.
  - left. by rewrite drop_all.
  - right. rewrite drop_app_length. by eexists.
Qed.

Lemma alerts_ok c k h : panel_ok k h -> Forall (h_ok k) (alerts_from c h).
Proof.
  destruct h as [o f|h|now f]; simpl.
  - intros [Hdb _]. apply Forall_fmap, Forall_forall. intros te _. by split.
  - intros [? _]. by rewrite Forall_singleton.
  - intros Hdb. rewrite Forall_singleton. by split.
Qed.

(** ** What the engine knows is what the writer committed *)

Lemma alternates_end b ps e e' : alternates b ps e -> alternates b ps e' -> e = e'.
Proof. revert b. induction ps as [|tr ps IH]; simpl; intros b; [congruence|]. intros [_ ?] [_ ?]. by eapply IH. Qed.

Lemma alternates_unsnoc b ps tr e : alternates b (ps ++ [tr]) e -> alternates b ps (negb (t_on tr)) /\ e = t_on tr.
Proof.
  revert b. induction ps as [|x ps IH]; simpl; intros b; [by intros [-> <-]; rewrite negb_involutive|].
  intros [? ?]. split; [|by eapply IH]. split; [done|]. by eapply IH.
Qed.

(** What an event of a node does to the engine's knowledge, as a transition. *)
Lemma outage_event n ou at_ f te :
  outage n ou (MkHap at_ f (AEvent te)) =
  match published_trans n (at_, te) with
  | Some tr => if t_on tr then None else if t_planned tr then None else match ou with Some t => Some t | None => Some (t_at tr) end
  | None => match te with
            | EvNodeDeleted id => if id =? n then None else ou
            | EvNodeUpdated id planned => if planned && (id =? n) then None else ou
            | _ => ou
            end
  end.
Proof. destruct te; unfold outage, published_trans; simpl; try done; by destruct (_ =? n). Qed.

Section truth.
Context (k : Z -> Z * RuleType) (ns : gmap Z Node) (n : Z) (r0 : Node).
Context (Hnc : no_candidates ns) (Hr0 : ns !! n = Some r0).

(** The writer's state and the engine's knowledge of a node's outage. *)
Definition agrees (c : Conn) (ou : option Z) : Prop :=
  forall t, ou = Some t ->
  exists row tr, nodes c !! n = Some row /\ IsOnline row = false /\ last (pubs n c) = Some tr /\ t_planned tr = false /\ t_at tr = t.

Lemma good_at hs :
  reads_ok (new_conn ns) (conn_hist hs) -> Forall (panel_ok k) hs ->
  let c := conn_run (new_conn ns) (conn_hist hs) in
  exists row st, nodes c !! n = Some row /\ good (IsOnline r0) (obs_of n (conn_hist hs)) (seed row) st (pubs n c).
Proof.
  intros Hreads Hok c. destruct (run_good ns (conn_hist hs) n r0 Hnc Hr0 Hreads) as (r & st & ps & ts & Hp & HG & _).
  - apply Forall_forall. intros o Ho. unfold obs_of, conn_hist in Ho. apply list_elem_of_omap in Ho as (ch & Hch & Ho).
    apply list_elem_of_omap in Hch as (h & Hh & Hch). rewrite Forall_forall in Hok. specialize (Hok h Hh).
    destruct h; simplify_eq/=. destruct (_ =? n); [|done]. injection Ho as <-. apply Hok.
  - fold c in Hp. unfold part in Hp. injection Hp as H1 H2 H3 H4. destruct (nodes c !! n) as [row|]; [|done]. injection H1 as <-.
    exists row, st. by rewrite H3.
Qed.

(** A step that publishes nothing for the node, and one that publishes. *)
Lemma same_pubs c c' row row' l st l' st' ou :
  nodes c !! n = Some row -> good (IsOnline r0) l (seed row) st (pubs n c) ->
  nodes c' !! n = Some row' -> good (IsOnline r0) l' (seed row') st' (pubs n c') ->
  pubs n c' = pubs n c -> agrees c ou -> agrees c' ou.
Proof.
  intros H1 G1 H2 G2 Hp Ha t Ht. destruct (Ha t Ht) as (x & tr & Hx & Hon & Hl & ? & ?). simplify_eq.
  exists row', tr. rewrite Hp in *. split_and!; try done. rewrite <-Hon.
  apply (alternates_end _ _ _ _ (g_alt _ _ _ _ _ G2) (g_alt _ _ _ _ _ G1)).
Qed.

Lemma next_pub c c' row row' tr l st l' st' ou :
  nodes c !! n = Some row -> good (IsOnline r0) l (seed row) st (pubs n c) ->
  nodes c' !! n = Some row' -> good (IsOnline r0) l' (seed row') st' (pubs n c') ->
  pubs n c' = pubs n c ++ [tr] -> agrees c ou ->
  agrees c' (if t_on tr then None else if t_planned tr then None else match ou with Some t => Some t | None => Some (t_at tr) end).
Proof.
  intros H1 G1 H2 G2 Hp Ha t. rewrite Hp in G2. destruct (alternates_unsnoc _ _ _ _ (g_alt _ _ _ _ _ G2)) as [Halt Hend].
  pose proof (alternates_end _ _ _ _ (g_alt _ _ _ _ _ G1) Halt) as Hon. destruct (t_on tr) eqn:Ht; [done|].
  destruct (t_planned tr) eqn:Hpl; [done|]. destruct ou as [t'|].
  - destruct (Ha t' eq_refl) as (x & ? & Hx & Hoff & _). simplify_eq. simpl in Hon. congruence.
  - intros [= <-]. exists row', tr. rewrite Hp, last_snoc. by split_and!.
Qed.

Lemma knowledge_agrees hs :
  reads_ok (new_conn ns) (conn_hist hs) -> Forall (panel_ok k) hs ->
  agrees (conn_run (new_conn ns) (conn_hist hs)) (outage_after (alert_hist (new_conn ns) hs) n).
Proof.
  induction hs as [|h hs IH] using rev_ind; intros Hreads Hok; [by intros t|].
  pose proof (good_at (hs ++ [h]) Hreads Hok) as (row' & st' & Hrow' & HG'). revert Hreads.
  rewrite conn_hist_snoc, alert_hist_snoc. intros Hreads. apply Forall_app in Hok as [Hok Hh]. rewrite Forall_singleton in Hh.
  assert (reads_ok (new_conn ns) (conn_hist hs)) as Hr.
  { destruct (conn_of h); [by apply reads_ok_snoc in Hreads as [? _]|by rewrite app_nil_r in Hreads]. }
  specialize (IH Hr Hok). destruct (good_at hs Hr Hok) as (row & st & Hrow & HG). rewrite conn_hist_snoc in Hrow', HG'.
  unfold conn_run, outage_after in *. rewrite !foldl_app in *. set (c := foldl conn_act (new_conn ns) (conn_hist hs)) in *.
  set (ou := foldl (outage n) None _) in *. destruct h as [o f|h|now f]; cbn [conn_of foldl alerts_from] in *.
  - destruct (act_published c o) as [Hp|[e Hp]].
    + rewrite Hp, drop_all. eapply (same_pubs c _ row row'); try done. unfold pubs. by rewrite Hp.
    + rewrite Hp, drop_app_length. cbn [fmap list_fmap foldl fst snd]. rewrite outage_event. assert (pubs n (conn_act c (CObserve o)) =
        pubs n c ++ match published_trans n (o_at o, e) with Some tr => [tr] | None => [] end) as Hps
        by (unfold pubs; by rewrite Hp, omap_snoc).
      destruct (published_trans n (o_at o, e)) as [tr|]; [by eapply (next_pub c _ row row' tr)|]. rewrite app_nil_r in Hps.
      assert (agrees (conn_act c (CObserve o)) ou) by (by eapply (same_pubs c _ row row')). destruct e; try done; by case_match.
  - destruct Hh as [_ Ho]. destruct h as [at_ f a]. unfold other_ok, outage in *. simpl in *. destruct a as [ev| | |]; try done.
    destruct ev; try done; by case_match.
  - by intros t.
Qed.
End truth.

(** ** An alert means that the node is down *)


(** Node 7 fails at 200 s and 240 s, with a debounce of 30 s; the tick at 270 s
    finds its outage, of 70 s, over the rule's 60 s. *)
Definition node7 : Node := MkNode 7 "fra" "192.0.2.7" true None None None "" None.
Definition fail7 (t : Z) : panel_happening := PObserve (MkObs (sec t) works (Some "30") node7 false "agent_unreachable" "") demo_ok.

