(* ===== verification/PanelRuns.v ===== *)
(** * The panel's own runs

    The rows that bracket each run of the panel, of
    internal/node/usecase/node_connectivity.go ([OpenHubLifecycle], its liveness
    stamps, [Close], [GetHubGaps]) and
    internal/node/repository/node_connectivity_repository.go. A window in which no
    run was active is a gap: nothing watched the nodes.

    A run that is killed is closed at most one stamp too early ([lives_recorded]).
    Theorem: over any lives of the panel the gaps reported are the times it was not
    running, but for that stamp and for seams under a second ([gaps_true]). *)

From S2P Require Import Prelude AlertEngine.

(** A half-open window. *)
Record TimeWindow := MkWindow { From : Z; To : Z }.

Record HubLifecycleEvent := MkHubRun {
  hr_ID : Z; StartedAt : Z; StoppedAt : option Z; LastAliveAt : option Z; Version : string
}.

Definition hubAliveInterval : Z := sec 30.
Definition minHubGap : Z := sec 1.
Definition dayNs : Z := sec 86400.

(** ** The repository *)

(** The rows, and the last id given. *)
Record RunTable := MkRuns { runs : list HubLifecycleEvent; lastID : Z }.

Inductive run_stmt := QCreate | QTouch | QClose | QStale.

Definition set_stopped (at_ : Z) (r : HubLifecycleEvent) : HubLifecycleEvent :=
  MkHubRun (hr_ID r) (StartedAt r) (Some at_) (LastAliveAt r) (Version r).
Definition set_alive (at_ : Z) (r : HubLifecycleEvent) : HubLifecycleEvent :=
  MkHubRun (hr_ID r) (StartedAt r) (StoppedAt r) (Some at_) (Version r).
Definition is_open (r : HubLifecycleEvent) : bool := match StoppedAt r with None => true | Some _ => false end.

Section repository.
Context (fails : run_stmt -> bool).

(** The id given to the row, 0 if the insert failed. *)
Definition CreateHubLifecycleEvent (started : Z) (alive : option Z) (version : string) (t : RunTable) : Z * RunTable :=
  if fails QCreate then (0, t) else
  let id := lastID t + 1 in
  (id, MkRuns (runs t ++ [MkHubRun id started None alive version]) id).

Definition update_open (id : Z) (f : HubLifecycleEvent -> HubLifecycleEvent) (t : RunTable) : RunTable :=
  MkRuns ((fun r => if (hr_ID r =? id) && is_open r then f r else r) <$> runs t) (lastID t).

Definition TouchHubLifecycleEvent (id at_ : Z) (t : RunTable) : RunTable :=
  if fails QTouch then t else update_open id (set_alive at_) t.

Definition CloseHubLifecycleEvent (id at_ : Z) (t : RunTable) : RunTable :=
  if fails QClose then t else update_open id (set_stopped at_) t.

Definition CloseStaleHubLifecycleEvents (at_ : Z) (t : RunTable) : RunTable :=
  if fails QStale then t else
  MkRuns ((fun r => if is_open r then set_stopped (default at_ (LastAliveAt r)) r else r) <$> runs t) (lastID t).
End repository.

Definition runs_into (since : Z) (r : HubLifecycleEvent) : bool :=
  match StoppedAt r with None => true | Some e => since <=? e end.
Definition GetHubLifecycleEvents (since : Z) (t : RunTable) : list HubLifecycleEvent :=
  sort_on StartedAt (filter (fun r => runs_into since r = true) (runs t)).

(** [None] is the zero time. *)
Definition FirstHubLifecycleStart (t : RunTable) : option Z := StartedAt <$> head (sort_on StartedAt (runs t)).

Definition CleanupOldHubLifecycleEvents (now olderThanDays : Z) (t : RunTable) : RunTable :=
  let cutoff := now - olderThanDays * dayNs in
  MkRuns (filter (fun r => ~ (StartedAt r < cutoff /\ is_open r = false)) (runs t)) (lastID t).

(** ** A run *)

(** [eventID] is 0 when the run has no row, or was closed; [stop] is whether its
    stamping goroutine is there to be stopped. *)
Record HubLifecycle := MkLife { eventID : Z; stop : bool }.

Section life.
Context (fails : run_stmt -> bool) (now : Z).

Definition OpenHubLifecycle (version : string) (t : RunTable) : HubLifecycle * RunTable :=
  let t := CloseStaleHubLifecycleEvents fails now t in
  let '(id, t) := CreateHubLifecycleEvent fails now (Some now) version t in
  if id =? 0 then (MkLife 0 false, t) else (MkLife id true, t).

(** One tick of the stamping goroutine. *)
Definition keepAlive (h : HubLifecycle) (t : RunTable) : RunTable :=
  if negb (stop h) || (eventID h =? 0) then t else TouchHubLifecycleEvent fails (eventID h) now t.

Definition Close (h : HubLifecycle) (t : RunTable) : HubLifecycle * RunTable :=
  let id := eventID h in
  (MkLife 0 false, if id =? 0 then t else CloseHubLifecycleEvent fails id now t).
End life.

(** ** Gaps *)

Definition run_end (now : Z) (r : HubLifecycleEvent) : Z := default now (StoppedAt r).

Definition gap_step (now : Z) (acc : list TimeWindow * Z) (r : HubLifecycleEvent) : list TimeWindow * Z :=
  let '(gaps, cursor) := acc in
  let gaps := if minHubGap <=? StartedAt r - cursor then gaps ++ [MkWindow cursor (StartedAt r)] else gaps in
  (gaps, if cursor <? run_end now r then run_end now r else cursor).

Definition GetHubGaps (now since : Z) (t : RunTable) : list TimeWindow :=
  match FirstHubLifecycleStart t with
  | None => []
  | Some first =>
      let cursor := if since <? first then first else since in
      let '(gaps, cursor) := foldl (gap_step now) ([], cursor) (GetHubLifecycleEvents since t) in
      if minHubGap <=? now - cursor then gaps ++ [MkWindow cursor now] else gaps
  end.

(** ** The gaps are exact *)

Definition in_windows (ws : list TimeWindow) (x : Z) : Prop := exists w, w ∈ ws /\ From w <= x < To w.
Definition covers (now : Z) (r : HubLifecycleEvent) (x : Z) : Prop := StartedAt r <= x < run_end now r.
(** Some run was active. *)
Definition watched (now : Z) (rs : list HubLifecycleEvent) (x : Z) : Prop := exists r, r ∈ rs /\ covers now r x.

(** A run starts before it ends, and before now. *)
Definition run_ok (now : Z) (r : HubLifecycleEvent) : Prop := StartedAt r <= now /\ StartedAt r <= run_end now r <= now.

(** A seam: less than a second from the start of the window, or the end of a
    run, to the start of a run, or now. *)
Definition seam (now c0 : Z) (rs : list HubLifecycleEvent) (x : Z) : Prop :=
  exists a b, a <= x < b /\ b - a < minHubGap /\
    (a = c0 \/ exists r, r ∈ rs /\ run_end now r = a) /\ (b = now \/ exists r, r ∈ rs /\ StartedAt r = b).

Lemma in_windows_snoc ws w x : in_windows (ws ++ [w]) x <-> in_windows ws x \/ From w <= x < To w.
Proof.
  unfold in_windows. split.
  - intros (v & [Hv|Hv%list_elem_of_singleton]%elem_of_app & Hx); [left; by exists v|right; by subst].
  - intros [(v & Hv & Hx)|Hx]; [exists v|exists w]; set_solver.
Qed.

Definition long (w : TimeWindow) : Prop := minHubGap <= To w - From w.
Definition before (v w : TimeWindow) : Prop := To v <= From w.

(** What the walk has found after the runs [done_], with [todo] to come. *)
Record walked (now c0 : Z) (done_ todo : list HubLifecycleEvent) (gaps : list TimeWindow) (cursor : Z) : Prop := MkWalked {
  wk_cursor : c0 <= cursor /\ (cursor = c0 \/ exists r, r ∈ done_ /\ run_end now r = cursor) /\
              Forall (fun r => run_end now r <= cursor) done_;
  wk_gaps : StronglySorted before gaps /\ Forall (fun w => c0 <= From w /\ To w <= cursor /\ long w) gaps;
  wk_free : forall x, in_windows gaps x -> ~ watched now (done_ ++ todo) x;
  wk_full : forall x, c0 <= x < cursor -> in_windows gaps x \/ watched now done_ x \/ seam now c0 done_ x
}.

Lemma sorted_snoc_before ws w : StronglySorted before ws -> Forall (fun v => before v w) ws -> StronglySorted before (ws ++ [w]).
Proof.
  intros Hs Hw. apply StronglySorted_app. rewrite Forall_forall in Hw. split_and!; [|done|by repeat constructor].
  intros v u Hv ->%list_elem_of_singleton. by apply Hw.
Qed.

Lemma seam_mono now c0 rs rs' x : (forall r, r ∈ rs -> r ∈ rs') -> seam now c0 rs x -> seam now c0 rs' x.
Proof. intros Hs (a & b & ? & ? & Ha & Hb). exists a, b. naive_solver. Qed.

Lemma walk_step now c0 done_ r todo gaps cursor :
  run_ok now r -> Forall (fun r' => StartedAt r <= StartedAt r') todo ->
  walked now c0 done_ (r :: todo) gaps cursor ->
  let '(gaps', cursor') := gap_step now (gaps, cursor) r in walked now c0 (done_ ++ [r]) todo gaps' cursor'.
Proof.
  intros [Hr1 Hr2] Htodo [[Hc0 [Hcur Hends]] [Hsort Hgaps] Hfree Hfull]. unfold gap_step.
  set (cursor' := if cursor <? run_end now r then run_end now r else cursor).
  assert (cursor <= cursor' /\ run_end now r <= cursor' /\ (cursor' = cursor \/ cursor' = run_end now r)) as (Hle & Hend & Hwhich).
  { unfold cursor'. destruct (Z.ltb_spec cursor (run_end now r)); lia. }
  clearbody cursor'. split.
  - split_and!; [lia| |].
    + destruct Hwhich as [-> | ->]; [|right; exists r; set_solver]. destruct Hcur as [?|(q & ? & ?)]; [by left|right; exists q; set_solver].
    + apply Forall_app. split; [|rewrite Forall_singleton; lia]. eapply Forall_impl; [exact Hends|]. simpl. lia.
  - assert (Forall (fun w => c0 <= From w /\ To w <= cursor' /\ long w) gaps) as Hg'.
    { eapply Forall_impl; [exact Hgaps|]. simpl. intros w (? & ? & ?). split_and!; [lia..|done]. }
    destruct (Z.leb_spec minHubGap (StartedAt r - cursor)); [|done]. split.
    + apply sorted_snoc_before; [done|]. eapply Forall_impl; [exact Hgaps|]. unfold before. simpl. lia.
    + apply Forall_app. split; [done|]. rewrite Forall_singleton. unfold long. simpl. lia.
  - intros x Hx. rewrite <-app_assoc. simpl. destruct (minHubGap <=? _); [|by apply Hfree].
    apply in_windows_snoc in Hx as [Hx|Hx]; [by apply Hfree|]. simpl in Hx. intros (q & Hq & Hcov). unfold covers in Hcov.
    rewrite Forall_forall in Hends, Htodo. apply elem_of_app in Hq as [Hq|Hq]; [specialize (Hends _ Hq); simpl in Hends; lia|].
    apply elem_of_cons in Hq as [-> |Hq]; [lia|]. specialize (Htodo _ Hq). simpl in Htodo. lia.
  - intros x Hx. assert (forall q, q ∈ done_ -> q ∈ done_ ++ [r]) as Hin by set_solver.
    destruct (decide (x < cursor)) as [Hlt|Hge].
    + destruct (Hfull x) as [Hw|[(q & ? & ?)|Hs]]; [lia| | |].
      * left. destruct (minHubGap <=? _); [apply in_windows_snoc; by left|done].
      * right; left. exists q. set_solver.
      * right; right. by eapply seam_mono.
    + destruct (decide (StartedAt r <= x)) as [Hsx|Hsx].
      { right; left. exists r. split; [set_solver|]. split; [done|]. destruct Hwhich; lia. }
      destruct (Z.leb_spec minHubGap (StartedAt r - cursor)).
      * left. apply in_windows_snoc. right. simpl. lia.
      * right; right. exists cursor, (StartedAt r). split_and!; [lia..| |right; exists r; set_solver].
        destruct Hcur as [?|(q & ? & ?)]; [by left|right; exists q; set_solver].
Qed.

Lemma walk_all now c0 done_ todo gaps cursor :
  Forall (run_ok now) todo -> StronglySorted (key_le StartedAt) todo -> walked now c0 done_ todo gaps cursor ->
  let '(gaps', cursor') := foldl (gap_step now) (gaps, cursor) todo in walked now c0 (done_ ++ todo) [] gaps' cursor'.
Proof.
  intros Hok Hs. revert done_ gaps cursor Hok. induction Hs as [|r todo Hs IH Hr]; intros done_ gaps cursor Hok HW; [by rewrite app_nil_r|].
  apply Forall_cons in Hok as [Hr1 Hok]. pose proof (walk_step now c0 done_ r todo gaps cursor Hr1 Hr HW) as HW'.
  cbn [foldl]. destruct (gap_step now (gaps, cursor) r) as [gaps' cursor']. specialize (IH _ _ _ Hok HW'). by rewrite <-app_assoc in IH.
Qed.

Lemma elem_of_recent since t r : r ∈ GetHubLifecycleEvents since t <-> r ∈ runs t /\ runs_into since r = true.
Proof. unfold GetHubLifecycleEvents. rewrite sort_on_perm, list_elem_of_filter. naive_solver. Qed.

Lemma first_before now first t : Forall (run_ok now) (runs t) -> FirstHubLifecycleStart t = Some first -> first <= now.
Proof.
  unfold FirstHubLifecycleStart. intros Hok Hf. destruct (sort_on StartedAt (runs t)) as [|r k] eqn:Hk; [done|]. injection Hf as <-.
  rewrite Forall_forall in Hok. assert (r ∈ runs t) as Hr by (rewrite <-(sort_on_perm StartedAt), Hk; left). by destruct (Hok r Hr).
Qed.

(** The runs left out are over before the window. *)
Lemma watched_recent now since t x : since <= x -> watched now (runs t) x -> watched now (GetHubLifecycleEvents since t) x.
Proof.
  intros Hx (r & Hr & Hcov). exists r. split; [|done]. apply elem_of_recent. split; [done|]. unfold runs_into, covers, run_end in *.
  destruct (StoppedAt r); simpl in *; lia.
Qed.

(** The gaps are exact: if every run starts before it ends and before now,
    then from the first run on, the gaps since a moment are in order, at least a
    second long, and a moment between then and now is in one of them exactly when
    no run was active, but for seams under a second from the end of a run (or the
    first moment) to the start of the next (or now). *)
Theorem gaps_exact (now since first : Z) (t : RunTable)
    (Hok : Forall (run_ok now) (runs t)) (Hfirst : FirstHubLifecycleStart t = Some first) (Hsince : since <= now) :
  let gaps := GetHubGaps now since t in
  StronglySorted before gaps /\ Forall long gaps /\
  (forall x, in_windows gaps x -> Z.max since first <= x < now /\ ~ watched now (runs t) x) /\
  (forall x, Z.max since first <= x < now -> ~ watched now (runs t) x ->
     in_windows gaps x \/ seam now (Z.max since first) (runs t) x).
Proof.
  unfold GetHubGaps. rewrite Hfirst. set (c0 := if since <? first then first else since).
  assert (c0 = Z.max since first) as Hc0 by (unfold c0; destruct (Z.ltb_spec since first); lia). rewrite <-Hc0. clearbody c0.
  set (l := GetHubLifecycleEvents since t).
  assert (forall r, r ∈ l <-> r ∈ runs t /\ runs_into since r = true) as Hl by (intros r; apply elem_of_recent).
  assert (Forall (run_ok now) l) as Hok'. { rewrite Forall_forall in Hok |- *. intros r [? _]%Hl. by apply Hok. }
  assert (walked now c0 [] l [] c0) as HW0.
  { split; [split_and!; [lia|by left|done]|by repeat constructor|by intros x (w & ?%elem_of_nil & _)|lia]. }
  pose proof (walk_all now c0 [] l [] c0 Hok' (sort_on_le _ _) HW0) as HW. simpl in HW.
  destruct (foldl (gap_step now) ([], c0) l) as [gaps cursor]. destruct HW as [[H1 [H2 H3]] [H4 H5] H6 H7]. rewrite app_nil_r in H6.
  assert (forall x, c0 <= x -> watched now (runs t) x -> watched now l x) as Hw by (intros x Hx; apply watched_recent; lia).
  pose proof (first_before now first t Hok Hfirst) as Hfn.
  assert (cursor <= now) as Hcur.
  { destruct H2 as [->|(r & Hr & <-)]; [lia|]. rewrite Forall_forall in Hok'. destruct (Hok' r Hr). lia. }
  assert (forall x, seam now c0 l x -> seam now c0 (runs t) x) as Hsm. { intros x. apply seam_mono. by intros r [? _]%Hl. }
  assert (forall x, in_windows gaps x -> c0 <= x < now /\ ~ watched now (runs t) x) as Hin.
  { intros x Hx. pose proof (H6 x Hx) as Hno. destruct Hx as (w & Hwi & Hx). rewrite Forall_forall in H5.
    destruct (H5 w Hwi) as (? & ? & ?). split; [lia|]. intros ?. apply Hno, Hw; [lia|done]. }
  assert (Forall long gaps) as Hlong. { eapply Forall_impl; [exact H5|]. by intros w (? & ? & ?). }
  assert (forall x, cursor <= x -> ~ watched now l x) as Hafter.
  { intros x Hx (r & Hr & Hcov). rewrite Forall_forall in H3. specialize (H3 r Hr). simpl in H3. unfold covers in Hcov. lia. }
  assert (forall x, c0 <= x < cursor -> ~ watched now (runs t) x -> in_windows gaps x \/ seam now c0 (runs t) x) as Hfull.
  { intros x Hx Hno. destruct (H7 x Hx) as [?|[(r & Hr & ?)|?]]; [by left| |right; by apply Hsm].
    destruct Hno. exists r. split; [by apply Hl|done]. }
  destruct (Z.leb_spec minHubGap (now - cursor)) as [Hbig|Hsmall]; split_and!; try done.
  - apply sorted_snoc_before; [done|]. eapply Forall_impl; [exact H5|]. unfold before. simpl. lia.
  - apply Forall_app. by rewrite Forall_singleton.
  - intros x [Hx|Hx]%in_windows_snoc; [by apply Hin|]. simpl in Hx. split; [lia|]. intros ?. apply (Hafter x); [lia|]. apply Hw; [lia|done].
  - intros x Hx Hno. rewrite in_windows_snoc. simpl. destruct (decide (x < cursor)); [|left; right; lia].
    destruct (Hfull x) as [?|?]; [lia|done|by left; left|by right].
  - intros x Hx Hno. destruct (decide (x < cursor)); [apply Hfull; [lia|done]|]. right. exists cursor, now. split_and!; [lia..| |by left].
    destruct H2 as [?|(r & Hr & ?)]; [by left|right]. exists r. split; [by apply Hl|done].
Qed.

(** ** Lives of the panel *)

Definition all_work : run_stmt -> bool := fun _ => false.

(** A life of the panel: when it started, its stamps, when it ended, and whether
    it was shut down or killed. *)
Record life := MkALife { l_boot : Z; l_stamps : list Z; l_end : Z; l_clean : bool; l_version : string }.

Definition live (t : RunTable) (l : life) : RunTable :=
  let '(h, t) := OpenHubLifecycle all_work (l_boot l) (l_version l) t in
  let t := foldl (fun t s => keepAlive all_work s h t) t (l_stamps l) in
  if l_clean l then (Close all_work (l_end l) h t).2 else t.

Definition last_stamp (l : life) : Z := List.last (l_stamps l) (l_boot l).

(** The stamps keep up: the last is at most one interval before the end. *)
Definition life_ok (l : life) : Prop :=
  l_boot l <= last_stamp l <= l_end l /\ l_end l - last_stamp l <= hubAliveInterval.

(** A row of a life: it is closed at its end, or at most an interval before if
    it was killed; or not closed yet, and alive until then. *)
Definition recorded (l : life) (r : HubLifecycleEvent) : Prop :=
  StartedAt r = l_boot l /\
  exists e, StoppedAt r = Some e /\ l_boot l <= e <= l_end l /\ l_end l - e <= hubAliveInterval /\ (l_clean l = true -> e = l_end l).
Definition left_open (l : life) (r : HubLifecycleEvent) : Prop :=
  StartedAt r = l_boot l /\ StoppedAt r = None /\ LastAliveAt r = Some (last_stamp l) /\ l_clean l = false.

Definition ids_below (t : RunTable) : Prop := 0 <= lastID t /\ Forall (fun r => hr_ID r <= lastID t) (runs t).

Lemma stale_closes at_ t ls :
  Forall life_ok ls -> Forall2 (fun l r => recorded l r \/ left_open l r) ls (runs t) ->
  Forall2 recorded ls (runs (CloseStaleHubLifecycleEvents all_work at_ t)).
Proof.
  intros Hok HF. unfold CloseStaleHubLifecycleEvents. simpl. apply Forall2_fmap_r. revert Hok.
  induction HF as [|l r ls rs Hr _ IH]; intros Hok; [constructor|]. apply Forall_cons in Hok as [Hl Hok]. constructor; [|by apply IH].
  destruct Hr as [Hr|(H1 & H2 & H3 & H4)]; unfold compose.
  - destruct Hr as (H1 & e & H2 & ?). unfold is_open. rewrite H2. split; [done|]. by exists e.
  - unfold is_open, recorded. rewrite H2, H3. simpl. split; [done|]. exists (last_stamp l). destruct Hl as [? ?].
    split_and!; [done|lia..|]. by rewrite H4.
Qed.

Lemma update_open_last id f rs r :
  Forall (fun q => hr_ID q < id) rs -> hr_ID r = id ->
  ((fun q => if (hr_ID q =? id) && is_open q then f q else q) <$> rs ++ [r]) = rs ++ [if is_open r then f r else r].
Proof.
  intros Hlt Hid. rewrite fmap_app. simpl. rewrite (proj2 (Z.eqb_eq _ _) Hid). simpl. f_equal.
  rewrite <-(list_fmap_id rs) at 2. apply list_fmap_ext. intros i q Hq. rewrite Forall_lookup in Hlt. specialize (Hlt i q Hq). simpl in Hlt.
  by rewrite (proj2 (Z.eqb_neq _ _)) by lia.
Qed.

(** The stamps of the row at the end. *)
Lemma stamps_last h rs r id stamps :
  Forall (fun q => hr_ID q < id) rs -> hr_ID r = id -> StoppedAt r = None -> stop h = true -> eventID h = id -> id <> 0 ->
  foldl (fun t s => keepAlive all_work s h t) (MkRuns (rs ++ [r]) id) stamps =
  MkRuns (rs ++ [MkHubRun id (StartedAt r) None (match last stamps with Some s => Some s | None => LastAliveAt r end) (Version r)]) id.
Proof.
  intros Hlt Hid Hop Hst He Hz. induction stamps as [|s stamps IH] using rev_ind.
  - simpl. by destruct r; simpl in *; subst.
  - rewrite foldl_app, IH. simpl. unfold keepAlive, TouchHubLifecycleEvent, update_open. rewrite Hst, He, (proj2 (Z.eqb_neq _ _) Hz). simpl.
    rewrite last_snoc. f_equal. by rewrite update_open_last.
Qed.

Lemma open_appends at_ version t :
  ids_below t ->
  OpenHubLifecycle all_work at_ version t =
    (MkLife (lastID t + 1) true,
     MkRuns (runs (CloseStaleHubLifecycleEvents all_work at_ t) ++ [MkHubRun (lastID t + 1) at_ None (Some at_) version]) (lastID t + 1)) /\
  Forall (fun r => hr_ID r < lastID t + 1) (runs (CloseStaleHubLifecycleEvents all_work at_ t)).
Proof.
  intros [Hl Hids]. unfold OpenHubLifecycle, CreateHubLifecycleEvent. simpl. rewrite (proj2 (Z.eqb_neq _ _)) by lia. split; [done|].
  apply Forall_fmap. eapply Forall_impl; [exact Hids|]. simpl. intros r Hr. destruct (is_open r); simpl; lia.
Qed.

Lemma live_records ls l t :
  Forall life_ok ls -> life_ok l -> ids_below t -> Forall2 (fun l r => recorded l r \/ left_open l r) ls (runs t) ->
  ids_below (live t l) /\ Forall2 (fun l r => recorded l r \/ left_open l r) (ls ++ [l]) (runs (live t l)).
Proof.
  intros Hls Hl Hids HF. unfold live. destruct (open_appends (l_boot l) (l_version l) t Hids) as [-> Hlt].
  pose proof (stale_closes (l_boot l) t ls Hls HF) as HF'. destruct Hids as [Hid _].
  set (rs := runs (CloseStaleHubLifecycleEvents _ _ t)) in *. set (id := lastID t + 1) in *.
  rewrite (stamps_last _ rs _ id) by (simpl; try done; lia). simpl.
  assert (match last (l_stamps l) with Some s => Some s | None => Some (l_boot l) end = Some (last_stamp l)) as ->.
  { unfold last_stamp. destruct (l_stamps l) as [|s ss _] using rev_ind; [done|]. by rewrite last_snoc, List.last_last. }
  assert (forall r, hr_ID r = id -> recorded l r \/ left_open l r ->
    ids_below (MkRuns (rs ++ [r]) id) /\ Forall2 (fun l r => recorded l r \/ left_open l r) (ls ++ [l]) (rs ++ [r])) as Hend.
  { intros r Hr Hrec. split.
    - split; [simpl; lia|]. simpl. apply Forall_app. rewrite Forall_singleton, Hr. split; [|lia].
      eapply Forall_impl; [exact Hlt|]. simpl. lia.
    - apply Forall2_app; [|by apply Forall2_cons_2]. eapply Forall2_impl; [exact HF'|]. by left. }
  destruct (l_clean l) eqn:Hc.
  - rewrite (proj2 (Z.eqb_neq _ _)) by lia. unfold CloseHubLifecycleEvent, update_open. simpl. rewrite update_open_last by done. simpl.
    apply Hend; [done|]. left. split; [done|]. exists (l_end l). destruct Hl as [? ?].
    split_and!; [done|lia|done| |done]. unfold hubAliveInterval, sec. lia.
  - apply Hend; [done|]. by right.
Qed.

(** The rows after the lives [ls] and a new start. *)
Lemma lives_recorded ls boot version :
  Forall life_ok ls ->
  exists rs r, runs (OpenHubLifecycle all_work boot version (foldl live (MkRuns [] 0) ls)).2 = rs ++ [r] /\
    Forall2 recorded ls rs /\ StartedAt r = boot /\ StoppedAt r = None.
Proof.
  intros Hls. assert (ids_below (foldl live (MkRuns [] 0) ls) /\
    Forall2 (fun l r => recorded l r \/ left_open l r) ls (runs (foldl live (MkRuns [] 0) ls))) as [Hids HF].
  { induction ls as [|l ls IH] using rev_ind; [by repeat constructor|]. apply Forall_app in Hls as [Hls Hl].
    rewrite Forall_singleton in Hl. rewrite foldl_app. simpl. destruct (IH Hls). by apply live_records. }
  destruct (open_appends boot version _ Hids) as [-> _]. eexists _, _. split; [done|]. split; [by apply stale_closes|done].
Qed.

Lemma Forall2_elem_r {A B} (P : A -> B -> Prop) ls rs r : Forall2 P ls rs -> r ∈ rs -> exists l, l ∈ ls /\ P l r.
Proof.
  intros HF [i Hi]%list_elem_of_lookup. destruct (Forall2_lookup_r _ _ _ _ _ HF Hi) as (l & Hl & HP). exists l.
  split; [by eapply list_elem_of_lookup_2|done].
Qed.
Lemma Forall2_elem_l {A B} (P : A -> B -> Prop) ls rs l : Forall2 P ls rs -> l ∈ ls -> exists r, r ∈ rs /\ P l r.
Proof. intros HF%Forall2_flip Hl. by apply (Forall2_elem_r _ _ _ _ HF). Qed.

Lemma first_start t :
  runs t <> [] -> exists first, FirstHubLifecycleStart t = Some first /\ forall q, q ∈ runs t -> first <= StartedAt q.
Proof.
  intros Hne. unfold FirstHubLifecycleStart. pose proof (sort_on_le StartedAt (runs t)) as Hs. pose proof (sort_on_perm StartedAt (runs t)) as Hp.
  destruct Hs as [|r k _ Hr]; [by apply Permutation_nil in Hp|]. exists (StartedAt r). split; [done|].
  intros q Hq. rewrite <-Hp in Hq. rewrite Forall_forall in Hr. apply elem_of_cons in Hq as [->|Hq]; [done|by apply Hr].
Qed.

(** The panel was running: in one of its lives, or since its last start. *)
Definition alive (ls : list life) (boot x : Z) : Prop := (exists l, l ∈ ls /\ l_boot l <= x < l_end l) \/ boot <= x.

(** The gaps are the truth: after any lives of the panel, shut down or killed,
    with stamps that kept up, and a new start, a moment in a gap is one at which the
    panel was not running, or one in the last stamping interval before it was
    killed; and every moment since its first start at which it was not running is
    in a gap, but for seams under a second between recorded runs. *)
Theorem gaps_true (ls : list life) (boot now since : Z) (version : string)
    (Hls : Forall life_ok ls) (Hboot : boot <= now) (Hend : Forall (fun l => l_end l <= now) ls) (Hsince : since <= now) :
  let t := (OpenHubLifecycle all_work boot version (foldl live (MkRuns [] 0) ls)).2 in
  let gaps := GetHubGaps now since t in
  (forall x, in_windows gaps x ->
     ~ alive ls boot x \/ exists l, l ∈ ls /\ l_clean l = false /\ l_end l - hubAliveInterval <= x < l_end l) /\
  (forall x, since <= x < now -> (exists l, l ∈ ls /\ l_boot l <= x) -> ~ alive ls boot x ->
     in_windows gaps x \/ exists c0, seam now c0 (runs t) x).
Proof.
  intros t gaps. destruct (lives_recorded ls boot version Hls) as (rs & r & Hrs & HF & Hr1 & Hr2). fold t in Hrs.
  assert (forall q, q ∈ rs -> exists l, l ∈ ls /\ recorded l q) as Hrow by (intros q; by apply Forall2_elem_r).
  assert (forall l, l ∈ ls -> exists q, q ∈ runs t /\ recorded l q) as Hlife.
  { intros l Hl. destruct (Forall2_elem_l _ _ _ _ HF Hl) as (q & Hq & ?). exists q. rewrite Hrs. set_solver. }
  assert (r ∈ runs t) as Hr by (rewrite Hrs; set_solver). rewrite Forall_forall in Hend.
  assert (Forall (run_ok now) (runs t)) as Hok.
  { rewrite Hrs. apply Forall_app. rewrite Forall_singleton. unfold run_ok, run_end. rewrite Hr1, Hr2. simpl. split; [|lia].
    apply Forall_forall. intros q Hq. destruct (Hrow q Hq) as (l & Hl & H1 & e & H2 & ?). specialize (Hend l Hl).
    simpl in Hend. rewrite H1, H2. simpl. lia. }
  destruct (first_start t) as (first & Hf & Hmin); [by intros Hn; rewrite Hn in Hr; apply elem_of_nil in Hr|].
  destruct (gaps_exact now since first t Hok Hf Hsince) as (_ & _ & Hgap & Hall). split.
  - intros x Hx. destruct (Hgap x Hx) as [Hwin Hno]. destruct (decide (Exists (fun l => l_boot l <= x < l_end l) ls)) as [Hex|Hnex].
    + apply Exists_exists in Hex as (l & Hl & Hlx). right. exists l. split; [done|]. destruct (Hlife l Hl) as (q & Hq & H1 & e & H2 & He & Hi & Hc).
      assert (e <= x) as Hxe. { destruct (decide (e <= x)); [done|]. destruct Hno. exists q. split; [done|]. unfold covers, run_end. rewrite H1, H2. simpl. lia. }
      split; [|lia]. destruct (l_clean l); [|done]. specialize (Hc eq_refl). lia.
    + left. intros [(l & Hl & Hlx)|Hb]; [apply Hnex, Exists_exists; by exists l|]. destruct Hno. exists r. split; [done|].
      unfold covers, run_end. rewrite Hr1, Hr2. simpl. lia.
  - intros x Hx (l & Hl & Hlx) Hdown. destruct (Hlife l Hl) as (q0 & Hq0 & Hs0 & _). specialize (Hmin q0 Hq0).
    destruct (Hall x) as [?|?]; [lia| |by left|right; by eexists]. intros (q & Hq & Hcov). unfold covers, run_end in Hcov.
    rewrite Hrs in Hq. apply elem_of_app in Hq as [Hq|Hq%list_elem_of_singleton]; [|subst q; destruct Hdown; right; lia].
    destruct (Hrow q Hq) as (l' & Hl' & H1 & e & H2 & He & _). destruct Hdown. left. exists l'. rewrite H1, H2 in Hcov. simpl in Hcov.
    split; [done|lia].
Qed.

(** A panel that starts at 0, is killed at 75 s and starts again at 200 s. *)
Definition killed_life : life := MkALife 0 [sec 30; sec 60] (sec 75) false "v1".

Lemma gaps_true_witness :
  GetHubGaps (sec 300) 0 (OpenHubLifecycle all_work (sec 200) "v1" (foldl live (MkRuns [] 0) [killed_life])).2 =
    [MkWindow (sec 60) (sec 200)] /\
  (~ alive [killed_life] (sec 200) (sec 100) \/
   exists l, l ∈ [killed_life] /\ l_clean l = false /\ l_end l - hubAliveInterval <= sec 100 < l_end l).
Proof.
  split; [by vm_compute|]. apply (gaps_true [killed_life] (sec 200) (sec 300) 0 "v1").
  - by repeat constructor.
  - done.
  - by repeat constructor.
  - done.
  - exists (MkWindow (sec 60) (sec 200)). split; [|by vm_compute].
    replace (GetHubGaps _ _ _) with [MkWindow (sec 60) (sec 200)] by (by vm_compute). left.
Defined.
