(* ===== verification/GoSeconds.v ===== *)
(** * Whole seconds

    The code turns durations into seconds by [int(d.Seconds())], through a
    float64. On whole seconds the result is exact. *)

From S2P Require Import Prelude GoFloat.

(** [int(d.Seconds())] *)
Definition int_seconds (d : Z) : Z := int64_of (Seconds d).

Lemma digits_pos_bounds (p : positive) : 2 ^ (Zpos (digits2_pos p) - 1) <= Zpos p < 2 ^ Zpos (digits2_pos p).
Proof.
  induction p as [p IH|p IH|]; simpl digits2_pos; [| |done].
  all: rewrite Pos2Z.inj_succ; replace (Z.succ _ - 1) with (Z.succ (Zpos (digits2_pos p) - 1)) by lia.
  all: rewrite !Z.pow_succ_r by lia; lia.
Qed.

Lemma digits_small (p : positive) (k : Z) : 0 <= k -> Zpos p < 2 ^ k -> Zpos (digits2_pos p) <= k.
Proof.
  intros Hk Hp. pose proof (digits_pos_bounds p) as [Hl _]. destruct (Z.le_gt_cases (Zpos (digits2_pos p)) k); [done|].
  assert (2 ^ k <= 2 ^ (Zpos (digits2_pos p) - 1)) by (apply Z.pow_le_mono_r; lia). lia.
Qed.

Lemma shift_digits (p d : positive) :
  Zpos (Pos.iter xO p d) = Zpos p * 2 ^ Zpos d /\ Zpos (digits2_pos (Pos.iter xO p d)) = Zpos (digits2_pos p) + Zpos d.
Proof.
  induction d as [|d [IH1 IH2]] using Pos.peano_ind; [simpl; lia|].
  rewrite Pos.iter_succ, !Pos2Z.inj_succ, Z.pow_succ_r, Pos2Z.inj_xO, IH1 by lia. split; [ring|]. simpl digits2_pos. lia.
Qed.

(** A mantissa of 53 bits is not rounded. *)
Lemma round_exact s (m : positive) e :
  Zpos (digits2_pos m) = 53 -> -53 <= e <= 0 -> binary_round_aux 53 1024 s (Zpos m) e loc_Exact = S754_finite s m e.
Proof.
  intros Hd He. assert (forall l, shr_fexp 53 1024 (Zpos m) e l = (shr_record_of_loc (Zpos m) l, e)) as Hs.
  { intros l. unfold shr_fexp, fexp, emin. simpl Zdigits2. rewrite Hd. by replace (Z.max (53 + e - 53) (3 - 1024 - 53) - e) with 0 by lia. }
  unfold binary_round_aux. rewrite Hs. change (round_nearest_even _ _) with (Zpos m). rewrite Hs. cbn [shr_m shr_record_of_loc].
  by rewrite (proj2 (Z.leb_le e (1024 - 53))) by lia.
Qed.

Lemma round_int s (m : positive) :
  Zpos m < 2 ^ 53 -> exists m' k, binary_round 53 1024 s m 0 = S754_finite s m' (- k) /\ 0 <= k /\ Zpos m' = Zpos m * 2 ^ k.
Proof.
  intros Hm. pose proof (digits_small m 53 ltac:(lia) Hm) as Hd. unfold binary_round, shl_align, fexp, emin.
  rewrite Z.add_0_r, Z.sub_0_r. replace (Z.max _ _) with (Zpos (digits2_pos m) - 53) by lia.
  destruct (Zpos (digits2_pos m) - 53) as [|d|d] eqn:Hk; [|lia|].
  - exists m, 0. rewrite round_exact by lia. split_and!; [done|done|lia].
  - destruct (shift_digits m d) as [H1 H2]. exists (Pos.iter xO m d), (Zpos d). rewrite round_exact by lia. by split_and!.
Qed.

Lemma int64_of_int z : - 2 ^ 53 < z < 2 ^ 53 -> int64_of (f64_of_int z) = z.
Proof.
  intros Hz. assert (forall s (m : positive), Zpos m < 2 ^ 53 -> int64_of (binary_round 53 1024 s m 0) = if s then - Zpos m else Zpos m) as Hr.
  { intros s m Hm. destruct (round_int s m Hm) as (m' & k & -> & Hk & Hm'). unfold int64_of.
    assert ((if 0 <=? - k then Zpos m' * 2 ^ (- k) else Zpos m' / 2 ^ (- - k)) = Zpos m) as ->.
    { destruct (Z.leb_spec 0 (- k)).
      - assert (k = 0) as -> by lia. simpl in *. lia.
      - rewrite Z.opp_involutive, Hm', Z.div_mul; [done|]. by apply Z.pow_nonzero. }
    unfold minI64, maxI64. destruct s; rewrite (proj2 (andb_true_iff _ _)); lia. }
  unfold f64_of_int, binary_normalize. destruct z as [|m|m]; [done|by rewrite Hr by lia|by rewrite Hr by lia].
Qed.

(** Whole seconds are exact. *)
Lemma int_seconds_whole s : - 2 ^ 53 < s < 2 ^ 53 -> int_seconds (s * 10 ^ 9) = s.
Proof.
  intros Hs. unfold int_seconds, Seconds. rewrite Z.quot_mul, Z.rem_mul by done.
  replace (f64_div (f64_of_int 0) (f64_of_int (10 ^ 9))) with (S754_zero false) by done.
  rewrite <-(int64_of_int s Hs) at 2. unfold f64_of_int, binary_normalize.
  destruct s as [|m|m]; [done|destruct (round_int false m) as (? & ? & -> & _); [lia|done]|].
  destruct (round_int true m) as (? & ? & -> & _); [lia|done].
Qed.
