(* ===== verification/NodeUptime.v ===== *)
(** * Outages and the daily rollup

    The reading side of the connectivity history, of
    internal/node/usecase/node_uptime_history.go: outages paired out of the
    timeline, the windows of the panel's own downtime folded in for the built-in
    node, and the rollup that stores each finished day. *)

From S2P Require Import Prelude GoFloat GoSeconds AlertEngine NodeConn PanelRuns.

Record NodeOutage := MkOutage {
  out_StartedAt : Z; out_EndedAt : option Z; out_DurationSec : Z; out_Reason : string; out_Detail : string;
  out_Planned : bool; out_Ongoing : bool
}.

(** ** Pairing *)

Definition close_outage (end_ : Z) (o : NodeOutage) : NodeOutage :=
  MkOutage (out_StartedAt o) (Some end_) (Z.max 0 (int_seconds (end_ - out_StartedAt o))) (out_Reason o) (out_Detail o) (out_Planned o)
    (out_Ongoing o).

Definition pair_step (acc : list NodeOutage * option NodeOutage) (ev : NodeUptimeEvent) : list NodeOutage * option NodeOutage :=
  let '(outages, open) := acc in
  if bool_decide (up_Status ev = NodeStatusOffline) then
    match open with
    | Some _ => acc
    | None => (outages, Some (MkOutage (up_Timestamp ev) None 0 (up_Reason ev) (up_Detail ev) (IsPlannedOfflineReason (up_Reason ev)) false))
    end
  else if bool_decide (up_Status ev = NodeStatusOnline) then
    match open with
    | None => acc
    | Some o => (outages ++ [close_outage (up_Timestamp ev) o], None)
    end
  else acc.

Definition pairOutages (events : list NodeUptimeEvent) (now : Z) : list NodeOutage :=
  let '(outages, open) := foldl pair_step ([], None) events in
  match open with
  | Some o =>
      outages ++ [MkOutage (out_StartedAt o) (out_EndedAt o) (Z.max 0 (int_seconds (now - out_StartedAt o))) (out_Reason o) (out_Detail o)
                    (out_Planned o) true]
  | None => outages
  end.

(** ** Windows *)

Definition overlapSeconds (windows : list TimeWindow) (from to : Z) : Z :=
  foldl (fun total w =>
    let start := if From w <? from then from else From w in
    let end_ := if to <? To w then to else To w in
    let secs := int_seconds (end_ - start) in
    if 0 <? secs then total + secs else total) 0 windows.

Definition clipWindow (w : TimeWindow) (from to : Z) : option TimeWindow :=
  let f := if From w <? from then from else From w in
  let t := if to <? To w then to else To w in
  if f <? t then Some (MkWindow f t) else None.

(** Joins the windows to come, in order of [From], with the last one. *)
Fixpoint join_windows (last_ : TimeWindow) (ws : list TimeWindow) : list TimeWindow :=
  match ws with
  | [] => [last_]
  | w :: ws =>
      if From w <=? To last_ then join_windows (MkWindow (From last_) (if To last_ <? To w then To w else To last_)) ws
      else last_ :: join_windows w ws
  end.
Definition mergeWindows (ws : list TimeWindow) : list TimeWindow :=
  if (length ws <? 2)%nat then ws else
  match sort_on From ws with [] => [] | w :: ws => join_windows w ws end.

Definition windowsSeconds (ws : list TimeWindow) : Z := foldl (fun total w => total + int_seconds (To w - From w)) 0 ws.
Definition intersectSeconds (a b : list TimeWindow) : Z := foldl (fun total x => total + overlapSeconds b (From x) (To x)) 0 a.

(** ** A day *)

Record NodeDailyUptime := MkDaily {
  du_NodeID : Z; du_Date : Z; ObservedSec : Z; DowntimeSec : Z; PlannedSec : Z; OutageCount : Z
}.

(** The end of an outage in a day. *)
Definition outage_end (dayEnd : Z) (o : NodeOutage) : Z :=
  match out_EndedAt o with Some e => if e <? dayEnd then e else dayEnd | None => dayEnd end.

Definition day_windows (dayStart dayEnd : Z) (planned : bool) (outages : list NodeOutage) : list TimeWindow :=
  omap (fun o => if Bool.eqb (out_Planned o) planned
                 then clipWindow (MkWindow (out_StartedAt o) (outage_end dayEnd o)) dayStart dayEnd else None) outages.

Definition localDayUptime (nodeID dayStart dayEnd : Z) (outages : list NodeOutage) (gaps : list TimeWindow) : NodeDailyUptime :=
  let down := day_windows dayStart dayEnd false outages ++ omap (fun g => clipWindow g dayStart dayEnd) gaps in
  let planned := day_windows dayStart dayEnd true outages in
  let down := mergeWindows down in
  let planned := mergeWindows planned in
  let plannedSec := windowsSeconds planned in
  let downSec := windowsSeconds down - intersectSeconds down planned in
  let observed := Z.max 0 (int_seconds (dayEnd - dayStart) - plannedSec) in
  MkDaily nodeID dayStart observed (Z.min downSec observed) plannedSec (Z.of_nat (length down)).

(** An outage of a remote node in its day: downtime, planned time and outages so
    far. *)
Definition day_step (dayStart dayEnd : Z) (gaps : list TimeWindow) (acc : Z * Z * Z) (o : NodeOutage) : Z * Z * Z :=
  let '(downtime, planned, count) := acc in
  let end_ := outage_end dayEnd o in
  let start := if out_StartedAt o <? dayStart then dayStart else out_StartedAt o in
  let secs := int_seconds (end_ - start) in
  if secs <=? 0 then acc else
  let overlap := overlapSeconds gaps start end_ in
  let secs := if 0 <? overlap then secs - overlap else secs in
  if secs <=? 0 then acc else
  if out_Planned o then (downtime, planned + secs, count) else (downtime + secs, planned, count + 1).

Definition remoteDayUptime (nodeID dayStart dayEnd unobservedSec : Z) (outages : list NodeOutage) (gaps : list TimeWindow) : NodeDailyUptime :=
  let '(downtime, planned, count) := foldl (day_step dayStart dayEnd gaps) (0, 0, 0) outages in
  let observed := Z.max 0 (Z.max 0 (int_seconds (dayEnd - dayStart) - unobservedSec) - planned) in
  MkDaily nodeID dayStart observed (Z.min downtime observed) planned count.

(** ** The tables *)

(** The nodes, with whether each is the built-in one; the timeline; the panel's
    runs; the rollup. *)
Record Uptime := MkUptimeDB {
  ut_nodes : list (Z * bool); ut_events : list NodeUptimeEvent; ut_runs : RunTable; ut_daily : list NodeDailyUptime
}.

Inductive up_stmt := QListNodes | QRuns | QBefore (id : Z) | QRange (id : Z) | QUpsert (id : Z) | QLatest | QNodeRow (id : Z) | QDaily.

Definition GetUptimeEvents (nodeID since : Z) (t : Uptime) : list NodeUptimeEvent :=
  sort_on up_Timestamp (filter (fun e => up_NodeID e = nodeID /\ since <= up_Timestamp e) (ut_events t)).
Definition GetUptimeEventsRange (nodeID from to : Z) (t : Uptime) : list NodeUptimeEvent :=
  sort_on up_Timestamp (filter (fun e => up_NodeID e = nodeID /\ from <= up_Timestamp e /\ up_Timestamp e < to) (ut_events t)).
Definition GetLastUptimeEventBefore (nodeID before_ : Z) (t : Uptime) : option NodeUptimeEvent :=
  last (sort_on up_Timestamp (filter (fun e => up_NodeID e = nodeID /\ up_Timestamp e < before_) (ut_events t))).

Definition with_daily (f : list NodeDailyUptime -> list NodeDailyUptime) (t : Uptime) : Uptime :=
  MkUptimeDB (ut_nodes t) (ut_events t) (ut_runs t) (f (ut_daily t)).

Definition same_day (row r : NodeDailyUptime) : bool := (du_NodeID r =? du_NodeID row) && (du_Date r =? du_Date row).

(** The first row of the day is replaced, if there is one. *)
Fixpoint replace_first (row : NodeDailyUptime) (rs : list NodeDailyUptime) : list NodeDailyUptime :=
  match rs with [] => [] | r :: rs => if same_day row r then row :: rs else r :: replace_first row rs end.
Definition UpsertNodeDailyUptime (row : NodeDailyUptime) (t : Uptime) : Uptime :=
  with_daily (fun rs => if existsb (same_day row) rs then replace_first row rs else rs ++ [row]) t.

Definition GetNodeDailyUptime (nodeID since : Z) (t : Uptime) : list NodeDailyUptime :=
  sort_on du_Date (filter (fun r => du_NodeID r = nodeID /\ since <= du_Date r) (ut_daily t)).
Definition GetLatestNodeDailyUptimeDate (t : Uptime) : option Z := du_Date <$> last (sort_on du_Date (ut_daily t)).

Definition CleanupOldUptimeEvents (now olderThanDays : Z) (t : Uptime) : Uptime :=
  MkUptimeDB (ut_nodes t) (filter (fun e => ~ up_Timestamp e < now - olderThanDays * dayNs) (ut_events t)) (ut_runs t) (ut_daily t).
Definition CleanupOldNodeDailyUptime (now olderThanDays : Z) (t : Uptime) : Uptime :=
  if olderThanDays <=? 0 then t else with_daily (filter (fun r => ~ du_Date r < now - olderThanDays * dayNs)) t.

(** ** The rollup *)

Section rollup.
Context (fails : up_stmt -> bool).

(** [None] is an error. *)
Definition rollupOneNode (node : Z * bool) (dayStart dayEnd unobservedSec : Z) (gaps : list TimeWindow) (t : Uptime) : option NodeDailyUptime :=
  let nodeID := node.1 in
  if fails (QBefore nodeID) then None else
  let prior := GetLastUptimeEventBefore nodeID dayStart t in
  if fails (QRange nodeID) then None else
  let events := GetUptimeEventsRange nodeID dayStart dayEnd t in
  let events :=
    match prior with
    | Some p => if bool_decide (up_Status p = NodeStatusOffline)
                then MkUptime nodeID NodeStatusOffline (up_Reason p) "" dayStart :: events else events
    | None => events
    end in
  let outages := pairOutages events dayEnd in
  Some (if node.2 then localDayUptime nodeID dayStart dayEnd outages gaps
        else remoteDayUptime nodeID dayStart dayEnd unobservedSec outages gaps).

(** [time.Truncate(24h)] of a UTC time after the epoch. *)
Definition day_of (t : Z) : Z := t - t mod dayNs.

Definition RollupNodeUptime (now day : Z) (t : Uptime) : bool * Uptime :=
  let dayStart := day_of day in
  let dayEnd := dayStart + dayNs in
  if fails QListNodes then (true, t) else
  if fails QRuns then (true, t) else
  let gaps := GetHubGaps now dayStart (ut_runs t) in
  let unobserved := overlapSeconds gaps dayStart dayEnd in
  (false, foldl (fun t node =>
     match rollupOneNode node dayStart dayEnd unobserved gaps t with
     | None => t
     | Some row => if fails (QUpsert node.1) then t else UpsertNodeDailyUptime row t
     end) t (ut_nodes t)).

(** The days from [day] on, one at a time, until an error. The number of days
    from [start] to yesterday bounds the loop. *)
Fixpoint rollup_days (n : nat) (now day : Z) (t : Uptime) : bool * Uptime :=
  match n with
  | O => (false, t)
  | S n => let '(failed, t) := RollupNodeUptime now day t in if failed then (true, t) else rollup_days n now (day + dayNs) t
  end.

Definition backfill_start (now maxDays : Z) (latest : option Z) : Z :=
  let start := day_of now - dayNs + (1 - maxDays) * dayNs in
  match latest with
  | Some l => let next := day_of l + dayNs in if start <? next then next else start
  | None => start
  end.

Definition BackfillNodeUptimeRollup (now maxDays : Z) (t : Uptime) : bool * Uptime :=
  let maxDays := if maxDays <=? 0 then 30 else maxDays in
  let yesterday := day_of now - dayNs in
  if fails QLatest then (true, t) else
  let start := backfill_start now maxDays (GetLatestNodeDailyUptimeDate t) in
  rollup_days (Z.to_nat ((yesterday - start) / dayNs + 1)) now start t.
End rollup.

(** ** The list of outages *)

(** The gap is folded into the first outage it overlaps, if there is one. *)
Fixpoint widen_first (now : Z) (g : TimeWindow) (outages : list NodeOutage) : option (list NodeOutage) :=
  match outages with
  | [] => None
  | o :: rest =>
      let end_ := default now (out_EndedAt o) in
      if (From g <? end_) && (out_StartedAt o <? To g) then
        let start := if From g <? out_StartedAt o then From g else out_StartedAt o in
        let ended := match out_EndedAt o with Some e => Some (if e <? To g then To g else e) | None => None end in
        Some (MkOutage start ended (int_seconds (default end_ ended - start)) (out_Reason o) (out_Detail o) (out_Planned o) (out_Ongoing o) :: rest)
      else (cons o) <$> widen_first now g rest
  end.

Definition merge_gap (now : Z) (outages : list NodeOutage) (g : TimeWindow) : list NodeOutage :=
  match widen_first now g outages with
  | Some outages => outages
  | None => outages ++ [MkOutage (From g) (Some (To g)) (int_seconds (To g - From g)) NodeOfflineReasonPanelDown "the panel was not running" false false]
  end.
Definition mergePanelDown (now : Z) (outages : list NodeOutage) (gaps : list TimeWindow) : list NodeOutage :=
  sort_on out_StartedAt (foldl (merge_gap now) outages gaps).

(** The row of a node: whether it is the built-in one. *)
Definition GetNode (nodeID : Z) (t : Uptime) : option (Z * bool) := head (filter (fun n => n.1 = nodeID) (ut_nodes t)).

Section lists.
Context (fails : up_stmt -> bool) (now : Z).

(** Newest first; [None] is an error. *)
Definition GetNodeDisconnections (nodeID since limit : Z) (t : Uptime) : option (list NodeOutage) :=
  let limit := if (limit <=? 0) || (500 <? limit) then 100 else limit in
  if fails (QRange nodeID) then None else
  let outages := pairOutages (GetUptimeEvents nodeID since t) now in
  let outages :=
    match (if fails (QNodeRow nodeID) then None else GetNode nodeID t) with
    | Some (_, true) => if fails QRuns then outages else mergePanelDown now outages (GetHubGaps now since (ut_runs t))
    | _ => outages
    end in
  Some (take (Z.to_nat limit) (reverse outages)).

Record NodeUptimeSummary := MkSummary {
  Days : list NodeDailyUptime; sum_Observed : Z; sum_Downtime : Z; sum_Planned : Z; sum_Outages : Z; UptimePct : float64
}.

(** The day so far, which is not stored. *)
Definition today (nodeID : Z) (rows : list NodeDailyUptime) (t : Uptime) : list NodeDailyUptime :=
  let todayStart := day_of now in
  if match last rows with Some r => du_Date r <? todayStart | None => true end then
    match (if fails (QNodeRow nodeID) then None else GetNode nodeID t) with
    | Some node =>
        if fails QRuns then [] else
        let gaps := GetHubGaps now todayStart (ut_runs t) in
        match rollupOneNode fails node todayStart now (overlapSeconds gaps todayStart now) gaps t with Some row => [row] | None => [] end
    | None => []
    end
  else [].

Definition GetNodeUptimeSummary (nodeID days : Z) (t : Uptime) : option NodeUptimeSummary :=
  let days := if (days <=? 0) || (730 <? days) then 30 else days in
  if fails QDaily then None else
  let rows := GetNodeDailyUptime nodeID (day_of (now - days * dayNs)) t in
  let rows := rows ++ today nodeID rows t in
  let observed := lsum ObservedSec rows in
  let down := lsum DowntimeSec rows in
  Some (MkSummary rows observed down (lsum PlannedSec rows) (lsum OutageCount rows)
    (if 0 <? observed then f64_mul (f64_div (f64_of_int (Z.max 0 (observed - down))) (f64_of_int observed)) (f64_of_int 100)
     else f64_of_int 0)).
End lists.
