(* ===== verification/UptimeTruth.v ===== *)
(** * What the uptime figures mean

    Theorems on [NodeUptime]: the outages paired out of a timeline are the moments
    at which its last event said offline ([pairing_found]); on whole seconds the
    rollup of a day counts exactly the seconds it should ([rollup_exact], from
    [remote_day_exact] and [local_day_exact]); the rollup table has one row for each
    node and day, and a backfill leaves no finished day out ([backfill_complete]).
    Two ways it goes wrong: an outage whose event was pruned
    ([pruned_outage_vanishes]) and a day whose row failed ([failed_day_skipped]). *)

From S2P Require Import Prelude GoFloat GoSeconds AlertEngine NodeConn PanelRuns NodeUptime.

(** ** Outages *)

Definition in_outage (x : Z) (o : NodeOutage) : Prop :=
  out_StartedAt o <= x /\ match out_EndedAt o with Some e => x < e | None => True end.

(** The last event of a timeline up to a moment says offline. *)
Definition offline_at (events : list NodeUptimeEvent) (x : Z) : Prop :=
  exists e, last (filter (fun e => up_Timestamp e <= x) events) = Some e /\ up_Status e = NodeStatusOffline.

Definition event_ok (e : NodeUptimeEvent) : Prop := up_Status e = NodeStatusOnline \/ up_Status e = NodeStatusOffline.
Definition in_order (events : list NodeUptimeEvent) : Prop := StronglySorted (key_le up_Timestamp) events.

(** The outages are one after the other, none past [top]. *)
Definition laid_out (outages : list NodeOutage) (top : Z) : Prop :=
  StronglySorted (fun a b => match out_EndedAt a with Some e => e <= out_StartedAt b | None => False end) outages /\
  Forall (fun o => exists e, out_EndedAt o = Some e /\ out_StartedAt o <= e <= top) outages.

Definition found (acc : list NodeOutage * option NodeOutage) (x : Z) : Prop :=
  (exists o, o ∈ acc.1 /\ in_outage x o) \/ exists o, acc.2 = Some o /\ out_StartedAt o <= x.

Definition paired (pre : list NodeUptimeEvent) (acc : list NodeOutage * option NodeOutage) : Prop :=
  (forall top, Forall (fun e => up_Timestamp e <= top) pre ->
     laid_out acc.1 top /\
     match acc.2 with
     | Some o => out_EndedAt o = None /\ out_StartedAt o <= top /\
                 Forall (fun q => match out_EndedAt q with Some e => e <= out_StartedAt o | None => False end) acc.1
     | None => True
     end) /\
  (is_Some acc.2 <-> exists e, last pre = Some e /\ up_Status e = NodeStatusOffline) /\
  (forall x, found acc x <-> offline_at pre x).

Lemma offline_at_snoc pre ev x :
  Forall (fun e => up_Timestamp e <= up_Timestamp ev) pre ->
  offline_at (pre ++ [ev]) x <-> if up_Timestamp ev <=? x then up_Status ev = NodeStatusOffline else offline_at pre x.
Proof.
  intros Hpre. unfold offline_at. rewrite filter_app. destruct (Z.leb_spec (up_Timestamp ev) x).
  - rewrite (filter_cons_True _ _ []) by done. rewrite filter_nil, last_snoc. naive_solver.
  - rewrite (filter_cons_False _ _ []) by lia. by rewrite filter_nil, app_nil_r.
Qed.

(** Sorted lists with one more at the end. *)
Lemma sorted_app_one {A} (R : A -> A -> Prop) l a : StronglySorted R (l ++ [a]) <-> StronglySorted R l /\ Forall (fun b => R b a) l.
Proof.
  rewrite StronglySorted_app. split.
  - intros (H1 & H2 & _). split; [done|]. apply Forall_forall. intros b Hb. apply H1; [done|by apply list_elem_of_singleton].
  - intros [H1 H2]. rewrite Forall_forall in H2. split_and!; [|done|by repeat constructor].
    intros b c Hb ->%list_elem_of_singleton. by apply H2.
Qed.

Lemma laid_out_mono outages top top' : top <= top' -> laid_out outages top -> laid_out outages top'.
Proof. intros Ht [H1 H2]. split; [done|]. eapply Forall_impl; [exact H2|]. simpl. intros o (e & ? & ?). exists e. split; [done|lia]. Qed.

Lemma found_before top outages x : laid_out outages top -> top <= x -> ~ exists o, o ∈ outages /\ in_outage x o.
Proof.
  intros [_ Hl] Hx (o & Ho & Hin). rewrite Forall_forall in Hl. destruct (Hl o Ho) as (e & He & ?). unfold in_outage in Hin.
  rewrite He in Hin. lia.
Qed.

Section pair_step.
Context (pre : list NodeUptimeEvent) (outs : list NodeOutage) (open : option NodeOutage) (ev : NodeUptimeEvent).
Context (Hpre : Forall (fun e => up_Timestamp e <= up_Timestamp ev) pre) (Hpaired : paired pre (outs, open)).

Lemma top_snoc top :
  Forall (fun e => up_Timestamp e <= top) (pre ++ [ev]) -> Forall (fun e => up_Timestamp e <= top) pre /\ up_Timestamp ev <= top.
Proof. intros [? Ht]%Forall_app. by rewrite Forall_singleton in Ht. Qed.

Lemma pair_step_online : up_Status ev = NodeStatusOnline -> paired (pre ++ [ev]) (pair_step (outs, open) ev).
Proof.
  intros Hon. destruct Hpaired as (H1 & H2 & H3). simpl in *. destruct (H1 _ Hpre) as [Hl Ho].
  unfold pair_step, paired. rewrite last_snoc.
  rewrite Hon. simpl. destruct open as [o|]; simpl.
  - destruct Ho as (Ho1 & Ho2 & Ho3). split_and!.
    + intros top Ht. destruct (top_snoc top Ht) as [Ht1 Ht2]. destruct (H1 top Ht1) as [[Hs Hf] _]. split; [|done]. split.
      * apply sorted_app_one. split; [done|]. by simpl.
      * apply Forall_app. rewrite Forall_singleton. split; [done|]. exists (up_Timestamp ev). simpl. split; [done|lia].
    + rewrite is_Some_alt. split; [done|]. intros (e & [= <-] & He). by rewrite Hon in He.
    + intros x. rewrite offline_at_snoc by done. destruct (Z.leb_spec (up_Timestamp ev) x) as [Hx|Hx].
      * rewrite Hon. split; [|done]. intros [(q & [Hq|Hq%list_elem_of_singleton]%elem_of_app & Hin)|(q & ? & _)]; [| |done].
         -- destruct (found_before _ _ x Hl Hx). by exists q.
         -- subst q. unfold in_outage in Hin. simpl in Hin. lia.
      * rewrite <-H3. unfold found. simpl. split.
         -- intros [(q & [Hq|Hq%list_elem_of_singleton]%elem_of_app & Hin)|(q & ? & _)]; [left; by exists q| |done].
            right. exists o. subst q. split; [done|apply Hin].
         -- intros [(q & Hq & Hin)|(q & [= <-] & Hin)]; left; [exists q; set_solver|]. exists (close_outage (up_Timestamp ev) o).
            split; [set_solver|]. split; [done|]. by simpl.
  - split_and!.
    + intros top Ht. destruct (top_snoc top Ht) as [Ht1 _]. by apply H1.
    + rewrite is_Some_alt. split; [done|]. intros (e & [= <-] & He). by rewrite Hon in He.
    + intros x. rewrite offline_at_snoc by done. destruct (Z.leb_spec (up_Timestamp ev) x) as [Hx|Hx]; [|by rewrite <-H3].
      rewrite Hon. split; [|done]. intros [?|(q & ? & _)]; [|done]. by destruct (found_before _ _ x Hl Hx).
Qed.

Lemma pair_step_offline : up_Status ev = NodeStatusOffline -> paired (pre ++ [ev]) (pair_step (outs, open) ev).
Proof.
  intros Hoff. destruct Hpaired as (H1 & H2 & H3). simpl in *. destruct (H1 _ Hpre) as [Hl Ho].
  unfold pair_step, paired. rewrite last_snoc.
  rewrite Hoff. simpl. destruct open as [o|]; simpl.
  - destruct Ho as (Ho1 & Ho2 & Ho3). split_and!.
    + intros top Ht. destruct (top_snoc top Ht) as [Ht1 _]. by apply H1.
    + split; [|by eexists]. intros _. by exists ev.
    + intros x. rewrite offline_at_snoc by done. destruct (Z.leb_spec (up_Timestamp ev) x) as [Hx|Hx]; [|by rewrite <-H3].
      split; [done|]. intros _. right. exists o. split; [done|lia].
  - split_and!.
    + intros top Ht. destruct (top_snoc top Ht) as [Ht1 Ht2]. destruct (H1 top Ht1) as [Hl' _]. split_and!; [done..|].
      destruct Hl as [_ Hf]. eapply Forall_impl; [exact Hf|]. simpl. intros q (e & -> & ?). lia.
    + split; [|by eexists]. intros _. by exists ev.
    + intros x. rewrite offline_at_snoc by done. destruct (Z.leb_spec (up_Timestamp ev) x) as [Hx|Hx].
      * split; [done|]. intros _. right. by eexists.
      * rewrite <-H3. unfold found. simpl. split; (intros [?|(q & Hq & Hin)]; [by left|]); [|done].
         injection Hq as <-. simpl in Hin. lia.
Qed.

End pair_step.

Lemma pairs_paired events : in_order events -> Forall event_ok events -> paired events (foldl pair_step ([], None) events).
Proof.
  induction events as [|ev events IH] using rev_ind; intros Hs Hok.
  - split_and!; simpl; [by repeat constructor| |].
    + rewrite is_Some_alt. split; [done|]. by intros (e & ? & _).
    + intros x. split; [intros [(o & ?%elem_of_nil & _)|(o & ? & _)]; done|by intros (e & ? & _)].
  - apply sorted_app_one in Hs as [Hs Hle]. apply Forall_app in Hok as [Hok Hev]. rewrite Forall_singleton in Hev.
    rewrite foldl_app. simpl. specialize (IH Hs Hok). destruct (foldl pair_step ([], None) events) as [outs open].
    destruct Hev; [by apply pair_step_online|by apply pair_step_offline].
Qed.

(** The outages, one after the other; only the last may not have ended. *)
Definition one_after_other (outages : list NodeOutage) : Prop :=
  StronglySorted (fun a b => match out_EndedAt a with Some e => e <= out_StartedAt b | None => False end) outages /\
  Forall (fun o => match out_EndedAt o with Some e => out_StartedAt o <= e | None => True end) outages.

Lemma pairing_found events now x :
  in_order events -> Forall event_ok events ->
  one_after_other (pairOutages events now) /\
  ((exists o, o ∈ pairOutages events now /\ in_outage x o) <-> offline_at events x).
Proof.
  intros Hs Hok. destruct (pairs_paired events Hs Hok) as (H1 & _ & H3). unfold pairOutages. rewrite <-H3. clear H3.
  assert (exists top, Forall (fun e => up_Timestamp e <= top) events) as [top Htop].
  { destruct events as [|ev events _] using rev_ind; [by exists 0|]. exists (up_Timestamp ev). apply sorted_app_one in Hs as [_ Hs].
    apply Forall_app. split; [done|]. by rewrite Forall_singleton. }
  destruct (H1 top Htop) as [[Hl1 Hl2] Ho]. unfold found, one_after_other.
  destruct (foldl pair_step ([], None) events) as [outs open]. simpl in *.
  assert (Forall (fun o => match out_EndedAt o with Some e => out_StartedAt o <= e | None => True end) outs) as Hends.
  { eapply Forall_impl; [exact Hl2|]. simpl. intros q (e & -> & ?). lia. }
  destruct open as [o|]; simpl.
  - destruct Ho as (Ho1 & Ho2 & Ho3). split; [split; [by apply sorted_app_one|]|].
    + apply Forall_app. split; [done|]. rewrite Forall_singleton. simpl. by rewrite Ho1.
    + split.
      * intros (q & [Hq|Hq%list_elem_of_singleton]%elem_of_app & Hin); [left; by exists q|]. right. exists o. subst q. split; [done|apply Hin].
      * intros [(q & Hq & Hin)|(q & [= <-] & Hin)]; [exists q; set_solver|]. eexists. split; [apply elem_of_app; right; by left|].
        split; simpl; [done|]. by rewrite Ho1.
  - split; [done|]. split; [by left|]. intros [?|(q & ? & _)]; done.
Qed.

(** ** Counting seconds *)

Definition sane (z : Z) : Prop := exists s, z = sec s /\ 0 <= s < 2 ^ 52.

Definition count (p : Z -> bool) (l : list Z) : Z := lsum (fun s => if p s then 1 else 0) l.

(** A window holds a second. *)
Definition holds (w : TimeWindow) (s : Z) : bool := (From w <=? sec s) && (sec s <? To w).

Lemma foldl_lsum {A} (f : A -> Z) (l : list A) z : foldl (fun t a => t + f a) z l = z + lsum f l.
Proof. revert z. induction l as [|a l IH]; intros z; simpl; [lia|]. rewrite IH. lia. Qed.

Lemma lsum_swap {A B} (f : A -> B -> Z) l k : lsum (fun a => lsum (f a) k) l = lsum (fun b => lsum (fun a => f a b) l) k.
Proof.
  induction l as [|a l IH]; simpl.
  - symmetry. induction k as [|b k IHk]; simpl; [done|]. by rewrite IHk.
  - rewrite IH. clear IH. induction k as [|b k IHk]; simpl; [done|]. lia.
Qed.

Lemma lsum_scale {A} (f : A -> Z) (c : Z) l : lsum f l * c = lsum (fun a => f a * c) l.
Proof. induction l as [|a l IH]; simpl; [done|]. rewrite <-IH. lia. Qed.

Lemma lsum_zero {A} (l : list A) : lsum (fun _ => 0) l = 0.
Proof. induction l as [|a l IH]; simpl; [done|]. by rewrite IH. Qed.

Lemma count_range f t a n : 0 <= n ->
  count (fun s => (f <=? s) && (s <? t)) (seqZ a n) = Z.max 0 (Z.min t (a + n) - Z.max f a).
Proof.
  intros Hn. unfold count. revert a. pattern n. apply natlike_ind; [|clear n Hn|done].
  - intros a. rewrite seqZ_nil by lia. simpl. lia.
  - intros n Hn IH a. rewrite seqZ_cons by lia. simpl. replace (Z.pred (Z.succ n)) with n by lia. rewrite IH.
    destruct (Z.leb_spec f a), (Z.ltb_spec a t); simpl; lia.
Qed.

(** At most one of things that exclude each other. *)
Lemma count_one {A} (R : A -> A -> Prop) (p : A -> bool) (l : list A) :
  StronglySorted R l -> (forall a b, R a b -> p a = true -> p b = true -> False) ->
  lsum (fun a => if p a then 1 else 0) l = if existsb p l then 1 else 0.
Proof.
  intros Hs Hex. induction Hs as [|a l _ IH Ha]; [done|]. simpl. rewrite IH. destruct (p a) eqn:Hp; simpl; [|done].
  destruct (existsb p l) eqn:He; [|lia]. apply existsb_exists in He as (b & Hb%list_elem_of_In & Hpb). rewrite Forall_forall in Ha.
  by destruct (Hex a b (Ha b Hb) Hp Hpb).
Qed.

Definition sane_window (w : TimeWindow) : Prop := sane (From w) /\ sane (To w).
(** Some window holds a second. *)
Definition inb (ws : list TimeWindow) (s : Z) : bool := existsb (fun w => holds w s) ws.

Lemma sec_le a b : (sec a <=? sec b) = (a <=? b).
Proof. unfold sec. lia. Qed.
Lemma sec_lt a b : (sec a <? sec b) = (a <? b).
Proof. unfold sec. lia. Qed.

Lemma secs_between f t : 0 <= f < 2 ^ 52 -> 0 <= t < 2 ^ 52 -> int_seconds (sec t - sec f) = t - f.
Proof. intros Hf Ht. unfold sec. rewrite <-Z.mul_sub_distr_r. apply int_seconds_whole. lia. Qed.

Lemma count_holds f t a n : count (holds (MkWindow (sec f) (sec t))) (seqZ a n) = Z.max 0 (Z.min t (a + n) - Z.max f a) \/ n < 0.
Proof.
  destruct (Z.ltb_spec n 0); [by right|]. left. rewrite <-count_range by done. unfold count, holds. apply lsum_ext. intros s _. simpl.
  by rewrite sec_le, sec_lt.
Qed.

Lemma overlap_sum ws f g :
  Forall sane_window ws -> 0 <= f < 2 ^ 52 -> 0 <= g < 2 ^ 52 ->
  overlapSeconds ws (sec f) (sec g) = lsum (fun w => count (holds w) (seqZ f (g - f))) ws.
Proof.
  intros Hws Hf Hg. unfold overlapSeconds. change 0 with (0 + lsum (fun w => count (holds w) (seqZ f (g - f))) []) at 1.
  assert (forall z, foldl (fun total w => let start := if From w <? sec f then sec f else From w in
    let end_ := if sec g <? To w then sec g else To w in let secs := int_seconds (end_ - start) in
    if 0 <? secs then total + secs else total) z ws = z + lsum (fun w => count (holds w) (seqZ f (g - f))) ws) as H; [|apply (H 0)].
  induction Hws as [|w ws [(a & Ha & Ha') (b & Hb & Hb')] _ IH]; intros z; simpl; [lia|]. rewrite IH. clear IH.
  assert ((if From w <? sec f then sec f else From w) = sec (Z.max a f)) as ->.
  { rewrite Ha, sec_lt. destruct (Z.ltb_spec a f); f_equal; lia. }
  assert ((if sec g <? To w then sec g else To w) = sec (Z.min b g)) as ->.
  { rewrite Hb, sec_lt. destruct (Z.ltb_spec g b); f_equal; lia. }
  rewrite secs_between by lia. destruct w as [F T]. simpl in *. subst F T.
  destruct (count_holds a b f (g - f)) as [-> |Hn].
  - replace (f + (g - f)) with g by lia. destruct (Z.ltb_spec 0 (Z.min b g - Z.max a f)); lia.
  - rewrite seqZ_nil by lia. unfold count. simpl. destruct (Z.ltb_spec 0 (Z.min b g - Z.max a f)); lia.
Qed.

(** Windows in order hold each second once. *)
Lemma windows_once ws s : StronglySorted before ws -> lsum (fun w => if holds w s then 1 else 0) ws = if inb ws s then 1 else 0.
Proof.
  intros Hs. apply (count_one before); [done|]. unfold before, holds. intros a b Hab Ha Hb. lia.
Qed.

Lemma windows_count ws l : StronglySorted before ws -> lsum (fun w => count (holds w) l) ws = count (inb ws) l.
Proof. intros Hs. unfold count. rewrite lsum_swap. apply lsum_ext. intros s _. by apply windows_once. Qed.

(** ** The day of a remote node *)

(** An outage holds a second; one of the given kind does. *)
Definition out_holds (o : NodeOutage) (s : Z) : bool :=
  (out_StartedAt o <=? sec s) && match out_EndedAt o with Some e => sec s <? e | None => true end.
Definition outb (planned : bool) (outages : list NodeOutage) (s : Z) : bool :=
  existsb (fun o => Bool.eqb (out_Planned o) planned && out_holds o s) outages.

Definition sane_outage (o : NodeOutage) : Prop :=
  sane (out_StartedAt o) /\ match out_EndedAt o with Some e => sane e | None => True end.

Lemma outages_once planned outages s :
  one_after_other outages ->
  lsum (fun o => if Bool.eqb (out_Planned o) planned && out_holds o s then 1 else 0) outages = if outb planned outages s then 1 else 0.
Proof.
  intros [Hs _]. eapply count_one; [exact Hs|]. simpl. unfold out_holds. intros a b Hab [_ Ha]%andb_true_iff [_ Hb]%andb_true_iff.
  destruct (out_EndedAt a); [lia|done].
Qed.

Lemma count_app p l k : count p (l ++ k) = count p l + count p k.
Proof. apply lsum_app. Qed.

Lemma count_ext p q l : (forall s, s ∈ l -> p s = q s) -> count p l = count q l.
Proof. intros H. apply lsum_ext. intros s Hs. by rewrite H. Qed.

Lemma count_none p l : (forall s, s ∈ l -> p s = false) -> count p l = 0.
Proof.
  intros H. rewrite (count_ext p (fun _ => false)) by done. unfold count. induction l as [|s l IH]; simpl; [done|]. apply IH.
  intros ? ?. apply H. by right.
Qed.

Lemma count_split p q l : count p l = count (fun s => p s && q s) l + count (fun s => p s && negb (q s)) l.
Proof. unfold count. induction l as [|s l IH]; simpl; [done|]. rewrite IH. destruct (p s), (q s); simpl; lia. Qed.

Lemma count_true l : count (fun _ => true) l = Z.of_nat (length l).
Proof. unfold count. induction l as [|s l IH]; simpl; [done|]. rewrite IH. lia. Qed.

Lemma count_nonneg p l : 0 <= count p l.
Proof. apply lsum_nonneg. intros s _. destruct (p s); lia. Qed.

Lemma count_mono p q l : (forall s, p s = true -> q s = true) -> count p l <= count q l.
Proof.
  intros H. unfold count. induction l as [|s l IH]; simpl; [done|]. specialize (H s). destruct (p s), (q s); try lia.
Qed.

(** Seconds of a stretch of the day. *)
Lemma count_sub p a n st len :
  a <= st -> 0 <= len -> st + len <= a + n ->
  count p (seqZ st len) = count (fun s => (st <=? s) && (s <? st + len) && p s) (seqZ a n).
Proof.
  intros H1 H2 H3. replace n with ((st - a) + (len + (a + n - st - len))) by lia. rewrite !seqZ_app, !count_app by lia.
  replace (a + (st - a)) with st by lia. rewrite (count_none _ (seqZ a _)), (count_none _ (seqZ (st + len) _)).
  - rewrite (count_ext p (fun s => (st <=? s) && (s <? st + len) && p s) (seqZ st len)); [lia|]. intros s Hs%elem_of_seqZ.
    rewrite (proj2 (Z.leb_le st s)), (proj2 (Z.ltb_lt s (st + len))) by lia. done.
  - intros s Hs%elem_of_seqZ. rewrite (proj2 (Z.ltb_ge s (st + len))) by lia. by rewrite andb_false_r.
  - intros s Hs%elem_of_seqZ. rewrite (proj2 (Z.leb_gt st s)) by lia. done.
Qed.

Section remote_day.
Context (a n : Z) (gaps : list TimeWindow) (Ha : 0 <= a) (Hn : 0 <= n) (Hday : a + n < 2 ^ 52).
Context (Hgaps : Forall sane_window gaps) (Hsorted : StronglySorted before gaps).

(** The seconds of the day. *)
Definition day_secs : list Z := seqZ a n.

(** The watched seconds of the day in an outage. *)
Definition charged (o : NodeOutage) : Z := count (fun s => out_holds o s && negb (inb gaps s)) day_secs.

(** The seconds of an outage in the day are a stretch. *)
Lemma outage_stretch o :
  sane_outage o -> exists st e, outage_end (sec (a + n)) o = sec e /\
    (if out_StartedAt o <? sec a then sec a else out_StartedAt o) = sec st /\ a <= st < 2 ^ 52 /\ 0 <= e <= a + n /\
    forall s, s ∈ day_secs -> out_holds o s = (st <=? s) && (s <? e).
Proof.
  intros [(f & Hf & Hf') He]. rewrite Hf, sec_lt.
  assert ((if f <? a then sec a else sec f) = sec (Z.max a f)) as -> by (destruct (Z.ltb_spec f a); f_equal; lia).
  exists (Z.max a f). unfold outage_end, out_holds. rewrite Hf. destruct (out_EndedAt o) as [e|].
  - destruct He as (e' & -> & He'). exists (Z.min e' (a + n)). rewrite sec_lt. split_and!; try lia.
    + destruct (Z.ltb_spec e' (a + n)); f_equal; lia.
    + intros s Hs%elem_of_seqZ. rewrite sec_le, sec_lt. lia.
  - exists (a + n). split_and!; try (done || lia). intros s Hs%elem_of_seqZ. rewrite sec_le. lia.
Qed.

Lemma day_step_exact o d p k :
  sane_outage o ->
  day_step (sec a) (sec (a + n)) gaps (d, p, k) o =
    if out_Planned o then (d, p + charged o, k) else (d + charged o, p, k + if 0 <? charged o then 1 else 0).
Proof.
  intros Ho. destruct (outage_stretch o Ho) as (st & e & He & Hst & Hr1 & Hr2 & Hin). unfold day_step. rewrite He, Hst.
  rewrite secs_between by lia.
  assert (charged o = if e - st <=? 0 then 0 else e - st - count (inb gaps) (seqZ st (e - st))) as Hc.
  { unfold charged. destruct (Z.leb_spec (e - st) 0).
    - apply count_none. intros s Hs. rewrite (Hin s Hs). lia.
    - pose proof (count_split (fun _ => true) (inb gaps) (seqZ st (e - st))) as Hsp. rewrite count_true, length_seqZ in Hsp. simpl in Hsp.
      rewrite (count_sub (fun s => negb (inb gaps s)) a n) in Hsp by lia. replace (st + (e - st)) with e in Hsp by lia.
      rewrite (count_ext _ (fun s => (st <=? s) && (s <? e) && negb (inb gaps s)) day_secs).
      + unfold day_secs. change (count (fun s => inb gaps s)) with (count (inb gaps)) in Hsp. lia.
      + intros s Hs. by rewrite (Hin s Hs). }
  pose proof (count_nonneg (fun s => out_holds o s && negb (inb gaps s)) day_secs) as Hpos. fold (charged o) in Hpos.
  destruct (Z.leb_spec (e - st) 0).
  - rewrite Hc. simpl. rewrite !Z.add_0_r. by destruct (out_Planned o).
  - rewrite overlap_sum, windows_count by (done || lia). set (ov := count (inb gaps) (seqZ st (e - st))) in *.
    pose proof (count_nonneg (inb gaps) (seqZ st (e - st))) as Hov. fold ov in Hov.
    assert ((if 0 <? ov then e - st - ov else e - st) = charged o) as -> by (destruct (Z.ltb_spec 0 ov); lia).
    destruct (Z.leb_spec (charged o) 0).
    + replace (charged o) with 0 by lia. simpl. rewrite !Z.add_0_r. by destruct (out_Planned o).
    + rewrite (proj2 (Z.ltb_lt _ _)) by lia. by destruct (out_Planned o).
Qed.

Definition charged_of (planned : bool) (o : NodeOutage) : Z := if Bool.eqb (out_Planned o) planned then charged o else 0.

Lemma day_steps outages d p k :
  Forall sane_outage outages ->
  foldl (day_step (sec a) (sec (a + n)) gaps) (d, p, k) outages =
    (d + lsum (charged_of false) outages, p + lsum (charged_of true) outages,
     k + lsum (fun o => if 0 <? charged_of false o then 1 else 0) outages).
Proof.
  intros Hs. revert d p k. induction Hs as [|o outages Ho _ IH]; intros d p k; [by simpl; rewrite !Z.add_0_r|].
  cbn [foldl]. rewrite day_step_exact by done. rewrite !lsum_cons. unfold charged_of at 1 3 5.
  destruct (out_Planned o); rewrite IH; simpl; by rewrite ?Z.add_0_l, ?Z.add_assoc.
Qed.

Lemma charged_count planned outages :
  one_after_other outages -> lsum (charged_of planned) outages = count (fun s => outb planned outages s && negb (inb gaps s)) day_secs.
Proof.
  intros Ho. unfold charged_of, charged, count.
  rewrite (lsum_ext _ (fun o => lsum (fun s => (if Bool.eqb (out_Planned o) planned && out_holds o s then 1 else 0) *
    (if negb (inb gaps s) then 1 else 0)) day_secs)).
  - rewrite lsum_swap. apply lsum_ext. intros s _. rewrite <-(lsum_scale _ _ outages), outages_once by done.
    by destruct (outb planned outages s), (inb gaps s).
  - intros o _. destruct (Bool.eqb (out_Planned o) planned); simpl; [|by rewrite lsum_zero].
    apply lsum_ext. intros s _. by destruct (out_holds o s), (inb gaps s).
Qed.

(** No second is both planned and not. *)
Lemma outb_exclusive outages s : one_after_other outages -> outb true outages s = true -> outb false outages s = false.
Proof.
  intros [Hs _] Ht. destruct (outb false outages s) eqn:Hf; [|done]. unfold outb in *.
  induction Hs as [|o outages Hs IH Ho]; [done|]. simpl in *. apply orb_true_iff in Ht, Hf. rewrite Forall_forall in Ho.
  assert (forall b, out_holds o s = true -> existsb (fun o => Bool.eqb (out_Planned o) b && out_holds o s) outages = true -> False) as Hno.
  { intros b Hh (q & Hq%list_elem_of_In & [_ Hqs]%andb_true_iff)%existsb_exists. specialize (Ho q Hq). unfold out_holds in *.
    destruct (out_EndedAt o); [lia|done]. }
  destruct Ht as [Ht|Ht], Hf as [Hf|Hf]; [|..|by apply IH].
  - destruct (out_Planned o); simpl in *; done.
  - apply andb_true_iff in Ht as [_ Ht]. by destruct (Hno false Ht).
  - apply andb_true_iff in Hf as [_ Hf]. by destruct (Hno true Hf).
Qed.

(** The day of a remote node counts its watched seconds: those in a planned
    outage, those in another, and those not in a planned one. *)
Lemma remote_day_exact id outages :
  Forall sane_outage outages -> one_after_other outages ->
  let r := remoteDayUptime id (sec a) (sec (a + n)) (overlapSeconds gaps (sec a) (sec (a + n))) outages gaps in
  PlannedSec r = count (fun s => outb true outages s && negb (inb gaps s)) day_secs /\
  DowntimeSec r = count (fun s => outb false outages s && negb (inb gaps s)) day_secs /\
  ObservedSec r = count (fun s => negb (outb true outages s) && negb (inb gaps s)) day_secs.
Proof.
  intros Hs Ho. unfold remoteDayUptime. rewrite day_steps, !charged_count by done. simpl. rewrite overlap_sum, windows_count by (done || lia).
  rewrite secs_between by lia. replace (a + n - a) with n by lia. fold day_secs.
  pose proof (count_split (fun _ => true) (inb gaps) day_secs) as H1. rewrite count_true in H1. unfold day_secs in H1 at 1.
  rewrite length_seqZ, Z2Nat.id in H1 by done. simpl in H1.
  pose proof (count_split (fun s => negb (inb gaps s)) (outb true outages) day_secs) as H2. cbv beta in H2.
  assert (forall p, count (fun s => negb (inb gaps s) && p s) day_secs = count (fun s => p s && negb (inb gaps s)) day_secs) as Hc.
  { intros p. apply count_ext. intros s _. apply andb_comm. }
  rewrite (Hc (outb true outages)), (Hc (fun s => negb (outb true outages s))) in H2.
  pose proof (count_nonneg (fun s => negb (inb gaps s)) day_secs). change (count (fun s => inb gaps s)) with (count (inb gaps)) in H1.
  pose proof (count_nonneg (fun s => negb (outb true outages s) && negb (inb gaps s)) day_secs).
  assert (count (fun s => outb false outages s && negb (inb gaps s)) day_secs <=
    count (fun s => negb (outb true outages s) && negb (inb gaps s)) day_secs) as Hle.
  { apply count_mono. intros s [Hf Hg]%andb_true_iff. rewrite Hg, andb_true_r. destruct (outb true outages s) eqn:Ht; [|done].
    by rewrite (outb_exclusive outages s Ho Ht) in Hf. }
  split_and!; lia.
Qed.
End remote_day.

(** ** Merging windows *)

Definition apart (v w : TimeWindow) : Prop := To v < From w.
Definition nonempty (w : TimeWindow) : Prop := From w < To w.

Lemma join_exact last_ ws :
  nonempty last_ -> Forall nonempty ws -> StronglySorted (key_le From) ws -> Forall (fun w => From last_ <= From w) ws ->
  StronglySorted apart (join_windows last_ ws) /\ Forall nonempty (join_windows last_ ws) /\
  Forall (fun w => From last_ <= From w) (join_windows last_ ws) /\
  forall x, in_windows (join_windows last_ ws) x <-> in_windows (last_ :: ws) x.
Proof.
  intros Hl Hws Hs. revert last_ Hl. induction Hs as [|w ws Hs IH Hw]; intros l Hl Hle; simpl.
  { split_and!; [by repeat constructor|by repeat constructor|by repeat constructor|done]. }
  apply Forall_cons in Hws as [Hwn Hws]. apply Forall_cons in Hle as [Hlw Hle]. unfold nonempty in Hl, Hwn.
  destruct (Z.leb_spec (From w) (To l)).
  - set (l' := MkWindow (From l) (if To l <? To w then To w else To l)).
    assert (From l' = From l /\ To l' = Z.max (To l) (To w)) as [Hf Ht] by (unfold l'; simpl; split; [done|destruct (Z.ltb_spec (To l) (To w)); lia]).
    clearbody l'. destruct (IH Hws l') as (H1 & H2 & H3 & H4); [unfold nonempty; lia|by rewrite Hf|]. rewrite Hf in H3.
    split_and!; try done. intros x. rewrite H4. unfold in_windows. split.
    + intros (v & Hv & Hx). apply elem_of_cons in Hv as [->|Hv]; [|exists v; set_solver].
      destruct (decide (x < To l)); [exists l|exists w]; (split; [set_solver|lia]).
    + intros (v & Hv & Hx). apply elem_of_cons in Hv as [->|Hv]; [exists l'; split; [set_solver|lia]|].
      apply elem_of_cons in Hv as [->|Hv]; [exists l'; split; [set_solver|lia]|exists v; set_solver].
  - destruct (IH Hws w Hwn Hw) as (H1 & H2 & H3 & H4). split_and!.
    + constructor; [done|]. eapply Forall_impl; [exact H3|]. unfold apart. simpl. lia.
    + by constructor.
    + constructor; [lia|]. eapply Forall_impl; [exact H3|]. simpl. lia.
    + intros x. unfold in_windows in *. split.
      * intros (v & Hv & Hx). apply elem_of_cons in Hv as [->|Hv]; [exists l; set_solver|].
        destruct (proj1 (H4 x)) as (u & Hu & Hux); [by exists v|]. exists u. set_solver.
      * intros (v & Hv & Hx). apply elem_of_cons in Hv as [->|Hv]; [exists l; set_solver|].
        destruct (proj2 (H4 x)) as (u & Hu & Hux); [by exists v|]. exists u. set_solver.
Qed.

(** The bounds of the merged windows are bounds of the windows. *)
Lemma join_bounds (P Q : Z -> Prop) last_ ws :
  P (From last_) -> Q (To last_) -> Forall (fun w => P (From w) /\ Q (To w)) ws ->
  Forall (fun w => P (From w) /\ Q (To w)) (join_windows last_ ws).
Proof.
  intros Hf Ht Hws. revert last_ Hf Ht. induction Hws as [|w ws [Hw1 Hw2] _ IH]; intros l Hf Ht; simpl; [by repeat constructor|].
  destruct (From w <=? To l); [apply IH; simpl; [done|by case_match]|]. constructor; [done|by apply IH].
Qed.

Lemma merge_bounds (P Q : Z -> Prop) ws :
  Forall (fun w => P (From w) /\ Q (To w)) ws -> Forall (fun w => P (From w) /\ Q (To w)) (mergeWindows ws).
Proof.
  intros Hws. unfold mergeWindows. destruct (_ <? 2)%nat; [done|]. rewrite <-(sort_on_perm From) in Hws.
  destruct Hws as [|w k [? ?] ?]; [done|]. by apply join_bounds.
Qed.

(** Merging: the windows that are left lie apart, and hold the same moments. *)
Lemma merge_exact ws :
  Forall nonempty ws ->
  StronglySorted apart (mergeWindows ws) /\ Forall nonempty (mergeWindows ws) /\
  forall x, in_windows (mergeWindows ws) x <-> in_windows ws x.
Proof.
  intros Hws. unfold mergeWindows. destruct (Nat.ltb_spec (length ws) 2).
  - split_and!; try done. destruct ws as [|w [|]]; simpl in *; [by repeat constructor|by repeat constructor|lia].
  - assert (forall x, in_windows (sort_on From ws) x <-> in_windows ws x) as Hin.
    { intros x. unfold in_windows. setoid_rewrite (sort_on_perm From ws). done. }
    pose proof (sort_on_le From ws) as Hs. rewrite <-(sort_on_perm From) in Hws.
    destruct Hs as [|w k Hs Hw]; [by split_and!; [repeat constructor..|]|]. apply Forall_cons in Hws as [Hwn Hws].
    destruct (join_exact w k Hwn Hws Hs Hw) as (H1 & H2 & _ & H4). split_and!; try done. intros x. by rewrite H4.
Qed.

Lemma holds_spec ws s : inb ws s = true <-> in_windows ws (sec s).
Proof.
  unfold inb, in_windows. rewrite existsb_exists. setoid_rewrite <-list_elem_of_In. unfold holds.
  split; intros (w & Hw & Hx); exists w; (split; [done|lia]).
Qed.

Lemma merge_inb ws s : Forall nonempty ws -> inb (mergeWindows ws) s = inb ws s.
Proof. intros Hws. apply eq_true_iff_eq. rewrite !holds_spec. by apply merge_exact. Qed.

(** ** The day of the built-in node *)

Section local_day.
Context (a n : Z) (Ha : 0 <= a) (Hn : 0 <= n) (Hday : a + n < 2 ^ 52).

(** A window of whole seconds inside the day. *)
Definition day_window (w : TimeWindow) : Prop :=
  (exists f, From w = sec f /\ a <= f) /\ (exists t, To w = sec t /\ t <= a + n).

Lemma clip_day f t w :
  0 <= f -> clipWindow (MkWindow (sec f) (sec t)) (sec a) (sec (a + n)) = Some w ->
  day_window w /\ nonempty w /\ forall s, s ∈ seqZ a n -> holds w s = (f <=? s) && (s <? t).
Proof.
  intros Hf. unfold clipWindow. simpl. rewrite !sec_lt.
  assert ((if f <? a then sec a else sec f) = sec (Z.max a f)) as -> by (destruct (Z.ltb_spec f a); f_equal; lia).
  assert ((if a + n <? t then sec (a + n) else sec t) = sec (Z.min (a + n) t)) as -> by (destruct (Z.ltb_spec (a + n) t); f_equal; lia).
  rewrite sec_lt. destruct (Z.ltb_spec (Z.max a f) (Z.min (a + n) t)); [|done]. intros [= <-]. split_and!.
  - split; [exists (Z.max a f)|exists (Z.min (a + n) t)]; (split; [done|lia]).
  - unfold nonempty, sec. simpl. lia.
  - intros s Hs%elem_of_seqZ. unfold holds. simpl. rewrite sec_le, sec_lt. lia.
Qed.

Lemma clip_none f t :
  clipWindow (MkWindow (sec f) (sec t)) (sec a) (sec (a + n)) = None -> forall s, s ∈ seqZ a n -> (f <=? s) && (s <? t) = false.
Proof.
  unfold clipWindow. simpl. rewrite !sec_lt.
  assert ((if f <? a then sec a else sec f) = sec (Z.max a f)) as -> by (destruct (Z.ltb_spec f a); f_equal; lia).
  assert ((if a + n <? t then sec (a + n) else sec t) = sec (Z.min (a + n) t)) as -> by (destruct (Z.ltb_spec (a + n) t); f_equal; lia).
  rewrite sec_lt. destruct (Z.ltb_spec (Z.max a f) (Z.min (a + n) t)); [done|]. intros _ s Hs%elem_of_seqZ. lia.
Qed.

(** Clipping the things of a list that hold seconds. *)
Lemma clip_all {A} (g : A -> option TimeWindow) (h : A -> Z -> bool) (l : list A) :
  (forall x, x ∈ l -> match g x with
    | Some w => day_window w /\ nonempty w /\ forall s, s ∈ seqZ a n -> holds w s = h x s
    | None => forall s, s ∈ seqZ a n -> h x s = false end) ->
  Forall (fun w => day_window w /\ nonempty w) (omap g l) /\ forall s, s ∈ seqZ a n -> inb (omap g l) s = existsb (fun x => h x s) l.
Proof.
  induction l as [|x l IH]; intros Hg; simpl; [done|]. destruct IH as [H1 H2]; [intros y Hy; apply Hg; by right|].
  specialize (Hg x (list_elem_of_here _ _)). destruct (g x) as [w|]; simpl.
  - destruct Hg as (Hd & Hne & Hh). split; [by constructor|]. intros s Hs. by rewrite Hh, H2.
  - split; [done|]. intros s Hs. by rewrite Hg, H2.
Qed.

Lemma day_windows_exact planned outages :
  Forall sane_outage outages ->
  Forall (fun w => day_window w /\ nonempty w) (day_windows (sec a) (sec (a + n)) planned outages) /\
  forall s, s ∈ seqZ a n -> inb (day_windows (sec a) (sec (a + n)) planned outages) s = outb planned outages s.
Proof.
  intros Hs. unfold day_windows, outb. rewrite Forall_forall in Hs.
  apply (clip_all _ (fun o s => Bool.eqb (out_Planned o) planned && out_holds o s)). intros o Ho. destruct (Bool.eqb _ _); [|done]. simpl.
  specialize (Hs o Ho). destruct (outage_stretch a n Ha Hn Hday o Hs) as (st & e & He & Hst & H1 & H2 & Hin). rewrite He.
  destruct Hs as [(f & Hf & Hf') _]. rewrite Hf in *. assert (forall s, s ∈ seqZ a n -> (f <=? s) && (s <? e) = out_holds o s) as Hh.
  { intros s Hs. rewrite Hin by done. apply elem_of_seqZ in Hs. rewrite sec_lt in Hst. destruct (Z.ltb_spec f a); unfold sec in Hst; lia. }
  destruct (clipWindow _ _ _) as [w|] eqn:Hc.
  - destruct (clip_day f e w) as (? & ? & Hw); [lia|done|]. split_and!; try done. intros s Hs. by rewrite Hw, Hh.
  - intros s Hs. rewrite <-Hh by done. by apply (clip_none f e Hc).
Qed.

Lemma gap_windows_exact gaps :
  Forall sane_window gaps ->
  Forall (fun w => day_window w /\ nonempty w) (omap (fun g => clipWindow g (sec a) (sec (a + n))) gaps) /\
  forall s, s ∈ seqZ a n -> inb (omap (fun g => clipWindow g (sec a) (sec (a + n))) gaps) s = inb gaps s.
Proof.
  intros Hs. rewrite Forall_forall in Hs. apply (clip_all _ holds). intros [F T] Hg.
  destruct (Hs _ Hg) as [(f & Hf & ?) (t & Ht & ?)]. simpl in *. subst F T.
  destruct (clipWindow _ _ _) as [w|] eqn:Hc.
  - destruct (clip_day f t w) as (? & ? & Hw); [lia|done|]. split_and!; try done. intros s Hs'. rewrite Hw by done. unfold holds. simpl.
    by rewrite sec_le, sec_lt.
  - intros s Hs'. unfold holds. simpl. rewrite sec_le, sec_lt. by apply (clip_none f t Hc).
Qed.

Lemma apart_before ws : StronglySorted apart ws -> StronglySorted before ws.
Proof.
  induction 1 as [|w ws _ IH Hw]; constructor; [done|]. eapply Forall_impl; [exact Hw|]. unfold apart, before. simpl. lia.
Qed.

Lemma day_window_secs w : day_window w -> nonempty w ->
  exists f t, w = MkWindow (sec f) (sec t) /\ a <= f < t /\ t <= a + n /\ int_seconds (To w - From w) = count (holds w) (seqZ a n).
Proof.
  intros [(f & Hf & Hf') (t & Ht & Ht')] Hne. destruct w as [F T]. unfold nonempty in Hne. simpl in *. subst F T.
  assert (f < t) by (unfold sec in Hne; lia). exists f, t. split_and!; try (done || lia). rewrite secs_between by lia.
  destruct (count_holds f t a n) as [-> |?]; lia.
Qed.

Lemma windows_secs ws :
  Forall (fun w => day_window w /\ nonempty w) ws -> StronglySorted apart ws -> windowsSeconds ws = count (inb ws) (seqZ a n).
Proof.
  intros Hw Hs. unfold windowsSeconds. rewrite foldl_lsum, <-windows_count by (by apply apart_before). simpl. apply lsum_ext.
  intros w Hin. rewrite Forall_forall in Hw. destruct (Hw w Hin) as [H1 H2]. by destruct (day_window_secs w H1 H2) as (f & t & _ & _ & _ & ?).
Qed.

Lemma intersect_secs ws vs :
  Forall (fun w => day_window w /\ nonempty w) ws -> StronglySorted apart ws ->
  Forall (fun w => day_window w /\ nonempty w) vs -> StronglySorted apart vs ->
  intersectSeconds ws vs = count (fun s => inb ws s && inb vs s) (seqZ a n).
Proof.
  intros Hw Hs Hv Hsv. unfold intersectSeconds. rewrite foldl_lsum. simpl.
  rewrite (lsum_ext _ (fun w => lsum (fun s => (if holds w s then 1 else 0) * (if inb vs s then 1 else 0)) (seqZ a n))).
  - rewrite lsum_swap. apply lsum_ext. intros s _. rewrite <-(lsum_scale _ _ ws), windows_once by (by apply apart_before).
    by destruct (inb ws s), (inb vs s).
  - intros w Hin. rewrite Forall_forall in Hw. destruct (Hw w Hin) as [H1 H2].
    destruct (day_window_secs w H1 H2) as (f & t & -> & Hft & Ht & _). simpl.
    assert (Forall sane_window vs) as Hsane.
    { eapply Forall_impl; [exact Hv|]. intros v [Hd Hne]. destruct (day_window_secs v Hd Hne) as (f' & t' & -> & ? & ? & _).
      split; [exists f'|exists t']; (split; [done|lia]). }
    rewrite overlap_sum, windows_count by (done || lia || by apply apart_before). rewrite (count_sub _ a n) by lia. apply lsum_ext. intros s _.
    unfold holds. simpl. rewrite sec_le, sec_lt. replace (f + (t - f)) with t by lia. by destruct (f <=? s), (s <? t), (inb vs s).
Qed.

Lemma merged_day ws :
  Forall (fun w => day_window w /\ nonempty w) ws ->
  Forall (fun w => day_window w /\ nonempty w) (mergeWindows ws) /\ StronglySorted apart (mergeWindows ws) /\
  forall s, inb (mergeWindows ws) s = inb ws s.
Proof.
  intros Hws. assert (Forall nonempty ws) as Hne by (eapply Forall_impl; [exact Hws|]; by intros w [_ ?]).
  destruct (merge_exact ws Hne) as (H1 & H2 & _). split_and!; [|done|intros s; by apply merge_inb].
  assert (Forall day_window (mergeWindows ws)) as Hd.
  { apply (merge_bounds (fun z => exists f, z = sec f /\ a <= f) (fun z => exists t, z = sec t /\ t <= a + n)).
    eapply Forall_impl; [exact Hws|]. by intros w [? _]. }
  rewrite Forall_forall in *. intros w Hw. split; [by apply Hd|by apply H2].
Qed.

(** The day of the built-in node counts its seconds: those in a planned outage;
    those not, but in another outage or in a gap; and those not in a planned
    one. *)
Lemma local_day_exact id outages gaps :
  Forall sane_outage outages -> Forall sane_window gaps ->
  let r := localDayUptime id (sec a) (sec (a + n)) outages gaps in
  PlannedSec r = count (outb true outages) (seqZ a n) /\
  DowntimeSec r = count (fun s => (outb false outages s || inb gaps s) && negb (outb true outages s)) (seqZ a n) /\
  ObservedSec r = count (fun s => negb (outb true outages s)) (seqZ a n).
Proof.
  intros Ho Hg. unfold localDayUptime. destruct (day_windows_exact false outages Ho) as [F1 F2].
  destruct (day_windows_exact true outages Ho) as [P1 P2]. destruct (gap_windows_exact gaps Hg) as [G1 G2].
  set (down := day_windows _ _ false outages ++ _). set (planned := day_windows _ _ true outages) in *.
  assert (forall s, s ∈ seqZ a n -> inb down s = outb false outages s || inb gaps s) as D2.
  { intros s Hs. unfold down, inb. rewrite existsb_app. fold (inb (day_windows (sec a) (sec (a + n)) false outages) s).
    rewrite F2 by done. f_equal. by apply G2. }
  destruct (merged_day down) as (MD1 & MD2 & MD3); [by apply Forall_app|]. destruct (merged_day planned) as (MP1 & MP2 & MP3); [done|].
  simpl. rewrite intersect_secs, !windows_secs by done. rewrite secs_between by lia. replace (a + n - a) with n by lia.
  rewrite (count_ext (inb (mergeWindows planned)) (outb true outages)) by (intros s Hs; by rewrite MP3, P2).
  rewrite (count_ext (inb (mergeWindows down)) (fun s => outb false outages s || inb gaps s)) by (intros s Hs; by rewrite MD3, D2).
  rewrite (count_ext (fun s => inb (mergeWindows down) s && inb (mergeWindows planned) s)
    (fun s => (outb false outages s || inb gaps s) && outb true outages s)) by (intros s Hs; by rewrite MD3, MP3, P2, D2).
  pose proof (count_split (fun s => outb false outages s || inb gaps s) (outb true outages) (seqZ a n)) as H1. cbv beta in H1.
  pose proof (count_split (fun _ => true) (outb true outages) (seqZ a n)) as H2. rewrite count_true, length_seqZ, Z2Nat.id in H2 by done.
  simpl in H2. change (count (fun s => outb true outages s)) with (count (outb true outages)) in H2.
  pose proof (count_nonneg (fun s => negb (outb true outages s)) (seqZ a n)).
  assert (count (fun s => (outb false outages s || inb gaps s) && negb (outb true outages s)) (seqZ a n) <=
    count (fun s => negb (outb true outages s)) (seqZ a n)) by (apply count_mono; by intros s [_ ?]%andb_true_iff).
  split_and!; lia.
Qed.
End local_day.

(** ** The rollup of a node's day *)

(** The events of a node, in order. *)
Definition node_events (id : Z) (t : Uptime) : list NodeUptimeEvent :=
  sort_on up_Timestamp (filter (fun e => up_NodeID e = id) (ut_events t)).

Definition offlineb (events : list NodeUptimeEvent) (s : Z) : bool :=
  match last (filter (fun e => up_Timestamp e <= sec s) events) with
  | Some e => bool_decide (up_Status e = NodeStatusOffline)
  | None => false
  end.

Lemma offlineb_spec events s : offlineb events s = true <-> offline_at events (sec s).
Proof.
  unfold offlineb, offline_at. destruct (last _) as [e|]; [|naive_solver]. rewrite bool_decide_eq_true. naive_solver.
Qed.

Lemma pair_step_sane acc ev :
  sane (up_Timestamp ev) -> Forall sane_outage acc.1 -> (forall o, acc.2 = Some o -> sane_outage o) ->
  Forall sane_outage (pair_step acc ev).1 /\ (forall o, (pair_step acc ev).2 = Some o -> sane_outage o).
Proof.
  intros Hev Hout Hop. destruct acc as [outs open]. simpl in *. unfold pair_step.
  destruct (bool_decide (up_Status ev = NodeStatusOffline)), open as [o|]; simpl; try done.
  - split; [done|]. by intros o [= <-].
  - destruct (bool_decide _); simpl; [|done]. split; [|done]. apply Forall_app. rewrite Forall_singleton. split; [done|].
    destruct (Hop o eq_refl). by split.
  - by destruct (bool_decide _).
Qed.

Lemma pair_sane events now : Forall (fun e => sane (up_Timestamp e)) events -> Forall sane_outage (pairOutages events now).
Proof.
  intros Hs. unfold pairOutages. assert (forall acc, Forall sane_outage acc.1 -> (forall o, acc.2 = Some o -> sane_outage o) ->
    Forall sane_outage (foldl pair_step acc events).1 /\ (forall o, (foldl pair_step acc events).2 = Some o -> sane_outage o)) as H.
  { induction Hs as [|ev events Hev _ IH]; intros acc H1 H2; [done|]. simpl. destruct (pair_step_sane acc ev Hev H1 H2). by apply IH. }
  destruct (H ([], None)) as [H1 H2]; [constructor|done|]. destruct (foldl pair_step ([], None) events) as [outs [o|]]; simpl in *; [|done].
  apply Forall_app. split; [done|]. rewrite Forall_singleton. destruct (H2 o eq_refl) as [? ?]. by split.
Qed.

(** The outages of a timeline hold the seconds at which it says offline. *)
Lemma outages_offline events now s :
  in_order events -> Forall event_ok events ->
  one_after_other (pairOutages events now) /\
  outb true (pairOutages events now) s || outb false (pairOutages events now) s = offlineb events s.
Proof.
  intros Hs Hok. destruct (pairing_found events now (sec s) Hs Hok) as [H1 H2]. split; [done|]. apply eq_true_iff_eq.
  rewrite offlineb_spec, <-H2, orb_true_iff. unfold outb. rewrite !existsb_exists.
  assert (forall o, out_holds o s = true <-> in_outage (sec s) o) as Hh.
  { intros o. unfold out_holds, in_outage. destruct (out_EndedAt o); lia. }
  setoid_rewrite <-list_elem_of_In. setoid_rewrite <-Hh. split.
  - intros [(o & Ho & [_ ?]%andb_true_iff)|(o & Ho & [_ ?]%andb_true_iff)]; by exists o.
  - intros (o & Ho & Hx). destruct (out_Planned o) eqn:Hp; [left|right]; exists o; by rewrite Hp.
Qed.

(** Sorting what was filtered is filtering what was sorted. *)
Lemma sort_filter {A} (f : A -> Z) (P : A -> Prop) `{!forall x, Decision (P x)} l :
  NoDup (f <$> l) -> sort_on f (filter P l) = filter P (sort_on f l).
Proof.
  intros Hnd. apply (StronglySorted_unique_strict f).
  - apply sort_on_sorted. eapply sublist_NoDup; [exact Hnd|]. apply fmap_sublist, sublist_filter.
  - apply StronglySorted_filter. by apply sort_on_sorted.
  - by rewrite sort_on_perm, (sort_on_perm f l).
Qed.

Section node_day.
Context (t : Uptime) (id dayStart dayEnd : Z).
Context (Hnd : NoDup (up_Timestamp <$> filter (fun e => up_NodeID e = id) (ut_events t))).
Context (Hok : Forall event_ok (node_events id t)).

Lemma range_events :
  GetUptimeEventsRange id dayStart dayEnd t = filter (fun e => dayStart <= up_Timestamp e < dayEnd) (node_events id t).
Proof.
  unfold GetUptimeEventsRange, node_events. rewrite <-sort_filter, list_filter_filter by done. f_equal. apply list_filter_iff. naive_solver.
Qed.

Lemma before_event : GetLastUptimeEventBefore id dayStart t = last (filter (fun e => up_Timestamp e < dayStart) (node_events id t)).
Proof.
  unfold GetLastUptimeEventBefore, node_events. rewrite <-sort_filter, list_filter_filter by done. do 2 f_equal. apply list_filter_iff. naive_solver.
Qed.

(** The events of the day, after one that opens it if the node was offline. *)
Definition seeded : list NodeUptimeEvent :=
  let events := GetUptimeEventsRange id dayStart dayEnd t in
  match GetLastUptimeEventBefore id dayStart t with
  | Some p => if bool_decide (up_Status p = NodeStatusOffline)
              then MkUptime id NodeStatusOffline (up_Reason p) "" dayStart :: events else events
  | None => events
  end.

Lemma sorted_split (l : list NodeUptimeEvent) x :
  in_order l -> l = filter (fun e => up_Timestamp e < x) l ++ filter (fun e => x <= up_Timestamp e) l.
Proof.
  induction 1 as [|e l Hs IH He]; [done|]. rewrite !filter_cons. destruct (decide (up_Timestamp e < x)), (decide (x <= up_Timestamp e)); try lia.
  - simpl. by rewrite <-IH.
  - rewrite (list_filter_none (fun e => up_Timestamp e < x)); [simpl; f_equal|].
    + rewrite list_filter_all; [done|]. eapply Forall_impl; [exact He|]. unfold key_le. simpl. lia.
    + eapply Forall_impl; [exact He|]. unfold key_le. simpl. lia.
Qed.

Lemma seeded_ok : in_order seeded /\ Forall event_ok seeded.
Proof.
  unfold seeded. rewrite range_events. set (R := filter _ (node_events id t)).
  assert (in_order R) as HR by (apply StronglySorted_filter, sort_on_le). assert (Forall event_ok R) as HRk.
  { rewrite Forall_forall in Hok |- *. intros e [_ He]%list_elem_of_filter. by apply Hok. }
  destruct (GetLastUptimeEventBefore id dayStart t) as [p|]; [|done]. destruct (bool_decide _); [|done]. split; constructor; try done.
  - apply Forall_forall. intros e [? _]%list_elem_of_filter. unfold key_le. simpl. lia.
  - by right.
Qed.

Lemma seeded_offline s : dayStart <= sec s < dayEnd -> offlineb seeded s = offlineb (node_events id t) s.
Proof.
  intros Hs. unfold offlineb. set (all := node_events id t).
  assert (in_order all) as Hall by (apply sort_on_le).
  assert (filter (fun e => up_Timestamp e <= sec s) all = filter (fun e => up_Timestamp e < dayStart) all ++
    filter (fun e => up_Timestamp e <= sec s) (filter (fun e => dayStart <= up_Timestamp e < dayEnd) all)) as ->.
  { rewrite (sorted_split all dayStart Hall) at 1. rewrite filter_app, !list_filter_filter. f_equal; apply list_filter_iff; intros e; lia. }
  unfold seeded. rewrite before_event, range_events. fold all. set (A := filter (fun e => up_Timestamp e < dayStart) all).
  set (R := filter _ all). rewrite last_app. destruct (last (filter (fun e => up_Timestamp e <= sec s) R)) as [e|] eqn:Hl.
  - destruct (last A) as [p|]; [|by rewrite Hl]. destruct (bool_decide (up_Status p = NodeStatusOffline)); [|by rewrite Hl].
    rewrite filter_cons_True by (simpl; lia). by rewrite last_cons, Hl.
  - destruct (last A) as [p|]; [|by rewrite Hl]. destruct (bool_decide (up_Status p = NodeStatusOffline)) eqn:Hp; [|by rewrite Hl].
    rewrite filter_cons_True by (simpl; lia). rewrite last_cons, Hl. done.
Qed.
End node_day.

Lemma count_parts p q r l :
  (forall s, s ∈ l -> p s = q s || r s /\ q s && r s = false) -> count p l = count q l + count r l.
Proof.
  intros H. unfold count. induction l as [|s l IH]; [done|]. rewrite !lsum_cons, IH by (intros x Hx; apply H; by right).
  destruct (H s (list_elem_of_here _ _)) as [-> Hqr]. destruct (q s), (r s); simpl in *; try done; lia.
Qed.

(** Decides a partition of the seconds of a day, second by second. *)
Ltac by_cases :=
  let s := fresh "s" in let Ho := fresh "Ho" in let Hex := fresh "Hex" in
  intros s Ho Hex; rewrite ?Ho;
  repeat match goal with |- context [outb ?b ?l s] => destruct (outb b l s) | |- context [inb ?l s] => destruct (inb l s) end;
  simpl in *; (try (specialize (Hex eq_refl))); done.


(** ** The rollup table *)

Definition day_key (r : NodeDailyUptime) : Z * Z := (du_NodeID r, du_Date r).
(** One row for each node and day. *)
Definition one_row_each (t : Uptime) : Prop := NoDup (day_key <$> ut_daily t).
Definition has_row (id day : Z) (t : Uptime) : Prop := (id, day) ∈ (day_key <$> ut_daily t).

Lemma same_day_spec row r : same_day row r = true <-> day_key r = day_key row.
Proof.
  unfold same_day, day_key. rewrite andb_true_iff, !Z.eqb_eq. split; [by intros [-> ->]|]. by intros [= -> ->].
Qed.

Lemma replace_first_keys row rs : day_key <$> replace_first row rs = day_key <$> rs.
Proof.
  induction rs as [|r rs IH]; simpl; [done|]. destruct (same_day row r) eqn:Hs; rewrite !fmap_cons; [|by rewrite IH].
  apply same_day_spec in Hs. by rewrite Hs.
Qed.

Lemma upsert_keys row t :
  day_key <$> ut_daily (UpsertNodeDailyUptime row t) =
  (day_key <$> ut_daily t) ++ if bool_decide (day_key row ∈ (day_key <$> ut_daily t)) then [] else [day_key row].
Proof.
  unfold UpsertNodeDailyUptime. simpl. assert (existsb (same_day row) (ut_daily t) = bool_decide (day_key row ∈ (day_key <$> ut_daily t))) as ->.
  { apply eq_true_iff_eq. rewrite existsb_exists, bool_decide_eq_true, list_elem_of_fmap.
    split; [intros (r & Hr%list_elem_of_In & Hs%same_day_spec)|intros (r & Hr & Hs)]; exists r; [done|].
    split; [by apply list_elem_of_In|by apply same_day_spec]. }
  case_bool_decide; [by rewrite replace_first_keys, app_nil_r|]. by rewrite fmap_app.
Qed.

Lemma upsert_one_row row t : one_row_each t -> one_row_each (UpsertNodeDailyUptime row t).
Proof.
  unfold one_row_each. rewrite upsert_keys. intros Hnd. case_bool_decide as Hin; [by rewrite app_nil_r|].
  apply NoDup_app. split_and!; [done| |by apply NoDup_singleton]. by intros k Hk ->%list_elem_of_singleton.
Qed.

Lemma upsert_has row t id day : has_row id day t \/ day_key row = (id, day) -> has_row id day (UpsertNodeDailyUptime row t).
Proof.
  unfold has_row. rewrite upsert_keys, elem_of_app. intros [?|<-]; [by left|]. case_bool_decide; [by left|right; by left].
Qed.

(** A rollup leaves everything but the rollup table. *)
Definition same_sources (t t' : Uptime) : Prop := ut_nodes t' = ut_nodes t /\ ut_events t' = ut_events t /\ ut_runs t' = ut_runs t.

Section no_errors.
Context (fails : up_stmt -> bool) (Hf : forall q, fails q = false).

Lemma rollup_row node dayStart dayEnd u gaps t :
  exists row, rollupOneNode fails node dayStart dayEnd u gaps t = Some row /\ day_key row = (node.1, dayStart).
Proof.
  unfold rollupOneNode. rewrite !Hf. eexists. split; [done|]. destruct (node.2); [done|]. unfold remoteDayUptime.
  by destruct (foldl _ _ _) as [[? ?] ?].
Qed.

Lemma rollup_day_has now day t :
  one_row_each t ->
  let t' := (RollupNodeUptime fails now day t).2 in
  (RollupNodeUptime fails now day t).1 = false /\ one_row_each t' /\ same_sources t t' /\
  (forall id d, has_row id d t -> has_row id d t') /\ (forall node, node ∈ ut_nodes t -> has_row node.1 (day_of day) t').
Proof.
  intros Hu. unfold RollupNodeUptime. rewrite !Hf. simpl. set (gaps := GetHubGaps _ _ _). set (u := overlapSeconds _ _ _).
  set (f := fun _ _ => _). split; [done|].
  assert (forall ns t0, one_row_each t0 -> same_sources t t0 -> one_row_each (foldl f t0 ns) /\ same_sources t (foldl f t0 ns) /\
    (forall id d, has_row id d t0 -> has_row id d (foldl f t0 ns)) /\ forall node, node ∈ ns -> has_row node.1 (day_of day) (foldl f t0 ns)) as H.
  { induction ns as [|node ns IH]; intros t0 Hu0 Hs0.
    { split_and!; try done. by intros ? ?%elem_of_nil. }
    simpl. destruct (rollup_row node (day_of day) (day_of day + dayNs) u gaps t0) as (row & Hrow & Hk).
    assert (f t0 node = UpsertNodeDailyUptime row t0) as -> by (unfold f; by rewrite Hrow, Hf).
    destruct (IH (UpsertNodeDailyUptime row t0)) as (H1 & H2 & H3 & H4); [by apply upsert_one_row|done|]. split_and!; [done..| |].
    - intros id d Hd. apply H3, upsert_has. by left.
    - intros node' [->|Hn]%elem_of_cons; [|by apply H4]. apply H3, upsert_has. by right. }
  by apply H.
Qed.

Lemma rollup_days_has k now m t :
  one_row_each t ->
  let t' := (rollup_days fails k now (m * dayNs) t).2 in
  (rollup_days fails k now (m * dayNs) t).1 = false /\ one_row_each t' /\ ut_nodes t' = ut_nodes t /\
  (forall id d, has_row id d t -> has_row id d t') /\
  (forall node i, node ∈ ut_nodes t -> m <= i < m + Z.of_nat k -> has_row node.1 (i * dayNs) t').
Proof.
  revert m t. induction k as [|k IH]; intros m t Hu; cbn [rollup_days].
  { split_and!; try done. intros; lia. }
  destruct (rollup_day_has now (m * dayNs) t Hu) as (H1 & H2 & (H3 & _) & H4 & H5).
  destruct (RollupNodeUptime fails now (m * dayNs) t) as [failed t1]. simpl in H1, H2, H3, H4, H5. subst failed.
  replace (m * dayNs + dayNs) with ((m + 1) * dayNs) by lia. destruct (IH (m + 1) t1 H2) as (I1 & I2 & I3 & I4 & I5).
  split_and!; [done|done|by rewrite I3|intros id d ?; by apply I4, H4|]. intros node i Hn Hi. destruct (decide (i = m)) as [->|Hne].
  - apply I4. replace (m * dayNs) with (day_of (m * dayNs)) by (unfold day_of; rewrite Z.mod_mul; [lia|done]). by apply H5.
  - apply I5; [by rewrite H3|lia].
Qed.
End no_errors.

Lemma day_of_mul z : exists m, day_of z = m * dayNs.
Proof. exists (z / dayNs). unfold day_of. pose proof (Z.div_mod z dayNs ltac:(done)). lia. Qed.

(** A backfill leaves no finished day out: if nothing fails, the rollup table
    keeps one row for each node and day, and its rows' days; and every node has a
    row for every finished day from the first one the backfill starts with. *)
Theorem backfill_complete (fails : up_stmt -> bool) (now maxDays : Z) (t : Uptime)
    (Hf : forall q, fails q = false) (Hu : one_row_each t) (Hm : 0 < maxDays) :
  let t' := (BackfillNodeUptimeRollup fails now maxDays t).2 in
  (BackfillNodeUptimeRollup fails now maxDays t).1 = false /\ one_row_each t' /\
  (forall id d, has_row id d t -> has_row id d t') /\
  (forall node day, node ∈ ut_nodes t -> day mod dayNs = 0 ->
     backfill_start now maxDays (GetLatestNodeDailyUptimeDate t) <= day <= day_of now - dayNs -> has_row node.1 day t').
Proof.
  unfold BackfillNodeUptimeRollup. rewrite (proj2 (Z.leb_gt _ _) Hm), Hf. set (start := backfill_start _ _ _).
  assert (exists m, start = m * dayNs) as [m Hs].
  { unfold start, backfill_start. destruct (day_of_mul now) as [y Hy]. rewrite Hy. destruct (GetLatestNodeDailyUptimeDate t) as [l|].
    - destruct (day_of_mul l) as [z Hz]. rewrite Hz. case_match; [exists (z + 1)|exists (y - maxDays)]; lia.
    - exists (y - maxDays). lia. }
  destruct (day_of_mul now) as [y Hy]. rewrite Hy, Hs.
  replace ((y * dayNs - dayNs - m * dayNs) / dayNs + 1) with (y - m)
    by (replace (y * dayNs - dayNs - m * dayNs) with ((y - 1 - m) * dayNs) by lia; rewrite Z.div_mul; [lia|done]).
  destruct (rollup_days_has fails Hf (Z.to_nat (y - m)) now m t Hu) as (H1 & H2 & _ & H4 & H5).
  split_and!; try done. intros node day Hn Hd Hr. assert (day = day / dayNs * dayNs) as He.
  { pose proof (Z.div_mod day dayNs ltac:(done)). lia. }
  rewrite He. apply H5; [done|]. assert (0 < dayNs) by done. nia.
Qed.

(** ** Days that go wrong *)

Definition no_fail : up_stmt -> bool := fun _ => false.
Definition days (n : Z) : Z := n * dayNs.
Definition ran_ever : RunTable := MkRuns [MkHubRun 1 0 None (Some 0) "v1"] 1.
(** Node 1 is seen down at noon of day 0, and stays down. *)
Definition gone_down : Uptime :=
  MkUptimeDB [(1, false)] [MkUptime 1 NodeStatusOffline "agent_unreachable" "" (sec 43200)] ran_ever [].

(** A node that has been down for longer than the retention of events (90 days)
    becomes fully up in the rollup: the day before the event goes it is down all
    day, and once the event is pruned the next day has no downtime. *)
Theorem pruned_outage_vanishes :
  let day d t := option_map (fun r => (ObservedSec r, DowntimeSec r)) (rollupOneNode no_fail (1, false) (days d) (days (d + 1)) 0 [] t) in
  day 90 gone_down = Some (86400, 86400) /\ day 91 (CleanupOldUptimeEvents (days 91) 90 gone_down) = Some (86400, 0).
Proof. by vm_compute. Qed.

(** Two nodes; storing the row of the second fails on day 1. *)
Definition two_nodes : Uptime := MkUptimeDB [(1, false); (2, false)] [] ran_ever [].
Definition second_fails : up_stmt -> bool := fun q => match q with QUpsert id => id =? 2 | _ => false end.

(** A row that could not be stored is never computed again: the backfill of the
    next day, in which nothing fails, starts after the newest day any node has. *)
Theorem failed_day_skipped :
  let t1 := BackfillNodeUptimeRollup second_fails (days 2 + sec 60) 1 two_nodes in
  let t2 := BackfillNodeUptimeRollup no_fail (days 3 + sec 60) 30 t1.2 in
  t1.1 = false /\ t2.1 = false /\ day_key <$> ut_daily t2.2 = [(1, days 1); (1, days 2); (2, days 2)].
Proof. by vm_compute. Qed.

(** ** Examples *)

(** Day 1: down from 10:00 to 12:00, with the panel off from 11:00 to 11:30. *)
Definition a_day : Uptime :=
  MkUptimeDB [(1, false)] [MkUptime 1 NodeStatusOffline "agent_unreachable" "" (sec 122400); MkUptime 1 NodeStatusOnline "agent_reachable" "" (sec 129600)]
    ran_ever [].
Definition a_gap : list TimeWindow := [MkWindow (sec 126000) (sec 127800)].


Lemma backfill_complete_witness :
  has_row 2 (days 1) (BackfillNodeUptimeRollup no_fail (days 3 + sec 60) 2 two_nodes).2.
Proof.
  apply (proj2 (proj2 (proj2 (backfill_complete no_fail (days 3 + sec 60) 2 two_nodes ltac:(done) ltac:(by constructor) ltac:(done)))) (2, false)).
  - by right; left.
  - done.
  - by vm_compute.
Defined.
