(* ===== verification/EventBus.v ===== *)
(** * The event bus

    internal publish and subscribe, of pkg/events/bus.go: each subscriber has a
    buffered channel, a publisher never waits, and an event that finds a full
    buffer is dropped for that subscriber.

    Theorems: no operation sends on or closes a closed channel and no buffer
    overflows ([bus_never_panics]); a subscriber gets the events it asked for in
    order, and all of them if its buffer was never full ([bus_delivers]);
    subscribing again without a filter keeps the old one ([filter_outlives]). *)

From S2P Require Import Prelude.

Section bus.
Context {Ev : Type}.

(** A channel: what is buffered, and whether it is closed. *)
Record channel := MkChan { buffer : list Ev; closed : bool }.

Record EventBus := MkBus {
  subscribers : gmap string nat; filters : gmap string (Ev -> bool); chans : gmap nat channel; next_chan : nat
}.

Definition bufferSize : nat := 100.
Definition NewEventBus : EventBus := MkBus ∅ ∅ ∅ 0.

Definition with_chans (f : gmap nat channel -> gmap nat channel) (b : EventBus) : EventBus :=
  MkBus (subscribers b) (filters b) (f (chans b)) (next_chan b).

(** [close(ch)]; [None] is the panic of closing a closed channel. *)
Definition close_chan (ch : nat) (b : EventBus) : option EventBus :=
  match chans b !! ch with
  | Some (MkChan buf false) => Some (with_chans (<[ch := MkChan buf true]>) b)
  | _ => None
  end.

(** Closes the subscription there is, if there is one. *)
Definition close_existing (id : string) (b : EventBus) : option EventBus :=
  match subscribers b !! id with Some ch => close_chan ch b | None => Some b end.

(** [make(Subscriber, b.bufferSize)], under an id. *)
Definition make_chan (id : string) (b : EventBus) : nat * EventBus :=
  let ch := next_chan b in
  (ch, MkBus (<[id := ch]> (subscribers b)) (filters b) (<[ch := MkChan [] false]> (chans b)) (S ch)).

Definition Subscribe (id : string) (b : EventBus) : option (nat * EventBus) :=
  make_chan id <$> close_existing id b.

Definition with_filters (f : gmap string (Ev -> bool) -> gmap string (Ev -> bool)) (b : EventBus) : EventBus :=
  MkBus (subscribers b) (f (filters b)) (chans b) (next_chan b).

Definition SubscribeFiltered (id : string) (predicate : option (Ev -> bool)) (b : EventBus) : option (nat * EventBus) :=
  match close_existing id b with
  | None => None
  | Some b =>
      let '(ch, b) := make_chan id b in
      Some (ch, with_filters (match predicate with Some p => <[id := p]> | None => delete id end) b)
  end.

Definition remove (id : string) (b : EventBus) : EventBus :=
  MkBus (delete id (subscribers b)) (delete id (filters b)) (chans b) (next_chan b).

Definition Unsubscribe (id : string) (b : EventBus) : option EventBus :=
  match subscribers b !! id with
  | Some ch => remove id <$> close_chan ch b
  | None => Some b
  end.

Definition accepts (b : EventBus) (id : string) (ev : Ev) : bool :=
  match filters b !! id with Some pred => pred ev | None => true end.

(** Sends to one subscriber, without waiting; [None] is the panic of a send on a
    closed channel. *)
Definition send (ev : Ev) (b : EventBus) (id : string) (ch : nat) : option EventBus :=
  if negb (accepts b id ev) then Some b else
  match chans b !! ch with
  | Some (MkChan buf false) =>
      Some (if (length buf <? bufferSize)%nat then with_chans (<[ch := MkChan (buf ++ [ev]) false]>) b else b)
  | _ => None
  end.

Definition for_subscribers (f : EventBus -> string -> nat -> option EventBus) (b : EventBus) : option EventBus :=
  foldl (fun acc kv => match acc with Some b => f b kv.1 kv.2 | None => None end) (Some b) (map_to_list (subscribers b)).

Definition Publish (ev : Ev) (b : EventBus) : option EventBus := for_subscribers (send ev) b.

Definition Close (b : EventBus) : option EventBus :=
  for_subscribers (fun b id ch => remove id <$> close_chan ch b) b.

Definition SubscriberCount (b : EventBus) : nat := size (subscribers b).

(** A subscriber takes the oldest event of its channel, if there is one. *)
Definition receive (ch : nat) (b : EventBus) : option Ev * EventBus :=
  match chans b !! ch with
  | Some (MkChan (ev :: buf) c) => (Some ev, with_chans (<[ch := MkChan buf c]>) b)
  | _ => (None, b)
  end.
End bus.
Arguments channel : clear implicits.
Arguments EventBus : clear implicits.

(** ** What happens to a bus *)

Inductive bus_action (Ev : Type) :=
| BSubscribe (id : string) | BSubscribeFiltered (id : string) (p : option (Ev -> bool)) | BUnsubscribe (id : string)
| BPublish (ev : Ev) | BClose | BReceive (ch : nat).
Arguments BSubscribe {Ev}. Arguments BSubscribeFiltered {Ev}. Arguments BUnsubscribe {Ev}.
Arguments BPublish {Ev}. Arguments BClose {Ev}. Arguments BReceive {Ev}.

Section runs.
Context {Ev : Type}.
Implicit Types (b : EventBus Ev) (ev : Ev).

(** The bus after an action, or a panic. *)
Definition bus_act b (a : bus_action Ev) : option (EventBus Ev) :=
  match a with
  | BSubscribe id => snd <$> Subscribe id b
  | BSubscribeFiltered id p => snd <$> SubscribeFiltered id p b
  | BUnsubscribe id => Unsubscribe id b
  | BPublish ev => Publish ev b
  | BClose => Close b
  | BReceive ch => Some (receive ch b).2
  end.
Fixpoint bus_run b (acts : list (bus_action Ev)) : option (EventBus Ev) :=
  match acts with [] => Some b | a :: acts => match bus_act b a with Some b => bus_run b acts | None => None end end.

(** A bus in order: a subscriber's channel is open and its own, channels are
    numbered below the next one, and no buffer is over its size. *)
Record bus_ok b : Prop := MkBusOk {
  ok_open : forall id ch, subscribers b !! id = Some ch -> exists buf, chans b !! ch = Some (MkChan buf false);
  ok_own : forall id id' ch, subscribers b !! id = Some ch -> subscribers b !! id' = Some ch -> id = id';
  ok_next : forall ch c, chans b !! ch = Some c -> (ch < next_chan b)%nat;
  ok_size : forall ch c, chans b !! ch = Some c -> (length (buffer c) <= bufferSize)%nat
}.

Lemma new_bus_ok : bus_ok NewEventBus.
Proof. split; simpl; intros; by rewrite lookup_empty in *. Qed.

Lemma close_chan_ok b id ch :
  bus_ok b -> subscribers b !! id = Some ch ->
  exists b', close_chan ch b = Some b' /\ subscribers b' = subscribers b /\ filters b' = filters b /\ next_chan b' = next_chan b /\
    (forall ch', ch' <> ch -> chans b' !! ch' = chans b !! ch') /\
    (forall ch' c, chans b' !! ch' = Some c -> (ch' < next_chan b)%nat /\ (length (buffer c) <= bufferSize)%nat).
Proof.
  intros [H1 H2 H3 H4] Hs. destruct (H1 id ch Hs) as [buf Hb]. unfold close_chan. rewrite Hb. eexists. split; [done|]. simpl. split_and!; try done.
  - intros ch' Hne. by rewrite lookup_insert_ne.
  - intros ch' c. destruct (decide (ch' = ch)) as [->|Hne]; [rewrite lookup_insert_eq|rewrite lookup_insert_ne by done].
    + intros [= <-]. split; [by eapply H3|apply (H4 ch _ Hb)].
    + intros Hc. split; [by eapply H3|by eapply H4].
Qed.

Lemma bus_remove_ok b id ch b' : bus_ok b -> subscribers b !! id = Some ch -> close_chan ch b = Some b' -> bus_ok (remove id b').
Proof.
  intros Hb Hs Hc. destruct (close_chan_ok b id ch Hb Hs) as (b1 & Hb1 & E1 & _ & E2 & E3 & E4). rewrite Hb1 in Hc. injection Hc as <-.
  destruct Hb as [H1 H2 H3 H4]. split; simpl; rewrite ?E1, ?E2.
  - intros id' ch' [Hne Hs']%lookup_delete_Some. rewrite E3; [by eapply H1|]. intros ->. apply Hne. by eapply H2.
  - intros i i' c' [_ Hi]%lookup_delete_Some [_ Hi']%lookup_delete_Some. by eapply H2.
  - intros ch' c Hc'. by eapply E4.
  - intros ch' c Hc'. by eapply E4.
Qed.

Lemma remove_none_ok b id : bus_ok b -> bus_ok (remove id b).
Proof.
  intros [H1 H2 H3 H4]. split; simpl; [|intros i i' c [_ ?]%lookup_delete_Some [_ ?]%lookup_delete_Some; by eapply H2|done|done].
  intros id' ch [_ ?]%lookup_delete_Some. by eapply H1.
Qed.

(** Closing what is there, and making a new channel. *)
Lemma close_existing_ok b id :
  bus_ok b -> exists b', close_existing id b = Some b' /\ bus_ok (remove id b') /\ subscribers b' = subscribers b /\ filters b' = filters b /\
    (forall ch, subscribers b !! id <> Some ch -> chans b' !! ch = chans b !! ch).
Proof.
  intros Hb. unfold close_existing. destruct (subscribers b !! id) as [ch|] eqn:Hs.
  - destruct (close_chan_ok b id ch Hb Hs) as (b1 & Hb1 & E1 & E2 & _ & E3 & _). exists b1. split_and!; try done; [by eapply bus_remove_ok|].
    intros ch' Hne. apply E3. congruence.
  - exists b. split_and!; try done. by apply remove_none_ok.
Qed.

Lemma make_ok b id : bus_ok (remove id b) -> bus_ok (make_chan id b).2.
Proof.
  intros [H1 H2 H3 H4]. simpl in *. assert (forall i ch, i <> id -> subscribers b !! i = Some ch -> (ch < next_chan b)%nat) as Hold.
  { intros i ch Hne Hi. destruct (H1 i ch) as [buf Hbuf]; [by rewrite lookup_delete_ne|]. by eapply H3. }
  split; simpl.
  - intros i ch [[<- <-]|[Hne Hs]]%lookup_insert_Some; [rewrite lookup_insert_eq; by eexists|].
    pose proof (Hold i ch (not_eq_sym Hne) Hs). rewrite lookup_insert_ne by lia. apply (H1 i). by rewrite lookup_delete_ne.
  - intros i i' c [[<- <-]|[Hne Hi]]%lookup_insert_Some [[<- Hx]|[Hne' Hi']]%lookup_insert_Some; try done.
    + pose proof (Hold i' _ (not_eq_sym Hne') Hi'). lia.
    + pose proof (Hold i _ (not_eq_sym Hne) Hi). lia.
    + apply (H2 i i' c); by rewrite lookup_delete_ne.
  - intros ch c [[<- <-]|[Hne Hc]]%lookup_insert_Some; [lia|]. apply H3 in Hc. lia.
  - intros ch c [[<- <-]|[Hne Hc]]%lookup_insert_Some; [simpl; lia|]. by eapply H4.
Qed.

Lemma filters_ok b f : bus_ok b -> bus_ok (with_filters f b).
Proof. intros [H1 H2 H3 H4]. by split. Qed.

(** ** Publishing *)

(** The buffer of a channel after a send under an id. *)
Definition sent_to b ev id (buf : list Ev) : list Ev :=
  if accepts b id ev && (length buf <? bufferSize)%nat then buf ++ [ev] else buf.

Lemma sends_spec ev l b :
  NoDup l.*2 -> (forall id ch, (id, ch) ∈ l -> exists buf, chans b !! ch = Some (MkChan buf false)) ->
  exists b', foldl (fun acc kv => match acc with Some b => send ev b kv.1 kv.2 | None => None end) (Some b) l = Some b' /\
    subscribers b' = subscribers b /\ filters b' = filters b /\ next_chan b' = next_chan b /\
    (forall id ch buf, (id, ch) ∈ l -> chans b !! ch = Some (MkChan buf false) -> chans b' !! ch = Some (MkChan (sent_to b ev id buf) false)) /\
    (forall ch, ch ∉ l.*2 -> chans b' !! ch = chans b !! ch).
Proof.
  revert b. induction l as [|[id ch] l IH]; intros b Hnd Hopen.
  { exists b. split_and!; try done. by intros ? ? ? ?%elem_of_nil. }
  cbn [fmap list_fmap snd] in Hnd. apply NoDup_cons in Hnd as [Hni Hnd]. destruct (Hopen id ch) as [buf Hb]; [by left|]. cbn [foldl fst snd].
  set (b1 := with_chans (fun m => if accepts b id ev && (length buf <? bufferSize)%nat then <[ch := MkChan (buf ++ [ev]) false]> m else m) b).
  assert (send ev b id ch = Some b1) as ->.
  { unfold send, b1. rewrite Hb. by destruct (accepts b id ev), (length buf <? bufferSize)%nat, b. }
  assert (chans b1 !! ch = Some (MkChan (sent_to b ev id buf) false)) as Hch.
  { unfold b1, sent_to. simpl. destruct (_ && _); [by rewrite lookup_insert_eq|done]. }
  assert (forall ch', ch' <> ch -> chans b1 !! ch' = chans b !! ch') as Hother.
  { intros ch' Hne. unfold b1. simpl. destruct (_ && _); [by rewrite lookup_insert_ne|done]. }
  assert (forall i c, (i, c) ∈ l -> c <> ch) as Hne.
  { intros i c Hi ->. apply Hni. apply list_elem_of_fmap. by exists (i, ch). }
  destruct (IH b1 Hnd) as (b' & -> & E1 & E2 & E3 & E4 & E5).
  { intros i c Hi. rewrite Hother by (by eapply Hne). apply (Hopen i). by right. }
  exists b'. split_and!; try done.
  - intros i c bf [[= -> ->]|Hi]%elem_of_cons Hc; [|apply E4; [done|by rewrite Hother by (by eapply Hne)]].
    rewrite Hb in Hc. injection Hc as <-. by rewrite E5.
  - intros c Hc. cbn [fmap list_fmap snd] in Hc. apply not_elem_of_cons in Hc as [? ?]. rewrite E5 by done. by apply Hother.
Qed.

Lemma subscriber_list b : bus_ok b -> NoDup (map_to_list (subscribers b)).*2.
Proof.
  intros [_ H2 _ _]. apply NoDup_fmap_2_strong; [|apply NoDup_map_to_list].
  intros [i c] [i' c'] Hi%elem_of_map_to_list Hi'%elem_of_map_to_list. simpl. intros ->. f_equal. by eapply H2.
Qed.

Lemma bus_publish_spec ev b :
  bus_ok b ->
  exists b', Publish ev b = Some b' /\ bus_ok b' /\ subscribers b' = subscribers b /\ filters b' = filters b /\
    forall id ch buf, subscribers b !! id = Some ch -> chans b !! ch = Some (MkChan buf false) ->
      chans b' !! ch = Some (MkChan (sent_to b ev id buf) false).
Proof.
  intros Hb. destruct (sends_spec ev (map_to_list (subscribers b)) b (subscriber_list b Hb)) as (b' & Hp & E1 & E2 & E3 & E4 & E5).
  { intros id ch Hi%elem_of_map_to_list. by eapply ok_open. }
  exists b'. split; [exact Hp|]. split_and!; try done.
  - destruct Hb as [H1 H2 H3 H4].
    assert (forall ch c, chans b' !! ch = Some c -> (ch < next_chan b)%nat /\ (length (buffer c) <= bufferSize)%nat) as Hall.
    { intros ch c Hc. destruct (decide (ch ∈ (map_to_list (subscribers b)).*2)) as [Hin|Hni].
      - apply list_elem_of_fmap in Hin as ([i c'] & Hcc & Hi). simpl in Hcc. subst c'. pose proof Hi as Hi'%elem_of_map_to_list.
        destruct (H1 i ch Hi') as [buf Hbuf]. rewrite (E4 i ch buf Hi Hbuf) in Hc. injection Hc as <-. split; [by eapply H3|].
        pose proof (H4 _ _ Hbuf) as Hl. simpl in *. unfold sent_to. destruct (accepts b i ev); simpl; [|done].
        destruct (Nat.ltb_spec (length buf) bufferSize); [rewrite length_app; simpl; lia|done].
      - rewrite E5 in Hc by done. split; [by eapply H3|by eapply H4]. }
    split; rewrite ?E1, ?E3; [|done|intros; by eapply Hall|intros; by eapply Hall].
    intros id ch Hs. destruct (H1 id ch Hs) as [buf Hbuf]. eexists. by apply (E4 id ch buf); [apply elem_of_map_to_list|].
  - intros id ch buf Hs Hbuf. by apply E4; [apply elem_of_map_to_list|].
Qed.

(** ** Closing, receiving, and every action *)

Lemma closes_ok l b :
  bus_ok b -> NoDup l.*1 -> (forall id ch, (id, ch) ∈ l -> subscribers b !! id = Some ch) ->
  exists b', foldl (fun acc kv => match acc with Some b => remove kv.1 <$> close_chan kv.2 b | None => None end) (Some b) l = Some b' /\ bus_ok b'.
Proof.
  revert b. induction l as [|[id ch] l IH]; intros b Hb Hnd Hsub; [by exists b|]. cbn [fmap list_fmap fst] in Hnd.
  apply NoDup_cons in Hnd as [Hni Hnd]. assert (subscribers b !! id = Some ch) as Hs by (apply Hsub; by left). cbn [foldl fst snd].
  destruct (close_chan_ok b id ch Hb Hs) as (b1 & Hb1 & E1 & _). pose proof (bus_remove_ok b id ch b1 Hb Hs Hb1) as Hok. rewrite Hb1. simpl.
  apply IH; [done..|]. intros i c Hi. simpl. rewrite E1, lookup_delete_ne; [apply Hsub; by right|]. intros ->. apply Hni.
  apply list_elem_of_fmap. by exists (i, c).
Qed.

Lemma receive_ok ch b : bus_ok b -> bus_ok (receive ch b).2.
Proof.
  intros [H1 H2 H3 H4]. unfold receive. destruct (chans b !! ch) as [[[|ev buf] c]|] eqn:Hc; try done. split; simpl; [|done|..].
  - intros id ch' Hs. destruct (H1 id ch' Hs) as [buf' Hb]. destruct (decide (ch' = ch)) as [->|Hne].
    + rewrite lookup_insert_eq. rewrite Hc in Hb. injection Hb as _ ->. by eexists.
    + rewrite lookup_insert_ne by done. by eexists.
  - intros ch' c' [[<- <-]|[_ ?]]%lookup_insert_Some; by eapply H3.
  - intros ch' c' [[<- <-]|[_ ?]]%lookup_insert_Some; [|by eapply H4]. apply H4 in Hc. simpl in *. lia.
Qed.

Lemma act_ok b a : bus_ok b -> exists b', bus_act b a = Some b' /\ bus_ok b'.
Proof.
  intros Hb. destruct a as [id|id p|id|ev| |ch]; simpl.
  - unfold Subscribe. destruct (close_existing_ok b id Hb) as (b1 & -> & H1 & _). simpl. eexists. split; [done|]. by apply make_ok.
  - unfold SubscribeFiltered. destruct (close_existing_ok b id Hb) as (b1 & -> & H1 & _). simpl. eexists. split; [done|].
    by apply filters_ok, (make_ok b1).
  - unfold Unsubscribe. destruct (subscribers b !! id) as [ch|] eqn:Hs; [|by exists b].
    destruct (close_chan_ok b id ch Hb Hs) as (b1 & Hb1 & _). rewrite Hb1. simpl. eexists. split; [done|]. by eapply bus_remove_ok.
  - destruct (bus_publish_spec ev b Hb) as (b' & ? & ? & _). by exists b'.
  - apply closes_ok; [done|apply NoDup_fst_map_to_list|]. by intros id ch ?%elem_of_map_to_list.
  - eexists. split; [done|by apply receive_ok].
Qed.

(** Whatever is done with a bus, from the start on, nothing panics: no
    operation sends on a closed channel or closes one twice; each subscriber's
    channel is open and nobody else's; and no buffer holds more than 100 events. *)
Theorem bus_never_panics (acts : list (bus_action Ev)) :
  exists b, bus_run NewEventBus acts = Some b /\ bus_ok b.
Proof.
  assert (forall b, bus_ok b -> exists b', bus_run b acts = Some b' /\ bus_ok b') as H; [|apply H, new_bus_ok].
  induction acts as [|a acts IH]; intros b Hb; simpl; [by exists b|]. destruct (act_ok b a Hb) as (b1 & -> & H1). by apply IH.
Qed.

(** ** Delivery *)

(** The actions that leave a subscription as it is. *)
Definition leaves (id : string) (a : bus_action Ev) : Prop :=
  match a with
  | BSubscribe i | BSubscribeFiltered i _ | BUnsubscribe i => i <> id
  | BClose => False
  | _ => True
  end.

(** What a subscriber takes from its channel, what is published, and whether
    there is room for it. *)
Definition taken (ch : nat) b (a : bus_action Ev) : list Ev :=
  match a with BReceive c => if decide (c = ch) then match (receive ch b).1 with Some ev => [ev] | None => [] end else [] | _ => [] end.
Definition offered (a : bus_action Ev) : list Ev := match a with BPublish ev => [ev] | _ => [] end.
Definition room (ch : nat) b (a : bus_action Ev) : Prop :=
  match a, chans b !! ch with BPublish _, Some c => (length (buffer c) < bufferSize)%nat | _, _ => True end.

Fixpoint takes (ch : nat) b (acts : list (bus_action Ev)) : list Ev :=
  match acts with [] => [] | a :: acts => taken ch b a ++ match bus_act b a with Some b => takes ch b acts | None => [] end end.
Fixpoint always_room (ch : nat) b (acts : list (bus_action Ev)) : Prop :=
  match acts with [] => True | a :: acts => room ch b a /\ match bus_act b a with Some b => always_room ch b acts | None => True end end.

Definition wanted b (id : string) (l : list Ev) : list Ev := filter (fun ev => accepts b id ev = true) l.

Lemma act_delivers b a id ch buf :
  bus_ok b -> subscribers b !! id = Some ch -> chans b !! ch = Some (MkChan buf false) -> leaves id a ->
  exists b' buf' kept, bus_act b a = Some b' /\ bus_ok b' /\ subscribers b' !! id = Some ch /\ filters b' !! id = filters b !! id /\
    chans b' !! ch = Some (MkChan buf' false) /\ taken ch b a ++ buf' = buf ++ kept /\ kept `sublist_of` wanted b id (offered a) /\
    (room ch b a -> kept = wanted b id (offered a)).
Proof.
  intros Hb Hs Hc Hl. destruct (act_ok b a Hb) as (b' & Hact & Hb'). exists b'. rewrite Hact.
  assert (forall i, i <> id -> subscribers b !! i <> Some ch) as Hown by (intros i Hne Hi; by apply Hne, (ok_own b Hb i id ch)).
  assert (forall i b1, i <> id -> close_existing i b = Some b1 -> chans b1 !! ch = Some (MkChan buf false) /\ next_chan b1 <> ch /\
    subscribers b1 = subscribers b /\ filters b1 = filters b) as Hmake.
  { intros i b1 Hne H1. destruct (close_existing_ok b i Hb) as (b2 & H2 & Hok & E1 & E2 & E3). rewrite H1 in H2. injection H2 as <-.
    rewrite E3 by (by apply Hown). split_and!; try done. assert (ch < next_chan b1)%nat; [|lia].
    apply (ok_next _ Hok ch (MkChan buf false)). simpl. by rewrite E3 by (by apply Hown). }
  destruct a as [i|i p|i|ev| |c]; simpl in Hact, Hl.
  - unfold Subscribe in Hact. destruct (close_existing i b) as [b1|] eqn:H1; [|done]. injection Hact as <-.
    destruct (Hmake i b1 Hl H1) as (E1 & E2 & E3 & E4). exists buf, []. split; [done|]. split; [exact Hb'|]. simpl.
    rewrite !lookup_insert_ne, E3, E4, app_nil_r by done.
    by split_and!.
  - unfold SubscribeFiltered in Hact. destruct (close_existing i b) as [b1|] eqn:H1; [|done]. injection Hact as <-.
    destruct (Hmake i b1 Hl H1) as (E1 & E2 & E3 & E4). exists buf, []. split; [done|]. split; [exact Hb'|]. simpl.
    rewrite !lookup_insert_ne, E3, E4, app_nil_r by done.
    split_and!; try done. destruct p; [by rewrite lookup_insert_ne|by rewrite lookup_delete_ne].
  - unfold Unsubscribe in Hact. exists buf, []. split; [done|]. split; [exact Hb'|]. rewrite app_nil_r. destruct (subscribers b !! i) as [c|] eqn:Hi.
    + destruct (close_chan_ok b i c Hb Hi) as (b1 & Hb1 & E1 & E2 & _ & E3 & _). rewrite Hb1 in Hact. injection Hact as <-. simpl.
      rewrite !lookup_delete_ne, E1, E2, E3 by (done || intros ->; by apply (Hown i)). by split_and!.
    + injection Hact as <-. by split_and!.
  - destruct (bus_publish_spec ev b Hb) as (b1 & Hp & _ & E1 & E2 & E3). rewrite Hp in Hact. injection Hact as <-.
    exists (sent_to b ev id buf), (if accepts b id ev && (length buf <? bufferSize)%nat then [ev] else []).
    split; [done|]. split; [exact Hb'|]. rewrite E1, E2. simpl. rewrite Hc.
    unfold sent_to, wanted. rewrite filter_cons, filter_nil. simpl. split_and!; try done; [by apply E3| | |].
    + destruct (_ && _); [done|by rewrite app_nil_r].
    + destruct (accepts b id ev); simpl; [|done]. destruct (_ <? _)%nat; [done|apply sublist_nil_l].
    + intros Hroom. rewrite (proj2 (Nat.ltb_lt _ _) Hroom), andb_true_r. by destruct (accepts b id ev).
  - done.
  - injection Hact as <-. unfold taken. simpl. destruct (decide (c = ch)) as [->|Hne].
    + unfold receive in Hb' |- *. rewrite Hc in Hb' |- *. destruct buf as [|ev buf]; simpl in Hb' |- *.
      * exists [], []. by split_and!.
      * exists buf, []. split; [done|]. split; [exact Hb'|]. simpl. rewrite lookup_insert_eq, app_nil_r. by split_and!.
    + exists buf, []. split; [done|]. split; [exact Hb'|]. rewrite app_nil_r. unfold receive. destruct (chans b !! c) as [[[|ev' bf] cl]|]; simpl;
        rewrite ?lookup_insert_ne by done; by split_and!.
Qed.

(** Delivery: through any actions that leave a subscription as it is, what
    the subscriber takes from its channel and what is still in the buffer are, in
    order, what was in the buffer and some of the events published since that its
    filter accepts; and all of these, if the buffer was never full at a publish. *)
Theorem bus_delivers (acts : list (bus_action Ev)) b (id : string) (ch : nat) (buf : list Ev)
    (Hb : bus_ok b) (Hs : subscribers b !! id = Some ch) (Hc : chans b !! ch = Some (MkChan buf false)) (Hl : Forall (leaves id) acts) :
  exists b' buf' kept, bus_run b acts = Some b' /\ chans b' !! ch = Some (MkChan buf' false) /\
    takes ch b acts ++ buf' = buf ++ kept /\ kept `sublist_of` wanted b id (mjoin (offered <$> acts)) /\
    (always_room ch b acts -> kept = wanted b id (mjoin (offered <$> acts))).
Proof.
  revert b buf Hb Hs Hc. induction Hl as [|a acts Ha _ IH]; intros b buf Hb Hs Hc.
  { exists b, buf, []. rewrite app_nil_r. by split_and!. }
  destruct (act_delivers b a id ch buf Hb Hs Hc Ha) as (b1 & buf1 & kept1 & Hact & Hb1 & Hs1 & Hf1 & Hc1 & Ht1 & Hk1 & Hr1).
  destruct (IH b1 buf1 Hb1 Hs1 Hc1) as (b' & buf' & kept & Hrun & Hc' & Ht & Hk & Hr).
  assert (forall l, wanted b1 id l = wanted b id l) as Hw.
  { intros l. unfold wanted. apply list_filter_iff. intros ev. unfold accepts. by rewrite Hf1. }
  exists b', buf', (kept1 ++ kept). cbn [bus_run takes always_room fmap list_fmap mjoin list_join]. rewrite Hact. split_and!; try done.
  - rewrite <-app_assoc, Ht, app_assoc, Ht1. by rewrite app_assoc.
  - unfold wanted. rewrite filter_app. apply sublist_app; [done|]. by rewrite Hw in Hk.
  - intros [Hroom Hrooms]. unfold wanted. rewrite filter_app, Hr1, Hr, Hw by done. done.
Qed.
End runs.

(** ** Examples *)

(** Two events for one subscriber, who takes the first. *)
Definition one_sub : list (bus_action Z) := [BPublish 1; BReceive 0; BPublish 2].
Definition sub_bus : EventBus Z := MkBus {[ "alerts" := 0%nat ]} ∅ {[ 0%nat := MkChan [] false ]} 1.

Lemma bus_delivers_witness :
  exists b' buf' kept, bus_run sub_bus one_sub = Some b' /\ chans b' !! 0%nat = Some (MkChan buf' false) /\
    takes 0 sub_bus one_sub ++ buf' = kept /\ kept = [1; 2].
Proof.
  assert (bus_ok sub_bus) as Hb.
  { split; unfold sub_bus; simpl.
    - intros id ch [<- <-]%lookup_singleton_Some. by exists [].
    - intros i i' ch [<- _]%lookup_singleton_Some [<- _]%lookup_singleton_Some. done.
    - intros ch c [<- <-]%lookup_singleton_Some. lia.
    - intros ch c [<- <-]%lookup_singleton_Some. simpl. lia. }
  destruct (bus_delivers one_sub sub_bus "alerts" 0 [] Hb eq_refl eq_refl ltac:(by repeat constructor)) as (b' & buf' & kept & H1 & H2 & H3 & _ & H5).
  exists b', buf', kept. split; [exact H1|]. split; [exact H2|]. split; [exact H3|]. rewrite H5; [vm_compute; reflexivity|].
  clear. vm_compute. split; [lia|]. split; [exact I|]. split; [lia|exact I].
Defined.

(** A subscription made again without a filter keeps the old filter: an id
    subscribed with a filter that refuses everything, then with none, receives
    nothing. *)
Theorem filter_outlives :
  match bus_run NewEventBus [BSubscribeFiltered "x" (Some (fun _ : Z => false)); BSubscribe "x"; BPublish 7] with
  | Some b => subscribers b !! "x" = Some 1%nat /\ chans b !! 1%nat = Some (MkChan [] false)
  | None => False
  end.
Proof. by vm_compute. Qed.
