(* ===== verification/GoNetip.v ===== *)
(** * Go's net/netip, as the sources use it

    Addresses and prefixes of both families, [ParseAddr] and [ParsePrefix] after
    the standard library's parsers, [Contains], [Overlaps], [Masked], [Next] and
    [String] of IPv4. Lemmas: an IPv4 address that is printed is parsed back, and
    two prefixes overlap exactly when they share an address. *)

From S2P Require Import Prelude GoString GoUnicode.

(** IPv4 addresses are 32-bit numbers; IPv6 ones 128-bit numbers with a zone. *)
Inductive ipaddr := IP4 (n : Z) | IP6 (n : Z) (zone : string).
#[export] Instance ipaddr_eq_dec : EqDecision ipaddr.
Proof. solve_decision. Defined.

Record prefix := MkPrefix { pf_ip : ipaddr; pf_bits : Z }.
#[export] Instance prefix_eq_dec : EqDecision prefix.
Proof. solve_decision. Defined.

Definition Is4 (a : ipaddr) : bool := match a with IP4 _ => true | IP6 _ _ => false end.
Definition BitLen (a : ipaddr) : Z := if Is4 a then 32 else 128.
Definition number (a : ipaddr) : Z := match a with IP4 n | IP6 n _ => n end.
Definition hasZone (a : ipaddr) : bool := match a with IP4 _ => false | IP6 _ z => negb (bool_decide (z = "")) end.
Definition withoutZone (a : ipaddr) : ipaddr := match a with IP4 n => IP4 n | IP6 n _ => IP6 n "" end.

Definition Is4In6 (a : ipaddr) : bool := match a with IP6 n _ => Z.shiftr n 32 =? 2 ^ 16 - 1 | IP4 _ => false end.
Definition Unmap (a : ipaddr) : ipaddr := if Is4In6 a then IP4 (number a mod 2 ^ 32) else a.

(** ** Parsing *)

(** Splits at the first byte, and at the last one. *)
Fixpoint cut (c : ascii) (s : string) : option (string * string) :=
  match s with
  | EmptyString => None
  | String d s => if Ascii.eqb c d then Some (EmptyString, s) else (fun p => (String d p.1, p.2)) <$> cut c s
  end.
Fixpoint cut_last (c : ascii) (s : string) : option (string * string) :=
  match s with
  | EmptyString => None
  | String d s =>
      match cut_last c s with
      | Some p => Some (String d p.1, p.2)
      | None => if Ascii.eqb c d then Some (EmptyString, s) else None
      end
  end.

(** A field of an IPv4 address: digits, no leading zero, at most 255. *)
Definition octet (s : string) : option Z :=
  if (2 <=? String.length s)%nat && match s with String "0" _ => true | _ => false end then None else
  v ← parse_unsigned s; if v <=? 255 then Some v else None.

Fixpoint split_dots (s : string) : list string :=
  match s with
  | EmptyString => [EmptyString]
  | String c s =>
      match split_dots s with
      | [] => []
      | f :: fs => if Ascii.eqb c "." then EmptyString :: f :: fs else String c f :: fs
      end
  end.

Definition parseIPv4 (s : string) : option Z :=
  match split_dots s with
  | [a; b; c; d] =>
      a ← octet a; b ← octet b; c ← octet c; d ← octet d;
      Some (a * 2 ^ 24 + b * 2 ^ 16 + c * 2 ^ 8 + d)
  | _ => None
  end.

Definition hex_val (c : ascii) : option Z :=
  let n := code c in
  if between 48 57 n then Some (n - 48) else
  if between 97 102 n then Some (n - 87) else
  if between 65 70 n then Some (n - 55) else None.

(** The hexadecimal digits in front: how many, their value, and the rest; at
    most four. *)
Fixpoint hex_run (off : nat) (acc : Z) (s : string) : option (nat * Z * string) :=
  match s with
  | String c s' =>
      match hex_val c with
      | Some d => if (3 <? off)%nat then None else hex_run (S off) (16 * acc + d) s'
      | None => Some (off, acc, s)
      end
  | EmptyString => Some (off, acc, EmptyString)
  end.

(** The 16-bit groups of an IPv6 address, where the ellipsis is, and what is
    left of the string; an embedded IPv4 address is the last two groups. *)
Fixpoint groups (fuel : nat) (gs : list Z) (ellipsis : option nat) (s : string) : option (list Z * option nat * string) :=
  match fuel with
  | O => Some (gs, ellipsis, s)
  | S fuel =>
      match hex_run 0 0 s with
      | None => None
      | Some (off, acc, rest) =>
          if (off =? 0)%nat then None else
          match rest with
          | String "." _ =>
              if match ellipsis with None => negb (length gs =? 6)%nat | Some _ => false end then None else
              if (6 <? length gs)%nat then None else
              v ← parseIPv4 s; Some (gs ++ [v / 2 ^ 16; v mod 2 ^ 16], ellipsis, EmptyString)
          | EmptyString => Some (gs ++ [acc], ellipsis, EmptyString)
          | String ":" EmptyString => None
          | String ":" (String ":" more) =>
              match ellipsis with
              | Some _ => None
              | None =>
                  let gs := gs ++ [acc] in
                  match more with EmptyString => Some (gs, Some (length gs), EmptyString) | _ => groups fuel gs (Some (length gs)) more end
              end
          | String ":" more => groups fuel (gs ++ [acc]) ellipsis more
          | _ => None
          end
      end
  end.

Definition join_groups (gs : list Z) : Z := foldl (fun n g => n * 2 ^ 16 + g) 0 gs.

Definition parseIPv6 (s : string) : option ipaddr :=
  '(s, zone) ← match cut "%" s with
               | Some (s, z) => if bool_decide (z = "") then None else Some (s, z)
               | None => Some (s, "")
               end;
  let '(ellipsis, s) := match s with String ":" (String ":" r) => (Some O, r) | _ => (None, s) end in
  match ellipsis, s with
  | Some _, EmptyString => Some (IP6 0 zone)
  | _, _ =>
      '(gs, ellipsis, rest) ← groups 8 [] ellipsis s;
      match rest with
      | String _ _ => None
      | EmptyString =>
          if (length gs <? 8)%nat then
            match ellipsis with
            | None => None
            | Some k => Some (IP6 (join_groups (take k gs ++ replicate (8 - length gs) 0 ++ drop k gs)) zone)
            end
          else match ellipsis with Some _ => None | None => Some (IP6 (join_groups gs) zone) end
      end
  end.

(** Which of the two comes first decides. *)
Fixpoint family (s : string) : option bool :=
  match s with
  | EmptyString => None
  | String "." _ => Some true
  | String ":" _ => Some false
  | String "%" _ => None
  | String _ s => family s
  end.

Definition ParseAddr (s : string) : option ipaddr :=
  match family s with
  | Some true => IP4 <$> parseIPv4 s
  | Some false => parseIPv6 s
  | None => None
  end.

Definition ParsePrefix (s : string) : option prefix :=
  '(a, b) ← cut_last "/" s;
  ip ← ParseAddr a;
  if hasZone ip then None else
  if (2 <=? String.length b)%nat && negb (match b with String c _ => between 49 57 (code c) | EmptyString => false end) then None else
  bits ← Atoi b;
  if (bits <? 0) || (BitLen ip <? bits) then None else Some (MkPrefix ip bits).

(** ** Prefixes *)

(** The bits of an address under a prefix length. *)
Definition high (a : ipaddr) (bits : Z) : Z := Z.shiftr (number a) (BitLen a - bits).

Definition Masked (p : prefix) : prefix :=
  MkPrefix (match pf_ip p with
            | IP4 n => IP4 (Z.shiftl (high (pf_ip p) (pf_bits p)) (32 - pf_bits p))
            | IP6 n _ => IP6 (Z.shiftl (high (pf_ip p) (pf_bits p)) (128 - pf_bits p)) ""
            end) (pf_bits p).

Definition Contains (p : prefix) (a : ipaddr) : bool :=
  if hasZone a then false else
  if negb (Bool.eqb (Is4 (pf_ip p)) (Is4 a)) then false else
  high (pf_ip p) (pf_bits p) =? high a (pf_bits p).

Definition Overlaps (p q : prefix) : bool :=
  if bool_decide (p = q) then true else
  if negb (Bool.eqb (Is4 (pf_ip p)) (Is4 (pf_ip q))) then false else
  let minBits := Z.min (pf_bits p) (pf_bits q) in
  if minBits =? 0 then true else
  high (pf_ip p) minBits =? high (pf_ip q) minBits.

(** The next address, if there is one. *)
Definition Next (a : ipaddr) : option ipaddr :=
  match a with
  | IP4 n => if n <? 2 ^ 32 - 1 then Some (IP4 (n + 1)) else None
  | IP6 n z => if n <? 2 ^ 128 - 1 then Some (IP6 (n + 1) z) else None
  end.

(** [String] of an IPv4 address. *)
Definition String4 (n : Z) : string :=
  utoa (n / 2 ^ 24) +:+ "." +:+ utoa (n / 2 ^ 16 mod 2 ^ 8) +:+ "." +:+ utoa (n / 2 ^ 8 mod 2 ^ 8) +:+ "." +:+ utoa (n mod 2 ^ 8).

Example parse_v4 : ParsePrefix "10.77.0.1/24" = Some (MkPrefix (IP4 (10 * 2 ^ 24 + 77 * 2 ^ 16 + 1)) 24).
Proof. reflexivity. Qed.
Example parse_v6 : ParseAddr "fe80::1:2%eth0" = Some (IP6 (0xfe80 * 2 ^ 112 + 2 ^ 16 + 2) "eth0").
Proof. reflexivity. Qed.
Example parse_mapped : ParseAddr "::ffff:1.2.3.4" = Some (IP6 (0xffff * 2 ^ 32 + 16909060) "").
Proof. reflexivity. Qed.
Example parse_bad : (ParseAddr "1.2.3", ParseAddr "01.2.3.4", ParseAddr "1::2::3", ParseAddr "1:2", ParsePrefix "1.2.3.4/33", ParsePrefix "1.2.3.4/08") =
  (None, None, None, None, None, None).
Proof. reflexivity. Qed.

(** ** Printing and parsing back *)

Fixpoint no_dot (s : string) : bool := match s with EmptyString => true | String c s => negb (Ascii.eqb c ".") && no_dot s end.

Lemma split_dots_nil s : split_dots s <> [].
Proof. induction s as [|c s IH]; simpl; [done|]. destruct (split_dots s); [done|by destruct (Ascii.eqb c ".")]. Qed.

Lemma split_dots_app a s : no_dot a = true -> split_dots (a +:+ "." +:+ s) = a :: split_dots s.
Proof.
  induction a as [|c a IH]; simpl.
  - intros _. change ("" +:+ s) with s. by destruct (split_dots s) eqn:He; [destruct (split_dots_nil s)|].
  - intros [Hc Ha]%andb_true_iff. apply negb_true_iff in Hc.
    by rewrite IH, Hc by done.
Qed.

Lemma split_dots_one a : no_dot a = true -> split_dots a = [a].
Proof. induction a as [|c a IH]; simpl; [done|]. intros [Hc Ha]%andb_true_iff. apply negb_true_iff in Hc. by rewrite IH, Hc. Qed.

Lemma octet_utoa v : 0 <= v < 256 -> octet (utoa v) = Some v /\ no_dot (utoa v) = true.
Proof.
  intros Hv. assert (forallb (fun v => bool_decide (octet (utoa v) = Some v) && no_dot (utoa v)) (seqZ 0 256) = true) as Hall by (by vm_compute).
  rewrite forallb_forall in Hall. specialize (Hall v). rewrite <-list_elem_of_In, elem_of_seqZ in Hall.
  apply andb_true_iff in Hall as [H1%bool_decide_eq_true H2]; [done|lia].
Qed.

Lemma String4_parse n : 0 <= n < 2 ^ 32 -> parseIPv4 (String4 n) = Some n.
Proof.
  intros Hn. unfold String4, parseIPv4.
  destruct (octet_utoa (n / 2 ^ 24)) as [A1 A2]; [split; [by apply Z.div_pos; lia|by apply Z.div_lt_upper_bound; lia]|].
  destruct (octet_utoa (n / 2 ^ 16 mod 2 ^ 8)) as [B1 B2]; [by apply Z.mod_pos_bound|].
  destruct (octet_utoa (n / 2 ^ 8 mod 2 ^ 8)) as [C1 C2]; [by apply Z.mod_pos_bound|].
  destruct (octet_utoa (n mod 2 ^ 8)) as [D1 D2]; [by apply Z.mod_pos_bound|].
  rewrite (split_dots_app _ _ A2), (split_dots_app _ _ B2), (split_dots_app _ _ C2), (split_dots_one _ D2), A1, B1, C1, D1.
  cbn [mbind option_bind]. clear. f_equal. Z.div_mod_to_equations. lia.
Qed.

Lemma String4_inj m n : 0 <= m < 2 ^ 32 -> 0 <= n < 2 ^ 32 -> String4 m = String4 n -> m = n.
Proof. intros Hm Hn He. apply String4_parse in Hm, Hn. congruence. Qed.

(** ** Overlap *)

Definition addr_ok (a : ipaddr) : Prop := 0 <= number a < 2 ^ BitLen a.
Definition prefix_ok (p : prefix) : Prop := addr_ok (pf_ip p) /\ hasZone (pf_ip p) = false /\ 0 <= pf_bits p <= BitLen (pf_ip p).

Lemma high_less a b m : 0 <= m <= b -> b <= BitLen a -> high a m = Z.shiftr (high a b) (b - m).
Proof. intros Hm Hb. unfold high. rewrite Z.shiftr_shiftr by lia. f_equal. lia. Qed.

Lemma high_zero a : addr_ok a -> high a 0 = 0.
Proof.
  intros [H1 H2]. unfold high. rewrite Z.sub_0_r, Z.shiftr_div_pow2 by (unfold BitLen; by destruct (Is4 a)). by apply Z.div_small.
Qed.

Lemma same_family a b : Bool.eqb (Is4 a) (Is4 b) = true -> BitLen a = BitLen b.
Proof. intros H%eqb_prop. unfold BitLen. by rewrite H. Qed.

Lemma Contains_spec p a :
  Contains p a = true <-> hasZone a = false /\ Bool.eqb (Is4 (pf_ip p)) (Is4 a) = true /\ high (pf_ip p) (pf_bits p) = high a (pf_bits p).
Proof. unfold Contains. destruct (hasZone a), (Bool.eqb _ _); simpl; rewrite ?Z.eqb_eq; naive_solver. Qed.

Lemma overlap_at p q a :
  prefix_ok p -> prefix_ok q -> pf_bits p <= pf_bits q -> Contains p a = true -> Contains q a = true -> Overlaps p q = true.
Proof.
  intros (_ & _ & Hp) (_ & _ & Hq) Hle (Hz & Hf & Hh)%Contains_spec (_ & Hf' & Hh')%Contains_spec. unfold Overlaps.
  destruct (bool_decide (p = q)); [done|]. assert (Bool.eqb (Is4 (pf_ip p)) (Is4 (pf_ip q)) = true) as ->.
  { apply eqb_true_iff. apply eqb_prop in Hf, Hf'. congruence. }
  simpl. rewrite Z.min_l by done. destruct (_ =? 0); [done|]. apply Z.eqb_eq. apply same_family in Hf, Hf'.
  rewrite Hh, (high_less (pf_ip q) (pf_bits q)), Hh', <-(high_less a) by lia. done.
Qed.

Lemma overlap_sym p q : Overlaps p q = Overlaps q p.
Proof.
  unfold Overlaps. rewrite (bool_decide_ext (p = q) (q = p)) by done. destruct (bool_decide (q = p)); [done|].
  rewrite (Z.min_comm (pf_bits q)). replace (Bool.eqb (Is4 (pf_ip q)) (Is4 (pf_ip p))) with (Bool.eqb (Is4 (pf_ip p)) (Is4 (pf_ip q)))
    by (by destruct (Is4 (pf_ip p)), (Is4 (pf_ip q))).
  destruct (Bool.eqb _ _); [|done]. simpl. destruct (_ =? 0); [done|]. apply Z.eqb_sym.
Qed.

Lemma overlap_shares p q :
  prefix_ok p -> prefix_ok q -> pf_bits p <= pf_bits q -> Overlaps p q = true -> Contains p (pf_ip q) = true /\ Contains q (pf_ip q) = true.
Proof.
  intros (Hp1 & Hp2 & Hp3) (Hq1 & Hq2 & Hq3) Hle Ho. unfold Overlaps in Ho. rewrite !Contains_spec, !eqb_reflx. split; [|done].
  destruct (bool_decide (p = q)) eqn:He; [apply bool_decide_eq_true in He; subst; by rewrite !eqb_reflx|].
  destruct (Bool.eqb (Is4 (pf_ip p)) (Is4 (pf_ip q))) eqn:Hf; [|done]. split_and!; try done. simpl in Ho. rewrite Z.min_l in Ho by done.
  destruct (Z.eqb_spec (pf_bits p) 0) as [Hz|_]; [|by apply Z.eqb_eq]. by rewrite Hz, !high_zero.
Qed.

(** Two prefixes overlap exactly when some address is in both. *)
Lemma overlaps_iff p q :
  prefix_ok p -> prefix_ok q -> Overlaps p q = true <-> exists a, addr_ok a /\ Contains p a = true /\ Contains q a = true.
Proof.
  intros Hp Hq. split.
  - intros Ho. destruct (Z.le_ge_cases (pf_bits p) (pf_bits q)) as [Hle|Hle].
    + exists (pf_ip q). split; [apply Hq|by apply overlap_shares].
    + exists (pf_ip p). split; [apply Hp|]. rewrite overlap_sym in Ho. by apply and_comm, overlap_shares.
  - intros (a & _ & H1 & H2). destruct (Z.le_ge_cases (pf_bits p) (pf_bits q)) as [Hle|Hle]; [by eapply overlap_at|].
    rewrite overlap_sym. by eapply overlap_at.
Qed.

(** ** What is parsed is in range *)

Lemma parse_unsigned_nonneg s v : parse_unsigned s = Some v -> 0 <= v.
Proof.
  assert (forall acc, 0 <= acc -> parse_digits acc s = Some v -> 0 <= v) as H.
  { induction s as [|c s IH]; simpl; intros acc Hacc H; [by simplify_eq|]. apply bind_Some in H as (d & Hd & H).
    assert (0 <= d) as Hd0.
    { unfold digit_val in Hd. cbv zeta in Hd. destruct (48 <=? Z.of_N (N_of_ascii c)) eqn:Hle; [apply Z.leb_le in Hle|done].
      cbn [andb] in Hd. destruct (Z.of_N (N_of_ascii c) <=? 57); [injection Hd as <-; lia|done]. }
    apply (IH (10 * acc + d)); [lia|done]. }
  unfold parse_unsigned. destruct s; [done|]. by apply H.
Qed.

Lemma octet_range s v : octet s = Some v -> 0 <= v < 256.
Proof.
  unfold octet. destruct (_ && _); [done|]. destruct (parse_unsigned s) as [w|] eqn:He; simpl; [|done].
  apply parse_unsigned_nonneg in He. destruct (Z.leb_spec w 255); [|done]. intros [= <-]. lia.
Qed.

Lemma parseIPv4_range s n : parseIPv4 s = Some n -> 0 <= n < 2 ^ 32.
Proof.
  unfold parseIPv4. destruct (split_dots s) as [|a [|b [|c [|d [|]]]]]; try done. intros H.
  apply bind_Some in H as (va & Ha%octet_range & H). apply bind_Some in H as (vb & Hb%octet_range & H).
  apply bind_Some in H as (vc & Hc%octet_range & H). apply bind_Some in H as (vd & Hd%octet_range & [= <-]). lia.
Qed.

Definition group_ok (g : Z) : Prop := 0 <= g < 2 ^ 16.

Lemma hex_val_range c d : hex_val c = Some d -> 0 <= d < 16.
Proof.
  unfold hex_val, between. intros H. repeat case_match; simplify_eq; repeat match goal with H : _ && _ = true |- _ => apply andb_true_iff in H as [?%Z.leb_le ?%Z.leb_le] end; lia.
Qed.

Lemma hex_run_range s off acc off' acc' rest :
  (off <= 4)%nat -> 0 <= acc < 16 ^ Z.of_nat off -> hex_run off acc s = Some (off', acc', rest) -> group_ok acc'.
Proof.
  revert off acc. induction s as [|c s IH]; intros off acc Hoff Hacc; simpl.
  - intros [= <- <- <-]. split; [lia|]. eapply Z.lt_le_trans; [apply Hacc|]. change (2 ^ 16) with (16 ^ 4). apply Z.pow_le_mono_r; lia.
  - destruct (hex_val c) as [d|] eqn:Hd.
    + destruct (Nat.ltb_spec 3 off); [done|]. apply hex_val_range in Hd. apply IH; [lia|]. rewrite Nat2Z.inj_succ, Z.pow_succ_r by lia. lia.
    + intros [= <- <- <-]. split; [lia|]. eapply Z.lt_le_trans; [apply Hacc|]. change (2 ^ 16) with (16 ^ 4). apply Z.pow_le_mono_r; lia.
Qed.

Lemma groups_range fuel gs e s gs' e' rest :
  Forall group_ok gs -> (length gs + fuel <= 8)%nat -> groups fuel gs e s = Some (gs', e', rest) -> Forall group_ok gs' /\ (length gs' <= 8)%nat.
Proof.
  revert gs e s. induction fuel as [|fuel IH]; intros gs e s Hgs Hlen; cbn [groups].
  { intros [= <- <- <-]. split; [done|lia]. }
  destruct (hex_run 0 0 s) as [[[off acc] r]|] eqn:Hr; [|done]. apply hex_run_range in Hr; [|lia|done].
  assert (Forall group_ok (gs ++ [acc])) as Hgs' by (by apply Forall_app; auto).
  assert (length (gs ++ [acc]) + fuel <= 8)%nat as Hlen' by (rewrite length_app; simpl; lia).
  intros H. repeat (case_match; try discriminate); simplify_eq; try (split; [done|lia]); try (by eapply IH; [| |exact H]).
  all: match goal with H : _ ≫= _ = Some _ |- _ => apply bind_Some in H as (v & Hv%parseIPv4_range & [= <- <- <-]) end.
  all: rewrite length_app; match goal with H : (6 <? _)%nat = false |- _ => apply Nat.ltb_ge in H end; split; [|simpl; lia].
  all: apply Forall_app; split; [done|]; repeat constructor; unfold group_ok; Z.div_mod_to_equations; lia.
Qed.

Lemma join_range gs n m : Forall group_ok gs -> 0 <= n < 2 ^ (16 * m) -> 0 <= m ->
  0 <= foldl (fun n g => n * 2 ^ 16 + g) n gs < 2 ^ (16 * (m + Z.of_nat (length gs))).
Proof.
  intros Hgs. revert n m. induction Hgs as [|g gs [Hg1 Hg2] Hgs IH]; intros n m Hn Hm; cbn [foldl length]; [by rewrite Z.add_0_r|].
  replace (m + Z.of_nat (S (length gs))) with (m + 1 + Z.of_nat (length gs)) by lia. apply IH; [|lia].
  replace (16 * (m + 1)) with (16 * m + 16) by lia. rewrite Z.pow_add_r by lia. lia.
Qed.

Lemma join_groups_range gs : Forall group_ok gs -> length gs = 8%nat -> 0 <= join_groups gs < 2 ^ 128.
Proof. intros Hgs Hlen. unfold join_groups. pose proof (join_range gs 0 0 Hgs ltac:(done) ltac:(lia)) as H. rewrite Hlen in H. exact H. Qed.

Lemma parseIPv6_range s a : parseIPv6 s = Some a -> addr_ok a /\ Is4 a = false.
Proof.
  unfold parseIPv6. intros H. apply bind_Some in H as ([s' zone] & _ & H).
  destruct (match s' with String ":" (String ":" r) => (Some O, r) | _ => (None, s') end) as [e s''].
  assert (forall H : ('(gs, ellipsis, rest) ← groups 8 [] e s'';
      match rest with
      | String _ _ => None
      | EmptyString =>
          if (length gs <? 8)%nat then
            match ellipsis with
            | None => None
            | Some k => Some (IP6 (join_groups (take k gs ++ replicate (8 - length gs) 0 ++ drop k gs)) zone)
            end
          else match ellipsis with Some _ => None | None => Some (IP6 (join_groups gs) zone) end
      end) = Some a, addr_ok a /\ Is4 a = false) as Hgroups.
  { clear H. intros H. apply bind_Some in H as ([[gs e'] rest] & (Hgs & Hlen)%groups_range & H); [|done..].
    repeat (case_match; try discriminate); simplify_eq; (split; [|done]); apply join_groups_range.
    - rewrite !Forall_app. split_and!; [by apply Forall_take|apply Forall_replicate; done|by apply Forall_drop].
    - rewrite !length_app, length_replicate, length_take, length_drop. match goal with H : (_ <? _)%nat = true |- _ => apply Nat.ltb_lt in H end. lia.
    - done.
    - match goal with H : (_ <? _)%nat = false |- _ => apply Nat.ltb_ge in H end. lia. }
  destruct e as [n|]; [|by apply Hgroups]. destruct s''; [|by apply Hgroups]. by injection H as <-.
Qed.

Lemma ParseAddr_ok s a : ParseAddr s = Some a -> addr_ok a.
Proof.
  unfold ParseAddr. destruct (family s) as [[|]|]; [|intros H; exact (proj1 (parseIPv6_range _ _ H))|done].
  intros H. apply fmap_Some in H as (n & Hn%parseIPv4_range & ->). done.
Qed.

Lemma ParsePrefix_ok s p : ParsePrefix s = Some p -> prefix_ok p.
Proof.
  unfold ParsePrefix. intros H. apply bind_Some in H as ([x y] & _ & H). apply bind_Some in H as (ip & Hip%ParseAddr_ok & H).
  destruct (hasZone ip) eqn:Hz; [done|]. destruct (_ && _); [done|]. apply bind_Some in H as (bits & _ & H).
  destruct (Z.ltb_spec bits 0), (Z.ltb_spec (BitLen ip) bits); try discriminate. injection H as <-. by split_and!.
Qed.
