(* ===== verification/GoUrl.v ===== *)
(** * URLs, as Go's [net/url] reads and writes them

    Percent escapes in each part of a URL, query strings, and [url.Parse] as far as
    the sources look at its result: the scheme, the user, the host with its port, the
    query and the fragment. Text is handled as bytes. *)

From S2P Require Import Prelude GoString GoUnicode GoNetip.

(** ** Escapes *)

Inductive encoding := encodePath | encodePathSegment | encodeHost | encodeZone | encodeUserPassword | encodeQueryComponent | encodeFragment.
#[export] Instance encoding_eq_dec : EqDecision encoding.
Proof. solve_decision. Defined.

Definition is_letter (c : ascii) : bool := between 65 90 (code c) || between 97 122 (code c).
Definition is_num (c : ascii) : bool := between 48 57 (code c).
Definition is_in (l : string) (c : ascii) : bool := bool_decide (c ∈ to_bytes l).

Definition shouldEscape (c : ascii) (mode : encoding) : bool :=
  let hosty := match mode with encodeHost | encodeZone => true | _ => false end in
  if is_letter c || is_num c then false else
  if hosty && is_in "!$&'()*+,;=:[]<>" c || hosty && (code c =? 34) then false else
  if is_in "-_.~" c then false else
  if negb hosty && is_in "$&+,/:;=?@" c then
    match mode with
    | encodePath => bool_decide (c = "?"%char)
    | encodePathSegment => is_in "/;,?" c
    | encodeUserPassword => is_in "@/?:" c
    | encodeFragment => false
    | _ => true
    end
  else match mode with encodeFragment => negb (is_in "!()*" c) | _ => true end.

Definition upperhex (n : Z) : ascii := ascii_of_N (Z.to_N (if n <? 10 then 48 + n else 55 + n)).
Definition unhex (c : ascii) : option Z :=
  if is_num c then Some (code c - 48) else if between 97 102 (code c) then Some (code c - 87) else if between 65 70 (code c) then Some (code c - 55) else None.

Definition escape_char (mode : encoding) (c : ascii) : bytes :=
  if shouldEscape c mode then
    if bool_decide (c = " "%char) && bool_decide (mode = encodeQueryComponent) then ["+"%char]
    else ["%"%char; upperhex (code c / 16); upperhex (code c mod 16)]
  else [c].
Definition escape (mode : encoding) (l : bytes) : bytes := l ≫= escape_char mode.

(** A percent escape a host may not have. *)
Definition host_forbids (mode : encoding) (a b : Z) : bool :=
  match mode with
  | encodeHost => (a <? 8) && negb ((a =? 2) && (b =? 5))
  | encodeZone => let v := ascii_of_N (Z.to_N (16 * a + b)) in negb ((a =? 2) && (b =? 5)) && negb (bool_decide (v = " "%char)) && shouldEscape v encodeHost
  | _ => false
  end.

Fixpoint unescape (mode : encoding) (l : bytes) : option bytes :=
  match l with
  | [] => Some []
  | c :: l1 =>
      if bool_decide (c = "%"%char) then
        match l1 with
        | x :: y :: l2 =>
            a ← unhex x; b ← unhex y;
            if host_forbids mode a b then None else cons (ascii_of_N (Z.to_N (16 * a + b))) <$> unescape mode l2
        | _ => None
        end
      else if match mode with encodeHost | encodeZone => (code c <? 128) && shouldEscape c mode | _ => false end then None
      else cons (if bool_decide (c = "+"%char) && bool_decide (mode = encodeQueryComponent) then " "%char else c) <$> unescape mode l1
  end.

Definition PathEscape (s : string) : string := of_bytes (escape encodePathSegment (to_bytes s)).
Definition QueryEscape (l : bytes) : bytes := escape encodeQueryComponent l.

(** ** Cutting *)

(** [strings.Cut] at a byte, at its first and at its last occurrence. *)
Fixpoint cut_byte (c : ascii) (l : bytes) : option (bytes * bytes) :=
  match l with
  | [] => None
  | d :: l => if bool_decide (d = c) then Some ([], l) else '(a, b) ← cut_byte c l; Some (d :: a, b)
  end.
Fixpoint cut_byte_last (c : ascii) (l : bytes) : option (bytes * bytes) :=
  match l with
  | [] => None
  | d :: l =>
      match cut_byte_last c l with
      | Some (a, b) => Some (d :: a, b)
      | None => if bool_decide (d = c) then Some ([], l) else None
      end
  end.
Definition before (c : ascii) (l : bytes) : bytes := match cut_byte c l with Some (a, _) => a | None => l end.
Definition after (c : ascii) (l : bytes) : bytes := match cut_byte c l with Some (_, b) => b | None => [] end.
Fixpoint split_byte (c : ascii) (l : bytes) : list bytes :=
  match l with
  | [] => [[]]
  | d :: l => if bool_decide (d = c) then [] :: split_byte c l else match split_byte c l with w :: ws => (d :: w) :: ws | [] => [[d]] end
  end.

(** ** Queries *)

(** [url.Values] with one value a key, which is all [Set] makes. *)
Abbreviation values := (gmap string string).

Definition kv_le (a b : string * string) : Prop := String.leb a.1 b.1 = true.
#[export] Instance kv_le_dec : RelDecision kv_le.
Proof. intros a b. unfold kv_le. apply _. Defined.

Definition encode_pair (kv : string * string) : bytes := QueryEscape (to_bytes kv.1) ++ "="%char :: QueryEscape (to_bytes kv.2).
Fixpoint join_amp (l : list bytes) : bytes :=
  match l with
  | [] => []
  | [w] => w
  | w :: l => w ++ "&"%char :: join_amp l
  end.
(** [Values.Encode] *)
Definition Encode_bytes (v : values) : bytes := join_amp (encode_pair <$> merge_sort kv_le (map_to_list v)).
Definition Encode (v : values) : string := of_bytes (Encode_bytes v).

(** [ParseQuery], whose error [Query] drops: pairs with a semicolon or a bad escape
    are left out. *)
Definition parse_pair (w : bytes) : option (string * string) :=
  if bool_decide (";"%char ∈ w) || bool_decide (w = []) then None else
  k ← unescape encodeQueryComponent (before "=" w);
  v ← unescape encodeQueryComponent (after "=" w);
  Some (of_bytes k, of_bytes v).
Definition ParseQuery (q : bytes) : list (string * string) := omap parse_pair (split_byte "&" q).
(** [Values.Get]: the first value of the key. *)
Fixpoint Get (l : list (string * string)) (k : string) : string :=
  match l with [] => "" | (k', v) :: l => if bool_decide (k' = k) then v else Get l k end.

(** ** URLs *)

Record URL := MkURL { Scheme : string; User : option (string * option string); Host_ : bytes; RawQuery : bytes; Fragment : string }.

Definition stringContainsCTLByte (l : bytes) : bool := existsb (fun c => (code c <? 32) || (code c =? 127)) l.

(** [getScheme]: no scheme leaves the whole text; [None] is a missing one. *)
Fixpoint scheme_run (first : bool) (l : bytes) : option (option (bytes * bytes)) :=
  match l with
  | [] => Some None
  | c :: l =>
      if is_letter c then match scheme_run false l with Some (Some (s, r)) => Some (Some (c :: s, r)) | x => x end
      else if is_num c || is_in "+-." c then if first then Some None else match scheme_run false l with Some (Some (s, r)) => Some (Some (c :: s, r)) | x => x end
      else if bool_decide (c = ":"%char) then if first then None else Some (Some ([], l))
      else Some None
  end.
Definition getScheme (l : bytes) : option (bytes * bytes) :=
  match scheme_run true l with Some (Some p) => Some p | Some None => Some ([], l) | None => None end.

Definition lower_byte (c : ascii) : ascii := if between 65 90 (code c) then ascii_of_N (N_of_ascii c + 32) else c.

Definition validOptionalPort (l : bytes) : bool := match l with [] => true | c :: l => bool_decide (c = ":"%char) && forallb is_num l end.

Definition validUserinfo (l : bytes) : bool := forallb (fun c => is_letter c || is_num c || is_in "-._:~!$&'()*+,;=%@" c) l.

(** What is in front of a zone's escaped percent sign, and the rest from it on. *)
Fixpoint cut_zone (l : bytes) : bytes * bytes :=
  match l with
  | [] => ([], [])
  | c :: l' => if bool_decide (list.take 3 l = to_bytes "%25") then ([], l) else let '(h, z) := cut_zone l' in (c :: h, z)
  end.

(** [parseHost]: an IPv6 address in brackets, or a name without one; a name has at
    most the colon of its port. *)
Definition parseHost (l : bytes) : option bytes :=
  match l with
  | c :: l' =>
      if bool_decide (c = "["%char) then
        '(inner, port) ← cut_byte_last "]" l';
        if negb (validOptionalPort port) then None else
        let '(h, z) := cut_zone inner in
        h ← unescape encodeHost h;
        z ← unescape encodeZone z;
        match ParseAddr (of_bytes (h ++ z)) with
        | Some a => if Is4 a then None else Some ("["%char :: h ++ z ++ "]"%char :: port)
        | None => None
        end
      else if bool_decide ("["%char ∈ l) then None
      else if match cut_byte ":" l with Some (_, p) => forallb is_num p | None => true end then unescape encodeHost l else None
  | [] => Some []
  end.

Definition parseAuthority (l : bytes) : option (option (string * option string) * bytes) :=
  match cut_byte_last "@" l with
  | None => h ← parseHost l; Some (None, h)
  | Some (userinfo, host) =>
      h ← parseHost host;
      if negb (validUserinfo userinfo) then None else
      match cut_byte ":" userinfo with
      | None => u ← unescape encodeUserPassword userinfo; Some (Some (of_bytes u, None), h)
      | Some (u, p) => u ← unescape encodeUserPassword u; p ← unescape encodeUserPassword p; Some (Some (of_bytes u, Some (of_bytes p)), h)
      end
  end.

(** [parse], without the fragment. *)
Definition parse_url (l : bytes) : option URL :=
  if stringContainsCTLByte l then None else
  if bool_decide (l = ["*"%char]) then Some (MkURL "" None [] [] "") else
  '(scheme, rest) ← getScheme l;
  let scheme := of_bytes (lower_byte <$> scheme) in
  let q := after "?" rest in
  let rest := before "?" rest in
  match rest with
  | a :: b :: authority =>
      if bool_decide (a = "/"%char) && bool_decide (b = "/"%char) && negb (bool_decide (scheme = "") && bool_decide (head authority = Some "/"%char)) then
        let path := match cut_byte "/" authority with Some (_, p) => "/"%char :: p | None => [] end in
        '(user, host) ← parseAuthority (before "/" authority);
        _ ← unescape encodePath path;
        Some (MkURL scheme user host q "")
      else if bool_decide (a = "/"%char) then _ ← unescape encodePath rest; Some (MkURL scheme None [] q "")
      else if bool_decide (scheme = "") then
        if bool_decide (":"%char ∈ before "/" rest) then None else _ ← unescape encodePath rest; Some (MkURL scheme None [] q "")
      else Some (MkURL scheme None [] q "")
  | _ =>
      if bool_decide (scheme = "") || bool_decide (head rest = Some "/"%char) then
        if negb (bool_decide (head rest = Some "/"%char)) && bool_decide (":"%char ∈ rest) then None else _ ← unescape encodePath rest; Some (MkURL scheme None [] q "")
      else Some (MkURL scheme None [] q "")
  end.

(** [url.Parse] *)
Definition Parse (s : string) : option URL :=
  let l := to_bytes s in
  u ← parse_url (before "#" l);
  f ← unescape encodeFragment (after "#" l);
  Some (MkURL (Scheme u) (User u) (Host_ u) (RawQuery u) (of_bytes f)).

(** [splitHostPort], for [Hostname] and [Port]. *)
Definition splitHostPort (l : bytes) : bytes * bytes :=
  let '(h, p) := match cut_byte_last ":" l with Some (h, p) => if forallb is_num p then (h, p) else (l, []) | None => (l, []) end in
  (match h with c :: h' => if bool_decide (c = "["%char) && bool_decide (last h' = Some "]"%char) then removelast h' else h | [] => h end, p).
Definition Hostname (u : URL) : string := of_bytes (splitHostPort (Host_ u)).1.
Definition Port (u : URL) : bytes := (splitHostPort (Host_ u)).2.
(** [u.User.Username()], of no user too. *)
Definition Username (u : URL) : string := match User u with Some (n, _) => n | None => "" end.
Definition Password (u : URL) : string := match User u with Some (_, Some p) => p | _ => "" end.
Definition Query (u : URL) : list (string * string) := ParseQuery (RawQuery u).

(** [net.JoinHostPort] *)
Definition JoinHostPort (host port : string) : string :=
  if bool_decide (":"%char ∈ to_bytes host) then "[" +:+ host +:+ "]:" +:+ port else host +:+ ":" +:+ port.

Example url_plain : (fun u => (Scheme u, Username u, Hostname u, of_bytes (Port u), Get (Query u) "a", Fragment u)) <$> Parse "vless://me@h.example:443?b=2&a=%2F+x#N%20m" =
  Some ("vless", "me", "h.example", "443", "/ x", "N m").
Proof. vm_compute. reflexivity. Qed.
Example url_six : (fun u => (Hostname u, of_bytes (Port u))) <$> Parse "vless://me@[2001:db8::1]:443" = Some ("2001:db8::1", "443").
Proof. vm_compute. reflexivity. Qed.
Example url_bare_six : Parse "vless://me@2001:db8::1:443" = None.
Proof. vm_compute. reflexivity. Qed.

(** * Lemmas *)

(** ** Bytes, one by one *)

Definition all_chars : list ascii := ascii_of_nat <$> seq 0 256.
Lemma all_chars_all c : c ∈ all_chars.
Proof.
  apply list_elem_of_fmap. exists (nat_of_ascii c). split; [by rewrite ascii_nat_embedding|]. apply elem_of_seq. pose proof (nat_ascii_bounded c). lia.
Qed.
Lemma by_chars (P : ascii -> bool) : forallb P all_chars = true -> forall c, P c = true.
Proof. intros H c. rewrite forallb_forall in H. apply H. rewrite <-list_elem_of_In. apply all_chars_all. Qed.

Lemma to_bytes_app (a b : string) : to_bytes (a +:+ b) = to_bytes a ++ to_bytes b.
Proof. induction a as [|c a IH]; [done|]. rewrite string_app_cons. exact (f_equal (cons c) IH). Qed.

(** A byte is left alone, or comes back from its escape. *)
Definition escape_comes_back (mode mode' : encoding) (c : ascii) : bool :=
  match escape_char mode c with
  | [d] => if bool_decide (d = "%"%char) then false else bool_decide ((if bool_decide (d = "+"%char) && bool_decide (mode' = encodeQueryComponent) then " "%char else d) = c)
  | [p; x; y] => bool_decide (p = "%"%char) && match unhex x, unhex y with Some a, Some b => bool_decide (ascii_of_N (Z.to_N (16 * a + b)) = c) | _, _ => false end
  | _ => false
  end.
Definition plain_mode (mode : encoding) : bool := match mode with encodeHost | encodeZone => false | _ => true end.

Lemma unescape_escape mode mode' l : plain_mode mode' = true -> (forall c, escape_comes_back mode mode' c = true) -> unescape mode' (escape mode l) = Some l.
Proof.
  intros Hm Hb. unfold escape. induction l as [|c l IH]; [done|]. cbn [mbind list_bind]. specialize (Hb c). unfold escape_comes_back in Hb.
  assert (host_forbids mode' = fun _ _ => false) as Hf by (by destruct mode').
  destruct (escape_char mode c) as [|d [|x [|y [|]]]]; try done.
  - destruct (bool_decide (d = "%"%char)) eqn:Hd; [done|]. apply bool_decide_eq_true in Hb. cbn [app unescape]. rewrite Hd.
    replace (match mode' with encodeHost | encodeZone => (code d <? 128) && shouldEscape d mode' | _ => false end) with false by (by destruct mode').
    fold (list_bind _ _ (escape_char mode) l) in IH |- *. change (list_bind _ _ (escape_char mode) l) with (l ≫= escape_char mode). rewrite IH. cbn. by rewrite Hb.
  - apply andb_true_iff in Hb as [Hp Hb]. cbn [app unescape]. rewrite Hp. destruct (unhex x) as [a|]; [|done]. destruct (unhex y) as [b|]; [|done]. cbn [mbind option_bind].
    rewrite Hf. apply bool_decide_eq_true in Hb. rewrite Hb. change (list_bind _ _ (escape_char mode) l) with (l ≫= escape_char mode). by rewrite IH.
Qed.

Lemma unescape_query l : unescape encodeQueryComponent (QueryEscape l) = Some l.
Proof. apply unescape_escape; [done|]. apply by_chars. vm_compute. reflexivity. Qed.
Lemma unescape_fragment l : unescape encodeFragment (escape encodePathSegment l) = Some l.
Proof. apply unescape_escape; [done|]. apply by_chars. vm_compute. reflexivity. Qed.
Lemma unescape_user_path l : unescape encodeUserPassword (escape encodePathSegment l) = Some l.
Proof. apply unescape_escape; [done|]. apply by_chars. vm_compute. reflexivity. Qed.

(** The bytes an escape can have. *)
Lemma escape_class mode (P : ascii -> bool) l : (forall c, forallb P (escape_char mode c) = true) -> Forall (fun c => P c = true) (escape mode l).
Proof.
  intros Hp. unfold escape. induction l as [|c l IH]; [constructor|]. cbn [mbind list_bind]. apply Forall_app. split; [|done].
  apply Forall_forall. intros x Hx. specialize (Hp c). rewrite forallb_forall in Hp. apply Hp. by rewrite <-list_elem_of_In.
Qed.

Definition query_char (c : ascii) : bool := is_letter c || is_num c || is_in "-_.~%+" c.
Definition segment_char (c : ascii) : bool := is_letter c || is_num c || is_in "-_.~%$&+:=@" c.

Lemma QueryEscape_class l : Forall (fun c => query_char c = true) (QueryEscape l).
Proof. apply escape_class. apply by_chars. vm_compute. reflexivity. Qed.
Lemma PathSegment_class l : Forall (fun c => segment_char c = true) (escape encodePathSegment l).
Proof. apply escape_class. apply by_chars. vm_compute. reflexivity. Qed.

Lemma class_not_in (P : ascii -> bool) (c : ascii) l : Forall (fun c => P c = true) l -> P c = false -> c ∉ l.
Proof. intros Hl Hc Hin. rewrite Forall_forall in Hl. specialize (Hl c Hin). congruence. Qed.

(** ** Cutting *)

Lemma cut_byte_app c a b : c ∉ a -> cut_byte c (a ++ c :: b) = Some (a, b).
Proof.
  intros Hn. induction a as [|d a IH]; cbn.
  - by rewrite bool_decide_eq_true_2.
  - rewrite bool_decide_eq_false_2 by (intros ->; apply Hn; left). rewrite IH; [done|]. intros H. apply Hn. by right.
Qed.
Lemma cut_byte_none c l : c ∉ l -> cut_byte c l = None.
Proof.
  intros Hn. induction l as [|d l IH]; [done|]. cbn. rewrite bool_decide_eq_false_2 by (intros ->; apply Hn; left). rewrite IH; [done|]. intros H. apply Hn. by right.
Qed.
Lemma cut_byte_last_none c l : c ∉ l -> cut_byte_last c l = None.
Proof.
  intros Hn. induction l as [|d l IH]; [done|]. cbn. rewrite IH by (intros H; apply Hn; by right). rewrite bool_decide_eq_false_2; [done|]. intros ->. apply Hn. left.
Qed.
Lemma cut_byte_last_app c a b : c ∉ b -> cut_byte_last c (a ++ c :: b) = Some (a, b).
Proof.
  intros Hn. induction a as [|d a IH]; cbn.
  - by rewrite cut_byte_last_none, bool_decide_eq_true_2.
  - by rewrite IH.
Qed.
Lemma before_app c a b : c ∉ a -> before c (a ++ c :: b) = a.
Proof. intros H. unfold before. by rewrite cut_byte_app. Qed.
Lemma after_app c a b : c ∉ a -> after c (a ++ c :: b) = b.
Proof. intros H. unfold after. by rewrite cut_byte_app. Qed.
Lemma before_none c a : c ∉ a -> before c a = a.
Proof. intros H. unfold before. by rewrite cut_byte_none. Qed.

Lemma split_byte_none c l : c ∉ l -> split_byte c l = [l].
Proof.
  intros Hn. induction l as [|d l IH]; [done|]. cbn. rewrite bool_decide_eq_false_2 by (intros ->; apply Hn; left). rewrite IH; [done|]. intros H. apply Hn. by right.
Qed.
Lemma split_byte_app c a b : c ∉ a -> split_byte c (a ++ c :: b) = a :: split_byte c b.
Proof.
  intros Hn. induction a as [|d a IH]; cbn.
  - by rewrite bool_decide_eq_true_2.
  - rewrite bool_decide_eq_false_2 by (intros ->; apply Hn; left). rewrite IH; [done|]. intros H. apply Hn. by right.
Qed.

(** ** A query comes back *)

Lemma parse_encoded_pair kv : parse_pair (encode_pair kv) = Some kv.
Proof.
  destruct kv as [k v]. unfold parse_pair, encode_pair. cbn [fst snd].
  pose proof (QueryEscape_class (to_bytes k)) as Hk. pose proof (QueryEscape_class (to_bytes v)) as Hv.
  rewrite (bool_decide_eq_false_2 (";"%char ∈ _)).
  2: { rewrite elem_of_app, elem_of_cons. intros [H|[H|H]]; [by eapply class_not_in in H|done|by eapply class_not_in in H]. }
  rewrite bool_decide_eq_false_2 by (by destruct (QueryEscape (to_bytes k))). cbn [orb].
  assert ("="%char ∉ QueryEscape (to_bytes k)) as He by (by eapply class_not_in).
  rewrite before_app, after_app by done. rewrite !unescape_query. cbn. by rewrite !of_to_bytes.
Qed.

Lemma parse_joined l : ParseQuery (join_amp (encode_pair <$> l)) = l.
Proof.
  unfold ParseQuery. assert (forall kv, "&"%char ∉ encode_pair kv) as Hn.
  { intros [k v]. unfold encode_pair. rewrite elem_of_app, elem_of_cons.
    intros [H|[H|H]]; [eapply class_not_in in H; [done|apply QueryEscape_class|done]|done|eapply class_not_in in H; [done|apply QueryEscape_class|done]]. }
  induction l as [|kv l IH]; [done|]. rewrite fmap_cons. destruct l as [|kv' l].
  - cbn [fmap list_fmap join_amp]. rewrite split_byte_none by apply Hn. cbn [omap list_omap]. by rewrite parse_encoded_pair.
  - change (join_amp (encode_pair kv :: (encode_pair <$> kv' :: l))) with (encode_pair kv ++ "&"%char :: join_amp (encode_pair <$> kv' :: l)).
    rewrite split_byte_app by apply Hn. cbn [omap list_omap]. rewrite parse_encoded_pair. by f_equal.
Qed.

Lemma Get_elem l k v : (k, v) ∈ l -> NoDup l.*1 -> Get l k = v.
Proof.
  induction l as [|[k' v'] l IH]; [by intros H%elem_of_nil|]. cbn. intros [[= -> ->]|Hin]%elem_of_cons Hnd; [by rewrite bool_decide_eq_true_2|].
  apply NoDup_cons in Hnd as [Hn Hnd]. rewrite bool_decide_eq_false_2; [by apply IH|]. intros ->. apply Hn. apply list_elem_of_fmap. by exists (k, v).
Qed.
Lemma Get_none l k : k ∉ l.*1 -> Get l k = "".
Proof.
  induction l as [|[k' v'] l IH]; [done|]. cbn. rewrite not_elem_of_cons. intros [Hne Hn]. rewrite bool_decide_eq_false_2 by congruence. by apply IH.
Qed.

Lemma Get_Encode (v : values) k : Get (ParseQuery (Encode_bytes v)) k = default "" (v !! k).
Proof.
  unfold Encode_bytes. rewrite parse_joined. set (l := merge_sort kv_le (map_to_list v)). assert (l ≡ₚ map_to_list v) as Hl by apply merge_sort_Permutation.
  destruct (v !! k) as [x|] eqn:Hk; cbn.
  - apply Get_elem; [rewrite Hl; by apply elem_of_map_to_list|]. rewrite Hl. apply NoDup_fst_map_to_list.
  - apply Get_none. rewrite Hl. intros ([k' x] & -> & Hin)%list_elem_of_fmap. apply elem_of_map_to_list in Hin. cbn in Hk. congruence.
Qed.

Definition encoded_char (c : ascii) : bool := query_char c || is_in "=&" c.
Lemma Encode_class v : Forall (fun c => encoded_char c = true) (Encode_bytes v).
Proof.
  unfold Encode_bytes. set (l := merge_sort _ _). clearbody l.
  assert (forall c, query_char c = true -> encoded_char c = true) as Hq by (intros c Hc; unfold encoded_char; by rewrite Hc).
  assert (forall kv, Forall (fun c => encoded_char c = true) (encode_pair kv)) as Hp.
  { intros kv. unfold encode_pair. apply Forall_app. split; [eapply Forall_impl; [apply QueryEscape_class|exact Hq]|].
    constructor; [done|]. eapply Forall_impl; [apply QueryEscape_class|exact Hq]. }
  induction l as [|kv [|kv' l] IH]; [constructor|apply Hp|]. cbn [fmap list_fmap join_amp] in *. apply Forall_app. split; [apply Hp|]. constructor; [done|exact IH].
Qed.

(** ** A URL that was put together comes apart *)

Definition graphic (c : ascii) : bool := between 33 126 (code c).
(** Bytes that end neither an authority nor a query. *)
Definition inner_char (c : ascii) : bool := graphic c && negb (is_in "#?/" c).
Definition small_letter (c : ascii) : bool := between 97 122 (code c).

Lemma no_ctl l : Forall (fun c => graphic c = true) l -> stringContainsCTLByte l = false.
Proof.
  intros Hl. unfold stringContainsCTLByte. induction Hl as [|c l Hc _ IH]; [done|]. cbn. rewrite IH. unfold graphic, between in Hc.
  apply andb_true_iff in Hc as [H1%Z.leb_le H2%Z.leb_le]. destruct (Z.ltb_spec (code c) 32), (Z.eqb_spec (code c) 127); lia || done.
Qed.

Lemma inner_graphic c : inner_char c = true -> graphic c = true.
Proof. unfold inner_char. by intros [? _]%andb_true_iff. Qed.
Lemma small_inner c : small_letter c = true -> inner_char c = true.
Proof. intros H. pose proof (by_chars (fun c => implb (small_letter c) (inner_char c)) ltac:(vm_compute; reflexivity) c) as Hi. cbn in Hi. by rewrite H in Hi. Qed.

Lemma scheme_letters s r : Forall (fun c => small_letter c = true) s -> s <> [] -> getScheme (s ++ ":"%char :: r) = Some (s, r).
Proof.
  intros Hs Hne. unfold getScheme. assert (forall first, scheme_run first (s ++ ":"%char :: r) = if first && bool_decide (s = []) then None else Some (Some (s, r))) as Hrun.
  { clear Hne. induction Hs as [|c s Hc _ IH]; intros first; [by destruct first|]. cbn [app scheme_run].
    assert (is_letter c = true) as -> by (unfold is_letter; unfold small_letter in Hc; rewrite Hc; apply orb_true_r). rewrite IH. cbn [andb]. by rewrite andb_false_r. }
  rewrite Hrun. by rewrite bool_decide_eq_false_2.
Qed.

Lemma lower_small s : Forall (fun c => small_letter c = true) s -> lower_byte <$> s = s.
Proof.
  induction 1 as [|c s Hc _ IH]; [done|]. cbn. rewrite IH. f_equal. unfold lower_byte. unfold small_letter, between in *. apply andb_true_iff in Hc as [H1%Z.leb_le H2%Z.leb_le].
  destruct (Z.leb_spec (code c) 90); [lia|]. by rewrite andb_false_r.
Qed.

Section built.
Context (scheme user hp q f : bytes) (u h f' : bytes).
Context (Hscheme : Forall (fun c => small_letter c = true) scheme) (Hne : scheme <> []).
Context (Huser : Forall (fun c => inner_char c = true) user) (Hcolon : ":"%char ∉ user) (Hvalid : validUserinfo user = true) (Hu : unescape encodeUserPassword user = Some u).
Context (Hhp : Forall (fun c => inner_char c = true) hp) (Hat : "@"%char ∉ hp) (Hh : parseHost hp = Some h).
Context (Hq : Forall (fun c => graphic c = true) q) (Hhash : "#"%char ∉ q).
Context (Hf : unescape encodeFragment f = Some f').

Definition built_head : bytes := scheme ++ ":"%char :: "/"%char :: "/"%char :: user ++ "@"%char :: hp.

Lemma parse_built : parse_url (built_head ++ "?"%char :: q) = Some (MkURL (of_bytes scheme) (Some (of_bytes u, None)) h q "").
Proof.
  assert (Forall (fun c => inner_char c = true) (user ++ "@"%char :: hp)) as Hauth by (apply Forall_app; split; [done|]; by constructor).
  unfold parse_url. rewrite no_ctl.
  2: { unfold built_head. rewrite <-app_assoc. apply Forall_app. split; [eapply Forall_impl; [exact Hscheme|]; intros c Hc; by apply inner_graphic, small_inner|].
    cbn [app]. do 3 (constructor; [done|]). apply Forall_app. split; [eapply Forall_impl; [exact Hauth|]; intros c Hc; by apply inner_graphic|]. by constructor. }
  rewrite bool_decide_eq_false_2 by (unfold built_head; destruct scheme as [|c [|]]; [done|..]; intros [= _]).
  unfold built_head. rewrite <-app_assoc. cbn [app]. rewrite scheme_letters by done. cbn [mbind option_bind]. rewrite lower_small by done.
  assert ("?"%char ∉ "/"%char :: "/"%char :: user ++ "@"%char :: hp) as Hnq.
  { rewrite !not_elem_of_cons. split; [done|]. split; [done|]. by eapply class_not_in. }
  change ("/"%char :: "/"%char :: (user ++ "@"%char :: hp) ++ "?"%char :: q) with (("/"%char :: "/"%char :: user ++ "@"%char :: hp) ++ "?"%char :: q).
  rewrite before_app, after_app by done. cbn [app].
  rewrite !bool_decide_eq_true_2 by done. rewrite (bool_decide_eq_false_2 (of_bytes scheme = "")) by (by destruct scheme). cbn [andb negb].
  assert ("/"%char ∉ user ++ "@"%char :: hp) as Hns by (by eapply class_not_in).
  rewrite before_none, cut_byte_none by done. unfold parseAuthority. rewrite cut_byte_last_app by done. rewrite Hh. cbn [mbind option_bind]. rewrite Hvalid. cbn [negb].
  rewrite (cut_byte_none ":") by done. rewrite Hu. done.
Qed.

Lemma Parse_built : Parse (of_bytes (built_head ++ "?"%char :: q ++ "#"%char :: f)) = Some (MkURL (of_bytes scheme) (Some (of_bytes u, None)) h q (of_bytes f')).
Proof.
  unfold Parse. rewrite to_of_bytes. replace (built_head ++ "?"%char :: q ++ "#"%char :: f) with ((built_head ++ "?"%char :: q) ++ "#"%char :: f) by (by rewrite <-app_assoc).
  assert ("#"%char ∉ built_head ++ "?"%char :: q) as Hn.
  { unfold built_head. rewrite <-app_assoc. cbn [app]. rewrite <-app_assoc. cbn [app]. rewrite elem_of_app, !elem_of_cons, elem_of_app, elem_of_cons, elem_of_app, elem_of_cons.
    intros [H|[H|[H|[H|[H|[H|[H|[H|H]]]]]]]]; try done.
    - eapply class_not_in in H; [done|exact Hscheme|done].
    - eapply class_not_in in H; [done|exact Huser|done].
    - eapply class_not_in in H; [done|exact Hhp|done]. }
  rewrite before_app, after_app by done. rewrite parse_built. cbn [mbind option_bind]. rewrite Hf. done.
Qed.
End built.

Lemma forallb_Forall_true {A} (P : A -> bool) l : Forall (fun c => P c = true) l -> forallb P l = true.
Proof. induction 1 as [|c l Hc _ IH]; [done|]. cbn. by rewrite Hc. Qed.

(** ** Hosts *)

(** The bytes of a host name or an IPv4 address. *)
Definition name_char (c : ascii) : bool := is_letter c || is_num c || is_in "-._" c.

Definition hostport_char (c : ascii) : bool := name_char c || is_in ":" c.
Definition host_stays (c : ascii) : bool := implb (hostport_char c) (negb (bool_decide (c = "%"%char)) && negb (shouldEscape c encodeHost)).
Lemma host_stays_all c : host_stays c = true.
Proof. apply by_chars. vm_compute. reflexivity. Qed.

Lemma unescape_host l : Forall (fun c => hostport_char c = true) l -> unescape encodeHost l = Some l.
Proof.
  induction 1 as [|c l Hc _ IH]; [done|]. cbn [unescape]. pose proof (host_stays_all c) as Hx. unfold host_stays in Hx. rewrite Hc in Hx. cbn [implb] in Hx.
  apply andb_true_iff in Hx as [H1%negb_true_iff H2%negb_true_iff]. rewrite H1, H2, andb_false_r, IH. by rewrite andb_false_r.
Qed.

Lemma name_hostport c : name_char c = true -> hostport_char c = true.
Proof. intros H. unfold hostport_char. by rewrite H. Qed.
Lemma num_name c : is_num c = true -> name_char c = true.
Proof. intros H. unfold name_char. rewrite H. by rewrite orb_true_r. Qed.

(** A name with a port. *)
Lemma parseHost_name n p : Forall (fun c => name_char c = true) n -> n <> [] -> Forall (fun c => is_num c = true) p ->
  parseHost (n ++ ":"%char :: p) = Some (n ++ ":"%char :: p) /\ splitHostPort (n ++ ":"%char :: p) = (n, p).
Proof.
  intros Hn Hne Hp. assert (forallb is_num p = true) as Hpb by by apply forallb_Forall_true.
  assert (":"%char ∉ n) as Hc by (by eapply class_not_in). assert (":"%char ∉ p) as Hcp by (by eapply class_not_in).
  assert ("["%char ∉ n) as Hb by (by eapply class_not_in). split.
  - unfold parseHost. destruct (n ++ ":"%char :: p) as [|c l] eqn:Hl; [done|]. destruct n as [|c' n]; [done|]. injection Hl as -> Hl.
    rewrite bool_decide_eq_false_2 by (intros ->; apply Hb; left). rewrite <-Hl.
    assert (Forall (fun c => hostport_char c = true) (c :: n ++ ":"%char :: p)) as Hall.
    { change (c :: n ++ ":"%char :: p) with ((c :: n) ++ ":"%char :: p). apply Forall_app. split; [eapply Forall_impl; [exact Hn|apply name_hostport]|].
      constructor; [done|]. eapply Forall_impl; [exact Hp|]. intros x Hx. by apply name_hostport, num_name. }
    rewrite bool_decide_eq_false_2 by (eapply class_not_in; [exact Hall|done]).
    change (c :: n ++ ":"%char :: p) with ((c :: n) ++ ":"%char :: p) at 1. rewrite cut_byte_app by done. rewrite Hpb. by apply unescape_host.
  - unfold splitHostPort. rewrite cut_byte_last_app by done. rewrite Hpb. destruct n as [|c n]; [done|].
    rewrite (bool_decide_eq_false_2 (c = "["%char)); [done|]. intros ->. apply Hb. left.
Qed.

(** The bytes of an IPv6 address without a zone. *)
Definition six_char (c : ascii) : bool := is_letter c || is_num c || is_in ":." c.
Lemma six_hostport c : six_char c = true -> hostport_char c = true.
Proof. assert (forall c, implb (six_char c) (hostport_char c) = true) as H by (apply by_chars; vm_compute; reflexivity). intros Hc. specialize (H c). by rewrite Hc in H. Qed.

Lemma cut_zone_none l : "%"%char ∉ l -> cut_zone l = (l, []).
Proof.
  induction l as [|c l IH]; [done|]. rewrite not_elem_of_cons. intros [Hc Hl]. cbn [cut_zone]. rewrite bool_decide_eq_false_2; [by rewrite IH|].
  intros H. apply Hc. by destruct l as [|? [|? l]]; injection H.
Qed.

(** An IPv6 address in brackets, with a port. *)
Lemma parseHost_six a six p : Forall (fun c => six_char c = true) six -> ParseAddr (of_bytes six) = Some a -> Is4 a = false -> Forall (fun c => is_num c = true) p ->
  let hp := "["%char :: six ++ "]"%char :: ":"%char :: p in parseHost hp = Some hp /\ splitHostPort hp = (six, p).
Proof.
  intros Hs Ha H4 Hp hp. subst hp. assert (forallb is_num p = true) as Hpb by by apply forallb_Forall_true.
  assert ("]"%char ∉ ":"%char :: p) as Hb by (rewrite not_elem_of_cons; split; [done|by eapply class_not_in]). assert (":"%char ∉ p) as Hc by (by eapply class_not_in). split.
  - unfold parseHost. rewrite bool_decide_eq_true_2 by done. rewrite cut_byte_last_app by done. cbn [mbind option_bind validOptionalPort]. rewrite bool_decide_eq_true_2 by done.
    rewrite Hpb. cbn [andb negb]. rewrite cut_zone_none by (by eapply class_not_in). rewrite unescape_host by (eapply Forall_impl; [exact Hs|apply six_hostport]).
    cbn [unescape mbind option_bind]. by rewrite app_nil_r, Ha, H4.
  - unfold splitHostPort. replace ("["%char :: six ++ "]"%char :: ":"%char :: p) with (("["%char :: six ++ ["]"%char]) ++ ":"%char :: p) by (cbn; by rewrite <-app_assoc).
    rewrite cut_byte_last_app by done. rewrite Hpb. rewrite bool_decide_eq_true_2 by done. rewrite last_snoc, bool_decide_eq_true_2 by done. cbn [andb]. by rewrite removelast_last.
Qed.
