(* ===== verification/WireGuard.v ===== *)
(** * WireGuard devices

    The devices of a subscription as peers on WireGuard inbounds, of
    internal/wireguard/usecase (device_usecase.go, ipam.go, conf.go), the rows of
    internal/wireguard/repository/peer_repository.go and the peers a node is given
    (internal/wireguard/nodebridge/peer_source.go). Key material comes from
    pkg/wgkey and x/crypto: what was generated is an argument and the public key of
    a private one a parameter. Traffic columns are in [PanelTraffic].

    Theorems: an address handed out is the lowest free host of its pool, and there
    is none only when the pool is exhausted ([free_ip_lowest]); whatever is done, no
    two peers share an address on an inbound or a public key, and every address is
    a host of its pool ([peers_placed]); a paused subscription is cut off on every
    inbound ([pause_cuts_off]); the cap on devices holds at a creation
    ([cap_at_creation]) but not over a pause ([cap_exceeded]). *)

From S2P Require Import Prelude GoString GoUnicode GoNetip HubState.

(** ** Addresses *)

Definition host4 (p : prefix) (n : Z) : bool := Contains p (IP4 n).

(** The lowest free host from [ip] on. Every address skipped is the network's,
    the broadcast's, the server's or used, so the fuel [length used + 4] is
    enough. *)
Fixpoint next_free (fuel : nat) (p : prefix) (network : Z) (serverIP : string) (used : list string) (ip : option Z) : option string :=
  match fuel, ip with
  | S fuel, Some n =>
      if negb (host4 p n) then None else
      let next := match Next (IP4 n) with Some (IP4 m) => Some m | _ => None end in
      let last := match next with Some m => negb (host4 p m) | None => true end in
      if (pf_bits p <? 31) && ((n =? network) || last) then next_free fuel p network serverIP used next else
      let s := String4 n in
      if bool_decide (s = serverIP) || bool_decide (s ∈ used) then next_free fuel p network serverIP used next else
      Some s
  | _, _ => None
  end.

Inductive wg_error :=
| ErrPoolCIDR | ErrPoolFamily | ErrPoolExhausted | ErrNoWGServer | ErrDeviceCapReached | ErrConfigUnavailable | ErrHostUnavailable
| ErrSettings | ErrPublicKey | ErrKeys | ErrStatement | ErrAttempts | ErrNotFound | ErrPush.

Definition nextFreeIP (poolCIDR serverIP : string) (used : list string) : result wg_error string :=
  match ParsePrefix poolCIDR with
  | None => Err ErrPoolCIDR
  | Some p =>
      if negb (Is4 (pf_ip p)) then Err ErrPoolFamily else
      let p := Masked p in
      let network := number (pf_ip p) in
      match next_free (length used + 4) p network serverIP used (Some network) with
      | Some s => Ok s
      | None => Err ErrPoolExhausted
      end
  end.

(** ** Inbounds and peers *)

Inductive WGPeerStatus := WGPeerStatusActive | WGPeerStatusDisabled.
#[export] Instance WGPeerStatus_eq_dec : EqDecision WGPeerStatus.
Proof. solve_decision. Defined.

Record WGPeer := MkPeer {
  p_ID : Z; p_SubscriptionID : Z; p_InboundID : Z; p_HostID : option Z; p_Label : string;
  p_PublicKey : string; p_PresharedKey : string; p_PrivateKey : string; p_AssignedIP : string; p_Status : WGPeerStatus
}.

Record Host := MkHost { h_ID : Z; h_Address : string; h_Port : option Z; h_IsDisabled : bool; h_Priority : Z }.
Record WGNode := MkWGNode { wn_IP : string; wn_IsActive : bool }.
Record Inbound := MkInbound {
  in_ID : Z; in_NodeID : Z; in_Address : string; in_Port : Z; in_IsDisabled : bool; in_Protocol : string;
  in_Node : option WGNode; in_Hosts : list Host;
  in_SecretKey : string; in_PeerPoolCIDR : string; in_Endpoint : list string; in_ClientDNS : string; in_MTU : Z
}.

Definition host_le (a b : Host) : Prop := h_Priority a < h_Priority b \/ (h_Priority a = h_Priority b /\ h_ID a <= h_ID b).
#[export] Instance host_le_dec a b : Decision (host_le a b).
Proof. unfold host_le. apply _. Defined.

Definition GetActiveHosts (i : Inbound) : list Host := merge_sort host_le (filter (fun h => h_IsDisabled h = false) (in_Hosts i)).

(** [None] is an address that is not IPv4, whose text is that of the library. *)
Definition WGServerIP (i : Inbound) : option string :=
  match in_Endpoint i with
  | [] => Some ""
  | e :: _ =>
      match ParsePrefix e with
      | Some p => match Unmap (pf_ip p) with IP4 n => Some (String4 n) | IP6 _ _ => None end
      | None => Some e
      end
  end.

Definition inboundAddress (i : Inbound) : string :=
  if negb (bool_decide (in_Address i = "")) then in_Address i else
  match in_Node i with Some n => wn_IP n | None => "" end.
Definition clientEndpoint (i : Inbound) : string := inboundAddress i +:+ ":" +:+ Itoa (in_Port i).
Definition hostEndpoint (i : Inbound) (h : Host) : string :=
  let addr := if bool_decide (h_Address h = "") then inboundAddress i else h_Address h in
  let port := match h_Port h with Some p => if 0 <? p then p else in_Port i | None => in_Port i end in
  addr +:+ ":" +:+ Itoa port.

Definition activeHost (i : Inbound) (hostID : Z) : option Host :=
  head (filter (fun h => h_ID h = hostID /\ h_IsDisabled h = false) (in_Hosts i)).

Definition resolveHostID (i : Inbound) (requested : Z) : result wg_error (option Z) :=
  if requested =? 0 then Ok (h_ID <$> head (GetActiveHosts i)) else
  match activeHost i requested with Some h => Ok (Some (h_ID h)) | None => Err ErrHostUnavailable end.

Definition peerEndpoint (peer : WGPeer) (i : Inbound) : string :=
  match p_HostID peer with
  | Some id => match activeHost i id with Some h => hostEndpoint i h | None => clientEndpoint i end
  | None => clientEndpoint i
  end.

Definition nl : string := String "010" EmptyString.
Definition buildClientConf (priv address dns : string) (mtu : Z) (serverPub psk endpoint : string) : string :=
  let dns := if bool_decide (dns = "") then "1.1.1.1" else dns in
  let mtu := if mtu =? 0 then 1420 else mtu in
  "[Interface]" +:+ nl +:+ "PrivateKey = " +:+ priv +:+ nl +:+ "Address = " +:+ address +:+ "/32" +:+ nl +:+
  "DNS = " +:+ dns +:+ nl +:+ "MTU = " +:+ Itoa mtu +:+ nl +:+ nl +:+ "[Peer]" +:+ nl +:+ "PublicKey = " +:+ serverPub +:+ nl +:+
  (if bool_decide (psk = "") then "" else "PresharedKey = " +:+ psk +:+ nl) +:+
  "Endpoint = " +:+ endpoint +:+ nl +:+ "AllowedIPs = 0.0.0.0/0, ::/0" +:+ nl +:+ "PersistentKeepalive = 25" +:+ nl.

(** ** The table of peers *)

Record Peers := MkPeers { peers : list WGPeer; last_id : Z; pushed : list Z }.
Definition with_peers (f : list WGPeer -> list WGPeer) (w : Peers) : Peers := MkPeers (f (peers w)) (last_id w) (pushed w).

Inductive wg_stmt :=
| QSub | QAccounts | QCountActive | QInbound (id : Z) | QPeer (id : Z) | QSave (id : Z) | QDelete (id : Z) | QListPeers | QSetStatus | QPush (nodeID : Z).

(** The unique indices: the address on its inbound, and the public key. *)
Definition clashes (p q : WGPeer) : bool :=
  ((p_InboundID p =? p_InboundID q) && bool_decide (p_AssignedIP p = p_AssignedIP q)) || bool_decide (p_PublicKey p = p_PublicKey q).

Definition set_id (id : Z) (p : WGPeer) : WGPeer :=
  MkPeer id (p_SubscriptionID p) (p_InboundID p) (p_HostID p) (p_Label p) (p_PublicKey p) (p_PresharedKey p) (p_PrivateKey p) (p_AssignedIP p) (p_Status p).

(** [Create]: the row gets the next id; [None] is a violation of an index. *)
Definition Create (p : WGPeer) (w : Peers) : option (WGPeer * Peers) :=
  if existsb (clashes p) (peers w) then None else
  let id := last_id w + 1 in
  Some (set_id id p, MkPeers (peers w ++ [set_id id p]) id (pushed w)).

Definition FindByID (id : Z) (w : Peers) : option WGPeer := head (filter (fun p => p_ID p = id) (peers w)).
Definition Delete (id : Z) (w : Peers) : Peers := with_peers (filter (fun p => p_ID p <> id)) w.
(** [Save]: the row of the id is replaced; [None] is a violation of an index. *)
Definition Update (p : WGPeer) (w : Peers) : option Peers :=
  if existsb (fun q => negb (p_ID q =? p_ID p) && clashes p q) (peers w) then None else
  Some (with_peers (fmap (fun q => if p_ID q =? p_ID p then p else q)) w).
Definition ListBySubscription (subID : Z) (w : Peers) : list WGPeer := filter (fun p => p_SubscriptionID p = subID) (peers w).
Definition CountActiveBySubscription (subID : Z) (w : Peers) : Z :=
  Z.of_nat (length (filter (fun p => p_SubscriptionID p = subID /\ p_Status p = WGPeerStatusActive) (peers w))).
Definition ListActiveByInbound (inboundID : Z) (w : Peers) : list WGPeer :=
  filter (fun p => p_InboundID p = inboundID /\ p_Status p = WGPeerStatusActive) (peers w).
Definition ListUsedIPs (inboundID : Z) (w : Peers) : list string := p_AssignedIP <$> filter (fun p => p_InboundID p = inboundID) (peers w).
Definition set_status (st : WGPeerStatus) (p : WGPeer) : WGPeer :=
  MkPeer (p_ID p) (p_SubscriptionID p) (p_InboundID p) (p_HostID p) (p_Label p) (p_PublicKey p) (p_PresharedKey p) (p_PrivateKey p) (p_AssignedIP p) st.
Definition SetStatusBySubscription (subID : Z) (st : WGPeerStatus) (w : Peers) : Peers :=
  with_peers (fmap (fun p => if p_SubscriptionID p =? subID then set_status st p else p)) w.

(** ** The devices *)

(** One try at a device: whether the used addresses can be read, the keys that
    were generated, the rows others create before this one does, and an error of
    the insert besides a violation, with whether its text names a constraint. *)
Record attempt := MkAttempt {
  at_used_fails : bool; at_keys : option (string * string); at_meanwhile : list WGPeer; at_error : option bool
}.

Section devices.
(** The public key of a private key, the subscriptions' caps, the inbounds a
    subscription's accounts name, the inbounds, and what fails. *)
Context (pubkey : string -> option string) (caps : Z -> option Z) (accounts : Z -> list (option Inbound))
        (inbounds : Z -> option Inbound) (fails : wg_stmt -> bool).

Definition PushFullConfig (nodeID : Z) (w : Peers) : bool * Peers :=
  (fails (QPush nodeID), MkPeers (peers w) (last_id w) (pushed w ++ [nodeID])).
Definition GetInbound (id : Z) : option Inbound := if fails (QInbound id) then None else inbounds id.

Definition others_create (ps : list WGPeer) (w : Peers) : Peers :=
  foldl (fun w p => match Create p w with Some (_, w) => w | None => w end) w ps.

Fixpoint allocateAndCreate (attempts : nat) (env : nat -> attempt) (subID inboundID : Z) (hostID : option Z) (label pool serverIP : string)
    (w : Peers) : result wg_error WGPeer * Peers :=
  match attempts with
  | O => (Err ErrAttempts, w)
  | S more =>
      let a := env (8 - attempts)%nat in
      if at_used_fails a then (Err ErrStatement, w) else
      match nextFreeIP pool serverIP (ListUsedIPs inboundID w) with
      | Err e => (Err e, w)
      | Ok ip =>
          match at_keys a with
          | None => (Err ErrKeys, w)
          | Some (priv, psk) =>
              match pubkey priv with
              | None => (Err ErrKeys, w)
              | Some pub =>
                  let w := others_create (at_meanwhile a) w in
                  let again := allocateAndCreate more env subID inboundID hostID label pool serverIP w in
                  match at_error a with
                  | Some named => if named then again else (Err ErrStatement, w)
                  | None =>
                      match Create (MkPeer 0 subID inboundID hostID label pub psk priv ip WGPeerStatusActive) w with
                      | None => again
                      | Some (peer, w) => (Ok peer, w)
                      end
                  end
              end
          end
      end
  end.

Definition renderPeerConf (peer : WGPeer) (i : Inbound) : result wg_error string :=
  match pubkey (in_SecretKey i) with
  | None => Err ErrPublicKey
  | Some serverPub =>
      Ok (buildClientConf (p_PrivateKey peer) (p_AssignedIP peer) (in_ClientDNS i) (in_MTU i) serverPub (p_PresharedKey peer) (peerEndpoint peer i))
  end.

Definition usable (i : Inbound) : bool :=
  negb (in_IsDisabled i) && bool_decide (ToLower (in_Protocol i) = "wireguard") &&
  match in_Node i with Some n => wn_IsActive n | None => false end.

Definition add_inbound (acc : list Inbound) (o : option Inbound) : list Inbound :=
  match o with
  | Some i => if usable i && negb (existsb (fun j => in_ID j =? in_ID i) acc) then acc ++ [i] else acc
  | None => acc
  end.

Definition wgInboundsForSub (subID : Z) : result wg_error (Z * list Inbound) :=
  if fails QSub then Err ErrStatement else
  match caps subID with
  | None => Err ErrNotFound
  | Some cap =>
      let wg := if fails QAccounts then [] else foldl add_inbound [] (accounts subID) in
      match wg with [] => Err ErrNoWGServer | _ => Ok (cap, wg) end
  end.

Definition ownedPeer (subID deviceID : Z) (w : Peers) : result wg_error WGPeer :=
  if fails (QPeer deviceID) then Err ErrStatement else
  match FindByID deviceID w with
  | None => Err ErrNotFound
  | Some peer => if p_SubscriptionID peer =? subID then Ok peer else Err ErrNoWGServer
  end.

Definition CreateDevice (env : nat -> attempt) (subID inboundID hostID : Z) (label : string) (w : Peers) : result wg_error (WGPeer * string) * Peers :=
  match wgInboundsForSub subID with
  | Err e => (Err e, w)
  | Ok (cap, wg) =>
      match (if inboundID =? 0 then head wg else head (filter (fun i => in_ID i = inboundID) wg)) with
      | None => (Err ErrNoWGServer, w)
      | Some target =>
          match resolveHostID target hostID with
          | Err e => (Err e, w)
          | Ok host =>
              if fails QCountActive then (Err ErrStatement, w) else
              let count := CountActiveBySubscription subID w in
              if (0 <? cap) && (cap <=? count) then (Err ErrDeviceCapReached, w) else
              match GetInbound (in_ID target) with
              | None => (Err ErrNotFound, w)
              | Some full =>
                  if bool_decide (in_SecretKey full = "") || bool_decide (in_PeerPoolCIDR full = "") then (Err ErrSettings, w) else
                  match pubkey (in_SecretKey full) with
                  | None => (Err ErrPublicKey, w)
                  | Some _ =>
                      let label := if bool_decide (label = "") then "Device " +:+ Itoa (count + 1) else label in
                      let '(r, w) := allocateAndCreate 8 env subID (in_ID full) host label (in_PeerPoolCIDR full) (default "" (WGServerIP full)) w in
                      match r with
                      | Err e => (Err e, w)
                      | Ok peer =>
                          let '(failed, w) := PushFullConfig (in_NodeID full) w in
                          if failed then (Err ErrPush, if fails (QDelete (p_ID peer)) then w else Delete (p_ID peer) w) else
                          match renderPeerConf peer full with Err e => (Err e, w) | Ok conf => (Ok (peer, conf), w) end
                      end
                  end
              end
          end
      end
  end.

Definition DeviceConfig (subID deviceID : Z) (w : Peers) : result wg_error (WGPeer * string) :=
  match ownedPeer subID deviceID w with
  | Err e => Err e
  | Ok peer =>
      if bool_decide (p_PrivateKey peer = "") then Err ErrConfigUnavailable else
      match GetInbound (p_InboundID peer) with
      | None => Err ErrNotFound
      | Some full => rbind (fun conf => Ok (peer, conf)) (renderPeerConf peer full)
      end
  end.

Definition rotated (pub psk priv : string) (p : WGPeer) : WGPeer :=
  MkPeer (p_ID p) (p_SubscriptionID p) (p_InboundID p) (p_HostID p) (p_Label p) pub psk priv (p_AssignedIP p) WGPeerStatusActive.

Definition RotateDevice (keys : option (string * string)) (subID deviceID : Z) (w : Peers) : result wg_error (WGPeer * string) * Peers :=
  match ownedPeer subID deviceID w with
  | Err e => (Err e, w)
  | Ok peer =>
      match GetInbound (p_InboundID peer) with
      | None => (Err ErrNotFound, w)
      | Some full =>
          match keys with
          | None => (Err ErrKeys, w)
          | Some (priv, psk) =>
              match pubkey priv with
              | None => (Err ErrKeys, w)
              | Some pub =>
                  let peer := rotated pub psk priv peer in
                  if fails (QSave (p_ID peer)) then (Err ErrStatement, w) else
                  match Update peer w with
                  | None => (Err ErrStatement, w)
                  | Some w =>
                      let '(failed, w) := PushFullConfig (in_NodeID full) w in
                      if failed then (Err ErrPush, w) else
                      match renderPeerConf peer full with Err e => (Err e, w) | Ok conf => (Ok (peer, conf), w) end
                  end
              end
          end
      end
  end.

Definition RemoveDevice (subID deviceID : Z) (w : Peers) : option wg_error * Peers :=
  match ownedPeer subID deviceID w with
  | Err e => (Some e, w)
  | Ok peer =>
      match GetInbound (p_InboundID peer) with
      | None => (Some ErrNotFound, w)
      | Some full =>
          if fails (QDelete (p_ID peer)) then (Some ErrStatement, w) else
          let '(failed, w) := PushFullConfig (in_NodeID full) (Delete (p_ID peer) w) in
          (if failed then Some ErrPush else None, w)
      end
  end.

Definition setStatusAndPush (subID : Z) (st : WGPeerStatus) (w : Peers) : option wg_error * Peers :=
  if fails QListPeers then (Some ErrStatement, w) else
  let ps := ListBySubscription subID w in
  if fails QSetStatus then (Some ErrStatement, w) else
  let w := SetStatusBySubscription subID st w in
  let nodeIDs : gset Z := list_to_set (omap (fun p => in_NodeID <$> GetInbound (p_InboundID p)) ps) in
  (None, foldl (fun w nid => (PushFullConfig nid w).2) w (elements nodeIDs)).

Definition DeactivateSubscription (subID : Z) : Peers -> option wg_error * Peers := setStatusAndPush subID WGPeerStatusDisabled.
Definition ActivateSubscription (subID : Z) : Peers -> option wg_error * Peers := setStatusAndPush subID WGPeerStatusActive.

(** What a subscriber may pick: the inbound, its host if any, and the endpoint. *)
Definition ListServers (subID : Z) : result wg_error (list (Z * Z * string)) :=
  rbind (fun cw => Ok (mjoin ((fun i =>
    match GetActiveHosts i with
    | [] => [(in_ID i, 0, clientEndpoint i)]
    | hosts => (fun h => (in_ID i, h_ID h, hostEndpoint i h)) <$> hosts
    end) <$> cw.2))) (wgInboundsForSub subID).
End devices.

(** ** The peers a node is given *)

Record WGRenderPeer := MkRender { r_PublicKey : string; r_PresharedKey : string; r_AllowedIP : string; r_SubscriptionID : Z; r_PeerID : Z; r_InboundID : Z }.

(** The access of subscriptions: [None] is an error; a subscription that is not
    in the map is one there is no opinion of. *)
Definition filterRevoked (access : option (list Z -> option (gmap Z bool))) (rows : list WGPeer) : list WGPeer :=
  match access with
  | None => rows
  | Some resolve =>
      let ids := reverse (remove_dups (reverse (filter (fun s => s <> 0) (p_SubscriptionID <$> rows)))) in
      if bool_decide (ids = []) then rows else
      match resolve ids with
      | None => rows
      | Some allowed => filter (fun p => allowed !! p_SubscriptionID p <> Some false) rows
      end
  end.

Definition ActivePeersByInbound (access : option (list Z -> option (gmap Z bool))) (inboundID : Z) (w : Peers) : list WGRenderPeer :=
  (fun p => MkRender (p_PublicKey p) (p_PresharedKey p) (p_AssignedIP p) (p_SubscriptionID p) (p_ID p) (p_InboundID p)) <$>
  filterRevoked access (ListActiveByInbound inboundID w).

(** ** The lowest free address *)

Section free.
Context (p : prefix) (base : Z) (Hip : pf_ip p = IP4 base) (Hbase : 0 <= base < 2 ^ 32) (Hbits : 0 <= pf_bits p <= 32).
Context (serverIP : string) (used : list string).

(** The network's address, and the first one after it. *)
Definition lowest : Z := number (pf_ip (Masked p)).
Definition beyond : Z := lowest + 2 ^ (32 - pf_bits p).

(** A host of the pool that may be handed out. *)
Definition free (n : Z) : Prop :=
  lowest <= n < beyond /\ (pf_bits p < 31 -> n <> lowest /\ n <> beyond - 1) /\ String4 n <> serverIP /\ String4 n ∉ used.

Lemma lowest_div : lowest = base / 2 ^ (32 - pf_bits p) * 2 ^ (32 - pf_bits p).
Proof.
  unfold lowest, Masked, high. rewrite Hip. unfold BitLen. cbn [pf_ip number Is4]. rewrite Z.shiftl_mul_pow2, Z.shiftr_div_pow2 by lia. done.
Qed.

Lemma pool_range : 0 <= lowest < beyond /\ beyond <= 2 ^ 32 /\ forall n, 0 <= n < 2 ^ 32 -> host4 (Masked p) n = (lowest <=? n) && (n <? beyond).
Proof.
  unfold beyond. pose proof lowest_div as Hl. set (k := 32 - pf_bits p) in *. assert (0 < 2 ^ k) as Hk by (apply Z.pow_pos_nonneg; lia).
  assert (2 ^ 32 = 2 ^ pf_bits p * 2 ^ k) as Hp by (rewrite <-Z.pow_add_r by lia; f_equal; lia).
  pose proof (Z.div_mod base (2 ^ k) ltac:(lia)). pose proof (Z.mod_pos_bound base (2 ^ k) Hk).
  assert (base / 2 ^ k < 2 ^ pf_bits p) by (apply Z.div_lt_upper_bound; lia).
  assert (0 <= base / 2 ^ k) by (apply Z.div_pos; lia).
  split; [nia|]. split; [nia|].
  intros n Hn. unfold host4, Contains. cbn [hasZone].
    replace (pf_ip (Masked p)) with (IP4 lowest) by (unfold lowest, Masked; rewrite Hip; done).
    unfold high, BitLen. cbn [Is4 number Bool.eqb negb pf_bits Masked hasZone]. fold k. rewrite !Z.shiftr_div_pow2 by lia. rewrite Hl, Z.div_mul by lia.
    pose proof (Z.div_mod n (2 ^ k) ltac:(lia)). pose proof (Z.mod_pos_bound n (2 ^ k) Hk).
    destruct (Z.eqb_spec (base / 2 ^ k) (n / 2 ^ k)) as [He|He].
    + rewrite He, (proj2 (Z.leb_le _ _)), (proj2 (Z.ltb_lt _ _)) by lia. done.
    + destruct (Z.leb_spec (base / 2 ^ k * 2 ^ k) n) as [Ha|Ha], (Z.ltb_spec n (base / 2 ^ k * 2 ^ k + 2 ^ k)) as [Hb|Hb]; try done.
      destruct He. apply (Z.div_unique n (2 ^ k) _ (n - base / 2 ^ k * 2 ^ k)); [left|]; lia.
Qed.

(** The addresses skipped are few. *)
Lemma skipped_few n :
  lowest <= n < beyond -> (forall m, lowest <= m < n -> ~ free m) -> n - lowest <= Z.of_nat (length used) + 2.
Proof.
  intros Hn Hskip. destruct pool_range as (Hr1 & Hr2 & _).
  set (l := String4 <$> seqZ (lowest + 1) (n - lowest - 1)).
  assert (length l <= length (serverIP :: used))%nat as Hlen.
  { apply submseteq_length, NoDup_submseteq.
    - apply NoDup_fmap_2_strong; [|apply NoDup_seqZ]. intros a b Ha%elem_of_seqZ Hb%elem_of_seqZ. apply String4_inj; lia.
    - intros s Hs. apply list_elem_of_fmap in Hs as (m & -> & Hm%elem_of_seqZ). destruct (decide (String4 m ∈ serverIP :: used)) as [?|Hno]; [done|].
      apply not_elem_of_cons in Hno as [? ?]. destruct (Hskip m); [lia|]. split_and!; try done; lia. }
  unfold l in Hlen. rewrite length_fmap, length_seqZ in Hlen. simpl in Hlen. lia.
Qed.

Lemma next_free_spec fuel n :
  lowest <= n <= beyond -> (forall m, lowest <= m < n -> ~ free m) -> Z.of_nat fuel + (n - lowest) = Z.of_nat (length used) + 4 ->
  match next_free fuel (Masked p) lowest serverIP used (if n <? 2 ^ 32 then Some n else None) with
  | Some s => exists m, s = String4 m /\ free m /\ forall k, lowest <= k < m -> ~ free k
  | None => forall m, ~ free m
  end.
Proof.
  destruct pool_range as (Hr1 & Hr2 & Hhost). revert n. induction fuel as [|fuel IH]; intros n Hn Hskip Hf.
  { assert (n = beyond) as Hb by (destruct (decide (n = beyond)) as [?|?]; [done|]; pose proof (skipped_few n ltac:(lia) Hskip); lia).
    simpl. intros m [Hm Hm']. apply (Hskip m); [lia|by split]. }
  simpl. destruct (Z.ltb_spec n (2 ^ 32)); [|intros m [Hm Hm']; apply (Hskip m); [lia|by split]].
  rewrite Hhost by lia. destruct (Z.ltb_spec n beyond) as [Hlt|Hge].
  2:{ rewrite andb_false_r. simpl. intros m [Hm Hm']. apply (Hskip m); [lia|by split]. }
  rewrite (proj2 (Z.leb_le _ _)) by lia. simpl.
  assert ((match (if n <? 2 ^ 32 - 1 then Some (IP4 (n + 1)) else None) with Some (IP4 m) => Some m | _ => None end) =
    if n + 1 <? 2 ^ 32 then Some (n + 1) else None) as ->.
  { destruct (Z.ltb_spec n (2 ^ 32 - 1)), (Z.ltb_spec (n + 1) (2 ^ 32)); try done; lia. }
  assert ((match (if n + 1 <? 2 ^ 32 then Some (n + 1) else None) with Some m => negb (host4 (Masked p) m) | None => true end) = (n =? beyond - 1)) as ->.
  { destruct (Z.ltb_spec (n + 1) (2 ^ 32)); [rewrite Hhost by lia|]; lia. }
  assert (~ free n -> match next_free fuel (Masked p) lowest serverIP used (if n + 1 <? 2 ^ 32 then Some (n + 1) else None) with
    | Some s => exists m, s = String4 m /\ free m /\ forall k, lowest <= k < m -> ~ free k | None => forall m, ~ free m end) as Hgo.
  { intros Hnf. apply IH; [lia| |lia]. intros m Hm. destruct (decide (m = n)) as [->|?]; [done|]. apply Hskip. lia. }
  destruct ((pf_bits p <? 31) && ((n =? lowest) || (n =? beyond - 1))) eqn:He; [apply Hgo; intros (_ & Hb & _); lia|].
  destruct (bool_decide (String4 n = serverIP)) eqn:Hs; simpl.
  { apply Hgo. intros (_ & _ & Hne & _). by apply bool_decide_eq_true in Hs. }
  destruct (bool_decide (String4 n ∈ used)) eqn:Hu; [apply Hgo; intros (_ & _ & _ & Hni); by apply bool_decide_eq_true in Hu|].
  apply bool_decide_eq_false in Hs, Hu. exists n. split_and!; try done. split_and!; try done; lia.
Qed.
End free.

Lemma next_free_lowest p serverIP used base :
  prefix_ok p -> pf_ip p = IP4 base ->
  match next_free (length used + 4) (Masked p) (lowest p) serverIP used (Some (lowest p)) with
  | Some s => exists m, s = String4 m /\ free p serverIP used m /\ forall k, lowest p <= k < m -> ~ free p serverIP used k
  | None => forall m, ~ free p serverIP used m
  end.
Proof.
  intros (Hbase & _ & Hbits) Hip. unfold addr_ok, BitLen in *. rewrite Hip in Hbase, Hbits. simpl in Hbase, Hbits.
  destruct (pool_range p base Hip Hbase Hbits) as (Hr1 & Hr2 & _).
  pose proof (next_free_spec p base Hip Hbase Hbits serverIP used (length used + 4) (lowest p)) as H.
  rewrite (proj2 (Z.ltb_lt _ _)) in H by lia. apply H; lia.
Qed.

Lemma nextFreeIP_placed pool serverIP used s :
  nextFreeIP pool serverIP used = Ok s -> exists p n, ParsePrefix pool = Some p /\ s = String4 n /\ free p serverIP [] n.
Proof.
  unfold nextFreeIP. destruct (ParsePrefix pool) as [p|] eqn:Hp; [|done]. pose proof (ParsePrefix_ok _ _ Hp) as Hok.
  destruct (pf_ip p) as [base|] eqn:Hip; cbn [Is4 negb]; [|done]. fold (lowest p).
  pose proof (next_free_lowest p serverIP used base Hok Hip) as H. destruct (next_free _ _ _ _ _ _); [|done].
  intros [= <-]. destruct H as (n & -> & (H1 & H2 & H3 & _) & _). exists p, n. split_and!; try done. split_and!; try done; [apply H1..|by intros Hin%elem_of_nil].
Qed.

(** The address handed out is the lowest free host of the pool: in a pool
    that parses as an IPv4 prefix, it is a host, not the network's or the broadcast
    address (in pools of more than two), not the server's and not used, and no
    lower host is; the pool is exhausted only when it has no such host; and a pool
    that does not parse or is IPv6 is refused as such. *)
Theorem free_ip_lowest (pool serverIP : string) (used : list string) :
  match ParsePrefix pool with
  | None => nextFreeIP pool serverIP used = Err ErrPoolCIDR
  | Some p =>
      if Is4 (pf_ip p) then
        match nextFreeIP pool serverIP used with
        | Ok s => exists n, s = String4 n /\ free p serverIP used n /\ forall m, lowest p <= m < n -> ~ free p serverIP used m
        | Err e => e = ErrPoolExhausted /\ forall n, ~ free p serverIP used n
        end
      else nextFreeIP pool serverIP used = Err ErrPoolFamily
  end.
Proof.
  unfold nextFreeIP. destruct (ParsePrefix pool) as [p|] eqn:Hp; [|done]. apply ParsePrefix_ok in Hp.
  destruct (pf_ip p) as [base|] eqn:Hip; cbn [Is4 negb]; [|done].
  pose proof (next_free_lowest p serverIP used base Hp Hip) as H. fold (lowest p). by destruct (next_free _ _ _ _ _ _).
Qed.

(** ** The peers stay distinct and in their pools *)

(** A peer's address is a host of its inbound's pool. *)
Definition placed (inbounds : Z -> option Inbound) (p : WGPeer) : Prop :=
  exists i pf n, inbounds (p_InboundID p) = Some i /\ ParsePrefix (in_PeerPoolCIDR i) = Some pf /\
                 p_AssignedIP p = String4 n /\ free pf (default "" (WGServerIP i)) [] n.

Definition address (p : WGPeer) : Z * string := (p_InboundID p, p_AssignedIP p).

Definition distinct (l : list WGPeer) : Prop := NoDup (p_ID <$> l) /\ NoDup (address <$> l) /\ NoDup (p_PublicKey <$> l).

Definition peers_ok (inbounds : Z -> option Inbound) (w : Peers) : Prop :=
  distinct (peers w) /\ Forall (placed inbounds) (peers w) /\ Forall (fun p => p_ID p <= last_id w) (peers w).

(** One operation, whatever fails in it, whatever the accounts and caps are, and
    whatever others insert while it runs, as long as they place their peers. *)
Inductive wg_step (pubkey : string -> option string) (inbounds : Z -> option Inbound) : Peers -> Peers -> Prop :=
| step_create caps accounts fails env subID inboundID hostID label w :
    (forall k, Forall (placed inbounds) (at_meanwhile (env k))) ->
    wg_step pubkey inbounds w (CreateDevice pubkey caps accounts inbounds fails env subID inboundID hostID label w).2
| step_rotate fails keys subID deviceID w : wg_step pubkey inbounds w (RotateDevice pubkey inbounds fails keys subID deviceID w).2
| step_remove fails subID deviceID w : wg_step pubkey inbounds w (RemoveDevice inbounds fails subID deviceID w).2
| step_activate fails subID w : wg_step pubkey inbounds w (ActivateSubscription inbounds fails subID w).2
| step_deactivate fails subID w : wg_step pubkey inbounds w (DeactivateSubscription inbounds fails subID w).2.

Section distinct.
Context (pubkey : string -> option string) (inbounds : Z -> option Inbound).
Abbreviation ok := (peers_ok inbounds).

Lemma clashes_spec p q : clashes p q = true <-> address p = address q \/ p_PublicKey p = p_PublicKey q.
Proof. unfold clashes, address. rewrite orb_true_iff, andb_true_iff, Z.eqb_eq, !bool_decide_eq_true, pair_equal_spec. done. Qed.

Lemma clear_of l p : existsb (clashes p) l = false -> forall q, q ∈ l -> address p <> address q /\ p_PublicKey p <> p_PublicKey q.
Proof.
  intros He q Hq. assert (clashes p q <> true) as Hc.
  { intros Hc. apply not_true_iff_false in He. apply He, existsb_exists. exists q. by rewrite <-list_elem_of_In. }
  rewrite clashes_spec in Hc. tauto.
Qed.

Lemma Create_ok p w p' w' : placed inbounds p -> ok w -> Create p w = Some (p', w') -> ok w'.
Proof.
  intros Hp ((Hi & Ha & Hk) & Hpl & Hle). unfold Create. destruct (existsb _ _) eqn:He; [done|]. intros [= <- <-].
  pose proof (clear_of _ _ He) as Hclear. rewrite Forall_forall in Hle.
  assert (forall {B} (f : WGPeer -> B), NoDup (f <$> peers w) -> (forall q, q ∈ peers w -> f (set_id (last_id w + 1) p) <> f q) ->
    NoDup (f <$> peers w ++ [set_id (last_id w + 1) p])) as Hadd.
  { intros B f Hn Hf. rewrite fmap_app. apply NoDup_app. split_and!; [done| |apply NoDup_singleton].
    intros x Hx. apply list_elem_of_fmap in Hx as (q & -> & Hq). intros Hx%list_elem_of_singleton. by eapply Hf. }
  split_and!; [split_and!| |]; simpl.
  - apply Hadd; [done|]. intros q Hq. specialize (Hle q Hq). simpl in *. lia.
  - apply Hadd; [done|]. intros q Hq. by apply Hclear.
  - apply Hadd; [done|]. intros q Hq. by apply Hclear.
  - apply Forall_app. by auto.
  - apply Forall_app. split; [|repeat constructor; simpl; lia]. apply Forall_forall. intros q Hq. specialize (Hle q Hq). simpl in *. lia.
Qed.

Lemma kept_keys {B} (f : WGPeer -> B) (P : WGPeer -> Prop) `{!forall x, Decision (P x)} l : NoDup (f <$> l) -> NoDup (f <$> filter P l).
Proof.
  intros Hn. apply NoDup_fmap_2_strong; [|by apply NoDup_filter, (NoDup_fmap_1 f)].
  intros x y [_ Hx]%list_elem_of_filter [_ Hy]%list_elem_of_filter. by eapply NoDup_fmap_inj_on.
Qed.

Lemma Delete_ok id w : ok w -> ok (Delete id w).
Proof.
  intros ((Hi & Ha & Hk) & Hpl & Hle). split_and!; [split_and!; by apply kept_keys|apply Forall_forall..];
    simpl; intros p [_ Hp]%list_elem_of_filter; rewrite Forall_forall in Hpl, Hle; auto.
Qed.

Lemma push_ok fails nid w : ok w -> ok (PushFullConfig fails nid w).2.
Proof. done. Qed.

(** Rows rewritten with their ids, addresses and keys kept. *)
Lemma rewrite_ok (f : WGPeer -> WGPeer) w :
  (forall p, p ∈ peers w -> p_ID (f p) = p_ID p /\ address (f p) = address p) -> NoDup (p_PublicKey <$> (f <$> peers w)) -> ok w -> ok (with_peers (fmap f) w).
Proof.
  intros Hf Hk ((Hi & Ha & _) & Hpl & Hle). assert (forall {B} (g : WGPeer -> B), (forall p, p ∈ peers w -> g (f p) = g p) -> g <$> (f <$> peers w) = g <$> peers w) as Hsame.
  { intros B g Hg. rewrite <-list_fmap_compose. apply list_fmap_ext. intros i p Hp. by apply Hg, (list_elem_of_lookup_2 _ i). }
  split_and!; [split_and!; [..|done]| |]; simpl.
  - by rewrite Hsame by (intros; by apply Hf).
  - by rewrite Hsame by (intros; by apply Hf).
  - apply Forall_fmap. rewrite !Forall_forall in *. intros p Hp. destruct (Hpl p Hp) as (i & pf & n & H1 & H2 & H3 & H4).
    destruct (Hf p Hp) as [_ He]. injection He as He1 He2. exists i, pf, n. by rewrite He1, He2.
  - apply Forall_fmap. rewrite !Forall_forall in *. intros p Hp. simpl. rewrite (proj1 (Hf p Hp)). by apply Hle.
Qed.

Lemma others_ok ps w : Forall (placed inbounds) ps -> ok w -> ok (others_create ps w).
Proof.
  intros Hps. unfold others_create. revert w. induction Hps as [|p ps Hp Hps IH]; intros w Hw; simpl; [done|]. apply IH.
  destruct (Create p w) as [[p' w']|] eqn:He; [by eapply Create_ok|done].
Qed.

Lemma peers_status_ok fails subID st w : ok w -> ok (setStatusAndPush inbounds fails subID st w).2.
Proof.
  intros Hw. unfold setStatusAndPush. destruct (fails QListPeers), (fails QSetStatus); try done. simpl.
  apply foldl_keeps; [intros ? ? H; exact H|]. apply rewrite_ok; [intros p _; by destruct (_ =? _)| |done].
  rewrite <-list_fmap_compose. rewrite (list_fmap_ext _ p_PublicKey); [apply Hw|]. intros _ p _. simpl. by destruct (_ =? _).
Qed.

Lemma FindByID_In id w p : FindByID id w = Some p -> p ∈ peers w /\ p_ID p = id.
Proof.
  unfold FindByID. intros H%head_Some_elem_of. by apply list_elem_of_filter in H as [? ?].
Qed.

Lemma owned_In fails subID deviceID w p : ownedPeer fails subID deviceID w = Ok p -> p ∈ peers w.
Proof.
  unfold ownedPeer. destruct (fails _), (FindByID deviceID w) as [q|] eqn:He; try done.
  destruct (_ =? _); [|done]. intros [= <-]. by apply FindByID_In in He as [? _].
Qed.

Lemma Update_ok p q w w' : q ∈ peers w -> p_ID p = p_ID q -> address p = address q -> ok w -> Update p w = Some w' -> ok w'.
Proof.
  intros Hq Hid Ha Hw. unfold Update. destruct (existsb _ _) eqn:He; [done|]. intros [= <-]. destruct Hw as ((Hi & Had & Hk) & Hw).
  assert (forall a, a ∈ peers w -> p_ID a = p_ID p -> a = q) as Hsame by (intros a Hin Heq; apply (NoDup_fmap_inj_on p_ID (peers w)); [done..|congruence]).
  assert (forall a, a ∈ peers w -> p_ID a <> p_ID p -> p_PublicKey p <> p_PublicKey a) as Hother.
  { intros a Hin Hne Hpk. apply not_true_iff_false in He. apply He, existsb_exists. exists a. rewrite <-list_elem_of_In. split; [done|].
    apply andb_true_iff. split; [by apply negb_true_iff, Z.eqb_neq|]. apply clashes_spec. by right. }
  apply rewrite_ok; [| |done].
  - intros a Hin. destruct (Z.eqb_spec (p_ID a) (p_ID p)) as [Heq|]; [|done]. rewrite (Hsame a Hin Heq). by split.
  - rewrite <-list_fmap_compose. apply NoDup_fmap_2_strong; [|by apply (NoDup_fmap_1 p_ID)]. intros a b Hina Hinb. simpl.
    destruct (Z.eqb_spec (p_ID a) (p_ID p)) as [Ea|Ea], (Z.eqb_spec (p_ID b) (p_ID p)) as [Eb|Eb].
    + intros _. by rewrite (Hsame a), (Hsame b).
    + intros H. by destruct (Hother b Hinb Eb).
    + intros H. by destruct (Hother a Hina Ea).
    + by apply (NoDup_fmap_inj_on p_PublicKey (peers w)).
Qed.

Lemma allocate_ok attempts env subID inboundID hostID label i w :
  inbounds inboundID = Some i -> (forall k, Forall (placed inbounds) (at_meanwhile (env k))) -> ok w ->
  ok (allocateAndCreate pubkey attempts env subID inboundID hostID label (in_PeerPoolCIDR i) (default "" (WGServerIP i)) w).2.
Proof.
  intros Hi Hmean. revert w. induction attempts as [|attempts IH]; intros w Hw; cbn [allocateAndCreate]; [done|].
  destruct (at_used_fails _); [done|].
  destruct (nextFreeIP _ _ _) as [ip|e] eqn:Hip; [|done]. destruct (at_keys _) as [[priv psk]|]; [|done].
  destruct (pubkey priv) as [pub|]; [|done]. pose proof (others_ok _ w (Hmean (8 - S attempts)%nat) Hw) as Hw'.
  destruct (at_error _) as [[|]|]; [by apply IH|done|].
  destruct (Create _ _) as [[p w']|] eqn:Hc; [|by apply IH]. simpl. eapply Create_ok; [|exact Hw'|exact Hc].
  destruct (nextFreeIP_placed _ _ _ _ Hip) as (pf & n & Hpf & -> & Hfree). exists i, pf, n. by split_and!.
Qed.

Lemma create_ok caps accounts fails env subID inboundID hostID label w :
  (forall id i, inbounds id = Some i -> in_ID i = id) -> (forall k, Forall (placed inbounds) (at_meanwhile (env k))) -> ok w ->
  ok (CreateDevice pubkey caps accounts inbounds fails env subID inboundID hostID label w).2.
Proof.
  intros Hkeyed Hmean Hw. unfold CreateDevice. destruct (wgInboundsForSub _ _ _ _) as [[cap wg]|]; [|done].
  destruct (if inboundID =? 0 then _ else _) as [target|]; [|done]. destruct (resolveHostID _ _) as [host|]; [|done].
  destruct (fails QCountActive); [done|]. destruct (_ && _); [done|].
  destruct (GetInbound inbounds fails (in_ID target)) as [full|] eqn:Hg; [|done]. destruct (bool_decide _ || _); [done|].
  destruct (pubkey _); [|done].
  assert (inbounds (in_ID full) = Some full) as Hfull by (unfold GetInbound in Hg; destruct (fails _); [done|]; by rewrite (Hkeyed _ _ Hg)).
  pose proof (fun label => allocate_ok 8 env subID (in_ID full) host label full w Hfull Hmean Hw) as Hal.
  destruct (allocateAndCreate _ _ _ _ _ _ _ _ _ _) as [[p|e] w'] eqn:Ha; eapply (f_equal snd) in Ha; simpl in Ha; [|rewrite <-Ha; apply Hal].
  unfold PushFullConfig. simpl.
  assert (ok (MkPeers (peers w') (last_id w') (pushed w' ++ [in_NodeID full]))) as Hp by (rewrite <-Ha; apply Hal).
  destruct (fails (QPush _)); [destruct (fails (QDelete _)); [done|by apply Delete_ok]|].
  by destruct (renderPeerConf _ _ _).
Qed.

Lemma rotate_ok fails keys subID deviceID w : ok w -> ok (RotateDevice pubkey inbounds fails keys subID deviceID w).2.
Proof.
  intros Hw. unfold RotateDevice. destruct (ownedPeer _ _ _ _) as [p|] eqn:Ho; [|done]. destruct (GetInbound _ _ _); [|done].
  destruct keys as [[priv psk]|]; [|done]. destruct (pubkey priv) as [pub|]; [|done]. destruct (fails (QSave _)); [done|].
  destruct (Update _ _) as [w'|] eqn:Hu; [|done]. assert (ok w') as Hw'.
  { eapply (Update_ok (rotated pub psk priv p) p); [by eapply owned_In|done|done|exact Hw|exact Hu]. }
  unfold PushFullConfig. destruct (fails _); [done|]. by destruct (renderPeerConf _ _ _).
Qed.

Lemma peers_remove_ok fails subID deviceID w : ok w -> ok (RemoveDevice inbounds fails subID deviceID w).2.
Proof.
  intros Hw. unfold RemoveDevice. destruct (ownedPeer _ _ _ _) as [p|]; [|done]. destruct (GetInbound _ _ _); [|done].
  destruct (fails (QDelete _)); [done|]. by apply Delete_ok.
Qed.
End distinct.

(** C18. The peers stay distinct and in their pools. From an empty table, through
    any sequence of creations, rotations, removals, pauses and resumptions, with any
    statement or push failing and any number of other creations slipping in between
    the choice of an address and its insert, no two peers have the same id, the
    same address on an inbound or the same public key, and every peer's address is
    a host of its inbound's pool that is not the server's own. *)
Theorem peers_placed (pubkey : string -> option string) (inbounds : Z -> option Inbound) (w : Peers)
    (Hkeyed : forall id i, inbounds id = Some i -> in_ID i = id) (Hrun : rtc (wg_step pubkey inbounds) (MkPeers [] 0 []) w) :
  distinct (peers w) /\ Forall (placed inbounds) (peers w).
Proof.
  assert (peers_ok inbounds w) as (Hd & Hp & _); [|done].
  assert (peers_ok inbounds (MkPeers [] 0 [])) as H0 by (split_and!; [split_and!; constructor|constructor..]). revert H0.
  induction Hrun as [|w1 w2 w3 Hstep _ IH]; [done|]. intros Hok. apply IH.
  destruct Hstep; [by apply create_ok|by apply rotate_ok|by apply peers_remove_ok|by apply peers_status_ok..].
Qed.

(** ** A subscription paused *)

Lemma filterRevoked_sub access rows p : p ∈ filterRevoked access rows -> p ∈ rows.
Proof.
  unfold filterRevoked. destruct access as [resolve|]; [|done]. destruct (bool_decide _); [done|].
  destruct (resolve _) as [allowed|]; [|done]. by intros [_ H]%list_elem_of_filter.
Qed.

Lemma pushed_all fails nodes w : peers (foldl (fun w nid => (PushFullConfig fails nid w).2) w nodes) = peers w /\
  pushed (foldl (fun w nid => (PushFullConfig fails nid w).2) w nodes) = pushed w ++ nodes.
Proof.
  revert w. induction nodes as [|n nodes IH]; intros w; cbn [foldl]; [by rewrite app_nil_r|].
  destruct (IH (PushFullConfig fails n w).2) as [-> ->]. cbn [PushFullConfig snd pushed peers]. by rewrite <-app_assoc.
Qed.

(** A paused subscription is cut off. When deactivating it succeeds, no
    inbound is given a peer of the subscription any more, whatever is known of the
    access of subscriptions; the active peers of every other subscription are as
    before; and a push went to the node of every inbound that had one of its
    devices and could be read. *)
Theorem pause_cuts_off (inbounds : Z -> option Inbound) (fails : wg_stmt -> bool) (subID : Z) (w : Peers)
    (Hok : (DeactivateSubscription inbounds fails subID w).1 = None) :
  let w' := (DeactivateSubscription inbounds fails subID w).2 in
  (forall access inboundID r, r ∈ ActivePeersByInbound access inboundID w' -> r_SubscriptionID r <> subID) /\
  (forall inboundID p, p_SubscriptionID p <> subID -> p ∈ ListActiveByInbound inboundID w' <-> p ∈ ListActiveByInbound inboundID w) /\
  (forall p i, p ∈ peers w -> p_SubscriptionID p = subID -> GetInbound inbounds fails (p_InboundID p) = Some i -> in_NodeID i ∈ pushed w').
Proof.
  unfold DeactivateSubscription, setStatusAndPush in *. destruct (fails QListPeers), (fails QSetStatus); try done. cbn [snd].
  set (nodes := elements _). set (w1 := SetStatusBySubscription subID WGPeerStatusDisabled w). destruct (pushed_all fails nodes w1) as [Hp Hn].
  assert (forall p, p ∈ peers w1 <-> exists q, q ∈ peers w /\ p = if p_SubscriptionID q =? subID then set_status WGPeerStatusDisabled q else q) as Hin.
  { intros p. unfold w1. cbn [SetStatusBySubscription with_peers peers]. rewrite list_elem_of_fmap. naive_solver. }
  split_and!.
  - intros access inb r Hr. apply list_elem_of_fmap in Hr as (p & -> & Hr%filterRevoked_sub). cbn [r_SubscriptionID].
    apply list_elem_of_filter in Hr as [[_ Hact] Hr]. rewrite Hp, Hin in Hr. destruct Hr as (q & _ & ->).
    destruct (Z.eqb_spec (p_SubscriptionID q) subID); [done|by intros Heq].
  - intros inb p Hne. unfold ListActiveByInbound. rewrite !list_elem_of_filter, Hp, Hin. split.
    + intros [Hf (q & Hq & ->)]. destruct (Z.eqb_spec (p_SubscriptionID q) subID); [by destruct Hne|by split].
    + intros [Hf Hq]. split; [done|]. exists p. by destruct (Z.eqb_spec (p_SubscriptionID p) subID).
  - intros p i Hpw Hs Hi. rewrite Hn. apply elem_of_app. right. unfold nodes. apply elem_of_elements, elem_of_list_to_set, list_elem_of_omap.
    exists p. rewrite Hi. split; [|done]. apply list_elem_of_filter. by split.
Qed.

(** ** The cap on devices *)

(** A creation that was let through found fewer active devices than the cap. *)
Lemma cap_at_creation pubkey caps accounts inbounds fails env subID inboundID hostID label w pc cap :
  caps subID = Some cap -> 0 < cap -> (CreateDevice pubkey caps accounts inbounds fails env subID inboundID hostID label w).1 = Ok pc ->
  CountActiveBySubscription subID w < cap.
Proof.
  intros Hcap Hpos. unfold CreateDevice, wgInboundsForSub. destruct (fails QSub); [done|]. rewrite Hcap.
  destruct (if fails QAccounts then _ else _) as [|i wg]; [done|].
  destruct (if inboundID =? 0 then _ else _); [|done]. destruct (resolveHostID _ _); [|done]. destruct (fails QCountActive); [done|].
  destruct (Z.leb_spec cap (CountActiveBySubscription subID w)) as [|Hlt]; [|done].
  rewrite (proj2 (Z.ltb_lt 0 cap) Hpos). done.
Qed.

Definition demo_inbound : Inbound :=
  MkInbound 3 7 "vpn.example" 51820 false "wireguard" (Some (MkWGNode "192.0.2.7" true)) [] "secret" "10.66.0.0/24" ["10.66.0.1/24"] "" 0.
Definition demo_inbounds (id : Z) : option Inbound := if id =? 3 then Some demo_inbound else None.
Definition demo_pubkey (s : string) : option string := Some ("pub:" +:+ s).
Definition demo_env (key : string) (n : nat) : attempt := MkAttempt false (Some (key, "psk")) [] None.
Definition demo_create (key : string) (w : Peers) : result wg_error (WGPeer * string) * Peers :=
  CreateDevice demo_pubkey (fun _ => Some 1) (fun _ => [Some demo_inbound]) demo_inbounds (fun _ => false) (demo_env key) 5 0 0 "" w.

Lemma peers_placed_witness :
  distinct (peers (demo_create "b" (demo_create "a" (MkPeers [] 0 [])).2).2) /\
  Forall (placed demo_inbounds) (peers (demo_create "b" (demo_create "a" (MkPeers [] 0 [])).2).2).
Proof.
  apply (peers_placed demo_pubkey).
  - intros id i. unfold demo_inbounds. destruct (Z.eqb_spec id 3); [|done]. by intros [= <-].
  - apply rtc_l with (demo_create "a" (MkPeers [] 0 [])).2; [|apply rtc_once]; apply step_create; intros k; constructor.
Defined.

(** The first device has the first address after the server's. *)
Example demo_first : (fst <$> (match (demo_create "a" (MkPeers [] 0 [])).1 with Ok p => Some p | Err _ => None end)) =
  Some (MkPeer 1 5 3 None "Device 1" "pub:a" "psk" "a" "10.66.0.2" WGPeerStatusActive).
Proof. vm_compute. reflexivity. Qed.

Definition demo_paused : Peers := (DeactivateSubscription demo_inbounds (fun _ => false) 5 (demo_create "a" (MkPeers [] 0 [])).2).2.

Lemma pause_cuts_off_witness : in_NodeID demo_inbound ∈ pushed demo_paused.
Proof.
  eapply (pause_cuts_off demo_inbounds (fun _ => false) 5 (demo_create "a" (MkPeers [] 0 [])).2).
  - vm_compute. reflexivity.
  - vm_compute. left.
  - reflexivity.
  - reflexivity.
Defined.

(** The cap on devices does not survive a pause. With a cap of one, a second
    device is refused; but after the subscription was paused the second device is
    created, since only active devices are counted, and resuming makes both
    active: two active devices under a cap of one. *)
Theorem cap_exceeded :
  let w1 := (demo_create "a" (MkPeers [] 0 [])).2 in
  (demo_create "b" w1).1 = Err ErrDeviceCapReached /\
  let r := demo_create "b" demo_paused in
  match r.1 with Ok _ => True | Err _ => False end /\
  CountActiveBySubscription 5 (ActivateSubscription demo_inbounds (fun _ => false) 5 r.2).2 = 2.
Proof. vm_compute. done. Qed.
