(* ===== verification/NetValidate.v ===== *)
(** * Network validation

    The pure rules of internal/network/domain/validate.go and wan.go: the verdicts
    on a role change ([Validate]), on a WAN's addresses ([ValidateWAN]), on the LAN
    ([ValidateLANConfig]), on a port forward ([ValidatePortForward]) and on a radio
    ([ValidateWifiConfig]). A verdict keeps its rule and level; its message is prose
    and is left out, as are the columns no rule reads. Roles, slots and methods are
    the strings the code uses, since a request may carry any.

    Lemmas: two CIDRs overlap exactly when they share an address ([overlaps_meet]);
    what an accepted change has passed ([accepted_spec] and the lemmas after it). *)

From S2P Require Import Prelude GoString GoUnicode GoNetip RouterMarks RouterRules.

Inductive Level := LevelReject | LevelConfirm | LevelWarn.
#[export] Instance Level_eq_dec : EqDecision Level.
Proof. solve_decision. Defined.
Record Verdict := MkVerdict { v_Rule : string; v_Level : Level }.
Definition reject (rule : string) : Verdict := MkVerdict rule LevelReject.
Definition confirm (rule : string) : Verdict := MkVerdict rule LevelConfirm.
Definition warn (rule : string) : Verdict := MkVerdict rule LevelWarn.

Definition Rejected (vs : list Verdict) : bool := existsb (fun v => bool_decide (v_Level v = LevelReject)) vs.
Definition needsConfirm (vs : list Verdict) : bool := existsb (fun v => bool_decide (v_Level v = LevelConfirm)) vs.

(** ** Interfaces *)

Abbreviation InterfaceRole := string (only parsing).
Definition RoleUnassigned : InterfaceRole := "unassigned".
Definition RoleWAN : InterfaceRole := "wan".
Definition RoleLAN : InterfaceRole := "lan".
Definition RoleLANMember : InterfaceRole := "lan_member".
Definition RoleMgmt : InterfaceRole := "mgmt".
Definition AllRoles : list InterfaceRole := [RoleUnassigned; RoleWAN; RoleLAN; RoleLANMember; RoleMgmt].
Definition Role_Valid (r : InterfaceRole) : bool := bool_decide (r ∈ AllRoles).
Definition IsSingleton (r : InterfaceRole) : bool := bool_decide (r = RoleLAN \/ r = RoleMgmt).

Definition MethodDHCP4 : string := "dhcp4".
Definition MethodStatic : string := "static".
Definition MethodRawIP : string := "rawip".

Record NetworkInterface := MkIf {
  if_ID : Z; if_Key : string; if_KeyKind : string; if_IfName : string; if_Source : string; if_SourceOverride : string; if_PhyName : string;
  if_USBSpeedMbit : Z; if_Role : InterfaceRole; if_Slot : UplinkSlot; if_MasterID : option Z; if_Method : string; if_StaticAddress : string;
  if_StaticGateway : string; if_GatewayOnLink : bool; if_DNSServer : string; if_DNSServer2 : string; if_DNSDomains : string;
  if_Ephemeral : bool; if_LearnedGateway : string; if_Present : bool
}.

(** [row.Role, row.Slot = role, slot] *)
Definition set_role (role : InterfaceRole) (slot : UplinkSlot) (n : NetworkInterface) : NetworkInterface :=
  MkIf (if_ID n) (if_Key n) (if_KeyKind n) (if_IfName n) (if_Source n) (if_SourceOverride n) (if_PhyName n) (if_USBSpeedMbit n) role slot
    (if_MasterID n) (if_Method n) (if_StaticAddress n) (if_StaticGateway n) (if_GatewayOnLink n) (if_DNSServer n) (if_DNSServer2 n)
    (if_DNSDomains n) (if_Ephemeral n) (if_LearnedGateway n) (if_Present n).
(** The columns of a WAN's intent. *)
Definition set_intent (method address gateway : string) (onLink : bool) (dns dns2 domains learned : string) (n : NetworkInterface) : NetworkInterface :=
  MkIf (if_ID n) (if_Key n) (if_KeyKind n) (if_IfName n) (if_Source n) (if_SourceOverride n) (if_PhyName n) (if_USBSpeedMbit n) (if_Role n) (if_Slot n)
    (if_MasterID n) method address gateway onLink dns dns2 domains (if_Ephemeral n) learned (if_Present n).

(** ** A WAN's addresses *)

Record WANConfig := MkWAN {
  w_Method : string; w_StaticAddress : string; w_StaticGateway : string; w_GatewayOnLink : bool; w_DNSMode : string; w_DNSServers : list string
}.

Definition nonempty (s : string) : bool := negb (bool_decide (s = "")).

Definition WANConfig_of (n : NetworkInterface) : WANConfig :=
  let method := if bool_decide (if_Method n = "") then MethodDHCP4 else if_Method n in
  let '(mode, servers) :=
    if IsSecondary (if_Slot n) then ("vpn", []) else
    if nonempty (if_DNSServer n) then ("custom", if_DNSServer n :: (if nonempty (if_DNSServer2 n) then [if_DNSServer2 n] else []))
    else ("default", []) in
  MkWAN method (if_StaticAddress n) (if_StaticGateway n) (if_GatewayOnLink n) mode servers.

Record ChangeRequest := MkReq {
  q_RequestID : string; q_WAN : option WANConfig; q_InterfaceID : Z; q_Role : InterfaceRole; q_Slot : UplinkSlot; q_EvictID : option Z;
  q_Confirmed : bool; q_MasterID : option Z; q_Method : string; q_StaticAddress : string; q_StaticGateway : string;
  q_NewIfName : string; q_MACPolicy : string
}.

Definition WANChange (r : ChangeRequest) (n : NetworkInterface) : option WANConfig :=
  match q_WAN r with
  | Some c => Some c
  | None =>
      if bool_decide (q_Method r = "") then None else
      let c := WANConfig_of n in
      let '(mode, servers) := if IsSecondary (q_Slot r) then ("vpn", []) else (w_DNSMode c, w_DNSServers c) in
      Some (MkWAN (q_Method r) (q_StaticAddress r) (q_StaticGateway r) false mode servers)
  end.

Definition SetWAN (c : WANConfig) (n : NetworkInterface) : NetworkInterface :=
  let static := bool_decide (w_Method c = MethodStatic) in
  let custom := bool_decide (w_DNSMode c = "custom") in
  set_intent (w_Method c) (if static then w_StaticAddress c else "") (if static then w_StaticGateway c else "") (static && w_GatewayOnLink c)
    (if custom then default "" (w_DNSServers c !! 0%nat) else "") (if custom then default "" (w_DNSServers c !! 1%nat) else "")
    (if IsDomestic (if_Slot n) then "~ir" else "") "" n.

(** ** Addresses *)

(** An octet of an IPv4 address, from the left. *)
Definition oct (k n : Z) : Z := n / 2 ^ (8 * (3 - k)) mod 2 ^ 8.

(** [IsGlobalUnicast] of an IPv4 address. *)
Definition global_unicast4 (n : Z) : bool :=
  negb (n =? 0) && negb (n =? 2 ^ 32 - 1) && negb (oct 0 n =? 127) && negb (oct 0 n / 16 =? 14) && negb ((oct 0 n =? 169) && (oct 1 n =? 254)).

Definition ValidWANIPv4 (s : string) : bool :=
  match ParseAddr s with
  | Some (IP4 n) => global_unicast4 n && negb (oct 0 n =? 127) && negb (oct 0 n =? 0) && (oct 0 n <? 224)
  | _ => false
  end.

Definition subnetEndpoint (p : prefix) (i : Z) : bool :=
  if 31 <=? pf_bits p then false else
  let b := number (pf_ip (Masked p)) in
  (i =? b) || (i =? Z.lor b ((2 ^ (32 - pf_bits p) mod 2 ^ 32 - 1) mod 2 ^ 32)).

(** The prefix of a static address, if it is one a WAN can have. *)
Definition wan_prefix (s : string) : option (prefix * Z) :=
  match ParsePrefix s with
  | Some p => match pf_ip p with IP4 n => if (1 <=? pf_bits p) && ValidWANIPv4 (String4 n) then Some (p, n) else None | IP6 _ _ => None end
  | None => None
  end.

Definition when (b : bool) (v : Verdict) : list Verdict := if b then [v] else [].

Definition check_static (c : WANConfig) : list Verdict :=
  let valid := wan_prefix (w_StaticAddress c) in
  match valid with None => [reject "WAN_address"] | Some (p, n) => when (subnetEndpoint p n) (reject "WAN_address") end ++
  (if negb (ValidWANIPv4 (w_StaticGateway c)) then [reject "WAN_gateway"] else
   match valid, ParseAddr (w_StaticGateway c) with
   | Some (p, n), Some (IP4 gw) =>
       if gw =? n then [reject "WAN_gateway"] else
       if Contains p (IP4 gw) && subnetEndpoint p gw then [reject "WAN_gateway"] else
       when (negb (Contains p (IP4 gw)) && negb (w_GatewayOnLink c)) (reject "WAN_gateway_on_link")
   | _, _ => []
   end).

(** The servers in order, each judged on its own and against those before it. *)
Fixpoint check_servers (seen : list string) (l : list string) : list Verdict :=
  match l with
  | [] => []
  | ip :: l => when (negb (ValidWANIPv4 ip)) (reject "WAN_dns") ++ when (bool_decide (ip ∈ seen)) (reject "WAN_dns") ++ check_servers (ip :: seen) l
  end.

Definition check_dns (c : WANConfig) (slot : UplinkSlot) : list Verdict :=
  let n := length (w_DNSServers c) in
  if IsSecondary slot then when (negb (bool_decide (w_DNSMode c = "vpn")) || negb (n =? 0)%nat) (reject "WAN_dns") else
  if bool_decide (w_DNSMode c = "default") then when (negb (n =? 0)%nat) (reject "WAN_dns") else
  if bool_decide (w_DNSMode c = "custom") then when ((n <? 1)%nat || (2 <? n)%nat) (reject "WAN_dns") ++ check_servers [] (w_DNSServers c) else
  [reject "WAN_dns"].

Definition ValidateWAN (c : WANConfig) (slot : UplinkSlot) (source : string) : list Verdict :=
  when (HasPrefix source "wwan_") (reject "WAN_method") ++
  when (negb (bool_decide (w_Method c = MethodDHCP4)) && negb (bool_decide (w_Method c = MethodStatic))) (reject "WAN_method") ++
  (if bool_decide (w_Method c = MethodStatic) then check_static c else []) ++
  check_dns c slot.

(** ** Overlap *)

Definition unmap4in6 (p : prefix) : prefix :=
  if negb (Is4In6 (pf_ip p)) || (pf_bits p <? 96) then p else MkPrefix (Unmap (pf_ip p)) (pf_bits p - 96).

Definition overlaps (a b : string) : bool :=
  match ParsePrefix a, ParsePrefix b with
  | Some pa, Some pb => Overlaps (unmap4in6 pa) (unmap4in6 pb)
  | _, _ => false
  end.

(** ** The LAN *)

Record LANConfig := MkLAN { lan_CIDR : string; lan_DHCPRangeLow : string; lan_DHCPRangeHigh : string; lan_Enabled : bool }.
Definition ManagedBridgeName : string := "lan0".

Definition reservedLANOverlaps : list string := ["100.64.0.0/10"; "192.168.100.0/24"; "127.0.0.0/8"; "169.254.0.0/16"; "224.0.0.0/4"].

Definition static_wans (rows : list NetworkInterface) : list string :=
  if_StaticAddress <$> filter (fun r => if_Role r = RoleWAN /\ if_StaticAddress r <> "") rows.

Definition forbidden (rows : list NetworkInterface) (mgmtCIDR : string) : list string :=
  reservedLANOverlaps ++ (if nonempty mgmtCIDR then [mgmtCIDR] else []) ++ static_wans rows.

(** An end of the DHCP range that is not an address of the LAN. *)
Definition outside (p : prefix) (addr : string) : bool :=
  nonempty addr && match ParseAddr addr with None => true | Some ip => negb (Contains p ip) end.

Definition ValidateLANConfig (lan : LANConfig) (rows : list NetworkInterface) (mgmtCIDR : string) : list Verdict :=
  if negb (nonempty (lan_CIDR lan)) then [] else
  match ParsePrefix (lan_CIDR lan) with
  | None => [reject "V14"]
  | Some p =>
      if existsb (overlaps (lan_CIDR lan)) (forbidden rows mgmtCIDR) then [reject "V14"] else
      when (outside p (lan_DHCPRangeLow lan) || outside p (lan_DHCPRangeHigh lan)) (reject "V14")
  end.

(** ** A role change *)

Definition SourceAllows (source : string) (role : InterfaceRole) : bool :=
  if bool_decide (role = RoleUnassigned) then true else
  if bool_decide (source ∈ ["eth_onboard"; "eth_pci"; "eth_platform"; "eth_usb"; "virt_vlan"; "virt_bond"]) then
    bool_decide (role ∈ [RoleWAN; RoleLAN; RoleLANMember]) else
  if bool_decide (source ∈ ["wifi_pci"; "wifi_usb"]) then bool_decide (role ∈ [RoleWAN; RoleLAN; RoleLANMember]) else
  if bool_decide (source ∈ ["tether_android"; "tether_iphone"; "wwan_usb"; "wwan_pcie"]) then bool_decide (role = RoleWAN) else
  if bool_decide (source = "virt_bridge") then bool_decide (role = RoleLAN) else
  false.

(** No letter has a digit for its upper case, so the comparison is of the trimmed
    code. *)
Definition RegDomainUnset (code : string) : bool := bool_decide (TrimSpace code ∈ [""; "00"; "0"]).

Record ValidationInput := MkInput {
  i_LiveAddresses : string -> list string; i_Rows : list NetworkInterface; i_Req : ChangeRequest; i_LAN : option LANConfig; i_MgmtCIDR : string;
  i_PeerIfName : string; i_HostapdInstalled : bool; i_IWDInstalled : bool; i_RadioSupportsAP : string -> bool; i_RadioSupportsSTA : string -> bool;
  i_CountryCode : string
}.

(** A map by id: the last row of an id. *)
Definition byID (rows : list NetworkInterface) (id : Z) : option NetworkInterface := last (filter (fun r => if_ID r = id) rows).

Definition is_role (r : InterfaceRole) (x : InterfaceRole) : bool := bool_decide (x = r).
Definition apRole (r : InterfaceRole) : bool := is_role RoleLAN r || is_role RoleLANMember r.
Definition hidden_source (s : string) : bool := bool_decide (s ∈ ["loopback"; "virt_other"; "unknown"]).

Definition source_of (t : NetworkInterface) : string := if nonempty (if_SourceOverride t) then if_SourceOverride t else if_Source t.

(** A holder of what is asked for that is not the one named to lose it. *)
Definition not_evicted (req : ChangeRequest) (holder : NetworkInterface) : bool := negb (bool_decide (q_EvictID req = Some (if_ID holder))).

(** The rules that return at their first finding, in order: each fires or not. *)
Definition gates (i : ValidationInput) (t : NetworkInterface) : list (string * bool) :=
  let req := i_Req i in
  let role := q_Role req in
  let rows := i_Rows i in
  let source := source_of t in
  let assigning := negb (is_role RoleUnassigned role) in
  let wifi := HasPrefix source "wifi_" in
  [ ("V1", negb (if_Present t));
    ("V2", negb (Role_Valid role));
    ("V21", nonempty (q_NewIfName req) && negb (bool_decide (q_NewIfName req = if_IfName t)));
    ("V3", hidden_source source);
    ("V3", bool_decide (if_IfName t = ManagedBridgeName) && assigning);
    ("V6", assigning && HasPrefix source "wwan_" && negb (is_role RoleWAN role));
    ("V5", assigning && if_Ephemeral t && apRole role);
    ("V4", assigning && negb (SourceAllows source role));
    ("V7", match if_MasterID t with Some m => negb (is_role RoleLANMember role) && bool_decide (byID rows m = None) | None => false end);
    ("V8", IsSingleton role && existsb (fun h => is_role role (if_Role h) && negb (if_ID h =? if_ID t) && not_evicted req h) rows);
    ("V9", assigning && negb (is_role RoleUnassigned (if_Role t)) && negb (is_role role (if_Role t)));
    ("V9", assigning && existsb (fun r => bool_decide (if_MasterID r = Some (if_ID t)) && negb (is_role RoleLAN role)) rows);
    ("V10", is_role RoleLANMember role && match q_MasterID req with
                                           | None => true
                                           | Some m => match byID rows m with None => true | Some h => negb (is_role RoleLAN (if_Role h)) end
                                           end);
    ("V11", wifi && apRole role && (negb (i_HostapdInstalled i) || negb (i_RadioSupportsAP i (if_PhyName t)) || RegDomainUnset (i_CountryCode i)));
    ("V12", wifi && is_role RoleWAN role && (negb (i_IWDInstalled i) || negb (i_RadioSupportsSTA i (if_PhyName t))));
    ("V24", bool_decide (q_MACPolicy req = "random") && (is_role RoleWAN role || apRole role));
    ("V13", nonempty (if_PhyName t) && assigning &&
            existsb (fun s => negb (if_ID s =? if_ID t) && bool_decide (if_PhyName s = if_PhyName t) && negb (is_role RoleUnassigned (if_Role s)) &&
                              negb (Bool.eqb (apRole (if_Role s)) (apRole role))) rows) ].

Definition first_fired (l : list (string * bool)) : option string := fst <$> head (filter (fun g => g.2 = true) l).

(** The configuration asked for: the eviction, the role and the WAN's intent. *)
Definition propose (req : ChangeRequest) (t : NetworkInterface) (row : NetworkInterface) : NetworkInterface :=
  let row := if bool_decide (q_EvictID req = Some (if_ID row)) then set_role RoleUnassigned SlotNone row else row in
  if if_ID row =? if_ID t then
    let row := set_role (q_Role req) (q_Slot req) row in
    match WANChange req t with Some c => SetWAN c row | None => row end
  else row.

Definition other_addresses (i : ValidationInput) (o : NetworkInterface) : list string :=
  if bool_decide (if_Method o = MethodStatic) then [if_StaticAddress o] else i_LiveAddresses i (if_IfName o).

Definition wan_overlaps (i : ValidationInput) (t : NetworkInterface) (proposed : list NetworkInterface) (c : WANConfig) : list Verdict :=
  when (nonempty (i_MgmtCIDR i) && overlaps (w_StaticAddress c) (i_MgmtCIDR i)) (reject "WAN_overlap") ++
  mjoin ((fun o => if (if_ID o =? if_ID t) || negb (is_role RoleWAN (if_Role o)) then [] else
                   when (existsb (overlaps (w_StaticAddress c)) (other_addresses i o)) (reject "WAN_overlap")) <$> proposed).

(** The change of the WAN's addresses: refused, or its verdicts on overlaps. *)
Definition check_wan (i : ValidationInput) (t : NetworkInterface) (proposed : list NetworkInterface) : list Verdict :=
  match WANChange (i_Req i) t with
  | None => []
  | Some c =>
      if negb (is_role RoleWAN (q_Role (i_Req i))) then [reject "WAN_role"] else
      let vs := ValidateWAN c (q_Slot (i_Req i)) (source_of t) in
      if Rejected vs then vs else
      vs ++ if bool_decide (w_Method c = MethodStatic) then wan_overlaps i t proposed c else []
  end.

(** The rules on the slot, after the addresses. *)
Definition late_gates (i : ValidationInput) (t : NetworkInterface) : list (string * bool) :=
  let req := i_Req i in
  let wan := is_role RoleWAN (q_Role req) in
  [ ("V15", HasPrefix (source_of t) "wwan_" && bool_decide (q_Method req = MethodDHCP4));
    ("V20", if wan then negb (IsDomestic (q_Slot req)) && negb (IsSecondary (q_Slot req)) else negb (bool_decide (q_Slot req = SlotNone)));
    ("V25", wan && existsb (fun h => negb (if_ID h =? if_ID t) && is_role RoleWAN (if_Role h) && bool_decide (if_Slot h = q_Slot req) && not_evicted req h)
                     (i_Rows i)) ].

(** The box's shape after the change. *)
Definition assignable_rows (rows : list NetworkInterface) : list NetworkInterface :=
  filter (fun r => hidden_source (if_Source r) = false /\ if_Present r = true) rows.
Definition new_role (i : ValidationInput) (t r : NetworkInterface) : InterfaceRole := if if_ID r =? if_ID t then q_Role (i_Req i) else if_Role r.

Definition shape (i : ValidationInput) (t : NetworkInterface) : list Verdict :=
  let req := i_Req i in
  let rows := assignable_rows (i_Rows i) in
  let roles := new_role i t <$> rows in
  let assignable := length rows in
  let wans := length (filter (fun r => r = RoleWAN) roles) in
  let has r := bool_decide (r ∈ roles) in
  if is_role RoleUnassigned (q_Role req) && is_role RoleWAN (if_Role t) && (wans =? 0)%nat then [reject "V16"] else
  let vs := when (wans <? 2)%nat (warn "V16") ++ when ((assignable =? 2)%nat && (wans =? 2)%nat && negb (has RoleLAN)) (confirm "V17") in
  if nonempty (i_PeerIfName i) && bool_decide (i_PeerIfName i = if_IfName t) && is_role RoleUnassigned (q_Role req) && negb (q_Confirmed req)
  then vs ++ [reject "V18"] else
  vs ++ when ((3 <=? assignable)%nat && negb (has RoleMgmt)) (warn "V19") ++
  when (nonempty (if_KeyKind t) && negb (bool_decide (if_KeyKind t = "permaddr")) && negb (is_role RoleUnassigned (q_Role req))) (warn "V22") ++
  when (is_role RoleWAN (q_Role req) && (if_USBSpeedMbit t =? 480)) (warn "V23").

Definition Validate (i : ValidationInput) : list Verdict :=
  if (64 <? String.length (q_RequestID (i_Req i)))%nat then [reject "WAN_request"] else
  match byID (i_Rows i) (q_InterfaceID (i_Req i)) with
  | None => [reject "V1"]
  | Some t =>
      match first_fired (gates i t) with
      | Some rule => [reject rule]
      | None =>
          let proposed := propose (i_Req i) t <$> i_Rows i in
          let vs := check_wan i t proposed in
          if Rejected vs then vs else
          let lanVs := match i_LAN i with Some lan => ValidateLANConfig lan proposed (i_MgmtCIDR i) | None => [] end in
          if Rejected lanVs then vs ++ lanVs else
          match first_fired (late_gates i t) with
          | Some rule => vs ++ [reject rule]
          | None => vs ++ shape i t
          end
      end
  end.

(** ** A port forward *)

Record PortForward := MkPF { f_ID : Z; f_UplinkKey : string; f_Proto : string; f_DPort : Z; f_ToAddr : string; f_ToPort : Z; f_Enabled : bool }.
Record PortForwardInput := MkPFI {
  pi_Existing : list PortForward; pi_New : PortForward; pi_LANCIDR : string; pi_PanelPort : Z; pi_HubPort : Z; pi_SSHPort : Z;
  pi_InboundPorts : string -> list Z; pi_UplinkKeys : list string
}.

(** [net.ParseIP]: an address without a zone; the mapped form is the IPv4 one. *)
Definition ParseIP (s : string) : option ipaddr :=
  match ParseAddr s with Some a => if hasZone a then None else Some (Unmap a) | None => None end.

(** [net.ParseCIDR]'s network, IPv4 where its masked address is mapped. *)
Definition ParseCIDR (s : string) : option prefix :=
  '(a, b) ← cut "/" s;
  ip ← ParseAddr a;
  if hasZone ip then None else
  n ← parse_unsigned b;
  if (0xFFFFFF <=? n) || (BitLen ip <? n) then None else Some (unmap4in6 (Masked (MkPrefix ip n))).

Definition IsLoopback (a : ipaddr) : bool := match a with IP4 n => oct 0 n =? 127 | IP6 n _ => n =? 1 end.

Definition sameUplink (a b : string) : bool := negb (nonempty a) || negb (nonempty b) || bool_decide (a = b).

(** An enabled forward of another id that takes the same port. *)
Definition collides (pf ex : PortForward) : bool :=
  negb (f_ID ex =? f_ID pf) && f_Enabled ex && bool_decide (f_Proto ex = f_Proto pf) && (f_DPort ex =? f_DPort pf) && sameUplink (f_UplinkKey ex) (f_UplinkKey pf).

Definition ValidatePortForward (i : PortForwardInput) : list Verdict :=
  let pf := pi_New i in
  let tcp := bool_decide (f_Proto pf = "tcp") in
  if negb (bool_decide (f_Proto pf ∈ ["tcp"; "udp"])) then [reject "V26"] else
  if (f_DPort pf <? 1) || (65535 <? f_DPort pf) then [reject "V26"] else
  if (f_ToPort pf <? 1) || (65535 <? f_ToPort pf) then [reject "V26"] else
  match ParseIP (f_ToAddr pf) with
  | None => [reject "V26"]
  | Some target =>
      if nonempty (f_UplinkKey pf) && negb (bool_decide (f_UplinkKey pf ∈ pi_UplinkKeys i)) then [reject "V26"] else
      if nonempty (pi_LANCIDR i) && match ParseCIDR (pi_LANCIDR i) with
                                     | Some lan => negb (Contains lan target) && negb (IsLoopback target)
                                     | None => false
                                     end then [reject "V26"] else
      if bool_decide (f_DPort pf ∈ pi_InboundPorts i (f_Proto pf)) then [reject "V27"] else
      if existsb (collides pf) (pi_Existing i) then [reject "V27"] else
      when (tcp && (0 <? pi_PanelPort i) && (f_DPort pf =? pi_PanelPort i)) (confirm "V28") ++
      when (tcp && (0 <? pi_HubPort i) && (f_DPort pf =? pi_HubPort i)) (confirm "V28") ++
      when (tcp && ((f_ToPort pf =? pi_PanelPort i) || (f_ToPort pf =? pi_SSHPort i))) (confirm "V28")
  end.

(** ** A radio *)

Record WifiConfig := MkWifi { wf_Mode : string; wf_SSID : string; wf_PSK : string; wf_CountryCode : string; wf_Band : string }.

(** A rune outside ASCII is neither a hexadecimal digit nor printable ASCII, and
    neither is any of its bytes. *)
Definition validWPAPassphrase (psk : string) : bool :=
  let n := Z.of_nat (String.length psk) in
  if n =? 64 then forallb (fun c => match hex_val c with Some _ => true | None => false end) (to_bytes psk) else
  if (n <? 8) || (63 <? n) then false else
  forallb (fun c => between 0x20 0x7e (code c)) (to_bytes psk).

Definition ValidateWifiConfig (cfg : WifiConfig) : list Verdict :=
  let n := Z.of_nat (String.length (wf_SSID cfg)) in
  let ap := bool_decide (wf_Mode cfg = "ap") in
  when ((n =? 0) || (32 <? n)) (reject "V38") ++
  when ((ap || nonempty (wf_PSK cfg)) && negb (validWPAPassphrase (wf_PSK cfg))) (reject "V39") ++
  when (negb (bool_decide (wf_Band cfg ∈ ["2g"; "5g"; "6g"]))) (reject "V40") ++
  when (negb (bool_decide (wf_Mode cfg ∈ ["ap"; "station"]))) (reject "V41") ++
  when (ap && RegDomainUnset (wf_CountryCode cfg)) (reject "V42").

(** ** What the verdicts mean *)

Lemma nonempty_spec s : nonempty s = true <-> s <> "".
Proof. unfold nonempty. rewrite negb_true_iff, bool_decide_eq_false. done. Qed.

Lemma is_role_spec r x : is_role r x = true <-> x = r.
Proof. apply bool_decide_eq_true. Qed.

Lemma Rejected_app a b : Rejected (a ++ b) = Rejected a || Rejected b.
Proof. apply existsb_app. Qed.

Lemma Rejected_when b r : Rejected (when b (reject r)) = b.
Proof. by destruct b. Qed.

Lemma unmap_ok p : prefix_ok p -> prefix_ok (unmap4in6 p).
Proof.
  intros Hp. unfold unmap4in6. destruct (Is4In6 (pf_ip p)) eqn:H4; simpl; [|done].
  destruct (Z.ltb_spec (pf_bits p) 96) as [|Hb]; [done|]. destruct Hp as (Ha & Hz & Hbits). unfold Unmap. rewrite H4.
  destruct (pf_ip p) as [|n z]; [done|]. unfold BitLen in Hbits. cbn [Is4 number] in *.
  split_and!; [|done|simpl; lia|unfold BitLen; simpl; lia]. apply Z.mod_pos_bound. done.
Qed.

(** Two CIDRs overlap exactly when some address is in both, an IPv4 range written
    as an IPv6 one being the IPv4 range. *)
Lemma overlaps_meet a b pa pb :
  ParsePrefix a = Some pa -> ParsePrefix b = Some pb ->
  overlaps a b = true <-> exists x, addr_ok x /\ Contains (unmap4in6 pa) x = true /\ Contains (unmap4in6 pb) x = true.
Proof.
  intros Ha Hb. unfold overlaps. rewrite Ha, Hb. apply overlaps_iff; apply unmap_ok; by eapply ParsePrefix_ok.
Qed.

Lemma first_fired_None l : first_fired l = None <-> forall g, g ∈ l -> g.2 = false.
Proof.
  unfold first_fired. destruct (filter _ l) as [|g k] eqn:Hf; simpl.
  - split; [|done]. intros _ g Hg. apply not_true_iff_false. intros H.
    assert (g ∈ filter (fun g => g.2 = true) l) as Hin by (by apply list_elem_of_filter). rewrite Hf in Hin. by apply elem_of_nil in Hin.
  - split; [done|]. intros H. assert (g ∈ filter (fun g => g.2 = true) l) as [Ht Hin]%list_elem_of_filter by (rewrite Hf; left).
    by rewrite (H g Hin) in Ht.
Qed.

(** What an accepted change has passed. *)
Lemma accepted_spec i : Rejected (Validate i) = false ->
  exists t, byID (i_Rows i) (q_InterfaceID (i_Req i)) = Some t /\ (forall g, g ∈ gates i t -> g.2 = false) /\
    (forall lan, i_LAN i = Some lan -> Rejected (ValidateLANConfig lan (propose (i_Req i) t <$> i_Rows i) (i_MgmtCIDR i)) = false) /\
    Rejected (check_wan i t (propose (i_Req i) t <$> i_Rows i)) = false /\ (forall g, g ∈ late_gates i t -> g.2 = false) /\ Rejected (shape i t) = false.
Proof.
  unfold Validate. destruct (_ <? _)%nat; [done|]. destruct (byID _ _) as [t|]; [|done].
  destruct (first_fired (gates i t)) eqn:Hg; [done|]. pose proof (proj1 (first_fired_None _) Hg) as Hg'.
  destruct (Rejected (check_wan _ _ _)) eqn:Hw; [by rewrite Hw|].
  destruct (Rejected (match i_LAN i with Some _ => _ | None => _ end)) eqn:Hl; [by rewrite Rejected_app, Hl, orb_true_r|].
  destruct (first_fired (late_gates i t)) eqn:Hlg; [by rewrite Rejected_app, orb_true_r|]. pose proof (proj1 (first_fired_None _) Hlg) as Hlg'.
  rewrite Rejected_app, Hw. simpl. intros Hs. exists t. split_and!; try done. intros lan Hlan. by rewrite Hlan in Hl.
Qed.

Lemma byID_Some rows id t : byID rows id = Some t -> t ∈ rows /\ if_ID t = id.
Proof. unfold byID. intros H%last_Some_elem_of. by apply list_elem_of_filter in H as [? ?]. Qed.

(** The rules the invariants rest on, as passed. *)
Section passed.
Context (i : ValidationInput) (t : NetworkInterface).
Context (Hgates : forall g, g ∈ gates i t -> g.2 = false) (Hlate : forall g, g ∈ late_gates i t -> g.2 = false).

Lemma passed_V4 : q_Role (i_Req i) <> RoleUnassigned -> SourceAllows (source_of t) (q_Role (i_Req i)) = true.
Proof.
  intros Hne. pose proof (Hgates ("V4", _) (list_elem_of_lookup_2 (gates i t) 7 _ eq_refl)) as H. cbn [snd] in H.
  unfold is_role in H. rewrite bool_decide_eq_false_2 in H by done. by apply negb_false_iff in H.
Qed.

Lemma passed_V8 h : IsSingleton (q_Role (i_Req i)) = true -> h ∈ i_Rows i -> if_Role h = q_Role (i_Req i) -> if_ID h <> if_ID t ->
  q_EvictID (i_Req i) = Some (if_ID h).
Proof.
  intros Hs Hh Hr Hne. pose proof (Hgates ("V8", _) (list_elem_of_lookup_2 (gates i t) 9 _ eq_refl)) as H. cbn [snd] in H. rewrite Hs in H.
  apply not_true_iff_false in H. apply dec_stable. intros Hev. apply H, existsb_exists. exists h. rewrite <-list_elem_of_In. split; [done|].
  unfold not_evicted. rewrite bool_decide_eq_false_2 by done. by rewrite (proj2 (is_role_spec _ _) Hr), (proj2 (Z.eqb_neq _ _) Hne).
Qed.

Lemma passed_V20 :
  if is_role RoleWAN (q_Role (i_Req i)) then IsDomestic (q_Slot (i_Req i)) || IsSecondary (q_Slot (i_Req i)) = true else q_Slot (i_Req i) = SlotNone.
Proof.
  pose proof (Hlate ("V20", _) (list_elem_of_lookup_2 (late_gates i t) 1 _ eq_refl)) as H. cbn [snd] in H.
  destruct (is_role _ _); [by destruct (IsDomestic _), (IsSecondary _)|]. by apply negb_false_iff, bool_decide_eq_true in H.
Qed.

Lemma passed_V25 h : q_Role (i_Req i) = RoleWAN -> h ∈ i_Rows i -> if_Role h = RoleWAN -> if_Slot h = q_Slot (i_Req i) -> if_ID h <> if_ID t ->
  q_EvictID (i_Req i) = Some (if_ID h).
Proof.
  intros Hw Hh Hr Hs Hne. pose proof (Hlate ("V25", _) (list_elem_of_lookup_2 (late_gates i t) 2 _ eq_refl)) as H. cbn [snd] in H.
  rewrite (proj2 (is_role_spec _ _) Hw) in H.
  apply not_true_iff_false in H. apply dec_stable. intros Hev. apply H, existsb_exists. exists h. rewrite <-list_elem_of_In. split; [done|].
  unfold not_evicted. rewrite (bool_decide_eq_false_2 _ Hev), (bool_decide_eq_true_2 _ Hs). by rewrite (proj2 (is_role_spec _ _) Hr), (proj2 (Z.eqb_neq _ _) Hne).
Qed.
End passed.

(** An accepted LAN has no address of a forbidden range. *)
Lemma lan_passed lan rows mgmt : Rejected (ValidateLANConfig lan rows mgmt) = false -> lan_CIDR lan <> "" ->
  exists p, ParsePrefix (lan_CIDR lan) = Some p /\
    forall f q x, f ∈ forbidden rows mgmt -> ParsePrefix f = Some q -> addr_ok x -> Contains (unmap4in6 p) x = true -> Contains (unmap4in6 q) x = false.
Proof.
  intros H Hne. unfold ValidateLANConfig in H. rewrite (proj2 (nonempty_spec _) Hne) in H. cbn [negb] in H.
  destruct (ParsePrefix (lan_CIDR lan)) as [p|] eqn:Hp; [|done]. exists p. split; [done|]. intros f q x Hf Hq Hx Hin.
  destruct (existsb _ _) eqn:He; [done|]. apply not_true_iff_false. intros Hin'. apply not_true_iff_false in He. apply He, existsb_exists.
  exists f. rewrite <-list_elem_of_In. split; [done|]. apply (overlaps_meet _ _ _ _ Hp Hq). by exists x.
Qed.
