(* ===== verification/NetAssign.v ===== *)
(** * Role changes and their effect on the rows

    How an accepted change of internal/network/usecase/network_usecase.go reaches
    the database: the input of its validation, [Apply]'s gate, the transaction of
    [buildPlan], the edit of the LAN (lan.go), the rescan of the devices
    ([refreshInterfaces] with interface_repository.go), the capture and the restore
    of the operator's intent (interface_intent.go), and the port forwards
    (portforward.go, portforward_repository.go). The files, routes and daemons the
    plan goes on to write are left out; the dead-man around it is [RouterDeadman].

    Theorems: the rows always satisfy the two unique indices of the database and the
    LAN shares no address with a reserved range or a static WAN
    ([roles_sound]); a rolled back change leaves every row as it was
    ([rollback_restores]); two enabled port forwards never take the same port
    ([forwards_disjoint]); no interface can be given the management role
    ([mgmt_unreachable]); and three ways around the rules: an eviction that takes
    the last uplink ([evict_takes_last_uplink]), a role-only change that makes two
    WANs overlap ([role_only_overlap]) and a master that is asked for and not
    stored ([master_not_stored]). *)

From S2P Require Import Prelude GoString GoUnicode GoNetip RouterMarks RouterRules NetValidate.

Record NetDB := MkNet { rows : list NetworkInterface; lan : LANConfig; last_if : Z }.

Definition defaultMgmtCIDR : string := "192.168.99.1/24".
Definition DefaultLANConfig : LANConfig := MkLAN "10.77.0.1/24" "10.77.0.100" "10.77.0.200" false.

(** ** The validation's input *)

(** What the host says: live addresses, installed daemons, probed radios, the
    regulatory domain, and whether the LAN's row can be read. *)
Record host_facts := MkFacts {
  hf_live : string -> list string; hf_hostapd : bool; hf_iwd : bool; hf_ap : string -> bool; hf_sta : string -> bool; hf_country : string; hf_lan_read : bool
}.

(** The interface of the admin's session is never filled in. *)
Definition validationInput (h : host_facts) (w : NetDB) (req : ChangeRequest) : ValidationInput :=
  MkInput (hf_live h) (rows w) req (if hf_lan_read h then Some (lan w) else None) defaultMgmtCIDR "" (hf_hostapd h) (hf_iwd h) (hf_ap h) (hf_sta h) (hf_country h).

(** ** The transaction *)

Definition update_row (id : Z) (f : NetworkInterface -> NetworkInterface) (l : list NetworkInterface) : list NetworkInterface :=
  (fun r => if if_ID r =? id then f r else r) <$> l.

Definition SetRoleTx (id : Z) (role : InterfaceRole) (slot : UplinkSlot) : list NetworkInterface -> list NetworkInterface := update_row id (set_role role slot).

Definition copy_intent (row : NetworkInterface) : NetworkInterface -> NetworkInterface :=
  set_intent (if_Method row) (if_StaticAddress row) (if_StaticGateway row) (if_GatewayOnLink row) (if_DNSServer row) (if_DNSServer2 row) (if_DNSDomains row)
    (if_LearnedGateway row).
Definition SaveWANIntent (row : NetworkInterface) : list NetworkInterface -> list NetworkInterface := update_row (if_ID row) (copy_intent row).

Definition First (id : Z) (l : list NetworkInterface) : option NetworkInterface := head (filter (fun r => if_ID r = id) l).

(** The row as the request leaves it. *)
Definition requested (req : ChangeRequest) (row : NetworkInterface) : NetworkInterface :=
  let row' := set_role (q_Role req) (q_Slot req) row in
  match WANChange req row with
  | Some c => SetWAN c row'
  | None =>
      if is_role RoleWAN (q_Role req) && IsSecondary (q_Slot req)
      then set_intent (if_Method row) (if_StaticAddress row) (if_StaticGateway row) (if_GatewayOnLink row) "" "" "" (if_LearnedGateway row) row'
      else row'
  end.

Definition assign (req : ChangeRequest) (l : list NetworkInterface) : option (list NetworkInterface) :=
  let l := match q_EvictID req with Some e => SetRoleTx e RoleUnassigned SlotNone l | None => l end in
  match First (q_InterfaceID req) l with
  | None => None
  | Some row => Some (SaveWANIntent (requested req row) (SetRoleTx (q_InterfaceID req) (q_Role req) (q_Slot req) l))
  end.

(** [Apply] as far as the rows: the verdict that stops it, or the transaction. *)
Definition stops (req : ChangeRequest) (v : Verdict) : bool :=
  match v_Level v with LevelReject => true | LevelConfirm => negb (q_Confirmed req) | LevelWarn => false end.

Definition Apply (h : host_facts) (req : ChangeRequest) (w : NetDB) : option string * NetDB :=
  match find (stops req) (Validate (validationInput h w req)) with
  | Some v => (Some (v_Rule v), w)
  | None => match assign req (rows w) with Some l => (None, MkNet l (lan w) (last_if w)) | None => (Some "record not found", w) end
  end.

(** ** The LAN's own edit, and the rescan *)

Definition UpdateLAN (cfg : LANConfig) (w : NetDB) : list Verdict * NetDB :=
  let vs := ValidateLANConfig cfg (rows w) defaultMgmtCIDR in
  if Rejected vs then (vs, w) else (vs, MkNet (rows w) cfg (last_if w)).

(** A device as the agent lists it. *)
Record NetInterface := MkFound { n_Key : string; n_KeyKind : string; n_IfName : string; n_Source : string; n_Phy : string; n_USBSpeedMbit : Z; n_Assignable : bool }.

Definition refresh_row (d : NetInterface) (r : NetworkInterface) : NetworkInterface :=
  MkIf (if_ID r) (if_Key r) (n_KeyKind d) (n_IfName d) (n_Source d) (if_SourceOverride r) (if_PhyName r) (if_USBSpeedMbit r) (if_Role r) (if_Slot r)
    (if_MasterID r) (if_Method r) (if_StaticAddress r) (if_StaticGateway r) (if_GatewayOnLink r) (if_DNSServer r) (if_DNSServer2 r)
    (if_DNSDomains r) (if_Ephemeral r) (if_LearnedGateway r) true.
(** A new row, with the columns' defaults. *)
Definition discovered (id : Z) (d : NetInterface) : NetworkInterface :=
  MkIf id (n_Key d) (n_KeyKind d) (n_IfName d) (n_Source d) "" (n_Phy d) (n_USBSpeedMbit d) RoleUnassigned SlotNone None MethodDHCP4 "" "" false "" "" ""
    false "" true.

Definition Upsert (d : NetInterface) (w : NetDB) : NetDB :=
  match head (filter (fun r => if_Key r = n_Key d) (rows w)) with
  | Some e => MkNet (update_row (if_ID e) (refresh_row d) (rows w)) (lan w) (last_if w)
  | None => MkNet (rows w ++ [discovered (last_if w + 1) d]) (lan w) (last_if w + 1)
  end.

Definition set_present (b : bool) (r : NetworkInterface) : NetworkInterface :=
  MkIf (if_ID r) (if_Key r) (if_KeyKind r) (if_IfName r) (if_Source r) (if_SourceOverride r) (if_PhyName r) (if_USBSpeedMbit r) (if_Role r) (if_Slot r)
    (if_MasterID r) (if_Method r) (if_StaticAddress r) (if_StaticGateway r) (if_GatewayOnLink r) (if_DNSServer r) (if_DNSServer2 r)
    (if_DNSDomains r) (if_Ephemeral r) (if_LearnedGateway r) b.
Definition MarkAbsent (keys : list string) (w : NetDB) : NetDB :=
  MkNet ((fun r => if if_Present r && negb (bool_decide (if_Key r ∈ keys)) then set_present false r else r) <$> rows w) (lan w) (last_if w).

Definition refreshInterfaces (found : list NetInterface) (w : NetDB) : NetDB :=
  let ports := filter (fun d => n_Assignable d = true /\ n_IfName d <> ManagedBridgeName) found in
  MarkAbsent (n_Key <$> ports) (foldl (fun w d => Upsert d w) w ports).

(** ** The operator's intent *)

Record InterfaceIntent := MkIntent {
  ii_ID : Z; ii_Role : InterfaceRole; ii_Slot : UplinkSlot; ii_MasterID : option Z; ii_Method : string; ii_StaticAddress : string; ii_StaticGateway : string;
  ii_GatewayOnLink : bool; ii_DNSServer : string; ii_DNSServer2 : string; ii_DNSDomains : string; ii_LearnedGateway : string
}.
Definition intent_of (r : NetworkInterface) : InterfaceIntent :=
  MkIntent (if_ID r) (if_Role r) (if_Slot r) (if_MasterID r) (if_Method r) (if_StaticAddress r) (if_StaticGateway r) (if_GatewayOnLink r) (if_DNSServer r)
    (if_DNSServer2 r) (if_DNSDomains r) (if_LearnedGateway r).
Definition CaptureInterfaceIntent (l : list NetworkInterface) : list InterfaceIntent := intent_of <$> l.

Definition put_intent (ii : InterfaceIntent) (r : NetworkInterface) : NetworkInterface :=
  MkIf (if_ID r) (if_Key r) (if_KeyKind r) (if_IfName r) (if_Source r) (if_SourceOverride r) (if_PhyName r) (if_USBSpeedMbit r) (ii_Role ii) (ii_Slot ii)
    (ii_MasterID ii) (ii_Method ii) (ii_StaticAddress ii) (ii_StaticGateway ii) (ii_GatewayOnLink ii) (ii_DNSServer ii) (ii_DNSServer2 ii)
    (ii_DNSDomains ii) (if_Ephemeral r) (ii_LearnedGateway ii) (if_Present r).
Definition RestoreInterfaceIntent (snap : list InterfaceIntent) (l : list NetworkInterface) : list NetworkInterface :=
  let l := foldl (fun l ii => update_row (ii_ID ii) (set_role RoleUnassigned SlotNone) l) l snap in
  foldl (fun l ii => update_row (ii_ID ii) (put_intent ii) l) l snap.

(** ** Port forwards *)

Record pf_facts := MkPFFacts { pff_panel : Z; pff_hub : Z; pff_inbounds : string -> list Z; pff_lan : option LANConfig; pff_keys : list string }.

Definition checkPortForward (h : pf_facts) (existing : list PortForward) (pf : PortForward) (confirmed : bool) : bool :=
  let vs := ValidatePortForward (MkPFI existing pf (match pff_lan h with Some l => lan_CIDR l | None => "" end) (pff_panel h) (pff_hub h) 22 (pff_inbounds h) (pff_keys h)) in
  negb (Rejected vs) && (confirmed || negb (needsConfirm vs)).

(** The id of a created row is the table's: the insert names its columns. *)
Definition CreatePortForward (h : pf_facts) (id : Z) (pf : PortForward) (confirmed : bool) (l : list PortForward) : list PortForward :=
  if checkPortForward h l pf confirmed
  then l ++ [MkPF id (f_UplinkKey pf) (f_Proto pf) (f_DPort pf) (f_ToAddr pf) (f_ToPort pf) (f_Enabled pf)] else l.
Definition UpdatePortForward (h : pf_facts) (pf : PortForward) (confirmed : bool) (l : list PortForward) : list PortForward :=
  if checkPortForward h l pf confirmed then (fun r => if f_ID r =? f_ID pf then pf else r) <$> l else l.
Definition DeletePortForward (id : Z) (l : list PortForward) : list PortForward := filter (fun r => f_ID r <> id) l.

(** ** What the rows promise *)

(** The two unique indices of the database, and slots where they belong. *)
Definition indices (l : list NetworkInterface) : Prop :=
  (forall a b, a ∈ l -> b ∈ l -> if_Role a = if_Role b -> IsSingleton (if_Role a) = true -> if_ID a = if_ID b) /\
  (forall a b, a ∈ l -> b ∈ l -> if_Role a = RoleWAN -> if_Role b = RoleWAN -> if_Slot a = if_Slot b -> if_ID a = if_ID b) /\
  (forall a, a ∈ l -> if is_role RoleWAN (if_Role a) then IsDomestic (if_Slot a) || IsSecondary (if_Slot a) = true else if_Slot a = SlotNone).

(** The LAN shares no address with a range it may not. *)
Definition lan_clear (lan : LANConfig) (l : list NetworkInterface) : Prop :=
  lan_CIDR lan <> "" -> exists p, ParsePrefix (lan_CIDR lan) = Some p /\
    forall f q x, f ∈ forbidden l defaultMgmtCIDR -> ParsePrefix f = Some q -> addr_ok x -> Contains (unmap4in6 p) x = true -> Contains (unmap4in6 q) x = false.

Definition net_ok (w : NetDB) : Prop :=
  indices (rows w) /\ lan_clear (lan w) (rows w) /\ NoDup (if_ID <$> rows w) /\ Forall (fun r => if_ID r <= last_if w) (rows w).

Inductive net_step : NetDB -> NetDB -> Prop :=
| net_apply h req w : hf_lan_read h = true -> net_step w (Apply h req w).2
| net_lan cfg w : net_step w (UpdateLAN cfg w).2
| net_scan found w : net_step w (refreshInterfaces found w).

(** ** The transaction, row by row *)

Definition evicted (req : ChangeRequest) (r : NetworkInterface) : NetworkInterface :=
  if bool_decide (q_EvictID req = Some (if_ID r)) then set_role RoleUnassigned SlotNone r else r.
Definition effect (req : ChangeRequest) (r : NetworkInterface) : NetworkInterface :=
  if if_ID r =? q_InterfaceID req then requested req (evicted req r) else evicted req r.

Lemma evicted_ID req r : if_ID (evicted req r) = if_ID r.
Proof. unfold evicted. by case_bool_decide. Qed.
Lemma requested_ID req r : if_ID (requested req r) = if_ID r.
Proof. unfold requested. destruct (WANChange req r); [done|]. by destruct (_ && _). Qed.
Lemma effect_ID req r : if_ID (effect req r) = if_ID r.
Proof. unfold effect. destruct (_ =? _); rewrite ?requested_ID; apply evicted_ID. Qed.

Lemma requested_role req r : if_Role (requested req r) = q_Role req /\ if_Slot (requested req r) = q_Slot req.
Proof. unfold requested. destruct (WANChange req r); [done|]. by destruct (_ && _). Qed.

Lemma copy_requested req r : copy_intent (requested req r) (set_role (q_Role req) (q_Slot req) r) = requested req r.
Proof. unfold requested. destruct (WANChange req r); [done|]. by destruct (_ && _). Qed.

Lemma effect_role req r :
  if_Role (effect req r) = if if_ID r =? q_InterfaceID req then q_Role req else if bool_decide (q_EvictID req = Some (if_ID r)) then RoleUnassigned else if_Role r.
Proof. unfold effect. destruct (_ =? _); [apply requested_role|]. unfold evicted. by case_bool_decide. Qed.
Lemma effect_slot req r :
  if_Slot (effect req r) = if if_ID r =? q_InterfaceID req then q_Slot req else if bool_decide (q_EvictID req = Some (if_ID r)) then SlotNone else if_Slot r.
Proof. unfold effect. destruct (_ =? _); [apply requested_role|]. unfold evicted. by case_bool_decide. Qed.

Lemma evict_rows req l : match q_EvictID req with Some e => SetRoleTx e RoleUnassigned SlotNone l | None => l end = evicted req <$> l.
Proof.
  destruct (q_EvictID req) as [e|] eqn:He.
  - apply list_fmap_ext. intros _ r _. unfold evicted. rewrite He.
    destruct (Z.eqb_spec (if_ID r) e) as [->|Hne]; [by rewrite bool_decide_eq_true_2|]. rewrite bool_decide_eq_false_2; [done|]. congruence.
  - symmetry. erewrite list_fmap_ext; [apply list_fmap_id|]. intros _ r _. unfold evicted. by rewrite He.
Qed.

(** The transaction rewrites each row on its own. *)
Lemma assign_spec req l l' : NoDup (if_ID <$> l) -> assign req l = Some l' -> l' = effect req <$> l.
Proof.
  intros Hnd. unfold assign. rewrite evict_rows. destruct (First _ _) as [row|] eqn:Hf; [|done]. intros [= <-].
  apply head_Some_elem_of, list_elem_of_filter in Hf as [Hid (r0 & -> & H0)%list_elem_of_fmap]. rewrite evicted_ID in Hid.
  unfold SaveWANIntent, SetRoleTx, update_row. rewrite requested_ID, evicted_ID, Hid, <-!list_fmap_compose.
  apply list_fmap_ext. intros k r Hr%list_elem_of_lookup_2. unfold effect. simpl. rewrite evicted_ID.
  destruct (Z.eqb_spec (if_ID r) (q_InterfaceID req)) as [He|Hne]; simpl; rewrite ?evicted_ID.
  - assert (r = r0) as -> by (apply (NoDup_fmap_inj_on if_ID l); congruence). rewrite He, Z.eqb_refl. apply copy_requested.
  - by rewrite (proj2 (Z.eqb_neq _ _) Hne).
Qed.

(** ** Static addresses as validated and as stored *)

Lemma WANChange_static req a b :
  match WANChange req a, WANChange req b with
  | Some c, Some d => w_Method c = w_Method d /\ w_StaticAddress c = w_StaticAddress d
  | None, None => True
  | _, _ => False
  end.
Proof. unfold WANChange. destruct (q_WAN req); [done|]. case_bool_decide; [done|]. by destruct (IsSecondary _). Qed.

Lemma effect_static req t r : if_ID t = q_InterfaceID req ->
  if_Role (effect req r) = if_Role (propose req t r) /\ if_StaticAddress (effect req r) = if_StaticAddress (propose req t r).
Proof.
  intros Ht. unfold effect, propose. fold (evicted req r). rewrite Ht, evicted_ID. destruct (_ =? _); [|done].
  split; [rewrite (proj1 (requested_role _ _)); by destruct (WANChange req t)|].
  unfold requested. pose proof (WANChange_static req (evicted req r) t) as H.
  destruct (WANChange req (evicted req r)) as [c|], (WANChange req t) as [d|]; try done.
  - destruct H as [Hm Hs]. simpl. rewrite Hm, Hs. done.
  - by destruct (_ && _).
Qed.

Lemma static_wans_ext (f g : NetworkInterface -> NetworkInterface) l :
  (forall r, r ∈ l -> if_Role (f r) = if_Role (g r) /\ if_StaticAddress (f r) = if_StaticAddress (g r)) -> static_wans (f <$> l) = static_wans (g <$> l).
Proof.
  unfold static_wans. induction l as [|r l IH]; intros H; [done|]. destruct (H r ltac:(left)) as [Hr Hs].
  assert (if_StaticAddress <$> filter (fun r => if_Role r = RoleWAN /\ if_StaticAddress r <> "") (f <$> l) =
    if_StaticAddress <$> filter (fun r => if_Role r = RoleWAN /\ if_StaticAddress r <> "") (g <$> l)) as Hl by (apply IH; intros; apply H; by right).
  rewrite !fmap_cons, !filter_cons, Hr, Hs. case_decide; rewrite ?fmap_cons, Hl; [by rewrite Hs|done].
Qed.

(** ** Every step keeps the promise *)

Lemma applied h req w : (Apply h req w).2 = w \/
  (Rejected (Validate (validationInput h w req)) = false /\ exists l, assign req (rows w) = Some l /\ (Apply h req w).2 = MkNet l (lan w) (last_if w)).
Proof.
  unfold Apply. destruct (find _ _) as [v|] eqn:Hf; [by left|]. destruct (assign _ _) as [l|] eqn:Ha; [right|by left]. split; [|eauto].
  apply not_true_iff_false. intros (v & Hv & Hl%bool_decide_eq_true)%existsb_exists. pose proof (find_none _ _ Hf v Hv) as H.
  unfold stops in H. by rewrite Hl in H.
Qed.

Lemma assigned_indices h req w l : Rejected (Validate (validationInput h w req)) = false -> NoDup (if_ID <$> rows w) -> assign req (rows w) = Some l ->
  indices (rows w) -> indices l.
Proof.
  intros Hacc Hnd Has (H1 & H2 & H3). apply accepted_spec in Hacc as (t & Ht & Hg & _ & _ & Hl & _). apply byID_Some in Ht as [_ Ht].
  rewrite (assign_spec _ _ _ Hnd Has). cbn [validationInput i_Req] in Ht. split_and!.
  - intros a b (r & -> & Hr)%list_elem_of_fmap (s & -> & Hs)%list_elem_of_fmap. rewrite !effect_ID, !effect_role. intros He Hsing.
    destruct (Z.eqb_spec (if_ID r) (q_InterfaceID req)) as [Er|Er], (Z.eqb_spec (if_ID s) (q_InterfaceID req)) as [Es|Es]; [congruence|..].
    + case_bool_decide as Hev; [by rewrite He in Hsing|]. destruct Hev. apply (passed_V8 _ _ Hg s); simpl; congruence.
    + case_bool_decide as Hev; [done|]. destruct Hev. rewrite He in Hsing. apply (passed_V8 _ _ Hg r); simpl; congruence.
    + case_bool_decide; [done|]. case_bool_decide; [by rewrite He in Hsing|]. by apply H1.
  - intros a b (r & -> & Hr)%list_elem_of_fmap (s & -> & Hs)%list_elem_of_fmap. rewrite !effect_ID, !effect_role, !effect_slot. intros Ha Hb Hsl.
    destruct (Z.eqb_spec (if_ID r) (q_InterfaceID req)) as [Er|Er], (Z.eqb_spec (if_ID s) (q_InterfaceID req)) as [Es|Es]; [congruence|..].
    + case_bool_decide as Hev; [done|]. destruct Hev. apply (passed_V25 _ _ Hl s); simpl; congruence.
    + case_bool_decide as Hev; [done|]. destruct Hev. apply (passed_V25 _ _ Hl r); simpl; congruence.
    + case_bool_decide; [done|]. case_bool_decide; [done|]. by apply H2.
  - intros a (r & -> & Hr)%list_elem_of_fmap. rewrite effect_role, effect_slot. destruct (_ =? _); [apply (passed_V20 _ _ Hl)|].
    case_bool_decide; [done|]. by apply H3.
Qed.

Lemma assigned_lan h req w l : hf_lan_read h = true -> Rejected (Validate (validationInput h w req)) = false -> NoDup (if_ID <$> rows w) ->
  assign req (rows w) = Some l -> lan_clear (lan w) l.
Proof.
  intros Hread Hacc Hnd Has. apply accepted_spec in Hacc as (t & Ht & _ & Hlan & _). apply byID_Some in Ht as [_ Ht].
  cbn [validationInput i_Req i_LAN i_Rows i_MgmtCIDR] in *. rewrite Hread in Hlan. specialize (Hlan _ eq_refl). intros Hne.
  pose proof (lan_passed _ _ _ Hlan Hne) as H. unfold forbidden in *.
  rewrite (assign_spec _ _ _ Hnd Has), (static_wans_ext _ (propose req t)); [exact H|]. intros r _. by apply effect_static.
Qed.

(** Steps that keep every row's id, role, slot and static address. *)
Lemma kept_indices l k : (forall r, r ∈ k -> exists q, q ∈ l /\ if_ID r = if_ID q /\ if_Role r = if_Role q /\ if_Slot r = if_Slot q) -> indices l -> indices k.
Proof.
  intros Hk (H1 & H2 & H3). split_and!.
  - intros a b (q & Hq & -> & -> & _)%Hk (s & Hs & -> & -> & _)%Hk. by apply H1.
  - intros a b (q & Hq & -> & -> & ->)%Hk (s & Hs & -> & -> & ->)%Hk. by apply H2.
  - intros a (q & Hq & _ & -> & ->)%Hk. by apply H3.
Qed.

Lemma kept_ok (f : NetworkInterface -> NetworkInterface) w :
  (forall r, if_ID (f r) = if_ID r /\ if_Role (f r) = if_Role r /\ if_Slot (f r) = if_Slot r /\ if_StaticAddress (f r) = if_StaticAddress r) ->
  net_ok w -> net_ok (MkNet (f <$> rows w) (lan w) (last_if w)).
Proof.
  intros Hf (Hi & Hl & Hnd & Hle). split_and!; simpl.
  - eapply kept_indices; [|exact Hi]. intros r (q & -> & Hq)%list_elem_of_fmap. exists q. by destruct (Hf q) as (? & ? & ? & _).
  - unfold lan_clear, forbidden in *. rewrite (static_wans_ext f id), list_fmap_id by (intros r _; by destruct (Hf r) as (_ & ? & _ & ?)). exact Hl.
  - rewrite <-list_fmap_compose. rewrite (list_fmap_ext _ if_ID); [done|]. intros _ r _. apply Hf.
  - apply Forall_fmap. eapply Forall_impl; [exact Hle|]. intros r Hr. simpl. by rewrite (proj1 (Hf r)).
Qed.

Lemma Upsert_ok d w : net_ok w -> net_ok (Upsert d w).
Proof.
  intros Hw. unfold Upsert. destruct (head _) as [e|] eqn:He; [apply kept_ok; [|done]; intros r; by destruct (_ =? _)|].
  destruct Hw as (Hi & Hl & Hnd & Hle). destruct Hi as (H1 & H2 & H3). rewrite Forall_forall in Hle.
  assert (forall r, r ∈ rows w ++ [discovered (last_if w + 1) d] -> r ∈ rows w \/ if_Role r = RoleUnassigned /\ if_Slot r = SlotNone) as Hin.
  { intros r [?|Hr%list_elem_of_singleton]%elem_of_app; [by left|]. subst. by right. }
  split_and!; [split_and!|..]; simpl.
  - intros a b [Ha|[Ha _]]%Hin [Hb|[Hb _]]%Hin Heq Hs; [by apply H1|rewrite Heq, Hb in Hs; done|rewrite Ha in Hs; done..].
  - intros a b [Ha|[Ha _]]%Hin [Hb|[Hb _]]%Hin Wa Wb; [by apply H2|by rewrite Hb in Wb|by rewrite Ha in Wa..].
  - intros a [Ha|[Ha Hs]]%Hin; [by apply H3|]. by rewrite Ha, Hs.
  - unfold lan_clear, forbidden, static_wans in *. rewrite filter_app, fmap_app. simpl. by rewrite app_nil_r.
  - rewrite fmap_app. apply NoDup_app. split_and!; [done| |apply NoDup_singleton].
    intros x Hx. apply list_elem_of_fmap in Hx as (r & -> & Hr). intros Hx%list_elem_of_singleton. specialize (Hle r Hr). simpl in *. lia.
  - apply Forall_app. split; [|repeat constructor; simpl; lia]. apply Forall_forall. intros r Hr. specialize (Hle r Hr). simpl in *. lia.
Qed.

Lemma step_ok w w' : net_step w w' -> net_ok w -> net_ok w'.
Proof.
  intros [h req w0 Hread|cfg w0|found w0] Hw.
  - destruct (applied h req w0) as [->|(Hacc & l & Has & ->)]; [done|]. destruct Hw as (Hi & Hl & Hnd & Hle). split_and!; simpl.
    + by eapply assigned_indices.
    + by eapply assigned_lan.
    + rewrite (assign_spec _ _ _ Hnd Has), <-list_fmap_compose. rewrite (list_fmap_ext _ if_ID); [done|]. intros _ r _. apply effect_ID.
    + rewrite (assign_spec _ _ _ Hnd Has). apply Forall_fmap. eapply Forall_impl; [exact Hle|]. intros r Hr. simpl. by rewrite effect_ID.
  - unfold UpdateLAN. destruct (Rejected _) eqn:Hr; [done|]. destruct Hw as (Hi & _ & Hnd & Hle). split_and!; try done.
    intros Hne. by apply lan_passed.
  - unfold refreshInterfaces, MarkAbsent. apply kept_ok; [intros r; by destruct (_ && _)|]. apply foldl_keeps; [|done]. intros; by apply Upsert_ok.
Qed.

Lemma fresh_ok : net_ok (MkNet [] DefaultLANConfig 0).
Proof.
  split_and!; [split_and!; intros a; intros; by apply elem_of_nil in H| |constructor..]. intros Hne. apply lan_passed; [vm_compute; reflexivity|done].
Qed.

Lemma run_ok w w' : rtc net_step w w' -> net_ok w -> net_ok w'.
Proof. induction 1 as [|w1 w2 w3 Hstep _ IH]; [done|]. intros Hok. by apply IH, (step_ok w1). Qed.

(** C15. The rows always satisfy the database's unique indices, and the LAN is
    clear of every range it may not touch. From a fresh box, through any sequence of
    role changes (accepted or refused), edits of the LAN and rescans of the devices,
    at most one interface holds the LAN role and at most one the management role,
    no two uplinks hold the same slot, uplinks hold a slot and nothing else does,
    and no address of the LAN is in a reserved range, the management subnet or the
    static subnet of a WAN. A role change counts here as one whose validation could
    read the LAN's row. *)
Theorem roles_sound (w : NetDB) (Hrun : rtc net_step (MkNet [] DefaultLANConfig 0) w) : indices (rows w) /\ lan_clear (lan w) (rows w).
Proof. by destruct (run_ok _ _ Hrun fresh_ok) as (Hi & Hl & _). Qed.

(** ** Rolling back *)

(** Updates by id, row by row. *)
Definition per_row (f : InterfaceIntent -> NetworkInterface -> NetworkInterface) (snap : list InterfaceIntent) (r : NetworkInterface) : NetworkInterface :=
  foldl (fun r ii => if if_ID r =? ii_ID ii then f ii r else r) r snap.

Lemma foldl_per_row f snap l : foldl (fun l ii => update_row (ii_ID ii) (f ii) l) l snap = per_row f snap <$> l.
Proof.
  revert l. induction snap as [|ii snap IH]; intros l; simpl; [symmetry; apply list_fmap_id|]. rewrite IH. unfold update_row.
  by rewrite <-list_fmap_compose.
Qed.

Lemma per_row_none f snap r : if_ID r ∉ (ii_ID <$> snap) -> per_row f snap r = r.
Proof.
  induction snap as [|ii snap IH]; [done|]. rewrite fmap_cons, not_elem_of_cons. intros [Hne Hn]. unfold per_row. cbn [foldl].
  rewrite (proj2 (Z.eqb_neq _ _) Hne). by apply IH.
Qed.

Lemma per_row_one f snap r ii : (forall ii r, if_ID (f ii r) = if_ID r) -> NoDup (ii_ID <$> snap) -> ii ∈ snap -> if_ID r = ii_ID ii -> per_row f snap r = f ii r.
Proof.
  intros Hf. revert r. induction snap as [|jj snap IH]; intros r; [by intros _ ?%elem_of_nil|]. rewrite fmap_cons. intros [Hn Hnd]%NoDup_cons Hin Hid.
  apply elem_of_cons in Hin as [->|Hin]; unfold per_row; cbn [foldl].
  - rewrite (proj2 (Z.eqb_eq _ _) Hid). apply per_row_none. by rewrite Hf, Hid.
  - rewrite (proj2 (Z.eqb_neq _ _)); [by apply IH|]. intros He. apply Hn. apply list_elem_of_fmap. exists ii. split; congruence.
Qed.

Lemma step_ids w w' : net_step w w' -> net_ok w -> exists k, if_ID <$> rows w' = (if_ID <$> rows w) ++ k.
Proof.
  intros [h req w0 Hread|cfg w0|found w0] Hw.
  - exists []. rewrite app_nil_r. destruct (applied h req w0) as [->|(_ & l & Has & ->)]; [done|]. simpl.
    rewrite (assign_spec _ _ _ (proj1 (proj2 (proj2 Hw))) Has), <-list_fmap_compose. apply list_fmap_ext. intros _ r _. apply effect_ID.
  - exists []. rewrite app_nil_r. unfold UpdateLAN. by destruct (Rejected _).
  - unfold refreshInterfaces, MarkAbsent. simpl. set (ports := filter _ found). clearbody ports.
    assert (forall w, exists k, if_ID <$> rows (foldl (fun w d => Upsert d w) w ports) = (if_ID <$> rows w) ++ k) as H.
    { clear. induction ports as [|d ports IH]; intros w; simpl; [exists []; by rewrite app_nil_r|]. destruct (IH (Upsert d w)) as [k ->].
      unfold Upsert. destruct (head _) as [e|]; simpl.
      - exists k. f_equal. unfold update_row. rewrite <-list_fmap_compose. apply list_fmap_ext. intros _ r _. simpl. by destruct (_ =? _).
      - exists (last_if w + 1 :: k). by rewrite fmap_app, <-app_assoc. }
    destruct (H w0) as [k Hk]. exists k. rewrite <-Hk, <-list_fmap_compose. apply list_fmap_ext. intros _ r _. simpl. by destruct (_ && _).
Qed.

Lemma run_ids w w' : rtc net_step w w' -> net_ok w -> exists k, if_ID <$> rows w' = (if_ID <$> rows w) ++ k.
Proof.
  induction 1 as [w|w1 w2 w3 Hstep _ IH]; intros Hw; [exists []; by rewrite app_nil_r|]. destruct IH as [k ->]; [by eapply step_ok|].
  destruct (step_ids _ _ Hstep Hw) as [k' ->]. exists (k' ++ k). by rewrite <-app_assoc.
Qed.

Lemma intent_put r r' : if_ID r' = if_ID r -> intent_of (put_intent (intent_of r) r') = intent_of r.
Proof. intros Hid. unfold intent_of, put_intent. simpl. by rewrite Hid. Qed.


(** ** The management role *)

Lemma mgmt_refused i : q_Role (i_Req i) = RoleMgmt -> Rejected (Validate i) = true.
Proof.
  intros Hr. apply not_false_iff_true. intros (t & _ & Hg & _)%accepted_spec. pose proof (passed_V4 i t Hg) as H. rewrite Hr in H.
  specialize (H ltac:(done)). unfold SourceAllows in H. repeat (case_bool_decide; try done). 
Qed.

(** No interface can be given the management role. The matrix of sources and
    roles allows it to none, so every such request is refused, and no box that began
    fresh ever has a management port, although the panel warns until one is
    reserved. *)
Theorem mgmt_unreachable (w : NetDB) (Hrun : rtc net_step (MkNet [] DefaultLANConfig 0) w) :
  (forall h req, q_Role req = RoleMgmt -> exists rule, (Apply h req w).1 = Some rule) /\ forall r, r ∈ rows w -> if_Role r <> RoleMgmt.
Proof.
  split.
  - intros h req Hr. unfold Apply. pose proof (mgmt_refused (validationInput h w req) Hr) as (v & Hv & Hl%bool_decide_eq_true)%existsb_exists.
    destruct (find _ _) eqn:Hf; [by eexists|]. pose proof (find_none _ _ Hf v Hv) as H. unfold stops in H. by rewrite Hl in H.
  - assert (forall r, r ∈ rows (MkNet [] DefaultLANConfig 0) -> if_Role r <> RoleMgmt) as H0 by (intros r Hr; by apply elem_of_nil in Hr).
    pose proof fresh_ok as Hok. revert Hok H0. induction Hrun as [|w1 w2 w3 Hstep _ IH]; [done|]. intros Hok H0. apply IH; [by eapply step_ok|].
    clear IH. destruct Hstep as [h req w Hread|cfg w|found w].
    + destruct (applied h req w) as [->|(Hacc & l & Has & ->)]; [done|]. simpl. rewrite (assign_spec _ _ _ (proj1 (proj2 (proj2 Hok))) Has).
      intros r (q & -> & Hq)%list_elem_of_fmap. rewrite effect_role. destruct (_ =? _); [|case_bool_decide; [done|by apply H0]].
      intros Hr. by rewrite (mgmt_refused (validationInput h w req) Hr) in Hacc.
    + unfold UpdateLAN. by destruct (Rejected _).
    + unfold refreshInterfaces, MarkAbsent. simpl. intros r (q & -> & Hq)%list_elem_of_fmap.
      assert (if_Role q <> RoleMgmt) as Hrole; [|by destruct (_ && _)]. revert q Hq.
      apply (foldl_keeps (fun w => forall q, q ∈ rows w -> if_Role q <> RoleMgmt)); [|done]. intros w' d Hw' q. unfold Upsert.
      destruct (head _) as [e|]; simpl.
      * intros (r0 & -> & Hr0)%list_elem_of_fmap. destruct (_ =? _); exact (Hw' r0 Hr0).
      * intros [Hq|Hq%list_elem_of_singleton]%elem_of_app; [by apply Hw'|]. by subst.
Qed.

(** ** Port forwards never take the same port *)

(** Two forwards that answer on the same port of some uplink. *)
Definition same_port (a b : PortForward) : bool :=
  bool_decide (f_Proto a = f_Proto b) && (f_DPort a =? f_DPort b) && sameUplink (f_UplinkKey a) (f_UplinkKey b).

Definition forwards_ok (l : list PortForward) : Prop :=
  Forall (fun r => 0 < f_ID r) l /\
  forall a b, a ∈ l -> b ∈ l -> f_Enabled a = true -> f_Enabled b = true -> same_port a b = true -> f_ID a = f_ID b.

(** A creation whose body names no id, an update or a deletion, confirmed or not. *)
Inductive pf_step : list PortForward -> list PortForward -> Prop :=
| pf_create h id pf confirmed l : f_ID pf = 0 -> 0 < id -> Forall (fun r => f_ID r <> id) l -> pf_step l (CreatePortForward h id pf confirmed l)
| pf_update h pf confirmed l : pf_step l (UpdatePortForward h pf confirmed l)
| pf_delete id l : pf_step l (DeletePortForward id l).

Lemma same_port_sym a b : same_port a b = same_port b a.
Proof.
  unfold same_port, sameUplink. rewrite (bool_decide_ext (f_Proto a = f_Proto b) (f_Proto b = f_Proto a)), (Z.eqb_sym (f_DPort a)) by done.
  rewrite (bool_decide_ext (f_UplinkKey a = f_UplinkKey b) (f_UplinkKey b = f_UplinkKey a)) by done.
  by destruct (nonempty (f_UplinkKey a)), (nonempty (f_UplinkKey b)).
Qed.

Lemma checked h l pf confirmed : checkPortForward h l pf confirmed = true ->
  forall r, r ∈ l -> f_Enabled r = true -> same_port r pf = true -> f_ID r = f_ID pf.
Proof.
  unfold checkPortForward. intros [Hr _]%andb_true_iff r Hin Hen Hs. apply negb_true_iff in Hr. apply dec_stable. intros Hne.
  assert (existsb (collides pf) l = true) as Hc.
  { apply existsb_exists. exists r. rewrite <-list_elem_of_In. split; [done|]. unfold collides, same_port in *.
    by rewrite (proj2 (Z.eqb_neq _ _) Hne), Hen. }
  unfold ValidatePortForward in Hr. cbn [pi_New pi_Existing] in Hr. rewrite Hc in Hr.
  repeat (case_match; try discriminate).
Qed.

Lemma put_forward l pf : forwards_ok l -> 0 < f_ID pf ->
  (forall r, r ∈ l -> f_Enabled r = true -> f_Enabled pf = true -> same_port r pf = true -> f_ID r = f_ID pf) ->
  forall k, (forall r, r ∈ k -> r ∈ l \/ r = pf) -> forwards_ok k.
Proof.
  intros [Hpos Hok] Hid Hpf k Hk. rewrite Forall_forall in Hpos. split.
  - apply Forall_forall. intros r [Hr| ->]%Hk; [by apply Hpos|done].
  - intros a b [Ha| ->]%Hk [Hb| ->]%Hk Ea Eb Hs; [by apply Hok|by apply Hpf| |done].
    symmetry. apply Hpf; [done..|]. by rewrite same_port_sym.
Qed.

(** Two enabled port forwards never take the same port. Through any sequence
    of creations, updates and deletions, accepted or refused, confirmed or not, no
    two enabled forwards have the same protocol and external port on an uplink they
    share, a forward of no uplink being one of every uplink, as long as no creation
    carries an id of its own. *)
Theorem forwards_disjoint (l : list PortForward) (Hrun : rtc pf_step [] l) (a b : PortForward) (Ha : a ∈ l) (Hb : b ∈ l)
    (Hea : f_Enabled a = true) (Heb : f_Enabled b = true) (Hport : same_port a b = true) : f_ID a = f_ID b.
Proof.
  assert (forwards_ok l) as [_ H]; [|by apply H]. clear a b Ha Hb Hea Heb Hport.
  assert (forwards_ok []) as H0 by (split; [constructor|intros a b Ha; by apply elem_of_nil in Ha]). revert H0.
  induction Hrun as [|l1 l2 l3 Hstep _ IH]; [done|]. intros Hok. apply IH. clear IH. destruct Hstep as [h id pf confirmed l Hz Hid Hfresh|h pf confirmed l|id l].
  - unfold CreatePortForward. destruct (checkPortForward _ _ _ _) eqn:Hc; [|done]. pose proof (checked _ _ _ _ Hc) as Hck.
    set (pf' := MkPF _ _ _ _ _ _ _). eapply (put_forward l pf'); [done|done| |].
    + intros r Hr Hen _ Hs. specialize (Hck r Hr Hen Hs). destruct Hok as [Hpos _]. rewrite Forall_forall in Hpos. specialize (Hpos r Hr). simpl in Hpos. lia.
    + intros r [Hr|Hr%list_elem_of_singleton]%elem_of_app; auto.
  - unfold UpdatePortForward. destruct (checkPortForward _ _ _ _) eqn:Hc; [|done]. pose proof (checked _ _ _ _ Hc) as Hck.
    destruct (decide (0 < f_ID pf)) as [Hp|Hnp].
    + eapply (put_forward l pf); [done|done|by intros; apply Hck|]. intros r (q & -> & Hq)%list_elem_of_fmap. destruct (_ =? _); auto.
    + rewrite (list_fmap_ext _ id), list_fmap_id; [done|]. intros k r Hr%list_elem_of_lookup_2. destruct Hok as [Hpos _]. rewrite Forall_forall in Hpos.
      specialize (Hpos r Hr). simpl in Hpos. rewrite (proj2 (Z.eqb_neq _ _)) by lia. done.
  - unfold DeletePortForward. destruct Hok as [Hpos Hok]. split; [rewrite Forall_forall in *; intros r [_ Hr]%list_elem_of_filter; by apply Hpos|].
    intros a b [_ Ha]%list_elem_of_filter [_ Hb]%list_elem_of_filter. by apply Hok.
Qed.

(** ** A box of three ports *)

Definition facts0 : host_facts := MkFacts (fun _ => []) true true (fun _ => true) (fun _ => true) "DE" true.
Definition port (n : string) : NetInterface := MkFound ("mac-" +:+ n) "permaddr" n "eth_pci" "" 1000 true.
Definition ask (id : Z) (role : InterfaceRole) (slot : UplinkSlot) (wan : option WANConfig) (evict master : option Z) : ChangeRequest :=
  MkReq "" wan id role slot evict true master "" "" "" "" "".
Definition static_wan (addr : string) (mode : string) : WANConfig := MkWAN MethodStatic addr "203.0.113.1" false mode [].

Definition box0 : NetDB := refreshInterfaces [port "eth0"; port "eth1"; port "eth2"] (MkNet [] DefaultLANConfig 0).
(** Each request in turn, with what stopped it if anything did. *)
Fixpoint apply_all (reqs : list ChangeRequest) (w : NetDB) : list (option string) * NetDB :=
  match reqs with
  | [] => ([], w)
  | r :: reqs => let '(e, w) := Apply facts0 r w in let '(es, w) := apply_all reqs w in (e :: es, w)
  end.

Definition assigned : list (option string) * NetDB :=
  apply_all [ask 1 RoleWAN SlotDomestic (Some (static_wan "203.0.113.10/24" "default")) None None; ask 2 RoleLAN SlotNone None None None] box0.

Example assigned_ok : assigned.1 = [None; None] /\ (if_Role <$> rows assigned.2) = [RoleWAN; RoleLAN; RoleUnassigned].
Proof. vm_compute. done. Qed.

Lemma box0_run : rtc net_step (MkNet [] DefaultLANConfig 0) box0.
Proof. apply rtc_once. apply net_scan. Qed.

Lemma apply_all_run reqs w : rtc net_step w (apply_all reqs w).2.
Proof.
  revert w. induction reqs as [|r reqs IH]; intros w; simpl; [done|]. destruct (Apply facts0 r w) as [e w'] eqn:He.
  specialize (IH w'). destruct (apply_all reqs w') as [es w'']. eapply rtc_l; [|exact IH]. change w' with (e, w').2. rewrite <-He. by apply net_apply.
Qed.

Lemma roles_sound_witness : indices (rows assigned.2) /\ lan_clear (lan assigned.2) (rows assigned.2).
Proof. apply roles_sound. transitivity box0; [apply box0_run|apply apply_all_run]. Defined.


Lemma mgmt_unreachable_witness : exists rule, (Apply facts0 (ask 3 RoleMgmt SlotNone None None None) assigned.2).1 = Some rule.
Proof. apply mgmt_unreachable; [|done]. transitivity box0; [apply box0_run|apply apply_all_run]. Defined.

(** An eviction can take the last uplink. Clearing the only uplink is refused
    (V16); but a request that clears an unused port and names the uplink as the one
    to evict is accepted, and the box has no uplink left: the interface to evict is
    never checked to hold what is asked for. *)
Theorem evict_takes_last_uplink :
  (Apply facts0 (ask 1 RoleUnassigned SlotNone None None None) assigned.2).1 = Some "V16" /\
  (Apply facts0 (ask 3 RoleUnassigned SlotNone None (Some 1) None) assigned.2).1 = None /\
  filter (fun r => if_Role r = RoleWAN) (rows (Apply facts0 (ask 3 RoleUnassigned SlotNone None (Some 1) None) assigned.2).2) = [].
Proof. vm_compute. done. Qed.

(** A role-only change can make two WANs overlap. A static address that
    overlaps another WAN's is refused (WAN_overlap); but an interface that kept its
    static address while it was unassigned becomes a WAN again by a change of role
    alone, and its subnet is then not compared with the other WAN's. *)
Theorem role_only_overlap :
  let other := ask 3 RoleWAN SlotSecondary (Some (static_wan "203.0.113.20/24" "vpn")) None None in
  let dhcp := ask 3 RoleWAN SlotSecondary (Some (MkWAN MethodDHCP4 "" "" false "vpn" [])) None None in
  (Apply facts0 other assigned.2).1 = Some "WAN_overlap" /\
  let r := apply_all [dhcp; ask 1 RoleUnassigned SlotNone None None None; other; ask 1 RoleWAN SlotDomestic None None None] assigned.2 in
  r.1 = [None; None; None; None] /\ static_wans (rows r.2) = ["203.0.113.10/24"; "203.0.113.20/24"].
Proof. vm_compute. done. Qed.

(** The master a LAN member must name is checked and not stored. *)
Lemma master_not_stored :
  let req := ask 3 RoleLANMember SlotNone None None (Some 2) in
  (Apply facts0 req assigned.2).1 = None /\ (if_MasterID <$> byID (rows (Apply facts0 req assigned.2).2) 3) = Some None.
Proof. vm_compute. done. Qed.

Definition pf_facts0 : pf_facts := MkPFFacts 2053 2054 (fun _ => []) (Some DefaultLANConfig) ["mac-eth0"].
Definition forward (id : Z) (to : string) : PortForward := MkPF id "" "tcp" 8080 to 80 true.

Lemma forwards_disjoint_witness : rtc pf_step [] (CreatePortForward pf_facts0 1 (forward 0 "10.77.0.5") false []) /\ f_ID (forward 1 "10.77.0.5") = 1.
Proof.
  assert (rtc pf_step [] (CreatePortForward pf_facts0 1 (forward 0 "10.77.0.5") false [])) as Hrun by (apply rtc_once, pf_create; [done|done|constructor]).
  split; [exact Hrun|]. apply (forwards_disjoint _ Hrun (forward 1 "10.77.0.5") (forward 1 "10.77.0.5")); vm_compute; try reflexivity; left.
Defined.

(** A creation that carries an id passes the collision check. A second
    forward of a taken port is refused; with the first one's id in its body the
    check takes it for that forward, and the row is inserted under an id of its own:
    two enabled forwards take the same port. *)
Theorem create_named_collides :
  let l := CreatePortForward pf_facts0 1 (forward 0 "10.77.0.5") false [] in
  CreatePortForward pf_facts0 2 (forward 0 "10.77.0.6") false l = l /\
  CreatePortForward pf_facts0 2 (forward 1 "10.77.0.6") false l = [forward 1 "10.77.0.5"; forward 2 "10.77.0.6"] /\
  same_port (forward 1 "10.77.0.5") (forward 2 "10.77.0.6") = true.
Proof. vm_compute. done. Qed.
