(* ===== verification/BridgeSpec.v ===== *)
(** * The bridge's spec

    The contract between the hub and its bridge program, of
    internal/remotenodes/bridgespec (spec.go, frame.go): the spec, the checks the
    bridge makes on it and the frame it is sent in. An error keeps the field it is
    about. encoding/json on a spec is a pair of parameters; what is relied on is
    that what was written reads back.

    Lemmas: the checks of the nodes are the nodes' own checks, one by one, and that
    nothing is taken twice ([check_nodes_ok]). Theorem: a spec that is sent is read
    back, and nothing beyond its frame ([frame_roundtrip]). *)

From S2P Require Import Prelude GoString GoUnicode GoNetip.

Definition Version : Z := 1.
Definition MaxNodes : nat := 16.
Definition MaxBlocked : nat := 256.
Definition MaxDNSServers : nat := 8.
Definition ExitTag : string := "exit".
Definition DNSTag : string := "dns".
Definition VisionFlow : string := "xtls-rprx-vision".

Record SpecNode := MkSpecNode {
  sn_Tag : string; sn_Addr : string; sn_Port : Z; sn_UUID : string; sn_PublicKey : string; sn_ShortID : string; sn_ServerName : string;
  sn_Fingerprint : string; sn_Flow : string; sn_ReverseTag : string
}.
#[export] Instance SpecNode_eq_dec : EqDecision SpecNode.
Proof. solve_decision. Defined.

Record Spec := MkSpec {
  sp_Version : Z; sp_Nodes : list SpecNode; sp_DialAddr : string; sp_ExitAddr : string; sp_Blocked : list string; sp_Servers : list string;
  sp_StatusAddr : string; sp_LogLevel : string
}.

Definition DefaultBlocked : list string :=
  ["0.0.0.0/8"; "10.0.0.0/8"; "100.64.0.0/10"; "127.0.0.0/8"; "169.254.0.0/16";
   "172.16.0.0/12"; "192.0.0.0/24"; "192.0.2.0/24"; "192.88.99.0/24"; "192.168.0.0/16";
   "198.18.0.0/15"; "198.51.100.0/24"; "203.0.113.0/24"; "224.0.0.0/3";
   "::/127"; "fc00::/7"; "fe80::/10"; "ff00::/8"].
Definition BlockedOrDefault (l : list string) : list string := match l with [] => DefaultBlocked | _ => l end.
Definition LogLevelOrDefault (s : string) : string := if bool_decide (s = "") then "warning" else s.
Definition logLevels : list string := ["debug"; "info"; "warning"; "error"; "none"].

(** ** The patterns *)

Definition lower (c : ascii) : bool := between 97 122 (code c).
Definition upper (c : ascii) : bool := between 65 90 (code c).
Definition dig (c : ascii) : bool := between 48 57 (code c).
Definition hexd (c : ascii) : bool := match hex_val c with Some _ => true | None => false end.
Definition one_of (s : string) (c : ascii) : bool := bool_decide (c ∈ to_bytes s).
Definition size_in (lo hi : nat) (l : bytes) : bool := (lo <=? length l)%nat && (length l <=? hi)%nat.

Definition tagRe (s : string) : bool :=
  match to_bytes s with
  | [] => false
  | c :: l => (lower c || dig c) && size_in 0 62 l && forallb (fun c => lower c || dig c || one_of "._-" c) l
  end.

(** The digits of a UUID, in groups of these sizes. *)
Fixpoint groups_of (sizes : list nat) (l : bytes) : bool :=
  match sizes with
  | [] => false
  | [n] => (length l =? n)%nat && forallb hexd l
  | n :: sizes => forallb hexd (take n l) && match drop n l with "-"%char :: l' => (length (take n l) =? n)%nat && groups_of sizes l' | _ => false end
  end.
Definition uuidRe (s : string) : bool := groups_of [8; 4; 4; 4; 12]%nat (to_bytes s).
Definition shortIDRe (s : string) : bool := let l := to_bytes s in size_in 2 16 l && Nat.even (length l) && forallb hexd l.
Definition fingerprintRe (s : string) : bool := let l := to_bytes s in size_in 1 32 l && forallb (fun c => lower c || dig c || one_of "_" c) l.

Definition alnum (c : ascii) : bool := lower c || upper c || dig c.
Definition labelRe (s : string) : bool :=
  let l := to_bytes s in
  size_in 1 63 l && forallb (fun c => alnum c || one_of "-" c) l && match head l, last l with Some a, Some b => alnum a && alnum b | _, _ => false end.

(** [base64.RawURLEncoding.DecodeString] gives 32 bytes: 43 letters of the
    alphabet, line ends aside. *)
Definition key32 (s : string) : bool :=
  let l := filter (fun c => c <> "010"%char /\ c <> "013"%char) (to_bytes s) in
  (length l =? 43)%nat && forallb (fun c => alnum c || one_of "-_" c) l.

Definition validHostname (s : string) : bool :=
  if bool_decide (s = "") || (253 <? String.length s)%nat then false else
  match ParseAddr s with Some _ => false | None => forallb labelRe (split_dots s) end.

(** ** Addresses *)

Definition IsUnspecified (a : ipaddr) : bool := match a with IP4 n => n =? 0 | IP6 n z => (n =? 0) && bool_decide (z = "") end.
Definition IsMulticast (a : ipaddr) : bool := match Unmap a with IP4 n => n / 2 ^ 28 =? 14 | IP6 n _ => n / 2 ^ 120 =? 255 end.
Definition IsLoopback (a : ipaddr) : bool := match Unmap a with IP4 n => n / 2 ^ 24 =? 127 | IP6 n _ => n =? 1 end.

(** [netip.ParseAddrPort]: the address in front of the last colon, an IPv6 one in
    brackets. *)
Definition ParseAddrPort (s : string) : option (ipaddr * Z) :=
  '(ip, port) ← cut_last ":" s;
  if bool_decide (ip = "") || bool_decide (port = "") then None else
  '(ip, six) ← match to_bytes ip with
               | "["%char :: l => if (length l =? 0)%nat || negb (bool_decide (last l = Some "]"%char)) then None else Some (of_bytes (removelast l), true)
               | _ => Some (ip, false)
               end;
  p ← parse_unsigned port;
  if 65535 <? p then None else
  a ← ParseAddr ip;
  if Bool.eqb six (Is4 a) then None else Some (a, p).

Inductive spec_error :=
| EVersion | ELogLevel | EDial | EExit | ESameAddr | EBlockedMany | EBlocked (raw : string) | EDNSNone | EDNSMany | EServer (raw : string) | EStatus
| ENodesNone | ENodesMany | ETag (tag : string) | ENode (field tag : string).

Definition parseIP (e : spec_error) (s : string) : result spec_error ipaddr :=
  match ParseAddr s with
  | Some a => if hasZone a then Err e else let a := Unmap a in if IsUnspecified a || IsMulticast a then Err e else Ok a
  | None => Err e
  end.

Definition ParseServer (s : string) : option (ipaddr * Z) :=
  match ParseAddrPort s with
  | Some (a, p) => if p =? 0 then None else Some (Unmap a, p)
  | None => match ParseAddr s with Some a => if hasZone a then None else Some (Unmap a, 53) | None => None end
  end.

(** ** The checks *)

Definition parse_range (raw : string) : result spec_error prefix :=
  match ParsePrefix raw with Some p => if Is4In6 (pf_ip p) then Err (EBlocked raw) else Ok p | None => Err (EBlocked raw) end.
Definition parseBlocked (l : list string) : result spec_error (list prefix) :=
  if (MaxBlocked <? length l)%nat then Err EBlockedMany else
  foldM (fun acc raw => rbind (fun p => Ok (acc ++ [p])) (parse_range raw)) [] l.

Definition check_server (exit : ipaddr) (blocked : list prefix) (raw : string) : result spec_error unit :=
  match ParseServer raw with
  | None => Err (EServer raw)
  | Some (a, _) =>
      refuse (IsUnspecified a || IsMulticast a || negb (Bool.eqb (Is4 a) (Is4 exit)) || existsb (fun p => Contains p a) blocked) (EServer raw)
  end.
Definition validateDNS (servers : list string) (exit : ipaddr) (blocked : list prefix) : result spec_error unit :=
  if (length servers =? 0)%nat then Err EDNSNone else
  if (MaxDNSServers <? length servers)%nat then Err EDNSMany else
  foldM (fun _ raw => check_server exit blocked raw) tt servers.

Definition claim (tag : string) (used : list string) : result spec_error (list string) :=
  if negb (tagRe tag) then Err (ETag tag) else if bool_decide (tag ∈ used) then Err (ETag tag) else Ok (tag :: used).

(** What a node is refused for on its own, once its tags and its place are
    taken. *)
Definition node_fault (n : SpecNode) : option string :=
  if negb (uuidRe (sn_UUID n)) then Some "uuid" else
  if negb (key32 (sn_PublicKey n)) then Some "public_key" else
  if negb (shortIDRe (sn_ShortID n)) then Some "short_id" else
  if negb (validHostname (sn_ServerName n)) then Some "server_name" else
  if negb (bool_decide (sn_Fingerprint n = "")) && negb (fingerprintRe (sn_Fingerprint n)) then Some "fingerprint" else
  if negb (bool_decide (sn_Flow n = "")) && negb (bool_decide (sn_Flow n = VisionFlow)) then Some "flow" else None.

Definition check_node (dial : ipaddr) (acc : list string * list (ipaddr * Z)) (n : SpecNode) : result spec_error (list string * list (ipaddr * Z)) :=
  rbind (fun used => rbind (fun used => rbind (fun addr =>
    if negb (Bool.eqb (Is4 addr) (Is4 dial)) then Err (ENode "addr" (sn_Tag n)) else
    if sn_Port n =? 0 then Err (ENode "port" (sn_Tag n)) else
    if bool_decide ((addr, sn_Port n) ∈ acc.2) then Err (ENode "addr" (sn_Tag n)) else
    match node_fault n with Some field => Err (ENode field (sn_Tag n)) | None => Ok (used, (addr, sn_Port n) :: acc.2) end)
    (parseIP (ENode "addr" (sn_Tag n)) (sn_Addr n))) (claim (sn_ReverseTag n) used)) (claim (sn_Tag n) acc.1).

Definition validateNodes (nodes : list SpecNode) (dial : ipaddr) : result spec_error unit :=
  if (length nodes =? 0)%nat then Err ENodesNone else
  if (MaxNodes <? length nodes)%nat then Err ENodesMany else
  rbind (fun _ => Ok tt) (foldM (check_node dial) ([DNSTag; ExitTag], []) nodes).

(** Everything but the nodes: the dial address it found. *)
Definition validate_base (s : Spec) : result spec_error ipaddr :=
  (refuse (negb (sp_Version s =? Version)) EVersion ;;~
   refuse (negb (bool_decide (LogLevelOrDefault (sp_LogLevel s) ∈ logLevels))) ELogLevel ;;~
   (dial <~ parseIP EDial (sp_DialAddr s) ;;
    exit <~ parseIP EExit (sp_ExitAddr s) ;;
    refuse (bool_decide (dial = exit) && negb (IsLoopback dial)) ESameAddr ;;~
    (blocked <~ parseBlocked (BlockedOrDefault (sp_Blocked s)) ;;
     validateDNS (sp_Servers s) exit blocked ;;~
     match ParseAddrPort (sp_StatusAddr s) with
     | Some (a, p) => if negb (IsLoopback a) || (p =? 0) then Err EStatus else Ok dial
     | None => Err EStatus
     end)))%go.

Definition Validate (s : Spec) : result spec_error unit := rbind (fun dial => validateNodes (sp_Nodes s) dial) (validate_base s).

(** ** What the checks of the nodes mean *)

(** A node's address, and where it is dialled. *)
Definition addr_of (n : SpecNode) : ipaddr := match ParseAddr (sn_Addr n) with Some a => Unmap a | None => IP4 0 end.
Definition place (n : SpecNode) : ipaddr * Z := (addr_of n, sn_Port n).
Definition tags_of (nodes : list SpecNode) : list string := nodes ≫= fun n => [sn_Tag n; sn_ReverseTag n].

(** What a node needs whatever the others are. *)
Definition node_own (dial : ipaddr) (n : SpecNode) : Prop :=
  tagRe (sn_Tag n) = true /\ tagRe (sn_ReverseTag n) = true /\ (exists a, parseIP (ENode "addr" (sn_Tag n)) (sn_Addr n) = Ok a) /\
  Is4 (addr_of n) = Is4 dial /\ sn_Port n <> 0 /\ node_fault n = None.

Lemma parseIP_addr e n a : parseIP e (sn_Addr n) = Ok a -> a = addr_of n.
Proof.
  unfold parseIP, addr_of. destruct (ParseAddr (sn_Addr n)) as [b|]; [|done]. destruct (hasZone b); [done|].
  destruct (_ || _); [done|]. by intros [= <-].
Qed.

Lemma claim_Ok tag used used' : claim tag used = Ok used' <-> tagRe tag = true /\ tag ∉ used /\ used' = tag :: used.
Proof. unfold claim. destruct (tagRe tag); simpl; [|split; [done|by intros [? _]]].
  case_bool_decide; split; [done|by intros (_ & ? & _)|by intros [= <-]|by intros (_ & _ & ->)]. Qed.

Lemma check_portal_Ok dial acc n acc' : check_node dial acc n = Ok acc' <->
  node_own dial n /\ sn_Tag n ∉ acc.1 /\ sn_ReverseTag n ∉ sn_Tag n :: acc.1 /\ place n ∉ acc.2 /\
  acc' = (sn_ReverseTag n :: sn_Tag n :: acc.1, place n :: acc.2).
Proof.
  unfold check_node. rewrite rbind_Ok. setoid_rewrite rbind_Ok. setoid_rewrite rbind_Ok. setoid_rewrite claim_Ok. split.
  - intros (u & (Ht & Hn & ->) & u' & (Hr & Hnr & ->) & a & Ha & H). pose proof (parseIP_addr _ _ _ Ha) as ->.
    destruct (Bool.eqb (Is4 (addr_of n)) (Is4 dial)) eqn:Hf; [|done]. apply eqb_prop in Hf. simpl in H.
    destruct (Z.eqb_spec (sn_Port n) 0); [done|]. case_bool_decide as Hin; [done|]. destruct (node_fault n) eqn:Hfault; [done|].
    injection H as <-. split_and!; try done. by split_and!; eauto.
  - intros ((Ht & Hr & (a & Ha) & Hf & Hp & Hfault) & Hn & Hnr & Hin & ->). eexists. split; [by split_and!|]. eexists. split; [by split_and!|].
    exists a. split; [done|]. pose proof (parseIP_addr _ _ _ Ha) as ->. rewrite Hf, eqb_reflx. simpl.
    rewrite (proj2 (Z.eqb_neq _ _) Hp). unfold place in Hin. rewrite bool_decide_eq_false_2 by done. by rewrite Hfault.
Qed.

(** The nodes pass exactly when each passes on its own and no name and no place is
    taken twice. *)
Lemma check_nodes_ok dial nodes acc : NoDup acc.1 -> NoDup acc.2 ->
  (exists acc', foldM (check_node dial) acc nodes = Ok acc') <->
  Forall (node_own dial) nodes /\ NoDup (tags_of nodes ++ acc.1) /\ NoDup ((place <$> nodes) ++ acc.2).
Proof.
  revert acc. induction nodes as [|n nodes IH]; intros acc H1 H2; cbn [foldM tags_of mbind list_bind fmap list_fmap app].
  { split; [intros _; split_and!; [constructor|done|done]|by eauto]. }
  fold (tags_of nodes). setoid_rewrite rbind_Ok. rewrite Forall_cons. split.
  - intros (acc' & a & Ha & Hf). apply check_portal_Ok in Ha as (Hown & Ht & Hr & Hp & ->). apply not_elem_of_cons in Hr as [Hne Hr].
    assert (NoDup (sn_ReverseTag n :: sn_Tag n :: acc.1)) as N1 by (apply NoDup_cons; split; [set_solver|by apply NoDup_cons]).
    assert (NoDup (place n :: acc.2)) as N2 by (by apply NoDup_cons).
    destruct (proj1 (IH (sn_ReverseTag n :: sn_Tag n :: acc.1, place n :: acc.2) N1 N2) (ex_intro _ _ Hf)) as (HF & Ht' & Hp'). cbn [fst snd] in *. split_and!; try done.
    + rewrite <-!Permutation_middle in Ht'. by rewrite (Permutation_swap (sn_ReverseTag n)).
    + by rewrite <-Permutation_middle in Hp'.
  - intros ((Hown & HF) & Ht & Hp).
    apply NoDup_cons in Ht as [Ht1 Ht]. pose proof Ht as Ht0. apply NoDup_cons in Ht as [Ht2 Ht]. pose proof Hp as Hp0. apply NoDup_cons in Hp as [Hp1 Hp].
    assert (check_node dial acc n = Ok (sn_ReverseTag n :: sn_Tag n :: acc.1, place n :: acc.2)) as Hc by (apply check_portal_Ok; set_solver).
    apply not_elem_of_app in Ht2 as [Ht2 Ht2'], Hp1 as [Hp1 Hp1'].   apply not_elem_of_cons in Ht1 as [Ht1 Ht3]. apply not_elem_of_app in Ht3 as [Ht3 Ht4].
    assert (exists acc', foldM (check_node dial) (sn_ReverseTag n :: sn_Tag n :: acc.1, place n :: acc.2) nodes = Ok acc') as [acc' Hf]; [|by eauto].
    apply IH; cbn [fst snd].
    + apply NoDup_cons. split; [set_solver|]. apply NoDup_cons. split; [set_solver|done].
    + apply NoDup_cons. split; [set_solver|done].
    + split_and!; [done| |].
      * rewrite <-!Permutation_middle, (Permutation_swap (sn_Tag n)). apply NoDup_cons. split; [|done]. rewrite elem_of_cons, elem_of_app. tauto.
      * rewrite <-Permutation_middle. exact Hp0.
Qed.

Lemma validateNodes_ok nodes dial : validateNodes nodes dial = Ok tt <->
  (0 < length nodes <= MaxNodes)%nat /\ Forall (node_own dial) nodes /\ NoDup (tags_of nodes ++ [DNSTag; ExitTag]) /\ NoDup (place <$> nodes).
Proof.
  unfold validateNodes. destruct (Nat.eqb_spec (length nodes) 0); [split; [done|lia]|]. destruct (Nat.ltb_spec MaxNodes (length nodes)); [split; [done|lia]|].
  rewrite rbind_Ok. pose proof (check_nodes_ok dial nodes ([DNSTag; ExitTag], [])) as Hnodes. cbn [fst snd] in Hnodes. rewrite app_nil_r in Hnodes.
  transitivity (exists acc', foldM (check_node dial) ([DNSTag; ExitTag], []) nodes = Ok acc');
    [split; [intros (a & Ha & _); by exists a|intros [a Ha]; by exists a]|].
  rewrite Hnodes; [split; [intros (? & ? & ?); split_and!; try done; lia|tauto]| |constructor].
  by apply (bool_decide_unpack (NoDup [DNSTag; ExitTag])).
Qed.

Lemma Validate_ok s : Validate s = Ok tt <-> exists dial, validate_base s = Ok dial /\ validateNodes (sp_Nodes s) dial = Ok tt.
Proof. apply rbind_Ok. Qed.

(** The nodes are not looked at by the other checks. *)
Definition with_spec_nodes (s : Spec) (nodes : list SpecNode) : Spec :=
  MkSpec (sp_Version s) nodes (sp_DialAddr s) (sp_ExitAddr s) (sp_Blocked s) (sp_Servers s) (sp_StatusAddr s) (sp_LogLevel s).
Lemma validate_base_nodes s nodes : validate_base (with_spec_nodes s nodes) = validate_base s.
Proof. done. Qed.

(** ** The frame *)

Definition MaxSize : Z := 65536.

(** A 32-bit length, big-endian. *)
Definition byte (z : Z) : ascii := ascii_of_N (Z.to_N (z mod 256)).
Definition PutUint32 (n : Z) : bytes := [byte (n / 2 ^ 24); byte (n / 2 ^ 16); byte (n / 2 ^ 8); byte n].
Definition Uint32 (l : bytes) : Z := foldl (fun acc c => 256 * acc + code c) 0 l.

Inductive frame_error := FSpec (e : spec_error) | FTooLarge | FEmpty | FClosed | FShort | FJSON.

Section frame.
(** encoding/json: a spec's bytes, and a spec out of bytes that hold one and
    nothing else, with no unknown field. *)
Context (Marshal : Spec -> bytes) (Decode : bytes -> option Spec).

Definition Encode (s : Spec) : result frame_error bytes :=
  match Validate s with
  | Err e => Err (FSpec e)
  | Ok _ =>
      let payload := Marshal s in
      if MaxSize <? Z.of_nat (length payload) then Err FTooLarge else Ok (PutUint32 (Z.of_nat (length payload)) ++ payload)
  end.

Definition Parse (data : bytes) : result frame_error Spec :=
  if MaxSize <? Z.of_nat (length data) then Err FTooLarge else
  match Decode data with
  | None => Err FJSON
  | Some s => match Validate s with Err e => Err (FSpec e) | Ok _ => Ok s end
  end.

(** One frame out of the input: the spec, and what is left unread. *)
Definition Read (input : bytes) : result frame_error Spec * bytes :=
  let hdr := take 4 input in
  let rest := drop 4 input in
  if (length hdr =? 0)%nat then (Err FClosed, rest) else
  if (length hdr <? 4)%nat then (Err FShort, rest) else
  let n := Uint32 hdr in
  if n =? 0 then (Err FEmpty, rest) else
  if MaxSize <? n then (Err FTooLarge, rest) else
  let payload := take (Z.to_nat n) rest in
  let rest := drop (Z.to_nat n) rest in
  if (length payload <? Z.to_nat n)%nat then (Err FShort, rest) else (Parse payload, rest).
End frame.

Lemma code_byte z : code (byte z) = z mod 256.
Proof.
  unfold code, byte. pose proof (Z.mod_pos_bound z 256 ltac:(lia)). rewrite N_ascii_embedding by lia. lia.
Qed.

Lemma Uint32_Put n : 0 <= n < 2 ^ 32 -> Uint32 (PutUint32 n) = n.
Proof. intros Hn. unfold Uint32, PutUint32. cbn [foldl]. rewrite !code_byte. clear -Hn. Z.div_mod_to_equations. lia. Qed.

(** A spec that is sent is read back, and nothing beyond its frame. Where
    encoding/json reads a spec back as it wrote it, whatever follows the frame in
    the input, the bridge gets the hub's spec and what follows stays unread; and the
    frame is never longer than the limit and its header. *)
Theorem frame_roundtrip (Marshal : Spec -> bytes) (Decode : bytes -> option Spec) (s : Spec) (frame rest : bytes)
    (Hjson : Decode (Marshal s) = Some s) (Hne : Marshal s <> []) (Henc : Encode Marshal s = Ok frame) :
  Read Decode (frame ++ rest) = (Ok s, rest) /\ Z.of_nat (length frame) <= MaxSize + 4.
Proof.
  unfold Encode in Henc. destruct (Validate s) as [[]|] eqn:Hv; [|done]. destruct (Z.ltb_spec MaxSize (Z.of_nat (length (Marshal s)))) as [|Hle]; [done|].
  set (payload := Marshal s) in *. set (n := Z.of_nat (length payload)) in *. assert (frame = PutUint32 n ++ payload) as -> by congruence. clear Henc. unfold MaxSize in *.
  assert (0 < n) by (unfold n; destruct payload; [done|simpl; lia]).
  split; [|rewrite length_app; simpl; lia].
  unfold Read. rewrite <-app_assoc. change (take 4 (PutUint32 n ++ payload ++ rest)) with (PutUint32 n).
  change (drop 4 (PutUint32 n ++ payload ++ rest)) with (payload ++ rest). rewrite Uint32_Put by lia. cbn [length PutUint32].
  change ((4 =? 0)%nat) with false. change ((4 <? 4)%nat) with false. cbn iota.
  rewrite (proj2 (Z.eqb_neq _ _)), (proj2 (Z.ltb_ge _ _)) by (unfold MaxSize; lia).
  assert (Z.to_nat n = length payload) as -> by (unfold n; lia). rewrite take_app_length, drop_app_length.
  rewrite (proj2 (Nat.ltb_ge _ _)) by done. unfold Parse. rewrite (proj2 (Z.ltb_ge _ _)) by (unfold MaxSize; lia). by rewrite Hjson, Hv.
Qed.

(** A spec the checks accept. *)
Definition demo_portal : SpecNode :=
  MkSpecNode "node-1" "198.51.101.7" 443 "00000000-0000-4000-8000-000000000000" "AAAAAAAAAAAAAAAAAAAAAAAAAAAAAAAAAAAAAAAAAAA" "00" "www.example.com" ""
    VisionFlow "rvs-to-node-1".
Definition demo_spec : Spec := MkSpec 1 [demo_portal] "192.0.3.2" "10.9.0.2" [] ["1.1.1.1"; "9.9.9.9:53"] "127.0.0.1:9100" "".

Lemma frame_roundtrip_witness :
  Read (fun b => if bool_decide (b = to_bytes "{}") then Some demo_spec else None) (PutUint32 2 ++ to_bytes "{}" ++ to_bytes "tail") = (Ok demo_spec, to_bytes "tail").
Proof.
  apply (frame_roundtrip (fun _ => to_bytes "{}") (fun b => if bool_decide (b = to_bytes "{}") then Some demo_spec else None) demo_spec
    (PutUint32 2 ++ to_bytes "{}") (to_bytes "tail")); [vm_compute; reflexivity|discriminate|vm_compute; reflexivity].
Defined.
