(* ===== verification/BridgeBuild.v ===== *)
(** * Building the bridge's spec

    internal/remotenodes/manager/spec.go and the Xray guard of versions.go: which of
    the hub's nodes the bridge can carry, what keeps each of the others out, and the
    spec made of those that are ready. The text of an address is a parameter; what
    is relied on is that it parses back.

    Theorem: the spec that is built is one the bridge accepts, of exactly the nodes
    without a gap, and no node's fault ever takes the whole spec down
    ([build_blames_nobody]). *)

From S2P Require Import Prelude GoString GoUnicode GoNetip Emails HubState BridgeSpec.

Inductive gap :=
| gapNone | gapNotRegistered | gapNoBridgeID | gapNoReality (missing : list string) | gapXrayUnknown | gapXrayMismatch (v : string)
| gapNoAddress | gapRefused (e : spec_error) | gapDuplicate (other : string).
Definition gap_ok (g : gap) : bool := match g with gapNone => true | _ => false end.

Definition tagOf (id : Z) : string := "node-" +:+ utoa id.
(** [strconv.ParseUint] in 32 bits, of a positive number. *)
Definition idOfTag (tag : string) : option Z :=
  s ← CutPrefix tag "node-"; id ← parse_unsigned s; if (2 ^ 32 <=? id) || (id =? 0) then None else Some id.

Inductive xrayState := xrayUnknown | xrayOK | xrayMismatch.
Definition checkXray (pin version : string) : xrayState :=
  if bool_decide (version = "") then xrayUnknown else if bool_decide (version = pin) then xrayOK else xrayMismatch.

Record specInput := MkSpecIn {
  in_nodes : list Node; in_xray : Node -> string; in_addr : Node -> option ipaddr; in_dial : ipaddr; in_exit : ipaddr; in_dns : list string; in_status : string
}.

Definition serverName (n : Node) : string :=
  if negb (bool_decide (RealitySNI n = "")) then RealitySNI n else
  match SplitHostPort (RealityTarget n) with Some (host, _) => host | None => "" end.

Section build.
(** The text of an address, and the version of Xray that is installed. *)
Context (AddrString : ipaddr -> string) (pin : string).

Definition lacking (b : bool) (what : string) : list string := if b then [what] else [].

Definition portalOf (n : Node) (i : specInput) : SpecNode + gap :=
  if negb (bool_decide (State_ n = NodeRegistered)) then inr gapNotRegistered else
  if bool_decide (BridgeUUID n = "") then inr gapNoBridgeID else
  let name := serverName n in
  let missing := lacking (bool_decide (RealityPublicKey n = "")) "public key" ++ lacking (bool_decide (RealityShortID n = "")) "short id" ++
                 lacking (bool_decide (name = "")) "server name" in
  if (0 <? length missing)%nat then inr (gapNoReality missing) else
  match checkXray pin (in_xray i n) with
  | xrayUnknown => inr gapXrayUnknown
  | xrayMismatch => inr (gapXrayMismatch (in_xray i n))
  | xrayOK =>
      match in_addr i n with
      | None => inr gapNoAddress
      | Some addr =>
          inl (MkSpecNode (tagOf (N_ID n)) (AddrString addr) (EntryPort n mod 2 ^ 16) (BridgeUUID n) (RealityPublicKey n) (RealityShortID n) name ""
                 VisionFlow (BridgeReverseTag (N_ID n)))
      end
  end.

(** Where a portal is dialled: its text, read back. *)
Definition dialled (p : SpecNode) : option (ipaddr * Z) := (fun a => (a, sn_Port p)) <$> ParseAddr (sn_Addr p).

Record building := MkBuild { b_gaps : gmap Z gap; b_portals : list SpecNode; b_taken : list ((ipaddr * Z) * string) }.

Definition build_step (i : specInput) (b : building) (n : Node) : building :=
  match portalOf n i with
  | inr g => MkBuild (<[N_ID n := g]> (b_gaps b)) (b_portals b) (b_taken b)
  | inl p =>
      match dialled p with
      | None => b (* the address was printed by the library: it parses *)
      | Some ap =>
          match snd <$> head (filter (fun t => t.1 = ap) (b_taken b)) with
          | Some other => MkBuild (<[N_ID n := gapDuplicate other]> (b_gaps b)) (b_portals b) (b_taken b)
          | None => MkBuild (<[N_ID n := gapNone]> (b_gaps b)) (b_portals b ++ [p]) ((ap, N_Name n) :: b_taken b)
          end
      end
  end.

Definition base_spec (i : specInput) : Spec := MkSpec Version [] (AddrString (in_dial i)) (AddrString (in_exit i)) [] (in_dns i) (in_status i) "".

Definition probe (dial : ipaddr) : SpecNode :=
  MkSpecNode "probe" (if Is4 dial then "192.0.2.1" else "2001:db8::1") 443 "00000000-0000-4000-8000-000000000000"
    "AAAAAAAAAAAAAAAAAAAAAAAAAAAAAAAAAAAAAAAAAAA" "00" "probe.example" "" "" "probe-reverse".
Definition globalFault (base : Spec) (dial : ipaddr) : result spec_error unit := Validate (with_spec_nodes base [probe dial]).

(** The second pass: each portal alone. *)
Definition keep_step (base : Spec) (acc : gmap Z gap * list SpecNode) (p : SpecNode) : gmap Z gap * list SpecNode :=
  match Validate (with_spec_nodes base [p]) with
  | Err e => (<[default 0 (idOfTag (sn_Tag p)) := gapRefused e]> acc.1, acc.2)
  | Ok _ => (acc.1, acc.2 ++ [p])
  end.

Definition buildSpec (i : specInput) : result spec_error (option Spec) * gmap Z gap :=
  let base := base_spec i in
  let b := foldl (build_step i) (MkBuild ∅ [] []) (sort_on N_ID (in_nodes i)) in
  match b_portals b with
  | [] => (Ok None, b_gaps b)
  | _ =>
      match globalFault base (in_dial i) with
      | Err e => (Err e, b_gaps b)
      | Ok _ =>
          let '(gaps, kept) := foldl (keep_step base) (b_gaps b, []) (b_portals b) in
          match kept with
          | [] => (Ok None, gaps)
          | _ =>
              let spec := with_spec_nodes base kept in
              match Validate spec with Err e => (Err e, gaps) | Ok _ => (Ok (Some spec), gaps) end
          end
      end
  end.
End build.

(** ** Names *)

Lemma utoa_inj m n : 0 <= m < 10 ^ 20 -> 0 <= n < 10 ^ 20 -> utoa m = utoa n -> m = n.
Proof. intros Hm Hn He. apply parse_utoa in Hm, Hn. congruence. Qed.

Lemma tagOf_inj m n : 0 <= m < 2 ^ 32 -> 0 <= n < 2 ^ 32 -> tagOf m = tagOf n -> m = n.
Proof. intros Hm Hn He. apply (f_equal (fun s => CutPrefix s "node-")) in He. unfold tagOf in He. rewrite !CutPrefix_app in He. apply utoa_inj; [lia..|congruence]. Qed.

Lemma idOfTag_tagOf n : 0 < n < 2 ^ 32 -> idOfTag (tagOf n) = Some n.
Proof.
  intros Hn. unfold idOfTag, tagOf. rewrite CutPrefix_app. cbn [mbind option_bind]. rewrite parse_utoa by lia. cbn [mbind option_bind].
  destruct (Z.leb_spec (2 ^ 32) n), (Z.eqb_spec n 0); try lia. done.
Qed.

Lemma reverse_inj m n : 0 <= m < 2 ^ 32 -> 0 <= n < 2 ^ 32 -> BridgeReverseTag m = BridgeReverseTag n -> m = n.
Proof.
  intros Hm Hn He. apply (f_equal (fun s => CutPrefix s "rvs-to-node-")) in He. unfold BridgeReverseTag, Itoa in He.
  rewrite (proj2 (Z.ltb_ge m 0)), (proj2 (Z.ltb_ge n 0)) in He by lia. rewrite !CutPrefix_app in He. apply utoa_inj; [lia..|congruence].
Qed.

(** ** The portals *)

Section built.
Context (AddrString : ipaddr -> string) (pin : string) (i : specInput).
Context (Hids : NoDup (N_ID <$> in_nodes i)) (Hrange : forall n, n ∈ in_nodes i -> 0 < N_ID n < 2 ^ 32).
Context (Htext : forall n a, n ∈ in_nodes i -> in_addr i n = Some a -> ParseAddr (AddrString a) = Some a /\ Unmap a = a).

Lemma portal_names n p : portalOf AddrString pin n i = inl p -> sn_Tag p = tagOf (N_ID n) /\ sn_ReverseTag p = BridgeReverseTag (N_ID n) /\ State_ n = NodeRegistered.
Proof.
  unfold portalOf. case_bool_decide as Hreg; simpl; [|done]. case_bool_decide; [done|]. destruct (_ <? _)%nat; [done|].
  destruct (checkXray _ _); try done. destruct (in_addr i n); [|done]. by intros [= <-].
Qed.

Lemma portal_gap n g : portalOf AddrString pin n i = inr g -> g <> gapNone.
Proof.
  unfold portalOf. case_bool_decide; simpl; [|by intros [= <-]]. case_bool_decide; [by intros [= <-]|]. destruct (_ <? _)%nat; [by intros [= <-]|].
  destruct (checkXray _ _); [by intros [= <-]| |by intros [= <-]]. destruct (in_addr i n); [done|by intros [= <-]].
Qed.

Lemma portal_place n p : n ∈ in_nodes i -> portalOf AddrString pin n i = inl p -> dialled p = Some (place p).
Proof.
  intros Hn. unfold portalOf. case_bool_decide as Hreg; simpl; [|done]. case_bool_decide; [done|]. destruct (_ <? _)%nat; [done|].
  destruct (checkXray _ _); try done. destruct (in_addr i n) as [a|] eqn:Ha; [|done]. intros [= <-].
  destruct (Htext n a Hn Ha) as [Hp Hu]. unfold dialled, place, addr_of. simpl. rewrite Hp. simpl. by rewrite Hu.
Qed.

Definition has_tag (n : Node) (l : list SpecNode) : Prop := exists p, p ∈ l /\ sn_Tag p = tagOf (N_ID n).

(** After the nodes [l]. *)
Definition built (l : list Node) (b : building) : Prop :=
  (forall n, n ∈ l -> b_gaps b !! N_ID n = Some gapNone <-> has_tag n (b_portals b)) /\
  (forall n, n ∈ l -> is_Some (b_gaps b !! N_ID n)) /\
  (forall p, p ∈ b_portals b -> exists n, n ∈ l /\ portalOf AddrString pin n i = inl p) /\
  NoDup (place <$> b_portals b) /\ (forall ap, ap ∈ (b_taken b).*1 <-> ap ∈ place <$> b_portals b) /\
  NoDup (sn_Tag <$> b_portals b) /\ (length (b_portals b) <= length (filter (fun n => State_ n = NodeRegistered) l))%nat.

Lemma other_tag l n p m b : built l b -> p ∈ b_portals b -> (forall q, q ∈ l -> q ∈ in_nodes i) -> m ∈ l -> n ∈ in_nodes i -> N_ID n ∉ (N_ID <$> l) -> sn_Tag p <> tagOf (N_ID n).
Proof.
  intros (_ & _ & Hp & _) Hin Hl Hm Hn Hni He. destruct (Hp p Hin) as (q & Hq & (Ht & _)%portal_names). rewrite Ht in He.
  apply tagOf_inj in He; [|pose proof (Hrange q (Hl q Hq)); lia|pose proof (Hrange n Hn); lia]. apply Hni. rewrite <-He. by apply list_elem_of_fmap_2.
Qed.

Lemma built_step l n b : (forall q, q ∈ l -> q ∈ in_nodes i) -> n ∈ in_nodes i -> N_ID n ∉ (N_ID <$> l) -> built l b -> built (l ++ [n]) (build_step AddrString pin i b n).
Proof.
  intros Hl Hn Hni Hb. pose proof Hb as (Hg & Hs & Hp & Hnd & Ht & Htag & Hlen).
  assert (forall q, q ∈ l -> N_ID q <> N_ID n) as Hne by (intros q Hq He; apply Hni; rewrite <-He; by apply list_elem_of_fmap_2).
  assert (~ has_tag n (b_portals b)) as Hno by (intros (p & Hin & He); destruct (Hp p Hin) as (q & Hq & _); by eapply (other_tag l n p q b)).
  assert (length (filter (fun n => State_ n = NodeRegistered) l) <= length (filter (fun n => State_ n = NodeRegistered) (l ++ [n])))%nat as Hlen'
    by (rewrite filter_app, length_app; lia).
  (* a node left out *)
  assert (forall g, g <> gapNone -> built (l ++ [n]) (MkBuild (<[N_ID n := g]> (b_gaps b)) (b_portals b) (b_taken b))) as Hout.
  { intros g Hgn. split_and!; simpl; try done; [| | |lia].
    - intros q [Hq|Hq%list_elem_of_singleton]%elem_of_app; [rewrite lookup_insert_ne by (by apply not_eq_sym, Hne); by apply Hg|].
      subst q. rewrite lookup_insert_eq. split; [congruence|done].
    - intros q [Hq|Hq%list_elem_of_singleton]%elem_of_app; [rewrite lookup_insert_ne by (by apply not_eq_sym, Hne); by apply Hs|].
      subst q. rewrite lookup_insert_eq. by eexists.
    - intros p Hin. destruct (Hp p Hin) as (q & Hq & He). exists q. split; [set_solver|done]. }
  unfold build_step. destruct (portalOf AddrString pin n i) as [p|g] eqn:Hpo.
  2:{ apply Hout. by eapply portal_gap. }
  rewrite (portal_place n p Hn Hpo). destruct (head _) as [t|] eqn:Hh; simpl; [by apply Hout|].
  destruct (portal_names n p Hpo) as (Hpt & _ & Hreg).
  assert (place p ∉ place <$> b_portals b) as Hfree.
  { rewrite <-Ht. intros (t & He & Hin)%list_elem_of_fmap. apply head_None in Hh.
    assert (t ∈ filter (fun t => t.1 = place p) (b_taken b)) as Hx by (by apply list_elem_of_filter). rewrite Hh in Hx. by apply elem_of_nil in Hx. }
  split_and!; simpl.
  - intros q [Hq|Hq%list_elem_of_singleton]%elem_of_app.
    + rewrite lookup_insert_ne by (by apply not_eq_sym, Hne). rewrite (Hg q Hq). unfold has_tag. split; [set_solver|].
      intros (p' & [Hin|Hin%list_elem_of_singleton]%elem_of_app & He); [by exists p'|]. subst p'. rewrite Hpt in He.
      apply tagOf_inj in He; [|pose proof (Hrange n Hn); lia|pose proof (Hrange q (Hl q Hq)); lia]. by destruct (Hne q Hq).
    + subst q. rewrite lookup_insert_eq. split; [|done]. intros _. exists p. split; [set_solver|done].
  - intros q [Hq|Hq%list_elem_of_singleton]%elem_of_app; [rewrite lookup_insert_ne by (by apply not_eq_sym, Hne); by apply Hs|].
    subst q. rewrite lookup_insert_eq. by eexists.
  - intros p' [Hin|Hin%list_elem_of_singleton]%elem_of_app; [destruct (Hp p' Hin) as (q & Hq & He); exists q; split; [set_solver|done]|].
    subst p'. exists n. split; [set_solver|done].
  - rewrite fmap_app. apply NoDup_app. split_and!; [done| |apply NoDup_singleton]. intros x Hx Hx'%list_elem_of_singleton. by subst x.
  - intros ap. rewrite fmap_app, elem_of_app, elem_of_cons, Ht. simpl. rewrite list_elem_of_singleton. tauto.
  - rewrite fmap_app. apply NoDup_app. split_and!; [done| |apply NoDup_singleton].
    intros t (p' & -> & Hin)%list_elem_of_fmap Ht'%list_elem_of_singleton. apply Hno. exists p'. split; [done|]. congruence.
  - rewrite filter_app, !length_app. simpl. rewrite filter_cons_True by done. simpl. lia.
Qed.

Lemma built_all l k b : (forall q, q ∈ l ++ k -> q ∈ in_nodes i) -> NoDup (N_ID <$> l ++ k) -> built l b -> built (l ++ k) (foldl (build_step AddrString pin i) b k).
Proof.
  revert l b. induction k as [|n k IH]; intros l b Hl Hnd Hb; simpl; [by rewrite app_nil_r|].
  rewrite (cons_middle n), app_assoc in *. apply IH; [done|done|]. apply built_step; [set_solver|set_solver| |done].
  rewrite !fmap_app in Hnd. apply NoDup_app in Hnd as (Hnd & _). apply NoDup_app in Hnd as (_ & Hd & _). intros Hin. apply (Hd _ Hin). set_solver.
Qed.

(** ** The second pass *)

Definition good (p : SpecNode) : Prop := Validate (with_spec_nodes (base_spec AddrString i) [p]) = Ok tt.
#[export] Instance good_dec p : Decision (good p).
Proof.
  unfold good. destruct (Validate _) as [[]|e]; [by left|right; discriminate].
Defined.

Lemma kept_all ps gaps acc : (forall p, p ∈ ps -> exists n, n ∈ in_nodes i /\ sn_Tag p = tagOf (N_ID n)) ->
  let r := foldl (keep_step (base_spec AddrString i)) (gaps, acc) ps in
  r.2 = acc ++ filter good ps /\
  forall n, n ∈ in_nodes i -> r.1 !! N_ID n = Some gapNone <-> gaps !! N_ID n = Some gapNone /\ ~ exists p, p ∈ ps /\ ~ good p /\ sn_Tag p = tagOf (N_ID n).
Proof.
  revert gaps acc. induction ps as [|p ps IH]; intros gaps acc Hps; cbn [foldl].
  { split; [by rewrite app_nil_r|]. intros n _. split; [|tauto]. intros H. split; [done|]. intros (p & Hp & _). by apply elem_of_nil in Hp. }
  destruct (Hps p ltac:(left)) as (m & Hm & Htag). assert (forall q, q ∈ ps -> exists n, n ∈ in_nodes i /\ sn_Tag q = tagOf (N_ID n)) as Hps' by (intros q Hq; apply Hps; by right).
  unfold keep_step at 2 4. rewrite filter_cons. cbn [fst snd]. destruct (decide (good p)) as [Hgood|Hbad].
  - pose proof Hgood as Hv. unfold good in Hv. rewrite Hv. destruct (IH gaps (acc ++ [p]) Hps') as [H2 H1]. split; [by rewrite H2, <-app_assoc|].
    intros n Hn. rewrite (H1 n Hn). setoid_rewrite elem_of_cons. naive_solver.
  - pose proof Hbad as Hv. unfold good in Hv. destruct (Validate _) as [[]|e] eqn:He; [done|]. rewrite Htag, idOfTag_tagOf by (by apply Hrange).
    destruct (IH (<[N_ID m := gapRefused e]> gaps) acc Hps') as [H2 H1]. split; [done|]. intros n Hn. simpl. rewrite (H1 n Hn). setoid_rewrite elem_of_cons.
    destruct (decide (N_ID m = N_ID n)) as [Heq|Hne].
    + rewrite Heq, lookup_insert_eq. split; [by intros [? _]|]. intros [_ Hno]. destruct Hno. exists p. rewrite Htag, Heq. auto.
    + rewrite lookup_insert_ne by done. split; intros [Hg Hno]; (split; [done|]); intros (q & Hq & Hb & Ht).
      * destruct Hq as [->|Hq]; [|apply Hno; eauto]. rewrite Htag in Ht. apply tagOf_inj in Ht; [done|pose proof (Hrange m Hm); lia|pose proof (Hrange n Hn); lia].
      * apply Hno. eauto.
Qed.

Lemma sorted_nodes : (forall q, q ∈ sort_on N_ID (in_nodes i) <-> q ∈ in_nodes i) /\ NoDup (N_ID <$> sort_on N_ID (in_nodes i)).
Proof. pose proof (sort_on_perm N_ID (in_nodes i)) as Hp. split; [intros q; by rewrite Hp|]. by rewrite Hp. Qed.

(** Distinct portals have distinct names all through. *)
Lemma tags_distinct ps : (forall p, p ∈ ps -> exists n, n ∈ in_nodes i /\ portalOf AddrString pin n i = inl p) -> NoDup (sn_Tag <$> ps) ->
  NoDup (tags_of ps ++ [DNSTag; ExitTag]).
Proof.
  intros Hps Hnd. apply NoDup_app. split_and!; [| |by apply (bool_decide_unpack (NoDup [DNSTag; ExitTag]))].
  - apply NoDup_bind; [| |by apply (NoDup_fmap_1 sn_Tag)].
    + intros p q y Hp Hq Hyp Hyq. destruct (Hps p Hp) as (m & Hm & (Hmt & Hmr & _)%portal_names), (Hps q Hq) as (n & Hn & (Hnt & Hnr & _)%portal_names).
      apply (NoDup_fmap_inj_on sn_Tag ps); [done..|]. rewrite Hmt, Hnt. pose proof (Hrange m Hm). pose proof (Hrange n Hn).
      apply elem_of_cons in Hyp as [->|Hyp%list_elem_of_singleton], Hyq as [Hyq|Hyq%list_elem_of_singleton]; [congruence|..].
      * rewrite Hmt, Hnr in Hyq. done.
      * subst y. rewrite Hmr, Hnt in Hyq. done.
      * subst y. rewrite Hmr, Hnr in Hyq. apply reverse_inj in Hyq; [congruence|lia..].
    + intros p Hp. destruct (Hps p Hp) as (m & Hm & (Hmt & Hmr & _)%portal_names). rewrite Hmt, Hmr. apply NoDup_cons. split; [|apply NoDup_singleton].
      by intros He%list_elem_of_singleton.
  - intros y (p & Hy & Hp)%list_elem_of_bind Hyd. destruct (Hps p Hp) as (m & Hm & (Hmt & Hmr & _)%portal_names). rewrite Hmt, Hmr in Hy.
    apply elem_of_cons in Hy as [->|Hy%list_elem_of_singleton]; [|subst y]; apply elem_of_cons in Hyd as [He|He%list_elem_of_singleton]; done.
Qed.

Lemma kept_valid ps : (forall p, p ∈ ps -> exists n, n ∈ in_nodes i /\ portalOf AddrString pin n i = inl p) -> NoDup (sn_Tag <$> ps) -> NoDup (place <$> ps) ->
  Forall good ps -> (0 < length ps <= MaxNodes)%nat -> Validate (with_spec_nodes (base_spec AddrString i) ps) = Ok tt.
Proof.
  intros Hps Ht Hpl Hgood Hlen. rewrite Forall_forall in Hgood.
  assert (forall p, p ∈ ps -> exists dial, validate_base (base_spec AddrString i) = Ok dial /\ node_own dial p) as Hown.
  { intros p Hp. destruct (proj1 (Validate_ok _) (Hgood p Hp)) as (dial & Hb & Hn). exists dial. split; [done|].
    apply validateNodes_ok in Hn as (_ & HF & _). cbn [sp_Nodes with_spec_nodes] in HF. by rewrite Forall_singleton in HF. }
  destruct ps as [|p0 ps0] eqn:Heq; [simpl in Hlen; lia|]. rewrite <-Heq in *. destruct (Hown p0) as (dial & Hb & _); [rewrite Heq; left|].
  apply Validate_ok. exists dial. split; [done|]. apply validateNodes_ok. cbn [sp_Nodes with_spec_nodes]. split; [done|]. split; [|split; [by apply tags_distinct|done]].
  apply Forall_forall. intros p Hp. destruct (Hown p Hp) as (dial' & Hb' & Ho). by assert (dial' = dial) as <- by congruence.
Qed.
End built.

(** C36. The spec that is built is good, and no node's fault takes it down. For
    nodes of distinct ids whose printed addresses parse back, at most sixteen of
    them registered: a spec that is returned is one the bridge accepts and carries
    exactly the nodes reported without a gap; none is returned only if every node
    has a gap; and an error is always the fault of what the spec has besides its
    nodes, found with a portal known to be good. *)
Theorem build_blames_nobody (AddrString : ipaddr -> string) (pin : string) (i : specInput)
    (Hids : NoDup (N_ID <$> in_nodes i)) (Hrange : forall n, n ∈ in_nodes i -> 0 < N_ID n < 2 ^ 32)
    (Htext : forall n a, n ∈ in_nodes i -> in_addr i n = Some a -> ParseAddr (AddrString a) = Some a /\ Unmap a = a)
    (Hcount : (length (filter (fun n => State_ n = NodeRegistered) (in_nodes i)) <= MaxNodes)%nat) :
  let '(r, gaps) := buildSpec AddrString pin i in
  match r with
  | Ok (Some s) => Validate s = Ok tt /\ forall n, n ∈ in_nodes i -> gaps !! N_ID n = Some gapNone <-> has_tag n (sp_Nodes s)
  | Ok None => forall n, n ∈ in_nodes i -> gaps !! N_ID n <> Some gapNone
  | Err e => globalFault (base_spec AddrString i) (in_dial i) = Err e
  end.
Proof.
  destruct (sorted_nodes i Hids) as [Hs Hsnd]. unfold buildSpec. set (b := foldl _ _ _).
  assert (built AddrString pin i (sort_on N_ID (in_nodes i)) b) as (Hg & _ & Hp & Hpl & _ & Ht & Hlen).
  { apply (built_all AddrString pin i Hids Hrange Htext []); [intros q; simpl; by rewrite Hs|done|]. split_and!; simpl; [by intros n Hn%elem_of_nil..|by intros p Hp%elem_of_nil|apply NoDup_nil_2|done|apply NoDup_nil_2|lia]. }
  assert (length (filter (fun n => State_ n = NodeRegistered) (sort_on N_ID (in_nodes i))) <= MaxNodes)%nat as Hcount' by (by rewrite (sort_on_perm N_ID)).
  assert (forall p, p ∈ b_portals b -> exists n, n ∈ in_nodes i /\ portalOf AddrString pin n i = inl p) as Hp'
    by (intros p Hin; destruct (Hp p Hin) as (n & Hn & He); exists n; by rewrite <-Hs).
  destruct (b_portals b) as [|p0 ps0] eqn:Hps.
  { intros n Hn He. apply Hg in He as (p & Hin & _); [by apply elem_of_nil in Hin|by apply Hs]. }
  rewrite <-Hps in *. destruct (globalFault _ _) as [[]|e] eqn:Hglob; [|done].
  destruct (kept_all AddrString i Hrange Htext (b_portals b) (b_gaps b) []) as [Hk Hgk].
  { intros p Hin. destruct (Hp' p Hin) as (n & Hn & (Htag & _)%portal_names). by exists n. }
  destruct (foldl (keep_step _) _ _) as [gaps kept] eqn:Hfold. cbn [fst snd app] in Hk, Hgk. subst kept.
  assert (forall n, n ∈ in_nodes i -> gaps !! N_ID n = Some gapNone <-> has_tag n (filter (good AddrString i) (b_portals b))) as Hfinal.
  { intros n Hn. rewrite (Hgk n Hn), Hg by (by apply Hs). split.
    - intros [(p & Hin & He) Hno]. exists p. split; [|done]. apply list_elem_of_filter. split; [|done]. apply dec_stable. intros Hb. apply Hno. by exists p.
    - intros (p & [Hgood Hin]%list_elem_of_filter & He). split; [by exists p|]. intros (q & Hq & Hb & Hqt).
      assert (p = q) as <- by (apply (NoDup_fmap_inj_on sn_Tag (b_portals b)); [done..|congruence]). done. }
  destruct (filter (good AddrString i) (b_portals b)) as [|k0 ks] eqn:Hkept.
  { intros n Hn He. apply (Hfinal n Hn) in He as (p & Hin & _). by apply elem_of_nil in Hin. }
  assert (Validate (with_spec_nodes (base_spec AddrString i) (k0 :: ks)) = Ok tt) as Hv; [|rewrite Hv; by split].
  rewrite <-Hkept. apply (kept_valid AddrString pin i Hrange).
  - intros p [_ Hin]%list_elem_of_filter. by apply Hp'.
  - eapply sublist_NoDup; [exact Ht|]. apply fmap_sublist, sublist_filter.
  - eapply sublist_NoDup; [exact Hpl|]. apply fmap_sublist, sublist_filter.
  - apply Forall_forall. by intros p [? _]%list_elem_of_filter.
  - split; [rewrite Hkept; simpl; lia|]. pose proof (length_filter (good AddrString i) (b_portals b)). lia.
Qed.

(** Two nodes, one of which the bridge's checks refuse. *)
Definition text4 (a : ipaddr) : string := String4 (number a).
Definition demo_node (id : Z) (short : string) : Node :=
  MkNode id "n" "" 22 "root" 9090 443 "amd64" NodeRegistered 0 "www.example.com:443" "" "AAAAAAAAAAAAAAAAAAAAAAAAAAAAAAAAAAAAAAAAAAA" short "" "" "1.0" 0 0 ""
    "00000000-0000-4000-8000-000000000000" noFailure.
Definition demo_in : specInput :=
  MkSpecIn [demo_node 2 "zz"; demo_node 1 "00"] (fun _ => "25.1.1") (fun n => Some (IP4 (3325256711 + N_ID n))) (IP4 3221226242) (IP4 167903234) ["1.1.1.1"] "127.0.0.1:9100".

Lemma build_blames_nobody_witness :
  Validate (with_spec_nodes (base_spec text4 demo_in) [MkSpecNode "node-1" "198.51.100.8" 443 "00000000-0000-4000-8000-000000000000"
    "AAAAAAAAAAAAAAAAAAAAAAAAAAAAAAAAAAAAAAAAAAA" "00" "www.example.com" "" VisionFlow "rvs-to-node-1"]) = Ok tt.
Proof.
  assert (forall n, n ∈ in_nodes demo_in -> n = demo_node 2 "zz" \/ n = demo_node 1 "00") as Hin.
  { intros n [->|Hn%list_elem_of_singleton]%elem_of_cons; auto. }
  pose proof (build_blames_nobody text4 "25.1.1" demo_in) as H.
  assert (buildSpec text4 "25.1.1" demo_in = (Ok (Some (with_spec_nodes (base_spec text4 demo_in) [MkSpecNode "node-1" "198.51.100.8" 443
    "00000000-0000-4000-8000-000000000000" "AAAAAAAAAAAAAAAAAAAAAAAAAAAAAAAAAAAAAAAAAAA" "00" "www.example.com" "" VisionFlow "rvs-to-node-1"])),
    (buildSpec text4 "25.1.1" demo_in).2)) as Hb by (vm_compute; reflexivity).
  rewrite Hb in H. apply H.
  - apply (bool_decide_unpack (NoDup [2; 1])). vm_compute. exact I.
  - intros n Hn. destruct (Hin n Hn) as [-> | ->]; simpl; lia.
  - intros n a Hn Ha. destruct (Hin n Hn) as [-> | ->]; injection Ha as <-; split; vm_compute; reflexivity.
  - vm_compute. lia.
Defined.
