(* ===== verification/BridgeCtl.v ===== *)
(** * The bridge's supervisor and its manager

    internal/remotenodes/bridgectl/supervisor.go, which keeps one bridge process
    running, and internal/remotenodes/manager/bridge.go, which tells it what to run.
    The loop of the supervisor is a goroutine that waits for its child, for a timer
    or for a command; each wake is a step, and so are the death of a process and the
    calls of [Start], [Update] and [Stop], which are serialized. What a step finds
    outside (the time, whether a program starts and under which id, how it ended) is
    an argument. The status page, the output and the log are left out.

    Theorems: at most one bridge process ever lives, it runs the spec the supervisor
    was last given, and the reported state is true ([one_bridge]); a program that
    keeps dying is restarted after waits that double up to the limit
    ([backoff_doubles]); and what the manager looks at it makes so: no plan, no
    process; a plan, the supervisor holds it or a retry is due ([bridge_in_step]). *)

From S2P Require Import Prelude GoUnicode GoNetip AlertEngine BridgeSpec BridgeBuild.

(** ** The supervisor *)

Inductive SupState := StateStopped | StateRunning | StateBackoff.
#[export] Instance SupState_eq_dec : EqDecision SupState.
Proof. solve_decision. Defined.

Record Backoff := MkBackoff { bo_Min : Z; bo_Max : Z; bo_Healthy : Z }.
Definition DefaultBackoff : Backoff := MkBackoff (sec 1) (sec 30) (sec 60).
(** [New] refuses any other. *)
Definition backoff_ok (b : Backoff) : bool := (0 <? bo_Min b) && (bo_Min b <=? bo_Max b) && (0 <? bo_Healthy b).

(** A child: its process, the frame it was given, and how it ended once it has. *)
Record child := MkChild { ch_pid : Z; ch_frame : bytes; ch_err : option string }.

Inductive waiting := OnChild (c : child) | OnTimer (deadline : Z).
Record loop_state := MkLoop { lp_wait : waiting; lp_delay : Z; lp_startedAt : Z }.

Record Supervisor := MkSup {
  su_run : option loop_state; su_state : SupState; su_frame : bytes; su_pid : Z; su_started : Z; su_launches : Z;
  su_lastExit : string; su_lastExitAt : option Z; su_retryAt : option Z;
  procs : list Z (* the bridge processes alive on the host *)
}.
Definition stopped : Supervisor := MkSup None StateStopped [] 0 0 0 "" None None [].

Definition with_run (r : option loop_state) (s : Supervisor) : Supervisor :=
  MkSup r (su_state s) (su_frame s) (su_pid s) (su_started s) (su_launches s) (su_lastExit s) (su_lastExitAt s) (su_retryAt s) (procs s).

(** Starting the program: its process id, or why it could not be started. *)
Definition outcome := result string Z.

Definition launch (frame : bytes) (now : Z) (o : outcome) (s : Supervisor) : result string child * Supervisor :=
  match o with
  | Err e => (Err e, s)
  | Ok pid => (Ok (MkChild pid frame None),
               MkSup (su_run s) StateRunning (su_frame s) pid now (su_launches s + 1) (su_lastExit s) (su_lastExitAt s) None (procs s ++ [pid]))
  end.

Definition noteExit (what : string) (now : Z) (retryAt : option Z) (s : Supervisor) : Supervisor :=
  MkSup (su_run s) StateBackoff (su_frame s) 0 (su_started s) (su_launches s) what (Some now) retryAt (procs s).

(** Asking the child to stop, and killing it if it does not: it is gone. *)
Definition terminate (c : child) (how : string) (now : Z) (s : Supervisor) : Supervisor :=
  let s := MkSup (su_run s) (su_state s) (su_frame s) (su_pid s) (su_started s) (su_launches s) (su_lastExit s) (su_lastExitAt s) (su_retryAt s)
             (filter (fun p => p <> ch_pid c) (procs s)) in
  noteExit (default how (ch_err c)) now None s.

Definition finish (s : Supervisor) : Supervisor :=
  MkSup None StateStopped (su_frame s) 0 (su_started s) (su_launches s) (su_lastExit s) (su_lastExitAt s) None (procs s).

Section supervisor.
Context (b : Backoff).

(** No child: the timer is set for [delay] from now. *)
Definition wait_backoff (delay startedAt now : Z) (s : Supervisor) : Supervisor :=
  MkSup (Some (MkLoop (OnTimer (now + delay)) delay startedAt)) StateBackoff (su_frame s) (su_pid s) (su_started s) (su_launches s) (su_lastExit s)
    (su_lastExitAt s) (Some (now + delay)) (procs s).

(** The loop sees that its child has ended. *)
Definition on_exit (now : Z) (s : Supervisor) : Supervisor :=
  match su_run s with
  | Some (MkLoop (OnChild c) delay startedAt) =>
      match ch_err c with
      | Some what =>
          let delay := if bo_Healthy b <=? now - startedAt then bo_Min b else delay in
          wait_backoff delay startedAt now (noteExit what now (Some (now + delay)) s)
      | None => s
      end
  | _ => s
  end.

(** The timer fires: the wait doubles, and the program is started again. *)
Definition on_timer (now : Z) (o : outcome) (s : Supervisor) : Supervisor :=
  match su_run s with
  | Some (MkLoop (OnTimer deadline) delay startedAt) =>
      if now <? deadline then s else
      let delay := Z.min (delay * 2) (bo_Max b) in
      match launch (su_frame s) now o s with
      | (Ok c, s) => with_run (Some (MkLoop (OnChild c) delay now)) s
      | (Err e, s) =>
          wait_backoff delay startedAt now
            (MkSup (su_run s) (su_state s) (su_frame s) (su_pid s) (su_started s) (su_launches s) e (Some now) (su_retryAt s) (procs s))
      end
  | _ => s
  end.

Definition set_frame (frame : bytes) (s : Supervisor) : Supervisor :=
  MkSup (su_run s) (su_state s) frame (su_pid s) (su_started s) (su_launches s) (su_lastExit s) (su_lastExitAt s) (su_retryAt s) (procs s).

(** [handle] and what the loop does after it; [how] is how a child that was
    stopped ended. *)
Definition handle_update (frame : bytes) (how : string) (now : Z) (o : outcome) (l : loop_state) (s : Supervisor) : option string * Supervisor :=
  let s := match lp_wait l with OnChild c => terminate c how now s | OnTimer _ => s end in
  let s := set_frame frame s in
  match launch frame now o s with
  | (Ok c, s) => (None, with_run (Some (MkLoop (OnChild c) (bo_Min b) now)) s)
  | (Err e, s) => (Some e, wait_backoff (bo_Min b) now now s)
  end.

Definition handle_stop (how : string) (now : Z) (l : loop_state) (s : Supervisor) : Supervisor :=
  finish (match lp_wait l with OnChild c => terminate c how now s | OnTimer _ => s end).

Definition startLocked (frame : bytes) (now : Z) (o : outcome) (s : Supervisor) : option string * Supervisor :=
  match su_run s with
  | Some _ => (Some "bridgectl: already started", s)
  | None =>
      let s := MkSup None (su_state s) frame (su_pid s) (su_started s) 0 "" None (su_retryAt s) (procs s) in
      match launch frame now o s with
      | (Ok c, s) => (None, with_run (Some (MkLoop (OnChild c) (bo_Min b) now)) s)
      | (Err e, s) => (Some e, s)
      end
  end.

(** The encoding of a spec may be refused. *)
Definition Start (enc : result string bytes) (now : Z) (o : outcome) (s : Supervisor) : option string * Supervisor :=
  match enc with Err e => (Some e, s) | Ok frame => startLocked frame now o s end.

Definition Update (enc : result string bytes) (how : string) (now : Z) (o : outcome) (s : Supervisor) : option string * Supervisor :=
  match enc with
  | Err e => (Some e, s)
  | Ok frame => match su_run s with None => startLocked frame now o s | Some l => handle_update frame how now o l s end
  end.

Definition Stop (how : string) (now : Z) (s : Supervisor) : Supervisor :=
  match su_run s with None => s | Some l => handle_stop how now l s end.

(** A process of the host dies by itself. *)
Definition dies (pid : Z) (how : string) (s : Supervisor) : Supervisor :=
  let mark c := if ch_pid c =? pid then match ch_err c with None => MkChild (ch_pid c) (ch_frame c) (Some how) | Some _ => c end else c in
  let run := match su_run s with
             | Some l => match lp_wait l with OnChild c => Some (MkLoop (OnChild (mark c)) (lp_delay l) (lp_startedAt l)) | OnTimer _ => Some l end
             | None => None
             end in
  let s := with_run run s in
  MkSup (su_run s) (su_state s) (su_frame s) (su_pid s) (su_started s) (su_launches s) (su_lastExit s) (su_lastExitAt s) (su_retryAt s) (filter (fun p => p <> pid) (procs s)).

(** A program that is started gets an id no living process of ours has, and not
    zero. *)
Definition fresh_pid (o : outcome) (s : Supervisor) : Prop := match o with Ok pid => pid ∉ procs s /\ 0 < pid | Err _ => True end.

Inductive sup_step : Supervisor -> Supervisor -> Prop :=
| sup_start enc now o s : fresh_pid o s -> sup_step s (Start enc now o s).2
| sup_update enc how now o s : fresh_pid o s -> sup_step s (Update enc how now o s).2
| sup_stop how now s : sup_step s (Stop how now s)
| sup_dies pid how s : sup_step s (dies pid how s)
| sup_exit now s : sup_step s (on_exit now s)
| sup_timer now o s : fresh_pid o s -> sup_step s (on_timer now o s).
End supervisor.

(** [Status], without the bridge's own page. *)
Record SupStatus := MkStatus { ss_State : SupState; ss_PID : Z; ss_Started : Z; ss_Restarts : Z; ss_LastExit : string; ss_LastExitAt : option Z; ss_RetryAt : option Z }.
Definition Status (s : Supervisor) : SupStatus :=
  MkStatus (su_state s) (su_pid s) (if bool_decide (su_state s = StateRunning) then su_started s else 0) (if 0 <? su_launches s then su_launches s - 1 else 0)
    (su_lastExit s) (su_lastExitAt s) (su_retryAt s).

(** ** One bridge *)

Section one.
Context (b : Backoff) (Hb : backoff_ok b = true).

Definition sup_ok (s : Supervisor) : Prop :=
  match su_run s with
  | None => su_state s = StateStopped /\ procs s = []
  | Some (MkLoop w delay startedAt) =>
      bo_Min b <= delay <= bo_Max b /\ 0 < su_launches s /\
      match w with
      | OnChild c => su_state s = StateRunning /\ su_pid s = ch_pid c /\ 0 < ch_pid c /\ ch_frame c = su_frame s /\
                     procs s = match ch_err c with None => [ch_pid c] | Some _ => [] end
      | OnTimer d => su_state s = StateBackoff /\ su_pid s = 0 /\ su_retryAt s = Some d /\ procs s = []
      end
  end.

Lemma min_max : bo_Min b <= bo_Max b /\ 0 < bo_Min b.
Proof. unfold backoff_ok in Hb. apply andb_true_iff in Hb as [[H1%Z.ltb_lt H2%Z.leb_le]%andb_true_iff _]. lia. Qed.

Lemma start_ok frame now o s : fresh_pid o s -> su_run s = None -> sup_ok s -> sup_ok (startLocked b frame now o s).2.
Proof.
  intros Hf Hr Hs. unfold startLocked, sup_ok in *. rewrite Hr in *. destruct Hs as [Hst Hp]. destruct o as [pid|e]; simpl; [|done].
  rewrite Hp. pose proof min_max. destruct Hf as [_ Hpid]. split_and!; try done; lia.
Qed.

Lemma gone (p : Z) : filter (fun q => q <> p) [p] = [].
Proof. rewrite filter_cons_False; [done|]. intros H. by apply H. Qed.

Lemma terminated_ok c how now s : procs s = match ch_err c with None => [ch_pid c] | Some _ => [] end -> procs (terminate c how now s) = [].
Proof. intros Hp. unfold terminate. simpl. rewrite Hp. destruct (ch_err c); [done|apply gone]. Qed.

Lemma handle_update_ok frame how now o l s : fresh_pid o s -> su_run s = Some l -> sup_ok s -> sup_ok (handle_update b frame how now o l s).2.
Proof.
  intros Hf Hr Hs. pose proof min_max as Hm. unfold sup_ok in Hs. rewrite Hr in Hs. destruct l as [w delay startedAt]. destruct Hs as (Hd & Hl & Hs). unfold handle_update. cbn [lp_wait].
  set (s1 := match w with OnChild c => terminate c how now s | OnTimer _ => s end).
  assert (procs s1 = [] /\ su_pid s1 = 0 /\ 0 < su_launches s1) as (Hp & Hpid & Hla).
  { unfold s1. destruct w as [c|d]; [|by destruct Hs as (_ & -> & _ & ->)]. destruct Hs as (_ & _ & _ & _ & Hp). split_and!; [by apply terminated_ok|done|done]. }
  clearbody s1. destruct o as [pid|e]; simpl; unfold sup_ok; simpl.
  - destruct Hf as [_ Hpos]. rewrite Hp. split_and!; try done; lia.
  - split_and!; try done; lia.
Qed.

Lemma step_sup_ok s s' : sup_step b s s' -> sup_ok s -> sup_ok s'.
Proof.
  pose proof min_max as Hm. intros [enc now o s0 Hf|enc how now o s0 Hf|how now s0|pid how s0|now s0|now o s0 Hf] Hs.
  - unfold Start. destruct enc as [frame|]; [|done]. destruct (su_run s0) eqn:Hr; [unfold startLocked; by rewrite Hr|by apply start_ok].
  - unfold Update. destruct enc as [frame|]; [|done]. destruct (su_run s0) eqn:Hr; [by apply handle_update_ok|by apply start_ok].
  - unfold Stop. destruct (su_run s0) as [[w delay startedAt]|] eqn:Hr; [|done]. unfold handle_stop, finish, sup_ok in *. rewrite Hr in Hs. destruct Hs as (_ & _ & Hs).
    simpl. split; [done|]. destruct w as [c|d]; [by apply (terminated_ok c how now), Hs|apply Hs].
  - unfold dies, sup_ok in *. destruct (su_run s0) as [[[c|d] delay startedAt]|] eqn:Hr; simpl; rewrite ?Hr in Hs.
    + destruct Hs as (Hd & Hl & Hst & Hpid & Hpos & Hfr & Hp). destruct (Z.eqb_spec (ch_pid c) pid) as [He|Hne].
      * rewrite Hp. destruct (ch_err c) eqn:Herr; [rewrite Herr; split_and!; try done; lia|]. simpl. split_and!; try done; try lia. subst pid. apply gone.
      * split_and!; try done; try lia. rewrite Hp. destruct (ch_err c); [done|]. by rewrite filter_cons_True.
    + destruct Hs as (Hd & Hl & Hst & Hpid & Hre & Hp). rewrite Hp. split_and!; try done; lia.
    + destruct Hs as [Hst Hp]. by rewrite Hp.
  - unfold on_exit. destruct (su_run s0) as [[[c|d] delay startedAt]|] eqn:Hr; try done. destruct (ch_err c) as [what|] eqn:Herr; [|done].
    unfold sup_ok in *. rewrite Hr in Hs. destruct Hs as (Hd & Hl & Hst & Hpid & Hpos & Hfr & Hp). rewrite Herr in Hp. simpl.
    destruct (_ <=? _); split_and!; try done; lia.
  - unfold on_timer. destruct (su_run s0) as [[[c|d] delay startedAt]|] eqn:Hr; try done. destruct (now <? d); [done|].
    unfold sup_ok in Hs. rewrite Hr in Hs. destruct Hs as (Hd & Hl & Hst & Hpid & Hre & Hp). destruct o as [pid|e]; simpl; unfold sup_ok; simpl; rewrite Hp.
    + destruct Hf as [_ Hpos]. split_and!; try done; lia.
    + split_and!; try done; lia.
Qed.
End one.

(** C32. At most one bridge process ever lives. Through any sequence of starts,
    updates and stops, deaths of the process at any moment, timers and failures to
    start: there is at most one process; if there is one it is the one reported as
    running, and it runs the spec the supervisor holds; when the supervisor says
    stopped there is none, and when it says backoff there is none and the time of the
    next try is set. *)
Theorem one_bridge (b : Backoff) (s : Supervisor) (Hb : backoff_ok b = true) (Hrun : rtc (sup_step b) stopped s) :
  (length (procs s) <= 1)%nat /\
  (forall pid, pid ∈ procs s -> ss_State (Status s) = StateRunning /\ ss_PID (Status s) = pid /\
     exists c delay startedAt, su_run s = Some (MkLoop (OnChild c) delay startedAt) /\ ch_pid c = pid /\ ch_frame c = su_frame s) /\
  (ss_State (Status s) <> StateRunning -> procs s = []) /\
  (ss_State (Status s) = StateBackoff -> exists d, ss_RetryAt (Status s) = Some d).
Proof.
  assert (sup_ok b s) as Hok.
  { assert (sup_ok b stopped) as H0 by done. revert H0. induction Hrun as [|s1 s2 s3 Hstep _ IH]; [done|]. intros H0. by apply IH, (step_sup_ok b Hb s1). }
  unfold sup_ok in Hok. unfold Status. cbn [ss_State ss_PID ss_RetryAt]. destruct (su_run s) as [[[c|d] delay startedAt]|].
  - destruct Hok as (_ & _ & Hst & Hpid & _ & Hfr & Hp). rewrite Hst, Hp. split_and!; try done.
    + destruct (ch_err c); simpl; lia.
    + intros pid Hin. destruct (ch_err c); [by apply elem_of_nil in Hin|]. apply list_elem_of_singleton in Hin as ->. split_and!; try done. by eexists c, _, _.
  - destruct Hok as (_ & _ & Hst & Hpid & Hre & Hp). rewrite Hst, Hp. split_and!; try done; [simpl; lia|intros pid Hin; by apply elem_of_nil in Hin|]. intros _. by exists d.
  - destruct Hok as [Hst Hp]. rewrite Hst, Hp. split_and!; try done; [simpl; lia|]. intros pid Hin. by apply elem_of_nil in Hin.
Qed.

(** Started, died, seen, started again. *)
Definition demo_run : list Supervisor :=
  let s1 := (Start DefaultBackoff (Ok (to_bytes "x")) 0 (Ok 41) stopped).2 in
  let s2 := dies 41 "signal: killed" s1 in
  let s3 := on_exit DefaultBackoff (sec 5) s2 in
  [s1; s2; s3; on_timer DefaultBackoff (sec 6) (Ok 42) s3].
Definition demo_at (i : nat) : Supervisor := nth i demo_run stopped.

Lemma one_bridge_witness : procs (demo_at 3) = [42] /\ ss_PID (Status (demo_at 3)) = 42 /\ procs (demo_at 2) = [].
Proof.
  assert (rtc (sup_step DefaultBackoff) stopped (demo_at 2)) as H2.
  { eapply rtc_l; [apply (sup_start DefaultBackoff (Ok (to_bytes "x")) 0 (Ok 41)); split; [by apply not_elem_of_nil|lia]|].
    eapply rtc_l; [apply (sup_dies _ 41 "signal: killed")|]. eapply rtc_l; [apply (sup_exit _ (sec 5))|]. apply rtc_refl. }
  split; [reflexivity|]. split.
  - apply (one_bridge DefaultBackoff (demo_at 3)); [reflexivity| |left; reflexivity].
    eapply rtc_r; [exact H2|]. apply (sup_timer DefaultBackoff (sec 6) (Ok 42)). split; [by apply not_elem_of_nil|lia].
  - apply (one_bridge DefaultBackoff (demo_at 2)); [reflexivity|exact H2|discriminate].
Defined.

(** ** A program that keeps dying *)

(** One round: the program lives for a while and dies, the loop sees it and waits,
    and the timer fires a little late. The wait, and the supervisor after it. *)
Record round := MkRound { r_life : Z; r_lag : Z; r_pid : Z }.

Definition crash (b : Backoff) (r : round) (s : Supervisor) : Z * Supervisor :=
  match su_run s with
  | Some (MkLoop (OnChild c) _ startedAt) =>
      let t := startedAt + r_life r in
      let s := on_exit b t (dies (ch_pid c) "exit status 1" s) in
      match su_retryAt s with Some d => (d - t, on_timer b (d + r_lag r) (Ok (r_pid r)) s) | None => (0, s) end
  | _ => (0, s)
  end.
Fixpoint crash_all (b : Backoff) (rs : list round) (s : Supervisor) : list Z * Supervisor :=
  match rs with [] => ([], s) | r :: rs => let '(w, s) := crash b r s in let '(ws, s) := crash_all b rs s in (w :: ws, s) end.

Definition watching (s : Supervisor) (delay : Z) : Prop := exists c startedAt, su_run s = Some (MkLoop (OnChild c) delay startedAt) /\ ch_err c = None.

Lemma on_timer_watching b s d delay startedAt now pid : su_run s = Some (MkLoop (OnTimer d) delay startedAt) -> d <= now ->
  watching (on_timer b now (Ok pid) s) (Z.min (delay * 2) (bo_Max b)).
Proof. intros Hr Hd. unfold on_timer. rewrite Hr, (proj2 (Z.ltb_ge _ _) Hd). by eexists _, _. Qed.

Lemma crash_spec b r s delay : watching s delay -> 0 <= r_lag r ->
  let w := if bo_Healthy b <=? r_life r then bo_Min b else delay in (crash b r s).1 = w /\ watching (crash b r s).2 (Z.min (w * 2) (bo_Max b)).
Proof.
  intros (c & startedAt & Hr & He) Hlag w. unfold crash. rewrite Hr. cbv zeta. set (t := startedAt + r_life r). set (s1 := on_exit _ _ _).
  assert (su_run s1 = Some (MkLoop (OnTimer (t + w)) w startedAt) /\ su_retryAt s1 = Some (t + w)) as [H1 H2].
  { unfold s1, on_exit, dies. rewrite Hr. cbn [su_run with_run lp_wait lp_delay lp_startedAt]. rewrite Z.eqb_refl, He. cbn [ch_err].
    replace (t - startedAt) with (r_life r) by (unfold t; lia). done. }
  clearbody s1. rewrite H2. cbn [fst snd]. split; [lia|]. apply (on_timer_watching b s1 (t + w) w startedAt); [done|lia].
Qed.

Lemma doubled_min b k : bo_Min b <= bo_Max b -> Z.min (Z.min (bo_Min b * 2 ^ Z.of_nat k) (bo_Max b) * 2) (bo_Max b) = Z.min (bo_Min b * 2 ^ Z.of_nat (S k)) (bo_Max b).
Proof.
  intros Hm. rewrite Nat2Z.inj_succ, Z.pow_succ_r by lia. destruct (Z.min_spec (bo_Min b * 2 ^ Z.of_nat k) (bo_Max b)) as [[Hlt ->]|[Hle ->]]; [f_equal; lia|].
  destruct (Z_lt_le_dec (bo_Max b) 0) as [Hneg|Hpos]; [|lia].
  assert (0 < 2 ^ Z.of_nat k) by (apply Z.pow_pos_nonneg; lia). nia.
Qed.

Lemma crash_all_spec b rs s k : bo_Min b <= bo_Max b -> watching s (Z.min (bo_Min b * 2 ^ Z.of_nat k) (bo_Max b)) ->
  Forall (fun r => r_life r < bo_Healthy b /\ 0 <= r_lag r) rs ->
  (crash_all b rs s).1 = (fun k => Z.min (bo_Min b * 2 ^ Z.of_nat k) (bo_Max b)) <$> seq k (length rs) /\
  watching (crash_all b rs s).2 (Z.min (bo_Min b * 2 ^ Z.of_nat (k + length rs)) (bo_Max b)).
Proof.
  intros Hm. revert s k. induction rs as [|r rs IH]; intros s k Hw Hrs; cbn [crash_all length seq fmap list_fmap].
  { split; [done|]. by rewrite Nat.add_0_r. }
  apply Forall_cons in Hrs as [[Hlife Hlag] Hrs]. destruct (crash_spec b r s _ Hw Hlag) as [H1 H2].
  rewrite (proj2 (Z.leb_gt _ _)) in H1, H2 by lia. rewrite doubled_min in H2 by done. destruct (crash b r s) as [w s']. simpl in H1, H2.
  destruct (IH s' (S k) H2 Hrs) as [H3 H4]. destruct (crash_all b rs s') as [ws s'']. simpl in *. rewrite H3. split; [by f_equal|].
  by replace (k + S (length rs))%nat with (S k + length rs)%nat by lia.
Qed.

(** The waits between restarts double up to the limit. A program that is
    started and then keeps dying before it counts as healthy is started again after
    waits of Min, 2 Min, 4 Min and so on, never over Max, however late the timers
    are; and when it then lives long enough before it dies, the next wait is Min
    again. *)
Theorem backoff_doubles (b : Backoff) (frame : bytes) (now pid : Z) (rs : list round) (r : round) (Hb : backoff_ok b = true)
    (Hrs : Forall (fun r => r_life r < bo_Healthy b /\ 0 <= r_lag r) rs) (Hr : bo_Healthy b <= r_life r /\ 0 <= r_lag r) :
  (crash_all b (rs ++ [r]) (Start b (Ok frame) now (Ok pid) stopped).2).1 =
  ((fun k => Z.min (bo_Min b * 2 ^ Z.of_nat k) (bo_Max b)) <$> seq 0 (length rs)) ++ [bo_Min b].
Proof.
  destruct (min_max b Hb) as [Hm Hpos]. set (s := (Start b (Ok frame) now (Ok pid) stopped).2).
  assert (watching s (Z.min (bo_Min b * 2 ^ Z.of_nat 0) (bo_Max b))) as Hw.
  { rewrite Z.mul_1_r, Z.min_l by lia. by eexists _, _. }
  destruct (crash_all_spec b rs s 0 Hm Hw Hrs) as [H1 H2]. clearbody s. clear Hw. revert s H1 H2.
  assert (forall s, (crash_all b (rs ++ [r]) s).1 = (crash_all b rs s).1 ++ [(crash b r (crash_all b rs s).2).1]) as Happ.
  { clear. induction rs as [|q rs IH]; intros s; simpl; [by destruct (crash b r s)|]. destruct (crash b q s) as [w s']. specialize (IH s').
    destruct (crash_all b (rs ++ [r]) s'), (crash_all b rs s'). simpl in *. by rewrite IH. }
  intros s H1 H2. rewrite Happ, H1. f_equal. destruct Hr as [Hlife Hlag]. destruct (crash_spec b r _ _ H2 Hlag) as [H3 _].
  by rewrite H3, (proj2 (Z.leb_le _ _) Hlife).
Qed.

Lemma backoff_doubles_witness :
  (crash_all DefaultBackoff ([MkRound (sec 2) 0 42; MkRound (sec 1) 5 43; MkRound 0 0 44; MkRound 0 0 45; MkRound 0 0 46; MkRound 0 0 47] ++ [MkRound (sec 90) 0 48])
     (Start DefaultBackoff (Ok (to_bytes "x")) 0 (Ok 41) stopped).2).1 = [sec 1; sec 2; sec 4; sec 8; sec 16; sec 30; sec 1].
Proof.
  rewrite (backoff_doubles DefaultBackoff (to_bytes "x") 0 41); [reflexivity|reflexivity| |].
  - repeat (apply Forall_cons; split; [vm_compute; split; [reflexivity|discriminate]|]). apply Forall_nil_2.
  - vm_compute. split; discriminate.
Defined.

(** ** The manager *)

Definition startRetry : Z := sec 30.

Record Manager := MkManager { m_sup : Supervisor; m_applied : string; m_failed : string; m_retryAt : Z }.

(** What a plan depends on besides the spec: whether there is a bridge program,
    the entry is on, and the two addresses are the router's. *)
Record gates := MkGates { g_bridge : bool; g_entry : bool; g_exit_local : bool; g_dial_local : bool }.

Definition planBridge (r : result spec_error (option Spec)) (g : gates) : option Spec :=
  match r with
  | Err _ => None
  | Ok spec => if g_bridge g && g_entry g && g_exit_local g && g_dial_local g then spec else None
  end.

Section manager.
(** The backoff, the hash of a spec, and its encoding. *)
Context (b : Backoff) (specHash : Spec -> string) (encode : Spec -> result string bytes).

Definition stopBridge (how : string) (now : Z) (m : Manager) : Manager :=
  if bool_decide (m_applied m = "") then MkManager (m_sup m) "" "" (m_retryAt m)
  else MkManager (Stop how now (m_sup m)) "" "" (m_retryAt m).

Definition applyBridge (p : option Spec) (how : string) (now : Z) (o : outcome) (m : Manager) : Manager :=
  match p with
  | None => stopBridge how now m
  | Some spec =>
      let h := specHash spec in
      if bool_decide (h = m_applied m) || (bool_decide (h = m_failed m) && (now <? m_retryAt m)) then m else
      let '(err, sup) := Update b (encode spec) how now o (m_sup m) in
      let held := bool_decide (err = None) || negb (bool_decide (ss_State (Status sup) = StateStopped)) in
      if held then MkManager sup h "" (m_retryAt m) else MkManager sup "" h (now + startRetry)
  end.

(** A look, or the supervisor's own business in between. *)
Inductive mgr_step : Manager -> Manager -> Prop :=
| mgr_look p how now o m : (forall spec, p = Some spec -> exists f, encode spec = Ok f) -> fresh_pid o (m_sup m) -> mgr_step m (applyBridge p how now o m)
| mgr_dies pid how m : mgr_step m (MkManager (dies pid how (m_sup m)) (m_applied m) (m_failed m) (m_retryAt m))
| mgr_exit now m : mgr_step m (MkManager (on_exit b now (m_sup m)) (m_applied m) (m_failed m) (m_retryAt m))
| mgr_timer now o m : fresh_pid o (m_sup m) -> mgr_step m (MkManager (on_timer b now o (m_sup m)) (m_applied m) (m_failed m) (m_retryAt m)).

(** The supervisor holds a spec of that hash, and its loop is alive. *)
Definition holds (h : string) (s : Supervisor) : Prop := exists spec, specHash spec = h /\ encode spec = Ok (su_frame s) /\ is_Some (su_run s).

Definition mgr_ok (m : Manager) : Prop :=
  sup_ok b (m_sup m) /\ (m_applied m = "" \/ m_failed m = "") /\
  if bool_decide (m_applied m = "") then su_run (m_sup m) = None else holds (m_applied m) (m_sup m).

Context (Hb : backoff_ok b = true) (Hhash : forall spec, specHash spec <> "").

Lemma keeps_frame s s' : (exists pid how, s' = dies pid how s) \/ (exists now, s' = on_exit b now s) \/ (exists now o, s' = on_timer b now o s) ->
  su_frame s' = su_frame s /\ (is_Some (su_run s') <-> is_Some (su_run s)).
Proof.
  intros [(pid & how & ->)|[(now & ->)|(now & o & ->)]].
  - unfold dies. simpl. split; [done|]. destruct (su_run s) as [l|]; simpl; [|done]. destruct (lp_wait l); split; intros _; by eexists.
  - unfold on_exit. destruct (su_run s) as [[[c|d] delay startedAt]|] eqn:Hr; try (by rewrite Hr). destruct (ch_err c); [|by rewrite Hr]. simpl. split; [done|]. split; intros _; by eexists.
  - unfold on_timer. destruct (su_run s) as [[[c|d] delay startedAt]|] eqn:Hr; try (by rewrite Hr). destruct (now <? d); [by rewrite Hr|].
    destruct o; simpl; (split; [done|]); split; intros _; by eexists.
Qed.

Lemma own_business m s' : mgr_ok m -> sup_step b (m_sup m) s' ->
  (exists pid how, s' = dies pid how (m_sup m)) \/ (exists now, s' = on_exit b now (m_sup m)) \/ (exists now o, s' = on_timer b now o (m_sup m)) ->
  mgr_ok (MkManager s' (m_applied m) (m_failed m) (m_retryAt m)).
Proof.
  intros (Hs & Hone & Ha) Hstep Hk. apply keeps_frame in Hk as [Hf Hr]. split; [by eapply step_sup_ok|]. split; [done|]. simpl. case_bool_decide.
  - apply eq_None_not_Some. rewrite Hr. by rewrite Ha.
  - destruct Ha as (spec & H1 & H2 & H3). exists spec. rewrite Hf, Hr. done.
Qed.

(** What an update leaves: the new spec held, or a supervisor that is stopped. *)
Lemma update_holds spec f how now o s : encode spec = Ok f -> fresh_pid o s -> sup_ok b s ->
  let '(err, s') := Update b (encode spec) how now o s in
  sup_ok b s' /\ if bool_decide (err = None) || negb (bool_decide (ss_State (Status s') = StateStopped)) then holds (specHash spec) s' else su_run s' = None.
Proof.
  intros Henc Hf Hs. destruct (Update b (encode spec) how now o s) as [err s'] eqn:Hu.
  assert (sup_ok b s') as Hs' by (change s' with (err, s').2; rewrite <-Hu; by apply (step_sup_ok b Hb s); [apply sup_update|]).
  split; [done|]. rewrite Henc in Hu. unfold Update in Hu. destruct (su_run s) as [l|] eqn:Hr.
  - assert (su_frame s' = f /\ is_Some (su_run s') /\ su_state s' <> StateStopped) as (H1 & H2 & H3).
    { unfold handle_update in Hu. destruct o; simpl in Hu; injection Hu as <- <-; simpl; split_and!; try done; by eexists. }
    rewrite (bool_decide_eq_false_2 _ H3), orb_true_r. exists spec. by rewrite H1.
  - unfold startLocked in Hu. rewrite Hr in Hu. destruct o; simpl in Hu; injection Hu as <- <-; simpl.
    + exists spec. by split_and!.
    + unfold sup_ok in Hs. rewrite Hr in Hs. destruct Hs as [Hst _]. by rewrite Hst.
Qed.

Lemma look_ok p how now o m : (forall spec, p = Some spec -> exists f, encode spec = Ok f) -> fresh_pid o (m_sup m) -> mgr_ok m -> mgr_ok (applyBridge p how now o m).
Proof.
  intros Hp Hf Hm. pose proof Hm as (Hs & Hone & Ha). unfold applyBridge. destruct p as [spec|].
  - destruct (_ || _); [done|]. destruct (Hp spec eq_refl) as [f Henc]. pose proof (update_holds spec f how now o (m_sup m) Henc Hf Hs) as Hu.
    destruct (Update _ _ _ _ _ _) as [err s']. destruct Hu as [Hs' Hu]. destruct (_ || _).
    + split; [done|]. split; [by right|]. simpl. by rewrite bool_decide_eq_false_2.
    + split; [done|]. split; [by left|]. done.
  - unfold stopBridge. case_bool_decide as Hz.
    + split; [done|]. split; [by left|]. done.
    + split; [by apply (step_sup_ok b Hb (m_sup m)); [apply sup_stop|]|]. split; [by left|]. simpl. destruct Ha as (spec & _ & _ & [l Hl]). unfold Stop. by rewrite Hl.
Qed.

(** A look with a plan ends in one of two ways. *)
Lemma look_outcome spec how now o m : mgr_ok m ->
  let m' := applyBridge (Some spec) how now o m in
  m_applied m' = specHash spec \/ m_applied m' = "" /\ m_failed m' = specHash spec /\ now < m_retryAt m'.
Proof.
  intros (_ & Hone & _). unfold applyBridge. cbv zeta. case_bool_decide as He; simpl; [by left|].
  case_bool_decide as He2; simpl; [destruct (Z.ltb_spec now (m_retryAt m)) as [Hlt|_]|]; simpl.
  - right. destruct Hone as [Hz|Hz]; [done|]. destruct (Hhash spec). congruence.
  - destruct (Update _ _ _ _ _ _) as [err s'], (_ || _); simpl; [by left|right]. split_and!; try done. unfold startRetry, sec. lia.
  - destruct (Update _ _ _ _ _ _) as [err s'], (_ || _); simpl; [by left|right]. split_and!; try done. unfold startRetry, sec. lia.
Qed.

Lemma mgr_step_ok m m' : mgr_step m m' -> mgr_ok m -> mgr_ok m'.
Proof.
  intros [p how now o m0 Hp Hf|pid how m0|now m0|now o m0 Hf] Hm.
  - by apply look_ok.
  - apply own_business; [done|apply sup_dies|]. left. by exists pid, how.
  - apply own_business; [done|apply sup_exit|]. right. left. by exists now.
  - apply own_business; [done|by apply sup_timer|]. right. right. by exists now, o.
Qed.
End manager.

(** C33. What the manager looks at it makes so. Over any run of the manager and the
    supervisor, with the process dying, timers firing and starts failing at any
    moment: after a look that finds the bridge should not run, there is no process
    and the supervisor is stopped; after a look with a plan, the supervisor holds a
    spec of the plan's hash and keeps it running, or it could not be started, there
    is no process, and the hash and a later time for the next try are noted; and a
    look at the spec it already has changes nothing at all. *)
Theorem bridge_in_step (b : Backoff) (specHash : Spec -> string) (encode : Spec -> result string bytes) (m : Manager)
    (p : option Spec) (how : string) (now : Z) (o : outcome)
    (Hb : backoff_ok b = true) (Hhash : forall spec, specHash spec <> "")
    (Hrun : rtc (mgr_step b specHash encode) (MkManager stopped "" "" 0) m)
    (Henc : forall spec, p = Some spec -> exists f, encode spec = Ok f) (Hf : fresh_pid o (m_sup m)) :
  let m' := applyBridge b specHash encode p how now o m in
  match p with
  | None => procs (m_sup m') = [] /\ ss_State (Status (m_sup m')) = StateStopped
  | Some spec =>
      (holds specHash encode (specHash spec) (m_sup m') \/
       procs (m_sup m') = [] /\ ss_State (Status (m_sup m')) = StateStopped /\ m_failed m' = specHash spec /\ now < m_retryAt m') /\
      (m_applied m = specHash spec -> m' = m)
  end.
Proof.
  assert (mgr_ok b specHash encode m) as Hm.
  { assert (mgr_ok b specHash encode (MkManager stopped "" "" 0)) as H0 by (split; [done|split; [by left|done]]). revert H0.
    induction Hrun as [|m1 m2 m3 Hstep _ IH]; [done|]. intros H0. by apply IH, (mgr_step_ok b specHash encode Hb Hhash m1). }
  intros m'. assert (mgr_ok b specHash encode m') as (Hs & _ & Ha) by (by apply look_ok).
  assert (su_run (m_sup m') = None -> procs (m_sup m') = [] /\ ss_State (Status (m_sup m')) = StateStopped) as Hstop.
  { intros Hr. unfold sup_ok in Hs. rewrite Hr in Hs. by destruct Hs. }
  destruct p as [spec|].
  - split; [|intros He; unfold m', applyBridge; by rewrite <-He, bool_decide_eq_true_2].
    destruct (look_outcome b specHash encode Hhash spec how now o m Hm) as [Hap|(Hap & Hfa & Hre)]; fold m' in Hap.
    + left. rewrite bool_decide_eq_false_2 in Ha by (rewrite Hap; apply Hhash). by rewrite <-Hap.
    + right. rewrite Hap, bool_decide_eq_true_2 in Ha by done. destruct (Hstop Ha). done.
  - apply Hstop. unfold m', applyBridge, stopBridge in *. case_bool_decide as Hz; simpl in *; done.
Qed.

Lemma bridge_in_step_witness :
  let hash := fun spec => if bool_decide (sp_LogLevel spec = "") then "a" else "b" in
  let look := applyBridge DefaultBackoff hash (fun _ => Ok (to_bytes "x")) in
  let m := look (Some demo_spec) "" 0 (Ok 41) (MkManager stopped "" "" 0) in
  procs (m_sup m) = [41] /\ procs (m_sup (look None "signal: terminated" (sec 9) (Ok 42) m)) = [].
Proof.
  split; [reflexivity|].
  apply (bridge_in_step DefaultBackoff (fun spec => if bool_decide (sp_LogLevel spec = "") then "a" else "b") (fun _ => Ok (to_bytes "x"))
    (applyBridge DefaultBackoff (fun spec => if bool_decide (sp_LogLevel spec = "") then "a" else "b") (fun _ => Ok (to_bytes "x")) (Some demo_spec) "" 0 (Ok 41) (MkManager stopped "" "" 0))
    None "signal: terminated" (sec 9) (Ok 42)).
  - reflexivity.
  - intros spec. case_bool_decide; discriminate.
  - apply rtc_once, mgr_look; [intros spec _; by eexists|split; [by apply not_elem_of_nil|lia]].
  - discriminate.
  - split; [|lia]. simpl. intros [=]%list_elem_of_singleton.
Defined.
