(* ===== verification/BridgeRing.v ===== *)
(** * What the bridge printed

    internal/remotenodes/bridgectl/ring.go: the last bytes of the bridge's output,
    kept in a buffer of fixed size that is written round and round.

    Theorem: whatever is written and in whatever pieces, the ring holds exactly the
    last bytes of it, as many as fit ([ring_keeps_last]). *)

From S2P Require Import Prelude GoUnicode.

Record ring := MkRing { rg_buf : bytes; rg_next : nat; rg_full : bool }.

Definition newRing (size : nat) : ring := MkRing (replicate size zero) 0 false.

(** Go's [copy] into a slice that starts at [off], and how much it copies. *)
Definition copied (dst : bytes) (off : nat) (src : bytes) : nat := Nat.min (length dst - off) (length src).
Definition copy (dst : bytes) (off : nat) (src : bytes) : bytes :=
  take off dst ++ take (copied dst off src) src ++ drop (off + copied dst off src) dst.

Definition Write (r : ring) (p : bytes) : ring :=
  if (length p =? 0)%nat then r else
  let size := length (rg_buf r) in
  if (size <=? length p)%nat then MkRing (copy (rg_buf r) 0 (drop (length p - size) p)) 0 true else
  let n := copied (rg_buf r) (rg_next r) p in
  let buf := copy (rg_buf r) (rg_next r) p in
  let wraps := (n <? length p)%nat in
  let buf := if wraps then copy buf 0 (drop n p) else buf in
  let next := ((rg_next r + length p) mod size)%nat in
  MkRing buf next (rg_full r || wraps || (next =? 0)%nat).

Definition snapshot (r : ring) : bytes * bool :=
  if rg_full r then (drop (rg_next r) (rg_buf r) ++ take (rg_next r) (rg_buf r), true) else (take (rg_next r) (rg_buf r), false).

Definition newline : ascii := ascii_of_nat 10.

(** Everything after the first newline, if there is one. *)
Fixpoint after_newline (l : bytes) : option bytes :=
  match l with [] => None | c :: l => if bool_decide (c = newline) then Some l else after_newline l end.

Definition ring_String (r : ring) : bytes :=
  let '(b, wrapped) := snapshot r in if wrapped then default b (after_newline b) else b.

(** ** What is kept *)

(** The last [n] bytes of what was written. *)
Definition last_bytes (n : nat) (h : bytes) : bytes := drop (length h - n) h.

Definition ring_ok (size : nat) (h : bytes) (r : ring) : Prop :=
  length (rg_buf r) = size /\ (rg_next r < size)%nat /\ rg_full r = (size <=? length h)%nat /\
  (snapshot r).1 = last_bytes size h /\ (rg_full r = false -> rg_next r = length h).

Lemma length_copy dst off src : (off <= length dst)%nat -> length (copy dst off src) = length dst.
Proof. intros Hoff. unfold copy, copied. rewrite !length_app, !length_take, length_drop. lia. Qed.

Lemma last_bytes_app size h p : (length p <= size)%nat -> last_bytes size (h ++ p) = drop (length h + length p - size) h ++ p.
Proof.
  intros Hp. unfold last_bytes. rewrite length_app, drop_app.
  by replace (length h + length p - size - length h)%nat with 0%nat by lia.
Qed.

(** What was kept and is still, when [p] comes on top. *)
Lemma last_bytes_more size h p : (length p <= size)%nat -> (size <= length h)%nat -> last_bytes size (h ++ p) = drop (length p) (last_bytes size h) ++ p.
Proof. intros Hp Hh. rewrite last_bytes_app by done. unfold last_bytes. rewrite drop_drop. do 2 f_equal. lia. Qed.

Lemma copy_in dst off src : (off + length src <= length dst)%nat -> copied dst off src = length src /\ copy dst off src = take off dst ++ src ++ drop (off + length src) dst.
Proof. intros Hl. assert (copied dst off src = length src) as He by (unfold copied; lia). unfold copy. by rewrite He, firstn_all. Qed.

(** A buffer read from [k] on and around. *)
Definition rot (k : nat) (l : bytes) : bytes := drop k l ++ take k l.

Lemma rot_mod k l : (0 < length l)%nat -> (k <= length l)%nat -> rot (k mod length l) l = rot k l.
Proof.
  intros H0 Hk. destruct (decide (k = length l)) as [->|Hne]; [|by rewrite Nat.mod_small by lia].
  unfold rot. rewrite Nat.Div0.mod_same, drop_all, firstn_all. simpl. by rewrite app_nil_r.
Qed.

(** Written in one piece, up to the end of the buffer at most. *)
Lemma piece_fits buf k p : (k + length p <= length buf)%nat ->
  rot (k + length p) (copy buf k p) = drop (length p) (rot k buf) ++ p /\ take (k + length p) (copy buf k p) = take k buf ++ p.
Proof.
  intros Hl. destruct (copy_in buf k p Hl) as [_ ->]. assert (length (take k buf) = k) as Hk by (rewrite length_take; lia).
  assert (take (k + length p) (take k buf ++ p ++ drop (k + length p) buf) = take k buf ++ p) as Ht.
  { rewrite app_assoc. apply take_app_length'. rewrite length_app. lia. }
  split; [|done]. unfold rot. rewrite Ht. replace (drop (k + length p) (take k buf ++ _)) with (drop (k + length p) buf).
  - rewrite drop_app, length_drop, drop_drop, <-app_assoc. by replace (length p - (length buf - k))%nat with 0%nat by lia.
  - rewrite app_assoc. symmetry. apply drop_app_length'. rewrite length_app. lia.
Qed.

(** Written in two: the rest goes to the front. *)
Lemma piece_wraps buf k p : (k <= length buf)%nat -> (length buf < k + length p)%nat -> (length p < length buf)%nat ->
  let n := copied buf k p in
  n = (length buf - k)%nat /\
  rot (k + length p - length buf) (copy (copy buf k p) 0 (drop n p)) = drop (k + length p - length buf) (take k buf) ++ p.
Proof.
  intros Hk Hw Hp n. assert (n = (length buf - k)%nat) as Hn by (unfold n, copied; lia). split; [done|].
  assert (copy buf k p = take k buf ++ take n p) as ->.
  { unfold copy. fold n. rewrite (drop_ge buf) by lia. by rewrite app_nil_r. }
  assert (length (take k buf) = k) as Hlk by (rewrite length_take; lia).
  set (j := (k + length p - length buf)%nat). assert (length (drop n p) = j) as Hj by (rewrite length_drop; lia).
  destruct (copy_in (take k buf ++ take n p) 0 (drop n p)) as [_ ->]; [rewrite length_app, length_take; lia|].
  rewrite take_0, Hj. unfold rot. cbn [app Nat.add]. rewrite drop_app_length', take_app_length' by done. rewrite drop_app.
  replace (j - length (take k buf))%nat with 0%nat by lia. rewrite drop_0, <-app_assoc. f_equal. apply take_drop.
Qed.

(** Which bytes are still kept, as the two forms of the buffer have them. *)
Lemma kept_full size h r : rg_full r = true -> ring_ok size h r -> (size <= length h)%nat /\ rot (rg_next r) (rg_buf r) = last_bytes size h.
Proof. intros Hf (_ & _ & Hfl & Hs & _). unfold snapshot in Hs. rewrite Hf in *. split; [|done]. by apply Nat.leb_le. Qed.

Lemma kept_part size h r : rg_full r = false -> ring_ok size h r -> (length h < size)%nat /\ rg_next r = length h /\ take (rg_next r) (rg_buf r) = h.
Proof.
  intros Hf (_ & _ & Hfl & Hs & Hh). unfold snapshot in Hs. rewrite Hf in *. symmetry in Hfl. apply Nat.leb_gt in Hfl. split_and!; [done|by apply Hh|].
  simpl in Hs. rewrite Hs. unfold last_bytes. by replace (length h - size)%nat with 0%nat by lia.
Qed.

Lemma Write_wraps size h p r : ring_ok size h r -> (length p < size)%nat -> (size < rg_next r + length p)%nat -> ring_ok size (h ++ p) (Write r p).
Proof.
  intros Hok Hp Hw. pose proof Hok as (Hl & Hn & _). destruct (piece_wraps (rg_buf r) (rg_next r) p) as [Hc Hr]; [lia..|]. rewrite Hl in *.
  unfold Write. rewrite Hl, (proj2 (Nat.eqb_neq _ _)), (proj2 (Nat.leb_gt _ _)), (proj2 (Nat.ltb_lt (copied _ _ _) _)), orb_true_r by lia.
  assert ((rg_next r + length p) mod size = rg_next r + length p - size)%nat as ->.
  { replace (rg_next r + length p)%nat with ((rg_next r + length p - size) + 1 * size)%nat at 1 by lia. rewrite Nat.Div0.mod_add. apply Nat.mod_small. lia. }
  assert ((size <= length h + length p)%nat /\ drop (rg_next r + length p - size) (take (rg_next r) (rg_buf r)) ++ p = last_bytes size (h ++ p)) as [Hge Hk].
  { destruct (rg_full r) eqn:Hf.
    - apply kept_full in Hok as [Hle Hrot]; [|done]. split; [lia|]. rewrite last_bytes_more by lia. rewrite <-Hrot. unfold rot.
      rewrite drop_app, length_drop, Hl, (drop_ge (drop _ _)) by (rewrite length_drop; lia). simpl. do 2 f_equal. lia.
    - apply kept_part in Hok as (Hle & Hlen & Ht); [|done]. split; [lia|]. rewrite Ht, last_bytes_app, Hlen by lia. done. }
  unfold ring_ok, snapshot. cbn [rg_buf rg_next rg_full fst orb]. rewrite !length_copy by (rewrite ?length_copy; lia).
  rewrite length_app, (proj2 (Nat.leb_le _ _)) by lia. split_and!; try done; [lia|]. by rewrite <-Hk, <-Hr.
Qed.

Lemma Write_fits size h p r : ring_ok size h r -> (0 < length p < size)%nat -> (rg_next r + length p <= size)%nat -> ring_ok size (h ++ p) (Write r p).
Proof.
  intros Hok Hp Hw. pose proof Hok as (Hl & Hn & _). destruct (piece_fits (rg_buf r) (rg_next r) p) as [Hr Ht]; [lia|].
  destruct (copy_in (rg_buf r) (rg_next r) p) as [Hc _]; [lia|].
  unfold Write. rewrite Hl, Hc, (proj2 (Nat.eqb_neq _ _)), (proj2 (Nat.leb_gt _ _)), Nat.ltb_irrefl, orb_false_r by lia.
  set (buf := copy _ _ _) in *. assert (length buf = size) as Hb by (unfold buf; rewrite length_copy; lia).
  pose proof (Nat.mod_upper_bound (rg_next r + length p) size) as Hub. pose proof (rot_mod (rg_next r + length p) buf) as Hmod. rewrite Hb in Hmod.
  unfold ring_ok, snapshot. cbn [rg_buf rg_next rg_full]. rewrite length_app. destruct (rg_full r) eqn:Hf; cbn [orb].
  - apply kept_full in Hok as [Hle Hrot]; [|done]. rewrite (proj2 (Nat.leb_le _ _)) by lia. split_and!; try done; [lia|].
    cbn [fst]. fold (rot ((rg_next r + length p) mod size) buf). by rewrite Hmod, Hr, Hrot, last_bytes_more by lia.
  - apply kept_part in Hok as (Hle & Hlen & Hh); [|done]. rewrite Hh in Ht.
    assert (last_bytes size (h ++ p) = h ++ p) as Hlast by (rewrite last_bytes_app by lia; by replace (length h + length p - size)%nat with 0%nat by lia).
    rewrite Hlast. destruct (decide (rg_next r + length p = size)%nat) as [He|Hne].
    + rewrite He, Nat.Div0.mod_same. rewrite (proj2 (Nat.leb_le _ _)) by lia. cbn. split_and!; try done; [lia|].
      rewrite take_0, drop_0, app_nil_r, <-Ht, firstn_all2 by lia. done.
    + rewrite Nat.mod_small by lia. rewrite (proj2 (Nat.eqb_neq _ _)), (proj2 (Nat.leb_gt _ _)) by lia. split_and!; try done; lia.
Qed.

Lemma Write_ok size h p r : (0 < size)%nat -> ring_ok size h r -> ring_ok size (h ++ p) (Write r p).
Proof.
  intros H0 Hok. pose proof Hok as (Hl & Hn & Hf & Hs & Hh). destruct (Nat.eqb_spec (length p) 0) as [Hz|Hz].
  { apply nil_length_inv in Hz as ->. by rewrite app_nil_r. }
  destruct (Nat.leb_spec size (length p)) as [Hbig|Hsmall].
  { unfold Write. rewrite Hl, (proj2 (Nat.eqb_neq _ _)), (proj2 (Nat.leb_le _ _)) by lia. set (q := drop (length p - size) p). assert (length q = size) as Hq by (unfold q; rewrite length_drop; lia).
    destruct (copy_in (rg_buf r) 0 q) as [_ ->]; [lia|]. rewrite drop_ge, take_0, app_nil_r by lia.
    assert ((size <=? length (h ++ p))%nat = true) as He by (apply Nat.leb_le; rewrite length_app; lia).
    unfold ring_ok, snapshot. cbn [rg_buf rg_next rg_full fst]. rewrite He, drop_0, take_0, app_nil_r. split_and!; try done.
    unfold last_bytes. rewrite length_app, drop_app, (drop_ge h) by lia. simpl. unfold q. f_equal. lia. }
  destruct (Nat.ltb_spec size (rg_next r + length p)) as [Hw|Hw]; [by apply Write_wraps|apply Write_fits; [done|lia|lia]].
Qed.

(** The ring keeps the last bytes. Whatever is written to a new ring of any
    size, in whatever pieces, also ones longer than the ring: what it holds is
    exactly the end of all that was written, as much as fits, in order; and it calls
    itself wrapped exactly once it is full. *)
Theorem ring_keeps_last (size : nat) (ps : list bytes) (Hsize : (0 < size)%nat) :
  snapshot (foldl Write (newRing size) ps) = (last_bytes size (concat ps), (size <=? length (concat ps))%nat).
Proof.
  assert (ring_ok size (concat ps) (foldl Write (newRing size) ps)) as (_ & _ & Hf & Hs & _).
  { induction ps as [|p ps IH] using rev_ind.
    - unfold ring_ok, snapshot. simpl. rewrite length_replicate, (proj2 (Nat.leb_gt _ _)) by lia. split_and!; done.
    - rewrite foldl_snoc, concat_app. simpl. rewrite app_nil_r. by apply Write_ok. }
  rewrite <-Hs, <-Hf. unfold snapshot. by destruct (rg_full _).
Qed.

Lemma ring_keeps_last_witness : snapshot (foldl Write (newRing 5) [to_bytes "abc"; to_bytes "de"; to_bytes "fgh"]) = (to_bytes "defgh", true).
Proof. rewrite (ring_keeps_last 5); [reflexivity|lia]. Defined.

(** A buffer that is exactly full has lost nothing, and its first line, whole, is
    not shown. *)
Example full_is_not_cut :
  let line c := [c; newline] in
  let r := foldl Write (newRing 4) [line zero; line one] in (snapshot r).1 = line zero ++ line one /\ ring_String r = line one.
Proof. vm_compute. done. Qed.
