(* ===== verification/BridgeNames.v ===== *)
(** * The nodes' host names

    internal/remotenodes/manager/resolve.go: the address the bridge dials a node at.
    A name is asked of a resolver and the answer kept; what the resolver answers is
    an argument of each call. Calls are serialized, since the bridge is planned under
    one lock. The log is left out.

    Theorems: an address is the node's own or an answer its name once got, of the
    right family, and an old one only if the name has just failed ([names_true]); and
    a name is not asked again within five minutes of an answer or half a minute of a
    failure ([lookups_paced]). *)

From S2P Require Import Prelude GoString GoUnicode GoNetip AlertEngine HubState BridgeSpec.

Definition resolveTTL : Z := sec 300.
Definition resolveRetry : Z := sec 30.
Definition errNoAddress : string := "the name has no address of the family the bridge dials from".

Record resolved := MkResolved { rv_host : string; rv_addr : option ipaddr; rv_at : Z; rv_tried : Z; rv_err : string }.

(** The first usable address of the answer. *)
Definition usable (dial a : ipaddr) : bool := bool_decide (Is4 a = Is4 dial) && negb (IsUnspecified a) && negb (IsMulticast a).
Definition lookup_host (dial : ipaddr) (answer : result string (list ipaddr)) : result string ipaddr :=
  match answer with
  | Err e => Err e
  | Ok addrs => match filter (fun a => usable dial a = true) (Unmap <$> addrs) with a :: _ => Ok a | [] => Err errNoAddress end
  end.

Definition stale (r : resolved) : result string ipaddr :=
  match rv_addr r with Some a => Ok a | None => Err ("the host name does not resolve: " +:+ rv_err r) end.

(** What is remembered of the node's name, from nothing for a new name. *)
Definition remembered (n : Node) (res : gmap Z resolved) : resolved :=
  match res !! N_ID n with
  | Some r => if bool_decide (rv_host r = Host n) then r else MkResolved (Host n) None 0 0 ""
  | None => MkResolved (Host n) None 0 0 ""
  end.

(** The answer without asking, if there is one. *)
Definition known (cur : resolved) (now : Z) : option (result string ipaddr) :=
  match rv_addr cur with
  | Some a => if now - rv_at cur <? resolveTTL then Some (Ok a)
              else if negb (bool_decide (rv_err cur = "")) && (now - rv_tried cur <? resolveRetry) then Some (stale cur) else None
  | None => if negb (bool_decide (rv_err cur = "")) && (now - rv_tried cur <? resolveRetry) then Some (stale cur) else None
  end.

Definition note (cur : resolved) (now : Z) (l : result string ipaddr) : resolved :=
  match l with
  | Ok a => MkResolved (rv_host cur) (Some a) now now ""
  | Err e => MkResolved (rv_host cur) (rv_addr cur) (rv_at cur) now e
  end.

(** The address, the lookup that was made, if one was, and what is remembered. *)
Definition addrOf (n : Node) (dial : ipaddr) (now : Z) (answer : result string (list ipaddr)) (res : gmap Z resolved) :
  result string ipaddr * option (result string ipaddr) * gmap Z resolved :=
  match ParseAddr (Host n) with
  | Some a => (Ok (Unmap a), None, res)
  | None =>
      let cur := remembered n res in
      match known cur now with
      | Some r => (r, None, <[N_ID n := cur]> res)
      | None =>
          let l := lookup_host dial answer in
          let next := note cur now l in
          (match l with Ok a => Ok a | Err _ => stale next end, Some l, <[N_ID n := next]> res)
      end
  end.

Definition forgetResolved (st : State) (res : gmap Z resolved) : gmap Z resolved := filter (fun kv => is_Some (FindNode st kv.1)) res.

(** ** Runs, with every lookup that was made, the newest first *)

Record asked := MkAsked { as_id : Z; as_host : string; as_at : Z; as_res : result string ipaddr }.
Record names := MkNames { nm_res : gmap Z resolved; nm_log : list asked }.

Inductive name_event := EAddr (n : Node) (now : Z) (answer : result string (list ipaddr)) | EForget (st : State).

Definition names_step (dial : ipaddr) (w : names) (e : name_event) : names :=
  match e with
  | EAddr n now answer =>
      let '(_, l, res) := addrOf n dial now answer (nm_res w) in
      MkNames res (match l with Some l => [MkAsked (N_ID n) (Host n) now l] | None => [] end ++ nm_log w)
  | EForget st => MkNames (forgetResolved st (nm_res w)) (nm_log w)
  end.
Definition names_run (dial : ipaddr) (es : list name_event) : names := foldl (names_step dial) (MkNames ∅ []) es.

(** A resolver that fails says something. *)
Definition says (e : name_event) : Prop := match e with EAddr _ _ (Err m) => m <> "" | _ => True end.

Definition lookups_of (id : Z) (w : names) : list asked := filter (fun a => as_id a = id) (nm_log w).

(** What is remembered of a name is what its lookups said. *)
Definition remembers (w : names) (id : Z) (r : resolved) : Prop :=
  (exists e es, lookups_of id w = e :: es /\ as_host e = rv_host r /\ as_at e = rv_tried r /\
     match as_res e with Ok a => rv_addr r = Some a /\ rv_at r = as_at e /\ rv_err r = "" | Err m => rv_err r = m /\ m <> "" end) /\
  (forall a, rv_addr r = Some a -> MkAsked id (rv_host r) (rv_at r) (Ok a) ∈ nm_log w).

Definition names_ok (dial : ipaddr) (w : names) : Prop :=
  map_Forall (remembers w) (nm_res w) /\ forall e a, e ∈ nm_log w -> as_res e = Ok a -> usable dial a = true.

Lemma lookup_host_ok dial answer a : lookup_host dial answer = Ok a -> usable dial a = true.
Proof.
  destruct answer as [addrs|]; [|done]. simpl. destruct (filter _ _) as [|b l] eqn:Hf; [done|]. intros [= ->].
  assert (a ∈ filter (fun a => usable dial a = true) (Unmap <$> addrs)) as Hin by (rewrite Hf; by left). by apply list_elem_of_filter in Hin as [? _].
Qed.

Lemma lookup_host_says dial answer m : (forall e, answer = Err e -> e <> "") -> lookup_host dial answer = Err m -> m <> "".
Proof. intros Hs. destruct answer as [addrs|e]; simpl; [destruct (filter _ _); [by intros [= <-]|done]|]. intros [= <-]. by apply Hs. Qed.

(** With nothing remembered, nothing is known. *)
Lemma known_old n res now r : known (remembered n res) now = Some r -> res !! N_ID n = Some (remembered n res) /\ rv_host (remembered n res) = Host n.
Proof. unfold remembered. destruct (res !! N_ID n) as [q|] eqn:Hq; [|done]. case_bool_decide; [|done]. done. Qed.

Lemma known_None cur now : known cur now = None ->
  (forall a, rv_addr cur = Some a -> resolveTTL <= now - rv_at cur) /\ (rv_err cur <> "" -> resolveRetry <= now - rv_tried cur).
Proof.
  unfold known. intros Hk. split.
  - intros a Ha. rewrite Ha in Hk. destruct (Z.ltb_spec (now - rv_at cur) resolveTTL); [done|lia].
  - intros He. rewrite (bool_decide_eq_false_2 _ He) in Hk. destruct (Z.ltb_spec (now - rv_tried cur) resolveRetry); [|lia].
    simpl in Hk. destruct (rv_addr cur); [destruct (_ <? _)|]; done.
Qed.

Lemma remembered_host n res : rv_host (remembered n res) = Host n.
Proof. unfold remembered. destruct (res !! N_ID n); [case_bool_decide|]; done. Qed.

(** More lookups of other nodes change nothing. *)
Lemma remembers_more w id r e res : remembers w id r -> as_id e <> id -> remembers (MkNames res ([e] ++ nm_log w)) id r.
Proof.
  intros [(x & xs & Hx & Hr) Ha] Hne. split; [|intros a Haddr; right; by apply Ha]. exists x, xs. split; [|done].
  unfold lookups_of. simpl. by rewrite filter_cons_False.
Qed.

Lemma remembers_noted w n dial now answer res l : l = lookup_host dial answer -> (forall e, answer = Err e -> e <> "") ->
  (forall r, nm_res w !! N_ID n = Some r -> remembers w (N_ID n) r) ->
  remembers (MkNames res ([MkAsked (N_ID n) (Host n) now l] ++ nm_log w)) (N_ID n) (note (remembered n (nm_res w)) now l).
Proof.
  intros Hl Hs Hw. split.
  - eexists _, _. split; [unfold lookups_of; simpl; by rewrite filter_cons_True|]. simpl. destruct l as [a|m]; simpl; rewrite remembered_host; split_and!; try done.
    by eapply lookup_host_says.
  - intros a. destruct l as [b|m]; simpl; rewrite remembered_host; [intros [= ->]; by left|]. intros Ha. right.
    unfold remembered in *. destruct (nm_res w !! N_ID n) as [q|]; [|done]. case_bool_decide as Hh; [|done]. rewrite <-Hh. by apply (Hw q eq_refl).
Qed.

Lemma addr_step_ok dial n now answer w : (forall e, answer = Err e -> e <> "") -> names_ok dial w -> names_ok dial (names_step dial w (EAddr n now answer)).
Proof.
  intros Hs [Hr Hu]. simpl. unfold addrOf. destruct (ParseAddr (Host n)); [done|]. destruct (known _ _) as [q|] eqn:Hk.
  - apply known_old in Hk as [Hk _]. rewrite insert_id by done. done.
  - split.
    + intros id r. destruct (decide (id = N_ID n)) as [->|Hne].
      * cbn [nm_res]. rewrite lookup_insert_eq. intros [= <-]. apply (remembers_noted w n dial now answer); [done|done|]. intros r Hid. by apply Hr.
      * cbn [nm_res]. rewrite lookup_insert_ne by done. intros Hid. apply remembers_more; [by apply Hr|done].
    + intros e a [->|He]%elem_of_cons; [apply lookup_host_ok|by apply Hu].
Qed.

Lemma names_run_ok dial es : Forall says es -> names_ok dial (names_run dial es).
Proof.
  unfold names_run. induction es as [|e es IH] using rev_ind; intros Hes.
  { split; [apply map_Forall_empty|]. by intros e a He%elem_of_nil. }
  apply Forall_app in Hes as [Hes [He _]%Forall_cons]. rewrite foldl_snoc. specialize (IH Hes). destruct e as [n now answer|st].
  - apply addr_step_ok; [|done]. intros m ->. apply He.
  - destruct IH as [Hr Hu]. split; [|done]. simpl. intros id r [Hid _]%map_lookup_filter_Some. by apply Hr.
Qed.

(** The address that is given is the one then remembered. *)
Lemma addrOf_remembered dial n now answer w a : says (EAddr n now answer) -> ParseAddr (Host n) = None -> (addrOf n dial now answer (nm_res w)).1.1 = Ok a ->
  exists r, nm_res (names_step dial w (EAddr n now answer)) !! N_ID n = Some r /\ rv_host r = Host n /\ rv_addr r = Some a /\
    (now - rv_at r < resolveTTL \/ rv_err r <> "").
Proof.
  intros Hs Hp. simpl. unfold addrOf. rewrite Hp. set (cur := remembered n (nm_res w)). pose proof (remembered_host n (nm_res w)) as Hh. fold cur in Hh.
  destruct (known cur now) as [q|] eqn:Hk; simpl; rewrite lookup_insert_eq.
  - intros ->. exists cur. split_and!; try done; unfold known, stale in Hk.
    + destruct (rv_addr cur); [destruct (_ <? _); [|destruct (_ && _)]|destruct (_ && _)]; simplify_eq/=; done.
    + destruct (rv_addr cur); [destruct (Z.ltb_spec (now - rv_at cur) resolveTTL); [by left|]|]; right; intros He; rewrite bool_decide_eq_true_2 in Hk by done; done.
  - destruct (lookup_host dial answer) as [b|m] eqn:Hl.
    + intros [= ->]. eexists. split; [done|]. simpl. split_and!; try done. left. unfold resolveTTL, sec. lia.
    + unfold stale. simpl. destruct (rv_addr cur) as [b|] eqn:Haddr; [|done]. intros [= ->]. eexists. split; [done|]. simpl. split_and!; try done. right.
      eapply lookup_host_says; [|done]. intros e ->. apply Hs.
Qed.

(** Addresses are true. Over any run, an address a node is given to be dialled at
    is its own, written as an address, or it is an answer its name got in a lookup of
    that very name that is in the record; it has the family the bridge dials from
    and is neither unspecified nor multicast. One older than five minutes is given
    only if the newest lookup of the node's name failed. *)
Theorem names_true (dial : ipaddr) (es : list name_event) (n : Node) (now : Z) (answer : result string (list ipaddr)) (a : ipaddr)
    (Hes : Forall says es) (Hans : says (EAddr n now answer)) (Ha : (addrOf n dial now answer (nm_res (names_run dial es))).1.1 = Ok a) :
  (exists b, ParseAddr (Host n) = Some b /\ a = Unmap b) \/
  let w := names_step dial (names_run dial es) (EAddr n now answer) in
  exists t, MkAsked (N_ID n) (Host n) t (Ok a) ∈ nm_log w /\ usable dial a = true /\
    (resolveTTL <= now - t -> exists e rest m, lookups_of (N_ID n) w = e :: rest /\ as_host e = Host n /\ as_res e = Err m).
Proof.
  pose proof (names_run_ok dial es Hes) as Hw. set (w0 := names_run dial es) in *. clearbody w0. clear Hes es.
  destruct (ParseAddr (Host n)) as [b|] eqn:Hp; [left; exists b; split; [done|]; unfold addrOf in Ha; rewrite Hp in Ha; by injection Ha|right]. intros w.
  destruct (addrOf_remembered dial n now answer w0 a Hans Hp Ha) as (r & Hr & Hh & Haddr & Hold). fold w in Hr.
  assert (names_ok dial w) as [Hrem Hu] by (apply addr_step_ok; [intros m ->; apply Hans|done]).
  destruct (Hrem _ _ Hr) as [(e & rest & He & Heh & _ & Hres) Hin]. specialize (Hin a Haddr). rewrite Hh in *.
  exists (rv_at r). split; [done|]. split; [by apply (Hu _ a Hin)|]. intros Hlong. exists e, rest.
  destruct (as_res e) as [b|m]; [|by exists m]. destruct Hres as (_ & _ & Hno). destruct Hold; [lia|done].
Qed.

(** ** Not too often *)

(** Each lookup, the newest first, comes late enough after the one before it. *)
Definition pause (l : result string ipaddr) : Z := match l with Ok _ => resolveTTL | Err _ => resolveRetry end.
Fixpoint paced (l : list asked) : Prop :=
  match l with
  | e2 :: ((e1 :: _) as l') => pause (as_res e1) <= as_at e2 - as_at e1 /\ paced l'
  | _ => True
  end.

(** The node keeps its name and stays in the state. *)
Definition keeps (id : Z) (host : string) (e : name_event) : Prop :=
  match e with EAddr n _ _ => N_ID n = id -> Host n = host | EForget st => is_Some (FindNode st id) end.

Definition pace_ok (id : Z) (host : string) (w : names) : Prop :=
  paced (lookups_of id w) /\ (lookups_of id w <> [] -> exists r, nm_res w !! id = Some r /\ rv_host r = host).

Lemma pace_step dial id host w e : names_ok dial w -> says e -> keeps id host e -> pace_ok id host w -> pace_ok id host (names_step dial w e).
Proof.
  intros [Hrem _] Hs Hk [Hp Hr]. destruct e as [n now answer|st].
  - simpl in *. unfold addrOf. destruct (ParseAddr (Host n)); [done|]. destruct (known _ _) as [q|] eqn:Hkn.
    { apply known_old in Hkn as [Hkn _]. by rewrite insert_id. }
    unfold pace_ok, lookups_of in *. cbn [nm_res nm_log app]. destruct (decide (N_ID n = id)) as [Hid|Hne].
    + rewrite filter_cons_True by done. subst id. specialize (Hk eq_refl). split.
      * destruct (filter _ _) as [|e1 l] eqn:Hf; [done|]. split; [|done]. destruct (Hr ltac:(done)) as (r & Hres & Hh).
        assert (remembered n (nm_res w) = r) as Hcur by (unfold remembered; rewrite Hres, bool_decide_eq_true_2; congruence).
        rewrite Hcur in Hkn. destruct (known_None r now Hkn) as [H1 H2]. destruct (Hrem _ _ Hres) as [(e & es & He & _ & Ht & Hm) _].
        unfold lookups_of in He. rewrite Hf in He. injection He as -> ->. simpl. destruct (as_res e) as [a|m]; simpl.
        -- destruct Hm as (Ha & <- & _). by eapply H1.
        -- destruct Hm as [Herr Hm]. rewrite Ht. apply H2. by rewrite Herr.
      * intros _. eexists. rewrite lookup_insert_eq. split; [done|]. rewrite <-Hk, <-(remembered_host n (nm_res w)). by destruct (lookup_host dial answer).
    + rewrite filter_cons_False by done. split; [done|]. by rewrite lookup_insert_ne.
  - split; [done|]. intros Hl. destruct (Hr Hl) as (r & Hres & Hh). exists r. split; [|done]. apply map_lookup_filter_Some. done.
Qed.

(** Names are not asked for more often than is worth it. Over any run in which a
    node keeps its host name and stays in the state, whatever the calls, their times
    and the answers: after an answer the name is asked again no sooner than five
    minutes later, and after a failure no sooner than half a minute later. *)
Theorem lookups_paced (dial : ipaddr) (id : Z) (host : string) (es : list name_event)
    (Hes : Forall says es) (Hkeep : Forall (keeps id host) es) : paced (lookups_of id (names_run dial es)).
Proof.
  assert (pace_ok id host (names_run dial es)) as [H _]; [|done]. unfold names_run. induction es as [|e es IH] using rev_ind; [done|].
  apply Forall_app in Hes as [Hes [He _]%Forall_cons], Hkeep as [Hkeep [Hk _]%Forall_cons]. rewrite foldl_snoc.
  apply pace_step; [by apply names_run_ok|done..|by apply IH].
Qed.

(** A name that answers, then fails, then answers again. *)
Definition named_node : Node :=
  MkNode 7 "n" "node.example.com" 22 "root" 9090 443 "amd64" NodeRegistered 0 "" "" "" "" "" "" "" 0 0 "" "" noFailure.
Definition demo_asks : list name_event :=
  [EAddr named_node 0 (Ok [IP6 1 ""; IP4 3325256711]); EAddr named_node (sec 299) (Ok [IP4 9]); EAddr named_node (sec 300) (Err "timeout");
   EAddr named_node (sec 329) (Ok [IP4 9])].

Lemma names_true_witness :
  let w := names_step (IP4 1) (names_run (IP4 1) demo_asks) (EAddr named_node (sec 330) (Err "timeout")) in
  (addrOf named_node (IP4 1) (sec 330) (Err "timeout") (nm_res (names_run (IP4 1) demo_asks))).1.1 = Ok (IP4 3325256711) /\
  exists t, MkAsked 7 "node.example.com" t (Ok (IP4 3325256711)) ∈ nm_log w.
Proof.
  split; [vm_compute; reflexivity|].
  destruct (names_true (IP4 1) demo_asks named_node (sec 330) (Err "timeout") (IP4 3325256711)) as [(b & Hb & _)|(t & Ht & _)].
  - repeat (apply Forall_cons; split; [try exact I; discriminate|]). apply Forall_nil_2.
  - discriminate.
  - vm_compute. reflexivity.
  - discriminate.
  - exists t. exact Ht.
Defined.

Lemma lookups_paced_witness :
  as_at <$> lookups_of 7 (names_run (IP4 1) (demo_asks ++ [EAddr named_node (sec 330) (Ok [IP4 9])])) = [sec 330; sec 300; 0] /\
  paced (lookups_of 7 (names_run (IP4 1) (demo_asks ++ [EAddr named_node (sec 330) (Ok [IP4 9])]))).
Proof.
  split; [vm_compute; reflexivity|]. apply (lookups_paced (IP4 1) 7 "node.example.com").
  - repeat (apply Forall_cons; split; [try exact I; discriminate|]). apply Forall_nil_2.
  - repeat (apply Forall_cons; split; [intros _; reflexivity|]). apply Forall_nil_2.
Defined.
