(* ===== verification/HubClients.v ===== *)
(** * The clients on a node's entry

    internal/remotenodes/subscriptions/clients.go: putting a subscription's client on
    a node, taking it off, replacing its credential, and bringing all of a node's
    clients into line. A node's entry is a map from emails to credentials; each call
    to its agent has a fate of its own, which may be that it is lost, or that it is
    done and its answer is lost.

    Theorems: whatever happens to the calls, a client that is not a subscription's is
    never touched and nobody who is rightly there is cut off
    ([reconcile_confined]); when they all get through, the entry ends with exactly
    the clients that are wanted, and the report says what was done
    ([Reconcile_through]). *)

From S2P Require Import Prelude GoString GoUnicode Emails BridgeSpec.

(** ** Text *)

(** [strings.ToLower] on the ASCII the agent's errors and ids are in. *)
Definition lower_char (c : ascii) : ascii := if upper c then ascii_of_N (N_of_ascii c + 32) else c.
Fixpoint ToLower (s : string) : string := match s with EmptyString => EmptyString | String c s => String (lower_char c) (ToLower s) end.
Definition EqualFold (s t : string) : bool := bool_decide (ToLower s = ToLower t).
Fixpoint ContainsString (s p : string) : bool :=
  HasPrefix s p || match s with EmptyString => false | String _ s => ContainsString s p end.

(** [slices.Sort] on strings, by bytes. *)
Definition str_le (a b : string) : Prop := String.leb a b = true.
#[export] Instance str_le_dec : RelDecision str_le.
Proof. intros a b. unfold str_le. apply _. Defined.
Definition sort_strings (l : list string) : list string := merge_sort str_le l.

(** ** A node's agent *)

Abbreviation entry := (gmap string string).

Inductive agent_call := CAdd (email uuid : string) | CRemove (email : string).

(** A call gets through; or it is lost; or it is done and its answer is lost. What
    the caller then reads is a text. *)
Inductive fate := Through | LostCall (text : string) | LostAnswer (text : string).

Section agent.
(** What the agent and the client put in front of Xray's sentence. *)
Context (pre : string).

Definition xray_says (email what : string) : string := pre +:+ "User " +:+ email +:+ " " +:+ what +:+ ".".

(** What Xray does, and the error it answers with. *)
Definition xray (c : agent_call) (e : entry) : option string * entry :=
  match c with
  | CAdd email uuid => match e !! email with Some _ => (Some (xray_says email "already exists"), e) | None => (None, <[email := uuid]> e) end
  | CRemove email => match e !! email with Some _ => (None, delete email e) | None => (Some (xray_says email "not found"), e) end
  end.

Definition send (net : agent_call -> fate) (c : agent_call) (e : entry) : option string * entry :=
  match net c with
  | Through => xray c e
  | LostCall text => (Some text, e)
  | LostAnswer text => (Some text, (xray c e).2)
  end.

(** ** The operations *)

Record Client := MkClient { cl_Email : string; cl_UUID : string }.

Inductive client_error := BadEmail (email : string) | BadUUID (email : string) | WantedTwice (email : string) | NoList (text : string)
| AddFailed (email text : string) | RemoveFailed (email text : string) | CtxDone.

Definition checkEmail (email : string) : option client_error :=
  match ParseSubscriptionEmail email with Some _ => None | None => Some (BadEmail email) end.
Definition Client_check (c : Client) : option client_error :=
  match checkEmail (cl_Email c) with Some e => Some e | None => if uuidRe (cl_UUID c) then None else Some (BadUUID (cl_Email c)) end.

Definition said (err : option string) (email what : string) : bool :=
  match err with None => false | Some text => ContainsString (ToLower text) (ToLower ("user " +:+ email +:+ " " +:+ what)) end.
Definition alreadyThere (err : option string) (email : string) : bool := said err email "already exists".
Definition alreadyGone (err : option string) (email : string) : bool := said err email "not found".

Definition Enable (net : agent_call -> fate) (c : Client) (e : entry) : option client_error * entry :=
  match Client_check c with
  | Some err => (Some err, e)
  | None =>
      let '(err, e) := send net (CAdd (cl_Email c) (cl_UUID c)) e in
      match err with
      | Some text => if alreadyThere err (cl_Email c) then (None, e) else (Some (AddFailed (cl_Email c) text), e)
      | None => (None, e)
      end
  end.

Definition Disable (net : agent_call -> fate) (email : string) (e : entry) : option client_error * entry :=
  match checkEmail email with
  | Some err => (Some err, e)
  | None =>
      let '(err, e) := send net (CRemove email) e in
      match err with
      | Some text => if alreadyGone err email then (None, e) else (Some (RemoveFailed email text), e)
      | None => (None, e)
      end
  end.

Definition Replace (net : agent_call -> fate) (c : Client) (e : entry) : option client_error * entry :=
  match Client_check c with
  | Some err => (Some err, e)
  | None => match Disable net (cl_Email c) e with (Some err, e) => (Some err, e) | (None, e) => Enable net c e end
  end.

(** ** Reconcile *)

Record Diff := MkDiff { Added : list string; Removed : list string; Replaced : list string; Foreign : list string }.
Record UserInfo := MkUser { u_Email : string; u_Uuid : string }.

Record recon := MkRecon { rc_entry : entry; rc_diff : Diff; rc_errs : list client_error }.

Definition failed (r : recon) (e : entry) (err : client_error) : recon := MkRecon e (rc_diff r) (rc_errs r ++ [err]).
Definition added (r : recon) (e : entry) (email : string) : recon :=
  let d := rc_diff r in MkRecon e (MkDiff (Added d ++ [email]) (Removed d) (Replaced d) (Foreign d)) (rc_errs r).
Definition removed (r : recon) (e : entry) (email : string) : recon :=
  let d := rc_diff r in MkRecon e (MkDiff (Added d) (Removed d ++ [email]) (Replaced d) (Foreign d)) (rc_errs r).
Definition replaced (r : recon) (e : entry) (email : string) : recon :=
  let d := rc_diff r in MkRecon e (MkDiff (Added d) (Removed d) (Replaced d ++ [email]) (Foreign d)) (rc_errs r).

(** The context is done when the work on an email begins ([gone]); a text may be
    the context's own error ([wraps]). *)
Context (net : agent_call -> fate) (gone : string -> bool) (wraps : string -> bool).

Definition is_ctx (e : client_error) : bool :=
  match e with CtxDone => true | AddFailed _ t | RemoveFailed _ t | NoList t => wraps t | _ => false end.
Definition cancel (r : recon) : recon := if existsb is_ctx (rc_errs r) then r else failed r (rc_entry r) CtxDone.

Definition changed (have : gmap string string) (c : Client) : bool :=
  match have !! cl_Email c with Some u => negb (bool_decide (u = "")) && negb (EqualFold u (cl_UUID c)) | None => false end.

(** One wanted client that the node lacks, or has with another credential. *)
Definition put_right (there : bool) (c : Client) (r : recon) : recon :=
  if negb there then
    match Enable net c (rc_entry r) with (Some err, e) => failed r e err | (None, e) => added r e (cl_Email c) end
  else
    match Disable net (cl_Email c) (rc_entry r) with
    | (Some err, e) => failed r e err
    | (None, e) =>
        match Enable net c e with
        | (Some err, e) => removed (failed r e err) e (cl_Email c)
        | (None, e) => replaced r e (cl_Email c)
        end
    end.

(** The first loop; the flag is that it returned early. *)
Fixpoint want_loop (have : gmap string string) (want : list Client) (r : recon) : recon * bool :=
  match want with
  | [] => (r, false)
  | c :: want =>
      let there := bool_decide (is_Some (have !! cl_Email c)) in
      if there && negb (changed have c) then want_loop have want r else
      if gone (cl_Email c) then (cancel r, true) else want_loop have want (put_right there c r)
  end.

(** One client nobody wants any more. *)
Definition take_off (email : string) (r : recon) : recon :=
  match Disable net email (rc_entry r) with (Some err, e) => failed r e err | (None, e) => removed r e email end.

Fixpoint extra_loop (extra : list string) (r : recon) : recon :=
  match extra with
  | [] => r
  | email :: extra =>
      if gone email then cancel r else
      extra_loop extra (take_off email r)
  end.

(** The checks on what is wanted: each is one, and none twice. *)
Fixpoint check_want (seen : list string) (want : list Client) : option client_error :=
  match want with
  | [] => None
  | c :: want =>
      match Client_check c with
      | Some e => Some e
      | None => if bool_decide (cl_Email c ∈ seen) then Some (WantedTwice (cl_Email c)) else check_want (cl_Email c :: seen) want
      end
  end.

Definition have_of (users : list (option UserInfo)) : gmap string string :=
  foldl (fun m u => match u with Some u => <[u_Email u := u_Uuid u]> m | None => m end) ∅ users.

Definition noDiff : Diff := MkDiff [] [] [] [].

(** [list] is the agent's answer to being asked for its users. *)
Definition Reconcile (list_ : result string (list (option UserInfo))) (want : list Client) (e : entry) : recon :=
  match check_want [] want with
  | Some err => MkRecon e noDiff [err]
  | None =>
      match list_ with
      | Err text => MkRecon e noDiff [NoList text]
      | Ok users =>
          let have := have_of users in
          let wanted := cl_Email <$> want in
          let rest := filter (fun email => email ∉ wanted) (elements (dom have)) in
          let extra := sort_strings (filter (fun email => is_Some (ParseSubscriptionEmail email)) rest) in
          let foreign := sort_strings (filter (fun email => ~ is_Some (ParseSubscriptionEmail email)) rest) in
          let '(r, stop) := want_loop have want (MkRecon e (MkDiff [] [] [] foreign) []) in
          if stop then r else extra_loop extra r
      end
  end.
End agent.

(** ** What Xray says is understood *)

Lemma string_app_assoc (a b c : string) : (a +:+ b) +:+ c = a +:+ (b +:+ c).
Proof. induction a as [|x a IH]; [done|]. rewrite !string_app_cons. by rewrite IH. Qed.

Lemma ToLower_app a b : ToLower (a +:+ b) = ToLower a +:+ ToLower b.
Proof. induction a as [|c a IH]; [done|]. rewrite string_app_cons. simpl. by rewrite IH. Qed.

Lemma contains_prefix p b : ContainsString (p +:+ b) p = true.
Proof. assert (HasPrefix (p +:+ b) p = true) as H by (unfold HasPrefix; by rewrite CutPrefix_app). destruct (p +:+ b); cbn [ContainsString]; by rewrite H. Qed.

Lemma contains_after a s p : ContainsString s p = true -> ContainsString (a +:+ s) p = true.
Proof. intros Hs. induction a as [|c a IH]; [done|]. rewrite string_app_cons. cbn [ContainsString]. by rewrite IH, orb_true_r. Qed.

Lemma said_xray pre email what : said (Some (xray_says pre email what)) email what = true.
Proof.
  unfold said, xray_says. rewrite ToLower_app. apply contains_after.
  replace ("User " +:+ email +:+ " " +:+ what +:+ ".") with (("User " +:+ email +:+ " " +:+ what) +:+ ".") by (by rewrite !string_app_assoc).
  rewrite ToLower_app. apply (contains_prefix (ToLower ("user " +:+ email +:+ " " +:+ what))).
Qed.

(** ** What one operation can do, whatever its fate *)

Section ops.
Context (pre : string) (net : agent_call -> fate).

Lemma send_add email uuid e : (send pre net (CAdd email uuid) e).2 = e \/ e !! email = None /\ (send pre net (CAdd email uuid) e).2 = <[email := uuid]> e.
Proof. unfold send, xray. destruct (net _), (e !! email); simpl; auto. Qed.

Lemma send_remove email e : (send pre net (CRemove email) e).2 = e \/ (send pre net (CRemove email) e).2 = delete email e.
Proof. unfold send, xray. destruct (net _), (e !! email); simpl; auto. Qed.

Lemma Enable_does c e : (Enable pre net c e).2 = e \/ e !! cl_Email c = None /\ (Enable pre net c e).2 = <[cl_Email c := cl_UUID c]> e.
Proof.
  unfold Enable. destruct (Client_check c); [by left|]. pose proof (send_add (cl_Email c) (cl_UUID c) e) as H.
  destruct (send _ _ _ _) as [[text|] e']; cbn [snd] in *; [|done]. by destruct (alreadyThere (Some text) (cl_Email c)).
Qed.

Lemma Disable_does email e : (Disable pre net email e).2 = e \/ is_Some (ParseSubscriptionEmail email) /\ (Disable pre net email e).2 = delete email e.
Proof.
  unfold Disable, checkEmail. destruct (ParseSubscriptionEmail email); [|by left]. pose proof (send_remove email e) as H.
  destruct (send _ _ _ _) as [[text|] e']; cbn [snd] in *; [destruct (alreadyGone (Some text) email)|]; destruct H; eauto.
Qed.

(** When the call gets through it works, and says so. *)
Lemma Enable_through c e : Client_check c = None -> net (CAdd (cl_Email c) (cl_UUID c)) = Through ->
  Enable pre net c e = (None, match e !! cl_Email c with Some _ => e | None => <[cl_Email c := cl_UUID c]> e end).
Proof.
  intros Hc Hn. unfold Enable, send, xray. rewrite Hc, Hn. destruct (e !! cl_Email c); [|done].
  unfold alreadyThere. by rewrite said_xray.
Qed.

Lemma Disable_through email e : is_Some (ParseSubscriptionEmail email) -> net (CRemove email) = Through -> Disable pre net email e = (None, delete email e).
Proof.
  intros [id Hp] Hn. unfold Disable, checkEmail, send, xray. rewrite Hp, Hn. destruct (e !! email) eqn:He; [done|].
  unfold alreadyGone. by rewrite said_xray, delete_id.
Qed.

Lemma Client_check_email c : Client_check c = None -> is_Some (ParseSubscriptionEmail (cl_Email c)).
Proof. unfold Client_check, checkEmail. destruct (ParseSubscriptionEmail _); [by eexists|done]. Qed.

Context (gone : string -> bool) (wraps : string -> bool).

(** What is done for one wanted client touches that client and gives it the wanted
    credential, or takes it off on the way. *)
Lemma put_right_lookup there c r x :
  rc_entry (put_right pre net there c r) !! x = rc_entry r !! x \/
  x = cl_Email c /\ (rc_entry (put_right pre net there c r) !! x = Some (cl_UUID c) \/ there = true /\ rc_entry (put_right pre net there c r) !! x = None).
Proof.
  destruct (decide (x = cl_Email c)) as [->|Hne]; unfold put_right; destruct there; simpl.
  - pose proof (Disable_does (cl_Email c) (rc_entry r)) as Hd. destruct (Disable _ _ _ _) as [[err|] e]; simpl in *.
    + destruct Hd as [->|[_ ->]]; [by left|]. rewrite lookup_delete_eq. auto.
    + pose proof (Enable_does c e) as He. destruct (Enable _ _ _ _) as [[err|] e']; simpl in *;
        destruct He as [->|[_ ->]]; rewrite ?lookup_insert_eq; auto; (destruct Hd as [->|[_ ->]]; [by left|]; rewrite lookup_delete_eq; auto).
  - pose proof (Enable_does c (rc_entry r)) as He. destruct (Enable _ _ _ _) as [[err|] e']; simpl in *;
      destruct He as [->|[_ ->]]; rewrite ?lookup_insert_eq; auto.
  - left. pose proof (Disable_does (cl_Email c) (rc_entry r)) as Hd. destruct (Disable _ _ _ _) as [[err|] e]; simpl in *.
    + destruct Hd as [->|[_ ->]]; [done|]. by rewrite lookup_delete_ne.
    + pose proof (Enable_does c e) as He. assert (e !! x = rc_entry r !! x) as <- by (destruct Hd as [->|[_ ->]]; [done|by rewrite lookup_delete_ne]).
      destruct (Enable _ _ _ _) as [[err|] e']; simpl in *; destruct He as [->|[_ ->]]; rewrite ?lookup_insert_ne; done.
  - left. pose proof (Enable_does c (rc_entry r)) as He. destruct (Enable _ _ _ _) as [[err|] e']; simpl in *;
      destruct He as [->|[_ ->]]; rewrite ?lookup_insert_ne; done.
Qed.

Lemma cancel_entry r : rc_entry (cancel wraps r) = rc_entry r.
Proof. unfold cancel. by destruct (existsb _ _). Qed.

(** A wanted client that is not as it should be. *)
Definition needs (have : gmap string string) (c : Client) : bool := negb (bool_decide (is_Some (have !! cl_Email c))) || changed have c.

Lemma want_loop_lookup have want r x :
  let e' := rc_entry (want_loop pre net gone wraps have want r).1 in
  e' !! x = rc_entry r !! x \/
  exists c, c ∈ want /\ cl_Email c = x /\ needs have c = true /\ (e' !! x = Some (cl_UUID c) \/ is_Some (have !! x) /\ e' !! x = None).
Proof.
  revert r. induction want as [|c want IH]; intros r; cbn [want_loop]; [by left|].
  assert (forall (P : Client -> Prop), (exists d, d ∈ want /\ P d) -> exists d, d ∈ c :: want /\ P d) as Hmore by (intros P (d & Hd & HP); exists d; split; [by right|done]).
  destruct (bool_decide (is_Some (have !! cl_Email c)) && negb (changed have c)) eqn:Hn.
  { destruct (IH r) as [->|Hex]; [by left|]. right. by apply Hmore. }
  destruct (gone (cl_Email c)); [left; simpl; by rewrite cancel_entry|].
  set (there := bool_decide _) in *. destruct (IH (put_right pre net there c r)) as [He|Hex]; [|right; by apply Hmore].
  rewrite He. destruct (put_right_lookup there c r x) as [->|[-> Hc]]; [by left|]. right. exists c.
  split; [by left|]. split; [done|]. split.
  { unfold needs. fold there. apply andb_false_iff in Hn as [->|Hch%negb_false_iff]; [done|rewrite Hch; apply orb_true_r]. }
  destruct Hc as [->|[Ht ->]]; [by left|right]. split; [|done]. by apply bool_decide_eq_true in Ht.
Qed.

Lemma extra_loop_lookup extra r x :
  let e' := rc_entry (extra_loop pre net gone wraps extra r) in
  e' !! x = rc_entry r !! x \/ x ∈ extra /\ is_Some (ParseSubscriptionEmail x) /\ e' !! x = None.
Proof.
  revert r. induction extra as [|email extra IH]; intros r; cbn [extra_loop]; [by left|].
  destruct (gone email); [left; by rewrite cancel_entry|]. set (r1 := take_off _ _ email r).
  assert (rc_entry r1 !! x = rc_entry r !! x \/ x = email /\ is_Some (ParseSubscriptionEmail x) /\ rc_entry r1 !! x = None) as H1.
  { unfold r1, take_off. pose proof (Disable_does email (rc_entry r)) as Hd. destruct (Disable _ _ _ _) as [[err|] e]; simpl in *;
      (destruct Hd as [->|[Hp ->]]; [by left|]); destruct (decide (x = email)) as [->|Hne];
      rewrite ?lookup_delete_eq, ?lookup_delete_ne by done; auto. }
  destruct (IH r1) as [He|(Hin & Hrest)]; [|right; split; [by right|done]]. rewrite He. destruct H1 as [->|[-> Hrest]]; [by left|]. right. split; [by left|done].
Qed.
End ops.

Lemma check_want_None seen want : check_want seen want = None ->
  Forall (fun c => Client_check c = None) want /\ NoDup (cl_Email <$> want) /\ forall c, c ∈ want -> cl_Email c ∉ seen.
Proof.
  revert seen. induction want as [|c want IH]; intros seen; cbn [check_want fmap list_fmap].
  { intros _. split_and!; [constructor|constructor|]. by intros c Hc%elem_of_nil. }
  destruct (Client_check c) eqn:Hc; [done|]. case_bool_decide as Hin; [done|]. intros (Hf & Hnd & Hseen)%IH. split_and!.
  - by constructor.
  - constructor; [|done]. intros (d & Hd & Hdw)%list_elem_of_fmap. apply (Hseen d Hdw). rewrite <-Hd. by left.
  - intros d [->|Hd]%elem_of_cons; [done|]. intros Hds. apply (Hseen d Hd). by right.
Qed.

Lemma sort_strings_elem x l : x ∈ sort_strings l <-> x ∈ l.
Proof. unfold sort_strings. by rewrite merge_sort_Permutation. Qed.

(** What reconciling can make of one email. *)
Lemma Reconcile_lookup (pre : string) (net : agent_call -> fate) (gone wraps : string -> bool)
    (list_ : result string (list (option UserInfo))) (want : list Client) (e : entry) (x : string) :
  let e' := rc_entry (Reconcile pre net gone wraps list_ want e) in
  e' !! x = e !! x \/
  check_want [] want = None /\ is_Some (ParseSubscriptionEmail x) /\
  ((exists c, c ∈ want /\ cl_Email c = x /\ (e' !! x = Some (cl_UUID c) \/ e' !! x = None) /\
      match list_ with Ok users => needs (have_of users) c = true | Err _ => False end) \/
   x ∉ cl_Email <$> want /\ e' !! x = None).
Proof.
  unfold Reconcile. destruct (check_want [] want) eqn:Hw; [by left|]. destruct list_ as [users|text]; [|by left].
  apply check_want_None in Hw as (Hchk & _ & _). set (have := have_of users). set (foreign := sort_strings _). set (extra := sort_strings _). set (r0 := MkRecon _ _ _).
  pose proof (want_loop_lookup pre net gone wraps have want r0 x) as Hl. destruct (want_loop _ _ _ _ _ _ _) as [r stop]. cbv zeta in Hl. cbn [fst] in Hl.
  assert (forall e' : entry, e' !! x = rc_entry r !! x ->
    e' !! x = e !! x \/ @None client_error = None /\ is_Some (ParseSubscriptionEmail x) /\
    ((exists c, c ∈ want /\ cl_Email c = x /\ (e' !! x = Some (cl_UUID c) \/ e' !! x = None) /\ needs have c = true) \/
     x ∉ cl_Email <$> want /\ e' !! x = None)) as Hdone.
  { intros e' ->. destruct Hl as [->|(c & Hc & <- & Hn & Hcase)]; [by left|]. right. rewrite Forall_forall in Hchk. split; [done|].
    split; [by apply Client_check_email, Hchk|]. left. exists c. split_and!; try done. destruct Hcase as [->|[_ ->]]; auto. }
  destruct stop; cbn zeta; [by apply Hdone|].
  destruct (extra_loop_lookup pre net gone wraps extra r x) as [He|(Hin & Hp & He)]; [by apply Hdone|]. right. split; [done|]. split; [done|]. right. split; [|done].
  unfold extra in Hin. rewrite sort_strings_elem, !list_elem_of_filter in Hin. tauto.
Qed.

(** Reconciling never goes beyond its job. Whatever the agent lists, and whatever
    happens to each call - lost, or done with its answer lost, or never made because
    the time ran out -: a client that is not a subscription's is as it was; so is a
    wanted client the agent lists, with the wanted credential or with none to
    compare; and any other is as it was, or gone, or has the credential that is
    wanted. *)
Theorem reconcile_confined (pre : string) (net : agent_call -> fate) (gone wraps : string -> bool)
    (list_ : result string (list (option UserInfo))) (want : list Client) (e : entry) (x : string) :
  let e' := rc_entry (Reconcile pre net gone wraps list_ want e) in
  (ParseSubscriptionEmail x = None -> e' !! x = e !! x) /\
  (forall users c, list_ = Ok users -> c ∈ want -> cl_Email c = x -> needs (have_of users) c = false -> e' !! x = e !! x) /\
  (e' !! x = e !! x \/ e' !! x = None \/ exists c, c ∈ want /\ cl_Email c = x /\ e' !! x = Some (cl_UUID c)).
Proof.
  intros e'. pose proof (Reconcile_lookup pre net gone wraps list_ want e x) as H. cbv zeta in H. fold e' in H. clearbody e'.
  destruct H as [He|(Hw & [id Hp] & Hcase)]; [by auto|].
  split; [by rewrite Hp|]. split.
  - intros users c -> Hc Hx Hn. destruct Hcase as [(d & Hd & Hdx & _ & Hneeds)|[Hnin _]]; [|destruct Hnin; rewrite <-Hx; by apply list_elem_of_fmap_2].
    apply check_want_None in Hw as (_ & Hnd & _). assert (c = d) as ->; [|congruence].
    apply list_elem_of_lookup in Hc as [i Hi]. apply list_elem_of_lookup in Hd as [j Hj].
    assert (i = j) as ->; [|congruence]. eapply NoDup_lookup; [exact Hnd|rewrite list_lookup_fmap, Hi; cbn; by rewrite Hx|rewrite list_lookup_fmap, Hj; cbn; by rewrite Hdx].
  - right. destruct Hcase as [(c & Hc & Hx & [H|H] & _)|[_ H]]; [right; by exists c|by left|by left].
Qed.

(** ** When every call gets through *)

Section through.
Context (pre : string) (net : agent_call -> fate) (gone wraps : string -> bool).
Context (Hnet : forall c, net c = Through) (Hgone : forall x, gone x = false).

Lemma put_right_through there c r : Client_check c = None -> there = bool_decide (is_Some (rc_entry r !! cl_Email c)) ->
  put_right pre net there c r = (if there then replaced else added) r (<[cl_Email c := cl_UUID c]> (rc_entry r)) (cl_Email c).
Proof.
  intros Hc ->. unfold put_right. case_bool_decide as Hs; cbn [negb].
  - rewrite Disable_through, Enable_through, lookup_delete_eq by eauto using Client_check_email. by rewrite insert_delete_eq.
  - apply eq_None_not_Some in Hs. by rewrite Enable_through, Hs by done.
Qed.

Lemma want_loop_through have want r :
  Forall (fun c => Client_check c = None) want -> NoDup (cl_Email <$> want) ->
  (forall c, c ∈ want -> is_Some (have !! cl_Email c) <-> is_Some (rc_entry r !! cl_Email c)) ->
  exists e', want_loop pre net gone wraps have want r =
    (MkRecon e' (MkDiff (Added (rc_diff r) ++ (cl_Email <$> filter (fun c => have !! cl_Email c = None) want)) (Removed (rc_diff r))
                   (Replaced (rc_diff r) ++ (cl_Email <$> filter (fun c => changed have c = true) want)) (Foreign (rc_diff r))) (rc_errs r), false) /\
    (forall x, x ∉ cl_Email <$> want -> e' !! x = rc_entry r !! x) /\
    (forall c, c ∈ want -> e' !! cl_Email c = if needs have c then Some (cl_UUID c) else rc_entry r !! cl_Email c).
Proof.
  intros Hchk. revert r. induction Hchk as [|c want Hc Hchk IH]; intros r Hnd Hlist.
  { exists (rc_entry r). split; [destruct r as [e [a d p f] err]; cbn; by rewrite !app_nil_r|]. split; [done|]. by intros c Hc%elem_of_nil. }
  apply NoDup_cons in Hnd as [Hnin Hnd]. cbn [want_loop]. set (there := bool_decide (is_Some (have !! cl_Email c))).
  assert (Hne : forall d, d ∈ want -> cl_Email d <> cl_Email c) by (intros d Hd He; apply Hnin; rewrite <-He; by apply list_elem_of_fmap_2).
  destruct (there && negb (changed have c)) eqn:Hn.
  - apply andb_true_iff in Hn as [Hth Hch%negb_true_iff]. unfold there in Hth. apply bool_decide_eq_true in Hth as [u Hu].
    destruct (IH r Hnd) as (e' & -> & Hout & Hin); [intros d Hd; apply Hlist; by right|]. exists e'.
    rewrite !filter_cons_False by congruence. split; [done|]. split.
    + intros x Hx. apply Hout. intros Hxw. apply Hx. by right.
    + intros d [->|Hd]%elem_of_cons; [|by apply Hin]. unfold needs. rewrite Hu, Hch, bool_decide_eq_true_2 by done. by apply Hout.
  - rewrite Hgone. assert (there = bool_decide (is_Some (rc_entry r !! cl_Email c))) as Hth by (apply bool_decide_ext, Hlist; by left).
    rewrite (put_right_through there c r Hc Hth). set (r1 := (if there then _ else _) _ _ _).
    assert (rc_entry r1 = <[cl_Email c := cl_UUID c]> (rc_entry r)) as He1 by (unfold r1; by destruct there).
    destruct (IH r1 Hnd) as (e' & -> & Hout & Hin).
    { intros d Hd. rewrite He1, lookup_insert_ne by (symmetry; by apply Hne). apply Hlist. by right. }
    exists e'. split; [|split].
    + f_equal. unfold r1, there in *. destruct (have !! cl_Email c) as [u|] eqn:Hu.
      * rewrite bool_decide_eq_true_2 in * by done. cbn [andb negb] in Hn. apply negb_false_iff in Hn.
        rewrite filter_cons_False, filter_cons_True by congruence. cbn. by rewrite <-app_assoc.
      * rewrite bool_decide_eq_false_2 by (by intros [? ?]).
        rewrite filter_cons_True, filter_cons_False by (done || (unfold changed; by rewrite Hu)). cbn. by rewrite <-app_assoc.
    + intros x Hx. rewrite Hout, He1, lookup_insert_ne; [done|set_solver|set_solver].
    + intros d [->|Hd]%elem_of_cons.
      * rewrite Hout, He1, lookup_insert_eq by done. replace (needs have c) with true; [done|].
        unfold needs. fold there. destruct there; [|done]. apply negb_false_iff in Hn. by rewrite Hn.
      * rewrite Hin, He1 by done. by rewrite lookup_insert_ne by (symmetry; by apply Hne).
Qed.

Lemma extra_loop_through extra r : Forall (fun email => is_Some (ParseSubscriptionEmail email)) extra ->
  exists e', extra_loop pre net gone wraps extra r =
    MkRecon e' (MkDiff (Added (rc_diff r)) (Removed (rc_diff r) ++ extra) (Replaced (rc_diff r)) (Foreign (rc_diff r))) (rc_errs r) /\
    forall x, e' !! x = if bool_decide (x ∈ extra) then None else rc_entry r !! x.
Proof.
  intros He. revert r. induction He as [|email extra Hp He IH]; intros r; cbn [extra_loop].
  { exists (rc_entry r). split; [destruct r as [e [a d p f] err]; cbn; by rewrite app_nil_r|done]. }
  rewrite Hgone. unfold take_off. rewrite Disable_through by done. destruct (IH (removed r (delete email (rc_entry r)) email)) as (e' & -> & Hx).
  exists e'. cbn. split; [by rewrite <-app_assoc|]. intros x. rewrite Hx. cbn [removed rc_entry]. destruct (decide (x = email)) as [->|Hne].
  - rewrite lookup_delete_eq. rewrite (bool_decide_eq_true_2 (email ∈ email :: extra)) by (by left). by case_bool_decide.
  - rewrite lookup_delete_ne by done. erewrite bool_decide_ext; [done|]. rewrite elem_of_cons. tauto.
Qed.
End through.

(** The agent lists the clients the entry has. *)
Definition lists (users : list (option UserInfo)) (e : entry) : Prop := forall email, is_Some (have_of users !! email) <-> is_Some (e !! email).

(** A reconciliation that gets through makes the entry what is wanted. Where the
    agent lists its clients and every call gets through, there is no error; a wanted
    client is there, with the wanted credential if it was missing or listed with
    another one and as it was if not; no other subscription's client is left, and
    the rest is untouched. The report says so: the clients added are the ones that
    were missing, those replaced had another credential, those removed are the
    subscriptions' clients nobody wants, and the foreign ones are the rest. *)
Lemma Reconcile_through (pre : string) (net : agent_call -> fate) (gone wraps : string -> bool)
    (users : list (option UserInfo)) (want : list Client) (e : entry)
    (Hnet : forall c, net c = Through) (Hgone : forall x, gone x = false)
    (Hwant : check_want [] want = None) (Hlist : lists users e) :
  let r := Reconcile pre net gone wraps (Ok users) want e in
  rc_errs r = [] /\
  (forall c, c ∈ want -> rc_entry r !! cl_Email c = if needs (have_of users) c then Some (cl_UUID c) else e !! cl_Email c) /\
  (forall x, x ∉ cl_Email <$> want -> rc_entry r !! x = match ParseSubscriptionEmail x with Some _ => None | None => e !! x end) /\
  Added (rc_diff r) = cl_Email <$> filter (fun c => e !! cl_Email c = None) want /\
  Replaced (rc_diff r) = cl_Email <$> filter (fun c => changed (have_of users) c = true) want /\
  (forall x, x ∈ Removed (rc_diff r) <-> x ∉ cl_Email <$> want /\ is_Some (ParseSubscriptionEmail x) /\ is_Some (e !! x)) /\
  (forall x, x ∈ Foreign (rc_diff r) <-> x ∉ cl_Email <$> want /\ ParseSubscriptionEmail x = None /\ is_Some (e !! x)).
Proof.
  pose proof (check_want_None [] want Hwant) as (Hchk & Hnd & _). unfold Reconcile. rewrite Hwant. set (have := have_of users) in *.
  assert (forall x, is_Some (have !! x) <-> is_Some (e !! x)) as Hl by exact Hlist.
  set (foreign := sort_strings _). set (extra := sort_strings _). set (r0 := MkRecon _ _ _).
  assert (Hfor : forall x, x ∈ foreign <-> x ∉ cl_Email <$> want /\ ParseSubscriptionEmail x = None /\ is_Some (e !! x)).
  { intros x. unfold foreign. rewrite sort_strings_elem, !list_elem_of_filter, elem_of_elements, elem_of_dom, (Hl x), eq_None_not_Some. tauto. }
  assert (Hext : forall x, x ∈ extra <-> x ∉ cl_Email <$> want /\ is_Some (ParseSubscriptionEmail x) /\ is_Some (e !! x)).
  { intros x. unfold extra. rewrite sort_strings_elem, !list_elem_of_filter, elem_of_elements, elem_of_dom, (Hl x). tauto. }
  destruct (want_loop_through pre net gone wraps Hnet Hgone have want r0) as (e1 & -> & Hout & Hin); [done|done|intros c _; apply Hl|].
  match goal with |- context [extra_loop _ _ _ _ extra ?r] => destruct (extra_loop_through pre net gone wraps Hnet Hgone extra r) as (e2 & -> & Hx) end.
  { apply Forall_forall. intros x Hx%Hext. tauto. }
  cbn [rc_entry rc_diff rc_errs Added Removed Replaced Foreign r0 app] in *. split_and!; try done.
  - intros c Hc. rewrite Hx, bool_decide_eq_false_2; [by apply Hin|]. intros (Hn & _)%Hext. apply Hn. by apply list_elem_of_fmap_2.
  - intros x Hnx. rewrite Hx. case_bool_decide as He.
    + apply Hext in He as (_ & [id Hid] & _). by rewrite Hid.
    + rewrite Hout by done. destruct (ParseSubscriptionEmail x) eqn:Hp; [|done]. destruct (e !! x) eqn:Hex; [|done].
      destruct He. apply Hext. rewrite Hp, Hex. eauto.
  - f_equal. apply list_filter_iff. intros c. rewrite !eq_None_not_Some, (Hl (cl_Email c)). done.
Qed.

(** Two clients wanted: one is missing, one is there; a third is not wanted, and the
    bridge's own is left alone. *)
Definition demo_uuid (d : string) : string := "00000000-0000-4000-8000-00000000000" +:+ d.
Definition demo_want : list Client := [MkClient "sub-1@remote-nodes" (demo_uuid "1"); MkClient "sub-2@remote-nodes" (demo_uuid "2")].
Definition demo_entry : entry :=
  {["sub-2@remote-nodes" := demo_uuid "2"; "sub-3@remote-nodes" := demo_uuid "3"; "rvs-t1@reverse" := demo_uuid "9"]}.
Definition demo_users : list (option UserInfo) :=
  [Some (MkUser "rvs-t1@reverse" ""); None; Some (MkUser "sub-3@remote-nodes" ""); Some (MkUser "sub-2@remote-nodes" "")].

Lemma reconcile_confined_witness :
  rc_entry (Reconcile "" (fun _ => LostAnswer "deadline exceeded") (fun _ => false) (fun _ => false) (Ok demo_users) demo_want demo_entry) !! "sub-2@remote-nodes" =
  Some (demo_uuid "2").
Proof.
  destruct (reconcile_confined "" (fun _ => LostAnswer "deadline exceeded") (fun _ => false) (fun _ => false) (Ok demo_users) demo_want demo_entry "sub-2@remote-nodes")
    as (_ & H & _).
  apply (H demo_users (MkClient "sub-2@remote-nodes" (demo_uuid "2"))); [reflexivity|right; left|reflexivity|vm_compute; reflexivity].
Defined.

Lemma Reconcile_through_demo :
  let r := Reconcile "rpc error: " (fun _ => Through) (fun _ => false) (fun _ => false) (Ok demo_users) demo_want demo_entry in
  rc_errs r = [] /\ Added (rc_diff r) = ["sub-1@remote-nodes"].
Proof.
  destruct (Reconcile_through "rpc error: " (fun _ => Through) (fun _ => false) (fun _ => false) demo_users demo_want demo_entry)
    as (H1 & _ & _ & H2 & _); [reflexivity|reflexivity|vm_compute; reflexivity| |].
  - assert (dom (have_of demo_users) = dom demo_entry) as Hd by (apply (bool_decide_unpack _); vm_compute; exact I).
    intros x. rewrite <-!elem_of_dom. by rewrite Hd.
  - split; [exact H1|]. rewrite H2. vm_compute. reflexivity.
Defined.
