(* ===== verification/HubSubs.v ===== *)
(** * Subscriptions on nodes

    internal/remotenodes/manager/subs.go, config.go and the reconcile of poll.go: a
    change to a subscription goes into the state and then to the nodes that can be
    reached, and a node's clients are put right with the state when it is back. A node
    has the clients its Xray runs and those in its config file, which a restart of
    Xray goes back to and a push of a config replaces. An operation holds the locks of
    the nodes it changes, so it is one step; what it finds outside (the connections,
    the fate of each call, the disk, new ids) is an argument. Links as text are in
    [HubLink], the locks themselves in [HubLocks]; events, the log and the reconnect
    that is asked for after a failed call are left out.

    Theorems: as long as no link is replaced, whatever is lost on the way, a node that
    is reconciled serves exactly the links the state stands for ([links_work]); a push
    does that also after links were replaced ([push_settles]); and a replacement that
    is reported did it ([replace_honest]). A replaced link comes back when the node's
    Xray restarts ([replaced_link_revives]), and an answer that is lost leaves the
    node with a client id nobody knows ([replace_answer_lost]). *)

From S2P Require Import Prelude GoString GoUnicode GoNetip Emails BridgeSpec HubClients HubState HubStore HubLimits.

(** ** The nodes *)

Record hub := MkHub { hb_store : Store; hb_run : gmap Z entry; hb_file : gmap Z entry; hb_usage : UsageCollector.Collector }.

Definition running (w : hub) (n : Z) : entry := default ∅ (hb_run w !! n).
Definition in_file (w : hub) (n : Z) : entry := default ∅ (hb_file w !! n).
Definition st_of (w : hub) : State := cur (hb_store w).

Definition with_store (st : Store) (w : hub) : hub := MkHub st (hb_run w) (hb_file w) (hb_usage w).
Definition with_running (n : Z) (e : entry) (w : hub) : hub := MkHub (hb_store w) (<[n := e]> (hb_run w)) (hb_file w) (hb_usage w).
Definition with_usage (c : UsageCollector.Collector) (w : hub) : hub := MkHub (hb_store w) (hb_run w) (hb_file w) c.

(** What an operation finds: which nodes are connected, what becomes of each call,
    whether the disk takes a write, the time, whether the locks could be had, which
    nodes have an install running, and the client ids that are made, by node. *)
Record env := MkEnv {
  v_held : Z -> bool; v_net : Z -> agent_call -> fate; v_disk : bool; v_now : Z; v_locked : bool; v_installing : Z -> bool; v_uuid : Z -> result error string
}.

Inductive sub_error := SubErr (e : error) | ErrBusy (node : Z) | SwitchedOff | CantReach | NotTaken | LockLost.

Definition clientOf (sub : Z) (uuid : string) : Client := MkClient (SubscriptionEmail sub) uuid.

Definition with_ens (s : State) (es : list Enablement) : State :=
  MkState (Version s) (NextNodeID s) (NextSubscriptionID s) (Settings_ s) (LastBackupAt s) (CACert s) (CAKey s) (Nodes s) (Subscriptions s) es.
Definition set_en (e : Enablement) (on : bool) : Enablement := MkEn (SubscriptionID e) (NodeID e) (ClientUUID e) on.
Definition set_uuid (e : Enablement) (uuid : string) : Enablement := MkEn (SubscriptionID e) (NodeID e) uuid (Enabled e).

(** The enablement [FindEnablement] points at, changed. *)
Fixpoint change_en (sub node : Z) (f : Enablement -> Enablement) (l : list Enablement) : list Enablement :=
  match l with
  | [] => []
  | e :: l => if (SubscriptionID e =? sub) && (NodeID e =? node) then f e :: l else e :: change_en sub node f l
  end.

Definition registered (s : State) (id : Z) : bool := match FindNode s id with Some n => bool_decide (State_ n = NodeRegistered) | None => false end.

Section manager.
Context (fold : Z -> Z) (ParseAddr : string -> option Addr) (loadCA : string -> string -> bool).
(** What stands in front of Xray's words in an agent's error. *)
Context (pre : string).

Definition subscribable (v : env) (s : State) (id : Z) : option sub_error :=
  match FindNode s id with
  | None => Some (SubErr (ErrNotFound "node" id))
  | Some n =>
      if v_installing v id then Some (ErrBusy id) else
      if negb (bool_decide (State_ n = NodeRegistered)) then Some (SubErr (ErrNotFound "node" id)) else None
  end.

(** [callNode]: whether there is a connection, and what the call came to. *)
Definition callNode (v : env) (n : Z) (f : (agent_call -> fate) -> entry -> option client_error * entry) (w : hub) : (bool * option client_error) * hub :=
  if v_held v n then let '(err, e) := f (v_net v n) (running w n) in ((true, err), with_running n e w) else ((false, None), w).
Definition applyTo (v : env) (n : Z) (f : (agent_call -> fate) -> entry -> option client_error * entry) (w : hub) : hub := (callNode v n f w).2.

Definition update (v : env) (edit : State -> result error State) (w : hub) : result error unit * hub :=
  let '(st, r) := Update fold ParseAddr loadCA (hb_store w) edit (v_disk v) in (r, with_store st w).

(** ** The operations *)

Definition enable_new (v : env) (sub : Z) (s : State) (id : Z) : result error State :=
  if registered s id then
    rbind (fun cid => Ok (with_ens s (Enablements s ++ [MkEn sub id cid true]))) (v_uuid v id)
  else Err (ErrNotFound "node" id).

Definition create_edit (v : env) (name : string) (ids : list Z) (limit expires : Z) (s : State) : result error State :=
  rbind (fun r => foldM (enable_new v (S_ID r.2)) r.1 ids) (AddSubscription fold s (MkSub 0 name (v_now v) limit 0 0 expires "")).

Definition CreateSubscription (v : env) (name : string) (nodeIDs : list Z) (limit expires : Z) (w : hub) : result sub_error Z * hub :=
  match CleanName name with
  | Err e => (Err (SubErr e), w)
  | Ok name =>
      match checkLimits limit expires zeroTime (v_now v) with
      | Err e => (Err (SubErr e), w)
      | Ok expires =>
          let ids := sort_on (fun id => id) (elements (list_to_set nodeIDs : gset Z)) in
          match omap (subscribable v (st_of w)) ids with
          | e :: _ => (Err e, w)
          | [] =>
              if negb (v_locked v) then (Err LockLost, w) else
              let sub := NextSubscriptionID (st_of w) in
              match update v (create_edit v name ids limit expires) w with
              | (Err e, w) => (Err (SubErr e), w)
              | (Ok _, w) =>
                  (Ok sub, foldl (fun w id => match v_uuid v id with Ok cid => applyTo v id (fun net => Enable pre net (clientOf sub cid)) w | Err _ => w end) w ids)
              end
          end
      end
  end.

Definition DeleteSubscription (v : env) (id : Z) (w : hub) : option sub_error * hub :=
  match FindSubscription (st_of w) id with
  | None => (Some (SubErr (ErrNotFound "subscription" id)), w)
  | Some _ =>
      if negb (v_locked v) then (Some LockLost, w) else
      let removed := filter (fun e => SubscriptionID e = id) (Enablements (st_of w)) in
      match update v (fun s => RemoveSubscription s id) w with
      | (Err e, w) => (Some (SubErr e), w)
      | (Ok _, w) =>
          let w := foldl (fun w e => applyTo v (NodeID e) (fun net => Disable pre net (SubscriptionEmail id)) w) w removed in
          (None, with_usage (UsageCollector.ForgetSubscription (hb_usage w) id) w)
      end
  end.

Definition enable_edit (v : env) (sub node : Z) (on : bool) (s : State) : result error State :=
  match FindSubscription s sub with
  | None => Err (ErrNotFound "subscription" sub)
  | Some _ =>
      if negb (registered s node) then Err (ErrNotFound "node" node) else
      match FindEnablement s sub node with
      | None => if on then rbind (fun cid => Ok (with_ens s (Enablements s ++ [MkEn sub node cid true]))) (v_uuid v node) else Ok s
      | Some e => if Bool.eqb (Enabled e) on then Ok s else Ok (with_ens s (change_en sub node (fun e => set_en e on) (Enablements s)))
      end
  end.

Definition SetEnabled (v : env) (sub node : Z) (on : bool) (w : hub) : option sub_error * hub :=
  match FindSubscription (st_of w) sub with
  | None => (Some (SubErr (ErrNotFound "subscription" sub)), w)
  | Some x =>
      match subscribable v (st_of w) node with
      | Some e => (Some e, w)
      | None =>
          if negb (v_locked v) then (Some LockLost, w) else
          match update v (enable_edit v sub node on) w with
          | (Err e, w) => (Some (SubErr e), w)
          | (Ok _, w) =>
              match FindEnablement (st_of w) sub node with
              | None => (None, w)
              | Some e =>
                  let c := clientOf sub (ClientUUID e) in
                  if on && Running x then (None, applyTo v node (fun net => Enable pre net c) w) else
                  if negb on then (None, applyTo v node (fun net => Disable pre net (cl_Email c)) w) else (None, w)
              end
          end
      end
  end.

Definition linkParts (s : State) (sub node : Z) : result sub_error (Subscription * Enablement) :=
  match FindSubscription s sub with
  | None => Err (SubErr (ErrNotFound "subscription" sub))
  | Some x =>
      if negb (registered s node) then Err (SubErr (ErrNotFound "node" node)) else
      match FindEnablement s sub node with
      | Some e => if Enabled e then Ok (x, e) else Err SwitchedOff
      | None => Err SwitchedOff
      end
  end.

Definition replace_edit (sub node : Z) (fresh : string) (s : State) : result error State :=
  match FindEnablement s sub node with
  | Some e => if Enabled e then Ok (with_ens s (change_en sub node (fun e => set_uuid e fresh) (Enablements s))) else Err (ErrInvalid "switched off")
  | None => Err (ErrInvalid "switched off")
  end.

(** [back] is what the calls find that put the old client back when the save fails. *)
Definition ReplaceLink (v back : env) (sub node : Z) (w : hub) : result sub_error string * hub :=
  match linkParts (st_of w) sub node with
  | Err e => (Err e, w)
  | Ok (x, was) =>
      if negb (v_locked v) then (Err LockLost, w) else
      match v_uuid v node with
      | Err e => (Err (SubErr e), w)
      | Ok fresh =>
          let '((held, err), w) := if Running x then callNode v node (fun net => Replace pre net (clientOf sub fresh)) w else ((true, None), w) in
          if negb held then (Err CantReach, w) else
          match err with
          | Some _ => (Err NotTaken, w)
          | None =>
              match update v (replace_edit sub node fresh) w with
              | (Err e, w) => (Err (SubErr e), if Running x then applyTo back node (fun net => Replace pre net (clientOf sub (ClientUUID was))) w else w)
              | (Ok _, w) => (Ok fresh, w)
              end
          end
      end
  end.

(** The clients wanted at a node, in the order of their subscriptions. *)
Definition clientsOf (s : State) (n : Z) : list Client :=
  let on := filter (fun e => NodeID e = n /\ Enabled e = true /\ SubscriptionID e ∉ stoppedSet s) (Enablements s) in
  (fun e => clientOf (SubscriptionID e) (ClientUUID e)) <$> sort_on SubscriptionID on.

Definition reconcile (v : env) (gone wraps : string -> bool) (list_ : result string (list (option UserInfo))) (n : Z) (w : hub) : hub :=
  if negb (v_locked v) then w else
  with_running n (rc_entry (Reconcile pre (v_net v n) gone wraps list_ (clientsOf (st_of w) n) (running w n))) w.

(** A config pushed to a node that takes it: the clients the state switches on
    there and the bridge's. *)
Definition pushed_clients (s : State) (node : Node) : entry :=
  list_to_map (map (fun c => (cl_Email c, cl_UUID c)) (clientsOf s (N_ID node) ++ [MkClient (BridgeEmail (N_ID node)) (BridgeUUID node)])).
Definition push (node : Node) (w : hub) : hub :=
  let e := pushed_clients (st_of w) node in
  MkHub (hb_store w) (<[N_ID node := e]> (hb_run w)) (<[N_ID node := e]> (hb_file w)) (hb_usage w).

(** Xray on a node starts again, with the clients of its config file. *)
Definition xray_restarts (n : Z) (w : hub) : hub := with_running n (in_file w n) w.
End manager.

(** ** Ids and edits *)

Definition sub_ids (s : State) : list Z := S_ID <$> Subscriptions s.
Definition node_ids (s : State) : list Z := N_ID <$> Nodes s.

(** The ids are positive and fit an [int]. *)
Definition ids_ok (s : State) : Prop := 0 < NextSubscriptionID s < 2 ^ 63 /\ forall id, id ∈ sub_ids s -> 0 < id < 2 ^ 63.

Section exactly.
(** Whether client ids are kept, that is whether no link is replaced. *)
Context (exact : Prop).

(** One state comes after another: ids are not reused, and an enablement whose
    subscription and node are still there stays, with its client id. *)
Definition extends (s s' : State) : Prop :=
  NextSubscriptionID s <= NextSubscriptionID s' /\ NextNodeID s <= NextNodeID s' /\
  (forall id, id ∈ sub_ids s' -> id ∈ sub_ids s \/ NextSubscriptionID s <= id) /\
  (forall id, id ∈ node_ids s' -> id ∈ node_ids s \/ NextNodeID s <= id) /\
  (forall e, e ∈ Enablements s -> SubscriptionID e ∈ sub_ids s' -> NodeID e ∈ node_ids s' ->
     exists e', e' ∈ Enablements s' /\ en_pair e' = en_pair e /\ (exact -> ClientUUID e' = ClientUUID e)).

(** An edit that leaves the enablements and the subscriptions' ids alone: limits,
    names, settings, a node that is added. *)
Definition keeps (s s' : State) : Prop :=
  Enablements s' = Enablements s /\ sub_ids s' = sub_ids s /\ NextSubscriptionID s' = NextSubscriptionID s /\
  (forall id, id ∈ node_ids s' -> id ∈ node_ids s \/ NextNodeID s <= id).

Lemma same_ens_extends s s' : NextSubscriptionID s <= NextSubscriptionID s' -> NextNodeID s <= NextNodeID s' ->
  (forall id, id ∈ sub_ids s' -> id ∈ sub_ids s \/ NextSubscriptionID s <= id) ->
  (forall id, id ∈ node_ids s' -> id ∈ node_ids s \/ NextNodeID s <= id) -> (forall e, e ∈ Enablements s -> e ∈ Enablements s') -> extends s s'.
Proof. intros H1 H2 H3 H4 He. split_and!; try done. intros e Hin _ _. exists e. split; [by apply He|done]. Qed.

Lemma extends_refl s : extends s s.
Proof. apply same_ens_extends; try lia; auto. Qed.

Lemma keeps_extends s s' : keeps s s' -> NextNodeID s <= NextNodeID s' -> extends s s'.
Proof. intros (He & Hs & Hn & Hnodes) Hle. apply same_ens_extends; [lia|done|rewrite Hs; auto|done|by rewrite He]. Qed.

Lemma change_en_elem sub node f l e : e ∈ l -> (forall d, en_pair (f d) = en_pair d /\ (exact -> ClientUUID (f d) = ClientUUID d)) ->
  exists e', e' ∈ change_en sub node f l /\ en_pair e' = en_pair e /\ (exact -> ClientUUID e' = ClientUUID e).
Proof.
  intros Hin Hf. induction l as [|d l IH]; [by apply elem_of_nil in Hin|]. cbn [change_en]. apply elem_of_cons in Hin as [->|Hin].
  - destruct (_ && _); [|exists d; split; [by left|done]].
    exists (f d). split; [by left|apply Hf].
  - destruct (_ && _); [exists e; split; [by right|done]|]. destruct (IH Hin) as (e' & He' & H). exists e'. split; [by right|done].
Qed.

Section edits.
Context (fold : Z -> Z) (v : env).

Lemma enable_new_ok sub s id s' : enable_new v sub s id = Ok s' ->
  exists cid, v_uuid v id = Ok cid /\ s' = with_ens s (Enablements s ++ [MkEn sub id cid true]).
Proof. unfold enable_new. destruct (registered s id); [|done]. destruct (v_uuid v id) as [cid|]; [|done]. intros [= <-]. by exists cid. Qed.

Lemma enable_news_ok sub ids s s' : foldM (enable_new v sub) s ids = Ok s' ->
  exists es, s' = with_ens s (Enablements s ++ es) /\ forall id, id ∈ ids -> exists cid, v_uuid v id = Ok cid /\ MkEn sub id cid true ∈ es.
Proof.
  revert s. induction ids as [|id ids IH]; intros s; cbn [foldM].
  { intros [= ->]. exists []. rewrite app_nil_r. split; [by destruct s'|]. by intros id Hid%elem_of_nil. }
  intros (s1 & Hs1 & Hs')%rbind_Ok. apply enable_new_ok in Hs1 as (cid & Hcid & ->). apply IH in Hs' as (es & -> & Hes).
  exists (MkEn sub id cid true :: es). cbn [with_ens Enablements]. rewrite <-app_assoc. split; [done|]. intros i [->|Hi]%elem_of_cons.
  - exists cid. split; [done|by left].
  - destruct (Hes i Hi) as (c & Hc & Hin). exists c. split; [done|by right].
Qed.

Lemma create_extends name ids limit expires s s' : ids_ok s -> NextSubscriptionID s < 2 ^ 63 - 1 -> create_edit fold v name ids limit expires s = Ok s' ->
  extends s s' /\ ids_ok s' /\ forall id, id ∈ ids -> exists cid, v_uuid v id = Ok cid /\ MkEn (NextSubscriptionID s) id cid true ∈ Enablements s'.
Proof.
  intros [Hn Hids] Hlt. unfold create_edit. intros ([s1 x] & Hadd & Hs')%rbind_Ok. unfold AddSubscription in Hadd.
  apply rbind_Ok in Hadd as ([] & _ & Hadd). apply rbind_Ok in Hadd as ([] & _ & Hadd). apply rbind_Ok in Hadd as ([] & _ & Hadd).
  injection Hadd as <- <-. cbn [fst snd S_ID] in Hs'. apply enable_news_ok in Hs' as (es & -> & Hes). cbn [Enablements with_ens] in *.
  assert (wrapU (NextSubscriptionID s + 1) = NextSubscriptionID s + 1) as Hw by (apply wrapU_id; unfold isU64, maxU64; lia).
  split; [|split].
  - apply same_ens_extends; cbn [NextSubscriptionID NextNodeID Subscriptions Nodes Enablements with_ens sub_ids node_ids]; rewrite ?Hw; try lia; auto.
    + intros id. unfold sub_ids. cbn [Subscriptions with_ens]. rewrite fmap_app, elem_of_app. cbn. intros [Hi|Hi%list_elem_of_singleton]; [by left|right; lia].
    + intros e He. apply elem_of_app. by left.
  - split; cbn [NextSubscriptionID with_ens]; rewrite ?Hw; [lia|]. intros id. unfold sub_ids. cbn [Subscriptions with_ens].
    rewrite fmap_app, elem_of_app. cbn. intros [Hi|Hi%list_elem_of_singleton]; [by apply Hids|lia].
  - intros id Hid. destruct (Hes id Hid) as (cid & Hc & Hin). exists cid. split; [done|]. apply elem_of_app. by right.
Qed.

End edits.

(** What is deleted is gone, and nothing new is there. *)
Lemma delete_first_gone {A} (f : A -> Z) id (l l' : list A) : NoDup (f <$> l) -> delete_first (fun x => f x = id) l = Some l' ->
  id ∉ f <$> l' /\ forall i, i ∈ f <$> l' -> i ∈ f <$> l.
Proof.
  intros Hnd. unfold delete_first. destruct (list_find _ _) as [[i x]|] eqn:Hf; [|done]. intros [= <-]. apply list_find_Some in Hf as (Hi & Hx & _).
  rewrite delete_take_drop. pose proof (take_drop_middle l i x Hi) as Hl. set (a := list.take i l) in *. set (b := drop (S i) l) in *. clearbody a b. subst l.
  rewrite !fmap_app, fmap_cons in *.
  apply NoDup_app in Hnd as (_ & Hd & [Hn _]%NoDup_cons). rewrite Hx in *. split; [|set_solver].
  intros [H|H]%elem_of_app; [|done]. apply (Hd id H). by left.
Qed.

Lemma RemoveSubscription_extends s id s' : NoDup (sub_ids s) -> RemoveSubscription s id = Ok s' -> extends s s' /\ (ids_ok s -> ids_ok s').
Proof.
  intros Hnd. unfold RemoveSubscription. destruct (delete_first _ _) as [xs|] eqn:Hd; [|done]. intros [= <-].
  apply delete_first_gone in Hd as [Hgone Hin]; [|done]. split; [|intros [H1 H2]; split; [done|]; intros i Hi; by apply H2, Hin].
  split_and!; cbn; try lia; auto. intros e He Hs Hn. exists e. split; [|done]. apply list_elem_of_filter. split; [|done]. intros <-. done.
Qed.

Lemma RemoveNode_extends s id s' : NoDup (node_ids s) -> RemoveNode s id = Ok s' -> extends s s' /\ (ids_ok s -> ids_ok s').
Proof.
  intros Hnd. unfold RemoveNode. destruct (delete_first _ _) as [ns|] eqn:Hd; [|done]. intros [= <-].
  apply delete_first_gone in Hd as [Hgone Hin]; [|done]. split; [|done].
  split_and!; cbn; try lia; auto. intros e He Hs Hn. exists e. split; [|done]. apply list_elem_of_filter. split; [|done]. intros <-. done.
Qed.

Lemma enable_extends v sub node on s s' : enable_edit v sub node on s = Ok s' -> extends s s' /\ (ids_ok s -> ids_ok s').
Proof.
  unfold enable_edit. destruct (FindSubscription s sub); [|done]. destruct (registered s node); [|done]. cbn [negb].
  destruct (FindEnablement s sub node) as [e|].
  - destruct (Bool.eqb _ _); intros [= <-]; [by auto using extends_refl|]. split; [|done]. split_and!; cbn; try lia; auto.
    intros d Hd _ _. by apply change_en_elem.
  - destruct on; [|intros [= <-]; by auto using extends_refl]. destruct (v_uuid v node) as [cid|]; [|done]. intros [= <-]. split; [|done].
    apply same_ens_extends; cbn; try lia; auto. intros e He. apply elem_of_app. by left.
Qed.

Lemma settle_keeps s : keeps s (settleInstalls s).
Proof. split_and!; try done. intros id. unfold node_ids, settleInstalls. cbn. rewrite <-list_fmap_compose. intros (n & -> & Hn)%list_elem_of_fmap. left. cbn. rewrite settle_id. by apply list_elem_of_fmap_2. Qed.

(** ** Clients *)

(** A subscription's client on a node is one the state knows, with the state's
    credential, unless the subscription or the node is gone. *)
Definition clients_ok (s : State) (n : Z) (E : entry) : Prop :=
  forall x sub u, ParseSubscriptionEmail x = Some sub -> E !! x = Some u ->
    sub < NextSubscriptionID s /\ n < NextNodeID s /\
    (sub ∈ sub_ids s -> n ∈ node_ids s -> exists e, e ∈ Enablements s /\ en_pair e = (sub, n) /\ (exact -> ClientUUID e = u)).

Lemma clients_ok_extends s s' n E : extends s s' -> clients_ok s n E -> clients_ok s' n E.
Proof.
  intros (H1 & H2 & H3 & H4 & H5) Hc x sub u Hp Hx. destruct (Hc x sub u Hp Hx) as (Hs & Hn & He). split_and!; [lia|lia|]. intros Hsub Hnode.
  destruct He as (e & Hin & Hpair & Hu); [destruct (H3 sub Hsub); [done|lia]|destruct (H4 n Hnode); [done|lia]|].
  injection Hpair as Hes Hen. destruct (H5 e Hin) as (e' & Hin' & Hp' & Hu'); [by rewrite Hes|by rewrite Hen|]. exists e'.
  split; [done|]. split; [rewrite Hp'; unfold en_pair; by subst|]. intros Hex. rewrite Hu' by done. by apply Hu.
Qed.

Lemma clients_ok_sub s n (E E' : entry) : E' ⊆ E -> clients_ok s n E -> clients_ok s n E'.
Proof. intros Hsub Hc x sub u Hp Hx. apply (Hc x sub u Hp). by eapply lookup_weaken. Qed.

Lemma email_sub id sub : ParseSubscriptionEmail (SubscriptionEmail id) = Some sub -> 0 < id < 2 ^ 63 -> sub = id.
Proof.
  intros (He & H1 & Hr)%ParseSubscriptionEmail_Some Hid. symmetry. apply SubscriptionEmail_inj; try done; [lia|]. unfold isI64, minI64, maxI64 in *. lia.
Qed.

Lemma parse_email id : 0 < id < 2 ^ 63 -> ParseSubscriptionEmail (SubscriptionEmail id) = Some id.
Proof. intros Hid. apply ParseSubscriptionEmail_Some. split; [done|]. unfold isI64, minI64, maxI64. lia. Qed.

(** The client of an enablement. *)
Lemma clients_ok_insert s n E e uuid : clients_ok s n E -> ids_ok s -> e ∈ Enablements s -> NodeID e = n -> (exact -> uuid = ClientUUID e) ->
  SubscriptionID e ∈ sub_ids s -> SubscriptionID e < NextSubscriptionID s -> n < NextNodeID s ->
  clients_ok s n (<[SubscriptionEmail (SubscriptionID e) := uuid]> E).
Proof.
  intros Hc [_ Hids] Hin Hn Huuid Hsub Hlt Hnode x sub u Hp. destruct (decide (x = SubscriptionEmail (SubscriptionID e))) as [->|Hne].
  - rewrite lookup_insert_eq. intros [= <-]. apply email_sub in Hp as ->; [|by apply Hids]. split_and!; try done. intros _ _. exists e. unfold en_pair. split; [done|]. split; [by subst|]. intros Hex. symmetry. by apply Huuid.
  - rewrite lookup_insert_ne by done. by apply Hc.
Qed.

End exactly.

(** ** The wanted clients *)

Definition wanted (s : State) (n : Z) (e : Enablement) : Prop := e ∈ Enablements s /\ NodeID e = n /\ Enabled e = true /\ SubscriptionID e ∉ stoppedSet s.

Lemma clientsOf_elem s n c : c ∈ clientsOf s n <-> exists e, wanted s n e /\ c = clientOf (SubscriptionID e) (ClientUUID e).
Proof.
  unfold clientsOf, wanted. rewrite list_elem_of_fmap. split.
  - intros (e & -> & He). rewrite (sort_on_perm SubscriptionID), list_elem_of_filter in He. exists e. tauto.
  - intros (e & He & ->). exists e. rewrite (sort_on_perm SubscriptionID), list_elem_of_filter. tauto.
Qed.

(** ** Runs *)

Section runs.
Context (fold : Z -> Z) (ParseAddr : string -> option Addr) (loadCA : string -> string -> bool) (pre : string) (exact : Prop).

(** What can happen; a link is replaced only in a run that is not [exact]. Ids count
    up from one and stay below the largest [int]. *)
Inductive hub_step : hub -> hub -> Prop :=
| hs_create v name ids limit expires w : NextSubscriptionID (st_of w) < 2 ^ 63 - 1 ->
    hub_step w (CreateSubscription fold ParseAddr loadCA pre v name ids limit expires w).2
| hs_delete v id w : hub_step w (DeleteSubscription fold ParseAddr loadCA pre v id w).2
| hs_enable v sub node on w : hub_step w (SetEnabled fold ParseAddr loadCA pre v sub node on w).2
| hs_replace v back sub node w : ~ exact -> hub_step w (ReplaceLink fold ParseAddr loadCA pre v back sub node w).2
| hs_edit v edit w : (forall s s', edit s = Ok s' -> keeps s s') -> hub_step w (update fold ParseAddr loadCA v edit w).2
| hs_remove_node v id w : hub_step w (update fold ParseAddr loadCA v (fun s => RemoveNode s id) w).2
| hs_reopen st' w : Open fold ParseAddr loadCA (st_file (hb_store w)) = Ok st' -> hub_step w (with_store st' w)
| hs_tell_on v e w : e ∈ Enablements (st_of w) ->
    hub_step w (applyTo v (NodeID e) (fun net => Enable pre net (clientOf (SubscriptionID e) (ClientUUID e))) w)
| hs_tell_off v n email w : hub_step w (applyTo v n (fun net => Disable pre net email) w)
| hs_reconcile v gone wraps l n w : n ∈ node_ids (st_of w) -> hub_step w (reconcile pre v gone wraps l n w)
| hs_push node w : node ∈ Nodes (st_of w) -> hub_step w (push node w)
| hs_restart n w : hub_step w (xray_restarts n w)
| hs_usage c w : hub_step w (with_usage c w)
| hs_lose n (e' : entry) w : e' ⊆ running w n -> hub_step w (with_running n e' w).

Definition hub0 : hub := MkHub fresh ∅ ∅ (UsageCollector.Open 0 UsageCollector.NotExist false 0).1.

Record hub_ok (w : hub) : Prop := {
  ho_store : store_inv fold ParseAddr loadCA (hb_store w);
  ho_ids : ids_ok (st_of w);
  ho_run : forall n, clients_ok exact (st_of w) n (running w n);
  ho_file : forall n, clients_ok exact (st_of w) n (in_file w n)
}.

Lemma ho_spec w : hub_ok w -> state_spec fold ParseAddr loadCA (st_of w).
Proof. intros []. by apply (si_spec fold ParseAddr loadCA). Qed.

Lemma hub0_ok : hub_ok hub0.
Proof. split; [apply fresh_inv|split; [done|by intros id Hid%elem_of_nil]|..]; intros n x sub u _; unfold running, in_file; cbn; by rewrite lookup_empty. Qed.

(** What an update comes to. *)
Lemma Update_does st fn disk : store_inv fold ParseAddr loadCA st ->
  let r := Update fold ParseAddr loadCA st fn disk in
  (exists e, r.2 = Err e) /\ r.1 = st \/
  r.2 = Ok tt /\ fn (cur st) = Ok (cur r.1) /\ store_inv fold ParseAddr loadCA r.1 /\ NextNodeID (cur st) <= NextNodeID (cur r.1).
Proof.
  intros Hi r. destruct (Update fold ParseAddr loadCA st fn disk) as [st' res] eqn:Hr. subst r. cbn [fst snd]. pose proof (store_step_inv fold ParseAddr loadCA st st' Hi (st_update _ _ _ _ _ _ _ _ Hr)) as Hi'.
  unfold Update in Hr. destruct (fn (cur st)) as [next|e] eqn:Hf; [|injection Hr as <- <-; left; eauto].
  destruct (CheckEdit _ _ _ _ _) as [[]|e] eqn:Hc; [|injection Hr as <- <-; left; eauto]. apply CheckEdit_Ok in Hc as (_ & _ & _ & Hn & _).
  case_bool_decide as He.
  - injection Hr as <- <-. right. rewrite <-(si_enc _ _ _ _ Hi), <-He. split_and!; try done.
  - destruct disk; injection Hr as <- <-; [right|left]; eauto.
Qed.

Lemma with_store_ok st' w : hub_ok w -> store_inv fold ParseAddr loadCA st' -> extends exact (st_of w) (cur st') -> ids_ok (cur st') -> hub_ok (with_store st' w).
Proof. intros [H1 H2 H3 H4] Hi He Hids. split; [done|done|intros n; eapply clients_ok_extends; [exact He|apply H3]|intros n; eapply clients_ok_extends; [exact He|apply H4]]. Qed.

(** An update that keeps to what the edits above keep to. *)
Lemma update_ok' v edit w : hub_ok w ->
  (forall s', edit (st_of w) = Ok s' -> NextNodeID (st_of w) <= NextNodeID s' -> extends exact (st_of w) s' /\ ids_ok s') ->
  hub_ok (update fold ParseAddr loadCA v edit w).2 /\
  hb_run (update fold ParseAddr loadCA v edit w).2 = hb_run w /\
  ((update fold ParseAddr loadCA v edit w).1 = Ok tt -> edit (st_of w) = Ok (st_of (update fold ParseAddr loadCA v edit w).2)).
Proof.
  intros Hw Hedit. unfold update. pose proof (Update_does (hb_store w) edit (v_disk v) (ho_store w Hw)) as H. destruct (Update _ _ _ _ _ _) as [st' r]. cbn in H |- *.
  destruct H as [[[e ->] ->]|(-> & Hf & Hi & Hn)].
  - split; [|done]. by destruct w.
  - destruct (Hedit _ Hf Hn) as [He Hids]. split; [by apply with_store_ok|]. done.
Qed.

(** A failed update changes no state. *)
Lemma st_update v edit w : (exists e, (update fold ParseAddr loadCA v edit w).1 = Err e) -> st_of (update fold ParseAddr loadCA v edit w).2 = st_of w.
Proof.
  unfold update, Update. intros [e He]. destruct (edit _) as [next|]; [|done]. destruct (CheckEdit _ _ _ _ _) as [[]|]; [|done].
  destruct (bool_decide _); [done|]. by destruct (v_disk v).
Qed.

Lemma with_running_ok w n (E : entry) : hub_ok w -> clients_ok exact (st_of w) n E -> hub_ok (with_running n E w).
Proof.
  intros [H1 H2 H3 H4] HE. split; try done. intros m. unfold running, with_running. cbn. destruct (decide (m = n)) as [->|Hne].
  - by rewrite lookup_insert_eq.
  - rewrite lookup_insert_ne by done. apply H3.
Qed.

Lemma en_ids w e : hub_ok w -> e ∈ Enablements (st_of w) -> SubscriptionID e ∈ sub_ids (st_of w) /\ NodeID e ∈ node_ids (st_of w) /\
  SubscriptionID e < NextSubscriptionID (st_of w) /\ NodeID e < NextNodeID (st_of w).
Proof.
  intros Hw%ho_spec Hin. pose proof (sp_ens _ _ _ _ Hw) as H. rewrite Forall_forall in H. destruct (H e Hin) as (_ & Hs & Hn). split_and!; try done.
  - apply list_elem_of_fmap in Hs as (x & -> & Hx). pose proof (sp_subs _ _ _ _ Hw) as Hsp. rewrite Forall_forall in Hsp. by apply Hsp.
  - apply list_elem_of_fmap in Hn as (x & -> & Hx). pose proof (sp_nodes _ _ _ _ Hw) as Hsp. rewrite Forall_forall in Hsp. by apply Hsp.
Qed.

Lemma en_insert w n E e uuid : hub_ok w -> clients_ok exact (st_of w) n E -> e ∈ Enablements (st_of w) -> NodeID e = n -> (exact -> uuid = ClientUUID e) ->
  clients_ok exact (st_of w) n (<[SubscriptionEmail (SubscriptionID e) := uuid]> E).
Proof. intros Hw HE Hin Hn Hu. destruct (en_ids w e Hw Hin) as (H1 & H2 & H3 & H4). apply clients_ok_insert; try done; [apply (ho_ids w Hw)|congruence]. Qed.

Lemma tell_on_ok v e w : hub_ok w -> e ∈ Enablements (st_of w) ->
  hub_ok (applyTo v (NodeID e) (fun net => Enable pre net (clientOf (SubscriptionID e) (ClientUUID e))) w).
Proof.
  intros Hw Hin. unfold applyTo, callNode. destruct (v_held v (NodeID e)); [|done].
  pose proof (Enable_does pre (v_net v (NodeID e)) (clientOf (SubscriptionID e) (ClientUUID e)) (running w (NodeID e))) as H.
  destruct (Enable _ _ _ _) as [err E]. cbn in *. apply with_running_ok; [done|]. destruct H as [->|[_ ->]]; [apply (ho_run w Hw)|].
  apply en_insert; try done. apply (ho_run w Hw).
Qed.

Lemma tell_off_ok v n email w : hub_ok w -> hub_ok (applyTo v n (fun net => Disable pre net email) w).
Proof.
  intros Hw. unfold applyTo, callNode. destruct (v_held v n); [|done]. pose proof (Disable_does pre (v_net v n) email (running w n)) as H.
  destruct (Disable _ _ _ _) as [err E]. cbn in *. apply with_running_ok; [done|]. destruct H as [->|[_ ->]]; [apply (ho_run w Hw)|].
  eapply clients_ok_sub; [apply delete_subseteq|apply (ho_run w Hw)].
Qed.

Lemma st_applyTo v n f w : st_of (applyTo v n f w) = st_of w.
Proof. unfold applyTo, callNode. destruct (v_held v n); [|done]. by destruct (f _ _). Qed.

Lemma reconcile_ok v gone wraps l n w : hub_ok w -> hub_ok (reconcile pre v gone wraps l n w).
Proof.
  intros Hw. unfold reconcile. destruct (negb (v_locked v)); [done|]. apply with_running_ok; [done|]. intros x sub u Hp Hx.
  pose proof (Reconcile_lookup pre (v_net v n) gone wraps l (clientsOf (st_of w) n) (running w n) x) as H. cbv zeta in H.
  destruct H as [He|(_ & _ & [(c & Hc & Hcx & [H|H] & _)|[_ H]])]; [| |congruence|congruence].
  - apply (ho_run w Hw n x); congruence.
  - apply clientsOf_elem in Hc as (e & (Hin & Hn & _) & ->). pose proof (en_insert w n _ e (ClientUUID e) Hw (ho_run w Hw n) Hin Hn ltac:(done)) as Hins.
    apply (Hins x sub u Hp). cbn in Hcx. rewrite Hcx, lookup_insert_eq. rewrite Hx in H. cbn in H. congruence.
Qed.

Lemma bridge_not_sub id : ParseSubscriptionEmail (BridgeEmail id) = None.
Proof. unfold ParseSubscriptionEmail, BridgeEmail. by rewrite string_app_cons. Qed.

Lemma pushed_ok w node : hub_ok w -> node ∈ Nodes (st_of w) -> clients_ok exact (st_of w) (N_ID node) (pushed_clients (st_of w) node).
Proof.
  intros Hw Hnode x sub u Hp Hx. unfold pushed_clients in Hx. apply elem_of_list_to_map_2, list_elem_of_fmap in Hx as (c & [= -> ->] & Hc).
  apply elem_of_app in Hc as [Hc|Hc%list_elem_of_singleton]; [|subst c; cbn in Hp; by rewrite bridge_not_sub in Hp].
  apply clientsOf_elem in Hc as (e & (Hin & Hn & _) & ->). apply (en_insert w (N_ID node) ∅ e (ClientUUID e) Hw) with (x := cl_Email (clientOf (SubscriptionID e) (ClientUUID e))); try done.
  cbn. by rewrite lookup_insert_eq.
Qed.

Lemma with_usage_ok c w : hub_ok w -> hub_ok (with_usage c w).
Proof. by intros []. Qed.

Lemma delete_ok v id w : hub_ok w -> hub_ok (DeleteSubscription fold ParseAddr loadCA pre v id w).2.
Proof.
  intros Hw. unfold DeleteSubscription. destruct (FindSubscription _ _); [|done]. destruct (negb (v_locked v)); [done|].
  pose proof (update_ok' v (fun s => RemoveSubscription s id) w Hw) as H. destruct (update _ _ _ _ _ _) as [[[]|e] w']; cbn in *.
  - destruct H as (H & _).
    { intros s' Hs _. apply (RemoveSubscription_extends exact) in Hs as [H1 H2]; [|apply (sp_sub_ids _ _ _ _ (ho_spec w Hw))]. split; [done|apply H2, (ho_ids w Hw)]. }
    apply with_usage_ok. set (l := filter _ _). clearbody l. revert w' H. induction l as [|e l IH]; intros w' H; [done|]. cbn. apply IH. by apply tell_off_ok.
  - apply H. intros s' Hs _. apply (RemoveSubscription_extends exact) in Hs as [H1 H2]; [|apply (sp_sub_ids _ _ _ _ (ho_spec w Hw))]. split; [done|apply H2, (ho_ids w Hw)].
Qed.

Lemma create_sub_ok v name ids limit expires w : hub_ok w -> NextSubscriptionID (st_of w) < 2 ^ 63 - 1 ->
  hub_ok (CreateSubscription fold ParseAddr loadCA pre v name ids limit expires w).2.
Proof.
  intros Hw Hlt. unfold CreateSubscription. destruct (CleanName name) as [nm|]; [|done]. destruct (checkLimits _ _ _ _) as [ex|]; [|done].
  destruct (omap _ _); [|done]. destruct (negb (v_locked v)); [done|]. set (nodes := sort_on _ _).
  pose proof (update_ok' v (create_edit fold v nm nodes limit ex) w Hw) as H.
  destruct (update _ _ _ _ _ _) as [[[]|e] w'] eqn:Hu; cbn in *.
  - destruct H as (H & _ & Hed).
    { intros s' Hs _. apply (create_extends exact) in Hs as (H1 & H2 & _); [done|apply (ho_ids w Hw)|done]. }
    apply (create_extends exact) in Hed as (_ & _ & Hens); [|apply (ho_ids w Hw)|done|done].
    assert (forall id, id ∈ nodes -> exists cid, v_uuid v id = Ok cid /\ MkEn (NextSubscriptionID (st_of w)) id cid true ∈ Enablements (st_of w')) as Hens' by done.
    clear Hens Hu. revert w' H Hens'. generalize (NextSubscriptionID (st_of w)) as sub. clear Hlt. clearbody nodes.
    induction nodes as [|id nodes IH]; intros sub w' H Hens; [done|]. cbn. destruct (Hens id) as (cid & Hc & Hin); [by left|]. rewrite Hc. apply IH.
    + by apply (tell_on_ok v (MkEn sub id cid true)).
    + intros i Hi. rewrite st_applyTo. apply Hens. by right.
  - apply H. intros s' Hs _. apply (create_extends exact) in Hs as (H1 & H2 & _); [done|apply (ho_ids w Hw)|done].
Qed.

Lemma FindEnablement_Some s sub node e : FindEnablement s sub node = Some e -> e ∈ Enablements s /\ SubscriptionID e = sub /\ NodeID e = node.
Proof.
  unfold FindEnablement. intros Hf. apply bind_Some in Hf as ([i y] & Hf & [= ->]). apply list_find_Some in Hf as (Hi & [??] & _).
  split; [by eapply list_elem_of_lookup_2|done].
Qed.

Lemma enable_ok v sub node on w : hub_ok w -> hub_ok (SetEnabled fold ParseAddr loadCA pre v sub node on w).2.
Proof.
  intros Hw. unfold SetEnabled. destruct (FindSubscription _ _) as [x|]; [|done]. destruct (subscribable _ _ _); [done|]. destruct (negb (v_locked v)); [done|].
  pose proof (update_ok' v (enable_edit v sub node on) w Hw) as H. destruct (update _ _ _ _ _ _) as [[[]|e] w']; cbn in *.
  - destruct H as (H & _); [intros s' Hs _; apply (enable_extends exact) in Hs as [H1 H2]; split; [done|apply H2, (ho_ids w Hw)]|].
    destruct (FindEnablement _ _ _) as [e|] eqn:Hf; [|done]. apply FindEnablement_Some in Hf as (Hin & <- & <-).
    destruct (on && Running x); [by apply tell_on_ok|]. destruct (negb on); [|done]. by apply tell_off_ok.
  - apply H. intros s' Hs _. apply (enable_extends exact) in Hs as [H1 H2]. split; [done|apply H2, (ho_ids w Hw)].
Qed.

Lemma Replace_does net c E : exists base, (base = E \/ base = delete (cl_Email c) E) /\ ((Replace pre net c E).2 = base \/ (Replace pre net c E).2 = <[cl_Email c := cl_UUID c]> base).
Proof.
  unfold Replace. destruct (Client_check c); [by eauto|]. pose proof (Disable_does pre net (cl_Email c) E) as Hd. destruct (Disable _ _ _ _) as [[err|] E1]; cbn [snd] in *.
  - exists E1. split; [|by left]. destruct Hd as [->|[_ ->]]; auto.
  - exists E1. split; [destruct Hd as [->|[_ ->]]; auto|]. destruct (Enable_does pre net c E1) as [->|[_ ->]]; auto.
Qed.

Lemma call_replace_ok v n sub uuid e w : ~ exact -> hub_ok w -> e ∈ Enablements (st_of w) -> en_pair e = (sub, n) ->
  hub_ok (callNode v n (fun net => Replace pre net (clientOf sub uuid)) w).2.
Proof.
  intros Hne Hw Hin [= <- <-]. unfold callNode. destruct (v_held v (NodeID e)); [|done].
  destruct (Replace_does (v_net v (NodeID e)) (clientOf (SubscriptionID e) uuid) (running w (NodeID e))) as (base & Hb & H).
  destruct (Replace _ _ _ _) as [err E]. cbn in *. apply with_running_ok; [done|].
  assert (clients_ok exact (st_of w) (NodeID e) base) as Hbase.
  { destruct Hb as [->| ->]; [apply (ho_run w Hw)|]. eapply clients_ok_sub; [apply delete_subseteq|apply (ho_run w Hw)]. }
  destruct H as [->| ->]; [done|]. by apply en_insert.
Qed.

Lemma linkParts_Ok s sub node x e : linkParts s sub node = Ok (x, e) -> FindSubscription s sub = Some x /\ e ∈ Enablements s /\ en_pair e = (sub, node) /\ Enabled e = true.
Proof.
  unfold linkParts. destruct (FindSubscription s sub); [|done]. destruct (registered s node); [|done]. cbn [negb]. destruct (FindEnablement s sub node) as [d|] eqn:Hf; [|done].
  destruct (Enabled d) eqn:He; [|done]. intros [= -> ->]. apply FindEnablement_Some in Hf as (Hin & <- & <-). done.
Qed.

Lemma replace_extends s sub node fresh s' : ~ exact -> replace_edit sub node fresh s = Ok s' -> extends exact s s' /\ (ids_ok s -> ids_ok s').
Proof.
  intros Hne. unfold replace_edit. destruct (FindEnablement s sub node) as [e|]; [|done]. destruct (Enabled e); [|done]. intros [= <-]. split; [|done].
  split_and!; cbn; try lia; auto. intros d Hd _ _. by apply change_en_elem.
Qed.

Lemma replace_ok v back sub node w : ~ exact -> hub_ok w -> hub_ok (ReplaceLink fold ParseAddr loadCA pre v back sub node w).2.
Proof.
  intros Hne Hw. unfold ReplaceLink. destruct (linkParts _ _ _) as [[x was]|] eqn:Hl; [|done]. apply linkParts_Ok in Hl as (_ & Hin & Hp & _).
  destruct (negb (v_locked v)); [done|]. destruct (v_uuid v node) as [fresh|]; [|done].
  set (r := if Running x then _ else _). assert (hub_ok r.2 /\ st_of r.2 = st_of w) as [H1 Hst].
  { unfold r. destruct (Running x); [|done]. split; [by eapply call_replace_ok|]. unfold callNode. destruct (v_held v node); [|done]. by destruct (Replace _ _ _ _). }
  destruct r as [[held err] w1]. cbn in H1, Hst. destruct (negb held); [done|]. destruct err; [done|].
  pose proof (update_ok' v (replace_edit sub node fresh) w1 H1) as Hu. pose proof (st_update v (replace_edit sub node fresh) w1) as Hsame.
  destruct (update _ _ _ _ _ _) as [[[]|e] w2]; cbn in *.
  - apply Hu. intros s' Hs _. apply replace_extends in Hs as [Ha Hb]; [|done]. split; [done|apply Hb, (ho_ids w1 H1)].
  - assert (hub_ok w2) as H2 by (apply Hu; intros s' Hs _; apply replace_extends in Hs as [Ha Hb]; [|done]; split; [done|apply Hb, (ho_ids w1 H1)]).
    destruct (Running x); [|done]. apply (call_replace_ok back node sub (ClientUUID was) was); try done. rewrite Hsame, Hst by (done || by eexists). done.
Qed.

Lemma keeps_ids s s' : keeps s s' -> ids_ok s -> ids_ok s'.
Proof. intros (_ & Hs & Hn & _) [H1 H2]. split; [by rewrite Hn|by rewrite Hs]. Qed.

Lemma hub_step_ok w w' : hub_step w w' -> hub_ok w -> hub_ok w'.
Proof.
  intros [v name ids limit expires w0 Hlt|v id w0|v sub node on w0|v back sub node w0 Hne|v edit w0 Hed|v id w0|st' w0 Ho|v e w0 Hin|v n email w0|v gone wraps l n w0 _|node w0 Hn|n w0|c w0|n e' w0 Hsub] Hw.
  - by apply create_sub_ok.
  - by apply delete_ok.
  - by apply enable_ok.
  - by apply replace_ok.
  - apply update_ok'; [done|]. intros s' Hs Hle. specialize (Hed _ _ Hs). split; [by apply keeps_extends|eapply keeps_ids; [done|apply (ho_ids w0 Hw)]].
  - apply update_ok'; [done|]. intros s' Hs _. apply (RemoveNode_extends exact) in Hs as [H1 H2]; [|apply (sp_node_ids _ _ _ _ (ho_spec w0 Hw))]. split; [done|apply H2, (ho_ids w0 Hw)].
  - pose proof (ho_store w0 Hw) as Hi. assert (store_step fold ParseAddr loadCA (hb_store w0) st') as Hst by by apply st_restart.
    pose proof (store_step_inv _ _ _ _ _ Hi Hst) as Hi'. assert (keeps (st_of w0) (cur st') /\ NextNodeID (st_of w0) = NextNodeID (cur st')) as [Hk Hn].
    { pose proof (si_file _ _ _ _ Hi) as Hf. unfold Open in Ho. destruct (st_file (hb_store w0)) as [b|].
      - destruct Hf as (f & -> & Hs & Hc). rewrite Decode_Encode in Ho by done. injection Ho as <-. cbn. unfold st_of. destruct Hc as [->| ->]; [split; [apply settle_keeps|done]|].
        split; [|done]. split_and!; try done. auto.
      - injection Ho as <-. unfold st_of. rewrite Hf. split; [|done]. split_and!; try done. auto. }
    apply with_store_ok; try done; [apply keeps_extends; [done|lia]|eapply keeps_ids; [done|apply (ho_ids w0 Hw)]].
  - by apply tell_on_ok.
  - by apply tell_off_ok.
  - by apply reconcile_ok.
  - pose proof (pushed_ok w0 node Hw Hn) as Hp. destruct (with_running_ok w0 (N_ID node) _ Hw Hp) as [H1 H2 H3 _]. split; try done.
    intros m. unfold in_file, push. cbn. destruct (decide (m = N_ID node)) as [->|Hne]; [by rewrite lookup_insert_eq|]. rewrite lookup_insert_ne by done. apply (ho_file w0 Hw).
  - apply with_running_ok; [done|]. apply (ho_file w0 Hw).
  - by apply with_usage_ok.
  - apply with_running_ok; [done|]. eapply clients_ok_sub; [exact Hsub|apply (ho_run w0 Hw)].
Qed.

Lemma hub_run_ok w : rtc hub_step hub0 w -> hub_ok w.
Proof. intros Hr. assert (hub_ok hub0) as H0 by apply hub0_ok. revert H0. induction Hr as [|w1 w2 w3 Hs _ IH]; [done|]. intros H0. by apply IH, (hub_step_ok w1). Qed.
End runs.

(** ** What is wanted can be put on a node *)

Lemma uuid_char_hex i c : uuid_char i c = true -> bool_decide (i = 8 \/ i = 13 \/ i = 18 \/ i = 23)%nat = false -> hexd c = true.
Proof.
  unfold uuid_char. intros H Hi. rewrite Hi in H. unfold hexd, hex_val. unfold is_digit in H.
  destruct (between 48 57 (code c)); [done|]. cbn in H. by rewrite H.
Qed.
Lemma uuid_char_dash i c : uuid_char i c = true -> bool_decide (i = 8 \/ i = 13 \/ i = 18 \/ i = 23)%nat = true -> c = "-"%char.
Proof. unfold uuid_char. intros H Hi. rewrite Hi in H. by apply bool_decide_eq_true in H. Qed.

(** The state's client ids have the form a node's client needs. *)
Lemma validUUID_Re s : validUUID s = true -> uuidRe s = true.
Proof.
  unfold validUUID, uuidRe. generalize (to_bytes s) as l. intros l [Hl%Nat.eqb_eq H]%andb_true_iff.
  do 36 (destruct l as [|? l]; [done|]). destruct l; [|done]. clear Hl. cbn [imap forallb fst snd compose] in H.
  repeat match goal with H : _ && _ = true |- _ => apply andb_true_iff in H as [? H] end.
  repeat match goal with H : uuid_char _ _ = true |- _ => first [apply uuid_char_hex in H; [|reflexivity]|apply uuid_char_dash in H; [subst|reflexivity]] end.
  cbn [groups_of take drop forallb length Nat.eqb andb].
  repeat match goal with H : hexd _ = true |- _ => rewrite H; clear H end. reflexivity.
Qed.

Section links.
Context (fold : Z -> Z) (ParseAddr : string -> option Addr) (loadCA : string -> string -> bool) (pre : string) (exact : Prop).

Abbreviation hub_good := (hub_ok fold ParseAddr loadCA exact).

Lemma wanted_unique w e e' : hub_good w -> e ∈ Enablements (st_of w) -> e' ∈ Enablements (st_of w) -> en_pair e = en_pair e' -> e = e'.
Proof.
  intros Hw H1 H2 Hp. pose proof (sp_pairs _ _ _ _ (ho_spec _ _ _ _ w Hw)) as Hnd. apply list_elem_of_lookup in H1 as [i Hi]. apply list_elem_of_lookup in H2 as [j Hj].
  assert (i = j) as ->; [|congruence]. eapply NoDup_lookup; [exact Hnd|rewrite list_lookup_fmap, Hi; done|rewrite list_lookup_fmap, Hj; cbn; by rewrite Hp].
Qed.

Lemma client_good w e : hub_good w -> e ∈ Enablements (st_of w) -> Client_check (clientOf (SubscriptionID e) (ClientUUID e)) = None.
Proof.
  intros Hw Hin. destruct (en_ids _ _ _ _ w e Hw Hin) as (Hs & _). pose proof (ho_ids _ _ _ _ w Hw) as [_ Hids].
  unfold Client_check, checkEmail, clientOf. cbn [cl_Email cl_UUID]. rewrite parse_email by (by apply Hids).
  pose proof (sp_ens _ _ _ _ (ho_spec _ _ _ _ w Hw)) as H. rewrite Forall_forall in H. destruct (H e Hin) as (Hv & _). unfold En_Validate in Hv.
  apply rbind_Ok in Hv as ([] & _ & Hv). apply refuse_Ok, negb_false_iff in Hv. by rewrite (validUUID_Re _ Hv).
Qed.

Lemma wanted_check w n : hub_good w -> check_want [] (clientsOf (st_of w) n) = None.
Proof.
  intros Hw. pose proof (ho_spec _ _ _ _ w Hw) as Hspec.
  assert (forall c, c ∈ clientsOf (st_of w) n -> Client_check c = None) as Hchk.
  { intros c (e & (Hin & _) & ->)%clientsOf_elem. by apply (client_good w). }
  assert (NoDup (cl_Email <$> clientsOf (st_of w) n)) as Hnd.
  { unfold clientsOf. rewrite <-list_fmap_compose. set (on := filter _ _).
    assert (NoDup (SubscriptionID <$> sort_on SubscriptionID on)) as Hs.
    { rewrite (sort_on_perm SubscriptionID). pose proof (sp_pairs _ _ _ _ Hspec) as Hp. unfold on. clear on. induction (Enablements (st_of w)) as [|e l IH]; [constructor|].
      apply NoDup_cons in Hp as [Hnin Hp]. rewrite filter_cons. case_decide as Hd; [|by apply IH]. apply NoDup_cons. split; [|by apply IH].
      intros (d & Hed & Hdl)%list_elem_of_fmap. apply list_elem_of_filter in Hdl as [(Hdn & _) Hdl]. apply Hnin. apply list_elem_of_fmap. exists d.
      split; [|done]. unfold en_pair. destruct Hd as (Hen & _). congruence. }
    assert (forall e, e ∈ sort_on SubscriptionID on -> 0 < SubscriptionID e < 2 ^ 63) as Hids.
    { intros e He. rewrite (sort_on_perm SubscriptionID) in He. apply list_elem_of_filter in He as [_ He]. destruct (en_ids _ _ _ _ w e Hw He) as (Hsub & _).
      by apply (ho_ids _ _ _ _ w Hw). }
    induction (sort_on SubscriptionID on) as [|e l IH]; [constructor|]. apply NoDup_cons in Hs as [Hnin Hs]. cbn. apply NoDup_cons. split.
    - intros (d & Hed & Hd)%list_elem_of_fmap. apply Hnin. apply list_elem_of_fmap. exists d. split; [|done]. cbn in Hed. apply SubscriptionEmail_inj; try done.
      + destruct (Hids e); [by left|lia].
      + unfold isI64, minI64, maxI64. destruct (Hids e); [by left|lia].
      + unfold isI64, minI64, maxI64. destruct (Hids d); [by right|lia].
    - apply IH; [done|]. intros d Hd. apply Hids. by right. }
  clear Hw Hspec. assert (forall seen, (forall c, c ∈ clientsOf (st_of w) n -> cl_Email c ∉ seen) -> check_want seen (clientsOf (st_of w) n) = None) as H; [|apply H; intros c _; apply not_elem_of_nil].
  induction (clientsOf (st_of w) n) as [|c l IH]; intros seen Hseen; [done|]. apply NoDup_cons in Hnd as [Hnin Hnd]. cbn [check_want].
  rewrite Hchk by (by left). rewrite bool_decide_eq_false_2 by (apply Hseen; by left). apply IH; [intros d Hd; apply Hchk; by right|done|].
  intros d Hd [He|Hin]%elem_of_cons; [|by apply (Hseen d); [right|]]. apply Hnin. rewrite <-He. by apply list_elem_of_fmap_2.
Qed.

(** A push leaves exactly what is wanted. *)
Lemma pushed_lookup w node x sub u : hub_good w -> ParseSubscriptionEmail x = Some sub ->
  pushed_clients (st_of w) node !! x = Some u <-> exists e, wanted (st_of w) (N_ID node) e /\ SubscriptionID e = sub /\ ClientUUID e = u.
Proof.
  intros Hw Hp. pose proof (wanted_check w (N_ID node) Hw) as Hchk. apply check_want_None in Hchk as (_ & Hnd & _). unfold pushed_clients.
  set (l := map _ _). assert (NoDup l.*1) as Hndl.
  { unfold l. rewrite <-list_fmap_compose, fmap_app. apply NoDup_app. split; [exact Hnd|]. split; [|apply NoDup_singleton].
    intros y (c & -> & (e & (Hin & _) & ->)%clientsOf_elem)%list_elem_of_fmap Hb%list_elem_of_singleton. cbn in Hb.
    destruct (en_ids _ _ _ _ w e Hw Hin) as (Hs & _). pose proof (parse_email (SubscriptionID e)) as Hpe. rewrite Hb, bridge_not_sub in Hpe.
    discriminate Hpe. by apply (ho_ids _ _ _ _ w Hw). }
  rewrite <-elem_of_list_to_map by done. unfold l. rewrite list_elem_of_fmap. split.
  - intros (c & [= -> ->] & Hc). apply elem_of_app in Hc as [Hc|Hc%list_elem_of_singleton]; [|subst c; cbn in Hp; by rewrite bridge_not_sub in Hp].
    apply clientsOf_elem in Hc as (e & He & ->). exists e. split; [done|]. split; [|done]. symmetry. apply (email_sub _ _ Hp).
    destruct (en_ids _ _ _ _ w e Hw (proj1 He)) as (Hs & _). by apply (ho_ids _ _ _ _ w Hw).
  - intros (e & He & Hs & Hu). exists (clientOf (SubscriptionID e) (ClientUUID e)). split.
    + apply ParseSubscriptionEmail_Some in Hp as (-> & _). cbn. by rewrite Hs, Hu.
    + apply elem_of_app. left. apply clientsOf_elem. by exists e.
Qed.
End links.

(** A node's clients are the links the state stands for: one for each subscription
    that is switched on there and is not stopped, with its client id, and no other. *)
Definition serves_links (s : State) (n : Z) (E : entry) : Prop :=
  forall x sub u, ParseSubscriptionEmail x = Some sub ->
    E !! x = Some u <-> exists e, wanted s n e /\ SubscriptionID e = sub /\ ClientUUID e = u.

(** What the agent reports of a client's credential is nothing or the truth. *)
Definition honest (users : list (option UserInfo)) (E : entry) : Prop :=
  forall email u, have_of users !! email = Some u -> u = "" \/ E !! email = Some u.

Lemma changed_same users E c : honest users E -> E !! cl_Email c = Some (cl_UUID c) -> changed (have_of users) c = false.
Proof.
  intros Hh HE. unfold changed. destruct (have_of users !! cl_Email c) as [u|] eqn:Hu; [|done]. destruct (Hh _ _ Hu) as [->|Hv]; [done|].
  assert (u = cl_UUID c) as -> by congruence. assert (HubClients.EqualFold (cl_UUID c) (cl_UUID c) = true) as -> by (by apply bool_decide_eq_true_2). apply andb_false_r.
Qed.

(** After such a run, a reconciliation that gets through. *)
Lemma reconcile_serves fold ParseAddr loadCA pre w n v gone wraps users :
  hub_ok fold ParseAddr loadCA True w -> v_locked v = true -> (forall c, v_net v n c = Through) -> (forall x, gone x = false) ->
  lists users (running w n) -> honest users (running w n) ->
  let w' := reconcile pre v gone wraps (Ok users) n w in st_of w' = st_of w /\ serves_links (st_of w) n (running w' n).
Proof.
  intros Hw Hlock Hnet Hgone Hlist Hhonest w'. unfold w', reconcile. rewrite Hlock. cbn [negb]. split; [done|].
  intros x sub u Hp. unfold running at 1, with_running. cbn [hb_run]. rewrite lookup_insert_eq. cbn [default id].
  destruct (Reconcile_through pre (v_net v n) gone wraps users (clientsOf (st_of w) n) (running w n) Hnet Hgone) as (_ & Hin & Hout & _); [by eapply wanted_check|done|].
  assert (forall e, wanted (st_of w) n e -> rc_entry (Reconcile pre (v_net v n) gone wraps (Ok users) (clientsOf (st_of w) n) (running w n)) !! SubscriptionEmail (SubscriptionID e)
    = Some (ClientUUID e)) as Hwant.
  { intros e He. pose proof He as (Hen & Hn & _). pose proof (Hin (clientOf (SubscriptionID e) (ClientUUID e))) as Hc.
    rewrite clientsOf_elem in Hc. specialize (Hc (ex_intro _ e (conj He eq_refl))). cbn [clientOf cl_Email cl_UUID] in Hc. rewrite Hc.
    destruct (needs _ _) eqn:Hneeds; [done|]. unfold needs in Hneeds. apply orb_false_iff in Hneeds as [Hb%negb_false_iff%bool_decide_eq_true _].
    apply Hlist in Hb as [u' Hu']. cbn [clientOf cl_Email] in Hu'. destruct (en_ids _ _ _ _ w e Hw Hen) as (Hs & Hnd & _).
    pose proof (parse_email (SubscriptionID e)) as Hpe. destruct (ho_run _ _ _ _ w Hw n _ _ _ (Hpe (proj2 (ho_ids _ _ _ _ w Hw) _ Hs)) Hu') as (_ & _ & H).
    destruct H as (e' & He' & Hpair & Hu); [done|by rewrite <-Hn|]. assert (e' = e) as ->; [|rewrite Hu'; f_equal; symmetry; by apply Hu].
    eapply wanted_unique; [exact Hw|done|done|]. rewrite Hpair. unfold en_pair. by rewrite Hn. }
  split.
  - intros Hx. destruct (decide (x ∈ cl_Email <$> clientsOf (st_of w) n)) as [Hi|Hi]; [|rewrite Hout, Hp in Hx by done; done].
    apply list_elem_of_fmap in Hi as (c & -> & (e & He & ->)%clientsOf_elem). exists e. cbn [clientOf cl_Email] in *. rewrite (Hwant e He) in Hx.
    split; [done|]. split; [|congruence]. symmetry. apply (email_sub _ _ Hp). destruct (en_ids _ _ _ _ w e Hw (proj1 He)) as (Hs & _). by apply (ho_ids _ _ _ _ w Hw).
  - intros (e & He & <- & <-). apply ParseSubscriptionEmail_Some in Hp as (-> & _). by apply Hwant.
Qed.


(** A push settles. After any run, also one in which links were replaced, a
    config that is pushed and taken leaves the node serving exactly the links the
    state stands for, and still after Xray starts again. *)
Theorem push_settles (fold : Z -> Z) (ParseAddr : string -> option Addr) (loadCA : string -> string -> bool) (pre : string)
    (w : hub) (node : Node) (Hrun : rtc (hub_step fold ParseAddr loadCA pre False) hub0 w) :
  let w' := push node w in
  st_of w' = st_of w /\ serves_links (st_of w) (N_ID node) (running w' (N_ID node)) /\
  serves_links (st_of w) (N_ID node) (running (xray_restarts (N_ID node) w') (N_ID node)).
Proof.
  pose proof (hub_run_ok _ _ _ _ _ w Hrun) as Hw. split; [done|].
  assert (forall x sub u, ParseSubscriptionEmail x = Some sub -> pushed_clients (st_of w) node !! x = Some u <->
    exists e, wanted (st_of w) (N_ID node) e /\ SubscriptionID e = sub /\ ClientUUID e = u) as H by (intros; by eapply pushed_lookup).
  split; intros x sub u Hp; rewrite <-(H x sub u Hp); unfold running, xray_restarts, in_file; cbn; by rewrite !lookup_insert_eq.
Qed.

(** ** Replaced links *)

(** A text of a call that was lost does not read like one of Xray's. *)
Definition quiet (f : fate) : Prop :=
  match f with Through => True | LostCall t | LostAnswer t => forall email, alreadyThere (Some t) email = false /\ alreadyGone (Some t) email = false end.

Section sure.
Context (pre : string) (net : agent_call -> fate) (Hq : forall c, quiet (net c)).

Lemma Disable_sure email E E' : Disable pre net email E = (None, E') -> E' !! email = None.
Proof.
  unfold Disable. destruct (checkEmail email); [done|]. pose proof (Hq (CRemove email)) as H. unfold send in *. destruct (net (CRemove email)) as [|t|t].
  - cbn [xray]. destruct (E !! email) eqn:He; [intros [= <-]; by rewrite lookup_delete_eq|].
    unfold alreadyGone. rewrite said_xray. by intros [= <-].
  - destruct (H email) as [_ ->]. done.
  - destruct (H email) as [_ ->]. done.
Qed.

Lemma Enable_sure c E E' : E !! cl_Email c = None -> Enable pre net c E = (None, E') -> E' = <[cl_Email c := cl_UUID c]> E.
Proof.
  intros Hn. unfold Enable. destruct (Client_check c); [done|]. pose proof (Hq (CAdd (cl_Email c) (cl_UUID c))) as H. unfold send in *. destruct (net _) as [|t|t].
  - cbn [xray]. rewrite Hn. by intros [= <-].
  - destruct (H (cl_Email c)) as [-> _]. done.
  - destruct (H (cl_Email c)) as [-> _]. done.
Qed.

Lemma Replace_sure c E E' : Replace pre net c E = (None, E') -> E' !! cl_Email c = Some (cl_UUID c).
Proof.
  unfold Replace. destruct (Client_check c); [done|]. destruct (Disable _ _ _ _) as [[err|] E1] eqn:Hd; [done|]. apply Disable_sure in Hd.
  intros ->%Enable_sure; [|done]. by rewrite lookup_insert_eq.
Qed.
End sure.

Lemma change_en_here sub node f l e : e ∈ l -> NoDup (en_pair <$> l) -> en_pair e = (sub, node) -> f e ∈ change_en sub node f l.
Proof.
  intros Hin Hnd Hp. induction l as [|d l IH]; [by apply elem_of_nil in Hin|]. apply NoDup_cons in Hnd as [Hn Hnd]. cbn [change_en]. apply elem_of_cons in Hin as [<-|Hin].
  - injection Hp as <- <-. rewrite !Z.eqb_refl. by left.
  - destruct (_ && _) eqn:Hd; [|right; by apply IH]. apply andb_true_iff in Hd as [H1%Z.eqb_eq H2%Z.eqb_eq]. destruct Hn.
    apply list_elem_of_fmap. exists e. split; [|done]. rewrite Hp. unfold en_pair. by subst.
Qed.

(** C40. A replacement is reported as it is. After any run: when ReplaceLink gives a
    new client id, the state has that id for the pair and, if the subscription runs,
    the node serves it; when it gives an error, the state is as it was, and unless
    the node did not take the change, either nothing happened at all or, where the
    calls that undo it get through, the node serves the old id again. *)
Theorem replace_honest (fold : Z -> Z) (ParseAddr : string -> option Addr) (loadCA : string -> string -> bool) (pre : string)
    (w : hub) (v back : env) (sub node : Z)
    (Hrun : rtc (hub_step fold ParseAddr loadCA pre False) hub0 w)
    (Hq : forall c, quiet (v_net v node c)) (Hback : v_held back node = true /\ forall c, v_net back node c = Through) :
  let '(r, w') := ReplaceLink fold ParseAddr loadCA pre v back sub node w in
  match r with
  | Ok fresh =>
      v_uuid v node = Ok fresh /\ (exists e, e ∈ Enablements (st_of w') /\ en_pair e = (sub, node) /\ ClientUUID e = fresh /\ Enabled e = true) /\
      (forall x, FindSubscription (st_of w) sub = Some x -> Running x = true -> running w' node !! SubscriptionEmail sub = Some fresh)
  | Err e =>
      st_of w' = st_of w /\
      (e = NotTaken \/ w' = w \/
       exists was, was ∈ Enablements (st_of w) /\ en_pair was = (sub, node) /\ running w' node !! SubscriptionEmail sub = Some (ClientUUID was))
  end.
Proof.
  pose proof (hub_run_ok _ _ _ _ _ w Hrun) as Hw. unfold ReplaceLink. destruct (linkParts _ _ _) as [[x was]|] eqn:Hl; [|by auto].
  apply linkParts_Ok in Hl as (Hx & Hin & Hp & Hon). destruct (negb (v_locked v)); [by auto|]. destruct (v_uuid v node) as [fresh|] eqn:Hu; [|by auto].
  set (r := if Running x then _ else _).
  assert (hb_store r.2 = hb_store w /\ (r.1.1 = false -> r.2 = w) /\ (r.1.2 = None -> r.1.1 = true -> Running x = true -> running r.2 node !! SubscriptionEmail sub = Some fresh) /\
    (Running x = false -> r.2 = w)) as (Hst & Hheld & Htook & Hidle).
  { unfold r. destruct (Running x); [|done]. unfold callNode. destruct (v_held v node); [|done]. destruct (Replace _ _ _ _) as [err E] eqn:Hr. cbn. split_and!; try done.
    intros -> _ _. apply Replace_sure in Hr; [|done]. unfold running, with_running. cbn. by rewrite lookup_insert_eq. }
  destruct r as [[held err] w1]. cbn [fst snd] in *. destruct held; cbn [negb]; [|rewrite Hheld by done; by auto]. assert (st_of w1 = st_of w) as Hs1 by (unfold st_of; by rewrite Hst).
  destruct err as [er|]; [by auto|].
  pose proof (Update_does fold ParseAddr loadCA (hb_store w1) (replace_edit sub node fresh) (v_disk v)) as Hup. cbv zeta in Hup. unfold update.
  destruct (Update _ _ _ _ _ _) as [st' res]. cbn [fst snd] in Hup. destruct Hup as [[[e ->] ->]|(-> & Hed & _)]; [rewrite Hst; apply (ho_store _ _ _ _ w Hw)|..].
  - cbn beta iota. destruct (Running x) eqn:Hrx.
    + destruct Hback as [Hh Hthrough]. unfold applyTo, callNode. rewrite Hh. unfold Replace. injection Hp as Hsub Hnode.
      pose proof (client_good fold ParseAddr loadCA False w was Hw Hin) as Hg. rewrite Hsub in Hg. rewrite Hg.
      rewrite Disable_through, Enable_through by (done || by eapply Client_check_email, Hg). cbn [clientOf cl_Email cl_UUID]. rewrite lookup_delete_eq. cbn [snd].
      split; [done|]. right. right. exists was. split; [done|]. split; [unfold en_pair; by subst|]. unfold running, with_running. cbn. rewrite lookup_insert_eq. cbn. by rewrite lookup_insert_eq.
    + split; [done|]. right. left. rewrite Hidle by done. by destruct w.
  - cbn beta iota. split; [done|]. split; [|intros y Hy Hry; apply Htook; congruence].
    unfold st_of, with_store. cbn [hb_store]. rewrite Hst in Hed. fold (st_of w) in Hed. unfold replace_edit in Hed.
    destruct (FindEnablement (st_of w) sub node) as [d|] eqn:Hf; [|done]. destruct (Enabled d) eqn:Hdon; [|done]. injection Hed as <-. apply FindEnablement_Some in Hf as (Hd & Hds & Hdn).
    exists (set_uuid d fresh). cbn [with_ens Enablements]. split; [|split; [unfold en_pair; by subst|done]].
    apply (change_en_here sub node (fun e => set_uuid e fresh)); [done|apply (sp_pairs _ _ _ _ (ho_spec _ _ _ _ w Hw))|unfold en_pair; by subst].
Qed.

(** ** A life, as an example *)

Lemma AddNode_keeps ParseAddr n s s' n' : AddNode ParseAddr s n = Ok (s', n') -> keeps s s'.
Proof.
  unfold AddNode. intros ([] & _ & H)%rbind_Ok. apply rbind_Ok in H as ([] & _ & H). injection H as <- <-. split_and!; try done.
  intros id. unfold node_ids. cbn. rewrite fmap_app, elem_of_app. cbn. intros [H|H%list_elem_of_singleton]; [by left|right; lia].
Qed.

Definition demo_env (uuid : string) (net : agent_call -> fate) : env :=
  MkEnv (fun _ => true) (fun _ => net) true (10 ^ 18) true (fun _ => false) (fun _ => Ok uuid).
Definition old_id : string := demo_uuid "1".
Definition new_id : string := demo_uuid "2".
Definition through : agent_call -> fate := fun _ => Through.

Definition demo_hub1 : hub := (update demo_fold demo_parse demo_ca (demo_env old_id through) (fun s => rbind (fun r => Ok r.1) (AddNode demo_parse s demo_node)) hub0).2.
Definition demo_hub2 : hub := (CreateSubscription demo_fold demo_parse demo_ca "" (demo_env old_id (fun _ => LostCall "deadline exceeded")) "Ali" [1] 0 zeroTime demo_hub1).2.
Definition the_node : Node := default demo_node (head (Nodes (st_of demo_hub2))).
Definition demo_hub3 : hub := push the_node demo_hub2.

Lemma demo_hub2_run exact : rtc (hub_step demo_fold demo_parse demo_ca "" exact) hub0 demo_hub2.
Proof.
  eapply rtc_l; [apply (hs_edit _ _ _ _ _ (demo_env old_id through)) with (edit := fun s => rbind (fun r => Ok r.1) (AddNode demo_parse s demo_node))|].
  - intros s s' ([s1 n1] & H & [= <-])%rbind_Ok. by eapply AddNode_keeps.
  - apply rtc_once, (hs_create _ _ _ _ _ (demo_env old_id (fun _ => LostCall "deadline exceeded")) "Ali" [1] 0 zeroTime demo_hub1). vm_compute. reflexivity.
Qed.

Lemma demo_hub3_run exact : rtc (hub_step demo_fold demo_parse demo_ca "" exact) hub0 demo_hub3.
Proof. eapply rtc_r; [apply demo_hub2_run|]. apply hs_push. apply (bool_decide_unpack _). vm_compute. exact I. Qed.


(** A link that was replaced, and then Xray starts again: the node serves the old
    link, and reconciling does not see it. *)
Definition demo_replaced : hub := (ReplaceLink demo_fold demo_parse demo_ca "" (demo_env new_id through) (demo_env new_id through) 1 1 demo_hub3).2.
Definition seen (w : hub) : list (option UserInfo) := (fun x => Some (MkUser x "")) <$> elements (dom (running w 1)).
Definition demo_revived : hub :=
  let w := xray_restarts 1 demo_replaced in reconcile "" (demo_env new_id through) (fun _ => false) (fun _ => false) (Ok (seen w)) 1 w.

Example replaced_link_revives :
  running demo_replaced 1 !! "sub-1@remote-nodes" = Some new_id /\
  (ClientUUID <$> Enablements (st_of demo_revived)) = [new_id] /\ running demo_revived 1 !! "sub-1@remote-nodes" = Some old_id.
Proof. vm_compute. done. Qed.

(** A replacement whose answer is lost: it is reported as not taken, the state keeps
    the old id, and the node has the new one, also after it is reconciled. *)
Definition answer_lost : agent_call -> fate := fun c => match c with CAdd _ _ => LostAnswer "deadline exceeded" | CRemove _ => Through end.
Definition demo_lost : result sub_error string * hub := ReplaceLink demo_fold demo_parse demo_ca "" (demo_env new_id answer_lost) (demo_env new_id through) 1 1 demo_hub3.

Example replace_answer_lost :
  demo_lost.1 = Err NotTaken /\ (ClientUUID <$> Enablements (st_of demo_lost.2)) = [old_id] /\
  running (reconcile "" (demo_env new_id through) (fun _ => false) (fun _ => false) (Ok (seen demo_lost.2)) 1 demo_lost.2) 1 !! "sub-1@remote-nodes" = Some new_id.
Proof. vm_compute. done. Qed.

Lemma push_settles_witness : running (xray_restarts 1 (push the_node demo_revived)) 1 !! "sub-1@remote-nodes" = Some new_id.
Proof.
  assert (rtc (hub_step demo_fold demo_parse demo_ca "" False) hub0 demo_revived) as Hrun.
  { eapply rtc_r; [eapply rtc_r; [eapply rtc_r; [apply demo_hub3_run|]|]|].
    - apply (hs_replace demo_fold demo_parse demo_ca "" False (demo_env new_id through) (demo_env new_id through) 1 1 demo_hub3). exact id.
    - apply (hs_restart _ _ _ _ _ 1).
    - apply (hs_reconcile _ _ _ _ _ (demo_env new_id through) (fun _ => false) (fun _ => false)). apply (bool_decide_unpack _). vm_compute. exact I. }
  destruct (push_settles demo_fold demo_parse demo_ca "" demo_revived the_node Hrun) as (_ & _ & H).
  apply (H "sub-1@remote-nodes" 1 new_id); [vm_compute; reflexivity|]. exists (MkEn 1 1 new_id true).
  split; [|split; reflexivity]. split; [apply (bool_decide_unpack _); vm_compute; exact I|]. split; [reflexivity|]. split; [reflexivity|].
  apply (bool_decide_unpack _). vm_compute. exact I.
Defined.

Lemma replace_honest_witness : running demo_replaced 1 !! "sub-1@remote-nodes" = Some new_id.
Proof.
  pose proof (replace_honest demo_fold demo_parse demo_ca "" demo_hub3 (demo_env new_id through) (demo_env new_id through) 1 1 (demo_hub3_run False) (fun _ => I)
    (conj eq_refl (fun _ => eq_refl))) as H.
  assert (ReplaceLink demo_fold demo_parse demo_ca "" (demo_env new_id through) (demo_env new_id through) 1 1 demo_hub3 = (Ok new_id, demo_replaced)) as He.
  { unfold demo_replaced. destruct (ReplaceLink _ _ _ _ _ _ _ _ _) as [r w] eqn:Hr. assert (r = Ok new_id) as ->; [|reflexivity].
    change r with (r, w).1. rewrite <-Hr. vm_compute. reflexivity. }
  rewrite He in H. destruct H as (_ & _ & H).
  destruct (FindSubscription (st_of demo_hub3) 1) as [x|] eqn:Hx; [|vm_compute in Hx; discriminate Hx].
  apply (H x eq_refl). assert (Running <$> FindSubscription (st_of demo_hub3) 1 = Some true) as Hr by (vm_compute; reflexivity). rewrite Hx in Hr. injection Hr as ->. reflexivity.
Defined.
