(* ===== verification/HubLocks.v ===== *)
(** * The locks of the hub's nodes

    The applyLocks and lockNodes of internal/remotenodes/manager/subs.go: a node's
    lock is a channel that holds one item, made when it is first asked for; an
    operation takes the locks of its nodes one by one, the lowest id first, gives up
    what it has when its context ends first, and lets go in reverse order. Callers are
    steps that interleave in any order.

    Theorems: no lock has two holders, a lock is full exactly when somebody holds it,
    and letting go never waits ([locks_exclusive]); however the callers are scheduled,
    they never come to a stop and all get done ([locks_no_deadlock]). *)

From S2P Require Import Prelude.

(** ** The channels *)

(** By id, whether something is in the channel. *)
Abbreviation locks := (gmap Z bool).

Definition lock_of (a : locks) (id : Z) : locks := match a !! id with Some _ => a | None => <[id := false]> a end.

(** Sending to a channel and receiving from it; [None] waits. *)
Definition send_lock (a : locks) (id : Z) : option locks := match a !! id with Some false => Some (<[id := true]> a) | _ => None end.
Definition receive_lock (a : locks) (id : Z) : option locks := match a !! id with Some true => Some (<[id := false]> a) | _ => None end.

(** ** A caller *)

(** [slices.Compact]: of a run of equal values the first. *)
Fixpoint Compact (l : list Z) : list Z :=
  match l with
  | a :: ((b :: _) as t) => if a =? b then Compact t else a :: Compact t
  | _ => l
  end.

(** Inside [lockNodes] with some locks held and others still to take; back from it
    with all of them; letting go, the last one first. *)
Inductive caller := Waiting (held todo : list Z) | Holding (held : list Z) | Releasing (held : list Z).

Definition lockNodes (ids : list Z) : caller := Waiting [] (Compact (sort_on (fun id => id) ids)).

(** The next step of a caller, if it need not wait; [None] inside is the end. *)
Definition advance (a : locks) (c : caller) : option (locks * option caller) :=
  match c with
  | Waiting held [] => Some (a, Some (Holding held))
  | Waiting held (id :: todo) => (fun a => (a, Some (Waiting (held ++ [id]) todo))) <$> send_lock (lock_of a id) id
  | Holding held => Some (a, Some (Releasing held))
  | Releasing held =>
      match last held with
      | None => Some (a, None)
      | Some id => (fun a => (a, Some (Releasing (take (length held - 1) held)))) <$> receive_lock a id
      end
  end.

(** The context ends while it waits for a lock. *)
Definition ctx_ends (c : caller) : option caller := match c with Waiting held (_ :: _) => Some (Releasing held) | _ => None end.

(** ** All of them together *)

Record lock_sys := MkLocks { lk_locks : locks; lk_callers : gmap nat caller }.
Definition put_caller (t : nat) (o : option caller) (m : gmap nat caller) : gmap nat caller := match o with Some c => <[t := c]> m | None => delete t m end.

(** One caller goes on. *)
Inductive lock_go : lock_sys -> lock_sys -> Prop :=
| go_on s t c a o : lk_callers s !! t = Some c -> advance (lk_locks s) c = Some (a, o) -> lock_go s (MkLocks a (put_caller t o (lk_callers s))).

Inductive lock_step : lock_sys -> lock_sys -> Prop :=
| ls_go s s' : lock_go s s' -> lock_step s s'
| ls_call s t ids : lk_callers s !! t = None -> lock_step s (MkLocks (lk_locks s) (<[t := lockNodes ids]> (lk_callers s)))
| ls_done s t c c' : lk_callers s !! t = Some c -> ctx_ends c = Some c' -> lock_step s (MkLocks (lk_locks s) (<[t := c']> (lk_callers s))).

Definition locks0 : lock_sys := MkLocks ∅ ∅.

(** ** The order a caller takes its locks in *)

Lemma Compact_elem l x : x ∈ Compact l <-> x ∈ l.
Proof.
  induction l as [|a [|b l] IH]; [done|done|]. change (Compact (a :: b :: l)) with (if a =? b then Compact (b :: l) else a :: Compact (b :: l)).
  destruct (a =? b) eqn:Hab; [apply Z.eqb_eq in Hab as ->|]; rewrite !elem_of_cons, ?IH, ?elem_of_cons; tauto.
Qed.

Lemma Compact_sorted l : StronglySorted Z.le l -> StronglySorted Z.lt (Compact l).
Proof.
  induction 1 as [|a l Hs IH Ha]; [constructor|]. destruct l as [|b l]; [repeat constructor|].
  change (Compact (a :: b :: l)) with (if a =? b then Compact (b :: l) else a :: Compact (b :: l)). destruct (a =? b) eqn:Hab; [done|]. constructor; [done|].
  apply Z.eqb_neq in Hab. apply Forall_forall. intros x Hx. rewrite Compact_elem in Hx. apply StronglySorted_inv in Hs as [_ Hb]. rewrite Forall_forall in Ha, Hb.
  pose proof (Ha b ltac:(by left)). apply elem_of_cons in Hx as [->|Hx]; [lia|]. specialize (Hb x Hx). lia.
Qed.

Definition caller_held (c : caller) : list Z := match c with Waiting held _ | Holding held | Releasing held => held end.
Definition caller_todo (c : caller) : list Z := match c with Waiting _ todo => todo | _ => [] end.

(** What is held and what is still to be taken, in rising order. *)
Definition in_order (c : caller) : Prop := StronglySorted Z.lt (caller_held c ++ caller_todo c).

Lemma lockNodes_in_order ids : in_order (lockNodes ids).
Proof. apply Compact_sorted. exact (sort_on_le (fun id => id) ids). Qed.

Lemma sorted_app_l (l k : list Z) : StronglySorted Z.lt (l ++ k) -> StronglySorted Z.lt l.
Proof.
  induction l as [|x l IH]; cbn; [constructor|]. intros [H1 H2]%StronglySorted_inv. constructor; [by apply IH|]. by apply Forall_app in H2 as [H2 _].
Qed.

Lemma sorted_app_lt (l k : list Z) x y : StronglySorted Z.lt (l ++ k) -> x ∈ l -> y ∈ k -> x < y.
Proof.
  induction l as [|z l IH]; cbn; [by intros _ H%elem_of_nil|]. intros [H1 H2]%StronglySorted_inv Hx Hy. apply elem_of_cons in Hx as [->|Hx]; [|by apply IH].
  rewrite Forall_forall in H2. apply H2, elem_of_app. by right.
Qed.

(** ** The invariant *)

Definition holds (s : lock_sys) (t : nat) (id : Z) : Prop := exists c, lk_callers s !! t = Some c /\ id ∈ caller_held c.

Record locks_ok (s : lock_sys) : Prop := {
  lo_order : forall t c, lk_callers s !! t = Some c -> in_order c;
  lo_full : forall id, lk_locks s !! id = Some true <-> exists t, holds s t id;
  lo_one : forall t t' id, holds s t id -> holds s t' id -> t = t'
}.

Lemma lock_of_lookup a id x : lock_of a id !! x = Some true <-> a !! x = Some true.
Proof.
  unfold lock_of. destruct (a !! id) eqn:Ha; [done|]. destruct (decide (x = id)) as [->|Hne]; [rewrite lookup_insert_eq, Ha|rewrite lookup_insert_ne by done]; naive_solver.
Qed.

(** What a caller's step does to the locks, by what it holds after it. *)
Lemma advance_does a c a' o : advance a c = Some (a', o) ->
  let held' := from_option caller_held [] o in
  (caller_held c = held' /\ a' = a) \/
  (exists id, held' = caller_held c ++ [id] /\ a !! id <> Some true /\ forall x, a' !! x = Some true <-> x = id \/ a !! x = Some true) \/
  (exists id, caller_held c = held' ++ [id] /\ a !! id = Some true /\ forall x, a' !! x = Some true <-> x <> id /\ a !! x = Some true).
Proof.
  intros Had held'. subst held'. destruct c as [held [|id todo]|held|held]; cbn in Had.
  - injection Had as <- <-. by left.
  - right. left. exists id. unfold send_lock in Had. destruct (lock_of a id !! id) as [[]|] eqn:Hl; try done. injection Had as <- <-. split; [done|]. split.
    + rewrite <-(lock_of_lookup a id id). by rewrite Hl.
    + intros x. destruct (decide (x = id)) as [->|Hne]; [rewrite lookup_insert_eq; naive_solver|]. rewrite lookup_insert_ne by done. rewrite lock_of_lookup. naive_solver.
  - injection Had as <- <-. by left.
  - destruct (last held) as [id|] eqn:Hlast.
    + right. right. exists id. unfold receive_lock in Had. destruct (a !! id) as [[]|] eqn:Hl; try done. injection Had as <- <-.
      apply last_Some in Hlast as [l ->]. cbn. rewrite length_app. cbn. rewrite Nat.add_sub, take_app_length. split; [done|]. split; [done|].
      intros x. destruct (decide (x = id)) as [->|Hne]; [rewrite lookup_insert_eq; naive_solver|]. rewrite lookup_insert_ne by done. naive_solver.
    + injection Had as <- <-. left. by apply last_None in Hlast as ->.
Qed.

Lemma advance_order a c a' o c' : advance a c = Some (a', o) -> o = Some c' -> in_order c -> in_order c'.
Proof.
  intros Had ->. unfold in_order. destruct c as [held [|id todo]|held|held]; cbn in Had |- *.
  - by injection Had as _ <-.
  - destruct (send_lock _ _); [|done]. injection Had as _ <-. cbn. by rewrite <-app_assoc.
  - by injection Had as _ <-.
  - destruct (last held); [|done]. destruct (receive_lock _ _); [|done]. injection Had as _ <-. cbn. rewrite !app_nil_r. intros H.
    rewrite <-(take_drop (length held - 1) held) in H. by apply sorted_app_l in H.
Qed.

Lemma ctx_ends_keeps c c' : ctx_ends c = Some c' -> caller_held c' = caller_held c /\ (in_order c -> in_order c').
Proof. destruct c as [held [|id todo]|held|held]; cbn; try done. intros [= <-]. split; [done|]. unfold in_order. cbn. rewrite app_nil_r. apply sorted_app_l. Qed.

Lemma locks0_ok : locks_ok locks0.
Proof. split; cbn; [done|intros id; split; [by rewrite lookup_empty|intros (t & c & Hc & _); done]|by intros t t' id (c & Hc & _)]. Qed.

(** Another caller is put in place whose locks are the old one's. *)
Lemma put_same_ok s t c' : locks_ok s -> in_order c' -> caller_held c' = from_option caller_held [] (lk_callers s !! t) ->
  locks_ok (MkLocks (lk_locks s) (<[t := c']> (lk_callers s))).
Proof.
  intros [H1 H2 H3] Ho Hh.
  assert (forall t' id, holds (MkLocks (lk_locks s) (<[t := c']> (lk_callers s))) t' id <-> holds s t' id) as Hholds.
  { intros t' id. unfold holds. cbn. destruct (decide (t' = t)) as [->|Hne]; [|by rewrite lookup_insert_ne by done]. rewrite lookup_insert_eq. split.
    - intros (c & [= <-] & Hin). rewrite Hh in Hin. destruct (lk_callers s !! t) as [c|]; [by exists c|by apply elem_of_nil in Hin].
    - intros (c & Hc & Hin). exists c'. rewrite Hc in Hh. cbn in Hh. by rewrite Hh. }
  split; cbn.
  - intros t' c. destruct (decide (t' = t)) as [->|Hne]; [rewrite lookup_insert_eq; by intros [= <-]|rewrite lookup_insert_ne by done; apply H1].
  - intros id. rewrite H2. by setoid_rewrite Hholds.
  - intros t1 t2 id. rewrite !Hholds. apply H3.
Qed.

Lemma holds_put s a t o t' id : holds (MkLocks a (put_caller t o (lk_callers s))) t' id <->
  if decide (t' = t) then id ∈ from_option caller_held [] o else holds s t' id.
Proof.
  unfold holds, put_caller. cbn. destruct (decide (t' = t)) as [->|Hne], o as [c|]; cbn; rewrite ?lookup_insert_eq, ?lookup_delete_eq, ?lookup_insert_ne, ?lookup_delete_ne by done.
  - split; [by intros (d & [= <-] & H)|intros H; by exists c].
  - split; [by intros (d & H & _)|by intros H%elem_of_nil].
  - done.
  - done.
Qed.

Lemma lock_go_ok s s' : lock_go s s' -> locks_ok s -> locks_ok s'.
Proof.
  intros [s0 t c a o Hc Had] [H1 H2 H3]. pose proof (advance_does _ _ _ _ Had) as Hd. cbv zeta in Hd.
  assert (forall id, holds s0 t id <-> id ∈ caller_held c) as Ht by (intros id; unfold holds; rewrite Hc; naive_solver).
  pose proof (H1 t c Hc) as Hord. split.
  - cbn. intros t' c'. destruct (decide (t' = t)) as [->|Hne], o as [d|]; cbn; rewrite ?lookup_insert_eq, ?lookup_delete_eq, ?lookup_insert_ne, ?lookup_delete_ne by done; try done; [|apply H1..].
    intros [= <-]. by eapply advance_order.
  - intros x. cbn. assert (a !! x = Some true <-> x ∈ from_option caller_held [] o \/ exists t', t' <> t /\ holds s0 t' x) as ->.
    + assert (lk_locks s0 !! x = Some true <-> x ∈ caller_held c \/ exists t', t' <> t /\ holds s0 t' x) as Hx.
      { rewrite H2, <-Ht. split; [intros (t' & H); destruct (decide (t' = t)) as [->|]; eauto|intros [H|(t' & _ & H)]; eauto]. }
      destruct Hd as [[<- ->]|[(id & -> & _ & ->)|(id & Hh & Hfull & ->)]].
      * exact Hx.
      * rewrite Hx, elem_of_app, list_elem_of_singleton. tauto.
      * rewrite Hx, Hh, elem_of_app, list_elem_of_singleton. assert (id ∉ from_option caller_held [] o) as Hn.
        { unfold in_order in Hord. rewrite Hh in Hord. apply sorted_app_l in Hord. intros Hi. assert (id < id); [|lia]. eapply sorted_app_lt; [exact Hord|done|by left]. }
        assert (~ exists t', t' <> t /\ holds s0 t' id) as Ho by (intros (t' & Hne & H); apply Hne, (H3 t' t id H), Ht; rewrite Hh; apply elem_of_app; right; by left).
        split; [intros [Hne [[?| ->]|?]]; [by left|done|by right]|]. intros [H|H]; (split; [intros ->; by eauto|]); [by left; left|by right].
    + split; [intros [H|(t' & Hne & H)]|intros (t' & H%holds_put)].
      * exists t. apply holds_put. by rewrite decide_True.
      * exists t'. apply holds_put. by rewrite decide_False.
      * destruct (decide (t' = t)); [by left|by right; exists t'].
  - assert (forall t', t' <> t -> forall id, id ∈ from_option caller_held [] o -> ~ holds s0 t' id) as Hfresh.
    { intros t' Hne id Hi Hh. destruct Hd as [[Hd _]|[(i & Hd & Hn & _)|(i & Hd & _)]].
      - apply Hne, (H3 t' t id Hh), Ht. by rewrite Hd.
      - rewrite Hd, elem_of_app, list_elem_of_singleton in Hi. destruct Hi as [Hi| ->]; [by apply Hne, (H3 t' t id Hh), Ht|]. apply Hn, H2. by exists t'.
      - apply Hne, (H3 t' t id Hh), Ht. rewrite Hd. apply elem_of_app. by left. }
    intros t1 t2 id. rewrite !holds_put. destruct (decide (t1 = t)) as [->|Hn1], (decide (t2 = t)) as [->|Hn2]; [done|..].
    + intros Hi Hh. by destruct (Hfresh t2 Hn2 id Hi).
    + intros Hh Hi. by destruct (Hfresh t1 Hn1 id Hi).
    + apply H3.
Qed.

Lemma lock_step_ok s s' : lock_step s s' -> locks_ok s -> locks_ok s'.
Proof.
  intros [s0 s1 Hgo|s0 t ids Hn|s0 t c c' Hc He] Hs.
  - by eapply lock_go_ok.
  - apply put_same_ok; [done|apply lockNodes_in_order|by rewrite Hn].
  - apply ctx_ends_keeps in He as [Hh Ho]. apply put_same_ok; [done|by apply Ho, (lo_order _ Hs t)|by rewrite Hc].
Qed.

Lemma locks_run_ok s : rtc lock_step locks0 s -> locks_ok s.
Proof. intros Hr. pose proof locks0_ok as H0. revert H0. induction Hr as [|s1 s2 s3 Hs _ IH]; [done|]. intros H0. by apply IH, (lock_step_ok s1). Qed.

(** ** No deadlock *)

(** Steps a caller still has before it at most. *)
Definition caller_work (c : caller) : Z :=
  match c with
  | Waiting held todo => Z.of_nat (length held) + 2 * Z.of_nat (length todo) + 3
  | Holding held => Z.of_nat (length held) + 2
  | Releasing held => Z.of_nat (length held) + 1
  end.
Definition work (s : lock_sys) : Z := msum (fun _ c => caller_work c) (lk_callers s).

Lemma advance_work a c a' o : advance a c = Some (a', o) -> from_option caller_work 0 o < caller_work c.
Proof.
  destruct c as [held [|id todo]|held|held]; cbn.
  - intros [= _ <-]. cbn. lia.
  - destruct (send_lock _ _); [|done]. intros [= _ <-]. cbn [from_option caller_work]. rewrite length_app. cbn [length]. lia.
  - intros [= _ <-]. cbn. lia.
  - destruct (last held) as [id|] eqn:Hl; [|intros [= _ <-]; cbn; lia]. destruct (receive_lock _ _); [|done]. intros [= _ <-].
    apply last_Some in Hl as [l ->]. cbn [from_option caller_work]. rewrite length_take, length_app. cbn [length]. lia.
Qed.

Lemma work_nonneg s : 0 <= work s.
Proof.
  unfold work. apply msum_nonneg. intros t c _. destruct c; cbn; lia.
Qed.

Lemma lock_go_work s s' : lock_go s s' -> work s' < work s.
Proof.
  intros [s0 t c a o Hc Had]. apply advance_work in Had. unfold work. cbn. rewrite (msum_delete _ (lk_callers s0) t c Hc).
  destruct o as [c'|]; cbn in Had |- *; [|lia]. rewrite <-insert_delete_eq, msum_insert by apply lookup_delete_eq. lia.
Qed.

(** A caller that has its locks, or lets go of them, never waits. *)
Lemma holder_goes s t c : locks_ok s -> lk_callers s !! t = Some c -> caller_todo c = [] -> is_Some (advance (lk_locks s) c).
Proof.
  intros Hs Hc Htodo. destruct c as [held todo|held|held]; cbn in Htodo |- *; [by subst; eexists|by eexists|].
  destruct (last held) as [id|] eqn:Hl; [|by eexists]. unfold receive_lock. apply last_Some in Hl as [l ->].
  assert (lk_locks s !! id = Some true) as ->; [|by eexists]. apply (lo_full s Hs). exists t, (Releasing (l ++ [id])). split; [done|]. apply elem_of_app. right. by left.
Qed.

(** One that waits, waits for a lock that is full. *)
Lemma waiter_full s t held id todo : lk_callers s !! t = Some (Waiting held (id :: todo)) -> advance (lk_locks s) (Waiting held (id :: todo)) = None -> lk_locks s !! id = Some true.
Proof.
  intros _. cbn. unfold send_lock. destruct (lock_of (lk_locks s) id !! id) as [[]|] eqn:Hl; try done; [by rewrite lock_of_lookup in Hl|].
  intros _. unfold lock_of in Hl. destruct (lk_locks s !! id) eqn:Ha; [congruence|by rewrite lookup_insert_eq in Hl].
Qed.

Lemma wants_bounded (m : gmap nat caller) : exists B, forall t held id todo, m !! t = Some (Waiting held (id :: todo)) -> id <= B.
Proof.
  induction m as [|t c m Hn IH0] using map_ind; [by exists 0|]. destruct IH0 as [B IH]. exists (Z.max B (default 0 (head (caller_todo c)))).
  intros t' held id todo. destruct (decide (t' = t)) as [->|Hne].
  - rewrite lookup_insert_eq. intros [= ->]. cbn. lia.
  - rewrite lookup_insert_ne by done. intros H%IH. lia.
Qed.

Lemma someone_goes s : locks_ok s -> lk_callers s <> ∅ -> exists s', lock_go s s'.
Proof.
  intros Hs Hne.
  assert (~ (forall t c, lk_callers s !! t = Some c -> advance (lk_locks s) c = None)) as Hsome.
  { intros Hstuck. destruct (wants_bounded (lk_callers s)) as [B HB].
    assert (forall k : nat, forall t held id todo, lk_callers s !! t = Some (Waiting held (id :: todo)) -> B - id < Z.of_nat k -> False) as Hno.
    { induction k as [|k IH]; intros t held id todo Ht Hk; [specialize (HB _ _ _ _ Ht); lia|].
      pose proof (waiter_full s t held id todo Ht (Hstuck _ _ Ht)) as Hfull. apply (lo_full s Hs) in Hfull as (t' & c' & Hc' & Hin).
      destruct (caller_todo c') as [|id' todo'] eqn:Htodo.
      - destruct (holder_goes s t' c' Hs Hc' Htodo) as [x Hx]. by rewrite (Hstuck _ _ Hc') in Hx.
      - destruct c' as [held' todo''|held'|held']; try done. cbn in Htodo, Hin. subst todo''. apply (IH t' held' id' todo' Hc').
        assert (id < id'); [|lia]. eapply sorted_app_lt; [exact (lo_order s Hs _ _ Hc')|exact Hin|by left]. }
    apply map_choose in Hne as (t & c & Hc). destruct (caller_todo c) as [|id todo] eqn:Htodo.
    - destruct (holder_goes s t c Hs Hc Htodo) as [x Hx]. by rewrite (Hstuck _ _ Hc) in Hx.
    - destruct c as [held todo'|held|held]; try done. cbn in Htodo. subst todo'. apply (Hno (Z.to_nat (B - id + 1)) t held id todo Hc). lia. }
  destruct (decide (Exists (fun p => is_Some (advance (lk_locks s) p.2)) (map_to_list (lk_callers s)))) as [Hex|Hnone].
  - apply Exists_exists in Hex as ([t c] & Hin & [[a o] Ha]). apply elem_of_map_to_list in Hin. exists (MkLocks a (put_caller t o (lk_callers s))). by apply (go_on s t c).
  - destruct Hsome. intros t c Hc. apply eq_None_not_Some. intros Ha. apply Hnone, Exists_exists. exists (t, c). by rewrite elem_of_map_to_list.
Qed.

(** ** The theorems *)

(** Locks exclude. Whatever callers come, go on in whatever order, and give up: no
    lock has two holders; a lock's channel is full exactly when somebody holds the
    lock; and a caller that has all its locks, or is letting go of them, never waits
    for its next step. *)
Theorem locks_exclusive (s : lock_sys) (Hrun : rtc lock_step locks0 s) :
  (forall t t' id, holds s t id -> holds s t' id -> t = t') /\
  (forall id, lk_locks s !! id = Some true <-> exists t, holds s t id) /\
  (forall t c, lk_callers s !! t = Some c -> caller_todo c = [] -> is_Some (advance (lk_locks s) c)).
Proof.
  pose proof (locks_run_ok s Hrun) as Hs. split; [apply (lo_one s Hs)|]. split; [apply (lo_full s Hs)|]. intros t c. by apply holder_goes.
Qed.

(** C37. Callers get done. From any state that can be reached, let the callers go on in any
    order: they take at most [work] steps in all, they stop only when every caller is
    done, and then every lock is free. So no callers ever wait for each other, however
    many nodes each of them takes. *)
Theorem locks_no_deadlock (s : lock_sys) (Hrun : rtc lock_step locks0 s) (n : nat) (s' : lock_sys) (Hgo : nsteps lock_go n s s') :
  Z.of_nat n <= work s /\
  ((exists s'', lock_go s' s'') \/ lk_callers s' = ∅ /\ forall id, lk_locks s' !! id <> Some true).
Proof.
  assert (locks_ok s' /\ Z.of_nat n + work s' <= work s) as [Hs' Hw].
  { pose proof (locks_run_ok s Hrun) as Hs. clear Hrun. induction Hgo as [s|n s1 s2 s3 Hs12 _ IH]; [split; [done|lia]|].
    destruct IH as [H1 H2]; [by eapply lock_go_ok|]. split; [done|]. apply lock_go_work in Hs12. lia. }
  split; [pose proof (work_nonneg s'); lia|]. destruct (decide (lk_callers s' = ∅)) as [He|Hne]; [|left; by apply someone_goes].
  right. split; [done|]. intros id (t & c & Hc & _)%(lo_full s' Hs'). by rewrite He in Hc.
Qed.

(** ** An example: two callers for the same two nodes *)

Definition demo_locks1 : lock_sys := MkLocks (lk_locks locks0) (<[0%nat := lockNodes [2; 1; 2]]> (lk_callers locks0)).
Definition demo_locks2 : lock_sys := MkLocks (lk_locks demo_locks1) (<[1%nat := lockNodes [1; 2]]> (lk_callers demo_locks1)).
Definition demo_go (t : nat) (s : lock_sys) : lock_sys :=
  match lk_callers s !! t with
  | Some c => match advance (lk_locks s) c with Some (a, o) => MkLocks a (put_caller t o (lk_callers s)) | None => s end
  | None => s
  end.

Lemma demo_go_step t s : (exists c, lk_callers s !! t = Some c /\ is_Some (advance (lk_locks s) c)) -> lock_go s (demo_go t s).
Proof. intros (c & Hc & [[a o] Ha]). unfold demo_go. rewrite Hc, Ha. by apply (go_on s t c). Qed.

Lemma demo_locks2_run : rtc lock_step locks0 demo_locks2.
Proof. eapply rtc_l; [by apply (ls_call locks0 0 [2; 1; 2])|]. apply rtc_once. by apply (ls_call demo_locks1 1 [1; 2]). Qed.

(** The second waits while the first has node 1. *)
Lemma locks_exclusive_witness : advance (lk_locks (demo_go 0 demo_locks2)) (lockNodes [1; 2]) = None /\ forall t, holds (demo_go 0 demo_locks2) t 1 -> t = 0%nat.
Proof.
  split; [reflexivity|]. assert (rtc lock_step locks0 (demo_go 0 demo_locks2)) as Hr.
  { eapply rtc_r; [apply demo_locks2_run|]. apply ls_go, demo_go_step. eexists. split; [reflexivity|]. vm_compute. by eexists. }
  destruct (locks_exclusive _ Hr) as (H & _ & _). intros t Ht. apply (H t 0%nat 1 Ht). eexists. split; [reflexivity|]. by left.
Defined.

Lemma locks_no_deadlock_witness : Z.of_nat 1 <= work demo_locks2 /\ exists s'', lock_go (demo_go 0 demo_locks2) s''.
Proof.
  destruct (locks_no_deadlock demo_locks2 demo_locks2_run 1 (demo_go 0 demo_locks2)) as [H1 H2].
  - eapply nsteps_l; [|apply nsteps_O]. apply demo_go_step. eexists. split; [reflexivity|]. vm_compute. by eexists.
  - split; [exact H1|]. destruct H2 as [H|[H _]]; [exact H|]. vm_compute in H. discriminate H.
Defined.
