(* ===== verification/HubBackup.v ===== *)
(** * Backups

    internal/remotenodes/backup/backup.go, which seals the state under a passphrase
    and opens it again, and manager/backup.go, which exports the hub's state and puts
    one back on a fresh install. scrypt and AES-GCM are parameters with the laws a
    theorem needs as hypotheses, as are encoding/json's bytes; the random bytes, the
    clock, the disk and the lock are arguments. Wiping secrets from memory, the log
    and the loops that start after a restore are left out.

    Theorems: a file opens under a passphrase exactly if it is one the code makes
    under it, byte by byte ([opens_what_was_sealed]); no file makes scrypt run beyond
    the limits ([import_asks_little]); a backup comes back, and every subscription
    goes on from what it had used ([backup_comes_back]); an import that is refused
    changes nothing ([import_all_or_nothing]). *)

From S2P Require Import Prelude GoString GoUnicode Dates BridgeSpec History UsageCollector HubState HubStore HubLimits.

(** ** The file *)

Definition magic : bytes := to_bytes "RNBACKUP".
Definition formatV1 : Z := 1.
Definition saltLen : nat := 16.
Definition nonceLen : nat := 12.
Definition tagLen : nat := 16.
Definition keyLen : nat := 32.
Definition versionAt : nat := length magic.
Definition paramsAt : nat := (versionAt + 1)%nat.
Definition saltAt : nat := (paramsAt + 3 * 4)%nat.
Definition nonceAt : nat := (saltAt + saltLen)%nat.
Definition headerLen : nat := (length magic + 1 + 3 * 4 + saltLen + nonceLen)%nat.
Definition MinPassphraseRunes : Z := 8.

Inductive backup_error := ErrWeakPassphrase | ErrBadFile (why : string) | ErrBadPassphrase | ErrCall (what : string).

Record kdf := MkKdf { k_n : Z; k_r : Z; k_p : Z }.
Definition defaultKDF : kdf := MkKdf (Z.shiftl 1 15) 8 1.
Definition maxN : Z := Z.shiftl 1 16.
Definition maxR : Z := 8.
Definition maxP : Z := 2.

Definition kdf_check (k : kdf) : result backup_error unit :=
  if (k_n k <? 2) || negb (Z.land (k_n k) (k_n k - 1) =? 0) then Err (ErrBadFile "scrypt N is not a power of two")
  else if (maxN <? k_n k) || (maxR <? k_r k) || (maxP <? k_p k) then Err (ErrBadFile "scrypt asks for too much")
  else if (k_r k <? 1) || (k_p k <? 1) then Err (ErrBadFile "scrypt r and p must be at least 1")
  else Ok tt.

(** [data[lo:hi]] *)
Definition slice (lo hi : nat) (data : bytes) : bytes := list.take (hi - lo)%nat (drop lo data).
(** [binary.BigEndian.Uint32(data[at:])] *)
Definition uint32_at (i : nat) (data : bytes) : Z := Uint32 (slice i (i + 4)%nat data).
Definition byte_at (i : nat) (data : bytes) : Z := from_option code 0 (data !! i).

Definition readHeader (data : bytes) : result backup_error kdf :=
  if (length data <? headerLen)%nat then Err (ErrBadFile "the file is too short")
  else if negb (bool_decide (list.take (length magic) data = magic)) then Err (ErrBadFile "it isn't a backup file")
  else if formatV1 <? byte_at versionAt data then Err (ErrBadFile "a newer format")
  else if negb (byte_at versionAt data =? formatV1) then Err (ErrBadFile "unknown format")
  else
    let k := MkKdf (uint32_at paramsAt data) (uint32_at (paramsAt + 4)%nat data) (uint32_at (paramsAt + 8)%nat data) in
    rbind (fun _ => if (length data <? headerLen + tagLen)%nat then Err (ErrBadFile "the file is cut short") else Ok k) (kdf_check k).

Section seal.
(** [scrypt.Key] for a key of [keyLen] bytes, and the AEAD of a key. *)
Context (scrypt : bytes -> bytes -> kdf -> result string bytes).
Context (Seal : bytes -> bytes -> bytes -> bytes -> bytes) (Unseal : bytes -> bytes -> bytes -> bytes -> option bytes).

(** [newGCM]: the key the cipher is made of. AES takes keys of three lengths. *)
Definition newGCM (passphrase : string) (salt : bytes) (k : kdf) : result backup_error bytes :=
  match scrypt (to_bytes passphrase) salt k with
  | Err e => Err (ErrCall e)
  | Ok key => if bool_decide (length key ∈ [16; 24; 32]%nat) then Ok key else Err (ErrCall "aes: invalid key size")
  end.

(** The header with the salt and the nonce, and the file. *)
Definition header (k : kdf) (random : bytes) : bytes :=
  magic ++ [byte formatV1] ++ PutUint32 (k_n k) ++ PutUint32 (k_r k) ++ PutUint32 (k_p k) ++ random.
Definition seal_body (snapshot : bytes) (passphrase : string) (k : kdf) (random : bytes) : result backup_error bytes :=
  let hdr := header k random in
  rbind (fun key => Ok (hdr ++ Seal key (drop nonceAt hdr) snapshot hdr)) (newGCM passphrase (slice saltAt nonceAt hdr) k).

(** [random] is what reading the salt and the nonce gave. *)
Definition seal (snapshot : bytes) (passphrase : string) (k : kdf) (random : result string bytes) : result backup_error bytes :=
  if RuneCountInString passphrase <? MinPassphraseRunes then Err ErrWeakPassphrase else
  rbind (fun _ => match random with Err e => Err (ErrCall e) | Ok r => seal_body snapshot passphrase k r end) (kdf_check k).

Definition Export (snapshot : bytes) (passphrase : string) (random : result string bytes) : result backup_error bytes :=
  seal snapshot passphrase defaultKDF random.

Definition Import (data : bytes) (passphrase : string) : result backup_error bytes :=
  rbind (fun k =>
    rbind (fun key =>
      match Unseal key (slice nonceAt headerLen data) (drop headerLen data) (list.take headerLen data) with
      | None => Err ErrBadPassphrase
      | Some snapshot => Ok snapshot
      end) (newGCM passphrase (slice saltAt nonceAt data) k)) (readHeader data).
End seal.

(** ** The header, written and read *)

Lemma kdf_check_Ok k : kdf_check k = Ok tt <-> 2 <= k_n k <= maxN /\ Z.land (k_n k) (k_n k - 1) = 0 /\ 1 <= k_r k <= maxR /\ 1 <= k_p k <= maxP.
Proof.
  unfold kdf_check. destruct ((k_n k <? 2) || negb (Z.land (k_n k) (k_n k - 1) =? 0)) eqn:H1; [|destruct ((maxN <? k_n k) || (maxR <? k_r k) || (maxP <? k_p k)) eqn:H2; [|destruct ((k_r k <? 1) || (k_p k <? 1)) eqn:H3]];
    rewrite ?orb_true_iff, ?orb_false_iff, ?negb_true_iff, ?negb_false_iff, ?Z.eqb_neq, ?Z.eqb_eq, ?Z.ltb_lt, ?Z.ltb_ge in *;
    (split; [try done; intros _; lia|try done; intros; exfalso; lia]).
Qed.

Lemma header_length k r : length r = 28%nat -> length (header k r) = headerLen.
Proof. intros Hr. unfold header. rewrite !length_app, Hr. reflexivity. Qed.

Lemma take_drop_mid (l1 l2 l3 : bytes) n m : length l1 = n -> length l2 = m -> list.take m (drop n (l1 ++ l2 ++ l3)) = l2.
Proof. intros <- <-. by rewrite drop_app_length, take_app_length. Qed.

(** What a header's fields read as. *)
Lemma header_fields k r rest : kdf_check k = Ok tt -> length r = 28%nat ->
  let data := header k r ++ rest in
  list.take (length magic) data = magic /\ byte_at versionAt data = formatV1 /\
  MkKdf (uint32_at paramsAt data) (uint32_at (paramsAt + 4)%nat data) (uint32_at (paramsAt + 8)%nat data) = k /\
  slice saltAt nonceAt data = list.take 16 r /\ slice nonceAt headerLen data = drop 16 r /\ list.take headerLen data = header k r /\ drop headerLen data = rest.
Proof.
  intros Hk Hr data. assert (data = header k r ++ rest) as Hdata by done. unfold header in Hdata. rewrite <-!app_assoc in Hdata.
  apply kdf_check_Ok in Hk as (Hn & _ & Hrr & Hp). unfold maxN, maxR, maxP in *. change (Z.shiftl 1 16) with 65536 in Hn.
  assert (forall n, length (PutUint32 n) = 4%nat) as H4 by done. split_and!.
  - rewrite Hdata. by rewrite take_app_length.
  - rewrite Hdata. reflexivity.
  - destruct k as [n rr p]. cbn [k_n k_r k_p] in *. f_equal; rewrite Hdata; unfold uint32_at, slice.
    + rewrite (app_assoc magic). rewrite (take_drop_mid (magic ++ [byte formatV1])) by reflexivity. rewrite Uint32_Put; lia.
    + rewrite (app_assoc magic), (app_assoc _ (PutUint32 n)). rewrite (take_drop_mid ((magic ++ [byte formatV1]) ++ PutUint32 n)) by reflexivity. rewrite Uint32_Put; lia.
    + rewrite (app_assoc magic), (app_assoc _ (PutUint32 n)), (app_assoc _ (PutUint32 rr)).
      rewrite (take_drop_mid (((magic ++ [byte formatV1]) ++ PutUint32 n) ++ PutUint32 rr)) by reflexivity. rewrite Uint32_Put; lia.
  - rewrite Hdata, <-(take_drop 16 r) at 1. unfold slice.
    rewrite (app_assoc magic), (app_assoc _ (PutUint32 _)), (app_assoc _ (PutUint32 (k_r k))), (app_assoc _ (PutUint32 (k_p k))), <-(app_assoc (list.take 16 r)).
    apply take_drop_mid; [reflexivity|]. rewrite length_take, Hr. reflexivity.
  - rewrite Hdata, <-(take_drop 16 r) at 1. unfold slice. rewrite <-(app_assoc (list.take 16 r)).
    rewrite (app_assoc magic), (app_assoc _ (PutUint32 _)), (app_assoc _ (PutUint32 (k_r k))), (app_assoc _ (PutUint32 (k_p k))), (app_assoc _ (list.take 16 r)).
    apply take_drop_mid; [|rewrite length_drop, Hr; reflexivity]. rewrite length_app, length_take, Hr. reflexivity.
  - unfold data. rewrite <-(header_length k r Hr). by rewrite take_app_length.
  - unfold data. rewrite <-(header_length k r Hr). by rewrite drop_app_length.
Qed.

Lemma byte_code c : byte (code c) = c.
Proof.
  unfold byte, code. pose proof (N_ascii_bounded c) as Hc. rewrite Z.mod_small by lia. by rewrite N2Z.id, ascii_N_embedding.
Qed.

Lemma code_bound c : 0 <= code c < 256.
Proof. unfold code. pose proof (N_ascii_bounded c). lia. Qed.

Lemma byte_high z : forall c, z = code c -> byte z = c.
Proof. intros c ->. apply byte_code. Qed.

Lemma PutUint32_back l : length l = 4%nat -> PutUint32 (Uint32 l) = l.
Proof.
  destruct l as [|a [|b [|c [|d [|]]]]]; try done. intros _. unfold PutUint32, Uint32. cbn [foldl].
  pose proof (code_bound a). pose proof (code_bound b). pose proof (code_bound c). pose proof (code_bound d).
  assert (forall z x, z mod 256 = code x -> byte z = x) as Hb.
  { intros z x Hz. rewrite <-(byte_code x). unfold byte. rewrite Hz, Z.mod_small; [done|apply code_bound]. }
  f_equal; [|f_equal; [|f_equal; [|f_equal]]]; apply Hb; Z.div_mod_to_equations; lia.
Qed.

Lemma slice_split (i j : nat) (data : bytes) : (i <= j)%nat -> drop i data = slice i j data ++ drop j data.
Proof. intros Hij. unfold slice. rewrite <-(take_drop (j - i) (drop i data)) at 1. rewrite drop_drop. do 2 f_equal. lia. Qed.

Lemma slice_length (i j : nat) (data : bytes) : (j <= length data)%nat -> length (slice i j data) = (j - i)%nat.
Proof. intros Hj. unfold slice. rewrite length_take, length_drop. lia. Qed.

(** A header that passes is one the code writes. *)
Lemma header_back data k : readHeader data = Ok k ->
  kdf_check k = Ok tt /\ (headerLen + tagLen <= length data)%nat /\
  exists r, length r = 28%nat /\ data = header k r ++ drop headerLen data.
Proof.
  unfold readHeader. destruct (Nat.ltb_spec (length data) headerLen) as [|Hlen]; [done|]. destruct (negb (bool_decide _)) eqn:Hm; [done|].
  apply negb_false_iff, bool_decide_eq_true in Hm. destruct (formatV1 <? _); [done|]. destruct (negb (_ =? _)) eqn:Hv; [done|]. apply negb_false_iff, Z.eqb_eq in Hv.
  set (k' := MkKdf _ _ _). intros ([] & Hk & H)%rbind_Ok. destruct (Nat.ltb_spec (length data) (headerLen + tagLen)) as [|Hlen']; [done|]. injection H as <-.
  split; [done|]. split; [done|]. exists (slice saltAt headerLen data). change headerLen with 49%nat in *. change saltAt with 21%nat in *. split; [by rewrite slice_length|].
  unfold header, k', uint32_at. cbn [k_n k_r k_p]. change paramsAt with 9%nat. cbn [Nat.add].
  rewrite !PutUint32_back by (rewrite slice_length; lia). change versionAt with 8%nat in *. change (length magic) with 8%nat in Hm.
  assert ([byte formatV1] = slice 8 9 data) as ->.
  { rewrite <-Hv. unfold byte_at. destruct (data !! 8%nat) as [c|] eqn:Hc; [|apply lookup_ge_None in Hc; lia]. cbn [from_option]. rewrite byte_code.
    unfold slice. change (9 - 8)%nat with 1%nat. by rewrite (drop_S _ c 8). }
  assert (magic = slice 0 8 data) as -> by (unfold slice; by rewrite drop_0).
  rewrite <-!app_assoc. rewrite <-!slice_split by lia. by rewrite drop_0.
Qed.

(** ** What opens *)

Section gcm.
Context (scrypt : bytes -> bytes -> kdf -> result string bytes).
Context (Seal : bytes -> bytes -> bytes -> bytes -> bytes) (Unseal : bytes -> bytes -> bytes -> bytes -> option bytes).

(** AES-GCM opens what it sealed under the same key, nonce and additional data, and
    nothing else; it adds its tag to the length. *)
Definition gcm_opens : Prop := forall key nonce text aad snapshot, Unseal key nonce text aad = Some snapshot <-> text = Seal key nonce snapshot aad.
Definition gcm_length : Prop := forall key nonce snapshot aad, length (Seal key nonce snapshot aad) = (length snapshot + tagLen)%nat.

Lemma readHeader_header k r rest : kdf_check k = Ok tt -> length r = 28%nat -> (tagLen <= length rest)%nat -> readHeader (header k r ++ rest) = Ok k.
Proof.
  intros Hk Hr Hlen. pose proof (header_fields k r rest Hk Hr) as H. cbv zeta in H. set (data := header k r ++ rest) in *. destruct H as (Hm & Hv & Hkk & _).
  assert (length data = headerLen + length rest)%nat as Hl by (unfold data; by rewrite length_app, header_length).
  unfold readHeader. destruct (Nat.ltb_spec (length data) headerLen); [lia|]. rewrite bool_decide_eq_true_2 by done. rewrite Hv, Hkk, Hk. cbn [rbind].
  destruct (Nat.ltb_spec (length data) (headerLen + tagLen)); [lia|done].
Qed.

Lemma Import_sealed k r passphrase snapshot data (Hop : gcm_opens) (Hlen : gcm_length) :
  kdf_check k = Ok tt -> length r = 28%nat -> seal_body scrypt Seal snapshot passphrase k r = Ok data -> Import scrypt Unseal data passphrase = Ok snapshot.
Proof.
  intros Hk Hr. unfold seal_body, Import. cbv zeta. intros (key & Hkey & Hdata)%rbind_Ok.
  assert (data = header k r ++ Seal key (drop nonceAt (header k r)) snapshot (header k r)) as -> by congruence. clear Hdata. set (text := Seal _ _ _ _).
  assert (text = Seal key (drop nonceAt (header k r)) snapshot (header k r)) as Htext by done.
  rewrite readHeader_header; [|done|done|rewrite Htext, Hlen; lia]. cbn [rbind].
  pose proof (header_fields k r text Hk Hr) as (_ & _ & _ & Hs & Hn & Ht & Hd). pose proof (header_fields k r [] Hk Hr) as (_ & _ & _ & Hs0 & Hn0 & _). rewrite app_nil_r in *.
  rewrite Hs0 in Hkey. rewrite Hs, Hkey. cbn [rbind]. rewrite Hn, Ht, Hd.
  assert (drop nonceAt (header k r) = drop 16 r) as Hnonce.
  { rewrite <-Hn0. unfold slice. symmetry. apply take_ge. rewrite length_drop, header_length by done. done. }
  rewrite Hnonce in Htext. assert (Unseal key (drop 16 r) text (header k r) = Some snapshot) as -> by by apply Hop. done.
Qed.

Lemma Import_opens data passphrase snapshot (Hop : gcm_opens) : Import scrypt Unseal data passphrase = Ok snapshot ->
  exists k r, kdf_check k = Ok tt /\ length r = 28%nat /\ seal_body scrypt Seal snapshot passphrase k r = Ok data.
Proof.
  unfold Import. intros (k & Hh & H)%rbind_Ok. apply rbind_Ok in H as (key & Hkey & H). destruct (Unseal _ _ _ _) as [s|] eqn:Hu; [|done]. injection H as ->.
  apply Hop in Hu. apply header_back in Hh as (Hk & Hl & r & Hr & Hdata). exists k, r. split; [done|]. split; [done|].
  pose proof (header_fields k r (drop headerLen data) Hk Hr) as (_ & _ & _ & Hs & Hn & Ht & _). rewrite <-Hdata in Hs, Hn, Ht.
  pose proof (header_fields k r [] Hk Hr) as (_ & _ & _ & Hs0 & Hn0 & _). rewrite app_nil_r in *.
  unfold seal_body. rewrite Hs0, <-Hs, Hkey. cbn [rbind]. f_equal. refine (eq_trans _ (eq_sym Hdata)). f_equal. rewrite Hu, Ht. f_equal. rewrite Hn, <-Hn0. unfold slice. symmetry. apply take_ge.
  rewrite length_drop, header_length by done. done.
Qed.
End gcm.

(** What opens was sealed. A file opens under a passphrase, and gives a snapshot,
    exactly if it is the file the code makes of that snapshot under that passphrase
    with some scrypt parameters within the limits and some salt and nonce: so every
    file that was exported comes back, and a file with any byte changed, cut short or
    with bytes added is refused unless it is another such file. *)
Theorem opens_what_was_sealed (scrypt : bytes -> bytes -> kdf -> result string bytes)
    (Seal : bytes -> bytes -> bytes -> bytes -> bytes) (Unseal : bytes -> bytes -> bytes -> bytes -> option bytes)
    (data snapshot : bytes) (passphrase : string)
    (Hop : gcm_opens Seal Unseal) (Hlen : gcm_length Seal) :
  Import scrypt Unseal data passphrase = Ok snapshot <->
  exists k r, kdf_check k = Ok tt /\ length r = 28%nat /\ seal_body scrypt Seal snapshot passphrase k r = Ok data.
Proof.
  split; [by apply Import_opens|]. intros (k & r & Hk & Hr & Hs). by eapply Import_sealed.
Qed.

(** A file can't ask for much. Two scrypts that agree wherever N is a power of two
    of at most 65536, r at most 8 and p at most 2, so that it takes at most 64 MiB,
    and the salt has 16 bytes, give every import the same result: whatever is in the
    file, scrypt is never asked for anything else. *)
Theorem import_asks_little (scrypt scrypt' : bytes -> bytes -> kdf -> result string bytes)
    (Unseal : bytes -> bytes -> bytes -> bytes -> option bytes) (data : bytes) (passphrase : string)
    (Hsame : forall salt k, length salt = saltLen -> 2 <= k_n k <= 65536 -> Z.land (k_n k) (k_n k - 1) = 0 -> 1 <= k_r k <= 8 -> 1 <= k_p k <= 2 ->
      128 * k_n k * k_r k <= 64 * 2 ^ 20 -> scrypt (to_bytes passphrase) salt k = scrypt' (to_bytes passphrase) salt k) :
  Import scrypt Unseal data passphrase = Import scrypt' Unseal data passphrase.
Proof.
  unfold Import. destruct (readHeader data) as [k|] eqn:Hh; [|done]. cbn [rbind]. apply header_back in Hh as (Hk & Hl & _). apply kdf_check_Ok in Hk as (Hn & Hland & Hr & Hp).
  unfold maxN, maxR, maxP in *. change (Z.shiftl 1 16) with 65536 in Hn. unfold newGCM. rewrite Hsame; [done| |done|done|lia|lia|nia].
  rewrite slice_length; [done|]. change nonceAt with 37%nat. change headerLen with 49%nat in Hl. lia.
Qed.

(** ** The hub's backups *)

Definition MaxBackupBytes : Z := Z.shiftl 4 20.

Inductive hub_error := BadState (e : error) | BadBackup (e : backup_error) | LockEnded.

Section hub.
Context (fold : Z -> Z) (ParseAddr : string -> option Addr) (loadCA : string -> string -> bool).
Context (scrypt : bytes -> bytes -> kdf -> result string bytes).
Context (Seal : bytes -> bytes -> bytes -> bytes -> bytes) (Unseal : bytes -> bytes -> bytes -> bytes -> option bytes).
(** encoding/json: the bytes of a state, and what it reads in bytes. *)
Context (Marshal : stateBytes -> bytes) (Unmarshal : bytes -> stateBytes).

Section export.
Context {U : Type} `{UsageReader U} (u : U).

(** A subscription as the file has it: what it has used travels with it. *)
Definition carry (x : Subscription) : Subscription :=
  MkSub (S_ID x) (S_Name x) (S_CreatedAt x) (TrafficLimit x) 0 (trafficUsed u x) (ExpiresAt x) (Stopped x).

Definition with_backup_at (at_ : Z) (s : State) : State :=
  MkState (Version s) (NextNodeID s) (NextSubscriptionID s) (Settings_ s) at_ (CACert s) (CAKey s) (Nodes s) (Subscriptions s) (Enablements s).

Definition exported (at_ : Z) (s : State) : State := with_subs (with_backup_at at_ s) (carry <$> Subscriptions s).

Definition backup_name (at_ : Z) : string := "remote-nodes-backup-" +:+ FormatDate (dayOfTime at_) +:+ ".rnbackup".

Definition ExportBackup (passphrase : string) (now : Z) (locked : bool) (random : result string bytes) (diskOk : bool) (st : Store) :
    result hub_error (string * bytes) * Store :=
  if negb locked then (Err LockEnded, st) else
  let at_ := TruncateSecond now in
  let s := cur st in
  if eqb_string (CACert s) "" || eqb_string (CAKey s) "" then (Err (BadState (ErrInvalid "there is no certificate authority yet, so there is nothing to back up")), st) else
  match Export scrypt Seal (Marshal (Encode (exported at_ s))) passphrase random with
  | Err e => (Err (BadBackup e), st)
  | Ok data =>
      let '(st, _) := Update fold ParseAddr loadCA st (fun s => Ok (with_backup_at at_ s)) diskOk in
      (Ok (backup_name at_, data), st)
  end.
End export.

Definition ImportBackup (passphrase : string) (data : bytes) (locked diskOk : bool) (st : Store) : result hub_error Z * Store :=
  if MaxBackupBytes <? Z.of_nat (length data) then (Err (BadBackup (ErrBadFile "the file is too large")), st) else
  if negb locked then (Err LockEnded, st) else
  match Import scrypt Unseal data passphrase with
  | Err e => (Err (BadBackup e), st)
  | Ok snapshot =>
      let restored := Decode fold ParseAddr loadCA (Unmarshal snapshot) in
      let no_ca := match restored with Ok s => eqb_string (CACert s) "" | Err _ => false end in
      if no_ca then (Err (BadState (ErrInvalid "this backup has no certificate authority, so it could not bring any node back")), st) else
      match Restore fold ParseAddr loadCA st (Unmarshal snapshot) diskOk with
      | (st, Err e) => (Err (BadState e), st)
      | (st, Ok _) => (Ok match restored with Ok s => Z.of_nat (length (Nodes s)) | Err _ => 0 end, st)
      end
  end.
End hub.

(** ** What a file holds is a good state *)

Section good.
Context (fold : Z -> Z) (ParseAddr : string -> option Addr) (loadCA : string -> string -> bool).
Context {U : Type} `{UsageReader U} (u : U).

Lemma carry_ids (l : list Subscription) : S_ID <$> (carry u <$> l) = S_ID <$> l.
Proof. rewrite <-list_fmap_compose. by apply list_fmap_ext. Qed.

Lemma carry_Validate x : Sub_Validate (carry u x) = Sub_Validate x.
Proof. done. Qed.

Lemma exported_spec at_ s : state_spec fold ParseAddr loadCA s -> state_spec fold ParseAddr loadCA (exported u at_ s).
Proof.
  intros [H1 H2 H3 H4 H5 H6 H7 H8 H9 H10 H11 H12]. split; cbn [exported with_subs with_backup_at Version Settings_ NextNodeID NextSubscriptionID CACert CAKey Nodes Subscriptions Enablements]; try done.
  - apply Forall_fmap. eapply Forall_impl; [exact H7|]. intros x Hx. exact Hx.
  - by rewrite carry_ids.
  - intros x y (x' & -> & Hx)%list_elem_of_fmap (y' & -> & Hy)%list_elem_of_fmap Hne. exact (H9 x' y' Hx Hy Hne).
  - eapply Forall_impl; [exact H10|]. intros e. by rewrite carry_ids.
Qed.

(** The state [Restore] puts in place of an empty one. *)
Definition restored_state (s before : State) : State :=
  MkState (Version s) (Z.max (NextNodeID s) (NextNodeID before)) (Z.max (NextSubscriptionID s) (NextSubscriptionID before)) (Settings_ s) (LastBackupAt s) (CACert s) (CAKey s)
    (Nodes s) (Subscriptions s) (Enablements s).

Lemma restored_spec s before : state_spec fold ParseAddr loadCA s -> state_spec fold ParseAddr loadCA before -> state_spec fold ParseAddr loadCA (restored_state s before).
Proof.
  intros [H1 H2 [H3 H3'] H4 H5 H6 H7 H8 H9 H10 H11 H12] Hb. destruct (sp_counters _ _ _ _ Hb) as [Hb1 Hb2].
  split; cbn [restored_state Version Settings_ NextNodeID NextSubscriptionID CACert CAKey Nodes Subscriptions Enablements]; try done.
  - split; lia.
  - eapply Forall_impl; [exact H5|]. intros n [Hn Hlt]. split; [done|lia].
  - eapply Forall_impl; [exact H7|]. intros n [Hn Hlt]. split; [done|lia].
Qed.

Lemma Restore_fresh st data s : store_inv fold ParseAddr loadCA st -> Nodes (cur st) = [] -> Subscriptions (cur st) = [] ->
  Decode fold ParseAddr loadCA data = Ok s -> state_spec fold ParseAddr loadCA s -> NodeCount s <= MaxNodes -> Z.of_nat (length (Subscriptions s)) <= MaxSubscriptions -> CACert s <> "" ->
  exists st', Restore fold ParseAddr loadCA st data true = (st', Ok tt) /\ cur st' = restored_state s (cur st) /\ store_inv fold ParseAddr loadCA st'.
Proof.
  intros Hi Hn Hs Hd Hspec Hc1 Hc2 Hca. unfold Restore. rewrite Hd. apply Update_accepted; [done| |].
  - by rewrite !bool_decide_eq_true_2.
  - apply CheckEdit_Ok. split; [apply restored_spec; [done|apply (si_spec _ _ _ _ Hi)]|]. cbn [restored_state NextNodeID NextSubscriptionID CACert Subscriptions].
    split; [by left|]. split; [by left|]. split; [lia|]. split; [lia|done].
Qed.
End good.

(** C30. A backup comes back. Take a hub's store, whatever happened to it, from which a
    backup was exported, and a fresh install, which may have handed out ids before.
    Importing the file there under the same passphrase, when the disk takes it,
    succeeds and says how many nodes came back. The install then has the nodes, with
    installs that were running marked unfinished, the switches with their client ids,
    the settings and the CA of the first hub, the time of the backup, and id counters
    below neither's. Every subscription is there with its name, limit, date and mark,
    and what it has used is what it had used at the backup and what the install
    counts from then on, so that its limit goes on from there. *)
Theorem backup_comes_back (fold : Z -> Z) (ParseAddr : string -> option Addr) (loadCA : string -> string -> bool)
    (scrypt : bytes -> bytes -> kdf -> result string bytes)
    (Seal : bytes -> bytes -> bytes -> bytes -> bytes) (Unseal : bytes -> bytes -> bytes -> bytes -> option bytes)
    (Marshal : stateBytes -> bytes) (Unmarshal : bytes -> stateBytes) {U : Type} `{UsageReader U} (u : U)
    (st st0 : Store) (passphrase name : string) (now : Z) (locked diskOk : bool) (random data : bytes)
    (Hi : store_inv fold ParseAddr loadCA st) (Hi0 : store_inv fold ParseAddr loadCA st0)
    (Hempty : Nodes (cur st0) = [] /\ Subscriptions (cur st0) = [])
    (Hop : gcm_opens Seal Unseal) (Hlen : gcm_length Seal) (Hrandom : length random = 28%nat)
    (Hjson : Unmarshal (Marshal (Encode (exported u (TruncateSecond now) (cur st)))) = Encode (exported u (TruncateSecond now) (cur st)))
    (Hu64 : lifetime_u64 u) (Hcounts : Forall counts_u64 (Subscriptions (cur st)))
    (Hexp : (ExportBackup fold ParseAddr loadCA scrypt Seal Marshal u passphrase now locked (Ok random) diskOk st).1 = Ok (name, data))
    (Hsize : Z.of_nat (length data) <= MaxBackupBytes) :
  exists st1, ImportBackup fold ParseAddr loadCA scrypt Unseal Unmarshal passphrase data true true st0 = (Ok (Z.of_nat (length (Nodes (cur st)))), st1) /\
    Nodes (cur st1) = settle <$> Nodes (cur st) /\ Enablements (cur st1) = Enablements (cur st) /\
    Settings_ (cur st1) = Settings_ (cur st) /\ CACert (cur st1) = CACert (cur st) /\ CAKey (cur st1) = CAKey (cur st) /\ LastBackupAt (cur st1) = TruncateSecond now /\
    NextNodeID (cur st1) = Z.max (NextNodeID (cur st)) (NextNodeID (cur st0)) /\
    NextSubscriptionID (cur st1) = Z.max (NextSubscriptionID (cur st)) (NextSubscriptionID (cur st0)) /\
    exists f, Subscriptions (cur st1) = f <$> Subscriptions (cur st) /\ forall x, x ∈ Subscriptions (cur st) ->
      S_ID (f x) = S_ID x /\ S_Name (f x) = S_Name x /\ TrafficLimit (f x) = TrafficLimit x /\ ExpiresAt (f x) = ExpiresAt x /\ Stopped (f x) = Stopped x /\
      forall u' : U, lifetime_u64 u' -> let l := lifetime u' (S_ID x) in trafficUsed u' (f x) = Z.min (trafficUsed u x + Z.min (Up l + Down l) maxU64) maxU64.
Proof.
  unfold ExportBackup in Hexp. destruct (negb locked); [done|]. destruct (eqb_string (CACert (cur st)) "" || eqb_string (CAKey (cur st)) "") eqn:Hca; [done|].
  apply orb_false_iff in Hca as [Hcert%bool_decide_eq_false _]. set (at_ := TruncateSecond now) in *. set (f := exported u at_ (cur st)) in *.
  destruct (Export _ _ _ _ _) as [data'|] eqn:He; [|done]. destruct (Update _ _ _ _ _ _) as [st' r]. injection Hexp as _ ->.
  unfold Export, seal in He. destruct (_ <? _); [done|]. apply rbind_Ok in He as ([] & Hk & Hbody).
  pose proof (Import_sealed scrypt Seal Unseal _ _ _ _ _ Hop Hlen Hk Hrandom Hbody) as Himp.
  assert (state_spec fold ParseAddr loadCA f) as Hf by apply exported_spec, (si_spec _ _ _ _ Hi).
  assert (Decode fold ParseAddr loadCA (Unmarshal (Marshal (Encode f))) = Ok (settleInstalls f)) as Hdec by (rewrite Hjson; by apply Decode_Encode).
  destruct (Restore_fresh fold ParseAddr loadCA st0 (Unmarshal (Marshal (Encode f))) (settleInstalls f)) as (st1 & Hres & Hcur & _); try done; [apply Hempty|apply Hempty|by apply settle_spec|..].
  - etransitivity; [apply settle_count|]. apply (si_nodes _ _ _ _ Hi).
  - cbn. rewrite length_fmap. apply (si_subs _ _ _ _ Hi).
  - exists st1. split.
    + unfold ImportBackup. destruct (Z.ltb_spec MaxBackupBytes (Z.of_nat (length data))); [lia|]. cbn [negb]. rewrite Himp, Hdec. unfold eqb_string. cbn [settleInstalls with_nodes CACert].
      rewrite bool_decide_eq_false_2 by done. rewrite Hres. do 3 f_equal. cbn. by rewrite length_fmap.
    + rewrite Hcur. split_and!; try done. exists (carry u). split; [done|]. intros x Hx. split_and!; try done. intros u' Hu' l. rewrite Forall_forall in Hcounts. specialize (Hcounts x Hx).
      pose proof (lifetime_ok u (S_ID x) Hu64) as Hl. pose proof (lifetime_ok u' (S_ID x) Hu') as Hl'. fold l in Hl'. unfold totals_ok in Hl, Hl'.
      assert (forall v, lifetime_u64 v -> isU64 (sat (Up (lifetime v (S_ID x))) (Down (lifetime v (S_ID x))))) as Hsat by (intros v Hv; apply sat_range; apply (lifetime_ok v (S_ID x) Hv)).
      pose proof (Hsat u Hu64) as Hs. pose proof (Hsat u' Hu') as Hs'. fold l in Hs'.
      pose proof (TrafficUsed_spec x _ Hcounts Hs) as Hused. fold (trafficUsed u x) in Hused.
      assert (isU64 (trafficUsed u x)) as Ht by (rewrite Hused; unfold isU64 in *; pose proof (proj1 Hcounts); unfold isU64 in *; lia).
      unfold trafficUsed at 1. cbn [carry S_ID]. rewrite TrafficUsed_spec; [|split; [unfold isU64, maxU64; cbn; lia|exact Ht]|exact Hs'].
      cbn [carry TrafficCarried TrafficBase]. fold l. rewrite (sat_spec _ _ (proj1 Hl') (proj2 Hl')). fold l. unfold isU64 in *. lia.
Qed.

(** An import changes all or nothing. Whatever the file, the passphrase and the
    disk do: an import that gives an error leaves the store as it was; one that
    succeeds opened the file under the passphrase and found a good state with a CA in
    it, the install had neither nodes nor subscriptions, and it now has that state,
    with id counters that did not go back. *)
Theorem import_all_or_nothing (fold : Z -> Z) (ParseAddr : string -> option Addr) (loadCA : string -> string -> bool)
    (scrypt : bytes -> bytes -> kdf -> result string bytes) (Unseal : bytes -> bytes -> bytes -> bytes -> option bytes) (Unmarshal : bytes -> stateBytes)
    (passphrase : string) (data : bytes) (locked diskOk : bool) (st : Store) (Hi : store_inv fold ParseAddr loadCA st) :
  let '(r, st') := ImportBackup fold ParseAddr loadCA scrypt Unseal Unmarshal passphrase data locked diskOk st in
  match r with
  | Err _ => st' = st
  | Ok n => exists snapshot s, Import scrypt Unseal data passphrase = Ok snapshot /\ Decode fold ParseAddr loadCA (Unmarshal snapshot) = Ok s /\
      CACert s <> "" /\ Nodes (cur st) = [] /\ Subscriptions (cur st) = [] /\ n = Z.of_nat (length (Nodes s)) /\
      cur st' = restored_state s (cur st) /\ store_inv fold ParseAddr loadCA st'
  end.
Proof.
  unfold ImportBackup. destruct (_ <? _); [done|]. destruct (negb locked); [done|]. destruct (Import scrypt Unseal data passphrase) as [snapshot|]; [|done].
  unfold Restore. destruct (Decode fold ParseAddr loadCA (Unmarshal snapshot)) as [s|e] eqn:Hd; [|done].
  destruct (eqb_string (CACert s) "") eqn:Hca; [done|]. apply bool_decide_eq_false in Hca.
  destruct (Update _ _ _ _ _ _) as [st' [[]|e]] eqn:Hu.
  - pose proof (store_step_inv _ _ _ st st' Hi (st_update _ _ _ _ _ _ _ _ Hu)) as Hi'. unfold Update in Hu.
    destruct (bool_decide (Nodes (cur st) = []) && _) eqn:He; [|done]. apply andb_true_iff in He as [Hn%bool_decide_eq_true Hs%bool_decide_eq_true].
    destruct (CheckEdit _ _ _ _ _) as [[]|]; [|done]. exists snapshot, s. split_and!; try done. case_bool_decide as Hsame.
    + injection Hu as <-. unfold restored_state. rewrite Hsame. symmetry. apply (si_enc _ _ _ _ Hi).
    + destruct diskOk; [|done]. by injection Hu as <-.
  - unfold Update in Hu. repeat (case_match; simplify_eq); done.
Qed.

(** ** An example *)

(** An AEAD that keeps nothing secret: what is sealed, and sixteen fixed bytes. *)
Definition plain_tag : bytes := replicate 16 "x"%char.
Definition plain_seal (_ _ snapshot _ : bytes) : bytes := snapshot ++ plain_tag.
Definition plain_open (_ _ text _ : bytes) : option bytes :=
  if bool_decide (drop (length text - 16) text = plain_tag) then Some (list.take (length text - 16) text) else None.

Lemma plain_opens : gcm_opens plain_seal plain_open.
Proof.
  intros key nonce text aad snapshot. unfold plain_open, plain_seal. split.
  - case_bool_decide as Ht; [|done]. intros [= <-]. by rewrite <-Ht, take_drop.
  - intros ->. rewrite length_app. change (length plain_tag) with 16%nat. rewrite Nat.add_sub, drop_app_length, take_app_length. by rewrite bool_decide_eq_true_2.
Qed.

Lemma plain_length : gcm_length plain_seal.
Proof. intros key nonce snapshot aad. unfold plain_seal. by rewrite length_app. Qed.

Definition demo_scrypt (pass salt : bytes) (k : kdf) : result string bytes := Ok (replicate 32 "k"%char).
Definition demo_random : bytes := replicate 28 "r"%char.

Lemma opens_what_was_sealed_witness :
  Import demo_scrypt plain_open (header (MkKdf 2 1 1) demo_random ++ to_bytes "the state" ++ plain_tag) "a passphrase" = Ok (to_bytes "the state").
Proof.
  apply (opens_what_was_sealed demo_scrypt plain_seal plain_open _ (to_bytes "the state") "a passphrase" plain_opens plain_length).
  exists (MkKdf 2 1 1), demo_random. split; [reflexivity|]. split; reflexivity.
Defined.

(** A file that asks for a gibibyte gets no memory for it, and none is asked for. *)
Definition greedy_file : bytes := header (MkKdf (2 ^ 20) 8 1) demo_random ++ plain_tag.
Definition small_scrypt (pass salt : bytes) (k : kdf) : result string bytes := if 65536 <? k_n k then Err "no memory" else demo_scrypt pass salt k.

Lemma import_asks_little_witness : Import demo_scrypt plain_open greedy_file "a passphrase" = Import small_scrypt plain_open greedy_file "a passphrase".
Proof.
  apply (import_asks_little demo_scrypt small_scrypt). intros salt k _ [_ Hn] _ _ _ _. unfold small_scrypt. destruct (Z.ltb_spec 65536 (k_n k)); [lia|reflexivity].
Defined.

Definition with_ca (s : State) : State :=
  MkState (Version s) (NextNodeID s) (NextSubscriptionID s) (Settings_ s) (LastBackupAt s) "cert" "key" (Nodes s) (Subscriptions s) (Enablements s).
Definition backup_store : Store := (Update demo_fold demo_parse demo_ca demo_store (fun s => Ok (with_ca s)) true).1.

Lemma backup_store_inv : store_inv demo_fold demo_parse demo_ca backup_store.
Proof.
  apply (store_step_inv demo_fold demo_parse demo_ca demo_store).
  - eapply store_run_inv; [apply fresh_inv|apply demo_store_run].
  - apply (st_update demo_fold demo_parse demo_ca demo_store (fun s => Ok (with_ca s)) true backup_store (Ok tt)). vm_compute. reflexivity.
Qed.

Definition demo_exported : State := exported (MkTotals 60 60) (10 ^ 18) (cur backup_store).
Definition demo_marshal (_ : stateBytes) : bytes := to_bytes "the state".
Definition demo_unmarshal (_ : bytes) : stateBytes := Encode demo_exported.
Definition demo_file : bytes := header defaultKDF demo_random ++ to_bytes "the state" ++ plain_tag.

(** The hub counted 120 bytes of a subscription, and the install 10 since: 130. *)
Lemma backup_comes_back_witness :
  let '(r, st1) := ImportBackup demo_fold demo_parse demo_ca demo_scrypt plain_open demo_unmarshal "a passphrase" demo_file true true fresh in
  r = Ok 1 /\ (trafficUsed (MkTotals 5 5) <$> Subscriptions (cur st1)) = [130].
Proof.
  destruct (backup_comes_back demo_fold demo_parse demo_ca demo_scrypt plain_seal plain_open demo_marshal demo_unmarshal (MkTotals 60 60) backup_store fresh
    "a passphrase" (backup_name (10 ^ 18)) (10 ^ 18) true true demo_random demo_file) as (st1 & -> & _ & _ & _ & _ & _ & _ & _ & _ & f & Hf & Hsubs).
  - apply backup_store_inv.
  - apply fresh_inv.
  - split; reflexivity.
  - apply plain_opens.
  - apply plain_length.
  - reflexivity.
  - reflexivity.
  - vm_compute. repeat split; discriminate.
  - assert (Subscriptions (cur backup_store) = [MkSub 1 "Ali" (10 ^ 18) 0 0 0 zeroTime ""]) as -> by (vm_compute; reflexivity).
    repeat constructor; vm_compute; discriminate.
  - vm_compute. reflexivity.
  - vm_compute. discriminate.
  - split; [vm_compute; reflexivity|]. rewrite Hf.
    assert (Subscriptions (cur backup_store) = [MkSub 1 "Ali" (10 ^ 18) 0 0 0 zeroTime ""]) as Hl by (vm_compute; reflexivity). rewrite Hl in *. cbn [fmap list_fmap].
    destruct (Hsubs (MkSub 1 "Ali" (10 ^ 18) 0 0 0 zeroTime "") ltac:(left)) as (_ & _ & _ & _ & _ & Hu). specialize (Hu (MkTotals 5 5)).
    rewrite Hu by (vm_compute; repeat split; discriminate). vm_compute. reflexivity.
Defined.

Lemma import_all_or_nothing_witness :
  (ImportBackup demo_fold demo_parse demo_ca demo_scrypt plain_open demo_unmarshal "a passphrase" demo_file true true backup_store).2 = backup_store.
Proof.
  pose proof (import_all_or_nothing demo_fold demo_parse demo_ca demo_scrypt plain_open demo_unmarshal "a passphrase" demo_file true true backup_store backup_store_inv) as H.
  destruct (ImportBackup _ _ _ _ _ _ _ _ _ _ _) as [[n|e] st'] eqn:Hr; [|exact H].
  destruct H as (_ & _ & _ & _ & _ & Hn & _). vm_compute in Hn. discriminate Hn.
Defined.
