(* ===== verification/ShareLinks.v ===== *)
(** * Share links

    pkg/xray/link: an outbound as a link text (generator.go) and back (parser.go), and
    the customer's links made from a template (pkg/product/xray/link_builder.go). Of an
    outbound the parts that links carry are modelled. What encoding/json does for vmess
    is a parameter; lower case is that of ASCII.

    Theorems: a VLESS or Trojan outbound comes back from its link, up to defaults that
    are filled in ([link_comes_back]); a customer's link is the template with its
    credential and name changed and nothing else ([customer_link_keeps_template]).
    What does not come back: [spider_lost], [splithttp_lost], [shadowsocks_unreadable],
    [six_unreadable], [colon_password_cut]. *)

From S2P Require Import Prelude GoString GoUnicode GoNetip GoUrl.

(** ** An outbound *)

Record TLSSettings := MkTLS { t_ServerName : string; t_Fingerprint : string; t_ALPN : list string }.
Record RealitySettings := MkReality { r_ServerName : string; r_Fingerprint : string; r_PublicKey : string; r_ShortID : string; r_SpiderX : string; r_ALPN : list string; r_Show : bool }.
Record TransportSettings := MkTransport { tr_Path : string; tr_Host : string; tr_ServiceName : string; tr_Mode : string; tr_HeaderType : string }.
Record VLESSSettings := MkVLESS { vl_UUID : string; vl_Encryption : string; vl_Flow : string }.
Record VMessSettings := MkVMess { vm_UUID : string; vm_AlterId : Z; vm_Security : string }.
Record SSSettings := MkSS { ss_Method : string; ss_Password : string; ss_Network : string }.
Record SOCKSSettings := MkSOCKS { so_Auth : string; so_Accounts : list (string * string) }.
Record WGPeer := MkWGPeer { wp_PublicKey : string; wp_PreSharedKey : string; wp_Endpoint : string; wp_KeepAlive : Z; wp_AllowedIPs : list string }.
Record WGSettings := MkWG { wg_SecretKey : string; wg_MTU : Z; wg_Endpoint : list string; wg_Reserved : list Z; wg_Peers : list WGPeer }.

Record Outbound := MkOut {
  o_Tag : string; o_Protocol : string; o_Address : string; o_Port : Z; o_Network : string; o_Security : string; o_Remark : string;
  o_TLS : option TLSSettings; o_Reality : option RealitySettings; o_Transport : option TransportSettings;
  o_VLESS : option VLESSSettings; o_VMess : option VMessSettings; o_Trojan : option string; o_SS : option SSSettings;
  o_SOCKS : option SOCKSSettings; o_HTTP : option (list (string * string)); o_WG : option WGSettings; o_Hysteria : option string;
  o_Freedom : option string; o_Blackhole : option string
}.

Definition noTransport : TransportSettings := MkTransport "" "" "" "" "".
Definition GetTLSSettingsOrDefault (o : Outbound) : TLSSettings := default (MkTLS "" "" []) (o_TLS o).
Definition GetRealitySettingsOrDefault (o : Outbound) : RealitySettings := default (MkReality "" "" "" "" "" [] false) (o_Reality o).
Definition GetTransportSettingsOrDefault (o : Outbound) : TransportSettings := default noTransport (o_Transport o).
Definition GetVLESSSettingsOrDefault (o : Outbound) : VLESSSettings := default (MkVLESS "" "none" "") (o_VLESS o).
Definition GetVMessSettingsOrDefault (o : Outbound) : VMessSettings := default (MkVMess "" 0 "auto") (o_VMess o).
Definition GetTrojanSettingsOrDefault (o : Outbound) : string := default "" (o_Trojan o).
Definition GetShadowsocksSettingsOrDefault (o : Outbound) : SSSettings := default (MkSS "2022-blake3-aes-128-gcm" "" "tcp,udp") (o_SS o).
Definition GetSOCKSSettingsOrDefault (o : Outbound) : SOCKSSettings := default (MkSOCKS "noauth" []) (o_SOCKS o).
Definition GetHTTPSettingsOrDefault (o : Outbound) : list (string * string) := default [] (o_HTTP o).
Definition GetWireGuardSettingsOrDefault (o : Outbound) : WGSettings := default (MkWG "" 1420 [] [] []) (o_WG o).
Definition GetHysteriaSettingsOrDefault (o : Outbound) : string := default "" (o_Hysteria o).

(** ** Text *)

Definition eqs (a b : string) : bool := bool_decide (a = b).
Definition lower_text (s : string) : string := of_bytes (lower_byte <$> to_bytes s).
Definition upper_text (s : string) : string := of_bytes ((fun c => if between 97 122 (code c) then ascii_of_N (N_of_ascii c - 32) else c) <$> to_bytes s).

(** [strings.Join] *)
Fixpoint Join (sep : string) (l : list string) : string :=
  match l with [] => "" | [s] => s | s :: l => s +:+ sep +:+ Join sep l end.

(** base64 of bytes with the two last letters of its alphabet, padded. *)
Definition b64_letter (last2 : string) (n : Z) : ascii :=
  default "A"%char (to_bytes ("ABCDEFGHIJKLMNOPQRSTUVWXYZabcdefghijklmnopqrstuvwxyz0123456789" +:+ last2) !! Z.to_nat n).
Fixpoint b64_encode (last2 : string) (l : bytes) : bytes :=
  let e := b64_letter last2 in
  match l with
  | [] => []
  | [a] => [e (code a / 4); e (16 * (code a mod 4)); "="; "="]%char
  | [a; b] => [e (code a / 4); e (16 * (code a mod 4) + code b / 16); e (4 * (code b mod 16)); "="]%char
  | a :: b :: c :: l => e (code a / 4) :: e (16 * (code a mod 4) + code b / 16) :: e (4 * (code b mod 16) + code c / 64) :: e (code c mod 64) :: b64_encode last2 l
  end.

Inductive link_error := EUnsupported (protocol : string) | EMissing (what : string) | EURL | EBase64 | EJSON | ELegacySS | ENotThat (what : string) | EAuthText.

(** ** Generating *)

(** [if s != "" { params.Set(k, s) }] *)
Definition set_if (k s : string) (v : values) : values := if eqs s "" then v else <[k := s]> v.
Definition set_list (k : string) (l : list string) (v : values) : values := if bool_decide (l = []) then v else <[k := Join "," l]> v.

Definition security_values (o : Outbound) (v : values) : values :=
  if negb (eqs (o_Security o) "") && negb (eqs (o_Security o) "none") then <["security" := o_Security o]> v else v.

Definition tls_values (o : Outbound) (v : values) : values :=
  if eqs (o_Security o) "tls" then
    let t := GetTLSSettingsOrDefault o in
    set_list "alpn" (t_ALPN t) (set_if "fp" (t_Fingerprint t) (set_if "sni" (t_ServerName t) v))
  else v.

Definition reality_values (o : Outbound) (v : values) : values :=
  if eqs (o_Security o) "reality" then
    let r := GetRealitySettingsOrDefault o in
    set_list "alpn" (r_ALPN r) (set_if "spx" (r_SpiderX r) (set_if "sid" (r_ShortID r) (set_if "pbk" (r_PublicKey r) (set_if "fp" (r_Fingerprint r) (set_if "sni" (r_ServerName r) v)))))
  else v.

Definition header_values (t : TransportSettings) (v : values) : values :=
  if eqs (tr_HeaderType t) "http" then set_if "host" (tr_Host t) (set_if "path" (tr_Path t) (<["headerType" := "http"]> v)) else v.

Definition transport_values (o : Outbound) (v : values) : values :=
  let t := GetTransportSettingsOrDefault o in
  if eqs (o_Network o) "ws" then set_if "host" (tr_Host t) (set_if "path" (tr_Path t) v)
  else if eqs (o_Network o) "grpc" then set_if "serviceName" (tr_ServiceName t) v
  else if eqs (o_Network o) "xhttp" || eqs (o_Network o) "splithttp" then set_if "mode" (tr_Mode t) (set_if "host" (tr_Host t) (set_if "path" (tr_Path t) v))
  else if eqs (o_Network o) "tcp" then header_values t v
  else v.

(** Trojan's carries no xhttp parameters. *)
Definition trojan_transport_values (o : Outbound) (v : values) : values :=
  let t := GetTransportSettingsOrDefault o in
  if eqs (o_Network o) "ws" then set_if "host" (tr_Host t) (set_if "path" (tr_Path t) v)
  else if eqs (o_Network o) "grpc" then set_if "serviceName" (tr_ServiceName t) v
  else if eqs (o_Network o) "tcp" then header_values t v
  else v.

Definition fragment (o : Outbound) : string := if eqs (o_Remark o) "" then o_Tag o else o_Remark o.

Definition vless_values (o : Outbound) : values :=
  let s := GetVLESSSettingsOrDefault o in
  set_if "flow" (vl_Flow s) (transport_values o (<["type" := if eqs (o_Network o) "" then "tcp" else o_Network o]>
    (reality_values o (tls_values o (security_values o (<["encryption" := if eqs (vl_Encryption s) "" then "none" else vl_Encryption s]> ∅)))))).

Definition authority_link (scheme user : string) (o : Outbound) (v : values) : string :=
  scheme +:+ "://" +:+ user +:+ "@" +:+ o_Address o +:+ ":" +:+ Itoa (o_Port o) +:+ "?" +:+ Encode v +:+ "#" +:+ PathEscape (fragment o).

Definition generateVLESS (o : Outbound) : result link_error string :=
  let s := GetVLESSSettingsOrDefault o in
  if eqs (vl_UUID s) "" then Err (EMissing "UUID for VLESS") else Ok (authority_link "vless" (vl_UUID s) o (vless_values o)).

Definition trojan_values (o : Outbound) : values :=
  trojan_transport_values o (set_if "type" (o_Network o) (reality_values o (tls_values o (security_values o ∅)))).

Definition generateTrojan (o : Outbound) : result link_error string :=
  let password := GetTrojanSettingsOrDefault o in
  if eqs password "" then Err (EMissing "password for Trojan") else Ok (authority_link "trojan" (PathEscape password) o (trojan_values o)).

Definition hostport (o : Outbound) : string := o_Address o +:+ ":" +:+ Itoa (o_Port o).

Definition generateShadowsocks (o : Outbound) : result link_error string :=
  let s := GetShadowsocksSettingsOrDefault o in
  if eqs (ss_Password s) "" then Err (EMissing "password for Shadowsocks") else
  let method := if eqs (ss_Method s) "" then "aes-128-gcm" else ss_Method s in
  Ok ("ss://" +:+ of_bytes (b64_encode "-_" (to_bytes (method +:+ ":" +:+ ss_Password s))) +:+ "@" +:+ hostport o +:+ "#" +:+ PathEscape (fragment o)).

Definition account_info (l : list (string * string)) : string :=
  match l with [] => "" | (u, p) :: _ => PathEscape u +:+ ":" +:+ PathEscape p +:+ "@" end.

Definition generateSocks (o : Outbound) : result link_error string :=
  let s := GetSOCKSSettingsOrDefault o in
  Ok ("socks://" +:+ (if eqs (so_Auth s) "password" then account_info (so_Accounts s) else "") +:+ hostport o +:+ "#" +:+ PathEscape (fragment o)).

Definition generateHTTP (o : Outbound) : result link_error string :=
  Ok ("http://" +:+ account_info (GetHTTPSettingsOrDefault o) +:+ hostport o +:+ "#" +:+ PathEscape (fragment o)).

Definition generateWireGuard (o : Outbound) : result link_error string :=
  let s := GetWireGuardSettingsOrDefault o in
  if eqs (wg_SecretKey s) "" then Err (EMissing "secretKey for WireGuard") else
  match wg_Peers s with
  | [] => Err (EMissing "peer for WireGuard")
  | peer :: _ =>
      if eqs (wp_PublicKey peer) "" then Err (EMissing "peer publicKey for WireGuard") else
      if bool_decide (wg_Endpoint s = []) then Err (EMissing "local addresses for WireGuard") else
      if eqs (wp_Endpoint peer) "" && (eqs (o_Address o) "" || (o_Port o =? 0)) then Err (EMissing "endpoint for WireGuard") else
      let endpoint := if eqs (wp_Endpoint peer) "" then hostport o else wp_Endpoint peer in
      let v := <["address" := Join "," (wg_Endpoint s)]> (set_if "presharedkey" (wp_PreSharedKey peer) (<["publickey" := wp_PublicKey peer]> ∅)) in
      let v := if 0 <? wg_MTU s then <["mtu" := Itoa (wg_MTU s)]> v else v in
      let v := if 0 <? wp_KeepAlive peer then <["keepalive" := Itoa (wp_KeepAlive peer)]> v else v in
      let v := set_list "reserved" (Itoa <$> wg_Reserved s) (set_list "allowedips" (wp_AllowedIPs peer) v) in
      Ok ("wireguard://" +:+ of_bytes (escape encodeUserPassword (to_bytes (wg_SecretKey s))) +:+ "@" +:+ of_bytes (escape encodeHost (to_bytes endpoint)) +:+
          "?" +:+ Encode v +:+ (if eqs (fragment o) "" then "" else "#" +:+ of_bytes (escape encodeFragment (to_bytes (fragment o)))))
  end.

Definition generateHysteria2 (o : Outbound) : result link_error string :=
  let auth := GetHysteriaSettingsOrDefault o in
  if eqs auth "" then Err (EMissing "auth for Hysteria2") else
  if eqs (o_Address o) "" || (o_Port o =? 0) then Err (EMissing "address/port for Hysteria2") else
  if negb (eqs (of_bytes (escape encodeUserPassword (to_bytes auth))) auth) then Err EAuthText else
  Ok (authority_link "hysteria2" auth o (set_if "sni" (t_ServerName (GetTLSSettingsOrDefault o)) ∅)).

(** *** vmess: a JSON object in base64 *)

(** What the object says; the port and the alter id as [fmt] prints what was read. *)
Record vmess_json := MkVJ {
  v_ps : string; v_add : string; v_port : string; v_id : string; v_aid : string; v_scy : string; v_net : string; v_type : string;
  v_host : string; v_path : string; v_tls : string; v_sni : string; v_alpn : string; v_fp : string
}.

Definition b64_value (c : ascii) : option Z :=
  if between 65 90 (code c) then Some (code c - 65) else if between 97 122 (code c) then Some (code c - 71) else if is_num c then Some (code c + 4)
  else if bool_decide (c = "+"%char) then Some 62 else if bool_decide (c = "/"%char) then Some 63 else None.
Definition char_of (n : Z) : ascii := ascii_of_N (Z.to_N (n mod 256)).
(** [base64.StdEncoding.DecodeString] of text without line breaks. *)
Fixpoint b64_groups (l : bytes) : option bytes :=
  match l with
  | [] => Some []
  | a :: b :: c :: d :: l =>
      x ← b64_value a; y ← b64_value b;
      if bool_decide (c = "="%char) then if bool_decide (d = "="%char) && bool_decide (l = []) then Some [char_of (4 * x + y / 16)] else None else
      z ← b64_value c;
      if bool_decide (d = "="%char) then if bool_decide (l = []) then Some [char_of (4 * x + y / 16); char_of (16 * y + z / 4)] else None else
      w ← b64_value d;
      (fun r => char_of (4 * x + y / 16) :: char_of (16 * y + z / 4) :: char_of (64 * z + w) :: r) <$> b64_groups l
  | _ => None
  end.
Definition b64_decode (l : bytes) : option bytes := b64_groups (filter (fun c => c <> "010"%char /\ c <> "013"%char) l).

Definition tryDecodeBase64 (s : string) : option bytes :=
  let l := to_bytes s in
  let r := (length l mod 4)%nat in
  b64_decode (if (0 <? r)%nat then l ++ replicate (4 - r) "="%char else l).

Section json.
Context (Marshal : vmess_json -> bytes) (Unmarshal : bytes -> option vmess_json).

Definition generateVMess (o : Outbound) : result link_error string :=
  let s := GetVMessSettingsOrDefault o in
  if eqs (vm_UUID s) "" then Err (EMissing "UUID for VMess") else
  let t := GetTLSSettingsOrDefault o in
  let r := GetRealitySettingsOrDefault o in
  let tls := eqs (o_Security o) "tls" in
  let reality := eqs (o_Security o) "reality" in
  let tr := GetTransportSettingsOrDefault o in
  let obj := MkVJ (o_Remark o) (o_Address o) (Itoa (o_Port o)) (vm_UUID s) (Itoa (vm_AlterId s)) (if eqs (vm_Security s) "" then "auto" else vm_Security s)
    (if eqs (o_Network o) "" then "tcp" else o_Network o)
    (if eqs (o_Network o) "tcp" && negb (eqs (tr_HeaderType tr) "") then tr_HeaderType tr else "none")
    (tr_Host tr) (if eqs (o_Network o) "grpc" then tr_ServiceName tr else tr_Path tr)
    (if tls then "tls" else if reality then "reality" else "")
    (if tls then t_ServerName t else if reality then r_ServerName r else "")
    (if tls && negb (bool_decide (t_ALPN t = [])) then Join "," (t_ALPN t) else "")
    (if tls then t_Fingerprint t else if reality then r_Fingerprint r else "") in
  Ok ("vmess://" +:+ of_bytes (b64_encode "+/" (Marshal obj))).

Definition Generate (o : Outbound) : result link_error string :=
  let p := lower_text (o_Protocol o) in
  if eqs p "vless" then generateVLESS o
  else if eqs p "vmess" then generateVMess o
  else if eqs p "trojan" then generateTrojan o
  else if eqs p "shadowsocks" then generateShadowsocks o
  else if eqs p "socks" then generateSocks o
  else if eqs p "http" then generateHTTP o
  else if eqs p "wireguard" then generateWireGuard o
  else if eqs p "hysteria2" then generateHysteria2 o
  else Err (EUnsupported (o_Protocol o)).

(** ** Parsing *)

(** [strings.ReplaceAll(s, "%2C", ",")] *)
Fixpoint unescape_commas (l : bytes) : bytes :=
  match l with
  | "%"%char :: (("2"%char :: (("C"%char :: l) as l2)) as l1) => ","%char :: unescape_commas l
  | c :: l => c :: unescape_commas l
  | [] => []
  end.
Definition validALPN (s : string) : list string :=
  if eqs s "" then [] else filter (fun t => t <> "") ((fun w => TrimSpace (of_bytes w)) <$> split_byte "," (unescape_commas (to_bytes s))).

(** [strconv.Atoi] of digits, whose error is dropped: what is too large is the largest [int]. *)
Definition getIntPort (u : URL) : Z := match Port u with [] => 0 | p => default maxI64 (Atoi (of_bytes p)) end.

(** An outbound with nothing but what every parser sets. *)
Definition base_out (tag protocol address : string) (port : Z) (network security remark : string) : Outbound :=
  MkOut tag protocol address port network security remark None None None None None None None None None None None None None.

Definition remark_or (u : URL) (imported : string) : string := if eqs (Fragment u) "" then imported else Fragment u.

Definition parse_transport (get : string -> string) (streamType : string) : TransportSettings :=
  if eqs streamType "ws" then MkTransport (get "path") (get "host") "" "" ""
  else if eqs streamType "grpc" then MkTransport "" "" (get "serviceName") "" ""
  else if eqs streamType "http" || eqs streamType "h2" then MkTransport (get "path") (get "host") "" "" ""
  else if eqs streamType "xhttp" then MkTransport (get "path") (get "host") "" (get "mode") ""
  else if eqs streamType "tcp" && eqs (get "headerType") "http" then MkTransport (get "path") (get "host") "" "" "http"
  else noTransport.

Definition parseVlessTrojan (u : URL) : result link_error Outbound :=
  let q := Query u in
  let protocol := lower_text (Scheme u) in
  let auth := Username u in
  if eqs auth "" then Err (EMissing "uuid/password") else
  let vless := eqs protocol "vless" in
  let security := if eqs (Get q "security") "" then "none" else Get q "security" in
  let streamType := if eqs (Get q "type") "" then "tcp" else Get q "type" in
  Ok (MkOut (Fragment u) protocol (Hostname u) (getIntPort u) streamType security (remark_or u ("Imported " +:+ upper_text protocol))
    (if eqs security "tls" then Some (MkTLS (Get q "sni") (Get q "fp") (validALPN (Get q "alpn"))) else None)
    (if negb (eqs security "tls") && eqs security "reality"
     then Some (MkReality (Get q "sni") (Get q "fp") (Get q "pbk") (Get q "sid") (Get q "spiderx") (validALPN (Get q "alpn")) true) else None)
    (Some (parse_transport (Get q) streamType))
    (if vless then Some (MkVLESS auth (Get q "encryption") (Get q "flow")) else None) None (if vless then None else Some auth) None None None None None None None).

Definition parseVmess (linkStr : string) : result link_error Outbound :=
  match tryDecodeBase64 (default linkStr (CutPrefix linkStr "vmess://")) with
  | None => Err EBase64
  | Some decoded =>
      match Unmarshal decoded with
      | None => Err EJSON
      | Some v =>
          let port := default 0 (Atoi (v_port v)) in
          let tr := if eqs (v_net v) "ws" then MkTransport (v_path v) (v_host v) "" "" "" else if eqs (v_net v) "grpc" then MkTransport "" "" (v_path v) "" ""
                    else if eqs (v_net v) "h2" || eqs (v_net v) "http" then MkTransport (v_path v) (v_host v) "" "" "" else noTransport in
          Ok (MkOut (v_ps v) "vmess" (v_add v) port (v_net v) (if eqs (v_tls v) "" then "none" else v_tls v) (if eqs (v_ps v) "" then "Imported VMess" else v_ps v)
            (if eqs (v_tls v) "tls" then Some (MkTLS (v_sni v) (v_fp v) (validALPN (v_alpn v))) else None)
            (if eqs (v_tls v) "reality" then Some (MkReality (v_sni v) (v_fp v) "" "" "" [] true) else None)
            (Some tr) None (Some (MkVMess (v_id v) (default 0 (Atoi (v_aid v))) (v_scy v))) None None None None None None None None)
      end
  end.

Definition parseShadowsocks (u : URL) : result link_error Outbound :=
  match User u with
  | None => Err ELegacySS
  | Some _ => Ok (MkOut (Fragment u) "shadowsocks" (Hostname u) (getIntPort u) "" "none" (remark_or u "Imported SS")
      None None None None None None (Some (MkSS (Username u) (Password u) "tcp,udp")) None None None None None None)
  end.

Definition parseSocksHttp (u : URL) : result link_error Outbound :=
  let protocol := lower_text (Scheme u) in
  let user := Username u in
  let pass := Password u in
  let accounts := if negb (eqs user "") || negb (eqs pass "") then [(user, pass)] else [] in
  let socks := eqs protocol "socks" in
  Ok (MkOut (Fragment u) protocol (Hostname u) (getIntPort u) "" "none" (remark_or u ("Imported " +:+ upper_text protocol)) None None None None None None None
    (if socks then Some (MkSOCKS (if bool_decide (accounts = []) then "noauth" else "password") accounts) else None) (if socks then None else Some accounts) None None None None).

Definition parseDirect (u : URL) : result link_error Outbound :=
  let protocol := lower_text (Scheme u) in
  let freedom := eqs protocol "freedom" in
  Ok (MkOut (Fragment u) protocol "127.0.0.1" 0 "" "" (remark_or u "Imported Direct") None None None None None None None None None None None
    (if freedom then Some "AsIs" else None) (if freedom then None else Some "none")).

Definition Parse (linkStr : string) : result link_error Outbound :=
  let linkStr := TrimSpace linkStr in
  match GoUrl.Parse linkStr with
  | None => Err EURL
  | Some u =>
      let scheme := lower_text (Scheme u) in
      if eqs scheme "vless" || eqs scheme "trojan" then parseVlessTrojan u
      else if eqs scheme "vmess" then parseVmess linkStr
      else if eqs scheme "ss" then parseShadowsocks u
      else if eqs scheme "socks" || eqs scheme "http" then parseSocksHttp u
      else if eqs scheme "freedom" || eqs scheme "blackhole" then parseDirect u
      else Err (EUnsupported scheme)
  end.

(** ** The customer's link *)

Definition default_fp (s : string) : string := if eqs s "" then "chrome" else s.

(** [defaultFingerprint] *)
Definition defaultFingerprint (o : Outbound) : Outbound :=
  MkOut (o_Tag o) (o_Protocol o) (o_Address o) (o_Port o) (o_Network o) (o_Security o) (o_Remark o)
    ((fun t => MkTLS (t_ServerName t) (default_fp (t_Fingerprint t)) (t_ALPN t)) <$> o_TLS o)
    ((fun r => MkReality (r_ServerName r) (default_fp (r_Fingerprint r)) (r_PublicKey r) (r_ShortID r) (r_SpiderX r) (r_ALPN r) (r_Show r)) <$> o_Reality o)
    (o_Transport o) (o_VLESS o) (o_VMess o) (o_Trojan o) (o_SS o) (o_SOCKS o) (o_HTTP o) (o_WG o) (o_Hysteria o) (o_Freedom o) (o_Blackhole o).

Definition with_vless (v : VLESSSettings) (remark : string) (o : Outbound) : Outbound :=
  MkOut (o_Tag o) (o_Protocol o) (o_Address o) (o_Port o) (o_Network o) (o_Security o) remark (o_TLS o) (o_Reality o) (o_Transport o) (Some v)
    (o_VMess o) (o_Trojan o) (o_SS o) (o_SOCKS o) (o_HTTP o) (o_WG o) (o_Hysteria o) (o_Freedom o) (o_Blackhole o).
Definition with_trojan (password remark : string) (o : Outbound) : Outbound :=
  MkOut (o_Tag o) (o_Protocol o) (o_Address o) (o_Port o) (o_Network o) (o_Security o) remark (o_TLS o) (o_Reality o) (o_Transport o) (o_VLESS o)
    (o_VMess o) (Some password) (o_SS o) (o_SOCKS o) (o_HTTP o) (o_WG o) (o_Hysteria o) (o_Freedom o) (o_Blackhole o).

Definition BuildVlessLink (template uuid remark : string) : result link_error string :=
  rbind (fun out =>
    match o_VLESS out with
    | None => Err (ENotThat "vless")
    | Some v => Generate (defaultFingerprint (with_vless (MkVLESS uuid (vl_Encryption v) (vl_Flow v)) remark out))
    end) (Parse template).

Definition BuildTrojanLink (template uuid remark : string) : result link_error string :=
  rbind (fun out =>
    match o_Trojan out with
    | None => Err (ENotThat "trojan")
    | Some _ => Generate (defaultFingerprint (with_trojan uuid remark out))
    end) (Parse template).
End json.

(** ** On examples *)

Definition no_json (_ : vmess_json) : bytes := [].
Definition no_unjson (_ : bytes) : option vmess_json := None.
Abbreviation Gen := (Generate no_json).
Abbreviation Par := (Parse no_unjson).

Definition demo_vless (address network : string) (spider : string) : Outbound :=
  MkOut "proxy" "vless" address 443 network "reality" "Home" None (Some (MkReality "www.example.org" "firefox" "PBK" "a1b2" spider [] false))
    (Some (MkTransport "/p" "" "" "auto" "")) (Some (MkVLESS "0b5a3c1e-9d1f-4f6a-8a53-0c2f3b1d7e11" "none" "")) None None None None None None None None None.

Definition reparsed (o : Outbound) : option Outbound := match Gen o with Ok s => match Par s with Ok o => Some o | Err _ => None end | Err _ => None end.

Example demo_vless_link : Gen (demo_vless "h.example" "xhttp" "") =
  Ok "vless://0b5a3c1e-9d1f-4f6a-8a53-0c2f3b1d7e11@h.example:443?encryption=none&fp=firefox&mode=auto&path=%2Fp&pbk=PBK&security=reality&sid=a1b2&sni=www.example.org&type=xhttp#Home".
Proof. vm_compute. reflexivity. Qed.

(** The generator writes a REALITY spiderX as spx, and the parser reads spiderx. *)
Example spider_lost : (reparsed (demo_vless "h.example" "tcp" "/spider") ≫= o_Reality) = Some (MkReality "www.example.org" "firefox" "PBK" "a1b2" "" [] true).
Proof. vm_compute. reflexivity. Qed.

(** splithttp is written with its path and mode, and read without. *)
Example splithttp_lost : (reparsed (demo_vless "h.example" "splithttp" "") ≫= o_Transport) = Some noTransport.
Proof. vm_compute. reflexivity. Qed.

(** An IPv6 address is written without brackets, and no such link can be read. *)
Example six_unreadable : reparsed (demo_vless "2001:db8::1" "tcp" "") = None.
Proof. vm_compute. reflexivity. Qed.

Definition demo_trojan (password : string) : Outbound :=
  MkOut "proxy" "trojan" "h.example" 443 "tcp" "tls" "Home" (Some (MkTLS "h.example" "" [])) None None None None (Some password) None None None None None None None.
Example colon_password_cut : (reparsed (demo_trojan "se:cret") ≫= o_Trojan) = Some "se".
Proof. vm_compute. reflexivity. Qed.

Definition demo_ss : Outbound :=
  MkOut "proxy" "shadowsocks" "h.example" 8388 "" "none" "Home" None None None None None None (Some (MkSS "aes-256-gcm" "secret" "tcp,udp")) None None None None None None.
(** Method and password are one base64 text in front of the host, and the parser takes
    it for the method. *)
Example shadowsocks_unreadable : (reparsed demo_ss ≫= o_SS) = Some (MkSS "YWVzLTI1Ni1nY206c2VjcmV0" "" "tcp,udp").
Proof. vm_compute. reflexivity. Qed.

(** A template with an IPv6 address gives customers a link nobody can read. *)
Definition six_template : string := "vless://x@[2001:db8::1]:443?type=tcp#t".
Example six_template_broken : exists s, BuildVlessLink no_json no_unjson six_template "0b5a3c1e-9d1f-4f6a-8a53-0c2f3b1d7e11" "Ali" = Ok s /\ GoUrl.Parse s = None.
Proof. eexists. split; [vm_compute; reflexivity|vm_compute; reflexivity]. Qed.

(** * A link comes back *)

(** ** Text *)

Lemma eqs_true a b : eqs a b = true <-> a = b.
Proof. apply bool_decide_eq_true. Qed.
Lemma eqs_false a b : eqs a b = false <-> a <> b.
Proof. apply bool_decide_eq_false. Qed.
Lemma eqs_refl a : eqs a a = true.
Proof. by apply eqs_true. Qed.
Lemma or_self (s : string) : (if eqs s "" then "" else s) = s.
Proof. destruct (eqs s "") eqn:H; [by apply eqs_true in H|done]. Qed.

Lemma is_num_digit d : 0 <= d <= 9 -> is_num (digit d) = true.
Proof.
  intros H. assert (d ∈ seqZ 0 10) as Hin by (apply elem_of_seqZ; lia). vm_compute in Hin.
  repeat (apply elem_of_cons in Hin as [->|Hin]; [reflexivity|]). by apply elem_of_nil in Hin.
Qed.

Lemma utoa_go_nums fuel n acc : 0 <= n -> Forall (fun c => is_num c = true) (to_bytes acc) -> Forall (fun c => is_num c = true) (to_bytes (utoa_go fuel n acc)).
Proof.
  revert n acc. induction fuel as [|fuel IH]; intros n acc Hn Ha; [done|]. cbn [utoa_go]. pose proof (Z.mod_pos_bound n 10).
  assert (Forall (fun c => is_num c = true) (to_bytes (String (digit (n mod 10)) acc))) as Hs by (constructor; [apply is_num_digit; lia|done]).
  destruct (n <? 10); [done|]. apply IH; [apply Z.div_pos; lia|done].
Qed.

Lemma Itoa_nums n : 0 <= n -> Forall (fun c => is_num c = true) (to_bytes (Itoa n)) /\ to_bytes (Itoa n) <> [].
Proof.
  intros Hn. unfold Itoa. destruct (Z.ltb_spec n 0); [lia|]. unfold utoa. split; [apply utoa_go_nums; [done|constructor]|].
  destruct (utoa_go_head 20 n "" ltac:(lia) Hn) as (d & s & _ & ->). done.
Qed.

(** A text of printable ASCII without spaces has nothing to trim. *)
Lemma segments_graphic l : Forall (fun c => graphic c = true) l -> segments l = (fun c => MkSeg (code c) [c] true) <$> l.
Proof.
  intros Hl. unfold segments. assert (forall f, (length l <= f)%nat -> segments_go f l = (fun c => MkSeg (code c) [c] true) <$> l) as Hg; [|by apply Hg].
  induction Hl as [|c l Hc _ IH]; intros f Hf; [by destruct f|]. destruct f as [|f]; [cbn in Hf; lia|]. cbn [segments_go decodeRune].
  unfold graphic, between in Hc. apply andb_true_iff in Hc as [H1%Z.leb_le H2%Z.leb_le]. destruct (Z.ltb_spec (code c) 0x80); [|lia]. cbn [list.take drop fmap list_fmap].
  rewrite drop_0. f_equal. apply IH. cbn in Hf. lia.
Qed.

Lemma graphic_not_space c : graphic c = true -> IsSpace (code c) = false.
Proof.
  assert (forall c, implb (graphic c) (negb (IsSpace (code c))) = true) as H by (apply by_chars; vm_compute; reflexivity).
  intros Hc. specialize (H c). rewrite Hc in H. by apply negb_true_iff in H.
Qed.

Lemma TrimSpace_graphic l : Forall (fun c => graphic c = true) l -> TrimSpace (of_bytes l) = of_bytes l.
Proof.
  intros Hl. apply TrimSpace_id; rewrite to_of_bytes, segments_graphic by done; intros x Hx.
  - destruct Hl as [|c l Hc _]; [done|]. injection Hx as <-. cbn. by apply graphic_not_space.
  - rewrite fmap_last in Hx. destruct (last l) as [c|] eqn:Hc; [|done]. injection Hx as <-. cbn. apply graphic_not_space.
    rewrite Forall_forall in Hl. apply Hl. apply last_Some in Hc as [k ->]. apply elem_of_app. right. left.
Qed.

(** ** The values *)

Definition at_key (v : values) (k : string) : string := default "" (v !! k).
Lemma at_insert k s v k' : at_key (<[k := s]> v) k' = if eqs k k' then s else at_key v k'.
Proof. unfold at_key, eqs. case_bool_decide as H; [subst; by rewrite lookup_insert_eq|by rewrite lookup_insert_ne]. Qed.
Lemma at_set_if k s v k' : at_key (set_if k s v) k' = if eqs k k' then (if eqs s "" then at_key v k' else s) else at_key v k'.
Proof. unfold set_if. destruct (eqs s ""); [by destruct (eqs k k')|]. apply at_insert. Qed.
Lemma at_set_list k l v k' : at_key (set_list k l v) k' = if eqs k k' then (if bool_decide (l = []) then at_key v k' else Join "," l) else at_key v k'.
Proof. unfold set_list. case_bool_decide; [by destruct (eqs k k')|]. apply at_insert. Qed.
Lemma at_empty k : at_key ∅ k = "".
Proof. unfold at_key. by rewrite lookup_empty. Qed.

(** Looking a fixed key up in values that were put together by fixed keys. *)
Ltac eqs_const :=
  repeat match goal with
  | |- context [eqs (String ?a ?b) (String ?c ?d)] =>
      let r := eval vm_compute in (eqs (String a b) (String c d)) in change (eqs (String a b) (String c d)) with r
  | |- context [eqs (String ?a ?b) ""] => change (eqs (String a b) "") with false
  | |- context [eqs "" (String ?a ?b)] => change (eqs "" (String a b)) with false
  | |- context [eqs "" ""] => change (eqs "" "") with true
  end; cbn [negb andb orb]; cbn iota.
Ltac at_simpl := repeat (progress (rewrite ?at_insert, ?at_set_if, ?at_set_list, ?at_empty; eqs_const)).

(** ** ALPN *)

Definition alpn_ok (s : string) : Prop := s <> "" /\ TrimSpace s = s /\ ","%char ∉ to_bytes s /\ "%"%char ∉ to_bytes s.

Lemma unescape_commas_id l : "%"%char ∉ l -> unescape_commas l = l.
Proof.
  induction l as [|c l IH]; [done|]. rewrite not_elem_of_cons. intros [Hc Hl]. cbn [unescape_commas].
  destruct c as [[] [] [] [] [] [] [] []]; try (by rewrite IH); by destruct Hc.
Qed.

Lemma split_Join l : l <> [] -> Forall (fun s => ","%char ∉ to_bytes s) l -> split_byte "," (to_bytes (Join "," l)) = to_bytes <$> l.
Proof.
  intros Hne Hl. induction Hl as [|s l Hs Hl IH]; [done|]. destruct l as [|s' l]; [cbn; by rewrite split_byte_none|].
  change (Join "," (s :: s' :: l)) with (s +:+ "," +:+ Join "," (s' :: l)). rewrite !to_bytes_app. change (to_bytes ",") with [","%char]. cbn [app].
  rewrite split_byte_app by done. by rewrite IH.
Qed.

Lemma Join_no_percent l : Forall alpn_ok l -> "%"%char ∉ to_bytes (Join "," l).
Proof.
  induction 1 as [|s l (_ & _ & _ & Hs) Hl IH]; [by intros H%elem_of_nil|]. destruct l as [|s' l]; [done|].
  change (Join "," (s :: s' :: l)) with (s +:+ "," +:+ Join "," (s' :: l)). rewrite !to_bytes_app, !elem_of_app. change (to_bytes ",") with [","%char].
  rewrite list_elem_of_singleton. intros [H|[H|H]]; [done|done|done].
Qed.

Lemma validALPN_Join l : Forall alpn_ok l -> validALPN (if bool_decide (l = []) then "" else Join "," l) = l.
Proof.
  intros Hl. case_bool_decide as Hn; [by subst|]. unfold validALPN.
  assert (eqs (Join "," l) "" = false) as ->.
  { apply eqs_false. intros He. destruct Hl as [|s l [Hs _] Hl]; [done|]. destruct s as [|c s]; [done|]. by destruct l. }
  rewrite unescape_commas_id by by apply Join_no_percent. rewrite split_Join; [|done|eapply Forall_impl; [exact Hl|]; by intros s (_ & _ & H & _)].
  rewrite <-list_fmap_compose. rewrite (list_fmap_ext _ id l).
  - rewrite list_fmap_id. apply list_filter_all. eapply Forall_impl; [exact Hl|]. by intros s (H & _).
  - intros i s Hs. cbn. rewrite of_to_bytes. rewrite Forall_lookup in Hl. by apply (Hl i s Hs).
Qed.

(** ** A link is a URL *)

Definition host_ok (s : string) : Prop := Forall (fun c => name_char c = true) (to_bytes s) /\ s <> "".

Definition link_url (scheme user : string) (o : Outbound) (v : values) : URL :=
  MkURL scheme (Some (user, None)) (to_bytes (o_Address o) ++ ":"%char :: to_bytes (Itoa (o_Port o))) (Encode_bytes v) (fragment o).

Lemma encoded_graphic c : encoded_char c = true -> graphic c = true.
Proof. assert (forall c, implb (encoded_char c) (graphic c) = true) as H by (apply by_chars; vm_compute; reflexivity). intros Hc. specialize (H c). by rewrite Hc in H. Qed.
Lemma hostport_inner c : hostport_char c = true -> inner_char c = true.
Proof. assert (forall c, implb (hostport_char c) (inner_char c) = true) as H by (apply by_chars; vm_compute; reflexivity). intros Hc. specialize (H c). by rewrite Hc in H. Qed.
Lemma segment_inner c : segment_char c = true -> inner_char c = true.
Proof. assert (forall c, implb (segment_char c) (inner_char c) = true) as H by (apply by_chars; vm_compute; reflexivity). intros Hc. specialize (H c). by rewrite Hc in H. Qed.
Lemma segment_userinfo c : segment_char c = true -> is_letter c || is_num c || is_in "-._:~!$&'()*+,;=%@" c = true.
Proof.
  assert (forall c, implb (segment_char c) (is_letter c || is_num c || is_in "-._:~!$&'()*+,;=%@" c) = true) as H by (apply by_chars; vm_compute; reflexivity).
  intros Hc. specialize (H c). by rewrite Hc in H.
Qed.

Lemma link_bytes scheme user o v : authority_link scheme user o v =
  of_bytes (built_head (to_bytes scheme) (to_bytes user) (to_bytes (o_Address o) ++ ":"%char :: to_bytes (Itoa (o_Port o))) ++ "?"%char :: Encode_bytes v ++ "#"%char :: escape encodePathSegment (to_bytes (fragment o))).
Proof.
  rewrite <-(of_to_bytes (authority_link _ _ _ _)). f_equal. unfold authority_link, built_head, GoUrl.Encode, PathEscape. rewrite !to_bytes_app, !to_of_bytes.
  change (to_bytes "://") with [":"%char; "/"%char; "/"%char]. change (to_bytes "@") with ["@"%char]. change (to_bytes ":") with [":"%char].
  change (to_bytes "?") with ["?"%char]. change (to_bytes "#") with ["#"%char]. repeat (cbn [app]; rewrite <-?app_assoc). done.
Qed.

(** A text of this make is a URL, whatever its host is, if that is one. *)
Lemma text_parses (scheme user name f : string) (hp : bytes) (v : values) :
  Forall (fun c => small_letter c = true) (to_bytes scheme) -> scheme <> "" ->
  Forall (fun c => segment_char c = true) (to_bytes user) -> ":"%char ∉ to_bytes user -> unescape encodeUserPassword (to_bytes user) = Some (to_bytes name) ->
  Forall (fun c => inner_char c = true) hp -> "@"%char ∉ hp -> parseHost hp = Some hp ->
  GoUrl.Parse (TrimSpace (of_bytes (built_head (to_bytes scheme) (to_bytes user) hp ++ "?"%char :: Encode_bytes v ++ "#"%char :: escape encodePathSegment (to_bytes f)))) =
  Some (MkURL scheme (Some (name, None)) hp (Encode_bytes v) f).
Proof.
  intros Hscheme Hne Huser Hcolon Hname Hhp Hat Hh. rewrite TrimSpace_graphic.
  2: { unfold built_head. repeat (rewrite <-?app_assoc; cbn [app]). apply Forall_app. split; [eapply Forall_impl; [exact Hscheme|]; intros c Hc; by apply inner_graphic, small_inner|].
    do 3 (constructor; [done|]). apply Forall_app. split; [eapply Forall_impl; [exact Huser|]; intros c Hc; by apply inner_graphic, segment_inner|]. constructor; [done|].
    apply Forall_app. split; [eapply Forall_impl; [exact Hhp|]; intros c Hc; by apply inner_graphic|]. constructor; [done|].
    apply Forall_app. split; [eapply Forall_impl; [apply Encode_class|apply encoded_graphic]|]. constructor; [done|].
    eapply Forall_impl; [apply PathSegment_class|]. intros c Hc. by apply inner_graphic, segment_inner. }
  erewrite Parse_built.
  - by rewrite !of_to_bytes.
  - exact Hscheme.
  - by destruct scheme.
  - eapply Forall_impl; [exact Huser|apply segment_inner].
  - exact Hcolon.
  - apply forallb_Forall_true. eapply Forall_impl; [exact Huser|apply segment_userinfo].
  - exact Hname.
  - exact Hhp.
  - exact Hat.
  - exact Hh.
  - eapply Forall_impl; [apply Encode_class|apply encoded_graphic].
  - eapply class_not_in; [apply Encode_class|done].
  - apply unescape_fragment.
Qed.

Section link.
Context (scheme user name : string) (o : Outbound) (v : values).
Context (Hscheme : Forall (fun c => small_letter c = true) (to_bytes scheme)) (Hne : scheme <> "").
Context (Huser : Forall (fun c => segment_char c = true) (to_bytes user)) (Hcolon : ":"%char ∉ to_bytes user) (Hname : unescape encodeUserPassword (to_bytes user) = Some (to_bytes name)).
Context (Hhost : host_ok (o_Address o)) (Hport : 0 <= o_Port o <= maxI64).

Lemma link_hostport : Forall (fun c => hostport_char c = true) (to_bytes (o_Address o) ++ ":"%char :: to_bytes (Itoa (o_Port o))).
Proof.
  destruct Hhost as [Hh _]. destruct (Itoa_nums (o_Port o)) as [Hp _]; [lia|]. apply Forall_app. split; [eapply Forall_impl; [exact Hh|apply name_hostport]|].
  constructor; [done|]. eapply Forall_impl; [exact Hp|]. intros c Hc. by apply name_hostport, num_name.
Qed.

Lemma link_host : parseHost (to_bytes (o_Address o) ++ ":"%char :: to_bytes (Itoa (o_Port o))) = Some (to_bytes (o_Address o) ++ ":"%char :: to_bytes (Itoa (o_Port o))) /\
  Hostname (link_url scheme name o v) = o_Address o /\ getIntPort (link_url scheme name o v) = o_Port o.
Proof.
  destruct Hhost as [Hh Hn]. destruct (Itoa_nums (o_Port o)) as [Hp Hpn]; [lia|]. destruct (parseHost_name (to_bytes (o_Address o)) (to_bytes (Itoa (o_Port o))) Hh) as [H1 H2]; [by destruct (o_Address o)|done|].
  split; [done|]. unfold Hostname, getIntPort, Port, link_url. cbn [Host_]. rewrite H2. cbn [fst snd]. rewrite of_to_bytes. split; [done|].
  destruct (to_bytes (Itoa (o_Port o))) as [|c l] eqn:He; [done|]. rewrite <-He, of_to_bytes. by rewrite Atoi_Itoa by word_lia.
Qed.

Lemma link_parses : GoUrl.Parse (TrimSpace (authority_link scheme user o v)) = Some (link_url scheme name o v).
Proof.
  rewrite link_bytes. apply text_parses; try done.
  - eapply Forall_impl; [apply link_hostport|apply hostport_inner].
  - eapply class_not_in; [apply link_hostport|done].
  - apply link_host.
Qed.
End link.

(** ** What comes back *)

Definition or_default (s d : string) : string := if eqs s "" then d else s.

(** The TLS, REALITY and transport parts that a link keeps. *)
Definition tls_back (o : Outbound) : option TLSSettings :=
  if eqs (o_Security o) "tls" then Some (GetTLSSettingsOrDefault o) else None.
Definition reality_back (o : Outbound) : option RealitySettings :=
  if eqs (o_Security o) "reality" then
    let r := GetRealitySettingsOrDefault o in Some (MkReality (r_ServerName r) (r_Fingerprint r) (r_PublicKey r) (r_ShortID r) "" (r_ALPN r) true)
  else None.
Definition transport_back (xhttp : bool) (o : Outbound) : TransportSettings :=
  let t := GetTransportSettingsOrDefault o in
  if eqs (o_Network o) "ws" then MkTransport (tr_Path t) (tr_Host t) "" "" ""
  else if eqs (o_Network o) "grpc" then MkTransport "" "" (tr_ServiceName t) "" ""
  else if eqs (o_Network o) "xhttp" && xhttp then MkTransport (tr_Path t) (tr_Host t) "" (tr_Mode t) ""
  else if eqs (o_Network o) "tcp" && eqs (tr_HeaderType t) "http" then MkTransport (tr_Path t) (tr_Host t) "" "" "http"
  else noTransport.

Definition imported (o : Outbound) : string := if eqs (fragment o) "" then "Imported " +:+ upper_text (o_Protocol o) else fragment o.

(** The outbound that is read from a link of [o]. *)
Definition came_back (o : Outbound) : Outbound :=
  let vless := eqs (o_Protocol o) "vless" in
  MkOut (fragment o) (o_Protocol o) (o_Address o) (o_Port o) (or_default (o_Network o) "tcp") (or_default (o_Security o) "none") (imported o)
    (tls_back o) (reality_back o) (Some (transport_back vless o))
    (if vless then let s := GetVLESSSettingsOrDefault o in Some (MkVLESS (vl_UUID s) (or_default (vl_Encryption s) "none") (vl_Flow s)) else None) None
    (if vless then None else Some (GetTrojanSettingsOrDefault o)) None None None None None None None.

Definition uuid_text (s : string) : Prop := s <> "" /\ Forall (fun c => is_letter c || is_num c || is_in "-_.~" c = true) (to_bytes s).

(** What a link can carry. *)
Record linkable (o : Outbound) : Prop := {
  lk_proto : o_Protocol o = "vless" /\ uuid_text (vl_UUID (GetVLESSSettingsOrDefault o)) \/
             o_Protocol o = "trojan" /\ GetTrojanSettingsOrDefault o <> "" /\ ":"%char ∉ to_bytes (GetTrojanSettingsOrDefault o);
  lk_host : host_ok (o_Address o);
  lk_port : 0 <= o_Port o <= maxI64;
  lk_tls : Forall alpn_ok (t_ALPN (GetTLSSettingsOrDefault o));
  lk_reality : Forall alpn_ok (r_ALPN (GetRealitySettingsOrDefault o));
  lk_type : o_Network o <> "splithttp"
}.


Definition transport_keys : list string := ["path"; "host"; "serviceName"; "mode"; "headerType"].
Definition security_keys : list string := ["security"; "sni"; "fp"; "pbk"; "sid"; "spx"; "spiderx"; "alpn"].
Definition no_keys (ks : list string) (v : values) : Prop := forall k, k ∈ ks -> at_key v k = "".

Lemma or_default_self s : or_default s "" = s.
Proof. unfold or_default. destruct (eqs s "") eqn:H; [by apply eqs_true in H|done]. Qed.

(** Destructs a comparison and, where it holds, puts the text in. *)
Ltac case_eqs a b := let H := fresh "Heq" in destruct (eqs a b) eqn:H; [apply eqs_true in H; subst a|].

Lemma transport_kept o v xhttp (Hv : no_keys transport_keys v) (Hs : o_Network o <> "splithttp") :
  parse_transport (at_key ((if xhttp : bool then transport_values else trojan_transport_values) o v)) (or_default (o_Network o) "tcp") = transport_back xhttp o /\
  forall k, k ∉ transport_keys -> at_key ((if xhttp then transport_values else trojan_transport_values) o v) k = at_key v k.
Proof.
  pose proof (Hv "path" ltac:(set_solver)) as H1. pose proof (Hv "host" ltac:(set_solver)) as H2. pose proof (Hv "serviceName" ltac:(set_solver)) as H3.
  pose proof (Hv "mode" ltac:(set_solver)) as H4. pose proof (Hv "headerType" ltac:(set_solver)) as H5. clear Hv.
  assert (forall k, k ∉ transport_keys -> eqs "path" k = false /\ eqs "host" k = false /\ eqs "serviceName" k = false /\ eqs "mode" k = false /\ eqs "headerType" k = false) as Hk.
  { intros k Hn. rewrite !eqs_false. unfold transport_keys in Hn. rewrite !not_elem_of_cons in Hn. naive_solver. }
  destruct xhttp; unfold transport_values, trojan_transport_values, transport_back, or_default, header_values; destruct o as [tag protocol address port network security remark tls reality transport]; cbn [o_Network] in *; set (t := GetTransportSettingsOrDefault _); clearbody t.
  all: case_eqs network "ws"; [|case_eqs network "grpc"; [|case_eqs network "xhttp"; [|case_eqs network "tcp"; [|case_eqs network ""]]]].
  all: rewrite ?Heq, ?Heq0, ?Heq1, ?Heq2, ?Heq3, ?(proj2 (eqs_false _ _) Hs); eqs_const; (destruct (eqs (tr_HeaderType t) "http") eqn:Hh; [apply eqs_true in Hh|]).
  all: split; [unfold parse_transport; rewrite ?Heq, ?Heq0, ?Heq1, ?Heq2, ?Heq3; eqs_const; at_simpl; rewrite ?H1, ?H2, ?H3, ?H4, ?H5; eqs_const; rewrite ?or_self; try done|
    intros k Hn; destruct (Hk k Hn) as (E1 & E2 & E3 & E4 & E5); rewrite ?at_set_if, ?at_insert, ?E1, ?E2, ?E3, ?E4, ?E5; try done].
  all: by destruct (eqs network "http" || eqs network "h2").
Qed.

Lemma security_kept o v (Hv : no_keys security_keys v) (Ht : Forall alpn_ok (t_ALPN (GetTLSSettingsOrDefault o))) (Hr : Forall alpn_ok (r_ALPN (GetRealitySettingsOrDefault o))) :
  let w := reality_values o (tls_values o (security_values o v)) in
  or_default (at_key w "security") "none" = or_default (o_Security o) "none" /\
  (if eqs (or_default (o_Security o) "none") "tls" then Some (MkTLS (at_key w "sni") (at_key w "fp") (validALPN (at_key w "alpn"))) else None) = tls_back o /\
  (if negb (eqs (or_default (o_Security o) "none") "tls") && eqs (or_default (o_Security o) "none") "reality"
   then Some (MkReality (at_key w "sni") (at_key w "fp") (at_key w "pbk") (at_key w "sid") (at_key w "spiderx") (validALPN (at_key w "alpn")) true) else None) = reality_back o /\
  forall k, k ∉ security_keys -> at_key w k = at_key v k.
Proof.
  pose proof (Hv "security" ltac:(set_solver)) as H1. pose proof (Hv "sni" ltac:(set_solver)) as H2. pose proof (Hv "fp" ltac:(set_solver)) as H3. pose proof (Hv "pbk" ltac:(set_solver)) as H4.
  pose proof (Hv "sid" ltac:(set_solver)) as H5. pose proof (Hv "spiderx" ltac:(set_solver)) as H7. pose proof (Hv "alpn" ltac:(set_solver)) as H8. clear Hv.
  assert (forall k, k ∉ security_keys -> eqs "security" k = false /\ eqs "sni" k = false /\ eqs "fp" k = false /\ eqs "pbk" k = false /\ eqs "sid" k = false /\ eqs "spx" k = false /\ eqs "alpn" k = false) as Hk.
  { intros k Hn. rewrite !eqs_false. unfold security_keys in Hn. rewrite !not_elem_of_cons in Hn. naive_solver. }
  cbv zeta. unfold reality_values, tls_values, security_values, tls_back, reality_back, or_default. destruct o as [tag protocol address port network security remark tls reality transport]. cbn [o_Security] in *.
  set (t := GetTLSSettingsOrDefault _) in *. set (r := GetRealitySettingsOrDefault _) in *. clearbody t r.
  case_eqs security ""; [|case_eqs security "none"; [|case_eqs security "tls"; [|case_eqs security "reality"]]].
  all: rewrite ?Heq, ?Heq0, ?Heq1, ?Heq2; eqs_const; rewrite ?Heq, ?Heq0, ?Heq1, ?Heq2; eqs_const.
  all: split; [at_simpl; rewrite ?H1; eqs_const; rewrite ?Heq; done|].
  all: split; [at_simpl; rewrite ?H2, ?H3, ?H8, ?or_self, ?validALPN_Join by done; try (by destruct t); done|].
  all: split; [at_simpl; rewrite ?H2, ?H3, ?H4, ?H5, ?H7, ?H8, ?or_self, ?validALPN_Join by done; done|].
  all: intros k Hn; destruct (Hk k Hn) as (E1 & E2 & E3 & E4 & E5 & E6 & E7); rewrite ?at_set_list, ?at_set_if, ?at_insert, ?E1, ?E2, ?E3, ?E4, ?E5, ?E6, ?E7; rewrite ?at_set_if, ?at_insert, ?E1, ?E2, ?E3, ?E4, ?E5, ?E6, ?E7; done.
Qed.

Lemma Get_at v k : Get (ParseQuery (Encode_bytes v)) k = at_key v k.
Proof. apply Get_Encode. Qed.

(** The values of a whole link. *)
Record carries (o : Outbound) (vless : bool) (v : values) : Prop := {
  cr_security : or_default (at_key v "security") "none" = or_default (o_Security o) "none";
  cr_tls : (if eqs (or_default (o_Security o) "none") "tls" then Some (MkTLS (at_key v "sni") (at_key v "fp") (validALPN (at_key v "alpn"))) else None) = tls_back o;
  cr_reality : (if negb (eqs (or_default (o_Security o) "none") "tls") && eqs (or_default (o_Security o) "none") "reality"
    then Some (MkReality (at_key v "sni") (at_key v "fp") (at_key v "pbk") (at_key v "sid") (at_key v "spiderx") (validALPN (at_key v "alpn")) true) else None) = reality_back o;
  cr_type : or_default (at_key v "type") "tcp" = or_default (o_Network o) "tcp";
  cr_transport : parse_transport (at_key v) (or_default (o_Network o) "tcp") = transport_back vless o;
  cr_encryption : vless = true -> at_key v "encryption" = or_default (vl_Encryption (GetVLESSSettingsOrDefault o)) "none";
  cr_flow : vless = true -> at_key v "flow" = vl_Flow (GetVLESSSettingsOrDefault o)
}.

Lemma or_default_idem s d : or_default (or_default s d) d = or_default s d.
Proof. unfold or_default. destruct (eqs s "") eqn:H; [by destruct (eqs d "")|by rewrite H]. Qed.

Lemma not_in_keys k ks : forallb (fun k' => negb (eqs k k')) ks = true -> k ∉ ks.
Proof.
  intros H Hin. rewrite forallb_forall in H. specialize (H k). rewrite <-list_elem_of_In in H. specialize (H Hin). by rewrite eqs_refl in H.
Qed.
Ltac other_key := apply not_in_keys; reflexivity.

Lemma parse_transport_ext f g s : (forall k, k ∈ transport_keys -> f k = g k) -> parse_transport f s = parse_transport g s.
Proof. intros H. unfold parse_transport. by rewrite !H by (unfold transport_keys; set_solver). Qed.

Lemma trojan_carries o : linkable o -> carries o false (trojan_values o).
Proof.
  intros Hok. unfold trojan_values. set (s := security_values o ∅). set (w := reality_values o (tls_values o s)).
  destruct (security_kept o ∅) as (H1 & H2 & H3 & H4); [by intros k _|apply Hok|apply Hok|]. fold s w in H1, H2, H3, H4.
  destruct (transport_kept o (set_if "type" (o_Network o) w) false) as [H5 H6]; [|apply Hok|].
  { intros k Hk. rewrite at_set_if. replace (eqs "type" k) with false by (symmetry; apply eqs_false; intros <-; revert Hk; apply not_in_keys; reflexivity).
    rewrite H4; [done|]. unfold transport_keys in Hk. intros Hs. unfold security_keys in Hs. rewrite !elem_of_cons in Hk, Hs. set_solver. }
  cbv iota in H5, H6. split; try done; rewrite ?H6 by other_key; rewrite ?at_set_if; eqs_const; try done.
  - rewrite H4 by other_key. rewrite at_empty, or_self. done.
Qed.

Lemma vless_carries o : linkable o -> carries o true (vless_values o).
Proof.
  intros Hok. unfold vless_values. set (e := <["encryption" := _]> ∅). set (s := security_values o e). set (w := reality_values o (tls_values o s)). set (n := if eqs (o_Network o) "" then "tcp" else o_Network o).
  assert (forall k, k <> "encryption" -> at_key e k = "") as He by (intros k Hk; unfold e; rewrite at_insert, (proj2 (eqs_false _ _)); done).
  destruct (security_kept o e) as (H1 & H2 & H3 & H4); [|apply Hok|apply Hok|].
  { intros k Hk. apply He. intros ->. revert Hk. apply not_in_keys. reflexivity. }
  fold s w in H1, H2, H3, H4. destruct (transport_kept o (<["type" := n]> w) true) as [H5 H6]; [|apply Hok|].
  { intros k Hk. rewrite at_insert. replace (eqs "type" k) with false by (symmetry; apply eqs_false; intros <-; revert Hk; apply not_in_keys; reflexivity).
    assert (k <> "encryption") by (intros ->; revert Hk; apply not_in_keys; reflexivity).
    rewrite H4; [by apply He|]. unfold transport_keys in Hk. intros Hs. unfold security_keys in Hs. rewrite !elem_of_cons in Hk, Hs. set_solver. }
  cbv iota in H5, H6. set (flow := vl_Flow _). assert (forall k, k <> "flow" -> at_key (set_if "flow" flow (transport_values o (<["type" := n]> w))) k = at_key (transport_values o (<["type" := n]> w)) k) as Hf.
  { intros k Hk. rewrite at_set_if. by rewrite (proj2 (eqs_false "flow" k)). }
  split; rewrite ?Hf by done; rewrite ?H6 by other_key; rewrite ?at_insert; eqs_const; try done.
  - unfold n. change (if eqs (o_Network o) "" then "tcp" else o_Network o) with (or_default (o_Network o) "tcp"). apply or_default_idem.
  - rewrite <-H5. apply parse_transport_ext. intros k Hk. apply Hf. intros ->. revert Hk. apply not_in_keys. reflexivity.
  - intros _. rewrite H4 by other_key. unfold e. by rewrite at_insert.
  - intros _. rewrite at_set_if. eqs_const. rewrite H6 by other_key. rewrite at_insert. eqs_const. rewrite H4 by other_key. rewrite He by done. apply or_self.
Qed.

(** ** The link of an outbound *)

Definition uuid_char (c : ascii) : bool := is_letter c || is_num c || is_in "-_.~" c.

Lemma uuid_segment c : uuid_char c = true -> segment_char c = true.
Proof. assert (forall c, implb (uuid_char c) (segment_char c) = true) as H by (apply by_chars; vm_compute; reflexivity). intros Hc. specialize (H c). by rewrite Hc in H. Qed.

Lemma unescape_uuid l : Forall (fun c => uuid_char c = true) l -> unescape encodeUserPassword l = Some l.
Proof.
  induction 1 as [|c l Hc _ IH]; [done|]. cbn [unescape]. rewrite bool_decide_eq_false_2 by (intros ->; discriminate Hc). cbn iota. rewrite IH. cbn. by rewrite andb_false_r.
Qed.

Lemma escape_no_colon l : ":"%char ∉ l -> ":"%char ∉ escape encodePathSegment l.
Proof.
  assert (forall c, (bool_decide (c = ":"%char) || negb (bool_decide (":"%char ∈ escape_char encodePathSegment c))) = true) as H by (apply by_chars; vm_compute; reflexivity).
  induction l as [|c l IH]; [done|]. rewrite not_elem_of_cons. intros [Hc Hl]. unfold escape. cbn [mbind list_bind]. rewrite elem_of_app. intros [Hin|Hin]; [|by apply IH].
  specialize (H c). rewrite bool_decide_eq_false_2 in H by congruence. by rewrite bool_decide_eq_true_2 in H.
Qed.

Lemma small_vless : Forall (fun c => small_letter c = true) (to_bytes "vless").
Proof. repeat (apply Forall_cons; split; [reflexivity|]). by apply Forall_nil. Qed.
Lemma small_trojan : Forall (fun c => small_letter c = true) (to_bytes "trojan").
Proof. repeat (apply Forall_cons; split; [reflexivity|]). by apply Forall_nil. Qed.

Section json_laws.
Context (Marshal : vmess_json -> bytes) (Unmarshal : bytes -> option vmess_json).

Lemma parse_link scheme name o v (Hn : name <> "") :
  (scheme = "vless" /\ carries o true v \/ scheme = "trojan" /\ carries o false v) -> host_ok (o_Address o) -> 0 <= o_Port o <= maxI64 ->
  parseVlessTrojan (link_url scheme name o v) =
  Ok (MkOut (fragment o) scheme (o_Address o) (o_Port o) (or_default (o_Network o) "tcp") (or_default (o_Security o) "none")
    (if eqs (fragment o) "" then "Imported " +:+ upper_text scheme else fragment o) (tls_back o) (reality_back o) (Some (transport_back (eqs scheme "vless") o))
    (if eqs scheme "vless" then Some (MkVLESS name (or_default (vl_Encryption (GetVLESSSettingsOrDefault o)) "none") (vl_Flow (GetVLESSSettingsOrDefault o))) else None) None
    (if eqs scheme "vless" then None else Some name) None None None None None None None).
Proof.
  intros Hs Hh Hp. destruct (link_host scheme name o v Hh Hp) as (_ & Hhost & Hport).
  assert (lower_text scheme = scheme /\ carries o (eqs scheme "vless") v) as [Hl [H1 H2 H3 H4 H5 H6 H7]] by (destruct Hs as [[-> Hc]|[-> Hc]]; by split).
  unfold parseVlessTrojan. rewrite Hhost, Hport. unfold Query, Username, remark_or. cbn [link_url Scheme User RawQuery Fragment]. rewrite Hl, (proj2 (eqs_false _ _) Hn).
  rewrite !Get_at. fold (or_default (at_key v "security") "none") (or_default (at_key v "type") "tcp"). rewrite H1, H4, H2, H3.
  rewrite (parse_transport_ext _ (at_key v)) by (intros k _; apply Get_at). rewrite H5. destruct (eqs scheme "vless"); [by rewrite H6, H7|done].
Qed.

Lemma Generate_parses o : linkable o -> exists s, Generate Marshal o = Ok s /\ Parse Unmarshal s = Ok (came_back o).
Proof.
  intros Hok. destruct (lk_proto o Hok) as [[Hp [Hu Hc]]|(Hp & Hu & Hc)].
  - exists (authority_link "vless" (vl_UUID (GetVLESSSettingsOrDefault o)) o (vless_values o)). split.
    + unfold Generate, generateVLESS. rewrite Hp. cbn. by rewrite (proj2 (eqs_false _ _) Hu).
    + unfold Parse. rewrite (link_parses "vless" _ (vl_UUID (GetVLESSSettingsOrDefault o))); [|apply small_vless|done|eapply Forall_impl; [exact Hc|apply uuid_segment]|exact (class_not_in uuid_char ":" _ Hc eq_refl)|exact (unescape_uuid _ Hc)|apply Hok|apply Hok].
      change (lower_text (Scheme (link_url "vless" (vl_UUID (GetVLESSSettingsOrDefault o)) o (vless_values o)))) with "vless". eqs_const.
      rewrite parse_link; [|done|left; split; [done|by apply vless_carries]|apply Hok|apply Hok]. unfold came_back, imported. by rewrite Hp.
  - exists (authority_link "trojan" (PathEscape (GetTrojanSettingsOrDefault o)) o (trojan_values o)). split.
    + unfold Generate, generateTrojan. rewrite Hp. cbn. by rewrite (proj2 (eqs_false _ _) Hu).
    + unfold Parse. rewrite (link_parses "trojan" _ (GetTrojanSettingsOrDefault o)); [|apply small_trojan|done|unfold PathEscape; rewrite to_of_bytes; apply PathSegment_class|unfold PathEscape; rewrite to_of_bytes; by apply escape_no_colon|
        unfold PathEscape; rewrite to_of_bytes; apply unescape_user_path|apply Hok|apply Hok].
      change (lower_text (Scheme (link_url "trojan" (GetTrojanSettingsOrDefault o) o (trojan_values o)))) with "trojan". eqs_const.
      rewrite parse_link; [|done|right; split; [done|by apply trojan_carries]|apply Hok|apply Hok]. unfold came_back, imported. by rewrite Hp.
Qed.
End json_laws.


(** ** The customer's link *)

Definition with_tag (tag : string) (o : Outbound) : Outbound :=
  MkOut tag (o_Protocol o) (o_Address o) (o_Port o) (o_Network o) (o_Security o) (o_Remark o) (o_TLS o) (o_Reality o) (o_Transport o) (o_VLESS o)
    (o_VMess o) (o_Trojan o) (o_SS o) (o_SOCKS o) (o_HTTP o) (o_WG o) (o_Hysteria o) (o_Freedom o) (o_Blackhole o).

Lemma parse_transport_back get n : n ∈ ["ws"; "grpc"; "xhttp"; "tcp"] -> forall o, o_Network o = n -> o_Transport o = Some (parse_transport get n) -> transport_back true o = parse_transport get n.
Proof.
  intros Hn o Ho Ht. unfold transport_back, GetTransportSettingsOrDefault. rewrite Ho, Ht. cbn [default from_option id].
  unfold parse_transport. rewrite !elem_of_cons, elem_of_nil in Hn. destruct Hn as [->|[->|[->|[->|[]]]]]; eqs_const; cbn [tr_Path tr_Host tr_ServiceName tr_Mode tr_HeaderType]; try done.
  destruct (eqs (get "headerType") "http"); by eqs_const.
Qed.

(** A customer's link is the template's. Take a VLESS template that can be read and
    says nothing a link can't carry (see [linkable]; its network is one of the four
    that are written in full, and it has no spiderX), a client id and a name. The
    customer gets a link; reading it gives exactly what the template says, with that
    id, that name, the encryption spelled out, and the fingerprint chrome where the
    template has none. *)
Theorem customer_link_keeps_template (Marshal : vmess_json -> bytes) (Unmarshal : bytes -> option vmess_json)
    (template uuid remark : string) (out : Outbound) (v : VLESSSettings)
    (Hparse : Parse Unmarshal template = Ok out) (Hv : o_VLESS out = Some v)
    (Hhost : host_ok (o_Address out)) (Hport : 0 <= o_Port out <= maxI64) (Hnet : o_Network out ∈ ["ws"; "grpc"; "xhttp"; "tcp"])
    (Halpn : Forall alpn_ok (t_ALPN (GetTLSSettingsOrDefault out)) /\ Forall alpn_ok (r_ALPN (GetRealitySettingsOrDefault out)))
    (Hspider : r_SpiderX (GetRealitySettingsOrDefault out) = "") (Huuid : uuid_text uuid) (Hremark : remark <> "") :
  exists s, BuildVlessLink Marshal Unmarshal template uuid remark = Ok s /\
    Parse Unmarshal s = Ok (with_tag remark (defaultFingerprint (with_vless (MkVLESS uuid (or_default (vl_Encryption v) "none") (vl_Flow v)) remark out))).
Proof.
  unfold BuildVlessLink. rewrite Hparse. cbn [rbind]. rewrite Hv. set (o := defaultFingerprint (with_vless (MkVLESS uuid (vl_Encryption v) (vl_Flow v)) remark out)).
  assert (exists u q, out = out /\ parseVlessTrojan u = Ok out /\ q = Query u /\ lower_text (Scheme u) = "vless") as (u & q & _ & Hu & Hq & Hsch).
  { unfold Parse in Hparse. destruct (GoUrl.Parse _) as [u|]; [|done]. destruct (eqs (lower_text (Scheme u)) "vless") eqn:Hs.
    - exists u, (Query u). split; [done|]. split; [done|]. split; [done|]. by apply eqs_true.
    - exfalso. cbn [orb] in Hparse. destruct (eqs (lower_text (Scheme u)) "trojan") eqn:Ht.
      + unfold parseVlessTrojan in Hparse. rewrite Hs in Hparse. destruct (eqs (Username u) ""); [done|]. injection Hparse as <-. done.
      + destruct (eqs _ "vmess"); [unfold parseVmess in Hparse; destruct (tryDecodeBase64 _); [|done]; destruct (Unmarshal _); [|done]; injection Hparse as <-; done|].
        destruct (eqs _ "ss"); [unfold parseShadowsocks in Hparse; destruct (User u); [|done]; injection Hparse as <-; done|].
        destruct (_ || _); [injection Hparse as <-; done|]. destruct (_ || _); [injection Hparse as <-; done|done]. }
  unfold parseVlessTrojan in Hu. rewrite Hsch in Hu. eqs_const. destruct (eqs (Username u) ""); [done|]. rewrite <-Hq in Hu.
  fold (or_default (Get q "security") "none") (or_default (Get q "type") "tcp") in Hu. set (sec := or_default (Get q "security") "none") in *. set (net := or_default (Get q "type") "tcp") in *.
  assert (sec <> "" /\ net <> "") as [Hsec Hnn] by (unfold sec, net, or_default; split; [destruct (eqs (Get q "security") "") eqn:E|destruct (eqs (Get q "type") "") eqn:E]; try done; by apply eqs_false in E).
  change (eqs "vless" "vless") with true in Hu. cbn iota in Hu. injection Hu as <-. cbn [o_VLESS] in Hv. injection Hv as <-.
  assert (linkable o) as Hok.
  { split; cbn [o defaultFingerprint with_vless o_Protocol o_VLESS o_Address o_Port o_Network GetVLESSSettingsOrDefault default from_option]; try done.
    - by left.
    - destruct Halpn as [H _]. unfold o, GetTLSSettingsOrDefault in *. cbn in H |- *. by destruct (eqs sec "tls").
    - destruct Halpn as [_ H]. unfold o, GetRealitySettingsOrDefault in *. cbn in H |- *. by destruct (_ && _).
    - intros He. cbn in Hnet. rewrite He in Hnet. revert Hnet. apply not_in_keys. reflexivity. }
  destruct (Generate_parses Marshal Unmarshal o Hok) as (s & Hs & Hp). exists s. split; [exact Hs|]. rewrite Hp. f_equal.
  unfold came_back, imported, fragment. cbn [o defaultFingerprint with_vless o_Protocol o_VLESS o_Address o_Port o_Network o_Security o_Remark o_Tag o_Transport].
  rewrite (proj2 (eqs_false _ _) Hremark), !(proj2 (eqs_false _ _) Hremark). change (eqs "vless" "vless") with true. cbn iota.
  erewrite (parse_transport_back (Get q) net); [|exact Hnet|done|done].
  unfold with_tag. cbn [defaultFingerprint with_vless o_Protocol o_VLESS o_Address o_Port o_Network o_Security o_Remark o_Tag o_Transport o_TLS o_Reality].
  unfold or_default at 1 2. rewrite (proj2 (eqs_false _ _) Hnn), (proj2 (eqs_false _ _) Hsec).
  cbn in Hspider. f_equal; unfold tls_back, reality_back, GetTLSSettingsOrDefault, GetRealitySettingsOrDefault in *; cbn in *.
  - by destruct (eqs sec "tls").
  - destruct (eqs sec "tls") eqn:Ht; cbn in *; [apply eqs_true in Ht; rewrite Ht; reflexivity|]. destruct (eqs sec "reality"); [|done]. cbn in *. by rewrite Hspider.
Qed.

(** ** Witnesses *)


Definition demo_template : string := "vless://x@h.example:443?security=tls&type=ws&path=%2Fws&sni=h.example#t".
Lemma customer_link_keeps_template_witness : exists s out,
  Par demo_template = Ok out /\ BuildVlessLink no_json no_unjson demo_template "0b5a3c1e-9d1f-4f6a-8a53-0c2f3b1d7e11" "Ali" = Ok s /\
  Par s = Ok (with_tag "Ali" (defaultFingerprint (with_vless (MkVLESS "0b5a3c1e-9d1f-4f6a-8a53-0c2f3b1d7e11" "none" "") "Ali" out))).
Proof.
  destruct (Par demo_template) as [out|e] eqn:He; [|exfalso; vm_compute in He; discriminate He]. pose proof He as Hout. vm_compute in Hout. injection Hout as <-.
  destruct (customer_link_keeps_template no_json no_unjson demo_template "0b5a3c1e-9d1f-4f6a-8a53-0c2f3b1d7e11" "Ali" _ (MkVLESS "x" "" "") He) as (s & H1 & H2).
  - reflexivity.
  - split; [|discriminate]. repeat (apply Forall_cons; split; [reflexivity|]). apply Forall_nil. exact I.
  - vm_compute. split; discriminate.
  - left.
  - split; constructor.
  - reflexivity.
  - split; [discriminate|]. repeat (apply Forall_cons; split; [reflexivity|]). apply Forall_nil. exact I.
  - discriminate.
  - eexists s, _. split; [reflexivity|]. split; [exact H1|exact H2].
Defined.
