(* ===== verification/HubLink.v ===== *)
(** * The links the hub hands out

    internal/remotenodes/subscriptions/link.go, and Link and buildLink of
    internal/remotenodes/manager/subs.go: a subscription's link to a node, made of the
    node's address, port and REALITY values and the client id in the state. The panel
    reads links with the parser of [ShareLinks].

    Theorems: every link that is built is read back as it was meant, whatever bytes are
    in its name, and with IPv6 addresses ([hub_link_read]); for names and IPv4 it is,
    byte for byte, what the panel's generator writes ([same_layout]); a link is given
    exactly for a pair that is switched on at a node that is installed ([link_given]);
    and a link that is given after a reconciliation names a client the node serves
    ([handed_link_served]). *)

From S2P Require Import Prelude GoString GoUnicode GoNetip GoUrl Emails HubState HubStore HubLimits BridgeSpec BridgeBuild HubClients HubSubs ShareLinks.

(** ** Building a link *)

Definition DefaultFlow : string := "xtls-rprx-vision".
Definition DefaultFingerprint : string := "chrome".

Record LinkParams := MkLP {
  p_UUID : string; p_Host : string; p_Port : Z; p_ServerName : string; p_PublicKey : string; p_ShortID : string; p_Fingerprint : string; p_Flow : string; p_Name : string
}.

Definition link_query (p : LinkParams) : values :=
  <["fp" := if eqs (p_Fingerprint p) "" then DefaultFingerprint else p_Fingerprint p]> (<["sid" := p_ShortID p]> (<["pbk" := p_PublicKey p]> (<["sni" := p_ServerName p]>
  (<["flow" := if eqs (p_Flow p) "" then DefaultFlow else p_Flow p]> (<["encryption" := "none"]> (<["type" := "tcp"]> (<["security" := "reality"]> ∅))))))).

Definition BuildLink (p : LinkParams) : result string string :=
  if negb (uuidRe (p_UUID p)) then Err "link: the client id is not a UUID" else
  let host := TrimSpace (p_Host p) in
  if eqs host "" then Err "link: the node address is empty" else
  if (p_Port p <? 1) || (65535 <? p_Port p) then Err "link: the port is out of range" else
  if eqs (p_ServerName p) "" || eqs (p_PublicKey p) "" then Err "link: the server name and public key are required" else
  if negb (shortIDRe (p_ShortID p)) then Err "link: the short id must be 1 to 8 bytes of hex" else
  if eqs (TrimSpace (p_Name p)) "" then Err "link: the name is empty" else
  Ok ("vless://" +:+ p_UUID p +:+ "@" +:+ JoinHostPort host (Itoa (p_Port p)) +:+ "?" +:+ GoUrl.Encode (link_query p) +:+ "#" +:+ PathEscape (p_Name p)).

(** ** Handing one out *)

Record Link_ := MkLink { l_NodeID : Z; l_NodeName : string; l_Vless : string }.
Inductive link_refusal := NoParts (e : sub_error) | BadState (what : string).

Definition buildLink (n : Node) (x : Subscription) (clientID : string) : result link_refusal Link_ :=
  match BuildLink (MkLP clientID (Host n) (EntryPort n) (serverName n) (RealityPublicKey n) (RealityShortID n) "" "" (S_Name x)) with
  | Ok vless => Ok (MkLink (N_ID n) (N_Name n) vless)
  | Err what => Err (BadState what)
  end.

Definition Link (s : State) (sub node : Z) : result link_refusal Link_ :=
  match linkParts s sub node, FindNode s node with
  | Err e, _ => Err (NoParts e)
  | Ok (x, e), Some n => buildLink n x (ClientUUID e)
  | Ok _, None => Err (NoParts (SubErr (ErrNotFound "node" node)))
  end.

(** ** The link as an outbound *)

Definition meant (p : LinkParams) : Outbound :=
  MkOut (p_Name p) "vless" (TrimSpace (p_Host p)) (p_Port p) "tcp" "reality" (p_Name p) None
    (Some (MkReality (p_ServerName p) (or_default (p_Fingerprint p) DefaultFingerprint) (p_PublicKey p) (p_ShortID p) "" [] true)) (Some noTransport)
    (Some (MkVLESS (p_UUID p) "none" (or_default (p_Flow p) DefaultFlow))) None None None None None None None None None.

(** An IPv6 address as text, without a zone. *)
Definition six_ok (s : string) : Prop := Forall (fun c => six_char c = true) (to_bytes s) /\ ":"%char ∈ to_bytes s /\ exists a, GoNetip.ParseAddr s = Some a /\ Is4 a = false.

Lemma hex_uuid c : hexd c = true \/ c = "-"%char -> uuid_char c = true.
Proof.
  assert (forall c, implb (hexd c || bool_decide (c = "-"%char)) (uuid_char c) = true) as H by (apply by_chars; vm_compute; reflexivity).
  specialize (H c). intros [Hc| ->]; [|done]. by rewrite Hc in H.
Qed.

Lemma groups_class sizes l : groups_of sizes l = true -> Forall (fun c => hexd c = true \/ c = "-"%char) l.
Proof.
  assert (forall l, forallb hexd l = true -> Forall (fun c => hexd c = true \/ c = "-"%char) l) as Hall.
  { intros k Hk. apply Forall_forall. intros c Hc. left. rewrite forallb_forall in Hk. apply Hk. by apply list_elem_of_In. }
  revert l. induction sizes as [|n sizes IH]; intros l; [done|]. cbn [groups_of]. destruct sizes as [|m sizes].
  - intros [_ H]%andb_true_iff. by apply Hall.
  - intros [H1 H2]%andb_true_iff. rewrite <-(take_drop n l). apply Forall_app. split; [by apply Hall|].
    destruct (drop n l) as [|c l'] eqn:Hd; [done|]. destruct c as [[] [] [] [] [] [] [] []]; try done. apply andb_true_iff in H2 as [_ H2]. constructor; [by right|by apply IH].
Qed.

Lemma uuidRe_text s : uuidRe s = true -> uuid_text s.
Proof.
  unfold uuidRe. intros H. split; [by intros ->|]. apply groups_class in H. eapply Forall_impl; [exact H|]. intros c Hc. by apply hex_uuid.
Qed.

Lemma BuildLink_Ok p s : BuildLink p = Ok s ->
  uuidRe (p_UUID p) = true /\ TrimSpace (p_Host p) <> "" /\ 1 <= p_Port p <= 65535 /\ p_ServerName p <> "" /\ p_PublicKey p <> "" /\ shortIDRe (p_ShortID p) = true /\ TrimSpace (p_Name p) <> "" /\
  s = "vless://" +:+ p_UUID p +:+ "@" +:+ JoinHostPort (TrimSpace (p_Host p)) (Itoa (p_Port p)) +:+ "?" +:+ GoUrl.Encode (link_query p) +:+ "#" +:+ PathEscape (p_Name p).
Proof.
  unfold BuildLink. destruct (uuidRe _); [|done]. cbn [negb]. destruct (eqs (TrimSpace (p_Host p)) "") eqn:H1; [done|]. destruct (_ || (65535 <? _)) eqn:H2; [done|].
  destruct (eqs (p_ServerName p) "" || _) eqn:H3; [done|]. destruct (shortIDRe _); [|done]. cbn [negb]. destruct (eqs (TrimSpace (p_Name p)) "") eqn:H4; [done|].
  intros [= <-]. apply eqs_false in H1, H4. apply orb_false_iff in H2 as [H2%Z.ltb_ge H2'%Z.ltb_ge], H3 as [H3%eqs_false H3'%eqs_false]. split_and!; try done; lia.
Qed.

Lemma BuildLink_total p : uuidRe (p_UUID p) = true -> TrimSpace (p_Host p) <> "" -> 1 <= p_Port p <= 65535 -> p_ServerName p <> "" -> p_PublicKey p <> "" ->
  shortIDRe (p_ShortID p) = true -> TrimSpace (p_Name p) <> "" -> exists s, BuildLink p = Ok s.
Proof.
  intros H1 H2%eqs_false [H3 H3'] H4%eqs_false H5%eqs_false H6 H7%eqs_false. eexists. unfold BuildLink. rewrite H1, H2, H4, H5, H6, H7.
  destruct (Z.ltb_spec (p_Port p) 1), (Z.ltb_spec 65535 (p_Port p)); try lia. reflexivity.
Qed.

(** The authority part: what it holds and what is read from it. *)
Lemma joined_host host port : host_ok host \/ six_ok host -> 0 <= port <= maxI64 ->
  let hp := to_bytes (JoinHostPort host (Itoa port)) in
  Forall (fun c => inner_char c = true) hp /\ "@"%char ∉ hp /\ parseHost hp = Some hp /\ splitHostPort hp = (to_bytes host, to_bytes (Itoa port)).
Proof.
  intros Hh Hp. destruct (Itoa_nums port) as [Hn Hne]; [lia|]. assert (Forall (fun c => hostport_char c = true) (to_bytes (Itoa port))) as Hpc.
  { eapply Forall_impl; [exact Hn|]. intros c Hc. by apply name_hostport, num_name. }
  unfold JoinHostPort. destruct Hh as [[Hh Hhn]|(Hh & Hc & a & Ha & H4)].
  - rewrite bool_decide_eq_false_2 by (by eapply class_not_in). rewrite !to_bytes_app. change (to_bytes ":") with [":"%char]. cbn [app].
    assert (Forall (fun c => hostport_char c = true) (to_bytes host ++ ":"%char :: to_bytes (Itoa port))) as Hall.
    { apply Forall_app. split; [eapply Forall_impl; [exact Hh|apply name_hostport]|]. by constructor. }
    destruct (parseHost_name (to_bytes host) (to_bytes (Itoa port)) Hh) as [H1 H2]; [by destruct host|done|].
    split; [eapply Forall_impl; [exact Hall|apply hostport_inner]|]. split; [by eapply class_not_in|done].
  - rewrite bool_decide_eq_true_2 by done. rewrite !to_bytes_app. change (to_bytes "[") with ["["%char]. change (to_bytes "]:") with ["]"%char; ":"%char]. cbn [app].
    destruct (parseHost_six a (to_bytes host) (to_bytes (Itoa port))) as [H1 H2]; [done|by rewrite of_to_bytes|done|done|].
    split; [|split; [|done]].
    + constructor; [done|]. apply Forall_app. split; [eapply Forall_impl; [exact Hh|]; intros c Hcc; by apply hostport_inner, six_hostport|].
      do 2 (constructor; [done|]). eapply Forall_impl; [exact Hpc|apply hostport_inner].
    + rewrite !not_elem_of_cons, not_elem_of_app, !not_elem_of_cons. split_and!; try done; by eapply class_not_in.
Qed.

Lemma link_is_text p : "vless://" +:+ p_UUID p +:+ "@" +:+ JoinHostPort (TrimSpace (p_Host p)) (Itoa (p_Port p)) +:+ "?" +:+ GoUrl.Encode (link_query p) +:+ "#" +:+ PathEscape (p_Name p) =
  of_bytes (built_head (to_bytes "vless") (to_bytes (p_UUID p)) (to_bytes (JoinHostPort (TrimSpace (p_Host p)) (Itoa (p_Port p)))) ++
    "?"%char :: Encode_bytes (link_query p) ++ "#"%char :: escape encodePathSegment (to_bytes (p_Name p))).
Proof.
  rewrite <-(of_to_bytes ("vless://" +:+ _)). f_equal. unfold built_head, GoUrl.Encode, PathEscape. rewrite !to_bytes_app, !to_of_bytes.
  change (to_bytes "vless://") with (to_bytes "vless" ++ [":"%char; "/"%char; "/"%char]). change (to_bytes "@") with ["@"%char].
  change (to_bytes "?") with ["?"%char]. change (to_bytes "#") with ["#"%char]. repeat (cbn [app]; rewrite <-?app_assoc). done.
Qed.

(** Reading what was built. *)
Lemma BuildLink_read Unmarshal p s : BuildLink p = Ok s -> host_ok (TrimSpace (p_Host p)) \/ six_ok (TrimSpace (p_Host p)) ->
  ShareLinks.Parse Unmarshal s = Ok (meant p).
Proof.
  intros (Hu & Hhn & Hport & Hsn & Hpk & _ & Hname & ->)%BuildLink_Ok Hhost. rewrite link_is_text. destruct (uuidRe_text _ Hu) as [Hun Huc].
  assert (0 <= p_Port p <= maxI64) as Hp by (unfold maxI64; lia). destruct (joined_host _ _ Hhost Hp) as (Hhp & Hat & Hparse & Hsplit).
  unfold ShareLinks.Parse. rewrite (text_parses "vless" _ (p_UUID p)); [|apply small_vless|done|eapply Forall_impl; [exact Huc|apply uuid_segment]|exact (class_not_in uuid_char ":" _ Huc eq_refl)|
    exact (unescape_uuid _ Huc)|done|done|done].
  cbn [Scheme]. change (lower_text "vless") with "vless". eqs_const. unfold parseVlessTrojan, Username, Query, remark_or. cbn [Scheme User RawQuery Fragment].
  change (lower_text "vless") with "vless". eqs_const. rewrite (proj2 (eqs_false _ _) Hun). rewrite !Get_at.
  assert (p_Name p <> "") as Hne by (intros He; by rewrite He in Hname). rewrite (proj2 (eqs_false _ _) Hne).
  unfold Hostname, getIntPort, Port. cbn [Host_]. rewrite Hsplit. cbn [fst snd]. rewrite !of_to_bytes.
  assert (match to_bytes (Itoa (p_Port p)) with [] => 0 | q => default maxI64 (Atoi (of_bytes q)) end = p_Port p) as ->.
  { destruct (Itoa_nums (p_Port p)) as [_ Hn]; [lia|]. destruct (to_bytes (Itoa (p_Port p))) as [|c l] eqn:He; [done|]. rewrite <-He, of_to_bytes. by rewrite Atoi_Itoa by word_lia. }
  unfold link_query. at_simpl. unfold parse_transport. eqs_const. rewrite Get_at. at_simpl. reflexivity.
Qed.

(** The outbound the panel's generator would be given. *)
Definition panel_out (p : LinkParams) : Outbound :=
  MkOut "" "vless" (TrimSpace (p_Host p)) (p_Port p) "tcp" "reality" (p_Name p) None
    (Some (MkReality (p_ServerName p) (or_default (p_Fingerprint p) DefaultFingerprint) (p_PublicKey p) (p_ShortID p) "" [] false)) None
    (Some (MkVLESS (p_UUID p) "none" (or_default (p_Flow p) DefaultFlow))) None None None None None None None None None.

Lemma or_default_full s d : d <> "" -> or_default s d <> "".
Proof. intros Hd. unfold or_default. destruct (eqs s "") eqn:H; [done|by apply eqs_false]. Qed.

Lemma set_if_full k s v : s <> "" -> set_if k s v = <[k := s]> v.
Proof. intros H. unfold set_if. by rewrite (proj2 (eqs_false _ _) H). Qed.

Lemma panel_values p : p_ServerName p <> "" -> p_PublicKey p <> "" -> p_ShortID p <> "" -> vless_values (panel_out p) = link_query p.
Proof.
  intros H1 H2 H3. unfold vless_values, transport_values, reality_values, tls_values, security_values, header_values, panel_out, GetVLESSSettingsOrDefault, GetTransportSettingsOrDefault, GetRealitySettingsOrDefault.
  cbn [o_Security o_Network o_VLESS o_Reality o_Transport default from_option id vl_Flow vl_Encryption tr_HeaderType noTransport r_ALPN r_SpiderX r_ShortID r_PublicKey r_Fingerprint r_ServerName].
  eqs_const. unfold set_list. rewrite bool_decide_eq_true_2 by done. change (set_if "spx" "" ?v) with v.
  repeat rewrite set_if_full by (try apply or_default_full; done).
  unfold link_query. fold (or_default (p_Fingerprint p) DefaultFingerprint) (or_default (p_Flow p) DefaultFlow).
  apply map_eq. intros k. rewrite !lookup_insert. repeat case_decide; congruence.
Qed.

(** ** What a valid state gives *)

Lemma split_on_elem sep b c : c ∈ b -> c = sep \/ exists w, w ∈ split_on sep b /\ c ∈ w.
Proof.
  induction b as [|d b IH]; [by intros H%elem_of_nil|]. cbn [split_on]. intros Hc. destruct (decide (d = sep)) as [->|Hd].
  - apply elem_of_cons in Hc as [->|Hc]; [by left|]. destruct (IH Hc) as [->|(w & Hw & Hcw)]; [by left|]. right. exists w. split; [by right|done].
  - destruct (split_on sep b) as [|w ws]; apply elem_of_cons in Hc as [->|Hc].
    + right. exists [d]. split; by left.
    + destruct (IH Hc) as [->|(w & Hw & _)]; [by left|by apply elem_of_nil in Hw].
    + right. exists (d :: w). split; by left.
    + destruct (IH Hc) as [->|(w' & Hw & Hcw)]; [by left|]. right. apply elem_of_cons in Hw as [->|Hw].
      * exists (d :: w). split; [by left|by right].
      * exists w'. split; [by right|done].
Qed.

Lemma host_ok_graphic s : host_ok s \/ six_ok s -> TrimSpace s = s /\ s <> "".
Proof.
  intros H. assert (Forall (fun c => hostport_char c = true) (to_bytes s) /\ s <> "") as [Hg Hn].
  { destruct H as [[H Hn]|(H & Hc & _)]; (split; [eapply Forall_impl; [exact H|]|]); [apply name_hostport|done|apply six_hostport|]. intros ->. by apply elem_of_nil in Hc. }
  split; [|done]. rewrite <-(of_to_bytes s) at 1. rewrite TrimSpace_graphic; [by rewrite of_to_bytes|].
  eapply Forall_impl; [exact Hg|]. intros c Hc. by apply inner_graphic, hostport_inner.
Qed.

Section valid.
Context (fold : Z -> Z) (ParseAddr : string -> option Addr) (loadCA : string -> string -> bool).

(** [netip] prints an address without a zone as IPv4 or IPv6 text. *)
Definition prints_text : Prop := forall t a, ParseAddr t = Some a -> Zone a = "" -> host_ok (Addr_String a) \/ six_ok (Addr_String a).
Context (Hprints : prints_text).

Lemma clean_host s : CleanHost ParseAddr s = Ok s -> TrimSpace s = s /\ (host_ok s \/ six_ok s).
Proof.
  intros H. assert (host_ok s \/ six_ok s) as Hok; [|split; [by apply host_ok_graphic|done]].
  unfold CleanHost in H. destruct (eqb_string (TrimSpace s) "") eqn:He; [done|]. apply bool_decide_eq_false in He.
  destruct (ParseAddr (TrimSpace s)) as [a|] eqn:Ha.
  - destruct (negb (eqb_string (Zone a) "")) eqn:Hz; cbn [orb] in H; [done|]. apply negb_false_iff, bool_decide_eq_true in Hz. destruct (HubState.IsUnspecified a); [done|].
    injection H as <-. by eapply Hprints.
  - destruct (_ <=? 253)%nat; cbn [andb negb orb] in H; [|done]. destruct (forallb validLabel _) eqn:Hl; cbn [negb orb] in H; [|done]. destruct (allDigits _); [done|].
    left. injection H as H. rewrite <-H. split; [|intros Hn; apply He; by destruct (TrimSpace s)].
    unfold HubState.ToLower. rewrite to_of_bytes. apply Forall_fmap, Forall_forall. intros c Hc. cbn.
    assert (label_char c = true \/ c = "."%char) as Hlc.
    { destruct (split_on_elem "." _ c Hc) as [->|(w & Hw & Hcw)]; [by right|left]. rewrite forallb_forall in Hl. specialize (Hl w (proj1 (list_elem_of_In _ _) Hw)).
      unfold validLabel in Hl. apply andb_true_iff in Hl as [_ Hl]. rewrite forallb_forall in Hl. apply Hl. by apply list_elem_of_In. }
    assert (forall c, implb (label_char c || bool_decide (c = "."%char)) (name_char (HubState.lower c)) = true) as Hall by (apply by_chars; vm_compute; reflexivity).
    specialize (Hall c). destruct Hlc as [Hlc| ->]; [by rewrite Hlc in Hall|done].
Qed.

Lemma valid_node n : Node_Validate ParseAddr n = Ok tt -> TrimSpace (Host n) = Host n /\ (host_ok (Host n) \/ six_ok (Host n)) /\ 1 <= EntryPort n <= 65535.
Proof.
  unfold Node_Validate. intros ([] & _ & H)%rbind_Ok. apply rbind_Ok in H as ([] & _ & H). apply rbind_Ok in H as (host & Hc & H).
  apply rbind_Ok in H as ([] & Hs & H). apply refuse_Ok, negb_false_iff, bool_decide_eq_true in Hs as ->. apply rbind_Ok in H as ([] & Hp & _).
  destruct (clean_host _ Hc) as [H1 H2]. split; [done|]. split; [done|]. unfold check_ports in Hp. cbn [foldM] in Hp.
  apply rbind_Ok in Hp as ([] & _ & Hp). apply rbind_Ok in Hp as ([] & _ & Hp). apply rbind_Ok in Hp as ([] & Hp & _). apply wrap_Ok in Hp.
  unfold ValidPort in Hp. apply refuse_Ok, orb_false_iff in Hp as [Ha%Z.ltb_ge Hb%Z.ltb_ge]. cbn in *. lia.
Qed.

Lemma valid_sub x : Sub_Validate x = Ok tt -> TrimSpace (S_Name x) <> "".
Proof.
  unfold Sub_Validate. intros ([] & _ & H)%rbind_Ok. apply rbind_Ok in H as ([] & H & _). unfold ValidName in H.
  destruct (eqb_string _ _) eqn:He; [done|]. by apply bool_decide_eq_false in He.
Qed.

Lemma FindNode_Some s id n : FindNode s id = Some n -> n ∈ Nodes s /\ N_ID n = id.
Proof.
  unfold FindNode. destruct (list_find _ _) as [[i m]|] eqn:Hf; [|done]. intros [= ->]. apply list_find_Some in Hf as (Hi & Hid & _). split; [|done].
  by eapply list_elem_of_lookup_2.
Qed.
End valid.

(** The subscription [x] is there, the node [n] is installed, and the pair [e] is
    switched on. *)
Definition switched_on (s : State) (sub node : Z) (x : Subscription) (n : Node) (e : Enablement) : Prop :=
  FindSubscription s sub = Some x /\ FindNode s node = Some n /\ State_ n = NodeRegistered /\ FindEnablement s sub node = Some e /\ Enabled e = true.
Definition has_keys (n : Node) : Prop := serverName n <> "" /\ RealityPublicKey n <> "" /\ shortIDRe (RealityShortID n) = true.
Definition link_params (x : Subscription) (n : Node) (e : Enablement) : LinkParams :=
  MkLP (ClientUUID e) (Host n) (EntryPort n) (serverName n) (RealityPublicKey n) (RealityShortID n) "" "" (S_Name x).

Lemma linkParts_cases s sub node :
  match linkParts s sub node with
  | Ok (x, e) => exists n, switched_on s sub node x n e
  | Err _ => forall x n e, ~ switched_on s sub node x n e
  end.
Proof.
  unfold linkParts, registered, switched_on. destruct (FindSubscription s sub) as [x|]; [|by intros x n e (? & _)].
  destruct (FindNode s node) as [n|]; [|by intros y n e (_ & ? & _)]. case_bool_decide as Hreg; cbn [negb]; [|by intros y m e (_ & [= <-] & ? & _)].
  destruct (FindEnablement s sub node) as [e|]; [|by intros y m e (_ & _ & _ & ? & _)]. destruct (Enabled e) eqn:He; [by exists n|]. intros y m d (_ & _ & _ & [= <-] & H). congruence.
Qed.

Lemma Link_on s sub node x n e : switched_on s sub node x n e -> Link s sub node = buildLink n x (ClientUUID e).
Proof.
  intros (Hx & Hn & Hreg & He & Hon). unfold Link, linkParts, registered. rewrite Hx, Hn, He, Hon. by rewrite bool_decide_eq_true_2.
Qed.

Lemma on_valid fold ParseAddr loadCA s sub node x n e : state_spec fold ParseAddr loadCA s -> prints_text ParseAddr -> switched_on s sub node x n e ->
  N_ID n = node /\ uuidRe (ClientUUID e) = true /\ TrimSpace (S_Name x) <> "" /\ TrimSpace (Host n) = Host n /\ (host_ok (Host n) \/ six_ok (Host n)) /\ 1 <= EntryPort n <= 65535.
Proof.
  intros Hs Hp (Hx & Hn & _ & He & _). apply FindNode_Some in Hn as [Hn Hid]. split; [done|].
  pose proof (sp_nodes _ _ _ _ Hs) as Hns. rewrite Forall_forall in Hns. destruct (Hns n Hn) as [Hv _].
  pose proof (sp_ens _ _ _ _ Hs) as Hes. rewrite Forall_forall in Hes. apply FindEnablement_Some in He as (He & _). destruct (Hes e He) as (Hev & _).
  pose proof (sp_subs _ _ _ _ Hs) as Hss. rewrite Forall_forall in Hss. apply FindSubscription_Some in Hx as [Hx _]. destruct (Hss x Hx) as [Hxv _].
  unfold En_Validate in Hev. apply rbind_Ok in Hev as ([] & _ & Hev). apply refuse_Ok, negb_false_iff in Hev. split; [by apply validUUID_Re|]. split; [by apply valid_sub|].
  by apply (valid_node ParseAddr Hp).
Qed.

Lemma running_not_stopped s sub x : NoDup (S_ID <$> Subscriptions s) -> FindSubscription s sub = Some x -> Running x = true -> sub ∉ stoppedSet s.
Proof.
  intros Hnd [Hx <-]%FindSubscription_Some Hr. unfold stoppedSet. rewrite elem_of_list_to_set, list_elem_of_fmap. intros (y & Hid & [Hf Hy]%list_elem_of_filter).
  apply list_elem_of_lookup in Hx as [i Hi]. apply list_elem_of_lookup in Hy as [j Hj]. assert (i = j) as ->; [|congruence].
  eapply NoDup_lookup; [exact Hnd|rewrite list_lookup_fmap, Hi; done|rewrite list_lookup_fmap, Hj; cbn; by rewrite Hid].
Qed.

(** Every link that is built is read as it was meant. Take any parameters from
    which BuildLink makes a link, whose address is a host name, an IPv4 or an IPv6
    address. Whatever bytes the name, the server name, the keys and the flow are made
    of: the panel's parser reads from the link the address, the port, REALITY over TCP
    with the server name, key, short id and fingerprint, the client id and flow, and
    the name, and nothing else. *)
Theorem hub_link_read (Unmarshal : bytes -> option vmess_json) (p : LinkParams) (s : string) (Hb : BuildLink p = Ok s)
    (Hhost : host_ok (TrimSpace (p_Host p)) \/ six_ok (TrimSpace (p_Host p))) : ShareLinks.Parse Unmarshal s = Ok (meant p).
Proof. by apply BuildLink_read. Qed.

(** The layout is the panel's. For a host name or an IPv4 address, a link that
    BuildLink makes is byte for byte what the panel's own generator writes for the
    same settings. (For an IPv6 address the panel leaves the brackets out, see
    [ShareLinks.six_unreadable].) *)
Theorem same_layout (Marshal : vmess_json -> bytes) (p : LinkParams) (s : string) (Hb : BuildLink p = Ok s) (Hhost : host_ok (TrimSpace (p_Host p))) :
  ShareLinks.Generate Marshal (panel_out p) = Ok s.
Proof.
  apply BuildLink_Ok in Hb as (Hu & Hh & Hport & Hsn & Hpk & Hsid & Hname & ->). destruct (uuidRe_text _ Hu) as [Hun _].
  unfold Generate, generateVLESS. change (lower_text (o_Protocol (panel_out p))) with "vless". eqs_const. cbn [panel_out GetVLESSSettingsOrDefault o_VLESS default from_option id vl_UUID].
  rewrite (proj2 (eqs_false _ _) Hun). f_equal. fold (panel_out p). rewrite panel_values by (try done; intros He; by rewrite He in Hsid).
  assert (p_Name p <> "") as Hne by (intros He; by rewrite He in Hname). rewrite link_bytes, link_is_text. cbn [panel_out o_Address o_Port].
  unfold fragment. cbn [panel_out o_Remark]. rewrite (proj2 (eqs_false _ _) Hne). unfold JoinHostPort.
  rewrite bool_decide_eq_false_2 by (eapply class_not_in; [apply Hhost|done]). by rewrite !to_bytes_app.
Qed.

(** When there is a link. In a valid state, Link gives one exactly when the
    subscription is there, the node is installed, the pair is switched on there and
    the node has its REALITY values, and it carries the node's id and name; it
    complains about the state exactly when the values are missing; and otherwise there
    is nothing to make a link of. *)
Theorem link_given (fold : Z -> Z) (ParseAddr : string -> option Addr) (loadCA : string -> string -> bool) (s : State) (sub node : Z)
    (Hs : state_spec fold ParseAddr loadCA s) (Hprints : prints_text ParseAddr) :
  match Link s sub node with
  | Ok l => exists x n e, switched_on s sub node x n e /\ has_keys n /\ l_NodeID l = node /\ l_NodeName l = N_Name n
  | Err (BadState _) => exists x n e, switched_on s sub node x n e /\ ~ has_keys n
  | Err (NoParts _) => forall x n e, ~ switched_on s sub node x n e
  end.
Proof.
  pose proof (linkParts_cases s sub node) as Hc. destruct (linkParts s sub node) as [[x e]|r] eqn:Hl.
  - destruct Hc as [n Hon]. rewrite (Link_on _ _ _ _ _ _ Hon). destruct (on_valid _ _ _ _ _ _ _ _ _ Hs Hprints Hon) as (Hid & Hu & Hname & Htrim & Hok & Hport).
    unfold buildLink. fold (link_params x n e). destruct (BuildLink (link_params x n e)) as [t|w] eqn:Hb.
    + apply BuildLink_Ok in Hb as (_ & _ & _ & H1 & H2 & H3 & _). by exists x, n, e.
    + exists x, n, e. split; [done|]. intros (H1 & H2 & H3). destruct (BuildLink_total (link_params x n e)) as [t Ht]; try done; [|congruence].
      cbn [link_params p_Host]. rewrite Htrim. by apply host_ok_graphic.
  - unfold Link. by rewrite Hl.
Qed.

(** C12. The link that is handed out works. Take any run in which no link is replaced,
    whatever is lost on the way, and a reconciliation of the node that gets through.
    Then a link that is given for a subscription that is not stopped reads, in the
    panel's parser, as the node's address, entry port and REALITY values with a client
    id, and this is the client the node's Xray serves for the subscription. *)
Theorem handed_link_served (fold : Z -> Z) (ParseAddr : string -> option Addr) (loadCA : string -> string -> bool) (pre : string)
    (Unmarshal : bytes -> option vmess_json) (w : hub) (sub node : Z) (x : Subscription) (l : Link_) (v : env) (gone wraps : string -> bool) (users : list (option UserInfo))
    (Hrun : rtc (hub_step fold ParseAddr loadCA pre True) hub0 w) (Hprints : prints_text ParseAddr) (Hlock : v_locked v = true)
    (Hnet : forall c, HubSubs.v_net v node c = Through) (Hgone : forall x, gone x = false)
    (Hlist : lists users (running w node)) (Hhonest : honest users (running w node))
    (Hx : FindSubscription (st_of w) sub = Some x) (Hruns : Running x = true)
    (Hl : Link (st_of w) sub node = Ok l) :
  let w' := reconcile pre v gone wraps (Ok users) node w in
  exists n uuid, FindNode (st_of w) node = Some n /\
    ShareLinks.Parse Unmarshal (l_Vless l) =
      Ok (MkOut (S_Name x) "vless" (Host n) (EntryPort n) "tcp" "reality" (S_Name x) None
        (Some (MkReality (serverName n) DefaultFingerprint (RealityPublicKey n) (RealityShortID n) "" [] true)) (Some noTransport)
        (Some (MkVLESS uuid "none" DefaultFlow)) None None None None None None None None None) /\
    running w' node !! SubscriptionEmail sub = Some uuid.
Proof.
  intros w'. pose proof (hub_run_ok _ _ _ _ _ w Hrun) as Hw. destruct (reconcile_serves fold ParseAddr loadCA pre w node v gone wraps users) as [_ Hserves]; [done..|].
  pose proof (linkParts_cases (st_of w) sub node) as Hc. unfold Link in Hl. destruct (linkParts (st_of w) sub node) as [[y e]|r]; [|done]. destruct Hc as [n Hon].
  pose proof Hon as (Hy & Hn & _ & He & Hen). assert (y = x) as -> by congruence. rewrite Hn in Hl.
  destruct (on_valid _ _ _ _ _ _ _ _ _ (ho_spec _ _ _ _ w Hw) Hprints Hon) as (_ & _ & _ & Htrim & Hok & _).
  unfold buildLink in Hl. fold (link_params x n e) in Hl. destruct (BuildLink (link_params x n e)) as [t|] eqn:Hb; [|done]. injection Hl as <-. cbn [l_Vless].
  exists n, (ClientUUID e). split; [done|]. split.
  - rewrite (BuildLink_read Unmarshal _ _ Hb) by (cbn [link_params p_Host]; by rewrite Htrim). unfold meant. cbn [link_params p_Host]. by rewrite Htrim.
  - apply FindEnablement_Some in He as (Hin & Hes & Hed). destruct (en_ids _ _ _ _ w e Hw Hin) as (Hsub & _).
    apply (Hserves (SubscriptionEmail sub) sub (ClientUUID e)); [apply parse_email; rewrite <-Hes; by apply (ho_ids _ _ _ _ w Hw)|].
    exists e. split; [|done]. split; [done|]. split; [done|]. split; [done|]. rewrite Hes. apply (running_not_stopped _ _ x); [apply (sp_sub_ids _ _ _ _ (ho_spec _ _ _ _ w Hw))|done|done].
Qed.

(** ** Examples *)

Definition demo_params (host : string) : LinkParams :=
  MkLP "0b5a3c1e-9d1f-4f6a-8a53-0c2f3b1d7e11" host 443 "www.example.org" "PBK" "a1b2" "" "" "Ali & co".

Example demo_hub_link : BuildLink (demo_params " h.example ") =
  Ok "vless://0b5a3c1e-9d1f-4f6a-8a53-0c2f3b1d7e11@h.example:443?encryption=none&flow=xtls-rprx-vision&fp=chrome&pbk=PBK&security=reality&sid=a1b2&sni=www.example.org&type=tcp#Ali%20&%20co".
Proof. vm_compute. reflexivity. Qed.

(** An IPv6 address, which the panel's generator would have written without brackets. *)
Lemma hub_link_read_witness : exists s, BuildLink (demo_params "2001:db8::1") = Ok s /\ Par s = Ok (meant (demo_params "2001:db8::1")).
Proof.
  eexists. split; [vm_compute; reflexivity|]. apply (hub_link_read no_unjson (demo_params "2001:db8::1")); [vm_compute; reflexivity|]. right. split.
  - repeat (apply Forall_cons; split; [vm_compute; reflexivity|]). apply Forall_nil. exact I.
  - split; [apply (bool_decide_unpack _); vm_compute; exact I|]. eexists. split; vm_compute; reflexivity.
Defined.

Lemma same_layout_witness : exists s, BuildLink (demo_params "h.example") = Ok s /\ Gen (panel_out (demo_params "h.example")) = Ok s.
Proof.
  eexists. split; [vm_compute; reflexivity|]. apply (same_layout no_json (demo_params "h.example")); [vm_compute; reflexivity|]. split; [|discriminate].
  repeat (apply Forall_cons; split; [vm_compute; reflexivity|]). apply Forall_nil. exact I.
Defined.

Lemma no_addresses : prints_text demo_parse.
Proof. intros t a Ha. discriminate Ha. Qed.

(** A node with its REALITY values, and a subscription whose client was lost on the way. *)
Definition keyed_node : Node :=
  MkNode 0 "Frankfurt" "vps.example.org" 22 "root" 9090 443 "amd64" NodeRegistered (10 ^ 18) "" "www.example.org" "PBK" "a1b2" "" "" ""
    zeroTime zeroTime "" "0b5a3c1e-9d1f-4f6a-8a53-0c2f3b1d7e11" noFailure.
Definition link_hub1 : hub := (update demo_fold demo_parse demo_ca (demo_env old_id through) (fun s => rbind (fun r => Ok r.1) (AddNode demo_parse s keyed_node)) hub0).2.
Definition link_hub2 : hub := (CreateSubscription demo_fold demo_parse demo_ca "" (demo_env old_id (fun _ => LostCall "deadline exceeded")) "Ali" [1] 0 zeroTime link_hub1).2.

Lemma link_hub2_run exact : rtc (hub_step demo_fold demo_parse demo_ca "" exact) hub0 link_hub2.
Proof.
  eapply rtc_l; [apply (hs_edit _ _ _ _ _ (demo_env old_id through)) with (edit := fun s => rbind (fun r => Ok r.1) (AddNode demo_parse s keyed_node))|].
  - intros s s' ([s1 n1] & H & [= <-])%rbind_Ok. by eapply AddNode_keeps.
  - apply rtc_once, (hs_create _ _ _ _ _ (demo_env old_id (fun _ => LostCall "deadline exceeded")) "Ali" [1] 0 zeroTime link_hub1). vm_compute. reflexivity.
Qed.

Lemma link_hub2_spec : state_spec demo_fold demo_parse demo_ca (st_of link_hub2).
Proof. apply (ho_spec _ _ _ True). apply (hub_run_ok _ _ _ "" _ _ (link_hub2_run True)). Qed.

Definition link_of (w : hub) : option Link_ := match Link (st_of w) 1 1 with Ok l => Some l | Err _ => None end.

Lemma link_given_witness : exists l, Link (st_of link_hub2) 1 1 = Ok l /\ exists n, FindNode (st_of link_hub2) 1 = Some n /\ has_keys n.
Proof.
  pose proof (link_given demo_fold demo_parse demo_ca (st_of link_hub2) 1 1 link_hub2_spec no_addresses) as H.
  assert (is_Some (link_of link_hub2)) as Hl by (vm_compute; eexists; reflexivity). unfold link_of in Hl. destruct (Link (st_of link_hub2) 1 1) as [l|]; [|destruct Hl as [? Hl]; discriminate Hl].
  exists l. split; [reflexivity|]. destruct H as (x & n & e & (_ & Hn & _) & Hk & _). exists n. split; [exact Hn|exact Hk].
Defined.

(** The client that was lost is there after a reconciliation, and its id is the link's. *)
Lemma handed_link_served_witness : exists l uuid,
  Link (st_of link_hub2) 1 1 = Ok l /\ running link_hub2 1 !! "sub-1@remote-nodes" = None /\
  (match Par (l_Vless l) with Ok o => vl_UUID <$> o_VLESS o | Err _ => None end) = Some uuid /\
  running (reconcile "" (demo_env old_id through) (fun _ => false) (fun _ => false) (Ok []) 1 link_hub2) 1 !! "sub-1@remote-nodes" = Some uuid.
Proof.
  assert (is_Some (link_of link_hub2)) as Hl by (vm_compute; eexists; reflexivity). unfold link_of in Hl. destruct (Link (st_of link_hub2) 1 1) as [l|] eqn:Hlink; [|destruct Hl as [? Hl]; discriminate Hl].
  assert (Running <$> FindSubscription (st_of link_hub2) 1 = Some true) as Hr by (vm_compute; reflexivity).
  destruct (FindSubscription (st_of link_hub2) 1) as [x|] eqn:Hx; [|discriminate Hr]. injection Hr as Hr.
  destruct (handed_link_served demo_fold demo_parse demo_ca "" no_unjson link_hub2 1 1 x l (demo_env old_id through) (fun _ => false) (fun _ => false) []) as (n & uuid & _ & Hp & Hserved).
  - apply link_hub2_run.
  - apply no_addresses.
  - reflexivity.
  - reflexivity.
  - reflexivity.
  - intros y. assert (running link_hub2 1 = ∅) as -> by (apply (bool_decide_unpack _); vm_compute; exact I). reflexivity.
  - intros y u Hy. discriminate Hy.
  - exact Hx.
  - exact Hr.
  - exact Hlink.
  - exists l, uuid. split; [reflexivity|]. split; [vm_compute; reflexivity|]. split; [rewrite Hp; reflexivity|exact Hserved].
Defined.
