(* ===== verification/NodeCfg.v ===== *)
(** * A node's Xray config

    internal/remotenodes/nodecfg (config.go, nodecfg.go, validate.go, private.go) and
    inputFor and bridgeOf of internal/remotenodes/manager: what the hub pushes to a
    node, from the state. The list of domestic ranges that is built in, encoding/json
    and the text of an IPv6 prefix are parameters; Xray's router is one too, with its
    documented rule that the first rule that applies decides and the first outbound
    takes what no rule does. Lower case is that of ASCII.

    Theorems: what is accepted is an input with no part that clashes with another
    ([input_reflects]); a config's parts fit each other ([config_fits]); what comes in
    at the entry leaves blocked, directly or into the tunnel, by its address alone
    ([node_confined]); a valid state's clients are never what a config is refused for,
    and they are the ones a push is modelled to leave on the node
    ([state_config_builds]). *)

From S2P Require Import Prelude GoString GoUnicode GoNetip GoUrl ShareLinks Emails HubState HubStore HubLimits BridgeSpec BridgeBuild HubClients HubSubs.

Definition EntryTag : string := "entry".
Definition Flow : string := "xtls-rprx-vision".
Definition DefaultAPIPort : Z := 10085.

Record Bridge := MkBridge { br_UUID : string; br_Email : string; br_ReverseTag : string }.
Record Input := MkInput {
  i_EntryPort : Z; i_RealityDest : string; i_ServerNames : list string; i_PrivateKey : string; i_ShortIDs : list string;
  i_Clients : list Client; i_Bridge : Bridge; i_APIPort : Z; i_LogLevel : string; i_DomesticCIDRs : list string
}.

Definition apiPort (i : Input) : Z := if i_APIPort i =? 0 then DefaultAPIPort else i_APIPort i.
Definition lower_ascii (s : string) : string := of_bytes (HubState.lower <$> to_bytes s).
Definition logLevel (i : Input) : string := if bool_decide (i_LogLevel i = "") then "warning" else lower_ascii (i_LogLevel i).

(** ** Checking: [validate.go] *)

Inductive cfg_error :=
| BadEntryPort | BadAPIPort | SamePort | BadDest | NoServerName | BadServerName (name : string) | BadKey | NoShortID | BadShortID (id : string)
| BadUUID (who : nat) | BadEmailOf (who : nat) | UUIDTwice (who : nat) | EmailTwice (who : nat) | BadTag | BadLevel | BadRange (s : string) | MappedRange (s : string)
| CantEncode (why : string).

Definition validPort (p : Z) : bool := (1 <=? p) && (p <=? 65535).

Definition label_ok (l : bytes) : bool :=
  negb (bool_decide (l = [])) && (length l <=? 63)%nat && negb (bool_decide (head l = Some "-"%char)) && negb (bool_decide (last l = Some "-"%char)) &&
  forallb (fun c => alnum c || one_of "-_" c) l.
Definition validName (s : string) : bool := negb (bool_decide (s = "")) && (length (to_bytes s) <=? 253)%nat && forallb label_ok (split_on "." (to_bytes s)).

Definition validDest (dest : string) : bool :=
  match SplitHostPort dest with
  | None => false
  | Some (host, port) =>
      negb (bool_decide (host = "")) && match Atoi port with Some p => validPort p | None => false end &&
      (match GoNetip.ParseAddr host with Some _ => true | None => false end || validName host)
  end.

Definition isHex (l : bytes) : bool := forallb hexd l.
Definition validShortID (s : string) : bool :=
  let l := to_bytes s in negb (bool_decide (l = [])) && (length l <=? 16)%nat && Nat.even (length l) && isHex l.

Definition uuid_pos (ic : nat * ascii) : bool := if bool_decide (ic.1 ∈ [8; 13; 18; 23]%nat) then bool_decide (ic.2 = "-"%char) else hexd ic.2.
Definition validUUID (s : string) : bool := let l := to_bytes s in (length l =? 36)%nat && forallb uuid_pos (imap pair l).

Definition contains (part l : bytes) : bool := existsb (fun i => bool_decide (list.take (length part) (drop i l) = part)) (seq 0 (length l)).
Definition validEmail (s : string) : bool :=
  let l := to_bytes s in
  negb (bool_decide (l = [])) && (length l <=? 255)%nat && negb (contains (to_bytes ">>>") l) && forallb (fun c => between 33 126 (code c)) l.

Definition apiTag : string := "api".
Definition directTag : string := "direct".
Definition blockedTag : string := "blocked".
Definition reservedTags : list string := [apiTag; EntryTag; directTag; blockedTag].
Definition validTag (s : string) : bool :=
  let l := to_bytes s in
  negb (bool_decide (l = [])) && (length l <=? 64)%nat && negb (bool_decide (s ∈ reservedTags)) &&
  match l with c :: l => alnum c && forallb (fun c => alnum c || one_of "._-" c) l | [] => false end.

(** The clients one by one, and what was seen of ids and emails. *)
Definition seen : Type := gset string * gset string.
Definition check_client (who : nat) (id email : string) (s : seen) : result cfg_error seen :=
  (refuse (negb (validUUID id)) (BadUUID who) ;;~
   refuse (negb (validEmail email)) (BadEmailOf who) ;;~
   refuse (bool_decide (lower_ascii id ∈ s.1)) (UUIDTwice who) ;;~
   refuse (bool_decide (lower_ascii email ∈ s.2)) (EmailTwice who) ;;~
   Ok ({[lower_ascii id]} ∪ s.1, {[lower_ascii email]} ∪ s.2))%go.

Fixpoint check_clients (who : nat) (l : list Client) (s : seen) : result cfg_error seen :=
  match l with [] => Ok s | c :: l => rbind (check_clients (S who) l) (check_client who (cl_UUID c) (cl_Email c) s) end.

Definition validate (i : Input) : result cfg_error unit :=
  (refuse (negb (validPort (i_EntryPort i))) BadEntryPort ;;~
   refuse (negb (validPort (apiPort i))) BadAPIPort ;;~
   refuse (apiPort i =? i_EntryPort i) SamePort ;;~
   refuse (negb (validDest (i_RealityDest i))) BadDest ;;~
   refuse (bool_decide (i_ServerNames i = [])) NoServerName ;;~
   foldM (fun _ n => refuse (negb (validName n)) (BadServerName n)) tt (i_ServerNames i) ;;~
   refuse (negb (key32 (i_PrivateKey i))) BadKey ;;~
   refuse (bool_decide (i_ShortIDs i = [])) NoShortID ;;~
   foldM (fun _ s => refuse (negb (validShortID s)) (BadShortID s)) tt (i_ShortIDs i) ;;~
   s <~ check_clients 1 (i_Clients i) (∅, ∅) ;;
   check_client 0 (br_UUID (i_Bridge i)) (br_Email (i_Bridge i)) s ;;~
   refuse (negb (validTag (br_ReverseTag (i_Bridge i)))) BadTag ;;~
   refuse (negb (bool_decide (logLevel i ∈ ["debug"; "info"; "warning"; "error"; "none"]))) BadLevel)%go.

(** ** The config: [config.go] *)

Record vlessClient := MkVC { vc_ID : string; vc_Flow : string; vc_Email : string; vc_Level : Z; vc_Reverse : option string }.
Record rule := MkRule { ru_Type : string; ru_RuleTag : string; ru_InboundTag : list string; ru_IP : list string; ru_OutboundTag : string }.
Record reality := MkRealityCfg { re_Show : bool; re_Dest : string; re_ServerNames : list string; re_PrivateKey : string; re_ShortIDs : list string }.
Record stream := MkStream { sm_Network : string; sm_Security : string; sm_Reality : reality }.
Record sniffing := MkSniffing { sf_Enabled : bool; sf_DestOverride : list string; sf_MetadataOnly : bool; sf_RouteOnly : bool }.
Inductive in_settings := Dokodemo (address : string) | Vless (clients : list vlessClient) (decryption : string).
Record inbound := MkInb { ib_Tag : string; ib_Listen : string; ib_Port : Z; ib_Protocol : string; ib_Settings : in_settings; ib_Stream : option stream; ib_Sniffing : option sniffing }.
Inductive out_settings := Blackhole (response : string) | Freedom.
Record outbound := MkOutb { ob_Tag : string; ob_Protocol : string; ob_Settings : out_settings }.
Record config := MkConfig {
  c_LogLevel : string; c_Access : string; c_DNSLog : bool; c_APITag : string; c_Services : list string; c_DomainStrategy : string; c_Rules : list rule;
  c_UserStats : bool * bool * bool; c_SystemStats : bool * bool * bool * bool; c_Inbounds : list inbound; c_Outbounds : list outbound
}.

Definition privateRanges : list string :=
  ["0.0.0.0/8"; "10.0.0.0/8"; "100.64.0.0/10"; "127.0.0.0/8"; "169.254.0.0/16"; "172.16.0.0/12"; "192.0.0.0/24"; "192.0.2.0/24"; "192.88.99.0/24"; "192.168.0.0/16";
   "198.18.0.0/15"; "198.51.100.0/24"; "203.0.113.0/24"; "224.0.0.0/3"; "::/127"; "fc00::/7"; "fe80::/10"; "ff00::/8"].

Definition entry_clients (i : Input) : list vlessClient :=
  ((fun c => MkVC (cl_UUID c) Flow (cl_Email c) 0 None) <$> i_Clients i) ++
  [MkVC (br_UUID (i_Bridge i)) Flow (br_Email (i_Bridge i)) 0 (Some (br_ReverseTag (i_Bridge i)))].

Definition assemble (i : Input) (domestic : list string) : config :=
  MkConfig (logLevel i) "none" false apiTag ["HandlerService"; "LoggerService"; "StatsService"; "RoutingService"] "IPOnDemand"
    [MkRule "field" "" [apiTag] [] apiTag;
     MkRule "field" "block-private" [] privateRanges blockedTag;
     MkRule "field" "domestic-direct" [] domestic directTag;
     MkRule "field" "to-tunnel" [EntryTag] [] (br_ReverseTag (i_Bridge i))]
    (true, true, true) (true, true, true, true)
    [MkInb apiTag "127.0.0.1" (apiPort i) "dokodemo-door" (Dokodemo "127.0.0.1") None None;
     MkInb EntryTag "0.0.0.0" (i_EntryPort i) "vless" (Vless (entry_clients i) "none")
       (Some (MkStream "tcp" "reality" (MkRealityCfg false (i_RealityDest i) (i_ServerNames i) (i_PrivateKey i) (i_ShortIDs i))))
       (Some (MkSniffing true ["http"; "tls"] false false))]
    [MkOutb blockedTag "blackhole" (Blackhole "none"); MkOutb directTag "freedom" Freedom].

Section build.
(** The built-in list, how an address range is printed, and the JSON of a config. *)
Context (DomesticCIDRs : list string) (PrefixString : prefix -> string) (Marshal : config -> result string bytes).

Definition domestic_one (s : string) : result cfg_error string :=
  match ParsePrefix s with
  | None => Err (BadRange s)
  | Some p => if Is4In6 (pf_ip p) then Err (MappedRange s) else Ok (PrefixString (Masked p))
  end.
Definition domestic (i : Input) : result cfg_error (list string) :=
  match i_DomesticCIDRs i with
  | [] => Ok DomesticCIDRs
  | l => foldM (fun out s => rbind (fun t => Ok (out ++ [t])) (domestic_one s)) [] l
  end.

Definition Build (i : Input) : result cfg_error bytes :=
  (validate i ;;~
   d <~ domestic i ;;
   match Marshal (assemble i d) with Ok b => Ok b | Err e => Err (CantEncode e) end)%go.
End build.

(** ** From the state: [manager/config.go] and [settings.go] *)

Definition bridgeOf (n : Node) : Bridge := MkBridge (BridgeUUID n) (BridgeEmail (N_ID n)) (BridgeReverseTag (N_ID n)).

Inductive input_refusal := NoKey | NoBridge.
Definition inputFor (s : State) (n : Node) : result input_refusal Input :=
  if bool_decide (RealityPrivateKey n = "") then Err NoKey else
  if bool_decide (BridgeUUID n = "") then Err NoBridge else
  Ok (MkInput (EntryPort n) (RealityTarget n) [serverName n] (RealityPrivateKey n) [RealityShortID n] (clientsOf s (N_ID n)) (bridgeOf n) 0 "" []).

(** ** What is accepted *)

Definition bridge_client (b : Bridge) : Client := MkClient (br_Email b) (br_UUID b).
Definition lid (c : Client) : string := lower_ascii (cl_UUID c).
Definition lemail (c : Client) : string := lower_ascii (cl_Email c).

(** Ids and emails are well formed, and no two of them are the same but for case. *)
Definition clients_good (l : list Client) : Prop :=
  Forall (fun c => validUUID (cl_UUID c) = true /\ validEmail (cl_Email c) = true) l /\ NoDup (lid <$> l) /\ NoDup (lemail <$> l).

Record input_ok (i : Input) : Prop := {
  io_ports : validPort (i_EntryPort i) = true /\ validPort (apiPort i) = true /\ apiPort i <> i_EntryPort i;
  io_dest : validDest (i_RealityDest i) = true;
  io_names : i_ServerNames i <> [] /\ Forall (fun n => validName n = true) (i_ServerNames i);
  io_key : key32 (i_PrivateKey i) = true;
  io_ids : i_ShortIDs i <> [] /\ Forall (fun s => validShortID s = true) (i_ShortIDs i);
  io_clients : clients_good (i_Clients i ++ [bridge_client (i_Bridge i)]);
  io_tag : validTag (br_ReverseTag (i_Bridge i)) = true;
  io_level : logLevel i ∈ ["debug"; "info"; "warning"; "error"; "none"]
}.

Lemma check_client_Ok who c (s s' : seen) : check_client who (cl_UUID c) (cl_Email c) s = Ok s' <->
  (validUUID (cl_UUID c) = true /\ validEmail (cl_Email c) = true) /\ lid c ∉ s.1 /\ lemail c ∉ s.2 /\ s' = ({[lid c]} ∪ s.1, {[lemail c]} ∪ s.2).
Proof.
  unfold check_client, lid, lemail. rewrite !rbind_Ok. setoid_rewrite refuse_Ok. setoid_rewrite rbind_Ok. setoid_rewrite refuse_Ok. setoid_rewrite rbind_Ok.
  setoid_rewrite refuse_Ok. setoid_rewrite rbind_Ok. setoid_rewrite refuse_Ok. setoid_rewrite negb_false_iff. setoid_rewrite bool_decide_eq_false. split.
  - intros ([] & H1 & [] & H2 & [] & H3 & [] & H4 & [= <-]). done.
  - intros ((H1 & H2) & H3 & H4 & ->). exists tt. split; [done|]. exists tt. split; [done|]. exists tt. split; [done|]. by exists tt.
Qed.

Lemma check_clients_Ok who l (s s' : seen) : check_clients who l s = Ok s' <->
  clients_good l /\ (forall c, c ∈ l -> lid c ∉ s.1 /\ lemail c ∉ s.2) /\ s' = (list_to_set (lid <$> l) ∪ s.1, list_to_set (lemail <$> l) ∪ s.2).
Proof.
  unfold clients_good. revert who s s'. induction l as [|c l IH]; intros who s s'; cbn [check_clients fmap list_fmap list_to_set].
  - split.
    + intros [= <-]. split; [repeat constructor|]. split; [by intros c H%elem_of_nil|]. destruct s; cbn. f_equal; set_solver.
    + intros (_ & _ & ->). destruct s; cbn. do 2 f_equal; set_solver.
  - rewrite rbind_Ok. setoid_rewrite check_client_Ok. setoid_rewrite IH. rewrite !NoDup_cons, Forall_cons. split.
    + intros (s1 & (Hc & H1 & H2 & ->) & (Hl & Hn1 & Hn2) & Hfresh & ->). cbn [fst snd] in *.
      assert (lid c ∉ lid <$> l) as Hm1.
      { intros (d & He & Hd)%list_elem_of_fmap. destruct (Hfresh d Hd) as [H _]. apply H. rewrite <-He. set_solver. }
      assert (lemail c ∉ lemail <$> l) as Hm2.
      { intros (d & He & Hd)%list_elem_of_fmap. destruct (Hfresh d Hd) as [_ H]. apply H. rewrite <-He. set_solver. }
      split; [done|]. split; [|f_equal; set_solver]. intros d [->|Hd]%elem_of_cons; [done|]. destruct (Hfresh d Hd) as [H3 H4]. split; set_solver.
    + intros (([Hc Hl] & [Hm1 Hn1] & [Hm2 Hn2]) & Hfresh & ->). exists ({[lid c]} ∪ s.1, {[lemail c]} ∪ s.2). cbn [fst snd]. destruct (Hfresh c ltac:(left)) as [H1 H2]. split; [done|].
      split; [done|]. split; [|f_equal; set_solver]. intros d Hd. destruct (Hfresh d ltac:(by right)) as [H3 H4]. split.
      * rewrite not_elem_of_union, not_elem_of_singleton. split; [|done]. intros He. apply Hm1. rewrite <-He. by apply list_elem_of_fmap_2.
      * rewrite not_elem_of_union, not_elem_of_singleton. split; [|done]. intros He. apply Hm2. rewrite <-He. by apply list_elem_of_fmap_2.
Qed.

(** The bridge comes after the clients. *)
Lemma clients_then_bridge l b : (exists s, check_clients 1 l (∅, ∅) = Ok s /\ exists s', check_client 0 (br_UUID b) (br_Email b) s = Ok s') <-> clients_good (l ++ [bridge_client b]).
Proof.
  setoid_rewrite check_clients_Ok. change (br_UUID b) with (cl_UUID (bridge_client b)). change (br_Email b) with (cl_Email (bridge_client b)). setoid_rewrite check_client_Ok.
  unfold clients_good. rewrite Forall_app, !fmap_app, !NoDup_app. cbn [fmap list_fmap]. rewrite Forall_singleton. split.
  - intros (s & ((Hl & Hn1 & Hn2) & _ & ->) & s' & Hb & H1 & H2 & _). cbn [fst snd] in *. split; [done|]. split_and!; try done; try apply NoDup_singleton.
    + intros x Hx ->%list_elem_of_singleton. apply H1. set_solver.
    + intros x Hx ->%list_elem_of_singleton. apply H2. set_solver.
  - intros ((Hl & Hb) & (Hn1 & H1 & _) & (Hn2 & H2 & _)). eexists. split; [split; [done|]; split; [intros c _; cbn; set_solver|done]|]. eexists. cbn [fst snd]. split; [done|]. split_and!; [| |done].
    + rewrite union_empty_r_L, elem_of_list_to_set. intros H. apply (H1 _ H). by left.
    + rewrite union_empty_r_L, elem_of_list_to_set. intros H. apply (H2 _ H). by left.
Qed.

Lemma foldM_refuse {A E} (bad : A -> bool) (e : A -> E) l : foldM (fun _ a => refuse (bad a) (e a)) tt l = Ok tt <-> Forall (fun a => bad a = false) l.
Proof.
  induction l as [|a l IH]; cbn [foldM]; [by split|]. rewrite rbind_Ok, Forall_cons, <-IH. setoid_rewrite refuse_Ok. split; [by intros ([] & H1 & H2)|]. intros [H1 H2]. by exists tt.
Qed.

Lemma rbind_unit_Ok {E B} (r : result E unit) (k : result E B) b : rbind (fun _ => k) r = Ok b <-> r = Ok tt /\ k = Ok b.
Proof. rewrite rbind_Ok. split; [by intros ([] & H)|]. intros H. by exists tt. Qed.

Lemma Forall_negb {A} (f : A -> bool) l : Forall (fun a => negb (f a) = false) l <-> Forall (fun a => f a = true) l.
Proof. split; intros H; (eapply Forall_impl; [exact H|]); intros a; by rewrite negb_false_iff. Qed.

Lemma rbind_twice_Ok {E A B} (f : A -> result E B) (r : result E A) (k : result E unit) :
  rbind (fun a => rbind (fun _ => k) (f a)) r = Ok tt <-> (exists a, r = Ok a /\ exists b, f a = Ok b) /\ k = Ok tt.
Proof.
  rewrite rbind_Ok. setoid_rewrite rbind_Ok. split; [intros (a & Ha & b & Hb & Hk); eauto|]. intros ((a & Ha & b & Hb) & Hk). eauto.
Qed.

Lemma validate_Ok i : validate i = Ok tt <-> input_ok i.
Proof.
  unfold validate. rewrite !rbind_unit_Ok, rbind_twice_Ok, clients_then_bridge, rbind_unit_Ok.
  rewrite !refuse_Ok, !negb_false_iff, !bool_decide_eq_false, bool_decide_eq_true, Z.eqb_neq, !foldM_refuse, !Forall_negb. split.
  - intros (H1 & H2 & H3 & H4 & H5 & H6 & H7 & H8 & H9 & H10 & H11 & H12). split; by split_and?.
  - intros [(H1 & H2 & H3) H4 [H5 H6] H7 [H8 H9] H10 H11 H12]. split_and!; done.
Qed.

(** What is accepted is well formed. The validation accepts an input exactly when
    its ports are ports and differ, its REALITY values have their forms, its log level
    and reverse tag can be used, and among the clients and the bridge no two ids and
    no two emails are the same, not even but for case. *)
Theorem input_reflects (i : Input) : validate i = Ok tt <-> input_ok i.
Proof. apply validate_Ok. Qed.

(** ** A config's parts *)

Definition clients_in (b : inbound) : list vlessClient := match ib_Settings b with Vless l _ => l | Dokodemo _ => [] end.
Definition all_clients (c : config) : list vlessClient := c_Inbounds c ≫= clients_in.
Definition reverse_tags (c : config) : list string := omap vc_Reverse (all_clients c).
Definition destinations (c : config) : list string := c_APITag c :: (ob_Tag <$> c_Outbounds c) ++ reverse_tags c.

(** Every place a rule sends to is there once, every inbound a rule names is there
    once, inbounds have ports of their own, every client has Vision's flow and a name
    and an id of its own, and only the last has a reverse tag. *)
Record config_good (c : config) : Prop := {
  cg_dest : NoDup (destinations c);
  cg_inbounds : NoDup (ib_Tag <$> c_Inbounds c) /\ NoDup (ib_Port <$> c_Inbounds c);
  cg_rules : Forall (fun r => ru_OutboundTag r ∈ destinations c /\ Forall (fun t => t ∈ ib_Tag <$> c_Inbounds c) (ru_InboundTag r)) (c_Rules c);
  cg_clients : Forall (fun v => vc_Flow v = Flow /\ vc_Level v = 0) (all_clients c) /\
               NoDup ((fun v => lower_ascii (vc_ID v)) <$> all_clients c) /\ NoDup ((fun v => lower_ascii (vc_Email v)) <$> all_clients c);
  cg_reverse : exists l v tag, all_clients c = l ++ [v] /\ vc_Reverse v = Some tag /\ Forall (fun v => vc_Reverse v = None) l
}.

Lemma assemble_clients i d : all_clients (assemble i d) = entry_clients i.
Proof. unfold all_clients. cbn. by rewrite app_nil_r. Qed.

Lemma assemble_reverse i d : reverse_tags (assemble i d) = [br_ReverseTag (i_Bridge i)].
Proof.
  unfold reverse_tags. rewrite assemble_clients. unfold entry_clients. rewrite omap_app. cbn. assert (omap vc_Reverse ((fun c => MkVC (cl_UUID c) Flow (cl_Email c) 0 None) <$> i_Clients i) = []) as ->; [|done].
  induction (i_Clients i); [done|]. by cbn.
Qed.

Lemma entry_names (f : string -> string) i : ((fun v => f (vc_ID v)) <$> entry_clients i) = (fun c => f (cl_UUID c)) <$> (i_Clients i ++ [bridge_client (i_Bridge i)]).
Proof. unfold entry_clients. by rewrite !fmap_app, <-list_fmap_compose. Qed.
Lemma entry_emails (f : string -> string) i : ((fun v => f (vc_Email v)) <$> entry_clients i) = (fun c => f (cl_Email c)) <$> (i_Clients i ++ [bridge_client (i_Bridge i)]).
Proof. unfold entry_clients. by rewrite !fmap_app, <-list_fmap_compose. Qed.

Lemma tag_not_reserved tag : validTag tag = true -> tag ∉ reservedTags.
Proof. unfold validTag. intros H. apply andb_true_iff in H as [H _]. apply andb_true_iff in H as [_ H]. by apply negb_true_iff, bool_decide_eq_false in H. Qed.

(** A list of different things has no duplicates. *)
Ltac nodup_list :=
  repeat (apply NoDup_cons; split); try apply NoDup_nil_2; rewrite ?not_elem_of_cons; repeat split;
  try apply not_elem_of_nil; try done; intros ?; congruence.

Lemma assemble_good i d : input_ok i -> config_good (assemble i d).
Proof.
  intros [(H1 & H2 & H3) _ _ _ _ (_ & Hids & Hemails) Htag _]. apply tag_not_reserved in Htag. unfold reservedTags in Htag. rewrite !not_elem_of_cons in Htag. destruct Htag as (T1 & T2 & T3 & T4 & _).
  assert (destinations (assemble i d) = [apiTag; blockedTag; directTag; br_ReverseTag (i_Bridge i)]) as Hdest by (unfold destinations; by rewrite assemble_reverse).
  split.
  - rewrite Hdest. nodup_list.
  - split; cbn; nodup_list.
  - rewrite Hdest. cbn. repeat (apply Forall_cons; split); try apply Forall_nil_2; (split; [set_solver|]); cbn; repeat (apply Forall_cons; split); try apply Forall_nil_2; set_solver.
  - rewrite assemble_clients. split; [|split].
    + unfold entry_clients. apply Forall_app. split; [|by repeat constructor]. apply Forall_fmap. by apply Forall_true.
    + by rewrite (entry_names lower_ascii).
    + by rewrite (entry_emails lower_ascii).
  - rewrite assemble_clients. eexists _, _, _. split; [done|]. split; [done|]. apply Forall_fmap. by apply Forall_true.
Qed.

(** A config's parts fit. Whatever Build gives is the JSON of a config in which
    every rule leads somewhere that exists, once, and names inbounds that exist; no two
    inbounds share a tag or a port, no two clients an id or an email; and only the
    bridge's client, the last, can register the tunnel. *)
Theorem config_fits (DomesticCIDRs : list string) (PrefixString : prefix -> string) (Marshal : config -> result string bytes) (i : Input) (b : bytes)
    (Hb : Build DomesticCIDRs PrefixString Marshal i = Ok b) : exists c, Marshal c = Ok b /\ config_good c.
Proof.
  unfold Build in Hb. apply rbind_unit_Ok in Hb as [Hv Hb]. apply rbind_Ok in Hb as (d & _ & Hm). exists (assemble i d).
  destruct (Marshal (assemble i d)) as [b'|]; [|done]. injection Hm as ->. split; [done|]. by apply assemble_good, validate_Ok.
Qed.

(** ** Where traffic goes *)

Section route.
(** Whether Xray finds an address in a range. *)
Context (inRange : string -> ipaddr -> bool).

Definition in_ranges (l : list string) (a : ipaddr) : bool := existsb (fun r => inRange r a) l.
(** All the conditions a rule has. *)
Definition rule_applies (inb : string) (ip : option ipaddr) (r : rule) : bool :=
  (bool_decide (ru_InboundTag r = []) || bool_decide (inb ∈ ru_InboundTag r)) &&
  (bool_decide (ru_IP r = []) || match ip with Some a => in_ranges (ru_IP r) a | None => false end).

(** What Xray's documentation says: the first rule that applies, or else the first
    outbound. *)
Definition documented (c : config) (inb : string) (ip : option ipaddr) : string :=
  match List.find (rule_applies inb ip) (c_Rules c) with
  | Some r => ru_OutboundTag r
  | None => match c_Outbounds c with o :: _ => ob_Tag o | [] => "" end
  end.
End route.

Lemma foldM_snoc_length {E A B} (f : A -> result E B) l : forall out d, foldM (fun out s => rbind (fun t => Ok (out ++ [t])) (f s)) out l = Ok d -> length d = (length out + length l)%nat.
Proof.
  induction l as [|s l IH]; intros out d; cbn [foldM]; [intros [= <-]; cbn; lia|]. intros (o & Ho & Hf)%rbind_Ok. apply rbind_Ok in Ho as (t & _ & [= <-]).
  apply IH in Hf. rewrite length_app in Hf. cbn in *. lia.
Qed.

Lemma domestic_nonempty D P i d : D <> [] -> domestic D P i = Ok d -> d <> [].
Proof.
  intros HD. unfold domestic. destruct (i_DomesticCIDRs i) as [|x l]; [by intros [= <-]|]. intros H%foldM_snoc_length ->. discriminate H.
Qed.

Lemma applies_inbound inRange inb ip tag t out : rule_applies inRange inb ip (MkRule "field" tag [t] [] out) = bool_decide (inb = t).
Proof.
  unfold rule_applies. cbn [ru_InboundTag ru_IP]. rewrite (bool_decide_eq_true_2 ([] = [])) by done. rewrite (bool_decide_eq_false_2 ([t] = [])) by done. cbn [orb]. rewrite andb_true_r.
  apply bool_decide_ext, list_elem_of_singleton.
Qed.
Lemma applies_range inRange inb ip tag l out : l <> [] -> rule_applies inRange inb ip (MkRule "field" tag [] l out) = match ip with Some a => in_ranges inRange l a | None => false end.
Proof. intros Hl. unfold rule_applies. cbn [ru_InboundTag ru_IP]. rewrite (bool_decide_eq_true_2 ([] = [])) by done. by rewrite (bool_decide_eq_false_2 (l = [])). Qed.


(** ** The state's clients *)

(** What emails and lower-case ids are made of. *)
Definition plain_char (c : ascii) : bool := between 33 126 (code c) && negb (HubState.is_upper c) && negb (bool_decide (c = ">"%char)).

Lemma plain_lower s : Forall (fun c => plain_char c = true) (to_bytes s) -> lower_ascii s = s.
Proof.
  intros H. unfold lower_ascii. rewrite <-(of_to_bytes s) at 2. f_equal. induction H as [|c l Hc _ IH]; [done|]. cbn. rewrite IH. f_equal.
  unfold HubState.lower. unfold plain_char in Hc. destruct (HubState.is_upper c); [|done]. by rewrite andb_false_r in Hc.
Qed.

Lemma plain_contains l : Forall (fun c => plain_char c = true) l -> contains (to_bytes ">>>") l = false.
Proof.
  intros H. unfold contains. destruct (existsb _ _) eqn:He; [|done]. apply existsb_exists in He as (i & _ & Ht%bool_decide_eq_true).
  assert (">"%char ∈ l) as Hin. { rewrite <-(take_drop i l). apply elem_of_app. right. rewrite <-(take_drop (length (to_bytes ">>>")) (drop i l)), Ht. by left. }
  rewrite Forall_forall in H. by specialize (H _ Hin).
Qed.

Lemma num_plain c : is_num c = true -> plain_char c = true.
Proof. assert (forall c, implb (is_num c) (plain_char c) = true) as H by (apply by_chars; vm_compute; reflexivity). intros Hc. specialize (H c). by rewrite Hc in H. Qed.

Lemma utoa_go_length fuel : forall n acc, (length (to_bytes (utoa_go fuel n acc)) <= fuel + length (to_bytes acc))%nat.
Proof.
  induction fuel as [|fuel IH]; intros n acc; cbn [utoa_go]; [done|].
  assert (forall d, length (to_bytes (String d acc)) = S (length (to_bytes acc))) as Hs by done.
  destruct (n <? 10); [rewrite Hs; lia|]. etransitivity; [apply IH|]. rewrite Hs. lia.
Qed.

(** An id between two plain texts. *)
Lemma id_between a b n : 0 <= n -> Forall (fun c => plain_char c = true) (to_bytes a) -> Forall (fun c => plain_char c = true) (to_bytes b) ->
  Forall (fun c => plain_char c = true) (to_bytes (a +:+ Itoa n +:+ b)) /\ (length (to_bytes (a +:+ Itoa n +:+ b)) <= length (to_bytes a) + 20 + length (to_bytes b))%nat.
Proof.
  intros Hn Ha Hb. rewrite !to_bytes_app. destruct (Itoa_nums n Hn) as [Hd _]. split.
  - apply Forall_app. split; [done|]. apply Forall_app. split; [|done]. eapply Forall_impl; [exact Hd|apply num_plain].
  - rewrite !length_app. unfold Itoa. destruct (Z.ltb_spec n 0); [lia|]. pose proof (utoa_go_length 20 n "") as H1. change (length (to_bytes "")) with 0%nat in H1. unfold utoa. lia.
Qed.

Lemma plain_email s : to_bytes s <> [] -> (length (to_bytes s) <= 255)%nat -> Forall (fun c => plain_char c = true) (to_bytes s) -> validEmail s = true /\ lower_ascii s = s.
Proof.
  intros Hn Hl Hp. split; [|by apply plain_lower]. unfold validEmail. rewrite bool_decide_eq_false_2 by done. rewrite plain_contains by done. cbn [negb andb].
  apply andb_true_iff. split; [by rewrite (proj2 (Nat.leb_le _ _))|]. apply forallb_Forall_true. eapply Forall_impl; [exact Hp|]. intros c Hc. unfold plain_char in Hc.
  by destruct (between 33 126 (code c)).
Qed.

Lemma sub_email_ok id : 0 <= id -> validEmail (SubscriptionEmail id) = true /\ lower_ascii (SubscriptionEmail id) = SubscriptionEmail id.
Proof.
  intros Hid. unfold SubscriptionEmail. destruct (id_between "sub-" "@remote-nodes" id Hid) as [Hp Hl]; [apply (bool_decide_unpack _); vm_compute; exact I..|].
  apply plain_email; [done| |done]. change (length (to_bytes "sub-")) with 4%nat in Hl. change (length (to_bytes "@remote-nodes")) with 13%nat in Hl. lia.
Qed.

Lemma bridge_email_ok id : 0 <= id -> validEmail (BridgeEmail id) = true /\ lower_ascii (BridgeEmail id) = BridgeEmail id.
Proof.
  intros Hid. unfold BridgeEmail. destruct (id_between "rvs-t" "@reverse" id Hid) as [Hp Hl]; [apply (bool_decide_unpack _); vm_compute; exact I..|].
  apply plain_email; [done| |done]. change (length (to_bytes "rvs-t")) with 5%nat in Hl. change (length (to_bytes "@reverse")) with 8%nat in Hl. lia.
Qed.

Lemma reverse_tag_ok id : 0 <= id -> validTag (BridgeReverseTag id) = true.
Proof.
  intros Hid. unfold validTag, BridgeReverseTag. rewrite to_bytes_app. set (d := to_bytes (Itoa id)). change (to_bytes "rvs-to-node-") with (["r"; "v"; "s"; "-"; "t"; "o"; "-"; "n"; "o"; "d"; "e"; "-"]%char).
  destruct (Itoa_nums id Hid) as [Hd _]. fold d in Hd. assert ((length d <= 20)%nat) as Hl.
  { unfold d, Itoa. destruct (Z.ltb_spec id 0); [lia|]. pose proof (utoa_go_length 20 id "") as H1. change (length (to_bytes "")) with 0%nat in H1. unfold utoa. lia. }
  rewrite bool_decide_eq_false_2 by done. rewrite (proj2 (Nat.leb_le _ _)) by (rewrite length_app; cbn [length]; lia).
  rewrite bool_decide_eq_false_2 by (unfold reservedTags; rewrite !not_elem_of_cons; repeat split; try done; apply not_elem_of_nil).
  cbn [app negb andb]. change (forallb ?f (?a :: ?l)) with (f a && forallb f l). apply andb_true_iff. split; [done|]. cbn [forallb andb].
  repeat (apply andb_true_iff; split; [done|]). apply forallb_Forall_true. eapply Forall_impl; [exact Hd|]. intros c Hc.
  assert (forall c, implb (is_num c) (alnum c || one_of "._-" c) = true) as H by (apply by_chars; vm_compute; reflexivity). specialize (H c). by rewrite Hc in H.
Qed.

Lemma forallb_ext_in {A} (f g : A -> bool) l : (forall a, f a = true -> g a = true) -> forallb f l = true -> forallb g l = true.
Proof. rewrite !forallb_forall. intros H Hf a Ha. by apply H, Hf. Qed.

(** The state's ids are lower case and accepted. *)
Lemma state_uuid s : HubState.validUUID s = true -> validUUID s = true /\ lower_ascii s = s.
Proof.
  unfold HubState.validUUID, validUUID. intros [Hl Hc]%andb_true_iff. rewrite Hl. cbn [andb].
  assert (forall ic, HubState.uuid_char ic.1 ic.2 = true -> uuid_pos ic = true /\ plain_char ic.2 = true) as Hpos.
  { intros [i c]. unfold HubState.uuid_char, uuid_pos. cbn [fst snd]. rewrite (bool_decide_ext (i ∈ [8; 13; 18; 23]%nat) (i = 8 \/ i = 13 \/ i = 18 \/ i = 23)%nat) by (rewrite !elem_of_cons, elem_of_nil; tauto).
    assert (forall c, implb (is_digit c || between 97 102 (code c)) (hexd c && plain_char c) = true) as H by (apply by_chars; vm_compute; reflexivity). specialize (H c).
    case_bool_decide; [intros ->%bool_decide_eq_true; split; [by apply bool_decide_eq_true_2|done]|]. intros Hc'. rewrite Hc' in H. by apply andb_true_iff in H. }
  split.
  - eapply forallb_ext_in; [|exact Hc]. intros ic Hic. by apply Hpos.
  - apply plain_lower. apply Forall_forall. intros c [i Hi]%list_elem_of_lookup. rewrite forallb_forall in Hc.
    assert (In (i, c) (imap pair (to_bytes s))) as Hin by (apply list_elem_of_In, (list_elem_of_lookup_2 _ i); by rewrite list_lookup_imap, Hi).
    specialize (Hc _ Hin). by apply (Hpos (i, c)).
Qed.

Lemma valid_bridge ParseAddr n : Node_Validate ParseAddr n = Ok tt -> BridgeUUID n = "" \/ HubState.validUUID (BridgeUUID n) = true.
Proof.
  unfold Node_Validate. intros H. repeat (let h := fresh "Hv" in apply rbind_Ok in H as (? & h & H)).
  match goal with X : refuse (negb (eqb_string (BridgeUUID n) "") && _) _ = _ |- _ => apply refuse_Ok, andb_false_iff in X as [Hp|Hp] end.
  - left. by apply negb_false_iff, bool_decide_eq_true in Hp.
  - right. by apply negb_false_iff in Hp.
Qed.

Lemma node_logins s n id : NoDup (logins s) -> n ∈ Nodes s -> BridgeUUID n <> "" -> NoDup ((cl_UUID <$> clientsOf s id) ++ [BridgeUUID n]).
Proof.
  unfold logins. intros (_ & Hd & He)%NoDup_app Hn Hb. unfold clientsOf. rewrite <-list_fmap_compose. set (on := filter _ _).
  change (cl_UUID ∘ (fun e => clientOf (SubscriptionID e) (ClientUUID e))) with ClientUUID.
  assert (Permutation (ClientUUID <$> sort_on SubscriptionID on) (ClientUUID <$> on)) as Hp by (apply fmap_Permutation, sort_on_perm).
  assert (sublist (ClientUUID <$> on) (ClientUUID <$> Enablements s)) as Hs by apply fmap_sublist, sublist_filter.
  rewrite Hp. apply NoDup_app. split; [by eapply sublist_NoDup|]. split; [|apply NoDup_singleton]. intros x Hx ->%list_elem_of_singleton.
  apply (Hd (BridgeUUID n)); [|by eapply elem_of_sublist]. unfold bridge_uuids. apply list_elem_of_omap. exists n. split; [done|].
  unfold eqb_string. by rewrite bool_decide_eq_false_2.
Qed.

(** What a node brings of its own: its port and REALITY values. *)
Definition own_ready (n : Node) : bool :=
  validPort (EntryPort n) && negb (EntryPort n =? DefaultAPIPort) && validDest (RealityTarget n) && validName (serverName n) && key32 (RealityPrivateKey n) && validShortID (RealityShortID n).

Lemma state_clients_good fold ParseAddr loadCA w n : hub_ok fold ParseAddr loadCA False w -> n ∈ Nodes (st_of w) -> 0 < N_ID n -> BridgeUUID n <> "" ->
  clients_good (clientsOf (st_of w) (N_ID n) ++ [bridge_client (bridgeOf n)]).
Proof.
  intros Hw Hn Hid Hb. pose proof (ho_spec _ _ _ _ w Hw) as Hs. pose proof (wanted_check fold ParseAddr loadCA False w (N_ID n) Hw) as Hchk.
  apply check_want_None in Hchk as (_ & Hemails & _).
  assert (HubState.validUUID (BridgeUUID n) = true) as Hbu.
  { pose proof (sp_nodes _ _ _ _ Hs) as H. rewrite Forall_forall in H. destruct (H n Hn) as [Hv _]. by destruct (valid_bridge _ _ Hv). }
  assert (forall c, c ∈ clientsOf (st_of w) (N_ID n) -> exists id, 0 <= id /\ cl_Email c = SubscriptionEmail id /\ (0 < id < 2 ^ 63) /\ HubState.validUUID (cl_UUID c) = true) as Hcl.
  { intros c (e & (Hin & _) & ->)%clientsOf_elem. destruct (en_ids _ _ _ _ w e Hw Hin) as (Hsub & _). pose proof (proj2 (ho_ids _ _ _ _ w Hw) _ Hsub) as Hr.
    exists (SubscriptionID e). split; [lia|]. split; [done|]. split; [done|]. pose proof (sp_ens _ _ _ _ Hs) as H. rewrite Forall_forall in H. destruct (H e Hin) as (Hv & _).
    unfold En_Validate in Hv. apply rbind_unit_Ok in Hv as [_ Hv]. by apply refuse_Ok, negb_false_iff in Hv. }
  assert (forall c, c ∈ clientsOf (st_of w) (N_ID n) ++ [bridge_client (bridgeOf n)] -> (validUUID (cl_UUID c) = true /\ validEmail (cl_Email c) = true) /\ lid c = cl_UUID c /\ lemail c = cl_Email c) as Hall.
  { intros c [Hc|Hc%list_elem_of_singleton]%elem_of_app.
    - destruct (Hcl c Hc) as (id & H0 & He & _ & Hu). destruct (state_uuid _ Hu) as [H1 H2]. destruct (sub_email_ok id H0) as [H3 H4]. unfold lid, lemail. rewrite He. done.
    - subst c. destruct (state_uuid _ Hbu) as [H1 H2]. destruct (bridge_email_ok (N_ID n) ltac:(lia)) as [H3 H4]. done. }
  split; [|split].
  - apply Forall_forall. intros c Hc. by apply Hall.
  - rewrite (Forall_fmap_ext_1 lid cl_UUID) by (apply Forall_forall; intros c Hc; by apply Hall). rewrite fmap_app. by apply node_logins; [apply (sp_logins _ _ _ _ Hs)|..].
  - rewrite (Forall_fmap_ext_1 lemail cl_Email) by (apply Forall_forall; intros c Hc; by apply Hall). rewrite fmap_app. apply NoDup_app. split; [done|]. split; [|apply NoDup_singleton].
    intros x (c & -> & Hc)%list_elem_of_fmap Hx%list_elem_of_singleton. destruct (Hcl c Hc) as (id & _ & He & Hr & _). cbn in Hx.
    pose proof (parse_email id Hr) as Hp. rewrite <-He, Hx, bridge_not_sub in Hp. discriminate Hp.
Qed.

(** The state's clients never spoil a config. After any run of the hub, also with
    replaced links, take a node of its state that has a private key and a bridge id. It
    has an input, which is accepted exactly when the node's own port and REALITY values
    are good; and the clients of the config made from it are those that a push is
    modelled to leave on the node. *)
Theorem state_config_builds (fold : Z -> Z) (ParseAddr : string -> option Addr) (loadCA : string -> string -> bool) (pre : string) (w : hub) (n : Node)
    (Hrun : rtc (hub_step fold ParseAddr loadCA pre False) hub0 w) (Hn : n ∈ Nodes (st_of w)) (Hid : 0 < N_ID n)
    (Hkey : RealityPrivateKey n <> "") (Hbridge : BridgeUUID n <> "") :
  exists i, inputFor (st_of w) n = Ok i /\ (validate i = Ok tt <-> own_ready n = true) /\
    list_to_map ((fun v => (vc_Email v, vc_ID v)) <$> entry_clients i) = pushed_clients (st_of w) n.
Proof.
  unfold inputFor. rewrite !bool_decide_eq_false_2 by done. eexists. split; [done|]. split.
  - rewrite validate_Ok. unfold own_ready. rewrite !andb_true_iff, negb_true_iff, Z.eqb_neq.
    assert (clients_good (clientsOf (st_of w) (N_ID n) ++ [bridge_client (bridgeOf n)])) as Hc by (eapply state_clients_good; try done; by eapply hub_run_ok). split.
    + intros [(H1 & _ & H3) H4 [_ H5] H6 [_ H7] _ _ _]. cbn in *. rewrite Forall_singleton in H5, H7. split_and!; done.
    + intros (((((H1 & H2) & H3) & H4) & H5) & H6). split; cbn; try done; try (by repeat constructor).
      apply reverse_tag_ok. lia.
  - unfold pushed_clients, entry_clients. cbn [i_Clients i_Bridge]. by rewrite !fmap_app, <-list_fmap_compose.
Qed.

(** ** Examples *)

Definition demo_marshal (c : config) : result string bytes := Ok (to_bytes "the config").
Definition demo_prefix (_ : prefix) : string := "10.10.0.0/16".
Definition demo_list : list string := ["2.57.3.0/24"].
Definition demo_input : Input :=
  MkInput 443 "www.example.org:443" ["www.example.org"] "AAAAAAAAAAAAAAAAAAAAAAAAAAAAAAAAAAAAAAAAAAA" ["a1b2"]
    [MkClient "sub-1@remote-nodes" (demo_uuid "1"); MkClient "sub-2@remote-nodes" (demo_uuid "2")]
    (MkBridge "0b5a3c1e-9d1f-4f6a-8a53-0c2f3b1d7e11" "rvs-t1@reverse" "rvs-to-node-1") 0 "" [].
(** The ranges of the example, by their text and the address. *)
Definition demo_in_range (r : string) (a : ipaddr) : bool :=
  match ParsePrefix r with Some p => Contains p a | None => false end.

Example demo_builds : Build demo_list demo_prefix demo_marshal demo_input = Ok (to_bytes "the config").
Proof. vm_compute. reflexivity. Qed.
Example reserved_refused : validate (MkInput 10085 "www.example.org:443" ["www.example.org"] "AAAAAAAAAAAAAAAAAAAAAAAAAAAAAAAAAAAAAAAAAAA" ["a1b2"] [] (i_Bridge demo_input) 0 "" []) = Err SamePort.
Proof. vm_compute. reflexivity. Qed.

Lemma config_fits_witness : exists c, demo_marshal c = Ok (to_bytes "the config") /\ config_good c.
Proof. apply (config_fits demo_list demo_prefix demo_marshal demo_input). vm_compute. reflexivity. Defined.


Definition cfg_node : Node :=
  MkNode 0 "Frankfurt" "vps.example.org" 22 "root" 9090 443 "amd64" NodeRegistered (10 ^ 18) "www.example.org:443" "www.example.org" "PBK" "a1b2"
    "AAAAAAAAAAAAAAAAAAAAAAAAAAAAAAAAAAAAAAAAAAA" "" "" zeroTime zeroTime "" "0b5a3c1e-9d1f-4f6a-8a53-0c2f3b1d7e11" noFailure.
Definition cfg_hub1 : hub := (update demo_fold demo_parse demo_ca (demo_env old_id through) (fun s => rbind (fun r => Ok r.1) (AddNode demo_parse s cfg_node)) hub0).2.
Definition cfg_hub2 : hub := (CreateSubscription demo_fold demo_parse demo_ca "" (demo_env old_id through) "Ali" [1] 0 zeroTime cfg_hub1).2.
Definition cfg_node1 : Node := default cfg_node (head (Nodes (st_of cfg_hub2))).

Lemma cfg_hub2_run exact : rtc (hub_step demo_fold demo_parse demo_ca "" exact) hub0 cfg_hub2.
Proof.
  eapply rtc_l; [apply (hs_edit _ _ _ _ _ (demo_env old_id through)) with (edit := fun s => rbind (fun r => Ok r.1) (AddNode demo_parse s cfg_node))|].
  - intros s s' ([s1 n1] & H & [= <-])%rbind_Ok. by eapply AddNode_keeps.
  - apply rtc_once, (hs_create _ _ _ _ _ (demo_env old_id through) "Ali" [1] 0 zeroTime cfg_hub1). vm_compute. reflexivity.
Qed.

Lemma state_config_builds_witness : exists i, inputFor (st_of cfg_hub2) cfg_node1 = Ok i /\ validate i = Ok tt /\ length (entry_clients i) = 2%nat.
Proof.
  destruct (state_config_builds demo_fold demo_parse demo_ca "" cfg_hub2 cfg_node1) as (i & Hi & Hv & _).
  - apply cfg_hub2_run.
  - apply (bool_decide_unpack _). vm_compute. exact I.
  - vm_compute. reflexivity.
  - vm_compute. discriminate.
  - vm_compute. discriminate.
  - exists i. split; [exact Hi|]. split; [apply Hv; vm_compute; reflexivity|].
    assert (match inputFor (st_of cfg_hub2) cfg_node1 with Ok i => length (entry_clients i) | Err _ => 0%nat end = 2%nat) as Hl by (vm_compute; reflexivity).
    rewrite Hi in Hl. exact Hl.
Defined.
