(* ===== verification/HubSettings.v ===== *)
(** * New settings and new keys

    internal/remotenodes/manager/settings.go, with the cleaning of its input (input.go),
    the push of internal/remotenodes/agentops/config.go and the check of keys (keys.go):
    a job that gives a node's entry another port, target or name, or another key pair.
    It pushes the config made from the state, and saves when the node runs it; a push
    that failed after the node may have taken it is undone by another. The world is the
    store and what each node's Xray runs. What becomes of each call to a node, of the
    disk and of the job's context is an argument. Elliptic curves are a parameter. The
    messages of errors are left out, and a node that is gone when a job saves is the
    state's own error for that.

    Theorems: a job that is over leaves the state and the node agreeing, on the new
    values or on the old, unless it says that it could not ([settings_settle],
    [rotate_settles]); so every link handed out opens on its node's entry
    ([links_open]). A job that is cut off says nothing of the kind
    ([cut_off_disagrees]). *)

From S2P Require Import Prelude GoString GoUnicode GoNetip GoUrl ShareLinks Emails HubState HubStore HubLimits BridgeSpec BridgeBuild HubClients HubSubs HubLink NodeCfg.

(** ** Cleaning what is asked for *)

Definition ContainsAny (s chars : string) : bool := existsb (fun c => bool_decide (c ∈ to_bytes chars)) (to_bytes s).
Fixpoint trim_left (chars : bytes) (l : bytes) : bytes := match l with c :: l' => if bool_decide (c ∈ chars) then trim_left chars l' else l | [] => [] end.
(** [strings.Trim] with a set of ASCII characters. *)
Definition Trim (s chars : string) : string := of_bytes (reverse (trim_left (to_bytes chars) (reverse (trim_left (to_bytes chars) (to_bytes s))))).

Definition hostOf (target : string) : string := match SplitHostPort target with Some (h, _) => h | None => "" end.

Record settingsRequest := MkReq { rq_EntryPort : option Z; rq_HandshakeTarget : option string; rq_SNI : option string }.
Record settingsChange := MkChange { ch_entryPort : Z; ch_target : string; ch_sni : string; ch_targetMoved : bool }.

Definition with_settings (ch : settingsChange) (n : Node) : Node :=
  MkNode (N_ID n) (N_Name n) (Host n) (SSHPort n) (SSHUser n) (AgentPort n) (ch_entryPort ch) (Arch n) (State_ n) (N_CreatedAt n) (ch_target ch) (ch_sni ch)
    (RealityPublicKey n) (RealityShortID n) (RealityPrivateKey n) (AgentVersion n) (XrayVersion n) (CertNotBefore n) (CertNotAfter n) (SSHHostKey n) (BridgeUUID n) (Failure n).

Record RealityKeys := MkKeys { k_PrivateKey : string; k_PublicKey : string; k_ShortID : string }.
Definition with_keys (k : RealityKeys) (n : Node) : Node :=
  MkNode (N_ID n) (N_Name n) (Host n) (SSHPort n) (SSHUser n) (AgentPort n) (EntryPort n) (Arch n) (State_ n) (N_CreatedAt n) (RealityTarget n) (RealitySNI n)
    (k_PublicKey k) (k_ShortID k) (k_PrivateKey k) (AgentVersion n) (XrayVersion n) (CertNotBefore n) (CertNotAfter n) (SSHHostKey n) (BridgeUUID n) (Failure n).

Section manager.
Context (fold : Z -> Z) (ParseAddr : string -> option Addr) (loadCA : string -> string -> bool).

Definition cleanTarget (s : string) : result error string :=
  let s := TrimSpace s in
  if bool_decide (s = "") then Err (ErrInvalid "the Reality target is required") else
  if contains (to_bytes "://") (to_bytes s) || ContainsAny s ("/ " +:+ String "009" "") then Err (ErrInvalid "the Reality target must look like www.example.com:443") else
  let '(host, portText) := match SplitHostPort s with Some hp => hp | None => (Trim s "[]", "443") end in
  rbind (fun host =>
    match Atoi portText with
    | Some p => if (p <? 1) || (65535 <? p) then Err (ErrInvalid "the Reality target has no valid port") else Ok (JoinHostPort host (Itoa p))
    | None => Err (ErrInvalid "the Reality target has no valid port")
    end) (CleanHost ParseAddr host).

Definition cleanSNI (s : string) : result error string :=
  rbind (fun h => match ParseAddr h with Some _ => Err (ErrInvalid "the server name must be a host name, not an IP address") | None => Ok h end) (CleanHost ParseAddr s).

Definition port_of (n : Node) (req : settingsRequest) : result error Z :=
  match rq_EntryPort req with
  | None => Ok (EntryPort n)
  | Some p => if (p <? 1) || (65535 <? p) then Err (ErrInvalid "the entry port must be between 1 and 65535") else Ok p
  end.
Definition target_of (n : Node) (req : settingsRequest) : result error (string * bool) :=
  match rq_HandshakeTarget req with
  | None => Ok (RealityTarget n, false)
  | Some t => rbind (fun t => Ok (t, negb (bool_decide (t = RealityTarget n)))) (cleanTarget t)
  end.
(** A name that was the target's host follows the target. *)
Definition sni_of (n : Node) (req : settingsRequest) (target : string) (moved : bool) : result error string :=
  let custom := negb (bool_decide (RealitySNI n = "")) && negb (bool_decide (RealitySNI n = hostOf (RealityTarget n))) in
  let follow := match ParseAddr (hostOf target) with
    | Some _ => Err (ErrInvalid "the Reality target is an address, so the server name has to be given as well")
    | None => Ok (hostOf target)
    end in
  match rq_SNI req with
  | Some s => if bool_decide (s = "") then follow else cleanSNI s
  | None => if moved && negb custom then follow else Ok (RealitySNI n)
  end.

Definition planSettings (n : Node) (req : settingsRequest) : result error settingsChange :=
  match req with
  | MkReq None None None => Err (ErrInvalid "there is nothing to change")
  | _ =>
      (p <~ port_of n req ;;
       t <~ target_of n req ;;
       sni <~ sni_of n req t.1 t.2 ;;
       let ch := MkChange p t.1 sni t.2 in
       Node_Validate ParseAddr (with_settings ch n) ;;~
       if (p =? EntryPort n) && bool_decide (t.1 = RealityTarget n) && bool_decide (sni = RealitySNI n)
       then Err (ErrInvalid "those are the node's settings already") else Ok ch)%go
  end.

(** ** Pushing a config: [agentops/config.go] *)

Inductive op_error := OInvalid (e : cfg_error) | ORejected | OOutdated | ODown | ONotRunning | OUnreachable | OOther.

(** What comes of the agent's PushConfig: the node has the config, with or without an
    answer, or it has not. *)
Inductive answer := Taken | TakenLost (e : op_error) | NotTakenBy (e : op_error).
(** What a push meets: the check by the node's Xray, the push, and whether Xray runs
    after it and the entry answers. *)
Record meets := MkMeets { mt_validate : option op_error; mt_refused : bool; mt_push : answer; mt_running : option op_error; mt_entry : option op_error }.

Section push.
Context (DomesticCIDRs : list string) (PrefixString : prefix -> string) (Marshal : config -> result string bytes).

(** [cur] is what the node's Xray runs. *)
Definition PushConfig (m : meets) (i : Input) (cur : option Input) : option op_error * option Input :=
  match Build DomesticCIDRs PrefixString Marshal i with
  | Err (CantEncode _) => (Some OOther, cur)
  | Err e => (Some (OInvalid e), cur)
  | Ok _ =>
      match mt_validate m with
      | Some e => (Some e, cur)
      | None =>
          if mt_refused m then (Some ORejected, cur) else
          match mt_push m with
          | NotTakenBy e => (Some e, cur)
          | TakenLost e => (Some e, Some i)
          | Taken => (match mt_running m with Some e => Some e | None => mt_entry m end, Some i)
          end
      end
  end.

Definition untouched (e : op_error) : bool := match e with ORejected | OInvalid _ | OOutdated => true | _ => false end.

(** A rejection and an agent that is too old mean that the node took nothing. *)
Definition meets_honest (m : meets) : Prop :=
  (forall e, mt_push m = TakenLost e -> untouched e = false) /\ (forall e, mt_running m = Some e -> untouched e = false) /\ (forall e, mt_entry m = Some e -> untouched e = false).

(** ** The jobs *)

Inductive job_error :=
| JNoNode | JUnreachable | JTarget (e : op_error) | JLock | JGone | JInput (e : input_refusal) | JKeys
| JPush (e : op_error) | JSave (e : error) | JPutBack (cause : job_error) (back : bool).

Record world := MkWorld { w_store : Store; w_conf : gmap Z Input }.
Definition set_conf (id : Z) (c : option Input) (w : world) : world := MkWorld (w_store w) (match c with Some i => <[id := i]> (w_conf w) | None => delete id (w_conf w) end).

Definition restore (cut_off : bool) (m : meets) (id : Z) (old : Input) (cause : job_error) (w : world) : job_error * world :=
  if cut_off then (cause, w) else
  let '(e, c) := PushConfig m old (w_conf w !! id) in
  (JPutBack cause (match e with Some _ => false | None => true end), set_conf id c w).

Definition pushOrUndo (cut_off : bool) (m undo : meets) (id : Z) (old next : Input) (w : world) : option job_error * world :=
  let '(e, c) := PushConfig m next (w_conf w !! id) in
  let w := set_conf id c w in
  match e with
  | None => (None, w)
  | Some e =>
      if untouched e || cut_off then (Some (JPush e), w) else
      let '(e, w) := restore cut_off undo id old (JPush e) w in (Some e, w)
  end.

(** What a job finds: whether there is a connection when the target is checked and when
    it pushes, what the check says, the lock, the push and the one that undoes it, the
    disk, and whether the job's context had ended when a push or the save failed. *)
Record job_env := MkJobEnv {
  j_link1 : bool; j_check : option op_error; j_locked : bool; j_link : bool; j_push : meets; j_undo : meets; j_cut1 : bool; j_disk : bool; j_undo2 : meets; j_cut2 : bool
}.

Definition beginPush (v : job_env) (id : Z) (w : world) : result job_error Input :=
  if negb (j_locked v) then Err JLock else
  match FindNode (cur (w_store w)) id with
  | None => Err JGone
  | Some n =>
      if negb (j_link v) then Err JUnreachable else
      match inputFor (cur (w_store w)) n with Err e => Err (JInput e) | Ok i => Ok i end
  end.

Fixpoint change_node (id : Z) (f : Node -> Node) (l : list Node) : list Node :=
  match l with [] => [] | n :: l => if N_ID n =? id then f n :: l else n :: change_node id f l end.
Definition node_edit (id : Z) (f : Node -> Node) (s : State) : result error State :=
  match FindNode s id with None => Err (ErrNotFound "node" id) | Some _ => Ok (with_nodes s (change_node id f (Nodes s))) end.

(** Pushing [next] in place of what the state stands for, and saving [f] of the node. *)
Definition push_and_save (v : job_env) (id : Z) (next : Input -> Input) (f : Node -> Node) (w : world) : option job_error * world :=
  match beginPush v id w with
  | Err e => (Some e, w)
  | Ok old =>
      match pushOrUndo (j_cut1 v) (j_push v) (j_undo v) id old (next old) w with
      | (Some e, w) => (Some e, w)
      | (None, w) =>
          match Update fold ParseAddr loadCA (w_store w) (node_edit id f) (j_disk v) with
          | (st, Ok _) => (None, MkWorld st (w_conf w))
          | (_, Err e) => let '(e, w) := restore (j_cut2 v) (j_undo2 v) id old (JSave e) w in (Some e, w)
          end
      end
  end.

Definition next_settings (ch : settingsChange) (old : Input) : Input :=
  MkInput (ch_entryPort ch) (ch_target ch) [ch_sni ch] (i_PrivateKey old) (i_ShortIDs old) (i_Clients old) (i_Bridge old) (i_APIPort old) (i_LogLevel old) (i_DomesticCIDRs old).
Definition next_keys (k : RealityKeys) (old : Input) : Input :=
  MkInput (i_EntryPort old) (i_RealityDest old) (i_ServerNames old) (k_PrivateKey k) [k_ShortID k] (i_Clients old) (i_Bridge old) (i_APIPort old) (i_LogLevel old) (i_DomesticCIDRs old).

Definition runSettings (v : job_env) (id : Z) (ch : settingsChange) (w : world) : option job_error * world :=
  let go := push_and_save v id (next_settings ch) (with_settings ch) w in
  if ch_targetMoved ch then
    match FindNode (cur (w_store w)) id with
    | None => (Some JNoNode, w)
    | Some _ => if negb (j_link1 v) then (Some JUnreachable, w) else match j_check v with Some e => (Some (JTarget e), w) | None => go end
    end
  else go.

(** Whether a public key, as text, belongs to a private one. *)
Context (keyPair : string -> string -> bool).
Definition keys_Valid (k : RealityKeys) : bool := key32 (k_PrivateKey k) && keyPair (k_PrivateKey k) (k_PublicKey k) && validShortID (k_ShortID k).

Definition runRotate (v : job_env) (id : Z) (k : RealityKeys) (w : world) : option job_error * world :=
  if negb (keys_Valid k) then (Some JKeys, w) else push_and_save v id (next_keys k) (with_keys k) w.
End push.
End manager.

(** ** The state and the nodes agree *)

(** The entry an input makes is the one the state has of a node. *)
Definition runs (i : Input) (n : Node) : Prop :=
  i_EntryPort i = EntryPort n /\ i_RealityDest i = RealityTarget n /\ i_ServerNames i = [serverName n] /\ i_PrivateKey i = RealityPrivateKey n /\ i_ShortIDs i = [RealityShortID n].
Definition agrees (w : world) (id : Z) : Prop := exists n i, FindNode (cur (w_store w)) id = Some n /\ w_conf w !! id = Some i /\ runs i n.

Lemma inputFor_runs s n i : inputFor s n = Ok i -> runs i n.
Proof. unfold inputFor. case_bool_decide; [done|]. case_bool_decide; [done|]. intros [= <-]. done. Qed.

Lemma find_node_cons s n l id : FindNode (with_nodes s (n :: l)) id = if N_ID n =? id then Some n else FindNode (with_nodes s l) id.
Proof.
  unfold FindNode. cbn [with_nodes Nodes list_find]. destruct (Z.eqb_spec (N_ID n) id) as [He|He]; [by rewrite decide_True|]. rewrite decide_False by done.
  by destruct (list_find _ l) as [[i m]|].
Qed.

Lemma find_changed s id f id' : (forall n, N_ID (f n) = N_ID n) ->
  FindNode (with_nodes s (change_node id f (Nodes s))) id' = (if id' =? id then f <$> FindNode s id' else FindNode s id').
Proof.
  intros Hf. assert (forall id, FindNode s id = FindNode (with_nodes s (Nodes s)) id) as He by (intros; by destruct s). rewrite !He. clear He.
  induction (Nodes s) as [|n l IH]; [by destruct (id' =? id)|]. cbn [change_node]. destruct (Z.eqb_spec (N_ID n) id) as [Hn|Hn].
  - rewrite !find_node_cons, Hf. destruct (Z.eqb_spec id' id) as [->|Hne]; [by rewrite (proj2 (Z.eqb_eq _ _) Hn)|]. rewrite (proj2 (Z.eqb_neq (N_ID n) id')) by congruence.
    reflexivity.
  - rewrite !find_node_cons, IH. destruct (Z.eqb_spec id' id) as [->|Hne]; [by rewrite (proj2 (Z.eqb_neq (N_ID n) id))|]. done.
Qed.

Lemma node_edit_find s id f s' : (forall n, N_ID (f n) = N_ID n) -> node_edit id f s = Ok s' -> forall id', FindNode s' id' = if id' =? id then f <$> FindNode s id' else FindNode s id'.
Proof. intros Hf. unfold node_edit. destruct (FindNode s id); [|done]. intros [= <-] id'. by apply find_changed. Qed.

Section settle.
Context (fold : Z -> Z) (ParseAddr : string -> option Addr) (loadCA : string -> string -> bool).
Context (DomesticCIDRs : list string) (PrefixString : prefix -> string) (Marshal : config -> result string bytes).

Abbreviation Push := (PushConfig DomesticCIDRs PrefixString Marshal).
Abbreviation builds := (Build DomesticCIDRs PrefixString Marshal).

Lemma push_none m i cur c : Push m i cur = (None, c) -> c = Some i /\ exists b, builds i = Ok b.
Proof.
  unfold PushConfig. destruct (Build _ _ _ i) as [b|e]; [|by destruct e]. destruct (mt_validate m); [done|]. destruct (mt_refused m); [done|]. destruct (mt_push m); try done.
  destruct (mt_running m); [done|]. destruct (mt_entry m); [done|]. intros [= <-]. split; [done|]. by exists b.
Qed.

Lemma push_untouched m i cur e c : meets_honest m -> Push m i cur = (Some e, c) -> untouched e = true -> c = cur.
Proof.
  intros (H1 & H2 & H3). unfold PushConfig. destruct (Build _ _ _ i) as [b|x]; [|by destruct x; intros [= <- <-]]. destruct (mt_validate m); [by intros [= <- <-]|].
  destruct (mt_refused m); [by intros [= <- <-]|]. destruct (mt_push m) as [|x|x] eqn:Hm.
  - destruct (mt_running m) eqn:Hr; [|destruct (mt_entry m) eqn:He; [|done]]; intros [= <- <-] Hu; [rewrite (H2 _ eq_refl) in Hu|rewrite (H3 _ eq_refl) in Hu]; done.
  - intros [= <- <-] Hu. rewrite (H1 _ eq_refl) in Hu. done.
  - by intros [= <- <-].
Qed.

(** How a job left the world. *)
Definition settled (w w' : world) (id : Z) (f : Node -> Node) (e : option job_error) : Prop :=
  match e with
  | None => agrees w' id /\ FindNode (cur (w_store w')) id = f <$> FindNode (cur (w_store w)) id
  | Some (JPutBack _ false) => cur (w_store w') = cur (w_store w)
  | Some _ => cur (w_store w') = cur (w_store w) /\ agrees w' id
  end.
Definition elsewhere (w w' : world) (id : Z) : Prop :=
  forall id', id' <> id -> w_conf w' !! id' = w_conf w !! id' /\ FindNode (cur (w_store w')) id' = FindNode (cur (w_store w)) id'.

Lemma set_conf_lookup id c w id' : w_conf (set_conf id c w) !! id' = if decide (id' = id) then c else w_conf w !! id'.
Proof.
  unfold set_conf. cbn. destruct (decide (id' = id)) as [->|Hne], c; rewrite ?lookup_insert_eq, ?lookup_delete_eq, ?lookup_insert_ne, ?lookup_delete_ne by done; done.
Qed.

Lemma restore_settles m id old cause w n : FindNode (cur (w_store w)) id = Some n -> runs old n ->
  let '(e, w') := restore DomesticCIDRs PrefixString Marshal false m id old cause w in
  w_store w' = w_store w /\ (exists b, e = JPutBack cause b /\ (b = true -> agrees w' id)) /\ forall id', id' <> id -> w_conf w' !! id' = w_conf w !! id'.
Proof.
  intros Hn Hr. unfold restore. destruct (PushConfig _ _ _ _ _) as [e c] eqn:Hp. split; [done|]. split.
  - eexists. split; [done|]. destruct e; [done|]. intros _. apply push_none in Hp as [-> _]. exists n, old. split; [done|]. split; [|done]. rewrite set_conf_lookup. by rewrite decide_True.
  - intros id' Hne. rewrite set_conf_lookup. by rewrite decide_False.
Qed.

(** The job of pushing and saving, for any change of the input and of the node that go
    together. *)
Lemma push_and_save_settles v id next f w :
  store_inv fold ParseAddr loadCA (w_store w) -> agrees w id -> (forall n, N_ID (f n) = N_ID n) ->
  (forall n old, inputFor (cur (w_store w)) n = Ok old -> (exists b, builds (next old) = Ok b) -> runs (next old) (f n)) ->
  meets_honest (j_push v) -> j_cut1 v = false -> j_cut2 v = false ->
  let '(e, w') := push_and_save fold ParseAddr loadCA DomesticCIDRs PrefixString Marshal v id next f w in
  settled w w' id f e /\ elsewhere w w' id /\ store_inv fold ParseAddr loadCA (w_store w').
Proof.
  intros Hi Hag Hf Hnext Hhonest Hcut1 Hcut2. unfold push_and_save. assert (elsewhere w w id) as Hself by done.
  destruct (beginPush v id w) as [old|e] eqn:Hbegin.
  2: { unfold beginPush in Hbegin. destruct (negb (j_locked v)); [injection Hbegin as <-; done|]. destruct (FindNode _ _); [|injection Hbegin as <-; done].
    destruct (negb (j_link v)); [injection Hbegin as <-; done|]. destruct (inputFor _ _); [done|]. injection Hbegin as <-. done. }
  unfold beginPush in Hbegin. destruct (negb (j_locked v)); [done|]. destruct (FindNode (cur (w_store w)) id) as [n|] eqn:Hn; [|done]. destruct (negb (j_link v)); [done|].
  destruct (inputFor (cur (w_store w)) n) as [i|] eqn:Hin; [|done]. injection Hbegin as ->. pose proof (inputFor_runs _ _ _ Hin) as Hold.
  unfold pushOrUndo. rewrite Hcut1, Hcut2. destruct (PushConfig _ _ _ (j_push v) (next old) _) as [[e|] c] eqn:Hp.
  - destruct (untouched e) eqn:Hu.
    + apply push_untouched in Hp as ->; [|done|done]. split; [split; [done|]|split; [|done]].
      * destruct Hag as (n' & i & Hn' & Hc & Hr). exists n', i. split; [done|]. split; [|done]. rewrite set_conf_lookup, decide_True; done.
      * intros id' Hne. rewrite set_conf_lookup, decide_False by done. done.
    + pose proof (restore_settles (j_undo v) id old (JPush e) (set_conf id c w) n Hn Hold) as Hrs. destruct (restore _ _ _ _ _ _ _ _ _) as [e' w'].
      destruct Hrs as (Hst & (b & -> & Hb) & Hrest). split; [destruct b; cbn; rewrite Hst; [split; [done|by apply Hb]|done]|]. rewrite Hst. split; [|done].
      intros id' Hne. rewrite (Hrest id' Hne), set_conf_lookup, decide_False, Hst by done. done.
  - apply push_none in Hp as [-> Hbuilds]. pose proof (Update_does fold ParseAddr loadCA (w_store w) (node_edit id f) (j_disk v) Hi) as Hup. cbn [w_store set_conf].
    destruct (Update fold ParseAddr loadCA (w_store w) (node_edit id f) (j_disk v)) as [st r]. cbn [fst snd] in Hup. destruct Hup as [[[e ->] _]|(-> & Hed & Hi' & _)].
    + pose proof (restore_settles (j_undo2 v) id old (JSave e) (set_conf id (Some (next old)) w) n Hn Hold) as Hrs. destruct (restore _ _ _ _ _ _ _ _ _) as [e' w'].
      destruct Hrs as (Hst & (b & -> & Hb) & Hrest). split; [destruct b; cbn; rewrite Hst; [split; [done|by apply Hb]|done]|]. rewrite Hst. split; [|done].
      intros id' Hne. rewrite (Hrest id' Hne), set_conf_lookup, decide_False, Hst by done. done.
    + pose proof (node_edit_find _ _ _ _ Hf Hed) as Hfind. split; [|split; [|done]].
      * cbn. rewrite (Hfind id), Z.eqb_refl, Hn. split; [|done]. exists (f n), (next old). cbn [w_store w_conf]. rewrite (Hfind id), Z.eqb_refl, Hn. split; [done|].
        split; [|by apply Hnext]. rewrite lookup_insert_eq. done.
      * intros id' Hne. cbn [w_store w_conf set_conf]. rewrite lookup_insert_ne by done. rewrite (Hfind id'). by rewrite (proj2 (Z.eqb_neq _ _) Hne).
Qed.
End settle.

(** A config that is built has names, and with one name the node is known by it. *)
Lemma built_name D P M i b name : Build D P M i = Ok b -> i_ServerNames i = [name] -> name <> "".
Proof.
  unfold Build. intros [Hv _]%rbind_unit_Ok Hn. apply validate_Ok in Hv. destruct (io_names _ Hv) as [_ Hf]. rewrite Hn, Forall_singleton in Hf. intros ->. discriminate Hf.
Qed.

Lemma settings_runs D P M s n old ch : inputFor s n = Ok old -> (exists b, Build D P M (next_settings ch old) = Ok b) -> runs (next_settings ch old) (with_settings ch n).
Proof.
  intros (H1 & H2 & H3 & H4 & H5)%inputFor_runs [b Hb]. apply (built_name _ _ _ _ _ (ch_sni ch)) in Hb; [|done]. split_and!; try done.
  cbn [next_settings i_ServerNames]. unfold serverName. cbn [with_settings RealitySNI]. by rewrite bool_decide_eq_false_2.
Qed.

Lemma keys_runs D P M s n old k : inputFor s n = Ok old -> (exists b, Build D P M (next_keys k old) = Ok b) -> runs (next_keys k old) (with_keys k n).
Proof. intros (H1 & H2 & H3 & H4 & H5)%inputFor_runs _. split_and!; try done. Qed.

(** Neither the push nor the save was cut off, and the node's answers are honest. *)
Definition fair (v : job_env) : Prop := meets_honest (j_push v) /\ j_cut1 v = false /\ j_cut2 v = false.

Section jobs.
Context (fold : Z -> Z) (ParseAddr : string -> option Addr) (loadCA : string -> string -> bool).
Context (DomesticCIDRs : list string) (PrefixString : prefix -> string) (Marshal : config -> result string bytes) (keyPair : string -> string -> bool).
Abbreviation run_settings := (runSettings fold ParseAddr loadCA DomesticCIDRs PrefixString Marshal).
Abbreviation run_rotate := (runRotate fold ParseAddr loadCA DomesticCIDRs PrefixString Marshal keyPair).

Lemma run_settings_settles v id ch w : store_inv fold ParseAddr loadCA (w_store w) -> agrees w id -> fair v ->
  let '(e, w') := run_settings v id ch w in settled w w' id (with_settings ch) e /\ elsewhere w w' id /\ store_inv fold ParseAddr loadCA (w_store w').
Proof.
  intros Hi Hag (Hh & Hc1 & Hc2). unfold runSettings.
  pose proof (push_and_save_settles fold ParseAddr loadCA DomesticCIDRs PrefixString Marshal v id (next_settings ch) (with_settings ch) w Hi Hag ltac:(done)
    (fun n old H1 H2 => settings_runs _ _ _ _ _ _ _ H1 H2) Hh Hc1 Hc2) as Hgo.
  destruct (ch_targetMoved ch); [|exact Hgo]. destruct (FindNode _ _); [|done]. destruct (negb (j_link1 v)); [done|]. by destruct (j_check v).
Qed.

Lemma run_rotate_settles v id k w : store_inv fold ParseAddr loadCA (w_store w) -> agrees w id -> fair v ->
  let '(e, w') := run_rotate v id k w in
  settled w w' id (with_keys k) e /\ (e = None -> keys_Valid keyPair k = true) /\ elsewhere w w' id /\ store_inv fold ParseAddr loadCA (w_store w').
Proof.
  intros Hi Hag (Hh & Hc1 & Hc2). unfold runRotate. destruct (keys_Valid keyPair k); [|done]. cbn [negb].
  pose proof (push_and_save_settles fold ParseAddr loadCA DomesticCIDRs PrefixString Marshal v id (next_keys k) (with_keys k) w Hi Hag ltac:(done)
    (fun n old H1 H2 => keys_runs _ _ _ _ _ _ _ H1 H2) Hh Hc1 Hc2) as Hgo. destruct (push_and_save _ _ _ _ _ _ _ _ _ _ _). by destruct Hgo as (? & ? & ?).
Qed.
End jobs.

(** A change of settings settles. Take a node that runs what the state has of it, and
    any change, whatever fails of the connection, the check of the target, the lock, the
    push at any point, the push that undoes it, the save and the push that undoes that,
    as long as the job is not cut off. When the job succeeds, the state has the new
    settings and the node runs them; when it fails, the state is as it was and the node
    runs that, unless the error says that the old settings could not be put back. No
    other node and no other record is touched. *)
Theorem settings_settle (fold : Z -> Z) (ParseAddr : string -> option Addr) (loadCA : string -> string -> bool)
    (DomesticCIDRs : list string) (PrefixString : prefix -> string) (Marshal : config -> result string bytes)
    (w : world) (v : job_env) (id : Z) (ch : settingsChange)
    (Hi : store_inv fold ParseAddr loadCA (w_store w)) (Hag : agrees w id) (Hfair : fair v) :
  let '(e, w') := runSettings fold ParseAddr loadCA DomesticCIDRs PrefixString Marshal v id ch w in
  match e with
  | None => agrees w' id /\ FindNode (cur (w_store w')) id = with_settings ch <$> FindNode (cur (w_store w)) id
  | Some (JPutBack _ false) => cur (w_store w') = cur (w_store w)
  | Some _ => cur (w_store w') = cur (w_store w) /\ agrees w' id
  end /\ elsewhere w w' id.
Proof.
  pose proof (run_settings_settles fold ParseAddr loadCA DomesticCIDRs PrefixString Marshal v id ch w Hi Hag Hfair) as H.
  destruct (runSettings _ _ _ _ _ _ _ _ _ _) as [e w']. by destruct H as (H & He & _).
Qed.

(** New keys settle the same way, and only ones that belong together are used. *)
Theorem rotate_settles (fold : Z -> Z) (ParseAddr : string -> option Addr) (loadCA : string -> string -> bool)
    (DomesticCIDRs : list string) (PrefixString : prefix -> string) (Marshal : config -> result string bytes) (keyPair : string -> string -> bool)
    (w : world) (v : job_env) (id : Z) (k : RealityKeys)
    (Hi : store_inv fold ParseAddr loadCA (w_store w)) (Hag : agrees w id) (Hfair : fair v) :
  let '(e, w') := runRotate fold ParseAddr loadCA DomesticCIDRs PrefixString Marshal keyPair v id k w in
  match e with
  | None => agrees w' id /\ FindNode (cur (w_store w')) id = with_keys k <$> FindNode (cur (w_store w)) id /\ keyPair (k_PrivateKey k) (k_PublicKey k) = true
  | Some (JPutBack _ false) => cur (w_store w') = cur (w_store w)
  | Some _ => cur (w_store w') = cur (w_store w) /\ agrees w' id
  end /\ elsewhere w w' id.
Proof.
  pose proof (run_rotate_settles fold ParseAddr loadCA DomesticCIDRs PrefixString Marshal keyPair v id k w Hi Hag Hfair) as H.
  destruct (runRotate _ _ _ _ _ _ _ _ _ _ _) as [e w']. destruct H as (H & Hk & He & _). split; [|done]. destruct e as [[]|]; try done. cbn in H. destruct H as [H1 H2]. split_and!; try done.
  specialize (Hk eq_refl). unfold keys_Valid in Hk. apply andb_true_iff in Hk as [Hk _]. by apply andb_true_iff in Hk as [_ Hk].
Qed.

(** ** Every link opens *)

Section runs.
Context (fold : Z -> Z) (ParseAddr : string -> option Addr) (loadCA : string -> string -> bool).
Context (DomesticCIDRs : list string) (PrefixString : prefix -> string) (Marshal : config -> result string bytes) (keyPair : string -> string -> bool).

(** A job is over without being cut off, and did not say it could not undo. *)
Definition over (v : job_env) (e : option job_error) : Prop := fair v /\ forall c, e <> Some (JPutBack c false).

(** What a node's entry is made of. *)
Definition entry_of (n : Node) : NodeState * Z * string * string * string * string * string :=
  (State_ n, EntryPort n, RealityTarget n, serverName n, RealityPrivateKey n, RealityPublicKey n, RealityShortID n).

(** Jobs on set-up nodes; edits of the state that leave the entries of set-up nodes as
    they are; and installs, which push a node's first config and set it up. *)
Inductive world_step : world -> world -> Prop :=
| ws_settings w v id n ch e w' : FindNode (cur (w_store w)) id = Some n -> State_ n = NodeRegistered ->
    runSettings fold ParseAddr loadCA DomesticCIDRs PrefixString Marshal v id ch w = (e, w') -> over v e -> world_step w w'
| ws_rotate w v id n k e w' : FindNode (cur (w_store w)) id = Some n -> State_ n = NodeRegistered ->
    runRotate fold ParseAddr loadCA DomesticCIDRs PrefixString Marshal keyPair v id k w = (e, w') -> over v e -> world_step w w'
| ws_edit w edit disk st : (Update fold ParseAddr loadCA (w_store w) edit disk).1 = st ->
    (forall id n', FindNode (cur st) id = Some n' -> State_ n' = NodeRegistered -> exists n, FindNode (cur (w_store w)) id = Some n /\ entry_of n = entry_of n') ->
    world_step w (MkWorld st (w_conf w))
| ws_install w id n i st : FindNode (cur (w_store w)) id <> None -> store_inv fold ParseAddr loadCA st -> FindNode (cur st) id = Some n -> runs i n ->
    keyPair (RealityPrivateKey n) (RealityPublicKey n) = true -> (forall id', id' <> id -> FindNode (cur st) id' = FindNode (cur (w_store w)) id') ->
    world_step w (MkWorld st (<[id := i]> (w_conf w))).

Definition world0 : world := MkWorld fresh ∅.

(** Every node that is set up runs what the state has of it, and its keys are a pair. *)
Definition world_ok (w : world) : Prop :=
  store_inv fold ParseAddr loadCA (w_store w) /\
  forall id n, FindNode (cur (w_store w)) id = Some n -> State_ n = NodeRegistered -> agrees w id /\ keyPair (RealityPrivateKey n) (RealityPublicKey n) = true.

Lemma same_entry_runs i n n' : entry_of n = entry_of n' -> runs i n -> runs i n'.
Proof. unfold entry_of. intros [= _ H1 H2 H3 H4 _ H5] (R1 & R2 & R3 & R4 & R5). split_and!; congruence. Qed.

Lemma agrees_ext w w' id : w_conf w' !! id = w_conf w !! id -> FindNode (cur (w_store w')) id = FindNode (cur (w_store w)) id -> agrees w id -> agrees w' id.
Proof. intros Hc Hf (n & i & H1 & H2 & H3). exists n, i. by rewrite Hc, Hf. Qed.

(** After a job on one node: the others are as they were. *)
Lemma job_keeps w w' id f e n : world_ok w -> FindNode (cur (w_store w)) id = Some n -> State_ n = NodeRegistered ->
  settled w w' id f e -> elsewhere w w' id -> store_inv fold ParseAddr loadCA (w_store w') -> (forall c, e <> Some (JPutBack c false)) ->
  (forall n, State_ (f n) = State_ n) -> (e = None -> keyPair (RealityPrivateKey (f n)) (RealityPublicKey (f n)) = true) -> world_ok w'.
Proof.
  intros [_ Hok] Hn Hreg Hset Helse Hi' Hover Hst Hpair. split; [done|]. intros id' n' Hn' Hreg'. destruct (decide (id' = id)) as [->|Hne].
  - destruct e as [e|].
    + assert (cur (w_store w') = cur (w_store w) /\ agrees w' id) as [Hcur Hag].
      { unfold settled in Hset. destruct e as [| | | | | | | | |c []]; try done. by destruct (Hover c). }
      split; [done|]. rewrite Hcur in Hn'. by apply (Hok id n').
    + destruct Hset as [Hag Hf]. split; [done|]. rewrite Hf, Hn in Hn'. injection Hn' as <-. by apply Hpair.
  - destruct (Helse id' Hne) as [Hc Hf]. rewrite Hf in Hn'. destruct (Hok id' n' Hn' Hreg') as [Hag Hp]. split; [|done]. by apply (agrees_ext w w').
Qed.

Lemma world_step_ok w w' : world_step w w' -> world_ok w -> world_ok w'.
Proof.
  intros [w1 v id n ch e w2 Hn Hreg Hrun [Hfair Hover]|w1 v id n k e w2 Hn Hreg Hrun [Hfair Hover]|w1 edit disk st Hst Hedit|w1 id n i st _ Hi' Hn Hr Hp Hrest] Hok.
  - pose proof Hok as [Hi Hall]. destruct (Hall id n Hn Hreg) as [Hag Hp].
    pose proof (run_settings_settles fold ParseAddr loadCA DomesticCIDRs PrefixString Marshal v id ch w1 Hi Hag Hfair) as Hs. rewrite Hrun in Hs. destruct Hs as (Hs & Hel & Hi').
    by eapply (job_keeps w1 w2 id (with_settings ch) e n).
  - pose proof Hok as [Hi Hall]. destruct (Hall id n Hn Hreg) as [Hag Hp].
    pose proof (run_rotate_settles fold ParseAddr loadCA DomesticCIDRs PrefixString Marshal keyPair v id k w1 Hi Hag Hfair) as Hs. rewrite Hrun in Hs. destruct Hs as (Hs & Hk & Hel & Hi').
    eapply (job_keeps w1 w2 id (with_keys k) e n); try done. intros He. specialize (Hk He). unfold keys_Valid in Hk. apply andb_true_iff in Hk as [Hk _]. by apply andb_true_iff in Hk as [_ Hk].
  - destruct Hok as [Hi Hall]. pose proof (Update_does fold ParseAddr loadCA (w_store w1) edit disk Hi) as Hup. cbv zeta in Hup. rewrite Hst in Hup.
    assert (store_inv fold ParseAddr loadCA st) as Hi' by (destruct Hup as [[_ ->]|(_ & _ & ? & _)]; done).
    split; [done|]. intros id n' Hn' Hreg'. cbn [w_store] in *. destruct (Hedit id n' Hn' Hreg') as (n & Hn & He). pose proof He as [= Hst' _ _ _ Hk1 Hk2 _].
    destruct (Hall id n Hn) as [(m & i & Hm & Hc & Hr) Hp]; [congruence|]. split; [|by rewrite <-Hk1, <-Hk2]. exists n', i. split; [done|]. split; [done|].
    assert (m = n) as -> by congruence. by apply (same_entry_runs i n).
  - destruct Hok as [Hi Hall]. split; [done|]. intros id' n' Hn' Hreg'. cbn [w_store] in *. destruct (decide (id' = id)) as [->|Hne].
    + assert (n' = n) as -> by congruence. split; [|done]. exists n, i. cbn. by rewrite lookup_insert_eq.
    + rewrite (Hrest id' Hne) in Hn'. destruct (Hall id' n' Hn' Hreg') as [Hag Hp']. split; [|done]. apply (agrees_ext w1); [cbn; by rewrite lookup_insert_ne|cbn; by apply Hrest|done].
Qed.

Lemma world0_ok : world_ok world0.
Proof. split; [apply fresh_inv|]. intros id n Hn. discriminate Hn. Qed.

Lemma world_run_ok w : rtc world_step world0 w -> world_ok w.
Proof. intros Hr. pose proof world0_ok as H0. revert H0. induction Hr as [|w1 w2 w3 Hs _ IH]; [done|]. intros H0. by apply IH, (world_step_ok w1). Qed.
End runs.

(** C26. A link that is handed out opens. Take any run of jobs that change the settings or
    the keys of nodes, whatever fails in them, as long as none is cut off or says that it
    could not put the old settings back, among installs and other edits of the state. A
    link that is made of the state then names the port, a name and a short id of the
    entry that the node's Xray runs at that moment, and its public key belongs to the
    private key of that entry. *)
Theorem links_open (fold : Z -> Z) (ParseAddr : string -> option Addr) (loadCA : string -> string -> bool)
    (DomesticCIDRs : list string) (PrefixString : prefix -> string) (Marshal : config -> result string bytes) (keyPair : string -> string -> bool)
    (w : world) (sub id : Z) (l : Link_)
    (Hrun : rtc (world_step fold ParseAddr loadCA DomesticCIDRs PrefixString Marshal keyPair) world0 w)
    (Hl : Link (cur (w_store w)) sub id = Ok l) :
  exists p i, BuildLink p = Ok (l_Vless l) /\ w_conf w !! id = Some i /\
    p_Port p = i_EntryPort i /\ i_ServerNames i = [p_ServerName p] /\ i_ShortIDs i = [p_ShortID p] /\
    keyPair (i_PrivateKey i) (p_PublicKey p) = true.
Proof.
  apply world_run_ok in Hrun as [Hi Hall]. pose proof (linkParts_cases (cur (w_store w)) sub id) as Hc. unfold Link in Hl.
  destruct (linkParts (cur (w_store w)) sub id) as [[x e]|]; [|done]. destruct Hc as (n & _ & Hn & Hreg & _). rewrite Hn in Hl.
  destruct (Hall id n Hn Hreg) as [(m & i & Hm & Hc & R1 & R2 & R3 & R4 & R5) Hp]. assert (m = n) as -> by congruence.
  unfold buildLink in Hl. fold (link_params x n e) in Hl. destruct (BuildLink (link_params x n e)) as [t|] eqn:Hb; [|done]. injection Hl as <-.
  exists (link_params x n e), i. cbn. split_and!; try done. by rewrite R4.
Qed.

(** ** Examples *)

Definition demo_pair (priv pub : string) : bool := bool_decide (pub = "PBK").
Definition fine : meets := MkMeets None false Taken None None.
Definition all_fine : job_env := MkJobEnv true None true true fine fine false true fine false.

Definition new_node : Node :=
  MkNode 0 "Frankfurt" "vps.example.org" 22 "root" 9090 443 "amd64" NodeInstalling (10 ^ 18) "www.example.org:443" "www.example.org" "PBK" "a1b2"
    "AAAAAAAAAAAAAAAAAAAAAAAAAAAAAAAAAAAAAAAAAAA" "" "" zeroTime zeroTime "" "0b5a3c1e-9d1f-4f6a-8a53-0c2f3b1d7e11" noFailure.
Definition set_up (n : Node) : Node :=
  MkNode (N_ID n) (N_Name n) (Host n) (SSHPort n) (SSHUser n) (AgentPort n) (EntryPort n) (Arch n) NodeRegistered (N_CreatedAt n) (RealityTarget n) (RealitySNI n)
    (RealityPublicKey n) (RealityShortID n) (RealityPrivateKey n) (AgentVersion n) (XrayVersion n) (CertNotBefore n) (CertNotAfter n) (SSHHostKey n) (BridgeUUID n) (Failure n).
Definition edit_of (f : State -> result error State) (st : Store) : Store := (Update demo_fold demo_parse demo_ca st f true).1.
Definition the_node (st : Store) : Node := default new_node (FindNode (cur st) 1).
Definition the_input (st : Store) : Input := match inputFor (cur st) (the_node st) with Ok i => i | Err _ => demo_input end.

Definition shop1 : Store := edit_of (fun s => rbind (fun r => Ok r.1) (AddNode demo_parse s new_node)) fresh.
Definition shop2 : Store := edit_of (node_edit 1 set_up) shop1.
Definition shop3 : Store := edit_of (create_edit demo_fold (demo_env old_id through) "Ali" [1] 0 zeroTime) shop2.
Definition demo_world : world := MkWorld shop3 (<[1 := the_input shop2]> ∅).
Definition demo_change : settingsChange := MkChange 8443 "www.example.org:443" "cdn.example.org" false.
Definition demo_job (v : job_env) : option job_error * world := runSettings demo_fold demo_parse demo_ca demo_list demo_prefix demo_marshal v 1 demo_change demo_world.

Example plan_follows_target :
  planSettings demo_parse (with_id (set_up new_node) 1 (10 ^ 18)) (MkReq None (Some " cdn.example.net ") None) = Ok (MkChange 443 "cdn.example.net:443" "cdn.example.net" true).
Proof. vm_compute. reflexivity. Qed.

Lemma shop_inv (st : Store) f : store_inv demo_fold demo_parse demo_ca st -> store_inv demo_fold demo_parse demo_ca (edit_of f st).
Proof. intros Hi. unfold edit_of. destruct (Update_does demo_fold demo_parse demo_ca st f true Hi) as [[_ ->]|(_ & _ & ? & _)]; done. Qed.

Lemma shop3_inv : store_inv demo_fold demo_parse demo_ca shop3.
Proof. do 3 apply shop_inv. apply fresh_inv. Qed.

Lemma runs_unpack i n : bool_decide ((i_EntryPort i, i_RealityDest i, i_ServerNames i, i_PrivateKey i, i_ShortIDs i) =
  (EntryPort n, RealityTarget n, [serverName n], RealityPrivateKey n, [RealityShortID n])) = true -> runs i n.
Proof. intros H%bool_decide_eq_true. by injection H as ? ? ? ? ?. Qed.

Lemma demo_agrees : agrees demo_world 1.
Proof. exists (the_node shop2), (the_input shop2). split; [vm_compute; reflexivity|]. split; [reflexivity|]. apply runs_unpack. vm_compute. reflexivity. Qed.

Lemma one_node st id n : length (Nodes (cur st)) = 1%nat -> FindNode (cur st) 1 = Some (the_node st) -> FindNode (cur st) id = Some n -> id = 1 /\ n = the_node st.
Proof.
  intros Hlen H1 Hn. assert (n = the_node st) as ->.
  { apply FindNode_Some in H1 as [H1 _]. apply FindNode_Some in Hn as [Hn _]. destruct (Nodes (cur st)) as [|m [|]]; try done. apply list_elem_of_singleton in H1, Hn. congruence. }
  split; [|done]. apply FindNode_Some in Hn as [_ <-]. apply FindNode_Some in H1 as [_ H1]. done.
Qed.

Lemma shop_node st : st ∈ [shop1; shop2; shop3] -> forall id n, FindNode (cur st) id = Some n -> id = 1 /\ n = the_node st.
Proof. rewrite !elem_of_cons. intros [->|[->|[->|H]]] id n; [apply one_node; vm_compute; reflexivity..|by apply elem_of_nil in H]. Qed.
Lemma in_shop1 : shop1 ∈ [shop1; shop2; shop3]. Proof. left. Qed.
Lemma in_shop2 : shop2 ∈ [shop1; shop2; shop3]. Proof. right. left. Qed.
Lemma in_shop3 : shop3 ∈ [shop1; shop2; shop3]. Proof. right. right. left. Qed.

Abbreviation demo_step := (world_step demo_fold demo_parse demo_ca demo_list demo_prefix demo_marshal demo_pair).
Lemma edit_step st c f :
  (forall id n', FindNode (cur (edit_of f st)) id = Some n' -> State_ n' = NodeRegistered -> exists n, FindNode (cur st) id = Some n /\ entry_of n = entry_of n') ->
  demo_step (MkWorld st c) (MkWorld (edit_of f st) c).
Proof. intros H. exact (ws_edit _ _ _ _ _ _ _ (MkWorld st c) f true _ eq_refl H). Qed.

Lemma install_step st c f :
  store_inv demo_fold demo_parse demo_ca st -> FindNode (cur st) 1 <> None -> FindNode (cur (edit_of f st)) 1 = Some (the_node (edit_of f st)) ->
  runs (the_input (edit_of f st)) (the_node (edit_of f st)) -> demo_pair (RealityPrivateKey (the_node (edit_of f st))) (RealityPublicKey (the_node (edit_of f st))) = true ->
  (forall id, id <> 1 -> FindNode (cur (edit_of f st)) id = FindNode (cur st) id) ->
  demo_step (MkWorld st c) (MkWorld (edit_of f st) (<[1 := the_input (edit_of f st)]> c)).
Proof. intros Hi H1 H2 H3 H4 H5. apply (ws_install _ _ _ _ _ _ _ (MkWorld st c) 1 (the_node (edit_of f st))); try done. by apply shop_inv. Qed.

Lemma demo_world_run : rtc demo_step world0 demo_world.
Proof.
  apply (rtc_l _ _ (MkWorld shop1 ∅)).
  { apply (edit_step fresh). fold shop1. intros id n' Hn'. destruct (shop_node shop1 in_shop1 id n' Hn') as [_ ->]. vm_compute. discriminate. }
  apply (rtc_l _ _ (MkWorld shop2 (<[1 := the_input shop2]> ∅))).
  { apply (install_step shop1); fold shop2; [apply shop_inv, fresh_inv|vm_compute; discriminate|vm_compute; reflexivity|apply runs_unpack; vm_compute; reflexivity|vm_compute; reflexivity|].
    intros id Hne. destruct (FindNode (cur shop2) id) as [n|] eqn:Hn; [exfalso; exact (Hne (proj1 (shop_node shop2 in_shop2 id n Hn)))|].
    destruct (FindNode (cur shop1) id) as [n|] eqn:Hn'; [|reflexivity]. exfalso; exact (Hne (proj1 (shop_node shop1 in_shop1 id n Hn'))). }
  apply rtc_once, (edit_step shop2). fold shop3.
  intros id n' Hn' _. destruct (shop_node shop3 in_shop3 id n' Hn') as [-> ->]. exists (the_node shop2). split; vm_compute; reflexivity.
Qed.

Lemma all_fine_fair : fair all_fine.
Proof. split; [|done]. split; [|split]; discriminate. Qed.

(** The node changed over to the new port and name. *)
Lemma settings_settle_witness : (demo_job all_fine).1 = None /\ agrees (demo_job all_fine).2 1 /\
  EntryPort <$> FindNode (cur (w_store (demo_job all_fine).2)) 1 = Some 8443.
Proof.
  pose proof (settings_settle demo_fold demo_parse demo_ca demo_list demo_prefix demo_marshal demo_world all_fine 1 demo_change shop3_inv demo_agrees all_fine_fair) as H.
  unfold demo_job. assert ((demo_job all_fine).1 = None) as He by (vm_compute; reflexivity). unfold demo_job in He.
  destruct (runSettings demo_fold demo_parse demo_ca demo_list demo_prefix demo_marshal all_fine 1 demo_change demo_world) as [e w']. cbn [fst snd] in *. rewrite He in H.
  destruct H as [[Ha Hf] _]. split; [exact He|]. split; [exact Ha|]. rewrite Hf. vm_compute. reflexivity.
Defined.

(** A push that was lost on the way back, undone. *)
Definition lost_job : job_env := MkJobEnv true None true true (MkMeets None false (TakenLost OUnreachable) None None) fine false true fine false.
Definition demo_keys : RealityKeys := MkKeys "BBBBBBBBBBBBBBBBBBBBBBBBBBBBBBBBBBBBBBBBBBA" "PBK" "c3d4".
Lemma rotate_settles_witness : exists w', runRotate demo_fold demo_parse demo_ca demo_list demo_prefix demo_marshal demo_pair lost_job 1 demo_keys demo_world = (Some (JPutBack (JPush OUnreachable) true), w') /\
  cur (w_store w') = cur shop3 /\ agrees w' 1.
Proof.
  assert (fair lost_job) as Hfair by (split; [split; [intros e [= <-]; reflexivity|split; discriminate]|done]).
  pose proof (rotate_settles demo_fold demo_parse demo_ca demo_list demo_prefix demo_marshal demo_pair demo_world lost_job 1 demo_keys shop3_inv demo_agrees Hfair) as H.
  assert ((runRotate demo_fold demo_parse demo_ca demo_list demo_prefix demo_marshal demo_pair lost_job 1 demo_keys demo_world).1 = Some (JPutBack (JPush OUnreachable) true)) as He by (vm_compute; reflexivity).
  destruct (runRotate _ _ _ _ _ _ _ _ _ _ _) as [e w']. cbn [fst] in He. subst e. exists w'. destruct H as [[Hc Ha] _]. split; [reflexivity|]. split; [exact Hc|exact Ha].
Defined.

(** The link of the node that changed over. *)
Lemma links_open_witness : exists p i l, Link (cur (w_store (demo_job all_fine).2)) 1 1 = Ok l /\ BuildLink p = Ok (l_Vless l) /\
  w_conf (demo_job all_fine).2 !! 1 = Some i /\ p_Port p = i_EntryPort i /\ i_EntryPort i = 8443.
Proof.
  assert (match Link (cur (w_store (demo_job all_fine).2)) 1 1 with Ok _ => true | Err _ => false end = true) as Hl by (vm_compute; reflexivity).
  destruct (Link (cur (w_store (demo_job all_fine).2)) 1 1) as [l|] eqn:Hlink; [clear Hl|discriminate Hl].
  destruct (links_open demo_fold demo_parse demo_ca demo_list demo_prefix demo_marshal demo_pair (demo_job all_fine).2 1 1 l) as (p & i & Hb & Hi & Hp & _).
  - eapply rtc_r; [apply demo_world_run|]. apply (ws_settings _ _ _ _ _ _ _ demo_world all_fine 1 (the_node shop3) demo_change (demo_job all_fine).1).
    + vm_compute. reflexivity.
    + vm_compute. reflexivity.
    + apply surjective_pairing.
    + split; [apply all_fine_fair|]. intros c. vm_compute. discriminate.
  - exact Hlink.
  - exists p, i, l. split; [reflexivity|]. split; [exact Hb|]. split; [exact Hi|]. split; [exact Hp|].
    assert ((i_EntryPort <$> w_conf (demo_job all_fine).2 !! 1) = Some 8443) as Hport by (vm_compute; reflexivity). rewrite Hi in Hport. by injection Hport.
Defined.

(** A job that is cut off while the answer to its push is lost, as when the hub closes:
    the node runs the new settings, the state has the old ones and the link leads to a
    port that is closed. Nothing pushes a config later on. *)
Definition cut_job : job_env := MkJobEnv true None true true (MkMeets None false (TakenLost OUnreachable) None None) fine true true fine true.
Example cut_off_disagrees :
  let '(e, w') := demo_job cut_job in
  e = Some (JPush OUnreachable) /\ EntryPort <$> FindNode (cur (w_store w')) 1 = Some 443 /\ i_EntryPort <$> w_conf w' !! 1 = Some 8443.
Proof. vm_compute. split_and!; reflexivity. Qed.

