(* ===== verification/RuneText.v ===== *)
(** * Text cut into runes

    Lemmas on [GoUnicode] and on [JobText.clip] that the hub's messages need: how valid
    text falls into runes when it is put together, that clipped text is valid UTF-8, how
    long it is in runes and in bytes, what is left as it is, and that text with words in
    it keeps some. *)

From S2P Require Import Prelude GoUnicode JobText.

(** The bytes of exactly one valid rune. *)
Definition one (u : bytes) : Prop := (decodeRune u).2 = true /\ (decodeRune u).1.2 = length u.

Lemma decode_app u r : (decodeRune u).2 = true -> decodeRune (u ++ r) = decodeRune u.
Proof.
  destruct u as [|b0 u]; [done|]. cbn [app decodeRune]. destruct (code b0 <? 0x80); [done|].
  destruct u as [|b1 u]; [done|]. cbn [app]. destruct (between 0xC2 0xDF (code b0)); [done|].
  destruct u as [|b2 u]; [done|]. cbn [app]. destruct (between 0xE0 0xEF (code b0)); [done|].
  destruct u as [|b3 u]; done.
Qed.

Lemma decode_take b : (decodeRune b).2 = true -> one (take (decodeRune b).1.2 b).
Proof.
  intros H. unfold one. destruct b as [|b0 b]; [done|]. cbn [decodeRune] in *. destruct (code b0 <? 0x80) eqn:E0; [cbn; rewrite E0; done|].
  destruct b as [|b1 b]; [done|]. destruct (between 0xC2 0xDF (code b0)) eqn:E1.
  { destruct (is_cont b1) eqn:E; [|done]. cbn. rewrite E0, E1, E. done. }
  destruct b as [|b2 b]; [done|]. destruct (between 0xE0 0xEF (code b0)) eqn:E2.
  { destruct (_ && is_cont b2) eqn:E; [|done]. cbn. rewrite E0, E1, E2, E. done. }
  destruct b as [|b3 b]; [done|]. destruct (between 0xF0 0xF4 (code b0)) eqn:E3; [|done].
  destruct (_ && is_cont b3) eqn:E; [|done]. cbn. rewrite E0, E1, E2, E3, E. done.
Qed.

(** Fewer bytes to read do not make an invalid front valid. *)
Lemma decode_bad_prefix a b : (decodeRune (a ++ b)).2 = false -> (decodeRune a).2 = false.
Proof. destruct ((decodeRune a).2) eqn:H; [|done]. intros Hab. by rewrite decode_app, H in Hab. Qed.

Lemma segments_cons b : b <> [] ->
  segments b = MkSeg (decodeRune b).1.1 (take (decodeRune b).1.2 b) (decodeRune b).2 :: segments (drop (decodeRune b).1.2 b).
Proof.
  intros Hne. destruct b as [|b0 b]; [done|]. unfold segments at 1. cbn [length segments_go].
  pose proof (decodeRune_width (b0 :: b) ltac:(done)) as Hw. destruct (decodeRune (b0 :: b)) as [[r w] ok]. cbn [fst snd] in *. f_equal.
  apply segments_go_enough. rewrite length_drop. cbn [length] in *. lia.
Qed.

Lemma segments_one u r : one u -> segments (u ++ r) = MkSeg (decodeRune u).1.1 u true :: segments r.
Proof.
  intros [Hok Hw]. assert (u ++ r <> []) as Hne by (destruct u; [by cbn in Hok|done]). rewrite segments_cons by done. rewrite decode_app by done.
  rewrite Hok, Hw. by rewrite take_app_length, drop_app_length.
Qed.

Lemma valid_one b : valid b -> b <> [] -> exists u r, b = u ++ r /\ one u /\ valid r.
Proof.
  intros Hv Hne. unfold valid in Hv. rewrite segments_cons in Hv by done. cbn [forallb seg_ok] in Hv. apply andb_true_iff in Hv as [Hok Hv].
  exists (take (decodeRune b).1.2 b), (drop (decodeRune b).1.2 b). split; [by rewrite take_drop|]. split; [by apply decode_take|done].
Qed.

Lemma one_nonempty u : one u -> u <> [].
Proof. intros [H _] ->. discriminate H. Qed.

Lemma one_by_one (P : bytes -> Prop) : P [] -> (forall u r, one u -> valid r -> P r -> P (u ++ r)) -> forall b, valid b -> P b.
Proof.
  intros H0 Hs b. induction b as [b IH] using (induction_ltof1 _ (@length ascii)). unfold ltof in IH. intros Hv.
  destruct (decide (b = [])) as [->|Hne]; [done|]. destruct (valid_one b Hv Hne) as (u & r & -> & Hu & Hr).
  apply Hs; [done..|]. apply IH; [|done]. apply one_nonempty in Hu. rewrite length_app. destruct u; [done|cbn; lia].
Qed.

Lemma segments_app a b : valid a -> segments (a ++ b) = segments a ++ segments b.
Proof.
  revert a. apply one_by_one; [done|]. intros u r Hu _ IH. rewrite <-app_assoc. rewrite (segments_one u (r ++ b)) by done. rewrite (segments_one u r) by done. by rewrite IH.
Qed.

Lemma valid_app a b : valid a -> valid b -> valid (a ++ b).
Proof. intros Ha Hb. unfold valid. rewrite segments_app by done. rewrite forallb_app, andb_true_iff. done. Qed.

Lemma one_valid u : one u -> valid u.
Proof. intros Hu. unfold valid. rewrite <-(app_nil_r u), segments_one by done. done. Qed.

(** What [segments] makes are runes, or single bytes that are none. *)
Lemma segments_parts b : Forall (fun s => if seg_ok s then one (seg_bytes s) /\ rune s = (decodeRune (seg_bytes s)).1.1 else seg_bytes s <> []) (segments b).
Proof.
  induction b as [b IH] using (induction_ltof1 _ (@length ascii)). unfold ltof in IH. destruct (decide (b = [])) as [->|Hne]; [constructor|].
  rewrite segments_cons by done. pose proof (decodeRune_width b Hne) as Hw. constructor.
  - cbn [seg_ok seg_bytes rune]. destruct (decodeRune b).2 eqn:Hok.
    + split; [by apply decode_take|]. rewrite <-(take_drop (decodeRune b).1.2 b) at 1. rewrite decode_app; [done|by apply decode_take].
    + intros Ht. apply (f_equal length) in Ht. rewrite length_take in Ht. cbn in Ht. lia.
  - apply IH. rewrite length_drop. lia.
Qed.

(** Joining runs of valid runes. *)
Definition sound (s : segment) : Prop := seg_ok s = true /\ one (seg_bytes s) /\ rune s = (decodeRune (seg_bytes s)).1.1.

Lemma segments_of_join l : Forall sound l -> segments (join_segments l) = l.
Proof.
  induction 1 as [|s l (Hok & Hone & Hr) _ IH]; [done|]. unfold join_segments in *. cbn [fmap list_fmap mjoin list_join]. rewrite segments_one by done. f_equal; [|done].
  destruct s as [r b ok]. cbn in *. by subst.
Qed.

Lemma valid_sound b : valid b -> Forall sound (segments b).
Proof.
  intros Hv. pose proof (segments_parts b) as Hp. unfold valid in Hv. rewrite forallb_forall in Hv. rewrite Forall_forall in *. intros s Hs.
  specialize (Hp s Hs). specialize (Hv s ltac:(by apply list_elem_of_In)). rewrite Hv in Hp. done.
Qed.

(** ** [ToValidUTF8] *)

Lemma to_valid_sound c l bad : one c -> Forall (fun s => if seg_ok s then one (seg_bytes s) /\ rune s = (decodeRune (seg_bytes s)).1.1 else seg_bytes s <> []) l ->
  valid (to_valid c bad l) /\ (length (segments (to_valid c bad l)) <= length l)%nat.
Proof.
  intros Hc Hl. revert bad. induction Hl as [|s l Hs Hl IH]; intros bad; [done|]. cbn [to_valid length]. destruct (seg_ok s) eqn:Hok.
  - destruct Hs as [Ho _]. specialize (IH false) as [H1 H2]. split; [by apply valid_app; [apply one_valid|]|]. rewrite segments_one by done. cbn [length]. lia.
  - specialize (IH true) as [H1 H2]. destruct bad; [split; [done|lia]|]. split; [by apply valid_app; [apply one_valid|]|]. rewrite segments_one by done. cbn [length]. lia.
Qed.

Lemma to_valid_id c l bad : Forall sound l -> to_valid c bad l = join_segments l.
Proof. intros Hl. revert bad. induction Hl as [|s l (Hok & _) _ IH]; intros bad; [done|]. cbn [to_valid]. rewrite Hok, IH. done. Qed.

Lemma replacement_one : one replacement.
Proof. split; reflexivity. Qed.
Lemma ellipsis_one : one ellipsis.
Proof. split; reflexivity. Qed.

Lemma ToValid_valid s : valid (to_bytes (ToValidUTF8 s (of_bytes replacement))).
Proof. unfold ToValidUTF8. rewrite !to_of_bytes. apply to_valid_sound; [apply replacement_one|apply segments_parts]. Qed.

Lemma ToValid_id s : valid (to_bytes s) -> ToValidUTF8 s (of_bytes replacement) = s.
Proof. intros Hv. unfold ToValidUTF8. rewrite to_valid_id by by apply valid_sound. by rewrite segments_join, of_to_bytes. Qed.

(** ** [clip] *)

Lemma take_rune_end n b : valid b -> take (rune_end n b) b = join_segments (take n (segments b)).
Proof.
  intros Hv. revert n. pattern b. revert b Hv. apply one_by_one; [intros n; rewrite take_nil; by destruct n|]. intros u r Hu _ IH [|n]; [done|].
  cbn [rune_end]. rewrite segments_one by done. destruct Hu as [Hok Hw]. rewrite decode_app by done. rewrite Hw, drop_app_length.
  rewrite take_app_add. by rewrite IH.
Qed.

Lemma clip_cases s max : let t := ToValidUTF8 (TrimSpace s) (of_bytes replacement) in
  RuneCountInString t <= max /\ clip s max = t \/
  max < RuneCountInString t /\ to_bytes (clip s max) = join_segments (take (Z.to_nat (max - 1)) (segments (to_bytes t))) ++ ellipsis.
Proof.
  intros t. unfold clip. fold t. destruct (Z.leb_spec (RuneCountInString t) max); [by left|]. right. split; [done|]. rewrite to_of_bytes, take_rune_end; [done|]. apply ToValid_valid.
Qed.

Lemma take_sound n b : valid b -> Forall sound (take n (segments b)).
Proof. intros Hv. apply Forall_take. by apply valid_sound. Qed.

Lemma join_valid l : Forall sound l -> valid (join_segments l).
Proof.
  intros Hl. unfold valid. rewrite segments_of_join by done. apply forallb_forall. intros s Hs. rewrite Forall_forall in Hl. apply Hl. by apply list_elem_of_In.
Qed.

Lemma clip_valid s max : valid (to_bytes (clip s max)).
Proof.
  destruct (clip_cases s max) as [[_ ->]|[_ ->]]; [apply ToValid_valid|]. apply valid_app; [|apply one_valid, ellipsis_one]. apply join_valid, take_sound, ToValid_valid.
Qed.

Lemma clip_count s max : 1 <= max -> RuneCountInString (clip s max) <= max.
Proof.
  intros Hm. destruct (clip_cases s max) as [[H ->]|[H Hc]]; [done|]. unfold RuneCountInString. rewrite Hc.
  pose proof (take_sound (Z.to_nat (max - 1)) _ (ToValid_valid (TrimSpace s))) as Hs. rewrite segments_app by by apply join_valid. rewrite segments_of_join by done.
  rewrite length_app, length_take. change (length (segments ellipsis)) with 1%nat. lia.
Qed.

Lemma clip_id s max : valid (to_bytes s) -> TrimSpace s = s -> RuneCountInString s <= max -> clip s max = s.
Proof.
  intros Hv Ht Hc. unfold clip. rewrite Ht, ToValid_id by done. by rewrite (proj2 (Z.leb_le _ _) Hc).
Qed.

(** A rune has four bytes at most. *)
Lemma decode_width4 b : ((decodeRune b).1.2 <= 4)%nat.
Proof.
  destruct b as [|b0 b]; cbn [decodeRune]; [cbn; lia|]. repeat (case_match; cbn [fst snd]; try lia).
Qed.

Lemma bytes_of_runes b : (length b <= 4 * length (segments b))%nat.
Proof.
  induction b as [b IH] using (induction_ltof1 _ (@length ascii)). unfold ltof in IH. destruct (decide (b = [])) as [->|Hne]; [cbn; lia|].
  rewrite segments_cons by done. pose proof (decodeRune_width b Hne) as Hw. pose proof (decode_width4 b) as H4. cbn [length].
  specialize (IH (drop (decodeRune b).1.2 b)). rewrite length_drop in IH. lia.
Qed.

Lemma clip_bytes s max : 1 <= max -> (length (to_bytes (clip s max)) <= 4 * Z.to_nat max)%nat.
Proof.
  intros Hm. pose proof (clip_count s max Hm) as Hc. pose proof (bytes_of_runes (to_bytes (clip s max))) as Hb. unfold RuneCountInString in Hc. lia.
Qed.

(** ** Words are kept *)

(** The text begins with something that is not a space. *)
Definition starts_word (b : bytes) : Prop := exists x, head (segments b) = Some x /\ seg_ok x && IsSpace (rune x) = false.

Lemma drop_space_segments b : exists b', drop_space (segments b) = segments b'.
Proof.
  induction b as [b IH] using (induction_ltof1 _ (@length ascii)). unfold ltof in IH. destruct (decide (b = [])) as [->|Hne]; [by exists []|].
  rewrite segments_cons by done. cbn [drop_space seg_ok rune]. destruct (_ && _) eqn:Hsp; [|exists b; symmetry; by apply segments_cons].
  apply IH. pose proof (decodeRune_width b Hne). rewrite length_drop. lia.
Qed.

Lemma drop_space_head l x : head (drop_space l) = Some x -> seg_ok x && IsSpace (rune x) = false.
Proof. induction l as [|y l IH]; [done|]. cbn [drop_space]. destruct (seg_ok y && IsSpace (rune y)) eqn:H; [exact IH|]. by intros [= <-]. Qed.

Lemma trim_prefix s : exists b' rest, drop_space (segments (to_bytes s)) = segments b' /\ b' = to_bytes (TrimSpace s) ++ rest /\
  head (reverse (drop_space (reverse (segments b')))) = (if decide (TrimSpace s = "") then None else head (segments b')).
Proof.
  destruct (drop_space_segments (to_bytes s)) as [b' Hb]. destruct (drop_space_part (reverse (segments b'))) as [q Hq]. exists b', (join_segments (reverse q)).
  assert (segments b' = reverse (drop_space (reverse (segments b'))) ++ reverse q) as Hseg by (rewrite <-reverse_app, <-Hq; by rewrite reverse_involutive).
  split; [done|]. assert (to_bytes (TrimSpace s) = join_segments (reverse (drop_space (reverse (segments b'))))) as Ht by (unfold TrimSpace; by rewrite Hb, to_of_bytes).
  split; [rewrite Ht, <-join_app, <-Hseg; symmetry; apply segments_join|].
  case_decide as He.
  - rewrite He in Ht. cbn in Ht. destruct (reverse (drop_space (reverse (segments b')))) as [|x l] eqn:Hl; [done|]. exfalso.
    pose proof (segments_parts b') as Hp. rewrite Hseg in Hp. apply Forall_app in Hp as [Hp _]. inversion Hp as [|? ? Hx]; subst. unfold join_segments in Ht. cbn in Ht.
    symmetry in Ht. apply app_nil in Ht as [Hx0 _]. destruct (seg_ok x); [destruct Hx as [Hx _]; by apply one_nonempty in Hx|done].
  - rewrite Hseg at 2. destruct (reverse (drop_space (reverse (segments b')))) as [|x l]; [|done]. exfalso. apply He. cbn in Ht. rewrite <-(of_to_bytes (TrimSpace s)). by rewrite Ht.
Qed.

Lemma segments_head b x : head (segments b) = Some x -> b <> [] /\ x = MkSeg (decodeRune b).1.1 (take (decodeRune b).1.2 b) (decodeRune b).2.
Proof. intros H. destruct (decide (b = [])) as [->|Hne]; [done|]. split; [done|]. rewrite segments_cons in H by done. by injection H. Qed.

Lemma trimmed_starts s : TrimSpace s <> "" -> starts_word (to_bytes (TrimSpace s)).
Proof.
  intros Hne. destruct (trim_prefix s) as (b' & rest & Hdrop & Hb & Hhead). rewrite decide_False in Hhead by done.
  assert (exists x, head (segments b') = Some x) as [x Hx].
  { assert (b' <> []) as Hn by (rewrite Hb; intros [H _]%app_nil; apply Hne; rewrite <-(of_to_bytes (TrimSpace s)); by rewrite H). rewrite segments_cons by done. by eexists. }
  pose proof Hx as Hsp. rewrite <-Hdrop in Hsp. apply drop_space_head in Hsp. apply segments_head in Hx as [_ ->]. cbn [seg_ok rune] in Hsp.
  assert (to_bytes (TrimSpace s) <> []) as Hnb by (intros H; apply Hne; rewrite <-(of_to_bytes (TrimSpace s)); by rewrite H).
  eexists. rewrite segments_cons by done. split; [done|]. cbn [seg_ok rune]. destruct (decodeRune (to_bytes (TrimSpace s))).2 eqn:Hok; [|done].
  rewrite Hb, decode_app in Hsp by done. by rewrite Hok in Hsp.
Qed.

Lemma starts_not_blank s : starts_word (to_bytes s) -> TrimSpace s <> "".
Proof.
  intros (x & Hx & Hsp) Hblank. destruct (trim_prefix s) as (b' & rest & Hdrop & Hb & _). rewrite Hblank in Hb. cbn in Hb. subst rest.
  assert (drop_space (segments (to_bytes s)) = segments (to_bytes s)) as Hid.
  { destruct (segments (to_bytes s)) as [|y l]; [done|]. injection Hx as ->. cbn [drop_space]. by rewrite Hsp. }
  assert (exists q, reverse (segments (to_bytes s)) = q ++ [x]) as [q Hq].
  { destruct (segments (to_bytes s)) as [|y l]; [done|]. injection Hx as ->. exists (reverse l). by rewrite reverse_cons. }
  assert (forall q, exists p, drop_space (q ++ [x]) = p ++ [x]) as Hkeep.
  { intros p. induction p as [|y p [r IH]]; [exists []; cbn; by rewrite Hsp|]. cbn [app drop_space]. destruct (seg_ok y && IsSpace (rune y)); [exists r; exact IH|by exists (y :: p)]. }
  unfold TrimSpace in Hblank. rewrite Hid, Hq in Hblank. destruct (Hkeep q) as [p Hp]. rewrite Hp, reverse_app in Hblank.
  apply (f_equal to_bytes) in Hblank. rewrite to_of_bytes in Hblank. unfold join_segments in Hblank. cbn in Hblank. apply app_nil in Hblank as [Hxb _].
  pose proof (segments_parts (to_bytes s)) as Hparts. destruct (segments (to_bytes s)) as [|y l]; [done|]. injection Hx as ->. inversion Hparts as [|? ? Hx]; subst.
  destruct (seg_ok x); [destruct Hx as [Hx _]; by apply one_nonempty in Hx|done].
Qed.

Lemma starts_app a b : valid a -> starts_word a -> starts_word (a ++ b).
Proof. intros Hv (x & Hx & Hsp). exists x. split; [|done]. rewrite segments_app by done. destruct (segments a); done. Qed.

Lemma ToValid_starts s : starts_word (to_bytes s) -> starts_word (to_bytes (ToValidUTF8 s (of_bytes replacement))).
Proof.
  intros (x & Hx & Hsp). unfold ToValidUTF8. rewrite !to_of_bytes. pose proof (segments_parts (to_bytes s)) as Hp. destruct (segments (to_bytes s)) as [|y l]; [done|].
  injection Hx as ->. inversion Hp as [|? ? Hx]; subst. cbn [to_valid]. destruct (seg_ok x) eqn:Hok.
  - destruct Hx as [Ho Hr]. eexists. rewrite segments_one by done. split; [done|]. cbn [seg_ok rune]. rewrite <-Hr. exact Hsp.
  - eexists. rewrite segments_one by apply replacement_one. split; [done|]. reflexivity.
Qed.

(** Text that is not blank begins with a word when it is clipped. *)
Lemma clip_starts s max : 2 <= max -> TrimSpace s <> "" -> starts_word (to_bytes (clip s max)).
Proof.
  intros Hm Hs. apply trimmed_starts, ToValid_starts in Hs. destruct (clip_cases s max) as [[_ ->]|[_ ->]]; [done|].
  pose proof (take_sound (Z.to_nat (max - 1)) _ (ToValid_valid (TrimSpace s))) as Ht. apply starts_app; [by apply join_valid|]. destruct Hs as (x & Hx & Hsp). exists x. split; [|done].
  rewrite segments_of_join by done. destruct (segments _) as [|y l]; [done|]. injection Hx as ->. destruct (Z.to_nat (max - 1)) eqn:Hn; [lia|done].
Qed.

(** The first runes of a valid text. *)
Lemma take_valid n b : valid b -> valid (join_segments (list.take n (segments b))) /\ length (segments (join_segments (list.take n (segments b)))) = Nat.min n (length (segments b)).
Proof. intros Hv. pose proof (take_sound n b Hv) as Hs. split; [by apply join_valid|]. by rewrite segments_of_join, length_take. Qed.

Lemma take_starts n b : valid b -> starts_word b -> (1 <= n)%nat -> starts_word (join_segments (list.take n (segments b))).
Proof.
  intros Hv (x & Hx & Hsp) Hn. exists x. split; [|done]. rewrite segments_of_join by by apply take_sound. destruct (segments b) as [|y l]; [done|]. destruct n; [lia|done].
Qed.

Lemma drop_space_sound l : Forall sound l -> Forall sound (drop_space l).
Proof. intros Hl. destruct (drop_space_part l) as [p Hp]. rewrite Hp in Hl. by apply Forall_app in Hl as [_ Hl]. Qed.

Lemma trim_valid s : valid (to_bytes s) -> valid (to_bytes (TrimSpace s)).
Proof. intros Hv. unfold TrimSpace. rewrite to_of_bytes. apply join_valid, Forall_reverse, drop_space_sound, Forall_reverse, drop_space_sound, valid_sound, Hv. Qed.

(** A text that begins with a word and ends in a visible ASCII character is trimmed. *)
Lemma trimmed_already a c : valid a -> starts_word (a ++ [c]) -> one [c] -> IsSpace (code c) = false -> TrimSpace (of_bytes (a ++ [c])) = of_bytes (a ++ [c]).
Proof.
  intros Hv (x & Hx & Hsp) Hc Hn. apply TrimSpace_id; rewrite to_of_bytes.
  - intros y Hy. congruence.
  - rewrite segments_app by done. pose proof (segments_one [c] [] Hc) as H1. cbn [app] in H1. rewrite H1. intros y Hy. rewrite last_app in Hy. cbn in Hy. injection Hy as <-.
    cbn [seg_ok rune]. destruct Hc as [Hok _]. cbn in Hok |- *. destruct (code c <? 0x80) eqn:Ha; [|done]. cbn. exact Hn.
Qed.
