(* ===== verification/HubInstall.v ===== *)
(** * Installing nodes and taking them out

    internal/remotenodes/manager/install.go and remove.go, the login of input.go, the
    versions of versions.go, the steps of runjob.go, stepkeys.go and of
    internal/remotenodes/agentops/steps.go: a node is saved as installing, a job puts
    the agent on the server and makes the node an entry, and one that fails cleans the
    server and forgets the node, or keeps the record as an unfinished install. The fleet
    is the store, the installs that run, and the servers that have something of an
    install on them. What becomes of each call to a server, of each write and of the job
    itself, which may panic in a call, is an argument; so are the keys and ids that are
    drawn. Jobs on different nodes touch different records and servers, so each is one
    step; the usage of a node that is forgotten is in [UsageCollector].

    Theorems: how an install ended is how it says ([install_ends]); a record that is kept
    is an unfinished install with words in it ([failure_recorded]); what was done is
    never cut from the job's error ([failure_told]); and no server is left with an agent
    that the state does not have, but by force ([servers_known]). *)

From S2P Require Import Prelude GoString GoUnicode GoNetip GoUrl JobText Jobs RuneText Emails HubState HubStore HubLimits BridgeSpec BridgeBuild HubClients HubSubs HubLink NodeCfg HubSettings.

(** ** Steps: [agentops/steps.go], [runjob.go] and [stepkeys.go] *)

Definition StepCheckServer : string := "Check the server".
Definition StepDownloadAgent : string := "Download the agent".
Definition StepCertificate : string := "Create the certificate".
Definition StepPrepareServer : string := "Prepare the server".
Definition StepUploadAgent : string := "Upload the agent".
Definition StepStartAgent : string := "Start the agent".
Definition StepCheckAgent : string := "Check the agent".
Definition StepStopAgent : string := "Stop the agent".
Definition StepRemoveAgent : string := "Remove the agent".
Definition StepRestartAgent : string := "Restart the agent".
Definition StepDownloadXray : string := "Download Xray".
Definition StepUploadXray : string := "Upload Xray".
Definition StepCheckXray : string := "Check Xray".
Definition StepChooseTarget : string := "Choose a Reality target".
Definition StepCreateKeys : string := "Create the keys".
Definition StepApplyConfig : string := "Apply the configuration".
Definition StepCleanServer : string := "Clean up the server".
Definition StepTakeOverXray : string := "Take over the server's Xray".
Definition StepConnect : string := "Connect to the agent".
Definition StepSaveNode : string := "Save the node".
Definition StepRenewCert : string := "Renew the certificate".
Definition StepForgetNode : string := "Forget the node".
Definition StepDiscardNode : string := "Discard the node".

Definition InstallPlan : list string :=
  [StepCheckServer; StepDownloadAgent; StepCertificate; StepPrepareServer; StepUploadAgent; StepStartAgent; StepCheckAgent].
(** [slices.Index], plus one. *)
Definition after_step (s : string) (l : list string) : nat := match list_find (fun x => x = s) l with Some (i, _) => S i | None => 0%nat end.
Definition InstallPlanFor (takeOver : bool) : list string :=
  if takeOver then let i := after_step StepCertificate InstallPlan in list.take i InstallPlan ++ [StepTakeOverXray] ++ drop i InstallPlan else InstallPlan.
Definition UninstallPlan : list string := [StepCheckServer; StepStopAgent; StepRemoveAgent].
Definition ProvisionPlan : list string := [StepDownloadXray; StepUploadXray; StepCheckXray; StepChooseTarget; StepCreateKeys; StepApplyConfig].
Definition installSteps (takeOver : bool) : list string := InstallPlanFor takeOver ++ [StepConnect] ++ ProvisionPlan ++ [StepSaveNode].
Definition removeSteps (force : bool) : list string := if force then [StepForgetNode] else UninstallPlan ++ [StepForgetNode].

Definition stepKeys : list (string * string) :=
  [(StepCheckServer, "check_server"); (StepDownloadAgent, "download_agent"); (StepCertificate, "create_certificate"); (StepPrepareServer, "prepare_server");
   (StepUploadAgent, "upload_agent"); (StepStartAgent, "start_agent"); (StepCheckAgent, "check_agent"); (StepStopAgent, "stop_agent");
   (StepRemoveAgent, "remove_agent"); (StepRestartAgent, "restart_agent"); (StepDownloadXray, "download_xray"); (StepUploadXray, "upload_xray");
   (StepCheckXray, "check_xray"); (StepChooseTarget, "choose_target"); (StepCreateKeys, "create_keys"); (StepApplyConfig, "apply_config");
   (StepCleanServer, "clean_server"); (StepTakeOverXray, "take_over_xray"); (StepConnect, "connect_agent"); (StepSaveNode, "save_node");
   (StepRenewCert, "renew_cert"); (StepForgetNode, "forget_node"); (StepDiscardNode, "discard_node")].
Definition StepKey (name : string) : string := match list_find (fun p => p.1 = name) stepKeys with Some (_, p) => p.2 | None => "" end.

(** ** Versions: [versions.go] *)

(** [strings.Fields] *)
Fixpoint fields_go (word : bytes) (l : list segment) : list bytes :=
  match l with
  | [] => if bool_decide (word = []) then [] else [word]
  | s :: l => if seg_ok s && IsSpace (rune s) then (if bool_decide (word = []) then fields_go [] l else word :: fields_go [] l) else fields_go (word ++ seg_bytes s) l
  end.
Definition Fields (s : string) : list bytes := fields_go [] (segments (to_bytes s)).

Definition strip_v (l : bytes) : bytes := match l with c :: l' => if bool_decide (c = "v"%char) then l' else l | [] => [] end.
(** Digits and dots, with one dot at least, and maybe a v. *)
Definition dotted (l : bytes) : bool :=
  let parts := split_on "." (strip_v l) in (2 <=? length parts)%nat && forallb (fun p => negb (bool_decide (p = [])) && forallb is_digit p) parts.
Definition xrayVersionOf (s : string) : string := match List.find dotted (Fields s) with Some f => of_bytes (strip_v f) | None => "" end.
Definition agentVersionOf (s : string) : string :=
  let l := to_bytes (TrimSpace s) in
  let l := match l with "v"%char :: c :: l' => if is_digit c then c :: l' else l | _ => l end in
  TrimSpace (of_bytes (list.take 64 (List.filter (fun c => between 0x20 0x7e (code c)) l))).
Definition firstOf (a b : string) : string := if bool_decide (a = "") then b else a.

(** ** The login: [input.go] *)

Record ApiLogin := MkApiLogin { al_SSHPort : Z; al_SSHUser : string; al_Password : string; al_PrivateKey : string; al_Passphrase : string; al_HostKey : string }.
Record creds := MkCreds { cr_Password : string; cr_PrivateKey : string; cr_Passphrase : string }.
Record login := MkLogin { lg_port : Z; lg_user : string; lg_hostKey : string; lg_creds : creds }.

Definition sshPortOf (p : Z) : result error Z :=
  if p =? 0 then Ok 22 else if (p <? 1) || (65535 <? p) then Err (ErrInvalid "the SSH port must be between 1 and 65535") else Ok p.

Definition cleanUser (s : string) : result error string :=
  let s := TrimSpace s in
  if bool_decide (s = "") then Ok "root" else
  if (64 <? length (to_bytes s))%nat then Err (ErrInvalid "the SSH user name can have at most 64 characters") else
  if existsb (fun c => (code c <=? 32) || (0x7f <=? code c)) (to_bytes s) then Err (ErrInvalid "the SSH user name must be printable characters without a space") else Ok s.

Definition hostKeyRe (s : string) : bool :=
  match CutPrefix s "SHA256:" with
  | Some r => (length (to_bytes r) =? 43)%nat && forallb (fun c => alnum c || one_of "+/" c) (to_bytes r)
  | None => false
  end.

Definition too_long (n : Z) (s : string) : bool := n <? Z.of_nat (length (to_bytes s)).
Definition cleanLogin (l : ApiLogin) : result error login :=
  (port <~ sshPortOf (al_SSHPort l) ;;
   user <~ cleanUser (al_SSHUser l) ;;
   let key := TrimSpace (al_HostKey l) in
   refuse (negb (hostKeyRe key)) (ErrInvalid "confirm the server's host key first") ;;~
   refuse (bool_decide (al_Password l = "") && bool_decide (TrimSpace (al_PrivateKey l) = "")) (ErrInvalid "give a password or a private key") ;;~
   refuse (too_long 1024 (al_Password l)) (ErrInvalid "the password is longer than 1024 characters") ;;~
   refuse (too_long 1024 (al_Passphrase l)) (ErrInvalid "the passphrase is longer than 1024 characters") ;;~
   refuse (too_long 16384 (al_PrivateKey l)) (ErrInvalid "the private key is longer than 16384 characters") ;;~
   Ok (MkLogin port user key (MkCreds (al_Password l) (al_PrivateKey l) (al_Passphrase l))))%go.

Definition secrets (l : login) (more : list string) : list string :=
  filter (fun s => s <> "") ([cr_Password (lg_creds l); cr_Passphrase (lg_creds l); cr_PrivateKey (lg_creds l)] ++ more).

(** ** Words: [ops.go] and [install.go] *)

Definition maxMsg : Z := 500.
Definition clipText (s : string) : string := clip s maxMsg.

Inductive outcome := leftAlone | cleanedUp | keptAsIs.
Definition tookOverNote : string := "The server's own Xray was stopped and removed, as you asked, and is not restored.".
Definition failed_then (o : outcome) (tookOver : bool) : string :=
  match o with
  | leftAlone => "Nothing was changed on the server, and nothing was kept."
  | cleanedUp => "The server was cleaned up and nothing was kept."
  | keptAsIs => "Cleaning up the server failed too, so the install is kept as unfinished: clean it up or forget it on the Nodes tab."
  end +:+ (if tookOver then " " +:+ tookOverNote else "").

(** [string([]rune(s)[:n])] *)
Definition first_runes (n : nat) (s : string) : string := of_bytes (mjoin ((fun x => if seg_ok x then seg_bytes x else replacement) <$> list.take n (segments (to_bytes s)))).
Definition ends_sentence (s : string) : bool := existsb (fun e => match CutSuffix s e with Some _ => true | None => false end) ["."; "!"; "?"; hidden].
(** [failedInstall.Error], of the text of the cause. *)
Definition failed_Error (cause : string) (o : outcome) (tookOver : bool) : string :=
  let said := failed_then o tookOver in
  let cause := TrimSpace cause in
  let room := MaxError - RuneCountInString said - 2 in
  let cause := if room <? RuneCountInString cause then first_runes (Z.to_nat (room - 1)) cause +:+ hidden else cause in
  let cause := if ends_sentence cause then cause else cause +:+ "." in
  cause +:+ " " +:+ said.

(** ** The fleet *)

Record install_job := MkIJob { ij_node : Node; ij_login : login; ij_keys : RealityKeys; ij_takeOver : bool; ij_target : string }.
(** [f_jobs] are the installs that run, by node; [f_put] are the servers that may have
    something of an install on them, by address, with the node it was for. *)
Record fleet := MkFleet { f_store : Store; f_jobs : gmap Z install_job; f_put : gmap string Z }.
Definition with_st (st : Store) (w : fleet) : fleet := MkFleet st (f_jobs w) (f_put w).
Definition put_on (n : Node) (w : fleet) : fleet := MkFleet (f_store w) (f_jobs w) (<[Host n := N_ID n]> (f_put w)).
Definition taken_off (n : Node) (w : fleet) : fleet := MkFleet (f_store w) (f_jobs w) (delete (Host n) (f_put w)).
Definition busy (w : fleet) (id : Z) : bool := bool_decide (is_Some (f_jobs w !! id)).

Section install.
Context (fold : Z -> Z) (ParseAddr : string -> option Addr) (loadCA : string -> string -> bool).
(** The text of an error of the store. *)
Context (error_text : error -> string).

Definition edit_store (ok : bool) (f : State -> result error State) (w : fleet) : result error unit * fleet :=
  let '(st, r) := Update fold ParseAddr loadCA (f_store w) f ok in (r, with_st st w).

(** *** Adding a node *)

Record InstallRequest := MkIReq { iq_Login : ApiLogin; iq_Name : string; iq_Host : string; iq_EntryPort : Z; iq_TakeOverXray : bool; iq_HandshakeTarget : string }.
Inductive request_error := Refused (e : error) | NotSetUp | NoKeys | NotStarted | NeedsLogin | NodeBusy (id : Z).

Definition cleanInstallTarget (s : string) : result error string :=
  if bool_decide (TrimSpace s = "") then Ok "" else
  rbind (fun t => match ParseAddr (hostOf t) with
    | Some _ => Err (ErrInvalid "the Reality target has to be a host name, not an address")
    | None => Ok t
    end) (cleanTarget ParseAddr s).

Definition MaxUnfinished : Z := 3.
(** A server that is in use is refused with the text of a bad request, and one whose
    install is running as busy. *)
Fixpoint checkNew (running : Z -> bool) (name host : string) (l : list Node) : result error unit :=
  match l with
  | [] => Ok tt
  | o :: l =>
      if HubState.EqualFold fold (N_Name o) name && negb (Unfinished o) then Err (ErrNameTaken name) else
      if bool_decide (Host o = host) then
        if running (N_ID o) then Err (ErrWrap "busy" (ErrNotFound "node" (N_ID o))) else
        if negb (bool_decide (State_ o = NodeRegistered)) then Err (ErrInvalid "An install on that server didn't finish. Clean it up or forget it on the Nodes tab first.")
        else Err (ErrInvalid "That server is already a node here.")
      else checkNew running name host l
  end.

Definition add_edit (running : Z -> bool) (name host : string) (lg : login) (entryPort now : Z) (bridgeID : string) (s : State) : result error (State * Node) :=
  ((if NodeCount s <? HubState.MaxNodes
    then checkNew running name host (Nodes s) ;;~ refuse (MaxUnfinished <=? UnfinishedCount s) (ErrInvalid "There are installs that didn't finish. Clean one up or forget it first.")
    else Ok tt) ;;~
   let entry := if entryPort =? 0 then Set_EntryPort (Settings_ s) else entryPort in
   HubState.AddNode ParseAddr s
     (MkNode 0 name host (lg_port lg) (lg_user lg) (Set_AgentPort (Settings_ s)) entry "" NodeInstalling now "" "" "" "" "" "" "" zeroTime zeroTime
        (lg_hostKey lg) bridgeID noFailure))%go.

Record add_env := MkAddEnv { a_ops : bool; a_jobs : bool; a_keys : option RealityKeys; a_bridge : option string; a_now : Z; a_disk : bool; a_start : bool; a_undo_disk : bool }.

Definition clean_request (req : InstallRequest) : result error (string * string * login * string) :=
  (name <~ CleanName (iq_Name req) ;;
   host <~ CleanHost ParseAddr (iq_Host req) ;;
   lg <~ cleanLogin (iq_Login req) ;;
   target <~ cleanInstallTarget (iq_HandshakeTarget req) ;;
   Ok (name, host, lg, target))%go.

Definition AddNode (v : add_env) (req : InstallRequest) (w : fleet) : result request_error Z * fleet :=
  match clean_request req with
  | Err e => (Err (Refused e), w)
  | Ok (name, host, lg, target) =>
      if negb (a_ops v && a_jobs v) then (Err NotSetUp, w) else
      match a_keys v, a_bridge v with
      | Some keys, Some bridgeID =>
          let add := add_edit (busy w) name host lg (iq_EntryPort req) (a_now v) bridgeID in
          let before := cur (f_store w) in
          match edit_store (a_disk v) (fun s => rbind (fun r => Ok r.1) (add s)) w, add before with
          | (Ok _, w), Ok (_, node) =>
              if a_start v then
                (Ok (N_ID node), MkFleet (f_store w) (<[N_ID node := MkIJob node lg keys (iq_TakeOverXray req) target]> (f_jobs w)) (f_put w))
              else (Err NotStarted, (edit_store (a_undo_disk v) (fun s => HubState.RemoveNode s (N_ID node)) w).2)
          | (Err e, w), _ => (Err (Refused e), w)
          | _, Err e => (Err (Refused e), w)
          end
      | _, _ => (Err NoKeys, w)
      end
  end.

(** *** The install *)

Record InstallResult := MkIRes {
  ir_Arch : string; ir_AgentVersion : string; ir_XrayVersion : string; ir_TookOver : bool; ir_Changed : bool; ir_CertNotBefore : Z; ir_CertNotAfter : Z
}.
Record ProvisionResult := MkPRes {
  pr_HandshakeTarget : string; pr_SNI : string; pr_PublicKey : string; pr_PrivateKey : string; pr_ShortID : string; pr_AgentVersion : string; pr_XrayVersion : string
}.
Inductive call := CallInstall | CallConnect | CallProvision | CallUndo.
(** What an install meets: the calls it panics in, what each gives, and whether each
    write works. An agent that is installed has changed the server. *)
Record install_env := MkIEnv {
  v_panics : call -> bool; v_install : InstallResult * option string; v_connect : option string; v_provision : result string ProvisionResult;
  v_save : bool; v_step : string; v_time : Z; v_undo : option string; v_forget : bool; v_keep : bool
}.

Inductive cause := CInstall (t : string) | CConnect (t : string) | CProvision (t : string) | CSave (e : error).
Definition cause_text (c : cause) : string := match c with CInstall t | CConnect t | CProvision t => t | CSave e => error_text e end.
Record installed := MkInstalled { did_change : bool; did_takeOver : bool }.
Inductive ended := Done | Failed (c : cause) | Panics.
Inductive install_end := Installed | InstallFailed (c : cause) (o : outcome) (tookOver : bool) | InstallPanicked.

Definition registered_as (res : InstallResult) (prov : ProvisionResult) (n : Node) : Node :=
  MkNode (N_ID n) (N_Name n) (Host n) (SSHPort n) (SSHUser n) (AgentPort n) (EntryPort n) (ir_Arch res) NodeRegistered (N_CreatedAt n)
    (pr_HandshakeTarget prov) (pr_SNI prov) (pr_PublicKey prov) (pr_ShortID prov) (pr_PrivateKey prov)
    (firstOf (agentVersionOf (pr_AgentVersion prov)) (agentVersionOf (ir_AgentVersion res))) (firstOf (xrayVersionOf (pr_XrayVersion prov)) (xrayVersionOf (ir_XrayVersion res)))
    (ir_CertNotBefore res) (ir_CertNotAfter res) (SSHHostKey n) (BridgeUUID n) (Failure n).
Definition register (ok : bool) (id : Z) (res : InstallResult) (prov : ProvisionResult) (w : fleet) : result error unit * fleet :=
  edit_store ok (node_edit id (registered_as res prov)) w.

Definition install (v : install_env) (j : install_job) (w : fleet) : ended * installed * fleet :=
  let n := ij_node j in
  let '(res, err) := v_install v in
  let w := if ir_Changed res || bool_decide (err = None) then put_on n w else w in
  if v_panics v CallInstall then (Panics, MkInstalled (ir_Changed res) (ir_TookOver res), w) else
  match err with
  | Some e => (Failed (CInstall e), MkInstalled (ir_Changed res) (ir_TookOver res), w)
  | None =>
      let did := MkInstalled true (ir_TookOver res) in
      if v_panics v CallConnect then (Panics, did, w) else
      match v_connect v with
      | Some e => (Failed (CConnect e), did, w)
      | None =>
          if v_panics v CallProvision then (Panics, did, w) else
          match v_provision v with
          | Err e => (Failed (CProvision e), did, w)
          | Ok prov =>
              match register (v_save v) (N_ID n) res prov w with
              | (Err e, w) => (Failed (CSave e), did, w)
              | (Ok _, w) => (Done, did, w)
              end
          end
      end
  end.

Definition keep_edit (id : Z) (f : InstallFailure) (s : State) : result error State :=
  match FindNode s id with
  | Some n => if bool_decide (State_ n = NodeInstalling) then node_edit id (fun n => with_failure n f) s else Ok s
  | None => Ok s
  end.
Definition keepUnfinished (ok : bool) (id : Z) (f : InstallFailure) (w : fleet) : fleet := (edit_store ok (keep_edit id f) w).2.

Definition forgetNode (ok : bool) (id : Z) (w : fleet) : option error * fleet :=
  match edit_store ok (fun s => HubState.RemoveNode s id) w with
  | (Ok _, w) => (None, w)
  | (Err (ErrNotFound _ _), w) => (None, w)
  | (Err e, w) => (Some e, w)
  end.

Definition said (secs : list string) (text : string) : string := clipText (Hide text secs).
Definition failure_of (secs : list string) (step : string) (time : Z) (did : installed) (c : cause) (cleanup : string) : InstallFailure :=
  let text := said secs (cause_text c) in
  MkFailure step (if bool_decide (step = "") then "" else StepKey step) (if did_takeOver did then clipText (text +:+ " " +:+ tookOverNote) else text) cleanup (TruncateSecond time).

Definition afterFailure (v : install_env) (j : install_job) (did : installed) (c : cause) (w : fleet) : option outcome * fleet :=
  let id := N_ID (ij_node j) in
  let secs := secrets (ij_login j) [k_PrivateKey (ij_keys j)] in
  let failure := failure_of secs (v_step v) (v_time v) did c in
  let forget (o : outcome) (w : fleet) :=
    match forgetNode (v_forget v) id w with
    | (None, w) => (Some o, w)
    | (Some e, w) => (Some keptAsIs, keepUnfinished (v_keep v) id (failure ("The server was cleaned up, but the record could not be deleted: " +:+ said secs (error_text e))) w)
    end in
  if did_change did then
    if v_panics v CallUndo then (None, w) else
    match v_undo v with
    | Some e => (Some keptAsIs, keepUnfinished (v_keep v) id (failure (said secs e)) w)
    | None => forget cleanedUp (taken_off (ij_node j) w)
    end
  else forget leftAlone w.

Definition internalFailure (now : Z) : InstallFailure := MkFailure "" "" "The install stopped on an internal error." "" (TruncateSecond now).

Definition runInstall (v : install_env) (j : install_job) (w : fleet) : install_end * fleet :=
  let id := N_ID (ij_node j) in
  let over (e : install_end) (w : fleet) := (e, MkFleet (f_store w) (delete id (f_jobs w)) (f_put w)) in
  let panicked (w : fleet) := over InstallPanicked (keepUnfinished (v_keep v) id (internalFailure (v_time v)) w) in
  match install v j w with
  | (Done, _, w) => over Installed w
  | (Panics, _, w) => panicked w
  | (Failed c, did, w) =>
      match afterFailure v j did c w with
      | (Some o, w) => over (InstallFailed c o (did_takeOver did)) w
      | (None, w) => panicked w
      end
  end.

(** *** Taking a node out *)

Record RemoveRequest := MkRReq { rr_Force : bool; rr_Login : option ApiLogin }.
(** Whether the operations are there, whether the job starts, what the uninstall gives
    for the node as it is signed in to, and the write. *)
Record remove_env := MkREnv { r_ops : bool; r_start : bool; r_uninstall : Node -> creds -> option string; r_disk : bool }.
Inductive remove_error := RemoveRefused (e : request_error) | UninstallFailed (t : string) | ForgetFailed (e : error).

Definition signed_in (lg : login) (n : Node) : Node :=
  MkNode (N_ID n) (N_Name n) (Host n) (lg_port lg) (lg_user lg) (AgentPort n) (EntryPort n) (Arch n) (State_ n) (N_CreatedAt n) (RealityTarget n) (RealitySNI n)
    (RealityPublicKey n) (RealityShortID n) (RealityPrivateKey n) (AgentVersion n) (XrayVersion n) (CertNotBefore n) (CertNotAfter n) (lg_hostKey lg) (BridgeUUID n) (Failure n).
(** What was left blank is what the node was set up with. *)
Definition login_of (n : Node) (l : ApiLogin) (lg : login) : login :=
  MkLogin (if (al_SSHPort l =? 0) && negb (SSHPort n =? 0) then SSHPort n else lg_port lg)
    (if bool_decide (al_SSHUser l = "") && negb (bool_decide (SSHUser n = "")) then SSHUser n else lg_user lg) (lg_hostKey lg) (lg_creds lg).

Definition runRemove (v : remove_env) (id : Z) (lg : option login) (w : fleet) : option remove_error * fleet :=
  match FindNode (cur (f_store w)) id with
  | None => (Some (RemoveRefused (Refused (ErrNotFound "node" id))), w)
  | Some n =>
      let forget (w : fleet) := match forgetNode (r_disk v) id w with (None, w) => (None, w) | (Some e, w) => (Some (ForgetFailed e), w) end in
      match lg with
      | None => forget w
      | Some lg => match r_uninstall v (signed_in lg n) (lg_creds lg) with Some e => (Some (UninstallFailed e), w) | None => forget (taken_off n w) end
      end
  end.

Definition RemoveNode (v : remove_env) (id : Z) (req : RemoveRequest) (w : fleet) : option remove_error * fleet :=
  let refuse e := (Some (RemoveRefused e), w) in
  match FindNode (cur (f_store w)) id with
  | None => refuse (Refused (ErrNotFound "node" id))
  | Some n =>
      if busy w id then refuse (NodeBusy id) else
      match rr_Force req, rr_Login req with
      | true, Some _ => refuse (Refused (ErrInvalid "send a login or force the removal, not both"))
      | false, None => refuse NeedsLogin
      | true, None => if r_start v then runRemove v id None w else refuse NotStarted
      | false, Some l =>
          match cleanLogin l with
          | Err e => refuse (Refused e)
          | Ok lg =>
              if negb (r_ops v) then refuse NotSetUp else
              if r_start v then runRemove v id (Some (login_of n l lg)) w else refuse NotStarted
          end
      end
  end.
End install.

(** ** What is said *)

Lemma then_shape o tookOver : valid (to_bytes (failed_then o tookOver)) /\ RuneCountInString (failed_then o tookOver) <= 220 /\
  exists a, valid a /\ to_bytes (failed_then o tookOver) = a ++ ["."%char].
Proof.
  split; [|split]; [destruct o, tookOver; vm_compute; reflexivity|destruct o, tookOver; vm_compute; discriminate|].
  exists (removelast (to_bytes (failed_then o tookOver))). split; destruct o, tookOver; vm_compute; reflexivity.
Qed.

Lemma runes_app s t : valid (to_bytes s) -> RuneCountInString (s +:+ t) = RuneCountInString s + RuneCountInString t.
Proof. intros Hs. unfold RuneCountInString. rewrite to_bytes_app, segments_app by done. rewrite length_app. lia. Qed.

Lemma valid_string_app s t : valid (to_bytes s) -> valid (to_bytes t) -> valid (to_bytes (s +:+ t)).
Proof. intros. rewrite to_bytes_app. by apply valid_app. Qed.

Lemma first_runes_join n s : valid (to_bytes s) -> to_bytes (first_runes n s) = join_segments (list.take n (segments (to_bytes s))).
Proof.
  intros Hv. unfold first_runes, join_segments. rewrite to_of_bytes. f_equal. apply list_fmap_ext. intros i x Hx.
  pose proof (Forall_lookup_1 _ _ _ _ (take_sound n _ Hv) Hx) as (Hok & _). by rewrite Hok.
Qed.

(** The cause, cut to fit and ended as a sentence. *)
Lemma cause_shape cause room (Hv : valid (to_bytes cause)) (Hroom : 2 <= room) :
  let c := TrimSpace cause in
  let c := if room <? RuneCountInString c then first_runes (Z.to_nat (room - 1)) c +:+ hidden else c in
  let c := if ends_sentence c then c else c +:+ "." in
  valid (to_bytes c) /\ RuneCountInString c <= room + 1 /\ starts_word (to_bytes c).
Proof.
  cbv zeta. apply trim_valid in Hv. pose proof (trimmed_starts cause) as Hst. set (t := TrimSpace cause) in *. clearbody t.
  assert (exists u, u = (if room <? RuneCountInString t then first_runes (Z.to_nat (room - 1)) t +:+ hidden else t) /\
    valid (to_bytes u) /\ RuneCountInString u <= room /\ (u = "" \/ starts_word (to_bytes u))) as (u & <- & Hu & Hc & Hw).
  { eexists. split; [done|]. destruct (Z.ltb_spec room (RuneCountInString t)) as [Hlt|Hle].
    - assert (t <> "") as Hne by (intros He; rewrite He in Hlt; change (RuneCountInString "") with 0 in Hlt; lia).
      destruct (take_valid (Z.to_nat (room - 1)) (to_bytes t) Hv) as [H1 H2]. rewrite <-first_runes_join in H1, H2 by done. split; [|split].
      + apply valid_string_app; [done|]. apply one_valid, ellipsis_one.
      + rewrite runes_app by done. change (RuneCountInString hidden) with 1. unfold RuneCountInString in *. lia.
      + right. rewrite to_bytes_app. apply starts_app; [done|]. rewrite first_runes_join by done. apply take_starts; [done|by apply Hst|lia].
    - split; [done|]. split; [done|]. destruct (decide (t = "")); [by left|right; by apply Hst]. }
  destruct (ends_sentence u) eqn:He.
  - split; [done|]. split; [lia|]. destruct Hw as [->|]; [discriminate He|done].
  - split; [by apply valid_string_app|]. split; [rewrite runes_app by done; change (RuneCountInString ".") with 1; lia|].
    destruct Hw as [->|Hw]; [eexists; split; reflexivity|]. rewrite to_bytes_app. by apply starts_app.
Qed.

(** What was done about a failed install is never cut off. The text of the job's error,
    whatever the cause said, ends with it and fits the room a job's error has, so the
    job shows it whole. *)
Theorem failure_told (cause : string) (o : outcome) (tookOver : bool) (Hv : valid (to_bytes cause)) :
  (exists before, failed_Error cause o tookOver = before +:+ " " +:+ failed_then o tookOver) /\
  clip (failed_Error cause o tookOver) MaxError = failed_Error cause o tookOver.
Proof.
  split; [by eexists|]. destruct (then_shape o tookOver) as (Ht & Hc & a & Ha & Hta).
  pose proof (cause_shape cause (MaxError - RuneCountInString (failed_then o tookOver) - 2) Hv ltac:(unfold MaxError; lia)) as Hcause. cbv zeta in Hcause.
  unfold failed_Error. set (c := if ends_sentence _ then _ else _) in *. clearbody c. assert (valid (to_bytes " ")) as Hsp by reflexivity. destruct Hcause as (Hcv & Hcc & Hcs). apply clip_id.
  - apply valid_string_app; [done|]. by apply valid_string_app.
  - assert (c +:+ " " +:+ failed_then o tookOver = of_bytes ((to_bytes (c +:+ " ") ++ a) ++ ["."%char])) as ->.
    { rewrite <-app_assoc, <-Hta, to_bytes_app, <-app_assoc, <-!to_bytes_app. by rewrite of_to_bytes. }
    apply trimmed_already; [|rewrite <-app_assoc, to_bytes_app, <-app_assoc; by apply starts_app|by split|done]. apply valid_app; [by apply valid_string_app|done].
  - rewrite runes_app by done. rewrite runes_app by done. change (RuneCountInString " ") with 1. lia.
Qed.

(** ** What is recorded *)

Lemma clipText_ok s : valid (to_bytes (clipText s)) /\ (length (to_bytes (clipText s)) <= 2000)%nat.
Proof. unfold clipText. pose proof (clip_bytes s maxMsg ltac:(done)) as H. change (Z.to_nat maxMsg) with 500%nat in H. pose proof (clip_valid s maxMsg). split; [assumption|lia]. Qed.

Lemma clipText_starts s : TrimSpace s <> "" -> starts_word (to_bytes (clipText s)).
Proof. exact (clip_starts s maxMsg ltac:(done)). Qed.

Lemma said_ok secs t : valid (to_bytes (said secs t)) /\ (length (to_bytes (said secs t)) <= 2000)%nat.
Proof. apply clipText_ok. Qed.

Definition fits_step (s : string) : bool := ValidString s && (length (to_bytes s) <=? 64)%nat.
Definition key_of (step : string) : string := if bool_decide (step = "") then "" else StepKey step.

Lemma known_step step : step ∈ "" :: stepKeys.*1 -> fits_step step = true /\ fits_step (key_of step) = true.
Proof.
  intros Hin. assert (forallb (fun s => fits_step s && fits_step (key_of s)) ("" :: stepKeys.*1) = true) as Hall by (vm_compute; reflexivity).
  rewrite forallb_forall in Hall. apply list_elem_of_In in Hin. specialize (Hall step Hin). by apply andb_true_iff in Hall.
Qed.

Lemma Failure_fits step key e c at_ : fits_step step = true -> fits_step key = true -> valid (to_bytes e) -> (length (to_bytes e) <= 2000)%nat ->
  valid (to_bytes c) -> (length (to_bytes c) <= 2000)%nat -> TrimSpace e <> "" -> Failure_Validate (MkFailure step key e c at_) = Ok tt.
Proof.
  intros [Hs1 Hs2%Nat.leb_le]%andb_true_iff [Hk1 Hk2%Nat.leb_le]%andb_true_iff He1 He2 Hc1 Hc2 Hne. unfold valid in He1, Hc1. change (ValidString e = true) in He1. change (ValidString c = true) in Hc1.
  unfold Failure_Validate. cbn [foldM Step HubState.StepKey F_Error Cleanup fst snd]. rewrite Hs1, Hk1, He1, Hc1. cbn [negb refuse rbind].
  rewrite !(proj2 (Nat.ltb_ge _ _)) by done. cbn [refuse rbind]. unfold eqb_string. by rewrite bool_decide_eq_false_2.
Qed.

Lemma failure_ok (error_text : error -> string) secs step time did c cleanup :
  step ∈ "" :: stepKeys.*1 -> TrimSpace (Hide (cause_text error_text c) secs) <> "" -> valid (to_bytes cleanup) -> (length (to_bytes cleanup) <= 2000)%nat ->
  Failure_Validate (failure_of error_text secs step time did c cleanup) = Ok tt /\ F_Error (failure_of error_text secs step time did c cleanup) <> "".
Proof.
  intros Hstep Hwords Hc1 Hc2. unfold failure_of. cbn [F_Error]. fold (key_of step). destruct (known_step step Hstep) as [H1 H2].
  assert (starts_word (to_bytes (said secs (cause_text error_text c)))) as Hw by exact (clipText_starts _ Hwords).
  set (e := if did_takeOver did then _ else _). assert (valid (to_bytes e) /\ (length (to_bytes e) <= 2000)%nat /\ starts_word (to_bytes e)) as (He1 & He2 & He3).
  { unfold e. destruct (said_ok secs (cause_text error_text c)) as [Hv Hl]. destruct (did_takeOver did); [|done]. set (t := said secs (cause_text error_text c)) in *.
    destruct (clipText_ok (t +:+ " " +:+ tookOverNote)) as [H3 H4]. split; [exact H3|]. split; [exact H4|].
    apply clipText_starts, starts_not_blank. rewrite to_bytes_app. exact (starts_app _ _ Hv Hw). }
  assert (TrimSpace e <> "") as Hne by exact (starts_not_blank e He3). clearbody e. split; [|intros He0; rewrite He0 in Hne; by apply Hne].
  exact (Failure_fits step (key_of step) e cleanup (TruncateSecond time) H1 H2 He1 He2 Hc1 Hc2 Hne).
Qed.

(** A record that is kept can be saved. Whatever went wrong, as long as it was told in
    words that were not all secrets, what is recorded of a failed install is accepted by
    the checks of the state, and has words in it. *)
Theorem failure_recorded (error_text : error -> string) (secs : list string) (step : string) (time : Z) (did : installed) (c : cause) (cleanup : string)
    (Hstep : step ∈ "" :: stepKeys.*1) (Hwords : TrimSpace (Hide (cause_text error_text c) secs) <> "")
    (Hcleanup : cleanup = "" \/ exists t, cleanup = said secs t) :
  Failure_Validate (failure_of error_text secs step time did c cleanup) = Ok tt /\ F_Error (failure_of error_text secs step time did c cleanup) <> "".
Proof.
  assert (valid (to_bytes cleanup) /\ (length (to_bytes cleanup) <= 2000)%nat) as [Hc1 Hc2] by (destruct Hcleanup as [->|[t ->]]; [split; [reflexivity|cbn; lia]|exact (said_ok secs t)]).
  by apply failure_ok.
Qed.

(** ** The nodes of a state *)

Lemma find_iff s id n : NoDup (N_ID <$> Nodes s) -> FindNode s id = Some n <-> n ∈ Nodes s /\ N_ID n = id.
Proof.
  intros Hnd. split; [apply FindNode_Some|]. intros [Hin Hid]. destruct (FindNode s id) as [m|] eqn:Hm.
  - apply FindNode_Some in Hm as [Hm Hmid]. apply list_elem_of_lookup in Hin as [i Hi], Hm as [k Hk]. f_equal.
    assert (i = k) as -> by (eapply (NoDup_lookup _ _ _ id Hnd); rewrite list_lookup_fmap; [rewrite Hi|rewrite Hk]; cbn; congruence). congruence.
  - exfalso. unfold FindNode in Hm. destruct (list_find _ (Nodes s)) as [[k m]|] eqn:Hf; [done|]. apply list_find_None in Hf. rewrite Forall_forall in Hf. by apply (Hf n).
Qed.

Lemma option_iff {A} (o o' : option A) : (forall a, o = Some a <-> o' = Some a) -> o = o'.
Proof. intros H. apply option_eq. done. Qed.

Lemma find_removed s id s' : NoDup (N_ID <$> Nodes s) -> HubState.RemoveNode s id = Ok s' -> forall id', FindNode s' id' = if id' =? id then None else FindNode s id'.
Proof.
  intros Hnd. unfold HubState.RemoveNode. destruct (delete_first _ _) as [ns|] eqn:Hd; [|done]. intros [= <-] id'. pose proof (delete_first_gone N_ID id _ _ Hnd Hd) as [Hgone _].
  apply delete_first_Some in Hd as (Hsub & x & _ & Hx & Hkeep).
  assert (NoDup (N_ID <$> ns)) as Hnd' by (eapply sublist_NoDup; [exact Hnd|apply fmap_sublist; exact Hsub]).
  apply option_iff. intros n. rewrite find_iff by done. cbn [Nodes]. destruct (Z.eqb_spec id' id) as [->|Hne].
  - split; [|done]. intros [Hin Hid]. exfalso. apply Hgone. rewrite <-Hid. by apply list_elem_of_fmap_2.
  - rewrite find_iff by done. split; intros [Hin Hid]; (split; [|done]); [by eapply elem_of_sublist|]. destruct (Hkeep n Hin) as [|Hn]; [done|]. congruence.
Qed.

Lemma find_added s n s' n' : NoDup (N_ID <$> Nodes s) -> NoDup (N_ID <$> Nodes s') -> Nodes s' = Nodes s ++ [n'] -> n = n' ->
  forall id, FindNode s' id = if id =? N_ID n then Some n else FindNode s id.
Proof.
  intros Hnd Hnd' Hs' -> id. apply option_iff. intros m. rewrite find_iff, Hs', elem_of_app, list_elem_of_singleton by done. destruct (Z.eqb_spec id (N_ID n')) as [->|Hne].
  - split; [|intros [= <-]; split; [by right|done]]. intros [[Hin| ->] Hid]; [|done]. exfalso. rewrite Hs', fmap_app in Hnd'. apply NoDup_app in Hnd' as (_ & Hd & _).
    apply (Hd (N_ID m)); [by apply list_elem_of_fmap_2|]. rewrite Hid. cbn. left.
  - rewrite find_iff by done. split; [intros [[Hin| ->] Hid]; done|]. intros [Hin Hid]. split; [by left|done].
Qed.

Lemma find_settled s id : FindNode (settleInstalls s) id = settle <$> FindNode s id.
Proof.
  unfold FindNode, settleInstalls. cbn [with_nodes Nodes]. rewrite list_find_fmap.
  rewrite (list_find_ext _ (fun n => N_ID n = id)) by (intros n; cbn; by rewrite settle_id). destruct (list_find _ (Nodes s)) as [[k n]|]; done.
Qed.

Section store.
Context (fold : Z -> Z) (ParseAddr : string -> option Addr) (loadCA : string -> string -> bool) (error_text : error -> string).
Abbreviation inv := (store_inv fold ParseAddr loadCA).
Abbreviation editing := (edit_store fold ParseAddr loadCA).
Definition node_of (w : fleet) (id : Z) : option Node := FindNode (cur (f_store w)) id.
Definition next_id (w : fleet) : Z := NextNodeID (cur (f_store w)).

Lemma ids_distinct w : inv (f_store w) -> NoDup (N_ID <$> Nodes (cur (f_store w))).
Proof. intros Hi. apply (sp_node_ids _ _ _ _ (si_spec _ _ _ _ Hi)). Qed.

(** What is the same of the fleet after a change on the node [id], with the store in
    order. *)
Definition only (id : Z) (w w' : fleet) : Prop :=
  inv (f_store w') /\ next_id w <= next_id w' /\ forall id', id' <> id -> node_of w' id' = node_of w id'.

Lemma only_refl id w : inv (f_store w) -> only id w w.
Proof. done. Qed.
Lemma only_trans id w1 w2 w3 : only id w1 w2 -> only id w2 w3 -> only id w1 w3.
Proof. intros (_ & H1 & H2) (Hi & H3 & H4). split; [done|]. split; [lia|]. intros id' Hne. by rewrite H4, H2. Qed.

Lemma edit_does ok f w : inv (f_store w) ->
  let '(r, w') := editing ok f w in
  f_jobs w' = f_jobs w /\ f_put w' = f_put w /\
  match r with Ok _ => f (cur (f_store w)) = Ok (cur (f_store w')) /\ inv (f_store w') /\ next_id w <= next_id w' | Err _ => w' = w end.
Proof.
  intros Hi. unfold edit_store. pose proof (Update_does fold ParseAddr loadCA (f_store w) f ok Hi) as Hup. cbv zeta in Hup.
  destruct (Update fold ParseAddr loadCA (f_store w) f ok) as [st r]. cbn [fst snd] in Hup. destruct Hup as [[[e ->] ->]|(-> & Hf & Hi' & Hn)]; [by destruct w|done].
Qed.

Lemma node_edit_only ok id g w : inv (f_store w) -> (forall n, N_ID (g n) = N_ID n) ->
  let '(r, w') := editing ok (node_edit id g) w in
  f_jobs w' = f_jobs w /\ f_put w' = f_put w /\ only id w w' /\ match r with Ok _ => node_of w' id = g <$> node_of w id /\ is_Some (node_of w id) | Err _ => w' = w end.
Proof.
  intros Hi Hg. pose proof (edit_does ok (node_edit id g) w Hi) as He. destruct (editing ok (node_edit id g) w) as [[[]|e] w']; destruct He as (Hj & Hp & He).
  - destruct He as (Hf & Hi' & Hn). pose proof (node_edit_find _ _ _ _ Hg Hf) as Hfind. split; [done|]. split; [done|]. split.
    + split; [done|]. split; [done|]. intros id' Hne. unfold node_of. rewrite (Hfind id'). by rewrite (proj2 (Z.eqb_neq _ _) Hne).
    + unfold node_of. rewrite (Hfind id), Z.eqb_refl. split; [done|]. unfold node_edit in Hf. by destruct (FindNode (cur (f_store w)) id).
  - subst w'. done.
Qed.

(** *** A failure on record *)

Lemma failing_valid n f : State_ n = NodeInstalling -> Failure_Validate f = Ok tt -> Node_Validate ParseAddr n = Ok tt -> Node_Validate ParseAddr (with_failure n f) = Ok tt.
Proof.
  intros Hs Hf. unfold Node_Validate. cbn [with_failure N_ID N_Name Host SSHPort AgentPort EntryPort State_ N_CreatedAt SSHUser
    Arch AgentVersion XrayVersion SSHHostKey RealityPublicKey RealityPrivateKey RealityShortID RealityTarget
    RealitySNI CertNotBefore CertNotAfter BridgeUUID Failure].
  intros H. repeat (apply rbind_Ok in H as (? & ?Hc & H)).
  repeat match goal with Hc : ?r = Ok _ |- context [rbind _ ?r] => rewrite Hc; cbn [rbind] end.
  rewrite Hs, (bool_decide_eq_true_2 (NodeInstalling = NodeInstalling)) by done. cbn [refuse negb rbind]. rewrite Hf. by destruct (bool_decide (f = noFailure)).
Qed.

Lemma change_split id g s n : FindNode s id = Some n -> exists a b, Nodes s = a ++ n :: b /\ change_node id g (Nodes s) = a ++ g n :: b.
Proof.
  unfold FindNode. intros Hf. destruct (list_find _ (Nodes s)) as [[k m]|] eqn:Hl; [|done]. injection Hf as ->. clear -Hl. revert k Hl.
  induction (Nodes s) as [|x l IH]; intros k Hl; [done|]. cbn [list_find] in Hl. cbn [change_node]. case_decide as Hx.
  - injection Hl as _ ->. exists [], l. by rewrite (proj2 (Z.eqb_eq _ _) Hx).
  - rewrite (proj2 (Z.eqb_neq _ _) Hx). destruct (list_find _ l) as [[k' y]|] eqn:Hy; [|done]. injection Hl as _ ->. destruct (IH k' eq_refl) as (a & b & -> & Hc).
    exists (x :: a), b. by rewrite Hc.
Qed.

Lemma failing_accepted s id n f : state_spec fold ParseAddr loadCA s -> FindNode s id = Some n -> State_ n = NodeInstalling -> Failure_Validate f = Ok tt -> F_Error f <> "" ->
  CheckEdit fold ParseAddr loadCA (with_nodes s (change_node id (fun n => with_failure n f) (Nodes s))) s = Ok tt.
Proof.
  intros Hs Hn Hst Hf Hne. destruct (change_split id (fun n => with_failure n f) s n Hn) as (a & b & Hl & Hc). rewrite Hc. apply CheckEdit_Ok.
  split; [|split; [right|split; [by right|done]]].
  - destruct Hs. split; cbn [with_nodes Version Settings_ NextNodeID NextSubscriptionID CACert CAKey Nodes Subscriptions Enablements]; try done.
    + rewrite Hl in sp_nodes. rewrite Forall_app, Forall_cons in *. destruct sp_nodes as (H1 & [H2 H3] & H4). split; [done|]. split; [|done]. split; [by apply failing_valid|done].
    + rewrite Hl in sp_node_ids. rewrite fmap_app, fmap_cons in *. done.
    + rewrite Hl in sp_ens. rewrite fmap_app, fmap_cons in *. done.
    + unfold logins, bridge_uuids in *. cbn [with_nodes Nodes Enablements]. rewrite Hl, omap_app in sp_logins. rewrite omap_app. cbn in *. done.
  - unfold NodeCount. cbn [with_nodes Nodes]. rewrite Hl, !filter_app, !length_app, !filter_cons.
    rewrite (decide_False (P := Unfinished (with_failure n f) = false)); [case_decide; cbn [length]; lia|].
    unfold Unfinished. cbn [with_failure State_ Failure]. by rewrite Hst, bool_decide_eq_true_2, bool_decide_eq_false_2.
Qed.

(** An edit that leaves the state as it is. *)
Lemma same_edit ok g w : inv (f_store w) -> g (cur (f_store w)) = Ok (cur (f_store w)) ->
  let w' := (editing ok g w).2 in f_jobs w' = f_jobs w /\ f_put w' = f_put w /\ inv (f_store w') /\ cur (f_store w') = cur (f_store w).
Proof.
  intros Hi Hg w'. subst w'. pose proof (edit_does ok g w Hi) as He. destruct (editing ok g w) as [[[]|e] w']; destruct He as (Hj & Hp & He); cbn [snd]; [|by subst w'].
  destruct He as (Hf & Hi' & _). rewrite Hg in Hf. by injection Hf.
Qed.

Lemma keep_other id f s : (forall n, FindNode s id = Some n -> State_ n <> NodeInstalling) -> keep_edit id f s = Ok s.
Proof. intros H. unfold keep_edit. destruct (FindNode s id) as [n|] eqn:Hn; [|done]. by rewrite bool_decide_eq_false_2 by by apply H. Qed.

Lemma keep_installing ok id f w n : node_of w id = Some n -> State_ n = NodeInstalling ->
  editing ok (keep_edit id f) w = editing ok (node_edit id (fun n => with_failure n f)) w.
Proof. intros Hn Hs. unfold edit_store, Update, keep_edit. unfold node_of in Hn. rewrite Hn. by rewrite bool_decide_eq_true_2. Qed.

(** What keeping a record does, and that it works when the disk does. *)
Lemma keep_does ok id f w : inv (f_store w) ->
  let w' := keepUnfinished fold ParseAddr loadCA ok id f w in
  f_jobs w' = f_jobs w /\ f_put w' = f_put w /\ only id w w' /\
  (node_of w' id = node_of w id \/ node_of w' id = (fun n => with_failure n f) <$> node_of w id) /\
  (ok = true -> forall n, node_of w id = Some n -> State_ n = NodeInstalling -> Failure_Validate f = Ok tt -> F_Error f <> "" -> node_of w' id = Some (with_failure n f)).
Proof.
  intros Hi. unfold keepUnfinished. destruct (decide (State_ <$> node_of w id = Some NodeInstalling)) as [(n & Hn & Hst)%fmap_Some|Hno].
  - symmetry in Hst. rewrite (keep_installing ok id f w n Hn Hst). pose proof (node_edit_only ok id (fun n => with_failure n f) w Hi ltac:(done)) as Ho.
    assert (ok = true -> Failure_Validate f = Ok tt -> F_Error f <> "" -> (editing ok (node_edit id (fun n => with_failure n f)) w).1 = Ok tt) as Hgo.
    { intros -> Hf Hne. unfold edit_store, Update, node_edit. unfold node_of in Hn. rewrite Hn.
      rewrite (failing_accepted _ _ n f) by (try done; apply (si_spec _ _ _ _ Hi)). by case_bool_decide. }
    destruct (editing ok (node_edit id _) w) as [r w']. cbn [fst snd] in *. destruct Ho as (Hj & Hp & Hon & Hr). split; [done|]. split; [done|]. split; [done|]. split.
    + destruct r as [[]|]; [right; by destruct Hr|left; by rewrite Hr].
    + intros Hok m Hm _ Hf Hne. rewrite (Hgo Hok Hf Hne) in Hr. destruct Hr as [Hr _]. by rewrite Hr, Hm.
  - destruct (same_edit ok (keep_edit id f) w Hi) as (Hj & Hp & Hi' & Hc); [apply keep_other; intros n Hn Hs; apply Hno; unfold node_of; rewrite Hn; cbn; by rewrite Hs|].
    split; [done|]. split; [done|]. split; [split; [done|]; unfold next_id, node_of; rewrite Hc; done|]. split; [left; unfold node_of; by rewrite Hc|].
    intros _ n Hn Hs. exfalso. apply Hno. rewrite Hn. cbn. by rewrite Hs.
Qed.

Lemma forget_does ok id w : inv (f_store w) ->
  let '(r, w') := forgetNode fold ParseAddr loadCA ok id w in
  f_jobs w' = f_jobs w /\ f_put w' = f_put w /\ only id w w' /\ match r with None => node_of w' id = None | Some _ => w' = w end.
Proof.
  intros Hi. unfold forgetNode. pose proof (edit_does ok (fun s => HubState.RemoveNode s id) w Hi) as He.
  assert (forall what i, (editing ok (fun s => HubState.RemoveNode s id) w).1 = Err (ErrNotFound what i) -> node_of w id = None) as Hgone.
  { intros what i. unfold edit_store, Update. destruct (HubState.RemoveNode (cur (f_store w)) id) as [s'|e] eqn:Hr.
    - rewrite (RemoveNode_accepted _ _ _ _ _ _ (si_spec _ _ _ _ Hi) Hr). case_bool_decide; [done|]. by destruct ok.
    - intros _. unfold HubState.RemoveNode in Hr. destruct (delete_first _ _) eqn:Hd; [done|]. unfold delete_first in Hd. unfold node_of, FindNode. by destruct (list_find _ _) as [[]|]. }
  destruct (editing ok (fun s => HubState.RemoveNode s id) w) as [[[]|e] w']; cbn [fst] in Hgone; destruct He as (Hj & Hp & He).
  - destruct He as (Hf & Hi' & Hn). pose proof (find_removed _ _ _ (ids_distinct w Hi) Hf) as Hfind. split; [done|]. split; [done|]. split.
    + split; [done|]. split; [done|]. intros id' Hne. unfold node_of. rewrite (Hfind id'). by rewrite (proj2 (Z.eqb_neq _ _) Hne).
    + unfold node_of. by rewrite (Hfind id), Z.eqb_refl.
  - subst w'. destruct e; (split; [done|]; split; [done|]; split; [by apply only_refl|]); try done. by eapply Hgone.
Qed.

(** *** The install *)

Abbreviation running_install := (install fold ParseAddr loadCA).
Definition placed (j : install_job) (w : fleet) : gmap string Z := <[Host (ij_node j) := N_ID (ij_node j)]> (f_put w).

Lemma registered_id res prov n : N_ID (registered_as res prov n) = N_ID n.
Proof. done. Qed.

Lemma install_does v j w : inv (f_store w) ->
  let '(e, did, w') := running_install v j w in
  f_jobs w' = f_jobs w /\ only (N_ID (ij_node j)) w w' /\ (f_put w' = f_put w \/ f_put w' = placed j w) /\
  match e with
  | Done => (exists res prov, node_of w' (N_ID (ij_node j)) = registered_as res prov <$> node_of w (N_ID (ij_node j))) /\ is_Some (node_of w (N_ID (ij_node j))) /\ f_put w' = placed j w
  | Failed _ => f_store w' = f_store w /\ (did_change did = false -> f_put w' = f_put w)
  | Panics => f_store w' = f_store w
  end.
Proof.
  intros Hi. unfold install. destruct (v_install v) as [res err]. set (id := N_ID (ij_node j)).
  set (w1 := if ir_Changed res || bool_decide (err = None) then put_on (ij_node j) w else w).
  assert (f_store w1 = f_store w /\ f_jobs w1 = f_jobs w) as [Hst Hj] by (unfold w1; by destruct (_ || _)).
  assert (f_put w1 = f_put w \/ f_put w1 = placed j w) as Hput by (unfold w1; destruct (_ || _); [by right|by left]).
  assert (only id w w1) as Hon by (unfold only, next_id, node_of; rewrite Hst; done).
  assert (err = None -> f_put w1 = placed j w) as Hok by (intros ->; unfold w1; rewrite bool_decide_eq_true_2 by done; by rewrite orb_true_r).
  assert (forall e, err = Some e -> ir_Changed res = false -> f_put w1 = f_put w) as Hun by (intros e -> Hc; unfold w1; by rewrite Hc, bool_decide_eq_false_2).
  clearbody w1. destruct (v_panics v CallInstall); [done|]. destruct err as [e|].
  { split; [done|]. split; [done|]. split; [done|]. split; [done|]. cbn [did_change]. by apply (Hun e). }
  specialize (Hok eq_refl). destruct (v_panics v CallConnect); [done|]. destruct (v_connect v); [done|]. destruct (v_panics v CallProvision); [done|].
  destruct (v_provision v) as [prov|]; [|done]. unfold register.
  assert (inv (f_store w1)) as Hi1 by by rewrite Hst.
  pose proof (node_edit_only (v_save v) id (registered_as res prov) w1 Hi1 (registered_id res prov)) as He.
  destruct (editing (v_save v) (node_edit id (registered_as res prov)) w1) as [[[]|e] w2]; destruct He as (Hj2 & Hp2 & Hon2 & Hr).
  - destruct Hr as [Hr Hsome]. unfold node_of in Hr, Hsome. rewrite Hst in Hr, Hsome. split; [congruence|]. split; [by eapply only_trans|]. rewrite Hp2. split; [done|]. split; [by exists res, prov|done].
  - subst w2. done.
Qed.

(** A record that was kept, or not. *)
Definition kept (id : Z) (w w' : fleet) : Prop := node_of w' id = node_of w id \/ exists f, node_of w' id = (fun n => with_failure n f) <$> node_of w id.

Lemma keep_kept ok id f w : inv (f_store w) -> kept id w (keepUnfinished fold ParseAddr loadCA ok id f w).
Proof. intros Hi. destruct (keep_does ok id f w Hi) as (_ & _ & _ & [H|H] & _); [by left|right; by exists f]. Qed.

Lemma after_does v j did c w : inv (f_store w) ->
  let '(o, w') := afterFailure fold ParseAddr loadCA error_text v j did c w in
  f_jobs w' = f_jobs w /\ only (N_ID (ij_node j)) w w' /\
  match o with
  | Some leftAlone => did_change did = false /\ f_put w' = f_put w /\ node_of w' (N_ID (ij_node j)) = None
  | Some cleanedUp => f_put w' = delete (Host (ij_node j)) (f_put w) /\ node_of w' (N_ID (ij_node j)) = None
  | Some keptAsIs => kept (N_ID (ij_node j)) w w' /\ (f_put w' = f_put w \/ f_put w' = delete (Host (ij_node j)) (f_put w))
  | None => w' = w
  end.
Proof.
  intros Hi. unfold afterFailure. set (id := N_ID (ij_node j)). set (failure := failure_of _ _ _ _ _ _).
  assert (forall o w1, o <> keptAsIs -> f_store w1 = f_store w -> f_jobs w1 = f_jobs w -> (o = leftAlone -> did_change did = false) ->
    (o = leftAlone -> f_put w1 = f_put w) -> (o = cleanedUp -> f_put w1 = delete (Host (ij_node j)) (f_put w)) ->
    let '(o', w') := match forgetNode fold ParseAddr loadCA (v_forget v) id w1 with
      | (None, w) => (Some o, w)
      | (Some e, w) => (Some keptAsIs, keepUnfinished fold ParseAddr loadCA (v_keep v) id (failure ("The server was cleaned up, but the record could not be deleted: " +:+ said (secrets (ij_login j) [k_PrivateKey (ij_keys j)]) (error_text e))) w)
      end in
    f_jobs w' = f_jobs w /\ only id w w' /\
    match o' with
    | Some leftAlone => did_change did = false /\ f_put w' = f_put w /\ node_of w' id = None
    | Some cleanedUp => f_put w' = delete (Host (ij_node j)) (f_put w) /\ node_of w' id = None
    | Some keptAsIs => kept id w w' /\ (f_put w' = f_put w \/ f_put w' = delete (Host (ij_node j)) (f_put w))
    | None => w' = w
    end) as Hforget.
  { intros o w1 Hok Hst Hj Hdid Hp1 Hp2. assert (inv (f_store w1)) as Hi1 by by rewrite Hst. assert (forall w', only id w1 w' -> only id w w') as Hsame by (intros w'; unfold only, next_id, node_of; by rewrite Hst).
    pose proof (forget_does (v_forget v) id w1 Hi1) as Hf. destruct (forgetNode _ _ _ _ id w1) as [[e|] w2]; destruct Hf as (Hj2 & Hput2 & Hon2 & Hr).
    - subst w2. set (f := failure _). destruct (keep_does (v_keep v) id f w1 Hi1) as (Hj3 & Hput3 & Hon3 & _ & _). split; [congruence|]. split; [by apply Hsame|]. split.
      + pose proof (keep_kept (v_keep v) id f w1 Hi1) as Hk. unfold kept, node_of in *. by rewrite Hst in Hk.
      + rewrite Hput3. destruct o; [left; by apply Hp1|right; by apply Hp2|done].
    - split; [congruence|]. split; [by apply Hsame|]. destruct o; [|by rewrite Hput2, Hp2|done]. rewrite Hput2, Hp1 by done. split; [by apply Hdid|done]. }
  destruct (did_change did) eqn:Hdid.
  - destruct (v_panics v CallUndo); [done|]. destruct (v_undo v) as [e|].
    + destruct (keep_does (v_keep v) id (failure (said (secrets (ij_login j) [k_PrivateKey (ij_keys j)]) e)) w Hi) as (Hj & Hp & Hon & _ & _). split; [done|]. split; [done|]. split; [by apply keep_kept|by left].
    + by apply (Hforget cleanedUp (taken_off (ij_node j) w)).
  - by apply (Hforget leftAlone w).
Qed.

(** What goes wrong is told: at a step that is known, in words that are not all secrets,
    and an error of the store in no more than fits. *)
Definition secrets_of (j : install_job) : list string := secrets (ij_login j) [k_PrivateKey (ij_keys j)].
Definition not_deleted (e : error) (j : install_job) : string := "The server was cleaned up, but the record could not be deleted: " +:+ said (secrets_of j) (error_text e).
Definition told (v : install_env) (j : install_job) (w : fleet) : Prop :=
  v_step v ∈ "" :: stepKeys.*1 /\ (forall c did w', running_install v j w = (Failed c, did, w') -> TrimSpace (Hide (cause_text error_text c) (secrets_of j)) <> "") /\
  forall e, (length (to_bytes (not_deleted e j)) <= 2000)%nat.

Lemma recorded ok id f w n : inv (f_store w) -> node_of w id = Some n -> State_ n = NodeInstalling -> ok = true -> Failure_Validate f = Ok tt -> F_Error f <> "" ->
  exists n', node_of (keepUnfinished fold ParseAddr loadCA ok id f w) id = Some n' /\ Unfinished n' = true.
Proof.
  intros Hi Hn Hs Hok Hf Hne. destruct (keep_does ok id f w Hi) as (_ & _ & _ & _ & Hk). exists (with_failure n f). split; [by apply Hk|].
  unfold Unfinished. cbn [with_failure State_ Failure]. by rewrite Hs, bool_decide_eq_true_2, bool_decide_eq_false_2.
Qed.

Lemma after_unfinished v j did c w n : inv (f_store w) -> node_of w (N_ID (ij_node j)) = Some n -> State_ n = NodeInstalling -> v_keep v = true ->
  v_step v ∈ "" :: stepKeys.*1 -> TrimSpace (Hide (cause_text error_text c) (secrets_of j)) <> "" -> (forall e, (length (to_bytes (not_deleted e j)) <= 2000)%nat) ->
  let '(o, w') := afterFailure fold ParseAddr loadCA error_text v j did c w in
  o = Some keptAsIs -> exists n', node_of w' (N_ID (ij_node j)) = Some n' /\ Unfinished n' = true.
Proof.
  intros Hi Hn Hs Hk Hstep Hwords Hshort. unfold afterFailure. fold (secrets_of j). set (id := N_ID (ij_node j)) in *.
  assert (forall o w1, o <> keptAsIs -> f_store w1 = f_store w ->
    let '(o', w') := match forgetNode fold ParseAddr loadCA (v_forget v) id w1 with
      | (None, w) => (Some o, w)
      | (Some e, w) => (Some keptAsIs, keepUnfinished fold ParseAddr loadCA (v_keep v) id (failure_of error_text (secrets_of j) (v_step v) (v_time v) did c (not_deleted e j)) w)
      end in o' = Some keptAsIs -> exists n', node_of w' id = Some n' /\ Unfinished n' = true) as Hforget.
  { intros o w1 Ho Hst. assert (inv (f_store w1)) as Hi1 by by rewrite Hst. pose proof (forget_does (v_forget v) id w1 Hi1) as Hf.
    destruct (forgetNode _ _ _ _ id w1) as [[e|] w2]; destruct Hf as (_ & _ & _ & Hr); [|congruence]. subst w2. intros _.
    assert (node_of w1 id = Some n) as Hn1 by (unfold node_of in *; by rewrite Hst).
    destruct (failure_ok error_text (secrets_of j) (v_step v) (v_time v) did c (not_deleted e j)) as [H1 H2]; [done|done| |apply Hshort|by apply (recorded _ _ _ _ n)].
    apply valid_string_app; [reflexivity|apply said_ok]. }
  destruct (did_change did).
  - destruct (v_panics v CallUndo); [done|]. destruct (v_undo v) as [e|]; [|by apply (Hforget cleanedUp (taken_off (ij_node j) w))]. intros _.
    destruct (said_ok (secrets_of j) e) as [H3 H4]. destruct (failure_ok error_text (secrets_of j) (v_step v) (v_time v) did c (said (secrets_of j) e)) as [H1 H2]; [done..|].
    by apply (recorded _ _ _ _ n).
  - by apply (Hforget leftAlone w).
Qed.

Abbreviation running := (runInstall fold ParseAddr loadCA error_text).

(** What a whole install does, however it ends. *)
Lemma run_does v j w : inv (f_store w) ->
  let '(e, w') := running v j w in let id := N_ID (ij_node j) in
  f_jobs w' = delete id (f_jobs w) /\ only id w w' /\
  match e with
  | Installed => (exists res prov, node_of w' id = registered_as res prov <$> node_of w id) /\ is_Some (node_of w id) /\ f_put w' = placed j w
  | InstallFailed _ leftAlone _ => node_of w' id = None /\ f_put w' = f_put w
  | InstallFailed _ cleanedUp _ => node_of w' id = None /\ f_put w' = delete (Host (ij_node j)) (f_put w)
  | InstallFailed _ keptAsIs _ | InstallPanicked => kept id w w' /\ (f_put w' = f_put w \/ f_put w' = placed j w \/ f_put w' = delete (Host (ij_node j)) (f_put w))
  end.
Proof.
  intros Hi. pose proof (install_does v j w Hi) as Hd. unfold runInstall. set (id := N_ID (ij_node j)) in *.
  assert (forall w1, f_store w1 = f_store w -> f_jobs w1 = f_jobs w -> f_put w1 = f_put w \/ f_put w1 = placed j w ->
    let w' := MkFleet (f_store (keepUnfinished fold ParseAddr loadCA (v_keep v) id (internalFailure (v_time v)) w1)) (delete id (f_jobs (keepUnfinished fold ParseAddr loadCA (v_keep v) id (internalFailure (v_time v)) w1)))
      (f_put (keepUnfinished fold ParseAddr loadCA (v_keep v) id (internalFailure (v_time v)) w1)) in
    f_jobs w' = delete id (f_jobs w) /\ only id w w' /\ kept id w w' /\ (f_put w' = f_put w \/ f_put w' = placed j w \/ f_put w' = delete (Host (ij_node j)) (f_put w))) as Hpanic.
  { intros w1 Hst Hj Hp. assert (inv (f_store w1)) as Hi1 by by rewrite Hst. destruct (keep_does (v_keep v) id (internalFailure (v_time v)) w1 Hi1) as (Hj2 & Hp2 & Hon & Hk & _).
    pose proof (keep_kept (v_keep v) id (internalFailure (v_time v)) w1 Hi1) as Hkept. unfold only, kept, next_id, node_of in *. cbn [f_jobs f_put f_store]. rewrite Hst in Hon, Hkept.
    split; [congruence|]. split; [done|]. split; [done|]. rewrite Hp2. destruct Hp as [->| ->]; [by left|right; by left]. }
  destruct (running_install v j w) as [[e did] w1]. destruct Hd as (Hj & Hon & Hp & He). destruct e as [|c|].
  - cbn [f_jobs f_put]. destruct He as (Hr & Hs & Hput). split; [by rewrite Hj|]. done.
  - destruct He as [Hst Hun]. assert (inv (f_store w1)) as Hi1 by by rewrite Hst. pose proof (after_does v j did c w1 Hi1) as Ha. fold id in Ha.
    destruct (afterFailure _ _ _ _ v j did c w1) as [[o|] w2]; destruct Ha as (Hj2 & Hon2 & Ho); [|subst w2; exact (Hpanic w1 Hst Hj Hp)].
    cbn [f_jobs f_put]. split; [congruence|]. split; [by apply (only_trans id w w1)|]. unfold kept, node_of in *. rewrite Hst in Ho. destruct o.
    + destruct Ho as (Hc & Hp2 & Hn). split; [done|]. rewrite Hp2. by apply Hun.
    + destruct Ho as (Hp2 & Hn). split; [done|]. rewrite Hp2. destruct Hp as [->| ->]; [done|]. unfold placed. by rewrite delete_insert_eq.
    + destruct Ho as [Hk Hp2]. split; [done|]. destruct Hp2 as [->| ->]; destruct Hp as [->| ->]; [by left|right; by left|right; by right|].
      right; right. unfold placed. by rewrite delete_insert_eq.
  - exact (Hpanic w1 He Hj Hp).
Qed.

Lemma run_unfinished v j w n : inv (f_store w) -> node_of w (N_ID (ij_node j)) = Some n -> State_ n = NodeInstalling -> v_keep v = true -> told v j w ->
  let '(e, w') := running v j w in
  match e with
  | InstallFailed _ keptAsIs _ | InstallPanicked => exists n', node_of w' (N_ID (ij_node j)) = Some n' /\ Unfinished n' = true
  | _ => True
  end.
Proof.
  intros Hi Hn Hs Hk (Hstep & Hwords & Hshort). unfold runInstall. pose proof (install_does v j w Hi) as Hd. set (id := N_ID (ij_node j)) in *.
  assert (forall w1, f_store w1 = f_store w -> exists n', node_of (keepUnfinished fold ParseAddr loadCA (v_keep v) id (internalFailure (v_time v)) w1) id = Some n' /\ Unfinished n' = true) as Hpanic.
  { intros w1 Hst. apply (recorded _ _ _ _ n); [by rewrite Hst|unfold node_of in *; by rewrite Hst|done|done| |done].
    unfold internalFailure. apply Failure_fits; try reflexivity; [cbn; lia|cbn; lia|vm_compute; discriminate]. }
  destruct (running_install v j w) as [[e did] w1] eqn:Hrun. destruct Hd as (_ & _ & _ & He). destruct e as [|c|]; [done| |exact (Hpanic w1 He)].
  destruct He as [Hst _]. pose proof (after_unfinished v j did c w1 n) as Ha. fold id in Ha. unfold node_of in Ha at 1. rewrite Hst in Ha. specialize (Ha Hi Hn Hs Hk Hstep (Hwords _ _ _ eq_refl) Hshort).
  assert (afterFailure fold ParseAddr loadCA error_text v j did c w1 = (None, w1) \/ exists o w2, afterFailure fold ParseAddr loadCA error_text v j did c w1 = (Some o, w2)) as Hcase.
  { pose proof (after_does v j did c w1 ltac:(by rewrite Hst)) as H. destruct (afterFailure _ _ _ _ v j did c w1) as [[o|] w2]; [right; by eexists _, _|left]. destruct H as (_ & _ & ->). done. }
  destruct Hcase as [Hnone|(o & w2 & Hsome)]; [rewrite Hnone; exact (Hpanic w1 Hst)|]. rewrite Hsome in Ha |- *. destruct o; [done|done|]. by apply Ha.
Qed.
End store.


(** ** No server is forgotten *)

Section fleet.
Context (fold : Z -> Z) (ParseAddr : string -> option Addr) (loadCA : string -> string -> bool) (error_text : error -> string).
Abbreviation inv := (store_inv fold ParseAddr loadCA).
Abbreviation editing := (edit_store fold ParseAddr loadCA).

Definition where_ (n : Node) : string * NodeState := (Host n, State_ n).

(** A life of the hub, with the addresses of the nodes that were taken out by force:
    nodes are added, installs run, nodes are taken out, other edits of the state leave
    the nodes where they are, and the hub restarts, which ends the installs. *)
Inductive fleet_step : gset string * fleet -> gset string * fleet -> Prop :=
| fs_add F w v req r w' : AddNode fold ParseAddr loadCA v req w = (r, w') -> fleet_step (F, w) (F, w')
| fs_install F w v id j e w' : f_jobs w !! id = Some j -> runInstall fold ParseAddr loadCA error_text v j w = (e, w') -> fleet_step (F, w) (F, w')
| fs_remove F w v id req r w' : RemoveNode fold ParseAddr loadCA v id req w = (r, w') ->
    fleet_step (F, w) (match node_of w id with Some n => if rr_Force req then {[Host n]} ∪ F else F | None => F end, w')
| fs_edit F w ok f : (forall s, f (cur (f_store w)) = Ok s -> forall id, where_ <$> FindNode s id = where_ <$> node_of w id) -> fleet_step (F, w) (F, (editing ok f w).2)
| fs_restart F w st : Open fold ParseAddr loadCA (st_file (f_store w)) = Ok st -> fleet_step (F, w) (F, MkFleet st ∅ (f_put w)).

Definition fleet0 : fleet := MkFleet fresh ∅ ∅.

Record fleet_ok (F : gset string) (w : fleet) : Prop := {
  fl_inv : inv (f_store w);
  fl_hosts : forall i k n m, node_of w i = Some n -> node_of w k = Some m -> Host n = Host m -> i = k;
  fl_jobs : forall id j, f_jobs w !! id = Some j ->
    N_ID (ij_node j) = id /\ exists n, node_of w id = Some n /\ State_ n = NodeInstalling /\ Host n = Host (ij_node j) /\ f_put w !! Host n <> Some id;
  fl_put : forall h i, f_put w !! h = Some i -> i < next_id w /\ (h ∈ F \/ exists n, node_of w i = Some n /\ Host n = h)
}.

(** A change of one node, of its job and of what it has on servers. *)
Lemma change_ok F F' id w w' : fleet_ok F w -> only fold ParseAddr loadCA id w w' -> f_jobs w' = delete id (f_jobs w) -> F ⊆ F' ->
  (forall n', node_of w' id = Some n' -> exists n, node_of w id = Some n /\ Host n' = Host n) ->
  (forall h i, f_put w' !! h = Some i -> i <> id -> f_put w !! h = Some i) ->
  (forall h, f_put w' !! h = Some id -> id < next_id w /\ (h ∈ F' \/ exists n', node_of w' id = Some n' /\ Host n' = h)) -> fleet_ok F' w'.
Proof.
  intros [Hi Hh Hj Hp] (Hi' & Hn & Hrest) Hjobs HF Hnode Hput1 Hput2. split; [done|..].
  - assert (forall i n, node_of w' i = Some n -> exists m, node_of w i = Some m /\ Host n = Host m) as Hback.
    { intros i n Hin. destruct (decide (i = id)) as [->|Hne]; [by apply Hnode|]. rewrite Hrest in Hin by done. by exists n. }
    intros i k n m Hi1 Hk1 He. destruct (Hback i n Hi1) as (n0 & Hn0 & E1). destruct (Hback k m Hk1) as (m0 & Hm0 & E2). apply (Hh i k n0 m0); congruence.
  - intros i j. rewrite Hjobs. intros [Hne Hij]%lookup_delete_Some. destruct (Hj i j Hij) as (H1 & n & H2 & H3 & H4 & H5). split; [done|]. exists n.
    rewrite Hrest by done. split; [done|]. split; [done|]. split; [done|]. intros Hp'. apply H5. by apply Hput1.
  - intros h i Hhi. destruct (decide (i = id)) as [->|Hne]; [destruct (Hput2 h Hhi) as [H1 H2]; split; [lia|done]|].
    destruct (Hp h i (Hput1 h i Hhi Hne)) as [Hlt Hor]. split; [lia|]. destruct Hor as [HhF|(n & Hni & Hhn)]; [left; set_solver|right]. exists n. by rewrite Hrest.
Qed.

Lemma fleet_install F w v id j e w' : fleet_ok F w -> f_jobs w !! id = Some j -> runInstall fold ParseAddr loadCA error_text v j w = (e, w') -> fleet_ok F w'.
Proof.
  intros Hok Hj Hrun. destruct (fl_jobs F w Hok id j Hj) as (Hid & n & Hn & Hst & Hh & Hnot). pose proof (run_does fold ParseAddr loadCA error_text v j w (fl_inv F w Hok)) as Hd.
  rewrite Hrun in Hd. cbv zeta in Hd. rewrite Hid in Hd. destruct Hd as (Hjobs & Hon & He).
  assert (id < next_id w) as Hlt.
  { pose proof (sp_nodes _ _ _ _ (si_spec _ _ _ _ (fl_inv F w Hok))) as Hs. rewrite Forall_forall in Hs. apply FindNode_Some in Hn as [Hin <-]. by apply Hs. }
  assert (forall h, f_put w !! h = Some id -> h ∈ F) as Hmine by (intros h Hp; destruct (fl_put F w Hok h id Hp) as [_ [|(m & Hm & Hhm)]]; [done|congruence]).
  assert ((forall n', node_of w' id = Some n' -> Host n' = Host n) -> (f_put w' = f_put w \/ f_put w' = placed j w /\ is_Some (node_of w' id) \/ f_put w' = delete (Host n) (f_put w)) -> fleet_ok F w') as Hgo.
  { intros Hsame Hput. apply (change_ok F F id w w' Hok Hon Hjobs); [done| |..].
    - intros n' Hn'. exists n. split; [done|by apply Hsame].
    - intros h i Hp Hne. destruct Hput as [Hput|[[Hput _]|Hput]]; rewrite Hput in Hp; [done| |by apply lookup_delete_Some in Hp as [_ Hp]].
      unfold placed in Hp. rewrite Hid in Hp. apply lookup_insert_Some in Hp as [[_ Hp]|[_ Hp]]; [congruence|done].
    - intros h Hp. split; [done|]. destruct Hput as [Hput|[[Hput [n' Hn']]|Hput]]; rewrite Hput in Hp; [left; by apply Hmine| |left; apply lookup_delete_Some in Hp as [_ Hp]; by apply Hmine].
      unfold placed in Hp. apply lookup_insert_Some in Hp as [[Hhost _]|[_ Hp]]; [|left; by apply Hmine]. right. exists n'. split; [done|]. rewrite (Hsame n' Hn'). congruence. }
  destruct e as [|c [] t|].
  - destruct He as ((res & prov & Hr) & _ & Hput). rewrite Hn in Hr. apply Hgo; [intros n' Hn'; rewrite Hr in Hn'; by injection Hn' as <-|right; left; split; [done|by rewrite Hr]].
  - destruct He as [Hgone Hput]. apply Hgo; [by intros n' Hn'; rewrite Hgone in Hn'|by left].
  - destruct He as [Hgone Hput]. apply Hgo; [by intros n' Hn'; rewrite Hgone in Hn'|]. right; right. by rewrite Hput, Hh.
  - destruct He as [Hk Hput]. rewrite <-Hh in Hput. unfold kept in Hk. rewrite Hn in Hk. apply Hgo.
    + intros n' Hn'. destruct Hk as [Hk|[f Hk]]; rewrite Hk in Hn'; by injection Hn' as <-.
    + destruct Hput as [|[|]]; [by left| |by right; right]. right; left. split; [done|]. by destruct Hk as [Hk|[f Hk]]; rewrite Hk.
  - destruct He as [Hk Hput]. rewrite <-Hh in Hput. unfold kept in Hk. rewrite Hn in Hk. apply Hgo.
    + intros n' Hn'. destruct Hk as [Hk|[f Hk]]; rewrite Hk in Hn'; by injection Hn' as <-.
    + destruct Hput as [|[|]]; [by left| |by right; right]. right; left. split; [done|]. by destruct Hk as [Hk|[f Hk]]; rewrite Hk.
Qed.

Lemma idle_jobs w id : busy w id = false -> delete id (f_jobs w) = f_jobs w.
Proof. unfold busy. intros H%bool_decide_eq_false. apply delete_id. by apply eq_None_not_Some. Qed.

(** A node that is forgotten, once what it has on servers is taken off or known. *)
Lemma forget_step F F' w w1 id ok n : fleet_ok F w -> node_of w id = Some n -> busy w id = false -> F ⊆ F' ->
  f_store w1 = f_store w -> f_jobs w1 = f_jobs w -> (f_put w1 = f_put w /\ Host n ∈ F' \/ f_put w1 = delete (Host n) (f_put w)) ->
  fleet_ok F' (forgetNode fold ParseAddr loadCA ok id w1).2.
Proof.
  intros Hok Hn Hb HF Hst Hj Hput. assert (inv (f_store w1)) as Hi1 by (rewrite Hst; apply (fl_inv F w Hok)). pose proof (forget_does fold ParseAddr loadCA ok id w1 Hi1) as Hd.
  assert (id < next_id w) as Hlt.
  { pose proof (sp_nodes _ _ _ _ (si_spec _ _ _ _ (fl_inv F w Hok))) as Hs. rewrite Forall_forall in Hs. apply FindNode_Some in Hn as [Hin <-]. by apply Hs. }
  destruct (forgetNode _ _ _ ok id w1) as [r w2]; cbn [snd]. destruct Hd as (Hj2 & Hp2 & Hon & Hr).
  assert (forall n', node_of w2 id = Some n' -> n' = n) as Hsame.
  { intros n' Hn'. destruct r; [subst w2; unfold node_of in *; rewrite Hst in Hn'; congruence|congruence]. }
  apply (change_ok F F' id w w2 Hok); [| |done| | |].
  - unfold only, next_id, node_of in *. by rewrite Hst in Hon.
  - rewrite Hj2, Hj. symmetry. by apply idle_jobs.
  - intros n' Hn'. exists n. split; [done|]. by rewrite (Hsame n' Hn').
  - intros h i Hp _. rewrite Hp2 in Hp. destruct Hput as [[Hput _]|Hput]; rewrite Hput in Hp; [done|by apply lookup_delete_Some in Hp as [_ Hp]].
  - intros h Hp. split; [done|]. left. rewrite Hp2 in Hp. destruct Hput as [[Hput Hf]|Hput]; rewrite Hput in Hp.
    + destruct (fl_put F w Hok h id Hp) as [_ [|(m & Hm & <-)]]; [set_solver|]. congruence.
    + apply lookup_delete_Some in Hp as [Hne Hp]. destruct (fl_put F w Hok h id Hp) as [_ [|(m & Hm & <-)]]; [set_solver|]. congruence.
Qed.

Lemma grown F F' w : fleet_ok F w -> F ⊆ F' -> fleet_ok F' w.
Proof. intros [H1 H2 H3 H4] HF. split; [done..|]. intros h i Hp. destruct (H4 h i Hp) as [Hl [|]]; split; try done; [left; set_solver|by right]. Qed.

Lemma fleet_remove F w v id req r w' : fleet_ok F w -> RemoveNode fold ParseAddr loadCA v id req w = (r, w') ->
  fleet_ok (match node_of w id with Some n => if rr_Force req then {[Host n]} ∪ F else F | None => F end) w'.
Proof.
  intros Hok. unfold RemoveNode. unfold node_of at 1. destruct (FindNode (cur (f_store w)) id) as [n|] eqn:Hn; [|by intros [= _ <-]].
  set (F' := if rr_Force req then {[Host n]} ∪ F else F). assert (F ⊆ F') as HF by (unfold F'; destruct (rr_Force req); set_solver).
  assert (fleet_ok F' w) as Hsame by by apply (grown F). destruct (busy w id) eqn:Hb; [by intros [= _ <-]|].
  destruct (rr_Force req) eqn:Hforce, (rr_Login req) as [l|]; [by intros [= _ <-]| | |by intros [= _ <-]].
  - destruct (r_start v); [|by intros [= _ <-]]. unfold runRemove. rewrite Hn. intros Hr.
    assert (w' = (forgetNode fold ParseAddr loadCA (r_disk v) id w).2) as -> by (destruct (forgetNode _ _ _ (r_disk v) id w) as [[] ?]; by injection Hr as _ <-).
    apply (forget_step F F' w w id _ n); try done. left. split; [done|]. unfold F'. set_solver.
  - destruct (cleanLogin l) as [lg|]; [|by intros [= _ <-]]. destruct (negb (r_ops v)); [by intros [= _ <-]|]. destruct (r_start v); [|by intros [= _ <-]].
    unfold runRemove. rewrite Hn. destruct (r_uninstall v _ _); [by intros [= _ <-]|]. intros Hr.
    assert (w' = (forgetNode fold ParseAddr loadCA (r_disk v) id (taken_off n w)).2) as -> by (destruct (forgetNode _ _ _ (r_disk v) id (taken_off n w)) as [[] ?]; by injection Hr as _ <-).
    apply (forget_step F F' w (taken_off n w) id _ n); try done. by right.
Qed.

Lemma fleet_edit F w ok f : fleet_ok F w -> (forall s, f (cur (f_store w)) = Ok s -> forall id, where_ <$> FindNode s id = where_ <$> node_of w id) -> fleet_ok F (editing ok f w).2.
Proof.
  intros Hok Hf. pose proof (edit_does fold ParseAddr loadCA ok f w (fl_inv F w Hok)) as He. destruct (editing ok f w) as [[[]|e] w']; cbn [snd]; destruct He as (Hj & Hp & He); [|by subst w'].
  destruct He as (Hs & Hi' & Hn). specialize (Hf _ Hs). destruct Hok as [_ H2 H3 H4].
  assert (forall id n, node_of w' id = Some n -> exists m, node_of w id = Some m /\ where_ n = where_ m) as Hback.
  { intros id n Hid. specialize (Hf id). unfold node_of in Hid at 1. rewrite Hid in Hf. destruct (node_of w id) as [m|]; [|done]. exists m. split; [done|]. change (Some (where_ n) = Some (where_ m)) in Hf. congruence. }
  assert (forall id n, node_of w id = Some n -> exists m, node_of w' id = Some m /\ where_ n = where_ m) as Hforth.
  { intros id n Hid. specialize (Hf id). rewrite Hid in Hf. unfold node_of at 1. destruct (FindNode (cur (f_store w')) id) as [m|]; [|done]. exists m. split; [done|]. change (Some (where_ m) = Some (where_ n)) in Hf. congruence. }
  split; [done|..].
  - intros i k n m Hi1 Hk1 Hh. destruct (Hback i n Hi1) as (n0 & Hn0 & [= E1 _]). destruct (Hback k m Hk1) as (m0 & Hm0 & [= E2 _]). apply (H2 i k n0 m0); congruence.
  - intros id j Hij. rewrite Hj in Hij. destruct (H3 id j Hij) as (E1 & n & E2 & E3 & E4 & E5). destruct (Hforth id n E2) as (m & Hm & [= E6 E7]). split; [done|]. exists m. rewrite Hp. split_and!; congruence.
  - intros h i Hhi. rewrite Hp in Hhi. destruct (H4 h i Hhi) as [Hl Hor]. split; [lia|]. destruct Hor as [|(n & Hni & Hnh)]; [by left|right]. destruct (Hforth i n Hni) as (m & Hm & [= E _]). exists m. split; [done|congruence].
Qed.

Lemma open_settles st st' : inv st -> Open fold ParseAddr loadCA (st_file st) = Ok st' -> inv st' /\ cur st' = settleInstalls (cur st).
Proof.
  intros Hi Ho. split; [by apply (store_step_inv fold ParseAddr loadCA st st' Hi), st_restart|]. pose proof (si_file _ _ _ _ Hi) as Hf. unfold Open in Ho. destruct (st_file st) as [b|].
  - destruct Hf as (f & -> & Hs & Hc). rewrite Decode_Encode in Ho by done. cbn in Ho. injection Ho as <-. cbn [cur]. destruct Hc as [->| ->]; [done|by rewrite settle_idem].
  - injection Ho as <-. by rewrite Hf.
Qed.

Lemma settle_where n : where_ (settle n) = where_ n.
Proof. unfold settle, where_. by destruct (_ && _). Qed.

Lemma fleet_restart F w st : fleet_ok F w -> Open fold ParseAddr loadCA (st_file (f_store w)) = Ok st -> fleet_ok F (MkFleet st ∅ (f_put w)).
Proof.
  intros [H1 H2 H3 H4] Ho. destruct (open_settles _ _ H1 Ho) as [Hi Hc].
  assert (forall id, node_of (MkFleet st ∅ (f_put w)) id = settle <$> node_of w id) as Hnode by (intros id; unfold node_of; cbn [f_store]; by rewrite Hc, find_settled). split; [done|..].
  - intros i k n m. rewrite !Hnode. intros (n0 & Hn0 & ->)%fmap_Some (m0 & Hm0 & ->)%fmap_Some Hh. pose proof (settle_where n0) as [= E1 _]. pose proof (settle_where m0) as [= E2 _]. apply (H2 i k n0 m0); congruence.
  - intros id j. cbn [f_jobs]. by rewrite lookup_empty.
  - intros h i Hp. unfold next_id. cbn [f_store]. rewrite Hc. destruct (H4 h i Hp) as [Hl Hor]. split; [done|]. destruct Hor as [|(n & Hn & Hh)]; [by left|right].
    exists (settle n). rewrite Hnode, Hn. split; [done|]. pose proof (settle_where n) as [= E _]. congruence.
Qed.

Lemma checkNew_Ok running_ name host l : checkNew fold running_ name host l = Ok tt -> forall o, o ∈ l -> Host o <> host.
Proof.
  induction l as [|x l IH]; [by intros _ o Ho%elem_of_nil|]. cbn [checkNew]. destruct (_ && _); [done|]. case_bool_decide as Hx; [destruct (running_ _); [done|]; by destruct (negb _)|].
  intros Hc o [->|Ho]%elem_of_cons; [done|by apply IH].
Qed.

Lemma add_edit_shape running_ name host lg entry now bridge s s' n : add_edit fold ParseAddr running_ name host lg entry now bridge s = Ok (s', n) ->
  Nodes s' = Nodes s ++ [n] /\ N_ID n = NextNodeID s /\ State_ n = NodeInstalling /\ forall o, o ∈ Nodes s -> Host o <> Host n.
Proof.
  unfold add_edit. intros ([] & Hc & Ha)%rbind_Ok. unfold HubState.AddNode in Ha. apply rbind_Ok in Ha as ([] & Hcount%refuse_Ok & Ha). apply rbind_Ok in Ha as ([] & _ & Ha). injection Ha as <- <-.
  split; [done|]. split; [done|]. split; [done|]. apply Z.leb_gt in Hcount. rewrite (proj2 (Z.ltb_lt _ _) Hcount) in Hc. apply rbind_Ok in Hc as ([] & Hc & _). exact (checkNew_Ok _ _ _ _ Hc).
Qed.

(** A node that was added, with or without its job. *)
Lemma added_ok F w w1 ok running_ name host lg entry now bridge s' n : let add := add_edit fold ParseAddr running_ name host lg entry now bridge in
  fleet_ok F w -> editing ok (fun s => rbind (fun r => Ok r.1) (add s)) w = (Ok tt, w1) -> add (cur (f_store w)) = Ok (s', n) ->
  fleet_ok F w1 /\ f_jobs w1 = f_jobs w /\ node_of w1 (N_ID n) = Some n /\ State_ n = NodeInstalling /\ N_ID n < next_id w1 /\
  (forall h i, f_put w1 !! h = Some i -> i <> N_ID n) /\ f_jobs w !! N_ID n = None.
Proof.
  intros add Hok He Ha. pose proof (edit_does fold ParseAddr loadCA ok (fun s => rbind (fun r => Ok r.1) (add s)) w (fl_inv F w Hok)) as Hd. rewrite He in Hd.
  destruct Hd as (Hj & Hp & Hs & Hi' & Hle). rewrite Ha in Hs. cbn in Hs. injection Hs as Hs. apply add_edit_shape in Ha as (Hnodes & Hid & Hst & Hhost). rewrite Hs in Hnodes. destruct Hok as [H1 H2 H3 H4].
  pose proof (find_added _ n _ n (ids_distinct _ _ _ w H1) (ids_distinct _ _ _ w1 Hi') Hnodes eq_refl) as Hfind.
  assert (forall id, node_of w1 id = if id =? N_ID n then Some n else node_of w id) as Hnode by exact Hfind.
  assert (forall i m, node_of w i = Some m -> i <> N_ID n) as Hnew.
  { intros i m Him ->. pose proof (sp_nodes _ _ _ _ (si_spec _ _ _ _ H1)) as Hsp. rewrite Forall_forall in Hsp. apply FindNode_Some in Him as [Hin Hm]. destruct (Hsp m Hin) as [_ Hlt]. lia. }
  assert (N_ID n < next_id w1) as Hlt.
  { pose proof (sp_nodes _ _ _ _ (si_spec _ _ _ _ Hi')) as Hsp. rewrite Forall_forall in Hsp. apply (Hsp n). rewrite Hnodes. apply elem_of_app. right. by apply list_elem_of_singleton. }
  assert (forall i m, node_of w i = Some m -> node_of w1 i = Some m) as Hold by (intros i m Him; rewrite Hnode; by rewrite (proj2 (Z.eqb_neq _ _) (Hnew i m Him))).
  split; [|split; [done|split; [by rewrite Hnode, Z.eqb_refl|split; [done|split; [done|split]]]]].
  - split; [done|..].
    + intros i k a b. rewrite !Hnode. destruct (Z.eqb_spec i (N_ID n)) as [->|Hi], (Z.eqb_spec k (N_ID n)) as [->|Hk]; [done|intros [= <-] Hb Hh|intros Ha [= <-] Hh|by apply H2].
      * exfalso. apply FindNode_Some in Hb as [Hb _]. by apply (Hhost b Hb).
      * exfalso. apply FindNode_Some in Ha as [Ha _]. by apply (Hhost a Ha).
    + intros id j. rewrite Hj. intros Hij. destruct (H3 id j Hij) as (E1 & m & E2 & E3). split; [done|]. exists m. rewrite Hp. split; [by apply Hold|done].
    + intros h i. rewrite Hp. intros Hhi. destruct (H4 h i Hhi) as [Hl Hor]. split; [lia|]. destruct Hor as [|(m & Hm & Hh)]; [by left|right]. exists m. split; [by apply Hold|done].
  - intros h i. rewrite Hp. intros Hhi. destruct (H4 h i Hhi) as [Hl _]. unfold next_id in Hl. lia.
  - destruct (f_jobs w !! N_ID n) as [j|] eqn:Hjn; [|done]. destruct (H3 _ _ Hjn) as (_ & m & Hm & _). by destruct (Hnew _ _ Hm).
Qed.

Lemma fleet_add F w v req r w' : fleet_ok F w -> AddNode fold ParseAddr loadCA v req w = (r, w') -> fleet_ok F w'.
Proof.
  intros Hok. unfold AddNode. destruct (clean_request ParseAddr req) as [[[[name host] lg] target]|]; [|by intros [= _ <-]]. destruct (negb (a_ops v && a_jobs v)); [by intros [= _ <-]|].
  destruct (a_keys v) as [keys|]; [|by intros [= _ <-]]. destruct (a_bridge v) as [bridge|]; [|by intros [= _ <-]]. cbv zeta.
  set (add := add_edit fold ParseAddr (busy w) name host lg (iq_EntryPort req) (a_now v) bridge).
  pose proof (edit_does fold ParseAddr loadCA (a_disk v) (fun s => rbind (fun r => Ok r.1) (add s)) w (fl_inv F w Hok)) as Hd.
  destruct (editing (a_disk v) (fun s => rbind (fun r => Ok r.1) (add s)) w) as [[[]|e] w1] eqn:He; [|destruct Hd as (_ & _ & ->); by intros [= _ <-]].
  destruct (add (cur (f_store w))) as [[s' n]|] eqn:Ha; [|by destruct Hd as (_ & _ & Hd & _)]. destruct (added_ok F w w1 _ _ _ _ _ _ _ _ s' n Hok He Ha) as (Hok1 & Hj & Hn & Hst & Hlt & Hput & Hfree).
  destruct (a_start v); intros [= _ <-].
  - destruct Hok1 as [H1 H2 H3 H4]. split; [done|done| |done]. intros id j. cbn [f_jobs]. intros [[<- <-]|[Hne Hij]]%lookup_insert_Some; [|by apply H3].
    cbn [ij_node]. split; [done|]. exists n. split; [done|]. split; [done|]. split; [done|]. cbn [f_put]. intros Hh. by apply (Hput _ _ Hh).
  - pose proof (edit_does fold ParseAddr loadCA (a_undo_disk v) (fun s => HubState.RemoveNode s (N_ID n)) w1 (fl_inv F w1 Hok1)) as Hd2.
    destruct (editing (a_undo_disk v) (fun s => HubState.RemoveNode s (N_ID n)) w1) as [[[]|e] w2]; cbn [snd]; destruct Hd2 as (Hj2 & Hp2 & Hd2); [|by subst w2]. destruct Hd2 as (Hf & Hi2 & Hle).
    pose proof (find_removed _ _ _ (ids_distinct _ _ _ w1 (fl_inv F w1 Hok1)) Hf) as Hfind. assert (forall i, node_of w2 i = if i =? N_ID n then None else node_of w1 i) as Hnode by exact Hfind.
    apply (change_ok F F (N_ID n) w1 w2 Hok1); [| |done| | |].
    + split; [done|]. split; [done|]. intros i Hne. rewrite Hnode. by rewrite (proj2 (Z.eqb_neq _ _) Hne).
    + rewrite Hj2, Hj. by rewrite delete_id.
    + intros n'. by rewrite Hnode, Z.eqb_refl.
    + intros h i Hp _. by rewrite <-Hp2.
    + intros h Hp. rewrite Hp2 in Hp. by destruct (Hput h _ Hp).
Qed.

Lemma fleet_step_ok p p' : fleet_step p p' -> fleet_ok p.1 p.2 -> fleet_ok p'.1 p'.2.
Proof.
  intros [F w v req r w' Hs|F w v id j e w' Hj Hs|F w v id req r w' Hs|F w ok f Hf|F w st Ho] Hok; cbn [fst snd] in *.
  - by eapply fleet_add.
  - by eapply fleet_install.
  - by apply (fleet_remove F w v id req r).
  - by apply fleet_edit.
  - by apply fleet_restart.
Qed.

Lemma fleet0_ok : fleet_ok ∅ fleet0.
Proof. split; [apply fresh_inv|intros i k n m H; discriminate H|intros id j H; discriminate H|intros h i H; discriminate H]. Qed.

Lemma fleet_run_ok F w : rtc fleet_step (∅, fleet0) (F, w) -> fleet_ok F w.
Proof.
  intros Hr. assert (forall p p', rtc fleet_step p p' -> fleet_ok p.1 p.2 -> fleet_ok p'.1 p'.2) as Hgen.
  { intros p p' Hp. induction Hp as [|x y z Hxy _ IH]; [done|]. intros H. by apply IH, (fleet_step_ok x). }
  apply (Hgen _ _ Hr). apply fleet0_ok.
Qed.
End fleet.

(** C25. No server is forgotten. From an empty hub, through any nodes added, installs that
    succeed, fail anywhere or panic, nodes taken out with or without a login, other edits
    and restarts of the hub, with any writes failing: a server that may have something of
    an install on it is that of a node in the state, unless a node there was taken out by
    force; no two nodes are on one server; and every install that runs is of a node that
    is on record as being installed, at its server. *)
Theorem servers_known (fold : Z -> Z) (ParseAddr : string -> option Addr) (loadCA : string -> string -> bool) (error_text : error -> string)
    (forced : gset string) (w : fleet) (Hrun : rtc (fleet_step fold ParseAddr loadCA error_text) (∅, fleet0) (forced, w)) :
  (forall host id, f_put w !! host = Some id -> host ∉ forced -> exists n, node_of w id = Some n /\ Host n = host) /\
  (forall id id' n n', node_of w id = Some n -> node_of w id' = Some n' -> Host n = Host n' -> id = id') /\
  (forall id j, f_jobs w !! id = Some j -> exists n, node_of w id = Some n /\ State_ n = NodeInstalling /\ Host n = Host (ij_node j)).
Proof.
  destruct (fleet_run_ok _ _ _ _ _ _ Hrun) as [_ H2 H3 H4]. split; [|split; [done|]].
  - intros h i Hp Hf. by destruct (H4 h i Hp) as [_ [|]].
  - intros id j Hj. destruct (H3 id j Hj) as (_ & n & Hn & Hs & Hh & _). by exists n.
Qed.

(** ** Examples *)

Example plan_with_takeover : InstallPlanFor true = [StepCheckServer; StepDownloadAgent; StepCertificate; StepTakeOverXray; StepPrepareServer; StepUploadAgent; StepStartAgent; StepCheckAgent].
Proof. reflexivity. Qed.
Example versions_read : (xrayVersionOf "Xray 26.10.21 (Xray, Penetrates Everything.) 1b1647c (go1.26.1 linux/amd64)", xrayVersionOf "unknown", agentVersionOf " v1.4.0 ") = ("26.10.21", "", "1.4.0").
Proof. vm_compute. reflexivity. Qed.

Definition demo_text (e : error) : string := "the state couldn't be saved".
Definition demo_request : InstallRequest :=
  MkIReq (MkApiLogin 0 "" "hunter22" "" "" "SHA256:AAAAAAAAAAAAAAAAAAAAAAAAAAAAAAAAAAAAAAAAAAA") " Berlin " "VPS.example.org" 0 false "".
Definition demo_add : add_env := MkAddEnv true true (Some demo_keys) (Some (demo_uuid "9")) (10 ^ 18) true true true.
Definition fleet1 : fleet := (AddNode demo_fold demo_parse demo_ca demo_add demo_request fleet0).2.
Definition no_job : install_job := MkIJob new_node (MkLogin 0 "" "" (MkCreds "" "" "")) demo_keys false "".
Definition demo_job1 : install_job := default no_job (f_jobs fleet1 !! 1).
(** The agent goes on, no Reality target works, and the clean-up fails. *)
Definition bad_env : install_env :=
  MkIEnv (fun _ => false) (MkIRes "amd64" "v1.4.0" "" false true zeroTime zeroTime, None) None (Err "no target worked for hunter22") true StepChooseTarget (10 ^ 18)
    (Some "the server hung up") true true.
Definition fleet2 : fleet := (runInstall demo_fold demo_parse demo_ca demo_text bad_env demo_job1 fleet1).2.

Example same_server_refused : (AddNode demo_fold demo_parse demo_ca demo_add (MkIReq (iq_Login demo_request) "Paris" "vps.example.org" 0 false "") fleet2).1 =
  Err (Refused (ErrInvalid "An install on that server didn't finish. Clean it up or forget it on the Nodes tab first.")).
Proof. vm_compute. reflexivity. Qed.

Example failure_shown : (fun n => (Step (Failure n), HubState.StepKey (Failure n), F_Error (Failure n), Cleanup (Failure n))) <$> node_of fleet2 1 =
  Some (StepChooseTarget, "choose_target", "no target worked for " +:+ hidden, "the server hung up").
Proof. vm_compute. reflexivity. Qed.

Lemma failure_told_witness : clip (failed_Error "no target worked" keptAsIs true) MaxError = failed_Error "no target worked" keptAsIs true.
Proof. apply (failure_told "no target worked" keptAsIs true). vm_compute. reflexivity. Defined.

Lemma failure_recorded_witness : Failure_Validate (failure_of demo_text ["hunter22"] StepChooseTarget 0 (MkInstalled true true) (CProvision "no target worked for hunter22") "") = Ok tt.
Proof.
  apply (failure_recorded demo_text ["hunter22"] StepChooseTarget 0 (MkInstalled true true) (CProvision "no target worked for hunter22") "").
  - apply (bool_decide_unpack _). vm_compute. exact I.
  - vm_compute. discriminate.
  - left. reflexivity.
Defined.

Lemma fleet1_inv : store_inv demo_fold demo_parse demo_ca (f_store fleet1).
Proof.
  apply (fl_inv _ _ _ ∅). apply (fleet_add _ _ _ ∅ fleet0 demo_add demo_request (AddNode demo_fold demo_parse demo_ca demo_add demo_request fleet0).1); [apply fleet0_ok|].
  apply surjective_pairing.
Qed.

Lemma bad_told : told demo_fold demo_parse demo_ca demo_text bad_env demo_job1 fleet1.
Proof.
  split; [apply (bool_decide_unpack _); vm_compute; exact I|]. split; [|intros e; apply (bool_decide_unpack _); vm_compute; exact I].
  intros c did w' Hc. assert ((install demo_fold demo_parse demo_ca bad_env demo_job1 fleet1).1.1 = Failed (CProvision "no target worked for hunter22")) as Hf by reflexivity.
  rewrite Hc in Hf. cbn [fst] in Hf. injection Hf as ->. vm_compute. discriminate.
Qed.


Lemma fleet2_run : rtc (fleet_step demo_fold demo_parse demo_ca demo_text) (∅, fleet0) (∅, fleet2).
Proof.
  apply (rtc_l _ _ (∅, fleet1)); [apply (fs_add _ _ _ _ _ _ demo_add demo_request (AddNode demo_fold demo_parse demo_ca demo_add demo_request fleet0).1), surjective_pairing|].
  apply rtc_once, (fs_install _ _ _ _ _ _ bad_env 1 demo_job1 (runInstall demo_fold demo_parse demo_ca demo_text bad_env demo_job1 fleet1).1); [vm_compute; reflexivity|apply surjective_pairing].
Qed.

(** What is left on the server is that of the unfinished install. *)
Lemma servers_known_witness : f_put fleet2 !! "vps.example.org" = Some 1 /\ exists n, node_of fleet2 1 = Some n /\ Host n = "vps.example.org".
Proof.
  assert (f_put fleet2 !! "vps.example.org" = Some 1) as Hp by (vm_compute; reflexivity). split; [exact Hp|].
  apply (servers_known demo_fold demo_parse demo_ca demo_text ∅ fleet2 fleet2_run); [exact Hp|apply not_elem_of_empty].
Defined.
